(* ===== verification/_CoqProject ===== *)
-Q . S2P
Prelude.v
OrderedMap.v
CText.v
Versions.v
BitManipulator.v
Network.v
Buffers.v
StringMacros.v
StringLists.v
BinaryStrings.v
StringExpansion.v
ProgressBar.v
FiniteStateMachine.v
VStateMachine.v
RunControlStateMachine.v
WebUsers.v
RequestAccess.v
Jumble.v
Login.v
Accounts.v
UsersDatabase.v
Restart.v
SystemMessages.v
Doubles.v
TableViewColumnInfo.v
TableView.v
TableRows.v
TableInit.v
TableInvariant.v
TableBase.v
TableCompare.v
TableMerge.v
TableJSON.v
TableCSV.v
FESlowControlsChannel.v
SlowControls.v
FEMacros.v
FEVInterfacesManager.v
CoreSupervisorBase.v
SupervisorInfo.v
Broadcast.v
