(* ===== verification/Prelude.v ===== *)
(** * otsdaq: a model of its core in Rocq, and what makes it correct

    otsdaq is a C++ data-acquisition framework.  A Gateway serves web users,
    checks and passes their requests to the supervisors, and drives these
    through a run-control state machine; the supervisors read their settings
    from versioned tables; front ends talk to hardware over UDP and TCP and put
    the data into ring buffers that processors read.  This library translates
    the parts of src/otsdaq/ that hold state or make decisions and proves what
    they promise.  It is a shallow embedding: a C++ function is a Gallina
    function of the same name.

    ** Conventions

    - Integers are [Z]; an operation of a w-bit type is followed by its
      wrap-around ([wrap], [u8], [u32], [u64], [s32] of this file).  A [char] is
      an [ascii], a [std::string] or [char*] a [text] (a list of them; [c_str]
      cuts at the NUL where the code prints with %s).
    - A function that may throw returns a [result]; undefined behaviour (an
      index out of range, an unset variable, a null pointer) is the outcome
      [Throw Undefined], so a theorem that says [Ok] excludes it.  Member
      functions are functions of the state monad [M S A] := S -> result A * S,
      which keeps the changes made before an exception.
    - A loop is structural, or has fuel that a theorem proves enough (the length
      of the text or of the list it walks, named at the definition).  The clock,
      rand(), the kernel's answers, hash functions, the bound functions of a
      state machine and whether a file can be written are arguments; a file is
      the text it holds.
    - Output ([__COUT__], traces) is left out, mutexes too: an operation of the
      model is what one call does while it holds its mutex.

    ** The files, their sources and their theorems

    - Prelude.v (this file): results and monads, wrap-around, shared lemmas.
      OrderedMap.v: std::map as the list of its pairs in the order of the keys.
      CText.v: the parts of the C library on texts (decimal and hexadecimal
      conversions, rfind, substr).
    - Versions.v: TableCore/TableVersion.cc, TableGroupKey.cc.  Successor
      functions on every class of version, full group names in and out.
    - BitManipulator.v: BitManipulator.cc.  Fields of words and byte strings.
    - Network.v: NetworkUtilities/NetworkConverters.cc, TCPPacket.cc and the
      packet sockets.  A byte stream is reassembled into exactly the messages
      sent, however it is cut; sending is complete whatever the kernel accepts.
    - Buffers.v: DataManager/BufferImplementation.icc and CircularBuffer.icc.
      The ring of slots with its flags and pointers refines one bounded queue
      per (high-priority) consumer ([ring_refines_queues]); nothing is lost,
      doubled or reordered; a reader polls every producer.
    - StringMacros.v, StringLists.v, StringExpansion.v, BinaryStrings.v:
      Macros/StringMacros.cc and .icc, BinaryStringMacros.cc and .icc: wild
      cards, escaping for SQL, URIs, JSON and HTML, lists and maps in strings,
      number expressions, variable expansion, fields of XML text, values in
      byte strings.
    - ProgressBar.v: ProgressBar/ProgressBar.cc.
    - FiniteStateMachine.v: the framework machine (XdaqLite) and
      FiniteStateMachine/FiniteStateMachine.cc on it.  RunControlStateMachine.v:
      the transition diagram and runControlMessageHandler with its iterations,
      retransmissions, conversions, asynchronous errors and detached threads;
      whatever the bound functions do, the machine stays in the diagram and a
      failure is never answered as success.  VStateMachine.v: the interface of
      the iterating plugins.
    - WebUsers.v, RequestAccess.v, Jumble.v, Login.v, Accounts.v,
      UsersDatabase.v, Restart.v, SystemMessages.v: WebUsersUtilities/WebUsers.cc
      and .h.  WebUsers.v has the tables, the sessions and their cookie codes,
      expiry and the lock; RequestAccess.v the whole check of a request at the
      Gateway and in a supervisor; Jumble.v and Login.v what a login attempt
      sends and does; Accounts.v the accounts and permission strings;
      UsersDatabase.v and Restart.v the files and the constructor that reads
      them; SystemMessages.v the messages to users.  Together, with security on: a
      request that needs a user is passed only for the live session of an active
      account with the lock asked for (and, where the default group's level is
      the documented one, the level); a session exists only for who had the
      password, a new account never inherits a session, a logout revokes the
      sessions it names, and a restart restores what was last written to each
      file, if the file can hold it ([readable]).

    - Doubles.v: getNumber<double> (Macros/StringMacros.icc) in binary64.
      TableViewColumnInfo.v: TableCore/TableViewColumnInfo.cc.  TableView.v,
      TableRows.v, TableInit.v, TableInvariant.v: TableCore/TableView.cc, .h and
      .icc: one version of a table.  TableView.v has its state, lookup and typed
      values; TableRows.v groups, generated values and rows (a generated value
      is new, the rows of a group come out by priority, copying inserts exactly
      what was asked for); TableInit.v the verification [init], and
      TableInvariant.v the invariant [wellFormed] that it establishes, with the
      exact change of every cell, and that it accepts without a change.
    - TableBase.v, TableCompare.v, TableMerge.v: TableCore/TableBase.cc and .h: the versions of
      a table.  TableBase.v has the cache of views, its active view and the
      making, copying and trimming of versions (consistent after any sequence of
      calls, no dangling active view, the views used last stay); TableCompare.v
      the search for a version with the same content and the report of
      differences, against what the rows hold up to order, author and time;
      TableMerge.v the merge of two views in its three modes, with what it
      does to the records (none is lost, no UID is used twice) and to the maps
      by which links between tables are converted.
    - TableJSON.v, TableCSV.v: the texts of a view in TableCore/TableView.cc.
      What is written as JSON or CSV is read back unchanged, and what the web
      editor sends changes the rows and stamps exactly those that differ.

    - FESlowControlsChannel.v, SlowControls.v, FEMacros.v: FECore/: the channels
      of slow controls (FESlowControlsChannel.cc), the loop that reads them
      once a second and the macros of front ends (FEVInterface.cc,
      FEVInterfacesManager.cc).  What is sent of a run of samples is read back
      by the documented packets, a latched alarm is sent once, datagrams hold
      whole packets (as long as the socket sends), a scan visits every channel; a macro does what its
      commands say, arguments arrive as they were sent, and a front end runs a
      macro of another only if it is on its access list.
    - FEVInterfacesManager.v: the run-control commands of the front ends of one
      supervisor (FECore/FEVInterfacesManager.cc): by priority, with rounds that
      iterate together and rounds that one front end iterates alone.
      CoreSupervisorBase.v: CoreSupervisors/CoreSupervisorBase.cc and, with its
      own Configure and Halt, FESupervisor.cc: a supervisor on top of run control, from the message that
      arrives to the commands its front ends receive
      ([transition_reaches_front_ends]), with its error paths.
    - SupervisorInfo.v: SupervisorInfo/: the status of the supervisors, of their
      subapps and disks, and the order in which a command is sent to them.
    - Broadcast.v: GatewaySupervisor/GatewaySupervisor.cc: how the Gateway takes
      all supervisors through a transition in that order, with its nested
      iterations ([broadcast_sends_what_is_asked], [failed_level_is_the_last]), and
      waits for the Gateways of other subsystems ([remotes_are_awaited]).  The
      fuel of a broadcast bounds its loops, which the code does not; the theorems
      say how much is enough.  The pool of broadcast threads is not modelled.

    The files of WebUsers.cc share one state, [WebUsers.WebUsers]; run control
    uses the machine of FiniteStateMachine.v and the progress bar; a broadcast uses
    both and the order of SupervisorInfo.v, and what it sends is what the handler
    of RunControlStateMachine.v gets in CoreSupervisorBase.v; the readers
    of permission strings and of files use StringLists.v and StringExpansion.v.  Where a theorem supports a finding about the code (what
    the code does otherwise than meant), a lemma with a concrete run follows it.

    ** Not modelled

    Console and trace output, SOAP and XML documents (wrappers of xoap and
    Xerces; a message is its command and parameters), operating-system sockets
    and threads, the database library, ROOT and artdaq glue.  The
    configuration manager, its tree and the table plugins read a database of
    documents that is not part of the repository; what they hand to the parts
    modelled here is an argument of the definitions. *)

From Stdlib Require Export ZArith Lia Ascii String List.
From stdpp Require Export base tactics numbers list gmap sets strings.
Set Default Proof Using "Type".

#[global] Open Scope Z_scope.

(** ** Exceptions and the error monad

    A C++ function that may throw returns a [result].  The constructors of
    [exn] are the exception classes the modelled code distinguishes. *)

Inductive exn :=
| RuntimeError (* std::runtime_error, thrown by __SS_THROW__ and __SS_ONLY_THROW__ *)
| OutOfRange   (* std::out_of_range, thrown by at(), substr(), replace(), ... *)
| FsmException (* toolbox::fsm::exception::Exception, thrown by XCEPT_RAISE *)
| OtherExn     (* any other class, seen only by catch(...) *)
| Undefined.   (* not an exception: the C++ run has undefined behaviour here;
                  no catch clause of the model handles it *)

#[export] Instance exn_eq_dec : EqDecision exn.
Proof. solve_decision. Defined.

Inductive result (A : Type) :=
| Ok (a : A)
| Throw (e : exn).
Arguments Ok {A} a.
Arguments Throw {A} e.

#[export] Instance result_ret : MRet result := fun A a => Ok a.
#[export] Instance result_bind : MBind result := fun A B f m =>
  match m with Ok a => f a | Throw e => Throw e end.
#[export] Instance result_fmap : FMap result := fun A B f m =>
  match m with Ok a => Ok (f a) | Throw e => Throw e end.
#[export] Instance result_eq_dec {A} `{EqDecision A} : EqDecision (result A).
Proof. solve_decision. Defined.

Definition is_ok {A} (r : result A) : bool :=
  match r with Ok _ => true | Throw _ => false end.

(** A member function that may throw and changes the object: the state stays
    as the function left it when it throws. *)
Definition M (S A : Type) : Type := S -> result A * S.

#[export] Instance M_ret {S} : MRet (M S) := fun A a s => (Ok a, s).
#[export] Instance M_bind {S} : MBind (M S) := fun A B f m s =>
  match m s with
  | (Ok a, s) => f a s
  | (Throw e, s) => (Throw e, s)
  end.

Definition throw {S A} (e : exn) : M S A := fun s => (Throw e, s).
Definition gets {S A} (f : S -> A) : M S A := fun s => (Ok (f s), s).
Definition modify {S} (f : S -> S) : M S unit := fun s => (Ok tt, f s).
Definition lift {S A} (r : result A) : M S A := fun s => (r, s).
(** [try { m } catch(...) { h }] for the exceptions [sel] selects. *)
Definition catch_if {S A} (sel : exn -> bool) (m : M S A) (h : exn -> M S A) : M S A := fun s =>
  match m s with
  | (Throw e, s) => if sel e then h e s else (Throw e, s)
  | r => r
  end.
Definition any_exn (e : exn) : bool := match e with Undefined => false | _ => true end.
Definition fsm_exn (e : exn) : bool := match e with FsmException => true | _ => false end.
Abbreviation catch_all := (catch_if any_exn).

Lemma bind_ok {S A B} (m : M S A) (f : A -> M S B) s a s' :
  m s = (Ok a, s') -> (m ≫= f) s = f a s'.
Proof. intros H. unfold mbind, M_bind. by rewrite H. Qed.
Lemma bind_throw {S A B} (m : M S A) (f : A -> M S B) s e s' :
  m s = (Throw e, s') -> (m ≫= f) s = (Throw e, s').
Proof. intros H. unfold mbind, M_bind. by rewrite H. Qed.

Lemma bind_inv {S A B} (m : M S A) (f : A -> M S B) s b s' :
  (m ≫= f) s = (Ok b, s') <-> exists a s1, m s = (Ok a, s1) /\ f a s1 = (Ok b, s').
Proof.
  unfold mbind, M_bind. destruct (m s) as [[a|e] s1]; split; [|by intros (? & ? & [= <- <-] & ?)|done|by intros (? & ? & ? & ?)].
  intros H. by exists a, s1.
Qed.

Lemma run_result {S A} (m : M S A) s r s' a : m s = (r, s') -> (m s).1 = a -> r = a.
Proof. intros H <-. by rewrite H. Qed.

(** [keeps P m]: the function preserves [P], whether it returns or throws. *)
Definition keeps {S A} (P : S -> Prop) (m : M S A) : Prop := forall s, P s -> P (m s).2.

Create HintDb keeps.

Lemma keeps_ret {S A} (P : S -> Prop) (a : A) : keeps P (mret a).
Proof. by intros s Hs. Qed.
Lemma keeps_throw {S A} (P : S -> Prop) e : keeps P (throw e : M S A).
Proof. by intros s Hs. Qed.
Lemma keeps_gets {S A} (P : S -> Prop) (f : S -> A) : keeps P (gets f).
Proof. by intros s Hs. Qed.
Lemma keeps_lift {S A} (P : S -> Prop) (r : result A) : keeps P (lift r).
Proof. by intros s Hs. Qed.
Lemma keeps_modify {S} (P : S -> Prop) f : (forall s, P s -> P (f s)) -> keeps P (modify f).
Proof. intros Hf s Hs. by apply Hf. Qed.
Lemma keeps_bind {S A B} (P : S -> Prop) (m : M S A) (f : A -> M S B) :
  keeps P m -> (forall a, keeps P (f a)) -> keeps P (m ≫= f).
Proof.
  intros Hm Hf s Hs. specialize (Hm s Hs). unfold mbind, M_bind.
  destruct (m s) as [[a|e] s']; [by apply Hf|done].
Qed.
Lemma keeps_catch {S A} (P : S -> Prop) sel (m : M S A) h :
  keeps P m -> (forall e, keeps P (h e)) -> keeps P (catch_if sel m h).
Proof.
  intros Hm Hh s Hs. specialize (Hm s Hs). unfold catch_if.
  destruct (m s) as [[a|e] s']; [done|]. destruct (sel e); [by apply Hh|done].
Qed.
Lemma keeps_if {S A} (P : S -> Prop) (b : bool) (m1 m2 : M S A) :
  keeps P m1 -> keeps P m2 -> keeps P (if b then m1 else m2).
Proof. by destruct b. Qed.
(** [safe P m]: from [P] the run is defined, and preserves [P]. *)
Definition safe {S A} (P : S -> Prop) (m : M S A) : Prop :=
  forall s, P s -> P (m s).2 /\ (m s).1 <> Throw Undefined.

Lemma safe_keeps {S A} (P : S -> Prop) (m : M S A) : safe P m -> keeps P m.
Proof. intros Hm s Hs. by apply Hm. Qed.
Lemma safe_ret {S A} (P : S -> Prop) (a : A) : safe P (mret a).
Proof. by intros s Hs. Qed.
Lemma safe_throw {S A} (P : S -> Prop) e : e <> Undefined -> safe P (throw e : M S A).
Proof. intros He s Hs. split; [done|]. cbn. congruence. Qed.
Lemma safe_gets {S A} (P : S -> Prop) (f : S -> A) : safe P (gets f).
Proof. by intros s Hs. Qed.
Lemma safe_modify {S} (P : S -> Prop) f : (forall s, P s -> P (f s)) -> safe P (modify f).
Proof. intros Hf s Hs. split; [by apply Hf|done]. Qed.
Lemma safe_bind {S A B} (P : S -> Prop) (m : M S A) (f : A -> M S B) :
  safe P m -> (forall a, safe P (f a)) -> safe P (m ≫= f).
Proof.
  intros Hm Hf s Hs. destruct (Hm s Hs) as [Hk Hd]. unfold mbind, M_bind.
  destruct (m s) as [[a|e] s']; cbn in *; [by apply Hf|]. split; [done|]. congruence.
Qed.
Lemma safe_if {S A} (P : S -> Prop) (b : bool) (m1 m2 : M S A) :
  safe P m1 -> safe P m2 -> safe P (if b then m1 else m2).
Proof. by destruct b. Qed.
#[export] Hint Resolve safe_ret safe_gets safe_bind safe_if : keeps.

#[export] Hint Resolve keeps_ret keeps_throw keeps_gets keeps_lift keeps_bind keeps_catch keeps_if : keeps.

(** ** Machine integers

    A [w]-bit unsigned integer is a [Z] in [0, 2^w); every arithmetic result
    is reduced with [wrap]. *)

Definition wrap (w z : Z) : Z := z mod 2 ^ w.
Definition swrap (w z : Z) : Z := (z + 2 ^ (w - 1)) mod 2 ^ w - 2 ^ (w - 1).
Definition in_range (w z : Z) : Prop := 0 <= z < 2 ^ w.

Abbreviation u8 := (wrap 8).
Abbreviation u16 := (wrap 16).
Abbreviation u32 := (wrap 32).
Abbreviation u64 := (wrap 64).
Abbreviation s32 := (swrap 32).

Lemma Ok_inj {A} (a b : A) : Ok a = Ok b -> a = b.
Proof. by intros [= ->]. Qed.
Lemma s32_small z : - 2 ^ 31 <= z < 2 ^ 31 -> s32 z = z.
Proof. intros H. unfold swrap. change (2 ^ (32 - 1)) with (2 ^ 31). rewrite Z.mod_small by lia. lia. Qed.

Create Rewrite HintDb zbits.

Lemma pow2_pos w : 0 <= w -> 0 < 2 ^ w.
Proof. intros. apply Z.pow_pos_nonneg; lia. Qed.

Lemma wrap_range w z : 0 <= w -> in_range w (wrap w z).
Proof. intros. apply Z.mod_pos_bound, pow2_pos; lia. Qed.

Lemma wrap_small w z : in_range w z -> wrap w z = z.
Proof. apply Z.mod_small. Qed.

Lemma wrap_wrap w z : 0 <= w -> wrap w (wrap w z) = wrap w z.
Proof. intros. apply wrap_small, wrap_range; lia. Qed.

Lemma testbit_wrap w z i :
  0 <= w -> Z.testbit (wrap w z) i = (i <? w) && Z.testbit z i.
Proof.
  intros Hw. unfold wrap. destruct (Z.ltb_spec i w); simpl.
  - destruct (Z.neg_nonneg_cases i); [by rewrite !Z.testbit_neg_r by lia|].
    by rewrite Z.mod_pow2_bits_low.
  - by rewrite Z.mod_pow2_bits_high by lia.
Qed.

Lemma testbit_shiftl z n i :
  Z.testbit (Z.shiftl z n) i = (0 <=? i) && Z.testbit z (i - n).
Proof.
  destruct (Z.leb_spec 0 i); simpl.
  - by rewrite Z.shiftl_spec.
  - by rewrite Z.testbit_neg_r.
Qed.

Lemma testbit_shiftr z n i :
  Z.testbit (Z.shiftr z n) i = (0 <=? i) && Z.testbit z (i + n).
Proof.
  destruct (Z.leb_spec 0 i); simpl.
  - by rewrite Z.shiftr_spec.
  - by rewrite Z.testbit_neg_r.
Qed.

Lemma testbit_one i : Z.testbit 1 i = (i =? 0).
Proof.
  destruct (Z.eqb_spec i 0) as [->|]; [done|].
  destruct (Z.neg_nonneg_cases i); [by rewrite Z.testbit_neg_r|].
  by rewrite Z.bits_above_log2 by (simpl; lia).
Qed.

Lemma testbit_ones n i : 0 <= n -> Z.testbit (Z.ones n) i = (0 <=? i) && (i <? n).
Proof.
  intros. destruct (Z.leb_spec 0 i); simpl.
  - destruct (Z.ltb_spec i n).
    + apply Z.ones_spec_low; lia.
    + apply Z.ones_spec_high; lia.
  - by rewrite Z.testbit_neg_r.
Qed.

Lemma testbit_lnot z i : Z.testbit (Z.lnot z) i = (0 <=? i) && negb (Z.testbit z i).
Proof.
  destruct (Z.leb_spec 0 i); simpl.
  - by rewrite Z.lnot_spec.
  - by rewrite Z.testbit_neg_r.
Qed.

Lemma testbit_range w z i : in_range w z -> w <= i -> Z.testbit z i = false.
Proof.
  intros [H0 H1] Hi. destruct (decide (z = 0)) as [->|]; [apply Z.bits_0|].
  apply Z.bits_above_log2; [lia|]. apply Z.log2_lt_pow2; [lia|].
  assert (0 <= w). { destruct (Z.neg_nonneg_cases w); [|done].
    rewrite Z.pow_neg_r in H1; lia. }
  eapply Z.lt_le_trans; [exact H1|]. apply Z.pow_le_mono_r; lia.
Qed.

Lemma in_range_testbit w z :
  0 <= w -> 0 <= z -> (forall i, w <= i -> Z.testbit z i = false) -> in_range w z.
Proof.
  intros Hw Hz H. assert (z = wrap w z) as ->; [|by apply wrap_range].
  apply Z.bits_inj'. intros i Hi. rewrite testbit_wrap by lia.
  destruct (Z.ltb_spec i w); [done|]. by rewrite H by lia.
Qed.

#[export] Hint Rewrite Z.lor_spec Z.land_spec Z.lxor_spec Z.ldiff_spec Z.bits_0
  testbit_shiftl testbit_shiftr testbit_one testbit_lnot : zbits.
#[export] Hint Rewrite testbit_wrap testbit_ones using lia : zbits.

(** [bitwise i Hi] proves an equation between integers bit by bit; the
    comparisons that remain are decided by [lia]. *)
Ltac bool_cmp :=
  repeat match goal with
  | |- context [ ?a <? ?b ] => destruct (Z.ltb_spec a b)
  | |- context [ ?a <=? ?b ] => destruct (Z.leb_spec a b)
  | |- context [ ?a =? ?b ] => destruct (Z.eqb_spec a b)
  end.
(** [bool_taut] closes a propositional goal over comparisons and bits. *)
Ltac bool_taut :=
  repeat match goal with
  | |- context [ Z.testbit ?a ?b ] => destruct (Z.testbit a b)
  | |- context [ ?a <? ?b ] => destruct (a <? b)
  | |- context [ ?a <=? ?b ] => destruct (a <=? b)
  | |- context [ ?a =? ?b ] => destruct (a =? b)
  end; done.
Ltac bitwise i Hi := apply Z.bits_inj'; intros i Hi; autorewrite with zbits.

(** ** Lists *)

Lemma fold_left_app_inv {A B} (f : A -> B -> A) l1 l2 a :
  fold_left f (l1 ++ l2) a = fold_left f l2 (fold_left f l1 a).
Proof. apply fold_left_app. Qed.

(** Invariant rule for a left fold, the shape of a C++ [for] loop. *)
Lemma fold_left_ind {A B} (I : list B -> A -> Prop) (f : A -> B -> A) l a :
  I [] a ->
  (forall pre x post b, l = pre ++ x :: post -> I pre b -> I (pre ++ [x]) (f b x)) ->
  I l (fold_left f l a).
Proof.
  intros H0 Hs.
  enough (forall done todo b, l = done ++ todo -> I done b -> I l (fold_left f todo b))
    as G by (apply (G []); auto).
  intros done todo. revert done. induction todo as [|x todo IH]; intros done b Hl Hb; simpl.
  - by rewrite app_nil_r in Hl; subst.
  - apply (IH (done ++ [x])); [by rewrite <- app_assoc|]. by eapply Hs.
Qed.

(** ** The first index that satisfies a test *)

Fixpoint search {A} (p : A -> bool) (l : list A) : option nat :=
  match l with
  | [] => None
  | a :: l => if p a then Some 0%nat else S <$> search p l
  end.
Lemma search_some {A} (p : A -> bool) l i : search p l = Some i -> exists a, l !! i = Some a /\ p a = true.
Proof.
  revert i. induction l as [|a l IH]; intros i; cbn; [done|]. destruct (p a) eqn:Hp.
  - intros [= <-]. by exists a.
  - destruct (search p l) as [j|]; [|done]. intros [= <-]. by apply IH.
Qed.
Lemma search_none {A} (p : A -> bool) l : search p l = None <-> forall a, a ∈ l -> p a = false.
Proof.
  induction l as [|a l IH]; cbn.
  - split; [intros _ b Hb; by apply elem_of_nil in Hb|done].
  - destruct (p a) eqn:Hp; cbn.
    + split; [done|]. intros H. specialize (H a). rewrite Hp in H. discriminate H. left.
    + rewrite fmap_None, IH. split.
      * intros H b Hb. apply elem_of_cons in Hb as [->|Hb]; [done|by apply H].
      * intros H b Hb. apply H. by right.
Qed.
Lemma search_in {A} (p : A -> bool) l a : a ∈ l -> p a = true -> exists i, search p l = Some i.
Proof.
  intros Ha Hp. destruct (search p l) as [i|] eqn:H; [by exists i|].
  rewrite search_none in H. by rewrite (H a Ha) in Hp.
Qed.
Lemma search_key {A B} (k : A -> B) (p : A -> bool) l a :
  NoDup (map k l) -> a ∈ l -> (forall b, p b = true <-> k b = k a) -> exists i, search p l = Some i /\ l !! i = Some a.
Proof.
  intros Hn Ha Hp. destruct (search_in p l a Ha) as [i Hi]; [by apply Hp|].
  exists i. split; [done|]. destruct (search_some _ _ _ Hi) as (b & Hb & He).
  apply Hp in He. apply list_elem_of_lookup in Ha as [j Hj].
  assert (i = j) as ->; [|done]. change (map k l) with (k <$> l) in Hn.
  refine (NoDup_lookup (k <$> l) i j (k a) Hn _ _).
  - rewrite <- He. by rewrite list_lookup_fmap, Hb.
  - by rewrite list_lookup_fmap, Hj.
Qed.
Lemma search_app_some {A} (p : A -> bool) l l' i : search p l = Some i -> search p (l ++ l') = Some i.
Proof.
  revert i. induction l as [|a l IH]; intros i; cbn; [done|]. destruct (p a); [done|].
  destruct (search p l) as [j|]; [|done]. intros [= <-]. by rewrite (IH j eq_refl).
Qed.
Lemma search_app_new {A} (p : A -> bool) l a : search p l = None -> p a = true -> search p (l ++ [a]) = Some (length l).
Proof.
  induction l as [|b l IH]; intros Hl Ha; cbn in *; [by rewrite Ha|]. destruct (p b); [done|].
  apply fmap_None in Hl. by rewrite (IH Hl Ha).
Qed.
(** Nothing before the first index satisfies the test. *)
Lemma search_before {A} (p : A -> bool) l i j a : search p l = Some i -> (j < i)%nat -> l !! j = Some a -> p a = false.
Proof.
  revert i j. induction l as [|b l IH]; intros i j; cbn; [done|]. destruct (p b) eqn:Hb.
  - intros [= <-]. lia.
  - destruct (search p l) as [k|]; [|done]. intros [= <-] Hj. destruct j as [|j]; cbn; [by intros [= <-]|].
    apply (IH k); [done|lia].
Qed.
Lemma NoDup_map_snoc {A B} (k : A -> B) (l : list A) a : NoDup (map k l) -> ~ k a ∈ map k l -> NoDup (map k (l ++ [a])).
Proof.
  intros Hl Ha. rewrite map_app. apply NoDup_app. split_and!; [done| |apply NoDup_singleton].
  intros x Hx Hin. apply list_elem_of_singleton in Hin as ->. by apply Ha.
Qed.

Lemma mapM_ok {A B} (f : A -> result B) (g : A -> B) l : (forall a, a ∈ l -> f a = Ok (g a)) -> mapM f l = Ok (map g l).
Proof.
  induction l as [|a l IH]; intros H; [done|]. cbn [mapM map]. rewrite H by left. cbn [mbind result_bind]. rewrite IH by (intros b Hb; apply H; by right). done.
Qed.
Lemma map_lookup {A B} (f : A -> B) (l : list A) i : map f l !! i = f <$> l !! i.
Proof. apply list_lookup_fmap. Qed.
Lemma NoDup_map_lfilter {A B} (k : A -> B) (p : A -> bool) (l : list A) : NoDup (map k l) -> NoDup (map k (List.filter p l)).
Proof.
  induction l as [|a l IH]; intros Hn; cbn; [done|]. cbn in Hn. apply NoDup_cons in Hn as [Ha Hn]. destruct (p a); [|by apply IH].
  cbn. apply NoDup_cons. split; [|by apply IH]. intros (b & Hb & Hin)%list_elem_of_fmap. apply Ha. rewrite Hb. apply list_elem_of_fmap.
  exists b. split; [done|]. apply list_elem_of_In, filter_In in Hin as [Hin _]. by apply list_elem_of_In.
Qed.

Lemma filter_twice {A} (p q : A -> bool) (l : list A) : List.filter p (List.filter q l) = List.filter (fun a => q a && p a) l.
Proof. induction l as [|a l IH]; cbn; [done|]. destruct (q a); cbn; [|done]. by destruct (p a); rewrite IH. Qed.

(** ** Updates in the middle of a list *)

Lemma list_insert_alter {A} (f : A -> A) (l : list A) i x : <[i := x]> (alter f i l) = <[i := x]> l.
Proof. revert i. induction l as [|a l IH]; intros [|i]; cbn; [done..|]. f_equal. apply IH. Qed.
Lemma list_alter_lookup {A} (f : A -> A) (l : list A) i x : l !! i = Some x -> alter f i l = <[i := f x]> l.
Proof. revert i. induction l as [|a l IH]; intros [|i]; cbn; [done..|by intros [= ->]|]. intros H. f_equal. by apply IH. Qed.
Lemma insert_middle {A} k (data : list A) x y : (k <= length data)%nat -> <[k := y]> (take k data ++ x :: drop k data) = take k data ++ y :: drop k data.
Proof.
  intros Hk. replace k with (length (take k data) + 0)%nat at 1 by (rewrite length_take; lia). by rewrite insert_app_r.
Qed.
Lemma lookup_middle {A} k (data : list A) x : (k <= length data)%nat -> (take k data ++ x :: drop k data) !! k = Some x.
Proof. intros Hk. apply list_lookup_middle. rewrite length_take. lia. Qed.
Lemma map_seq_lookup {A} (d : A) (l : list A) n : length l = n -> map (fun c => nth c l d) (seq 0 n) = l.
Proof.
  intros <-. apply list_eq. intros i. change (map ?f ?l) with (f <$> l). rewrite list_lookup_fmap.
  destruct (decide (i < length l)%nat) as [Hi|Hi].
  - rewrite lookup_seq_lt by done. cbn. destruct (lookup_lt_is_Some_2 l i Hi) as [x Hx]. rewrite Hx. f_equal. by apply nth_lookup_Some.
  - rewrite !lookup_ge_None_2; [done|lia|rewrite length_seq; lia].
Qed.

