(* ===== verification/OrderedMap.v ===== *)
(** * std::map

    A [std::map] is the list of its pairs in the order of the keys, which is the
    order of its iterators.  Keys are compared with [operator<] only, as the
    library does: [Ordered] is the operator, [OrderedLaws] what it promises.
    (Where the order of the keys does not matter the models use [gmap].) *)

From Stdlib Require Import Sorted.
From S2P Require Import Prelude.

Class Ordered (K : Type) := key_lt : K -> K -> bool.
Class OrderedLaws (K : Type) `{Ordered K} : Prop := {
  key_irrefl k : key_lt k k = false;
  key_trans i j k : key_lt i j = true -> key_lt j k = true -> key_lt i k = true;
  key_total i j : key_lt i j = false -> key_lt j i = false -> i = j;
}.

Module OrderedMap.
Section Operations.
Context {K A : Type} `{Ordered K}.
Implicit Types m : list (K * A).

Definition sameKey (i j : K) : bool := negb (key_lt i j) && negb (key_lt j i).
Fixpoint find m (k : K) : option A :=
  match m with
  | [] => None
  | (j, a) :: m => if sameKey k j then Some a else find m k
  end.
Definition stored m (k : K) : bool := match find m k with Some _ => true | None => false end.
(** [emplace] leaves the value of a key that is there. *)
Fixpoint emplace m (k : K) (a : A) : list (K * A) :=
  match m with
  | [] => [(k, a)]
  | (j, b) :: m' =>
      if key_lt k j then (k, a) :: m
      else if key_lt j k then (j, b) :: emplace m' k a
      else m
  end.
(** [at(k) = f(at(k))] *)
Definition update m (k : K) (f : A -> A) : list (K * A) := map (fun p => if sameKey k p.1 then (p.1, f p.2) else p) m.
Definition erase m (k : K) : list (K * A) := List.filter (fun p => negb (sameKey k p.1)) m.
Definition keys m : list K := map fst m.
Definition sorted m : Prop := StronglySorted (fun i j => key_lt i j = true) (keys m).
End Operations.

Section Laws.
Context {K A : Type} {ord : Ordered K} {laws : OrderedLaws K}.
Implicit Types m : list (K * A).

Lemma sameKey_spec (i j : K) : reflect (i = j) (sameKey i j).
Proof.
  unfold sameKey. destruct (key_lt i j) eqn:H1; cbn.
  - constructor. intros ->. by rewrite key_irrefl in H1.
  - destruct (key_lt j i) eqn:H2; cbn; constructor; [|by apply key_total].
    intros ->. by rewrite key_irrefl in H2.
Qed.
Lemma sameKey_refl (k : K) : sameKey k k = true.
Proof. by destruct (sameKey_spec k k). Qed.
Lemma key_asym (i j : K) : key_lt i j = true -> key_lt j i = false.
Proof. intros H1. destruct (key_lt j i) eqn:H2; [|done]. by rewrite <- (key_irrefl i), (key_trans i j i). Qed.

(** ** What is found *)

Lemma find_in m k a : find m k = Some a -> (k, a) ∈ m.
Proof.
  induction m as [|[j b] m IH]; cbn; [done|]. destruct (sameKey_spec k j) as [->|].
  - intros [= ->]. left.
  - right. by apply IH.
Qed.
Lemma find_none m k : find m k = None <-> ~ k ∈ keys m.
Proof.
  induction m as [|[j b] m IH]; cbn.
  - split; [by intros _ ?%elem_of_nil|done].
  - rewrite not_elem_of_cons. destruct (sameKey_spec k j) as [->|]; [by split; [|intros []]|].
    rewrite IH. split; [done|by intros []].
Qed.
Lemma find_some m k : is_Some (find m k) <-> k ∈ keys m.
Proof.
  destruct (find m k) as [a|] eqn:Hf.
  - split; [|by eexists]. intros _. apply find_in in Hf. apply list_elem_of_fmap. by exists (k, a).
  - apply find_none in Hf. split; [by intros []|done].
Qed.
Lemma stored_spec m k : stored m k = true <-> k ∈ keys m.
Proof. rewrite <- find_some. unfold stored. destruct (find m k); split; done. Qed.
Lemma stored_none m k : stored m k = false <-> find m k = None.
Proof. unfold stored. by destruct (find m k). Qed.

Lemma sorted_cons j a m : sorted ((j, a) :: m) <-> sorted m /\ forall k, k ∈ keys m -> key_lt j k = true.
Proof.
  unfold sorted, keys. cbn. split.
  - intros Hs. apply StronglySorted_inv in Hs as [Hm Hj]. rewrite Forall_forall in Hj. split; [done|]. intros k Hk. by apply Hj.
  - intros [Hm Hj]. constructor; [done|]. by apply Forall_forall.
Qed.
Lemma in_find m k a : sorted m -> (k, a) ∈ m -> find m k = Some a.
Proof.
  induction m as [|[j b] m IH]; intros Hs Hin; cbn; [by apply elem_of_nil in Hin|].
  apply sorted_cons in Hs as [Hm Hj]. apply elem_of_cons in Hin as [[= -> ->]|Hin]; [by rewrite sameKey_refl|].
  destruct (sameKey_spec k j) as [->|]; [|by apply IH].
  exfalso. assert (Hk : j ∈ keys m) by (apply list_elem_of_fmap; by exists (j, a)).
  specialize (Hj j Hk). by rewrite key_irrefl in Hj.
Qed.
Lemma sorted_nodup m : sorted m -> NoDup (keys m).
Proof.
  induction m as [|[j b] m IH]; intros Hs; [constructor|]. apply sorted_cons in Hs as [Hm Hj].
  constructor; [|by apply IH]. intros Hin. specialize (Hj j Hin). by rewrite key_irrefl in Hj.
Qed.

(** ** Insertion *)

Lemma keys_emplace m k a j : j ∈ keys (emplace m k a) <-> j = k \/ j ∈ keys m.
Proof.
  induction m as [|[i b] m IH]; cbn [emplace].
  - cbn. rewrite elem_of_cons. done.
  - destruct (key_lt k i) eqn:H1; [cbn; by rewrite !elem_of_cons|]. destruct (key_lt i k) eqn:H2.
    + cbn. rewrite !elem_of_cons. rewrite IH. naive_solver.
    + rewrite (key_total k i) by done. cbn. rewrite elem_of_cons. naive_solver.
Qed.
Lemma sorted_emplace m k a : sorted m -> sorted (emplace m k a).
Proof.
  induction m as [|[i b] m IH]; intros Hs; cbn [emplace].
  - apply sorted_cons. split; [done|]. by intros j ?%elem_of_nil.
  - destruct (key_lt k i) eqn:H1.
    + apply sorted_cons. split; [done|]. apply sorted_cons in Hs as [_ Hi]. cbn. intros j [->|Hj]%elem_of_cons; [done|].
      by apply (key_trans k i j); [|apply Hi].
    + apply sorted_cons in Hs as [Hm Hi]. destruct (key_lt i k) eqn:H2; [|by apply sorted_cons].
      apply sorted_cons. split; [by apply IH|]. intros j [->|Hj]%keys_emplace; [done|by apply Hi].
Qed.
Lemma find_emplace m k a j : sorted m -> find (emplace m k a) j =
  if sameKey j k then match find m k with Some b => Some b | None => Some a end else find m j.
Proof.
  induction m as [|[i b] m IH]; intros Hs; cbn [emplace find]; [done|]. apply sorted_cons in Hs as [Hm Hi].
  destruct (key_lt k i) eqn:H1.
  - assert (Hn : find m k = None).
    { apply find_none. intros Hk. specialize (Hi k Hk). by rewrite (key_asym k i) in Hi. }
    cbn [find]. destruct (sameKey_spec j k) as [Hjk|Hjk]; [|done]. destruct (sameKey_spec k i) as [Hki|Hki]; [by rewrite Hki, key_irrefl in H1|].
    by rewrite Hn.
  - destruct (key_lt i k) eqn:H2; cbn.
    + rewrite IH by done. destruct (sameKey_spec k i) as [->|]; [by rewrite key_irrefl in H2|].
      destruct (sameKey_spec j i) as [->|]; [|done]. destruct (sameKey_spec i k); [congruence|done].
    + rewrite (key_total k i) by done. rewrite sameKey_refl. by destruct (sameKey_spec j i).
Qed.
Lemma stored_emplace m k a j : sorted m -> stored (emplace m k a) j = sameKey j k || stored m j.
Proof.
  intros Hs. unfold stored. rewrite find_emplace by done. destruct (sameKey_spec j k) as [->|]; [|done]. by destruct (find m k).
Qed.

Lemma emplace_stored m k a : sorted m -> stored m k = true -> emplace m k a = m.
Proof.
  induction m as [|[i b] m IH]; intros Hs Hk; [done|]. apply sorted_cons in Hs as [Hm Hi]. cbn [emplace].
  apply stored_spec in Hk. cbn in Hk. apply elem_of_cons in Hk as [->|Hk]; [by rewrite !key_irrefl|].
  pose proof (Hi k Hk) as Hlt. rewrite (key_asym i k Hlt), Hlt. f_equal. apply IH; [done|]. by apply stored_spec.
Qed.

(** ** Change of a value *)

Lemma keys_updated m k f : keys (update m k f) = keys m.
Proof. induction m as [|[i b] m IH]; cbn; [done|]. f_equal; [by destruct (sameKey k i)|done]. Qed.
Lemma sorted_update m k f : sorted m -> sorted (update m k f).
Proof. unfold sorted. by rewrite keys_updated. Qed.
Lemma find_updated m k f j : find (update m k f) j = if sameKey j k then f <$> find m j else find m j.
Proof.
  induction m as [|[i b] m IH]; cbn; [by destruct (sameKey j k)|].
  destruct (sameKey_spec k i) as [Hk|Hk]; cbn; destruct (sameKey_spec j i) as [Hj|Hj]; cbn; rewrite ?IH; subst.
  - by rewrite sameKey_refl.
  - by destruct (sameKey_spec j i).
  - by destruct (sameKey_spec i k); subst.
  - done.
Qed.
Lemma stored_update m k f j : stored (update m k f) j = stored m j.
Proof. unfold stored. rewrite find_updated. destruct (sameKey j k), (find m j); done. Qed.
(** The value that was inserted does not matter when it is written over. *)
Lemma update_emplace m k a b c : update (emplace m k a) k (fun _ => c) = update (emplace m k b) k (fun _ => c).
Proof.
  induction m as [|[i d] m IH]; cbn [emplace]; [cbn; by rewrite sameKey_refl|].
  destruct (key_lt k i); [cbn; by rewrite sameKey_refl|]. destruct (key_lt i k); [|done].
  unfold update in *. cbn [map]. f_equal. exact IH.
Qed.

(** ** Removal *)

Lemma erase_cons m k i b : erase ((i, b) :: m) k = if negb (sameKey k i) then (i, b) :: erase m k else erase m k.
Proof. done. Qed.
Lemma keys_erase m k j : j ∈ keys (erase m k) <-> j <> k /\ j ∈ keys m.
Proof.
  unfold keys, erase. rewrite !list_elem_of_fmap. split.
  - intros ([i a] & -> & Hin). apply list_elem_of_In, filter_In in Hin as [Hin Hk]. cbn in *. split.
    + intros ->. by rewrite sameKey_refl in Hk.
    + exists (i, a). split; [done|]. by apply list_elem_of_In.
  - intros [Hne ([i a] & -> & Hin)]. exists (i, a). split; [done|]. apply list_elem_of_In, filter_In. split; [by apply list_elem_of_In|].
    cbn in *. by destruct (sameKey_spec k i) as [->|].
Qed.
Lemma sorted_erase m k : sorted m -> sorted (erase m k).
Proof.
  induction m as [|[i b] m IH]; intros Hs; [done|]. apply sorted_cons in Hs as [Hm Hi]. cbn [erase List.filter].
  destruct (negb _); [|by apply IH]. apply sorted_cons. split; [by apply IH|]. intros j [_ Hj]%keys_erase. by apply Hi.
Qed.
Lemma find_erase m k j : find (erase m k) j = if sameKey j k then None else find m j.
Proof.
  induction m as [|[i b] m IH]; [by destruct (sameKey j k)|]. rewrite erase_cons. cbn [find].
  destruct (sameKey_spec k i) as [Hk|Hk]; cbn [negb find]; rewrite IH; destruct (sameKey_spec j i) as [Hj|Hj]; subst; try done.
  - by rewrite sameKey_refl.
  - by destruct (sameKey_spec i k); subst.
Qed.
Lemma stored_erase m k j : stored (erase m k) j = negb (sameKey j k) && stored m j.
Proof. unfold stored. rewrite find_erase. by destruct (sameKey j k). Qed.
Lemma erase_not_stored m k : find m k = None -> erase m k = m.
Proof.
  induction m as [|[i b] m IH]; [done|]. rewrite erase_cons. cbn [find]. destruct (sameKey k i); [done|].
  intros Hf. cbn [negb]. f_equal. by apply IH.
Qed.
Lemma length_erase m k : sorted m -> stored m k = true -> length m = S (length (erase m k)).
Proof.
  induction m as [|[i b] m IH]; intros Hs Hk; [done|]. apply sorted_cons in Hs as [Hm Hi]. unfold stored in Hk. rewrite erase_cons. cbn [find] in Hk.
  destruct (sameKey_spec k i) as [->|Hne]; cbn [negb length].
  - rewrite erase_not_stored; [done|]. apply find_none. intros Hin. specialize (Hi i Hin). by rewrite key_irrefl in Hi.
  - f_equal. by apply IH.
Qed.

(** ** The ends *)

Lemma last_key_max m k a : sorted m -> last m = Some (k, a) -> forall j, j ∈ keys m -> j = k \/ key_lt j k = true.
Proof.
  induction m as [|[i b] m IH]; intros Hs Hl j Hj; [done|]. apply sorted_cons in Hs as [Hm Hi].
  destruct m as [|p m].
  - injection Hl as -> _. cbn in Hj. apply elem_of_cons in Hj as [->|Hj]; [by left|by apply elem_of_nil in Hj].
  - change (last (p :: m) = Some (k, a)) in Hl. cbn [keys map] in Hj. apply elem_of_cons in Hj as [->|Hj].
    + right. apply Hi. apply list_elem_of_fmap. exists (k, a). split; [done|].
      apply last_Some in Hl as [l' ->]. apply elem_of_app. right. left.
    + apply IH; done.
Qed.
Lemma first_key_min m k a : sorted ((k, a) :: m) -> forall j, j ∈ keys ((k, a) :: m) -> j = k \/ key_lt k j = true.
Proof. intros Hs j Hj. apply sorted_cons in Hs as [_ Hi]. cbn in Hj. apply elem_of_cons in Hj as [->|Hj]; [by left|right; by apply Hi]. Qed.
Lemma sorted_snoc m k a : sorted (m ++ [(k, a)]) -> sorted m /\ forall j, j ∈ keys m -> key_lt j k = true.
Proof.
  induction m as [|[i b] m IH]; cbn [app]; intros Hs; [split; [constructor|by intros j ?%elem_of_nil]|].
  apply sorted_cons in Hs as [Hm Hi]. destruct (IH Hm) as [Hm' Hk]. split.
  - apply sorted_cons. split; [done|]. intros j Hj. apply Hi. unfold keys in *. rewrite map_app. apply elem_of_app. by left.
  - cbn. intros j [->|Hj]%elem_of_cons; [|by apply Hk]. apply Hi. unfold keys. rewrite map_app. apply elem_of_app. right. left.
Qed.
End Laws.
#[export] Hint Resolve sorted_emplace sorted_update sorted_erase : core.
End OrderedMap.
