(* ===== verification/CText.v ===== *)
(** * C text: characters, decimal and hexadecimal conversions

    [std::string] and [char*] values as [list ascii], with the parts of the
    C and C++ standard libraries the modelled code uses: [std::to_string],
    [sscanf "%u"], [sprintf "%02X"], [isspace], [std::string::rfind] and
    [std::string::substr]. *)

From stdpp Require Import sorting.
From S2P Require Import Prelude.

Abbreviation text := (list ascii).
Definition txt (s : string) : text := String.list_ascii_of_string s.
Arguments txt s%_string.

(** ** Characters *)

Definition code (c : ascii) : Z := Z.of_N (N_of_ascii c).
Definition chr (z : Z) : ascii := ascii_of_N (Z.to_N (u8 z)).
Definition schar (c : ascii) : Z := swrap 8 (code c).

Lemma code_range c : in_range 8 (code c).
Proof.
  unfold code, in_range. pose proof (N_ascii_bounded c). change (2 ^ 8) with 256. lia.
Qed.

Lemma chr_code c : chr (code c) = c.
Proof.
  unfold chr. rewrite wrap_small by apply code_range.
  unfold code. by rewrite N2Z.id, ascii_N_embedding.
Qed.

Lemma code_chr z : code (chr z) = u8 z.
Proof.
  unfold code, chr. pose proof (wrap_range 8 z ltac:(lia)) as [H1 H2].
  change (2 ^ 8) with 256 in H2.
  rewrite N_ascii_embedding by lia. lia.
Qed.

Lemma code_inj c d : code c = code d -> c = d.
Proof. intros H. by rewrite <- (chr_code c), <- (chr_code d), H. Qed.

Lemma code_eqb c d : (c =? d)%char = (code c =? code d).
Proof.
  destruct (Ascii.eqb_spec c d) as [->|Hne]; [by rewrite Z.eqb_refl|].
  symmetry. apply Z.eqb_neq. intros ?. by apply Hne, code_inj.
Qed.

(** Character classes, as the source spells them.  The comparisons in the
    source are on [char]; for the ASCII ranges below, signed and unsigned
    [char] agree (see [schar_between]). *)
Definition between (lo hi : Z) (c : ascii) : bool := (lo <=? code c) && (code c <=? hi).
Definition is_digit (c : ascii) : bool := between 48 57 c.
Definition is_upper (c : ascii) : bool := between 65 90 c.
Definition is_lower (c : ascii) : bool := between 97 122 c.
Definition is_alnum (c : ascii) : bool := is_upper c || is_lower c || is_digit c.
(** [isspace] in the C locale: space, \t \n \v \f \r. *)
Definition is_space (c : ascii) : bool := (code c =? 32) || between 9 13 c.

Lemma schar_between lo hi c :
  0 <= lo -> hi < 128 -> (lo <=? schar c) && (schar c <=? hi) = between lo hi c.
Proof.
  intros. unfold schar, between, swrap. pose proof (code_range c) as [H1 H2].
  change (2 ^ (8 - 1)) with 128. change (2 ^ 8) with 256 in *.
  destruct (Z.lt_ge_cases (code c) 128).
  - rewrite Z.mod_small by lia. bool_cmp; simpl; lia || done.
  - replace (code c + 128) with (code c - 128 + 1 * 256) by lia.
    rewrite Z.mod_add, Z.mod_small by lia. bool_cmp; simpl; lia || done.
Qed.

Definition digit (d : Z) : ascii := chr (48 + d).

Lemma code_digit d : 0 <= d < 10 -> code (digit d) = 48 + d.
Proof. intros. unfold digit. rewrite code_chr. apply wrap_small. unfold in_range; lia. Qed.

Lemma is_digit_digit d : 0 <= d < 10 -> is_digit (digit d) = true.
Proof. intros. unfold is_digit, between. rewrite code_digit by lia. bool_cmp; lia || done. Qed.

(** ** std::to_string *)

Fixpoint dec_loop (fuel : nat) (n : Z) (acc : text) : text :=
  match fuel with
  | O => acc
  | S fuel =>
      if n <? 10 then digit n :: acc
      else dec_loop fuel (n / 10) (digit (n mod 10) :: acc)
  end.

(** One division by ten per decimal digit: [n] itself bounds their number by
    [log2 n + 1]. *)
Definition dec_fuel (n : Z) : nat := S (Z.to_nat (Z.log2 n)).
Definition to_string_unsigned (n : Z) : text := dec_loop (dec_fuel n) n [].
Definition to_string_signed (z : Z) : text :=
  if z <? 0 then chr 45 :: to_string_unsigned (- z) else to_string_unsigned z.

(** ** sscanf "%u"

    glibc reads the number with [strtoul] (saturating at ULONG_MAX, negating
    modulo 2^64 after a minus sign) and stores its low 32 bits.  [None] means
    a matching failure: nothing is stored in the variable. *)
Fixpoint skip_space (s : text) : text :=
  match s with
  | c :: s' => if is_space c then skip_space s' else s
  | [] => []
  end.

Fixpoint read_digits (s : text) (acc : Z) : Z :=
  match s with
  | c :: s' => if is_digit c then read_digits s' (acc * 10 + (code c - 48)) else acc
  | [] => acc
  end.

Definition scan_digits (neg : bool) (s : text) : option Z :=
  match s with
  | c :: _ =>
      if is_digit c then
        let v := read_digits s 0 in
        Some (u32 (if 2 ^ 64 - 1 <? v then 2 ^ 64 - 1 else if neg then u64 (- v) else v))
      else None
  | [] => None
  end.

Definition sscanf_u (s : text) : option Z :=
  match skip_space s with
  | c :: s' =>
      if code c =? 45 then scan_digits true s'
      else if code c =? 43 then scan_digits false s'
      else scan_digits false (c :: s')
  | [] => None
  end.

(** [c_str]: a C string ends at the first NUL character. *)
Fixpoint c_str (s : text) : text :=
  match s with
  | c :: s' => if code c =? 0 then [] else c :: c_str s'
  | [] => []
  end.

(** ** Round trip of decimal conversion *)

Lemma div10_log2 n : 10 <= n -> Z.log2 (n / 10) < Z.log2 n.
Proof.
  intros. assert (0 < n / 10) by (apply Z.div_str_pos; lia).
  apply Z.log2_lt_pow2; [lia|].
  pose proof (Z.log2_spec n ltac:(lia)) as [_ Hu].
  apply Z.div_lt_upper_bound; [lia|].
  rewrite Z.pow_succ_r in Hu by apply Z.log2_nonneg. lia.
Qed.

Lemma dec_loop_length fuel n acc : (length acc <= length (dec_loop fuel n acc))%nat.
Proof.
  revert n acc. induction fuel as [|fuel IH]; intros n acc; simpl; [lia|].
  destruct (n <? 10); simpl; [lia|]. etrans; [|apply IH]. simpl; lia.
Qed.

Lemma read_digits_dec_loop fuel n acc rest a :
  0 <= n -> (dec_fuel n <= fuel)%nat ->
  read_digits (dec_loop fuel n acc ++ rest) a
  = read_digits (acc ++ rest) (a * 10 ^ (Z.of_nat (length (dec_loop fuel n acc)) - Z.of_nat (length acc)) + n).
Proof.
  unfold dec_fuel. revert n acc.
  induction fuel as [|fuel IH]; intros n acc Hn Hf; [lia|]; simpl.
  destruct (Z.ltb_spec n 10).
  - simpl. rewrite is_digit_digit, code_digit by lia. f_equal.
    rewrite Nat2Z.inj_succ.
    replace (Z.succ _ - _) with 1 by lia. lia.
  - pose proof (div10_log2 n ltac:(lia)) as Hlog.
    pose proof (Z.log2_nonneg (n / 10)).
    pose proof (Z.mod_pos_bound n 10 ltac:(lia)).
    assert (0 <= n / 10) by (apply Z.div_pos; lia).
    rewrite IH by lia. simpl. rewrite is_digit_digit, code_digit by lia. f_equal.
    set (len := length (dec_loop _ _ _)).
    assert (S (length acc) <= len)%nat by apply (dec_loop_length fuel (n / 10) (_ :: acc)).
    rewrite Nat2Z.inj_succ.
    replace (Z.of_nat len - Z.of_nat (length acc))
      with (Z.succ (Z.of_nat len - Z.succ (Z.of_nat (length acc)))) by lia.
    rewrite Z.pow_succ_r by lia.
    pose proof (Z.div_mod n 10 ltac:(lia)). lia.
Qed.

Lemma dec_loop_cons fuel n acc :
  0 <= n -> (0 < fuel)%nat -> exists c s, dec_loop fuel n acc = c :: s.
Proof.
  intros Hn. destruct fuel as [|fuel]; [lia|]. intros _.
  revert n acc Hn. induction fuel as [|fuel IH]; intros n acc Hn; simpl.
  - destruct (n <? 10); eauto.
  - destruct (Z.ltb_spec n 10); [eauto|].
    apply IH. apply Z.div_pos; lia.
Qed.

Lemma dec_loop_digits fuel n acc :
  0 <= n -> Forall (fun c => is_digit c = true) acc ->
  Forall (fun c => is_digit c = true) (dec_loop fuel n acc).
Proof.
  revert n acc. induction fuel as [|fuel IH]; intros n acc Hn Hacc; simpl; [done|].
  destruct (Z.ltb_spec n 10).
  - constructor; [apply is_digit_digit; lia|done].
  - apply IH; [apply Z.div_pos; lia|].
    constructor; [|done]. apply is_digit_digit. apply Z.mod_pos_bound; lia.
Qed.

Lemma to_string_unsigned_digits n :
  0 <= n -> Forall (fun c => is_digit c = true) (to_string_unsigned n).
Proof. intros. by apply dec_loop_digits. Qed.

Lemma to_string_unsigned_cons n :
  0 <= n -> exists c s, to_string_unsigned n = c :: s /\ is_digit c = true.
Proof.
  intros Hn. destruct (dec_loop_cons (dec_fuel n) n [] Hn ltac:(unfold dec_fuel; lia))
    as (c & s & Hs).
  exists c, s. split; [done|].
  pose proof (to_string_unsigned_digits n Hn) as HF. unfold to_string_unsigned in HF.
  rewrite Hs in HF. by inversion HF.
Qed.

Lemma read_digits_to_string n : 0 <= n -> read_digits (to_string_unsigned n) 0 = n.
Proof.
  intros. unfold to_string_unsigned.
  rewrite <- (app_nil_r (dec_loop _ _ _)), read_digits_dec_loop by lia.
  simpl. lia.
Qed.

Lemma is_digit_code c : is_digit c = true -> 48 <= code c <= 57.
Proof. unfold is_digit, between. bool_cmp; done || lia. Qed.

Lemma skip_space_digit c s : is_digit c = true -> skip_space (c :: s) = c :: s.
Proof.
  intros H%is_digit_code. simpl. unfold is_space, between. bool_cmp; simpl; lia || done.
Qed.

Lemma sscanf_u_to_string_unsigned n :
  in_range 32 n -> sscanf_u (to_string_unsigned n) = Some n.
Proof.
  intros [H0 H1]. destruct (to_string_unsigned_cons n H0) as (c & s & Hs & Hc).
  unfold sscanf_u. rewrite Hs, skip_space_digit by done.
  pose proof (is_digit_code c Hc).
  destruct (Z.eqb_spec (code c) 45); [lia|]. destruct (Z.eqb_spec (code c) 43); [lia|].
  unfold scan_digits. rewrite Hc, <- Hs, read_digits_to_string by lia.
  destruct (Z.ltb_spec (2 ^ 64 - 1) n); [lia|]. f_equal. by apply wrap_small.
Qed.

Lemma sscanf_u_to_string_negative n :
  0 < n <= 2 ^ 32 -> sscanf_u (to_string_signed (- n)) = Some (2 ^ 32 - n).
Proof.
  intros Hn. unfold to_string_signed. destruct (Z.ltb_spec (- n) 0); [|lia].
  rewrite Z.opp_involutive.
  destruct (to_string_unsigned_cons n ltac:(lia)) as (c & s & Hs & Hc).
  transitivity (scan_digits true (to_string_unsigned n)); [reflexivity|].
  unfold scan_digits. rewrite Hs, Hc, <- Hs, read_digits_to_string by lia.
  destruct (Z.ltb_spec (2 ^ 64 - 1) n); [lia|]. f_equal.
  unfold wrap. rewrite Z.mod_mod_divide by by exists (2 ^ 32).
  replace (- n) with (2 ^ 32 - n + (-1) * 2 ^ 32) by lia.
  rewrite Z.mod_add, Z.mod_small by lia. done.
Qed.

(** ** std::string searching and slicing

    Positions are [size_t]; [npos] is its largest value. *)

Definition npos : Z := 2 ^ 64 - 1.
Definition size (s : text) : Z := Z.of_nat (length s).

(** [substr(pos, n)]: throws when [pos] is past the end, clips [n]. *)
Definition substr (s : text) (pos n : Z) : result text :=
  if size s <? pos then Throw OutOfRange
  else Ok (take (Z.to_nat (Z.min n (size s))) (drop (Z.to_nat pos) s)).
Lemma substr_eq s pos n : substr s pos n = if size s <? pos then Throw OutOfRange else Ok (take (Z.to_nat n) (drop (Z.to_nat pos) s)).
Proof.
  unfold substr, size. destruct (_ <? _); [done|]. f_equal. destruct (Z.min_spec n (Z.of_nat (length s))) as [[_ ->]|[Hle ->]]; [done|].
  rewrite !take_ge; [done|rewrite length_drop; lia..].
Qed.

Fixpoint starts_with (p s : text) : bool :=
  match p, s with
  | [], _ => true
  | a :: p', b :: s' => (a =? b)%char && starts_with p' s'
  | _ :: _, [] => false
  end.

(** [rfind(p)]: the last position where [p] occurs, tried from the end. *)
Fixpoint rfind_loop (p s : text) (i : nat) : Z :=
  if starts_with p (drop i s) then Z.of_nat i
  else match i with
       | O => npos
       | S i' => rfind_loop p s i'
       end.
Definition rfind (p s : text) : Z :=
  if size s <? size p then npos else rfind_loop p s (length s - length p).

(** [find(c)]: the first position of a character. *)
Fixpoint find_char_loop (c : ascii) (s : text) (i : Z) : Z :=
  match s with
  | [] => npos
  | d :: s' => if (d =? c)%char then i else find_char_loop c s' (i + 1)
  end.
Definition find_char (c : ascii) (s : text) : Z := find_char_loop c s 0.

Lemma starts_with_app p s : starts_with p (p ++ s) = true.
Proof. induction p as [|a p IH]; simpl; [done|]. by rewrite Ascii.eqb_refl. Qed.

Lemma starts_with_spec p s : starts_with p s = true <-> exists r, s = p ++ r.
Proof.
  split; [|intros [r ->]; apply starts_with_app].
  revert s. induction p as [|a p IH]; intros s; simpl; [by exists s|].
  destruct s as [|b s]; [done|]. destruct (Ascii.eqb_spec a b) as [->|]; [|done].
  simpl. intros H. destruct (IH _ H) as [r ->]. by exists r.
Qed.

(** Where [rfind] lands when the pattern's first character does not occur
    after the occurrence in question. *)
Lemma rfind_last a p pre post :
  Forall (fun c => c <> a) (p ++ post) ->
  rfind (a :: p) (pre ++ (a :: p) ++ post) = Z.of_nat (length pre).
Proof.
  intros Hno. unfold rfind, size. rewrite !length_app.
  destruct (Z.ltb_spec (Z.of_nat (length pre + (length (a :: p) + length post)))
              (Z.of_nat (length (a :: p)))); [lia|].
  replace (length pre + (length (a :: p) + length post) - length (a :: p))%nat
    with (length pre + length post)%nat by lia.
  assert (Hle : (length post <= length post)%nat) by lia. revert Hle.
  generalize (length post) at 1 3 as k.
  induction k as [|k IH]; intros Hk.
  - rewrite Nat.add_0_r.
    assert (E : starts_with (a :: p) (drop (length pre) (pre ++ (a :: p) ++ post)) = true)
      by (rewrite drop_app_length; apply starts_with_app).
    destruct (length pre); cbn [rfind_loop]; by rewrite E.
  - rewrite Nat.add_succ_r. cbn [rfind_loop].
    destruct (starts_with _ _) eqn:E; [|apply IH; lia]. exfalso.
    apply starts_with_spec in E as [r Hr].
    assert (Hin : a ∈ p ++ post).
    { rewrite drop_app_ge in Hr by lia.
      replace (S (length pre + k) - length pre)%nat with (S k) in Hr by lia.
      simpl in Hr. rewrite <- (take_drop k (p ++ post)), Hr. set_solver. }
    rewrite Forall_forall in Hno. by apply (Hno a Hin).
Qed.

Lemma substr_app_prefix a b : substr (a ++ b) 0 (size a) = Ok a.
Proof.
  rewrite substr_eq. unfold size. destruct (Z.ltb_spec (Z.of_nat (length (a ++ b))) 0); [lia|].
  by rewrite drop_0, Nat2Z.id, take_app_length.
Qed.

Lemma substr_app_suffix a b : size b <= npos -> substr (a ++ b) (size a) npos = Ok b.
Proof.
  rewrite substr_eq. unfold size. intros Hb.
  destruct (Z.ltb_spec (Z.of_nat (length (a ++ b))) (Z.of_nat (length a))) as [H|];
    [rewrite length_app in H; lia|].
  rewrite Nat2Z.id, drop_app_length, take_ge by lia. done.
Qed.

(** ** Comparing texts, and searching by a text *)

Definition textEq (a b : text) : bool := bool_decide (a = b).
Lemma textEq_spec a b : textEq a b = true <-> a = b.
Proof. apply bool_decide_eq_true. Qed.
Lemma textEq_refl a : textEq a a = true.
Proof. by apply textEq_spec. Qed.
Lemma textEq_neq a b : a <> b -> textEq a b = false.
Proof. apply bool_decide_eq_false. Qed.
Lemma textEq_false a b : textEq a b = false <-> a <> b.
Proof. apply bool_decide_eq_false. Qed.

Lemma search_unique {A} (k : A -> text) l a : NoDup (map k l) -> a ∈ l ->
  exists i, search (fun b => textEq (k b) (k a)) l = Some i /\ l !! i = Some a.
Proof. intros Hn Ha. apply (search_key k); [done..|]. intros b. apply textEq_spec. Qed.
Lemma search_none_key {A} (k : A -> text) (l : list A) x : search (fun a => textEq (k a) x) l = None -> ~ x ∈ map k l.
Proof.
  rewrite search_none. intros H [a [-> Ha]]%list_elem_of_fmap. specialize (H a Ha). by rewrite textEq_refl in H.
Qed.
Lemma search_fresh {A} (k : A -> text) (l : list A) x : ~ x ∈ map k l -> search (fun a => textEq (k a) x) l = None.
Proof.
  intros H. apply search_none. intros a Ha. apply textEq_neq. intros E. apply H. apply list_elem_of_fmap. by exists a.
Qed.

(** ** The order of a [std::set] or [std::map] of strings *)

Fixpoint textLeb (a b : text) : bool :=
  match a, b with
  | [], _ => true
  | _, [] => false
  | x :: a, y :: b => if code x =? code y then textLeb a b else code x <? code y
  end.
Definition textLe (a b : text) : Prop := textLeb a b = true.
#[export] Instance textLe_dec : RelDecision textLe.
Proof. intros a b. unfold textLe. apply _. Defined.
Lemma textLeb_refl a : textLeb a a = true.
Proof. induction a as [|x a IH]; cbn; [done|]. by rewrite Z.eqb_refl. Qed.
Lemma textLeb_trans a b d : textLeb a b = true -> textLeb b d = true -> textLeb a d = true.
Proof.
  revert b d. induction a as [|x a IH]; intros [|y b] [|z d]; cbn; try done.
  destruct (Z.eqb_spec (code x) (code y)) as [Hxy|Hxy], (Z.eqb_spec (code y) (code z)) as [Hyz|Hyz], (Z.eqb_spec (code x) (code z)) as [Hxz|Hxz];
    rewrite ?Z.ltb_lt; try lia; [apply IH|..]; lia.
Qed.
Lemma textLeb_antisym a b : textLeb a b = true -> textLeb b a = true -> a = b.
Proof.
  revert b. induction a as [|x a IH]; intros [|y b]; cbn; try done. rewrite (Z.eqb_sym (code y)).
  destruct (Z.eqb_spec (code x) (code y)) as [Hxy|Hxy]; [intros H1 H2; f_equal; [by apply code_inj|by apply IH]|]. rewrite !Z.ltb_lt. lia.
Qed.
Lemma textLeb_total a b : textLeb a b = true \/ textLeb b a = true.
Proof.
  revert b. induction a as [|x a IH]; intros [|y b]; cbn; auto. rewrite (Z.eqb_sym (code y)).
  destruct (Z.eqb_spec (code x) (code y)); [apply IH|]. rewrite !Z.ltb_lt. lia.
Qed.
(** The elements of a set of strings, in order. *)
Definition sortedSet (l : list text) : list text := merge_sort textLe (remove_dups l).
Lemma elem_of_sortedSet l x : x ∈ sortedSet l <-> x ∈ l.
Proof. unfold sortedSet. rewrite merge_sort_Permutation. apply elem_of_remove_dups. Qed.

(** ** The longest end of a text in a class of characters *)

Fixpoint splitLeading (p : ascii -> bool) (s : text) : text * text :=
  match s with
  | c :: s' => if p c then let '(a, b) := splitLeading p s' in (c :: a, b) else ([], s)
  | [] => ([], [])
  end.
Definition splitTrailing (p : ascii -> bool) (s : text) : text * text :=
  let '(a, b) := splitLeading p (rev s) in (rev b, rev a).
Lemma splitLeading_spec p s : let '(a, b) := splitLeading p s in
  s = a ++ b /\ Forall (fun c => p c = true) a /\ match b with c :: _ => p c = false | [] => True end.
Proof.
  induction s as [|c s IH]; [by split_and!|]. cbn [splitLeading]. destruct (p c) eqn:Hc.
  - destruct (splitLeading p s) as [a b]. destruct IH as (-> & Ha & Hb). split_and!; [done|by constructor|done].
  - split_and!; [done|constructor|done].
Qed.
Lemma splitTrailing_spec p s : let '(a, b) := splitTrailing p s in
  s = a ++ b /\ Forall (fun c => p c = true) b /\ match last a with Some c => p c = false | None => True end.
Proof.
  unfold splitTrailing. pose proof (splitLeading_spec p (rev s)) as H. destruct (splitLeading p (rev s)) as [a b].
  destruct H as (E & Ha & Hb). split_and!.
  - rewrite <- rev_app_distr, <- E. by rewrite rev_involutive.
  - by apply Forall_rev.
  - destruct b as [|c b]; [done|]. cbn [rev]. by rewrite last_snoc.
Qed.
Lemma splitLeading_app p a b : Forall (fun c => p c = true) a -> match b with c :: _ => p c = false | [] => True end ->
  splitLeading p (a ++ b) = (a, b).
Proof.
  intros Ha Hb. induction Ha as [|c a Hc _ IH]; cbn [app splitLeading].
  - destruct b as [|c b]; [done|]. cbn [splitLeading]. by rewrite Hb.
  - by rewrite Hc, IH.
Qed.
Lemma splitTrailing_app p a b : Forall (fun c => p c = true) b -> match last a with Some c => p c = false | None => True end ->
  splitTrailing p (a ++ b) = (a, b).
Proof.
  intros Hb Ha. unfold splitTrailing. rewrite rev_app_distr, splitLeading_app; [by rewrite !rev_involutive|by apply Forall_rev|].
  destruct a as [|c a _] using rev_ind; [done|]. rewrite last_snoc in Ha. by rewrite rev_app_distr.
Qed.
