(* ===== verification/Versions.v ===== *)
(** * Table versions and table group keys

    src/otsdaq/TableCore/TableVersion.cc and .h ([TableVersion]) and
    src/otsdaq/TableCore/TableGroupKey.cc and .h ([TableGroupKey]).  Both wrap
    one [unsigned int]; a value the C++ leaves uninitialised (a failed
    [sscanf]) is [None]. *)

From S2P Require Import Prelude CText.

Module TableVersion.

(** The one data member, [unsigned int version_]. *)
Record TableVersion := Mk { version_ : Z }.

Definition wf (v : TableVersion) : Prop := in_range 32 (version_ v).

#[export] Instance TableVersion_eq_dec : EqDecision TableVersion.
Proof. solve_decision. Defined.

Definition INVALID : Z := u32 (-1).
Definition DEFAULT : Z := 0.
Definition SCRATCH : Z := u32 (Z.lnot (Z.shiftl 1 31)).
Definition NUM_OF_TEMP_VERSIONS : Z := 10000.

(** The constructors.  The argument of the default constructor is [INVALID]. *)
Definition of_uint (version : Z) : TableVersion := Mk (u32 version).
Definition default : TableVersion := of_uint INVALID.
Definition of_char_ptr (versionStr : option text) : option TableVersion :=
  match versionStr with
  | None => Some (Mk INVALID)
  | Some s => Mk <$> sscanf_u (c_str s)
  end.
Definition of_string (versionStr : text) : option TableVersion :=
  of_char_ptr (Some versionStr).

Definition version (v : TableVersion) : Z := version_ v.

Definition isInvalid (v : TableVersion) : bool :=
  (version_ v =? INVALID)
  || ((SCRATCH <? version_ v) && (version_ v <? u32 (INVALID - NUM_OF_TEMP_VERSIONS))).
Definition isValid (v : TableVersion) : bool := negb (isInvalid v).
Definition isTemporaryVersion (v : TableVersion) : bool :=
  (u32 (INVALID - NUM_OF_TEMP_VERSIONS) <=? version_ v) && negb (version_ v =? INVALID).
Definition isScratchVersion (v : TableVersion) : bool := version_ v =? SCRATCH.
Definition isMockupVersion (v : TableVersion) : bool := version_ v =? INVALID.

Definition toString (v : TableVersion) : text :=
  if isTemporaryVersion v || isInvalid v then to_string_signed (s32 (version_ v))
  else to_string_unsigned (version_ v).

(** [operator<<]. *)
Definition print (v : TableVersion) : text :=
  if isScratchVersion v then txt "ScratchVersion"
  else if isMockupVersion v then txt "Mock-up"
  else if isInvalid v then txt "InvalidVersion"
  else toString v.

(** Assignment and the compound operators; division by zero is undefined
    behaviour in C++ and has no result here. *)
Definition assign (v : TableVersion) (n : Z) : TableVersion := Mk (u32 n).
Definition mul_uint (v : TableVersion) (a : Z) : TableVersion := Mk (u32 (version_ v * a)).
Definition mul (v a : TableVersion) : TableVersion := Mk (u32 (version_ v * version_ a)).
Definition add (v a : TableVersion) : TableVersion := Mk (u32 (version_ v + version_ a)).
Definition sub (v a : TableVersion) : TableVersion := Mk (u32 (version_ v - version_ a)).
Definition div (v a : TableVersion) : option TableVersion :=
  if version_ a =? 0 then None else Some (Mk (u32 (version_ v / version_ a))).

Definition eqb_uint (v : TableVersion) (n : Z) : bool := version_ v =? n.
Definition eqb (v w : TableVersion) : bool := version_ v =? version_ w.
Definition neqb_uint (v : TableVersion) (n : Z) : bool := negb (version_ v =? n).
Definition neqb (v w : TableVersion) : bool := negb (version_ v =? version_ w).
Definition ltb (v w : TableVersion) : bool := version_ v <? version_ w.
Definition gtb (v w : TableVersion) : bool := version_ w <? version_ v.
Definition leb (v w : TableVersion) : bool := negb (gtb v w).
Definition geb (v w : TableVersion) : bool := negb (ltb v w).

Definition getNextVersion (v : TableVersion) : TableVersion :=
  let retVersion := of_uint (version_ v + 1) in
  if negb (isInvalid retVersion) && negb (isTemporaryVersion retVersion)
  then retVersion else default.

Definition getNextTemporaryVersion (v : TableVersion) : TableVersion :=
  let retVersion :=
    of_uint (if isTemporaryVersion v then version_ v - 1 else INVALID - 1) in
  if isTemporaryVersion retVersion then retVersion else default.

(** *** Properties *)

Lemma wf_of_uint n : wf (of_uint n).
Proof. apply wrap_range; lia. Qed.

#[export] Hint Resolve wf_of_uint : core.

(** The numeric value of the constants, for [lia]. *)
Lemma consts :
  INVALID = 4294967295 /\ SCRATCH = 2147483647 /\
  u32 (INVALID - NUM_OF_TEMP_VERSIONS) = 4294957295.
Proof. repeat split. Qed.

Ltac consts :=
  destruct consts as (HINV & HSCR & HTMP);
  rewrite ?HTMP, ?HINV, ?HSCR in *; change (2 ^ 32) with 4294967296 in *.

(** How a [uint32] splits into the classes of the header comment. *)
Inductive class (n : Z) : bool -> bool -> Prop :=
| class_persistent : 0 <= n <= 2147483647 -> class n false false
| class_reserved : 2147483647 < n < 4294957295 -> class n true false
| class_temporary : 4294957295 <= n < 4294967295 -> class n false true
| class_mockup : n = 4294967295 -> class n true false.

Lemma class_spec v : wf v -> class (version_ v) (isInvalid v) (isTemporaryVersion v).
Proof.
  unfold wf, in_range, isInvalid, isTemporaryVersion. intros Hv. consts.
  bool_cmp; simpl; lia || (constructor; lia).
Qed.

Lemma c_str_no_nul s : Forall (fun c => code c <> 0) s -> c_str s = s.
Proof.
  induction 1 as [|c s Hc Hs IH]; simpl; [done|].
  destruct (Z.eqb_spec (code c) 0); [done|]. by rewrite IH.
Qed.

Lemma digits_no_nul s : Forall (fun c => is_digit c = true) s -> Forall (fun c => code c <> 0) s.
Proof. intros Hs. eapply Forall_impl; [exact Hs|]. intros c H%is_digit_code. lia. Qed.

Lemma toString_no_nul v : wf v -> c_str (toString v) = toString v.
Proof.
  intros [Hl Hu]. apply c_str_no_nul. unfold toString.
  destruct (_ || _); [|by apply digits_no_nul, to_string_unsigned_digits].
  unfold to_string_signed. destruct (Z.ltb_spec (s32 (version_ v)) 0).
  - constructor; [done|]. apply digits_no_nul, to_string_unsigned_digits; lia.
  - by apply digits_no_nul, to_string_unsigned_digits.
Qed.

Lemma s32_high n : 2 ^ 31 <= n < 2 ^ 32 -> s32 n = n - 2 ^ 32.
Proof.
  intros. unfold swrap. replace (n + 2 ^ (32 - 1)) with (n - 2 ^ 31 + 1 * 2 ^ 32) by lia.
  rewrite Z.mod_add, Z.mod_small by lia. lia.
Qed.

(** Printing a version and reading it back gives the version, for every
    [unsigned int] including the negative renderings of the invalid and
    temporary ones. *)
Theorem toString_roundtrip v : wf v -> of_string (toString v) = Some v.
Proof.
  intros Hv. unfold of_string, of_char_ptr. rewrite toString_no_nul by done.
  destruct v as [n]. unfold toString.
  destruct (class_spec _ Hv) as [Hn|Hn|Hn|Hn]; simpl in *.
  - rewrite sscanf_u_to_string_unsigned; [done|]. unfold in_range; lia.
  - rewrite s32_high by lia. replace (n - 2 ^ 32) with (- (2 ^ 32 - n)) by lia.
    rewrite sscanf_u_to_string_negative by lia. simpl. do 2 f_equal. lia.
  - rewrite s32_high by lia. replace (n - 2 ^ 32) with (- (2 ^ 32 - n)) by lia.
    rewrite sscanf_u_to_string_negative by lia. simpl. do 2 f_equal. lia.
  - by subst n.
Qed.

Lemma toString_roundtrip_witness : of_string (toString (Mk 4294967294)) = Some (Mk 4294967294).
Proof. apply toString_roundtrip. split; reflexivity || (vm_compute; discriminate). Defined.

(** [getNextVersion] on every class of argument: it counts up through the
    persistent versions, starts again at [DEFAULT] from the mock-up version,
    answers the mock-up (INVALID) version when the persistent ones are used up
    and never leaves the persistent range otherwise. *)
Theorem getNextVersion_spec v :
  wf v ->
  getNextVersion v =
    if version_ v <? SCRATCH then Mk (version_ v + 1)
    else if version_ v =? INVALID then Mk DEFAULT
    else default.
Proof.
  intros Hv. unfold getNextVersion.
  pose proof (class_spec _ (wf_of_uint (version_ v + 1))) as Hc.
  unfold of_uint, default, DEFAULT in *. simpl in *. destruct Hv as [Hl Hu]. consts.
  destruct (Z.eqb_spec (version_ v) 4294967295) as [->|Hne].
  { done. }
  rewrite (wrap_small 32) in * by (unfold in_range; lia).
  destruct Hc, (Z.ltb_spec (version_ v) 2147483647); simpl; lia || done.
Qed.

Lemma getNextVersion_spec_witness : getNextVersion (Mk 41) = Mk 42.
Proof. rewrite getNextVersion_spec; [reflexivity|]. split; reflexivity || (vm_compute; discriminate). Defined.

Lemma isTemporaryVersion_iff v :
  4294957295 <= version_ v < 4294967295 -> isTemporaryVersion v = true.
Proof. unfold isTemporaryVersion. consts. intros. bool_cmp; simpl; lia || done. Qed.

(** The temporary versions handed out in sequence. *)
Fixpoint nth_temporary (k : nat) : TableVersion :=
  match k with
  | O => default
  | S k => getNextTemporaryVersion (nth_temporary k)
  end.

(** Starting from no temporary version, the [k]-th call of
    [getNextTemporaryVersion] returns [INVALID - k], so the first 10000 calls
    return 10000 different temporary versions, and the call after that reports
    that none is left. *)
Theorem getNextTemporaryVersion_sequence (k : nat) :
  Z.of_nat k <= NUM_OF_TEMP_VERSIONS ->
  nth_temporary k = Mk (INVALID - Z.of_nat k) /\
  (Z.of_nat k = NUM_OF_TEMP_VERSIONS -> getNextTemporaryVersion (nth_temporary k) = default).
Proof.
  unfold NUM_OF_TEMP_VERSIONS. intros Hk.
  assert (E : nth_temporary k = Mk (INVALID - Z.of_nat k)).
  { induction k as [|k IH]; [done|]. cbn [nth_temporary]. rewrite IH by lia.
    destruct k as [|k]; [done|]. unfold getNextTemporaryVersion.
    rewrite (isTemporaryVersion_iff (Mk _)) by (cbn [version_]; consts; lia). cbn [version_].
    unfold of_uint. rewrite (wrap_small 32) by (unfold in_range; consts; lia).
    rewrite isTemporaryVersion_iff by (cbn [version_]; consts; lia). f_equal. lia. }
  split; [done|]. rewrite E. intros ->. reflexivity.
Qed.

Lemma getNextTemporaryVersion_sequence_witness :
  nth_temporary 3 = Mk 4294967292.
Proof. apply (getNextTemporaryVersion_sequence 3). vm_compute. discriminate. Defined.

End TableVersion.

Module TableGroupKey.

(** The one data member, [unsigned int key_]. *)
Record TableGroupKey := Mk { key_ : Z }.

Definition wf (k : TableGroupKey) : Prop := in_range 32 (key_ k).

#[export] Instance TableGroupKey_eq_dec : EqDecision TableGroupKey.
Proof. solve_decision. Defined.

Definition INVALID : Z := u32 (-1).
Definition DEFAULT : Z := 0.

(** The test of the scan loop: true when the character ends the key. *)
Definition not_key_char (c : ascii) : bool :=
  ((schar c <? 48) || (57 <? schar c)) && negb (c =? "-")%char
  && negb (c =? "_")%char && negb (c =? ".")%char.

(** The loop that finds the last character that is not part of the key:
    [i] starts at [strlen - 1] (here the number of characters left) and the
    answer is -1 when every character belongs to the key. *)
Fixpoint scan_key (s : text) (i : nat) : Z :=
  match i with
  | O => -1
  | S j => if not_key_char (nth j s "000"%char) then Z.of_nat j else scan_key s j
  end.

Definition of_uint (key : Z) : TableGroupKey := Mk (u32 key).
Definition default : TableGroupKey := of_uint INVALID.
Definition of_char_ptr (groupString : option text) : option TableGroupKey :=
  match groupString with
  | None => Some (Mk INVALID)
  | Some s =>
      let s := c_str s in
      let i := scan_key s (length s) in
      if i =? Z.of_nat (length s) - 1 then Some (Mk DEFAULT)
      else
        let i := if i <? 0 then 0 else i + 1 in
        Mk <$> sscanf_u (drop (Z.to_nat i) s)
  end.
Definition of_string (groupString : text) : option TableGroupKey :=
  of_char_ptr (Some groupString).

Definition key (k : TableGroupKey) : Z := key_ k.
Definition isInvalid (k : TableGroupKey) : bool := key_ k =? INVALID.
Definition isValid (k : TableGroupKey) : bool := negb (isInvalid k).

Definition toString (k : TableGroupKey) : text :=
  if isInvalid k then to_string_signed (s32 (key_ k)) else to_string_unsigned (key_ k).
Definition print (k : TableGroupKey) : text := toString k.

Definition assign (k : TableGroupKey) (n : Z) : TableGroupKey := Mk (u32 n).
Definition mul_uint (k : TableGroupKey) (a : Z) : TableGroupKey := Mk (u32 (key_ k * a)).
Definition mul (k a : TableGroupKey) : TableGroupKey := Mk (u32 (key_ k * key_ a)).
Definition add (k a : TableGroupKey) : TableGroupKey := Mk (u32 (key_ k + key_ a)).
Definition sub (k a : TableGroupKey) : TableGroupKey := Mk (u32 (key_ k - key_ a)).
Definition div (k a : TableGroupKey) : option TableGroupKey :=
  if key_ a =? 0 then None else Some (Mk (u32 (key_ k / key_ a))).

Definition eqb_uint (k : TableGroupKey) (n : Z) : bool := key_ k =? n.
Definition eqb (k j : TableGroupKey) : bool := key_ k =? key_ j.
Definition neqb_uint (k : TableGroupKey) (n : Z) : bool := negb (key_ k =? n).
Definition neqb (k j : TableGroupKey) : bool := negb (key_ k =? key_ j).
Definition ltb (k j : TableGroupKey) : bool := key_ k <? key_ j.
Definition gtb (k j : TableGroupKey) : bool := key_ j <? key_ k.
Definition leb (k j : TableGroupKey) : bool := negb (gtb k j).
Definition geb (k j : TableGroupKey) : bool := negb (ltb k j).

Definition getNextKey (k : TableGroupKey) : TableGroupKey := of_uint (key_ k + 1).
Definition getDefaultKey : Z := DEFAULT.
Definition getInvalidKey : Z := INVALID.

(** [getFullGroupString(groupName, key, preKey = "_v", postKey = "")]. *)
Definition alnum_char (c : ascii) : bool :=
  ((65 <=? schar c) && (schar c <=? 90)) || ((97 <=? schar c) && (schar c <=? 122))
  || ((48 <=? schar c) && (schar c <=? 57)).
Definition getFullGroupString (groupName : text) (k : TableGroupKey) (preKey postKey : text)
  : result text :=
  if size groupName =? 0 then Throw RuntimeError
  else if size groupName =? 1 then Throw RuntimeError
  else if forallb alnum_char groupName
       then Ok (groupName ++ preKey ++ to_string_unsigned (key_ k) ++ postKey)
       else Throw RuntimeError.

(** [getGroupNameAndKey]: the outputs are the name and the key, the key
    [None] when no number could be read. *)
Definition getGroupNameAndKey (fullGroupString : text)
  : result (text * option TableGroupKey) :=
  let i := rfind (txt "_v") fullGroupString in
  groupName ← substr fullGroupString 0 i;
  keyString ← substr fullGroupString (u64 (i + 2)) npos;
  mret (groupName, of_string keyString).

(** *** Properties *)

Lemma alnum_char_is_alnum c : alnum_char c = is_alnum c.
Proof.
  unfold alnum_char, is_alnum, is_upper, is_lower, is_digit.
  by rewrite !schar_between by lia.
Qed.

Lemma not_key_char_digit c : is_digit c = true -> not_key_char c = false.
Proof.
  unfold is_digit. rewrite <- schar_between by lia. unfold not_key_char.
  bool_cmp; simpl; done || lia.
Qed.

Lemma scan_key_digits s : forall i, (i <= length s)%nat ->
  Forall (fun c => is_digit c = true) s -> scan_key s i = -1.
Proof.
  induction i as [|i IH]; intros Hi Hs; simpl; [done|].
  rewrite not_key_char_digit; [apply IH; [lia|done]|].
  rewrite List.Forall_forall in Hs. apply Hs, nth_In. lia.
Qed.

Lemma of_string_to_string n : in_range 32 n -> of_string (to_string_unsigned n) = Some (Mk n).
Proof.
  intros Hn. unfold of_string, of_char_ptr.
  pose proof (to_string_unsigned_digits n ltac:(destruct Hn; lia)) as HD.
  rewrite TableVersion.c_str_no_nul by by apply TableVersion.digits_no_nul.
  rewrite scan_key_digits by done.
  destruct (to_string_unsigned_cons n ltac:(destruct Hn; lia)) as (c & s & E & _).
  destruct (Z.eqb_spec (-1) (Z.of_nat (length (to_string_unsigned n)) - 1)).
  { rewrite E in *; simpl in *; lia. }
  change (Z.to_nat (if -1 <? 0 then 0 else -1 + 1)) with O.
  by rewrite drop_0, sscanf_u_to_string_unsigned.
Qed.

Lemma digit_not_underscore s :
  Forall (fun c => is_digit c = true) s -> Forall (fun c => c <> "_"%char) s.
Proof. intros H. eapply Forall_impl; [exact H|]. intros c Hc ->. discriminate. Qed.

Lemma scan_key_stop pre c post : forall n, (n <= length post)%nat ->
  not_key_char c = true -> Forall (fun d => is_digit d = true) post ->
  scan_key (pre ++ c :: post) (S (length pre) + n) = Z.of_nat (length pre).
Proof.
  induction n as [|n IH]; intros Hn Hc Hpost.
  - rewrite Nat.add_0_r. cbn [scan_key]. rewrite nth_middle. by rewrite Hc.
  - rewrite Nat.add_succ_r. cbn [scan_key].
    rewrite app_nth2 by lia. replace (S (length pre) + n - length pre)%nat with (S n) by lia.
    cbn [nth]. rewrite not_key_char_digit; [apply IH; [lia|done..]|].
    rewrite List.Forall_forall in Hpost. apply Hpost, nth_In. lia.
Qed.

Lemma of_string_after_nonkey pre c n :
  not_key_char c = true -> Forall (fun d => code d <> 0) pre -> code c <> 0 -> in_range 32 n ->
  of_string (pre ++ c :: to_string_unsigned n) = Some (Mk n).
Proof.
  intros Hc Hpre Hc0 Hn. unfold of_string, of_char_ptr.
  pose proof (to_string_unsigned_digits n ltac:(destruct Hn; lia)) as HD.
  rewrite TableVersion.c_str_no_nul by
    (apply Forall_app; split; [done|]; constructor; [done|by apply TableVersion.digits_no_nul]).
  rewrite length_app. cbn [length]. rewrite Nat.add_succ_r.
  change (S (length pre + length (to_string_unsigned n)))
    with (S (length pre) + length (to_string_unsigned n))%nat.
  rewrite scan_key_stop by done.
  destruct (to_string_unsigned_cons n ltac:(destruct Hn; lia)) as (d & s & E & _).
  destruct (Z.eqb_spec (Z.of_nat (length pre))
    (Z.of_nat (S (length pre) + length (to_string_unsigned n)) - 1)).
  { rewrite E in *; simpl in *; lia. }
  destruct (Z.ltb_spec (Z.of_nat (length pre)) 0); [lia|].
  replace (Z.to_nat (Z.of_nat (length pre) + 1)) with (length (pre ++ [c]))
    by (rewrite length_app; simpl; lia).
  replace (pre ++ c :: to_string_unsigned n) with ((pre ++ [c]) ++ to_string_unsigned n)
    by (by rewrite <- app_assoc).
  rewrite drop_app_length.
  by rewrite sscanf_u_to_string_unsigned.
Qed.

(** A legal group name and any key survive the trip through the full group
    string that names a group in the database. *)
Theorem fullGroupString_roundtrip groupName k full :
  wf k ->
  getFullGroupString groupName k (txt "_v") [] = Ok full ->
  size full < npos ->
  getGroupNameAndKey full = Ok (groupName, Some k).
Proof.
  intros Hk. unfold getFullGroupString.
  destruct (Z.eqb_spec (size groupName) 0); [done|].
  destruct (Z.eqb_spec (size groupName) 1); [done|].
  destruct (forallb _ _); [|done]. rewrite app_nil_r. intros [= <-] Hlen.
  pose proof (to_string_unsigned_digits (key_ k) ltac:(apply Hk)) as HD.
  set (D := to_string_unsigned (key_ k)) in *.
  unfold getGroupNameAndKey.
  pose proof (rfind_last "_" ["v"%char] groupName D) as Hr. cbn [app] in Hr.
  change (txt "_v") with ["_"%char; "v"%char].
  rewrite Hr by (constructor; [done|by apply digit_not_underscore]). clear Hr.
  fold (size groupName). rewrite substr_app_prefix. cbn [mbind result_bind].
  unfold size in Hlen. rewrite length_app in Hlen. cbn [length] in Hlen.
  rewrite wrap_small by (unfold in_range, npos, size in *; lia).
  replace (groupName ++ "_"%char :: "v"%char :: D) with ((groupName ++ ["_"%char; "v"%char]) ++ D)
    by (by rewrite <- app_assoc).
  replace (size groupName + 2) with (size (groupName ++ ["_"%char; "v"%char]))
    by (unfold size; rewrite length_app; simpl; lia).
  rewrite substr_app_suffix by (unfold size; lia).
  cbn [mbind result_bind]. unfold mret, result_ret, D. by rewrite of_string_to_string; destruct k.
Qed.

Lemma fullGroupString_roundtrip_witness :
  getGroupNameAndKey (txt "Physics_v42") = Ok (txt "Physics", Some (Mk 42)).
Proof.
  apply fullGroupString_roundtrip; [split; [discriminate|reflexivity]|reflexivity|reflexivity].
Defined.

(** [getFullGroupString] accepts exactly the names of two or more
    alpha-numeric characters, and otherwise throws. *)
Theorem getFullGroupString_ok groupName k preKey postKey :
  (exists full, getFullGroupString groupName k preKey postKey = Ok full) <->
  2 <= size groupName /\ forall c, c ∈ groupName -> is_alnum c = true.
Proof.
  unfold getFullGroupString. pose proof (Nat2Z.is_nonneg (length groupName)). fold (size groupName) in *.
  destruct (Z.eqb_spec (size groupName) 0); [split; [by intros []|lia]|].
  destruct (Z.eqb_spec (size groupName) 1); [split; [by intros []|lia]|].
  destruct (forallb alnum_char groupName) eqn:E.
  - split; [|eauto]. intros _. split; [lia|]. rewrite forallb_forall in E.
    intros c Hc%list_elem_of_In. rewrite <- alnum_char_is_alnum. auto.
  - split; [by intros []|]. intros [_ Hall]. exfalso. apply not_true_iff_false in E. apply E.
    apply forallb_forall. intros c Hc%list_elem_of_In. rewrite alnum_char_is_alnum. auto.
Qed.

(** A full group name is also accepted where only the key is expected: the
    key constructor finds the key after the version marker. *)
Theorem key_of_fullGroupString groupName k full :
  wf k -> getFullGroupString groupName k (txt "_v") [] = Ok full ->
  of_string full = Some k.
Proof.
  intros Hk. unfold getFullGroupString.
  destruct (Z.eqb_spec (size groupName) 0); [done|].
  destruct (Z.eqb_spec (size groupName) 1); [done|].
  destruct (forallb _ _) eqn:Hal; [|done]. rewrite app_nil_r. intros [= <-].
  pose proof (to_string_unsigned_digits (key_ k) ltac:(apply Hk)) as HD.
  replace (groupName ++ "_"%char :: "v"%char :: to_string_unsigned (key_ k))
    with ((groupName ++ ["_"%char]) ++ "v"%char :: to_string_unsigned (key_ k))
    by (by rewrite <- app_assoc).
  rewrite of_string_after_nonkey; [by destruct k|done| |done|done].
  apply Forall_app; split; [|by repeat constructor].
  rewrite forallb_forall in Hal. apply Forall_forall. intros c Hc%list_elem_of_In E0.
  specialize (Hal c Hc). rewrite alnum_char_is_alnum in Hal.
  unfold is_alnum, is_upper, is_lower, is_digit, between in Hal. rewrite E0 in Hal. discriminate.
Qed.

Lemma key_of_fullGroupString_witness : of_string (txt "Physics_v42") = Some (Mk 42).
Proof.
  apply (key_of_fullGroupString (txt "Physics")); [split; [discriminate|reflexivity]|reflexivity].
Defined.

End TableGroupKey.
