(* ===== verification/BitManipulator.v ===== *)
(** * Bit fields: src/otsdaq/BitManipulator/BitManipulator.cc

    The overloads of [insertBits], [reverseBits] and [readBits].  A C++ [for]
    loop is a fold over the range of its index; [seqZ lo len] is that range.
    A shift by the operand's width or more is undefined in C++; the model
    drops the bits that leave the word, and the theorems only speak about
    fields that lie inside it. *)

From S2P Require Import Prelude.

Module BitManipulator.

(** ~((uintW_t)1 << b) *)
Definition clear_mask (w b : Z) : Z := wrap w (Z.lnot (wrap w (Z.shiftl 1 b))).

(** insertBits(uint64_t& data, uint64_t value, ...): the new [data], which is
    also the returned value. *)
Definition insertBits64 (data value startBit numberOfBits : Z) : Z :=
  let data := fold_left (fun d i => Z.land d (clear_mask 64 (startBit + i)))
                        (seqZ 0 numberOfBits) data in
  Z.lor data (u64 (Z.shiftl value startBit)).

(** insertBits(uint32_t& data, uint32_t value, ...): one loop clears the
    field in [data] and everything but the field in [value]. *)
Definition insertBits32 (data value startBit numberOfBits : Z) : Z :=
  let value := u32 (Z.shiftl value startBit) in
  let '(data, value) :=
    fold_left (fun '(d, v) i =>
                 if (startBit <=? i) && (i <? u32 (startBit + numberOfBits))
                 then (Z.land d (clear_mask 32 i), v)
                 else (d, Z.land v (clear_mask 32 i)))
              (seqZ 0 32) (data, value) in
  u32 (data + value).

Definition reverseBits64 (data startBit numberOfBits : Z) : Z :=
  fold_left (fun acc r =>
               Z.lor acc (u64 (Z.shiftl (Z.land (Z.shiftr data r) 1) (u32 (numberOfBits - 1 - r)))))
            (seqZ startBit (numberOfBits - startBit)) 0.

Definition reverseBits32 (data startBit numberOfBits : Z) : Z :=
  fold_left (fun acc r =>
               Z.lor acc (u32 (Z.shiftl (Z.land (Z.shiftr data r) 1) (u32 (numberOfBits - 1 - r)))))
            (seqZ startBit (u32 (startBit + numberOfBits) - startBit)) 0.

Definition readBits (data startBit numberOfBits : Z) : Z :=
  fold_left (fun acc r =>
               u32 (acc + u32 (Z.shiftl (Z.land (Z.shiftr data r) 1) (r - startBit))))
            (seqZ startBit (u32 (startBit + numberOfBits) - startBit)) 0.

(** insertBits(std::string& data, uintW_t value, ...), the same text for
    [uint64_t] and [uint32_t].  The state of the outer loop is [data] (bytes),
    [overWritten], and [startBitInByte], which the body swaps in place. *)
Section StringInsert.
Variables (value startBit numberOfBits : Z).

Definition bitsInAByte : Z := 8.
Definition startByte : Z := startBit / bitsInAByte.
Definition finalByte : Z := u32 (startBit + numberOfBits - 1) / bitsInAByte.
Definition lastByteLength : Z := u32 (startBit + numberOfBits) mod bitsInAByte.

(** The inner loop that collects the bits of [value] for byte [j]. *)
Definition toWriteBits (j startBitInByte finalBitInByte : Z) : Z :=
  fold_left (fun toWrite y =>
    u8 (Z.lor toWrite
      (if 1 <? finalByte - startByte then
         if negb (j =? finalByte - startByte)
         then Z.shiftl (Z.land (Z.shiftr value
                (lastByteLength + (finalByte - startByte - 1 - j) * 8 + y)) 1) y
         else Z.shiftl (Z.land (Z.shiftr value (lastByteLength + y)) 1) y
       else if finalByte - startByte =? 1 then
         Z.shiftl (Z.land (Z.shiftr value (lastByteLength * (1 - j) + y)) 1) y
       else if finalByte - startByte =? 0 then
         Z.shiftl (Z.land (Z.shiftr value y) 1) y
       else 0)))
    (seqZ 0 (finalBitInByte - startBitInByte + 1)) 0.

Definition stringStep (st : list Z * Z * Z) (j : Z) : result (list Z * Z * Z) :=
  let '(data, overWritten, startBitInByte) := st in
  let startBitInByte := if negb (j =? 0) then 0 else startBitInByte in
  let finalBitInByte :=
    if negb (j =? finalByte - startByte) then 7
    else u32 (startBit + numberOfBits - 1) mod 8 in
  let tmp := finalBitInByte in
  let finalBitInByte := 7 - startBitInByte in
  let startBitInByte := 7 - tmp in
  (* data.substr(startByte + j, 1).data()[0]: throws past the end, reads the
     terminating NUL at the end *)
  if Z.of_nat (length data) <? startByte + j then Throw OutOfRange else
  let overWritten := nth (Z.to_nat (startByte + j)) data 0 in
  let toWrite := toWriteBits j startBitInByte finalBitInByte in
  let overWritten :=
    fold_left (fun o n => u8 (Z.land o (clear_mask 64 (startBitInByte + n))))
              (seqZ 0 (finalBitInByte - startBitInByte + 1)) overWritten in
  let overWritten := u8 (Z.lor overWritten (Z.shiftl toWrite startBitInByte)) in
  Ok (<[Z.to_nat (startByte + j) := overWritten]> data, overWritten, startBitInByte).

Fixpoint stringLoop (js : list Z) (st : list Z * Z * Z) : result (list Z * Z * Z) :=
  match js with
  | [] => Ok st
  | j :: js => st ← stringStep st j; stringLoop js st
  end.

(** The new [data] and the returned last byte. *)
Definition insertBitsString (data : list Z) : result (list Z * Z) :=
  '(data, overWritten, _) ←
     stringLoop (seqZ 0 (finalByte - startByte + 1)) (data, 0, startBit mod bitsInAByte);
  Ok (data, overWritten).

End StringInsert.

(** ** Bits of the loops *)

Lemma testbit_clear_mask w b j :
  0 <= b < w -> Z.testbit (clear_mask w b) j = (0 <=? j) && (j <? w) && negb (j =? b).
Proof.
  intros. unfold clear_mask. autorewrite with zbits. bool_cmp; simpl; lia || done.
Qed.

Lemma fold_clear_mask w (f : Z -> Z) l d j :
  Forall (fun i => 0 <= f i < w) l -> 0 <= j < w ->
  Z.testbit (fold_left (fun d i => Z.land d (clear_mask w (f i))) l d) j
  = Z.testbit d j && forallb (fun i => negb (j =? f i)) l.
Proof.
  intros Hl Hj. revert d. induction Hl as [|i l Hi Hl IH]; intros d; simpl.
  - by rewrite andb_true_r.
  - rewrite IH, Z.land_spec, testbit_clear_mask by done.
    destruct (Z.leb_spec 0 j); [|lia]. destruct (Z.ltb_spec j w); [|lia]. simpl.
    by rewrite andb_assoc.
Qed.

Lemma fold_land_range w (f : Z -> Z) l d :
  0 <= w -> in_range w d -> in_range w (fold_left (fun d i => Z.land d (f i)) l d).
Proof.
  intros Hw. revert d. induction l as [|i l IH]; intros d Hd; simpl; [done|].
  apply IH. apply in_range_testbit; [done|apply Z.land_nonneg; left; apply Hd|].
  intros k Hk. by rewrite Z.land_spec, (testbit_range w d).
Qed.

Lemma forallb_seqZ_ne s n j :
  0 <= n -> forallb (fun i => negb (j =? s + i)) (seqZ 0 n) = negb ((s <=? j) && (j <? s + n)).
Proof.
  intros Hn. destruct ((s <=? j) && (j <? s + n)) eqn:E; simpl.
  - apply andb_true_iff in E as [E1%Z.leb_le E2%Z.ltb_lt].
    apply not_true_iff_false. rewrite forallb_forall. intros H.
    specialize (H (j - s)). rewrite <- list_elem_of_In, elem_of_seqZ in H.
    specialize (H ltac:(lia)). replace (s + (j - s)) with j in H by lia.
    by rewrite Z.eqb_refl in H.
  - apply forallb_forall. intros i Hi%list_elem_of_In%elem_of_seqZ.
    destruct (Z.eqb_spec j (s + i)); [|done].
    apply andb_false_iff in E as [E%Z.leb_gt|E%Z.ltb_ge]; lia.
Qed.

(** The 64-bit insertion replaces the field and, because the value is not
    masked, also sets the bits above the field where the value has ones. *)
Theorem insertBits64_bits data value s n j :
  in_range 64 data -> 0 <= s -> 0 <= n -> s + n <= 64 -> 0 <= j < 64 ->
  Z.testbit (insertBits64 data value s n) j =
    if (s <=? j) && (j <? s + n) then Z.testbit value (j - s)
    else Z.testbit data j || ((s <=? j) && Z.testbit value (j - s)).
Proof.
  intros Hd Hs Hn Hsn Hj. unfold insertBits64.
  rewrite Z.lor_spec, (fold_clear_mask 64 (fun i => s + i)).
  - rewrite forallb_seqZ_ne by done. autorewrite with zbits.
    destruct (Z.ltb_spec j 64); [|lia]. destruct (Z.leb_spec 0 j); [|lia]. simpl.
    destruct (Z.leb_spec s j), (Z.ltb_spec j (s + n)); simpl;
      rewrite ?andb_false_r, ?andb_true_r, ?orb_false_r; try done.
    all: rewrite (Z.testbit_neg_r value) by lia; by rewrite ?orb_false_r.
  - apply Forall_forall. intros i Hi%elem_of_seqZ. lia.
  - done.
Qed.

Lemma insertBits64_bits_witness :
  Z.testbit (insertBits64 255 5 4 4) 4 = true /\ insertBits64 255 5 4 4 = 95.
Proof.
  split; [|reflexivity].
  rewrite insertBits64_bits; [reflexivity|split; [discriminate|reflexivity]|lia..].
Defined.

(** *** The 32-bit insertion *)

(** The two accumulators of the loop, separately. *)
Lemma insertBits32_loop s n l d v :
  fold_left (fun '(d, v) i =>
               if (s <=? i) && (i <? n) then (Z.land d (clear_mask 32 i), v)
               else (d, Z.land v (clear_mask 32 i))) l (d, v)
  = (fold_left (fun d i => Z.land d (clear_mask 32 i))
       (filter (fun i => Is_true ((s <=? i) && (i <? n))) l) d,
     fold_left (fun v i => Z.land v (clear_mask 32 i))
       (filter (fun i => ~ Is_true ((s <=? i) && (i <? n))) l) v).
Proof.
  revert d v. induction l as [|i l IH]; intros d v; [done|].
  cbn [fold_left]. destruct ((s <=? i) && (i <? n)) eqn:E.
  - rewrite IH. rewrite filter_cons_True, filter_cons_False; [done| |].
    all: rewrite E; simpl; tauto.
  - rewrite IH. rewrite filter_cons_False, filter_cons_True; [done| |].
    all: rewrite E; simpl; tauto.
Qed.

Lemma forallb_filter_ne (P : Z -> Prop) `{!forall i, Decision (P i)} l j :
  forallb (fun i => negb (j =? i)) (filter P l) = negb (bool_decide (P j /\ j ∈ l)).
Proof.
  case_bool_decide as Hin; simpl.
  - apply not_true_iff_false. rewrite forallb_forall. intros Hall.
    specialize (Hall j). rewrite <- list_elem_of_In, list_elem_of_filter, Z.eqb_refl in Hall.
    by specialize (Hall Hin).
  - apply forallb_forall. intros i Hi%list_elem_of_In%list_elem_of_filter.
    destruct (Z.eqb_spec j i) as [->|]; done.
Qed.

(** The 32-bit insertion replaces exactly the field: the final addition never
    carries. *)
Theorem insertBits32_bits data value s n j :
  in_range 32 data -> 0 <= s -> 0 <= n -> s + n <= 32 -> 0 <= j ->
  Z.testbit (insertBits32 data value s n) j =
    if (s <=? j) && (j <? s + n) then Z.testbit value (j - s) else Z.testbit data j.
Proof.
  intros Hd Hs Hn Hsn Hj. unfold insertBits32.
  rewrite (wrap_small 32 (s + n)) by (unfold in_range; lia).
  rewrite insertBits32_loop.
  set (D := fold_left _ _ data). set (V := fold_left _ _ (u32 _)).
  assert (HD : in_range 32 D) by (by apply fold_land_range).
  assert (HV : in_range 32 V) by (apply fold_land_range; [lia|apply wrap_range; lia]).
  assert (Hlow : forall (P : Z -> Prop) (DP : forall i, Decision (P i)),
     Forall (fun i => 0 <= i < 32) (filter P (seqZ 0 32))).
  { intros. apply Forall_forall. intros i [_ Hi%elem_of_seqZ]%list_elem_of_filter. lia. }
  assert (HDb : forall k, 0 <= k < 32 ->
     Z.testbit D k = Z.testbit data k && negb ((s <=? k) && (k <? s + n))).
  { intros k Hk. unfold D. rewrite (fold_clear_mask 32 (fun i => i)), forallb_filter_ne by auto.
    f_equal. f_equal. apply Bool.eq_true_iff_eq. rewrite bool_decide_eq_true, elem_of_seqZ, Is_true_true.
    intuition lia. }
  assert (HVb : forall k, 0 <= k < 32 ->
     Z.testbit V k = ((s <=? k) && (k <? s + n)) && Z.testbit value (k - s)).
  { intros k Hk. unfold V. rewrite (fold_clear_mask 32 (fun i => i)), forallb_filter_ne by auto.
    autorewrite with zbits. destruct (Z.ltb_spec k 32), (Z.leb_spec 0 k); try lia. simpl.
    rewrite andb_comm. f_equal. rewrite <- (negb_involutive ((s <=? k) && (k <? s + n))).
    f_equal. apply Bool.eq_true_iff_eq. rewrite bool_decide_eq_true, elem_of_seqZ, negb_true_iff.
    destruct (_ && _); simpl; intuition (done || lia). }
  assert (Hdisj : Z.land D V = 0).
  { bitwise k Hk. destruct (Z.lt_ge_cases k 32).
    - rewrite HDb, HVb by lia. bool_taut.
    - by rewrite (testbit_range 32 D) by (done || lia). }
  rewrite Z.add_nocarry_lxor by done. rewrite testbit_wrap, Z.lxor_spec by lia.
  destruct (Z.ltb_spec j 32).
  - rewrite HDb, HVb by lia. bool_taut.
  - destruct (Z.leb_spec s j), (Z.ltb_spec j (s + n)); simpl; try lia.
    all: by rewrite (testbit_range 32 data) by (done || lia).
Qed.

Lemma insertBits32_bits_witness :
  Z.testbit (insertBits32 255 0 4 2) 5 = false /\ insertBits32 255 0 4 2 = 207.
Proof.
  split; [|reflexivity].
  rewrite insertBits32_bits; [reflexivity|split; [discriminate|reflexivity]|lia..].
Defined.

(** *** Reading a field back *)

Lemma testbit_bit_at data r k j :
  0 <= r -> 0 <= j ->
  Z.testbit (Z.shiftl (Z.land (Z.shiftr data r) 1) k) j = (j =? k) && Z.testbit data r.
Proof.
  intros. autorewrite with zbits. destruct (Z.leb_spec 0 j); [|lia]. simpl.
  destruct (Z.leb_spec 0 (j - k)), (Z.eqb_spec (j - k) 0), (Z.eqb_spec j k);
    simpl; rewrite ?andb_false_r, ?andb_true_r; try lia || done.
  f_equal; lia.
Qed.

(** [readBits] is the field as a number. *)
Lemma readBits_field data s n :
  0 <= s -> 0 <= n -> s + n <= 32 ->
  readBits data s n = Z.shiftr data s mod 2 ^ n.
Proof.
  intros Hs Hn Hsn. unfold readBits.
  rewrite (wrap_small 32) by (unfold in_range; lia).
  replace (s + n - s) with n by lia.
  assert (G : forall k : nat, Z.of_nat k <= n ->
    fold_left (fun acc r => u32 (acc + u32 (Z.shiftl (Z.land (Z.shiftr data r) 1) (r - s))))
      (seqZ s (Z.of_nat k)) 0 = wrap (Z.of_nat k) (Z.shiftr data s)).
  { induction k as [|k IH]; intros Hk.
    - unfold wrap. by rewrite Z.mod_1_r.
    - rewrite seqZ_S, fold_left_app, IH, Nat2Z.inj_succ, <- Z.add_1_r by lia. cbn [fold_left].
      replace (s + Z.of_nat k - s) with (Z.of_nat k) by lia.
      rewrite Z.add_nocarry_lxor.
      + apply Z.bits_inj'. intros j Hj.
        rewrite testbit_wrap, Z.lxor_spec, !testbit_wrap, testbit_bit_at, testbit_shiftr by lia.
        destruct (Z.leb_spec 0 j); [|lia]. simpl.
        destruct (Z.ltb_spec j 32), (Z.ltb_spec j (Z.of_nat k + 1)), (Z.ltb_spec j (Z.of_nat k)),
          (Z.eqb_spec j (Z.of_nat k)); simpl; try lia.
        all: rewrite ?xorb_false_r, ?xorb_false_l; f_equal; lia.
      + apply Z.bits_inj'. intros j Hj.
        rewrite Z.land_spec, !testbit_wrap, testbit_bit_at, Z.bits_0 by lia.
        destruct (Z.ltb_spec j (Z.of_nat k)), (Z.eqb_spec j (Z.of_nat k)); simpl; try lia;
          by rewrite ?andb_false_r. }
  specialize (G (Z.to_nat n)). rewrite Z2Nat.id in G by lia. apply G. lia.
Qed.

(** What was inserted into a field is read back from it, cut to the field's
    width. *)
Theorem readBits_insertBits32 data value s n :
  in_range 32 data -> 0 <= s -> 0 <= n -> s + n <= 32 ->
  readBits (insertBits32 data value s n) s n = value mod 2 ^ n.
Proof.
  intros Hd Hs Hn Hsn. rewrite readBits_field by done. fold (wrap n value).
  fold (wrap n (Z.shiftr (insertBits32 data value s n) s)).
  bitwise j Hj. destruct (Z.ltb_spec j n); [|done]. destruct (Z.leb_spec 0 j); [|lia]. simpl.
  rewrite insertBits32_bits by (done || lia). bool_cmp; simpl; try lia. f_equal. lia.
Qed.

Lemma readBits_insertBits32_witness : readBits (insertBits32 4294967295 38 8 4) 8 4 = 6.
Proof.
  rewrite readBits_insertBits32; [reflexivity|split; [discriminate|reflexivity]|lia..].
Defined.

(** *** Reversal *)

Lemma reverse_loop_bits w data n l acc j :
  0 <= w -> 0 <= j < w -> Forall (fun r => 0 <= r < n) l -> n <= w -> w <= 2 ^ 31 ->
  Z.testbit (fold_left (fun acc r => Z.lor acc
      (wrap w (Z.shiftl (Z.land (Z.shiftr data r) 1) (u32 (n - 1 - r))))) l acc) j
  = Z.testbit acc j || existsb (fun r => (j =? n - 1 - r) && Z.testbit data r) l.
Proof.
  intros Hw Hj Hl Hn Hw2. revert acc. induction Hl as [|r l Hr Hl IH]; intros acc; simpl.
  - by rewrite orb_false_r.
  - rewrite IH, Z.lor_spec, testbit_wrap by done.
    rewrite (wrap_small 32) by (unfold in_range; lia). rewrite testbit_bit_at by lia.
    destruct (Z.ltb_spec j w); [|lia]. simpl. by rewrite orb_assoc.
Qed.

Lemma existsb_reverse data n j :
  existsb (fun r => (j =? n - 1 - r) && Z.testbit data r) (seqZ 0 n)
  = (0 <=? j) && (j <? n) && Z.testbit data (n - 1 - j).
Proof.
  apply Bool.eq_true_iff_eq. rewrite existsb_exists, !andb_true_iff, Z.leb_le, Z.ltb_lt. split.
  - intros (r & Hr%list_elem_of_In%elem_of_seqZ & H). apply andb_true_iff in H as [->%Z.eqb_eq H].
    replace (n - 1 - (n - 1 - r)) with r by lia. auto with lia.
  - intros [[H0 H1] H2]. exists (n - 1 - j). rewrite <- list_elem_of_In, elem_of_seqZ.
    split; [lia|]. rewrite H2, andb_true_r. apply Z.eqb_eq. lia.
Qed.

Lemma fold_lor_range w (f : Z -> Z) l acc :
  0 <= w -> in_range w acc ->
  in_range w (fold_left (fun acc r => Z.lor acc (wrap w (f r))) l acc).
Proof.
  intros Hw. revert acc. induction l as [|r l IH]; intros acc Hacc; simpl; [done|]. apply IH.
  apply in_range_testbit; [lia|apply Z.lor_nonneg; split; [apply Hacc|by apply wrap_range]|].
  intros i Hi. rewrite Z.lor_spec, (testbit_range w acc), testbit_wrap by (done || lia).
  destruct (Z.ltb_spec i w); [lia|done].
Qed.

(** With [startBit = 0] the 64-bit reversal mirrors the low [n] bits, and the
    32-bit one agrees with it. *)
Lemma reverseBits64_bits data n j :
  0 <= n <= 64 -> 0 <= j ->
  Z.testbit (reverseBits64 data 0 n) j = (j <? n) && Z.testbit data (n - 1 - j).
Proof.
  intros Hn Hj. unfold reverseBits64. rewrite Z.sub_0_r.
  destruct (Z.lt_ge_cases j 64).
  - rewrite (reverse_loop_bits 64), existsb_reverse; [|lia|lia| |lia|lia].
    + rewrite Z.bits_0. destruct (Z.leb_spec 0 j); [done|lia].
    + apply Forall_forall. intros r Hr%elem_of_seqZ. lia.
  - destruct (Z.ltb_spec j n); [lia|]. simpl.
    apply (testbit_range 64); [|lia].
    apply fold_lor_range; [lia|]. split; [lia|reflexivity].
Qed.

(** Reversing the low [n] bits twice gives the low [n] bits back. *)
Theorem reverseBits64_involutive data n :
  0 <= n <= 64 -> reverseBits64 (reverseBits64 data 0 n) 0 n = data mod 2 ^ n.
Proof.
  intros Hn. fold (wrap n data). bitwise j Hj.
  rewrite !reverseBits64_bits by lia. destruct (Z.ltb_spec j n); [|done]. simpl.
  rewrite reverseBits64_bits by lia. destruct (Z.ltb_spec (n - 1 - j) n); [|lia]. simpl.
  f_equal. lia.
Qed.

Lemma reverseBits64_involutive_witness :
  reverseBits64 (reverseBits64 11 0 8) 0 8 = 11 /\ reverseBits64 11 0 8 = 208.
Proof. split; [|reflexivity]. rewrite reverseBits64_involutive; [reflexivity|lia]. Defined.

(** *** Inserting into a byte string *)

(** The bits of [value] from [c] up, gathered one at a time. *)
Lemma collect_bits (f : Z -> Z -> Z) value c (m : nat) :
  0 <= c -> Z.of_nat m <= 8 ->
  (forall acc y, 0 <= y < Z.of_nat m ->
     f acc y = u8 (Z.lor acc (Z.shiftl (Z.land (Z.shiftr value (c + y)) 1) y))) ->
  fold_left f (seqZ 0 (Z.of_nat m)) 0 = wrap (Z.of_nat m) (Z.shiftr value c).
Proof.
  intros Hc. induction m as [|m IH]; intros Hm Hf.
  - unfold wrap. by rewrite Z.mod_1_r.
  - rewrite seqZ_S, fold_left_app, IH by (lia || intros; apply Hf; lia).
    cbn [fold_left]. rewrite Z.add_0_l, Hf by lia.
    apply Z.bits_inj'. intros j Hj.
    rewrite testbit_wrap, Z.lor_spec, !testbit_wrap, testbit_bit_at, testbit_shiftr by lia.
    rewrite Nat2Z.inj_succ. destruct (Z.leb_spec 0 j); [|lia]. simpl.
    destruct (Z.eqb_spec j (Z.of_nat m)) as [->|];
      [replace (c + Z.of_nat m) with (Z.of_nat m + c) by lia|].
    all: bool_cmp; simpl; rewrite ?orb_false_r; try lia; done.
Qed.

(** Clearing and filling the bits [a..b] of a byte. *)
Lemma byte_field_bits o t a b i :
  in_range 8 o -> in_range (b - a + 1) t -> 0 <= a <= b -> b <= 7 -> 0 <= i ->
  Z.testbit (u8 (Z.lor
    (fold_left (fun o n => u8 (Z.land o (clear_mask 64 (a + n)))) (seqZ 0 (b - a + 1)) o)
    (Z.shiftl t a))) i
  = if (a <=? i) && (i <=? b) then Z.testbit t (i - a) else Z.testbit o i.
Proof.
  intros Ho Ht Hab Hb Hi.
  assert (E : forall l o, in_range 8 o ->
    fold_left (fun o n => u8 (Z.land o (clear_mask 64 (a + n)))) l o
    = fold_left (fun o n => Z.land o (clear_mask 64 (a + n))) l o).
  { induction l as [|n l IH]; intros o' Ho'; [done|]. cbn [fold_left].
    assert (in_range 8 (Z.land o' (clear_mask 64 (a + n)))) as HR
      by (apply (fold_land_range 8 (fun _ => clear_mask 64 (a + n)) [n] o'); [lia|done]).
    rewrite (wrap_small 8) by done. by apply IH. }
  rewrite E by done. rewrite testbit_wrap, Z.lor_spec, testbit_shiftl by lia.
  destruct (Z.ltb_spec i 8).
  - rewrite (fold_clear_mask 64 (fun n => a + n)), forallb_seqZ_ne; [|lia| |lia].
    + destruct (Z.leb_spec a i), (Z.leb_spec i b), (Z.ltb_spec i (a + (b - a + 1))),
        (Z.leb_spec 0 i); simpl; try lia; rewrite ?andb_true_r, ?andb_false_r, ?orb_false_r; try done.
      * rewrite (testbit_range (b - a + 1) t) by (done || lia). by rewrite orb_false_r.
      * rewrite (Z.testbit_neg_r t) by lia. by rewrite orb_false_r.
    + apply Forall_forall. intros n Hn%elem_of_seqZ. lia.
  - destruct (Z.leb_spec a i), (Z.leb_spec i b); simpl; try lia.
    all: by rewrite (testbit_range 8 o) by (done || lia).
Qed.

Lemma nth_byte_range (data : list Z) k :
  Forall (in_range 8) data -> in_range 8 (nth k data 0).
Proof.
  intros H. destruct (Nat.lt_ge_cases k (length data)).
  - rewrite List.Forall_forall in H. by apply H, nth_In.
  - rewrite nth_overflow by done. split; [lia|reflexivity].
Qed.

(** A field inside one byte: bit 0 of the field's numbering is the most
    significant bit of the byte, and exactly the field's bits are replaced by
    the low bits of [value]. *)
Theorem insertBitsString_one_byte value s n data :
  Forall (in_range 8) data -> 0 <= s < 2 ^ 20 -> 1 <= n -> s mod 8 + n <= 8 ->
  s / 8 < Z.of_nat (length data) ->
  exists o, insertBitsString value s n data = Ok (<[Z.to_nat (s / 8) := o]> data, o) /\
    forall i, 0 <= i ->
      Z.testbit o i =
        if (8 - s mod 8 - n <=? i) && (i <? 8 - s mod 8)
        then Z.testbit value (i - (8 - s mod 8 - n))
        else Z.testbit (nth (Z.to_nat (s / 8)) data 0) i.
Proof.
  intros Hdata Hs Hn Hfit Hlen.
  pose proof (Z.div_mod s 8 ltac:(lia)) as Hdm. pose proof (Z.mod_pos_bound s 8 ltac:(lia)) as Hm.
  assert (Hf : finalByte s n = s / 8).
  { unfold finalByte, bitsInAByte. rewrite (wrap_small 32) by (unfold in_range; lia).
    symmetry. apply (Z.div_unique _ 8 _ (s mod 8 + n - 1)); lia. }
  assert (Hfm : u32 (s + n - 1) mod 8 = s mod 8 + n - 1).
  { rewrite (wrap_small 32) by (unfold in_range; lia).
    symmetry. apply (Z.mod_unique _ 8 (s / 8)); lia. }
  unfold insertBitsString, startByte. rewrite Hf. unfold bitsInAByte.
  replace (s / 8 - s / 8 + 1) with 1 by lia. change (seqZ 0 1) with [0]. cbn [stringLoop].
  unfold stringStep, startByte, bitsInAByte. rewrite Hf, Hfm.
  replace (s / 8 - s / 8) with 0 by lia. rewrite Z.eqb_refl. cbn [negb].
  rewrite Z.add_0_r. destruct (Z.ltb_spec (Z.of_nat (length data)) (s / 8)); [lia|].
  cbn [mbind result_bind]. eexists. split; [reflexivity|]. intros i Hi.
  assert (Ht : toWriteBits value s n 0 (7 - (s mod 8 + n - 1)) (7 - s mod 8) = wrap n value).
  { unfold toWriteBits. replace (7 - s mod 8 - (7 - (s mod 8 + n - 1)) + 1) with n by lia.
    rewrite <- (Z2Nat.id n) at 1 by lia. rewrite (collect_bits _ value 0); [|lia|lia|].
    - by rewrite Z2Nat.id, Z.shiftr_0_r by lia.
    - intros acc y Hy. unfold startByte, bitsInAByte. rewrite Hf, Z.sub_diag. done. }
  rewrite Ht, byte_field_bits; [|by apply nth_byte_range|..]; try lia.
  - destruct (Z.leb_spec (7 - (s mod 8 + n - 1)) i), (Z.leb_spec i (7 - s mod 8)),
      (Z.leb_spec (8 - s mod 8 - n) i), (Z.ltb_spec i (8 - s mod 8)); simpl; try lia; try done.
    rewrite testbit_wrap by lia. destruct (Z.ltb_spec (i - (7 - (s mod 8 + n - 1))) n); [|lia].
    simpl. f_equal. lia.
  - replace (7 - s mod 8 - (7 - (s mod 8 + n - 1)) + 1) with n by lia. apply wrap_range; lia.
Qed.

Lemma insertBitsString_one_byte_witness :
  exists o, insertBitsString 5 1 3 [255] = Ok (<[0%nat := o]> [255], o) /\ Z.testbit o 5 = false.
Proof.
  destruct (insertBitsString_one_byte 5 1 3 [255]) as (o & Ho & Hb);
    [by repeat constructor|lia|lia|done|done|].
  exists o. split; [exact Ho|]. rewrite Hb by lia. reflexivity.
Defined.

Lemma bits_whole_byte o t :
  in_range 8 o -> in_range 8 t ->
  u8 (Z.lor (fold_left (fun o n => u8 (Z.land o (clear_mask 64 (0 + n)))) (seqZ 0 8) o)
            (Z.shiftl t 0)) = t.
Proof.
  intros Ho Ht. apply Z.bits_inj'. intros i Hi.
  pose proof (byte_field_bits o t 0 7 i Ho Ht ltac:(lia) ltac:(lia) Hi) as E.
  change (7 - 0 + 1) with 8 in E. rewrite E, Z.sub_0_r.
  destruct (Z.leb_spec 0 i), (Z.leb_spec i 7); simpl; try lia; [done|].
  by rewrite !(testbit_range 8) by (done || lia).
Qed.

(** Two whole bytes: [insertBits(data, value, 8*k, 16)] stores the low byte of
    [value] in both bytes; the high byte of [value] is never written. *)
Theorem insertBitsString_two_bytes value (k : nat) data :
  Forall (in_range 8) data -> (S k < length data)%nat -> Z.of_nat k < 2 ^ 20 ->
  insertBitsString value (8 * Z.of_nat k) 16 data
  = Ok (<[S k := u8 value]> (<[k := u8 value]> data), u8 value).
Proof.
  intros Hdata Hlen Hk. set (K := Z.of_nat k) in *.
  assert (Hs : startByte (8 * K) = K).
  { unfold startByte, bitsInAByte. rewrite Z.mul_comm. by apply Z.div_mul. }
  assert (Hf : finalByte (8 * K) 16 = K + 1).
  { unfold finalByte, bitsInAByte. rewrite (wrap_small 32) by (unfold in_range; lia).
    symmetry. apply (Z.div_unique _ 8 _ 7); lia. }
  assert (Hl : lastByteLength (8 * K) 16 = 0).
  { unfold lastByteLength, bitsInAByte. rewrite (wrap_small 32) by (unfold in_range; lia).
    symmetry. apply (Z.mod_unique _ 8 (K + 2)); lia. }
  assert (Hfm : u32 (8 * K + 16 - 1) mod 8 = 7).
  { rewrite (wrap_small 32) by (unfold in_range; lia).
    symmetry. apply (Z.mod_unique _ 8 (K + 1)); lia. }
  assert (Ht : forall j, toWriteBits value (8 * K) 16 j 0 7 = u8 value).
  { intros j. unfold toWriteBits. rewrite Hs, Hf, Hl.
    change (seqZ 0 (7 - 0 + 1)) with (seqZ 0 (Z.of_nat 8)).
    rewrite (collect_bits _ value 0); [by rewrite Z.shiftr_0_r|lia|lia|].
    intros acc y Hy. replace (K + 1 - K) with 1 by lia. reflexivity. }
  assert (Hstep : forall j data o, j = 0 \/ j = 1 -> Forall (in_range 8) data ->
    K + j < Z.of_nat (length data) ->
    stringStep value (8 * K) 16 (data, o, 0) j
    = Ok (<[Z.to_nat (K + j) := u8 value]> data, u8 value, 0)).
  { intros j d o Hj Hd Hl'. unfold stringStep. rewrite Hs, Hf, Hfm.
    destruct (Z.ltb_spec (Z.of_nat (length d)) (K + j)); [lia|].
    destruct (negb (j =? 0)), (negb (j =? K + 1 - K)); change (7 - 7) with 0;
      change (7 - 0) with 7; rewrite Ht; rewrite bits_whole_byte;
      by apply nth_byte_range || (apply wrap_range; lia) || done. }
  unfold insertBitsString. rewrite Hs, Hf. replace (K + 1 - K + 1) with 2 by lia.
  change (seqZ 0 2) with [0; 1]. unfold bitsInAByte. rewrite Z.mul_comm, Z.mod_mul by lia.
  rewrite Z.mul_comm. cbn [stringLoop].
  rewrite Hstep by (auto || lia). cbn [mbind result_bind]. rewrite Hstep.
  - cbn [mbind result_bind]. subst K. rewrite Z.add_0_r, Nat2Z.id.
    by replace (Z.to_nat (Z.of_nat k + 1)) with (S k) by lia.
  - auto.
  - apply Forall_insert; [done|]. apply wrap_range; lia.
  - rewrite length_insert. lia.
Qed.

Lemma insertBitsString_two_bytes_witness :
  insertBitsString 43981 0 16 [0; 0] = Ok ([205; 205], 205).
Proof. apply (insertBitsString_two_bytes 43981 0 [0; 0]); [by repeat constructor|simpl; lia|lia]. Defined.

End BitManipulator.
