(* ===== verification/Network.v ===== *)
(** * Network byte handling and framed TCP messages

    src/otsdaq/NetworkUtilities/: NetworkConverters.cc, TCPPacket.cc and .h,
    TCPTransmitterSocket.cc and TCPReceiverSocket.cc.  Byte strings are lists
    of integers in [0, 256).  The host's byte order is a parameter,
    [little_endian]: [htonl], [ntohl] and a [reinterpret_cast] to [uint32_t]
    depend on it.  What the kernel answers to [::send] and [::read] is an
    explicit list of answers, consumed one per call. *)

From S2P Require Import Prelude CText.

Abbreviation bytes := (list Z).
Definition is_bytes (s : bytes) : Prop := Forall (in_range 8) s.

(** ** Byte order *)

Definition byte_of (v i : Z) : Z := Z.land (Z.shiftr v (8 * i)) 255.
Definition bswap32 (v : Z) : Z :=
  Z.shiftl (byte_of v 0) 24 + Z.shiftl (byte_of v 1) 16 + Z.shiftl (byte_of v 2) 8 + byte_of v 3.
Definition bswap16 (v : Z) : Z := Z.shiftl (byte_of v 0) 8 + byte_of v 1.

Section Host.
Variable little_endian : bool.
Definition htonl (v : Z) : Z := if little_endian then bswap32 v else v.
Definition ntohl (v : Z) : Z := htonl v.
Definition htons (v : Z) : Z := if little_endian then bswap16 v else v.
Definition ntohs (v : Z) : Z := htons v.
(** A [uint32_t] read through a pointer to four bytes of memory. *)
Definition load32 (b0 b1 b2 b3 : Z) : Z :=
  if little_endian
  then b0 + Z.shiftl b1 8 + Z.shiftl b2 16 + Z.shiftl b3 24
  else Z.shiftl b0 24 + Z.shiftl b1 16 + Z.shiftl b2 8 + b3.
End Host.

Lemma byte_of_div v i : 0 <= i -> byte_of v i = (v / 2 ^ (8 * i)) mod 256.
Proof.
  intros. unfold byte_of. change 255 with (Z.ones 8).
  by rewrite Z.land_ones, Z.shiftr_div_pow2 by lia.
Qed.

Lemma byte_of_range v i : in_range 8 (byte_of v i).
Proof.
  unfold byte_of. change 255 with (Z.ones 8). rewrite Z.land_ones by lia.
  apply (wrap_range 8). lia.
Qed.

Ltac unfold_bytes :=
  rewrite ?byte_of_div, ?Z.shiftl_mul_pow2 by lia;
  change (2 ^ (8 * 0)) with 1; change (2 ^ (8 * 1)) with 256;
  change (2 ^ (8 * 2)) with 65536; change (2 ^ (8 * 3)) with 16777216;
  change (2 ^ 8) with 256; change (2 ^ 16) with 65536; change (2 ^ 24) with 16777216;
  change (2 ^ 32) with 4294967296.

Lemma join_bytes v :
  in_range 32 v ->
  Z.shiftl (byte_of v 3) 24 + Z.shiftl (byte_of v 2) 16 + Z.shiftl (byte_of v 1) 8 + byte_of v 0 = v.
Proof. unfold in_range. unfold_bytes. intros. Z.div_mod_to_equations. lia. Qed.

Lemma byte_of_join a b c d :
  in_range 8 a -> in_range 8 b -> in_range 8 c -> in_range 8 d ->
  let v := Z.shiftl a 24 + Z.shiftl b 16 + Z.shiftl c 8 + d in
  byte_of v 3 = a /\ byte_of v 2 = b /\ byte_of v 1 = c /\ byte_of v 0 = d.
Proof.
  unfold in_range. change (2 ^ 8) with 256. intros Ha Hb Hc Hd. cbv zeta. unfold_bytes.
  repeat split; Z.div_mod_to_equations; lia.
Qed.

Lemma bswap32_range v : in_range 32 (bswap32 v).
Proof.
  pose proof (byte_of_range v 0). pose proof (byte_of_range v 1).
  pose proof (byte_of_range v 2). pose proof (byte_of_range v 3).
  unfold bswap32, in_range in *. rewrite !Z.shiftl_mul_pow2 by lia.
  change (2 ^ 8) with 256 in *. change (2 ^ 16) with 65536. change (2 ^ 24) with 16777216.
  change (2 ^ 32) with 4294967296. lia.
Qed.

Lemma bswap32_bytes v :
  byte_of (bswap32 v) 3 = byte_of v 0 /\ byte_of (bswap32 v) 2 = byte_of v 1 /\
  byte_of (bswap32 v) 1 = byte_of v 2 /\ byte_of (bswap32 v) 0 = byte_of v 3.
Proof.
  exact (byte_of_join _ _ _ _ (byte_of_range v 0) (byte_of_range v 1)
           (byte_of_range v 2) (byte_of_range v 3)).
Qed.

Lemma bswap32_involutive v : in_range 32 v -> bswap32 (bswap32 v) = v.
Proof.
  intros Hv. destruct (bswap32_bytes v) as (E3 & E2 & E1 & E0).
  unfold bswap32 at 1. rewrite E0, E1, E2, E3. by apply join_bytes.
Qed.

Lemma htonl_range le v : in_range 32 v -> in_range 32 (htonl le v).
Proof. destruct le; simpl; auto using bswap32_range. Qed.

Lemma ntohl_htonl le v : in_range 32 v -> ntohl le (htonl le v) = v.
Proof. destruct le; [apply bswap32_involutive|done]. Qed.

(** ** NetworkConverters *)

Module NetworkConverters.
Section NetworkConverters.
Variable little_endian : bool.
(** [inet_aton] and [inet_ntoa] of the C library, on network-order addresses. *)
Variable inet_aton : text -> option Z.
Variable inet_ntoa : Z -> text.

Definition char_at (value : bytes) (i : nat) : Z := nth i value 0.

Definition unsignedToStringIP (value : Z) : bytes :=
  [Z.land (Z.shiftr value 24) 255; Z.land (Z.shiftr value 16) 255;
   Z.land (Z.shiftr value 8) 255; Z.land value 255].

Definition stringToUnsignedIP (value : bytes) : Z :=
  u32 (Z.shiftl (Z.land (char_at value 0) 255) 24 + Z.shiftl (Z.land (char_at value 1) 255) 16
       + Z.shiftl (Z.land (char_at value 2) 255) 8 + Z.land (char_at value 3) 255).

Definition unsignedToNetworkIP (value : Z) : Z := htonl little_endian value.
Definition networkToUnsignedIP (value : Z) : Z := ntohl little_endian value.
Definition stringToNetworkIP (value : bytes) : Z := unsignedToNetworkIP (stringToUnsignedIP value).
Definition networkToStringIP (value : Z) : bytes := unsignedToStringIP (networkToUnsignedIP value).

(** On a failed [inet_aton] the address is whatever the stack held. *)
Definition nameToStringIP (uninitialised : Z) (value : text) : bytes :=
  networkToStringIP (default uninitialised (inet_aton value)).
Definition stringToNameIP (value : bytes) : text := inet_ntoa (stringToNetworkIP value).

Definition unsignedToStringPort (value : Z) : bytes :=
  [Z.land (Z.shiftr value 8) 255; Z.land value 255].
Definition stringToUnsignedPort (value : bytes) : Z :=
  u16 (Z.shiftl (Z.land (char_at value 0) 255) 8 + Z.land (char_at value 1) 255).
Definition unsignedToNetworkPort (value : Z) : Z := htons little_endian value.
Definition networkToUnsignedPort (value : Z) : Z := ntohs little_endian value.
Definition stringToNetworkPort (value : bytes) : Z := unsignedToNetworkPort (stringToUnsignedPort value).
Definition networkToStringPort (value : Z) : bytes := unsignedToStringPort (networkToUnsignedPort value).

Lemma land_255_byte b : in_range 8 b -> Z.land b 255 = b.
Proof. intros. change 255 with (Z.ones 8). rewrite Z.land_ones by lia. by apply wrap_small. Qed.

Lemma bytes4 (value : bytes) : is_bytes value -> length value = 4%nat ->
  exists a b c d, value = [a; b; c; d] /\ in_range 8 a /\ in_range 8 b /\ in_range 8 c /\ in_range 8 d.
Proof.
  intros H Hl. destruct value as [|a [|b [|c [|d [|]]]]]; try done. exists a, b, c, d.
  repeat (apply Forall_cons in H as [? H]). done.
Qed.

Lemma stringToUnsignedIP_join a b c d :
  in_range 8 a -> in_range 8 b -> in_range 8 c -> in_range 8 d ->
  stringToUnsignedIP [a; b; c; d] = Z.shiftl a 24 + Z.shiftl b 16 + Z.shiftl c 8 + d /\
  in_range 32 (Z.shiftl a 24 + Z.shiftl b 16 + Z.shiftl c 8 + d).
Proof.
  intros Ha Hb Hc Hd.
  assert (HR : in_range 32 (Z.shiftl a 24 + Z.shiftl b 16 + Z.shiftl c 8 + d)).
  { unfold in_range in *. rewrite !Z.shiftl_mul_pow2 by lia.
    change (2 ^ 8) with 256 in *. change (2 ^ 16) with 65536. change (2 ^ 24) with 16777216.
    change (2 ^ 32) with 4294967296. lia. }
  split; [|done]. unfold stringToUnsignedIP, char_at. cbn [nth].
  rewrite !land_255_byte by done. by apply wrap_small.
Qed.

Lemma unsignedToStringIP_bytes v :
  unsignedToStringIP v = [byte_of v 3; byte_of v 2; byte_of v 1; byte_of v 0].
Proof. unfold unsignedToStringIP, byte_of. by rewrite Z.mul_0_r, Z.shiftr_0_r. Qed.

(** The 4-byte string form of an address and its network-order integer convert
    into each other without loss, whatever the host's byte order. *)
Theorem stringIP_networkIP_roundtrip value :
  is_bytes value -> length value = 4%nat ->
  networkToStringIP (stringToNetworkIP value) = value.
Proof.
  intros H Hl. destruct (bytes4 _ H Hl) as (a & b & c & d & -> & Ha & Hb & Hc & Hd).
  destruct (stringToUnsignedIP_join a b c d) as [E HR]; try done.
  unfold networkToStringIP, stringToNetworkIP, networkToUnsignedIP, unsignedToNetworkIP.
  rewrite E, ntohl_htonl, unsignedToStringIP_bytes by done.
  destruct (byte_of_join a b c d) as (-> & -> & -> & ->); done.
Qed.

(** A dotted name and the 4-byte string convert into each other, given that
    the C library's two functions are inverse on addresses. *)
Theorem stringIP_nameIP_roundtrip u value :
  (forall a, in_range 32 a -> inet_aton (inet_ntoa a) = Some a) ->
  is_bytes value -> length value = 4%nat ->
  nameToStringIP u (stringToNameIP value) = value.
Proof.
  intros Hlib H Hl. unfold nameToStringIP, stringToNameIP. rewrite Hlib.
  - by apply stringIP_networkIP_roundtrip.
  - destruct (bytes4 _ H Hl) as (a & b & c & d & -> & Ha & Hb & Hc & Hd).
    destruct (stringToUnsignedIP_join a b c d) as [E HR]; try done.
    unfold stringToNetworkIP, unsignedToNetworkIP. rewrite E. by apply htonl_range.
Qed.

End NetworkConverters.

Lemma stringIP_networkIP_roundtrip_witness :
  networkToStringIP true (stringToNetworkIP true [192; 168; 1; 42]) = [192; 168; 1; 42].
Proof. apply stringIP_networkIP_roundtrip; [by repeat constructor|reflexivity]. Defined.

(** A concrete pair of inverse address printers: the four bytes as characters. *)
Definition sample_ntoa (a : Z) : text := map chr [byte_of a 3; byte_of a 2; byte_of a 1; byte_of a 0].
Definition sample_aton (t : text) : option Z :=
  match map code t with
  | [a; b; c; d] => Some (Z.shiftl a 24 + Z.shiftl b 16 + Z.shiftl c 8 + d)
  | _ => None
  end.

Lemma sample_aton_ntoa a : in_range 32 a -> sample_aton (sample_ntoa a) = Some a.
Proof.
  intros Ha. unfold sample_aton, sample_ntoa. cbn [map].
  rewrite !code_chr, !(wrap_small 8) by apply byte_of_range. f_equal. by apply join_bytes.
Qed.

Lemma stringIP_nameIP_roundtrip_witness :
  nameToStringIP true sample_aton 0 (stringToNameIP true sample_ntoa [10; 0; 0; 1]) = [10; 0; 0; 1].
Proof.
  apply stringIP_nameIP_roundtrip; [exact sample_aton_ntoa|by repeat constructor|reflexivity].
Defined.

End NetworkConverters.

(** ** TCPPacket: a length header in front of each message *)

Module TCPPacket.

Record TCPPacket := Mk { fBuffer : bytes }.

Definition headerLength : Z := 4.

Section TCPPacket.
Variable little_endian : bool.

Definition encode (message : bytes) : bytes :=
  let size := htonl little_endian (u32 (headerLength + Z.of_nat (length message))) in
  [Z.land size 255; Z.land (Z.shiftr size 8) 255;
   Z.land (Z.shiftr size 16) 255; Z.land (Z.shiftr size 24) 255] ++ message.

Definition init : TCPPacket := Mk [].
Definition reset (p : TCPPacket) : TCPPacket := Mk [].
Definition isEmpty (p : TCPPacket) : bool := Z.of_nat (length (fBuffer p)) =? 0.
(** [operator+=] *)
Definition append (p : TCPPacket) (buffer : bytes) : TCPPacket := Mk (fBuffer p ++ buffer).

(** [decode(message)]: the returned flag, what is stored in [message] ([None]:
    nothing) and the packet afterwards. *)
Definition decode (p : TCPPacket) : bool * option bytes * TCPPacket :=
  let fb := fBuffer p in
  let len := Z.of_nat (List.length fb) in
  if len <? headerLength then (false, None, p)
  else
    let length := ntohl little_endian
      (load32 little_endian (nth 0 fb 0) (nth 1 fb 0) (nth 2 fb 0) (nth 3 fb 0)) in
    if len =? length then (true, Some (drop (Z.to_nat headerLength) fb), Mk [])
    else if length <? len then
      (true, Some (take (Z.to_nat (u32 (length - headerLength))) (drop (Z.to_nat headerLength) fb)),
       Mk (drop (Z.to_nat length) fb))
    else (false, None, p).

(** *** Properties *)

(** A message whose length, with the header, fits the 32-bit header. *)
Definition fits (m : bytes) : Prop := headerLength + Z.of_nat (length m) < 2 ^ 32.

Lemma encode_bytes m :
  encode m = (let v := htonl little_endian (u32 (headerLength + Z.of_nat (length m))) in
              [byte_of v 0; byte_of v 1; byte_of v 2; byte_of v 3] ++ m).
Proof. unfold encode, byte_of. cbv zeta. by rewrite Z.mul_0_r, Z.shiftr_0_r. Qed.

Lemma length_encode m : length (encode m) = (4 + length m)%nat.
Proof. reflexivity. Qed.

End TCPPacket.

(** The framing works on little-endian hosts: the header is stored least
    significant byte first but read back in host order. *)
Abbreviation enc := (encode true).
Abbreviation dec := (decode true).

Lemma load32_encode m rest :
  fits m -> let b := enc m ++ rest in
  ntohl true (load32 true (nth 0 b 0) (nth 1 b 0) (nth 2 b 0) (nth 3 b 0))
  = 4 + Z.of_nat (length m).
Proof.
  intros Hm b. subst b. rewrite encode_bytes. cbv zeta. cbn [app nth].
  unfold fits, headerLength in *. rewrite (wrap_small 32) by (unfold in_range; lia).
  set (n := 4 + Z.of_nat (length m)) in *.
  assert (Hn : in_range 32 n) by (unfold in_range; lia).
  assert (E : load32 true (byte_of (htonl true n) 0) (byte_of (htonl true n) 1)
      (byte_of (htonl true n) 2) (byte_of (htonl true n) 3) = htonl true n).
  { pose proof (join_bytes (htonl true n) (htonl_range _ _ Hn)). unfold load32. lia. }
  rewrite E. by apply ntohl_htonl.
Qed.

(** A complete frame at the front of the buffer is decoded to its message, and
    exactly that frame is removed. *)
Lemma decode_encode m rest :
  fits m -> dec (Mk (enc m ++ rest)) = (true, Some m, Mk rest).
Proof.
  intros Hm. pose proof (load32_encode m rest Hm) as Hl. cbv zeta in Hl.
  unfold decode. cbn [fBuffer]. rewrite Hl. clear Hl.
  rewrite length_app, length_encode. unfold fits, headerLength in *.
  destruct (Z.ltb_spec (Z.of_nat (4 + length m + length rest)) 4); [lia|].
  destruct (Z.eqb_spec (Z.of_nat (4 + length m + length rest)) (4 + Z.of_nat (length m))).
  - assert (length rest = 0%nat) as ->%nil_length_inv by lia. by rewrite app_nil_r.
  - destruct (Z.ltb_spec (4 + Z.of_nat (length m)) (Z.of_nat (4 + length m + length rest))); [|lia].
    rewrite (wrap_small 32) by (unfold in_range; lia).
    replace (Z.to_nat (4 + Z.of_nat (length m) - 4)) with (length m) by lia.
    replace (Z.to_nat (4 + Z.of_nat (length m))) with (length (enc m)) by (rewrite length_encode; lia).
    rewrite drop_app_length. do 2 f_equal. f_equal.
    change (drop (Z.to_nat 4) (enc m ++ rest)) with (m ++ rest). apply take_app_length.
Qed.

(** An incomplete frame is left alone. *)
Lemma decode_incomplete m a b :
  fits m -> a ++ b = enc m -> b <> [] -> dec (Mk a) = (false, None, Mk a).
Proof.
  intros Hm Hab Hb. unfold decode. cbn [fBuffer]. unfold headerLength.
  destruct (Z.ltb_spec (Z.of_nat (length a)) 4); [done|].
  assert (Hlen : (length a < 4 + length m)%nat).
  { rewrite <- (length_encode true), <- Hab, length_app. destruct b; [done|]. simpl. lia. }
  pose proof (load32_encode m [] Hm) as Hl. cbv zeta in Hl. rewrite app_nil_r, <- Hab in Hl.
  rewrite !app_nth1 in Hl by lia. rewrite Hl.
  destruct (Z.eqb_spec (Z.of_nat (length a)) (4 + Z.of_nat (length m))); [lia|].
  destruct (Z.ltb_spec (4 + Z.of_nat (length m)) (Z.of_nat (length a))); [lia|]. done.
Qed.

(** A reader of the class: after every chunk of bytes it calls [decode] until
    it answers false.  Every successful call removes at least the header, so
    the buffer's length bounds the number of calls. *)
Fixpoint drain (fuel : nat) (p : TCPPacket) : list bytes * TCPPacket :=
  match fuel with
  | O => ([], p)
  | S fuel =>
      match dec p with
      | (true, Some m, p') => let '(ms, q) := drain fuel p' in (m :: ms, q)
      | _ => ([], p)
      end
  end.
Definition feed (st : list bytes * TCPPacket) (chunk : bytes) : list bytes * TCPPacket :=
  let p := append (snd st) chunk in
  let '(ms, q) := drain (S (length (fBuffer p))) p in (fst st ++ ms, q).

Definition stream (ms : list bytes) : bytes := concat (map enc ms).

Lemma drain_prefix fuel : forall a b ms,
  (length a < fuel)%nat -> Forall fits ms -> a ++ b = stream ms ->
  exists ms1 ms2 r, ms = ms1 ++ ms2 /\ drain fuel (Mk a) = (ms1, Mk r) /\
    r ++ b = stream ms2 /\ (b = [] -> ms2 = []).
Proof.
  induction fuel as [|fuel IH]; intros a b ms Hf Hms Hab; [lia|].
  destruct ms as [|m ms].
  - cbn in Hab. apply app_eq_nil in Hab as [-> ->]. by exists [], [], [].
  - apply Forall_cons in Hms as [Hm Hms]. change (stream (m :: ms)) with (enc m ++ stream ms) in Hab.
    destruct (Nat.lt_ge_cases (length a) (length (enc m))) as [Hlt|Hge].
    + (* the first frame is not complete yet *)
      assert (exists b', a ++ b' = enc m /\ b' <> []) as (b' & Hb' & Hne).
      { exists (drop (length a) (enc m)).
        assert (E : take (length a) (enc m) = a).
        { pose proof (f_equal (take (length a)) Hab) as Ht.
          by rewrite take_app_length, take_app_le in Ht by lia. }
        split; [by rewrite <- E at 1; rewrite take_drop|].
        intros E0%(f_equal length). rewrite length_drop in E0. cbn [length] in E0. lia. }
      exists [], (m :: ms), a. cbn [drain]. rewrite (decode_incomplete m a b') by done.
      repeat split; try done. intros ->. rewrite app_nil_r in Hab. subst a.
      rewrite length_app in Hlt. lia.
    + (* the first frame is complete *)
      assert (a = enc m ++ drop (length (enc m)) a) as Ha.
      { pose proof (f_equal (take (length (enc m))) Hab) as Ht.
        rewrite take_app_le, take_app_length in Ht by lia. rewrite <- Ht at 1. by rewrite take_drop. }
      set (a' := drop (length (enc m)) a) in *. clearbody a'. subst a.
      rewrite <- app_assoc in Hab. apply app_inv_head in Hab.
      destruct (IH a' b ms) as (ms1 & ms2 & r & -> & Hd & Hr & Hb0).
      { rewrite length_app, length_encode in Hf. lia. } { done. } { done. }
      exists (m :: ms1), ms2, r. cbn [drain]. by rewrite decode_encode, Hd by done.
Qed.

(** C10: However the byte stream of the encoded messages is cut into chunks, the
    reader gets exactly the messages, in order, and ends with an empty
    buffer. *)
Theorem packet_stream_reassembly (ms chunks : list bytes) :
  Forall fits ms -> concat chunks = stream ms ->
  fold_left feed chunks ([], init) = (ms, init).
Proof.
  assert (G : forall chunks buf out ms, Forall fits ms ->
    buf ++ concat chunks = stream ms -> (concat chunks = [] -> ms = [] /\ buf = []) ->
    fold_left feed chunks (out, Mk buf) = (out ++ ms, init)).
  { clear. induction chunks as [|c cs IH]; intros buf out ms Hms Hs Hend.
    - destruct (Hend eq_refl) as [-> ->]. by rewrite app_nil_r.
    - cbn [fold_left]. unfold feed at 2. cbn [append fBuffer fst snd].
      destruct (drain_prefix (S (length (buf ++ c))) (buf ++ c) (concat cs) ms)
        as (ms1 & ms2 & r & -> & Hd & Hr & Hlast).
      { lia. } { done. } { by rewrite <- app_assoc. }
      unfold append. cbn [fBuffer]. rewrite Hd. rewrite (IH r _ ms2).
      + by rewrite app_assoc.
      + by apply Forall_app in Hms as [_ ?].
      + done.
      + intros E. specialize (Hlast E). subst ms2. split; [done|].
        rewrite E, app_nil_r in Hr. exact Hr. }
  intros Hms Hs. apply (G chunks [] [] ms Hms Hs).
  intros E. rewrite E in Hs. destruct ms; [done|]. discriminate.
Qed.

Lemma packet_stream_reassembly_witness :
  fold_left feed [enc [7; 8] ++ [0; 0]; [0]; [5; 9]] ([], init) = ([[7; 8]; [9]], init).
Proof. apply packet_stream_reassembly; [by repeat constructor|reflexivity]. Defined.

End TCPPacket.

(** ** Sending and receiving framed packets *)

(** The errno values the code tells apart. *)
Inductive errno := EPIPE | ENOSPC | EINTR | EAGAIN | ENOTCONN | EBADF | EFAULT | ENXIO | EOTHER.

(** What a blocking call of the modelled code does: return, throw, or still
    wait for the kernel's next answer. *)
Inductive outcome (A : Type) :=
| Returned (a : A)
| Threw (e : exn)
| Waiting.
Arguments Returned {A} a.
Arguments Threw {A} e.
Arguments Waiting {A}.

Module TCPTransmitterSocket.

(** One answer of [::send]: a byte count, or an error. *)
Inductive send_answer := Sent (n : Z) | SendFailed (e : errno).

(** The loop of [send(const char*, size_t, bool)]; the second component is
    what has gone out on the wire. *)
Fixpoint send_loop (answers : list send_answer) (buffer : bytes) (totalSent : Z) (wire : bytes)
  : outcome unit * bytes :=
  if Z.of_nat (length buffer) <=? totalSent then (Returned tt, wire)
  else
    match answers with
    | [] => (Waiting, wire)
    | Sent n :: answers =>
        if 0 <? n then
          send_loop answers buffer (totalSent + n)
            (wire ++ take (Z.to_nat n) (drop (Z.to_nat totalSent) buffer))
        else (Threw RuntimeError, wire)
    | SendFailed e :: answers =>
        match e with
        | EPIPE => (Threw RuntimeError, wire)
        | ENOSPC => (Threw RuntimeError, wire)
        | EINTR => send_loop answers buffer totalSent wire
        | EAGAIN => send_loop answers buffer totalSent wire
        | _ => (Threw RuntimeError, wire)
        end
    end.

Definition send (answers : list send_answer) (buffer : bytes) (forceEmptyPacket : bool)
  : outcome unit * bytes :=
  if (Z.of_nat (length buffer) =? 0) && negb forceEmptyPacket then (Returned tt, [])
  else send_loop answers buffer 0 [].

(** [send(const std::string&)] and [send(const std::vector<char>&)]: [at(0)]
    throws on an empty buffer. *)
Definition send_string (answers : list send_answer) (buffer : bytes) : outcome unit * bytes :=
  match buffer with
  | [] => (Threw OutOfRange, [])
  | _ => send answers buffer false
  end.

(** [send(const std::vector<uint16_t>&)]: the element count is used as the
    byte count ([mem] is the vector's memory, two bytes per element). *)
Definition send_vector_uint16 (answers : list send_answer) (count : nat) (mem : bytes)
  : outcome unit * bytes :=
  match count with
  | O => (Threw OutOfRange, [])
  | _ => send answers (take count mem) false
  end.

Definition sendPacket (little_endian : bool) (answers : list send_answer) (buffer : bytes)
  : outcome unit * bytes :=
  send_string answers (TCPPacket.encode little_endian buffer).

(** The kernel never reports more bytes than it was given, and reports at
    least one on success; interruptions may come at any time. *)
Fixpoint kernel_ok (answers : list send_answer) (todo : Z) : Prop :=
  match answers with
  | [] => True
  | Sent n :: answers => 0 < n <= todo /\ kernel_ok answers (todo - n)
  | SendFailed e :: answers => (e = EINTR \/ e = EAGAIN) /\ kernel_ok answers todo
  end.
Definition accepted (answers : list send_answer) : Z :=
  fold_right (fun a s => match a with Sent n => n + s | SendFailed _ => s end) 0 answers.

Lemma accepted_bounds answers : forall todo,
  0 <= todo -> kernel_ok answers todo -> 0 <= accepted answers <= todo.
Proof.
  induction answers as [|[n|e] answers IH]; intros todo Ht; [simpl; lia|..].
  - intros [Hn Hk]. specialize (IH (todo - n) ltac:(lia) Hk).
    change (accepted (Sent n :: answers)) with (n + accepted answers). lia.
  - intros [_ Hk]. by apply IH.
Qed.

(** With a kernel that follows its contract the loop puts on the wire exactly
    the bytes the kernel accepted, and returns once that is the whole buffer. *)
Lemma send_loop_spec answers : forall buffer t wire,
  0 <= t <= Z.of_nat (length buffer) -> kernel_ok answers (Z.of_nat (length buffer) - t) ->
  send_loop answers buffer t wire =
    (if t + accepted answers =? Z.of_nat (length buffer) then Returned tt else Waiting,
     wire ++ take (Z.to_nat (accepted answers)) (drop (Z.to_nat t) buffer)).
Proof.
  induction answers as [|[n|e] answers IH]; intros buffer t wire Ht Hk.
  - cbn. rewrite Z.add_0_r, app_nil_r.
    destruct (Z.leb_spec (Z.of_nat (length buffer)) t), (Z.eqb_spec t (Z.of_nat (length buffer)));
      lia || done.
  - destruct Hk as [Hn Hk]. cbn [send_loop].
    destruct (Z.leb_spec (Z.of_nat (length buffer)) t); [lia|].
    destruct (Z.ltb_spec 0 n); [|lia].
    assert (Ha : 0 <= accepted answers <= Z.of_nat (length buffer) - t - n)
      by (apply accepted_bounds; [lia|done]).
    rewrite IH; [|lia|by replace (Z.of_nat (length buffer) - (t + n))
                        with (Z.of_nat (length buffer) - t - n) by lia].
    change (accepted (Sent n :: answers)) with (n + accepted answers).
    rewrite Z.add_assoc. f_equal. rewrite <- app_assoc. f_equal.
    rewrite !Z2Nat.inj_add by lia. rewrite <- drop_drop, <- take_take_drop. reflexivity.
  - destruct Hk as [He Hk].
    change (accepted (SendFailed e :: answers)) with (accepted answers).
    cbn [send_loop]. destruct (Z.leb_spec (Z.of_nat (length buffer)) t).
    + assert (0 <= accepted answers <= Z.of_nat (length buffer) - t)
        by (apply accepted_bounds; [lia|done]).
      assert (accepted answers = 0) as -> by lia. rewrite app_nil_r.
      destruct (Z.eqb_spec (t + 0) (Z.of_nat (length buffer))); [done|lia].
    + rewrite <- IH by done. by destruct He as [-> | ->].
Qed.

(** A packet goes out completely and unchanged however the kernel splits or
    interrupts the writes: as soon as the kernel has accepted as many bytes as
    the frame holds, [sendPacket] returns and the frame is on the wire. *)
Theorem sendPacket_complete le answers message :
  kernel_ok answers (4 + Z.of_nat (length message)) ->
  accepted answers = 4 + Z.of_nat (length message) ->
  sendPacket le answers message = (Returned tt, TCPPacket.encode le message).
Proof.
  intros Hk Ha. unfold sendPacket.
  assert (Hl : Z.of_nat (length (TCPPacket.encode le message)) = 4 + Z.of_nat (length message))
    by (rewrite TCPPacket.length_encode; lia).
  transitivity (send_loop answers (TCPPacket.encode le message) 0 []); [reflexivity|].
  rewrite send_loop_spec by (rewrite Hl, ?Z.sub_0_r; done || lia).
  rewrite Hl, Ha, Z.add_0_l, Z.eqb_refl, <- Hl, Nat2Z.id, drop_0. by rewrite firstn_all.
Qed.

Lemma sendPacket_complete_witness :
  sendPacket true [Sent 3; SendFailed EINTR; Sent 4] [65; 66; 67]
  = (Returned tt, TCPPacket.encode true [65; 66; 67]).
Proof. apply sendPacket_complete; [cbn; intuition lia|reflexivity]. Defined.

(** [send] of a vector of 16-bit words returns normally after sending the
    first half of the vector's memory only. *)
Theorem send_vector_uint16_half answers count (mem : bytes) :
  (0 < count)%nat -> length mem = (2 * count)%nat ->
  kernel_ok answers (Z.of_nat count) -> accepted answers = Z.of_nat count ->
  send_vector_uint16 answers count mem = (Returned tt, take count mem) /\
  take count mem <> mem.
Proof.
  intros Hc Hm Hk Ha. split.
  - destruct count as [|c]; [lia|]. cbn [send_vector_uint16]. unfold send.
    assert (Hl : length (take (S c) mem) = S c) by (rewrite length_take; lia).
    rewrite Hl. change (Z.of_nat (S c) =? 0) with false. cbn [andb].
    rewrite send_loop_spec by (rewrite Hl, ?Z.sub_0_r; done || lia).
    rewrite Hl, Ha, Z.add_0_l, Z.eqb_refl, drop_0, Nat2Z.id. by rewrite <- Hl at 1; rewrite firstn_all.
  - intros E%(f_equal length). rewrite length_take in E. lia.
Qed.

Lemma send_vector_uint16_half_witness :
  send_vector_uint16 [Sent 2] 2 [1; 0; 2; 0] = (Returned tt, [1; 0]).
Proof. apply (send_vector_uint16_half [Sent 2] 2 [1; 0; 2; 0]); cbn; (lia || done || intuition lia). Defined.

End TCPTransmitterSocket.

Module TCPReceiverSocket.

(** One answer of [::read]: up to [k] bytes are ready, end of file, or an
    error. *)
Inductive read_answer := Chunk (k : nat) | Closed | ReadFailed (e : errno).

(** [receive(buffer, bufferSize)] on the bytes in flight: [Ok None] is the
    return value -1, [Ok (Some d)] stores [d] and returns its length. *)
Definition receive (socketId : Z) (bufferSize : nat) (answer : read_answer) (stream : bytes)
  : result (option bytes) :=
  if socketId =? 0 then Throw OtherExn (* std::logic_error: the object was moved from *)
  else
    match answer with
    | ReadFailed e =>
        match e with
        | EAGAIN | ENOTCONN => Ok None
        | _ => Throw RuntimeError
        end
    | Closed => Throw RuntimeError
    | Chunk k =>
        match take (Nat.min k bufferSize) stream with
        | [] => Throw RuntimeError (* dataRead == 0: connection closed *)
        | d => Ok (Some d)
        end
    end.

(** What a receive loop ends with.  An observation is what one turn of a loop
    sees: whether the timeout has not expired yet, and the kernel's answer. *)
Inductive loop_end :=
| Filled (got stream : bytes) (obs : list (bool * read_answer))
| TimedOut (got stream : bytes) (obs : list (bool * read_answer))
| Failed (e : exn)
| Starved.

(** The three [while] loops of [receivePacket] have this body; only the first
    one tests the clock ([timed]). *)
Fixpoint read_until (socketId : Z) (timed : bool) (need : nat) (got stream : bytes)
  (obs : list (bool * read_answer)) : loop_end :=
  if (need <=? length got)%nat then Filled got stream obs
  else
    match obs with
    | [] => Starved
    | (in_time, answer) :: obs' =>
        if timed && negb in_time then TimedOut got stream obs
        else
          match receive socketId (need - length got) answer stream with
          | Throw e => Failed e
          | Ok None => read_until socketId timed need got stream obs'
          | Ok (Some d) =>
              read_until socketId timed need (got ++ d) (drop (length d) stream) obs'
          end
    end.

(** The size is known: read the message. *)
Definition receive_body (little_endian : bool) (socketId : Z) (header stream : bytes)
  (obs : list (bool * read_answer)) : outcome bytes * bytes :=
  let message_size := ntohl little_endian
    (load32 little_endian (nth 0 header 0) (nth 1 header 0) (nth 2 header 0) (nth 3 header 0)) in
  let message_size := u32 (message_size - 4) in
  match read_until socketId false (Z.to_nat message_size) [] stream obs with
  | Filled got stream _ => (Returned got, stream)
  | TimedOut _ stream _ => (Waiting, stream)
  | Failed e => (Threw e, stream)
  | Starved => (Waiting, stream)
  end.

(** [receivePacket(timeout)]: the returned message and the bytes still in
    flight.  The second clock test can only matter when nothing was received,
    and then the first loop ended because of the clock. *)
Definition receivePacket (little_endian : bool) (socketId : Z) (stream : bytes)
  (obs : list (bool * read_answer)) : outcome bytes * bytes :=
  match read_until socketId true 4 [] stream obs with
  | Failed e => (Threw e, stream)
  | Starved => (Waiting, stream)
  | Filled header stream obs => receive_body little_endian socketId header stream obs
  | TimedOut [] stream obs => (Returned [], stream)
  | TimedOut got stream obs =>
      match read_until socketId false 4 got stream obs with
      | Filled header stream obs => receive_body little_endian socketId header stream obs
      | Failed e => (Threw e, stream)
      | _ => (Waiting, stream)
      end
  end.

(** A healthy connection: data in chunks of at least one byte, possibly
    interleaved with EAGAIN. *)
Definition healthy (o : bool * read_answer) : Prop :=
  match o with
  | (true, Chunk (S _)) => True
  | (true, ReadFailed EAGAIN) => True
  | _ => False
  end.
Definition chunks (obs : list (bool * read_answer)) : nat :=
  length (List.filter (fun o => match snd o with Chunk _ => true | _ => false end) obs).

(** On a healthy connection a loop gets exactly the next bytes it asked for. *)
Lemma read_until_healthy sock timed obs : forall need got todo rest,
  sock <> 0 -> Forall healthy obs -> (length got + length todo = need)%nat ->
  (length todo <= chunks obs)%nat ->
  exists obs', read_until sock timed need got (todo ++ rest) obs = Filled (got ++ todo) rest obs' /\
    Forall healthy obs' /\ (chunks obs <= chunks obs' + length todo)%nat.
Proof.
  induction obs as [|[t a] obs IH]; intros need got todo rest Hsock Hobs Hneed Hlen.
  - exists []. destruct todo; [|cbn in Hlen; lia]. cbn. rewrite app_nil_r.
    destruct (Nat.leb_spec need (length got)); [done|cbn in Hneed; lia].
  - pose proof Hobs as Hobs0. apply Forall_cons in Hobs as [Ho Hobs]. cbn [read_until].
    destruct (Nat.leb_spec need (length got)).
    { destruct todo; [|cbn in Hneed; lia]. rewrite app_nil_r. exists ((t, a) :: obs).
      split; [done|]. split; [done|]. lia. }
    assert ((sock =? 0) = false) as Hs by (by apply Z.eqb_neq).
    destruct t; [|by destruct a]. rewrite andb_false_r.
    destruct a as [[|k]| |e]; try by destruct Ho.
    + unfold receive. rewrite Hs.
      assert (Hn : (0 < length todo)%nat) by lia.
      destruct (take (Nat.min (S k) (need - length got)) (todo ++ rest)) as [|x d] eqn:E.
      { apply (f_equal length) in E. rewrite length_take, length_app in E. cbn [length] in E. lia. }
      rewrite <- E. clear x d E.
      set (j := Nat.min (S k) (need - length got)).
      rewrite take_app_le, length_take, Nat.min_l by lia.
      rewrite drop_app_le by lia.
      destruct (IH need (got ++ take j todo) (drop j todo) rest) as (obs' & E & HF & HC); auto.
      { rewrite length_app, length_take, length_drop. lia. }
      { rewrite length_drop. unfold chunks in *. cbn in Hlen. lia. }
      exists obs'. rewrite E, <- app_assoc, take_drop. split; [done|]. split; [done|].
      rewrite length_drop in HC. unfold chunks in *. cbn. lia.
    + destruct e; try by destruct Ho. unfold receive. rewrite Hs.
      destruct (IH need got todo rest) as (obs' & E & HF & HC); [auto..|]. by exists obs'.
Qed.

(** A framed message at the head of the byte stream is delivered unchanged,
    and exactly its frame is consumed, however the kernel splits it. *)
Theorem receivePacket_delivers sock message rest obs :
  sock <> 0 -> TCPPacket.fits message -> Forall healthy obs ->
  (4 + length message <= chunks obs)%nat ->
  receivePacket true sock (TCPPacket.encode true message ++ rest) obs = (Returned message, rest).
Proof.
  intros Hsock Hfit Hobs Hch. rewrite TCPPacket.encode_bytes. cbv zeta.
  set (v := htonl true _). set (h := [byte_of v 0; byte_of v 1; byte_of v 2; byte_of v 3]).
  rewrite <- app_assoc. unfold receivePacket.
  destruct (read_until_healthy sock true obs 4 [] h (message ++ rest)) as (obs' & -> & HF & HC);
    [done|done|done|cbn; lia|]. cbn [app].
  unfold receive_body.
  pose proof (TCPPacket.load32_encode message [] Hfit) as Hl. cbv zeta in Hl.
  rewrite TCPPacket.encode_bytes in Hl. cbv zeta in Hl. fold v in Hl. cbn [app nth] in Hl.
  cbn [h nth]. rewrite Hl. unfold TCPPacket.fits, TCPPacket.headerLength in Hfit.
  rewrite (wrap_small 32) by (unfold in_range; lia).
  replace (Z.to_nat (4 + Z.of_nat (length message) - 4)) with (length message) by lia.
  destruct (read_until_healthy sock false obs' (length message) [] message rest)
    as (obs'' & -> & _ & _); [done|done|done|cbn in HC; lia|]. done.
Qed.

Lemma receivePacket_delivers_witness :
  receivePacket true 5 (TCPPacket.encode true [65] ++ [1; 2])
    [(true, Chunk 2); (true, ReadFailed EAGAIN); (true, Chunk 9); (true, Chunk 1); (true, Chunk 1); (true, Chunk 1)]
  = (Returned [65], [1; 2]).
Proof.
  apply receivePacket_delivers; [lia|reflexivity|by repeat constructor|cbn; lia].
Defined.

End TCPReceiverSocket.
