(* ===== verification/Buffers.v ===== *)
(** * The DAQ data buffers

    src/otsdaq/DataManager/BufferImplementation.icc and .h: one producer's ring
    of sub-buffers with any number of consumers, and CircularBuffer.icc and .h:
    the map of rings a consumer reads round-robin.

    [std::atomic_bool] arrays are lists of booleans ([true] is [bufferFree_]);
    a null status array is [None].  An access through a null array or past a
    vector's end is undefined in C++ and gives no result ([None]). *)

From S2P Require Import Prelude.

(** Return codes of the enum in BufferImplementation.h. *)
Definition ErrorBufferFull : Z := -1.
Definition ErrorBufferNotAvailable : Z := -3.
Definition bufferFree_ : bool := true.

Inductive ConsumerPriority := LowConsumerPriority | HighConsumerPriority.

Record ConsumerStruct := mkConsumer {
  priority_ : ConsumerPriority;
  readPointer_ : nat;
  status_ : option (list bool); (* subBuffersStatus_ *)
}.

(** The value [consumers_[name]] has when it creates the entry. *)
Definition newConsumer : ConsumerStruct := mkConsumer LowConsumerPriority 0 None.

Module BufferImplementation.
Section BufferImplementation.
Context {D H : Type}.
Variables (d0 : D) (h0 : H). (* D() and H() *)

Record BufferImplementation := mkBuffer {
  numberOfSubBuffers_ : nat;
  consumers_ : gmap string ConsumerStruct;
  writePointer_ : Z;
  subBuffersStatus_ : list bool;
  headers_ : list H;
  subBuffers_ : list D;
}.
Implicit Types (b : BufferImplementation) (consumer : string) (i : nat).

Definition set_consumers b cs :=
  mkBuffer (numberOfSubBuffers_ b) cs (writePointer_ b) (subBuffersStatus_ b) (headers_ b) (subBuffers_ b).
Definition set_status b st :=
  mkBuffer (numberOfSubBuffers_ b) (consumers_ b) (writePointer_ b) st (headers_ b) (subBuffers_ b).
Definition set_writePointer b w :=
  mkBuffer (numberOfSubBuffers_ b) (consumers_ b) w (subBuffersStatus_ b) (headers_ b) (subBuffers_ b).

(** [reset()] *)
Definition resetConsumer (n : nat) (c : ConsumerStruct) : ConsumerStruct :=
  mkConsumer (priority_ c) 0 (Some (replicate n bufferFree_)).
Definition reset b : BufferImplementation :=
  mkBuffer (numberOfSubBuffers_ b) (resetConsumer (numberOfSubBuffers_ b) <$> consumers_ b) (-1)
    (replicate (numberOfSubBuffers_ b) bufferFree_) (headers_ b) (subBuffers_ b).

(** The constructor, and the copy constructor, which copies nothing but the
    size. *)
Definition construct (numberOfSubBuffers : nat) : BufferImplementation :=
  reset (mkBuffer numberOfSubBuffers ∅ (-1) (replicate numberOfSubBuffers bufferFree_)
           (replicate numberOfSubBuffers h0) (replicate numberOfSubBuffers d0)).
Definition copyConstruct (toCopy : BufferImplementation) : BufferImplementation :=
  construct (numberOfSubBuffers_ toCopy).

Definition bufferSize b : nat := numberOfSubBuffers_ b.

Definition isFree b i : option bool := subBuffersStatus_ b !! i.
Definition isFreeFor b i consumer : option bool :=
  c ← consumers_ b !! consumer; st ← status_ c; st !! i.

Definition nextWritePointer b : nat :=
  Z.to_nat ((writePointer_ b + 1) mod Z.of_nat (numberOfSubBuffers_ b)).

(** [consumers_[consumer].readPointer_]: creates the entry when missing. *)
Definition touch b consumer : BufferImplementation :=
  set_consumers b (<[consumer := default newConsumer (consumers_ b !! consumer)]> (consumers_ b)).
Definition getReadPointer b consumer : nat :=
  readPointer_ (default newConsumer (consumers_ b !! consumer)).
Definition nextReadPointer b consumer : nat :=
  (getReadPointer b consumer + 1) mod numberOfSubBuffers_ b.
Definition setReadPointer b consumer (r : nat) : BufferImplementation :=
  let c := default newConsumer (consumers_ b !! consumer) in
  set_consumers b (<[consumer := mkConsumer (priority_ c) r (status_ c)]> (consumers_ b)).

Definition getFreeBufferIndex b : option Z :=
  free ← isFree b (nextWritePointer b);
  Some (if (free : bool) then Z.of_nat (nextWritePointer b) else -1).

(** Writing one element of every consumer's status array, or of one
    consumer's. *)
Definition setStatusAt (i : nat) (v : bool) (c : ConsumerStruct) : option ConsumerStruct :=
  st ← status_ c; Some (mkConsumer (priority_ c) (readPointer_ c) (Some (<[i := v]> st))).

Definition setWritten b i : option BufferImplementation :=
  if bool_decide (map_Forall (fun _ c => is_Some (status_ c)) (consumers_ b)) then
    let cs := (fun c => default c (setStatusAt i (negb bufferFree_) c)) <$> consumers_ b in
    Some (set_status (set_consumers b cs) (<[i := negb bufferFree_]> (subBuffersStatus_ b)))
  else None.

Definition freeAt (i : nat) (c : ConsumerStruct) : bool :=
  match status_ c with Some st => default false (st !! i) | None => false end.

(** [setFree]: the slot becomes free for the producer once every consumer has
    freed it. *)
Definition setFree b i consumer : option BufferImplementation :=
  c ← setStatusAt i bufferFree_ (default newConsumer (consumers_ b !! consumer));
  let b := set_consumers b (<[consumer := c]> (consumers_ b)) in
  if bool_decide (map_Forall (fun _ c => is_Some (status_ c)) (consumers_ b)) then
    if bool_decide (map_Forall (fun _ c => freeAt i c = true) (consumers_ b))
    then Some (set_status b (<[i := bufferFree_]> (subBuffersStatus_ b)))
    else Some b
  else None.

Definition writeSubBuffer b i (buffer : D) (header : H) : BufferImplementation :=
  mkBuffer (numberOfSubBuffers_ b) (consumers_ b) (writePointer_ b) (subBuffersStatus_ b)
    (<[i := header]> (headers_ b)) (<[i := buffer]> (subBuffers_ b)).

(** [attachToEmptySubBuffer]: the index of the slot whose address the caller
    gets, or the error code. *)
Definition attachToEmptySubBuffer b : option Z :=
  subBuffer ← getFreeBufferIndex b;
  Some (if subBuffer =? -1 then ErrorBufferFull else subBuffer).

Definition setWrittenSubBuffer b : option (Z * BufferImplementation) :=
  let b := set_writePointer b (Z.of_nat (nextWritePointer b)) in
  b ← setWritten b (Z.to_nat (writePointer_ b));
  Some (writePointer_ b, b).

Definition write b (buffer : D) (header : H) : option (Z * BufferImplementation) :=
  subBuffer ← getFreeBufferIndex b;
  if subBuffer =? -1 then Some (ErrorBufferFull, b)
  else
    let i := Z.to_nat subBuffer in
    let b := writeSubBuffer b i buffer header in
    let b := set_writePointer b subBuffer in
    b ← setWritten b i;
    Some (writePointer_ b, b).

(** The availability test shared by both forms of [read]; it also creates a
    missing consumer entry ([getReadPointer] uses [operator[]]). *)
Definition notAvailable b consumer : option bool :=
  let i := getReadPointer b consumer in
  free ← isFree b i;
  if (free : bool) then Some true else isFreeFor (touch b consumer) i consumer.

(** [read(D&, H&, consumer)]: the return value and, on success, the data. *)
Definition read b consumer : option (Z * option (D * H) * BufferImplementation) :=
  let i := getReadPointer b consumer in
  na ← notAvailable b consumer;
  let b := touch b consumer in
  if (na : bool) then Some (ErrorBufferNotAvailable, None, b)
  else
    buffer ← subBuffers_ b !! i;
    header ← headers_ b !! i;
    let b := setReadPointer b consumer (nextReadPointer b consumer) in
    b ← setFree b i consumer;
    Some (Z.of_nat i, Some (buffer, header), b).

(** [read(D*&, H*&, consumer)]: hands out the slot, changes nothing else. *)
Definition readPtr b consumer : option (Z * BufferImplementation) :=
  let i := getReadPointer b consumer in
  na ← notAvailable b consumer;
  let b := touch b consumer in
  Some (if (na : bool) then ErrorBufferNotAvailable else Z.of_nat i, b).

Definition setReadSubBuffer b consumer : option (Z * BufferImplementation) :=
  b ← setFree b (getReadPointer b consumer) consumer;
  let b := setReadPointer b consumer (nextReadPointer b consumer) in
  Some (Z.of_nat (getReadPointer b consumer), b).

Definition registerConsumer b consumer (priority : ConsumerPriority) : BufferImplementation :=
  let c := default newConsumer (consumers_ b !! consumer) in
  let c := match status_ c with
           | None => mkConsumer priority 0 (Some (replicate (numberOfSubBuffers_ b) bufferFree_))
           | Some st => mkConsumer priority (readPointer_ c) (Some st)
           end in
  set_consumers b (<[consumer := c]> (consumers_ b)).

Definition isEmpty b : bool :=
  forallb (fun i => default true (isFree b i)) (seq 0 (numberOfSubBuffers_ b)).
Definition numberOfWrittenBuffers b : nat :=
  length (List.filter (fun i => negb (default true (isFree b i))) (seq 0 (numberOfSubBuffers_ b))).

(** ** What the ring promises: one bounded queue per consumer

    [hist] is everything ever written, [rd] how many items each consumer has
    read.  A write is refused exactly when some consumer is a whole ring
    behind; a consumer reads the items in the order they were written. *)

Record queues := mkQueues { hist : list (D * H); rd : gmap string nat }.
Implicit Types q : queues.

Definition lagging (n : nat) q : Prop := map_Exists (fun _ r => length (hist q) = (r + n)%nat) (rd q).

Definition specWrite (n : nat) q (x : D * H) : Z * queues :=
  if bool_decide (lagging n q) then (ErrorBufferFull, q)
  else (Z.of_nat (length (hist q) mod n), mkQueues (hist q ++ [x]) (rd q)).

Definition specRead q (n : nat) consumer : Z * option (D * H) * queues :=
  let r := default 0%nat (rd q !! consumer) in
  match hist q !! r with
  | None => (ErrorBufferNotAvailable, None, q)
  | Some x => (Z.of_nat (r mod n), Some x, mkQueues (hist q) (<[consumer := S r]> (rd q)))
  end.

(** Slot [i] holds an item of the window [r, w). *)
Definition occupied (n r w i : nat) : bool := existsb (fun j => j mod n =? i)%nat (seq r (w - r)).

Record consumer_ok (n w r : nat) (c : ConsumerStruct) : Prop := {
  co_ptr : readPointer_ c = (r mod n)%nat;
  co_window : (r <= w <= r + n)%nat;
  co_status : exists st, status_ c = Some st /\ length st = n /\
    forall i, (i < n)%nat -> st !! i = Some (negb (occupied n r w i));
}.

Record refines (n : nat) b q : Prop := {
  rf_n : (0 < n)%nat;
  rf_size : numberOfSubBuffers_ b = n;
  rf_len : length (subBuffersStatus_ b) = n /\ length (headers_ b) = n /\ length (subBuffers_ b) = n;
  rf_next : nextWritePointer b = (length (hist q) mod n)%nat;
  rf_dom : dom (consumers_ b) = dom (rd q);
  rf_some : rd q <> ∅;
  rf_consumer : forall c cs r, consumers_ b !! c = Some cs -> rd q !! c = Some r ->
    consumer_ok n (length (hist q)) r cs;
  rf_flag : forall i, (i < n)%nat ->
    (subBuffersStatus_ b !! i = Some true <->
     forall c r, rd q !! c = Some r -> occupied n r (length (hist q)) i = false);
  rf_data : forall c r j x, rd q !! c = Some r -> (r <= j)%nat -> hist q !! j = Some x ->
    subBuffers_ b !! (j mod n)%nat = Some x.1 /\ headers_ b !! (j mod n)%nat = Some x.2;
}.

Lemma mod_window (n k m : nat) :
  (0 < n)%nat -> (k <= m < k + n)%nat -> (k mod n = m mod n)%nat -> k = m.
Proof.
  intros Hn Hw E. pose proof (Nat.div_mod_eq k n) as Hk. pose proof (Nat.div_mod_eq m n) as Hm.
  rewrite E in Hk. assert (m / n = k / n)%nat by nia. lia.
Qed.

Lemma occupied_spec n r w i :
  occupied n r w i = true <-> exists j, (r <= j < w)%nat /\ (j mod n = i)%nat.
Proof.
  unfold occupied. rewrite existsb_exists. split.
  - intros (j & Hj%in_seq & E%Nat.eqb_eq). exists j. split; [lia|done].
  - intros (j & Hj & E). exists j. split; [apply in_seq; lia|by apply Nat.eqb_eq].
Qed.

Lemma occupied_false n r w i :
  occupied n r w i = false <-> forall j, (r <= j < w)%nat -> (j mod n <> i)%nat.
Proof.
  rewrite <- not_true_iff_false, occupied_spec. split.
  - intros Hn j Hj E. apply Hn. by exists j.
  - intros Hn (j & Hj & E). by apply (Hn j).
Qed.

(** The slot about to be written is taken exactly by a consumer that is a
    whole ring behind. *)
Lemma occupied_next n r w :
  (0 < n)%nat -> (r <= w <= r + n)%nat -> occupied n r w (w mod n)%nat = (w =? r + n)%nat.
Proof.
  intros Hn Hw. destruct (Nat.eqb_spec w (r + n)) as [->|Hne].
  - apply occupied_spec. exists r. split; [lia|]. rewrite <- (Nat.mul_1_l n) at 2. by rewrite Nat.Div0.mod_add.
  - apply occupied_false. intros j Hj E. apply (mod_window n j w) in E; lia.
Qed.

Lemma occupied_write n r w i :
  (r <= w)%nat -> occupied n r (S w) i = (w mod n =? i)%nat || occupied n r w i.
Proof.
  intros Hw. apply eq_true_iff_eq. rewrite orb_true_iff, !occupied_spec, Nat.eqb_eq. split.
  - intros (j & Hj & E). destruct (decide (j = w)) as [->|]; [by left|].
    right. exists j. split; [lia|done].
  - intros [E|(j & Hj & E)]; [exists w|exists j]; (split; [lia|done]).
Qed.

Lemma occupied_read n r w i :
  (0 < n)%nat -> (r < w <= r + n)%nat ->
  occupied n (S r) w i = occupied n r w i && negb (r mod n =? i)%nat.
Proof.
  intros Hn Hw. apply eq_true_iff_eq. rewrite andb_true_iff, negb_true_iff, !occupied_spec, Nat.eqb_neq.
  split.
  - intros (j & Hj & E). split; [exists j; split; [lia|done]|].
    intros E'. assert (r = j); [|lia]. apply (mod_window n); [done|lia|congruence].
  - intros [(j & Hj & E) Hne]. exists j. split; [|done].
    destruct (decide (j = r)) as [->|]; [done|lia].
Qed.

Lemma refines_all_status n b q :
  refines n b q -> map_Forall (fun _ c => is_Some (status_ c)) (consumers_ b).
Proof.
  intros R c cs Hc. assert (is_Some (rd q !! c)) as [r Hr].
  { apply elem_of_dom. rewrite <- (rf_dom _ _ _ R). apply elem_of_dom. eauto. }
  destruct (co_status _ _ _ _ (rf_consumer _ _ _ R _ _ _ Hc Hr)) as (st & -> & _). eauto.
Qed.

Lemma refines_lookup n b q c r :
  refines n b q -> rd q !! c = Some r ->
  exists cs, consumers_ b !! c = Some cs /\ consumer_ok n (length (hist q)) r cs.
Proof.
  intros R Hr. assert (is_Some (consumers_ b !! c)) as [cs Hc].
  { apply elem_of_dom. rewrite (rf_dom _ _ _ R). apply elem_of_dom. eauto. }
  exists cs. split; [done|]. by eapply (rf_consumer _ _ _ R).
Qed.

Lemma refines_window n b q c r :
  refines n b q -> rd q !! c = Some r -> (r <= length (hist q) <= r + n)%nat.
Proof. intros R Hr. destruct (refines_lookup _ _ _ _ _ R Hr) as (cs & _ & Hc). apply Hc. Qed.

Lemma refines_free n b q :
  refines n b q ->
  isFree b (length (hist q) mod n) = Some (negb (bool_decide (lagging n q))).
Proof.
  intros R. pose proof R as [Hn Hsz (Hl & _ & _) Hnext Hdom Hsome Hcon Hflag _].
  assert (Hi : (length (hist q) mod n < n)%nat) by (apply Nat.mod_upper_bound; lia).
  unfold isFree. destruct (lookup_lt_is_Some_2 (subBuffersStatus_ b) (length (hist q) mod n))
    as [f Hf]; [lia|]. rewrite Hf. f_equal.
  specialize (Hflag _ Hi). rewrite Hf in Hflag.
  assert (Hwin : forall c r, rd q !! c = Some r ->
    occupied n r (length (hist q)) (length (hist q) mod n) = (length (hist q) =? r + n)%nat).
  { intros c r Hr. apply occupied_next; [done|]. by eapply refines_window. }
  case_bool_decide as Hlag; cbn [negb].
  - destruct Hlag as (c & r & Hr & E). destruct f; [|done]. exfalso.
    destruct Hflag as [Hflag _]. specialize (Hflag eq_refl c r Hr).
    rewrite (Hwin c r Hr), E, Nat.eqb_refl in Hflag. done.
  - destruct f; [done|]. destruct Hflag as [_ Hflag]. exfalso.
    assert (Some false = Some true); [|done]. apply Hflag. intros c r Hr. rewrite (Hwin c r Hr).
    apply Nat.eqb_neq. intros E. apply Hlag. exists c, r. done.
Qed.

(** The state after a successful write of [x] into slot [i]. *)
Definition written b i (x : D * H) : BufferImplementation :=
  mkBuffer (numberOfSubBuffers_ b)
    ((fun c => default c (setStatusAt i (negb bufferFree_) c)) <$> consumers_ b)
    (Z.of_nat i) (<[i := negb bufferFree_]> (subBuffersStatus_ b))
    (<[i := x.2]> (headers_ b)) (<[i := x.1]> (subBuffers_ b)).

Lemma written_refines n b q x :
  refines n b q -> ~ lagging n q ->
  refines n (written b (length (hist q) mod n) x) (mkQueues (hist q ++ [x]) (rd q)).
Proof.
  intros R Hlag. pose proof R as [Hn Hsz (Hl1 & Hl2 & Hl3) Hnext Hdom Hsome Hcon Hflag Hdata].
  set (w := length (hist q)) in *. set (i := (w mod n)%nat) in *.
  assert (Hi : (i < n)%nat) by (apply Nat.mod_upper_bound; lia).
  assert (Hw : length (hist q ++ [x]) = S w) by (rewrite length_app; cbn; lia).
  constructor; cbn [hist rd written numberOfSubBuffers_ consumers_ writePointer_ subBuffersStatus_ headers_ subBuffers_];
    rewrite ?Hw; try done.
  - by rewrite !length_insert.
  - unfold nextWritePointer. cbn [writePointer_ numberOfSubBuffers_ written]. rewrite Hsz.
    replace (Z.of_nat i + 1) with (Z.of_nat (i + 1)) by lia.
    rewrite <- Nat2Z.inj_mod, Nat2Z.id. unfold i. rewrite Nat.Div0.add_mod_idemp_l. f_equal. lia.
  - by rewrite dom_fmap_L.
  - intros c cs r Hc Hr. rewrite lookup_fmap in Hc.
    destruct (consumers_ b !! c) as [cs0|] eqn:E0; [|done]. injection Hc as <-.
    destruct (Hcon _ _ _ E0 Hr) as [Hp Hwin (st & Hst & Hlen & Hbits)].
    assert (w <> r + n)%nat.
    { intros E. apply Hlag. exists c, r. done. }
    unfold setStatusAt. rewrite Hst. constructor; cbn; [done|lia|].
    exists (<[i := false]> st). split; [done|]. split; [by rewrite length_insert|].
    intros k Hk. rewrite occupied_write by lia. destruct (decide (k = i)) as [->|Hki].
    + rewrite list_lookup_insert_eq by lia. unfold i. by rewrite Nat.eqb_refl.
    + rewrite list_lookup_insert_ne, Hbits by done. unfold i in Hki.
      destruct (Nat.eqb_spec (w mod n) k); [congruence|done].
  - intros k Hk. destruct (decide (k = i)) as [->|Hki].
    + rewrite list_lookup_insert_eq by lia. split; [done|]. intros Hall.
      destruct (map_choose (rd q)) as (c & r & Hr); [done|]. specialize (Hall c r Hr).
      pose proof (refines_window _ _ _ _ _ R Hr). rewrite occupied_write in Hall by (unfold w; lia).
      unfold i in Hall. by rewrite Nat.eqb_refl in Hall.
    + rewrite list_lookup_insert_ne, Hflag by done.
      split; intros Hall c r Hr; specialize (Hall c r Hr).
      all: pose proof (refines_window _ _ _ _ _ R Hr); rewrite occupied_write in * by (unfold w; lia).
      all: destruct (Nat.eqb_spec (w mod n) k); [unfold i in Hki; congruence|done].
  - intros c r j y Hr Hj Hy. apply lookup_snoc_Some in Hy as [[Hjw Hy]|[-> ->]].
    + pose proof (refines_window _ _ _ _ _ R Hr).
      assert (w <> r + n)%nat by (intros E; apply Hlag; exists c, r; done).
      assert (j mod n <> i)%nat.
      { intros E. apply (mod_window n j w) in E; [|done|]; unfold w in *; lia. }
      rewrite !list_lookup_insert_ne by done. by eapply Hdata.
    + fold w. fold i. by rewrite !list_lookup_insert_eq by lia.
Qed.

(** A write refines [specWrite]: same answer, and the ring again represents
    the queues. *)
Lemma write_refines n b q x :
  refines n b q ->
  exists b', write b x.1 x.2 = Some ((specWrite n q x).1, b') /\ refines n b' (specWrite n q x).2.
Proof.
  intros R. unfold write, getFreeBufferIndex, specWrite.
  rewrite (rf_next _ _ _ R), (refines_free _ _ _ R). cbn [mbind option_bind].
  case_bool_decide as Hlag; cbn [negb].
  - exists b. by rewrite Z.eqb_refl.
  - destruct (Z.eqb_spec (Z.of_nat (length (hist q) mod n)) (-1)); [lia|]. rewrite Nat2Z.id.
    unfold setWritten. cbn [consumers_ set_writePointer writeSubBuffer].
    case_bool_decide as Hall; [|by destruct Hall; apply (refines_all_status n b q R)].
    eexists. split; [reflexivity|]. exact (written_refines n b q x R Hlag).
Qed.

(** The state after [consumer], at position [r], has read one item. *)
Definition consumed b n r consumer (cs : ConsumerStruct) (st : list bool) : gmap string ConsumerStruct :=
  <[consumer := mkConsumer (priority_ cs) (S r mod n) (Some (<[(r mod n)%nat := true]> st))]> (consumers_ b).

Lemma consumed_ok n b q consumer cs r st c' cs' r' :
  refines n b q -> consumers_ b !! consumer = Some cs -> rd q !! consumer = Some r ->
  status_ cs = Some st -> (r < length (hist q))%nat ->
  consumed b n r consumer cs st !! c' = Some cs' -> <[consumer := S r]> (rd q) !! c' = Some r' ->
  consumer_ok n (length (hist q)) r' cs'.
Proof.
  intros R Hc Hr Hst Hlt. unfold consumed. pose proof (rf_n _ _ _ R) as Hn.
  destruct (decide (c' = consumer)) as [->|Hne].
  2:{ rewrite !lookup_insert_ne by done. apply (rf_consumer _ _ _ R). }
  rewrite !lookup_insert_eq. intros [= <-] [= <-].
  destruct (rf_consumer _ _ _ R _ _ _ Hc Hr) as [Hp Hwin (st' & Hst' & Hlen & Hbits)].
  assert (st' = st) as -> by congruence.
  constructor; cbn [readPointer_ status_]; [done|lia|].
  eexists; split; [done|]. split; [by rewrite length_insert|].
  intros i Hi. rewrite occupied_read by lia. destruct (Nat.eqb_spec (r mod n) i) as [<-|Hne].
  - rewrite list_lookup_insert_eq by lia. by rewrite andb_false_r.
  - rewrite list_lookup_insert_ne, Hbits by done. by rewrite andb_true_r.
Qed.

Lemma consumed_freeAt n b q consumer cs r st :
  refines n b q -> consumers_ b !! consumer = Some cs -> rd q !! consumer = Some r ->
  status_ cs = Some st -> (r < length (hist q))%nat ->
  map_Forall (fun _ c => freeAt (r mod n) c = true) (consumed b n r consumer cs st) <->
  (forall c' r', <[consumer := S r]> (rd q) !! c' = Some r' ->
     occupied n r' (length (hist q)) (r mod n) = false).
Proof.
  intros R Hc Hr Hst Hlt.
  assert (Hi : (r mod n < n)%nat) by (apply Nat.mod_upper_bound; pose proof (rf_n _ _ _ R); lia).
  assert (Hdom : dom (consumed b n r consumer cs st) = dom (<[consumer := S r]> (rd q))).
  { unfold consumed. by rewrite !dom_insert_L, (rf_dom _ _ _ R). }
  assert (Hfree : forall c' cs' r', consumed b n r consumer cs st !! c' = Some cs' ->
    <[consumer := S r]> (rd q) !! c' = Some r' ->
    freeAt (r mod n) cs' = negb (occupied n r' (length (hist q)) (r mod n))).
  { intros c' cs' r' H1 H2. destruct (consumed_ok _ _ _ _ _ _ _ _ _ _ R Hc Hr Hst Hlt H1 H2)
      as [_ _ (st' & E & _ & Hb)]. unfold freeAt. by rewrite E, Hb. }
  split.
  - intros Hall c' r' Hr'. assert (is_Some (consumed b n r consumer cs st !! c')) as [cs' Hc'].
    { apply elem_of_dom. rewrite Hdom. apply elem_of_dom. eauto. }
    specialize (Hall _ _ Hc'). cbn beta in Hall. rewrite (Hfree _ _ _ Hc' Hr') in Hall. by apply negb_true_iff.
  - intros Hall c' cs' Hc'. assert (is_Some (<[consumer := S r]> (rd q) !! c')) as [r' Hr'].
    { apply elem_of_dom. rewrite <- Hdom. apply elem_of_dom. eauto. }
    cbn beta. by rewrite (Hfree _ _ _ Hc' Hr'), (Hall _ _ Hr').
Qed.

(** Freeing a slot leaves the ring representing the queues: [flags] is the
    producer's status array after [setFree]. *)
Lemma consumed_refines n b q consumer cs r st flags :
  refines n b q -> consumers_ b !! consumer = Some cs -> rd q !! consumer = Some r ->
  status_ cs = Some st -> (r < length (hist q))%nat ->
  flags = (if bool_decide (map_Forall (fun _ c => freeAt (r mod n) c = true) (consumed b n r consumer cs st))
           then <[(r mod n)%nat := true]> (subBuffersStatus_ b) else subBuffersStatus_ b) ->
  refines n (set_status (set_consumers b (consumed b n r consumer cs st)) flags)
    (mkQueues (hist q) (<[consumer := S r]> (rd q))).
Proof.
  intros R Hc Hr Hst Hlt ->.
  pose proof (consumed_freeAt _ _ _ _ _ _ _ R Hc Hr Hst Hlt) as Hfree.
  pose proof R as [Hn Hsz (Hl1 & Hl2 & Hl3) Hnext Hdom Hsome Hcon Hflag Hdata].
  pose proof (refines_window _ _ _ _ _ R Hr) as Hwin.
  assert (Hi : (r mod n < n)%nat) by (apply Nat.mod_upper_bound; lia).
  constructor; cbn [hist rd set_status set_consumers numberOfSubBuffers_ consumers_ writePointer_
    subBuffersStatus_ headers_ subBuffers_]; try done.
  - by destruct (bool_decide _); rewrite ?length_insert.
  - unfold consumed. by rewrite !dom_insert_L, Hdom.
  - apply insert_non_empty.
  - intros c' cs' r'. by apply (consumed_ok _ _ _ _ _ _ _ _ _ _ R Hc Hr Hst Hlt).
  - intros i Hilt. destruct (decide (i = (r mod n)%nat)) as [->|Hne].
    + rewrite <- Hfree. case_bool_decide as Hb.
      * rewrite list_lookup_insert_eq by lia. done.
      * split; [|done]. rewrite Hflag by done. intros Hall. exfalso.
        specialize (Hall _ _ Hr). rewrite occupied_false in Hall. apply (Hall r); [lia|done].
    + transitivity (subBuffersStatus_ b !! i = Some true).
      { destruct (bool_decide _); [|done]. by rewrite list_lookup_insert_ne. }
      rewrite Hflag by done.
      assert (Hocc : occupied n (S r) (length (hist q)) i = occupied n r (length (hist q)) i).
      { rewrite occupied_read by lia. destruct (Nat.eqb_spec (r mod n) i); [congruence|].
        by rewrite andb_true_r. }
      split; intros Hall c' r' Hr'.
      * destruct (decide (c' = consumer)) as [->|Hc'].
        -- rewrite lookup_insert_eq in Hr'. injection Hr' as <-. rewrite Hocc. by eapply Hall.
        -- rewrite lookup_insert_ne in Hr' by done. by eapply Hall.
      * destruct (decide (c' = consumer)) as [->|Hc'].
        -- assert (r' = r) as -> by congruence. rewrite <- Hocc. apply (Hall consumer).
           by rewrite lookup_insert_eq.
        -- apply (Hall c'). by rewrite lookup_insert_ne.
  - intros c' r' j x Hr' Hj Hx. destruct (decide (c' = consumer)) as [->|Hc'].
    + rewrite lookup_insert_eq in Hr'. injection Hr' as <-. eapply (Hdata consumer r); [done|lia|done].
    + rewrite lookup_insert_ne in Hr' by done. by eapply Hdata.
Qed.

(** What [notAvailable] answers for a registered consumer. *)
Lemma refines_notAvailable n b q consumer r :
  refines n b q -> rd q !! consumer = Some r ->
  getReadPointer b consumer = (r mod n)%nat /\ touch b consumer = b /\
  notAvailable b consumer = Some (length (hist q) =? r)%nat.
Proof.
  intros R Hr. destruct (refines_lookup _ _ _ _ _ R Hr) as (cs & Hc & [Hp Hwin (st & Hst & Hlen & Hbits)]).
  assert (Hn := rf_n _ _ _ R).
  assert (Hi : (r mod n < n)%nat) by (apply Nat.mod_upper_bound; lia).
  assert (Hrp : getReadPointer b consumer = (r mod n)%nat).
  { unfold getReadPointer. by rewrite Hc. }
  assert (Ht : touch b consumer = b).
  { unfold touch, set_consumers. rewrite Hc. cbn [default from_option id]. rewrite insert_id by done.
    by destruct b. }
  split; [done|]. split; [done|]. unfold notAvailable. rewrite Hrp, Ht.
  unfold isFreeFor. rewrite Hc. cbn [mbind option_bind]. rewrite Hst. cbn [mbind option_bind].
  rewrite Hbits by done. unfold isFree.
  destruct (lookup_lt_is_Some_2 (subBuffersStatus_ b) (r mod n)) as [f Hf].
  { pose proof (rf_len _ _ _ R). lia. }
  pose proof (rf_flag _ _ _ R _ Hi) as Hflag. rewrite Hf in *. cbn [mbind option_bind].
  destruct (Nat.eqb_spec (length (hist q)) r) as [E|E].
  - assert (occupied n r (length (hist q)) (r mod n) = false) as ->.
    { apply occupied_false. lia. }
    by destruct f.
  - assert (Hocc : occupied n r (length (hist q)) (r mod n) = true).
    { apply occupied_spec. exists r. split; [lia|done]. }
    rewrite Hocc. destruct f; [|done]. destruct Hflag as [Hflag _].
    specialize (Hflag eq_refl _ _ Hr). congruence.
Qed.

(** Both ways of releasing a slot lead to the same state. *)
Lemma setFree_registered b i consumer cs st :
  consumers_ b !! consumer = Some cs -> status_ cs = Some st ->
  map_Forall (fun _ c => is_Some (status_ c)) (consumers_ b) ->
  let m := <[consumer := mkConsumer (priority_ cs) (readPointer_ cs) (Some (<[i := true]> st))]> (consumers_ b) in
  setFree b i consumer =
    Some (set_status (set_consumers b m)
      (if bool_decide (map_Forall (fun _ c => freeAt i c = true) m)
       then <[i := true]> (subBuffersStatus_ b) else subBuffersStatus_ b)).
Proof.
  intros Hc Hst Hall m. unfold setFree. rewrite Hc. change (default newConsumer (Some cs)) with cs. unfold setStatusAt.
  rewrite Hst. cbn [mbind option_bind]. cbv zeta.
  cbn [consumers_ set_consumers subBuffersStatus_]. unfold bufferFree_. fold m.
  case_bool_decide as Hs.
  - by case_bool_decide.
  - destruct Hs. unfold m. apply map_Forall_insert_2; [eauto|done].
Qed.

Lemma setReadPointer_registered b consumer cs r :
  consumers_ b !! consumer = Some cs ->
  setReadPointer b consumer r =
    set_consumers b (<[consumer := mkConsumer (priority_ cs) r (status_ cs)]> (consumers_ b)).
Proof. intros Hc. unfold setReadPointer. by rewrite Hc. Qed.

(** Whether a slot is free for everyone does not depend on a read pointer. *)
Lemma freeAt_pointer i (m : gmap string ConsumerStruct) k p r r' o :
  map_Forall (fun _ c => freeAt i c = true) (<[k := mkConsumer p r o]> m) <->
  map_Forall (fun _ c => freeAt i c = true) (<[k := mkConsumer p r' o]> m).
Proof.
  split; intros Hall k' c Hk'; destruct (decide (k' = k)) as [->|Hne];
    rewrite ?lookup_insert_eq, ?lookup_insert_ne in Hk' by done; try (injection Hk' as <-).
  all: try (apply (Hall k'); by rewrite lookup_insert_ne).
  all: apply (map_Forall_insert_1_1 _ _ _ _ Hall).
Qed.

(** A read refines [specRead]. *)
Lemma read_refines n b q consumer :
  refines n b q -> is_Some (rd q !! consumer) ->
  exists b', read b consumer = Some ((specRead q n consumer).1, b') /\ refines n b' (specRead q n consumer).2.
Proof.
  intros R [r Hr]. destruct (refines_notAvailable _ _ _ _ _ R Hr) as (Hrp & Ht & Hna).
  destruct (refines_lookup _ _ _ _ _ R Hr) as (cs & Hc & Hok). pose proof Hok as [Hp Hwin (st & Hst & Hlen & Hbits)].
  unfold read, specRead. rewrite Hna, Hr, Hrp, Ht. cbn [mbind option_bind default from_option id].
  destruct (Nat.eqb_spec (length (hist q)) r) as [E|E].
  { rewrite lookup_ge_None_2 by lia. by exists b. }
  destruct (lookup_lt_is_Some_2 (hist q) r) as [x Hx]; [lia|]. rewrite Hx.
  destruct (rf_data _ _ _ R _ _ _ _ Hr (le_n r) Hx) as [-> ->]. cbn [mbind option_bind].
  rewrite (setReadPointer_registered _ _ cs) by done.
  set (cs1 := mkConsumer (priority_ cs) (nextReadPointer b consumer) (status_ cs)).
  rewrite (setFree_registered _ _ _ cs1 st).
  - cbn [mbind option_bind]. destruct x as [xd xh]. eexists. split; [reflexivity|].
    cbn [consumers_ set_consumers subBuffersStatus_ priority_ readPointer_ cs1].
    rewrite !insert_insert_eq.
    assert (nextReadPointer b consumer = (S r mod n)%nat) as ->.
    { unfold nextReadPointer. rewrite Hrp, (rf_size _ _ _ R), Nat.Div0.add_mod_idemp_l. f_equal. lia. }
    refine (consumed_refines _ _ _ _ _ _ _ _ R Hc Hr Hst _ eq_refl). lia.
  - cbn. by rewrite lookup_insert_eq.
  - done.
  - apply map_Forall_insert_2; [cbn; rewrite Hst; eauto|]. by apply (refines_all_status n b q).
Qed.

(** ** Runs *)

Inductive op := Write (x : D * H) | Read (consumer : string).
Inductive answer := Wrote (rc : Z) | Got (rc : Z) (x : option (D * H)).

Definition step b (o : op) : option (answer * BufferImplementation) :=
  match o with
  | Write x => '(rc, b) ← write b x.1 x.2; Some (Wrote rc, b)
  | Read c => '(rc, x, b) ← read b c; Some (Got rc x, b)
  end.
Fixpoint run b (os : list op) : option (list answer * BufferImplementation) :=
  match os with
  | [] => Some ([], b)
  | o :: os => '(a, b) ← step b o; '(l, b) ← run b os; Some (a :: l, b)
  end.

Definition specStep (n : nat) q (o : op) : answer * queues :=
  match o with
  | Write x => let '(rc, q) := specWrite n q x in (Wrote rc, q)
  | Read c => let '(rc, x, q) := specRead q n c in (Got rc x, q)
  end.
Fixpoint specRun (n : nat) q (os : list op) : list answer * queues :=
  match os with
  | [] => ([], q)
  | o :: os => let '(a, q) := specStep n q o in let '(l, q) := specRun n q os in (a :: l, q)
  end.

(** Every reader of the run is one of the consumers [cs]. *)
Definition readers_in (cs : gset string) (os : list op) : Prop :=
  Forall (fun o => match o with Read c => c ∈ cs | Write _ => True end) os.

Lemma specStep_dom n q o :
  readers_in (dom (rd q)) [o] -> dom (rd (specStep n q o).2) = dom (rd q).
Proof.
  intros Ho. inversion Ho as [|? ? Hc _]; subst. destruct o as [x|c]; cbn [specStep].
  - unfold specWrite. by destruct (bool_decide _).
  - unfold specRead. destruct (hist q !! _); [|done]. cbn. set_solver.
Qed.

Lemma step_refines n b q o :
  refines n b q -> readers_in (dom (rd q)) [o] ->
  exists b', step b o = Some ((specStep n q o).1, b') /\ refines n b' (specStep n q o).2.
Proof.
  intros R Ho. inversion Ho as [|? ? Hc _]; subst. destruct o as [x|c]; cbn [step specStep].
  - destruct (write_refines n b q x R) as (b' & -> & R'). cbn [mbind option_bind].
    destruct (specWrite n q x) as [rc q']. eauto.
  - apply elem_of_dom in Hc. destruct (read_refines n b q c R Hc) as (b' & -> & R').
    cbn [mbind option_bind]. destruct (specRead q n c) as [[rc y] q']. eauto.
Qed.

Lemma run_refines n os : forall b q,
  refines n b q -> readers_in (dom (rd q)) os ->
  exists b', run b os = Some ((specRun n q os).1, b') /\ refines n b' (specRun n q os).2.
Proof.
  induction os as [|o os IH]; intros b q R Hos; [by exists b|].
  inversion Hos as [|? ? Ho Hos']; subst.
  destruct (step_refines n b q o R) as (b1 & E1 & R1); [by constructor|].
  cbn [run specRun]. rewrite E1. cbn [mbind option_bind].
  assert (Hd := specStep_dom n q o ltac:(by constructor)).
  destruct (specStep n q o) as [a q1]. cbn [fst snd] in *.
  destruct (IH b1 q1 R1) as (b2 & E2 & R2); [by rewrite Hd|].
  rewrite E2. cbn [mbind option_bind]. destruct (specRun n q1 os) as [l q2]. eauto.
Qed.

(** A fresh ring of [n] slots with [names] registered as consumers, with the
    priority [CircularBufferBase::registerConsumer] gives every consumer. *)
Definition registered (n : nat) (names : list string) : BufferImplementation :=
  fold_left (fun b c => registerConsumer b c HighConsumerPriority) names (construct n).
Definition startQueues (names : list string) : queues := mkQueues [] (list_to_map ((fun c => (c, 0%nat)) <$> names)).

Lemma registered_shape n names :
  registered n names =
    mkBuffer n (list_to_map ((fun c => (c, mkConsumer HighConsumerPriority 0 (Some (replicate n true)))) <$> names))
      (-1) (replicate n true) (replicate n h0) (replicate n d0).
Proof.
  unfold registered. rewrite <- (rev_involutive names).
  induction (rev names) as [|c l IH]; [done|]. cbn [rev]. rewrite fold_left_app, IH.
  cbn [fold_left]. unfold registerConsumer, set_consumers.
  cbn [consumers_ numberOfSubBuffers_ writePointer_ subBuffersStatus_ headers_ subBuffers_].
  f_equal. apply map_eq. intros k. destruct (decide (k = c)) as [->|Hk].
  - rewrite lookup_insert_eq.
    assert (H1 : forall l' x, c ∈ l' -> (list_to_map ((fun c => (c, x)) <$> l') : gmap string ConsumerStruct) !! c = Some x).
    { intros l' x. induction l' as [|y l' IHl]; [by rewrite elem_of_nil|]. cbn.
      intros [->|Hin]%elem_of_cons; [by rewrite lookup_insert_eq|].
      destruct (decide (y = c)) as [->|]; [by rewrite lookup_insert_eq|]. rewrite lookup_insert_ne; auto. }
    rewrite (H1 (rev l ++ [c])) by set_solver.
    destruct (decide (c ∈ rev l)) as [Hin|Hin]; [by rewrite H1|].
    rewrite not_elem_of_list_to_map_1; [done|]. rewrite <- list_fmap_compose. set_solver.
  - rewrite lookup_insert_ne by done. clear IH. induction (rev l) as [|y l' IHl]; cbn.
    + by rewrite lookup_insert_ne.
    + destruct (decide (y = k)) as [->|]; [by rewrite !lookup_insert_eq|rewrite !lookup_insert_ne by done; exact IHl].
Qed.

Lemma registered_refines n names :
  (0 < n)%nat -> names <> [] -> refines n (registered n names) (startQueues names).
Proof.
  intros Hn Hne. rewrite registered_shape.
  assert (Hrd : forall c r, rd (startQueues names) !! c = Some r -> r = 0%nat).
  { intros c r Hr%elem_of_list_to_map_2. apply list_elem_of_fmap in Hr as (? & [= _ ->] & _). done. }
  assert (Hocc : forall i, occupied n 0 0 i = false) by done.
  constructor; cbn [startQueues hist rd numberOfSubBuffers_ consumers_ writePointer_ subBuffersStatus_ headers_ subBuffers_ length]; try done.
  - by rewrite !length_replicate.
  - unfold nextWritePointer. cbn. by rewrite Nat.Div0.mod_0_l.
  - rewrite !dom_list_to_map_L, <- !list_fmap_compose. done.
  - destruct names as [|c names]; [done|]. cbn. apply insert_non_empty.
  - intros c cs r Hc Hr. apply Hrd in Hr as ->.
    apply elem_of_list_to_map_2, list_elem_of_fmap in Hc as (? & [= _ ->] & _).
    constructor; cbn; [by rewrite Nat.Div0.mod_0_l|lia|].
    exists (replicate n true). rewrite length_replicate. split; [done|]. split; [done|].
    intros i Hi. by rewrite lookup_replicate_2.
  - intros i Hi. rewrite lookup_replicate_2 by done. split; [|done].
    intros _ c r ->%Hrd. done.
Qed.

Lemma startQueues_dom names : dom (rd (startQueues names)) = list_to_set names.
Proof. cbn. rewrite dom_list_to_map_L, <- list_fmap_compose. by rewrite list_fmap_id. Qed.

(** ** What a run delivers *)

(** The items of a run whose write was accepted, and those a consumer got. *)
Definition accepted (os : list op) (l : list answer) : list (D * H) :=
  omap (fun p => match p with
                 | (Write x, Wrote rc) => if rc <? 0 then None else Some x
                 | _ => None
                 end) (zip os l).
Definition received (consumer : string) (os : list op) (l : list answer) : list (D * H) :=
  omap (fun p => match p with
                 | (Read c, Got _ x) => if String.eqb c consumer then x else None
                 | _ => None
                 end) (zip os l).

Definition spec_pos q consumer : nat := default 0%nat (rd q !! consumer).

Lemma specRun_history n os : forall q,
  hist (specRun n q os).2 = hist q ++ accepted os (specRun n q os).1.
Proof.
  induction os as [|o os IH]; intros q; [by rewrite app_nil_r|]. cbn [specRun].
  destruct (specStep n q o) as [a q1] eqn:E. specialize (IH q1).
  destruct (specRun n q1 os) as [l q2]. cbn [fst snd] in *. rewrite IH.
  unfold accepted. cbn [zip zip_with]. cbn [omap list_omap]. destruct o as [x|c]; cbn [specStep] in E.
  - unfold specWrite in E. destruct (bool_decide _); injection E as <- <-; [done|].
    destruct (Z.ltb_spec (Z.of_nat (length (hist q) mod n)) 0); [lia|]. cbn [hist]. by rewrite <- app_assoc.
  - unfold specRead in E. destruct (hist q !! _); injection E as <- <-; done.
Qed.

Lemma specRun_received n consumer os : forall q, (spec_pos q consumer <= length (hist q))%nat ->
  take (spec_pos q consumer) (hist q) ++ received consumer os (specRun n q os).1
  = take (spec_pos (specRun n q os).2 consumer) (hist (specRun n q os).2).
Proof.
  induction os as [|o os IH]; intros q Hq; [by rewrite app_nil_r|]. cbn [specRun].
  destruct (specStep n q o) as [a q1] eqn:E.
  assert (Hstep : (spec_pos q1 consumer <= length (hist q1))%nat /\
    take (spec_pos q consumer) (hist q) ++ received consumer [o] [a] = take (spec_pos q1 consumer) (hist q1)).
  { unfold spec_pos in *. destruct o as [x|c]; cbn [specStep] in E.
    - unfold specWrite in E. destruct (bool_decide _); injection E as <- <-; cbn [hist rd received zip zip_with].
      all: rewrite app_nil_r; split; rewrite ?length_app; try lia. done. by rewrite take_app_le.
    - unfold specRead in E. destruct (hist q !! _) eqn:Hx; injection E as <- <-; cbn [hist rd].
      + unfold received. cbn [zip zip_with omap list_omap]. destruct (String.eqb_spec c consumer) as [->|Hne].
        * rewrite lookup_insert_eq. cbn [default from_option id].
          split; [by apply lookup_lt_Some in Hx|]. by erewrite take_S_r.
        * rewrite lookup_insert_ne by done. by rewrite app_nil_r.
      + split; [done|]. unfold received. cbn. destruct (String.eqb _ _); by rewrite app_nil_r. }
  destruct Hstep as [H1 H2]. specialize (IH q1 H1). destruct (specRun n q1 os) as [l q2].
  cbn [fst snd] in *. rewrite <- IH, <- H2, <- app_assoc. f_equal.
  unfold received. cbn [zip zip_with omap list_omap]. by destruct (match o with Write _ => _ | _ => _ end).
Qed.

(** Filling the slot [attachToEmptySubBuffer] hands out and publishing it
    with [setWrittenSubBuffer]. *)
Definition writeInPlace b (x : D * H) : option (Z * BufferImplementation) :=
  i ← attachToEmptySubBuffer b;
  if i <? 0 then Some (i, b) else setWrittenSubBuffer (writeSubBuffer b (Z.to_nat i) x.1 x.2).

(** Reading through the pointer of [read(D*&, ...)] and releasing the slot with
    [setReadSubBuffer]. *)
Definition readInPlace b consumer : option (Z * option (D * H) * BufferImplementation) :=
  '(rc, b) ← readPtr b consumer;
  if rc <? 0 then Some (rc, None, b)
  else
    buffer ← subBuffers_ b !! Z.to_nat rc;
    header ← headers_ b !! Z.to_nat rc;
    '(_, b) ← setReadSubBuffer b consumer;
    Some (rc, Some (buffer, header), b).

Lemma writeInPlace_write b x : writeInPlace b x = write b x.1 x.2.
Proof.
  unfold writeInPlace, write, attachToEmptySubBuffer, getFreeBufferIndex.
  destruct (isFree b (nextWritePointer b)) as [[|]|]; cbn [mbind option_bind]; [|done|done].
  destruct (Z.eqb_spec (Z.of_nat (nextWritePointer b)) (-1)) as [E|E]; [lia|].
  destruct (Z.ltb_spec (Z.of_nat (nextWritePointer b)) 0); [lia|]. rewrite Nat2Z.id.
  unfold setWrittenSubBuffer. cbn [writePointer_ set_writePointer]. rewrite Nat2Z.id. done.
Qed.

Lemma readInPlace_read n b q consumer :
  refines n b q -> is_Some (rd q !! consumer) -> readInPlace b consumer = read b consumer.
Proof.
  intros R [r Hr]. destruct (refines_notAvailable _ _ _ _ _ R Hr) as (Hrp & Ht & Hna).
  destruct (refines_lookup _ _ _ _ _ R Hr) as (cs & Hc & [Hp Hwin (st & Hst & Hlen & Hbits)]).
  assert (Hall := refines_all_status _ _ _ R).
  unfold readInPlace, read, readPtr. rewrite Hna, Hrp, Ht. cbn [mbind option_bind].
  destruct (Nat.eqb_spec (length (hist q)) r) as [E|E]; [done|].
  destruct (Z.ltb_spec (Z.of_nat (r mod n)) 0); [lia|]. rewrite Nat2Z.id.
  destruct (subBuffers_ b !! (r mod n)%nat) as [xd|]; [|done]. cbn [mbind option_bind].
  destruct (headers_ b !! (r mod n)%nat) as [xh|]; [|done]. cbn [mbind option_bind].
  rewrite (setReadPointer_registered b _ cs) by done.
  unfold setReadSubBuffer. rewrite Hrp, (setFree_registered b _ _ cs st) by done.
  rewrite (setFree_registered _ _ _ (mkConsumer (priority_ cs) (nextReadPointer b consumer) (status_ cs)) st).
  - cbn [mbind option_bind priority_ readPointer_]. cbv zeta.
    erewrite setReadPointer_registered by (cbn; apply lookup_insert_eq).
    unfold nextReadPointer, getReadPointer, set_consumers, set_status.
    cbn [consumers_ numberOfSubBuffers_ writePointer_ subBuffersStatus_ headers_ subBuffers_].
    rewrite !insert_insert_eq, !lookup_insert_eq, Hc. cbn [default from_option id priority_ readPointer_ status_].
    do 3 f_equal. erewrite bool_decide_ext by apply freeAt_pointer. reflexivity.
  - cbn. by rewrite lookup_insert_eq.
  - done.
  - apply map_Forall_insert_2; [cbn; rewrite Hst; eauto|done].
Qed.

(** C8: The ring implements bounded queues.  On a fresh ring of [n] slots with
    consumers of high priority, which must not be overwritten and are what
    [CircularBufferBase::registerConsumer] registers, any sequence of writes
    and reads by these consumers returns, without undefined behaviour, exactly the answers of one bounded queue per consumer:
    a write is refused with [ErrorBufferFull] exactly when some consumer is [n]
    items behind, and a read returns the consumer's next unread item, or
    [ErrorBufferNotAvailable] when it has read everything. *)
Theorem ring_refines_queues (n : nat) (names : list string) (os : list op) :
  (0 < n)%nat -> names <> [] -> readers_in (list_to_set names) os ->
  exists b, run (registered n names) os = Some ((specRun n (startQueues names) os).1, b).
Proof.
  intros Hn Hne Hos. destruct (run_refines n os _ _ (registered_refines n names Hn Hne)) as (b & E & _).
  - by rewrite startQueues_dom.
  - by exists b.
Qed.

(** C9: No loss, no duplication, no reordering for consumers of high priority:
    after any run, the items a consumer got are, in order, a prefix of the items whose write was
    accepted. *)
Theorem consumer_receives_prefix (n : nat) (names : list string) (os : list op) (consumer : string) :
  (0 < n)%nat -> consumer ∈ names -> readers_in (list_to_set names) os ->
  exists l b, run (registered n names) os = Some (l, b) /\
    received consumer os l `prefix_of` accepted os l.
Proof.
  intros Hn Hc Hos. assert (Hne : names <> []) by (intros ->; by apply elem_of_nil in Hc).
  destruct (run_refines n os _ _ (registered_refines n names Hn Hne)) as (b & E & _);
    [by rewrite startQueues_dom|].
  exists (specRun n (startQueues names) os).1, b. split; [done|].
  pose proof (specRun_history n os (startQueues names)) as Hh.
  pose proof (specRun_received n consumer os (startQueues names)) as Hr.
  assert (Hp : spec_pos (startQueues names) consumer = 0%nat).
  { unfold spec_pos. destruct (rd _ !! consumer) as [r|] eqn:Er; [|done].
    apply elem_of_list_to_map_2, list_elem_of_fmap in Er as (? & [= _ ->] & _). done. }
  rewrite Hp, Hh in Hr. cbn [startQueues hist app take length] in Hr.
  rewrite Hr by lia. apply prefix_take.
Qed.

(** The in-place interface is equivalent to the copying one: attaching to
    the empty slot, filling it and publishing it is [write], and reading
    through the pointer and releasing the slot is [read]. *)
Theorem in_place_equivalent (n : nat) b q (x : D * H) consumer :
  refines n b q -> is_Some (rd q !! consumer) ->
  writeInPlace b x = write b x.1 x.2 /\ readInPlace b consumer = read b consumer.
Proof. intros R Hc. split; [apply writeInPlace_write|by eapply readInPlace_read]. Qed.

End BufferImplementation.
Arguments BufferImplementation D H : clear implicits.
Arguments queues D H : clear implicits.
End BufferImplementation.

Lemma ring_refines_queues_witness :
  exists b, BufferImplementation.run (BufferImplementation.registered 0 tt 2 ["a"; "b"]%string)
    [BufferImplementation.Write (7, tt); BufferImplementation.Write (8, tt); BufferImplementation.Write (9, tt);
     BufferImplementation.Read "a"; BufferImplementation.Read "a"; BufferImplementation.Read "a";
     BufferImplementation.Read "b"; BufferImplementation.Write (9, tt)]
  = Some ([BufferImplementation.Wrote 0; BufferImplementation.Wrote 1; BufferImplementation.Wrote (-1);
           BufferImplementation.Got 0 (Some (7, tt)); BufferImplementation.Got 1 (Some (8, tt));
           BufferImplementation.Got (-3) None; BufferImplementation.Got 0 (Some (7, tt));
           BufferImplementation.Wrote 0], b).
Proof.
  refine (BufferImplementation.ring_refines_queues 0 tt 2 ["a"; "b"]%string _ _ _ _); [lia|done|].
  repeat constructor; set_solver.
Defined.

Lemma consumer_receives_prefix_witness :
  exists l b, BufferImplementation.run (BufferImplementation.registered 0 tt 2 ["a"; "b"]%string)
    [BufferImplementation.Write (7, tt); BufferImplementation.Write (8, tt); BufferImplementation.Read "b"]
    = Some (l, b) /\
    BufferImplementation.received "b"
      [BufferImplementation.Write (7, tt); BufferImplementation.Write (8, tt); BufferImplementation.Read "b"] l
    `prefix_of` BufferImplementation.accepted
      [BufferImplementation.Write (7, tt); BufferImplementation.Write (8, tt); BufferImplementation.Read "b"] l.
Proof.
  apply (BufferImplementation.consumer_receives_prefix 0 tt 2 ["a"; "b"]%string _ "b"); [lia|set_solver|].
  repeat constructor; set_solver.
Defined.

Lemma in_place_equivalent_witness :
  BufferImplementation.writeInPlace (BufferImplementation.registered 0 tt 2 ["a"]%string) (5, tt)
  = BufferImplementation.write (BufferImplementation.registered 0 tt 2 ["a"]%string) 5 tt /\
  BufferImplementation.readInPlace (BufferImplementation.registered 0 tt 2 ["a"]%string) "a"
  = BufferImplementation.read (BufferImplementation.registered 0 tt 2 ["a"]%string) "a".
Proof.
  apply (BufferImplementation.in_place_equivalent 2 _ (BufferImplementation.startQueues ["a"]%string) (5, tt)).
  - apply BufferImplementation.registered_refines; [lia|done].
  - eexists. vm_compute. reflexivity.
Defined.

(** ** The map of rings *)

Module CircularBuffer.
Import BufferImplementation.
Section CircularBuffer.
Context {D H : Type}.
Variables (d0 : D) (h0 : H).

(** [theBuffer_] is a [std::map]: its entries in the order of its keys.  An
    iterator into it is the key it points to, [None] being [end()]. *)
Record CircularBuffer := mkCircular {
  theBuffer_ : list (string * BufferImplementation D H);
  consumers_ : gmap string ConsumerPriority;
  lastReadBuffer_ : gmap string (option string);
}.
Implicit Types (cb : CircularBuffer) (consumerID producerID : string).

Definition set_buffer cb l := mkCircular l (consumers_ cb) (lastReadBuffer_ cb).
Definition set_last cb consumerID it :=
  mkCircular (theBuffer_ cb) (consumers_ cb) (<[consumerID := it]> (lastReadBuffer_ cb)).

Definition keys cb : list string := (theBuffer_ cb).*1.
Definition begin cb : option string := head (keys cb).
(** [std::map::find] and assignment through an iterator. *)
Definition find cb producerID : option (BufferImplementation D H) :=
  snd <$> List.find (fun p => String.eqb p.1 producerID) (theBuffer_ cb).
Definition update (l : list (string * BufferImplementation D H)) producerID b :=
  (fun p => if String.eqb p.1 producerID then (p.1, b) else p) <$> l.
(** [std::map::emplace] of a key that is not present. *)
Fixpoint emplace (l : list (string * BufferImplementation D H)) producerID b :=
  match l with
  | [] => [(producerID, b)]
  | p :: l' => if String.ltb producerID p.1 then (producerID, b) :: l else p :: emplace l' producerID b
  end.
(** [++it]; [None] when [it] was the last element. *)
Fixpoint after (l : list string) (k : string) : option string :=
  match l with
  | [] => None
  | x :: l' => if String.eqb x k then head l' else after l' k
  end.

Definition construct : CircularBuffer := mkCircular [] ∅ ∅.
Definition reset cb : CircularBuffer := set_buffer cb (prod_map id BufferImplementation.reset <$> theBuffer_ cb).
Definition isEmpty cb : bool := forallb (fun p => BufferImplementation.isEmpty p.2) (theBuffer_ cb).
Definition getTotalNumberOfSubBuffers cb : Z :=
  fold_left (fun z p => u32 (z + Z.of_nat (bufferSize p.2))) (theBuffer_ cb) 0.
Definition getProducerBufferSize cb producerID : result nat :=
  match find cb producerID with Some b => Ok (bufferSize b) | None => Throw OutOfRange end.
Definition getProducerWrittenBuffers cb producerID : result nat :=
  match find cb producerID with Some b => Ok (numberOfWrittenBuffers b) | None => Throw OutOfRange end.

Definition registerProducer cb producerID (size : nat) : result CircularBuffer :=
  match find cb producerID with
  | Some _ => Throw RuntimeError
  | None =>
      let b := fold_left (fun b c => BufferImplementation.registerConsumer b c.1 c.2)
                 (map_to_list (consumers_ cb)) (BufferImplementation.construct d0 h0 size) in
      Ok (set_buffer cb (emplace (theBuffer_ cb) producerID b))
  end.

Definition registerConsumer cb consumerID (priority : ConsumerPriority) : CircularBuffer :=
  let cb := mkCircular
              (prod_map id (fun b => BufferImplementation.registerConsumer b consumerID priority) <$> theBuffer_ cb)
              (<[consumerID := priority]> (consumers_ cb)) (lastReadBuffer_ cb) in
  set_last cb consumerID (begin cb).

(** [setNextProducerBuffer]: no result for an iterator that cannot be
    advanced (a consumer that was never registered, or [end()]). *)
Definition setNextProducerBuffer cb consumerID : option CircularBuffer :=
  it ← lastReadBuffer_ cb !! consumerID;
  k ← it;
  Some (set_last cb consumerID
          match after (keys cb) k with Some k' => Some k' | None => begin cb end).

(** One [lastReadBuffer_[consumerID]->second.read(...)]. *)
Definition readLast cb consumerID : option (Z * option (D * H) * CircularBuffer) :=
  it ← lastReadBuffer_ cb !! consumerID;
  k ← it;
  b ← find cb k;
  '(rc, x, b) ← BufferImplementation.read b consumerID;
  Some (rc, x, set_buffer cb (update (theBuffer_ cb) k b)).

Fixpoint readLoop (readCounter : nat) cb consumerID : option (Z * option (D * H) * CircularBuffer) :=
  '(rc, x, cb) ← readLast cb consumerID;
  match readCounter with
  | S readCounter =>
      if rc <? 0 then cb ← setNextProducerBuffer cb consumerID; readLoop readCounter cb consumerID
      else Some (rc, x, cb)
  | O => Some (rc, x, cb)
  end.

Definition read cb consumerID : option (Z * option (D * H) * CircularBuffer) :=
  cb ← setNextProducerBuffer cb consumerID;
  readLoop (length (theBuffer_ cb) - 1) cb consumerID.

(** ** Every producer is polled

    [qs] gives, for every producer, the queues its ring represents. *)

Definition represents cb (qs : gmap string (queues D H)) : Prop :=
  NoDup (keys cb) /\
  forall k b, find cb k = Some b -> exists q, qs !! k = Some q /\ refines (bufferSize b) b q.
Definition drained (q : queues D H) consumerID : Prop :=
  exists r, rd q !! consumerID = Some r /\ length (hist q) = r.
Definition subscribed (qs : gmap string (queues D H)) consumerID : Prop :=
  map_Forall (fun _ q => is_Some (rd q !! consumerID)) qs.

Lemma find_key cb k : k ∈ keys cb -> is_Some (find cb k).
Proof.
  unfold keys, find. induction (theBuffer_ cb) as [|p l IH]; cbn; [by intros ?%elem_of_nil|].
  intros [->|Hin]%elem_of_cons; [by rewrite String.eqb_refl; eauto|].
  destruct (String.eqb p.1 k); cbn; eauto.
Qed.

Lemma update_same cb k b : NoDup (keys cb) -> find cb k = Some b -> update (theBuffer_ cb) k b = theBuffer_ cb.
Proof.
  unfold keys, find, update. induction (theBuffer_ cb) as [|[k' b'] l IH]; cbn; [done|].
  intros [Hnot Hnd]%NoDup_cons. destruct (String.eqb_spec k' k) as [->|Hne]; cbn.
  - intros [= ->]. f_equal. rewrite <- (list_fmap_id l) at 2. apply list_fmap_ext.
    intros i [k' b'] Hi. cbn. destruct (String.eqb_spec k' k) as [->|]; [|done].
    destruct Hnot. apply list_elem_of_fmap. exists (k, b'). split; [done|]. by eapply list_elem_of_lookup_2.
  - intros Hf. f_equal. by apply IH.
Qed.

Lemma after_lookup l k i : NoDup l -> l !! i = Some k -> after l k = l !! S i.
Proof.
  revert i. induction l as [|x l IH]; intros i Hnd Hi; [done|].
  apply NoDup_cons in Hnd as [Hx Hnd]. cbn [after]. destruct i as [|i]; cbn in Hi.
  - injection Hi as ->. rewrite String.eqb_refl. by destruct l.
  - destruct (String.eqb_spec x k) as [->|]; [|by apply IH].
    destruct Hx. by eapply list_elem_of_lookup_2.
Qed.

(** Advancing moves to the next position modulo the number of producers. *)
Lemma setNext_position cb consumerID k i :
  NoDup (keys cb) -> lastReadBuffer_ cb !! consumerID = Some (Some k) -> keys cb !! i = Some k ->
  exists k', keys cb !! (S i mod length (keys cb))%nat = Some k' /\
    setNextProducerBuffer cb consumerID = Some (set_last cb consumerID (Some k')).
Proof.
  intros Hnd Hl Hi. unfold setNextProducerBuffer. rewrite Hl. cbn [mbind option_bind].
  rewrite (after_lookup _ _ i) by done. pose proof (lookup_lt_Some _ _ _ Hi) as Hlt.
  destruct (keys cb !! S i) as [k'|] eqn:E.
  - exists k'. split; [|done]. rewrite Nat.mod_small; [done|]. by eapply lookup_lt_Some.
  - apply lookup_ge_None in E. assert (S i = length (keys cb)) as -> by lia.
    rewrite Nat.Div0.mod_same. unfold begin. destruct (keys cb) as [|k0 l]; [done|]. by exists k0.
Qed.

Lemma find_update cb k b k' :
  k ∈ keys cb -> find (set_buffer cb (update (theBuffer_ cb) k b)) k' =
    if String.eqb k k' then Some b else find cb k'.
Proof.
  unfold keys, find, update. cbn [theBuffer_ set_buffer]. intros Hk.
  induction (theBuffer_ cb) as [|[k0 b0] l IH]; [by apply elem_of_nil in Hk|]. cbn.
  apply elem_of_cons in Hk. cbn in Hk.
  destruct (String.eqb_spec k0 k) as [->|Hne]; cbn.
  - destruct (String.eqb_spec k k') as [->|Hne']; cbn; [done|].
    destruct (decide (k ∈ l.*1)) as [Hin|Hin]; [by apply IH|].
    f_equal. clear IH Hk. induction l as [|[k1 b1] l IHl]; [done|]. cbn in *.
    apply not_elem_of_cons in Hin as [Hk1 Hin]. destruct (String.eqb_spec k1 k); [congruence|]. cbn.
    destruct (String.eqb k1 k'); [done|]. by apply IHl.
  - destruct Hk as [?|Hk]; [congruence|]. specialize (IH Hk).
    destruct (String.eqb_spec k0 k') as [->|]; cbn; [|done].
    by destruct (String.eqb_spec k k'); [congruence|].
Qed.

Lemma keys_update cb k b : keys (set_buffer cb (update (theBuffer_ cb) k b)) = keys cb.
Proof.
  unfold keys, update. cbn [theBuffer_ set_buffer]. rewrite <- list_fmap_compose.
  apply list_fmap_ext. intros i [k' b'] _. cbn. by destruct (String.eqb k' k).
Qed.

(** A ring with nothing new for the consumer is left as it was. *)
Lemma readLast_drained cb qs consumerID k b q :
  represents cb qs -> lastReadBuffer_ cb !! consumerID = Some (Some k) -> find cb k = Some b ->
  qs !! k = Some q -> drained q consumerID ->
  readLast cb consumerID = Some (ErrorBufferNotAvailable, None, cb).
Proof.
  intros [Hnd Hq] Hl Hf Hk (r & Hr & Hlen). destruct (Hq _ _ Hf) as (q' & Hk' & R).
  assert (q' = q) as -> by congruence.
  destruct (refines_notAvailable _ _ _ _ _ R Hr) as (Hrp & Ht & Hna).
  unfold readLast. rewrite Hl. cbn [mbind option_bind]. rewrite Hf. cbn [mbind option_bind].
  unfold BufferImplementation.read. rewrite Hna, Ht, (proj2 (Nat.eqb_eq _ _) Hlen). cbn [mbind option_bind].
  rewrite update_same by done. by destruct cb.
Qed.

Lemma readLast_available cb qs consumerID k b q r :
  represents cb qs -> lastReadBuffer_ cb !! consumerID = Some (Some k) -> find cb k = Some b ->
  qs !! k = Some q -> rd q !! consumerID = Some r -> length (hist q) <> r ->
  exists item cb', hist q !! r = Some item /\
    readLast cb consumerID = Some (Z.of_nat (r mod bufferSize b), Some item, cb') /\
    lastReadBuffer_ cb' = lastReadBuffer_ cb /\
    represents cb' (<[k := mkQueues (hist q) (<[consumerID := S r]> (rd q))]> qs).
Proof.
  intros [Hnd Hq] Hl Hf Hk Hr Hlen. destruct (Hq _ _ Hf) as (q' & Hk' & R).
  assert (q' = q) as -> by congruence.
  pose proof (refines_window _ _ _ _ _ R Hr) as Hwin.
  destruct (lookup_lt_is_Some_2 (hist q) r) as [item Hx]; [lia|].
  destruct (read_refines _ _ _ consumerID R) as (b' & E & R'); [eauto|].
  assert (Hb : bufferSize b' = bufferSize b) by apply (rf_size _ _ _ R').
  unfold specRead in E, R'. rewrite Hr in E, R'. cbn [default from_option id] in E, R'.
  rewrite Hx in E, R'. cbn [fst snd] in E, R'.
  assert (Hin : k ∈ keys cb).
  { unfold find in Hf. apply fmap_Some in Hf as ([k' ?] & Hf & _). apply find_some in Hf as [Hin E1].
    apply String.eqb_eq in E1 as <-. apply list_elem_of_fmap. exists (k', b0). split; [done|]. by apply list_elem_of_In. }
  eexists item, _. split; [done|]. split.
  { unfold readLast. rewrite Hl. cbn [mbind option_bind]. rewrite Hf. cbn [mbind option_bind].
    rewrite E. reflexivity. }
  split; [done|]. split; [by rewrite keys_update|]. intros k' b''. rewrite find_update by done.
  destruct (String.eqb_spec k k') as [->|Hne].
  - intros [= <-]. rewrite lookup_insert_eq. eexists. split; [done|]. by rewrite Hb.
  - intros Hf'. rewrite lookup_insert_ne by done. by apply Hq.
Qed.

Definition drainedAt cb (qs : gmap string (queues D H)) consumerID (j : nat) : Prop :=
  exists k q, keys cb !! (j mod length (keys cb))%nat = Some k /\ qs !! k = Some q /\ drained q consumerID.

(** What a poll that starts at position [p] and may move [t] times finds. *)
Definition pollResult cb qs consumerID (p t : nat) (res : Z * option (D * H) * CircularBuffer) : Prop :=
  let '(rc, x, cb') := res in
  (rc = ErrorBufferNotAvailable /\ x = None /\ theBuffer_ cb' = theBuffer_ cb /\
   forall j, (p <= j <= p + t)%nat -> drainedAt cb qs consumerID j) \/
  (exists s k q r item, (s <= t)%nat /\ (forall j, (p <= j < p + s)%nat -> drainedAt cb qs consumerID j) /\
     keys cb !! ((p + s) mod length (keys cb))%nat = Some k /\
     lastReadBuffer_ cb' !! consumerID = Some (Some k) /\
     qs !! k = Some q /\ rd q !! consumerID = Some r /\ hist q !! r = Some item /\
     0 <= rc /\ x = Some item /\
     represents cb' (<[k := mkQueues (hist q) (<[consumerID := S r]> (rd q))]> qs)).

Lemma represents_last cb qs c it : represents cb qs -> represents (set_last cb c it) qs.
Proof. done. Qed.

Lemma readLoop_polls qs consumerID t : forall cb p k,
  represents cb qs -> subscribed qs consumerID ->
  lastReadBuffer_ cb !! consumerID = Some (Some k) -> keys cb !! (p mod length (keys cb))%nat = Some k ->
  exists res, readLoop t cb consumerID = Some res /\ pollResult cb qs consumerID p t res.
Proof.
  induction t as [|t IH]; intros cb p k Rep Sub Hl Hp.
  all: destruct (find_key cb k) as [b Hf]; [by eapply list_elem_of_lookup_2|].
  all: destruct (proj2 Rep _ _ Hf) as (q & Hk & R); destruct (Sub _ _ Hk) as [r Hr].
  all: destruct (decide (length (hist q) = r)) as [Hd|Hd].
  - eexists. cbn [readLoop]. erewrite readLast_drained; [|done..|by exists r]. split; [reflexivity|].
    left. repeat (split; [done|]). intros j Hj. assert (j = p) as -> by lia. exists k, q. split_and!; [done..|by exists r].
  - destruct (readLast_available _ _ _ _ _ _ _ Rep Hl Hf Hk Hr Hd) as (item & cb' & Hx & E & El & Rep').
    eexists. cbn [readLoop]. rewrite E. split; [reflexivity|]. right. exists 0%nat, k, q, r, item.
    rewrite Nat.add_0_r, El. split; [lia|]. split; [lia|].
    repeat (split; [assumption || lia || reflexivity|]). exact Rep'.
  - cbn [readLoop]. erewrite readLast_drained; [|done..|by exists r]. cbn [mbind option_bind].
    destruct (setNext_position cb consumerID k _ (proj1 Rep) Hl Hp) as (k' & Hk' & ->). cbn [mbind option_bind].
    assert (Hp' : keys cb !! (S p mod length (keys cb))%nat = Some k').
    { rewrite <- Hk'. f_equal. rewrite <- (Nat.add_1_r p), <- (Nat.add_1_r (p mod _)). by rewrite Nat.Div0.add_mod_idemp_l. }
    destruct (IH (set_last cb consumerID (Some k')) (S p) k') as (res & E & Hres); [done|done|cbn; apply lookup_insert_eq|done|].
    exists res. split; [exact E|]. destruct res as [[rc x] cb'].
    assert (Hhere : drainedAt cb qs consumerID p) by (exists k, q; split_and!; [done..|by exists r]).
    destruct Hres as [(? & ? & ? & Hall)|(s & k1 & q1 & r1 & item & Hs & Hall & Hks & Hrest)].
    + left. split_and!; try done. intros j Hj. destruct (decide (j = p)) as [->|]; [done|]. apply Hall. lia.
    + right. exists (S s), k1, q1, r1, item. split; [lia|]. split.
      { intros j Hj. destruct (decide (j = p)) as [->|]; [done|]. apply Hall. lia. }
      split; [|done]. rewrite <- Hks. do 2 f_equal. lia.
  - destruct (readLast_available _ _ _ _ _ _ _ Rep Hl Hf Hk Hr Hd) as (item & cb' & Hx & E & El & Rep').
    eexists. cbn [readLoop]. rewrite E. cbn [mbind option_bind].
    destruct (Z.ltb_spec (Z.of_nat (r mod bufferSize b)) 0); [lia|].
    split; [reflexivity|]. right. exists 0%nat, k, q, r, item.
    rewrite Nat.add_0_r, El. split; [lia|]. split; [lia|].
    repeat (split; [assumption || lia || reflexivity|]). exact Rep'.
Qed.

(** Round-robin polling.  A consumer's [read] on a buffer of [m] producers
    tries them in the order of the map, starting after the one it last read,
    and returns the next unread item of the first that has one; it reports
    [ErrorBufferNotAvailable] (and leaves every ring unchanged) exactly when
    all [m] producers are drained. *)
Theorem read_polls_every_producer cb qs consumerID k i :
  represents cb qs -> subscribed qs consumerID ->
  lastReadBuffer_ cb !! consumerID = Some (Some k) -> keys cb !! i = Some k ->
  exists res, read cb consumerID = Some res /\
    pollResult cb qs consumerID (S i) (length (keys cb) - 1) res.
Proof.
  intros Rep Sub Hl Hi. unfold read.
  destruct (setNext_position cb consumerID k i (proj1 Rep) Hl Hi) as (k' & Hk' & ->). cbn [mbind option_bind].
  assert (length (theBuffer_ cb) = length (keys cb)) as E by (unfold keys; by rewrite length_fmap).
  cbn [theBuffer_ set_last]. rewrite E.
  apply (readLoop_polls qs consumerID _ (set_last cb consumerID (Some k')) (S i) k'); try done.
  cbn. apply lookup_insert_eq.
Qed.

End CircularBuffer.
Arguments CircularBuffer D H : clear implicits.
End CircularBuffer.

(** Two producers, ["p"] with nothing written and ["q"] with one item. *)
Definition twoProducers : CircularBuffer.CircularBuffer Z unit :=
  CircularBuffer.mkCircular
    [("p", BufferImplementation.registered 0 tt 2 ["c"]);
     ("q", BufferImplementation.written (BufferImplementation.registered 0 tt 2 ["c"]) 0 (5, tt))]%string
    {["c"%string := HighConsumerPriority]} {["c"%string := Some "q"%string]}.
Definition twoQueues : gmap string (BufferImplementation.queues Z unit) :=
  <["p"%string := BufferImplementation.startQueues ["c"%string]]>
    {["q"%string := BufferImplementation.mkQueues [(5, tt)] {["c"%string := 0%nat]}]}.

Lemma twoProducers_represents : CircularBuffer.represents twoProducers twoQueues.
Proof.
  split.
  - repeat constructor; set_solver.
  - intros k b. unfold CircularBuffer.find. cbn [twoProducers CircularBuffer.theBuffer_ List.find fst].
    assert (R : BufferImplementation.refines 2 (BufferImplementation.registered 0 tt 2 ["c"%string])
      (BufferImplementation.startQueues ["c"%string])).
    { apply BufferImplementation.registered_refines; [lia|done]. }
    destruct (String.eqb_spec "p" k) as [<-|Hp]; [|destruct (String.eqb_spec "q" k) as [<-|Hq]; [|done]].
    + intros [= <-]. exists (BufferImplementation.startQueues ["c"%string]). split; [reflexivity|exact R].
    + intros [= <-]. exists (BufferImplementation.mkQueues [(5, tt)] {["c"%string := 0%nat]}). split; [reflexivity|].
      apply (BufferImplementation.written_refines 2 _ _ (5, tt) R).
      intros (k & r & Hr & E). cbn in E. lia.
Qed.

Lemma read_polls_every_producer_witness :
  exists res, CircularBuffer.read twoProducers "c" = Some res /\
    CircularBuffer.pollResult twoProducers twoQueues "c" 2 1 res.
Proof.
  apply (CircularBuffer.read_polls_every_producer twoProducers twoQueues "c" "q" 1).
  - exact twoProducers_represents.
  - intros k q. unfold twoQueues. intros [[_ <-]|[_ [_ <-]%lookup_singleton_Some]]%lookup_insert_Some;
      eexists; vm_compute; reflexivity.
  - reflexivity.
  - reflexivity.
Defined.
