(* ===== verification/StringMacros.v ===== *)
(** * String utilities

    src/otsdaq/Macros/StringMacros.cc: wildcard matching, URI, SQL, JSON and XML
    escaping, trimming.  (Lists and numbers are in StringLists.v, environment
    variables, field extraction and the case-ignoring order in
    StringExpansion.v.) *)

From S2P Require Import Prelude CText.

Module StringMacros.

(** ** wildCardMatch *)

Definition star : ascii := chr 42.

(** The generic matcher's loop: [lastStarPattern] is [None] for [npos]. *)
Fixpoint matchLoop (fuel : nat) (needle haystack : text) (patternPos textPos : nat)
    (lastStarPattern : option nat) (lastStarTextPos : nat) : option (option nat) :=
  match fuel with
  | O => None
  | S fuel =>
      match haystack !! textPos with
      | None => Some (Some patternPos) (* the loop ends: textPos = size *)
      | Some h =>
          match needle !! patternPos with
          | Some c =>
              if (c =? h)%char then
                matchLoop fuel needle haystack (S patternPos) (S textPos) lastStarPattern lastStarTextPos
              else if (c =? star)%char then
                matchLoop fuel needle haystack (S patternPos) textPos (Some patternPos) textPos
              else
                match lastStarPattern with
                | Some ls => matchLoop fuel needle haystack (S ls) (S lastStarTextPos) lastStarPattern (S lastStarTextPos)
                | None => Some None (* return false *)
                end
          | None =>
              match lastStarPattern with
              | Some ls => matchLoop fuel needle haystack (S ls) (S lastStarTextPos) lastStarPattern (S lastStarTextPos)
              | None => Some None
              end
          end
      end
  end.

(** Every iteration consumes a text position, a pattern position, or moves
    the last star's text position forward. *)
Definition matchFuel (needle haystack : text) : nat :=
  S ((length haystack + 2) * (length needle + length haystack + 1)).

Definition isStar (c : ascii) : bool := (c =? star)%char.

(** [while(patternPos < needle.size() && needle[patternPos] == '*') ++patternPos;
    patternPos == needle.size()] *)
Definition onlyStarsLeft (needle : text) (patternPos : nat) : bool := forallb isStar (drop patternPos needle).

Definition genericMatch (needle haystack : text) : bool :=
  match matchLoop (matchFuel needle haystack) needle haystack 0 0 None 0 with
  | Some (Some patternPos) => onlyStarsLeft needle patternPos
  | _ => false
  end.

Definition leadingMatch (needle haystack : text) : result bool :=
  match needle with
  | c :: rest =>
      if isStar c then
        tail ← substr haystack (u64 (size haystack - (size needle - 1))) npos;
        Ok (bool_decide (rest = tail))
      else Ok false
  | [] => Ok false
  end.

Definition trailingMatch (needle haystack : text) : bool :=
  match last needle with
  | Some c => isStar c && bool_decide (removelast needle = take (length needle - 1) haystack)
  | None => false
  end.

Definition wildCardMatchBody (needle haystack : text) : result (bool * Z) :=
  if bool_decide (needle = []) then Ok (true, 1)
  else if bool_decide (needle = [star]) then Ok (true, 5)
  else if bool_decide (needle = haystack) then Ok (true, 1)
  else if negb (existsb isStar needle) then Ok (false, 0)
  else if trailingMatch needle haystack then Ok (true, 2)
  else
    leading ← leadingMatch needle haystack;
    if (leading : bool) then Ok (true, 3)
    else if genericMatch needle haystack then Ok (true, 4)
    else Ok (false, 0).

(** The returned flag and [*priorityIndex]; any exception is "no match". *)
Definition wildCardMatch (needle haystack : text) : bool * Z :=
  match wildCardMatchBody needle haystack with Ok r => r | Throw _ => (false, 0) end.

Definition inWildCardSet (needle : text) (haystack : list text) : bool :=
  existsb (fun h =>
    match h with
    | c :: rest => if (c =? chr 33)%char then negb (wildCardMatch rest needle).1 else (wildCardMatch h needle).1
    | [] => (wildCardMatch h needle).1
    end) haystack.

(** What a pattern means: a star stands for any sequence, any other character
    for itself. *)
Inductive glob : text -> text -> Prop :=
| glob_nil : glob [] []
| glob_char c p t : c <> star -> glob p t -> glob (c :: p) (c :: t)
| glob_skip p t : glob p t -> glob (star :: p) t
| glob_eat p x t : glob (star :: p) t -> glob (star :: p) (x :: t).

Lemma isStar_true c : isStar c = true <-> c = star.
Proof. unfold isStar. by destruct (Ascii.eqb_spec c star). Qed.

Lemma glob_nil_r p : glob p [] <-> forallb isStar p = true.
Proof.
  split.
  - intros H. remember [] as t eqn:E. induction H; try discriminate E; [done|].
    cbn [forallb]. rewrite (proj2 (isStar_true _) eq_refl). by apply IHglob.
  - induction p as [|c p IH]; [constructor|]. cbn [forallb].
    intros [->%isStar_true H]%andb_true_iff. constructor. by apply IH.
Qed.

Lemma glob_star p t : glob (star :: p) t <-> exists k, (k <= length t)%nat /\ glob p (drop k t).
Proof.
  split.
  - intros H. remember (star :: p) as q eqn:E. induction H; try done.
    + congruence.
    + injection E as ->. exists 0%nat. split; [lia|]. by rewrite drop_0.
    + destruct (IHglob E) as (k & Hk & Hg). exists (S k). cbn. split; [lia|done].
  - intros (k & Hk & Hg). revert k Hk Hg. induction t as [|x t IH]; intros k Hk Hg.
    + rewrite drop_nil in Hg. by constructor.
    + destruct k as [|k]; [by constructor|]. apply glob_eat. apply (IH k); [cbn in Hk; lia|done].
Qed.

Lemma glob_star_drop p t k : glob (star :: p) (drop k t) -> glob (star :: p) t.
Proof.
  intros H. destruct (Nat.le_gt_cases (length t) k) as [Hk|Hk].
  - rewrite drop_ge in H by done. apply glob_star. exists (length t). split; [done|].
    rewrite drop_all. apply glob_nil_r. apply glob_nil_r in H. cbn [forallb] in H.
    by apply andb_true_iff in H as [_ H].
  - apply glob_star. apply glob_star in H as (j & Hj & H). rewrite drop_drop in H.
    exists (k + j)%nat. split; [|done]. rewrite length_drop in Hj. lia.
Qed.

(** A star-free pattern prefix matches itself only. *)
Lemma glob_literal l p t :
  existsb isStar l = false -> glob (l ++ p) t <-> exists t', t = l ++ t' /\ glob p t'.
Proof.
  revert t. induction l as [|c l IH]; intros t Hl; cbn [app].
  - split; [eauto|]. by intros (t' & -> & H).
  - cbn [existsb] in Hl. apply orb_false_iff in Hl as [Hc Hl]. split.
    + intros H. inversion H; subst.
      * match goal with H' : glob (l ++ p) _ |- _ => apply IH in H' as (t' & -> & H'); [|done] end.
        by exists t'.
      * by rewrite (proj2 (isStar_true star) eq_refl) in Hc.
      * by rewrite (proj2 (isStar_true star) eq_refl) in Hc.
    + intros (t' & -> & H). cbn [app]. constructor.
      * intros ->. by rewrite (proj2 (isStar_true star) eq_refl) in Hc.
      * apply IH; eauto.
Qed.

(** The loop's invariant: since the last star the text has followed the
    pattern literally. *)
Definition matchInv (needle haystack : text) (p t : nat) (ls : option nat) (lt : nat) : Prop :=
  (p <= length needle)%nat /\ (t <= length haystack)%nat /\
  match ls with
  | None => True
  | Some s => (S s <= length needle)%nat /\ (lt <= t)%nat /\ exists l, existsb isStar l = false /\
      drop (S s) needle = l ++ drop p needle /\ drop lt haystack = l ++ drop t haystack
  end.

(** The last star could also absorb [k] more characters. *)
Definition retry (needle haystack : text) (ls : option nat) (lt : nat) : Prop :=
  exists s k, ls = Some s /\ (1 <= k)%nat /\ (lt + k <= length haystack)%nat /\
    glob (drop (S s) needle) (drop (lt + k) haystack).

Definition matchMeasure (needle haystack : text) (p t : nat) (ls : option nat) (lt : nat) : nat :=
  (match ls with None => length haystack + 1 | Some _ => length haystack - lt end)
    * (length needle + length haystack + 1)
  + (length needle - p) + (length haystack - t).

(** A retry aligned with the current literal gives a match of what is left of
    the pattern against a shorter text. *)
Lemma retry_rest needle haystack p t ls lt :
  matchInv needle haystack p t ls lt -> retry needle haystack ls lt ->
  exists k, (1 <= k)%nat /\ (t + k <= length haystack)%nat /\ glob (drop p needle) (drop (t + k) haystack).
Proof.
  intros (Hp & Ht & Hinv) (s & k & -> & Hk & Hle & Hg). destruct Hinv as (Hs & Hlt & l & Hl & Hpat & Htxt).
  rewrite Hpat, glob_literal in Hg by done. destruct Hg as (t' & Et & Hg).
  assert (Hlen := f_equal length Htxt). rewrite length_app, !length_drop in Hlen.
  assert (Hlen' := f_equal length Et). rewrite length_app, length_drop in Hlen'.
  exists k. split; [done|]. split; [lia|].
  assert (t' = drop (t + k) haystack) as <-; [|done].
  assert (E := f_equal (drop (length l)) Et). rewrite drop_app_length, drop_drop in E. rewrite <- E. f_equal. lia.
Qed.

Lemma glob_char_iff c p t : c <> star -> glob (c :: p) (c :: t) <-> glob p t.
Proof. intros Hc. split; [|by constructor]. intros H. by inversion H. Qed.

Lemma matchInv_step needle haystack p t ls lt h :
  needle !! p = Some h -> haystack !! t = Some h -> h <> star ->
  matchInv needle haystack p t ls lt -> matchInv needle haystack (S p) (S t) ls lt.
Proof.
  intros Ep Et Hh (Hp & Ht & Hinv). apply lookup_lt_Some in Ep as Hp'. apply lookup_lt_Some in Et as Ht'.
  split; [lia|]. split; [lia|]. destruct ls as [s|]; [|done].
  destruct Hinv as (Hs & Hle & l & Hl & Hpat & Htxt). split; [done|]. split; [lia|].
  exists (l ++ [h]). rewrite <- !app_assoc. cbn [app].
  rewrite <- (drop_S needle h p Ep), <- (drop_S haystack h t Et). split; [|done].
  rewrite existsb_app, Hl. cbn. unfold isStar. by destruct (Ascii.eqb_spec h star).
Qed.

(** Retrying once more, and what remains to retry after it. *)
Lemma retry_first needle haystack s p t lt pat txt :
  matchInv needle haystack p t (Some s) lt -> (t < length haystack)%nat -> ~ glob pat txt ->
  glob (drop (S s) needle) (drop (S lt) haystack) \/ retry needle haystack (Some s) (S lt) <->
  glob pat txt \/ retry needle haystack (Some s) lt.
Proof.
  intros (_ & _ & _ & Hle & _) Hlt Hno. split.
  - intros [H|(s' & k & [= <-] & Hk & Hb & Hg)]; right.
    + exists s, 1%nat. rewrite Nat.add_1_r. repeat split; [lia|lia|done].
    + exists s, (S k). rewrite Nat.add_succ_r. repeat split; [lia|lia|done].
  - intros [H|(s' & k & [= <-] & Hk & Hb & Hg)]; [done|].
    destruct k as [|[|k]]; [lia| |].
    + left. by rewrite Nat.add_1_r in Hg.
    + right. exists s, (S k). rewrite Nat.add_succ_r in Hg. repeat split; [lia|lia|done].
Qed.

(** A fresh star. *)
Lemma retry_star needle haystack p t :
  (t <= length haystack)%nat ->
  glob (star :: drop (S p) needle) (drop t haystack) <->
  glob (drop (S p) needle) (drop t haystack) \/ retry needle haystack (Some p) t.
Proof.
  intros Ht. rewrite glob_star, length_drop. split.
  - intros ([|k] & Hk & Hg); [left; by rewrite drop_0 in Hg|].
    right. exists p, (S k). rewrite drop_drop in Hg. repeat split; [lia|lia|done].
  - intros [Hg|(s & k & [= <-] & Hk & Hb & Hg)].
    + exists 0%nat. split; [lia|]. by rewrite drop_0.
    + exists k. rewrite drop_drop. split; [lia|done].
Qed.

Lemma matchLoop_correct needle haystack fuel : existsb isStar haystack = false ->
  forall p t ls lt, matchInv needle haystack p t ls lt ->
  (matchMeasure needle haystack p t ls lt < fuel)%nat ->
  exists r, matchLoop fuel needle haystack p t ls lt = Some r /\
    (match r with Some pos => onlyStarsLeft needle pos = true | None => False end <->
     glob (drop p needle) (drop t haystack) \/ retry needle haystack ls lt).
Proof.
  intros Hstar. induction fuel as [|fuel IH]; intros p t ls lt Hinv Hf; [lia|].
  pose proof Hinv as (Hp & Ht & Hinv'). cbn [matchLoop].
  destruct (haystack !! t) as [h|] eqn:Eh.
  2:{ eexists. split; [reflexivity|]. apply lookup_ge_None in Eh. rewrite (drop_ge haystack) by done.
      rewrite glob_nil_r. unfold onlyStarsLeft. split; [by left|]. intros [H|H]; [done|].
      apply (retry_rest _ _ p t) in H as (k & Hk & Hle & _); [lia|done]. }
  assert (Hlt : (t < length haystack)%nat) by (by eapply lookup_lt_Some).
  assert (Hh : h <> star).
  { intros ->. rewrite <- not_true_iff_false in Hstar. apply Hstar. apply existsb_exists.
    exists star. split; [|done]. apply list_elem_of_In. by eapply list_elem_of_lookup_2. }
  rewrite (drop_S haystack h t Eh).
  assert (Hback : forall s, ls = Some s -> ~ glob (drop p needle) (h :: drop (S t) haystack) ->
    exists r, matchLoop fuel needle haystack (S s) (S lt) ls (S lt) = Some r /\
      (match r with Some pos => onlyStarsLeft needle pos = true | None => False end <->
       glob (drop p needle) (h :: drop (S t) haystack) \/ retry needle haystack ls lt)).
  { intros s -> Hno. destruct Hinv' as (Hs & Hle & _).
    destruct (IH (S s) (S lt) (Some s) (S lt)) as (r & Er & Hr).
    - split; [done|]. split; [lia|]. split; [done|]. split; [done|]. by exists [].
    - unfold matchMeasure in *.
      replace (length haystack - lt)%nat with (S (length haystack - S lt)) in Hf by lia. lia.
    - exists r. split; [done|]. rewrite Hr. by apply (retry_first _ _ _ p t). }
  destruct (needle !! p) as [c|] eqn:Ec.
  2:{ apply lookup_ge_None in Ec. destruct ls as [s|].
      - apply (Hback s eq_refl). rewrite drop_ge by done. intros H. inversion H.
      - eexists. split; [reflexivity|]. split; [done|]. rewrite drop_ge by done.
        intros [H|(? & ? & ? & _)]; [inversion H|done]. }
  assert (Hpl : (p < length needle)%nat) by (by eapply lookup_lt_Some).
  rewrite (drop_S needle c p Ec) in *. destruct (Ascii.eqb_spec c h) as [->|Hch].
  - destruct (IH (S p) (S t) ls lt) as (r & Er & Hr).
    + by apply (matchInv_step _ _ _ _ _ _ h).
    + unfold matchMeasure in *. lia.
    + exists r. split; [done|]. rewrite Hr, (glob_char_iff h) by done. done.
  - destruct (Ascii.eqb_spec c star) as [->|Hcs].
    + destruct (IH (S p) t (Some p) t) as (r & Er & Hr).
      * split; [lia|]. split; [lia|]. split; [done|]. split; [done|]. by exists [].
      * unfold matchMeasure in *. assert (length haystack - t <= match ls with None => length haystack + 1 | Some _ => length haystack - lt end)%nat.
        { destruct ls; [destruct Hinv' as (_ & ? & _)|]; lia. }
        nia.
      * exists r. split; [done|]. rewrite Hr. rewrite <- (drop_S haystack h t Eh).
        rewrite <- (retry_star needle haystack p t) by lia.
        split; [by left|]. intros [H|H]; [done|].
        apply (retry_rest _ _ p t) in H as (k & _ & _ & Hg); [|done].
        rewrite (drop_S needle star p Ec) in Hg. rewrite <- drop_drop in Hg. by apply glob_star_drop in Hg.
    + assert (Hno : ~ glob (c :: drop (S p) needle) (h :: drop (S t) haystack)).
      { intros H. inversion H; congruence. }
      destruct ls as [s|]; [by apply (Hback s)|].
      eexists. split; [reflexivity|]. split; [done|]. intros [H|(? & ? & ? & _)]; done.
Qed.

Lemma glob_self t : existsb isStar t = false -> forall s, glob t s <-> s = t.
Proof.
  intros Ht s. pose proof (glob_literal t [] s Ht) as H. rewrite app_nil_r in H. rewrite H. split.
  - intros (t' & -> & Hg). inversion Hg. by rewrite app_nil_r.
  - intros ->. exists []. split; [by rewrite app_nil_r|constructor].
Qed.

Lemma existsb_take_false (f : ascii -> bool) n t : existsb f t = false -> existsb f (take n t) = false.
Proof.
  intros H. rewrite <- (take_drop n t), existsb_app in H. by apply orb_false_iff in H as [-> _].
Qed.
Lemma existsb_drop_false (f : ascii -> bool) n t : existsb f t = false -> existsb f (drop n t) = false.
Proof.
  intros H. rewrite <- (take_drop n t), existsb_app in H. by apply orb_false_iff in H as [_ ->].
Qed.

Lemma genericMatch_correct needle haystack :
  existsb isStar haystack = false -> genericMatch needle haystack = true <-> glob needle haystack.
Proof.
  intros Hs. destruct (matchLoop_correct needle haystack (matchFuel needle haystack) Hs 0 0 None 0) as (r & Er & Hr).
  - split; [lia|]. split; [lia|done].
  - unfold matchMeasure, matchFuel. lia.
  - unfold genericMatch. rewrite Er. rewrite !drop_0 in Hr. destruct r as [pos|].
    + rewrite Hr. split; [|by left]. intros [H|(? & ? & ? & _)]; done.
    + split; [done|]. intros H. exfalso. apply Hr. by left.
Qed.

Lemma trailingMatch_sound needle haystack :
  existsb isStar haystack = false -> trailingMatch needle haystack = true -> glob needle haystack.
Proof.
  unfold trailingMatch. intros Hs. destruct (last needle) as [c|] eqn:El; [|done].
  intros [->%isStar_true H%bool_decide_eq_true]%andb_true_iff.
  apply last_Some in El as [l ->]. rewrite removelast_last, length_app in H. cbn [length] in H.
  replace (length l + 1 - 1)%nat with (length l) in H by lia.
  apply glob_literal; [rewrite H; by apply existsb_take_false|].
  exists (drop (length l) haystack). split; [by rewrite H at 1; rewrite take_drop|].
  apply glob_star. exists (length (drop (length l) haystack)). split; [done|]. rewrite drop_all. constructor.
Qed.

Lemma leadingMatch_sound needle haystack :
  existsb isStar haystack = false -> size haystack <= npos ->
  (head needle = Some star -> size needle - 1 <= size haystack) ->
  exists b, leadingMatch needle haystack = Ok b /\ (b = true -> glob needle haystack).
Proof.
  intros Hs Hsz Hc. unfold leadingMatch. destruct needle as [|c rest]; [by exists false|].
  destruct (isStar c) eqn:E; [|by exists false]. apply isStar_true in E as ->.
  specialize (Hc eq_refl). unfold size in *. cbn [length] in *.
  rewrite wrap_small by (unfold in_range, npos in *; lia).
  rewrite substr_eq. unfold size. cbn [length].
  destruct (Z.ltb_spec (Z.of_nat (length haystack)) (Z.of_nat (length haystack) - (Z.of_nat (S (length rest)) - 1))); [lia|].
  cbn [mbind result_bind]. eexists. split; [reflexivity|]. intros H1%bool_decide_eq_true.
  rewrite (take_ge (drop _ _)) in H1 by (unfold npos in *; rewrite length_drop; lia).
  apply glob_star. eexists. split; [|rewrite <- H1; apply glob_self; [|reflexivity]; rewrite H1; by apply existsb_drop_false].
  lia.
Qed.

(** On a name without literal stars, [wildCardMatch] decides exactly
    whether the (non-empty) pattern matches, a star standing for any sequence,
    and reports priority 0 exactly for "no match"; the only restriction is
    that a pattern starting with a star is at most one character longer than
    the name (see [leading_star_too_long] for what happens otherwise). *)
Theorem wildCardMatch_spec needle haystack :
  needle <> [] -> existsb isStar haystack = false -> size haystack <= npos ->
  (head needle = Some star -> size needle - 1 <= size haystack) ->
  ((wildCardMatch needle haystack).1 = true <-> glob needle haystack) /\
  ((wildCardMatch needle haystack).2 = 0 <-> ~ glob needle haystack).
Proof.
  intros Hne Hs Hsz Hlead.
  enough (exists b p, wildCardMatch needle haystack = (b, p) /\ (b = true <-> glob needle haystack) /\ (p = 0 <-> b = false)) as
    (b & p & -> & Hb & Hp).
  { cbn. split; [done|]. rewrite <- Hb, not_true_iff_false. done. }
  unfold wildCardMatch, wildCardMatchBody. rewrite bool_decide_false by done.
  case_bool_decide as H1.
  { exists true, 5. split; [done|]. split; [|done]. split; [|done]. intros _. subst.
    apply glob_star. exists (length haystack). split; [done|]. rewrite drop_all. constructor. }
  case_bool_decide as H2.
  { exists true, 1. split; [done|]. split; [|done]. split; [|done]. intros _. subst. by apply glob_self. }
  destruct (existsb isStar needle) eqn:Ex; cbn [negb].
  2:{ exists false, 0. split; [done|]. split; [|done]. split; [done|]. by intros ->%(glob_self _ Ex). }
  destruct (trailingMatch needle haystack) eqn:Et.
  { exists true, 2. split; [done|]. split; [|done]. split; [|done]. intros _. by apply trailingMatch_sound. }
  destruct (leadingMatch_sound needle haystack Hs Hsz Hlead) as (b & -> & Hb). cbn [mbind result_bind].
  destruct b; [exists true, 3; split; [done|]; split; [|done]; split; [|done]; auto|].
  pose proof (genericMatch_correct needle haystack Hs) as Hg.
  destruct (genericMatch needle haystack); [exists true, 4|exists false, 0]; (split; [done|]; split; [|done]); done.
Qed.

Lemma wildCardMatch_spec_witness :
  ((wildCardMatch (txt "a*_ea*") (txt "adc_east")).1 = true <-> glob (txt "a*_ea*") (txt "adc_east")) /\
  ((wildCardMatch (txt "a*_ea*") (txt "adc_east")).2 = 0 <-> ~ glob (txt "a*_ea*") (txt "adc_east")).
Proof. apply wildCardMatch_spec; [done|reflexivity|vm_compute; congruence|by intros [=]]. Defined.

(** A pattern that starts with a star and is longer than that makes
    [haystack.substr] throw, so a name the pattern matches is not found. *)
Lemma leading_star_too_long :
  wildCardMatch (txt "*a*b") (txt "ab") = (false, 0) /\ glob (txt "*a*b") (txt "ab").
Proof.
  split; [reflexivity|]. change (txt "*a*b") with [star; chr 97; star; chr 98]. change (txt "ab") with [chr 97; chr 98].
  apply glob_skip, glob_char; [done|]. apply glob_skip, glob_char; [done|]. constructor.
Qed.

(** ** URI components *)

Definition percent : ascii := chr 37.

(** The value of one hexadecimal digit, as the source computes it from a
    (signed) character. *)
Definition nibble (c : ascii) : Z := if 57 <? schar c then schar c - 55 else schar c - 48.

(** [None]: the text ends inside an escape, and reading past the terminating
    NUL is undefined. *)
Fixpoint decodeURIComponent (data : text) : option text :=
  match data with
  | [] => Some []
  | c :: rest =>
      if (c =? percent)%char then
        match rest with
        | hi :: lo :: rest' => cons (chr (nibble hi * 16 + nibble lo)) <$> decodeURIComponent rest'
        | [hi] => Some [chr (nibble hi * 16 + nibble (chr 0))] (* data[size] is NUL *)
        | [] => None
        end
      else cons c <$> decodeURIComponent rest
  end.

Definition hexDigit (d : Z) : ascii := if d <? 10 then chr (48 + d) else chr (55 + d).
(** [sprintf("%%%2.2X", (uint8_t)c)] *)
Definition hexEscape (c : ascii) : text := [percent; hexDigit (code c / 16); hexDigit (code c mod 16)].

Definition encodeURIComponent (sourceStr : text) : text :=
  flat_map (fun c => if is_lower c || is_upper c || is_digit c then [c] else hexEscape c) sourceStr.

Lemma nibble_hexDigit d : 0 <= d < 16 -> nibble (hexDigit d) = d.
Proof.
  intros Hd. assert (d = 0 \/ d = 1 \/ d = 2 \/ d = 3 \/ d = 4 \/ d = 5 \/ d = 6 \/ d = 7 \/ d = 8 \/ d = 9 \/
    d = 10 \/ d = 11 \/ d = 12 \/ d = 13 \/ d = 14 \/ d = 15) as H by lia.
  by repeat (destruct H as [->|H]; [reflexivity|]); subst.
Qed.

Lemma decode_hexEscape c rest :
  decodeURIComponent (hexEscape c ++ rest) = cons c <$> decodeURIComponent rest.
Proof.
  pose proof (code_range c) as Hc. unfold in_range in Hc. change (2 ^ 8) with 256 in Hc.
  cbn [hexEscape app decodeURIComponent]. rewrite Ascii.eqb_refl.
  rewrite !nibble_hexDigit by first [apply Z.mod_pos_bound; lia | split; [apply Z.div_pos; lia|apply Z.div_lt_upper_bound; lia]].
  replace (code c / 16 * 16 + code c mod 16) with (code c) by (rewrite Z.mul_comm; apply Z.div_mod; lia).
  by rewrite chr_code.
Qed.

(** Decoding an encoded URI component gives the original bytes back. *)
Theorem decode_encode_URIComponent s : decodeURIComponent (encodeURIComponent s) = Some s.
Proof.
  induction s as [|c s IH]; [done|]. cbn [encodeURIComponent flat_map].
  destruct (is_lower c || is_upper c || is_digit c) eqn:E.
  - cbn [app decodeURIComponent]. destruct (Ascii.eqb_spec c percent) as [->|]; [vm_compute in E; done|].
    unfold encodeURIComponent in IH. by rewrite IH.
  - rewrite decode_hexEscape. unfold encodeURIComponent in IH. by rewrite IH.
Qed.

(** An encoded text has no commas and semicolons. *)
Lemma encoded_clean d x : (d = chr 44 \/ d = chr 59) -> forallb (fun c => negb (c =? d)%char) (encodeURIComponent x) = true.
Proof.
  intros Hd. unfold encodeURIComponent. induction x as [|c x IH]; [done|]. cbn [flat_map]. rewrite forallb_app, IH, andb_true_r.
  assert (Hall : forallb (fun k => (let e := (let c := chr (Z.of_nat k) in if is_lower c || is_upper c || is_digit c then [c] else hexEscape c) in
    forallb (fun c => negb (c =? chr 44)%char && negb (c =? chr 59)%char) e)) (seq 0 256) = true) by by vm_compute.
  rewrite forallb_forall in Hall. specialize (Hall (Z.to_nat (code c))). pose proof (code_range c) as Hr. unfold in_range in Hr. change (2 ^ 8) with 256 in Hr.
  rewrite Z2Nat.id, chr_code in Hall by lia. cbn zeta in Hall. specialize (Hall ltac:(apply in_seq; lia)).
  rewrite forallb_forall in Hall |- *. intros e He. apply Hall in He. rewrite andb_true_iff in He. by destruct He as [H1 H2], Hd as [-> | ->].
Qed.

(** ** sanitizeForSQL *)

Definition quote : ascii := chr 39.
Definition backslash : ascii := chr 92.

Definition replacement (c : ascii) : option text :=
  if (c =? quote)%char then Some [quote; quote]
  else if (c =? backslash)%char then Some [backslash; backslash]
  else None.

(** The loop, which edits [str] in place; every iteration moves past one
    character of the original. *)
Fixpoint sanitizeLoop (fuel : nat) (str : text) (pos : nat) : text :=
  match fuel with
  | O => str
  | S fuel =>
      match str !! pos with
      | None => str
      | Some c =>
          match replacement c with
          | Some r => sanitizeLoop fuel (take pos str ++ r ++ drop (S pos) str) (pos + length r)
          | None => sanitizeLoop fuel str (S pos)
          end
      end
  end.
Definition sanitizeForSQL (str : text) : text := sanitizeLoop (S (length str)) str 0.

(** A quoted SQL literal, after its opening quote: the contents and what
    follows the closing quote. *)
Fixpoint sqlLiteral (s : text) : option (text * text) :=
  match s with
  | [] => None
  | c :: s' =>
      if (c =? backslash)%char then
        match s' with
        | d :: s'' => prod_map (cons d) id <$> sqlLiteral s''
        | [] => None
        end
      else if (c =? quote)%char then
        match s' with
        | d :: s'' => if (d =? quote)%char then prod_map (cons quote) id <$> sqlLiteral s'' else Some ([], s')
        | [] => Some ([], [])
        end
      else prod_map (cons c) id <$> sqlLiteral s'
  end.

Lemma sanitizeLoop_flat_map fuel pre s :
  (length s < fuel)%nat ->
  sanitizeLoop fuel (pre ++ s) (length pre) = pre ++ flat_map (fun c => default [c] (replacement c)) s.
Proof.
  revert pre s. induction fuel as [|fuel IH]; intros pre s Hf; [lia|]. cbn [sanitizeLoop].
  destruct s as [|c s].
  - rewrite lookup_ge_None_2 by (rewrite length_app; cbn; lia). done.
  - rewrite lookup_app_r, Nat.sub_diag by lia. cbn [lookup list_lookup flat_map].
    destruct (replacement c) as [r|]; cbn [default from_option id].
    + rewrite take_app_length. replace (drop (S (length pre)) (pre ++ c :: s)) with s.
      2:{ rewrite drop_app_ge by lia. by replace (S (length pre) - length pre)%nat with 1%nat by lia. }
      rewrite app_assoc, <- length_app, IH by (cbn in Hf; lia). by rewrite <- app_assoc.
    + replace (pre ++ c :: s) with ((pre ++ [c]) ++ s) by (by rewrite <- app_assoc).
      replace (S (length pre)) with (length (pre ++ [c])) by (rewrite length_app; cbn; lia).
      rewrite IH by (cbn in Hf; lia). by rewrite <- app_assoc.
Qed.

Lemma sanitizeForSQL_flat_map s : sanitizeForSQL s = flat_map (fun c => default [c] (replacement c)) s.
Proof. apply (sanitizeLoop_flat_map _ []). lia. Qed.

(** No injection: a sanitized value placed between single quotes is read
    back as exactly the original value, and the literal ends at the closing
    quote the caller wrote, whatever the value contains. *)
Theorem sanitizeForSQL_literal (s rest : text) :
  head rest <> Some quote ->
  sqlLiteral (sanitizeForSQL s ++ quote :: rest) = Some (s, rest).
Proof.
  intros Hrest. rewrite sanitizeForSQL_flat_map. induction s as [|c s IH].
  - cbn. destruct rest as [|d rest]; [done|]. destruct (Ascii.eqb_spec d quote) as [->|]; done.
  - cbn [flat_map]. unfold replacement at 1. destruct (Ascii.eqb_spec c quote) as [->|Hq];
      [|destruct (Ascii.eqb_spec c backslash) as [->|Hb]]; cbn [default from_option id app].
    + cbn [sqlLiteral]. change ((quote =? backslash)%char) with false. rewrite Ascii.eqb_refl. cbv iota.
      by rewrite IH.
    + cbn [sqlLiteral]. rewrite Ascii.eqb_refl. by rewrite IH.
    + cbn [sqlLiteral]. destruct (Ascii.eqb_spec c backslash); [done|]. destruct (Ascii.eqb_spec c quote); [done|].
      by rewrite IH.
Qed.

Lemma sanitizeForSQL_literal_witness :
  sqlLiteral (sanitizeForSQL (txt "x'; DROP TABLE t; --\") ++ quote :: txt ")") = Some (txt "x'; DROP TABLE t; --\", txt ")").
Proof. apply sanitizeForSQL_literal. by intros [=]. Defined.

(** ** JSON string entities *)

Definition newline : ascii := chr 10.
Definition tab : ascii := chr 9.
Definition carriageReturn : ascii := chr 13.
Definition doubleQuote : ascii := chr 34.

Definition escapeJSONChar (c : ascii) : text :=
  if (c =? newline)%char then [backslash; chr 110]
  else if (c =? doubleQuote)%char then [backslash; doubleQuote]
  else if (c =? tab)%char then [backslash; chr 116]
  else if (c =? carriageReturn)%char then [backslash; chr 114]
  else if (c =? backslash)%char then [backslash; backslash]
  else [c].
Definition escapeJSONStringEntities (str : text) : text := flat_map escapeJSONChar str.

(** What a backslash followed by [d] stands for. *)
Definition restoreJSONChar (d : ascii) : option ascii :=
  if (d =? chr 110)%char then Some newline
  else if (d =? doubleQuote)%char then Some doubleQuote
  else if (d =? chr 116)%char then Some tab
  else if (d =? chr 114)%char then Some carriageReturn
  else if (d =? backslash)%char then Some backslash
  else None.

Fixpoint restoreJSONStringEntities (str : text) : text :=
  match str with
  | [] => []
  | c :: s =>
      match s with
      | [] => [c] (* the last character can't escape anything *)
      | d :: s' =>
          if (c =? backslash)%char then
            match restoreJSONChar d with
            | Some e => e :: restoreJSONStringEntities s'
            | None => c :: restoreJSONStringEntities s
            end
          else c :: restoreJSONStringEntities s
      end
  end.

Lemma restore_plain c s :
  c <> backslash -> restoreJSONStringEntities (c :: s) = c :: restoreJSONStringEntities s.
Proof. intros Hc. destruct s as [|d s]; [done|]. cbn. by destruct (Ascii.eqb_spec c backslash). Qed.

Lemma restore_pair d e s :
  restoreJSONChar d = Some e ->
  restoreJSONStringEntities (backslash :: d :: s) = e :: restoreJSONStringEntities s.
Proof. intros Hd. cbn [restoreJSONStringEntities]. by rewrite Ascii.eqb_refl, Hd. Qed.

(** [restoreJSONStringEntities] undoes [escapeJSONStringEntities] on every
    string. *)
Theorem restore_escape_JSON s : restoreJSONStringEntities (escapeJSONStringEntities s) = s.
Proof.
  induction s as [|c s IH]; [done|]. cbn [escapeJSONStringEntities flat_map]. unfold escapeJSONStringEntities in IH.
  unfold escapeJSONChar at 1.
  destruct (Ascii.eqb_spec c newline) as [->|]; [rewrite <- IH at 2; by apply restore_pair|].
  destruct (Ascii.eqb_spec c doubleQuote) as [->|]; [rewrite <- IH at 2; by apply restore_pair|].
  destruct (Ascii.eqb_spec c tab) as [->|]; [rewrite <- IH at 2; by apply restore_pair|].
  destruct (Ascii.eqb_spec c carriageReturn) as [->|]; [rewrite <- IH at 2; by apply restore_pair|].
  destruct (Ascii.eqb_spec c backslash) as [->|]; [rewrite <- IH at 2; by apply restore_pair|].
  cbn [app]. by rewrite restore_plain, IH.
Qed.

(** ** trim *)

Definition trim (s : text) : text := rev (skip_space (rev (skip_space s))).

(** ** escapeString

    The loop edits [inString] in place; [ws] is [None] for [(unsigned)-1].  The
    branch for [char(161)]..[char(255)] is not reached: those characters are
    negative and the guard [inString[i] < 32] removes them first. *)

(** [n] characters at [i] replaced by [r]. *)
Definition splice (str : text) (i n : nat) (r : text) : text := take i str ++ r ++ drop (i + n) str.

(** The guard of "remove new lines and unprintable characters". *)
Definition unprintable (c : ascii) : bool :=
  (c =? carriageReturn)%char || (c =? newline)%char || (c =? tab)%char || (schar c <? 32)
  || ((126 <? schar c) && (schar c <? -95)).

Definition isEndash (str : text) (i : nat) : bool :=
  bool_decide (take 3 (drop i str) = [chr 226; chr 128; chr 147]).

(** The number of backslashes right before position [i]. *)
Fixpoint backslashCount (str : text) (i : nat) : nat :=
  match i with
  | S j => if bool_decide (str !! j = Some backslash) then S (backslashCount str j) else O
  | O => O
  end.

Definition space : ascii := chr 32.
Definition ampersand : ascii := chr 38.
Definition lessThan : ascii := chr 60.
Definition greaterThan : ascii := chr 62.

Section EscapeString.
Variables (allowWhiteSpace forHtml : bool).

(** One iteration: the edited string, the next [i] and [ws]. *)
Definition escapeUnprintable (str : text) (i : nat) (ws : option nat) (c : ascii) : text * nat * option nat :=
  if isEndash str i then (splice str i 3 (txt "&#8211;"), i + 7, Some (i + 7))%nat
  else if (c =? newline)%char then
    if allowWhiteSpace then (splice str i 1 (txt "&#010;"), i + 6, ws)%nat
    else (splice str i 1 [space], S i, ws)
  else if (c =? tab)%char then
    if allowWhiteSpace then (splice str i 1 (txt "&#009;"), i + 6, ws)%nat
    else (splice str i 1 [space], S i, ws)
  else (splice str i 1 [], i, ws).

Definition escapeQuote (str : text) (i : nat) (c : ascii) : text * nat * option nat :=
  let '(str, i) := if Nat.odd (backslashCount str i) then (splice str (i - 1) 1 [], i - 1)%nat else (str, i) in
  (splice str i 1 (if (c =? quote)%char then txt "&apos;" else txt "&quot;"), i + 6, Some (i + 5))%nat.

Definition escapeStep (str : text) (i : nat) (ws : option nat) (c : ascii) : text * nat * option nat :=
  if (c =? space)%char then
    if allowWhiteSpace then
      if (match ws with None => i =? 0 | Some w => i =? S w end)%nat then (str, S i, ws)
      else (splice str i 1 (txt "&#160;"), i + 6, ws)%nat
    else (str, S i, ws)
  else if unprintable c then escapeUnprintable str i ws c
  else if (c =? doubleQuote)%char || (c =? quote)%char then escapeQuote str i c
  else if (c =? ampersand)%char then (splice str i 1 (txt "&amp;"), i + 5, Some (i + 4))%nat
  else if (c =? lessThan)%char then
    if forHtml then (splice str i 1 (txt "&amp;lt;"), i + 8, Some (i + 7))%nat
    else (splice str i 1 (txt "&lt;"), i + 4, Some (i + 3))%nat
  else if (c =? greaterThan)%char then
    if forHtml then (splice str i 1 (txt "&amp;gt;"), i + 8, Some (i + 7))%nat
    else (splice str i 1 (txt "&gt;"), i + 4, Some (i + 3))%nat
  else (str, S i, Some i).

Fixpoint escapeLoop (fuel : nat) (str : text) (i : nat) (ws : option nat) : option (text * option nat) :=
  match str !! i with
  | None => Some (str, ws)
  | Some c =>
      match fuel with
      | O => None
      | S fuel => let '(str, i, ws) := escapeStep str i ws c in escapeLoop fuel str i ws
      end
  end.

(** Every iteration leaves fewer characters to look at. *)
Definition escapeString (inString : text) : option text :=
  '(str, ws) ← escapeLoop (length inString) inString 0 None;
  Some (if allowWhiteSpace then str
        else match ws with None => [] | Some w => take (S w) str end).

(** Characters that can appear in an XML attribute or text node as they are. *)
Definition xmlSafe (c : ascii) : Prop :=
  32 <= schar c /\ c <> quote /\ c <> doubleQuote /\ c <> lessThan /\ c <> greaterThan.

#[local] Instance xmlSafe_dec c : Decision (xmlSafe c).
Proof. unfold xmlSafe. apply _. Defined.

(** What every iteration guarantees: what lies before [i] is safe, and fewer
    characters remain after it. *)
Definition escapeProgress (str : text) (i : nat) (str' : text) (i' : nat) : Prop :=
  (i' <= length str')%nat /\ Forall xmlSafe (take i' str') /\ (length str' - i' < length str - i)%nat.

Lemma splice_progress str i n r :
  (i + n <= length str)%nat -> (1 <= n)%nat -> Forall xmlSafe (take i str) -> Forall xmlSafe r ->
  escapeProgress str i (splice str i n r) (i + length r).
Proof.
  intros Hi Hn Hs Hr. unfold splice.
  assert (length (take i str) = i) as Hl by (rewrite length_take; lia).
  split; [rewrite !length_app; lia|]. split.
  - rewrite app_assoc. replace (i + length r)%nat with (length (take i str ++ r)) by (rewrite length_app; lia).
    rewrite take_app_length. by apply Forall_app.
  - rewrite !length_app, length_drop. lia.
Qed.

Lemma keep_progress str i c :
  str !! i = Some c -> Forall xmlSafe (take i str) -> xmlSafe c -> escapeProgress str i str (S i).
Proof.
  intros Hc Hs Hsafe. apply lookup_lt_Some in Hc as Hlt. split; [lia|]. split; [|lia].
  rewrite (take_S_r str i c) by done. apply Forall_app. split; [done|]. by constructor.
Qed.

Ltac xml_safe := repeat constructor; (vm_compute; congruence).

Lemma escapeUnprintable_progress str i ws c str' i' ws' :
  str !! i = Some c -> Forall xmlSafe (take i str) ->
  escapeUnprintable str i ws c = (str', i', ws') -> escapeProgress str i str' i'.
Proof.
  intros Hc Hs. apply lookup_lt_Some in Hc as Hlt. unfold escapeUnprintable.
  destruct (isEndash str i) eqn:E.
  { apply bool_decide_eq_true in E. assert (Hl := f_equal length E). rewrite length_take, length_drop in Hl. cbn [length] in Hl.
    intros [= <- <- <-]. apply (splice_progress _ _ 3); [lia|lia|done|xml_safe]. }
  assert (Hr : forall r, Forall xmlSafe r -> escapeProgress str i (splice str i 1 r) (i + length r)).
  { intros r Hr. apply splice_progress; [lia|lia|done|done]. }
  assert (Hsp : escapeProgress str i (splice str i 1 [space]) (S i)).
  { pose proof (Hr [space] ltac:(xml_safe)) as Hone. by rewrite Nat.add_1_r in Hone. }
  destruct ((c =? newline)%char); [|destruct ((c =? tab)%char)].
  - destruct allowWhiteSpace; intros [= <- <- <-]; [apply (Hr (txt "&#010;")); xml_safe|done].
  - destruct allowWhiteSpace; intros [= <- <- <-]; [apply (Hr (txt "&#009;")); xml_safe|done].
  - intros [= <- <- <-]. pose proof (Hr [] ltac:(constructor)) as Hnone. by rewrite Nat.add_0_r in Hnone.
Qed.

Lemma escapeQuote_progress str i c str' i' ws' :
  str !! i = Some c -> Forall xmlSafe (take i str) ->
  escapeQuote str i c = (str', i', ws') -> escapeProgress str i str' i'.
Proof.
  intros Hc Hs. apply lookup_lt_Some in Hc as Hlt. unfold escapeQuote.
  assert (Hq : forall s j, (j < length s)%nat -> Forall xmlSafe (take j s) ->
    escapeProgress s j (splice s j 1 (if (c =? quote)%char then txt "&apos;" else txt "&quot;")) (j + 6)).
  { intros s j Hj Hs'. destruct ((c =? quote)%char);
      [apply (splice_progress s j 1 (txt "&apos;"))|apply (splice_progress s j 1 (txt "&quot;"))];
      try done; try lia; xml_safe. }
  destruct (Nat.odd (backslashCount str i)) eqn:Eodd; intros [= <- <- <-]; [|by apply Hq].
  destruct i as [|j]; [done|]. cbn [Nat.sub]. rewrite Nat.sub_0_r.
  assert (Hlen : length (splice str j 1 []) = (length str - 1)%nat).
  { unfold splice. rewrite !length_app, length_take, length_drop. cbn. lia. }
  assert (Htake : take j (splice str j 1 []) = take j str).
  { unfold splice. rewrite take_app_le by (rewrite length_take; lia). by rewrite take_take, Nat.min_id. }
  assert (Hs' : Forall xmlSafe (take j (splice str j 1 []))).
  { rewrite Htake. destruct (lookup_lt_is_Some_2 str j) as [d Hd]; [lia|].
    rewrite (take_S_r str j d Hd) in Hs. by apply Forall_app in Hs as [Hs _]. }
  assert (Hj : (j < length (splice str j 1 []))%nat) by (rewrite Hlen; lia).
  destruct (Hq _ _ Hj Hs') as (H1 & H2 & H3).
  split; [done|]. split; [done|]. rewrite Hlen in H3. eapply Nat.lt_le_trans; [exact H3|lia].
Qed.

Lemma escapeStep_progress str i ws c str' i' ws' :
  str !! i = Some c -> Forall xmlSafe (take i str) ->
  escapeStep str i ws c = (str', i', ws') -> escapeProgress str i str' i'.
Proof.
  intros Hc Hs. apply lookup_lt_Some in Hc as Hlt. unfold escapeStep.
  assert (Hr : forall r, Forall xmlSafe r -> escapeProgress str i (splice str i 1 r) (i + length r)).
  { intros r Hr. apply splice_progress; [lia|lia|done|done]. }
  destruct (Ascii.eqb_spec c space) as [->|Hsp].
  { assert (escapeProgress str i str (S i)) by (apply (keep_progress _ _ space); [done|done|xml_safe]).
    destruct allowWhiteSpace; [destruct (match ws with None => _ | Some _ => _ end)|]; intros [= <- <- <-];
      [done| |done]. apply (Hr (txt "&#160;")). xml_safe. }
  destruct (unprintable c) eqn:Eu; [by apply escapeUnprintable_progress|].
  destruct ((c =? doubleQuote)%char || (c =? quote)%char) eqn:Eq; [by apply escapeQuote_progress|].
  destruct (Ascii.eqb_spec c ampersand); [intros [= <- <- <-]; apply (Hr (txt "&amp;")); xml_safe|].
  destruct (Ascii.eqb_spec c lessThan).
  { destruct forHtml; intros [= <- <- <-]; [apply (Hr (txt "&amp;lt;"))|apply (Hr (txt "&lt;"))]; xml_safe. }
  destruct (Ascii.eqb_spec c greaterThan).
  { destruct forHtml; intros [= <- <- <-]; [apply (Hr (txt "&amp;gt;"))|apply (Hr (txt "&gt;"))]; xml_safe. }
  intros [= <- <- <-]. apply (keep_progress _ _ c); [done|done|].
  apply orb_false_iff in Eq as [E1 E2]. unfold unprintable in Eu. rewrite !orb_false_iff in Eu.
  destruct Eu as [[_ Eu] _]. repeat split; [lia| | |done|done]; intros ->; done.
Qed.

Lemma escapeLoop_safe fuel str i ws :
  (length str - i <= fuel)%nat -> Forall xmlSafe (take i str) ->
  exists str' ws', escapeLoop fuel str i ws = Some (str', ws') /\ Forall xmlSafe str'.
Proof.
  revert str i ws. induction fuel as [|fuel IH]; intros str i ws Hf Hs; cbn [escapeLoop].
  all: destruct (str !! i) as [c|] eqn:Ec; [|exists str, ws; split; [done|];
    apply lookup_ge_None in Ec; by rewrite take_ge in Hs].
  - apply lookup_lt_Some in Ec. lia.
  - destruct (escapeStep str i ws c) as [[str' i'] ws'] eqn:E.
    destruct (escapeStep_progress _ _ _ _ _ _ _ Ec Hs E) as (_ & Hs' & Hlt). apply IH; [lia|done].
Qed.

Lemma escapeString_total inString : exists out, escapeString inString = Some out /\ Forall xmlSafe out.
Proof.
  destruct (escapeLoop_safe (length inString) inString 0 None) as (str & ws & E & Hs); [lia|constructor|].
  unfold escapeString. rewrite E. cbn [mbind option_bind]. eexists. split; [reflexivity|].
  destruct allowWhiteSpace; [done|]. destruct ws; [|constructor]. by apply Forall_take.
Qed.

End EscapeString.

(** [escapeString] terminates on every string, in every mode, and its
    result can be put in an XML attribute or text node: no quote, no angle
    bracket, no control character and no byte above 127 is left in it. *)
Theorem escapeString_safe (allowWhiteSpace forHtml : bool) (inString : text) :
  exists out, escapeString allowWhiteSpace forHtml inString = Some out /\ Forall xmlSafe out.
Proof. apply escapeString_total. Qed.

End StringMacros.
