(* ===== verification/StringLists.v ===== *)
(** * Lists, sets, maps and numbers in strings

    The splitting, joining and numeric parts of src/otsdaq/Macros/StringMacros.cc
    and .icc. *)

From S2P Require Import Prelude CText StringMacros.

Module StringLists.

Definition mem (c : ascii) (s : list ascii) : bool := existsb (Ascii.eqb c) s.
Definition comma : ascii := chr 44.
Definition colon : ascii := chr 58.
Definition ws_default : list ascii := [chr 32; chr 9; chr 10; chr 13].

(** [inputString.substr(i, j - i)] with [i <= j <= size]. *)
Definition slice (s : text) (i j : nat) : text := take (j - i) (drop i s).

(** ** getVectorFromString *)

Section GetVector.
Variables (inputString : text) (delimiter whitespace : list ascii).

Record vectorState := mkVS {
  vs_i : nat; vs_j : nat;
  lastDelimiter : ascii;
  listToReturn : list text;
  listOfDelimiters : list ascii;
}.

(** Pushing the element [i, j), with the delimiter before it unless it is the
    first. *)
Definition vectorPush (st : vectorState) : list text * list ascii :=
  (listToReturn st ++ [slice inputString (vs_i st) (vs_j st)],
   listOfDelimiters st ++ match listToReturn st with [] => [] | _ => [lastDelimiter st] end).

Definition vectorStep (st : vectorState) (c : nat) (ch : ascii) : vectorState :=
  let isDelimiter := mem ch delimiter in
  let st' :=
    if mem ch whitespace then
      if (vs_i st =? vs_j st)%nat
      then mkVS (S (vs_i st)) (S (vs_j st)) (lastDelimiter st) (listToReturn st) (listOfDelimiters st)
      else st
    else if isDelimiter then
      let '(l, ds) := vectorPush st in mkVS (S c) (S c) (lastDelimiter st) l ds
    else mkVS (vs_i st) (S c) (lastDelimiter st) (listToReturn st) (listOfDelimiters st) in
  mkVS (vs_i st') (vs_j st') (if isDelimiter then ch else lastDelimiter st')
    (listToReturn st') (listOfDelimiters st').

Fixpoint vectorLoop (rest : text) (c : nat) (st : vectorState) : vectorState :=
  match rest with
  | [] => st
  | ch :: rest => vectorLoop rest (S c) (vectorStep st c ch)
  end.

(** The elements and the delimiters met; the exception for a mismatch of
    their numbers is kept. *)
Definition getVectorFromString : result (list text * list ascii) :=
  let st := vectorLoop inputString 0 (mkVS 0 0 (chr 0) [] []) in
  let '(l, ds) := vectorPush st in
  if negb (length l - 1 =? length ds)%nat && negb (length l =? length ds)%nat
  then Throw RuntimeError else Ok (l, ds).
End GetVector.

(** [vectorToString], [setToString], [mapToString]: elements joined with a
    delimiter (a newline delimiter also starts the text of a vector). *)
Fixpoint join (delimeter : text) (first : bool) (l : list text) : text :=
  match l with
  | [] => []
  | x :: l => (if first then [] else delimeter) ++ x ++ join delimeter false l
  end.
Definition vectorToString (l : list Z) (delimeter : text) : text :=
  (if bool_decide (delimeter = txt "
"%string) then txt "
"%string else []) ++ join delimeter true (to_string_unsigned <$> l).
Definition setToString (l : list Z) (delimeter : text) : text := join delimeter true (to_string_unsigned <$> l).
Definition mapToString (m : list (text * Z)) (primaryDelimeter secondaryDelimeter : text) : text :=
  join primaryDelimeter true ((fun p => p.1 ++ secondaryDelimeter ++ to_string_unsigned p.2) <$> m).

(** An element that survives: it has no delimiter, and no white space at its
    ends. *)
Definition trimmed (whitespace : list ascii) (e : text) : Prop :=
  match e with
  | [] => True
  | c :: _ => mem c whitespace = false /\ match last e with Some d => mem d whitespace = false | None => True end
  end.

Section VectorRoundTrip.
Variables (delimiter whitespace : list ascii).

Lemma slice_mid (pre e post : text) : slice (pre ++ e ++ post) (length pre) (length pre + length e) = e.
Proof.
  unfold slice. rewrite drop_app_length. replace (length pre + length e - length pre)%nat with (length e) by lia.
  apply take_app_length.
Qed.

(** Reading an element: [i] stays at its first character, [j] ends after its
    last one. *)
Lemma vectorLoop_element input e : forall c i j ld l ds rest,
  Forall (fun ch => mem ch delimiter = false) e ->
  (i < j)%nat -> (j <= c)%nat ->
  (forall d, last e = Some d -> mem d whitespace = false) ->
  vectorLoop input delimiter whitespace (e ++ rest) c (mkVS i j ld l ds)
  = vectorLoop input delimiter whitespace rest (c + length e)
      (mkVS i (match e with [] => j | _ => c + length e end) ld l ds).
Proof.
  induction e as [|ch e IH]; intros c i j ld l ds rest Hd Hij Hjc Hlast; [by rewrite Nat.add_0_r|].
  inversion Hd as [|? ? Hch Hd']; subst. cbn [app vectorLoop]. unfold vectorStep. rewrite Hch.
  cbn [vs_i vs_j lastDelimiter listToReturn listOfDelimiters].
  destruct (Nat.eqb_spec i j); [lia|].
  assert (Hl : forall d, last e = Some d -> mem d whitespace = false).
  { intros d E. apply Hlast. destruct e; [done|]. done. }
  destruct (mem ch whitespace) eqn:Ew; cbn [vs_i vs_j lastDelimiter listToReturn listOfDelimiters].
  - rewrite IH by (done || lia). destruct e as [|ch' e]; [by rewrite (Hlast ch eq_refl) in Ew|].
    cbn [length]. f_equal; [lia|]. f_equal. lia.
  - rewrite IH by (done || lia). cbn [length]. f_equal; [lia|]. f_equal. destruct e; cbn [length]; lia.
Qed.

Lemma vectorLoop_from_start input e c ld l ds rest :
  Forall (fun ch => mem ch delimiter = false) e -> trimmed whitespace e ->
  vectorLoop input delimiter whitespace (e ++ rest) c (mkVS c c ld l ds)
  = vectorLoop input delimiter whitespace rest (c + length e) (mkVS c (c + length e) ld l ds).
Proof.
  intros Hd Ht. destruct e as [|ch e]; [by rewrite Nat.add_0_r|].
  destruct Ht as [Hf Hl]. inversion Hd as [|? ? Hch Hd']; subst.
  cbn [app vectorLoop]. unfold vectorStep. rewrite Hch, Hf.
  cbn [vs_i vs_j lastDelimiter listToReturn listOfDelimiters].
  rewrite vectorLoop_element; [|done|lia|lia|].
  - cbn [length]. f_equal; [lia|]. f_equal. destruct e; cbn [length]; lia.
  - intros d E. destruct e as [|ch' e]; [done|].
    assert (E' : last (ch :: ch' :: e) = Some d) by exact E. by rewrite E' in Hl.
Qed.

Lemma vectorPush_eq input i j ld acc ds :
  vectorPush input (mkVS i j ld acc ds) =
    (acc ++ [slice input i j], ds ++ match acc with [] => [] | _ => [ld] end).
Proof. done. Qed.

(** The delimiters that follow the first element, and the text of a list with
    a delimiter between consecutive elements. *)
Fixpoint interleave (e : text) (l : list (ascii * text)) : text :=
  match l with
  | [] => e
  | (d, e') :: l => e ++ d :: interleave e' l
  end.

Lemma vectorLoop_list l : forall e pre ld acc ds,
  Forall (fun ch => mem ch delimiter = false) e -> trimmed whitespace e ->
  Forall (fun p => mem p.1 delimiter = true /\ mem p.1 whitespace = false /\
    Forall (fun ch => mem ch delimiter = false) p.2 /\ trimmed whitespace p.2) l ->
  let input := pre ++ interleave e l in
  let st := vectorLoop input delimiter whitespace (interleave e l) (length pre) (mkVS (length pre) (length pre) ld acc ds) in
  vectorPush input st =
    (acc ++ e :: l.*2, ds ++ match acc with [] => [] | _ => [ld] end ++ l.*1).
Proof.
  induction l as [|[d e'] l IH]; intros e pre ld acc ds Hd Ht Hl; cbn [interleave]; cbv zeta.
  - pose proof (vectorLoop_from_start (pre ++ e) e (length pre) ld acc ds [] Hd Ht) as E.
    rewrite app_nil_r in E. rewrite E.
    cbn [vectorLoop]. unfold vectorPush. cbn [vs_i vs_j lastDelimiter listToReturn listOfDelimiters fmap list_fmap].
    pose proof (slice_mid pre e []) as E'. rewrite app_nil_r in E'. rewrite E'. by rewrite app_nil_r.
  - inversion Hl as [|? ? (Hd1 & Hd2 & Hd3 & Hd4) Hl']; subst. cbn [fst snd] in *.
    rewrite vectorLoop_from_start by done. cbn [vectorLoop]. unfold vectorStep.
    rewrite Hd1, Hd2, vectorPush_eq.
    cbn [vs_i vs_j lastDelimiter listToReturn listOfDelimiters].
    rewrite slice_mid.
    specialize (IH e' (pre ++ e ++ [d]) d (acc ++ [e])
      (ds ++ match acc with [] => [] | _ => [ld] end) Hd3 Hd4 Hl').
    cbv zeta in IH. rewrite !length_app in IH. cbn [length] in IH. rewrite <- !app_assoc in IH. cbn [app] in IH.
    replace (S (length pre + length e)) with (length pre + (length e + 1))%nat by lia.
    rewrite IH. cbn [fmap list_fmap fst snd]. f_equal. f_equal. f_equal.
    by destruct acc.
Qed.

Lemma getVectorFromString_interleave e l :
  Forall (fun ch => mem ch delimiter = false) e -> trimmed whitespace e ->
  Forall (fun p => mem p.1 delimiter = true /\ mem p.1 whitespace = false /\
    Forall (fun ch => mem ch delimiter = false) p.2 /\ trimmed whitespace p.2) l ->
  getVectorFromString (interleave e l) delimiter whitespace = Ok (e :: l.*2, l.*1).
Proof.
  intros Hd Ht Hl. unfold getVectorFromString.
  pose proof (vectorLoop_list l e [] (chr 0) [] [] Hd Ht Hl) as H. cbv zeta in H. cbn [app length] in H. rewrite H.
  cbn [app length]. rewrite !length_fmap. replace (S (length l) - 1)%nat with (length l) by lia.
  by rewrite Nat.eqb_refl.
Qed.
End VectorRoundTrip.

(** Splitting a list of elements joined by delimiters gives back the
    elements and the delimiters between them, for any delimiter set, when no
    element contains a delimiter or begins or ends with white space (inner
    white space is kept). *)
Theorem getVectorFromString_roundtrip (delimiter whitespace : list ascii) (e : text) (l : list (ascii * text)) :
  Forall (fun ch => mem ch delimiter = false) e -> trimmed whitespace e ->
  Forall (fun p => mem p.1 delimiter = true /\ mem p.1 whitespace = false /\
    Forall (fun ch => mem ch delimiter = false) p.2 /\ trimmed whitespace p.2) l ->
  getVectorFromString (interleave e l) delimiter whitespace = Ok (e :: l.*2, l.*1).
Proof. apply getVectorFromString_interleave. Qed.

Lemma getVectorFromString_roundtrip_witness :
  getVectorFromString (interleave (txt "front end") [(comma, txt ""); (comma, txt "b c")]) [comma; chr 124] ws_default
  = Ok ([txt "front end"; txt ""; txt "b c"], [comma; comma]).
Proof.
  refine (getVectorFromString_roundtrip [comma; chr 124] ws_default (txt "front end") [(comma, txt ""); (comma, txt "b c")] _ _ _).
  - repeat constructor.
  - repeat constructor.
  - repeat constructor.
Defined.

(** ** getSetFromString

    A [std::set] of strings is a list without repetitions. *)

Definition emplace (s : list text) (e : text) : list text := if bool_decide (e ∈ s) then s else s ++ [e].

Section GetSet.
Variables (inputString : text) (delimiter whitespace : list ascii).

Fixpoint setLoop (rest : text) (i j : nat) (setToReturn : list text) : nat * nat * list text :=
  match rest with
  | [] => (i, j, setToReturn)
  | ch :: rest =>
      if mem ch whitespace || mem ch delimiter then
        if (i =? j)%nat then setLoop rest (S i) (S j) setToReturn
        else setLoop rest (S j) (S j) (emplace setToReturn (slice inputString i j))
      else setLoop rest i (S j) setToReturn
  end.
Definition getSetFromString (setToReturn : list text) : list text :=
  let '(i, j, setToReturn) := setLoop inputString 0 0 setToReturn in
  if (i =? j)%nat then setToReturn else emplace setToReturn (slice inputString i j).
End GetSet.

(** ** getMapFromString

    [validate] is [validateValueForDefaultStringDataType] (which expands
    environment variables and may throw), of strings or of another type [V].
    Entries are kept in the order they are emplaced; a repeated name keeps its
    first value. *)

Section GetMap.
Context {V : Type}.
Variables (validate : text -> result V).
Variables (inputString : text) (pairPairDelimiter nameValueDelimiter whitespace : list ascii).

Definition emplacePair (m : list (text * V)) (name : text) (value : V) : list (text * V) :=
  if bool_decide (name ∈ m.*1) then m else m ++ [(name, value)].

Fixpoint mapLoop (rest : text) (i j : nat) (name : text) (needValue : bool) (m : list (text * V)) :
    result (nat * nat * text * bool * list (text * V)) :=
  match rest with
  | [] => Ok (i, j, name, needValue, m)
  | ch :: rest =>
      if negb needValue then
        if (mem ch whitespace || mem ch pairPairDelimiter) && (i =? j)%nat then mapLoop rest (S i) (S j) name false m
        else if (mem ch whitespace || mem ch nameValueDelimiter) && negb (i =? j)%nat then
          mapLoop rest (S j) (S j) (slice inputString i j) true m
        else mapLoop rest i (S j) name false m
      else
        if (mem ch whitespace || mem ch nameValueDelimiter) && (i =? j)%nat then mapLoop rest (S i) (S j) name true m
        else if mem ch whitespace || mem ch pairPairDelimiter then
          value ← validate (slice inputString i j);
          mapLoop rest (S j) (S j) name false (emplacePair m name value)
        else mapLoop rest i (S j) name true m
  end.

(** A [std::runtime_error] is rethrown as one; nothing else is caught. *)
Definition getMapFromString (mapToReturn : list (text * V)) : result (list (text * V)) :=
  '(i, j, name, needValue, m) ← mapLoop inputString 0 0 [] false mapToReturn;
  if (i =? j)%nat then Ok m
  else value ← validate (slice inputString i j); Ok (emplacePair m name value).
(** The template for other value types: a last name without a value is
    dropped. *)
Definition getMapFromStringT (mapToReturn : list (text * V)) : result (list (text * V)) :=
  '(i, j, name, needValue, m) ← mapLoop inputString 0 0 [] false mapToReturn;
  if negb (needValue && negb (i =? j)%nat) then Ok m
  else value ← validate (slice inputString i j); Ok (emplacePair m name value).
End GetMap.

(** *** Reading a map back *)

Section MapRoundTrip.
Context {V : Type}.
Variables (validate : text -> result V) (pairPairDelimiter nameValueDelimiter whitespace : list ascii).
Variables (comma colon : ascii).
Hypothesis comma_delimits : mem comma pairPairDelimiter = true.
Hypothesis colon_delimits : mem colon nameValueDelimiter = true.

(** Characters that end no token. *)
Definition plainChar (c : ascii) : Prop :=
  mem c whitespace = false /\ mem c pairPairDelimiter = false /\ mem c nameValueDelimiter = false.
Definition plainToken (s : text) : Prop := s <> [] /\ Forall plainChar s.

Lemma slice_token (pre s rest : text) : slice (pre ++ s ++ rest) (length pre) (length pre + length s) = s.
Proof.
  unfold slice. rewrite drop_app_length. replace (length pre + length s - length pre)%nat with (length s) by lia. apply take_app_length.
Qed.

Lemma mapLoop_name pre name : forall done rest nm (m : list (text * V)), done ++ name <> [] -> Forall plainChar name ->
  mapLoop validate (pre ++ (done ++ name) ++ colon :: rest) pairPairDelimiter nameValueDelimiter whitespace (name ++ colon :: rest)
    (length pre) (length pre + length done) nm false m =
  mapLoop validate (pre ++ (done ++ name) ++ colon :: rest) pairPairDelimiter nameValueDelimiter whitespace rest
    (S (length pre + length (done ++ name))) (S (length pre + length (done ++ name))) (done ++ name) true m.
Proof.
  induction name as [|c name IH]; intros done rest nm m Hne Hp.
  - rewrite app_nil_r in *. cbn [app mapLoop negb]. destruct done as [|d done]; [done|].
    destruct (Nat.eqb_spec (length pre) (length pre + length (d :: done))) as [E|_]; [cbn [length] in E; lia|].
    rewrite andb_false_r, colon_delimits, orb_true_r. cbn [andb negb]. by rewrite slice_token.
  - inversion Hp as [|? ? (Hw & H1 & H2) Hp']; subst. cbn [app mapLoop negb]. rewrite Hw, H1, H2. cbn [orb andb].
    specialize (IH (done ++ [c]) rest nm m). rewrite <- !app_assoc in IH. cbn [app] in IH. rewrite length_app in IH. cbn [length] in IH.
    replace (S (length pre + length done)) with (length pre + (length done + 1))%nat by lia.
    rewrite <- !app_assoc. cbn [app]. apply IH; [by destruct done|done].
Qed.

Lemma mapLoop_value pre value : forall done rest nm (m : list (text * V)), Forall plainChar value ->
  mapLoop validate (pre ++ (done ++ value) ++ rest) pairPairDelimiter nameValueDelimiter whitespace (value ++ rest)
    (length pre) (length pre + length done) nm true m =
  mapLoop validate (pre ++ (done ++ value) ++ rest) pairPairDelimiter nameValueDelimiter whitespace rest
    (length pre) (length pre + length (done ++ value)) nm true m.
Proof.
  induction value as [|c value IH]; intros done rest nm m Hp; [by rewrite app_nil_r|].
  inversion Hp as [|? ? (Hw & H1 & H2) Hp']; subst. cbn [app mapLoop negb]. rewrite Hw, H1, H2. cbn [orb andb].
  specialize (IH (done ++ [c]) rest nm m). rewrite <- !app_assoc in IH. cbn [app] in IH. rewrite length_app in IH. cbn [length] in IH.
  replace (S (length pre + length done)) with (length pre + (length done + 1))%nat by lia.
  rewrite <- !app_assoc. cbn [app]. apply IH. done.
Qed.

(** A rendered list of names and values, after something that was read. *)
Definition renderPair (p : text * text) : text := p.1 ++ colon :: p.2.
Definition readsAs (p : text * text) (v : V) : Prop := plainToken p.1 /\ plainToken p.2 /\ validate p.2 = Ok v.

Lemma join_cons (x y : text) l : join [comma] true (x :: y :: l) = x ++ comma :: join [comma] true (y :: l).
Proof. done. Qed.

Lemma mapLoop_pairs l : forall vs pre nm m, Forall2 readsAs l vs -> l <> [] -> NoDup (m.*1 ++ l.*1) ->
  exists i j nm' v m', mapLoop validate (pre ++ join [comma] true (map renderPair l)) pairPairDelimiter nameValueDelimiter whitespace
      (join [comma] true (map renderPair l)) (length pre) (length pre) nm false m = Ok (i, j, nm', true, m') /\ i <> j /\
    validate (slice (pre ++ join [comma] true (map renderPair l)) i j) = Ok v /\ emplacePair m' nm' v = m ++ zip l.*1 vs.
Proof.
  induction l as [|[n s] l IH]; intros vs pre nm m Hvs Hne Hnd; [done|]. inversion Hvs as [|? v ? vs' (Hn & Hs & Hv) Hvs']; subst.
  cbn [fst snd] in *. clear Hne.
  assert (~ n ∈ m.*1) as Hfresh. { intros Hin. apply NoDup_app in Hnd as (_ & Hd & _). apply (Hd n Hin). left. }
  assert (emplacePair m n v = m ++ [(n, v)]) as Hem. { unfold emplacePair. by rewrite bool_decide_eq_false_2. }
  destruct l as [|y l].
  - inversion Hvs'; subst. change (join [comma] true (map renderPair [(n, s)])) with ((n ++ colon :: s) ++ []). rewrite app_nil_r.
    pose proof (mapLoop_name pre n [] s nm m) as E. cbn [app length] in E. rewrite Nat.add_0_r in E.
    rewrite E by apply Hn. clear E.
    pose proof (mapLoop_value (pre ++ n ++ [colon]) s [] [] n m) as E. cbn [app length] in E.
    rewrite !app_nil_r, !length_app, Nat.add_0_r in E. cbn [length] in E. rewrite <- !app_assoc in E. cbn [app] in E.
    replace (S (length pre + length n)) with (length pre + (length n + 1))%nat by lia. rewrite E by apply Hs. cbn [mapLoop].
    eexists _, _, _, v, _. split; [reflexivity|]. split; [destruct Hs as [Hs _]; destruct s; [done|cbn [length]; lia]|]. split; [|done].
    pose proof (slice_token (pre ++ n ++ [colon]) s []) as Es. rewrite !app_nil_r, !length_app in Es. cbn [length] in Es.
    rewrite <- !app_assoc in Es. cbn [app] in Es. by rewrite Es.
  - change (map renderPair ((n, s) :: y :: l)) with (renderPair (n, s) :: renderPair y :: map renderPair l). rewrite join_cons.
    change (renderPair y :: map renderPair l) with (map renderPair (y :: l)).
    set (rest := join [comma] true (map renderPair (y :: l))). unfold renderPair at 1 2 3. cbn [fst snd]. rewrite <- !app_assoc. cbn [app].
    pose proof (mapLoop_name pre n [] (s ++ comma :: rest) nm m) as E. cbn [app length] in E. rewrite Nat.add_0_r in E.
    rewrite E by apply Hn. clear E.
    pose proof (mapLoop_value (pre ++ n ++ [colon]) s [] (comma :: rest) n m) as E. cbn [app length] in E.
    rewrite !length_app, Nat.add_0_r in E. cbn [length] in E. rewrite <- !app_assoc in E. cbn [app] in E.
    replace (S (length pre + length n)) with (length pre + (length n + 1))%nat by lia. rewrite E by apply Hs. clear E. cbn [mapLoop negb].
    destruct (Nat.eqb_spec (length pre + (length n + 1)) (length pre + (length n + 1) + length s)) as [E|_].
    { destruct Hs as [Hs _]. destruct s; [done|]. cbn [length] in E. lia. }
    rewrite andb_false_r, comma_delimits, orb_true_r.
    pose proof (slice_token (pre ++ n ++ [colon]) s (comma :: rest)) as Es. rewrite !length_app in Es. cbn [length] in Es.
    rewrite <- !app_assoc in Es. cbn [app] in Es. rewrite Es, Hv. clear Es. cbn [mbind result_bind]. rewrite Hem.
    destruct (IH vs' (pre ++ n ++ colon :: s ++ [comma]) n (m ++ [(n, v)]) Hvs') as (i & j & nm' & v' & m' & E & Hij & Hval & Hm'); [done| |].
    { by rewrite fmap_app, <- app_assoc. }
    fold rest in E, Hval. rewrite !length_app in E. cbn [length] in E. rewrite !length_app in E. cbn [length] in E.
    rewrite <- !app_assoc in E, Hval. cbn [app] in E, Hval. rewrite <- !app_assoc in E, Hval. cbn [app] in E, Hval.
    exists i, j, nm', v', m'. replace (S (length pre + (length n + 1) + length s)) with (length pre + (length n + S (length s + 1)))%nat by lia.
    split_and!; [exact E|exact Hij|exact Hval|]. rewrite Hm', <- app_assoc. done.
Qed.

(** What was printed as a map is read as that map. *)
Lemma getMapFromStringT_join l vs : Forall2 readsAs l vs -> NoDup l.*1 ->
  getMapFromStringT validate (join [comma] true (map renderPair l)) pairPairDelimiter nameValueDelimiter whitespace [] = Ok (zip l.*1 vs).
Proof.
  intros Hvs Hnd. unfold getMapFromStringT. destruct (decide (l = [])) as [->|Hne]; [done|].
  destruct (mapLoop_pairs l vs [] [] [] Hvs Hne Hnd) as (i & j & nm' & v & m' & E & Hij & Hval & Hm').
  cbn [app length] in E, Hval, Hm'. rewrite E. cbn [mbind result_bind]. destruct (Nat.eqb_spec i j); [done|]. cbn [negb andb].
  rewrite Hval. cbn [mbind result_bind]. by rewrite Hm'.
Qed.
End MapRoundTrip.

(** ** splitMacroArgTriple *)

(** [rfind(delimiter, pos)]: the last occurrence at or before [pos]. *)
Fixpoint rfindAt (d : ascii) (s : text) (pos : nat) : option nat :=
  if bool_decide (s !! pos = Some d) then Some pos
  else match pos with O => None | S pos => rfindAt d s pos end.

Definition trimBlank (s : text) : text :=
  let fix skip (s : text) := match s with c :: s' => if mem c ws_default then skip s' else s | [] => [] end in
  rev (skip (rev (skip s))).

Definition splitMacroArgTriple (inputString : text) (delimiter : ascii) : option (text * text * text) :=
  match rfindAt delimiter inputString (length inputString - 1) with
  | None | Some O => None
  | Some stepPos =>
      initPos ← rfindAt delimiter inputString (stepPos - 1);
      let name := trimBlank (take initPos inputString) in
      if bool_decide (name = []) then None
      else Some (name, trimBlank (slice inputString (S initPos) stepPos), trimBlank (drop (S stepPos) inputString))
  end.

(** ** Numbers *)

Definition plus : ascii := chr 43.
Definition minus : ascii := chr 45.
Definition times : ascii := chr 42.
Definition divide : ascii := chr 47.
Definition operators : list ascii := [plus; minus; times; divide].
Definition dot : ascii := chr 46.

Definition isHexDigit (c : ascii) : bool := is_digit c || between 65 70 c || between 97 102 c.
Definition isBinaryDigit (c : ascii) : bool := between 48 49 c.
Definition isDecimalChar (c : ascii) : bool := is_digit c || (c =? dot)%char || (c =? plus)%char || (c =? minus)%char.

Inductive literal := Hexadecimal | Binary | Decimal.
(** The three forms the source tells apart, and whether the characters fit. *)
Definition literalForm (number : text) : literal :=
  if starts_with (txt "0x") number then Hexadecimal
  else match number with c :: _ => if (c =? chr 98)%char then Binary else Decimal | [] => Decimal end.
Definition validLiteral (number : text) : bool :=
  match literalForm number with
  | Hexadecimal => forallb isHexDigit (drop 2 number)
  | Binary => forallb isBinaryDigit (drop 1 number)
  | Decimal => forallb isDecimalChar number
  end.

Definition splitNumbers (s : text) : result (list text * list ascii) :=
  getVectorFromString s operators ws_default.

Definition isNumber (s : text) : result bool :=
  if bool_decide (s = []) then Ok false
  else '(numbers, _) ← splitNumbers s;
       Ok (forallb (fun number => bool_decide (number = []) || validLiteral number) numbers).

Fixpoint numberTypeLoop (numbers : list text) (hasDecimal : bool) : text :=
  match numbers with
  | [] => if hasDecimal then txt "double" else txt "unsigned long long"
  | number :: numbers =>
      if bool_decide (number = []) then numberTypeLoop numbers hasDecimal
      else if negb (validLiteral number) then txt "nan"
      else numberTypeLoop numbers (hasDecimal || match literalForm number with Decimal => mem dot number | _ => false end)
  end.
Definition getNumberType (s : text) : result text :=
  '(numbers, _) ← splitNumbers s; Ok (numberTypeLoop numbers false).

(** [getNumber(s, bool&)] *)
Definition getNumberBool (s : text) : option bool :=
  if bool_decide (s = []) then None
  else if mem (chr 49) s || bool_decide (s = txt "true") || bool_decide (s = txt "True") || bool_decide (s = txt "TRUE") then Some true
  else if mem (chr 48) s || bool_decide (s = txt "false") || bool_decide (s = txt "False") || bool_decide (s = txt "FALSE") then Some false
  else None.

(** [strtol]: an optional sign, then the digits of [base], saturating at the
    bounds of a 64-bit [long]. *)
Definition digitValue (c : ascii) : Z :=
  if is_digit c then code c - 48
  else if is_upper c then code c - 55
  else if is_lower c then code c - 87
  else 99.
Fixpoint readBase (base : Z) (s : text) (acc : Z) : Z :=
  match s with
  | c :: s' => if digitValue c <? base then readBase base s' (acc * base + digitValue c) else acc
  | [] => acc
  end.
Definition strtol (s : text) (base : Z) : Z :=
  let s := skip_space s in
  let '(neg, s) := match s with
                   | c :: s' => if (c =? minus)%char then (true, s') else if (c =? plus)%char then (false, s') else (false, s)
                   | [] => (false, [])
                   end in
  let s := if (base =? 16) && starts_with (txt "0x") s then drop 2 s else s in
  let v := readBase base s 0 in
  Z.min (2 ^ 63 - 1) (Z.max (- 2 ^ 63) (if neg : bool then - v else v)).

(** *** getNumber for an integer type

    [norm] brings a mathematical result into the type: [None] is undefined
    behaviour (signed overflow); the unsigned instance wraps. *)
Section GetNumber.
Variable norm : Z -> option Z.

(** Folding unary operators into the token that follows an empty token. *)
Fixpoint unaryLoop (numbers : list text) (previousEmpty : bool) (ops : list ascii)
    (processedNumbers : list text) (processedOps : list ascii) : list text * list ascii :=
  match numbers with
  | [] => (processedNumbers, processedOps)
  | [] :: numbers => unaryLoop numbers true ops processedNumbers processedOps
  | number :: numbers =>
      let '(number, ops) :=
        match ops with
        | unaryOp :: ops' => if previousEmpty then ((if (unaryOp =? minus)%char then minus :: number else number), ops') else (number, ops)
        | [] => (number, ops)
        end in
      match numbers, ops with
      | _ :: _, op :: ops => unaryLoop numbers false ops (processedNumbers ++ [number]) (processedOps ++ [op])
      | _, _ => unaryLoop numbers false ops (processedNumbers ++ [number]) processedOps
      end
  end.

Definition leadingUnary (numbers : list text) (ops : list ascii) (processedNumbers : list text) : list text :=
  match numbers, ops, processedNumbers with
  | [] :: _, op :: _, (c :: n) :: rest =>
      if (op =? minus)%char && negb (c =? minus)%char then (minus :: c :: n) :: rest else processedNumbers
  | _, _, _ => processedNumbers
  end.

Definition literalValue (number : text) : Z :=
  match literalForm number with
  | Decimal => strtol number 10
  | Hexadecimal => if (2 <? length number)%nat then strtol number 16 else strtol number 10
  | Binary => if (1 <? length number)%nat then strtol (drop 1 number) 2 else strtol number 10
  end.

Definition applyOp (op : ascii) (a b : Z) : option Z :=
  if (op =? plus)%char then norm (a + b)
  else if (op =? minus)%char then norm (a - b)
  else if (op =? times)%char then norm (a * b)
  else if b =? 0 then None else norm (Z.quot a b).

(** The result: whether the string was a number, and [retValue].  Reading
    [ops] past its end is undefined. *)
Fixpoint evalLoop (numbers : list text) (ops : list ascii) (first : bool) (retValue : Z) : option (bool * Z) :=
  match numbers with
  | [] => Some (true, retValue)
  | number :: numbers =>
      if bool_decide (number = []) then evalLoop numbers ops first retValue
      else if negb (validLiteral number) then Some (false, retValue)
      else
        tmpValue ← norm (literalValue number);
        if first then evalLoop numbers ops false tmpValue
        else
          match ops with
          | [] => None
          | op :: ops => retValue ← applyOp op retValue tmpValue; evalLoop numbers ops false retValue
          end
  end.

Definition getNumber (s : text) : result (option (bool * Z)) :=
  '(numbers, ops) ← splitNumbers s;
  let '(processedNumbers, processedOps) := unaryLoop numbers false ops [] [] in
  Ok (evalLoop (leadingUnary numbers ops processedNumbers) processedOps true 0).
End GetNumber.

Definition getNumber_uint : text -> result (option (bool * Z)) := getNumber (fun z => Some (u32 z)).
Definition getNumber_int64 : text -> result (option (bool * Z)) :=
  getNumber (fun z => if (- 2 ^ 63 <=? z) && (z <? 2 ^ 63) then Some z else None).

(** ** getTimeDurationString, for a non-negative time *)

(** [std::setw(2) << std::setfill('0')] *)
Definition twoDigits (n : Z) : text :=
  let s := to_string_signed n in if (length s <? 2)%nat then chr 48 :: s else s.
Definition getTimeDurationString (t : Z) : text :=
  let days := s32 (Z.quot (Z.quot (Z.quot t 60) 60) 24) in
  let '(prefix, t) :=
    if 0 <? days
    then (to_string_signed days ++ txt " day" ++ (if 1 <? days then txt "s" else []) ++ txt ", ", t - s32 (s32 (s32 (days * 60) * 60) * 24))
    else ([], t) in
  prefix ++ twoDigits (Z.quot (Z.quot t 60) 60) ++ [colon] ++ twoDigits (Z.quot (Z.rem t (60 * 60)) 60) ++ [colon]
    ++ twoDigits (Z.rem t 60).

(** ** Decimal expressions *)

Definition allDigits (s : text) : Prop := s <> [] /\ Forall (fun c => is_digit c = true) s.

Lemma decimal_allDigits n : 0 <= n -> allDigits (to_string_unsigned n).
Proof.
  intros Hn. split; [|by apply to_string_unsigned_digits].
  destruct (to_string_unsigned_cons n Hn) as (c & s & -> & _). done.
Qed.

Lemma digit_not c k : is_digit c = true -> (k < 48 \/ 57 < k) -> in_range 8 k -> (c =? chr k)%char = false.
Proof.
  intros Hc%is_digit_code Hk Hr. rewrite code_eqb, code_chr, wrap_small by done. apply Z.eqb_neq. lia.
Qed.

Lemma digit_not_mem c l :
  is_digit c = true -> Forall (fun d => exists k, d = chr k /\ (k < 48 \/ 57 < k) /\ in_range 8 k) l -> mem c l = false.
Proof.
  intros Hc. induction 1 as [|d l (k & -> & Hk & Hr) _ IH]; [done|]. cbn [mem existsb].
  rewrite digit_not by done. exact IH.
Qed.

Ltac not_digits := repeat (constructor; [eexists; split; [reflexivity|split; [lia|unfold in_range; lia]]|]); constructor.

Lemma digit_not_operator c : is_digit c = true -> mem c operators = false.
Proof. intros Hc. apply digit_not_mem; [done|]. not_digits. Qed.
Lemma digit_not_blank c : is_digit c = true -> mem c ws_default = false.
Proof. intros Hc. apply digit_not_mem; [done|]. not_digits. Qed.

Lemma allDigits_element s :
  allDigits s -> Forall (fun ch => mem ch operators = false) s /\ trimmed ws_default s.
Proof.
  intros [Hne Hd]. split; [eapply Forall_impl; [exact Hd|]; apply digit_not_operator|].
  destruct s as [|c s]; [done|]. split; [apply digit_not_blank; by inversion Hd|].
  destruct (last (c :: s)) as [d|] eqn:E; [|done]. apply digit_not_blank.
  rewrite Forall_forall in Hd. apply Hd. apply last_Some in E as [l ->]. set_solver.
Qed.

Lemma allDigits_decimal s : allDigits s -> literalForm s = Decimal.
Proof.
  intros [Hne Hd]. unfold literalForm. destruct s as [|c s]; [done|]. inversion Hd as [|? ? Hc Hd']; subst.
  assert (starts_with (txt "0x") (c :: s) = false) as ->.
  { cbn [txt String.list_ascii_of_string starts_with]. destruct s as [|d s]; [by rewrite andb_false_r|].
    inversion Hd' as [|? ? Hd1 _]; subst. change ("x"%char) with (chr 120). rewrite (Ascii.eqb_sym (chr 120)).
    rewrite (digit_not d 120) by (done || lia || (unfold in_range; lia)). by rewrite andb_false_r. }
  by rewrite (digit_not c 98) by (done || lia || (unfold in_range; lia)).
Qed.

Lemma allDigits_valid s : allDigits s -> validLiteral s = true.
Proof.
  intros Hs. unfold validLiteral. rewrite allDigits_decimal by done. apply forallb_forall.
  intros c Hc%list_elem_of_In. destruct Hs as [_ Hd]. rewrite Forall_forall in Hd.
  unfold isDecimalChar. by rewrite (Hd c Hc).
Qed.

Lemma readBase_digits s acc : Forall (fun c => is_digit c = true) s -> readBase 10 s acc = read_digits s acc.
Proof.
  intros Hd. revert acc. induction Hd as [|c s Hc _ IH]; intros acc; [done|]. cbn [readBase read_digits].
  unfold digitValue. rewrite Hc. pose proof (is_digit_code c Hc). destruct (Z.ltb_spec (code c - 48) 10); [apply IH|lia].
Qed.

Lemma strtol_decimal n : 0 <= n < 2 ^ 63 -> strtol (to_string_unsigned n) 10 = n.
Proof.
  intros Hn. pose proof (to_string_unsigned_digits n ltac:(lia)) as Hd.
  pose proof (read_digits_to_string n ltac:(lia)) as Hv.
  destruct (to_string_unsigned_cons n ltac:(lia)) as (c & s & E & Hc). rewrite E in *.
  unfold strtol, minus, plus. rewrite skip_space_digit by done.
  rewrite (digit_not c 45), (digit_not c 43) by (done || lia || (unfold in_range; lia)).
  change ((10 =? 16) && starts_with (txt "0x") (c :: s)) with false. cbv iota.
  rewrite readBase_digits, Hv by done. lia.
Qed.

Section Expression.
Variable norm : Z -> option Z.
Variable bound : Z.
Hypothesis bound_long : bound <= 2 ^ 63.
Hypothesis norm_small : forall n, 0 <= n < bound -> norm n = Some n.

(** The value of [a op1 b1 op2 b2 ...], strictly from left to right. *)
Fixpoint evalLeft (a : Z) (l : list (ascii * Z)) : option Z :=
  match l with
  | [] => Some a
  | (op, b) :: l => a ← applyOp norm op a b; evalLeft a l
  end.

Lemma unaryLoop_plain l : forall e ps pops,
  e <> [] -> Forall (fun p : ascii * text => p.2 <> []) l ->
  unaryLoop (e :: l.*2) false l.*1 ps pops = (ps ++ e :: l.*2, pops ++ l.*1).
Proof.
  induction l as [|[d e'] l IH]; intros e ps pops He Hl.
  - cbn. destruct e; [done|]. by rewrite app_nil_r.
  - inversion Hl as [|? ? He' Hl']; subst. cbn [fst snd] in *.
    destruct e as [|c e]; [done|]. cbn [fmap list_fmap fst snd unaryLoop].
    specialize (IH e' (ps ++ [c :: e]) (pops ++ [d]) He' Hl'). cbn [unaryLoop] in IH. rewrite IH.
    rewrite <- !app_assoc. done.
Qed.

Lemma evalLoop_decimal l : forall a,
  Forall (fun p => 0 <= p.2 < bound) l ->
  evalLoop norm ((fun p => to_string_unsigned p.2) <$> l) l.*1 false a
  = (fun v => (true, v)) <$> evalLeft a l.
Proof.
  induction l as [|[op b] l IH]; intros a Hl; [done|]. inversion Hl as [|? ? Hb Hl']; subst. cbn [fst snd] in *.
  cbn [fmap list_fmap evalLoop evalLeft fst snd].
  pose proof (decimal_allDigits b ltac:(lia)) as Hd.
  rewrite bool_decide_false by apply Hd. rewrite allDigits_valid by done. cbn [negb].
  unfold literalValue. rewrite allDigits_decimal, strtol_decimal, norm_small by (done || lia).
  cbn [mbind option_bind]. destruct (applyOp norm op a b) as [v|]; cbn [mbind option_bind]; [|done].
  by apply IH.
Qed.

Lemma getNumber_decimal_expression n l :
  0 <= n < bound -> Forall (fun p => p.1 ∈ operators /\ 0 <= p.2 < bound) l ->
  getNumber norm (interleave (to_string_unsigned n) (prod_map id to_string_unsigned <$> l))
  = Ok ((fun v => (true, v)) <$> evalLeft n l).
Proof.
  intros Hn Hl. unfold getNumber, splitNumbers.
  pose proof (decimal_allDigits n ltac:(lia)) as Hd. destruct (allDigits_element _ Hd) as [H1 H2].
  rewrite getVectorFromString_interleave; [|done|done|].
  2:{ apply Forall_fmap. eapply Forall_impl; [exact Hl|]. intros [op b] [Hop Hb]. cbn [fst snd prod_map id] in *.
      destruct (allDigits_element _ (decimal_allDigits b ltac:(lia))) as [H3 H4].
      unfold operators in Hop. rewrite !elem_of_cons, elem_of_nil in Hop.
      destruct Hop as [->|[->|[->|[->|[]]]]]; done. }
  cbn [mbind result_bind]. rewrite unaryLoop_plain; [|apply Hd|].
  2:{ apply Forall_fmap. eapply Forall_impl; [exact Hl|]. intros [op b] [_ Hb].
      apply (decimal_allDigits b). cbn in *. lia. }
  cbn [app]. assert (leadingUnary (to_string_unsigned n :: (prod_map id to_string_unsigned <$> l).*2)
    (prod_map id to_string_unsigned <$> l).*1 (to_string_unsigned n :: (prod_map id to_string_unsigned <$> l).*2)
    = to_string_unsigned n :: (prod_map id to_string_unsigned <$> l).*2) as ->.
  { unfold leadingUnary. destruct (to_string_unsigned n); [by destruct Hd|done]. }
  cbn [evalLoop]. rewrite bool_decide_false by apply Hd. rewrite allDigits_valid by done. cbn [negb].
  unfold literalValue. rewrite allDigits_decimal, strtol_decimal, norm_small by (done || lia).
  cbn [mbind option_bind]. rewrite <- !list_fmap_compose.
  f_equal. apply evalLoop_decimal. eapply Forall_impl; [exact Hl|]. by intros p [_ ?].
Qed.
End Expression.

(** A decimal expression is a number, and its value is computed strictly
    from left to right (so ["2+3*4"] is 20), in unsigned 32-bit arithmetic; it
    is undefined exactly when a divisor is zero.  In particular every unsigned
    value written by [std::to_string] is read back. *)
Theorem getNumber_uint_expression (n : Z) (l : list (ascii * Z)) :
  0 <= n < 2 ^ 32 -> Forall (fun p => p.1 ∈ operators /\ 0 <= p.2 < 2 ^ 32) l ->
  getNumber_uint (interleave (to_string_unsigned n) (prod_map id to_string_unsigned <$> l))
  = Ok ((fun v => (true, v)) <$> evalLeft (fun z => Some (u32 z)) n l).
Proof. apply getNumber_decimal_expression; [done|]. intros z Hz. f_equal. by apply wrap_small. Qed.

Lemma getNumber_uint_expression_witness :
  getNumber_uint (interleave (to_string_unsigned 2) (prod_map id to_string_unsigned <$> [(plus, 3); (times, 4)]))
  = Ok ((fun v => (true, v)) <$> evalLeft (fun z => Some (u32 z)) 2 [(plus, 3); (times, 4)]).
Proof.
  apply getNumber_uint_expression; [lia|].
  repeat constructor; cbn; try lia; unfold operators; set_solver.
Defined.

Example expression_text :
  interleave (to_string_unsigned 2) (prod_map id to_string_unsigned <$> [(plus, 3); (times, 4)]) = txt "2+3*4".
Proof. reflexivity. Qed.
Example expression_value : getNumber_uint (txt "2+3*4") = Ok (Some (true, 20)).
Proof. reflexivity. Qed.

Lemma getNumber_uint_decimal n : 0 <= n < 2 ^ 32 -> getNumber_uint (to_string_unsigned n) = Ok (Some (true, n)).
Proof.
  intros Hn. apply (getNumber_decimal_expression (fun z => Some (u32 z)) (2 ^ 32)) with (l := []); [done| |done|constructor].
  intros z Hz. f_equal. by apply wrap_small.
Qed.
Lemma getNumber_u8_decimal n : 0 <= n < 2 ^ 8 -> getNumber (fun z => Some (u8 z)) (to_string_unsigned n) = Ok (Some (true, n)).
Proof.
  intros Hn. apply (getNumber_decimal_expression (fun z => Some (u8 z)) (2 ^ 8)) with (l := []); [done| |done|constructor].
  intros z Hz. f_equal. by apply wrap_small.
Qed.

(** *** Hexadecimal literals *)

Lemma isHexDigit_code c : isHexDigit c = true -> 48 <= code c <= 57 \/ 65 <= code c <= 70 \/ 97 <= code c <= 102.
Proof. unfold isHexDigit, is_digit, between. rewrite !orb_true_iff, !andb_true_iff, !Z.leb_le. lia. Qed.
Lemma hexDigit_not_mem c l : isHexDigit c = true ->
  Forall (fun d => exists k, d = chr k /\ (k < 48 \/ 102 < k) /\ in_range 8 k) l -> mem c l = false.
Proof.
  intros Hc%isHexDigit_code. induction 1 as [|d l (k & -> & Hk & Hr) _ IH]; [done|]. cbn [mem existsb].
  assert ((c =? chr k)%char = false) as ->; [|exact IH]. rewrite code_eqb, code_chr, wrap_small by done. apply Z.eqb_neq. lia.
Qed.
Lemma hexLiteral_element s : Forall (fun c => isHexDigit c = true) s ->
  Forall (fun ch => mem ch operators = false) (txt "0x" ++ s) /\ trimmed ws_default (txt "0x" ++ s).
Proof.
  intros Hs. assert (Hb : forall c, isHexDigit c = true -> mem c ws_default = false) by (intros c Hc; apply hexDigit_not_mem; [done|not_digits]). split.
  - constructor; [done|]. constructor; [done|]. eapply Forall_impl; [exact Hs|]. intros c Hc. apply hexDigit_not_mem; [done|not_digits].
  - split; [done|]. change (match last (txt "0x" ++ s) with Some d => mem d ws_default = false | None => True end).
    rewrite last_app. destruct (last s) as [d|] eqn:E; [|done]. apply Hb. rewrite Forall_forall in Hs. apply Hs. apply last_Some in E as [l ->]. set_solver.
Qed.
Lemma getNumber_hexadecimal norm s : s <> [] -> Forall (fun c => isHexDigit c = true) s ->
  0 <= readBase 16 s 0 < 2 ^ 63 -> norm (readBase 16 s 0) = Some (readBase 16 s 0) ->
  getNumber norm (txt "0x" ++ s) = Ok (Some (true, readBase 16 s 0)).
Proof.
  intros Hne Hs Hr Hn. destruct (hexLiteral_element s Hs) as [H1 H2]. unfold getNumber, splitNumbers.
  pose proof (getVectorFromString_interleave operators ws_default (txt "0x" ++ s) [] H1 H2 (Forall_nil_2 _)) as E.
  cbn [interleave fmap list_fmap] in E. rewrite ?app_nil_r in E. rewrite E. cbn [mbind result_bind].
  change (unaryLoop [txt "0x" ++ s] false [] [] []) with ([txt "0x" ++ s], @nil ascii). cbv iota beta.
  assert (leadingUnary [txt "0x" ++ s] (@nil ascii) [txt "0x" ++ s] = [txt "0x" ++ s]) as -> by done.
  cbn [evalLoop]. rewrite bool_decide_false by done.
  assert (Hform : literalForm (txt "0x" ++ s) = Hexadecimal) by (unfold literalForm; by destruct s).
  assert (validLiteral (txt "0x" ++ s) = true) as ->.
  { unfold validLiteral. rewrite Hform. apply forallb_forall. intros c Hc%list_elem_of_In. rewrite Forall_forall in Hs. by apply Hs. }
  cbn [negb]. assert (literalValue (txt "0x" ++ s) = readBase 16 s 0) as ->; [|rewrite Hn; done].
  unfold literalValue. rewrite Hform, length_app. destruct s as [|c s]; [done|]. change (2 <? length (txt "0x") + length (c :: s))%nat with true. cbv iota.
  change (strtol (txt "0x" ++ c :: s) 16) with (Z.min (2 ^ 63 - 1) (Z.max (- 2 ^ 63) (readBase 16 (c :: s) 0))). lia.
Qed.
(** A literal of 2^63 or more is read with [strtol] and ends at its bound, also
    for an unsigned type. *)
Lemma large_literal_saturates : getNumber (fun z => Some (u64 z)) (txt "0xFFFFFFFFFFFFFFFF") = Ok (Some (true, 2 ^ 63 - 1)).
Proof. by vm_compute. Qed.

(** [isNumber] and [getNumber] disagree on a negative hexadecimal literal: the
    sign is folded into the token, which is then no longer hexadecimal. *)
Lemma negative_hex_disagrees :
  isNumber (txt "-0x1F") = Ok true /\ getNumber_uint (txt "-0x1F") = Ok (Some (false, 0)).
Proof. split; reflexivity. Qed.

End StringLists.
