(* ===== verification/BinaryStrings.v ===== *)
(** * Values in byte buffers

    src/otsdaq/Macros/BinaryStringMacros.cc and .icc: hexadecimal printing of
    buffers, and insertion and extraction of values at a bit position.  A
    buffer is a list of bytes (integers in [0, 256)); a value of an integer
    type is its little-endian bytes.  A read outside the memory a pointer may
    address is [Throw Undefined]. *)

From S2P Require Import Prelude CText Network StringMacros StringLists.

Module BinaryStringMacros.

(** ** Hexadecimal printing *)

(** [sprintf("%02X", (unsigned char)b)] *)
Definition hexByte (b : Z) : text := [StringMacros.hexDigit (u8 b / 16); StringMacros.hexDigit (u8 b mod 16)].

Fixpoint hexLoop (resultDelimiter : text) (first : bool) (l : bytes) : text :=
  match l with
  | [] => []
  | b :: l => (if first then [] else resultDelimiter) ++ hexByte b ++ hexLoop resultDelimiter false l
  end.

(** [mem] is the memory behind the pointer. *)
Definition binaryStringToHexString (mem : bytes) (numberOfBytes : nat) (resultPreamble resultDelimiter : text)
    : result text :=
  if bool_decide (numberOfBytes <= length mem)%nat
  then Ok (resultPreamble ++ hexLoop resultDelimiter true (take numberOfBytes mem))
  else Throw Undefined.

Definition readByte (mem : bytes) (i : Z) : result Z :=
  if i <? 0 then Throw Undefined
  else match mem !! Z.to_nat i with Some b => Ok b | None => Throw Undefined end.

(** The inner loop over one group of eight, whose index is
    [7 - k + j * 8]. *)
Fixpoint wordLoop (mem : bytes) (j : Z) (ks : list Z) (dest : text) : result text :=
  match ks with
  | [] => Ok dest
  | k :: ks => b ← readByte mem (7 - k + j * 8); wordLoop mem j ks (dest ++ hexByte b)
  end.

(** The loop over the whole groups, [j] stepping by eight. *)
Fixpoint groupLoop (fuel : nat) (mem : bytes) (numberOfBytes : Z) (resultDelimiter : text) (j : Z) (dest : text)
    : result (Z * text) :=
  match fuel with
  | O => Ok (j, dest)
  | S fuel =>
      if j + 8 <? numberOfBytes then
        let dest := if j =? 0 then dest else dest ++ resultDelimiter in
        dest ← wordLoop mem j (seqZ 0 8) dest;
        groupLoop fuel mem numberOfBytes resultDelimiter (j + 8) dest
      else Ok (j, dest)
  end.

(** The rest, from byte [k] down to byte [j]. *)
Fixpoint tailLoop (fuel : nat) (mem : bytes) (j k : Z) (dest : text) : result text :=
  match fuel with
  | O => Ok dest
  | S fuel =>
      if j <=? k then
        b ← readByte mem k;
        let dest := dest ++ hexByte b in
        if k =? 0 then Ok dest else tailLoop fuel mem j (k - 1) dest
      else Ok dest
  end.

Definition binaryNumberToHexString (mem : bytes) (numberOfBytes : Z) (resultPreamble resultDelimiter : text)
    : result text :=
  '(j, dest) ← groupLoop (Z.to_nat numberOfBytes) mem numberOfBytes resultDelimiter 0 resultPreamble;
  tailLoop (S (Z.to_nat (u32 (numberOfBytes - 1)))) mem j (u32 (numberOfBytes - 1)) dest.

(** The overload for a string, and the one for a value of type [T]. *)
Definition binaryNumberToHexString_string (binaryBuffer : bytes) : text -> text -> result text :=
  binaryNumberToHexString (binaryBuffer ++ [0]) (Z.of_nat (length binaryBuffer)).

(** ** Insertion *)

(** [resize]: cut or filled with NULs. *)
Definition resize (s : bytes) (n : nat) : bytes := take n s ++ replicate (n - length s) 0.

(** The shift case: [v] is the value's bytes. *)
Definition mixByte (keepMask old new bitIndex : Z) : Z := u8 (Z.lor (Z.land old keepMask) (Z.shiftl new bitIndex)).

(** [value] is the bytes of the value, least significant first. *)
Definition insertValue (binaryBuffer value : bytes) (bitIndex : Z) : bytes :=
  let byteIndex := Z.to_nat (bitIndex / 8) in
  let bitIndex := bitIndex mod 8 in
  let size := length value in
  let b := resize binaryBuffer (byteIndex + size + (if bitIndex =? 0 then 0 else 1)) in
  if bitIndex =? 0 then take byteIndex b ++ value
  else
    let keepMask := Z.shiftr 255 bitIndex in
    let at_ (l : bytes) i := nth i l 0 in
    let first := mixByte keepMask (at_ b byteIndex) (at_ value 0%nat) bitIndex in
    let middle := (fun i => mixByte keepMask (at_ value (i - 1)%nat) (at_ value i) bitIndex) <$> seq 1 (size - 1) in
    let last := mixByte keepMask (at_ value (size - 1)%nat) (at_ b (byteIndex + size)%nat) bitIndex in
    take byteIndex b ++ first :: middle ++ [last].

(** The bytes of an [unsigned long long]. *)
Definition bytesOf (n : nat) (v : Z) : bytes := (fun i => byte_of v (Z.of_nat i)) <$> seq 0 n.

(** [getNumber<unsigned long long>], which the overload for a string uses. *)
Definition getNumber_uint64 : text -> result (option (bool * Z)) := StringLists.getNumber (fun z => Some (u64 z)).

(** [insertValueInBinaryString(std::string&, const std::string&)]; [insertDouble] is the floating-point
    instance, which is not modelled further. *)
Definition insertValueInBinaryString (insertDouble : bytes -> text -> Z -> result bytes)
    (binaryBuffer : bytes) (value : text) (bitIndex : Z) : result bytes :=
  dataType ← StringLists.getNumberType value;
  if bool_decide (dataType = txt "nan") then Throw RuntimeError
  else if bool_decide (dataType = txt "double") then insertDouble binaryBuffer value bitIndex
  else
    v ← getNumber_uint64 value;
    match v with
    | None => Throw Undefined
    | Some (false, _) => Throw RuntimeError
    | Some (true, v) => Ok (insertValue binaryBuffer (bytesOf 8 v) bitIndex)
    end.

(** ** Extraction *)

Definition writeByte (value : bytes) (i : nat) (b : Z) : result bytes :=
  if bool_decide (i < length value)%nat then Ok (<[i := b]> value) else Throw Undefined.

Definition extractByte (mem : bytes) (byteOffset bitOffset : Z) : result Z :=
  lo ← readByte mem byteOffset;
  let b := u8 (Z.shiftr lo bitOffset) in
  if bitOffset =? 0 then Ok b
  else
    hi ← readByte mem (byteOffset + 1);
    Ok (u8 (Z.lor b (Z.shiftl hi (8 - bitOffset)))).

Fixpoint extractLoop (fuel : nat) (mem : bytes) (bitOffset byteOffset bitsLeft : Z) (value : bytes) (valuei : nat)
    : result bytes :=
  match fuel with
  | O => Ok value
  | S fuel =>
      if bitsLeft =? 0 then Ok value
      else
        b ← extractByte mem byteOffset bitOffset;
        if 7 <? bitsLeft then
          value ← writeByte value valuei b;
          extractLoop fuel mem bitOffset (byteOffset + 1) (bitsLeft - 8) value (S valuei)
        else writeByte value valuei (Z.land b (Z.shiftr 255 (8 - bitsLeft)))
  end.

(** The function on raw memory: [mem] behind [binaryBufferVoid], [value] behind
    [valueVoid]. *)
Definition extractValue (mem : bytes) (bufferNumberOfBytes : Z) (value : bytes) (valueNumberOfBits bitIndex : Z)
    : result bytes :=
  if valueNumberOfBits =? 0 then Throw RuntimeError
  else if u32 (bufferNumberOfBytes * 8) <? u32 (bitIndex + valueNumberOfBits) then Throw RuntimeError
  else extractLoop (S (Z.to_nat valueNumberOfBits)) mem (bitIndex mod 8) (bitIndex / 8) valueNumberOfBits value 0.

(** The overload for strings: the memory of a [std::string] ends with a NUL. *)
Definition extractValueFromBinaryString (binaryBuffer value : bytes) (valueNumberOfBits bitIndex : Z) : result bytes :=
  let value := resize value (Z.to_nat (valueNumberOfBits / 8 + (if valueNumberOfBits mod 8 =? 0 then 0 else 1))) in
  extractValue (binaryBuffer ++ [0]) (Z.of_nat (length binaryBuffer)) value valueNumberOfBits bitIndex.

(** ** Extraction is a bit slice *)

(** The number a buffer holds, least significant byte first. *)
Fixpoint number (l : bytes) : Z :=
  match l with [] => 0 | b :: l => b + 256 * number l end.

Lemma number_range l : is_bytes l -> 0 <= number l < 2 ^ (8 * Z.of_nat (length l)).
Proof.
  induction 1 as [|b l Hb _ IH]; cbn [number length].
  - change (2 ^ (8 * Z.of_nat 0)) with 1. lia.
  - unfold in_range in Hb. change (2 ^ 8) with 256 in Hb.
    replace (8 * Z.of_nat (S (length l))) with (8 + 8 * Z.of_nat (length l)) by lia.
    rewrite Z.pow_add_r by lia. change (2 ^ 8) with 256. nia.
Qed.

(** Byte [k] of the number, and the number from a byte on. *)
Lemma number_drop l k : is_bytes l -> number l / 2 ^ (8 * Z.of_nat k) = number (drop k l).
Proof.
  intros Hl. revert k. induction Hl as [|b l Hb Hl IH]; intros [|k]; cbn [drop number].
  - apply Z.div_0_l. lia.
  - apply Z.div_0_l, Z.pow_nonzero; lia.
  - apply Z.div_1_r.
  - unfold in_range in Hb. change (2 ^ 8) with 256 in Hb. rewrite <- IH.
    replace (8 * Z.of_nat (S k)) with (8 + 8 * Z.of_nat k) by lia.
    rewrite Z.pow_add_r by lia. change (2 ^ 8) with 256.
    rewrite <- Z.div_div by lia. f_equal. Z.div_mod_to_equations. lia.
Qed.

Lemma number_byte l k b : is_bytes l -> l !! k = Some b ->
  number (drop k l) = b + 256 * number (drop (S k) l) /\ in_range 8 b.
Proof.
  intros Hl Hk. rewrite (drop_S l b k Hk). split; [done|]. eapply Forall_lookup_1; eassumption.
Qed.

Lemma readByte_ok l k b : l !! k = Some b -> readByte l (Z.of_nat k) = Ok b.
Proof.
  intros H. unfold readByte. destruct (Z.ltb_spec (Z.of_nat k) 0); [lia|]. by rewrite Nat2Z.id, H.
Qed.

Lemma add_lor w a b : in_range w a -> 0 <= w -> a + 2 ^ w * b = Z.lor a (Z.shiftl b w).
Proof.
  intros Ha Hw. rewrite Z.mul_comm, <- Z.shiftl_mul_pow2 by lia. rewrite Z.add_nocarry_lxor, Z.lxor_lor; [done| |].
  all: bitwise i Hi; destruct (Z.ltb_spec i w);
    [by rewrite (Z.testbit_neg_r b), !andb_false_r by lia | by rewrite (testbit_range w a) by done].
Qed.

(** One byte of the slice. *)
Lemma extractByte_slice mem (k : nat) o : is_bytes mem -> 0 <= o < 8 ->
  (k < length mem)%nat -> (o = 0 \/ (S k < length mem)%nat) ->
  extractByte mem (Z.of_nat k) o = Ok ((number mem / 2 ^ (8 * Z.of_nat k + o)) mod 256).
Proof.
  intros Hm Ho Hk Hnext. unfold extractByte.
  destruct (lookup_lt_is_Some_2 mem k Hk) as [lo Hlo].
  rewrite (readByte_ok _ _ _ Hlo). cbn [mbind result_bind].
  destruct (number_byte _ _ _ Hm Hlo) as [Hn Hlr].
  rewrite Z.pow_add_r, <- Z.div_div, number_drop, Hn by (lia || done).
  destruct (Z.eqb_spec o 0) as [->|Hne].
  - unfold in_range in Hlr. change (2 ^ 8) with 256 in Hlr.
    rewrite Z.shiftr_0_r. unfold wrap. change (2 ^ 8) with 256. f_equal. change (2 ^ 0) with 1.
    rewrite Z.div_1_r. Z.div_mod_to_equations. lia.
  - destruct (lookup_lt_is_Some_2 mem (S k)) as [hi Hhi]; [lia|].
    replace (Z.of_nat k + 1) with (Z.of_nat (S k)) by lia. rewrite (readByte_ok _ _ _ Hhi). cbn [mbind result_bind].
    destruct (number_byte _ _ _ Hm Hhi) as [Hn' Hhr]. rewrite Hn'. set (N := number (drop (S (S k)) mem)).
    f_equal. change 256 with (2 ^ 8). rewrite !add_lor by (done || lia). rewrite <- Z.shiftr_div_pow2 by lia.
    fold (wrap 8 (Z.shiftr (Z.lor lo (Z.shiftl (Z.lor hi (Z.shiftl N 8)) 8)) o)).
    bitwise i Hi.
    assert (forall x, in_range 8 x -> forall j, 8 <= j -> Z.testbit x j = false) as HH
      by (intros; by eapply testbit_range).
    destruct (Z.ltb_spec i 8); [cbn [andb]|done].
    replace (i - (8 - o)) with (i + o - 8) by lia.
    destruct (Z.ltb_spec (i + o) 8).
    + rewrite (Z.testbit_neg_r hi) by lia. rewrite (Z.testbit_neg_r N) by lia. bool_cmp; lia || by rewrite ?andb_false_r, ?orb_false_r.
    + rewrite (Z.testbit_neg_r N) by lia. rewrite (HH lo) by done. bool_cmp; lia || by rewrite ?andb_false_r, ?orb_false_r.
Qed.

Lemma mod_mod_pow x n m : 0 <= n <= m -> (x mod 2 ^ m) mod 2 ^ n = x mod 2 ^ n.
Proof.
  intros H. rewrite <- !Z.land_ones by lia. apply Z.bits_inj'. intros i Hi.
  rewrite !Z.land_spec, !testbit_ones by lia. bool_cmp; cbn; lia || by rewrite ?andb_false_r, ?andb_true_r.
Qed.

Lemma keep_mask b n : 0 < n <= 7 -> Z.land b (Z.shiftr 255 (8 - n)) = b mod 2 ^ n.
Proof.
  intros H. assert (Z.shiftr 255 (8 - n) = Z.ones n) as ->; [|by apply Z.land_ones; lia].
  assert (n = 1 \/ n = 2 \/ n = 3 \/ n = 4 \/ n = 5 \/ n = 6 \/ n = 7) as Hn by lia.
  by repeat (destruct Hn as [->|Hn]; [reflexivity|]); subst.
Qed.

Definition bytesFor (n : Z) : nat := Z.to_nat ((n + 7) / 8).

Lemma take_write (value : bytes) i b : (i < length value)%nat -> take (S i) (<[i := b]> value) = take i value ++ [b].
Proof.
  intros H. rewrite (take_S_r _ i b) by (by apply list_lookup_insert_eq). by rewrite take_insert_ge.
Qed.

Lemma extractLoop_slice fuel mem o : is_bytes mem -> 0 <= o < 8 -> forall k n value i,
  0 <= n -> (Z.to_nat n < fuel)%nat -> 8 * Z.of_nat k + o + n <= 8 * (Z.of_nat (length mem) - 1) ->
  length value = (i + bytesFor n)%nat ->
  exists out, extractLoop fuel mem o (Z.of_nat k) n value i = Ok (take i value ++ out) /\
    is_bytes out /\ length out = bytesFor n /\
    number out = (number mem / 2 ^ (8 * Z.of_nat k + o)) mod 2 ^ n.
Proof.
  intros Hm Ho. induction fuel as [|fuel IH]; intros k n value i Hn Hf Hfit Hv; [lia|].
  cbn [extractLoop]. destruct (Z.eqb_spec n 0) as [->|Hne].
  - assert (bytesFor 0 = 0%nat) as H0 by reflexivity. exists []. rewrite app_nil_r, firstn_all2 by lia.
    split_and!; [done|constructor|done|]. by rewrite Z.mod_1_r.
  - rewrite extractByte_slice by (done || lia). cbn [mbind result_bind].
    set (X := number mem / 2 ^ (8 * Z.of_nat k + o)).
    assert (in_range 8 (X mod 256)) as Hb by (apply (wrap_range 8); lia).
    assert (i < length value)%nat as Hi by (assert (0 < bytesFor n)%nat by (unfold bytesFor; apply (Z2Nat.inj_lt 0); Z.div_mod_to_equations; lia); lia).
    unfold writeByte. rewrite bool_decide_eq_true_2 by done.
    destruct (Z.ltb_spec 7 n) as [Hbig|Hsmall].
    + cbn [mbind result_bind]. replace (Z.of_nat k + 1) with (Z.of_nat (S k)) by lia.
      assert (bytesFor n = S (bytesFor (n - 8))) as Hlen by (unfold bytesFor; Z.div_mod_to_equations; lia).
      destruct (IH (S k) (n - 8) (<[i := X mod 256]> value) (S i)) as (out & -> & Hout & Hl & Hnum);
        [lia|lia|lia|rewrite length_insert; lia|].
      exists (X mod 256 :: out). rewrite take_write, <- app_assoc by done.
      split_and!; [done|by constructor|cbn; lia|]. cbn [number]. rewrite Hnum.
      replace (8 * Z.of_nat (S k) + o) with ((8 * Z.of_nat k + o) + 8) by lia.
      rewrite Z.pow_add_r, <- Z.div_div by lia. fold X. change (2 ^ 8) with 256.
      replace (2 ^ n) with (256 * 2 ^ (n - 8)) by (change 256 with (2 ^ 8); rewrite <- Z.pow_add_r by lia; f_equal; lia).
      rewrite Z.rem_mul_r; lia.
    + rewrite keep_mask by lia. exists [X mod 256 mod 2 ^ n].
      assert (bytesFor n = 1%nat) as Hlen by (unfold bytesFor; Z.div_mod_to_equations; lia).
      split_and!.
      * f_equal. rewrite <- (take_ge (<[i:=_]> value) (S i)) at 1 by (rewrite length_insert; lia). by apply take_write.
      * constructor; [|constructor]. change 256 with (2 ^ 8). rewrite mod_mod_pow by lia.
        split; [apply Z.mod_pos_bound; lia|]. eapply Z.lt_le_trans; [apply Z.mod_pos_bound; lia|].
        apply Z.pow_le_mono_r; lia.
      * done.
      * cbn [number]. change 256 with (2 ^ 8) at 1. rewrite mod_mod_pow by lia. lia.
Qed.

Lemma bytesFor_eq n : 0 <= n -> Z.to_nat (n / 8 + (if n mod 8 =? 0 then 0 else 1)) = bytesFor n.
Proof. intros H. unfold bytesFor. destruct (Z.eqb_spec (n mod 8) 0); Z.div_mod_to_equations; lia. Qed.

Lemma number_app_nul l : number (l ++ [0]) = number l.
Proof. induction l as [|b l IH]; cbn; [done|by rewrite IH]. Qed.

Lemma length_resize s n : length (resize s n) = n.
Proof. unfold resize. rewrite length_app, length_take, length_replicate. lia. Qed.

(** A request that fits returns the slice. *)
Lemma extract_fits binaryBuffer value n bitIndex :
  is_bytes binaryBuffer -> Z.of_nat (length binaryBuffer) < 2 ^ 28 -> 0 < n -> 0 <= bitIndex ->
  bitIndex + n <= 8 * Z.of_nat (length binaryBuffer) ->
  exists out, extractValueFromBinaryString binaryBuffer value n bitIndex = Ok out /\ is_bytes out /\
    length out = bytesFor n /\ number out = (number binaryBuffer / 2 ^ bitIndex) mod 2 ^ n.
Proof.
  intros Hb Hlen Hn Hi Hfit. change (2 ^ 28) with 268435456 in *.
  unfold extractValueFromBinaryString, extractValue. rewrite bytesFor_eq by lia.
  destruct (Z.eqb_spec n 0) as [->|Hne]; [lia|].
  rewrite !wrap_small by (unfold in_range; change (2 ^ 32) with 4294967296; lia).
  destruct (Z.ltb_spec (Z.of_nat (length binaryBuffer) * 8) (bitIndex + n)); [lia|].
  replace (bitIndex / 8) with (Z.of_nat (Z.to_nat (bitIndex / 8))) by (rewrite Z2Nat.id; [done|apply Z.div_pos; lia]).
  destruct (extractLoop_slice (S (Z.to_nat n)) (binaryBuffer ++ [0]) (bitIndex mod 8)) with
    (k := Z.to_nat (bitIndex / 8)) (n := n) (value := resize value (bytesFor n)) (i := 0%nat)
    as (out & -> & Hout & Hl & Hnum).
  - apply Forall_app; split; [done|]. constructor; [|constructor]. split; [lia|reflexivity].
  - apply Z.mod_pos_bound. lia.
  - lia.
  - lia.
  - rewrite length_app. cbn [length]. Z.div_mod_to_equations. lia.
  - apply length_resize.
  - exists out. rewrite take_0. cbn [app]. split_and!; [done|done|done|]. rewrite Hnum, number_app_nul.
    do 2 f_equal. f_equal. rewrite Z2Nat.id by (apply Z.div_pos; lia). Z.div_mod_to_equations. lia.
Qed.

(** Extraction is a bit slice: the bytes extracted hold the number of the
    buffer, shifted down by [bitIndex] and cut to [valueNumberOfBits] bits, in
    just enough bytes; a request for no bits, or for bits past the end of the
    buffer, throws, and nothing outside the string is read. *)
Theorem extractValueFromBinaryString_slice binaryBuffer value n bitIndex :
  is_bytes binaryBuffer -> Z.of_nat (length binaryBuffer) < 2 ^ 28 -> in_range 30 n -> in_range 30 bitIndex ->
  match extractValueFromBinaryString binaryBuffer value n bitIndex with
  | Ok out => is_bytes out /\ length out = bytesFor n /\ n <> 0 /\
      bitIndex + n <= 8 * Z.of_nat (length binaryBuffer) /\
      number out = (number binaryBuffer / 2 ^ bitIndex) mod 2 ^ n
  | Throw e => e = RuntimeError /\ (n = 0 \/ 8 * Z.of_nat (length binaryBuffer) < bitIndex + n)
  end.
Proof.
  intros Hb Hlen Hn Hi. unfold in_range in Hn, Hi. change (2 ^ 30) with 1073741824 in *.
  destruct (Z.eq_dec n 0) as [->|Hne]; [split; [done|by left]|].
  destruct (Z.le_gt_cases (bitIndex + n) (8 * Z.of_nat (length binaryBuffer))) as [Hfit|Hpast].
  - destruct (extract_fits binaryBuffer value n bitIndex) as (out & -> & Hout & Hl & Hnum); [done..|lia|lia|lia|].
    by split_and!.
  - change (2 ^ 28) with 268435456 in *. unfold extractValueFromBinaryString, extractValue.
    destruct (Z.eqb_spec n 0); [done|]. rewrite !wrap_small by (unfold in_range; change (2 ^ 32) with 4294967296; lia).
    destruct (Z.ltb_spec (Z.of_nat (length binaryBuffer) * 8) (bitIndex + n)); [split; [done|right; lia]|lia].
Qed.

Lemma extractValueFromBinaryString_slice_witness :
  extractValueFromBinaryString [52; 18; 171] [] 12 4 = Ok [35; 1].
Proof.
  pose proof (extractValueFromBinaryString_slice [52; 18; 171] [] 12 4) as H.
  assert (is_bytes [52; 18; 171]) as Hb by (repeat constructor; discriminate).
  specialize (H Hb). vm_compute extractValueFromBinaryString in *. destruct H as (_ & _ & _ & _ & H);
    [reflexivity|split; [discriminate|reflexivity]|split; [discriminate|reflexivity]|]. reflexivity.
Defined.

(** ** Insertion at a byte boundary, and elsewhere *)

Lemma number_inj l1 l2 : is_bytes l1 -> is_bytes l2 -> length l1 = length l2 -> number l1 = number l2 -> l1 = l2.
Proof.
  intros H1. revert l2. induction H1 as [|a l1 Ha _ IH]; intros [|b l2] H2 Hl Hn; [done|done|done|].
  inversion H2 as [|? ? Hb H2']; subst. unfold in_range in *. change (2 ^ 8) with 256 in *. cbn [number length] in *.
  rewrite (IH l2) by (done || lia). f_equal. lia.
Qed.

Lemma bytesOf_bytes n v : is_bytes (bytesOf n v).
Proof. unfold bytesOf. apply Forall_fmap, Forall_true. intros i. apply byte_of_range. Qed.

(** A 64-bit value inserted at a byte boundary is extracted again from
    there, whatever the buffer held and however long it was. *)
Theorem insert_extract_roundtrip binaryBuffer v (k : nat) :
  is_bytes binaryBuffer -> Z.of_nat k < 2 ^ 27 ->
  extractValueFromBinaryString (insertValue binaryBuffer (bytesOf 8 v) (8 * Z.of_nat k)) [] 64 (8 * Z.of_nat k)
  = Ok (bytesOf 8 v).
Proof.
  intros Hb Hk. change (2 ^ 27) with 134217728 in Hk. unfold insertValue.
  replace (8 * Z.of_nat k mod 8) with 0 by (rewrite Z.mul_comm, Z.mod_mul; lia).
  replace (8 * Z.of_nat k / 8) with (Z.of_nat k) by (rewrite Z.mul_comm, Z.div_mul; lia).
  rewrite Nat2Z.id. cbn [Z.eqb]. set (b := resize _ _).
  assert (length (take k b) = k) as Ht by (rewrite length_take; unfold b; rewrite length_resize; lia).
  assert (is_bytes (take k b)) as Hbt.
  { apply Forall_take. unfold b, resize. apply Forall_app; split; [by apply Forall_take|].
    apply Forall_replicate. split; [lia|reflexivity]. }
  assert (is_bytes (take k b ++ bytesOf 8 v)) as Hall by (apply Forall_app; split; [done|apply bytesOf_bytes]).
  destruct (extract_fits (take k b ++ bytesOf 8 v) [] 64 (8 * Z.of_nat k)) as (out & -> & Hout & Hl & Hnum).
  - done.
  - rewrite length_app, Ht. change (2 ^ 28) with 268435456. change (length (bytesOf 8 v)) with 8%nat. lia.
  - lia.
  - lia.
  - rewrite length_app, Ht. change (length (bytesOf 8 v)) with 8%nat. lia.
  - f_equal. apply number_inj; [done|apply bytesOf_bytes|done|]. rewrite Hnum, number_drop by done.
    rewrite drop_app_length' by done. apply Z.mod_small. apply (number_range (bytesOf 8 v)), bytesOf_bytes.
Qed.

Lemma insert_extract_roundtrip_witness :
  extractValueFromBinaryString (insertValue [7; 9; 11] (bytesOf 8 291) 16) [] 64 16 = Ok (bytesOf 8 291).
Proof.
  apply (insert_extract_roundtrip [7; 9; 11] 291 2); [repeat constructor; discriminate|reflexivity].
Defined.

(** Between byte boundaries it is not: the parts of neighbouring bytes are
    combined with a mask where a shift is needed. *)
Lemma insert_misaligned_lost :
  extractValueFromBinaryString (insertValue [0; 0] (bytesOf 8 4660) 4) [] 64 4 <> Ok (bytesOf 8 4660).
Proof. vm_compute. discriminate. Qed.

(** ** Printing a word *)

Lemma tailLoop_rev mem (n : nat) : is_bytes mem -> forall fuel dest, (n < fuel)%nat -> (n < length mem)%nat ->
  tailLoop fuel mem 0 (Z.of_nat n) dest = Ok (dest ++ flat_map hexByte (rev (take (S n) mem))).
Proof.
  intros Hm. induction n as [|n IH]; intros [|fuel] dest Hf Hn; try lia.
  - destruct (lookup_lt_is_Some_2 mem 0 Hn) as [b Hb]. cbn [tailLoop]. cbn [Z.leb Z.of_nat].
    rewrite (readByte_ok _ 0 _ Hb). cbn [mbind result_bind]. destruct mem as [|b' mem]; [done|].
    injection Hb as ->. cbn [firstn rev app flat_map]. change (0 <=? Z.of_nat 0) with true. change (Z.of_nat 0 =? 0) with true. rewrite take_0. cbn [rev app flat_map]. by rewrite app_nil_r.
  - destruct (lookup_lt_is_Some_2 mem (S n) Hn) as [b Hb]. cbn [tailLoop].
    destruct (Z.leb_spec 0 (Z.of_nat (S n))); [|lia]. rewrite (readByte_ok _ _ _ Hb). cbn [mbind result_bind].
    destruct (Z.eqb_spec (Z.of_nat (S n)) 0); [lia|]. replace (Z.of_nat (S n) - 1) with (Z.of_nat n) by lia.
    rewrite IH by lia. rewrite (take_S_r mem (S n) b Hb), rev_app_distr. cbn [rev app flat_map].
    by rewrite <- app_assoc.
Qed.

(** A buffer of one to eight bytes is printed as one number, the most
    significant byte first. *)
Lemma binaryNumberToHexString_word binaryBuffer preamble delimiter :
  is_bytes binaryBuffer -> (1 <= length binaryBuffer <= 8)%nat ->
  binaryNumberToHexString_string binaryBuffer preamble delimiter = Ok (preamble ++ flat_map hexByte (rev binaryBuffer)).
Proof.
  intros Hb Hl. unfold binaryNumberToHexString_string, binaryNumberToHexString.
  assert (exists n, length binaryBuffer = S n) as [n Hn] by (destruct (length binaryBuffer); [lia|eauto]).
  rewrite Hn. rewrite wrap_small by (unfold in_range; change (2 ^ 32) with 4294967296; lia).
  assert (forall fuel, groupLoop fuel (binaryBuffer ++ [0]) (Z.of_nat (S n)) delimiter 0 preamble = Ok (0, preamble)) as ->.
  { intros [|fuel]; [done|]. cbn [groupLoop]. destruct (Z.ltb_spec (0 + 8) (Z.of_nat (S n))); [lia|done]. }
  cbn [mbind result_bind]. replace (Z.of_nat (S n) - 1) with (Z.of_nat n) by lia. rewrite Nat2Z.id.
  rewrite tailLoop_rev; [|apply Forall_app; split; [done|constructor; [split; [lia|reflexivity]|constructor]]|lia|rewrite length_app; lia].
  by rewrite take_app_length' by done.
Qed.

(** Two full groups and more read past the buffer: the index of the second
    group counts its bytes twice. *)
Lemma binaryNumberToHexString_long :
  binaryNumberToHexString_string (replicate 17 0) [] [] = Throw Undefined.
Proof. reflexivity. Qed.

End BinaryStringMacros.
