(* ===== verification/StringExpansion.v ===== *)
(** * Variables, XML fields and names in strings

    Three more parts of src/otsdaq/Macros/StringMacros.cc:
    [convertEnvironmentVariables], [extractXmlField] and [rextractXmlField], and the order
    [IgnoreCaseCompareStruct].  Positions are [size_t] values in [Z]; [npos] is
    the largest. *)

From Stdlib Require Import ZifyBool.
From S2P Require Import Prelude CText StringLists.

Module StringExpansion.

(** ** std::string by position *)

Fixpoint findIn (p s : text) : option nat :=
  if starts_with p s then Some 0%nat
  else match s with [] => None | _ :: s => S <$> findIn p s end.
Definition find (p s : text) (pos : Z) : Z :=
  if size s <? pos then npos
  else match findIn p (drop (Z.to_nat pos) s) with Some k => pos + Z.of_nat k | None => npos end.

(** [substr(pos, n)] and [replace(pos, n, r)]: a position past the end throws,
    the length is clipped. *)
Definition sub (s : text) (pos n : Z) : result text :=
  if size s <? pos then Throw OutOfRange
  else Ok (take (Z.to_nat (Z.min n (size s - pos))) (drop (Z.to_nat pos) s)).
Definition replace (s : text) (pos n : Z) (r : text) : result text :=
  if size s <? pos then Throw OutOfRange
  else Ok (take (Z.to_nat pos) s ++ r ++ drop (Z.to_nat (pos + Z.min n (size s - pos))) s).
(** [s[i]]; [s[size()]] is NUL. *)
Definition char_at (s : text) (i : Z) : ascii := nth (Z.to_nat i) s (chr 0).
Definition isChar (s : text) (i k : Z) : bool := (char_at s i =? chr k)%char.

Lemma findIn_skip a p pre post : Forall (fun c => c <> a) pre ->
  findIn (a :: p) (pre ++ post) = (fun k => (length pre + k)%nat) <$> findIn (a :: p) post.
Proof.
  induction 1 as [|c pre Hc _ IH]; cbn [app length].
  - by destruct (findIn _ _).
  - cbn [findIn starts_with]. destruct (Ascii.eqb_spec a c) as [->|]; [done|]. cbn [andb].
    rewrite IH. by destruct (findIn (a :: p) post).
Qed.

Lemma findIn_here p post : findIn p (p ++ post) = Some 0%nat.
Proof. pose proof (starts_with_app p post) as H. destruct (p ++ post); cbn [findIn]; by rewrite H. Qed.

Lemma findIn_none a p pre : Forall (fun c => c <> a) pre -> findIn (a :: p) pre = None.
Proof. intros H. rewrite <- (app_nil_r pre), findIn_skip by done. done. Qed.

(** [find] once the text is cut at the position. *)
Lemma find_at p pre post : find p (pre ++ post) (size pre) =
  match findIn p post with Some k => size pre + Z.of_nat k | None => npos end.
Proof.
  unfold find, size. rewrite length_app. destruct (Z.ltb_spec (Z.of_nat (length pre + length post)) (Z.of_nat (length pre))); [lia|].
  by rewrite Nat2Z.id, drop_app_length.
Qed.
Lemma char_at_app pre c post : char_at (pre ++ c :: post) (size pre) = c.
Proof. unfold char_at, size. by rewrite Nat2Z.id, nth_middle. Qed.
Lemma sub_app pre mid post : sub (pre ++ mid ++ post) (size pre) (size mid) = Ok mid.
Proof.
  unfold sub, size. rewrite !length_app. destruct (Z.ltb_spec (Z.of_nat (length pre + (length mid + length post))) (Z.of_nat (length pre))); [lia|].
  rewrite Z.min_l by lia. by rewrite !Nat2Z.id, drop_app_length, take_app_length.
Qed.
Lemma replace_app pre mid post r : replace (pre ++ mid ++ post) (size pre) (size mid) r = Ok (pre ++ r ++ post).
Proof.
  unfold replace, size. rewrite !length_app. destruct (Z.ltb_spec (Z.of_nat (length pre + (length mid + length post))) (Z.of_nat (length pre))); [lia|].
  rewrite Z.min_l by lia. rewrite Nat2Z.id, take_app_length. do 3 f_equal.
  replace (Z.to_nat (Z.of_nat (length pre) + Z.of_nat (length mid))) with (length (pre ++ mid)) by (rewrite length_app; lia).
  by rewrite app_assoc, drop_app_length.
Qed.

(** ** convertEnvironmentVariables *)

Definition dollar : ascii := chr 36.
Definition backslash : ascii := chr 92.

Section Convert.
(** The process environment and the static map of system variables. *)
Variables (getenv : text -> option text) (systemVariables_ : gmap text (gmap text text)).

(** The loop over escaped dollars: the backslash goes, and the search goes on
    after the character behind the dollar.  [begin] is [npos] when only escaped
    dollars were found. *)
Fixpoint unescape (fuel : nat) (converted : text) (begin : Z) : result (text * Z) :=
  match fuel with
  | O => Ok (converted, begin)
  | S fuel =>
      if (0 <? begin) && isChar converted (begin - 1) 92 then
        converted ← replace converted (begin - 1) 1 [];
        let begin := find [dollar] converted (begin + 1) in
        if begin =? npos then Ok (converted, npos) else unescape fuel converted begin
      else Ok (converted, begin)
  end.

Definition nameChar (c : ascii) : bool :=
  is_digit c || is_upper c || is_lower c || (c =? chr 45)%char || (c =? chr 95)%char || (c =? chr 46)%char || (c =? chr 58)%char.
Fixpoint nameEnd (rest : text) (end_ : Z) : Z :=
  match rest with
  | [] => end_
  | c :: rest => if nameChar c then nameEnd rest (end_ + 1) else end_
  end.

(** The elements of [OTS.<variable>.<property>]. *)
Definition splitDots (envVariable : text) : list text :=
  (StringLists.vectorPush envVariable (StringLists.vectorLoop envVariable [chr 46] StringLists.ws_default envVariable 0
     (StringLists.mkVS 0 0 (chr 0) [] []))).1.

Definition systemVariable (envVariable : text) : option text :=
  match splitDots envVariable with
  | [_; variable; property] => props ← systemVariables_ !! variable; props !! property
  | _ => None
  end.

(** What a reference is replaced by. *)
Definition variableValue (usedBraces : bool) (envVariable : text) : result text :=
  let found := if usedBraces && starts_with (txt "OTS.") envVariable
               then systemVariable envVariable else getenv envVariable in
  match found with Some v => Ok v | None => Throw RuntimeError end.

(** The reference at [begin]: whether it has braces, its name and its end. *)
Definition referenceAt (data : text) (begin : Z) : result (bool * text * Z) :=
  if isChar data (begin + 1) 123 then
    let end_ := find (txt "}") data (begin + 2) in
    envVariable ← sub data (begin + 2) (u64 (end_ - begin - 2));
    Ok (true, envVariable, u64 (end_ + 1))
  else
    let end_ := nameEnd (drop (Z.to_nat (begin + 1)) data) (begin + 1) in
    envVariable ← sub data (begin + 1) (end_ - begin - 1);
    Ok (false, envVariable, end_).

(** The recursion is unbounded when a value contains references again; running
    out of [fuel] stands for that. *)
Fixpoint convertEnvironmentVariables (fuel : nat) (data : text) : result text :=
  match fuel with
  | O => Throw Undefined
  | S fuel =>
      let begin := find [dollar] data 0 in
      if (begin =? npos) || (size data <=? begin + 1) then Ok data
      else
        '(converted, begin) ← unescape (length data) data begin;
        if begin =? npos then Ok converted
        else if (begin + 2 <? size data) && isChar data (begin + 1) 40 && isChar data (begin + 2) 40 then
          let end_ := find (txt "))") data (begin + 3) in
          if end_ =? npos then Throw RuntimeError
          else
            expression ← sub data (begin + 3) (end_ - begin - 3);
            expression ← convertEnvironmentVariables fuel expression;
            number ← StringLists.getNumber_int64 expression;
            match number with
            | None => Throw Undefined
            | Some (false, _) => Throw RuntimeError
            | Some (true, result) =>
                converted ← replace converted begin (end_ - begin + 2) (to_string_signed result);
                convertEnvironmentVariables fuel converted
            end
        else
          '(usedBraces, envVariable, end_) ← referenceAt data begin;
          v ← variableValue usedBraces envVariable;
          converted ← replace converted begin (u64 (end_ - begin)) v;
          convertEnvironmentVariables fuel converted
  end.

(** *** Templates

    A text with references, and what it stands for. *)

Inductive piece :=
| Literal (t : text)
| Braced (name : text)   (* ${name}, an environment variable or a system variable *)
| Plain (name : text).   (* $name *)

Definition render1 (p : piece) : text :=
  match p with
  | Literal t => t
  | Braced name => txt "${" ++ name ++ txt "}"
  | Plain name => dollar :: name
  end.
Definition render (ps : list piece) : text := concat (render1 <$> ps).

Definition value1 (p : piece) : result text :=
  match p with
  | Literal t => Ok t
  | Braced name => variableValue true name
  | Plain name => variableValue false name
  end.
Fixpoint instantiate (ps : list piece) : result text :=
  match ps with
  | [] => Ok []
  | p :: ps => v ← value1 p; rest ← instantiate ps; Ok (v ++ rest)
  end.

(** No dollar and no backslash. *)
Definition inert (t : text) : Prop := Forall (fun c => c <> dollar) t /\ Forall (fun c => c <> backslash) t.

Definition wellFormed1 (p : piece) (next : text) : Prop :=
  match p with
  | Literal t => inert t
  | Braced name => Forall (fun c => c <> chr 125) name /\ forall v, variableValue true name = Ok v -> inert v
  | Plain name => name <> [] /\ Forall (fun c => nameChar c = true) name /\
      (forall c, head next = Some c -> nameChar c = false) /\ forall v, variableValue false name = Ok v -> inert v
  end.
Fixpoint wellFormed (ps : list piece) : Prop :=
  match ps with
  | [] => True
  | p :: ps => wellFormed1 p (render ps) /\ wellFormed ps
  end.

Definition references (ps : list piece) : nat :=
  length (List.filter (fun p => match p with Literal _ => false | _ => true end) ps).

Lemma unescape_unescaped fuel pre post : Forall (fun c => c <> backslash) pre ->
  unescape fuel (pre ++ post) (size pre) = Ok (pre ++ post, size pre).
Proof.
  intros Hp. destruct fuel as [|fuel]; [done|]. cbn [unescape].
  destruct (Z.ltb_spec 0 (size pre)) as [Hpos|]; [|done]. cbn [andb].
  destruct pre as [|c pre _] using rev_ind; [done|]. apply Forall_app in Hp as [_ Hc]. inversion_clear Hc.
  unfold isChar. replace (size (pre ++ [c]) - 1) with (size pre) by (unfold size; rewrite length_app; cbn; lia).
  rewrite <- app_assoc. cbn [app]. rewrite char_at_app. by destruct (Ascii.eqb_spec c (chr 92)).
Qed.

Lemma nameEnd_app name rest e : Forall (fun c => nameChar c = true) name ->
  (forall c, head rest = Some c -> nameChar c = false) -> nameEnd (name ++ rest) e = e + size name.
Proof.
  intros Hn Hr. revert e. induction Hn as [|c name Hc _ IH]; intros e; cbn [app nameEnd].
  - unfold size. cbn. rewrite Z.add_0_r. destruct rest as [|c rest]; [done|]. cbn [nameEnd]. by rewrite (Hr c).
  - rewrite Hc, IH. unfold size. cbn. lia.
Qed.

Lemma size_app a b : size (a ++ b) = size a + size b.
Proof. unfold size. rewrite length_app. lia. Qed.
Lemma size_cons c a : size (c :: a) = 1 + size a.
Proof. unfold size. cbn [length]. lia. Qed.
Lemma size_nonneg a : 0 <= size a.
Proof. unfold size. lia. Qed.

Lemma drop_size a b : drop (Z.to_nat (size a)) (a ++ b) = b.
Proof. unfold size. by rewrite Nat2Z.id, drop_app_length. Qed.

Lemma nameChar_not c k : nameChar c = true -> nameChar (chr k) = false -> (c =? chr k)%char = false.
Proof. intros H1 H2. destruct (Ascii.eqb_spec c (chr k)) as [->|]; congruence. Qed.

(** The search from the beginning of a text with a first reference. *)
Lemma find_dollar pre rest : Forall (fun c => c <> dollar) pre -> find [dollar] (pre ++ dollar :: rest) 0 = size pre.
Proof.
  intros Hp. pose proof (find_at [dollar] [] (pre ++ dollar :: rest)) as H. rewrite findIn_skip in H by done.
  cbn [app] in H. change (size []) with 0 in H. rewrite H.
  pose proof (findIn_here [dollar] rest) as Hh. cbn [app] in Hh. rewrite Hh. unfold size. cbn. lia.
Qed.

(** One reference is replaced, and the conversion starts again. *)
Lemma convert_reference fuel pre c tail braces name e v_end rest : inert pre ->
  (c =? chr 40)%char = false ->
  let data := pre ++ dollar :: c :: tail in
  size data < 2 ^ 63 ->
  referenceAt data (size pre) = Ok (braces, name, e) ->
  data = pre ++ v_end ++ rest -> e - size pre = size v_end ->
  convertEnvironmentVariables (S fuel) data
  = v ← variableValue braces name; convertEnvironmentVariables fuel (pre ++ v ++ rest).
Proof.
  intros [Hd Hb] Hc data Hsize Href Hdata He. change (2 ^ 63) with 9223372036854775808 in Hsize.
  assert (size data = size pre + 2 + size tail) as Hs by (unfold data; rewrite size_app, !size_cons; lia).
  pose proof (size_nonneg pre). pose proof (size_nonneg tail).
  assert (find [dollar] data 0 = size pre) as Hf by (by apply find_dollar).
  cbn [convertEnvironmentVariables]. rewrite Hf.
  destruct (Z.eqb_spec (size pre) npos) as [Hn|_]; [unfold npos in Hn; lia|].
  destruct (Z.leb_spec (size data) (size pre + 1)); [lia|]. cbn [orb].
  assert (unescape (length data) data (size pre) = Ok (data, size pre)) as -> by (by apply unescape_unescaped).
  cbn [mbind result_bind]. destruct (Z.eqb_spec (size pre) npos) as [Hn|_]; [unfold npos in Hn; lia|].
  assert (isChar data (size pre + 1) 40 = false) as ->.
  { unfold isChar. replace (size pre + 1) with (size (pre ++ [dollar])) by (rewrite size_app; done).
    unfold data. replace (pre ++ dollar :: c :: tail) with ((pre ++ [dollar]) ++ c :: tail) by (by rewrite <- app_assoc).
    by rewrite char_at_app. }
  rewrite andb_false_r. cbn [andb]. rewrite Href. cbn [mbind result_bind].
  destruct (variableValue braces name) as [v|]; [|done]. cbn [mbind result_bind].
  rewrite wrap_small.
  - rewrite He, Hdata, replace_app. done.
  - unfold in_range. change (2 ^ 64) with 18446744073709551616. rewrite He. rewrite Hdata, !size_app in Hs, Hsize.
    pose proof (size_nonneg v_end). pose proof (size_nonneg rest). lia.
Qed.

Lemma convert_braced fuel pre name rest : inert pre -> Forall (fun c => c <> chr 125) name ->
  size (pre ++ render1 (Braced name) ++ rest) < 2 ^ 63 ->
  convertEnvironmentVariables (S fuel) (pre ++ render1 (Braced name) ++ rest)
  = v ← variableValue true name; convertEnvironmentVariables fuel (pre ++ v ++ rest).
Proof.
  intros Hpre Hname Hsize.
  assert (render1 (Braced name) ++ rest = dollar :: chr 123 :: name ++ chr 125 :: rest) as Hr
    by (change (render1 (Braced name)) with (dollar :: chr 123 :: name ++ [chr 125]); cbn; by rewrite <- app_assoc).
  change (2 ^ 63) with 9223372036854775808 in Hsize. rewrite Hr in *.
  rewrite !size_app, !size_cons, size_app, size_cons in Hsize.
  pose proof (size_nonneg pre). pose proof (size_nonneg name). pose proof (size_nonneg rest).
  apply (convert_reference fuel pre (chr 123) (name ++ chr 125 :: rest) true name (size pre + (size name + 3))
    (render1 (Braced name)) rest Hpre); [done| | |by rewrite Hr|].
  - change (2 ^ 63) with 9223372036854775808. rewrite !size_app, !size_cons, size_app, size_cons. lia.
  - unfold referenceAt, isChar.
    replace (pre ++ dollar :: chr 123 :: name ++ chr 125 :: rest) with ((pre ++ [dollar]) ++ chr 123 :: name ++ chr 125 :: rest)
      by (by rewrite <- app_assoc).
    replace (size pre + 1) with (size (pre ++ [dollar])) by (rewrite size_app; done).
    rewrite char_at_app, Ascii.eqb_refl.
    replace ((pre ++ [dollar]) ++ chr 123 :: name ++ chr 125 :: rest) with ((pre ++ [dollar; chr 123]) ++ name ++ chr 125 :: rest)
      by (by rewrite <- !app_assoc).
    replace (size pre + 2) with (size (pre ++ [dollar; chr 123])) by (rewrite size_app; done).
    rewrite find_at. change (txt "}") with [chr 125]. rewrite findIn_skip by done.
    pose proof (findIn_here [chr 125] rest) as Hh. cbn [app] in Hh. rewrite Hh. cbn [fmap option_fmap option_map].
    replace (size (pre ++ [dollar; chr 123])) with (size pre + 2) by (rewrite size_app; done).
    rewrite !wrap_small by (unfold in_range, size in *; change (2 ^ 64) with 18446744073709551616; lia).
    replace (size pre + 2 + Z.of_nat (length name + 0) - size pre - 2) with (size name) by (unfold size; lia).
    replace (size pre + 2) with (size (pre ++ [dollar; chr 123])) by (rewrite size_app; done).
    rewrite sub_app. cbn [mbind result_bind]. do 2 f_equal. unfold size. rewrite length_app. cbn [length]. lia.
  - change (render1 (Braced name)) with (dollar :: chr 123 :: name ++ [chr 125]).
    rewrite !size_cons, size_app. change (size [chr 125]) with 1. lia.
Qed.

Lemma convert_plain fuel pre name rest : inert pre -> name <> [] -> Forall (fun c => nameChar c = true) name ->
  (forall c, head rest = Some c -> nameChar c = false) ->
  size (pre ++ render1 (Plain name) ++ rest) < 2 ^ 63 ->
  convertEnvironmentVariables (S fuel) (pre ++ render1 (Plain name) ++ rest)
  = v ← variableValue false name; convertEnvironmentVariables fuel (pre ++ v ++ rest).
Proof.
  intros Hpre Hne Hname Hrest Hsize. destruct name as [|c name]; [done|]. pose proof Hname as Hname'.
  inversion_clear Hname' as [|? ? Hc Hn]. cbn [render1 app] in *.
  apply (convert_reference fuel pre c (name ++ rest) false (c :: name) (size pre + (size (c :: name) + 1))
    (dollar :: c :: name) rest Hpre); [by apply nameChar_not|done| |done|rewrite !size_cons; lia].
  unfold referenceAt, isChar.
  replace (pre ++ dollar :: c :: name ++ rest) with ((pre ++ [dollar]) ++ (c :: name) ++ rest) by (by rewrite <- app_assoc).
  replace (size pre + 1) with (size (pre ++ [dollar])) by (rewrite size_app; done).
  change ((c :: name) ++ rest) with (c :: name ++ rest) at 1. rewrite char_at_app.
  rewrite (nameChar_not c 123) by done.
  rewrite drop_size, nameEnd_app by done.
  replace (size (pre ++ [dollar]) + size (c :: name) - size pre - 1) with (size (c :: name)) by (rewrite size_app; change (size [dollar]) with 1; lia).
  rewrite sub_app. cbn [mbind result_bind]. do 2 f_equal. rewrite size_app. change (size [dollar]) with 1. lia.
Qed.

(** What the text may grow to while it is converted. *)
Fixpoint room (ps : list piece) : Z :=
  match ps with
  | [] => 0
  | p :: ps => Z.max (size (render1 p)) (match value1 p with Ok v => size v | Throw _ => 0 end) + room ps
  end.

Lemma room_render ps : size (render ps) <= room ps.
Proof.
  induction ps as [|p ps IH]; [done|]. unfold render in *. cbn [fmap list_fmap concat room]. rewrite size_app. lia.
Qed.

Lemma inert_app a b : inert a -> inert b -> inert (a ++ b).
Proof. intros [] []. by split; apply Forall_app. Qed.

Lemma convert_pieces ps : forall pre fuel, inert pre -> wellFormed ps -> (references ps < fuel)%nat ->
  size pre + room ps < 2 ^ 63 ->
  convertEnvironmentVariables fuel (pre ++ render ps) = (fun v => pre ++ v) <$> instantiate ps.
Proof.
  induction ps as [|p ps IH]; intros pre fuel Hpre Hwf Hfuel Hroom.
  - destruct fuel as [|fuel]; [lia|]. cbn [instantiate fmap result_fmap convertEnvironmentVariables].
    unfold render. cbn [fmap list_fmap concat]. rewrite app_nil_r.
    pose proof (find_at [dollar] [] pre) as Hf. cbn [app] in Hf. change (size []) with 0 in Hf.
    rewrite findIn_none in Hf by apply Hpre. by rewrite Hf.
  - destruct Hwf as [Hp Hwf]. pose proof (room_render ps) as Hrr. cbn [room] in Hroom. pose proof (size_nonneg pre).
    change (render (p :: ps)) with (render1 p ++ render ps).
    assert (forall f, (references ps < f)%nat -> (forall v, value1 p = Ok v -> inert v) ->
      (v ← value1 p; convertEnvironmentVariables f (pre ++ v ++ render ps)) = (fun v => pre ++ v) <$> instantiate (p :: ps))
      as Hstep.
    { intros f Hf Hv. cbn [instantiate]. destruct (value1 p) as [v|e]; [|done]. cbn [mbind result_bind].
      rewrite app_assoc, IH; [|by apply inert_app; auto|done|done|rewrite size_app; lia].
      destruct (instantiate ps); [|done]. cbn [mbind result_bind fmap result_fmap]. by rewrite <- app_assoc. }
    destruct p as [t|name|name]; cbn [wellFormed1] in Hp.
    + apply (Hstep fuel); [done|]. by intros v [= <-].
    + destruct Hp as [Hn Hv]. unfold references in Hfuel. cbn [List.filter length] in Hfuel. destruct fuel as [|fuel]; [lia|].
      rewrite convert_braced; [|done|done|rewrite !size_app; lia]. apply (Hstep fuel); [unfold references; lia|done].
    + destruct Hp as (Hne & Hn & Hnext & Hv). unfold references in Hfuel. cbn [List.filter length] in Hfuel.
      destruct fuel as [|fuel]; [lia|].
      rewrite convert_plain; [|done|done|done|done|rewrite !size_app; lia]. apply (Hstep fuel); [unfold references; lia|done].
Qed.

(** Templates are instantiated.  A text with any number of references to
    environment variables ([$NAME] or [${NAME}]) and system variables
    ([${OTS.variable.property}]) between literal parts is converted, with one
    recursive call per reference, to the text with every reference replaced by
    its value; if one of them is not defined, the conversion throws.  (Literal
    parts and values have no dollar and no backslash of their own.) *)
Theorem convert_template ps fuel :
  wellFormed ps -> (references ps < fuel)%nat -> room ps < 2 ^ 63 ->
  convertEnvironmentVariables fuel (render ps) = instantiate ps.
Proof.
  intros Hwf Hf Hroom. pose proof (convert_pieces ps [] fuel) as H. cbn [app] in H. rewrite H; [|done..].
  by destruct (instantiate ps).
Qed.
End Convert.

Definition sampleEnv (name : text) : option text :=
  if bool_decide (name = txt "USER_DATA") then Some (txt "/data/ots")
  else if bool_decide (name = txt "B") then Some (txt "7") else None.
Definition sampleSystem : gmap text (gmap text text) := {[ txt "ActiveStateMachine" := {[ txt "name" := txt "Main" ]} ]}.

Lemma convert_template_witness :
  convertEnvironmentVariables sampleEnv sampleSystem 4
    (render [Plain (txt "USER_DATA"); Literal (txt "/run"); Braced (txt "B"); Literal (txt "/");
             Braced (txt "OTS.ActiveStateMachine.name")])
  = Ok (txt "/data/ots/run7/Main").
Proof.
  apply (convert_template sampleEnv sampleSystem
    [Plain (txt "USER_DATA"); Literal (txt "/run"); Braced (txt "B"); Literal (txt "/"); Braced (txt "OTS.ActiveStateMachine.name")] 4);
    [|cbn; lia|reflexivity].
  cbn [wellFormed wellFormed1].
  repeat match goal with
  | |- _ /\ _ => split
  | |- True => exact I
  | |- Forall _ [] => apply Forall_nil
  | |- Forall _ (_ :: _) => apply Forall_cons
  | |- Forall _ (txt _) => vm_compute txt
  | |- inert _ => split
  | |- _ <> _ => discriminate
  | |- nameChar _ = _ => reflexivity
  | |- forall v, variableValue _ _ _ _ = Ok v -> _ => let H := fresh in intros v H; vm_compute in H; injection H as <-
  | |- forall c, _ => let H := fresh in intros c H; vm_compute in H; injection H as <-
  end.
Defined.

(** An escaped dollar loses its backslash; but positions in the shortened text
    are then used in the original one, so a reference behind it is missed. *)
Lemma escaped_dollar_alone : convertEnvironmentVariables sampleEnv sampleSystem 4 (txt "cost: \$5") = Ok (txt "cost: $5").
Proof. reflexivity. Qed.
Lemma escaped_dollar_shifts_reference :
  convertEnvironmentVariables sampleEnv sampleSystem 4 (txt "\$A $B") = Throw RuntimeError.
Proof. reflexivity. Qed.

(** ** XML fields *)

(** [quoteType] [>] asks for the text of a tag, which then ends at [<]. *)
Definition tagText (quoteType : text) : bool := bool_decide (quoteType = txt ">").
Definition closing (quoteType : text) : text := if tagText quoteType then txt "<" else quoteType.
Definition afterName (quoteType : text) (c : ascii) : bool :=
  (tagText quoteType && (c =? chr 62)%char) || (c =? chr 32)%char || (c =? chr 10)%char || (c =? chr 9)%char.

(** The [while] loop: the position behind the next tag of that name. *)
Fixpoint tagLoop (fuel : nat) (xml tag quoteType : text) (findpos : Z) : option Z :=
  match fuel with
  | O => None
  | S fuel =>
      let findpos := find tag xml findpos in
      if (findpos =? npos) || (size xml <=? findpos + size tag) then None
      else
        let findpos := findpos + size tag in
        if afterName quoteType (char_at xml findpos) then Some findpos else tagLoop fuel xml tag quoteType findpos
  end.

(** The [for] loop over the occurrences. *)
Fixpoint occurrenceLoop (occurrence : nat) (xml tag quoteType : text) (findpos : Z) : option Z :=
  findpos ← tagLoop (S (length xml)) xml tag quoteType findpos;
  match occurrence with
  | O => Some findpos
  | S occurrence => occurrenceLoop occurrence xml tag quoteType findpos
  end.

(** The value behind a tag, and the position stored in [returnFindPos]. *)
Definition fieldValue (xml tag valueField quoteType : text) (findpos : Z) : result (text * Z) :=
  let lo := u64 (find (valueField ++ quoteType) xml findpos + size valueField + size quoteType) in
  let hi := find (closing quoteType) xml lo in
  if hi =? npos then Ok ([], npos)
  else v ← sub xml lo (hi - lo); Ok (v, findpos - size tag).

Definition extractXmlField (xml field : text) (occurrence : nat) (after : Z) (valueField quoteType : text)
    : result (text * Z) :=
  let tag := txt "<" ++ field in
  match occurrenceLoop occurrence xml tag quoteType after with
  | None => Ok ([], npos)
  | Some findpos => fieldValue xml tag valueField quoteType findpos
  end.

(** *** Backwards *)

(** [rfind(p, pos)]: the last occurrence at or before [pos]. *)
Definition rfindFrom (p s : text) (pos : Z) : Z :=
  if size s <? size p then npos else rfind_loop p s (Z.to_nat (Z.min pos (size s - size p))).

(** [None]: the loop has not ended. *)
Fixpoint rtagLoop (fuel : nat) (xml tag quoteType : text) (findpos : Z) : option (option Z) :=
  match fuel with
  | O => None
  | S fuel =>
      let findpos := rfindFrom tag xml findpos in
      if (findpos =? npos) || (size xml <=? findpos + size tag) then Some None
      else
        let findpos := findpos + size tag in
        if afterName quoteType (char_at xml findpos) then Some (Some findpos)
        else rtagLoop fuel xml tag quoteType (u64 (findpos - (size tag + 1)))
  end.
Fixpoint roccurrenceLoop (fuel occurrence : nat) (xml tag quoteType : text) (findpos : Z) : option (option Z) :=
  found ← rtagLoop fuel xml tag quoteType findpos;
  match found, occurrence with
  | None, _ => Some None
  | Some findpos, O => Some (Some findpos)
  | Some findpos, S occurrence => roccurrenceLoop fuel occurrence xml tag quoteType findpos
  end.
Definition rextractXmlField (fuel : nat) (xml field : text) (occurrence : nat) (before : Z) (valueField quoteType : text)
    : option (result (text * Z)) :=
  let tag := txt "<" ++ field in
  found ← roccurrenceLoop fuel occurrence xml tag quoteType before;
  Some match found with
       | None => Ok ([], npos)
       | Some findpos => fieldValue xml tag valueField quoteType findpos
       end.

(** *** Extraction undoes rendering *)

Definition lt : ascii := chr 60.
Definition apos : ascii := chr 39.

(** [<name value='...'/>] *)
Definition attributeText (v : text) : text := txt " value='" ++ v ++ txt "'/>".
Definition renderElement (e : text * text) : text := lt :: e.1 ++ attributeText e.2.
Definition document (l : list (text * text)) : text := concat (renderElement <$> l).

Definition plainName (name : text) : Prop :=
  Forall (fun c => c <> lt /\ c <> chr 32 /\ c <> chr 10 /\ c <> chr 9) name.
Definition plainElement (e : text * text) : Prop :=
  plainName e.1 /\ Forall (fun c => c <> lt) e.2 /\ Forall (fun c => c <> apos) e.2.

(** The [n]-th element of a name, with its position. *)
Fixpoint locate (l : list (text * text)) (name : text) (n : nat) (pos : Z) : option (text * Z) :=
  match l with
  | [] => None
  | e :: l =>
      let next := pos + size (renderElement e) in
      if bool_decide (e.1 = name) then match n with O => Some (e.2, pos) | S n => locate l name n next end
      else locate l name n next
  end.

Lemma findIn_cons_no a p c s : starts_with (a :: p) (c :: s) = false ->
  findIn (a :: p) (c :: s) = S <$> findIn (a :: p) s.
Proof. intros H. cbn [findIn]. by rewrite H. Qed.

(** A name is a prefix of another tag's text only if it is a prefix of its
    name; then the character behind it tells. *)
Lemma name_prefix f g rest : plainName f -> plainName g ->
  starts_with f (g ++ chr 32 :: rest) = true ->
  exists g', g = f ++ g'.
Proof.
  intros Hf Hg. revert g Hg. induction Hf as [|c f [_ [Hc _]] _ IH]; intros g Hg H.
  - by exists g.
  - inversion Hg as [|d g' Hd Hg']; subst; cbn [app starts_with] in H.
    + by destruct (Ascii.eqb_spec c (chr 32)).
    + destruct (Ascii.eqb_spec c d) as [->|]; [|done]. destruct (IH g' Hg' H) as [g'' ->]. by exists g''.
Qed.

Lemma attribute_no_lt v : Forall (fun c => c <> lt) v -> Forall (fun c => c <> lt) (attributeText v).
Proof.
  intros H. unfold attributeText. apply Forall_app; split; [|apply Forall_app; split; [done|]];
    repeat constructor; discriminate.
Qed.

Lemma plainName_no_lt g : plainName g -> Forall (fun c => c <> lt) g.
Proof. intros H. eapply Forall_impl; [exact H|]. by intros c (? & _). Qed.

(** The next tag named [f]. *)
Fixpoint firstTag (l : list (text * text)) (f : text) (pos : Z) : option Z :=
  match l with
  | [] => None
  | e :: l => if bool_decide (e.1 = f) then Some (pos + (1 + size f)) else firstTag l f (pos + size (renderElement e))
  end.

Lemma document_cons g v l : document ((g, v) :: l) = lt :: g ++ attributeText v ++ document l.
Proof. unfold document. cbn [fmap list_fmap concat renderElement fst snd app]. by rewrite <- app_assoc. Qed.

Lemma tagLoop_find fuel xml tag q p1 p2 : find tag xml p1 = find tag xml p2 ->
  tagLoop fuel xml tag q p1 = tagLoop fuel xml tag q p2.
Proof. intros H. destruct fuel as [|fuel]; [done|]. cbn [tagLoop]. by rewrite H. Qed.

Lemma attribute_head v rest : attributeText v ++ rest = chr 32 :: txt "value='" ++ v ++ txt "'/>" ++ rest.
Proof. unfold attributeText. cbn. by rewrite <- app_assoc. Qed.

Lemma afterName_not c : c <> chr 32 -> c <> chr 10 -> c <> chr 9 -> afterName (txt "'") c = false.
Proof.
  intros H1 H2 H3. unfold afterName. change (tagText (txt "'")) with false. cbn [andb].
  destruct (Ascii.eqb_spec c (chr 32)); [done|]. destruct (Ascii.eqb_spec c (chr 10)); [done|]. by destruct (Ascii.eqb_spec c (chr 9)).
Qed.

(** The tag is the next thing after [junk]. *)
Lemma tag_here fuel f pre junk c rest : Forall (fun c => c <> lt) junk ->
  size (pre ++ junk ++ lt :: f ++ c :: rest) < npos ->
  tagLoop (S fuel) (pre ++ junk ++ lt :: f ++ c :: rest) (lt :: f) (txt "'") (size pre)
  = if afterName (txt "'") c then Some (size (pre ++ junk ++ lt :: f))
    else tagLoop fuel (pre ++ junk ++ lt :: f ++ c :: rest) (lt :: f) (txt "'") (size (pre ++ junk ++ lt :: f)).
Proof.
  intros Hj Hsize. cbn [tagLoop]. rewrite find_at, findIn_skip by done.
  pose proof (findIn_here (lt :: f) (c :: rest)) as Hh. cbn [app] in Hh. rewrite Hh. cbn [fmap option_fmap option_map].
  rewrite !size_app, size_cons, !size_app, size_cons in Hsize.
  pose proof (size_nonneg pre). pose proof (size_nonneg junk). pose proof (size_nonneg f). pose proof (size_nonneg rest).
  replace (size pre + Z.of_nat (length junk + 0)) with (size pre + size junk) by (unfold size; lia).
  destruct (Z.eqb_spec (size pre + size junk) npos); [lia|]. rewrite size_cons.
  replace (size pre + size junk + (1 + size f)) with (size (pre ++ junk ++ lt :: f)) by (rewrite !size_app, size_cons; lia).
  replace (pre ++ junk ++ lt :: f ++ c :: rest) with ((pre ++ junk ++ lt :: f) ++ c :: rest)
    by (rewrite <- !app_assoc; done).
  rewrite char_at_app, size_app, size_cons.
  destruct (Z.leb_spec (size (pre ++ junk ++ lt :: f) + (1 + size rest)) (size (pre ++ junk ++ lt :: f))); [lia|done].
Qed.

(** Another tag is skipped. *)
Lemma tag_skip fuel f pre junk body rest : Forall (fun c => c <> lt) junk -> Forall (fun c => c <> lt) body ->
  starts_with f (body ++ rest) = false ->
  tagLoop fuel (pre ++ junk ++ lt :: body ++ rest) (lt :: f) (txt "'") (size pre)
  = tagLoop fuel (pre ++ junk ++ lt :: body ++ rest) (lt :: f) (txt "'") (size (pre ++ junk ++ lt :: body)).
Proof.
  intros Hj Hbody Hpre. apply tagLoop_find. rewrite find_at, findIn_skip by done.
  rewrite findIn_cons_no by (cbn [starts_with]; by rewrite Hpre). rewrite findIn_skip by done.
  replace (pre ++ junk ++ lt :: body ++ rest) with ((pre ++ junk ++ lt :: body) ++ rest)
    by (rewrite <- !app_assoc; done).
  rewrite find_at. destruct (findIn (lt :: f) rest) as [k|]; cbn [fmap option_fmap option_map]; [|done].
  unfold size. rewrite !length_app. cbn [length]. lia.
Qed.

Lemma size_renderElement g v : size (renderElement (g, v)) = 1 + size g + size (attributeText v).
Proof. unfold renderElement. cbn [fst snd]. rewrite size_cons, size_app. lia. Qed.

Lemma tagLoop_document f l : plainName f -> Forall plainElement l -> forall fuel pre junk,
  Forall (fun c => c <> lt) junk -> (length l < fuel)%nat -> size (pre ++ junk ++ document l) < npos ->
  tagLoop fuel (pre ++ junk ++ document l) (lt :: f) (txt "'") (size pre) = firstTag l f (size pre + size junk).
Proof.
  intros Hf Hl. induction Hl as [|[g v] l (Hg & Hv & _) Hl IH]; intros fuel pre junk Hj Hfuel Hsize;
    (destruct fuel as [|fuel]; [lia|]).
  - cbn [tagLoop]. rewrite find_at. unfold document. cbn [fmap list_fmap concat]. by rewrite app_nil_r, findIn_none.
  - cbn [fst snd length firstTag] in *. rewrite document_cons in *. rewrite size_renderElement.
    assert (Forall (fun c => c <> lt) (g ++ attributeText v)) as Hbody
      by (apply Forall_app; split; [by apply plainName_no_lt|by apply attribute_no_lt]).
    destruct (starts_with f (g ++ attributeText v ++ document l)) eqn:Hpre.
    + rewrite attribute_head in Hpre. destruct (name_prefix _ _ _ Hf Hg Hpre) as [[|c g'] ->].
      * rewrite app_nil_r, bool_decide_eq_true_2 by done. rewrite app_nil_r, attribute_head in Hsize. rewrite attribute_head, tag_here by done.
        change (afterName (txt "'") (chr 32)) with true. cbv iota. f_equal. rewrite !size_app, size_cons. lia.
      * unfold plainName in Hg. rewrite Forall_app in Hg. destruct Hg as [_ Hg].
        inversion Hg as [|? ? (Hc1 & Hc2 & Hc3 & Hc4) _]; subst. rewrite <- !app_assoc in *. cbn [app] in *.
        rewrite tag_here, afterName_not by done.
        rewrite bool_decide_eq_false_2 by (intros E; apply (f_equal length) in E; rewrite length_app in E; cbn in E; lia).
        pose proof (IH fuel (pre ++ junk ++ lt :: f) (c :: g' ++ attributeText v)) as IH'.
        rewrite <- !app_assoc in IH'. cbn [app] in IH'. rewrite <- !app_assoc in IH'.
        rewrite IH'; [|by apply Forall_app in Hbody as [_ ?]|lia|done].
        f_equal. rewrite !size_app, !size_cons, !size_app. lia.
    + rewrite bool_decide_eq_false_2 by (intros ->; by rewrite starts_with_app in Hpre).
      rewrite app_assoc in Hpre. rewrite (app_assoc g) in *. rewrite tag_skip by done.
      pose proof (IH (S fuel) (pre ++ junk ++ lt :: g ++ attributeText v) []) as IH'. rewrite <- !app_assoc in IH'. cbn [app] in IH'.
      rewrite <- !app_assoc in *. rewrite IH'; [|constructor|lia|done].
      f_equal. rewrite !size_app, size_cons, size_app. change (size []) with 0. lia.
Qed.

Lemma document_app l1 l2 : document (l1 ++ l2) = document l1 ++ document l2.
Proof. unfold document. by rewrite fmap_app, concat_app. Qed.

Lemma document_length l : (length l <= length (document l))%nat.
Proof. induction l as [|[g v] l IH]; [done|]. rewrite document_cons. cbn [length]. rewrite !length_app. lia. Qed.

Lemma firstTag_split f l : forall pos, match firstTag l f pos with
  | Some p => exists l1 v l2, l = l1 ++ (f, v) :: l2 /\ p = pos + size (document l1) + (1 + size f) /\
      Forall (fun e => e.1 <> f) l1
  | None => Forall (fun e => e.1 <> f) l
  end.
Proof.
  induction l as [|[g v] l IH]; intros pos; cbn [firstTag fst]; [constructor|].
  destruct (decide (g = f)) as [->|Hne].
  - rewrite bool_decide_eq_true_2 by done. exists [], v, l. split_and!; [done| |constructor].
    unfold document. cbn. change (size []) with 0. lia.
  - rewrite bool_decide_eq_false_2 by done. specialize (IH (pos + size (renderElement (g, v)))).
    destruct (firstTag l f _) as [p|]; [|by constructor].
    destruct IH as (l1 & w & l2 & -> & -> & Hl1). exists ((g, v) :: l1), w, l2. split_and!; [done| |by constructor].
    rewrite document_cons, app_assoc, size_cons, !size_app, size_renderElement. lia.
Qed.

Lemma locate_skip f n l1 l2 : Forall (fun e => e.1 <> f) l1 -> forall pos,
  locate (l1 ++ l2) f n pos = locate l2 f n (pos + size (document l1)).
Proof.
  induction 1 as [|[g v] l1 Hne _ IH]; intros pos.
  - cbn [app]. f_equal. unfold document. cbn. change (size []) with 0. lia.
  - cbn [app locate fst] in *. rewrite bool_decide_eq_false_2 by done. rewrite IH. f_equal.
    rewrite document_cons, app_assoc, size_cons, !size_app, size_renderElement. lia.
Qed.

(** What the search for an occurrence finds. *)
Lemma occurrenceLoop_document f n : plainName f -> forall l pre junk,
  Forall plainElement l -> Forall (fun c => c <> lt) junk -> size (pre ++ junk ++ document l) < npos ->
  match locate l f n (size pre + size junk) with
  | None => occurrenceLoop n (pre ++ junk ++ document l) (lt :: f) (txt "'") (size pre) = None
  | Some (v, p) => exists A B, pre ++ junk ++ document l = A ++ renderElement (f, v) ++ B /\ p = size A /\
      plainElement (f, v) /\
      occurrenceLoop n (pre ++ junk ++ document l) (lt :: f) (txt "'") (size pre) = Some (size (A ++ lt :: f))
  end.
Proof.
  intros Hf. induction n as [|n IH]; intros l pre junk Hl Hj Hsize; cbn [occurrenceLoop];
    rewrite tagLoop_document by (done || rewrite !length_app; pose proof (document_length l); lia);
    pose proof (firstTag_split f l (size pre + size junk)) as Hfirst;
    destruct (firstTag l f _) as [p|]; cbn [mbind option_bind].
  1, 3: destruct Hfirst as (l1 & v & l2 & -> & -> & Hl1); rewrite locate_skip by done; cbn [locate fst];
    rewrite bool_decide_eq_true_2 by done; rewrite document_app, document_cons in *;
    apply Forall_app in Hl as [Hl1' Hl]; apply Forall_cons in Hl as [Hv Hl2].
  - exists (pre ++ junk ++ document l1), (document l2). split_and!; [|by rewrite !size_app; lia|done|].
    + unfold renderElement. cbn [fst snd app]. by rewrite <- !app_assoc.
    + f_equal. rewrite !size_app, size_cons. lia.
  - specialize (IH l2 (pre ++ junk ++ document l1 ++ lt :: f) (attributeText v) Hl2).
    replace (pre ++ junk ++ document l1 ++ lt :: f ++ attributeText v ++ document l2)
      with ((pre ++ junk ++ document l1 ++ lt :: f) ++ attributeText v ++ document l2) in *
      by (rewrite <- !app_assoc; done).
    replace (size pre + size junk + size (document l1) + (1 + size f)) with (size (pre ++ junk ++ document l1 ++ lt :: f))
      by (rewrite !size_app, size_cons; lia).
    replace (size pre + size junk + size (document l1) + size (renderElement (f, v)))
      with (size (pre ++ junk ++ document l1 ++ lt :: f) + size (attributeText v))
      by (rewrite size_renderElement, !size_app, size_cons; lia).
    apply IH; [apply attribute_no_lt, Hv|done].
  - rewrite <- (app_nil_r l), locate_skip by done. done.
  - rewrite <- (app_nil_r l), locate_skip by done. done.
Qed.

Lemma fieldValue_rendered A f v B : Forall (fun c => c <> apos) v -> size (A ++ renderElement (f, v) ++ B) < npos - 16 ->
  fieldValue (A ++ renderElement (f, v) ++ B) (lt :: f) (txt "value=") (txt "'") (size (A ++ lt :: f)) = Ok (v, size A).
Proof.
  intros Hv Hsize. unfold npos in Hsize. change (2 ^ 64) with 18446744073709551616 in Hsize.
  assert (A ++ renderElement (f, v) ++ B = (A ++ lt :: f) ++ chr 32 :: txt "value='" ++ v ++ apos :: txt "/>" ++ B) as Hxml.
  { unfold renderElement, attributeText. cbn [fst snd]. rewrite <- !app_assoc. cbn [app]. by rewrite <- !app_assoc. }
  rewrite Hxml in Hsize |- *. clear Hxml. set (pre := A ++ lt :: f) in *.
  assert (size pre = size A + (1 + size f)) as Hpre by (unfold pre; rewrite size_app, size_cons; lia).
  rewrite !size_app, size_cons, !size_app, size_cons, size_app in Hsize.
  unfold fieldValue. change (txt "value=" ++ txt "'") with (txt "value='").
  rewrite find_at. change (findIn (txt "value='") (chr 32 :: txt "value='" ++ v ++ apos :: txt "/>" ++ B)) with
    (S <$> findIn (txt "value='") (txt "value='" ++ v ++ apos :: txt "/>" ++ B)). rewrite findIn_here. cbn [fmap option_fmap option_map].
  change (size (txt "value=")) with 6. change (size (txt "'")) with 1. change (size (txt "value='")) with 7 in Hsize.
  change (size (txt "/>")) with 2 in Hsize.
  pose proof (size_nonneg pre). pose proof (size_nonneg v). pose proof (size_nonneg B).
  rewrite wrap_small by (unfold in_range; change (2 ^ 64) with 18446744073709551616; lia).
  change (closing (txt "'")) with [apos].
  replace (pre ++ chr 32 :: txt "value='" ++ v ++ apos :: txt "/>" ++ B)
    with ((pre ++ txt " value='") ++ v ++ apos :: txt "/>" ++ B) by (by rewrite <- !app_assoc).
  replace (size pre + Z.of_nat 1 + 6 + 1) with (size (pre ++ txt " value='"))
    by (rewrite (size_app _ (txt " value='")); change (size (txt " value='")) with 8; lia).
  rewrite find_at, findIn_skip by done.
  pose proof (findIn_here [apos] (txt "/>" ++ B)) as Hh. cbn [app] in Hh |- *. rewrite Hh. cbn [fmap option_fmap option_map].
  replace (size (pre ++ txt " value='") + Z.of_nat (length v + 0)) with (size (pre ++ txt " value='") + size v)
    by (unfold size; lia).
  assert (size (pre ++ txt " value='") = size pre + 8) as Hs by (rewrite size_app; done).
  destruct (Z.eqb_spec (size (pre ++ txt " value='") + size v) npos) as [E|_];
    [unfold npos in E; change (2 ^ 64) with 18446744073709551616 in E; lia|].
  replace (size (pre ++ txt " value='") + size v - size (pre ++ txt " value='")) with (size v) by lia.
  rewrite sub_app. cbn [mbind result_bind]. do 2 f_equal. rewrite (size_cons lt f). lia.
Qed.

(** Extraction undoes rendering: from a document of elements
    [<name value='...'/>], [extractXmlField] returns the value of the [n]-th
    element of a name, with its position, also when the name is the beginning
    of other names; and the empty string when there is no such element. *)
Theorem extractXmlField_rendered l f n :
  plainName f -> Forall plainElement l -> size (document l) < npos - 16 ->
  extractXmlField (document l) f n 0 (txt "value=") (txt "'") = Ok (default ([], npos) (locate l f n 0)).
Proof.
  intros Hf Hl Hsize. unfold extractXmlField. change (txt "<" ++ f) with (lt :: f).
  pose proof (occurrenceLoop_document f n Hf l [] []) as H. cbn [app] in H. change (size []) with 0 in H. change (0 + 0) with 0 in H.
  assert (size (document l) < npos) as Hs by lia. specialize (H Hl (Forall_nil_2 _) Hs). destruct (locate l f n 0) as [[v p]|].
  - destruct H as (A & B & Hd & -> & [_ [_ Hv]] & ->). rewrite Hd in *.
    by rewrite fieldValue_rendered.
  - by rewrite H.
Qed.

Lemma extractXmlField_rendered_witness :
  let l := [(txt "name", txt "gateway"); (txt "names", txt "x"); (txt "name", txt "fe")] in
  extractXmlField (document l) (txt "name") 1 0 (txt "value=") (txt "'") = Ok (txt "fe", 41).
Proof.
  intros l. assert (plainName (txt "name")) as Hf by (repeat constructor; discriminate).
  assert (Forall plainElement l) as Hl by (repeat constructor; discriminate).
  rewrite (extractXmlField_rendered l (txt "name") 1 Hf Hl); [|reflexivity].
  vm_compute. reflexivity.
Defined.

(** Searching backwards does not get past the first element it finds: the next
    search starts behind its tag. *)
Lemma rextract_occurrence_ignored :
  let xml := document [(txt "a", txt "1"); (txt "a", txt "2")] in
  rextractXmlField 9 xml (txt "a") 0 npos (txt "value=") (txt "'") = Some (Ok (txt "2", 14)) /\
  rextractXmlField 9 xml (txt "a") 1 npos (txt "value=") (txt "'") = Some (Ok (txt "2", 14)).
Proof. split; vm_compute; reflexivity. Qed.

(** And from a longer name at the very beginning it starts over at the end. *)
Lemma rextract_wraps :
  rextractXmlField 99 (document [(txt "ab", txt "1")]) (txt "a") 0 npos (txt "value=") (txt "'") = None.
Proof. vm_compute. reflexivity. Qed.

(** A field without the value asked for answers with a piece of the beginning
    of the document: [npos] plus the lengths wraps around. *)
Lemma missing_value_wraps :
  extractXmlField (txt "<x value='1'/><name class='2'/>") (txt "name") 0 0 (txt "value=") (txt "'") = Ok (txt "ue=", 14).
Proof. vm_compute. reflexivity. Qed.

(** ** IgnoreCaseCompareStruct *)

Fixpoint ignoreCaseCompare (lhs rhs : text) : bool :=
  match lhs, rhs with
  | a :: lhs, b :: rhs =>
      if (is_upper a && is_upper b) || (is_lower a && is_lower b) then
        if (a =? b)%char then ignoreCaseCompare lhs rhs else schar a <? schar b
      else if is_upper a then
        if schar a + 32 =? schar b then false else schar a + 32 <? schar b
      else if is_upper b then
        if schar a =? schar b + 32 then true else schar a <? schar b + 32
      else if (a =? b)%char then ignoreCaseCompare lhs rhs else schar a <? schar b
  | [], _ :: _ => true
  | _, [] => false
  end.

(** What the comparison orders characters by: the letter, then its case. *)
Definition caseKey (c : ascii) : Z := if is_upper c then 2 * (schar c + 32) + 1 else 2 * schar c.

Fixpoint lexLess (l r : list Z) : bool :=
  match l, r with
  | a :: l, b :: r => (a <? b) || ((a =? b) && lexLess l r)
  | [], _ :: _ => true
  | _, [] => false
  end.

Lemma schar_eq a b : schar a = schar b -> a = b.
Proof.
  pose proof (code_range a) as Ha. pose proof (code_range b) as Hb. unfold in_range in *. change (2 ^ 8) with 256 in *.
  unfold schar, swrap. change (2 ^ 8) with 256. change (2 ^ (8 - 1)) with 128. intros H. apply code_inj.
  Z.div_mod_to_equations. lia.
Qed.

Lemma is_upper_schar c : is_upper c = (65 <=? schar c) && (schar c <=? 90).
Proof. symmetry. by apply schar_between. Qed.
Lemma is_lower_schar c : is_lower c = (97 <=? schar c) && (schar c <=? 122).
Proof. symmetry. by apply schar_between. Qed.

Lemma caseKey_inj a b : caseKey a = caseKey b -> a = b.
Proof. unfold caseKey. destruct (is_upper a), (is_upper b); intros H; apply schar_eq; lia. Qed.

Lemma ignoreCaseCompare_key l : forall r, ignoreCaseCompare l r = lexLess (caseKey <$> l) (caseKey <$> r).
Proof.
  induction l as [|a l IH]; intros [|b r]; [done..|]. cbn [ignoreCaseCompare fmap list_fmap lexLess].
  rewrite IH. destruct (Ascii.eqb_spec a b) as [->|Hne].
  - rewrite Z.ltb_irrefl, Z.eqb_refl. destruct (is_upper b), (is_lower b); done.
  - assert (schar a <> schar b) by (intros ?; by apply Hne, schar_eq).
    assert (caseKey a <> caseKey b) by (intros ?; by apply Hne, caseKey_inj).
    destruct (Z.eqb_spec (caseKey a) (caseKey b)); [done|]. cbn [andb]. rewrite orb_false_r. clear IH.
    pose proof (is_upper_schar a). pose proof (is_upper_schar b). pose proof (is_lower_schar a). pose proof (is_lower_schar b).
    unfold caseKey in *. destruct (is_upper a), (is_upper b), (is_lower a), (is_lower b); cbn [andb orb]; try lia.
    all: first [destruct (Z.eqb_spec (schar a + 32) (schar b)); lia | destruct (Z.eqb_spec (schar a) (schar b + 32)); lia].
Qed.

Lemma lexLess_irrefl l : lexLess l l = false.
Proof. induction l as [|a l IH]; [done|]. cbn. by rewrite Z.ltb_irrefl, IH, andb_false_r. Qed.

Lemma lexLess_trans a b c : lexLess a b = true -> lexLess b c = true -> lexLess a c = true.
Proof.
  revert b c. induction a as [|x a IH]; intros [|y b] [|z c]; cbn; try done.
  rewrite !orb_true_iff, !andb_true_iff, !Z.ltb_lt, !Z.eqb_eq. intros [?|[-> ?]] [?|[-> ?]]; [left; lia..|].
  right. split; [done|]. by apply (IH b).
Qed.

Lemma lexLess_total a b : lexLess a b = true \/ a = b \/ lexLess b a = true.
Proof.
  revert b. induction a as [|x a IH]; intros [|y b]; cbn; [auto..|].
  destruct (Z.lt_trichotomy x y) as [H|[->|H]].
  - left. apply Z.ltb_lt in H. by rewrite H.
  - rewrite Z.ltb_irrefl, Z.eqb_refl. cbn. destruct (IH b) as [H|[->|H]]; auto.
  - right. right. apply Z.ltb_lt in H. by rewrite H.
Qed.

(** The case-ignoring comparison is a strict total order on strings, so a
    [std::set] ordered by it is well defined and still keeps strings apart
    that differ only in case. *)
Theorem ignoreCaseCompare_strict_total a b c :
  ignoreCaseCompare a a = false /\
  (ignoreCaseCompare a b = true -> ignoreCaseCompare b c = true -> ignoreCaseCompare a c = true) /\
  (ignoreCaseCompare a b = true \/ a = b \/ ignoreCaseCompare b a = true).
Proof.
  rewrite !ignoreCaseCompare_key. split_and!; [apply lexLess_irrefl|apply lexLess_trans|].
  destruct (lexLess_total (caseKey <$> a) (caseKey <$> b)) as [?|[E|?]]; [by left| |by right; right].
  right. left. revert E. apply list_fmap_eq_inj. intros ??. apply caseKey_inj.
Qed.

End StringExpansion.
