(* ===== verification/ProgressBar.v ===== *)
(** * Progress bars

    src/otsdaq/ProgressBar/ProgressBar.cc: a step counter measured against the
    number of steps of the previous run, which is kept in a file. *)

From S2P Require Import Prelude CText.

Module ProgressBar.

(** [files] is the content of the files under
    [$SERVICE_DATA_PATH/ProgressBarData/], by file name.  The mutex only
    serialises the operations. *)
Record ProgressBar := mkProgressBar {
  totalStepsFileName_ : text;
  stepCount_ : Z;
  stepsToComplete_ : Z;
  started_ : bool;
  files : gmap text text;
}.

Definition construct (fs : gmap text text) : ProgressBar := mkProgressBar [] 0 0 false fs.

(** [fscanf(fp, "%d", ...)]: [None] when nothing matches. *)
Definition scan_d (s : text) : option Z :=
  let s := skip_space s in
  let '(neg, s) := match s with
                   | c :: s' => if code c =? 45 then (true, s') else if code c =? 43 then (false, s') else (false, s)
                   | [] => (false, [])
                   end in
  match s with
  | c :: _ =>
      if is_digit c then
        let v := read_digits s 0 in
        Some (s32 (Z.min (2 ^ 63 - 1) (Z.max (- 2 ^ 63) (if neg : bool then - v else v))))
      else None
  | [] => None
  end.

(** The file name: everything but letters and digits becomes an underscore.
    [None]: [sprintf] overruns [fn[1000]]. *)
Definition stepsFile (file lineNumber : text) (id : Z) : option text :=
  let fn := c_str file ++ [chr 95] ++ c_str lineNumber ++ [chr 95] ++ to_string_signed id in
  if (length fn <? 1000)%nat then
    Some ((fun c => if is_digit c || is_lower c || is_upper c then c else chr 95) <$> fn)
  else None.

Definition reset (p : ProgressBar) (file lineNumber : text) (id : Z) : option ProgressBar :=
  fn ← stepsFile file lineNumber id;
  let steps := match files p !! fn with
               | Some content => default 0 (scan_d content)
               | None => 0
               end in
  Some (mkProgressBar fn 0 steps true (files p)).

Definition step (p : ProgressBar) : ProgressBar :=
  let stepCount := s32 (stepCount_ p + 1) in
  mkProgressBar (totalStepsFileName_ p) stepCount
    (if negb (stepsToComplete_ p =? 0) && (stepsToComplete_ p <=? stepCount) then s32 (stepCount + 1) else stepsToComplete_ p)
    (started_ p) (files p).

Definition isComplete (p : ProgressBar) : bool := negb (started_ p).

Definition complete (p : ProgressBar) : ProgressBar :=
  let p := step p in
  mkProgressBar (totalStepsFileName_ p) (stepCount_ p) (stepCount_ p) false
    (<[totalStepsFileName_ p := to_string_signed (stepCount_ p)]> (files p)).

(** The quotient of the double division, which is exact enough for the
    truncation to be the integer quotient. *)
Definition read (p : ProgressBar) : Z :=
  if negb (started_ p) then 100
  else if negb (stepsToComplete_ p =? 0) then Z.quot (stepCount_ p * 100) (stepsToComplete_ p)
  else if stepCount_ p =? 0 then 0 else 50.

Definition readPercentageString (p : ProgressBar) : text := to_string_signed (read p).

Definition steps (n : nat) (p : ProgressBar) : ProgressBar := Nat.iter n step p.

(** A bar that was reset and stepped: [k] steps so far. *)
Record stepped (k : Z) (p : ProgressBar) : Prop := {
  st_count : stepCount_ p = k;
  st_started : started_ p = true;
  st_total : stepsToComplete_ p <= 0 \/ k < stepsToComplete_ p < 2 ^ 31;
}.

Lemma step_stepped k p : 0 <= k -> k + 2 < 2 ^ 31 -> stepped k p -> 0 <= stepsToComplete_ p ->
  stepped (k + 1) (step p) /\ 0 <= stepsToComplete_ (step p).
Proof.
  intros Hk Hb [Hc Hs Ht] H0. unfold step. rewrite Hc, s32_small by lia.
  rewrite (s32_small (k + 1 + 1)) by lia.
  destruct (Z.eqb_spec (stepsToComplete_ p) 0) as [E|E]; cbn [negb andb].
  - split; [constructor; cbn; [done|done|lia]|cbn; lia].
  - destruct (Z.leb_spec (stepsToComplete_ p) (k + 1)); (split; [constructor; cbn; [done|done|lia]|cbn; lia]).
Qed.

Lemma steps_stepped n k p : 0 <= k -> k + Z.of_nat n + 1 < 2 ^ 31 -> stepped k p -> 0 <= stepsToComplete_ p ->
  stepped (k + Z.of_nat n) (steps n p) /\ 0 <= stepsToComplete_ (steps n p).
Proof.
  intros Hk. induction n as [|n IH]; intros Hb Hp H0; [by rewrite Z.add_0_r|].
  destruct IH as [H1 H2]; [lia|done|done|]. cbn [steps Nat.iter nat_rect].
  replace (k + Z.of_nat (S n)) with (k + Z.of_nat n + 1) by lia. apply step_stepped; [lia|lia|done|done].
Qed.

Lemma reset_stepped p file lineNumber id p' :
  reset p file lineNumber id = Some p' -> 0 <= stepsToComplete_ p' -> stepped 0 p'.
Proof.
  unfold reset. destruct (stepsFile file lineNumber id) as [fn|]; [|done]. cbn [mbind option_bind].
  intros [= <-] H0. constructor; cbn [stepCount_ started_ stepsToComplete_] in *; [done|done|].
  destruct (decide (match files p !! fn with Some content => default 0 (scan_d content) | None => 0 end <= 0)); [by left|].
  right. split; [lia|]. destruct (files p !! fn) as [c|]; [|lia].
  unfold scan_d. destruct (match skip_space c with [] => _ | _ :: _ => _ end) as [neg [|c' s]]; [cbn; lia|].
  destruct (is_digit c'); [|cbn; lia]. cbn [default from_option Datatypes.id]. unfold swrap. change (2 ^ (32 - 1)) with (2 ^ 31).
  match goal with |- (?x mod _) - _ < _ => pose proof (Z.mod_pos_bound x (2 ^ 32) ltac:(lia)) end.
  lia.
Qed.

Lemma read_stepped k p : 0 <= k -> stepped k p -> 0 <= stepsToComplete_ p -> 0 <= read p < 100.
Proof.
  intros Hk [Hc Hs Ht] H0. unfold read. rewrite Hs, Hc. cbn [negb].
  destruct (Z.eqb_spec (stepsToComplete_ p) 0); cbn [negb]; [destruct (k =? 0); lia|].
  rewrite Z.quot_div_nonneg by lia. split; [apply Z.div_pos; lia|]. apply Z.div_lt_upper_bound; lia.
Qed.

Lemma scan_to_string k : 0 <= k < 2 ^ 31 -> scan_d (to_string_signed k) = Some k.
Proof.
  intros Hk. unfold to_string_signed. destruct (Z.ltb_spec k 0); [lia|].
  destruct (to_string_unsigned_cons k ltac:(lia)) as (c & s & E & Hc).
  pose proof (read_digits_to_string k ltac:(lia)) as Hv. rewrite E in *.
  unfold scan_d. rewrite skip_space_digit by done. pose proof (is_digit_code c Hc).
  destruct (Z.eqb_spec (code c) 45); [lia|]. destruct (Z.eqb_spec (code c) 43); [lia|].
  rewrite Hc, Hv. f_equal. rewrite s32_small; lia.
Qed.

(** A run of [n] steps shows a percentage between 0 and 99 until
    [complete], 100 after it, and leaves the next run of the same name
    measured against exactly the [n + 1] steps this one took, whatever the
    steps file held before (if it held no negative number). *)
Theorem progress_run p file lineNumber id p0 (n : nat) :
  reset p file lineNumber id = Some p0 -> 0 <= stepsToComplete_ p0 -> Z.of_nat n + 2 < 2 ^ 31 ->
  0 <= read (steps n p0) < 100 /\
  read (complete (steps n p0)) = 100 /\
  exists p1, reset (complete (steps n p0)) file lineNumber id = Some p1 /\
    stepsToComplete_ p1 = Z.of_nat n + 1 /\ read p1 = 0.
Proof.
  intros Hreset H0 Hn. pose proof (reset_stepped _ _ _ _ _ Hreset H0) as Hst.
  destruct (steps_stepped n 0 p0) as [Hn1 Hn2]; [lia|lia|done|done|].
  destruct (step_stepped (0 + Z.of_nat n) (steps n p0)) as [[Hc _ _] _]; [lia|lia|done|done|].
  assert (Hname : totalStepsFileName_ (step (steps n p0)) = totalStepsFileName_ p0).
  { unfold steps. clear. induction n as [|n IH]; [done|]. exact IH. }
  split; [by apply (read_stepped (0 + Z.of_nat n)); [lia|done..]|]. split; [done|].
  unfold reset in *. destruct (stepsFile file lineNumber id) as [fn|]; [|done]. cbn [mbind option_bind] in *.
  injection Hreset as <-. cbn [totalStepsFileName_] in Hname.
  eexists. split; [reflexivity|]. unfold complete. cbn [files]. rewrite Hname, lookup_insert_eq, Hc.
  cbn [stepsToComplete_]. rewrite scan_to_string by lia. cbn [default from_option Datatypes.id]. split; [lia|].
  unfold read. cbn [started_ stepsToComplete_ stepCount_ negb]. by destruct (Z.eqb_spec (0 + Z.of_nat n + 1) 0); [lia|].
Qed.

Lemma progress_run_witness :
  let p0 := mkProgressBar (txt "Configure_Gateway_0") 0 0 true ∅ in
  0 <= read (steps 3 p0) < 100 /\ read (complete (steps 3 p0)) = 100 /\
  exists p1, reset (complete (steps 3 p0)) (txt "Configure") (txt "Gateway") 0 = Some p1 /\
    stepsToComplete_ p1 = Z.of_nat 3 + 1 /\ read p1 = 0.
Proof. apply (progress_run (construct ∅)); [reflexivity|cbn; lia|lia]. Defined.

End ProgressBar.
