(* ===== verification/FiniteStateMachine.v ===== *)
(** * The finite state machine

    src/otsdaq/XdaqLite/include/toolbox/fsm/FiniteStateMachine.h (the machine
    the framework provides) and src/otsdaq/FiniteStateMachine/FiniteStateMachine.cc
    and .h (otsdaq's transitions on top of it).

    The functions an object binds to states and transitions are virtual: they
    are the parameter [call], which runs one of them ([Fn]) for an event on the
    machine and the rest of the object ([X]).  The clock is a parameter too. *)

From S2P Require Import Prelude.

(** toolbox::fsm::State *)
Abbreviation State := ascii.

Record Message := mkMessage { command : string; parameters : gmap string string }.

(** [SOAPUtilities::makeSOAPMessageReference(command)] *)
Definition makeSOAPMessageReference (c : string) : Message := mkMessage c ∅.
(** [getParameters().getValue(name)] *)
Definition getValue (m : Message) (name : string) : result string :=
  match parameters m !! name with Some v => Ok v | None => Throw RuntimeError end.

Module FiniteStateMachine.

Definition FAILED_STATE : State := "F"%char.
Definition FAILED_STATE_NAME : string := "Failed".
Definition ERROR_TRANSITION_NAME : string := "Error".
Definition INITIAL_STATE_NAME : string := "Initial".
Definition CONFIGURE_TRANSITION_NAME : string := "Configure".

Section FiniteStateMachine.
Context {Fn X : Type}.

Record FiniteStateMachine := mkFSM {
  (* toolbox::fsm::FiniteStateMachine *)
  currentState_ : State;
  initialState_ : State;
  states_ : list State;
  stateNames_ : gmap State string;
  stateTransitionTable_ : gmap State (gmap string State);
  stateActions_ : gmap State Fn;
  transitionActions_ : gmap State (gmap string Fn);
  failedAction_ : option Fn;
  failedChanged_ : option Fn;
  (* ots::FiniteStateMachine *)
  stateEntranceTime_ : Z;
  inTransition_ : bool;
  provenanceState_ : State;
  currentTransition_ : string;
  stateTransitionNameTable_ : gmap State (gmap string string);
  stateTransitionParameterTable_ : gmap State (gmap string string);
  theMessage_ : option Message;
  theErrorMessage_ : string;
  stateMachineName_ : string;
}.

Definition set_current f s :=
  mkFSM s (initialState_ f) (states_ f) (stateNames_ f) (stateTransitionTable_ f) (stateActions_ f)
    (transitionActions_ f) (failedAction_ f) (failedChanged_ f) (stateEntranceTime_ f) (inTransition_ f)
    (provenanceState_ f) (currentTransition_ f) (stateTransitionNameTable_ f) (stateTransitionParameterTable_ f)
    (theMessage_ f) (theErrorMessage_ f) (stateMachineName_ f).
(** The names, rows and hooks. *)
Definition set_tables f ini sts names tr sa ta fa fc tn tp :=
  mkFSM (currentState_ f) ini sts names tr sa ta fa fc (stateEntranceTime_ f) (inTransition_ f)
    (provenanceState_ f) (currentTransition_ f) tn tp (theMessage_ f) (theErrorMessage_ f) (stateMachineName_ f).
(** What a transition changes besides the state. *)
Definition set_progress f time inTransition provenance transition message :=
  mkFSM (currentState_ f) (initialState_ f) (states_ f) (stateNames_ f) (stateTransitionTable_ f) (stateActions_ f)
    (transitionActions_ f) (failedAction_ f) (failedChanged_ f) time inTransition
    provenance transition (stateTransitionNameTable_ f) (stateTransitionParameterTable_ f)
    message (theErrorMessage_ f) (stateMachineName_ f).
Definition set_inTransition f b :=
  set_progress f (stateEntranceTime_ f) b (provenanceState_ f) (currentTransition_ f) (theMessage_ f).
Definition set_error f e :=
  mkFSM (currentState_ f) (initialState_ f) (states_ f) (stateNames_ f) (stateTransitionTable_ f) (stateActions_ f)
    (transitionActions_ f) (failedAction_ f) (failedChanged_ f) (stateEntranceTime_ f) (inTransition_ f)
    (provenanceState_ f) (currentTransition_ f) (stateTransitionNameTable_ f) (stateTransitionParameterTable_ f)
    (theMessage_ f) e (stateMachineName_ f).
Definition setStateMachineName f name :=
  mkFSM (currentState_ f) (initialState_ f) (states_ f) (stateNames_ f) (stateTransitionTable_ f) (stateActions_ f)
    (transitionActions_ f) (failedAction_ f) (failedChanged_ f) (stateEntranceTime_ f) (inTransition_ f)
    (provenanceState_ f) (currentTransition_ f) (stateTransitionNameTable_ f) (stateTransitionParameterTable_ f)
    (theMessage_ f) (theErrorMessage_ f) name.

(** ** Building a machine *)

(** [stateNames_[s] = name], and the state's entry action if there is one. *)
Definition setStateName f (s : State) (name : string) : FiniteStateMachine :=
  set_tables f (initialState_ f) (states_ f) (<[s := name]> (stateNames_ f)) (stateTransitionTable_ f)
    (stateActions_ f) (transitionActions_ f) (failedAction_ f) (failedChanged_ f)
    (stateTransitionNameTable_ f) (stateTransitionParameterTable_ f).
Definition addState f (s : State) (name : string) (func : option Fn) : FiniteStateMachine :=
  let sts := if bool_decide (s ∈ states_ f) then states_ f else states_ f ++ [s] in
  set_tables f (initialState_ f) sts (<[s := name]> (stateNames_ f)) (stateTransitionTable_ f)
    (match func with Some fn => <[s := fn]> (stateActions_ f) | None => stateActions_ f end)
    (transitionActions_ f) (failedAction_ f) (failedChanged_ f)
    (stateTransitionNameTable_ f) (stateTransitionParameterTable_ f).

(** [table[from][input] = v] *)
Definition setEntry {V} (table : gmap State (gmap string V)) (from : State) (input : string) (v : V) :=
  <[from := <[input := v]> (default ∅ (table !! from))]> table.
Definition entry {V} (table : gmap State (gmap string V)) (from : State) (input : string) : option V :=
  row ← table !! from; row !! input.

(** The two [addStateTransition]s of ots: with a parameter or without. *)
Definition addStateTransition f (from to : State) (input transitionName : string)
    (transitionParameter : option string) (func : Fn) : FiniteStateMachine :=
  set_tables f (initialState_ f) (states_ f) (stateNames_ f)
    (setEntry (stateTransitionTable_ f) from input to) (stateActions_ f)
    (setEntry (transitionActions_ f) from input func) (failedAction_ f) (failedChanged_ f)
    (setEntry (stateTransitionNameTable_ f) from input transitionName)
    (match transitionParameter with
     | Some p => setEntry (stateTransitionParameterTable_ f) from input p
     | None => stateTransitionParameterTable_ f
     end).
Definition setFailedStateTransition f (action changed : Fn) : FiniteStateMachine :=
  set_tables f (initialState_ f) (states_ f) (stateNames_ f) (stateTransitionTable_ f)
    (stateActions_ f) (transitionActions_ f) (Some action) (Some changed)
    (stateTransitionNameTable_ f) (stateTransitionParameterTable_ f).

(** The constructors: the failed state is registered from the start. *)
Definition construct (stateMachineName : string) : FiniteStateMachine :=
  addState (mkFSM (ascii_of_nat 0) (ascii_of_nat 0) [] ∅ ∅ ∅ ∅ None None 0 false "X"%char ""%string ∅ ∅ None ""%string
              stateMachineName) FAILED_STATE "failed" None.

(** ** Queries *)

Definition getStateName f (s : State) : string :=
  default (String s EmptyString) (stateNames_ f !! s).
Definition getCurrentStateName f : string := getStateName f (currentState_ f).
Definition getProvenanceStateName f : string := getStateName f (provenanceState_ f).
Definition getTransitions f (s : State) : gmap string State := default ∅ (stateTransitionTable_ f !! s).
Definition getInputs f (s : State) : gset string := dom (getTransitions f s).

Definition getTransitionFinalState f (transition : string) : result State :=
  match entry (stateTransitionTable_ f) (currentState_ f) transition with
  | Some s => Ok s
  | None =>
      if String.eqb transition ERROR_TRANSITION_NAME
      then (* operator[]: a missing entry is created as State() *)
        Ok (default (ascii_of_nat 0) (entry (stateTransitionTable_ f) FAILED_STATE ERROR_TRANSITION_NAME))
      else Throw FsmException
  end.
Definition getTransitionFinalStateName f (transition : string) : result string :=
  getStateName f <$> getTransitionFinalState f transition.

(** [at()] throws for a state without a row. *)
Definition getCurrentTransitionName f (transition : string) : result string :=
  let '(state, transition) :=
    if String.eqb transition "" then (provenanceState_ f, currentTransition_ f) else (currentState_ f, transition) in
  match stateTransitionNameTable_ f !! state with
  | None => Throw OutOfRange
  | Some row => Ok (default transition (row !! transition))
  end.
Definition getTransitionName f (from : State) (transition : string) : result string :=
  match entry (stateTransitionNameTable_ f) from transition with
  | Some name => Ok name
  | None => if String.eqb transition ERROR_TRANSITION_NAME then Ok transition else Throw FsmException
  end.
Definition getTransitionParameter f (from : State) (transition : string) : string :=
  default ""%string (entry (stateTransitionParameterTable_ f) from transition).

Definition setErrorMessage f (errMessage : string) (append : bool) : FiniteStateMachine :=
  set_error f (if append then String.append (theErrorMessage_ f) errMessage else errMessage).

(** ** Driving *)

Abbreviation World := (FiniteStateMachine * X)%type.
Variables (call : Fn -> string -> M World unit) (clock : X -> Z).

Definition getf {A} (g : FiniteStateMachine -> A) : M World A := gets (fun w => g w.1).
Definition setf (g : FiniteStateMachine -> FiniteStateMachine) : M World unit := modify (fun w => (g w.1, w.2)).
Definition getTimeInState : M World Z := fun w =>
  (Ok (if stateEntranceTime_ w.1 =? 0 then 0 else clock w.2 - stateEntranceTime_ w.1), w).
Definition stampEntranceTime : M World unit := modify (fun w =>
  (set_progress w.1 (clock w.2) (inTransition_ w.1) (provenanceState_ w.1) (currentTransition_ w.1) (theMessage_ w.1), w.2)).

Definition callIf (fn : option Fn) (event : string) : M World unit :=
  match fn with Some fn => call fn event | None => mret tt end.

Definition enterFailedState : M World unit :=
  setf (fun f => set_current f FAILED_STATE) ≫= fun _ =>
  getf failedAction_ ≫= fun a => callIf a "FailedEvent" ≫= fun _ =>
  getf failedChanged_ ≫= fun c => callIf c "FailedEvent".

(** The state an input leads to, and the function bound to the transition. *)
Definition fireEvent (input : string) : M World unit :=
  getf (fun f => entry (stateTransitionTable_ f) (currentState_ f) input) ≫= fun target =>
  match target with
  | None => throw FsmException
  | Some to =>
      getf (fun f => entry (transitionActions_ f) (currentState_ f) input) ≫= fun act =>
      catch_all (callIf act input ≫= fun _ => mret true) (fun _ => enterFailedState ≫= fun _ => mret false) ≫= fun fired =>
      if fired : bool then
        setf (fun f => set_current f to) ≫= fun _ =>
        getf (fun f => stateActions_ f !! to) ≫= fun action => callIf action input
      else mret tt
  end.

Definition resetMachine : M World unit :=
  setf (fun f => set_current f (initialState_ f)) ≫= fun _ =>
  getf (fun f => stateActions_ f !! currentState_ f) ≫= fun action => callIf action "".

Definition setInitialState (s : State) : M World unit :=
  setf (fun f => set_tables f s (states_ f) (stateNames_ f) (stateTransitionTable_ f) (stateActions_ f)
                   (transitionActions_ f) (failedAction_ f) (failedChanged_ f) (stateTransitionNameTable_ f)
                   (stateTransitionParameterTable_ f)) ≫= fun _ =>
  setf (fun f => set_progress f (stateEntranceTime_ f) (inTransition_ f) s (currentTransition_ f) (theMessage_ f)) ≫= fun _ =>
  stampEntranceTime.

(** The general path of [execTransition]. *)
Definition execNormal (transition : string) (message : option Message) : M World bool :=
  getf inTransition_ ≫= fun busy =>
  if busy : bool then mret false
  else
    setf (fun f => set_progress f (stateEntranceTime_ f) true (currentState_ f) (currentTransition_ f) (theMessage_ f)) ≫= fun _ =>
    getf (fun f => getTransitions f (currentState_ f) !! transition) ≫= fun target =>
    match target with
    | None => setf (fun f => set_inTransition f false) ≫= fun _ => throw FsmException
    | Some _ =>
        setf (fun f => set_progress f (stateEntranceTime_ f) (inTransition_ f) (provenanceState_ f) transition message) ≫= fun _ =>
        catch_all (fireEvent transition)
          (fun _ => setf (fun f => set_inTransition f false) ≫= fun _ => throw FsmException) ≫= fun _ =>
        setf (fun f => set_inTransition f false) ≫= fun _ =>
        stampEntranceTime ≫= fun _ =>
        mret true
    end.

(** The first entry of a [std::map] with string keys. *)
Definition firstInput (row : gmap string State) : option string :=
  fold_right (fun p best => match best with
                            | Some b => if String.ltb p.1 b then Some p.1 else best
                            | None => Some p.1
                            end) None (map_to_list row).

(** [execTransition("fail")], once no transition is in progress: any
    transition is taken, whose function is expected to throw. *)
Definition execFail (message : option Message) : M World bool :=
  getf getCurrentStateName ≫= fun name =>
  if String.eqb name FAILED_STATE_NAME then mret true
  else
    getf (fun f => firstInput (getTransitions f (currentState_ f))) ≫= fun input =>
    match input with
    | None => execNormal "fail" message
    | Some input =>
        catch_if fsm_exn (fireEvent input) (fun _ => mret tt) ≫= fun _ =>
        setf (fun f => set_inTransition f false) ≫= fun _ =>
        stampEntranceTime ≫= fun _ =>
        mret true
    end.

(** [execTransition]: [None] while it waits for the current transition to
    complete. *)
Definition execTransition (transition : string) (message : option Message) (w : World) : option (result bool * World) :=
  if String.eqb transition "fail" then
    if inTransition_ w.1 then None else Some (execFail message w)
  else Some (execNormal transition message w).

(** ** What callers rely on *)

(** A bound function may do anything to the rest of the object, and to the
    machine's error message, but does not drive the machine itself. *)
Definition sameMachine f f' : Prop := f' = set_error f (theErrorMessage_ f').
Class WellBehaved : Prop := {
  call_frame : forall fn event w, sameMachine w.1 (call fn event w).2.1;
  call_defined : forall fn event w, (call fn event w).1 <> Throw Undefined;
}.

Lemma sameMachine_refl f : sameMachine f f.
Proof. by destruct f. Qed.
Lemma sameMachine_trans f g h : sameMachine f g -> sameMachine g h -> sameMachine f h.
Proof. unfold sameMachine. intros -> ->. by destruct f, h. Qed.

Lemma sameMachine_set_current f g s : sameMachine f g -> sameMachine (set_current f s) (set_current g s).
Proof. unfold sameMachine. intros ->. done. Qed.

Context `{!WellBehaved}.

Lemma callIf_frame fn event w : sameMachine w.1 (callIf fn event w).2.1.
Proof. destruct fn; [apply call_frame|apply sameMachine_refl]. Qed.

Lemma callIf_defined fn event w : (callIf fn event w).1 <> Throw Undefined.
Proof. destruct fn; [apply call_defined|done]. Qed.

(** Every function runs without an exception, for this event. *)
Definition quiet (fn : option Fn) (event : string) : Prop := forall w, (callIf fn event w).1 = Ok tt.

Lemma quiet_run fn event w : quiet fn event ->
  exists w', callIf fn event w = (Ok tt, w') /\ sameMachine w.1 w'.1.
Proof.
  intros Hq. pose proof (callIf_frame fn event w) as Hf. specialize (Hq w).
  destruct (callIf fn event w) as [r w']. cbn in *. subst. by exists w'.
Qed.

Lemma enterFailedState_run w :
  quiet (failedAction_ w.1) "FailedEvent" -> quiet (failedChanged_ w.1) "FailedEvent" ->
  exists w', enterFailedState w = (Ok tt, w') /\ sameMachine (set_current w.1 FAILED_STATE) w'.1.
Proof.
  intros Ha Hc. set (w0 := (set_current w.1 FAILED_STATE, w.2)).
  destruct (quiet_run _ _ w0 Ha) as (w1 & E1 & F1).
  destruct (quiet_run _ _ w1 Hc) as (w2 & E2 & F2). exists w2. split.
  - unfold enterFailedState, setf, getf, modify, gets, mbind, M_bind. fold w0.
    change (failedAction_ w0.1) with (failedAction_ w.1). rewrite E1.
    assert (failedChanged_ w1.1 = failedChanged_ w.1) as -> by (rewrite F1; done). exact E2.
  - by eapply sameMachine_trans.
Qed.

(** The transition function bound to [input] in state [s]. *)
Definition boundTo f (s : State) (input : string) : option Fn := entry (transitionActions_ f) s input.

(** No hook of the failed state, and no entry action of [to], throws. *)
Record calmHooks f (to : State) (input : string) : Prop := {
  ch_action : quiet (failedAction_ f) "FailedEvent";
  ch_changed : quiet (failedChanged_ f) "FailedEvent";
  ch_state : quiet (stateActions_ f !! to) input;
}.

(** Where a transition whose function gave [r] ends. *)
Definition landing (r : result unit) (to : State) : State := if is_ok r then to else FAILED_STATE.

Lemma fireEvent_run input to w :
  entry (stateTransitionTable_ w.1) (currentState_ w.1) input = Some to ->
  calmHooks w.1 to input ->
  let r := (callIf (boundTo w.1 (currentState_ w.1) input) input w).1 in
  exists w', fireEvent input w = (Ok tt, w') /\ sameMachine (set_current w.1 (landing r to)) w'.1.
Proof.
  intros Hto [Ha Hc Hs] r. unfold fireEvent, getf, gets, setf, modify, catch_if, mret, M_ret.
  unfold mbind, M_bind. cbv beta. rewrite Hto. cbv beta iota. unfold boundTo in r.
  pose proof (callIf_defined (entry (transitionActions_ w.1) (currentState_ w.1) input) input w) as Hr.
  pose proof (callIf_frame (entry (transitionActions_ w.1) (currentState_ w.1) input) input w) as F1.
  subst r. destruct (callIf _ input w) as [[[]|e] w1]; cbn [fst snd landing is_ok] in *.
  - destruct (quiet_run (stateActions_ w1.1 !! to) input (set_current w1.1 to, w1.2)) as (w2 & E2 & F2).
    { by rewrite F1. }
    exists w2. split.
    + cbn [set_current stateActions_]. rewrite E2. reflexivity.
    + eapply sameMachine_trans; [|exact F2]. cbn. unfold sameMachine in *. by rewrite F1.
  - assert (any_exn e = true) as -> by (by destruct e).
    destruct (enterFailedState_run w1) as (w2 & E2 & F2); [by rewrite F1|by rewrite F1|].
    exists w2. rewrite E2. split; [done|]. eapply sameMachine_trans; [|exact F2].
    unfold sameMachine in *. by rewrite F1.
Qed.

(** The machine just before the function of a transition runs, and after it
    landed in [s]. *)
Definition departing f (transition : string) (message : option Message) : FiniteStateMachine :=
  set_progress f (stateEntranceTime_ f) true (currentState_ f) transition message.
Definition arrived f (transition : string) (message : option Message) (s : State) (time : Z) : FiniteStateMachine :=
  set_current (set_progress f time false (currentState_ f) transition message) s.

Lemma execNormal_run transition message f x to :
  inTransition_ f = false ->
  entry (stateTransitionTable_ f) (currentState_ f) transition = Some to ->
  calmHooks f to transition ->
  let w0 := (departing f transition message, x) in
  let r := (callIf (boundTo f (currentState_ f) transition) transition w0).1 in
  exists w' time, execNormal transition message (f, x) = (Ok true, w') /\
    sameMachine (arrived f transition message (landing r to) time) w'.1.
Proof.
  intros Hin Hto [Ha Hc Hs] w0 r.
  destruct (fireEvent_run transition to w0 Hto) as (w1 & E1 & F1); [by constructor|].
  exists (set_progress w1.1 (clock w1.2) false (provenanceState_ w1.1) (currentTransition_ w1.1) (theMessage_ w1.1), w1.2), (clock w1.2).
  split.
  - unfold execNormal, getf, gets, setf, modify, catch_if, mret, M_ret, stampEntranceTime, modify.
    unfold mbind, M_bind. cbn [fst snd]. rewrite Hin. cbv beta iota. cbn [fst snd].
    assert (getTransitions f (currentState_ f) !! transition = Some to) as Hg.
    { unfold getTransitions, entry in *. destruct (stateTransitionTable_ f !! currentState_ f); done. }
    cbn [currentState_ set_progress getTransitions stateTransitionTable_] in *. unfold getTransitions in *.
    cbn [stateTransitionTable_ set_progress]. rewrite Hg. cbv beta iota.
    match goal with |- context [fireEvent transition ?w] => change w with w0 end. rewrite E1. reflexivity.
  - cbn [fst]. unfold sameMachine in *. rewrite F1. by destruct f.
Qed.

Lemma execNormal_busy transition message w : inTransition_ w.1 = true -> execNormal transition message w = (Ok false, w).
Proof. intros Hb. unfold execNormal, getf, gets, mbind, M_bind. by rewrite Hb. Qed.

Lemma execNormal_unknown transition message f x :
  inTransition_ f = false -> entry (stateTransitionTable_ f) (currentState_ f) transition = None ->
  execNormal transition message (f, x) =
    (Throw FsmException, (set_progress f (stateEntranceTime_ f) false (currentState_ f) (currentTransition_ f) (theMessage_ f), x)).
Proof.
  intros Hin Hto. unfold execNormal, getf, gets, setf, modify, throw, mbind, M_bind. cbn [fst snd].
  rewrite Hin. cbv beta iota. unfold getTransitions. cbn [stateTransitionTable_ currentState_ set_progress fst snd].
  unfold entry in Hto. destruct (stateTransitionTable_ f !! currentState_ f) as [row|]; cbn [default from_option id mbind option_bind] in *.
  - rewrite Hto. reflexivity.
  - rewrite lookup_empty. reflexivity.
Qed.

(** A transition that is in the table ends: with [true], no longer in
    transition, provenance and current transition recorded, in the target
    state when the bound function succeeded and in the failed state when it
    threw; one that is not in the table throws and leaves the state; during a
    transition any other is ignored. *)
Theorem execTransition_outcome transition message f x :
  transition <> "fail"%string ->
  (inTransition_ f = true -> execTransition transition message (f, x) = Some (Ok false, (f, x))) /\
  (inTransition_ f = false -> entry (stateTransitionTable_ f) (currentState_ f) transition = None ->
     exists f', execTransition transition message (f, x) = Some (Throw FsmException, (f', x)) /\
       currentState_ f' = currentState_ f /\ inTransition_ f' = false) /\
  (forall to, inTransition_ f = false -> entry (stateTransitionTable_ f) (currentState_ f) transition = Some to ->
     calmHooks f to transition ->
     let r := (callIf (boundTo f (currentState_ f) transition) transition (departing f transition message, x)).1 in
     exists w', execTransition transition message (f, x) = Some (Ok true, w') /\
       currentState_ w'.1 = (if is_ok r then to else FAILED_STATE) /\ inTransition_ w'.1 = false /\
       provenanceState_ w'.1 = currentState_ f /\ currentTransition_ w'.1 = transition).
Proof.
  intros Hne. unfold execTransition. destruct (String.eqb_spec transition "fail"); [done|]. split; [|split].
  - intros Hin. by rewrite execNormal_busy.
  - intros Hin Hto. rewrite execNormal_unknown by done. by eexists.
  - intros to Hin Hto Hh. destruct (execNormal_run transition message f x to Hin Hto Hh) as (w' & time & -> & F).
    exists w'. rewrite F. done.
Qed.

(** ** What every transition keeps, whatever throws *)

Lemma enterFailedState_frame w :
  sameMachine (set_current w.1 FAILED_STATE) (enterFailedState w).2.1 /\ (enterFailedState w).1 <> Throw Undefined.
Proof.
  unfold enterFailedState, setf, getf, modify, gets, mbind, M_bind. cbn [fst snd].
  pose proof (callIf_frame (failedAction_ (set_current w.1 FAILED_STATE)) "FailedEvent" (set_current w.1 FAILED_STATE, w.2)) as F1.
  pose proof (callIf_defined (failedAction_ (set_current w.1 FAILED_STATE)) "FailedEvent" (set_current w.1 FAILED_STATE, w.2)) as D1.
  destruct (callIf _ _ _) as [[[]|e] w1]; cbn [fst snd] in *; [|done].
  pose proof (callIf_frame (failedChanged_ w1.1) "FailedEvent" w1) as F2.
  pose proof (callIf_defined (failedChanged_ w1.1) "FailedEvent" w1) as D2.
  split; [by eapply sameMachine_trans|done].
Qed.

Lemma fireEvent_frame input w :
  (exists s, sameMachine (set_current w.1 s) (fireEvent input w).2.1 /\
    (s = currentState_ w.1 \/ s = FAILED_STATE \/ entry (stateTransitionTable_ w.1) (currentState_ w.1) input = Some s)) /\
  (fireEvent input w).1 <> Throw Undefined.
Proof.
  unfold fireEvent, getf, gets, setf, modify, catch_if, mret, M_ret, throw, mbind, M_bind. cbv beta.
  destruct (entry (stateTransitionTable_ w.1) (currentState_ w.1) input) as [to|] eqn:Hto.
  2:{ cbn [fst snd]. split; [|done]. exists (currentState_ w.1). split; [by destruct w as [[] ?]|by left]. }
  cbv beta iota.
  pose proof (callIf_frame (entry (transitionActions_ w.1) (currentState_ w.1) input) input w) as F1.
  pose proof (callIf_defined (entry (transitionActions_ w.1) (currentState_ w.1) input) input w) as D1.
  destruct (callIf (entry (transitionActions_ w.1) (currentState_ w.1) input) input w) as [[[]|e] w1]; cbn [fst snd] in *.
  - set (w2 := (set_current w1.1 to, w1.2)).
    pose proof (callIf_frame (stateActions_ w2.1 !! to) input w2) as F2.
    split; [|apply callIf_defined]. exists to. split; [|by right; right].
    eapply sameMachine_trans; [|exact F2]. by apply sameMachine_set_current.
  - assert (any_exn e = true) as -> by (by destruct e).
    pose proof (enterFailedState_frame w1) as [F2 D2].
    assert (F3 : sameMachine (set_current w.1 FAILED_STATE) (enterFailedState w1).2.1).
    { eapply sameMachine_trans; [|exact F2]. by apply sameMachine_set_current. }
    destruct (enterFailedState w1) as [[[]|e'] w2]; cbn [fst snd] in *; (split; [|done]); exists FAILED_STATE; auto.
Qed.

(** [f'] is [f] after a transition attempt: the tables are the same, nothing is
    in transition, and the state is the old one, the failed one, or a
    target of the old one. *)
Definition settled f f' : Prop :=
  exists s time provenance transition message,
    sameMachine (set_current (set_progress f time false provenance transition message) s) f' /\
    (s = currentState_ f \/ s = FAILED_STATE \/ exists input, entry (stateTransitionTable_ f) (currentState_ f) input = Some s).

Lemma settled_frame f g h : sameMachine g h -> settled f g -> settled f h.
Proof. intros F (s & t & p & c & m & F' & Hs). exists s, t, p, c, m. split; [|done]. by eapply sameMachine_trans. Qed.

Lemma execNormal_settled transition message w :
  inTransition_ w.1 = false ->
  settled w.1 (execNormal transition message w).2.1 /\ (execNormal transition message w).1 <> Throw Undefined.
Proof.
  destruct w as [f x]. cbn [fst]. intros Hin.
  destruct (entry (stateTransitionTable_ f) (currentState_ f) transition) as [to|] eqn:Hto.
  2:{ rewrite execNormal_unknown by done. cbn [fst snd]. split; [|done].
      exists (currentState_ f), (stateEntranceTime_ f), (currentState_ f), (currentTransition_ f), (theMessage_ f).
      split; [by destruct f|by left]. }
  pose proof (fireEvent_frame transition (departing f transition message, x)) as [(s & F & Hs) D].
  unfold execNormal, getf, gets, setf, modify, catch_if, mret, M_ret, stampEntranceTime, modify, throw, mbind, M_bind.
  cbn [fst snd]. rewrite Hin. cbv beta iota. unfold getTransitions.
  cbn [stateTransitionTable_ currentState_ set_progress fst snd].
  assert (default ∅ (stateTransitionTable_ f !! currentState_ f) !! transition = Some to) as ->.
  { unfold entry in Hto. by destruct (stateTransitionTable_ f !! currentState_ f). }
  cbv beta iota.
  match goal with |- context [fireEvent transition ?w] => change w with (departing f transition message, x) end.
  assert (Hs' : s = currentState_ f \/ s = FAILED_STATE \/ exists input, entry (stateTransitionTable_ f) (currentState_ f) input = Some s).
  { destruct Hs as [Hs|[Hs|Hs]]; eauto. }
  destruct (fireEvent transition (departing f transition message, x)) as [[[]|e] w1]; cbn [fst snd] in *.
  - split; [|done]. exists s, (clock w1.2), (provenanceState_ w1.1), (currentTransition_ w1.1), (theMessage_ w1.1).
    split; [|done]. unfold sameMachine in *. rewrite F. by destruct f.
  - assert (any_exn e = true) as -> by (by destruct e). cbn [fst snd]. split; [|done].
    exists s, (stateEntranceTime_ w1.1), (provenanceState_ w1.1), (currentTransition_ w1.1), (theMessage_ w1.1).
    split; [|done]. unfold sameMachine in *. rewrite F. by destruct f.
Qed.

Lemma execFail_settled message w :
  inTransition_ w.1 = false -> settled w.1 (execFail message w).2.1 /\ (execFail message w).1 <> Throw Undefined.
Proof.
  intros Hin. assert (Hself : settled w.1 w.1).
  { destruct w as [f x]. exists (currentState_ f), (stateEntranceTime_ f), (provenanceState_ f), (currentTransition_ f), (theMessage_ f).
    cbn [fst] in *. split; [unfold sameMachine; rewrite <- Hin at 1; by destruct f|by left]. }
  unfold execFail, getf, gets, setf, modify, catch_if, mret, M_ret, stampEntranceTime, modify, mbind, M_bind. cbv beta.
  destruct (String.eqb _ _); [done|]. destruct (firstInput _) as [input|]; [|by apply execNormal_settled].
  pose proof (fireEvent_frame input w) as [(s & F & Hs) D].
  assert (Hs' : s = currentState_ w.1 \/ s = FAILED_STATE \/ exists input, entry (stateTransitionTable_ w.1) (currentState_ w.1) input = Some s).
  { destruct Hs as [Hs|[Hs|Hs]]; eauto. }
  destruct (fireEvent input w) as [[[]|e] w1]; cbn [fst snd] in *; [|destruct (fsm_exn e); cbn [fst snd] in *].
  1,2: split; [|done]; exists s, (clock w1.2), (provenanceState_ w1.1), (currentTransition_ w1.1), (theMessage_ w1.1);
    (split; [|done]); unfold sameMachine in *; rewrite F; by destruct w as [[] ?].
  split; [|by intros [= ->]]. exists s, (stateEntranceTime_ w1.1), (provenanceState_ w1.1), (currentTransition_ w1.1), (theMessage_ w1.1).
  split; [|done]. unfold sameMachine in *. rewrite F. cbn. destruct w as [[] ?]; cbn in *. by subst.
Qed.

End FiniteStateMachine.
Arguments FiniteStateMachine Fn : clear implicits.
End FiniteStateMachine.
