(* ===== verification/VStateMachine.v ===== *)
(** * The interface of iterating state machines

    src/otsdaq/FiniteStateMachine/VStateMachine.h: the indices and work flags a
    plugin's transition functions see, and the progress text shown while a
    transition goes on.  The three tiers are the subsystem iterations (outermost),
    the iterations and the sub-iterations. *)

From S2P Require Import Prelude CText.

Module VStateMachine.

Abbreviation aliasMap := (gmap text (gmap Z text)).

Record VStateMachine := mkV {
  subsystemIterationAliasMap_ : aliasMap;
  iterationAliasMap_ : aliasMap;
  subIterationAliasMap_ : aliasMap;
  subsystemIterationIndex_ : Z;
  iterationIndex_ : Z;
  subIterationIndex_ : Z;
  systemMinReadyForEventGenerationStartIteration_ : Z;
  subsystemIterationWorkFlag_ : bool;
  iterationWorkFlag_ : bool;
  subIterationWorkFlag_ : bool;
  name_ : text;
  transitionName_ : text;
}.

Definition SUBSYSTEM_ITERATION_STANDALONE : Z := u32 (-1).

(** The alias maps are filled by the inheriting class. *)
Definition construct (name : text) : VStateMachine := mkV ∅ ∅ ∅ 0 0 0 0 false false false name [].

(** ** Setters and getters *)

Definition set_indices v ssi it sub minReady :=
  mkV (subsystemIterationAliasMap_ v) (iterationAliasMap_ v) (subIterationAliasMap_ v) ssi it sub minReady
    (subsystemIterationWorkFlag_ v) (iterationWorkFlag_ v) (subIterationWorkFlag_ v) (name_ v) (transitionName_ v).
Definition set_work v ss it sub :=
  mkV (subsystemIterationAliasMap_ v) (iterationAliasMap_ v) (subIterationAliasMap_ v) (subsystemIterationIndex_ v)
    (iterationIndex_ v) (subIterationIndex_ v) (systemMinReadyForEventGenerationStartIteration_ v) ss it sub
    (name_ v) (transitionName_ v).

Definition setSubsystemIterationIndex v i :=
  set_indices v i (iterationIndex_ v) (subIterationIndex_ v) (systemMinReadyForEventGenerationStartIteration_ v).
Definition setIterationIndex v i :=
  set_indices v (subsystemIterationIndex_ v) i (subIterationIndex_ v) (systemMinReadyForEventGenerationStartIteration_ v).
Definition setSubIterationIndex v i :=
  set_indices v (subsystemIterationIndex_ v) (iterationIndex_ v) i (systemMinReadyForEventGenerationStartIteration_ v).
Definition setSystemMinReadyForEventGenerationStartIteration v i :=
  set_indices v (subsystemIterationIndex_ v) (iterationIndex_ v) (subIterationIndex_ v) i.
Definition setTransitionName v transitionName :=
  mkV (subsystemIterationAliasMap_ v) (iterationAliasMap_ v) (subIterationAliasMap_ v) (subsystemIterationIndex_ v)
    (iterationIndex_ v) (subIterationIndex_ v) (systemMinReadyForEventGenerationStartIteration_ v)
    (subsystemIterationWorkFlag_ v) (iterationWorkFlag_ v) (subIterationWorkFlag_ v) (name_ v) transitionName.

Definition indicateSubsystemIterationWork v := set_work v true (iterationWorkFlag_ v) (subIterationWorkFlag_ v).
Definition clearSubsystemIterationWork v := set_work v false (iterationWorkFlag_ v) (subIterationWorkFlag_ v).
Definition indicateIterationWork v := set_work v (subsystemIterationWorkFlag_ v) true (subIterationWorkFlag_ v).
Definition clearIterationWork v := set_work v (subsystemIterationWorkFlag_ v) false (subIterationWorkFlag_ v).
Definition indicateSubIterationWork v := set_work v (subsystemIterationWorkFlag_ v) (iterationWorkFlag_ v) true.
Definition clearSubIterationWork v := set_work v (subsystemIterationWorkFlag_ v) (iterationWorkFlag_ v) false.

Definition isStandaloneSubsystem v : bool := subsystemIterationIndex_ v =? SUBSYSTEM_ITERATION_STANDALONE.
Definition isFirstIteration v : bool :=
  ((subsystemIterationIndex_ v =? 0) || isStandaloneSubsystem v) && (iterationIndex_ v =? 0) && (subIterationIndex_ v =? 0).
Definition getSubsystemIterationIndexString v : text :=
  if isStandaloneSubsystem v then txt "standalone" else to_string_unsigned (subsystemIterationIndex_ v).
Definition getSubsystemSyncStepIndex v : Z :=
  if isStandaloneSubsystem v then iterationIndex_ v else subsystemIterationIndex_ v.
Definition indicateSubsystemSyncStepWork v : VStateMachine :=
  if isStandaloneSubsystem v then indicateIterationWork v else indicateSubsystemIterationWork v.

(** ** The progress text *)

Definition aliasOf (m : aliasMap) (transition : text) (index : Z) : option text := row ← m !! transition; row !! index.

(** [std::string] appends piece by piece, once for each kind of work. *)
Definition getStatusProgressDetail v : text :=
  let colon := txt ":" in
  let subsystemText :=
    match aliasOf (subsystemIterationAliasMap_ v) (transitionName_ v) (subsystemIterationIndex_ v) with
    | Some alias => alias | None => getSubsystemIterationIndexString v end in
  let iterationText :=
    match aliasOf (iterationAliasMap_ v) (transitionName_ v) (iterationIndex_ v) with
    | Some alias => alias | None => to_string_unsigned (iterationIndex_ v) end in
  let subIterationText :=
    match aliasOf (subIterationAliasMap_ v) (transitionName_ v) (subIterationIndex_ v) with
    | Some alias => alias | None => to_string_unsigned (subIterationIndex_ v) end in
  if subIterationWorkFlag_ v then name_ v ++ colon ++ subsystemText ++ colon ++ iterationText ++ colon ++ subIterationText
  else if iterationWorkFlag_ v then name_ v ++ colon ++ subsystemText ++ colon ++ iterationText
  else if subsystemIterationWorkFlag_ v then name_ v ++ colon ++ subsystemText
  else if bool_decide (transitionName_ v <> []) then name_ v ++ colon ++ transitionName_ v
  else [].

(** The text is empty, which the supervisors show as "Done", exactly when no
    tier has work left and no transition is named. *)
Lemma progress_done v :
  getStatusProgressDetail v = [] <->
  subIterationWorkFlag_ v = false /\ iterationWorkFlag_ v = false /\ subsystemIterationWorkFlag_ v = false /\
  transitionName_ v = [].
Proof.
  unfold getStatusProgressDetail. change (txt ":") with [chr 58].
  assert (forall a b : text, a ++ [chr 58] ++ b <> []) as Hne by (intros [|] ?; done).
  destruct (subIterationWorkFlag_ v), (iterationWorkFlag_ v), (subsystemIterationWorkFlag_ v);
    try (split; [intros E; by apply Hne in E|intros (? & ? & ? & ?); discriminate]).
  case_bool_decide as H; split; [intros E; by apply Hne in E|intros (_ & _ & _ & ?); done|intros _|done].
  split_and!; [done..|]. by destruct (transitionName_ v).
Qed.

(** A step ordered across subsystems asks for work on the tier whose index it
    is ordered by. *)
Lemma syncStep_tier v :
  iterationWorkFlag_ v = false -> subsystemIterationWorkFlag_ v = false ->
  let v' := indicateSubsystemSyncStepWork v in
  (iterationWorkFlag_ v' = true <-> getSubsystemSyncStepIndex v = iterationIndex_ v /\ isStandaloneSubsystem v = true) /\
  (subsystemIterationWorkFlag_ v' = true <-> getSubsystemSyncStepIndex v = subsystemIterationIndex_ v /\ isStandaloneSubsystem v = false).
Proof.
  intros H1 H2. unfold indicateSubsystemSyncStepWork, getSubsystemSyncStepIndex.
  destruct (isStandaloneSubsystem v); cbn; rewrite ?H1, ?H2; naive_solver.
Qed.

End VStateMachine.
