(* ===== verification/RunControlStateMachine.v ===== *)
(** * Run control

    src/otsdaq/FiniteStateMachine/RunControlStateMachine.cc and .h: the state
    machine of every otsdaq supervisor and its handling of the command
    messages the Gateway broadcasts. *)

From S2P Require Import Prelude CText StringLists ProgressBar FiniteStateMachine.
Import FiniteStateMachine.

Module RunControlStateMachine.
#[local] Open Scope string_scope.
#[local] Open Scope Z_scope.

Definition FAILED_STATE_NAME : string := FiniteStateMachine.FAILED_STATE_NAME.
Definition INITIAL_STATE_NAME : string := FiniteStateMachine.INITIAL_STATE_NAME.
Definition HALTED_STATE_NAME : string := "Halted".
Definition PAUSED_STATE_NAME : string := "Paused".
Definition RUNNING_STATE_NAME : string := "Running".
Definition SHUTDOWN_STATE_NAME : string := "Shutdown".
Definition CONFIGURED_STATE_NAME : string := "Configured".

Definition SHUTDOWN_TRANSITION_NAME : string := "Shutdown".
Definition STARTUP_TRANSITION_NAME : string := "Startup".
Definition INIT_TRANSITION_NAME : string := "Initialize".
Definition ERROR_TRANSITION_NAME : string := FiniteStateMachine.ERROR_TRANSITION_NAME.
Definition FAIL_TRANSITION_NAME : string := "Fail".
Definition CONFIGURE_TRANSITION_NAME : string := FiniteStateMachine.CONFIGURE_TRANSITION_NAME.
Definition HALT_TRANSITION_NAME : string := "Halt".
Definition ABORT_TRANSITION_NAME : string := "Abort".
Definition PAUSE_TRANSITION_NAME : string := "Pause".
Definition RESUME_TRANSITION_NAME : string := "Resume".
Definition START_TRANSITION_NAME : string := "Start".
Definition STOP_TRANSITION_NAME : string := "Stop".

(** The virtual functions the machine binds. *)
Inductive Fn :=
| stateInitial | stateHalted | stateConfigured | stateRunning | statePaused | stateShutdown
| enteringError | inError
| transitionHalting | transitionShuttingDown | transitionConfiguring | transitionStartingUp
| transitionInitializing | transitionPausing | transitionResuming | transitionStarting | transitionStopping.

(** The arguments of the constructor's [addStateTransition] calls, in order. *)
Record Row := mkRow {
  from : State; to : State; input : string; transitionName : string;
  transitionParameter : option string; func : Fn;
}.
Definition transitionRows : list Row :=
  [ mkRow FAILED_STATE "H"%char HALT_TRANSITION_NAME "Halting" None transitionHalting;
    mkRow FAILED_STATE "X"%char SHUTDOWN_TRANSITION_NAME "Shutting Down" None transitionShuttingDown;
    mkRow FAILED_STATE FAILED_STATE ERROR_TRANSITION_NAME "Erroring" None enteringError;
    mkRow FAILED_STATE FAILED_STATE FAIL_TRANSITION_NAME "Failing" None transitionShuttingDown;
    mkRow "H"%char "C"%char CONFIGURE_TRANSITION_NAME "Configuring" (Some "ConfigurationAlias") transitionConfiguring;
    mkRow "H"%char "X"%char SHUTDOWN_TRANSITION_NAME "Shutting Down" None transitionShuttingDown;
    mkRow "X"%char "I"%char STARTUP_TRANSITION_NAME "Starting Up" None transitionStartingUp;
    mkRow "I"%char "H"%char INIT_TRANSITION_NAME "Initializing" None transitionInitializing;
    mkRow "H"%char "H"%char HALT_TRANSITION_NAME "Halting" None transitionHalting;
    mkRow "C"%char "H"%char HALT_TRANSITION_NAME "Halting" None transitionHalting;
    mkRow "R"%char "H"%char ABORT_TRANSITION_NAME "Aborting" None transitionHalting;
    mkRow "P"%char "H"%char ABORT_TRANSITION_NAME "Aborting" None transitionHalting;
    mkRow "R"%char "P"%char PAUSE_TRANSITION_NAME "Pausing" None transitionPausing;
    mkRow "P"%char "R"%char RESUME_TRANSITION_NAME "Resuming" None transitionResuming;
    mkRow "C"%char "R"%char START_TRANSITION_NAME "Starting" None transitionStarting;
    mkRow "R"%char "C"%char STOP_TRANSITION_NAME "Stopping" None transitionStopping;
    mkRow "P"%char "C"%char STOP_TRANSITION_NAME "Stopping" None transitionStopping ].

(** The messages the constructor binds to the handler. *)
Definition boundMessages : list string :=
  [ INIT_TRANSITION_NAME; CONFIGURE_TRANSITION_NAME; START_TRANSITION_NAME; STOP_TRANSITION_NAME;
    PAUSE_TRANSITION_NAME; RESUME_TRANSITION_NAME; HALT_TRANSITION_NAME; ABORT_TRANSITION_NAME;
    SHUTDOWN_TRANSITION_NAME; STARTUP_TRANSITION_NAME; FAIL_TRANSITION_NAME; ERROR_TRANSITION_NAME;
    "AsyncError"; "AsyncPauseException" ].

(** The states and hooks the constructor adds to the machine. *)
Definition withStates (f : FiniteStateMachine Fn) : FiniteStateMachine Fn :=
  let f := addState f "I"%char INITIAL_STATE_NAME (Some stateInitial) in
  let f := addState f "H"%char HALTED_STATE_NAME (Some stateHalted) in
  let f := addState f "C"%char CONFIGURED_STATE_NAME (Some stateConfigured) in
  let f := addState f "R"%char RUNNING_STATE_NAME (Some stateRunning) in
  let f := addState f "P"%char PAUSED_STATE_NAME (Some statePaused) in
  let f := addState f "X"%char SHUTDOWN_STATE_NAME (Some stateShutdown) in
  let f := setStateName f FAILED_STATE FAILED_STATE_NAME in
  setFailedStateTransition f enteringError inError.
Definition addRow (f : FiniteStateMachine Fn) (r : Row) : FiniteStateMachine Fn :=
  addStateTransition f (from r) (to r) (input r) (transitionName r) (transitionParameter r) (func r).
Definition machine (name : string) : FiniteStateMachine Fn :=
  fold_left addRow transitionRows (withStates (FiniteStateMachine.construct name)).

(** ** The rest of the object *)

Section Handler.
(** [E] is what the inheriting supervisor keeps; [call] runs its functions. *)
Context {E : Type}.

Record RunControl := mkRC {
  theProgressBar_ : ProgressBar.ProgressBar;
  asyncFailureReceived_ : bool;
  asyncPauseExceptionReceived_ : bool;
  asyncStopExceptionReceived_ : bool;
  subsystemIterationIndex_ : Z;
  iterationIndex_ : Z;
  subIterationIndex_ : Z;
  subsystemIterationWorkFlag_ : bool;
  iterationWorkFlag_ : bool;
  subIterationWorkFlag_ : bool;
  minReadyForEventGenerationStartIteration_ : Z;
  lastIterationState_ : State;
  lastIterationCommand_ : string;
  lastAttemptedConfigureGroup_ : string;
  configuredGroup_ : string;
  lastIterationResult_ : string;
  lastSubsystemIterationIndex_ : Z;
  lastIterationIndex_ : Z;
  lastSubIterationIndex_ : Z;
  stateTransitionFunctionTable_ : gmap State (gmap string Fn);
  detachedThreads : list string; (* the execTransition calls of detached threads not yet run *)
  application : E;
}.

Definition set_progressBar c p :=
  mkRC p (asyncFailureReceived_ c) (asyncPauseExceptionReceived_ c) (asyncStopExceptionReceived_ c)
    (subsystemIterationIndex_ c) (iterationIndex_ c) (subIterationIndex_ c) (subsystemIterationWorkFlag_ c)
    (iterationWorkFlag_ c) (subIterationWorkFlag_ c) (minReadyForEventGenerationStartIteration_ c)
    (lastIterationState_ c) (lastIterationCommand_ c) (lastAttemptedConfigureGroup_ c) (configuredGroup_ c)
    (lastIterationResult_ c) (lastSubsystemIterationIndex_ c) (lastIterationIndex_ c) (lastSubIterationIndex_ c)
    (stateTransitionFunctionTable_ c) (detachedThreads c) (application c).
Definition set_async c a p s :=
  mkRC (theProgressBar_ c) a p s
    (subsystemIterationIndex_ c) (iterationIndex_ c) (subIterationIndex_ c) (subsystemIterationWorkFlag_ c)
    (iterationWorkFlag_ c) (subIterationWorkFlag_ c) (minReadyForEventGenerationStartIteration_ c)
    (lastIterationState_ c) (lastIterationCommand_ c) (lastAttemptedConfigureGroup_ c) (configuredGroup_ c)
    (lastIterationResult_ c) (lastSubsystemIterationIndex_ c) (lastIterationIndex_ c) (lastSubIterationIndex_ c)
    (stateTransitionFunctionTable_ c) (detachedThreads c) (application c).
Definition set_indices c ssi it sub minReady :=
  mkRC (theProgressBar_ c) (asyncFailureReceived_ c) (asyncPauseExceptionReceived_ c) (asyncStopExceptionReceived_ c)
    ssi it sub (subsystemIterationWorkFlag_ c)
    (iterationWorkFlag_ c) (subIterationWorkFlag_ c) minReady
    (lastIterationState_ c) (lastIterationCommand_ c) (lastAttemptedConfigureGroup_ c) (configuredGroup_ c)
    (lastIterationResult_ c) (lastSubsystemIterationIndex_ c) (lastIterationIndex_ c) (lastSubIterationIndex_ c)
    (stateTransitionFunctionTable_ c) (detachedThreads c) (application c).
Definition set_work c ssi it sub :=
  mkRC (theProgressBar_ c) (asyncFailureReceived_ c) (asyncPauseExceptionReceived_ c) (asyncStopExceptionReceived_ c)
    (subsystemIterationIndex_ c) (iterationIndex_ c) (subIterationIndex_ c) ssi it sub
    (minReadyForEventGenerationStartIteration_ c)
    (lastIterationState_ c) (lastIterationCommand_ c) (lastAttemptedConfigureGroup_ c) (configuredGroup_ c)
    (lastIterationResult_ c) (lastSubsystemIterationIndex_ c) (lastIterationIndex_ c) (lastSubIterationIndex_ c)
    (stateTransitionFunctionTable_ c) (detachedThreads c) (application c).
(** [lastIterationState_], [lastIterationCommand_], [lastIterationResult_]. *)
Definition set_last c st cmd res :=
  mkRC (theProgressBar_ c) (asyncFailureReceived_ c) (asyncPauseExceptionReceived_ c) (asyncStopExceptionReceived_ c)
    (subsystemIterationIndex_ c) (iterationIndex_ c) (subIterationIndex_ c) (subsystemIterationWorkFlag_ c)
    (iterationWorkFlag_ c) (subIterationWorkFlag_ c) (minReadyForEventGenerationStartIteration_ c)
    st cmd (lastAttemptedConfigureGroup_ c) (configuredGroup_ c)
    res (lastSubsystemIterationIndex_ c) (lastIterationIndex_ c) (lastSubIterationIndex_ c)
    (stateTransitionFunctionTable_ c) (detachedThreads c) (application c).
Definition set_groups c attempted configured :=
  mkRC (theProgressBar_ c) (asyncFailureReceived_ c) (asyncPauseExceptionReceived_ c) (asyncStopExceptionReceived_ c)
    (subsystemIterationIndex_ c) (iterationIndex_ c) (subIterationIndex_ c) (subsystemIterationWorkFlag_ c)
    (iterationWorkFlag_ c) (subIterationWorkFlag_ c) (minReadyForEventGenerationStartIteration_ c)
    (lastIterationState_ c) (lastIterationCommand_ c) attempted configured
    (lastIterationResult_ c) (lastSubsystemIterationIndex_ c) (lastIterationIndex_ c) (lastSubIterationIndex_ c)
    (stateTransitionFunctionTable_ c) (detachedThreads c) (application c).
Definition set_lastIndices c ssi it sub :=
  mkRC (theProgressBar_ c) (asyncFailureReceived_ c) (asyncPauseExceptionReceived_ c) (asyncStopExceptionReceived_ c)
    (subsystemIterationIndex_ c) (iterationIndex_ c) (subIterationIndex_ c) (subsystemIterationWorkFlag_ c)
    (iterationWorkFlag_ c) (subIterationWorkFlag_ c) (minReadyForEventGenerationStartIteration_ c)
    (lastIterationState_ c) (lastIterationCommand_ c) (lastAttemptedConfigureGroup_ c) (configuredGroup_ c)
    (lastIterationResult_ c) ssi it sub
    (stateTransitionFunctionTable_ c) (detachedThreads c) (application c).
Definition set_threads c l :=
  mkRC (theProgressBar_ c) (asyncFailureReceived_ c) (asyncPauseExceptionReceived_ c) (asyncStopExceptionReceived_ c)
    (subsystemIterationIndex_ c) (iterationIndex_ c) (subIterationIndex_ c) (subsystemIterationWorkFlag_ c)
    (iterationWorkFlag_ c) (subIterationWorkFlag_ c) (minReadyForEventGenerationStartIteration_ c)
    (lastIterationState_ c) (lastIterationCommand_ c) (lastAttemptedConfigureGroup_ c) (configuredGroup_ c)
    (lastIterationResult_ c) (lastSubsystemIterationIndex_ c) (lastIterationIndex_ c) (lastSubIterationIndex_ c)
    (stateTransitionFunctionTable_ c) l (application c).

(** The constructor's table of the bound functions. *)
Definition functionTable : gmap State (gmap string Fn) :=
  fold_left (fun t r => setEntry t (from r) (input r) (func r)) transitionRows ∅.

(** ** Iteration accessors (RunControlStateMachine.h) *)

Definition SUBSYSTEM_ITERATION_STANDALONE : Z := u32 (-1).
Definition isStandaloneSubsystem c : bool := subsystemIterationIndex_ c =? SUBSYSTEM_ITERATION_STANDALONE.
Definition isFirstIteration c : bool :=
  ((subsystemIterationIndex_ c =? 0) || isStandaloneSubsystem c) && (iterationIndex_ c =? 0) && (subIterationIndex_ c =? 0).
Definition getSubsystemSyncStepIndex c : Z :=
  if isStandaloneSubsystem c then iterationIndex_ c else subsystemIterationIndex_ c.
Definition indicateSubsystemSyncStepWork c : RunControl :=
  if isStandaloneSubsystem c
  then set_work c (subsystemIterationWorkFlag_ c) true (subIterationWorkFlag_ c)
  else set_work c true (iterationWorkFlag_ c) (subIterationWorkFlag_ c).
Definition indicateIterationWork c : RunControl := set_work c (subsystemIterationWorkFlag_ c) true (subIterationWorkFlag_ c).
Definition clearIterationWork c : RunControl := set_work c (subsystemIterationWorkFlag_ c) false (subIterationWorkFlag_ c).
Definition indicateSubIterationWork c : RunControl := set_work c (subsystemIterationWorkFlag_ c) (iterationWorkFlag_ c) true.
Definition clearSubIterationWork c : RunControl := set_work c (subsystemIterationWorkFlag_ c) (iterationWorkFlag_ c) false.
Definition indicateSubsystemIterationWork c : RunControl := set_work c true (iterationWorkFlag_ c) (subIterationWorkFlag_ c).
Definition clearSubsystemIterationWork c : RunControl := set_work c false (iterationWorkFlag_ c) (subIterationWorkFlag_ c).

Abbreviation World := (FiniteStateMachine Fn * RunControl)%type.
Variables (call : Fn -> string -> M World unit) (clock : RunControl -> Z).
(** The text of an exception, and the header a [__SS__] stream starts with. *)
Variables (what : exn -> string) (ss_header : string).

Definition getc {A} (g : RunControl -> A) : M World A := gets (fun w => g w.2).
Definition setc (g : RunControl -> RunControl) : M World unit := modify (fun w => (w.1, g w.2)).
Definition getm {A} (g : FiniteStateMachine Fn -> A) : M World A := getf g.
Definition setm (g : FiniteStateMachine Fn -> FiniteStateMachine Fn) : M World unit := setf g.
Definition clearErrorMessage : M World unit := setm (fun f => setErrorMessage f "" false).

(** [reset()], which runs the initial state's function. *)
Definition resetWith (callState : Fn -> string -> M World unit) : M World unit :=
  setInitialState clock "I"%char ≫= fun _ =>
  resetMachine callState ≫= fun _ =>
  clearErrorMessage ≫= fun _ =>
  setc (fun c => set_async c false false false).
Definition reset : M World unit := resetWith call.

(** [setAsyncPauseExceptionMessage] and [setAsyncStopExceptionMessage]. *)
Definition setAsyncPauseExceptionMessage (error : string) : M World unit :=
  setc (fun c => set_async c (asyncFailureReceived_ c) true (asyncStopExceptionReceived_ c)) ≫= fun _ =>
  setm (fun f => setErrorMessage f error true).
Definition setAsyncStopExceptionMessage (error : string) : M World unit :=
  setc (fun c => set_async c (asyncFailureReceived_ c) (asyncPauseExceptionReceived_ c) true) ≫= fun _ =>
  setm (fun f => setErrorMessage f error true).

(** ** runControlMessageHandler *)

(** [StringMacros::getNumber(getValue(name), x)] inside [try]/[catch(...)];
    dividing by zero in the text is undefined. *)
Definition readIndex (m : Message) (name : string) : M World Z :=
  match getValue m name with
  | Throw _ => mret 0
  | Ok v =>
      match StringLists.getNumber_uint (txt v) with
      | Ok (Some (_, n)) => mret n
      | Ok None => throw Undefined
      | Throw _ => mret 0
      end
  end.

Definition readIndices (m : Message) : M World unit :=
  ssi ← readIndex m "subsystemIterationIndex";
  it ← readIndex m "iterationIndex";
  sub ← readIndex m "subIterationIndex";
  minReady ← readIndex m "MinReadyForEventGenerationStartIteration";
  setc (fun c => set_indices c ssi it sub minReady).

Definition retransmittedCommand (m : Message) : bool :=
  match getValue m "retransmission" with Ok v => String.eqb v "1" | Throw _ => false end.

(** The last command was this one, with the same indices. *)
Definition sameAsLast (command : string) (c : RunControl) : bool :=
  String.eqb (lastIterationCommand_ c) command &&
  (lastSubsystemIterationIndex_ c =? subsystemIterationIndex_ c) &&
  (lastIterationIndex_ c =? iterationIndex_ c) &&
  (lastSubIterationIndex_ c =? subIterationIndex_ c).

Definition stepProgress : M World unit := setc (fun c => set_progressBar c (ProgressBar.step (theProgressBar_ c))).
Definition completeProgress : M World unit := setc (fun c => set_progressBar c (ProgressBar.complete (theProgressBar_ c))).
Definition resetProgress (command : string) : M World unit :=
  name ← getm stateMachineName_;
  p ← getc theProgressBar_;
  match ProgressBar.reset p (txt command) (txt name) 0 with
  | Some p => setc (fun c => set_progressBar c p)
  | None => throw Undefined
  end.

(** The state the command is taken from; the first iteration also resets the
    progress bar. *)
Definition startIteration (command : string) : M World string :=
  setc (fun c => set_lastIndices c (subsystemIterationIndex_ c) (iterationIndex_ c) (subIterationIndex_ c));;
  first ← getc isFirstIteration;
  currentState ←
    (if first : bool then resetProgress command;; getm getCurrentStateName
     else st ← getc lastIterationState_; getm (fun f => getStateName f st));
  stepProgress;;
  setc (fun c => set_last c (lastIterationState_ c) (lastIterationCommand_ c) (command +:+ "Done"));;
  mret currentState.

(** ["Error"] and ["Fail"]: halt, whatever happens. *)
Definition handleError (command currentState : string) (m : Message) : M World string :=
  catch_all
    (if String.eqb currentState "Configured" then execNormal call clock HALT_TRANSITION_NAME (Some m);; mret tt
     else if String.eqb currentState "Running" || String.eqb currentState "Paused"
     then execNormal call clock ABORT_TRANSITION_NAME (Some m);; mret tt
     else mret tt)
    (fun _ => mret tt);;
  completeProgress;;
  mret (command +:+ "Done").

(** The three asynchronous exceptions: the error message, the flag, and a
    detached thread for the first one. *)
Definition handleAsync (command verb : string) (m : Message)
    (received : RunControl -> bool) (setReceived : RunControl -> RunControl) (transition : string) : M World string :=
  errorMessage ← lift (getValue m "ErrorMessage");
  setm (fun f => setErrorMessage f (ss_header +:+ command +:+ " was received! " +:+ verb +:+ " immediately: " +:+ errorMessage +:+ "
") true);;
  already ← getc received;
  setc setReceived;;
  (if already : bool then mret tt else setc (fun c => set_threads c (app (detachedThreads c) [transition])));;
  mret (command +:+ "Done").

(** The conversions of the command by the current state, in their order; the
    message is replaced by an empty one. *)
Definition convertBeforeTry (command currentState : string) (m : Message) : string * Message :=
  if String.eqb command INIT_TRANSITION_NAME && String.eqb currentState FAILED_STATE_NAME
  then (HALT_TRANSITION_NAME, makeSOAPMessageReference HALT_TRANSITION_NAME) else (command, m).
Definition convertHaltInitial (currentState : string) (cm : string * Message) : string * Message :=
  if String.eqb cm.1 HALT_TRANSITION_NAME && String.eqb currentState INITIAL_STATE_NAME
  then (INIT_TRANSITION_NAME, makeSOAPMessageReference INIT_TRANSITION_NAME) else cm.
Definition convertHaltAbort (currentState : string) (cm : string * Message) : string * Message :=
  if String.eqb cm.1 HALT_TRANSITION_NAME &&
     (String.eqb currentState PAUSED_STATE_NAME || String.eqb currentState RUNNING_STATE_NAME)
  then (ABORT_TRANSITION_NAME, makeSOAPMessageReference ABORT_TRANSITION_NAME) else cm.
Definition convertInTry (currentState : string) (cm : string * Message) : string * Message :=
  convertHaltAbort currentState (convertHaltInitial currentState cm).

(** Flags and error message cleared before the transition. *)
Definition clearFlags (command currentState : string) : M World unit :=
  (if (String.eqb command HALT_TRANSITION_NAME || String.eqb command SHUTDOWN_TRANSITION_NAME) &&
      String.eqb currentState FAILED_STATE_NAME
   then clearErrorMessage;; setc (fun c => set_async c false false false) else mret tt);;
  (if String.eqb command RESUME_TRANSITION_NAME
   then setc (fun c => set_async c (asyncFailureReceived_ c) false (asyncStopExceptionReceived_ c)) else mret tt);;
  (if String.eqb command START_TRANSITION_NAME
   then setc (fun c => set_async c (asyncFailureReceived_ c) (asyncPauseExceptionReceived_ c) false) else mret tt).
Definition clearMessageUnlessAsync (command : string) : M World unit :=
  p ← getc asyncPauseExceptionReceived_;
  s ← getc asyncStopExceptionReceived_;
  if ((p : bool) && String.eqb command PAUSE_TRANSITION_NAME) || ((s : bool) && String.eqb command STOP_TRANSITION_NAME)
  then mret tt else clearErrorMessage.

(** A further iteration calls the bound function again, without driving the
    machine. *)
Definition iterate (command : string) : M World unit :=
  fn ← getc (fun c => entry (stateTransitionFunctionTable_ c) (lastIterationState_ c) (lastIterationCommand_ c));
  match fn with
  | None => throw FsmException
  | Some fn => call fn command
  end.

(** [execTransition] from the handler.  Only ["fail"] can wait, and no message
    of that name is bound to the handler. *)
Definition exec (transition : string) (m : option Message) : M World bool := fun w =>
  match execTransition call clock transition m w with Some r => r | None => (Throw Undefined, w) end.

(** [lastAttemptedConfigureGroup_]: the alias, with the group's name and key
    appended when the message has them. *)
Definition attemptedGroup (m : Message) (alias : string) : string :=
  match getValue m "ConfigurationTableGroupName", getValue m "ConfigurationTableGroupKey" with
  | Ok name, Ok key => alias +:+ " " +:+ name +:+ "(" +:+ key +:+ ")"
  | _, _ => alias
  end.
Definition firstTransition (command : string) (m : Message) : M World unit :=
  st ← getm currentState_;
  setc (fun c => set_last c st command (lastIterationResult_ c));;
  (if String.eqb command CONFIGURE_TRANSITION_NAME then
     alias ← lift (getValue m "ConfigurationAlias");
     setc (fun c => set_groups c (attemptedGroup m alias) (configuredGroup_ c))
   else mret tt);;
  exec command (Some m);;
  mret tt.

(** [configuredGroup_] after the transition. *)
Definition groupOf (m : Message) : string :=
  match getValue m "ConfigurationTableGroupName", getValue m "ConfigurationTableGroupKey" with
  | Ok name, Ok key => name +:+ "(" +:+ key +:+ ")"
  | _, _ => ""
  end.
Definition noWork (c : RunControl) : bool :=
  negb (subIterationWorkFlag_ c) && negb (iterationWorkFlag_ c) && negb (subsystemIterationWorkFlag_ c).
Definition recordConfiguredGroup (command : string) (m : Message) : M World unit :=
  state ← getm getCurrentStateName;
  setc (fun c =>
    if String.eqb command HALT_TRANSITION_NAME || String.eqb command ABORT_TRANSITION_NAME || String.eqb command INIT_TRANSITION_NAME
    then set_groups c (lastAttemptedConfigureGroup_ c) ""
    else if String.eqb command CONFIGURE_TRANSITION_NAME && noWork c && String.eqb state CONFIGURED_STATE_NAME
    then set_groups c (lastAttemptedConfigureGroup_ c) (groupOf m)
    else c).

(** The reply while there is more work: the innermost tier first. *)
Definition workResult (command result : string) (c : RunControl) : string :=
  if subIterationWorkFlag_ c then command +:+ "SubIterate"
  else if iterationWorkFlag_ c then command +:+ "Iterate"
  else if subsystemIterationWorkFlag_ c then command +:+ "SubsystemIterate"
  else result.

(** The body of the [try]. *)
Definition transitionBody (command currentState result : string) (m : Message) : M World string :=
  (if String.eqb command CONFIGURE_TRANSITION_NAME && String.eqb currentState INITIAL_STATE_NAME
   then execNormal call clock INIT_TRANSITION_NAME (Some (makeSOAPMessageReference INIT_TRANSITION_NAME));; mret tt
   else mret tt);;
  setc (fun c => set_work c false false false);;
  first ← getc isFirstIteration;
  (if first : bool then firstTransition command m else iterate command);;
  recordConfiguredGroup command m;;
  getc (workResult command result).

(** Its three [catch] clauses. *)
Definition failureText (command error : string) (e : exn) : string :=
  match e with
  | RuntimeError | FsmException =>
      ss_header +:+ "Run Control Message Handling Failed with command '" +:+ command +:+ "': " +:+ what e +:+ " " +:+ error +:+ "
"
  | _ => ss_header +:+ "Run Control Message Handling Failed  with command '" +:+ command
           +:+ "' and encountered an unknown error." +:+ error +:+ "
Exception message: " +:+ what e
  end.
Definition transitionFailed (command : string) (e : exn) : M World string :=
  error ← getm theErrorMessage_;
  setm (fun f => setErrorMessage f (failureText command error e) true);;
  mret (command +:+ FAILED_STATE_NAME).

(** What follows the [try]. *)
Definition finish (command result : string) : M World string :=
  stepProgress;;
  state ← getm getCurrentStateName;
  let result := if String.eqb state FAILED_STATE_NAME then command +:+ FAILED_STATE_NAME else result in
  stepProgress;;
  done ← getc noWork;
  (if done : bool then completeProgress else mret tt);;
  setc (fun c => set_last c (lastIterationState_ c) (lastIterationCommand_ c) result);;
  mret result.

(** A command that drives the machine. *)
Definition handleTransition (command currentState : string) (m : Message) : M World string :=
  let result := command +:+ "Done" in
  if String.eqb command INIT_TRANSITION_NAME && String.eqb currentState HALTED_STATE_NAME
  then clearErrorMessage;; mret result
  else
    let '(command, m) := convertBeforeTry command currentState m in
    clearFlags command currentState;;
    clearMessageUnlessAsync command;;
    let '(command, m) := convertInTry currentState (command, m) in
    result ← catch_all (transitionBody command currentState result m) (transitionFailed command);
    finish command result.

(** The handler; its value is the command of the reply. *)
Definition dispatch (command currentState : string) (m : Message) : M World string :=
  if String.eqb command "Error" || String.eqb command "Fail" then handleError command currentState m
  else if String.eqb command "AsyncError" then
    handleAsync command "Error'ing" m asyncFailureReceived_
      (fun c => set_async c true (asyncPauseExceptionReceived_ c) (asyncStopExceptionReceived_ c)) "fail"
  else if String.eqb command "AsyncPauseException" then
    handleAsync command "Pause'ing" m asyncPauseExceptionReceived_
      (fun c => set_async c (asyncFailureReceived_ c) true (asyncStopExceptionReceived_ c)) "Pause"
  else if String.eqb command "AsyncStopException" then
    handleAsync command "Stop'ing" m asyncStopExceptionReceived_
      (fun c => set_async c (asyncFailureReceived_ c) (asyncPauseExceptionReceived_ c) true) "Stop"
  else handleTransition command currentState m.

Definition runControlMessageHandler (m : Message) : M World string :=
  readIndices m;;
  repeated ← getc (fun c => retransmittedCommand m && sameAsLast (command m) c);
  if repeated : bool then getc lastIterationResult_
  else
    currentState ← startIteration (command m);
    dispatch (command m) currentState m.

(** One of the detached threads, the [i]th of those that have not run yet: the
    scheduler may take any.  It calls [execTransition] and prints any exception.
    [None] while it waits for a transition to complete. *)
Definition runDetached (i : nat) (w : World) : option World :=
  t ← detachedThreads w.2 !! i;
  '(_, w) ← execTransition call clock t None (w.1, set_threads w.2 (delete i (detachedThreads w.2)));
  Some w.

(** ** Invariants of the machine *)

(** Everything the constructor sets up once. *)
Definition tables (f : FiniteStateMachine Fn) :=
  (stateNames_ f, stateTransitionTable_ f, stateActions_ f, transitionActions_ f, failedAction_ f, failedChanged_ f,
   stateTransitionNameTable_ f, stateTransitionParameterTable_ f).

Definition legalStates : list State := ["I"; "H"; "C"; "R"; "P"; "X"; "F"]%char.

(** Between two commands: the constructor's tables, no transition in progress,
    one of the seven states. *)
Record atRest (w : World) : Prop := {
  rest_tables : tables w.1 = tables (machine "");
  rest_idle : inTransition_ w.1 = false;
  rest_state : currentState_ w.1 ∈ legalStates;
}.

Definition nextRow (s : State) (t : string) : option Row :=
  List.find (fun r => bool_decide (from r = s /\ input r = t)) (rev transitionRows).

Lemma entry_setEntry {V} (T : gmap State (gmap string V)) f i v s t :
  entry (setEntry T f i v) s t = if bool_decide (f = s /\ i = t) then Some v else entry T s t.
Proof.
  unfold entry, setEntry. case_bool_decide as Hd.
  - destruct Hd as [-> ->]. rewrite lookup_insert_eq. cbn [mbind option_bind]. by rewrite lookup_insert_eq.
  - destruct (decide (f = s)) as [->|Hs].
    + rewrite lookup_insert_eq. cbn [mbind option_bind]. rewrite lookup_insert_ne by naive_solver.
      destruct (T !! s); [done|]. cbn. by rewrite lookup_empty.
    + by rewrite lookup_insert_ne.
Qed.

Lemma find_app {A} (p : A -> bool) l1 l2 :
  List.find p (l1 ++ l2) = match List.find p l1 with Some x => Some x | None => List.find p l2 end.
Proof. induction l1 as [|x l1 IH]; cbn; [done|]. by destruct (p x). Qed.

(** A table filled row by row holds the last row for each key. *)
Lemma fold_entry {V A} (get : A -> gmap State (gmap string V)) (add : A -> Row -> A) (v : Row -> V) rows a s t :
  (forall a r, get (add a r) = setEntry (get a) (from r) (input r) (v r)) ->
  (forall s t, entry (get a) s t = None) ->
  entry (get (fold_left add rows a)) s t = v <$> List.find (fun r => bool_decide (from r = s /\ input r = t)) (rev rows).
Proof.
  intros Hadd Ha. rewrite <- (fold_left_rev_right (fun r a => add a r)).
  induction (rev rows) as [|r l IH]; cbn [fold_right List.find]; [apply Ha|].
  rewrite Hadd, entry_setEntry. case_bool_decide; [done|exact IH].
Qed.

Lemma machine_next name s t : entry (stateTransitionTable_ (machine name)) s t = to <$> nextRow s t.
Proof. apply (fold_entry stateTransitionTable_ addRow to); [done|]. intros. reflexivity. Qed.
Lemma machine_action name s t : entry (transitionActions_ (machine name)) s t = func <$> nextRow s t.
Proof. apply (fold_entry transitionActions_ addRow func); [done|]. intros. reflexivity. Qed.
Lemma machine_name name s t : entry (stateTransitionNameTable_ (machine name)) s t = transitionName <$> nextRow s t.
Proof. apply (fold_entry stateTransitionNameTable_ addRow transitionName); [done|]. intros. reflexivity. Qed.
Lemma functionTable_next s t : entry functionTable s t = func <$> nextRow s t.
Proof. apply (fold_entry Datatypes.id (fun T r => setEntry T (from r) (input r) (func r)) func); [done|]. intros. reflexivity. Qed.

(** The constructor builds exactly the run-control diagram: for every
    state and command, the target state, the transition's display name, the
    function the framework calls and the function further iterations call all
    come from the same (last) row for that state and command. *)
Theorem transition_diagram (name : string) (s : State) (t : string) :
  entry (stateTransitionTable_ (machine name)) s t = to <$> nextRow s t /\
  entry (transitionActions_ (machine name)) s t = func <$> nextRow s t /\
  entry (stateTransitionNameTable_ (machine name)) s t = transitionName <$> nextRow s t /\
  entry functionTable s t = func <$> nextRow s t.
Proof.
  split; [apply machine_next|]. split; [apply machine_action|]. split; [apply machine_name|apply functionTable_next].
Qed.

Lemma nextRow_legal s t r : nextRow s t = Some r -> to r ∈ legalStates.
Proof.
  unfold nextRow. intros [Hin _]%find_some. apply in_rev in Hin.
  assert (Hall : forallb (fun r => bool_decide (to r ∈ legalStates)) transitionRows = true) by reflexivity.
  rewrite forallb_forall in Hall. by apply Hall, bool_decide_eq_true in Hin.
Qed.

(** *** Everything the handler does keeps the machine at rest *)

Context `{!WellBehaved call}.

Lemma keeps_setc g : keeps atRest (setc g).
Proof. apply keeps_modify. intros w [H1 H2 H3]. constructor; [exact H1|exact H2|exact H3]. Qed.
Lemma keeps_getc {A} (g : RunControl -> A) : keeps atRest (getc g).
Proof. apply keeps_gets. Qed.
Lemma keeps_getm {A} (g : FiniteStateMachine Fn -> A) : keeps atRest (getm g).
Proof. apply keeps_gets. Qed.
Lemma keeps_error e append : keeps atRest (setm (fun f => setErrorMessage f e append)).
Proof. apply keeps_modify. intros w [H1 H2 H3]. constructor; [exact H1|exact H2|exact H3]. Qed.
Lemma keeps_clearErrorMessage : keeps atRest clearErrorMessage.
Proof. apply keeps_error. Qed.

Lemma sameMachine_atRest f f' c : sameMachine f f' -> atRest (f, c) -> atRest (f', c).
Proof. unfold sameMachine. intros -> [H1 H2 H3]. constructor; [exact H1|exact H2|exact H3]. Qed.

Lemma tables_transitions f g : tables f = tables g -> stateTransitionTable_ f = stateTransitionTable_ g.
Proof. by intros [= _ -> _ _ _ _ _ _]. Qed.

Lemma table_legal f s t s' :
  tables f = tables (machine "") -> entry (stateTransitionTable_ f) s t = Some s' -> s' ∈ legalStates.
Proof.
  intros Ht. assert (stateTransitionTable_ f = stateTransitionTable_ (machine "")) as -> by exact (tables_transitions _ _ Ht).
  rewrite machine_next. intros (r & Hr & ->)%fmap_Some.
  by eapply nextRow_legal.
Qed.

Lemma failed_legal : FAILED_STATE ∈ legalStates.
Proof. unfold legalStates, FAILED_STATE. set_solver. Qed.

Lemma settled_atRest w f' c : atRest w -> settled w.1 f' -> atRest (f', c).
Proof.
  destruct w as [f c0]. intros [Ht Hi Hs] (s & t & p & tr & m & F & Hcase). cbn [fst snd] in *.
  apply (sameMachine_atRest _ _ _ F). constructor; cbn [fst]; [exact Ht|reflexivity|].
  cbn [currentState_ set_current]. destruct Hcase as [->|[->|[i Hi']]]; [exact Hs|exact failed_legal|].
  by eapply table_legal.
Qed.

Lemma keeps_execNormal t m : keeps atRest (execNormal call clock t m).
Proof.
  intros w Hw. destruct (execNormal_settled call clock t m w (rest_idle _ Hw)) as [Hs _].
  destruct (execNormal call clock t m w) as [r [f' c']]. by eapply settled_atRest.
Qed.
Lemma keeps_execFail m : keeps atRest (execFail call clock m).
Proof.
  intros w Hw. destruct (execFail_settled call clock m w (rest_idle _ Hw)) as [Hs _].
  destruct (execFail call clock m w) as [r [f' c']]. by eapply settled_atRest.
Qed.
Lemma keeps_exec t m : keeps atRest (exec t m).
Proof.
  intros w Hw. unfold exec, execTransition. destruct (String.eqb t "fail"); [|by apply keeps_execNormal].
  rewrite (rest_idle _ Hw). by apply keeps_execFail.
Qed.
Lemma keeps_call fn e : keeps atRest (call fn e).
Proof.
  intros [f c] Hw. pose proof (call_frame call fn e (f, c)) as F. destruct (call fn e (f, c)) as [r [f' c']].
  apply (sameMachine_atRest f _ _ F). destruct Hw as [H1 H2 H3]. constructor; [exact H1|exact H2|exact H3].
Qed.
#[local] Hint Resolve keeps_setc keeps_getc keeps_getm keeps_error keeps_clearErrorMessage keeps_execNormal
  keeps_exec keeps_call : keeps.

(** Breaks a handler up into its steps. *)
Ltac keeps_steps :=
  repeat first
    [ solve [eauto 1 with keeps nocore]
    | apply keeps_bind; [|intros ?] | apply keeps_catch; [|intros ?] | apply keeps_if
    | match goal with |- keeps _ (match ?x with _ => _ end) => destruct x end ].

Lemma keeps_readIndices m : keeps atRest (readIndices m).
Proof. unfold readIndices, readIndex. keeps_steps. Qed.
Lemma keeps_startIteration command : keeps atRest (startIteration command).
Proof. unfold startIteration, resetProgress, stepProgress. keeps_steps. Qed.
Lemma keeps_handleError command st m : keeps atRest (handleError command st m).
Proof. unfold handleError, completeProgress. keeps_steps. Qed.
Lemma keeps_handleAsync command verb m r sr t : keeps atRest (handleAsync command verb m r sr t).
Proof. unfold handleAsync. keeps_steps. Qed.
Lemma safe_setc g : safe atRest (setc g).
Proof. apply safe_modify. intros w [H1 H2 H3]. constructor; [exact H1|exact H2|exact H3]. Qed.
Lemma safe_getc {A} (g : RunControl -> A) : safe atRest (getc g).
Proof. apply safe_gets. Qed.
Lemma safe_getm {A} (g : FiniteStateMachine Fn -> A) : safe atRest (getm g).
Proof. apply safe_gets. Qed.
Lemma safe_lift_value m name : safe atRest (lift (getValue m name)).
Proof. intros w Hw. split; [done|]. unfold lift, getValue. cbn. by destruct (parameters m !! name). Qed.
Lemma safe_execNormal t m : safe atRest (execNormal call clock t m).
Proof. intros w Hw. split; [by apply keeps_execNormal|]. apply execNormal_settled; [done|]. apply Hw. Qed.
Lemma safe_exec t m : safe atRest (exec t m).
Proof.
  intros w Hw. split; [by apply keeps_exec|]. unfold exec, execTransition. destruct (String.eqb t "fail").
  - rewrite (rest_idle _ Hw). apply execFail_settled; [done|]. apply Hw.
  - apply execNormal_settled; [done|]. apply Hw.
Qed.
Lemma safe_call fn e : safe atRest (call fn e).
Proof. intros w Hw. split; [by apply keeps_call|]. by apply call_defined. Qed.
Lemma safe_fsm_throw {A} : safe atRest (throw FsmException : M World A).
Proof. by apply safe_throw. Qed.
#[local] Hint Resolve safe_setc safe_getc safe_getm safe_lift_value safe_execNormal safe_exec safe_call safe_fsm_throw : keeps.

Ltac safe_steps :=
  repeat first
    [ solve [eauto 1 with keeps nocore]
    | apply safe_bind; [|intros ?] | apply safe_if
    | match goal with |- safe _ (match ?x with _ => _ end) => destruct x end ].

Lemma safe_transitionBody command st result m : safe atRest (transitionBody command st result m).
Proof. unfold transitionBody, firstTransition, iterate, recordConfiguredGroup. safe_steps. Qed.
Lemma keeps_transitionBody command st result m : keeps atRest (transitionBody command st result m).
Proof. apply safe_keeps, safe_transitionBody. Qed.
Lemma keeps_finish command result : keeps atRest (finish command result).
Proof. unfold finish, stepProgress, completeProgress. cbv zeta. keeps_steps. Qed.
Lemma keeps_handleTransition command st m : keeps atRest (handleTransition command st m).
Proof.
  unfold handleTransition, clearFlags, clearMessageUnlessAsync, transitionFailed. cbv zeta.
  pose proof keeps_transitionBody. pose proof keeps_finish. keeps_steps.
Qed.
Lemma keeps_handler m : keeps atRest (runControlMessageHandler m).
Proof.
  unfold runControlMessageHandler, dispatch.
  pose proof keeps_readIndices. pose proof keeps_startIteration. pose proof keeps_handleError.
  pose proof keeps_handleAsync. pose proof keeps_handleTransition. keeps_steps.
Qed.

Lemma runDetached_atRest i w w' : atRest w -> runDetached i w = Some w' -> atRest w'.
Proof.
  unfold runDetached. intros Hw. destruct (detachedThreads w.2 !! i) as [t|]; [|done]. cbn [mbind option_bind].
  set (w1 := (w.1, set_threads w.2 (delete i (detachedThreads w.2)))). assert (Hw1 : atRest w1).
  { destruct Hw as [H1 H2 H3]. constructor; [exact H1|exact H2|exact H3]. }
  unfold execTransition. destruct (String.eqb t "fail").
  - rewrite (rest_idle _ Hw1). pose proof (keeps_execFail None w1 Hw1) as Hk.
    cbn [mbind option_bind]. destruct (execFail call clock None w1) as [r w2]. by intros [= <-].
  - pose proof (keeps_execNormal t None w1 Hw1) as Hk.
    cbn [mbind option_bind]. destruct (execNormal call clock t None w1) as [r w2]. by intros [= <-].
Qed.

(** A thread that the scheduler starts while a transition is in progress leaves
    the machine alone: "fail" waits for the transition to complete, the others
    return at once. *)
Lemma runDetached_inTransition i w :
  inTransition_ w.1 = true ->
  runDetached i w = None \/ runDetached i w = Some (w.1, set_threads w.2 (delete i (detachedThreads w.2))).
Proof.
  intros Hin. unfold runDetached. destruct (detachedThreads w.2 !! i) as [t|]; [|by left]. cbn [mbind option_bind].
  unfold execTransition. destruct (String.eqb t "fail"); cbn [fst]; [rewrite Hin; by left|]. right.
  unfold execNormal, getf, gets, mbind, M_bind. cbn [fst snd]. by rewrite Hin.
Qed.

(** ** Reachable states *)

(** The base class's own functions do nothing; they are what the constructor
    of the base class calls. *)
Definition baseCall (fn : Fn) (event : string) : M World unit := mret tt.

Definition start (name : string) (c : RunControl) : World := (resetWith baseCall (machine name, c)).2.

(** The object after any sequence of command messages and detached threads,
    those taken in any order: each thread runs between two messages.  (A thread
    that starts during a transition changes nothing but the list of threads,
    which the bound functions may change as they like, or waits for its end:
    [runDetached_inTransition].) *)
Inductive reachable : World -> Prop :=
| reach_start name c : reachable (start name c)
| reach_message w m : reachable w -> reachable (runControlMessageHandler m w).2
| reach_thread w i w' : reachable w -> runDetached i w = Some w' -> reachable w'.

Lemma tables_addRow f g r : tables f = tables g -> tables (addRow f r) = tables (addRow g r).
Proof.
  destruct f, g. unfold tables. cbn. intros [= -> -> -> -> -> -> -> ->]. reflexivity.
Qed.

Lemma tables_machine name : tables (machine name) = tables (machine "").
Proof.
  unfold machine. assert (Hw : tables (withStates (FiniteStateMachine.construct name))
    = tables (withStates (FiniteStateMachine.construct ""))) by reflexivity.
  revert Hw. generalize (withStates (FiniteStateMachine.construct name)), (withStates (FiniteStateMachine.construct "")).
  induction transitionRows as [|r rows IH]; intros f g Hw; [exact Hw|]. apply IH. by apply tables_addRow.
Qed.

Lemma resetWith_base f c :
  let w := (resetWith baseCall (f, c)).2 in
  tables w.1 = tables f /\ inTransition_ w.1 = inTransition_ f /\ currentState_ w.1 = "I"%char.
Proof.
  destruct f. unfold resetWith, setInitialState, resetMachine, stampEntranceTime, setf, getf, modify, gets, mbind, M_bind.
  cbn. match goal with |- context [callIf _ ?o] => destruct o end; split_and!; reflexivity.
Qed.

Lemma initial_legal : "I"%char ∈ legalStates.
Proof. unfold legalStates. set_solver. Qed.

Lemma machine_idle name : inTransition_ (machine name) = false.
Proof.
  unfold machine. assert (Hw : inTransition_ (withStates (FiniteStateMachine.construct name)) = false) by reflexivity.
  revert Hw. generalize (withStates (FiniteStateMachine.construct name)).
  induction transitionRows as [|r rows IH]; intros f Hw; [exact Hw|]. by apply IH.
Qed.

Lemma start_atRest name c : atRest (start name c).
Proof.
  destruct (resetWith_base (machine name) c) as (H1 & H2 & H3). constructor.
  - transitivity (tables (machine name)); [exact H1|apply tables_machine].
  - transitivity (inTransition_ (machine name)); [exact H2|apply machine_idle].
  - unfold start. rewrite H3. exact initial_legal.
Qed.

Lemma reachable_atRest w : reachable w -> atRest w.
Proof.
  induction 1 as [name c|w m _ IH|w i w' _ IH Hrun]; [apply start_atRest|by apply keeps_handler|by eapply runDetached_atRest].
Qed.

(** ** Names of states *)

Definition stateName (s : State) : string :=
  if (s =? "I")%char then "Initial" else if (s =? "H")%char then "Halted" else if (s =? "C")%char then "Configured"
  else if (s =? "R")%char then "Running" else if (s =? "P")%char then "Paused" else if (s =? "X")%char then "Shutdown"
  else if (s =? "F")%char then "Failed" else String s "".

Lemma tables_names f g : tables f = tables g -> stateNames_ f = stateNames_ g.
Proof. by intros [= -> _ _ _ _ _ _ _]. Qed.

Lemma machine_stateNames :
  forallb (fun s => String.eqb (getStateName (machine "") s) (stateName s)) legalStates = true.
Proof. vm_compute. reflexivity. Qed.

Lemma atRest_name w s : atRest w -> s ∈ legalStates -> getStateName w.1 s = stateName s.
Proof.
  intros [Ht _ _] Hs. unfold getStateName. rewrite (tables_names _ _ Ht). fold (getStateName (machine "") s).
  pose proof machine_stateNames as Hall. rewrite forallb_forall in Hall.
  by apply list_elem_of_In, Hall, String.eqb_eq in Hs.
Qed.

Lemma atRest_current w : atRest w -> getCurrentStateName w.1 = stateName (currentState_ w.1).
Proof. intros Hw. apply atRest_name; [done|apply Hw]. Qed.

(** ** The handler's phases on a message that is defined *)

(** Every index of the message evaluates (no division by zero in its text). *)
Definition indexNames : list string :=
  ["subsystemIterationIndex"; "iterationIndex"; "subIterationIndex"; "MinReadyForEventGenerationStartIteration"].
Definition sane (m : Message) : Prop :=
  Forall (fun name => exists n, readIndex m name = mret n) indexNames.

Lemma readIndices_run m : sane m ->
  exists ssi it sub minReady, forall w, readIndices m w = (Ok tt, (w.1, set_indices w.2 ssi it sub minReady)).
Proof.
  unfold sane, indexNames. intros Hs.
  apply Forall_cons in Hs as [[ssi H1] Hs]. apply Forall_cons in Hs as [[it H2] Hs].
  apply Forall_cons in Hs as [[sub H3] Hs]. apply Forall_cons in Hs as [[mr H4] _].
  exists ssi, it, sub, mr. intros w. unfold readIndices. rewrite H1, H2, H3, H4. reflexivity.
Qed.

(** The progress bar's file name fits its buffer. *)
Definition nameFits (command : string) (f : FiniteStateMachine Fn) : Prop :=
  is_Some (ProgressBar.stepsFile (txt command) (txt (stateMachineName_ f)) 0).

Lemma resetProgress_run command w : nameFits command w.1 ->
  exists p, resetProgress command w = (Ok tt, (w.1, set_progressBar w.2 p)).
Proof.
  intros [fn Hfn]. unfold resetProgress, getm, getf, getc, gets, setc, modify, mbind, M_bind. cbv beta iota.
  unfold ProgressBar.reset. rewrite Hfn. cbn [option_bind]. eexists. reflexivity.
Qed.

(** After [startIteration] only the bookkeeping has changed. *)
Lemma startIteration_first command w : nameFits command w.1 -> isFirstIteration w.2 = true ->
  exists p, startIteration command w =
    (Ok (getCurrentStateName w.1),
     (w.1, set_last (set_progressBar (set_lastIndices w.2 (subsystemIterationIndex_ w.2) (iterationIndex_ w.2) (subIterationIndex_ w.2)) p)
             (lastIterationState_ w.2) (lastIterationCommand_ w.2) (command +:+ "Done"))).
Proof.
  intros Hn Hf. unfold startIteration.
  set (c1 := set_lastIndices w.2 (subsystemIterationIndex_ w.2) (iterationIndex_ w.2) (subIterationIndex_ w.2)).
  destruct (resetProgress_run command (w.1, c1) Hn) as (p & Hp). exists (ProgressBar.step p).
  rewrite (bind_ok _ _ _ tt (w.1, c1)) by reflexivity.
  rewrite (bind_ok _ _ _ true (w.1, c1)) by (unfold getc, gets; cbn; by rewrite <- Hf).
  cbv iota. rewrite (bind_ok _ _ _ (getCurrentStateName w.1) (w.1, set_progressBar c1 p)); [reflexivity|].
  rewrite (bind_ok _ _ _ tt _ Hp). reflexivity.
Qed.

Lemma finish_run command result w :
  let result' := if String.eqb (getCurrentStateName w.1) FAILED_STATE_NAME then command +:+ FAILED_STATE_NAME else result in
  exists p, finish command result w =
    (Ok result', (w.1, set_last (set_progressBar w.2 p) (lastIterationState_ w.2) (lastIterationCommand_ w.2) result')).
Proof.
  cbv zeta. unfold finish. set (c1 := set_progressBar w.2 (ProgressBar.step (theProgressBar_ w.2))).
  rewrite (bind_ok _ _ _ tt (w.1, c1)) by reflexivity.
  rewrite (bind_ok _ _ _ (getCurrentStateName w.1) (w.1, c1)) by reflexivity. cbv zeta.
  set (c2 := set_progressBar w.2 (ProgressBar.step (theProgressBar_ c1))).
  rewrite (bind_ok _ _ _ tt (w.1, c2)) by reflexivity.
  rewrite (bind_ok _ _ _ (noWork c2) (w.1, c2)) by reflexivity.
  destruct (noWork c2); eexists; reflexivity.
Qed.

(** Whatever the transition does, the reply is made. *)
Lemma tryTransition_ok command st result m w : atRest w ->
  exists r w', catch_all (transitionBody command st result m) (transitionFailed command) w = (Ok r, w') /\ atRest w'.
Proof.
  intros Hw. destruct (safe_transitionBody command st result m w Hw) as [Hk Hd]. unfold catch_if.
  destruct (transitionBody command st result m w) as [[r|e] w1]; [by eexists _, _|].
  assert (any_exn e = true) as -> by (by destruct e).
  eexists _, _. split; [reflexivity|]. cbn [fst snd] in *. destruct Hk as [H1 H2 H3].
  constructor; [exact H1|exact H2|exact H3].
Qed.

(** Clearing flags and messages drives nothing. *)
Definition undriven (w w' : World) : Prop :=
  atRest w' /\ currentState_ w'.1 = currentState_ w.1 /\ isFirstIteration w'.2 = isFirstIteration w.2 /\
  lastIterationCommand_ w'.2 = lastIterationCommand_ w.2 /\
  lastSubsystemIterationIndex_ w'.2 = lastSubsystemIterationIndex_ w.2 /\
  lastIterationIndex_ w'.2 = lastIterationIndex_ w.2 /\ lastSubIterationIndex_ w'.2 = lastSubIterationIndex_ w.2.

Lemma clear_undriven command st w : atRest w ->
  exists w', (clearFlags command st;; clearMessageUnlessAsync command) w = (Ok tt, w') /\ undriven w w'.
Proof.
  intros Hw. assert (Hk : keeps atRest (clearFlags command st;; clearMessageUnlessAsync command)).
  { unfold clearFlags, clearMessageUnlessAsync. keeps_steps. }
  specialize (Hk w Hw). revert Hk. unfold undriven, clearFlags, clearMessageUnlessAsync.
  destruct (_ && String.eqb st FAILED_STATE_NAME), (String.eqb command RESUME_TRANSITION_NAME),
    (String.eqb command START_TRANSITION_NAME);
    unfold clearErrorMessage, setm, setf, setc, getc, gets, modify, mret, M_ret, mbind, M_bind; cbn beta iota;
    (destruct (_ || _); intros Hk; eexists; (split; [reflexivity|]); (split; [exact Hk|]); split_and!; reflexivity).
Qed.

(** [handleTransition], unfolded to the body of its [try]. *)
Lemma handleTransition_body command st m w : atRest w ->
  command <> INIT_TRANSITION_NAME \/ st <> HALTED_STATE_NAME ->
  let cm := convertInTry st (convertBeforeTry command st m) in
  exists w1, undriven w w1 /\
    handleTransition command st m w =
      (result ← catch_all (transitionBody cm.1 st (command +:+ "Done") cm.2) (transitionFailed cm.1); finish cm.1 result) w1.
Proof.
  intros Hw Hn. cbv zeta. unfold handleTransition.
  destruct (String.eqb command INIT_TRANSITION_NAME && String.eqb st HALTED_STATE_NAME) eqn:Ec.
  { apply andb_true_iff in Ec as [Ec1%String.eqb_eq Ec2%String.eqb_eq]. by destruct Hn. }
  destruct (convertBeforeTry command st m) as [command1 m1].
  destruct (clear_undriven command1 st w Hw) as (w1 & E1 & Hu). exists w1. split; [done|].
  destruct (convertInTry st (command1, m1)) as [command2 m2]. cbn [fst snd].
  unfold mbind, M_bind in E1. unfold mbind at 1, M_bind at 1.
  destruct (clearFlags command1 st w) as [[[]|e] w0]; [|done].
  by rewrite (bind_ok _ _ _ _ _ E1).
Qed.

Lemma handleTransition_ok command st m w : atRest w ->
  command <> INIT_TRANSITION_NAME \/ st <> HALTED_STATE_NAME ->
  exists reply w', handleTransition command st m w = (Ok reply, w') /\ atRest w' /\
    lastIterationResult_ w'.2 = reply /\
    (currentState_ w'.1 = FAILED_STATE -> exists c, reply = c +:+ FAILED_STATE_NAME).
Proof.
  intros Hw Hn. destruct (handleTransition_body command st m w Hw Hn) as (w1 & (Hw1 & _) & ->).
  destruct (convertInTry st (convertBeforeTry command st m)) as [command2 m2]. cbn [fst snd].
  destruct (tryTransition_ok command2 st (command +:+ "Done") m2 w1 Hw1) as (r & w3 & E3 & Hw3).
  rewrite (bind_ok _ _ _ _ _ E3). destruct (finish_run command2 r w3) as (p & E4). cbv zeta in E4. rewrite E4.
  eexists _, _. split; [reflexivity|]. split.
  { destruct Hw3 as [H1 H2 H3]. constructor; [exact H1|exact H2|exact H3]. }
  split; [reflexivity|]. cbn [fst]. intros Hf. exists command2.
  rewrite (atRest_current _ Hw3), Hf. reflexivity.
Qed.

(** A message of the first iteration that is not a retransmission is handed to
    [dispatch] with the machine untouched. *)
Definition firstMessage (m : Message) (c : RunControl) : Prop :=
  retransmittedCommand m = false /\
  forall f f' c', readIndices m (f, c) = (Ok tt, (f', c')) -> isFirstIteration c' = true.

(** What a retransmission is compared with. *)
Definition records (c : RunControl) : string * Z * Z * Z :=
  (lastIterationCommand_ c, lastSubsystemIterationIndex_ c, lastIterationIndex_ c, lastSubIterationIndex_ c).

Lemma handler_first_records m w :
  sane m -> firstMessage m w.2 -> nameFits (command m) w.1 ->
  exists a b c d c1, (forall w, readIndices m w = (Ok tt, (w.1, set_indices w.2 a b c d))) /\
    runControlMessageHandler m w = dispatch (command m) (getCurrentStateName w.1) m (w.1, c1) /\
    isFirstIteration c1 = true /\ records c1 = (lastIterationCommand_ w.2, a, b, c).
Proof.
  intros Hs [Hr Hf] Hn. destruct (readIndices_run m Hs) as (a & b & c & d & Eidx).
  assert (Hfirst : isFirstIteration (set_indices w.2 a b c d) = true) by (destruct w; by eapply Hf).
  destruct (startIteration_first (command m) (w.1, set_indices w.2 a b c d)) as (p & E1); [done|done|].
  exists a, b, c, d. eexists. split; [exact Eidx|].
  unfold runControlMessageHandler. rewrite (bind_ok _ _ _ _ _ (Eidx w)).
  rewrite (bind_ok _ _ _ false (w.1, set_indices w.2 a b c d)) by (unfold getc, gets; by rewrite Hr).
  cbv iota. rewrite (bind_ok _ _ _ _ _ E1). split; [reflexivity|]. split; [exact Hfirst|reflexivity].
Qed.

Lemma handler_first m w :
  sane m -> firstMessage m w.2 -> nameFits (command m) w.1 ->
  exists c1, runControlMessageHandler m w = dispatch (command m) (getCurrentStateName w.1) m (w.1, c1) /\
    isFirstIteration c1 = true.
Proof.
  intros Hs Hf Hn. destruct (handler_first_records m w Hs Hf Hn) as (a & b & c & d & c1 & _ & E1 & Hf1 & _). by exists c1.
Qed.

(** The commands [dispatch] leaves to [handleTransition]. *)
Definition drivesMachine (command : string) : bool :=
  negb (existsb (String.eqb command) ["Error"; "Fail"; "AsyncError"; "AsyncPauseException"; "AsyncStopException"]).

Lemma dispatch_transition command st m : drivesMachine command = true ->
  dispatch command st m = handleTransition command st m.
Proof.
  unfold drivesMachine, dispatch. cbn [existsb]. rewrite negb_true_iff, !orb_false_iff.
  intros (-> & -> & -> & -> & -> & _). done.
Qed.

(** C2: Every command is answered, and a failure is never reported as success:
    for a first-iteration command, whatever the bound functions do or throw,
    the handler returns a reply, and if the machine has ended in the failed
    state the reply says ["...Failed"]. *)
Theorem failure_is_reported w m :
  atRest w -> sane m -> firstMessage m w.2 -> nameFits (command m) w.1 -> drivesMachine (command m) = true ->
  exists reply w', runControlMessageHandler m w = (Ok reply, w') /\ atRest w' /\
    (currentState_ w'.1 = FAILED_STATE -> exists c, reply = c +:+ FAILED_STATE_NAME).
Proof.
  intros Hw Hs Hf Hn Hd. destruct (handler_first m w Hs Hf Hn) as (c1 & -> & _).
  rewrite dispatch_transition by done.
  assert (Hw1 : atRest (w.1, c1)) by (destruct Hw as [H1 H2 H3]; constructor; [exact H1|exact H2|exact H3]).
  destruct (decide (command m = INIT_TRANSITION_NAME /\ getCurrentStateName w.1 = HALTED_STATE_NAME)) as [[Ei Eh]|Hno].
  - unfold handleTransition. rewrite Ei, Eh. cbn [String.eqb Ascii.eqb Bool.eqb andb].
    eexists _, _. split; [reflexivity|]. split.
    { destruct Hw1 as [H1 H2 H3]. constructor; [exact H1|exact H2|exact H3]. }
    cbn. intros E'. exfalso. rewrite (atRest_current _ Hw), E' in Eh. done.
  - destruct (handleTransition_ok (command m) (getCurrentStateName w.1) m (w.1, c1) Hw1) as (reply & w' & E1 & Hw' & _ & Hfail).
    + destruct (decide (command m = INIT_TRANSITION_NAME)); [right; naive_solver|by left].
    + by exists reply, w'.
Qed.

(** ** Functions that do not throw *)

Definition quietAll : Prop := forall fn e w, (call fn e w).1 = Ok tt.

Lemma exec_lands t m r w : atRest w -> quietAll -> t <> "fail" -> nextRow (currentState_ w.1) t = Some r ->
  exists w', exec t m w = (Ok true, w') /\ currentState_ w'.1 = to r /\ atRest w'.
Proof.
  intros Hw Hq Ht Hr. pose proof (keeps_exec t m w Hw) as Hk. destruct w as [f c].
  assert (Hq' : forall fn e, quiet call fn e) by (intros [fn|] e w; cbn; [apply Hq|done]).
  destruct (execNormal_run call clock t m f c (to r)) as (w' & time & E1 & F).
  - apply Hw.
  - rewrite (tables_transitions f (machine "") (rest_tables _ Hw)), machine_next. cbn [fst] in Hr. by rewrite Hr.
  - by constructor.
  - exists w'. unfold exec, execTransition in *. destruct (String.eqb_spec t "fail"); [done|].
    rewrite E1 in *. split; [done|]. split; [|exact Hk]. rewrite F. cbn [currentState_ set_error arrived set_current].
    unfold landing. by rewrite (Hq' _ t (departing f t m, c)).
Qed.

Lemma body_lands command st result m r w :
  atRest w -> quietAll -> isFirstIteration w.2 = true -> command <> "fail" -> command <> CONFIGURE_TRANSITION_NAME ->
  nextRow (currentState_ w.1) command = Some r ->
  exists reply w', transitionBody command st result m w = (Ok reply, w') /\ currentState_ w'.1 = to r /\
    (command ∈ [HALT_TRANSITION_NAME; ABORT_TRANSITION_NAME; INIT_TRANSITION_NAME] -> configuredGroup_ w'.2 = "").
Proof.
  intros Hw Hq Hf Hfail Hconf Hr. apply String.eqb_neq in Hconf.
  unfold transitionBody. rewrite Hconf. cbn [andb].
  rewrite (bind_ok _ _ _ tt w) by reflexivity.
  set (c1 := set_work w.2 false false false). rewrite (bind_ok _ _ _ tt (w.1, c1)) by reflexivity.
  rewrite (bind_ok _ _ _ true (w.1, c1)) by (unfold getc, gets; cbn; by rewrite <- Hf). cbv iota.
  set (c2 := set_last c1 (currentState_ w.1) command (lastIterationResult_ c1)).
  assert (Hw2 : atRest (w.1, c2)) by (destruct Hw as [H1 H2 H3]; constructor; [exact H1|exact H2|exact H3]).
  destruct (exec_lands command (Some m) r (w.1, c2) Hw2 Hq Hfail Hr) as (w3 & E3 & Hs3 & Hw3).
  assert (firstTransition command m (w.1, c1) = (Ok tt, w3)) as E4.
  { unfold firstTransition. rewrite (bind_ok _ _ _ (currentState_ w.1) (w.1, c1)) by reflexivity.
    rewrite (bind_ok _ _ _ tt (w.1, c2)) by reflexivity. rewrite Hconf.
    rewrite (bind_ok _ _ _ tt (w.1, c2)) by reflexivity. by rewrite (bind_ok _ _ _ _ _ E3). }
  rewrite (bind_ok _ _ _ _ _ E4).
  unfold recordConfiguredGroup, getm, getf, getc, gets, setc, modify, mbind, M_bind. cbn [fst snd].
  eexists _, _. split; [reflexivity|]. split; [exact Hs3|]. cbn [fst snd].
  intros Hin. assert (String.eqb command HALT_TRANSITION_NAME || String.eqb command ABORT_TRANSITION_NAME ||
    String.eqb command INIT_TRANSITION_NAME = true) as ->; [|done].
  rewrite !elem_of_cons, elem_of_nil in Hin. destruct Hin as [->|[->|[->|[]]]]; reflexivity.
Qed.

Lemma handleTransition_lands command m r w :
  atRest w -> quietAll -> isFirstIteration w.2 = true ->
  let st := stateName (currentState_ w.1) in
  command <> INIT_TRANSITION_NAME \/ st <> HALTED_STATE_NAME ->
  let command' := (convertInTry st (convertBeforeTry command st m)).1 in
  command' <> "fail" -> command' <> CONFIGURE_TRANSITION_NAME -> nextRow (currentState_ w.1) command' = Some r ->
  exists reply w', handleTransition command st m w = (Ok reply, w') /\ currentState_ w'.1 = to r /\
    (command' ∈ [HALT_TRANSITION_NAME; ABORT_TRANSITION_NAME; INIT_TRANSITION_NAME] -> configuredGroup_ w'.2 = "").
Proof.
  cbv zeta. intros Hw Hq Hf Hn Hfail Hconf Hr.
  destruct (handleTransition_body command (stateName (currentState_ w.1)) m w Hw Hn) as (w1 & (Hw1 & Hs1 & Hf1 & _) & ->).
  cbv zeta. destruct (convertInTry _ _) as [command2 m2]. cbn [fst snd] in *.
  destruct (body_lands command2 (stateName (currentState_ w.1)) (command +:+ "Done") m2 r w1) as (reply & w3 & E3 & Hs3 & Hg3);
    [done|done|by rewrite Hf1|done|done|by rewrite Hs1|].
  rewrite (bind_ok _ _ _ reply w3) by (unfold catch_if; by rewrite E3).
  destruct (finish_run command2 reply w3) as (p & E4). cbv zeta in E4. rewrite E4.
  eexists _, _. split; [reflexivity|]. split; [exact Hs3|exact Hg3].
Qed.

(** How ["Halt"] is converted in each state, and where it leads. *)
Lemma halt_row s m : s ∈ legalStates -> s <> "X"%char ->
  let command' := (convertInTry (stateName s) (convertBeforeTry HALT_TRANSITION_NAME (stateName s) m)).1 in
  command' ∈ [HALT_TRANSITION_NAME; ABORT_TRANSITION_NAME; INIT_TRANSITION_NAME] /\
  to <$> nextRow s command' = Some "H"%char.
Proof.
  unfold legalStates. rewrite !elem_of_cons, elem_of_nil. intros Hs Hx.
  destruct Hs as [->|[->|[->|[->|[->|[->|[->|[]]]]]]]]; (split; [|reflexivity]) || done; cbn; set_solver.
Qed.

Lemma halting_command c : c ∈ [HALT_TRANSITION_NAME; ABORT_TRANSITION_NAME; INIT_TRANSITION_NAME] ->
  c <> "fail" /\ c <> CONFIGURE_TRANSITION_NAME.
Proof. rewrite !elem_of_cons, elem_of_nil. by intros [->|[->|[->|[]]]]. Qed.

(** C4: ["Halt"] always leads to Halted: from every state but Shutdown, when
    the bound functions succeed, the handler (converting the command to
    Initialize or Abort where the diagram needs it) answers, the machine is
    Halted, and no configured group is reported any more. *)
Theorem halt_reaches_halted w m :
  atRest w -> quietAll -> command m = HALT_TRANSITION_NAME -> sane m -> firstMessage m w.2 ->
  nameFits HALT_TRANSITION_NAME w.1 -> currentState_ w.1 <> "X"%char ->
  exists reply w', runControlMessageHandler m w = (Ok reply, w') /\
    currentState_ w'.1 = "H"%char /\ configuredGroup_ w'.2 = "".
Proof.
  intros Hw Hq Hc Hs Hf Hn Hx. rewrite <- Hc in Hn. destruct (handler_first m w Hs Hf Hn) as (c1 & -> & Hf1).
  rewrite Hc, (atRest_current _ Hw), dispatch_transition by done.
  assert (Hw1 : atRest (w.1, c1)) by (destruct Hw as [H1 H2 H3]; constructor; [exact H1|exact H2|exact H3]).
  destruct (halt_row (currentState_ w.1) m (rest_state _ Hw) Hx) as [Hin Hrow].
  apply fmap_Some in Hrow as (r & Hr & Hto). destruct (halting_command _ Hin) as [H1 H2].
  assert (Hne : HALT_TRANSITION_NAME <> INIT_TRANSITION_NAME \/ stateName (currentState_ w.1) <> HALTED_STATE_NAME).
  { left. unfold HALT_TRANSITION_NAME, INIT_TRANSITION_NAME. congruence. }
  destruct (handleTransition_lands HALT_TRANSITION_NAME m r (w.1, c1) Hw1 Hq Hf1 Hne H1 H2 Hr)
    as (reply & w' & E1 & Hs' & Hg). cbn [fst] in E1.
  exists reply, w'. split; [exact E1|]. split; [by rewrite Hs', Hto|by apply Hg].
Qed.

(** ** Retransmissions *)

(** The bound functions leave the records alone. *)
Class KeepsRecords : Prop := call_records : forall fn e w, records (call fn e w).2.2 = records w.2.

Section Retransmission.
Context `{!KeepsRecords}.

Definition recorded (v : string * Z * Z * Z) (w : World) : Prop := records w.2 = v.

Lemma recorded_setc v g : (forall c, records (g c) = records c) -> keeps (recorded v) (setc g).
Proof. intros Hg. apply keeps_modify. intros w Hw. unfold recorded in *. cbn. by rewrite Hg. Qed.
Lemma recorded_setm v g : keeps (recorded v) (setm g).
Proof. apply keeps_modify. by intros w Hw. Qed.
Lemma recorded_setf v g : keeps (recorded v) (setf g).
Proof. apply keeps_modify. by intros w Hw. Qed.
Lemma recorded_stamp v : keeps (recorded v) (stampEntranceTime clock).
Proof. apply keeps_modify. by intros w Hw. Qed.
Lemma recorded_getf v {A} (g : FiniteStateMachine Fn -> A) : keeps (recorded v) (getf g).
Proof. apply keeps_gets. Qed.
Lemma recorded_getc v {A} (g : RunControl -> A) : keeps (recorded v) (getc g).
Proof. apply keeps_gets. Qed.
Lemma recorded_call v fn e : keeps (recorded v) (call fn e).
Proof. intros w Hw. unfold recorded. by rewrite call_records. Qed.
#[local] Hint Resolve recorded_setm recorded_setf recorded_stamp recorded_getf recorded_getc recorded_call : keeps.
#[local] Hint Extern 2 (keeps (recorded _) (setc _)) => apply recorded_setc; intros; reflexivity : keeps.

Lemma recorded_callIf v fn e : keeps (recorded v) (callIf call fn e).
Proof. unfold callIf. keeps_steps. Qed.
#[local] Hint Resolve recorded_callIf : keeps.
Lemma recorded_enterFailedState v : keeps (recorded v) (enterFailedState call).
Proof. unfold enterFailedState. keeps_steps. Qed.
#[local] Hint Resolve recorded_enterFailedState : keeps.
Lemma recorded_fireEvent v i : keeps (recorded v) (fireEvent call i).
Proof. unfold fireEvent. keeps_steps. Qed.
#[local] Hint Resolve recorded_fireEvent : keeps.
Lemma recorded_execNormal v t m : keeps (recorded v) (execNormal call clock t m).
Proof. unfold execNormal. keeps_steps. Qed.
#[local] Hint Resolve recorded_execNormal : keeps.
Lemma recorded_execFail v m : keeps (recorded v) (execFail call clock m).
Proof. unfold execFail. keeps_steps. Qed.
Lemma recorded_exec v t m : keeps (recorded v) (exec t m).
Proof.
  intros w Hw. unfold exec, execTransition. destruct (String.eqb t "fail").
  - destruct (inTransition_ w.1); [done|]. by apply recorded_execFail.
  - by apply recorded_execNormal.
Qed.
#[local] Hint Resolve recorded_exec : keeps.

(** The first iteration of a command records it, whatever happens next. *)
Lemma body_records command st result m w :
  isFirstIteration w.2 = true -> command <> CONFIGURE_TRANSITION_NAME \/ st <> INITIAL_STATE_NAME ->
  records (catch_all (transitionBody command st result m) (transitionFailed command) w).2.2
  = (command, lastSubsystemIterationIndex_ w.2, lastIterationIndex_ w.2, lastSubIterationIndex_ w.2).
Proof.
  intros Hf Hpre.
  set (v := (command, lastSubsystemIterationIndex_ w.2, lastIterationIndex_ w.2, lastSubIterationIndex_ w.2)).
  set (c1 := set_work w.2 false false false).
  set (c2 := set_last c1 (currentState_ w.1) command (lastIterationResult_ c1)).
  assert (Hbody : recorded v (transitionBody command st result m w).2).
  { unfold transitionBody.
    assert (String.eqb command CONFIGURE_TRANSITION_NAME && String.eqb st INITIAL_STATE_NAME = false) as ->.
    { apply andb_false_iff. destruct Hpre as [H1|H1]; [left|right]; by apply String.eqb_neq. }
    rewrite (bind_ok _ _ _ tt w) by reflexivity. rewrite (bind_ok _ _ _ tt (w.1, c1)) by reflexivity.
    rewrite (bind_ok _ _ _ true (w.1, c1)) by (unfold getc, gets; cbn; by rewrite <- Hf). cbv iota.
    assert (Hk : keeps (recorded v) (fun w' => ((
        (if String.eqb command CONFIGURE_TRANSITION_NAME then
           alias ← lift (getValue m "ConfigurationAlias");
           setc (fun c => set_groups c (attemptedGroup m alias) (configuredGroup_ c))
         else mret tt);; exec command (Some m);; mret tt);;
        recordConfiguredGroup command m;; getc (workResult command result)) w')).
    { unfold recordConfiguredGroup. keeps_steps. apply recorded_setc. intros c. by repeat case_match. }
    specialize (Hk (w.1, c2) eq_refl). cbv beta in Hk.
    unfold firstTransition. unfold mbind at 1, M_bind at 1.
    rewrite (bind_ok _ _ _ (currentState_ w.1) (w.1, c1)) by reflexivity.
    rewrite (bind_ok _ _ _ tt (w.1, c2)) by reflexivity. exact Hk. }
  unfold catch_if. destruct (transitionBody command st result m w) as [[r|e] w3]; [exact Hbody|].
  destruct (any_exn e); [|exact Hbody].
  assert (Hk : keeps (recorded v) (transitionFailed command e)) by (unfold transitionFailed; keeps_steps).
  by apply Hk.
Qed.

(** A command that no state converts, and that the current one does not
    precede with an Initialize. *)
Definition taken (command st : string) (m : Message) : Prop :=
  (convertInTry st (convertBeforeTry command st m)) = (command, m) /\
  (command <> INIT_TRANSITION_NAME \/ st <> HALTED_STATE_NAME) /\
  (command <> CONFIGURE_TRANSITION_NAME \/ st <> INITIAL_STATE_NAME).

(** The Gateway's retransmission of [m]. *)
Definition retransmit (m : Message) : Message := mkMessage (command m) (<["retransmission" := "1"]> (parameters m)).

Lemma retransmit_indices m : readIndices (retransmit m) = readIndices m.
Proof.
  unfold readIndices, readIndex, getValue, retransmit. cbn [parameters]. by rewrite !lookup_insert_ne by done.
Qed.

(** C3: A command that is executed under its own name is executed once.  When
    the Gateway repeats the first message of a command because the answer was
    lost, the handler returns the reply of the first time, success or failure,
    and leaves the machine as it is.  The command is one that drives the
    machine ([drivesMachine]), with its indices at their first values
    ([firstMessage]), a name that fits the progress bar, and is neither converted by the state nor preceded by an
    Initialize ([taken]); a Halt that becomes an Abort is recorded as "Abort",
    and its retransmission is executed again ([converted_halt_runs_again]). *)
Theorem retransmission_executes_once w m reply w' :
  atRest w -> sane m -> firstMessage m w.2 -> nameFits (command m) w.1 -> drivesMachine (command m) = true ->
  taken (command m) (getCurrentStateName w.1) m ->
  runControlMessageHandler m w = (Ok reply, w') ->
  exists w'', runControlMessageHandler (retransmit m) w' = (Ok reply, w'') /\ w''.1 = w'.1.
Proof.
  intros Hw Hs Hf Hn Hd (Hc & Hi & Hp) Hrun.
  destruct (handler_first_records m w Hs Hf Hn) as (a & b & c & d & c1 & Eidx & E1 & Hf1 & Hrec).
  rewrite E1, dispatch_transition in Hrun by done.
  assert (Hw1 : atRest (w.1, c1)) by (destruct Hw as [H1 H2 H3]; constructor; [exact H1|exact H2|exact H3]).
  destruct (handleTransition_body (command m) (getCurrentStateName w.1) m (w.1, c1) Hw1 Hi)
    as (w2 & (Hw2 & _ & Hf2 & _ & Hl1 & Hl2 & Hl3) & E2). cbv zeta in E2.
  rewrite E2, Hc in Hrun. cbn [fst snd] in *.
  destruct (tryTransition_ok (command m) (getCurrentStateName w.1) (command m +:+ "Done") m w2 Hw2) as (r & w3 & E3 & _).
  pose proof (body_records (command m) (getCurrentStateName w.1) (command m +:+ "Done") m w2) as Hb.
  rewrite E3 in Hb. rewrite (bind_ok _ _ _ _ _ E3) in Hrun.
  specialize (Hb ltac:(by rewrite Hf2) Hp). rewrite Hl1, Hl2, Hl3 in Hb.
  unfold records in Hrec. injection Hrec as _ R1 R2 R3. rewrite R1, R2, R3 in Hb. cbn [snd] in Hb.
  destruct (finish_run (command m) r w3) as (p & E4). cbv zeta in E4. rewrite E4 in Hrun. injection Hrun as <- <-.
  unfold records in Hb. injection Hb as B0 B1 B2 B3.
  unfold runControlMessageHandler. rewrite retransmit_indices, (bind_ok _ _ _ _ _ (Eidx _)).
  eexists. split.
  - unfold mbind, M_bind, getc, gets. cbn [fst snd].
    unfold retransmittedCommand, getValue, retransmit. cbn [parameters command]. rewrite lookup_insert_eq.
    unfold sameAsLast. cbn [set_indices set_last set_progressBar lastIterationCommand_ lastSubsystemIterationIndex_ lastIterationIndex_
      lastSubIterationIndex_ subsystemIterationIndex_ iterationIndex_ subIterationIndex_].
    rewrite B0, B1, B2, B3, !Z.eqb_refl. cbn [String.eqb Ascii.eqb Bool.eqb andb]. rewrite String.eqb_refl. reflexivity.
  - reflexivity.
Qed.
End Retransmission.

(** C1: Whatever messages arrive, whatever the bound functions throw and do to
    the rest of the object, and whichever detached thread is taken between two
    messages: after each message and each thread the machine is in one of its
    seven states, no transition is left in progress, and its transition table
    is still the constructor's.  The bound functions do not drive the machine
    themselves ([WellBehaved]).  A thread runs between two messages or starts
    within a transition, where it waits or leaves the machine alone
    ([runDetached_inTransition]); one whose own transition runs side by side
    with a handler is not covered. *)
Theorem run_control_invariant w :
  reachable w ->
  inTransition_ w.1 = false /\ currentState_ w.1 ∈ legalStates /\
  forall s t, entry (stateTransitionTable_ w.1) s t = to <$> nextRow s t.
Proof.
  intros [Ht Hi Hs]%reachable_atRest. split; [exact Hi|]. split; [exact Hs|]. intros s t.
  rewrite (tables_transitions _ _ Ht). apply machine_next.
Qed.

End Handler.
Arguments RunControl E : clear implicits.
(** ** A concrete supervisor: the base class, with nothing of its own *)

#[export] Instance baseCall_WellBehaved {E} : WellBehaved (X := RunControl E) baseCall.
Proof. split; [|done]. intros fn event w. apply sameMachine_refl. Qed.
#[export] Instance baseCall_KeepsRecords {E} : KeepsRecords (E := E) baseCall.
Proof. by intros fn event w. Qed.

Definition freshRunControl : RunControl unit :=
  mkRC (ProgressBar.construct ∅) false false false 0 0 0 false false false 0 "X"%char "" "" "" "" 0 0 0
    functionTable [] tt.
Definition noClock : RunControl unit -> Z := fun _ => 1.
Definition fresh : FiniteStateMachine Fn * RunControl unit := start noClock "Gateway" freshRunControl.
(** The handler of this supervisor. *)
Definition handle (c : string) := runControlMessageHandler baseCall noClock (fun _ => "error") "" (makeSOAPMessageReference c).

Lemma fresh_atRest : atRest fresh.
Proof. exact (start_atRest baseCall noClock "Gateway" freshRunControl). Qed.

Lemma plain_sane c : sane (E := unit) (makeSOAPMessageReference c).
Proof. repeat (constructor; [exists 0; reflexivity|]). constructor. Qed.

Lemma plain_first c rc : firstMessage (E := unit) (makeSOAPMessageReference c) rc.
Proof.
  split; [reflexivity|]. intros f f' c'.
  assert (readIndices (makeSOAPMessageReference c) (f, rc) = (Ok tt, (f, set_indices rc 0 0 0 0))) as -> by reflexivity.
  intros Heq. injection Heq as _ <-. reflexivity.
Qed.

Example initialize_then_configure :
  let w1 := (handle "Initialize" fresh).2 in
  (handle "Initialize" fresh).1 = Ok "InitializeDone" /\ currentState_ w1.1 = "H"%char /\
  (handle "Start" w1).1 = Ok "StartFailed" /\ currentState_ (handle "Start" w1).2.1 = "H"%char.
Proof. vm_compute. repeat split. Qed.

Lemma execTransition_outcome_witness :
  (inTransition_ fresh.1 = true -> execTransition (baseCall (E := unit)) noClock "Initialize" None (fresh.1, fresh.2) = Some (Ok false, (fresh.1, fresh.2))) /\
  (inTransition_ fresh.1 = false -> entry (stateTransitionTable_ fresh.1) (currentState_ fresh.1) "Initialize" = None ->
     exists f', execTransition (baseCall (E := unit)) noClock "Initialize" None (fresh.1, fresh.2) = Some (Throw FsmException, (f', fresh.2)) /\
       currentState_ f' = currentState_ fresh.1 /\ inTransition_ f' = false) /\
  (forall to, inTransition_ fresh.1 = false -> entry (stateTransitionTable_ fresh.1) (currentState_ fresh.1) "Initialize" = Some to ->
     calmHooks (baseCall (E := unit)) fresh.1 to "Initialize" ->
     let r := (callIf (baseCall (E := unit)) (boundTo fresh.1 (currentState_ fresh.1) "Initialize") "Initialize" (departing fresh.1 "Initialize" None, fresh.2)).1 in
     exists w', execTransition (baseCall (E := unit)) noClock "Initialize" None (fresh.1, fresh.2) = Some (Ok true, w') /\
       currentState_ w'.1 = (if is_ok r then to else FAILED_STATE) /\ inTransition_ w'.1 = false /\
       provenanceState_ w'.1 = currentState_ fresh.1 /\ currentTransition_ w'.1 = "Initialize").
Proof. apply (execTransition_outcome (baseCall (E := unit)) noClock "Initialize" None fresh.1 fresh.2). discriminate. Defined.

Lemma failure_is_reported_witness :
  exists reply w', handle "Start" fresh = (Ok reply, w') /\ atRest w' /\
    (currentState_ w'.1 = FAILED_STATE -> exists c, reply = c +:+ FAILED_STATE_NAME).
Proof.
  apply (failure_is_reported baseCall noClock (fun _ => "error") "" fresh (makeSOAPMessageReference "Start")).
  - exact fresh_atRest.
  - apply plain_sane.
  - apply plain_first.
  - eexists. vm_compute. reflexivity.
  - reflexivity.
Defined.

Lemma halt_reaches_halted_witness :
  exists reply w', handle "Halt" fresh = (Ok reply, w') /\ currentState_ w'.1 = "H"%char /\ configuredGroup_ w'.2 = "".
Proof.
  apply (halt_reaches_halted baseCall noClock (fun _ => "error") "" fresh (makeSOAPMessageReference "Halt")).
  - exact fresh_atRest.
  - by intros fn e w.
  - reflexivity.
  - apply plain_sane.
  - apply plain_first.
  - eexists. vm_compute. reflexivity.
  - vm_compute. discriminate.
Defined.

Lemma pair_eta {A B} (p : A * B) a : p.1 = a -> p = (a, p.2).
Proof. destruct p. by intros <-. Qed.

Lemma fresh_initialize : handle "Initialize" fresh = (Ok "InitializeDone", (handle "Initialize" fresh).2).
Proof. apply pair_eta. vm_compute. reflexivity. Qed.

Lemma retransmission_executes_once_witness :
  exists w'', runControlMessageHandler baseCall noClock (fun _ => "error") ""
    (retransmit (makeSOAPMessageReference "Initialize")) (handle "Initialize" fresh).2 = (Ok "InitializeDone", w'') /\
    w''.1 = (handle "Initialize" fresh).2.1.
Proof.
  apply (retransmission_executes_once baseCall noClock (fun _ => "error") "" fresh (makeSOAPMessageReference "Initialize")).
  - exact fresh_atRest.
  - apply plain_sane.
  - apply plain_first.
  - eexists. vm_compute. reflexivity.
  - reflexivity.
  - split; [vm_compute; reflexivity|]. split; [right; vm_compute; discriminate|left; vm_compute; discriminate].
  - exact fresh_initialize.
Defined.

(** A run that has been configured and started, then given an asynchronous
    pause and an asynchronous error, whose thread is the one that runs first. *)
Definition takeMessage (w : FiniteStateMachine Fn * RunControl unit) (m : Message) : FiniteStateMachine Fn * RunControl unit :=
  (runControlMessageHandler baseCall noClock (fun _ => "error") "" m w).2.
Definition toRunning : list Message :=
  [makeSOAPMessageReference "Initialize"; mkMessage "Configure" {["ConfigurationAlias" := "Cosmics"]};
   mkMessage "Start" {["RunNumber" := "7"]}].
Definition running : FiniteStateMachine Fn * RunControl unit := foldl takeMessage fresh toRunning.
Definition onceRunning : FiniteStateMachine Fn * RunControl unit :=
  foldl takeMessage running
    [mkMessage "AsyncPauseException" {["ErrorMessage" := "late"]}; mkMessage "AsyncError" {["ErrorMessage" := "lost"]}].
Definition afterError : FiniteStateMachine Fn * RunControl unit :=
  default fresh (runDetached baseCall noClock 1 onceRunning).

Lemma onceRunning_reachable : reachable baseCall noClock (fun _ => "error") "" onceRunning.
Proof. unfold onceRunning, running, toRunning. cbn [foldl]. unfold takeMessage. do 5 apply reach_message. apply reach_start. Qed.

Lemma afterError_run :
  runDetached baseCall noClock 1 onceRunning = Some afterError /\ detachedThreads onceRunning.2 = ["Pause"; "fail"] /\
  detachedThreads afterError.2 = ["Pause"].
Proof. vm_compute. repeat split. Qed.

Lemma run_control_invariant_witness :
  inTransition_ afterError.1 = false /\ currentState_ afterError.1 ∈ legalStates /\
  forall s t, entry (stateTransitionTable_ afterError.1) s t = to <$> nextRow s t.
Proof.
  apply (run_control_invariant baseCall noClock (fun _ => "error") "").
  apply (reach_thread _ _ _ _ onceRunning 1); [exact onceRunning_reachable|vm_compute; reflexivity].
Defined.

(** A Halt that the Running state converts to Abort is recorded under "Abort":
    repeated with the mark of a retransmission, it is executed again, as the
    transition Halt from Halted. *)
Example converted_halt_runs_again :
  let w1 := (handle "Halt" running).2 in
  let w2 := takeMessage w1 (retransmit (makeSOAPMessageReference "Halt")) in
  currentState_ running.1 = "R"%char /\ (handle "Halt" running).1 = Ok "HaltDone" /\ currentTransition_ w1.1 = "Abort" /\
  lastIterationCommand_ w1.2 = "Abort" /\ currentTransition_ w2.1 = "Halt".
Proof. vm_compute. repeat split. Qed.

(** The handler knows ["AsyncStopException"], but no such message is bound to
    it. *)
Lemma asyncStop_not_bound : "AsyncStopException" ∉ boundMessages.
Proof. by apply (bool_decide_eq_false_1 ("AsyncStopException" ∈ boundMessages)). Qed.

End RunControlStateMachine.
