(* ===== verification/WebUsers.v ===== *)
(** * Users and sessions

    src/otsdaq/WebUsersUtilities/WebUsers.cc and .h: login and active sessions,
    cookie codes, the check every web request goes through, logout, expiry and
    the system lock.  (Passwords are in Login.v, accounts in Accounts.v.)

    A member function is a function of the state monad on [WebUsers]; the
    wall-clock second [now] of a call is an argument, [rand()] a stream, and the
    files are not modelled.  An index out of range is [Throw Undefined]. *)

From S2P Require Import Prelude CText StringMacros StringLists.

Module WebUsers.

(** ** Constants *)

Definition SESSION_ID_LENGTH : nat := 512.
Definition COOKIE_CODE_LENGTH : nat := 512.
Definition NOT_FOUND_IN_DATABASE : Z := u64 (-1).
Definition ACCOUNT_INACTIVE : Z := u64 (-2).
Definition ACCOUNT_BLACKLISTED : Z := u64 (-3).
Definition ACCOUNT_ERROR_THRESHOLD : Z := u64 (-5).
Definition USERNAME_LENGTH : nat := 3.
Definition DISPLAY_NAME_LENGTH : nat := 4.
Definition PERMISSION_LEVEL_ADMIN : Z := u8 (-1).
Definition PERMISSION_LEVEL_NOVICE : Z := 1.
Definition PERMISSION_LEVEL_INACTIVE : Z := 0.
Definition LOGIN_SESSION_EXPIRATION_TIME : Z := 5 * 60.
Definition LOGIN_SESSION_ATTEMPTS_MAX : Z := 5.
Definition ACTIVE_SESSION_EXPIRATION_TIME : Z := 120 * 60.
Definition ACTIVE_SESSION_COOKIE_OVERLAP_TIME : Z := 10 * 60.
Definition LOCK_INACTIVITY_TIMEOUT : Z := 30 * 60.
Definition USERS_MAX_LOGIN_FAILURES : Z := 20.
Definition IP_BLACKLIST_COUNT_THRESHOLD : Z := 200.

Definition DEFAULT_ADMIN_USERNAME : text := txt "admin".
Definition DEFAULT_ITERATOR_USERNAME : text := txt "iterator".
Definition DEFAULT_STATECHANGER_USERNAME : text := txt "statechanger".
Definition DEFAULT_USER_GROUP : text := txt "allUsers".
Definition REQ_NO_LOGIN_RESPONSE : text := txt "NoLogin".
Definition REQ_NO_PERMISSION_RESPONSE : text := txt "NoPermission".
Definition REQ_USER_LOCKOUT_RESPONSE : text := txt "UserLockout".
Definition REQ_LOCK_REQUIRED_RESPONSE : text := txt "LockRequired".
Definition REQ_ALLOW_NO_USER : text := txt "AllowNoUser".

(** ** Data *)

Definition permissions := gmap text Z.

Record User := mkUser {
  username_ : text; email_ : text; displayName_ : text; salt_ : text;
  permissions_ : permissions;
  userId_ : Z;
  lastLoginAttempt_ : Z; accountCreationTime_ : Z;
  loginFailureCount_ : Z;
  lastModifierUsername_ : text; lastModifierTime_ : Z;
}.

Record LoginSession := mkLogin { id_ : text; uuid_ : text; login_ip_ : text; login_startTime_ : Z; loginAttempts_ : Z }.

Record ActiveSession := mkSession {
  cookieCode_ : text; ip_ : text;
  session_userId_ : Z; sessionIndex_ : Z;
  startTime_ : Z; lastActivityTime_ : Z;
}.

Record Hash := mkHash { hash_ : text; accessTime_ : Z }.

(** The address lists, and the files they are loaded from, by line. *)
Record Addresses := mkAddresses {
  ipBlacklistCounts_ : gmap text Z;
  ipAccessAccept_ : list text;
  ipAccessReject_ : list text;
  ipAccessBlacklist_ : list text;
  ipSecurityLastLoadTime_ : Z;
  ipAcceptFile : list text;
  ipRejectFile : list text;
  ipBlacklistFile : list text;
}.

Record WebUsers := mkWeb {
  LoginSessions_ : list LoginSession;
  ActiveSessions_ : list ActiveSession;
  RemoteSessions_ : gmap text ActiveSession;
  Users_ : list User;
  usersNextUserId_ : Z;
  usersUsernameWithLock_ : text;
  UsersLoggedOutUsernames_ : list text;
  Hashes_ : list Hash;
  addresses : Addresses;
  CareAboutCookieCodes_ : bool;
  ipBlacklistEnabled_ : bool;
  remoteLoginVerificationEnabled_ : bool;
  remoteLoginVerificationEnabledBlackoutTime_ : Z;
  randPosition : nat; (* how many times rand() was called *)
}.

Definition set_LoginSessions w l :=
  mkWeb l (ActiveSessions_ w) (RemoteSessions_ w) (Users_ w) (usersNextUserId_ w) (usersUsernameWithLock_ w)
    (UsersLoggedOutUsernames_ w) (Hashes_ w) (addresses w) (CareAboutCookieCodes_ w) (ipBlacklistEnabled_ w)
    (remoteLoginVerificationEnabled_ w) (remoteLoginVerificationEnabledBlackoutTime_ w) (randPosition w).
Definition set_ActiveSessions w l :=
  mkWeb (LoginSessions_ w) l (RemoteSessions_ w) (Users_ w) (usersNextUserId_ w) (usersUsernameWithLock_ w)
    (UsersLoggedOutUsernames_ w) (Hashes_ w) (addresses w) (CareAboutCookieCodes_ w) (ipBlacklistEnabled_ w)
    (remoteLoginVerificationEnabled_ w) (remoteLoginVerificationEnabledBlackoutTime_ w) (randPosition w).
Definition set_Users w l nextUserId :=
  mkWeb (LoginSessions_ w) (ActiveSessions_ w) (RemoteSessions_ w) l nextUserId (usersUsernameWithLock_ w)
    (UsersLoggedOutUsernames_ w) (Hashes_ w) (addresses w) (CareAboutCookieCodes_ w) (ipBlacklistEnabled_ w)
    (remoteLoginVerificationEnabled_ w) (remoteLoginVerificationEnabledBlackoutTime_ w) (randPosition w).
Definition set_lock w lock :=
  mkWeb (LoginSessions_ w) (ActiveSessions_ w) (RemoteSessions_ w) (Users_ w) (usersNextUserId_ w) lock
    (UsersLoggedOutUsernames_ w) (Hashes_ w) (addresses w) (CareAboutCookieCodes_ w) (ipBlacklistEnabled_ w)
    (remoteLoginVerificationEnabled_ w) (remoteLoginVerificationEnabledBlackoutTime_ w) (randPosition w).
Definition set_loggedOut w l :=
  mkWeb (LoginSessions_ w) (ActiveSessions_ w) (RemoteSessions_ w) (Users_ w) (usersNextUserId_ w)
    (usersUsernameWithLock_ w) l (Hashes_ w) (addresses w) (CareAboutCookieCodes_ w) (ipBlacklistEnabled_ w)
    (remoteLoginVerificationEnabled_ w) (remoteLoginVerificationEnabledBlackoutTime_ w) (randPosition w).
Definition set_Hashes w l :=
  mkWeb (LoginSessions_ w) (ActiveSessions_ w) (RemoteSessions_ w) (Users_ w) (usersNextUserId_ w)
    (usersUsernameWithLock_ w) (UsersLoggedOutUsernames_ w) l (addresses w) (CareAboutCookieCodes_ w)
    (ipBlacklistEnabled_ w) (remoteLoginVerificationEnabled_ w) (remoteLoginVerificationEnabledBlackoutTime_
    w) (randPosition w).
Definition set_addresses w a :=
  mkWeb (LoginSessions_ w) (ActiveSessions_ w) (RemoteSessions_ w) (Users_ w) (usersNextUserId_ w)
    (usersUsernameWithLock_ w) (UsersLoggedOutUsernames_ w) (Hashes_ w) a (CareAboutCookieCodes_ w)
    (ipBlacklistEnabled_ w) (remoteLoginVerificationEnabled_ w) (remoteLoginVerificationEnabledBlackoutTime_
    w) (randPosition w).
Definition set_rand w n :=
  mkWeb (LoginSessions_ w) (ActiveSessions_ w) (RemoteSessions_ w) (Users_ w) (usersNextUserId_ w)
    (usersUsernameWithLock_ w) (UsersLoggedOutUsernames_ w) (Hashes_ w) (addresses w) (CareAboutCookieCodes_
    w) (ipBlacklistEnabled_ w) (remoteLoginVerificationEnabled_ w)
    (remoteLoginVerificationEnabledBlackoutTime_ w) n.
Definition set_remote w enabled blackout remote :=
  mkWeb (LoginSessions_ w) (ActiveSessions_ w) remote (Users_ w) (usersNextUserId_ w) (usersUsernameWithLock_
    w) (UsersLoggedOutUsernames_ w) (Hashes_ w) (addresses w) (CareAboutCookieCodes_ w) (ipBlacklistEnabled_
    w) enabled blackout (randPosition w).

Definition set_start s t := mkSession (cookieCode_ s) (ip_ s) (session_userId_ s) (sessionIndex_ s) t (lastActivityTime_ s).
Definition set_activity s t := mkSession (cookieCode_ s) (ip_ s) (session_userId_ s) (sessionIndex_ s) (startTime_ s) t.

(** ** Searches: the first index, [None] for [NOT_FOUND_IN_DATABASE] *)


Definition searchActiveSessionDatabaseForCookie w (cookieCode : text) : option nat :=
  search (fun s => textEq (cookieCode_ s) cookieCode) (ActiveSessions_ w).
Definition searchUsersDatabaseForUsername w (username : text) : option nat :=
  search (fun u => textEq (username_ u) username) (Users_ w).
Definition searchUsersDatabaseForDisplayName w (displayName : text) : option nat :=
  search (fun u => textEq (displayName_ u) displayName) (Users_ w).
Definition searchUsersDatabaseForUserEmail w (useremail : text) : option nat :=
  search (fun u => textEq (email_ u) useremail) (Users_ w).
Definition searchUsersDatabaseForUserId w (uid : Z) : option nat :=
  search (fun u => userId_ u =? uid) (Users_ w).
Definition searchLoginSessionDatabaseForUUID w (uuid : text) : option nat :=
  search (fun s => textEq (uuid_ s) uuid) (LoginSessions_ w).

Definition isUserIdActive w (uid : Z) : bool :=
  (remoteLoginVerificationEnabled_ w && existsb (fun p => session_userId_ p.2 =? uid) (map_to_list (RemoteSessions_ w))) ||
  existsb (fun s => session_userId_ s =? uid) (ActiveSessions_ w).
Definition isUsernameActive w (username : text) : bool :=
  match searchUsersDatabaseForUsername w username with
  | None => false
  | Some u => match Users_ w !! u with Some user => isUserIdActive w (userId_ user) | None => false end
  end.

Definition getUsersDisplayName w (uid : Z) : text :=
  match searchUsersDatabaseForUserId w uid with
  | Some i => match Users_ w !! i with Some u => displayName_ u | None => [] end
  | None => []
  end.
Definition getUsersUsername w (uid : Z) : text :=
  match searchUsersDatabaseForUserId w uid with
  | Some i => match Users_ w !! i with Some u => username_ u | None => [] end
  | None => []
  end.

(** [getAdminUserID] answers the index of the account, not its user id. *)
Definition getAdminUserID w : Z :=
  match searchUsersDatabaseForUsername w DEFAULT_ADMIN_USERNAME with
  | Some i => Z.of_nat i
  | None => NOT_FOUND_IN_DATABASE
  end.

(** ** Permissions *)

Definition getPermissionsForUser w (uid : Z) : permissions :=
  match searchUsersDatabaseForUserId w uid with
  | Some i => match Users_ w !! i with Some u => permissions_ u | None => ∅ end
  | None => {[ DEFAULT_USER_GROUP := PERMISSION_LEVEL_INACTIVE ]}
  end.
Definition getPermissionLevelForGroup (permissionMap : permissions) (groupName : text) : Z :=
  default PERMISSION_LEVEL_INACTIVE (permissionMap !! groupName).
Definition isInactiveForGroup (permissionMap : permissions) (groupName : text) : bool :=
  getPermissionLevelForGroup permissionMap groupName =? PERMISSION_LEVEL_INACTIVE.
Definition isAdminForGroup (permissionMap : permissions) (groupName : text) : bool :=
  getPermissionLevelForGroup permissionMap groupName =? PERMISSION_LEVEL_ADMIN.

(** ** Addresses *)

(** A line without its newline; one or two characters are kept as they are. *)
Definition stripLine (line : text) : text :=
  if (2 <? length line)%nat && match last line with Some c => (c =? chr 10)%char | None => false end
  then removelast line else line.
Definition loadLines (lines : list text) : list text :=
  fold_left (fun l line => StringLists.emplace l (stripLine line)) lines [].
Definition loadIPAddressSecurity (a : Addresses) : Addresses :=
  mkAddresses (ipBlacklistCounts_ a) (loadLines (ipAcceptFile a)) (loadLines (ipRejectFile a))
    (loadLines (ipBlacklistFile a)) (ipSecurityLastLoadTime_ a) (ipAcceptFile a) (ipRejectFile a) (ipBlacklistFile a).

(** [wildCardMatch(ip, entry)]: the address is the pattern. *)
Definition matches (ip entry : text) : bool := (StringMacros.wildCardMatch ip entry).1.

Definition ipAccepted w (ip : text) : bool :=
  let a := addresses w in
  if existsb (matches ip) (ipAccessAccept_ a) then true
  else if existsb (matches ip) (ipAccessReject_ a) then false
  else if ipBlacklistEnabled_ w && existsb (matches ip) (ipAccessBlacklist_ a) then false
  else true.

(** The lists are loaded again every ten minutes. *)
Definition reloadAddresses (now : Z) (a : Addresses) : Addresses :=
  if ipSecurityLastLoadTime_ a + 10 * 60 <? now
  then loadIPAddressSecurity (mkAddresses (ipBlacklistCounts_ a) (ipAccessAccept_ a) (ipAccessReject_ a) (ipAccessBlacklist_ a)
         now (ipAcceptFile a) (ipRejectFile a) (ipBlacklistFile a))
  else a.
Definition checkIpAccess (now : Z) (ip : text) : M WebUsers bool :=
  if textEq ip (txt "0") then mret true
  else
    modify (fun w => set_addresses w (reloadAddresses now (addresses w))) ≫= fun _ =>
    gets (fun w => ipAccepted w ip).

Definition set_counts a counts :=
  mkAddresses counts (ipAccessAccept_ a) (ipAccessReject_ a) (ipAccessBlacklist_ a) (ipSecurityLastLoadTime_ a)
    (ipAcceptFile a) (ipRejectFile a) (ipBlacklistFile a).
Definition blacklist a (ip : text) :=
  mkAddresses (ipBlacklistCounts_ a) (ipAccessAccept_ a) (ipAccessReject_ a)
    (StringLists.emplace (ipAccessBlacklist_ a) ip) (ipSecurityLastLoadTime_ a)
    (ipAcceptFile a) (ipRejectFile a) (ipBlacklistFile a ++ [ip ++ [chr 10]]).

Definition incrementIpBlacklistCount (ip : text) : M WebUsers unit := modify (fun w =>
  let a := addresses w in
  if negb (ipBlacklistEnabled_ w) then w
  else if textEq ip (txt "0") || bool_decide (ip ∈ ipAccessBlacklist_ a) then w
  else
    set_addresses w
      match ipBlacklistCounts_ a !! ip with
      | None => set_counts a (<[ip := 1]> (ipBlacklistCounts_ a))
      | Some n =>
          let n := u32 (n + 1) in
          let a := set_counts a (<[ip := n]> (ipBlacklistCounts_ a)) in
          if IP_BLACKLIST_COUNT_THRESHOLD <=? n then blacklist a ip else a
      end).
(** [ipBlacklistCounts_[ip] = 0] *)
Definition clearBlacklistCount (ip : text) : M WebUsers unit := modify (fun w =>
  set_addresses w (set_counts (addresses w) (<[ip := 0]> (ipBlacklistCounts_ (addresses w))))).

(** ** Cookie codes and sessions *)

Section Sessions.
(** What [rand()] returns, call by call. *)
Variable rand : nat -> Z.

(** [sprintf("%2.2X", (unsigned char)i)] *)
Definition intToHexStr (i : Z) : text := [StringMacros.hexDigit (u8 i / 16); StringMacros.hexDigit (u8 i mod 16)].
Definition randomCode (position n : nat) : text := flat_map (fun i => intToHexStr (rand i)) (seq position n).
Definition draw (n : nat) : M WebUsers text := fun w =>
  (Ok (randomCode (randPosition w) n), set_rand w (randPosition w + n)).

Definition genCookieCode : M WebUsers text := draw (COOKIE_CODE_LENGTH / 2).

(** The largest session index of a user. *)
Definition maxIndex (l : list ActiveSession) (uid : Z) : Z :=
  fold_left (fun m s => if (session_userId_ s =? uid) && (m <? sessionIndex_ s) then sessionIndex_ s else m) l 0.

(** The new session is in the list (with index 0) while the maximum is
    computed.  The address is a reference in the code; on a refresh it is one
    into the vector that has just grown, and what it reads there is the address
    only if the vector did not move: the model has the address. *)
Definition createNewActiveSession (now : Z) (uid : Z) (ip : text) (asIndex : Z) : M WebUsers text :=
  code ← genCookieCode;
  modify (fun w =>
    let max := maxIndex (ActiveSessions_ w) uid in
    let index := if asIndex =? 0 then (if max =? 0 then 1 else u64 (max + 1)) else asIndex in
    set_ActiveSessions w (ActiveSessions_ w ++ [mkSession code ip uid index now now])) ≫= fun _ =>
  mret code.

(** The last index, for the loop from the end. *)
Definition searchLast {A} (p : A -> bool) (l : list A) : option nat :=
  fold_left (fun best ia => if p ia.2 then Some ia.1 else best) (imap pair l) None.

Definition refreshCookieCode (now : Z) (i : nat) (enableRefresh : bool) : M WebUsers text :=
  sessions ← gets ActiveSessions_;
  match sessions !! i with
  | None => throw Undefined
  | Some si =>
      match searchLast (fun s => (session_userId_ s =? session_userId_ si) && (sessionIndex_ s =? sessionIndex_ si)) sessions with
      | None => mret (txt "0")
      | Some j =>
          match sessions !! j with
          | None => throw Undefined
          | Some sj =>
              let sj' := if enableRefresh then set_activity sj now else sj in
              if enableRefresh && (ACTIVE_SESSION_EXPIRATION_TIME / 2 <? now - startTime_ sj) then
                modify (fun w => set_ActiveSessions w
                  (<[j := set_start sj' (now - ACTIVE_SESSION_EXPIRATION_TIME + ACTIVE_SESSION_COOKIE_OVERLAP_TIME)]> (ActiveSessions_ w)))
                  ≫= fun _ =>
                createNewActiveSession now (session_userId_ si) (ip_ si) (sessionIndex_ si)
              else
                modify (fun w => set_ActiveSessions w (<[j := sj']> (ActiveSessions_ w))) ≫= fun _ =>
                mret (cookieCode_ sj)
          end
      end
  end.

(** The number of different session indices of a user. *)
Definition getActiveSessionCountForUser w (uid : Z) : nat :=
  length (fold_left (fun seen s =>
    if session_userId_ s =? uid then if bool_decide (sessionIndex_ s ∈ seen) then seen else seen ++ [sessionIndex_ s] else seen)
    (ActiveSessions_ w) []).

Definition createNewLoginSession (now : Z) (UUID ip : text) : M WebUsers text :=
  found ← gets (fun w => searchLoginSessionDatabaseForUUID w UUID);
  match found with
  | Some _ => mret []
  | None =>
      sid ← draw (SESSION_ID_LENGTH / 2);
      modify (fun w => set_LoginSessions w (LoginSessions_ w ++ [mkLogin sid UUID ip now 0])) ≫= fun _ =>
      mret sid
  end.

(** ** Expiry *)

Definition loginExpired (now : Z) (s : LoginSession) : bool :=
  (login_startTime_ s + LOGIN_SESSION_EXPIRATION_TIME <? now) || (LOGIN_SESSION_ATTEMPTS_MAX <? loginAttempts_ s).
Definition sessionExpired (now : Z) (s : ActiveSession) : bool :=
  startTime_ s + ACTIVE_SESSION_EXPIRATION_TIME <=? now.

(** The erasing loop: [kept] is what the index has passed.  A user without any
    session left is noted by name; the name of a user that no longer exists is
    looked up at index -1. *)
Fixpoint expireSessions (now : Z) (kept rest : list ActiveSession) : M WebUsers unit :=
  match rest with
  | [] => mret tt
  | s :: rest =>
      if sessionExpired now s then
        modify (fun w => set_ActiveSessions w (kept ++ rest)) ≫= fun _ =>
        w ← gets id;
        (if isUserIdActive w (session_userId_ s) then mret tt
         else
           match searchUsersDatabaseForUserId w (session_userId_ s) with
           | None => throw Undefined
           | Some i => modify (fun w => set_loggedOut w (UsersLoggedOutUsernames_ w ++ [getUsersUsername w (session_userId_ s)]))
           end) ≫= fun _ =>
        expireSessions now kept rest
      else expireSessions now (kept ++ [s]) rest
  end.

(** The most recent activity of the holder of the lock. *)
Definition mostRecentActivity w : Z :=
  fold_left (fun recent s =>
    match searchUsersDatabaseForUserId w (session_userId_ s) with
    | Some idx => if textEq (getUsersUsername w (session_userId_ s)) (usersUsernameWithLock_ w) && (recent <? lastActivityTime_ s)
                  then lastActivityTime_ s else recent
    | None => recent
    end) (ActiveSessions_ w) 0.

Definition releaseStaleLock (now : Z) : M WebUsers unit := modify (fun w =>
  if CareAboutCookieCodes_ w && negb (textEq (usersUsernameWithLock_ w) []) then
    if negb (isUsernameActive w (usersUsernameWithLock_ w)) then set_lock w []
    else
      let recent := mostRecentActivity w in
      if (0 <? recent) && (LOCK_INACTIVITY_TIMEOUT <=? now - recent) then set_lock w [] else w
  else w).

(** Without an argument, the names logged out are stored for the next call
    with one (which returns and forgets the stored names first). *)
Definition cleanupExpiredEntries (now : Z) : M WebUsers unit :=
  modify (fun w => set_LoginSessions w (filter (fun s => loginExpired now s = false) (LoginSessions_ w))) ≫= fun _ =>
  sessions ← gets ActiveSessions_;
  expireSessions now [] sessions ≫= fun _ =>
  releaseStaleLock now.
Definition cleanupExpiredEntries_returning (now : Z) : M WebUsers (list text) :=
  stored ← gets UsersLoggedOutUsernames_;
  modify (fun w => set_loggedOut w []) ≫= fun _ =>
  cleanupExpiredEntries now ≫= fun _ =>
  fresh ← gets UsersLoggedOutUsernames_;
  modify (fun w => set_loggedOut w []) ≫= fun _ =>
  mret (stored ++ fresh).

Definition cleanupExpiredRemoteEntries (now : Z) w : WebUsers :=
  set_remote w (remoteLoginVerificationEnabled_ w) (remoteLoginVerificationEnabledBlackoutTime_ w)
    (filter (fun p : text * ActiveSession => now < startTime_ p.2 + ACTIVE_SESSION_EXPIRATION_TIME / 4) (RemoteSessions_ w)).

(** ** Logout *)

(** Which sessions a logout removes. *)
Definition loggedOut (logoutOtherUserSessions : bool) (uid asi : Z) (s : ActiveSession) : bool :=
  (session_userId_ s =? uid) &&
  (if logoutOtherUserSessions then negb (sessionIndex_ s =? asi) else sessionIndex_ s =? asi).

(** The number of sessions removed and the user, or [None] for -1. *)
Definition cookieCodeLogout (cookieCode : text) (logoutOtherUserSessions : bool) (ip : text) : M WebUsers (option (nat * Z)) :=
  found ← gets (fun w => searchActiveSessionDatabaseForCookie w cookieCode);
  match found with
  | None => incrementIpBlacklistCount ip ≫= fun _ => mret None
  | Some i =>
      clearBlacklistCount ip ≫= fun _ =>
      sessions ← gets ActiveSessions_;
      match sessions !! i with
      | None => throw Undefined
      | Some s =>
          if negb (textEq (ip_ s) ip) then mret None
          else
            let uid := session_userId_ s in
            let remaining := filter (fun s' => loggedOut logoutOtherUserSessions uid (sessionIndex_ s) s' = false) sessions in
            modify (fun w => set_ActiveSessions w remaining) ≫= fun _ =>
            modify (fun w =>
              if CareAboutCookieCodes_ w && negb (textEq (usersUsernameWithLock_ w) []) && negb (isUserIdActive w uid) &&
                 textEq (getUsersUsername w uid) (usersUsernameWithLock_ w)
              then set_lock w [] else w) ≫= fun _ =>
            mret (Some ((length sessions - length remaining)%nat, uid))
      end
  end.

(** ** Requests *)

(** What a request is told: the cookie code (or the message in its place) and,
    when it is granted, what the caller asked for. *)
Inductive access :=
| Denied (cookieCode : text)
| Granted (cookieCode : text) (userPermissions : permissions) (uid : Z) (userWithLock : text) (userSessionIndex : Z).

(** Asking the remote gateway, over a socket: an argument.  It may throw, and
    it may replace the cookie code. *)
Variable checkRemoteLoginVerification : text -> bool -> bool -> text -> WebUsers -> result (option Z) * text * WebUsers.

(** The catch clause: a verifier that is down is not asked for ten seconds,
    when nobody needs a cookie code. *)
Definition verifierDown (now : Z) (enabled : bool) w : bool * WebUsers :=
  if negb (CareAboutCookieCodes_ w) && enabled && (remoteLoginVerificationEnabledBlackoutTime_ w =? 0)
  then (false, set_remote w false (now + 10) (RemoteSessions_ w))
  else (enabled, w).

(** The block that goes remote: the user id and session found, the cookie code
    and the local flag afterwards. *)
Definition goRemote (now : Z) (cookieCode ip : text) (refresh doNotGoRemote : bool)
    : M WebUsers (option (Z * Z) * text * bool) := fun w =>
  let enabled := remoteLoginVerificationEnabled_ w in
  if enabled && (remoteLoginVerificationEnabledBlackoutTime_ w <? now) then
    let '(r, cookieCode, w) := checkRemoteLoginVerification cookieCode refresh doNotGoRemote ip w in
    match r with
    | Ok (Some userId) =>
        match RemoteSessions_ w !! cookieCode with
        | Some s => (Ok (Some (userId, sessionIndex_ s), cookieCode, enabled), w)
        | None => (* at() throws, after userId was assigned *)
            let '(enabled, w) := verifierDown now enabled w in
            (Ok (Some (userId, NOT_FOUND_IN_DATABASE), cookieCode, enabled), w)
        end
    | Ok None => (Ok (None, cookieCode, enabled), w)
    | Throw Undefined => (Throw Undefined, w)
    | Throw _ =>
        let '(enabled, w) := verifierDown now enabled w in
        (Ok (None, cookieCode, enabled), w)
    end
  else (Ok (None, cookieCode, enabled), w).

(** No security: everyone is the administrator. *)
Definition grantAnyone (cookieCode : text) (enabled : bool) : M WebUsers access :=
  uid ← gets getAdminUserID;
  lock ← gets usersUsernameWithLock_;
  cookieCode ← (if (length cookieCode =? COOKIE_CODE_LENGTH)%nat then mret cookieCode else genCookieCode);
  mret (Granted (if enabled then REQ_ALLOW_NO_USER else cookieCode)
          {[ DEFAULT_USER_GROUP := PERMISSION_LEVEL_ADMIN ]} uid lock 0).

(** The check of a local cookie code: user id, session index and new code. *)
Definition localSession (now : Z) (cookieCode ip : text) (refresh : bool) : M WebUsers (option (Z * Z * text)) :=
  found ← gets (fun w => searchActiveSessionDatabaseForCookie w cookieCode);
  match found with
  | None => incrementIpBlacklistCount ip ≫= fun _ => mret None
  | Some i =>
      clearBlacklistCount ip ≫= fun _ =>
      sessions ← gets ActiveSessions_;
      match sessions !! i with
      | None => throw Undefined
      | Some s =>
          if negb (textEq ip (txt "0")) && negb (textEq (ip_ s) ip) then mret None
          else
            code ← refreshCookieCode now i refresh;
            mret (Some (session_userId_ s, sessionIndex_ s, code))
      end
  end.

(** The permissions of the user that was found, here or remotely. *)
Definition grantUser (cookieCode : text) (userId userSession : Z) : M WebUsers access :=
  w ← gets id;
  match searchUsersDatabaseForUserId w userId with
  | None => mret (Denied REQ_NO_LOGIN_RESPONSE)
  | Some _ =>
      let tmpPerm := getPermissionsForUser w userId in
      if isInactiveForGroup tmpPerm DEFAULT_USER_GROUP then mret (Denied REQ_NO_PERMISSION_RESPONSE)
      else mret (Granted cookieCode tmpPerm userId (usersUsernameWithLock_ w) userSession)
  end.

Definition cookieCodeIsActiveForRequest (now : Z) (cookieCode ip : text) (refresh doNotGoRemote : bool)
    : M WebUsers access :=
  accepted ← checkIpAccess now ip;
  if negb accepted then mret (Denied REQ_NO_LOGIN_RESPONSE)
  else
    cleanupExpiredEntries now ≫= fun _ =>
    remote ← goRemote now cookieCode ip refresh doNotGoRemote;
    let '(found, cookieCode, enabled) := remote in
    care ← gets CareAboutCookieCodes_;
    match found with
    | Some (userId, userSession) => grantUser cookieCode userId userSession
    | None =>
        if negb care then grantAnyone cookieCode enabled
        else
          local ← localSession now cookieCode ip refresh;
          match local with
          | None => mret (Denied REQ_NO_LOGIN_RESPONSE)
          | Some (userId, userSession, cookieCode) => grantUser cookieCode userId userSession
          end
    end.

End Sessions.

(** ** Lemmas *)

Lemma searchUsersId_unique w u : NoDup (map userId_ (Users_ w)) -> u ∈ Users_ w ->
  exists i, searchUsersDatabaseForUserId w (userId_ u) = Some i /\ Users_ w !! i = Some u.
Proof. intros Hn Ha. apply (search_key userId_); [done..|]. intros b. apply Z.eqb_eq. Qed.

Lemma NoDup_map_filter {A B} (k : A -> B) (P : A -> Prop) `{!forall a, Decision (P a)} l :
  NoDup (map k l) -> NoDup (map k (filter P l)).
Proof.
  induction l as [|a l IH]; [done|]. cbn [map]. intros [Ha Hl]%NoDup_cons. rewrite filter_cons.
  destruct (decide (P a)); [|by apply IH]. cbn [map]. apply NoDup_cons. split; [|by apply IH].
  intros Hin. apply Ha. apply list_elem_of_In, in_map_iff in Hin as (b & <- & Hb).
  apply list_elem_of_In, in_map. apply list_elem_of_In in Hb. apply list_elem_of_In.
  apply list_elem_of_filter in Hb. apply Hb.
Qed.

Lemma searchUsers_some w uid i : searchUsersDatabaseForUserId w uid = Some i ->
  exists u, Users_ w !! i = Some u /\ userId_ u = uid.
Proof. intros H. destruct (search_some _ _ _ H) as (u & Hu & Hp). exists u. split; [done|lia]. Qed.

Lemma isUserIdActive_local w uid : remoteLoginVerificationEnabled_ w = false ->
  isUserIdActive w uid = true <-> exists s, s ∈ ActiveSessions_ w /\ session_userId_ s = uid.
Proof.
  intros Hr. unfold isUserIdActive. rewrite Hr. cbn. rewrite existsb_exists. split.
  - intros (s & Hs & He). exists s. split; [by apply list_elem_of_In|lia].
  - intros (s & Hs & He). exists s. split; [by apply list_elem_of_In|lia].
Qed.

(** *** Cleaning up *)

(** The sessions that have not expired. *)
Definition liveSessions (now : Z) (l : list ActiveSession) : list ActiveSession :=
  filter (fun s => sessionExpired now s = false) l.

Lemma elem_of_liveSessions now l s :
  s ∈ liveSessions now l <-> s ∈ l /\ now < startTime_ s + ACTIVE_SESSION_EXPIRATION_TIME.
Proof.
  unfold liveSessions, sessionExpired. rewrite list_elem_of_filter. rewrite Z.leb_gt. tauto.
Qed.

Lemma expireSessions_outcome now rest : forall kept w, ActiveSessions_ w = kept ++ rest ->
  (exists out, expireSessions now kept rest w =
     (Ok tt, set_loggedOut (set_ActiveSessions w (kept ++ liveSessions now rest)) (UsersLoggedOutUsernames_ w ++ out))) \/
  ((expireSessions now kept rest w).1 = Throw Undefined /\
   exists s, s ∈ rest /\ searchUsersDatabaseForUserId w (session_userId_ s) = None).
Proof.
  induction rest as [|s rest IH]; intros kept w Hw.
  - left. exists []. cbn. rewrite app_nil_r in *. rewrite app_nil_r. destruct w; cbn in *. by subst.
  - cbn [expireSessions]. unfold liveSessions. rewrite filter_cons.
    destruct (sessionExpired now s) eqn:He; cbn [decide].
    + set (w1 := set_ActiveSessions w (kept ++ rest)).
      rewrite (bind_ok _ _ w tt w1) by done. rewrite (bind_ok _ _ w1 w1 w1) by done.
      destruct (isUserIdActive w1 (session_userId_ s)).
      * rewrite (bind_ok _ _ w1 tt w1) by done. rewrite decide_False by done.
        destruct (IH kept w1 eq_refl) as [[out H]|[H (s' & Hs' & Hn)]].
        -- left. exists out. exact H.
        -- right. split; [exact H|]. exists s'. split; [by right|done].
      * change (searchUsersDatabaseForUserId w1 (session_userId_ s)) with (searchUsersDatabaseForUserId w (session_userId_ s)).
        destruct (searchUsersDatabaseForUserId w (session_userId_ s)) as [i|] eqn:Hi.
        -- rewrite decide_False by done.
           set (w2 := set_loggedOut w1 (UsersLoggedOutUsernames_ w1 ++ [getUsersUsername w1 (session_userId_ s)])).
           rewrite (bind_ok _ _ w1 tt w2) by done.
           destruct (IH kept w2 eq_refl) as [[out H]|[H (s' & Hs' & Hn)]].
           ++ left. exists (getUsersUsername w1 (session_userId_ s) :: out). etransitivity; [exact H|].
              unfold w2, w1. cbn. by rewrite <- app_assoc.
           ++ right. split; [exact H|]. exists s'. split; [by right|done].
        -- right. split; [done|]. exists s. split; [left|done].
    + rewrite decide_True by done.
      destruct (IH (kept ++ [s]) w) as [[out H]|[H (s' & Hs' & Hn)]]; [by rewrite <- app_assoc|..].
      * left. exists out. rewrite H. unfold liveSessions. by rewrite <- app_assoc.
      * right. split; [exact H|]. exists s'. split; [by right|done].
Qed.


#[local] Arguments liveSessions : simpl never.

(** Every session belongs to an account. *)
Definition sessionsHaveUsers w : Prop :=
  forall s, s ∈ ActiveSessions_ w -> searchUsersDatabaseForUserId w (session_userId_ s) <> None.

(** What a clean-up leaves alone. *)
Record cleaned (now : Z) (w w' : WebUsers) : Prop := mkCleaned {
  cleaned_sessions : ActiveSessions_ w' = liveSessions now (ActiveSessions_ w);
  cleaned_users : Users_ w' = Users_ w;
  cleaned_addresses : addresses w' = addresses w;
  cleaned_care : CareAboutCookieCodes_ w' = CareAboutCookieCodes_ w;
  cleaned_remote : remoteLoginVerificationEnabled_ w' = remoteLoginVerificationEnabled_ w;
  cleaned_remoteSessions : RemoteSessions_ w' = RemoteSessions_ w;
  cleaned_hashes : Hashes_ w' = Hashes_ w;
  cleaned_logins : LoginSessions_ w' = filter (fun s => loginExpired now s = false) (LoginSessions_ w);
}.

(** The state between the two loops and the treatment of the lock. *)
Lemma cleanup_outcome now w :
  (exists w1, cleaned now w w1 /\ usersUsernameWithLock_ w1 = usersUsernameWithLock_ w /\
     cleanupExpiredEntries now w = releaseStaleLock now w1) \/
  ((cleanupExpiredEntries now w).1 = Throw Undefined /\ ~ sessionsHaveUsers w).
Proof.
  unfold cleanupExpiredEntries.
  set (w0 := set_LoginSessions w (filter (fun s => loginExpired now s = false) (LoginSessions_ w))).
  rewrite (bind_ok _ _ w tt w0) by done.
  rewrite (bind_ok _ _ w0 (ActiveSessions_ w) w0) by done.
  destruct (expireSessions_outcome now (ActiveSessions_ w) [] w0 eq_refl) as [[out H]|[H (s & Hs & Hn)]].
  - left. match type of H with _ = (_, ?w1) => exists w1 end.
    rewrite (bind_ok _ _ _ _ _ H). split_and!; [split| |]; reflexivity.
  - right. split.
    + destruct (expireSessions now [] (ActiveSessions_ w) w0) as [[[]|e] w1] eqn:E; [done|].
      by rewrite (bind_throw _ _ _ _ _ E).
    + intros Hw. exact (Hw s Hs Hn).
Qed.

Lemma releaseStaleLock_outcome now w :
  exists lock, releaseStaleLock now w = (Ok tt, set_lock w lock) /\ (lock = usersUsernameWithLock_ w \/ lock = []).
Proof.
  assert (w = set_lock w (usersUsernameWithLock_ w)) as E by by destruct w.
  unfold releaseStaleLock, modify.
  destruct (CareAboutCookieCodes_ w && negb (textEq (usersUsernameWithLock_ w) [])).
  2:{ exists (usersUsernameWithLock_ w). rewrite <- E. auto. }
  destruct (negb (isUsernameActive w (usersUsernameWithLock_ w))); [exists []; auto|]. cbn zeta.
  match goal with |- context [if ?b then _ else _] => destruct b end.
  - exists []. auto.
  - exists (usersUsernameWithLock_ w). rewrite <- E. auto.
Qed.

Lemma cleanup_cleaned now w w' : cleanupExpiredEntries now w = (Ok tt, w') -> cleaned now w w'.
Proof.
  intros H. destruct (cleanup_outcome now w) as [(w1 & Hc & _ & E)|[E _]].
  - destruct (releaseStaleLock_outcome now w1) as (lock & E' & _). rewrite E, E' in H.
    injection H as <-. destruct Hc. by split.
  - by rewrite H in E.
Qed.
Lemma cleanup_ok now w : sessionsHaveUsers w -> exists w', cleanupExpiredEntries now w = (Ok tt, w').
Proof.
  intros Hw. destruct (cleanup_outcome now w) as [(w1 & Hc & _ & E)|[_ E]]; [|done].
  destruct (releaseStaleLock_outcome now w1) as (lock & E' & _). rewrite E, E'. by eexists.
Qed.

(** *** Refreshing a cookie code *)

Lemma searchLast_snoc {A} (p : A -> bool) l a :
  searchLast p (l ++ [a]) = if p a then Some (length l) else searchLast p l.
Proof. unfold searchLast. rewrite imap_app. cbn. rewrite fold_left_app. cbn. by rewrite Nat.add_0_r. Qed.
Lemma searchLast_in {A} (p : A -> bool) l a : a ∈ l -> p a = true ->
  exists j b, searchLast p l = Some j /\ l !! j = Some b /\ p b = true.
Proof.
  intros Ha Hp. induction l as [|b l IH] using rev_ind; [by apply elem_of_nil in Ha|].
  rewrite searchLast_snoc. destruct (p b) eqn:Hb.
  - exists (length l), b. split_and!; [done| |done]. by rewrite lookup_app_r, Nat.sub_diag by lia.
  - apply elem_of_app in Ha as [Ha|Ha]; [|apply list_elem_of_singleton in Ha; congruence].
    destruct (IH Ha) as (j & c & Hj & Hl & Hc). exists j, c. split_and!; [done| |done].
    apply lookup_app_l_Some, Hl.
Qed.

(** Two sessions of one chain: the cookies of one login. *)
Definition sameChain (s s' : ActiveSession) : Prop :=
  session_userId_ s' = session_userId_ s /\ sessionIndex_ s' = sessionIndex_ s.
Definition live (now : Z) (s : ActiveSession) : Prop := now < startTime_ s + ACTIVE_SESSION_EXPIRATION_TIME.

Lemma createNewActiveSession_chain rand now uid ip asIndex w : asIndex <> 0 ->
  exists code w', createNewActiveSession rand now uid ip asIndex w = (Ok code, w') /\
    ActiveSessions_ w' = ActiveSessions_ w ++ [mkSession code ip uid asIndex now now] /\
    Users_ w' = Users_ w /\ usersUsernameWithLock_ w' = usersUsernameWithLock_ w.
Proof.
  intros Hx. unfold createNewActiveSession. apply Z.eqb_neq in Hx. rewrite Hx.
  eexists _, _. split; [reflexivity|]. done.
Qed.

(** The code handed out is a live one of the same chain. *)
Lemma refreshCookieCode_outcome rand now i enableRefresh w s :
  ActiveSessions_ w !! i = Some s -> sessionIndex_ s <> 0 -> (forall s', s' ∈ ActiveSessions_ w -> live now s') ->
  exists code w', refreshCookieCode rand now i enableRefresh w = (Ok code, w') /\
    Users_ w' = Users_ w /\ usersUsernameWithLock_ w' = usersUsernameWithLock_ w /\
    exists s', s' ∈ ActiveSessions_ w' /\ cookieCode_ s' = code /\ sameChain s s' /\ live now s'.
Proof.
  intros Hi Hx Hl. unfold refreshCookieCode. rewrite (bind_ok _ _ w (ActiveSessions_ w) w) by done. rewrite Hi.
  destruct (searchLast_in (fun s' => (session_userId_ s' =? session_userId_ s) && (sessionIndex_ s' =? sessionIndex_ s))
              (ActiveSessions_ w) s) as (j & sj & Hj & Hsj & Hp).
  { by eapply list_elem_of_lookup_2. } { by rewrite !Z.eqb_refl. }
  rewrite Hj, Hsj. apply andb_prop in Hp as [Hp1 Hp2]. rewrite Z.eqb_eq in Hp1, Hp2. cbn zeta.
  assert (live now sj) as Hlj by by eapply Hl, list_elem_of_lookup_2.
  assert (j < length (ActiveSessions_ w))%nat by by eapply lookup_lt_Some.
  destruct (enableRefresh && (ACTIVE_SESSION_EXPIRATION_TIME / 2 <? now - startTime_ sj)).
  - match goal with |- context [modify ?f ≫= _] => rewrite (bind_ok (modify f) _ w tt (f w)) by done end.
    match goal with |- context [createNewActiveSession _ _ ?u ?p _ ?w1] =>
      destruct (createNewActiveSession_chain rand now u p _ w1 Hx) as (code & w' & E & Hs & Hu & Hk) end.
    exists code, w'. split_and!; [done..|]. rewrite Hs. eexists. split; [apply elem_of_app; right; left|].
    split_and!; [done|done|]. unfold live, ACTIVE_SESSION_EXPIRATION_TIME; cbn. lia.
  - match goal with |- context [modify ?f ≫= _] => rewrite (bind_ok (modify f) _ w tt (f w)) by done end.
    eexists _, _. split; [reflexivity|]. cbn. split_and!; [done..|].
    exists (if enableRefresh then set_activity sj now else sj). split.
    { apply list_elem_of_lookup. exists j. by rewrite list_lookup_insert_eq. }
    by destruct enableRefresh.
Qed.


(** *** The parts of a request *)

Definition ipAllowed (now : Z) w (ip : text) : bool :=
  textEq ip (txt "0") || ipAccepted (set_addresses w (reloadAddresses now (addresses w))) ip.

Lemma checkIpAccess_outcome now ip w :
  exists a, checkIpAccess now ip w = (Ok (ipAllowed now w ip), set_addresses w a).
Proof.
  unfold checkIpAccess, ipAllowed. destruct (textEq ip (txt "0")).
  - exists (addresses w). by destruct w.
  - eexists. reflexivity.
Qed.

(** Security is on, and sessions are local. *)
Definition localOnly w : Prop := CareAboutCookieCodes_ w = true /\ remoteLoginVerificationEnabled_ w = false.

Lemma goRemote_disabled now cookieCode ip refresh doNotGoRemote verify w :
  remoteLoginVerificationEnabled_ w = false ->
  goRemote verify now cookieCode ip refresh doNotGoRemote w = (Ok (None, cookieCode, false), w).
Proof. intros H. unfold goRemote. by rewrite H. Qed.

(** The local branch of a request. *)
Definition localRequest rand (now : Z) (cookieCode ip : text) (refresh : bool) : M WebUsers access :=
  local ← localSession rand now cookieCode ip refresh;
  match local with
  | None => mret (Denied REQ_NO_LOGIN_RESPONSE)
  | Some (userId, userSession, cookieCode) => grantUser cookieCode userId userSession
  end.

Lemma request_local rand verify now cookieCode ip refresh doNotGoRemote w : localOnly w -> exists a,
  cookieCodeIsActiveForRequest rand verify now cookieCode ip refresh doNotGoRemote w =
    if ipAllowed now w ip
    then (cleanupExpiredEntries now ≫= fun _ => localRequest rand now cookieCode ip refresh) (set_addresses w a)
    else (Ok (Denied REQ_NO_LOGIN_RESPONSE), set_addresses w a).
Proof.
  intros [Hc Hr]. destruct (checkIpAccess_outcome now ip w) as [a Ha]. exists a.
  unfold cookieCodeIsActiveForRequest. rewrite (bind_ok _ _ _ _ _ Ha).
  destruct (ipAllowed now w ip); cbn [negb]; [|done].
  destruct (cleanupExpiredEntries now (set_addresses w a)) as [[[]|e] w2] eqn:E.
  - rewrite !(bind_ok _ _ _ _ _ E). apply cleanup_cleaned in E as [_ _ _ Ec Er _ _ _].
    rewrite (bind_ok _ _ _ _ _ (goRemote_disabled now cookieCode ip refresh doNotGoRemote verify w2 (eq_trans Er Hr))).
    rewrite (bind_ok _ _ w2 true w2) by (cbn in Ec; rewrite Hc in Ec; by rewrite <- Ec).
    reflexivity.
  - by rewrite !(bind_throw _ _ _ _ _ E).
Qed.

(** [keepsUsers m]: [m] leaves the accounts and the lock alone. *)
Definition keepsUsers {A} (m : M WebUsers A) : Prop :=
  forall l k, keeps (fun w => Users_ w = l /\ usersUsernameWithLock_ w = k) m.
Lemma refreshCookieCode_users rand now i enableRefresh : keepsUsers (refreshCookieCode rand now i enableRefresh).
Proof.
  intros l k. unfold refreshCookieCode. apply keeps_bind; [apply keeps_gets|]. intros sessions.
  destruct (sessions !! i); [|apply keeps_throw]. destruct (searchLast _ _) as [j|]; [|apply keeps_ret].
  destruct (sessions !! j) as [sj|]; [|apply keeps_throw]. cbn zeta. apply keeps_if.
  - apply keeps_bind; [by apply keeps_modify|]. intros []. unfold createNewActiveSession.
    apply keeps_bind; [by intros s Hs|]. intros code. apply keeps_bind; [by apply keeps_modify|]. intros []. apply keeps_ret.
  - apply keeps_bind; [by apply keeps_modify|]. intros []. apply keeps_ret.
Qed.

Lemma incrementIpBlacklistCount_frame ip w : exists a, incrementIpBlacklistCount ip w = (Ok tt, set_addresses w a).
Proof.
  unfold incrementIpBlacklistCount, modify. assert (w = set_addresses w (addresses w)) as E by by destruct w.
  destruct (negb (ipBlacklistEnabled_ w)); [exists (addresses w); by rewrite <- E|]. cbn zeta.
  destruct (textEq ip (txt "0") || bool_decide (ip ∈ ipAccessBlacklist_ (addresses w))).
  - exists (addresses w). by rewrite <- E.
  - by eexists.
Qed.

Lemma localSession_some rand now cookieCode ip refresh w uid idx code w' :
  localSession rand now cookieCode ip refresh w = (Ok (Some (uid, idx, code)), w') ->
  Users_ w' = Users_ w /\ usersUsernameWithLock_ w' = usersUsernameWithLock_ w /\
  exists s, s ∈ ActiveSessions_ w /\ cookieCode_ s = cookieCode /\ (ip = txt "0" \/ ip_ s = ip) /\
    session_userId_ s = uid /\ sessionIndex_ s = idx.
Proof.
  unfold localSession.
  rewrite (bind_ok _ _ w (searchActiveSessionDatabaseForCookie w cookieCode) w) by done.
  destruct (searchActiveSessionDatabaseForCookie w cookieCode) as [i|] eqn:Hi.
  2:{ destruct (incrementIpBlacklistCount_frame ip w) as [a E]. rewrite (bind_ok _ _ _ _ _ E). done. }
  destruct (search_some _ _ _ Hi) as (s & Hs & Hp). rewrite textEq_spec in Hp.
  set (w1 := (clearBlacklistCount ip w).2). rewrite (bind_ok _ _ w tt w1) by done.
  rewrite (bind_ok _ _ w1 (ActiveSessions_ w) w1) by done. rewrite Hs.
  destruct (negb (textEq ip (txt "0")) && negb (textEq (ip_ s) ip)) eqn:Hip; [done|].
  destruct (refreshCookieCode rand now i refresh w1) as [[code'|e] w2] eqn:E.
  2:{ by rewrite (bind_throw _ _ _ _ _ E). }
  rewrite (bind_ok _ _ _ _ _ E). intros [= <- <- <- <-].
  destruct (refreshCookieCode_users rand now i refresh (Users_ w) (usersUsernameWithLock_ w) w1) as [Hu Hk]; [done|].
  rewrite E in Hu, Hk. split_and!; [done|done|]. exists s. split_and!; [|done| |done|done].
  - by eapply list_elem_of_lookup_2.
  - apply andb_false_iff in Hip as [H|H]; apply negb_false_iff in H; rewrite textEq_spec in H; auto.
Qed.

Lemma grantUser_granted code uid idx w code' perms uid' lock idx' w' :
  grantUser code uid idx w = (Ok (Granted code' perms uid' lock idx'), w') ->
  code' = code /\ uid' = uid /\ idx' = idx /\ lock = usersUsernameWithLock_ w /\ w' = w /\
  exists i u, searchUsersDatabaseForUserId w uid = Some i /\ Users_ w !! i = Some u /\ perms = permissions_ u /\
    isInactiveForGroup perms DEFAULT_USER_GROUP = false.
Proof.
  unfold grantUser. rewrite (bind_ok _ _ w w w) by done. unfold getPermissionsForUser.
  destruct (searchUsersDatabaseForUserId w uid) as [i|] eqn:Hi; [|done].
  destruct (searchUsers_some _ _ _ Hi) as (u & Hu & _). rewrite Hu. cbn zeta.
  destruct (isInactiveForGroup (permissions_ u) DEFAULT_USER_GROUP) eqn:Hp; [done|].
  intros [= <- <- <- <- <- <-]. split_and!; try done. by exists i, u.
Qed.


(** A cookie code that no session has. *)
Lemma request_unknown_cookie rand verify now cookieCode ip refresh doNotGoRemote w :
  sessionsHaveUsers w -> localOnly w -> (forall s, s ∈ ActiveSessions_ w -> cookieCode_ s <> cookieCode) ->
  (cookieCodeIsActiveForRequest rand verify now cookieCode ip refresh doNotGoRemote w).1 = Ok (Denied REQ_NO_LOGIN_RESPONSE).
Proof.
  intros Wu Hw Hn. destruct (request_local rand verify now cookieCode ip refresh doNotGoRemote w Hw) as [a ->].
  destruct (ipAllowed now w ip); [|done].
  destruct (cleanup_ok now (set_addresses w a) Wu) as [w2 E]. rewrite (bind_ok _ _ _ _ _ E).
  apply cleanup_cleaned in E as [Es _ _ _ _ _ _ _]. unfold localRequest, localSession.
  assert (searchActiveSessionDatabaseForCookie w2 cookieCode = None) as Hk.
  { apply search_none. intros s Hs. rewrite Es, elem_of_liveSessions in Hs. apply textEq_neq, Hn, Hs. }
  destruct (incrementIpBlacklistCount_frame ip w2) as [a2 E2].
  assert (localSession rand now cookieCode ip refresh w2 = (Ok None, set_addresses w2 a2)) as L.
  { unfold localSession. rewrite (bind_ok _ _ w2 None w2) by (unfold gets; by rewrite <- Hk).
    by rewrite (bind_ok _ _ _ _ _ E2). }
  unfold localSession in L. by rewrite (bind_ok _ _ _ _ _ L).
Qed.

(** Which sessions a logout with the session [s] ends: those of its login, or,
    to log out the other sessions of the user, those of the user's other logins. *)
Definition endedBy (others : bool) (s s' : ActiveSession) : Prop :=
  session_userId_ s' = session_userId_ s /\
  if others then sessionIndex_ s' <> sessionIndex_ s else sessionIndex_ s' = sessionIndex_ s.
Lemma endedBy_loggedOut others s s' : loggedOut others (session_userId_ s) (sessionIndex_ s) s' = true <-> endedBy others s s'.
Proof. unfold loggedOut, endedBy. rewrite andb_true_iff, Z.eqb_eq. destruct others; [by rewrite negb_true_iff, Z.eqb_neq|by rewrite Z.eqb_eq]. Qed.

(** The lock that a logout leaves. *)
Lemma cookieCodeLogout_outcome others ip w s : NoDup (map cookieCode_ (ActiveSessions_ w)) ->
  s ∈ ActiveSessions_ w -> ip_ s = ip -> exists n w',
  cookieCodeLogout (cookieCode_ s) others ip w = (Ok (Some (n, session_userId_ s)), w') /\
  n = (length (ActiveSessions_ w) - length (ActiveSessions_ w'))%nat /\
  ActiveSessions_ w' = filter (fun s' => loggedOut others (session_userId_ s) (sessionIndex_ s) s' = false) (ActiveSessions_ w) /\
  Users_ w' = Users_ w /\ CareAboutCookieCodes_ w' = CareAboutCookieCodes_ w /\
  remoteLoginVerificationEnabled_ w' = remoteLoginVerificationEnabled_ w.
Proof.
  intros Hn Hs Hip. destruct (search_unique cookieCode_ _ s Hn Hs) as (i & Hi & His).
  unfold cookieCodeLogout. rewrite (bind_ok _ _ w (Some i) w) by (unfold gets; by rewrite <- Hi).
  set (w1 := (clearBlacklistCount ip w).2). rewrite (bind_ok _ _ w tt w1) by done.
  rewrite (bind_ok _ _ w1 (ActiveSessions_ w) w1) by done. rewrite His, Hip, textEq_refl. cbn [negb]. cbn zeta.
  set (rest := filter _ (ActiveSessions_ w)).
  set (w2 := set_ActiveSessions w1 rest). rewrite (bind_ok _ _ w1 tt w2) by done.
  match goal with |- context [modify ?f ≫= _] => rewrite (bind_ok (modify f) _ w2 tt (f w2)) by done end.
  eexists _, _. split; [reflexivity|]. cbv beta.
  match goal with |- context [if ?b then set_lock w2 [] else w2] => destruct b end; by split_and!.
Qed.

(** *** The lock *)

(** The user of a session, and the sessions of the holder of the lock. *)
Definition sessionOf w (s : ActiveSession) (u : User) : Prop :=
  s ∈ ActiveSessions_ w /\ u ∈ Users_ w /\ userId_ u = session_userId_ s.
Definition holds w (s : ActiveSession) : bool :=
  match searchUsersDatabaseForUserId w (session_userId_ s) with
  | Some _ => textEq (getUsersUsername w (session_userId_ s)) (usersUsernameWithLock_ w)
  | None => false
  end.

Lemma holds_sessionOf w s u : NoDup (map userId_ (Users_ w)) -> sessionOf w s u ->
  holds w s = true <-> username_ u = usersUsernameWithLock_ w.
Proof.
  intros Hn (Hs & Hu & He). destruct (searchUsersId_unique w u Hn Hu) as (i & Hi & Hui).
  unfold holds, getUsersUsername. rewrite <- He, Hi, Hui. apply textEq_spec.
Qed.
Lemma holds_exists w s : s ∈ ActiveSessions_ w -> holds w s = true ->
  exists u, sessionOf w s u /\ username_ u = usersUsernameWithLock_ w.
Proof.
  unfold holds, getUsersUsername. intros Hs Hh.
  destruct (searchUsersDatabaseForUserId w (session_userId_ s)) as [i|] eqn:Hi; [|done].
  destruct (searchUsers_some _ _ _ Hi) as (u & Hu & He). rewrite Hu, textEq_spec in Hh.
  exists u. split; [|done]. split_and!; [done| |done]. by eapply list_elem_of_lookup_2.
Qed.

Lemma mostRecentActivity_spec w :
  (mostRecentActivity w = 0 \/
   exists s, s ∈ ActiveSessions_ w /\ holds w s = true /\ lastActivityTime_ s = mostRecentActivity w) /\
  forall s, s ∈ ActiveSessions_ w -> holds w s = true -> lastActivityTime_ s <= mostRecentActivity w.
Proof.
  unfold mostRecentActivity.
  apply (fold_left_ind (fun l r =>
    (r = 0 \/ exists s, s ∈ l /\ holds w s = true /\ lastActivityTime_ s = r) /\
    forall s, s ∈ l -> holds w s = true -> lastActivityTime_ s <= r)).
  - split; [by left|]. intros s Hs. by apply elem_of_nil in Hs.
  - intros pre x post r _ [Hr Hm]. fold (holds w x).
    assert (forall r' : Z, r <= r' -> (holds w x = true -> lastActivityTime_ x <= r') ->
      forall s, s ∈ pre ++ [x] -> holds w s = true -> lastActivityTime_ s <= r') as Hle.
    { intros r' Hr' Hx s [Hs|Hs%list_elem_of_singleton]%elem_of_app Hh; [specialize (Hm s Hs Hh); lia|by subst; apply Hx]. }
    assert (r = 0 \/ (exists s, s ∈ pre ++ [x] /\ holds w s = true /\ lastActivityTime_ s = r)) as Hkeep.
    { destruct Hr as [Hr|(s & Hs & Hh)]; [by left|right]. exists s. split; [|done]. apply elem_of_app. by left. }
    unfold holds in Hle, Hkeep |- * at 1. destruct (searchUsersDatabaseForUserId w (session_userId_ x)) as [i|] eqn:Hi.
    + destruct (textEq (getUsersUsername w (session_userId_ x)) (usersUsernameWithLock_ w)) eqn:Hx; cbn [andb].
      * destruct (Z.ltb_spec r (lastActivityTime_ x)).
        -- split; [|apply Hle; lia]. right. exists x. rewrite Hi. split_and!; [|done|done]. apply elem_of_app. right. left.
        -- split; [done|]. apply Hle; lia.
      * split; [done|]. apply Hle; [lia|done].
    + split; [done|]. apply Hle; [lia|done].
Qed.

Lemma isUsernameActive_spec w name : remoteLoginVerificationEnabled_ w = false -> NoDup (map username_ (Users_ w)) ->
  isUsernameActive w name = true <-> exists s u, sessionOf w s u /\ username_ u = name.
Proof.
  intros Hr Hn. unfold isUsernameActive, searchUsersDatabaseForUsername. split.
  - destruct (search _ (Users_ w)) as [i|] eqn:Hi; [|done].
    destruct (search_some _ _ _ Hi) as (u & Hu & He). rewrite Hu. rewrite textEq_spec in He.
    rewrite (isUserIdActive_local _ _ Hr). intros (s & Hs & Hid). exists s, u.
    split; [|done]. split_and!; [done| |done]. by eapply list_elem_of_lookup_2.
  - intros (s & u & (Hs & Hu & He) & <-). destruct (search_unique username_ _ u Hn Hu) as (i & -> & ->).
    rewrite (isUserIdActive_local _ _ Hr). by exists s.
Qed.

Lemma releaseStaleLock_spec now w : localOnly w ->
  NoDup (map userId_ (Users_ w)) -> NoDup (map username_ (Users_ w)) ->
  (forall s, s ∈ ActiveSessions_ w -> 0 < lastActivityTime_ s) -> usersUsernameWithLock_ w <> [] ->
  usersUsernameWithLock_ (releaseStaleLock now w).2 = usersUsernameWithLock_ w <->
  exists s u, sessionOf w s u /\ username_ u = usersUsernameWithLock_ w /\
    now - lastActivityTime_ s < LOCK_INACTIVITY_TIMEOUT.
Proof.
  intros [Hc Hr] Hid Hname Hact Hlock. unfold releaseStaleLock, modify. cbn [snd].
  rewrite Hc, (textEq_neq _ _ Hlock). cbn [andb negb].
  pose proof (isUsernameActive_spec w (usersUsernameWithLock_ w) Hr Hname) as Hsp.
  destruct (mostRecentActivity_spec w) as [Hrec Hmax].
  destruct (isUsernameActive w (usersUsernameWithLock_ w)); cbn [negb].
  - destruct Hsp as [[s (u & Hsu & Hn)] _]; [done|].
    assert (holds w s = true) as Hh by by apply (holds_sessionOf w s u).
    assert (lastActivityTime_ s <= mostRecentActivity w) by (apply Hmax; [apply Hsu|done]).
    assert (0 < lastActivityTime_ s) by apply Hact, Hsu.
    destruct (Z.ltb_spec 0 (mostRecentActivity w)); [cbn [andb]|lia].
    destruct (Z.leb_spec LOCK_INACTIVITY_TIMEOUT (now - mostRecentActivity w)); cbn [usersUsernameWithLock_ set_lock].
    + split; [by intros E|]. intros (s' & u' & Hsu' & Hn' & Ht).
      assert (lastActivityTime_ s' <= mostRecentActivity w); [|lia].
      apply Hmax; [apply Hsu'|by apply (holds_sessionOf w s' u')].
    + split; [intros _|done]. destruct Hrec as [Hrec|(s' & Hs' & Hh' & Hrec)]; [lia|].
      destruct (holds_exists w s' Hs' Hh') as (u' & Hsu' & Hn'). exists s', u'. split_and!; [done|done|lia].
  - cbn [usersUsernameWithLock_ set_lock]. split; [by intros E|].
    intros (s & u & Hsu & Hn & _). assert (false = true); [|done]. apply Hsp. by exists s, u.
Qed.

Lemma request_granted_facts rand verify now cookieCode ip refresh doNotGoRemote w code perms uid lock idx w' :
  localOnly w ->
  cookieCodeIsActiveForRequest rand verify now cookieCode ip refresh doNotGoRemote w =
    (Ok (Granted code perms uid lock idx), w') ->
  ipAllowed now w ip = true /\ Users_ w' = Users_ w /\ lock = usersUsernameWithLock_ w' /\
  exists s i u, s ∈ ActiveSessions_ w /\ cookieCode_ s = cookieCode /\ live now s /\ (ip = txt "0" \/ ip_ s = ip) /\
    searchUsersDatabaseForUserId w uid = Some i /\ Users_ w !! i = Some u /\ userId_ u = uid /\
    session_userId_ s = uid /\ sessionIndex_ s = idx /\ perms = permissions_ u /\
    isInactiveForGroup perms DEFAULT_USER_GROUP = false.
Proof.
  intros Hw. destruct (request_local rand verify now cookieCode ip refresh doNotGoRemote w Hw) as [a ->].
  destruct (ipAllowed now w ip); [|done]. intros H. split; [done|].
  destruct (cleanupExpiredEntries now (set_addresses w a)) as [[[]|e] w2] eqn:E.
  2:{ by rewrite (bind_throw _ _ _ _ _ E) in H. }
  rewrite (bind_ok _ _ _ _ _ E) in H. apply cleanup_cleaned in E as [Es Eu _ _ _ _ _ _]. cbn in Es, Eu.
  unfold localRequest in H.
  destruct (localSession rand now cookieCode ip refresh w2) as [[[[[uid2 idx2] code2]|]|e] w3] eqn:L;
    [|by rewrite (bind_ok _ _ _ _ _ L) in H|by rewrite (bind_throw _ _ _ _ _ L) in H].
  rewrite (bind_ok _ _ _ _ _ L) in H.
  apply grantUser_granted in H as (-> & -> & -> & -> & -> & i & u & Hi & Hu & -> & Hp).
  apply localSession_some in L as (Lu & _ & s & Hs & Hc & Hip & <- & <-).
  rewrite Es, elem_of_liveSessions in Hs. destruct Hs as [Hs Hlive].
  unfold searchUsersDatabaseForUserId in Hi. rewrite Lu, Eu in Hi, Hu. fold (searchUsersDatabaseForUserId w (session_userId_ s)) in Hi.
  split_and!; [congruence|done|]. exists s, i, u. split_and!; try done.
  destruct (searchUsers_some _ _ _ Hi) as (u' & Hu' & He). congruence.
Qed.

(** ** Properties *)

(** With security on, a request is granted only from an accepted address, with
    the unexpired cookie code of a session of that same address (or of the
    server itself, address 0), for an existing account that is not inactive;
    the caller is told exactly that account's id and permissions and that
    session. *)
Theorem request_granted_sound rand verify now cookieCode ip refresh doNotGoRemote w code perms uid lock idx w' :
  localOnly w ->
  cookieCodeIsActiveForRequest rand verify now cookieCode ip refresh doNotGoRemote w =
    (Ok (Granted code perms uid lock idx), w') ->
  ipAllowed now w ip = true /\
  exists s u, s ∈ ActiveSessions_ w /\ cookieCode_ s = cookieCode /\ live now s /\ (ip = txt "0" \/ ip_ s = ip) /\
    u ∈ Users_ w /\ userId_ u = uid /\ session_userId_ s = uid /\ sessionIndex_ s = idx /\
    perms = permissions_ u /\ getPermissionLevelForGroup perms DEFAULT_USER_GROUP <> PERMISSION_LEVEL_INACTIVE.
Proof.
  intros Hw H. apply request_granted_facts in H as (Ha & _ & _ & s & i & u & Hs & Hc & Hl & Hip & _ & Hu & Hid & Hsu & Hx & -> & Hp); [|done].
  split; [done|]. exists s, u. split_and!; try done.
  - by eapply list_elem_of_lookup_2.
  - by apply Z.eqb_neq.
Qed.

(** What holds of the tables between two calls. *)
Record wellFormed w : Prop := mkWellFormed {
  wf_users : sessionsHaveUsers w;
  wf_cookies : NoDup (map cookieCode_ (ActiveSessions_ w));
  wf_index : forall s, s ∈ ActiveSessions_ w -> sessionIndex_ s <> 0;
}.

(** Conversely, whoever presents the unexpired cookie code of a session from
    its address, with an account that is not inactive, is granted the request,
    and the code handed back is that of a live session of the same login, so
    that the next request can be made with it. *)
Theorem live_session_is_granted rand verify now ip refresh doNotGoRemote w s i u :
  wellFormed w -> localOnly w -> ipAllowed now w ip = true ->
  s ∈ ActiveSessions_ w -> live now s -> ip = txt "0" \/ ip_ s = ip ->
  searchUsersDatabaseForUserId w (session_userId_ s) = Some i -> Users_ w !! i = Some u ->
  isInactiveForGroup (permissions_ u) DEFAULT_USER_GROUP = false ->
  exists code lock w',
    cookieCodeIsActiveForRequest rand verify now (cookieCode_ s) ip refresh doNotGoRemote w =
      (Ok (Granted code (permissions_ u) (session_userId_ s) lock (sessionIndex_ s)), w') /\
    exists s', s' ∈ ActiveSessions_ w' /\ cookieCode_ s' = code /\ sameChain s s' /\ live now s'.
Proof.
  intros [Wu Wc Wi] Hw Ha Hs Hl Hip Hi Hu Hp.
  destruct (request_local rand verify now (cookieCode_ s) ip refresh doNotGoRemote w Hw) as [a ->]. rewrite Ha.
  destruct (cleanup_ok now (set_addresses w a) Wu) as [w2 E]. rewrite (bind_ok _ _ _ _ _ E).
  apply cleanup_cleaned in E as [Es Eu _ _ _ _ _ _]. cbn in Es, Eu.
  assert (s ∈ ActiveSessions_ w2) as Hs2 by by rewrite Es, elem_of_liveSessions.
  assert (NoDup (map cookieCode_ (ActiveSessions_ w2))) as Hn.
  { rewrite Es. by apply NoDup_map_filter. }
  destruct (search_unique cookieCode_ (ActiveSessions_ w2) s Hn Hs2) as (k & Hk & Hks).
  unfold localRequest, localSession.
  set (w3 := (clearBlacklistCount ip w2).2).
  destruct (refreshCookieCode_outcome rand now k refresh w3 s Hks (Wi s Hs)) as (code & w4 & E4 & Hu4 & Hk4 & s' & Hs').
  { intros s' Hs'. change (ActiveSessions_ w3) with (ActiveSessions_ w2) in Hs'. rewrite Es, elem_of_liveSessions in Hs'. apply Hs'. }
  exists code, (usersUsernameWithLock_ w4), w4. split; [|by exists s'].
  assert (localSession rand now (cookieCode_ s) ip refresh w2 = (Ok (Some (session_userId_ s, sessionIndex_ s, code)), w4)) as L.
  { unfold localSession. rewrite (bind_ok _ _ w2 (Some k) w2) by (unfold gets; by rewrite <- Hk).
    rewrite (bind_ok _ _ w2 tt w3) by done. rewrite (bind_ok _ _ w3 (ActiveSessions_ w2) w3) by done. rewrite Hks.
    destruct (negb (textEq ip (txt "0")) && negb (textEq (ip_ s) ip)) eqn:Hb.
    - apply andb_prop in Hb as [H1 H2]. apply negb_true_iff in H1, H2. destruct Hip as [->| <-]; by rewrite textEq_refl in *.
    - by rewrite (bind_ok _ _ _ _ _ E4). }
  unfold localSession in L. rewrite (bind_ok _ _ _ _ _ L).
  unfold grantUser. rewrite (bind_ok _ _ w4 w4 w4) by done. unfold getPermissionsForUser.
  assert (searchUsersDatabaseForUserId w4 (session_userId_ s) = Some i) as Hi4.
  { unfold searchUsersDatabaseForUserId. rewrite Hu4. change (Users_ w3) with (Users_ w2). by rewrite Eu. }
  assert (Users_ w4 !! i = Some u) as Hui by (rewrite Hu4; change (Users_ w3) with (Users_ w2); by rewrite Eu).
  rewrite Hi4, Hui. cbn zeta. by rewrite Hp.
Qed.


(** C40: With security on and sessions local ([localOnly]; with security off
    every cookie code is accepted), a logout with the cookie code of a session,
    from its address, ends exactly the sessions that the comment above
    [cookieCodeLogout] says ([endedBy]): those of that login or, with
    [logoutOtherUserSessions], those of the same user's other logins, the own
    one staying. None of the cookie codes of the ended sessions, at any later
    time and from any address, is accepted any more, and the other sessions
    stay. (The comment inside the function has the two modes the other way
    round.) *)
Theorem logout_revokes_login others ip w s : wellFormed w -> localOnly w -> s ∈ ActiveSessions_ w -> ip_ s = ip ->
  exists n w', cookieCodeLogout (cookieCode_ s) others ip w = (Ok (Some (n, session_userId_ s)), w') /\
    (forall s', s' ∈ ActiveSessions_ w' <-> s' ∈ ActiveSessions_ w /\ ~ endedBy others s s') /\
    forall s' rand verify now ip' refresh doNotGoRemote, s' ∈ ActiveSessions_ w -> endedBy others s s' ->
      (cookieCodeIsActiveForRequest rand verify now (cookieCode_ s') ip' refresh doNotGoRemote w').1 =
        Ok (Denied REQ_NO_LOGIN_RESPONSE).
Proof.
  intros [Wu Wc Wi] [Hc Hr] Hs Hip.
  destruct (cookieCodeLogout_outcome others ip w s Wc Hs Hip) as (n & w' & E & _ & Es & Eu & Ec & Er).
  exists n, w'. split; [done|].
  assert (forall s', s' ∈ ActiveSessions_ w' <-> s' ∈ ActiveSessions_ w /\ ~ endedBy others s s') as Hset.
  { intros s'. rewrite Es, list_elem_of_filter, <- endedBy_loggedOut, not_true_iff_false. tauto. }
  split; [done|]. intros s' rand verify now ip' refresh doNotGoRemote Hs' Hended. apply request_unknown_cookie.
  - intros r Hr'. rewrite Hset in Hr'. unfold searchUsersDatabaseForUserId. rewrite Eu. exact (Wu r (proj1 Hr')).
  - split; congruence.
  - intros r [Hr' Hnr]%Hset Heq. apply Hnr.
    destruct (search_unique cookieCode_ _ s' Wc Hs') as (i & Hi & His).
    destruct (search_unique cookieCode_ _ r Wc Hr') as (j & Hj & Hjr).
    rewrite Heq in Hj. congruence.
Qed.


(** The system lock after a clean-up: it is still held if and only if its
    holder has an unexpired session that was active in the last thirty
    minutes, and released otherwise. *)
Theorem lock_kept_iff_holder_active now w w' :
  localOnly w -> NoDup (map userId_ (Users_ w)) -> NoDup (map username_ (Users_ w)) ->
  (forall s, s ∈ ActiveSessions_ w -> 0 < lastActivityTime_ s) -> usersUsernameWithLock_ w <> [] ->
  cleanupExpiredEntries now w = (Ok tt, w') ->
  (usersUsernameWithLock_ w' = usersUsernameWithLock_ w \/ usersUsernameWithLock_ w' = []) /\
  (usersUsernameWithLock_ w' = usersUsernameWithLock_ w <->
   exists s u, s ∈ ActiveSessions_ w /\ live now s /\ u ∈ Users_ w /\ userId_ u = session_userId_ s /\
     username_ u = usersUsernameWithLock_ w /\ now - lastActivityTime_ s < LOCK_INACTIVITY_TIMEOUT).
Proof.
  intros [Hc Hr] Hid Hname Hact Hlock H.
  destruct (cleanup_outcome now w) as [(w1 & C & K & E)|[E _]]; [|by rewrite H in E].
  rewrite E in H. destruct (releaseStaleLock_outcome now w1) as (lock & E' & Hlk).
  split. { rewrite E' in H. injection H as <-. rewrite K in Hlk. apply Hlk. }
  assert (releaseStaleLock now w1 = (Ok tt, w')) as Ew by done.
  pose proof (releaseStaleLock_spec now w1) as S. rewrite Ew, K in S. cbn [snd] in S. rewrite S; clear S.
  - destruct C as [Cs Cu _ _ _ _ _ _]. unfold sessionOf. rewrite Cs, Cu. split.
    + intros (s & u & (Hs & Hu & He) & Hn & Ht). apply elem_of_liveSessions in Hs as [Hs Hl]. by exists s, u.
    + intros (s & u & Hs & Hl & Hu & He & Hn & Ht). exists s, u. split_and!; try done. by apply elem_of_liveSessions.
  - destruct C as [_ _ _ Cc Cr _ _ _]. split; congruence.
  - by rewrite (cleaned_users _ _ _ C).
  - by rewrite (cleaned_users _ _ _ C).
  - intros s Hs. rewrite (cleaned_sessions _ _ _ C), elem_of_liveSessions in Hs. apply Hact, Hs.
  - done.
Qed.


(** ** Instances *)

Definition exampleUser name id level :=
  mkUser (txt name) (txt "user@lab") (txt name) [] {[ DEFAULT_USER_GROUP := level ]} id 0 0 0 [] 0.
Definition exampleAddresses := mkAddresses ∅ [] [] [] 1000 [] [] [].
Definition exampleWeb :=
  mkWeb [] [mkSession (txt "AB") (txt "10.0.0.5") 7 1 1000 1000; mkSession (txt "CD") (txt "10.0.0.5") 7 1 1100 1100;
            mkSession (txt "EF") (txt "10.0.0.6") 7 2 1100 1100]
    ∅ [exampleUser "admin" 0 255; exampleUser "bob" 7 1] 8 (txt "bob") [] [] exampleAddresses true true false 0 0.
Definition noVerifier (cookieCode : text) (refresh doNotGoRemote : bool) (ip : text) (w : WebUsers)
    : result (option Z) * text * WebUsers := (Throw RuntimeError, cookieCode, w).
Definition exampleRequest :=
  cookieCodeIsActiveForRequest (fun i => Z.of_nat i) noVerifier 1200 (txt "AB") (txt "10.0.0.5") true false exampleWeb.

Lemma exampleWeb_wellFormed : wellFormed exampleWeb.
Proof.
  split.
  - intros s Hs. repeat (apply elem_of_cons in Hs as [->|Hs]; [by vm_compute|]). by apply elem_of_nil in Hs.
  - apply (bool_decide_unpack _). by vm_compute.
  - intros s Hs. repeat (apply elem_of_cons in Hs as [->|Hs]; [by vm_compute|]). by apply elem_of_nil in Hs.
Qed.

Lemma request_granted_sound_witness : exists w', exampleRequest =
    (Ok (Granted (txt "CD") {[ DEFAULT_USER_GROUP := 1 ]} 7 (txt "bob") 1), w') /\
  exists s u, s ∈ ActiveSessions_ exampleWeb /\ cookieCode_ s = txt "AB" /\ live 1200 s /\
    u ∈ Users_ exampleWeb /\ userId_ u = 7.
Proof.
  assert (exampleRequest.1 = Ok (Granted (txt "CD") {[ DEFAULT_USER_GROUP := 1 ]} 7 (txt "bob") 1)) as E by by vm_compute.
  destruct exampleRequest as [r w'] eqn:R. cbn in E. subst r. exists w'. split; [done|].
  unfold exampleRequest in R. apply request_granted_sound in R as (_ & s & u & H); [|done].
  exists s, u. split_and!; apply H.
Defined.

Lemma live_session_is_granted_witness :
  exists code lock w', exampleRequest = (Ok (Granted code {[ DEFAULT_USER_GROUP := 1 ]} 7 lock 1), w').
Proof.
  destruct (live_session_is_granted (fun i => Z.of_nat i) noVerifier 1200 (txt "10.0.0.5") true false exampleWeb
    (mkSession (txt "AB") (txt "10.0.0.5") 7 1 1000 1000) 1 (exampleUser "bob" 7 1)) as (code & lock & w' & H & _).
  - apply exampleWeb_wellFormed.
  - done.
  - by vm_compute.
  - left.
  - done.
  - by right.
  - by vm_compute.
  - done.
  - by vm_compute.
  - exists code, lock, w'. exact H.
Defined.

Lemma logout_revokes_login_witness :
  (exists n w', cookieCodeLogout (txt "CD") false (txt "10.0.0.5") exampleWeb = (Ok (Some (n, 7)), w') /\
    (cookieCodeIsActiveForRequest (fun i => Z.of_nat i) noVerifier 1300 (txt "AB") (txt "0") true false w').1 =
      Ok (Denied REQ_NO_LOGIN_RESPONSE)) /\
  exists n w', cookieCodeLogout (txt "CD") true (txt "10.0.0.5") exampleWeb = (Ok (Some (n, 7)), w') /\
    mkSession (txt "AB") (txt "10.0.0.5") 7 1 1000 1000 ∈ ActiveSessions_ w' /\
    (cookieCodeIsActiveForRequest (fun i => Z.of_nat i) noVerifier 1300 (txt "EF") (txt "10.0.0.6") true false w').1 =
      Ok (Denied REQ_NO_LOGIN_RESPONSE).
Proof.
  assert (mkSession (txt "CD") (txt "10.0.0.5") 7 1 1100 1100 ∈ ActiveSessions_ exampleWeb) as Hin by (right; left).
  split.
  - destruct (logout_revokes_login false (txt "10.0.0.5") exampleWeb (mkSession (txt "CD") (txt "10.0.0.5") 7 1 1100 1100)
      exampleWeb_wellFormed (conj eq_refl eq_refl) Hin eq_refl) as (n & w' & H & _ & Hd).
    exists n, w'. split; [exact H|]. apply (Hd (mkSession (txt "AB") (txt "10.0.0.5") 7 1 1000 1000)); [left|by split].
  - destruct (logout_revokes_login true (txt "10.0.0.5") exampleWeb (mkSession (txt "CD") (txt "10.0.0.5") 7 1 1100 1100)
      exampleWeb_wellFormed (conj eq_refl eq_refl) Hin eq_refl) as (n & w' & H & Hset & Hd).
    exists n, w'. split_and!; [exact H|apply Hset; split; [left|by intros [_ []]]|].
    apply (Hd (mkSession (txt "EF") (txt "10.0.0.6") 7 2 1100 1100)); [right; right; left|by split].
Defined.

(** The holder is idle at 3000, the session not yet expired. *)
Lemma lock_kept_iff_holder_active_witness :
  exists w', cleanupExpiredEntries 3000 exampleWeb = (Ok tt, w') /\ usersUsernameWithLock_ w' = [].
Proof.
  destruct (cleanup_ok 3000 exampleWeb (wf_users _ exampleWeb_wellFormed)) as [w' H]. exists w'. split; [done|].
  destruct (lock_kept_iff_holder_active 3000 exampleWeb w') as [[E|E] Hi]; [done|..|done].
  - apply (bool_decide_unpack _). by vm_compute.
  - apply (bool_decide_unpack _). by vm_compute.
  - intros s Hs. repeat (apply elem_of_cons in Hs as [->|Hs]; [by vm_compute|]). by apply elem_of_nil in Hs.
  - done.
  - done.
  - apply Hi in E as (s & u & Hs & _ & _ & _ & _ & Ht). revert Ht.
    repeat (apply elem_of_cons in Hs as [->|Hs]; [by vm_compute|]). by apply elem_of_nil in Hs.
Defined.

(** When the account of an expired session has been deleted, the clean-up
    reads the accounts at index -1. *)
Lemma expired_session_of_deleted_account :
  (cleanupExpiredEntries 100000 (set_Users exampleWeb [exampleUser "admin" 0 255] 8)).1 = Throw Undefined.
Proof. by vm_compute. Qed.

(** An entry with a wildcard never applies to a plain address. *)
Lemma wildcard_entry_ignored : matches (txt "10.0.0.5") (txt "10.0.0.*") = false /\
  (StringMacros.wildCardMatch (txt "10.0.0.*") (txt "10.0.0.5")).1 = true.
Proof. by vm_compute. Qed.

End WebUsers.
