(* ===== verification/RequestAccess.v ===== *)
(** * Access of a web request

    src/otsdaq/WebUsersUtilities/WebUsers.cc and .h: what a request needs
    ([RequestUserInfo]), the permission level its groups give
    ([getGroupPermissionLevel]), the static check every supervisor uses
    ([checkRequestAccess]), the system lock ([setUserWithLock]) and the whole
    check at the Gateway ([xmlRequestOnGateway]).

    The text printed to the client is an output; the wall clock, the remote
    address of the request, [rand()] and the remote gateway are arguments. *)

From S2P Require Import Prelude CText StringMacros StringLists WebUsers.

Module RequestAccess.
Import WebUsers.

Record RequestUserInfo := mkInfo {
  requestType_ : text;
  req_cookieCode_ : text;
  automatedCommand_ : bool;
  checkLock_ : bool;
  requireLock_ : bool;
  allowNoUser_ : bool;
  requireSecurity_ : bool;
  groupsAllowed_ : list text;
  groupsDisallowed_ : list text;
  permissionLevel_ : Z;
  permissionsThreshold_ : Z;
  req_ip_ : text;
  uid_ : Z;
  req_username_ : text;
  req_displayName_ : text;
  usernameWithLock_ : text;
  userSessionIndex_ : Z;
  groupPermissionLevelMap_ : permissions;
}.

Definition set_level r level := mkInfo (requestType_ r) (req_cookieCode_ r) (automatedCommand_ r) (checkLock_ r) (requireLock_ r)
  (allowNoUser_ r) (requireSecurity_ r) (groupsAllowed_ r) (groupsDisallowed_ r) level (permissionsThreshold_ r) (req_ip_ r)
  (uid_ r) (req_username_ r) (req_displayName_ r) (usernameWithLock_ r) (userSessionIndex_ r) (groupPermissionLevelMap_ r).
(** The members the session check writes. *)
Definition set_session r code perms uid lock session := mkInfo (requestType_ r) code (automatedCommand_ r) (checkLock_ r)
  (requireLock_ r) (allowNoUser_ r) (requireSecurity_ r) (groupsAllowed_ r) (groupsDisallowed_ r) (permissionLevel_ r)
  (permissionsThreshold_ r) (req_ip_ r) uid (req_username_ r) (req_displayName_ r) lock session perms.
(** The members that name the user. *)
Definition set_user r ip username displayName lock session := mkInfo (requestType_ r) (req_cookieCode_ r) (automatedCommand_ r)
  (checkLock_ r) (requireLock_ r) (allowNoUser_ r) (requireSecurity_ r) (groupsAllowed_ r) (groupsDisallowed_ r)
  (permissionLevel_ r) (permissionsThreshold_ r) ip (uid_ r) username displayName lock session (groupPermissionLevelMap_ r).

(** ** Groups *)

(** The highest level among the groups that are allowed, and whether one is
    above zero. *)
Definition acceptedLevel r : Z * bool :=
  fold_left (fun '(level, matched) '(group, l) =>
    if StringMacros.inWildCardSet group (groupsAllowed_ r) && (level <? l) then (l, true) else (level, matched))
    (map_to_list (groupPermissionLevelMap_ r)) (0, false).

Definition isNil {A} (l : list A) : bool := match l with [] => true | _ => false end.

Definition getGroupPermissionLevel r : RequestUserInfo :=
  let '(level, matchedAcceptGroup) := acceptedLevel r in
  if negb matchedAcceptGroup && negb (isNil (groupsAllowed_ r)) then set_level r level
  else if isNil (groupsAllowed_ r) &&
          existsb (fun p => StringMacros.inWildCardSet p.1 (groupsDisallowed_ r)) (map_to_list (groupPermissionLevelMap_ r))
       then set_level r level
  else set_level r (default level (groupPermissionLevelMap_ r !! DEFAULT_USER_GROUP)).

(** [setGroupPermissionLevels("")]: the empty string adds nothing to the map. *)
Definition setGroupPermissionLevels_empty r : RequestUserInfo := getGroupPermissionLevel (set_level r 0).

(** ** checkRequestAccess *)

(** What the request says about the client: [Pass] with the header to set, or
    the refusal printed to [out]. *)
Inductive verdict := Pass (header : option text) | Refuse (out : text).

Section Check.
Variables (careAboutCookieCodes remoteEnabled : bool).
Variables (isWizardMode : bool) (wizardModeSequence : text).

Definition reservedUser (name : text) : bool :=
  textEq name DEFAULT_ADMIN_USERNAME || textEq name DEFAULT_ITERATOR_USERNAME || textEq name DEFAULT_STATECHANGER_USERNAME.

(** The accountability rule. *)
Definition insufficientSecurity r : bool :=
  requireSecurity_ r && (1 <? permissionsThreshold_ r) &&
  (if isWizardMode then (length wizardModeSequence <? 8)%nat else reservedUser (req_username_ r)).

Definition invalidCookie r : bool :=
  negb isWizardMode && negb (allowNoUser_ r) && negb (length (req_cookieCode_ r) =? COOKIE_CODE_LENGTH)%nat &&
  negb (negb careAboutCookieCodes && remoteEnabled && textEq (req_cookieCode_ r) REQ_ALLOW_NO_USER).

Definition insufficientLevel r : bool :=
  negb (allowNoUser_ r) &&
  ((permissionLevel_ r =? 0) || (permissionsThreshold_ r =? 0) || (permissionLevel_ r <? permissionsThreshold_ r)).

Definition lockedOut r : bool :=
  (checkLock_ r || requireLock_ r) && negb (textEq (usernameWithLock_ r) []) &&
  negb (textEq (usernameWithLock_ r) (req_username_ r)).
Definition lockMissing r : bool := requireLock_ r && negb (textEq (usernameWithLock_ r) (req_username_ r)).

Definition checkRequestAccess r : verdict * RequestUserInfo :=
  if insufficientSecurity r then (Refuse REQ_NO_PERMISSION_RESPONSE, r)
  else if invalidCookie r then (Refuse REQ_NO_LOGIN_RESPONSE, r)
  else if insufficientLevel r then (Refuse REQ_NO_PERMISSION_RESPONSE, r)
  else if isWizardMode then
    (Pass None, set_user r (req_ip_ r) DEFAULT_ADMIN_USERNAME (txt "Admin") DEFAULT_ADMIN_USERNAME 0)
  else if allowNoUser_ r then (Pass (Some REQ_ALLOW_NO_USER), r)
  else if lockedOut r then (Refuse REQ_USER_LOCKOUT_RESPONSE, r)
  else if lockMissing r then (Refuse REQ_LOCK_REQUIRED_RESPONSE, r)
  else (Pass (Some (req_cookieCode_ r)), r).
End Check.

(** ** The system lock *)

Definition setUserWithLock (actingUid : Z) (lock : bool) (username : text) : M WebUsers bool := fun w =>
  let permissionMap := getPermissionsForUser w actingUid in
  let actingUser := getUsersUsername w actingUid in
  let isUserActive := isUsernameActive w username in
  if lock && (isUserActive || negb (CareAboutCookieCodes_ w)) then
    if negb (CareAboutCookieCodes_ w) && negb isUserActive && negb (textEq username DEFAULT_ADMIN_USERNAME) then (Ok false, w)
    else if negb (isAdminForGroup permissionMap DEFAULT_USER_GROUP) && negb (textEq actingUser username) then (Ok false, w)
    else (Ok true, set_lock w username)
  else if negb lock && textEq (usersUsernameWithLock_ w) username then (Ok true, set_lock w [])
  else (Ok false, w).

(** ** The check at the Gateway *)

Section Gateway.
Variable rand : nat -> Z.
Variable verify : text -> bool -> bool -> text -> WebUsers -> result (option Z) * text * WebUsers.

(** [initializeRequestUserInfo] *)
Definition initializeRequestUserInfo (remoteAddr : text) r : RequestUserInfo :=
  setGroupPermissionLevels_empty (set_user r remoteAddr [] [] [] NOT_FOUND_IN_DATABASE).

(** The static check with the gateway's own flags. *)
Definition checkHere r : M WebUsers (verdict * RequestUserInfo) := gets (fun w =>
  checkRequestAccess (CareAboutCookieCodes_ w) (remoteLoginVerificationEnabled_ w) false [] r).

(** The lock is taken when the request needs it and nobody has it. *)
Definition autoTakeLock r : M WebUsers RequestUserInfo :=
  if requireLock_ r && textEq (usernameWithLock_ r) [] then
    taken ← setUserWithLock (uid_ r) true (req_username_ r);
    mret (if (taken : bool)
          then set_user r (req_ip_ r) (req_username_ r) (req_displayName_ r) (req_username_ r) (userSessionIndex_ r) else r)
  else mret r.

Definition xmlRequestOnGateway (now : Z) (remoteAddr : text) r : M WebUsers (verdict * RequestUserInfo) :=
  let r := initializeRequestUserInfo remoteAddr r in
  access ← cookieCodeIsActiveForRequest rand verify now (req_cookieCode_ r) (req_ip_ r) (negb (automatedCommand_ r)) (allowNoUser_ r);
  match access with
  | Denied message =>
      let r := set_session r message (groupPermissionLevelMap_ r) (uid_ r) (usernameWithLock_ r) (userSessionIndex_ r) in
      ipAccepted ← (if allowNoUser_ r then checkIpAccess now (req_ip_ r) else mret false);
      if negb ipAccepted then mret (Refuse message, r)
      else
        let r := setGroupPermissionLevels_empty r in
        checkHere (set_session r (req_cookieCode_ r) (groupPermissionLevelMap_ r) NOT_FOUND_IN_DATABASE (usernameWithLock_ r) (userSessionIndex_ r))
  | Granted code perms uid lock session =>
      let r := getGroupPermissionLevel (set_session r code perms uid lock session) in
      w ← gets id;
      match searchUsersDatabaseForUserId w uid with
      | None => throw RuntimeError
      | Some i =>
          match Users_ w !! i with
          | None => throw RuntimeError
          | Some u =>
              r ← autoTakeLock (set_user r (req_ip_ r) (username_ u) (displayName_ u) (usernameWithLock_ r) (userSessionIndex_ r));
              checkHere r
          end
      end
  end.
End Gateway.

(** ** Groups: what the level is *)

(** Whether a user with the groups [m] is admitted: a group above level zero
    is in the allowed groups, or there are none and no group is disallowed. *)
Definition admitted (allowed disallowed : list text) (m : permissions) : Prop :=
  if isNil allowed then forall g l, m !! g = Some l -> StringMacros.inWildCardSet g disallowed = false
  else exists g l, m !! g = Some l /\ 0 < l /\ StringMacros.inWildCardSet g allowed = true.

(** The level the comments of the source give a user with the groups [m]: the
    highest of the allowed groups or, when the request names none, that of the
    default group. *)
Definition documentedLevel (allowed : list text) (m : permissions) (level : Z) : Prop :=
  if isNil allowed then m !! DEFAULT_USER_GROUP = Some level
  else (exists g, m !! g = Some level /\ StringMacros.inWildCardSet g allowed = true) /\
    forall g l, m !! g = Some l -> StringMacros.inWildCardSet g allowed = true -> l <= level.

Lemma acceptedLevel_spec r :
  (acceptedLevel r).2 = existsb (fun p => StringMacros.inWildCardSet p.1 (groupsAllowed_ r) && (0 <? p.2))
                          (map_to_list (groupPermissionLevelMap_ r)) /\
  ((acceptedLevel r).2 = false -> (acceptedLevel r).1 = 0).
Proof.
  unfold acceptedLevel.
  match goal with |- context [fold_left ?f _ _] => set (step := f) end.
  enough (0 <= (fold_left step (map_to_list (groupPermissionLevelMap_ r)) (0, false)).1 /\
    (fold_left step (map_to_list (groupPermissionLevelMap_ r)) (0, false)).2 =
      existsb (fun p => StringMacros.inWildCardSet p.1 (groupsAllowed_ r) && (0 <? p.2)) (map_to_list (groupPermissionLevelMap_ r)) /\
    ((fold_left step (map_to_list (groupPermissionLevelMap_ r)) (0, false)).2 = false ->
     (fold_left step (map_to_list (groupPermissionLevelMap_ r)) (0, false)).1 = 0)) by tauto.
  apply (fold_left_ind (fun l a => 0 <= a.1 /\
    a.2 = existsb (fun p => StringMacros.inWildCardSet p.1 (groupsAllowed_ r) && (0 <? p.2)) l /\ (a.2 = false -> a.1 = 0))).
  - split_and!; [done|done|done].
  - intros pre [g l] post [level matched] _ (H0 & Hm & Hz). cbn [fst snd] in *. unfold step.
    rewrite existsb_app. cbn [existsb fst snd]. rewrite orb_false_r, <- Hm.
    destruct (StringMacros.inWildCardSet g (groupsAllowed_ r)); cbn [andb fst snd].
    + destruct (Z.ltb_spec level l); cbn [fst snd].
      * destruct (Z.ltb_spec 0 l); [|lia]. rewrite orb_true_r. split_and!; [lia|done|done].
      * destruct matched; cbn [orb]; [by split_and!|]. rewrite (Hz eq_refl) in *.
        destruct (Z.ltb_spec 0 l); [lia|]. by split_and!.
    + rewrite orb_false_r. by split_and!.
Qed.

Lemma existsb_map (m : permissions) (f : text * Z -> bool) :
  existsb f (map_to_list m) = true <-> exists g l, m !! g = Some l /\ f (g, l) = true.
Proof.
  rewrite existsb_exists. split.
  - intros ([g l] & Hin & Hf). exists g, l. split; [|done]. by apply elem_of_map_to_list, list_elem_of_In.
  - intros (g & l & Hl & Hf). exists (g, l). split; [|done]. by apply list_elem_of_In, elem_of_map_to_list.
Qed.

Lemma getGroupPermissionLevel_level r : exists level, getGroupPermissionLevel r = set_level r level.
Proof.
  unfold getGroupPermissionLevel. destruct (acceptedLevel r) as [level matched].
  destruct (_ && _); [by eexists|]. destruct (_ && _); by eexists.
Qed.

Lemma group_level_cases r l : groupPermissionLevelMap_ r !! DEFAULT_USER_GROUP = Some l ->
  let level := permissionLevel_ (getGroupPermissionLevel r) in
  (admitted (groupsAllowed_ r) (groupsDisallowed_ r) (groupPermissionLevelMap_ r) /\ level = l) \/
  (~ admitted (groupsAllowed_ r) (groupsDisallowed_ r) (groupPermissionLevelMap_ r) /\ level = 0).
Proof.
  intros Hl. unfold getGroupPermissionLevel, admitted. destruct (acceptedLevel_spec r) as [Hm Hz].
  destruct (acceptedLevel r) as [level matched]. cbn [fst snd] in *.
  destruct (isNil (groupsAllowed_ r)) eqn:Ha; cbn [negb andb].
  - rewrite andb_false_r. destruct (existsb _ _) eqn:Hd in |- *.
    + right. rewrite existsb_map in Hd. destruct Hd as (g & l' & Hg & Hd). cbn in Hd. split.
      * intros H. by rewrite (H g l' Hg) in Hd.
      * apply Hz. rewrite Hm. destruct (groupsAllowed_ r); [|done].
        destruct (existsb _ _) eqn:He; [|done]. rewrite existsb_map in He. by destruct He as (? & ? & _ & ?).
    + left. rewrite Hl. split; [|done]. intros g l' Hg.
      destruct (StringMacros.inWildCardSet g (groupsDisallowed_ r)) eqn:Hi; [|done].
      rewrite <- not_true_iff_false, existsb_map in Hd. destruct Hd. by exists g, l'.
  - rewrite andb_true_r. destruct matched; cbn [negb].
    + left. rewrite Hl. split; [|done]. symmetry in Hm. rewrite existsb_map in Hm. destruct Hm as (g & l' & Hg & Hi).
      cbn in Hi. apply andb_prop in Hi as [Hi H0]. exists g, l'. split_and!; [done|lia|done].
    + right. split; [|by apply Hz]. intros (g & l' & Hg & H0 & Hi). symmetry in Hm.
      rewrite <- not_true_iff_false, existsb_map in Hm. destruct Hm. exists g, l'. split; [done|]. cbn. rewrite Hi. lia.
Qed.


(** ** The static check *)

Lemma check_pass care remote r header r' : checkRequestAccess care remote false [] r = (Pass header, r') ->
  r' = r /\ insufficientSecurity false [] r = false /\ insufficientLevel r = false /\
  header = Some (if allowNoUser_ r then REQ_ALLOW_NO_USER else req_cookieCode_ r) /\
  (allowNoUser_ r = false -> lockedOut r = false /\ lockMissing r = false).
Proof.
  unfold checkRequestAccess. destruct (insufficientSecurity false [] r); [done|].
  destruct (invalidCookie _ _ _ r); [done|]. destruct (insufficientLevel r); [done|].
  destruct (allowNoUser_ r). { intros [= <- <-]. by split_and!. }
  destruct (lockedOut r); [done|]. destruct (lockMissing r); [done|]. intros [= <- <-]. by split_and!.
Qed.

(** *** Taking the lock *)

Lemma setUserWithLock_frame actingUid lock username w : exists ok k,
  setUserWithLock actingUid lock username w = (Ok ok, set_lock w k) /\
  (lock = true -> k = if ok then username else usersUsernameWithLock_ w).
Proof.
  assert (w = set_lock w (usersUsernameWithLock_ w)) as E by by destruct w.
  unfold setUserWithLock. destruct lock; cbn [andb negb].
  - destruct (isUsernameActive w username || negb (CareAboutCookieCodes_ w)).
    + destruct (_ && _ && _); [exists false, (usersUsernameWithLock_ w); by rewrite <- E|].
      destruct (_ && _); [exists false, (usersUsernameWithLock_ w); by rewrite <- E|]. by exists true, username.
    + exists false, (usersUsernameWithLock_ w). by rewrite <- E.
  - destruct (textEq _ _); [by exists true, []|]. exists false, (usersUsernameWithLock_ w). by rewrite <- E.
Qed.

Lemma autoTakeLock_outcome r w : usernameWithLock_ r = usersUsernameWithLock_ w ->
  exists r' k, autoTakeLock r w = (Ok r', set_lock w k) /\ usernameWithLock_ r' = k /\
    r' = set_user r (req_ip_ r) (req_username_ r) (req_displayName_ r) k (userSessionIndex_ r).
Proof.
  intros Hk. assert (w = set_lock w (usersUsernameWithLock_ w)) as E by by destruct w.
  assert (r = set_user r (req_ip_ r) (req_username_ r) (req_displayName_ r) (usersUsernameWithLock_ w) (userSessionIndex_ r)) as Er.
  { rewrite <- Hk. by destruct r. }
  unfold autoTakeLock. destruct (requireLock_ r && textEq (usernameWithLock_ r) []).
  - destruct (setUserWithLock_frame (uid_ r) true (req_username_ r) w) as (ok & k & H & Hok). specialize (Hok eq_refl).
    rewrite (bind_ok _ _ _ _ _ H). subst k. destruct ok.
    + by exists (set_user r (req_ip_ r) (req_username_ r) (req_displayName_ r) (req_username_ r) (userSessionIndex_ r)), (req_username_ r).
    + exists r, (usersUsernameWithLock_ w). by split_and!.
  - exists r, (usersUsernameWithLock_ w). split; [by rewrite <- E|]. by split.
Qed.

Lemma initialize_shape remoteAddr r : exists level,
  initializeRequestUserInfo remoteAddr r = set_level (set_user r remoteAddr [] [] [] NOT_FOUND_IN_DATABASE) level.
Proof.
  destruct (getGroupPermissionLevel_level (set_level (set_user r remoteAddr [] [] [] NOT_FOUND_IN_DATABASE) 0)) as [level H].
  exists level. exact H.
Qed.

(** The session check behind a request that is passed. *)
Lemma gateway_granted rand verify now remoteAddr r w header r' w' : allowNoUser_ r = false ->
  xmlRequestOnGateway rand verify now remoteAddr r w = (Ok (Pass header, r'), w') ->
  exists code perms uid lock session w1 i u,
    cookieCodeIsActiveForRequest rand verify now (req_cookieCode_ r) remoteAddr (negb (automatedCommand_ r)) false w =
      (Ok (Granted code perms uid lock session), w1) /\
    searchUsersDatabaseForUserId w1 uid = Some i /\ Users_ w1 !! i = Some u /\
    (autoTakeLock (set_user (getGroupPermissionLevel (set_session (initializeRequestUserInfo remoteAddr r) code perms uid lock session))
                     remoteAddr (username_ u) (displayName_ u) lock session) ≫= checkHere) w1 = (Ok (Pass header, r'), w').
Proof.
  intros Ha. unfold xmlRequestOnGateway. cbn zeta.
  destruct (initialize_shape remoteAddr r) as [l0 Hr]. rewrite Hr. cbn [req_cookieCode_ req_ip_ automatedCommand_ allowNoUser_ set_level set_user]. rewrite Ha.
  match goal with |- context [cookieCodeIsActiveForRequest ?a ?b ?c ?d ?e ?f ?g ≫= _] =>
    destruct (cookieCodeIsActiveForRequest a b c d e f g w) as [[[message|code perms uid lock session]|e0] w1] eqn:E end.
  - rewrite (bind_ok _ _ _ _ _ E). cbn [allowNoUser_ set_session set_level set_user]. rewrite Ha.
    rewrite (bind_ok _ _ w1 false w1) by done. cbn [negb]. by unfold mret, M_ret.
  - rewrite (bind_ok _ _ _ _ _ E). rewrite (bind_ok _ _ w1 w1 w1) by done.
    destruct (searchUsersDatabaseForUserId w1 uid) as [i|] eqn:Hi; [|done].
    destruct (Users_ w1 !! i) as [u|] eqn:Hu; [|done]. intros H.
    exists code, perms, uid, lock, session, w1, i, u. split_and!; [done|done|done|].
    destruct (getGroupPermissionLevel_level (set_session (set_level (set_user r remoteAddr [] [] [] NOT_FOUND_IN_DATABASE) l0)
      code perms uid lock session)) as [l1 H1]. rewrite H1 in *. exact H.
  - by rewrite (bind_throw _ _ _ _ _ E).
Qed.

(** ** Properties *)

(** The level the groups of a user give: that of the default group if the user
    is admitted by the allowed and disallowed groups of the request, and zero
    (no access) otherwise. *)
Theorem getGroupPermissionLevel_spec r l : groupPermissionLevelMap_ r !! DEFAULT_USER_GROUP = Some l ->
  let level := permissionLevel_ (getGroupPermissionLevel r) in
  (admitted (groupsAllowed_ r) (groupsDisallowed_ r) (groupPermissionLevelMap_ r) -> level = l) /\
  (~ admitted (groupsAllowed_ r) (groupsDisallowed_ r) (groupPermissionLevelMap_ r) -> level = 0).
Proof. intros Hl. destruct (group_level_cases r l Hl) as [[H Hv]|[H Hv]]; cbn zeta in *; split; done || intros; done. Qed.

(** C34: With security on ([localOnly]: a security type that cares about
    cookie codes, no remote verifier) and for a request type that needs a user
    ([allowNoUser_] is false), a request that the Gateway passes for a client
    carries the unexpired cookie code of a session from its own address (or the
    address is "0", which stands for any); the session's user exists, is not inactive, and is admitted by the request's
    groups. The level that is compared with the one asked for is that of the
    default group, which is the documented one when the request names no
    allowed groups or when the default group's is the highest of them: then the
    user has at least the level asked for. (Elsewhere the code uses the default
    group's all the same, see [expert_refused].) A request that needs
    accountability is not made as a shared user; nobody else holds the lock if
    the request checks it, and the user holds it, also in the server, if the
    request requires it; the user named to the handler is that user. *)
Theorem gateway_request_sound rand verify now remoteAddr r w header r' w' :
  localOnly w -> allowNoUser_ r = false ->
  xmlRequestOnGateway rand verify now remoteAddr r w = (Ok (Pass header, r'), w') ->
  exists s u level, s ∈ ActiveSessions_ w /\ cookieCode_ s = req_cookieCode_ r /\ live now s /\
    (remoteAddr = txt "0" \/ ip_ s = remoteAddr) /\
    u ∈ Users_ w /\ userId_ u = session_userId_ s /\ req_username_ r' = username_ u /\ uid_ r' = userId_ u /\
    permissions_ u !! DEFAULT_USER_GROUP = Some level /\ level <> 0 /\
    (documentedLevel (groupsAllowed_ r) (permissions_ u) level -> permissionsThreshold_ r <= level) /\
    admitted (groupsAllowed_ r) (groupsDisallowed_ r) (permissions_ u) /\
    (requireSecurity_ r = true -> 1 < permissionsThreshold_ r -> reservedUser (username_ u) = false) /\
    (checkLock_ r = true -> usersUsernameWithLock_ w' = [] \/ usersUsernameWithLock_ w' = username_ u) /\
    (requireLock_ r = true -> usersUsernameWithLock_ w' = username_ u) /\
    header = Some (req_cookieCode_ r').
Proof.
  intros Hw Ha H. apply gateway_granted in H as (code & perms & uid & lock & session & w1 & i & u & E & Hi & Hu & H); [|done].
  apply request_granted_facts in E as (_ & Eu & -> & s & i' & u' & Hs & Hc & Hl & Hip & Hi' & Hu' & Hid & Hsu & _ & -> & Hp); [|done].
  unfold searchUsersDatabaseForUserId in Hi. rewrite Eu in Hi, Hu. fold (searchUsersDatabaseForUserId w uid) in Hi.
  assert (u' = u) as -> by congruence. clear Hi' Hu'.
  assert (exists level, permissions_ u !! DEFAULT_USER_GROUP = Some level /\ level <> 0) as (level & Hlevel & Hpos).
  { unfold isInactiveForGroup, getPermissionLevelForGroup in Hp. destruct (permissions_ u !! DEFAULT_USER_GROUP) as [level|]; [|done].
    exists level. split; [done|]. by apply Z.eqb_neq. }
  destruct (initialize_shape remoteAddr r) as [l0 Hr]. rewrite Hr in H.
  set (r1 := set_session (set_level (set_user r remoteAddr [] [] [] NOT_FOUND_IN_DATABASE) l0) code (permissions_ u) uid
    (usersUsernameWithLock_ w1) session) in H.
  pose proof (group_level_cases r1 level Hlevel) as Hcase.
  destruct (getGroupPermissionLevel_level r1) as [l1 H1]. cbn zeta in Hcase. rewrite H1 in H, Hcase.
  match type of H with (autoTakeLock ?r2 ≫= _) _ = _ => destruct (autoTakeLock_outcome r2 w1 eq_refl) as (r3 & k & H3 & Hk & Er3) end.
  rewrite (bind_ok _ _ _ _ _ H3) in H. unfold checkHere, gets in H. injection H as H Hw'.
  apply check_pass in H as (-> & Hsec & Hlev & -> & Hlock).
  subst r3 w'. unfold insufficientSecurity, insufficientLevel in Hsec, Hlev.
  cbn [allowNoUser_ set_user set_level set_session r1 requireSecurity_ permissionsThreshold_ req_username_ permissionLevel_ groupsAllowed_
       groupsDisallowed_ groupPermissionLevelMap_ usersUsernameWithLock_ set_lock uid_ req_cookieCode_] in *.
  rewrite Ha in *. destruct (Hlock eq_refl) as [Hlk Hmiss]. unfold lockedOut, lockMissing in Hlk, Hmiss.
  cbn [checkLock_ requireLock_ usernameWithLock_ req_username_ set_user set_level set_session r1] in Hlk, Hmiss.
  cbn [negb andb] in Hlev.
  assert (l1 <> 0 /\ permissionsThreshold_ r <= l1) as [Hl0 Hthr] by lia.
  destruct Hcase as [[Hadm ->]|[_ ->]]; [|done].
  exists s, u, level. split_and!; try (done || congruence).
  - by eapply list_elem_of_lookup_2.
  - intros Hrs Hth. rewrite Hrs in Hsec. destruct (Z.ltb_spec 1 (permissionsThreshold_ r)); [exact Hsec|lia].
  - intros Hcl. rewrite Hcl in Hlk. cbn [orb andb] in Hlk. apply andb_false_iff in Hlk as [H|H];
      apply negb_false_iff, textEq_spec in H; auto.
  - intros Hrl. rewrite Hrl in Hmiss. by apply negb_false_iff, textEq_spec in Hmiss.
Qed.


(** With security on, the lock goes only to a user who is logged in, and only
    on that user's own request or an administrator's; an unlock must name the
    holder; a refusal changes nothing. *)
Theorem setUserWithLock_authority actingUid lock username w ok w' : CareAboutCookieCodes_ w = true ->
  setUserWithLock actingUid lock username w = (Ok ok, w') ->
  if ok then
    if lock then usersUsernameWithLock_ w' = username /\ isUsernameActive w username = true /\
      (getUsersUsername w actingUid = username \/ isAdminForGroup (getPermissionsForUser w actingUid) DEFAULT_USER_GROUP = true)
    else usersUsernameWithLock_ w = username /\ usersUsernameWithLock_ w' = []
  else w' = w.
Proof.
  intros Hc. unfold setUserWithLock. rewrite Hc. cbn [negb andb]. rewrite orb_false_r. destruct lock; cbn [negb andb].
  - destruct (isUsernameActive w username); cbn [andb]; [|by intros [= <- <-]].
    destruct (isAdminForGroup _ _) eqn:Ha; cbn [negb andb].
    + intros [= <- <-]. by split_and!; [..|right].
    + destruct (textEq (getUsersUsername w actingUid) username) eqn:Hu; cbn [negb]; [|by intros [= <- <-]].
      intros [= <- <-]. apply textEq_spec in Hu. by split_and!; [..|left].
  - destruct (textEq (usersUsernameWithLock_ w) username) eqn:Hu; intros [= <- <-]; [|done].
    by apply textEq_spec in Hu.
Qed.

(** ** Instances *)

Definition exampleCode : text := repeat (chr 65) COOKIE_CODE_LENGTH.
Definition exampleState :=
  set_ActiveSessions (set_lock exampleWeb []) [mkSession exampleCode (txt "10.0.0.5") 7 1 1000 1000].
Definition exampleInfo :=
  mkInfo (txt "stateMatchine") exampleCode false true true false false [] [] 0 1 [] 0 [] [] [] 0 ∅.
Definition exampleGateway := xmlRequestOnGateway (fun i => Z.of_nat i) noVerifier 1200 (txt "10.0.0.5") exampleInfo exampleState.

(** The lock is taken on the way. *)
Lemma gateway_request_sound_witness : exists header r' w',
  exampleGateway = (Ok (Pass header, r'), w') /\ usersUsernameWithLock_ w' = txt "bob" /\
  exists s level, s ∈ ActiveSessions_ exampleState /\ live 1200 s /\ permissionsThreshold_ exampleInfo <= level.
Proof.
  assert (match exampleGateway.1 with Ok (Pass _, r') => req_username_ r' = txt "bob" | _ => False end) as E by by vm_compute.
  destruct exampleGateway as [[[[header|out] r']|e] w'] eqn:G;
    cbn [fst] in E; [|destruct E|destruct E]. exists header, r', w'. split; [reflexivity|].
  destruct (gateway_request_sound _ _ _ _ exampleInfo exampleState header r' w' (conj eq_refl eq_refl) eq_refl G)
    as (s & u & level & Hs & _ & Hl & _ & _ & _ & Hu & _ & Hlevel & _ & Hthreshold & _ & _ & _ & Hlock & _).
  assert (permissionsThreshold_ exampleInfo <= level) as Hasked by exact (Hthreshold Hlevel).
  split; [|exists s, level; split_and!; assumption]. rewrite (Hlock eq_refl), <- Hu. exact E.
Defined.

Lemma setUserWithLock_authority_witness : exists w',
  setUserWithLock 7 true (txt "bob") exampleState = (Ok true, w') /\ usersUsernameWithLock_ w' = txt "bob".
Proof.
  destruct (setUserWithLock 7 true (txt "bob") exampleState) as [r w'] eqn:H.
  assert (r = Ok true) as -> by (change r with (r, w').1; rewrite <- H; by vm_compute).
  exists w'. split; [done|]. by apply setUserWithLock_authority in H as (-> & _).
Defined.

(** An expert of an allowed group has only the level of the default group. *)
Definition expertInfo :=
  mkInfo (txt "configure") exampleCode false false false false false [txt "experts"] [] 0 100 [] 7 (txt "bob") (txt "bob") [] 1
    (<[txt "experts" := 100]> {[ DEFAULT_USER_GROUP := 1 ]}).
Lemma getGroupPermissionLevel_spec_witness : permissionLevel_ (getGroupPermissionLevel expertInfo) = 1.
Proof.
  apply (getGroupPermissionLevel_spec expertInfo 1); [by vm_compute|].
  exists (txt "experts"), 100. split_and!; [by vm_compute|lia|by vm_compute].
Defined.
Lemma expert_refused : (checkRequestAccess true false false [] (getGroupPermissionLevel expertInfo)).1 = Refuse REQ_NO_PERMISSION_RESPONSE.
Proof. by vm_compute. Qed.

End RequestAccess.
