(* ===== verification/Jumble.v ===== *)
(** * Jumbled credentials

    src/otsdaq/WebUsersUtilities/WebUsers.cc, [hexByteStrToInt] and [dejumble]:
    user name and password come from the browser written into the positions of
    a table of 256 bytes that a walk through the session id visits.  The walk
    never visits a position twice, so its inner loop ends; what a client has to
    send is defined here as the specification [jumble].

    Reading past the terminating NUL of a string, and using the result of a
    failed [sscanf], are [Throw Undefined]. *)

From S2P Require Import Prelude CText StringMacros WebUsers.

Module Jumble.
Import WebUsers.

(** ** Hexadecimal bytes *)

Definition hexVal (c : ascii) : option Z :=
  if between 48 57 c then Some (code c - 48)
  else if between 65 70 c then Some (code c - 55)
  else if between 97 102 c then Some (code c - 87)
  else None.

(** [sscanf] with [%X] on a string of two characters.  ["0x"] is a prefix
    without digits, which the C standard leaves to the library. *)
Definition hexByteStrToInt (a b : ascii) : result Z :=
  match hexVal a, hexVal b with
  | Some x, Some y => Ok (16 * x + y)
  | Some x, None => if (x =? 0) && ((code b =? 120) || (code b =? 88)) then Throw Undefined else Ok x
  | None, Some y => if is_space a || (code a =? 43) then Ok y else if code a =? 45 then Ok (u32 (- y)) else Throw Undefined
  | None, None => Throw Undefined
  end.

(** A character of [s.c_str()]. *)
Definition c_char (s : text) (i : nat) : result ascii :=
  match s !! i with
  | Some c => Ok c
  | None => if (i =? length s)%nat then Ok (chr 0) else Throw Undefined
  end.
Definition hexAt (s : text) (p : Z) : result Z :=
  a ← c_char s (2 * Z.to_nat p);
  b ← c_char s (2 * Z.to_nat p + 1);
  hexByteStrToInt a b.

(** ** dejumble *)

Definition ss : Z := Z.of_nat SESSION_ID_LENGTH / 2.

(** [while(x[p]) p = (p + 1) % ss], with the visited positions as a list. *)
Fixpoint nextFree (fuel : nat) (p : Z) (x : list Z) : result Z :=
  match fuel with
  | O => Throw Undefined (* the loop does not end *)
  | S fuel => if bool_decide (p ∈ x) then nextFree fuel ((p + 1) mod ss) x else Ok p
  end.

(** One turn of the loop reads one character. *)
Fixpoint unjumble (l : nat) (u s : text) (p : Z) (x : list Z) (c : Z) : result text :=
  match l with
  | O => Ok []
  | S l =>
      d ← hexAt s p;
      p ← nextFree (Z.to_nat ss) ((p + d) mod ss) x;
      n ← hexAt s p;
      c' ← hexAt u p;
      user ← unjumble l u s p (p :: x) c';
      Ok (chr ((c' - c - n + ss * 4) mod ss) :: user)
  end.

Definition dejumble (u s : text) : result text :=
  if negb (length s =? SESSION_ID_LENGTH)%nat then Ok []
  else
    h ← hexAt s 0;
    let p := h mod ss in
    h ← hexAt s p;
    let n := h mod ss in
    c ← hexAt u p;
    let len := (c - p - n + ss * 3) mod ss in
    unjumble (Z.to_nat len) u s p [p] c.

(** ** The specification: what a client sends *)

(** 256 bytes in hexadecimal. *)
Definition hexText (bytes : list Z) : text := flat_map intToHexStr bytes.
Definition isTable (bytes : list Z) : Prop := length bytes = Z.to_nat ss /\ Forall (fun b => in_range 8 b) bytes.

Definition byteAt (table : list Z) (p : Z) : Z := nth (Z.to_nat p) table 0.
Definition freePosition (p : Z) (x : list Z) : Z :=
  match nextFree (Z.to_nat ss) p x with Ok p => p | Throw _ => 0 end.

(** The bytes for the rest of the text, written into [table]. *)
Fixpoint place (s : list Z) (p : Z) (x : list Z) (c : Z) (user : text) (table : list Z) : list Z :=
  match user with
  | [] => table
  | ch :: user =>
      let p := freePosition ((p + byteAt s p) mod ss) x in
      let c' := (code ch + c + byteAt s p) mod ss in
      place s p (p :: x) c' user (<[Z.to_nat p := c']> table)
  end.
Definition jumble (s : list Z) (user : text) : list Z :=
  let p := byteAt s 0 in
  let c := (Z.of_nat (length user) + p + byteAt s p) mod ss in
  place s p [p] c user (<[Z.to_nat p := c]> (replicate (Z.to_nat ss) 0)).

(** ** Lemmas *)

Lemma ss_256 : ss = 256.
Proof. done. Qed.

Lemma hexVal_hexDigit d : 0 <= d < 16 -> hexVal (StringMacros.hexDigit d) = Some d.
Proof.
  intros Hd. assert (d = 0 \/ d = 1 \/ d = 2 \/ d = 3 \/ d = 4 \/ d = 5 \/ d = 6 \/ d = 7 \/ d = 8 \/ d = 9 \/
    d = 10 \/ d = 11 \/ d = 12 \/ d = 13 \/ d = 14 \/ d = 15) as H by lia.
  by repeat (destruct H as [->|H]; [reflexivity|]); subst.
Qed.

Lemma hexText_length bytes : length (hexText bytes) = (2 * length bytes)%nat.
Proof. induction bytes as [|b l IH]; [done|]. cbn [hexText flat_map intToHexStr app length]. fold (hexText l). lia. Qed.

Lemma hexText_lookup bytes k b : bytes !! k = Some b ->
  hexText bytes !! (2 * k)%nat = Some (StringMacros.hexDigit (u8 b / 16)) /\
  hexText bytes !! (2 * k + 1)%nat = Some (StringMacros.hexDigit (u8 b mod 16)).
Proof.
  revert k. induction bytes as [|a l IH]; intros k; [done|]. destruct k as [|k].
  - by intros [= ->].
  - intros H. destruct (IH k H) as [H1 H2].
    replace (2 * S k)%nat with (S (S (2 * k))) by lia. replace (S (S (2 * k)) + 1)%nat with (S (S (2 * k + 1))) by lia. done.
Qed.

(** A byte of a list is read back. *)
Lemma hexAt_bytes bytes k b : bytes !! k = Some b -> in_range 8 b -> hexAt (hexText bytes) (Z.of_nat k) = Ok b.
Proof.
  intros Hb Hr. destruct (hexText_lookup bytes _ b Hb) as [H1 H2]. unfold hexAt, c_char. rewrite Nat2Z.id, H1, H2.
  cbn [mbind result_bind]. unfold in_range in Hr. change (2 ^ 8) with 256 in Hr. rewrite (wrap_small 8 b) by done.
  unfold hexByteStrToInt. rewrite !hexVal_hexDigit by (Z.div_mod_to_equations; lia). f_equal. Z.div_mod_to_equations; lia.
Qed.
Lemma hexAt_hexText bytes p : isTable bytes -> 0 <= p < ss -> hexAt (hexText bytes) p = Ok (byteAt bytes p).
Proof.
  intros [Hlen Hr] Hp. rewrite ss_256 in *.
  destruct (lookup_lt_is_Some_2 bytes (Z.to_nat p)) as [b Hb]; [lia|].
  rewrite <- (Z2Nat.id p) at 1 by lia. rewrite (hexAt_bytes bytes _ b Hb) by by eapply Forall_lookup_1.
  unfold byteAt. by rewrite (nth_lookup_Some _ _ _ b Hb).
Qed.

Lemma byteAt_range bytes p : isTable bytes -> 0 <= p < ss -> 0 <= byteAt bytes p < ss.
Proof.
  intros [Hlen Hr] Hp. rewrite ss_256 in *. destruct (lookup_lt_is_Some_2 bytes (Z.to_nat p)) as [b Hb]; [lia|].
  unfold byteAt. rewrite (nth_lookup_Some _ _ _ b Hb). assert (in_range 8 b) as H by by eapply Forall_lookup_1. exact H.
Qed.


(** *** The walk *)

Lemma nextFree_sound fuel p x q : nextFree fuel p x = Ok q -> 0 <= p < ss -> ~ q ∈ x /\ 0 <= q < ss.
Proof.
  revert p. induction fuel as [|fuel IH]; intros p; [done|]. cbn [nextFree].
  destruct (bool_decide_reflect (p ∈ x)) as [Hp|Hp].
  - intros H _. apply (IH ((p + 1) mod ss) H). apply Z.mod_pos_bound. done.
  - by intros [= <-].
Qed.
Lemma nextFree_stuck fuel p x : nextFree fuel p x = Throw Undefined \/ (exists q, nextFree fuel p x = Ok q).
Proof.
  revert p. induction fuel as [|fuel IH]; intros p; [by left|]. cbn [nextFree].
  destruct (bool_decide (p ∈ x)); [apply IH|right; by exists p].
Qed.
Lemma nextFree_none fuel p x : nextFree fuel p x = Throw Undefined -> 0 <= p < ss ->
  forall i, 0 <= i < Z.of_nat fuel -> (p + i) mod ss ∈ x.
Proof.
  revert p. induction fuel as [|fuel IH]; intros p; [lia|]. cbn [nextFree].
  destruct (bool_decide_reflect (p ∈ x)) as [Hp|Hp]; [|done]. intros H Hr i Hi.
  destruct (decide (i = 0)) as [->|]. { by rewrite Z.add_0_r, Z.mod_small. }
  specialize (IH _ H (Z.mod_pos_bound (p + 1) ss ltac:(done)) (i - 1) ltac:(lia)).
  rewrite Zplus_mod_idemp_l in IH. by replace (p + 1 + (i - 1)) with (p + i) in IH by lia.
Qed.

(** While a position is free the walk finds one. *)
Lemma nextFree_total p x : 0 <= p < ss -> (length x < Z.to_nat ss)%nat ->
  exists q, nextFree (Z.to_nat ss) p x = Ok q /\ ~ q ∈ x /\ 0 <= q < ss.
Proof.
  intros Hp Hx. destruct (nextFree_stuck (Z.to_nat ss) p x) as [H|[q H]].
  2:{ exists q. split; [done|]. by eapply nextFree_sound. }
  exfalso. assert (seqZ 0 ss ⊆ x) as Hsub.
  { intros k Hk. apply elem_of_seqZ in Hk.
    assert (0 <= (k - p) mod ss < Z.of_nat (Z.to_nat ss)) as Hi by by apply Z.mod_pos_bound.
    pose proof (nextFree_none _ _ _ H Hp _ Hi) as Hin.
    rewrite Zplus_mod_idemp_r in Hin. replace (p + (k - p)) with k in Hin by lia. by rewrite Z.mod_small in Hin by lia. }
  apply NoDup_submseteq in Hsub; [|apply NoDup_seqZ]. apply submseteq_length in Hsub. rewrite length_seqZ in Hsub. lia.
Qed.

(** The state of the walk: visited positions are in the table, the last one
    first. *)
Definition walk (p : Z) (x : list Z) : Prop := p ∈ x /\ Forall (fun q => 0 <= q < ss) x.

Lemma walk_step s p x : isTable s -> walk p x -> (length x < Z.to_nat ss)%nat ->
  exists q, nextFree (Z.to_nat ss) ((p + byteAt s p) mod ss) x = Ok q /\
    freePosition ((p + byteAt s p) mod ss) x = q /\ ~ q ∈ x /\ 0 <= q < ss /\ walk q (q :: x).
Proof.
  intros Hs [Hp Hx] Hl. destruct (nextFree_total ((p + byteAt s p) mod ss) x) as (q & Hq & Hn & Hr); [by apply Z.mod_pos_bound|done|].
  exists q. unfold freePosition. rewrite Hq. split_and!; try done; [lia|lia|]. split; [left|by constructor].
Qed.

(** *** Every jumbled text is read, and ends *)

Lemma unjumble_total s u l : forall p x c, isTable s -> isTable u -> walk p x -> (length x + l <= Z.to_nat ss)%nat ->
  exists user, unjumble l (hexText u) (hexText s) p x c = Ok user /\ length user = l.
Proof.
  induction l as [|l IH]; intros p x c Hs Hu Hw Hl; [by exists []|]. cbn [unjumble].
  assert (0 <= p < ss) as Hp. { destruct Hw as [Hin Hall]. by apply (proj1 (Forall_forall _ _) Hall). }
  rewrite (hexAt_hexText s p Hs Hp). cbn [mbind result_bind].
  destruct (walk_step s p x Hs Hw) as (q & -> & _ & _ & Hq & Hwq); [lia|]. cbn [mbind result_bind].
  rewrite (hexAt_hexText s q Hs Hq), (hexAt_hexText u q Hu Hq). cbn [mbind result_bind].
  destruct (IH q (q :: x) (byteAt u q) Hs Hu Hwq) as (user & -> & Hlen); [cbn [length]; lia|].
  eexists. split; [reflexivity|]. cbn [length]. by rewrite Hlen.
Qed.

(** *** Placing and reading back *)

Lemma place_length s user : forall p x c table, length (place s p x c user table) = length table.
Proof. induction user as [|ch user IH]; intros p x c table; [done|]. cbn [place]. by rewrite IH, length_insert. Qed.

Lemma byteAt_insert table p q b : 0 <= p -> 0 <= q -> (Z.to_nat p < length table)%nat ->
  byteAt (<[Z.to_nat p := b]> table) q = if decide (p = q) then b else byteAt table q.
Proof.
  intros Hp Hq Hl. unfold byteAt. destruct (decide (p = q)) as [->|Hne].
  - by rewrite (nth_lookup_Some _ _ _ b) by by apply list_lookup_insert_eq.
  - rewrite !nth_lookup, list_lookup_insert_ne by lia. done.
Qed.

Lemma place_keeps s user : forall p x c table q, isTable s -> walk p x -> (length x + length user <= Z.to_nat ss)%nat ->
  length table = Z.to_nat ss -> q ∈ x -> byteAt (place s p x c user table) q = byteAt table q.
Proof.
  induction user as [|ch user IH]; intros p x c table q Hs Hw Hl Ht Hq; [done|]. cbn [place length] in *.
  destruct (walk_step s p x Hs Hw) as (f & _ & -> & Hf & Hr & Hwf); [lia|].
  assert (0 <= q < ss). { destruct Hw as [_ Hall]. by apply (proj1 (Forall_forall _ _) Hall). }
  rewrite IH; [|done|done|cbn [length]; lia|by rewrite length_insert|by right].
  rewrite byteAt_insert by (rewrite ?Ht; lia). destruct (decide (f = q)) as [->|]; done.
Qed.

Lemma place_range s user : forall p x c table, isTable s -> walk p x -> (length x + length user <= Z.to_nat ss)%nat ->
  isTable table -> isTable (place s p x c user table).
Proof.
  induction user as [|ch user IH]; intros p x c table Hs Hw Hl Ht; [done|]. cbn [place length] in *.
  destruct (walk_step s p x Hs Hw) as (f & _ & -> & Hf & Hr & Hwf); [lia|].
  apply IH; [done|done|cbn [length]; lia|]. destruct Ht as [Ht1 Ht2]. split; [by rewrite length_insert|].
  apply Forall_insert; [done|]. apply Z.mod_pos_bound. done.
Qed.

Lemma unjumble_place s user : forall p x c table, isTable s -> walk p x -> (length x + length user <= Z.to_nat ss)%nat ->
  isTable table -> unjumble (length user) (hexText (place s p x c user table)) (hexText s) p x c = Ok user.
Proof.
  induction user as [|ch user IH]; intros p x c table Hs Hw Hl Ht; [done|].
  pose proof (place_range s (ch :: user) p x c table Hs Hw Hl Ht) as Hu.
  cbn [place length unjumble] in *.
  assert (0 <= p < ss) as Hp. { destruct Hw as [Hin Hall]. by apply (proj1 (Forall_forall _ _) Hall). }
  rewrite (hexAt_hexText s p Hs Hp). cbn [mbind result_bind].
  destruct (walk_step s p x Hs Hw) as (f & -> & Hfp & Hf & Hr & Hwf); [lia|]. cbn [mbind result_bind]. rewrite Hfp in *.
  set (c' := (code ch + c + byteAt s f) mod ss) in *.
  rewrite (hexAt_hexText s f Hs Hr), (hexAt_hexText _ f Hu Hr). cbn [mbind result_bind].
  destruct Ht as [Ht1 Ht2].
  assert (isTable (<[Z.to_nat f := c']> table)) as Ht'.
  { split; [by rewrite length_insert|]. apply Forall_insert; [done|]. apply Z.mod_pos_bound. done. }
  rewrite (place_keeps s user f (f :: x) c' _ f) by first [done|cbn [length]; lia|by destruct Ht'|left].
  rewrite byteAt_insert by (rewrite ?Ht1; lia). rewrite decide_True by done.
  rewrite IH by first [done|cbn [length]; lia]. cbn [mbind result_bind]. do 2 f_equal.
  pose proof (code_range ch) as Hc. unfold in_range in Hc. change (2 ^ 8) with 256 in Hc.
  replace ((c' - c - byteAt s f + ss * 4) mod ss) with (code ch); [apply chr_code|].
  unfold c'. rewrite ss_256. Z.div_mod_to_equations. lia.
Qed.


Lemma hexText_session s : isTable s -> (length (hexText s) =? SESSION_ID_LENGTH)%nat = true.
Proof. intros [Hl _]. rewrite hexText_length, Hl. done. Qed.

Lemma walk_start s : isTable s -> walk (byteAt s 0) [byteAt s 0].
Proof.
  intros Hs. pose proof (byteAt_range s 0 Hs ltac:(done)). split; [left|]. by apply Forall_singleton.
Qed.

(** ** Properties *)

(** Whatever table a client sends for a session id, de-jumbling it ends, reads
    nothing outside the two strings and gives a text of at most 255
    characters. *)
Theorem dejumble_total s u : isTable s -> isTable u ->
  exists user, dejumble (hexText u) (hexText s) = Ok user /\ (length user <= 255)%nat.
Proof.
  intros Hs Hu. unfold dejumble. rewrite (hexText_session s Hs). cbn [negb].
  pose proof (byteAt_range s 0 Hs ltac:(done)) as Hp.
  rewrite (hexAt_hexText s 0 Hs) by done. cbn [mbind result_bind]. rewrite (Z.mod_small (byteAt s 0)) by done.
  rewrite (hexAt_hexText s _ Hs Hp), (hexAt_hexText u _ Hu Hp). cbn [mbind result_bind].
  match goal with |- context [Z.to_nat (?e mod ss)] => set (len := e mod ss) end.
  assert (0 <= len < ss) as Hlen by by apply Z.mod_pos_bound. rewrite ss_256 in Hlen.
  destruct (unjumble_total s u (Z.to_nat len) (byteAt s 0) [byteAt s 0] (byteAt u (byteAt s 0)) Hs Hu (walk_start s Hs))
    as (user & Hj & Hl); [rewrite ss_256; cbn [length]; lia|].
  exists user. split; [exact Hj|lia].
Qed.

(** De-jumbling gives back the text that was jumbled, for every session id and
    every text of at most 255 characters. *)
Theorem dejumble_jumble s user : isTable s -> (length user <= 255)%nat ->
  dejumble (hexText (jumble s user)) (hexText s) = Ok user.
Proof.
  intros Hs Hl. unfold dejumble, jumble. rewrite (hexText_session s Hs). cbn [negb].
  pose proof (byteAt_range s 0 Hs ltac:(done)) as Hp. pose proof (walk_start s Hs) as Hw.
  set (p := byteAt s 0) in *. set (c := (Z.of_nat (length user) + p + byteAt s p) mod ss).
  set (table := <[Z.to_nat p := c]> (replicate (Z.to_nat ss) 0)).
  assert (isTable table) as Ht.
  { split; [unfold table; by rewrite length_insert, length_replicate|]. apply Forall_insert; [|by apply Z.mod_pos_bound].
    by apply Forall_replicate. }
  assert (length [p] + length user <= Z.to_nat ss)%nat as Hlen by (rewrite ss_256; cbn [length]; lia).
  assert (isTable (place s p [p] c user table)) as Hu by by apply place_range.
  assert (byteAt (place s p [p] c user table) p = c) as Hc.
  { rewrite (place_keeps s user p [p] c table p) by first [done|by destruct Ht|left]. unfold table.
    rewrite byteAt_insert by (rewrite ?length_replicate; lia). by rewrite decide_True. }
  rewrite (hexAt_hexText s 0 Hs) by done. cbn [mbind result_bind]. fold p. rewrite (Z.mod_small p) by done.
  rewrite (hexAt_hexText s p Hs Hp), (hexAt_hexText _ p Hu Hp). cbn [mbind result_bind]. rewrite Hc.
  replace (Z.to_nat ((c - p - byteAt s p mod ss + ss * 3) mod ss)) with (length user).
  - by apply unjumble_place.
  - pose proof (byteAt_range s p Hs Hp). rewrite (Z.mod_small (byteAt s p)) by done.
    unfold c. rewrite ss_256 in *. Z.div_mod_to_equations. lia.
Qed.

(** ** Instances *)

Definition exampleSession : list Z := map (fun i => (17 * i + 5) mod 256) (seqZ 0 256).
Lemma exampleSession_table : isTable exampleSession.
Proof. split; [done|]. apply (bool_decide_unpack _). by vm_compute. Qed.

Lemma dejumble_total_witness : exists user,
  dejumble (hexText exampleSession) (hexText exampleSession) = Ok user /\ (length user <= 255)%nat.
Proof. apply dejumble_total; apply exampleSession_table. Defined.

Lemma dejumble_jumble_witness :
  dejumble (hexText (jumble exampleSession (txt "operator"))) (hexText exampleSession) = Ok (txt "operator").
Proof. apply dejumble_jumble; [apply exampleSession_table|cbn; lia]. Defined.

End Jumble.
