(* ===== verification/Login.v ===== *)
(** * Logging in

    src/otsdaq/WebUsersUtilities/WebUsers.cc: password hashes ([sha512],
    [searchHashesDatabaseForHash], [addToHashesDatabase]), logging in with a
    password ([attemptActiveSession]), with a certificate
    ([attemptActiveSessionWithCert]), and the login of a browser that has a
    cookie already ([isCookieCodeActiveForLogin]).

    OpenSSL's context is a parameter: the bytes of a context to whose eight
    words random numbers were added, and the digest of a text from a context.
    The account files are two parameters that say whether a save succeeds; the
    login history and the file of failure counts are not modelled. *)

From S2P Require Import Prelude CText StringMacros WebUsers RequestAccess Jumble.

Module Login.
Import WebUsers RequestAccess Jumble.

Section Login.
Variable rand : nat -> Z.
(** [sizeof(SHA512_CTX)], the context made from eight numbers, and the digest. *)
Variable contextSize : nat.
Variable contextOf : list Z -> list Z.
Variable digest : list Z -> text -> list Z.
(** [saveDatabaseToFile] of the users and of the hashes. *)
Variables (saveUsers saveHashes : WebUsers -> bool).

(** ** Accounts *)

Definition set_salt u salt := mkUser (username_ u) (email_ u) (displayName_ u) salt (permissions_ u) (userId_ u) (lastLoginAttempt_ u)
  (accountCreationTime_ u) (loginFailureCount_ u) (lastModifierUsername_ u) (lastModifierTime_ u).
Definition set_lastLogin u t := mkUser (username_ u) (email_ u) (displayName_ u) (salt_ u) (permissions_ u) (userId_ u) t
  (accountCreationTime_ u) (loginFailureCount_ u) (lastModifierUsername_ u) (lastModifierTime_ u).
Definition set_failures u n := mkUser (username_ u) (email_ u) (displayName_ u) (salt_ u) (permissions_ u) (userId_ u) (lastLoginAttempt_ u)
  (accountCreationTime_ u) n (lastModifierUsername_ u) (lastModifierTime_ u).
Definition set_permissions u p := mkUser (username_ u) (email_ u) (displayName_ u) (salt_ u) p (userId_ u) (lastLoginAttempt_ u)
  (accountCreationTime_ u) (loginFailureCount_ u) (lastModifierUsername_ u) (lastModifierTime_ u).

(** [Users_[i]] *)
Definition userAt (i : nat) : M WebUsers User := fun w =>
  match Users_ w !! i with Some u => (Ok u, w) | None => (Throw Undefined, w) end.
Definition updateUser (i : nat) (f : User -> User) : M WebUsers unit :=
  modify (fun w => set_Users w (alter f i (Users_ w)) (usersNextUserId_ w)).

(** [sprintf("%5.5d", int(lastModifierTime_ & 0xffff))] *)
Definition zeroPadded (n : Z) : text := let d := to_string_unsigned n in repeat (chr 48) (5 - length d) ++ d.
Definition getNewAccountCode u : text :=
  if negb (textEq (salt_ u) []) then [] else zeroPadded (Z.land (lastModifierTime_ u) 65535).

(** ** Hashes *)

Definition hexLower (d : Z) : ascii := if d <? 10 then chr (48 + d) else chr (87 + d).
Definition digestText (bytes : list Z) : text := flat_map (fun b => [hexLower (u8 b / 16); hexLower (u8 b mod 16)]) bytes.

(** The bytes of the context a salt stands for. *)
Definition contextBytes (salt : text) : result (list Z) :=
  fold_right (fun i l => b ← hexAt salt (Z.of_nat i); l ← l; Ok (u8 b :: l)) (Ok []) (seq 0 contextSize).

(** With a salt: the same hash for the same user and password. *)
Definition passwordHash (salt user password : text) : result text :=
  context ← contextBytes salt;
  Ok (digestText (digest context (salt ++ user ++ password))).

(** Without a salt, one is made, and returned too. *)
Definition sha512 (user password salt : text) : M WebUsers (text * text) :=
  if textEq salt [] then fun w =>
    let context := contextOf (map rand (seq (randPosition w) 8)) in
    let salt := hexText context in
    (Ok (digestText (digest context (salt ++ user ++ password)), salt), set_rand w (randPosition w + 8))
  else
    hash ← lift (passwordHash salt user password);
    mret (hash, salt).

(** The last use of a hash, blurred by up to a month. *)
Definition blurredTime (now r1 r2 : Z) : Z :=
  Z.land (now + (if Z.rem r1 2 =? 0 then -1 else 1) * (Z.rem r2 30 * 24 * 60 * 60)) 0x0FFFFFFFFFE000000.
Definition drawTime (now : Z) : M WebUsers Z := fun w =>
  (Ok (blurredTime now (rand (randPosition w)) (rand (randPosition w + 1)%nat)), set_rand w (randPosition w + 2)).

Definition searchHashesDatabaseForHash (now : Z) (hash : text) : M WebUsers (option nat) :=
  found ← gets (fun w => search (fun h => textEq (hash_ h) hash) (Hashes_ w));
  match found with
  | None => mret None
  | Some i =>
      t ← drawTime now;
      modify (fun w => set_Hashes w (alter (fun h => mkHash (hash_ h) t) i (Hashes_ w))) ≫= fun _ =>
      mret (Some i)
  end.
Definition addToHashesDatabase (now : Z) (hash : text) : M WebUsers bool :=
  found ← searchHashesDatabaseForHash now hash;
  match found with
  | Some _ => mret false
  | None =>
      t ← drawTime now;
      modify (fun w => set_Hashes w (Hashes_ w ++ [mkHash hash t])) ≫= fun _ =>
      gets saveHashes
  end.

(** [while(!addToHashesDatabase(sha512(user, pw, Users_[i].salt_)))]: also a
    save that fails makes the loop go on. *)
Fixpoint firstPassword (fuel : nat) (now : Z) (i : nat) (user pw : text) : M WebUsers unit :=
  match fuel with
  | O => throw Undefined
  | S fuel =>
      u ← userAt i;
      hs ← sha512 user pw (salt_ u);
      updateUser i (fun u => set_salt u hs.2) ≫= fun _ =>
      added ← addToHashesDatabase now hs.1;
      if (added : bool) then mret tt
      else updateUser i (fun u => set_salt u []) ≫= fun _ => firstPassword fuel now i user pw
  end.

(** ** attemptActiveSession *)

(** A wrong password: the count is incremented once in the condition and once
    in the branch. *)
Definition recordFailure u : User :=
  let n := u8 (loginFailureCount_ u + 1) in
  let n := if negb (n =? 255) then u8 (n + 1) else n in
  let u := set_failures u n in
  if USERS_MAX_LOGIN_FAILURES <=? n then set_permissions u (<[DEFAULT_USER_GROUP := PERMISSION_LEVEL_INACTIVE]> (permissions_ u)) else u.

Definition loginSuccess (now : Z) (i : nat) (ip : text) : M WebUsers (Z * text * text) :=
  updateUser i (fun u => if negb (loginFailureCount_ u =? 0) then set_failures u 0 else u) ≫= fun _ =>
  u ← userAt i;
  code ← createNewActiveSession rand now (userId_ u) ip 0;
  sessions ← gets ActiveSessions_;
  (if (length sessions =? 1)%nat then setUserWithLock (userId_ u) true (username_ u) else mret true) ≫= fun _ =>
  mret (userId_ u, displayName_ u, code).

(** An account that is found and not inactive. *)
Definition checkPassword (fuel : nat) (now : Z) (i : nat) (user pw jumbledUser newAccountCode ip : text)
    : M WebUsers (Z * text * text) :=
  u ← userAt i;
  if textEq (salt_ u) [] then
    if negb (textEq newAccountCode (getNewAccountCode u)) then mret (NOT_FOUND_IN_DATABASE, jumbledUser, newAccountCode)
    else
      firstPassword fuel now i user pw ≫= fun _ =>
      saved ← gets saveUsers;
      if negb saved then throw RuntimeError else loginSuccess now i ip
  else
    hs ← sha512 user pw (salt_ u);
    known ← searchHashesDatabaseForHash now hs.1;
    match known with
    | None => updateUser i recordFailure ≫= fun _ => mret (NOT_FOUND_IN_DATABASE, jumbledUser, newAccountCode)
    | Some _ => loginSuccess now i ip
    end.

(** The user id (or an error code), the display name and the cookie code. *)
Definition attemptActiveSession (fuel : nat) (now : Z) (uuid jumbledUser jumbledPw newAccountCode ip : text)
    : M WebUsers (Z * text * text) :=
  accepted ← checkIpAccess now ip;
  if negb accepted then mret (ACCOUNT_BLACKLISTED, jumbledUser, newAccountCode)
  else
    cleanupExpiredEntries now ≫= fun _ =>
    care ← gets CareAboutCookieCodes_;
    if negb care then
      uid ← gets getAdminUserID;
      name ← gets (fun w => getUsersDisplayName w uid);
      code ← genCookieCode rand;
      mret (uid, name, code)
    else
      found ← gets (fun w => searchLoginSessionDatabaseForUUID w uuid);
      match found with
      | None => incrementIpBlacklistCount ip ≫= fun _ => mret (NOT_FOUND_IN_DATABASE, jumbledUser, txt "1")
      | Some k =>
          logins ← gets LoginSessions_;
          match logins !! k with
          | None => throw Undefined
          | Some s =>
              modify (fun w => set_LoginSessions w
                (alter (fun s => mkLogin (id_ s) (uuid_ s) (login_ip_ s) (login_startTime_ s) (u8 (loginAttempts_ s + 1))) k (LoginSessions_ w)))
                ≫= fun _ =>
              user ← lift (dejumble jumbledUser (id_ s));
              pw ← lift (dejumble jumbledPw (id_ s));
              account ← gets (fun w => searchUsersDatabaseForUsername w user);
              match account with
              | None => incrementIpBlacklistCount ip ≫= fun _ => mret (NOT_FOUND_IN_DATABASE, jumbledUser, newAccountCode)
              | Some i =>
                  clearBlacklistCount ip ≫= fun _ =>
                  updateUser i (fun u => set_lastLogin u now) ≫= fun _ =>
                  u ← userAt i;
                  if isInactiveForGroup (permissions_ u) DEFAULT_USER_GROUP
                  then mret (ACCOUNT_INACTIVE, jumbledUser, newAccountCode)
                  else checkPassword fuel now i user pw jumbledUser newAccountCode ip
              end
          end
      end.

(** ** attemptActiveSessionWithCert *)

(** The e-mail address of a certificate's fingerprint: the map in memory, filled
    from the credential file, an argument here. *)
Variable getUserEmailFromFingerprint : text -> text.

(** The result, and email, cookieCode and user by reference.  The name is
    looked up with the account's position as a user id. *)
Definition attemptActiveSessionWithCert (now : Z) (uuid email cookieCode user ip : text) : M WebUsers (Z * text * text * text) :=
  accepted ← checkIpAccess now ip;
  if negb accepted then mret (NOT_FOUND_IN_DATABASE, email, cookieCode, user)
  else
    cleanupExpiredEntries now ≫= fun _ =>
    care ← gets CareAboutCookieCodes_;
    if negb care then
      uid ← gets getAdminUserID;
      name ← gets (fun w => getUsersDisplayName w uid);
      code ← genCookieCode rand;
      mret (uid, name, code, user)
    else if textEq email [] then
      incrementIpBlacklistCount ip ≫= fun _ => mret (NOT_FOUND_IN_DATABASE, email, cookieCode, user)
    else
      found ← gets (fun w => searchLoginSessionDatabaseForUUID w uuid);
      match found with
      | None => incrementIpBlacklistCount ip ≫= fun _ => mret (NOT_FOUND_IN_DATABASE, email, txt "1", user)
      | Some k =>
          modify (fun w => set_LoginSessions w
            (alter (fun s => mkLogin (id_ s) (uuid_ s) (login_ip_ s) (login_startTime_ s) (u8 (loginAttempts_ s + 1))) k (LoginSessions_ w)))
            ≫= fun _ =>
          let email := getUserEmailFromFingerprint email in
          if textEq email [] then
            incrementIpBlacklistCount ip ≫= fun _ => mret (NOT_FOUND_IN_DATABASE, email, cookieCode, user)
          else
            account ← gets (fun w => searchUsersDatabaseForUserEmail w email);
            match account with
            | None => incrementIpBlacklistCount ip ≫= fun _ => mret (NOT_FOUND_IN_DATABASE, email, cookieCode, user)
            | Some i =>
                clearBlacklistCount ip ≫= fun _ =>
                user ← gets (fun w => getUsersUsername w (Z.of_nat i));
                updateUser i (fun u => set_lastLogin u now) ≫= fun _ =>
                u ← userAt i;
                if isInactiveForGroup (permissions_ u) DEFAULT_USER_GROUP || textEq (salt_ u) []
                then mret (NOT_FOUND_IN_DATABASE, email, cookieCode, user)
                else
                  updateUser i (fun u => if negb (loginFailureCount_ u =? 0) then set_failures u 0 else u) ≫= fun _ =>
                  code ← createNewActiveSession rand now (userId_ u) ip 0;
                  mret (userId_ u, displayName_ u, code, user)
            end
      end.

(** ** isCookieCodeActiveForLogin *)

(** The result, the cookie code and the name by reference. *)
Definition isCookieCodeActiveForLogin (now : Z) (uuid cookieCode username : text) : M WebUsers (Z * text * text) :=
  w ← gets id;
  if negb (CareAboutCookieCodes_ w) then mret (getAdminUserID w, cookieCode, username)
  else if isNil (ActiveSessions_ w) then mret (NOT_FOUND_IN_DATABASE, cookieCode, username)
  else
    match searchLoginSessionDatabaseForUUID w uuid with
    | None => mret (NOT_FOUND_IN_DATABASE, cookieCode, username)
    | Some k =>
        match LoginSessions_ w !! k with
        | None => throw Undefined
        | Some s =>
            username ← lift (dejumble username (id_ s));
            match searchActiveSessionDatabaseForCookie w cookieCode with
            | None => mret (NOT_FOUND_IN_DATABASE, cookieCode, username)
            | Some i =>
                match ActiveSessions_ w !! i with
                | None => throw Undefined
                | Some a =>
                    match searchUsersDatabaseForUserId w (session_userId_ a) with
                    | None => mret (NOT_FOUND_IN_DATABASE, cookieCode, username)
                    | Some j =>
                        u ← userAt j;
                        if negb (textEq (username_ u) username) then mret (NOT_FOUND_IN_DATABASE, cookieCode, username)
                        else
                          code ← refreshCookieCode rand now i true;
                          mret (userId_ u, code, displayName_ u)
                    end
                end
            end
        end
    end.
End Login.

(** ** Lemmas *)

(** The index a new login of a user gets. *)
Definition nextIndex (l : list ActiveSession) (uid : Z) : Z :=
  if maxIndex l uid =? 0 then 1 else u64 (maxIndex l uid + 1).

Lemma maxIndex_bound l uid s : s ∈ l -> session_userId_ s = uid -> sessionIndex_ s <= maxIndex l uid.
Proof.
  intros Hs Hu. unfold maxIndex.
  apply (fold_left_ind (fun l m => forall s, s ∈ l -> session_userId_ s = uid -> sessionIndex_ s <= m)); [|clear s Hs Hu|done|done].
  - intros s' H. by apply elem_of_nil in H.
  - intros pre x post m _ IH s Hs Hu. apply elem_of_app in Hs as [Hs|Hs].
    + specialize (IH s Hs Hu). destruct ((session_userId_ x =? uid) && (m <? sessionIndex_ x)) eqn:E; lia.
    + apply list_elem_of_singleton in Hs as <-. rewrite Hu, Z.eqb_refl. cbn [andb].
      destruct (Z.ltb_spec m (sessionIndex_ s)); lia.
Qed.

(** A new login starts a chain of its own. *)
Lemma nextIndex_fresh l uid s : 0 <= maxIndex l uid < 2 ^ 64 - 1 -> (forall s, s ∈ l -> sessionIndex_ s <> 0) ->
  s ∈ l -> session_userId_ s = uid -> sessionIndex_ s <> nextIndex l uid.
Proof.
  intros Hm Hz Hs Hu. pose proof (maxIndex_bound l uid s Hs Hu). specialize (Hz s Hs). unfold nextIndex.
  destruct (Z.eqb_spec (maxIndex l uid) 0).
  - pose proof (maxIndex_bound l uid s Hs Hu) as Hb. intros He. lia.
  - rewrite wrap_small by (unfold in_range; lia). lia.
Qed.

Lemma createNewActiveSession_new rand now uid ip w : exists code w',
  createNewActiveSession rand now uid ip 0 w = (Ok code, w') /\
  ActiveSessions_ w' = ActiveSessions_ w ++ [mkSession code ip uid (nextIndex (ActiveSessions_ w) uid) now now] /\
  Users_ w' = Users_ w /\ Hashes_ w' = Hashes_ w.
Proof. eexists _, _. split; [reflexivity|]. done. Qed.

Lemma alter_alter {A} (f g : A -> A) i (l : list A) : alter f i (alter g i l) = alter (fun a => f (g a)) i l.
Proof. revert i. induction l as [|a l IH]; intros [|i]; [done..|]. change (a :: alter f i (alter g i l) = a :: alter (fun a => f (g a)) i l). by rewrite IH. Qed.

Lemma userAt_some i w u : Users_ w !! i = Some u -> userAt i w = (Ok u, w).
Proof. intros H. unfold userAt. by rewrite H. Qed.

Definition resetFailures u : User := if negb (loginFailureCount_ u =? 0) then set_failures u 0 else u.

Lemma loginSuccess_outcome rand now i ip w u : Users_ w !! i = Some u -> exists code w',
  loginSuccess rand now i ip w = (Ok (userId_ u, displayName_ u, code), w') /\
  ActiveSessions_ w' = ActiveSessions_ w ++ [mkSession code ip (userId_ u) (nextIndex (ActiveSessions_ w) (userId_ u)) now now] /\
  Users_ w' = alter resetFailures i (Users_ w).
Proof.
  intros Hu. unfold loginSuccess, updateUser. fold resetFailures.
  set (w1 := set_Users w (alter resetFailures i (Users_ w)) (usersNextUserId_ w)).
  rewrite (bind_ok _ _ w tt w1) by done.
  assert (Users_ w1 !! i = Some (resetFailures u)) as Hu1 by (unfold w1; cbn [Users_ set_Users]; by rewrite list_lookup_alter_eq, Hu).
  rewrite (bind_ok _ _ _ _ _ (userAt_some i w1 _ Hu1)).
  assert (userId_ (resetFailures u) = userId_ u /\ displayName_ (resetFailures u) = displayName_ u) as [-> ->].
  { unfold resetFailures. by destruct (negb _). }
  destruct (createNewActiveSession_new rand now (userId_ u) ip w1) as (code & w2 & E & Hs & Hus & _).
  rewrite (bind_ok _ _ _ _ _ E). rewrite (bind_ok _ _ w2 (ActiveSessions_ w2) w2) by done.
  destruct (length (ActiveSessions_ w2) =? 1)%nat.
  - destruct (setUserWithLock_frame (userId_ u) true (username_ (resetFailures u)) w2) as (ok & k & H & _).
    rewrite (bind_ok _ _ _ _ _ H). eexists _, _. split; [reflexivity|]. cbn [ActiveSessions_ Users_ set_lock]. by rewrite Hs, Hus.
  - rewrite (bind_ok _ _ w2 true w2) by done. eexists _, _. split; [reflexivity|]. by rewrite Hs, Hus.
Qed.

(** Searching a hash only touches its access time. *)
Lemma searchHashes_outcome rand now h w : exists n l,
  searchHashesDatabaseForHash rand now h w =
    (Ok (search (fun h' => textEq (hash_ h') h) (Hashes_ w)), set_rand (set_Hashes w l) n).
Proof.
  unfold searchHashesDatabaseForHash.
  rewrite (bind_ok _ _ w (search (fun h' => textEq (hash_ h') h) (Hashes_ w)) w) by done.
  destruct (search _ (Hashes_ w)) as [i|].
  - eexists _, _. reflexivity.
  - exists (randPosition w), (Hashes_ w). by destruct w.
Qed.


Lemma contextBytes_nil n : (0 < n)%nat -> contextBytes n [] = Throw Undefined.
Proof. destruct n; [lia|done]. Qed.

Section Outcomes.
Context (rand : nat -> Z) (contextSize : nat) (contextOf : list Z -> list Z) (digest : list Z -> text -> list Z).
Context (saveUsers saveHashes : WebUsers -> bool) (fuel : nat).
Abbreviation hashOf := (passwordHash contextSize digest).
Abbreviation check := (checkPassword rand contextSize contextOf digest saveUsers saveHashes fuel).
Abbreviation attempt := (attemptActiveSession rand contextSize contextOf digest saveUsers saveHashes fuel).

(** Whether the hash of the password is stored. *)
Definition knownHash w (h : text) : Prop := h ∈ map hash_ (Hashes_ w).
Lemma knownHash_search w h : match search (fun h' => textEq (hash_ h') h) (Hashes_ w) with Some _ => knownHash w h | None => ~ knownHash w h end.
Proof.
  unfold knownHash. destruct (search _ (Hashes_ w)) as [k|] eqn:E.
  - destruct (search_some _ _ _ E) as (h' & Hl & He). apply textEq_spec in He as <-.
    apply list_elem_of_In, in_map, list_elem_of_In. by eapply list_elem_of_lookup_2.
  - rewrite search_none in E. intros H. apply list_elem_of_In, in_map_iff in H as (h' & <- & Hin).
    apply list_elem_of_In in Hin. specialize (E h' Hin). by rewrite textEq_refl in E.
Qed.

Lemma sha512_salted user pw salt h w : salt <> [] -> hashOf salt user pw = Ok h ->
  sha512 rand contextSize contextOf digest user pw salt w = (Ok (h, salt), w).
Proof. intros Hs Hh. unfold sha512. rewrite (textEq_neq _ _ Hs), Hh. done. Qed.

Lemma check_salted now i user pw ju nac ip w u h : Users_ w !! i = Some u -> salt_ u <> [] -> hashOf (salt_ u) user pw = Ok h ->
  (knownHash w h /\ exists code w', check now i user pw ju nac ip w = (Ok (userId_ u, displayName_ u, code), w') /\
     ActiveSessions_ w' = ActiveSessions_ w ++ [mkSession code ip (userId_ u) (nextIndex (ActiveSessions_ w) (userId_ u)) now now] /\
     Users_ w' = alter resetFailures i (Users_ w)) \/
  (~ knownHash w h /\ exists w', check now i user pw ju nac ip w = (Ok (NOT_FOUND_IN_DATABASE, ju, nac), w') /\
     ActiveSessions_ w' = ActiveSessions_ w /\ Users_ w' = alter recordFailure i (Users_ w)).
Proof.
  intros Hu Hs Hh. unfold checkPassword. rewrite (bind_ok _ _ _ _ _ (userAt_some i w u Hu)), (textEq_neq _ _ Hs).
  rewrite (bind_ok _ _ _ _ _ (sha512_salted user pw _ h w Hs Hh)).
  destruct (searchHashes_outcome rand now h w) as (n & l & E). cbn [fst]. rewrite (bind_ok _ _ _ _ _ E).
  pose proof (knownHash_search w h) as Hk. destruct (search _ (Hashes_ w)) as [k|].
  - left. split; [done|]. destruct (loginSuccess_outcome rand now i ip (set_rand (set_Hashes w l) n) u Hu) as (code & w' & H).
    by exists code, w'.
  - right. split; [done|]. eexists. split; [reflexivity|]. done.
Qed.

(** *** Reaching the password *)

Definition liveLogins (now : Z) w : list LoginSession := filter (fun s => loginExpired now s = false) (LoginSessions_ w).

(** A login attempt for a known account, with the texts that were jumbled. *)
Record reaches (now : Z) (uuid ju jp ip : text) w (user pw : text) (i : nat) (u : User) : Prop := mkReaches {
  reaches_local : localOnly w;
  reaches_ip : ipAllowed now w ip = true;
  reaches_login : exists k s, search (fun s => textEq (uuid_ s) uuid) (liveLogins now w) = Some k /\
    liveLogins now w !! k = Some s /\ dejumble ju (id_ s) = Ok user /\ dejumble jp (id_ s) = Ok pw;
  reaches_account : searchUsersDatabaseForUsername w user = Some i /\ Users_ w !! i = Some u;
}.

(** The state in which the password is checked. *)
Definition atPassword (now : Z) (i : nat) w w' : Prop :=
  ActiveSessions_ w' = liveSessions now (ActiveSessions_ w) /\
  Users_ w' = alter (fun u => set_lastLogin u now) i (Users_ w) /\ Hashes_ w' = Hashes_ w.

Lemma attempt_reaches now uuid ju jp nac ip w user pw i u : reaches now uuid ju jp ip w user pw i u -> sessionsHaveUsers w ->
  exists w', atPassword now i w w' /\ attempt now uuid ju jp nac ip w =
    if isInactiveForGroup (permissions_ u) DEFAULT_USER_GROUP then (Ok (ACCOUNT_INACTIVE, ju, nac), w')
    else check now i user pw ju nac ip w'.
Proof.
  intros [[Hc Hr] Hip (k & s & Hk & Hs & Hju & Hjp) [Hi Hu]] Hw. unfold attemptActiveSession.
  destruct (checkIpAccess_outcome now ip w) as [a Ea]. rewrite (bind_ok _ _ _ _ _ Ea), Hip. cbn [negb].
  destruct (cleanup_ok now (set_addresses w a) Hw) as [w1 E1]. rewrite (bind_ok _ _ _ _ _ E1).
  apply cleanup_cleaned in E1 as [Es Eu _ Ec _ _ Eh El].
  rewrite (bind_ok _ _ w1 true w1) by (unfold gets; rewrite Ec; cbn; by rewrite Hc). cbn [negb].
  assert (LoginSessions_ w1 = liveLogins now w) as El' by done.
  rewrite (bind_ok _ _ w1 (Some k) w1) by (unfold gets, searchLoginSessionDatabaseForUUID; by rewrite El', Hk).
  rewrite (bind_ok _ _ w1 (liveLogins now w) w1) by (unfold gets; by rewrite El'). rewrite Hs.
  match goal with |- context [modify ?f ≫= _] => rewrite (bind_ok (modify f) _ w1 tt (f w1)) by done; set (w2 := f w1) end.
  rewrite (bind_ok _ _ w2 user w2) by (unfold lift; by rewrite Hju).
  rewrite (bind_ok _ _ w2 pw w2) by (unfold lift; by rewrite Hjp).
  assert (Users_ w2 = Users_ w) as Eu2 by exact Eu.
  rewrite (bind_ok _ _ w2 (Some i) w2) by (unfold gets, searchUsersDatabaseForUsername; by rewrite Eu2, <- Hi).
  set (w3 := (clearBlacklistCount ip w2).2). rewrite (bind_ok _ _ w2 tt w3) by done.
  set (w4 := set_Users w3 (alter (fun u => set_lastLogin u now) i (Users_ w3)) (usersNextUserId_ w3)).
  rewrite (bind_ok _ _ w3 tt w4) by done.
  assert (Users_ w4 = alter (fun u => set_lastLogin u now) i (Users_ w)) as Eu4 by (unfold w4; cbn [Users_ set_Users]; by rewrite <- Eu2).
  rewrite (bind_ok _ _ w4 (set_lastLogin u now) w4).
  2:{ apply userAt_some. rewrite Eu4, list_lookup_alter_eq, Hu. done. }
  exists w4. split.
  - split_and!; [exact Es|exact Eu4|exact Eh].
  - cbn [permissions_ set_lastLogin]. by destruct (isInactiveForGroup _ _).
Qed.

(** *** The first password *)

Lemma contextBytes_hexText context : length context = contextSize -> Forall (fun b => in_range 8 b) context ->
  contextBytes contextSize (hexText context) = Ok context.
Proof.
  intros Hl Hr. unfold contextBytes. rewrite <- Hl.
  enough (forall pre post, context = pre ++ post ->
    fold_right (fun i l => b ← hexAt (hexText context) (Z.of_nat i); l ← l; Ok (u8 b :: l)) (Ok []) (seq (length pre) (length post)) = Ok post)
    as H by exact (H [] context eq_refl).
  intros pre post. revert pre. induction post as [|b post IH]; intros pre Hc; [done|]. cbn [length seq fold_right].
  assert (context !! length pre = Some b) as Hb by (rewrite Hc; by apply list_lookup_middle).
  assert (in_range 8 b) as Hb8 by by eapply Forall_lookup_1.
  rewrite (hexAt_bytes context _ b Hb Hb8). cbn [mbind result_bind].
  specialize (IH (pre ++ [b])). rewrite length_app, Nat.add_1_r in IH. rewrite IH by by rewrite Hc, <- app_assoc.
  cbn [mbind result_bind]. by rewrite (wrap_small 8 b).
Qed.

Lemma sha512_new user pw w : exists h salt n, sha512 rand contextSize contextOf digest user pw [] w = (Ok (h, salt), set_rand w n) /\
  ((forall ns, length (contextOf ns) = contextSize /\ Forall (fun b => in_range 8 b) (contextOf ns)) -> hashOf salt user pw = Ok h).
Proof.
  eexists _, _, _. split; [reflexivity|]. intros Hctx. destruct (Hctx (map rand (seq (randPosition w) 8))) as [Hl Hr].
  unfold passwordHash. by rewrite contextBytes_hexText.
Qed.

(** What setting a first password leaves: only salts and hashes change, and the
    hash of the password with the new salt is stored. *)
Lemma firstPassword_outcome now i user pw : forall f w w', firstPassword rand contextSize contextOf digest saveHashes f now i user pw w = (Ok tt, w') ->
  (exists u, Users_ w !! i = Some u /\ salt_ u = []) ->
  ActiveSessions_ w' = ActiveSessions_ w /\ (exists salt, Users_ w' = alter (fun u => set_salt u salt) i (Users_ w) /\
    ((forall ns, length (contextOf ns) = contextSize /\ Forall (fun b => in_range 8 b) (contextOf ns)) ->
     exists h, hashOf salt user pw = Ok h /\ knownHash w' h)).
Proof.
  induction f as [|f IH]; intros w w' H (u & Hu & Hsalt); [done|]. cbn [firstPassword] in H.
  rewrite (bind_ok _ _ _ _ _ (userAt_some i w u Hu)), Hsalt in H.
  destruct (sha512_new user pw w) as (h & salt & n & E & Hh). rewrite (bind_ok _ _ _ _ _ E) in H. cbn [fst snd] in H.
  set (w1 := set_Users (set_rand w n) (alter (fun u => set_salt u salt) i (Users_ w)) (usersNextUserId_ w)).
  rewrite (bind_ok _ _ (set_rand w n) tt w1) in H by done.
  destruct (searchHashes_outcome rand now h w1) as (n2 & l & E2).
  unfold addToHashesDatabase at 1 in H. unfold mbind at 1, M_bind at 1 in H. rewrite (bind_ok _ _ _ _ _ E2) in H.
  destruct (search _ (Hashes_ w1)) as [k|].
  - (* a collision: try again *)
    cbn [mret M_ret] in H. unfold mret, M_ret in H. set (w2 := set_rand (set_Hashes w1 l) n2) in H.
    set (w3 := set_Users w2 (alter (fun u => set_salt u []) i (Users_ w2)) (usersNextUserId_ w2)).
    rewrite (bind_ok _ _ w2 tt w3) in H by done.
    destruct (IH w3 w' H) as (Hs & salt' & Hus & Hk).
    { exists (set_salt (set_salt u salt) []). split; [|done]. unfold w3, w2, w1. cbn [Users_ set_Users set_rand set_Hashes].
      by rewrite !list_lookup_alter_eq, Hu. }
    split; [done|]. exists salt'. split; [|done]. rewrite Hus. unfold w3, w2, w1. cbn [Users_ set_Users set_rand set_Hashes].
    by rewrite !alter_alter.
  - unfold mbind, M_bind, drawTime, modify, gets in H. cbn in H.
    match type of H with (if saveHashes ?w2 then _ else _) _ = _ => set (w3 := w2) in H end.
    destruct (saveHashes w3).
    + injection H as <-. split; [done|]. exists salt. split; [done|]. intros Hctx. exists h. split; [by apply Hh|].
      unfold knownHash, w3. cbn [Hashes_ set_Hashes]. rewrite map_app. apply elem_of_app. right. left.
    + (* the file was not saved: try again *)
      set (w4 := set_Users w3 (alter (fun u => set_salt u []) i (Users_ w3)) (usersNextUserId_ w3)) in H.
      destruct (IH w4 w' H) as (Hs & salt' & Hus & Hk).
      { exists (set_salt (set_salt u salt) []). split; [|done]. unfold w4, w3, w1. cbn [Users_ set_Users set_rand set_Hashes].
        by rewrite !list_lookup_alter_eq, Hu. }
      split; [done|]. exists salt'. split; [|done]. rewrite Hus. unfold w4, w3, w1. cbn [Users_ set_Users set_rand set_Hashes].
      by rewrite !alter_alter.
Qed.


(** *** Attempts that do not reach the password *)

(** [denies m]: if [m] returns, no session was added. *)
Definition denies {A} (m : M WebUsers A) : Prop := forall w a w', m w = (Ok a, w') -> ActiveSessions_ w' = ActiveSessions_ w.
Lemma denies_ret {A} (a : A) : denies (mret a).
Proof. by intros w a' w' [= <- <-]. Qed.
Lemma denies_throw {A} e : denies (throw e : M WebUsers A).
Proof. by intros w a w' [=]. Qed.
Lemma denies_lift {A} (r : result A) : denies (lift r).
Proof. by intros w a w' [= -> <-]. Qed.
Lemma denies_gets {A} (f : WebUsers -> A) : denies (gets f).
Proof. by intros w a w' [= <- <-]. Qed.
Lemma denies_modify f : (forall w, ActiveSessions_ (f w) = ActiveSessions_ w) -> denies (modify f).
Proof. by intros Hf w a w' [= <- <-]. Qed.
Lemma denies_bind {A B} (m : M WebUsers A) (f : A -> M WebUsers B) : denies m -> (forall a, denies (f a)) -> denies (m ≫= f).
Proof.
  intros Hm Hf w b w' H. unfold mbind, M_bind in H. destruct (m w) as [[a|e] w1] eqn:E; [|done].
  by rewrite (Hf a w1 b w' H), (Hm w a w1 E).
Qed.
Lemma denies_increment ip : denies (incrementIpBlacklistCount ip).
Proof. intros w a w' H. destruct (incrementIpBlacklistCount_frame ip w) as [ad E]. rewrite E in H. by injection H as <- <-. Qed.
#[local] Hint Resolve denies_ret denies_throw denies_lift denies_gets denies_bind denies_increment : keeps.

(** Inversion of a bind that returned. *)
Lemma attempt_inv now uuid ju jp nac ip w r w' : localOnly w -> attempt now uuid ju jp nac ip w = (Ok r, w') ->
  (forall s, s ∈ ActiveSessions_ w' -> s ∈ ActiveSessions_ w) \/
  exists user pw i u w1, reaches now uuid ju jp ip w user pw i u /\ isInactiveForGroup (permissions_ u) DEFAULT_USER_GROUP = false /\
    atPassword now i w w1 /\ check now i user pw ju nac ip w1 = (Ok r, w').
Proof.
  intros Hw H. pose proof Hw as [Hc Hr]. unfold attemptActiveSession in H.
  destruct (checkIpAccess_outcome now ip w) as [a Ea]. rewrite (bind_ok _ _ _ _ _ Ea) in H.
  destruct (ipAllowed now w ip) eqn:Hip; cbn [negb] in H; [|injection H as <- <-; by left].
  apply bind_inv in H as ([] & w1 & E1 & H). apply cleanup_cleaned in E1 as [Es Eu _ Ec _ _ Eh El].
  assert (forall s, s ∈ ActiveSessions_ w1 -> s ∈ ActiveSessions_ w) as Hsub.
  { intros s Hs. rewrite Es in Hs. by apply elem_of_liveSessions in Hs as [Hs _]. }
  rewrite (bind_ok _ _ w1 true w1) in H by (unfold gets; rewrite Ec; cbn; by rewrite Hc). cbn [negb] in H.
  apply bind_inv in H as (found & w2 & [= <- <-] & H).
  destruct (searchLoginSessionDatabaseForUUID w1 uuid) as [k|] eqn:Hk.
  2:{ left. rewrite (denies_bind _ _ (denies_increment ip) (fun _ => denies_ret _) w1 _ w' H). exact Hsub. }
  apply bind_inv in H as (logins & w2 & [= <- <-] & H). destruct (LoginSessions_ w1 !! k) as [s|] eqn:Hs; [|done].
  apply bind_inv in H as ([] & w2 & [= <-] & H). apply bind_inv in H as (user & w3 & [= Hju <-] & H).
  apply bind_inv in H as (pw & w3 & [= Hjp <-] & H). apply bind_inv in H as (account & w3 & [= Ha <-] & H).
  change (searchUsersDatabaseForUsername w1 user = account) in Ha.
  destruct account as [i|].
  2:{ left. match type of H with _ ?w0 = _ => rewrite (denies_bind _ _ (denies_increment ip) (fun _ => denies_ret _) w0 _ w' H) end. exact Hsub. }
  apply bind_inv in H as ([] & w3 & [= <-] & H). apply bind_inv in H as ([] & w3 & [= <-] & H).
  apply bind_inv in H as (u4 & w4 & E4 & H). unfold userAt in E4. cbn [Users_ set_Users] in E4.
  match type of E4 with match alter ?f i ?l !! i with _ => _ end = _ => change l with (Users_ w1) in E4 end.
  rewrite list_lookup_alter_eq, Eu in E4. cbn [Users_ set_addresses] in E4.
  destruct (Users_ w !! i) as [u|] eqn:Hu; [|done]. cbn [fmap option_fmap option_map] in E4. injection E4 as <- <-.
  cbn [permissions_ set_lastLogin] in H. destruct (isInactiveForGroup (permissions_ u) DEFAULT_USER_GROUP) eqn:Hin.
  { left. injection H as <- <-. exact Hsub. }
  right. eexists user, pw, i, u, _. split; [|split; [exact Hin|split; [|exact H]]].
  - split; [done|done| |split; [|done]].
    + exists k, s. unfold liveLogins. change (LoginSessions_ w) with (LoginSessions_ (set_addresses w a)). rewrite <- El. by split_and!.
    + unfold searchUsersDatabaseForUsername in *. by rewrite Eu in Ha.
  - split_and!; [exact Es| |exact Eh]. cbn [Users_ set_Users]. by f_equal.
Qed.


(** A session that the check of the password adds. *)
Lemma check_inv now i user pw ju nac ip w u r w' s : Users_ w !! i = Some u -> check now i user pw ju nac ip w = (Ok r, w') ->
  s ∈ ActiveSessions_ w' -> ~ s ∈ ActiveSessions_ w ->
  session_userId_ s = userId_ u /\ ip_ s = ip /\ cookieCode_ s = r.2 /\
  if textEq (salt_ u) [] then nac = getNewAccountCode u else exists h, hashOf (salt_ u) user pw = Ok h /\ knownHash w h.
Proof.
  intros Hu Hc Hs Hn.
  assert (forall code w2, ActiveSessions_ w' = ActiveSessions_ w2 ++ [mkSession code ip (userId_ u) (nextIndex (ActiveSessions_ w2) (userId_ u)) now now] ->
    r = (userId_ u, displayName_ u, code) -> ActiveSessions_ w2 = ActiveSessions_ w ->
    session_userId_ s = userId_ u /\ ip_ s = ip /\ cookieCode_ s = r.2) as Hnew.
  { intros code w2 Hw' -> Hw2. rewrite Hw', Hw2 in Hs. apply elem_of_app in Hs as [Hs|Hs]; [by destruct (Hn Hs)|].
    by apply list_elem_of_singleton in Hs as ->. }
  destruct (textEq (salt_ u) []) eqn:Hsalt.
  - unfold checkPassword in Hc. rewrite (bind_ok _ _ _ _ _ (userAt_some i w u Hu)), Hsalt in Hc.
    destruct (textEq nac (getNewAccountCode u)) eqn:Hnac; cbn [negb] in Hc; [|injection Hc as <- <-; by destruct (Hn Hs)].
    apply bind_inv in Hc as ([] & w2 & Ef & Hc). rewrite textEq_spec in Hsalt, Hnac.
    destruct (firstPassword_outcome now i user pw fuel w w2 Ef) as (Hs2 & salt & Hu2 & _); [by exists u|].
    apply bind_inv in Hc as (saved & w3 & [= <- <-] & Hc). destruct (negb (saveUsers w2)); [done|].
    assert (Users_ w2 !! i = Some (set_salt u salt)) as Hu3 by (by rewrite Hu2, list_lookup_alter_eq, Hu).
    destruct (loginSuccess_outcome rand now i ip w2 _ Hu3) as (code & w4 & E4 & Hs4 & _). rewrite E4 in Hc. injection Hc as <- <-.
    destruct (Hnew code w2 Hs4 eq_refl Hs2) as (Hid & Hip & Hcode). by split_and!.
  - assert (salt_ u <> []) as Hne by (intros E; by rewrite E in Hsalt).
    destruct (hashOf (salt_ u) user pw) as [h|e] eqn:Hh.
    2:{ unfold checkPassword in Hc. rewrite (bind_ok _ _ _ _ _ (userAt_some i w u Hu)), Hsalt in Hc.
        unfold sha512 in Hc. by rewrite Hsalt, Hh in Hc. }
    destruct (check_salted now i user pw ju nac ip w u h Hu Hne Hh) as [(Hk & code & w2 & E2 & Hs2 & _)|(Hk & w2 & E2 & Hs2 & _)];
      rewrite E2 in Hc; injection Hc as <- <-.
    + destruct (Hnew code w Hs2 eq_refl eq_refl) as (Hid & Hip & Hcode). split_and!; [done..|]. by exists h.
    + rewrite Hs2 in Hs. by destruct (Hn Hs).
Qed.

(** *** Wrong passwords *)

Lemma inactive_insert (p : gmap text Z) :
  isInactiveForGroup (<[DEFAULT_USER_GROUP := PERMISSION_LEVEL_INACTIVE]> p) DEFAULT_USER_GROUP = true.
Proof.
  enough (forall o, o = Some PERMISSION_LEVEL_INACTIVE -> (default PERMISSION_LEVEL_INACTIVE o =? PERMISSION_LEVEL_INACTIVE) = true) as H
    by (apply H; exact (lookup_insert_eq (M := gmap text) p _ _)).
  by intros o ->.
Qed.

Lemma recordFailure_count u : 0 <= loginFailureCount_ u < 254 ->
  loginFailureCount_ (recordFailure u) = loginFailureCount_ u + 2 /\
  (USERS_MAX_LOGIN_FAILURES <= loginFailureCount_ u + 2 -> isInactiveForGroup (permissions_ (recordFailure u)) DEFAULT_USER_GROUP = true) /\
  (loginFailureCount_ u + 2 < USERS_MAX_LOGIN_FAILURES -> permissions_ (recordFailure u) = permissions_ u).
Proof.
  intros Hr. unfold recordFailure. cbn zeta. rewrite (wrap_small 8 (loginFailureCount_ u + 1)) by (unfold in_range; lia).
  destruct (Z.eqb_spec (loginFailureCount_ u + 1) 255); [lia|]. cbn [negb].
  rewrite (wrap_small 8) by (unfold in_range; lia). replace (loginFailureCount_ u + 1 + 1) with (loginFailureCount_ u + 2) by lia.
  destruct (Z.leb_spec USERS_MAX_LOGIN_FAILURES (loginFailureCount_ u + 2)); split_and!; try done; intros; try lia.
  apply inactive_insert.
Qed.

(** ** Properties *)

(** C35: Nobody is logged in without the password: a session that a login attempt
    adds belongs to the account whose name was sent (jumbled with the id of an
    unexpired login session), from the address of the attempt; the account is
    not inactive, and the password sent with it hashes, with the account's salt,
    to a stored hash; if the account has no password yet, the new-account code
    was sent. *)
Theorem session_needs_password now uuid ju jp nac ip w r w' s : localOnly w ->
  attempt now uuid ju jp nac ip w = (Ok r, w') -> s ∈ ActiveSessions_ w' -> ~ s ∈ ActiveSessions_ w ->
  exists user pw i u, reaches now uuid ju jp ip w user pw i u /\ isInactiveForGroup (permissions_ u) DEFAULT_USER_GROUP = false /\
    session_userId_ s = userId_ u /\ ip_ s = ip /\ cookieCode_ s = r.2 /\
    if textEq (salt_ u) [] then nac = getNewAccountCode u
    else exists h, hashOf (salt_ u) user pw = Ok h /\ knownHash w h.
Proof.
  intros Hw H Hs Hn. destruct (attempt_inv _ _ _ _ _ _ _ _ _ Hw H) as [Hsub|(user & pw & i & u & w1 & Hreach & Hact & (Es & Eu & Eh) & Hc)].
  { by destruct (Hn (Hsub s Hs)). }
  exists user, pw, i, u. split; [done|]. split; [done|].
  assert (Users_ w1 !! i = Some (set_lastLogin u now)) as Hu1.
  { rewrite Eu, list_lookup_alter_eq. by destruct Hreach as [_ _ _ [_ ->]]. }
  apply (check_inv _ _ _ _ _ _ _ _ _ _ _ s Hu1) in Hc; [|done|].
  - unfold knownHash in *. by rewrite Eh in Hc.
  - rewrite Es. intros Hin. apply elem_of_liveSessions in Hin as [Hin _]. by destruct (Hn Hin).
Qed.

(** A login attempt for an active account with a password, on every branch: the
    right password gives the user's id and name and the cookie code of a new
    session with a chain of its own, and clears the failure count; a wrong one
    adds no session, tells nothing but the error code, counts two failures, and
    makes the account inactive when twenty are reached. *)
Theorem login_outcome now uuid ju jp nac ip w user pw i u h :
  reaches now uuid ju jp ip w user pw i u -> wellFormed w -> isInactiveForGroup (permissions_ u) DEFAULT_USER_GROUP = false ->
  salt_ u <> [] -> hashOf (salt_ u) user pw = Ok h ->
  0 <= loginFailureCount_ u < 254 -> 0 <= maxIndex (liveSessions now (ActiveSessions_ w)) (userId_ u) < 2 ^ 64 - 1 ->
  (knownHash w h -> exists code idx w' u', attempt now uuid ju jp nac ip w = (Ok (userId_ u, displayName_ u, code), w') /\
     ActiveSessions_ w' = liveSessions now (ActiveSessions_ w) ++ [mkSession code ip (userId_ u) idx now now] /\
     (forall s, s ∈ liveSessions now (ActiveSessions_ w) -> session_userId_ s = userId_ u -> sessionIndex_ s <> idx) /\
     Users_ w' !! i = Some u' /\ loginFailureCount_ u' = 0) /\
  (~ knownHash w h -> exists w' u', attempt now uuid ju jp nac ip w = (Ok (NOT_FOUND_IN_DATABASE, ju, nac), w') /\
     ActiveSessions_ w' = liveSessions now (ActiveSessions_ w) /\
     Users_ w' !! i = Some u' /\ loginFailureCount_ u' = loginFailureCount_ u + 2 /\
     (isInactiveForGroup (permissions_ u') DEFAULT_USER_GROUP = true <-> 20 <= loginFailureCount_ u')).
Proof.
  intros Hreach [Wu _ Wi] Hact Hsalt Hh Hcount Hidx.
  destruct (attempt_reaches now uuid ju jp nac ip w user pw i u Hreach Wu) as (w1 & (Es & Eu & Eh) & ->). rewrite Hact.
  assert (Users_ w1 !! i = Some (set_lastLogin u now)) as Hu1.
  { rewrite Eu, list_lookup_alter_eq. by destruct Hreach as [_ _ _ [_ ->]]. }
  assert (knownHash w1 h <-> knownHash w h) as Hk by (unfold knownHash; by rewrite Eh).
  destruct (check_salted now i user pw ju nac ip w1 _ h Hu1 Hsalt Hh) as [(Hk1 & code & w' & E & Hs & Hus)|(Hk1 & w' & E & Hs & Hus)];
    rewrite Hk in Hk1; split; intros Hk2; try done.
  - rewrite Es in Hs. exists code, (nextIndex (liveSessions now (ActiveSessions_ w)) (userId_ u)), w', (resetFailures (set_lastLogin u now)).
    split_and!; [exact E|exact Hs| |by rewrite Hus, list_lookup_alter_eq, Hu1|].
    + intros s Hin Huid. apply nextIndex_fresh; [done| |done|done].
      intros s' Hs'. apply elem_of_liveSessions in Hs' as [Hs' _]. by apply Wi.
    + unfold resetFailures. destruct (Z.eqb_spec (loginFailureCount_ (set_lastLogin u now)) 0); done.
  - exists w', (recordFailure (set_lastLogin u now)). rewrite Es in Hs.
    destruct (recordFailure_count (set_lastLogin u now) Hcount) as (Hc1 & Hc2 & Hc3).
    split_and!; [exact E|exact Hs|by rewrite Hus, list_lookup_alter_eq, Hu1|exact Hc1|]. rewrite Hc1. split.
    + intros Hin. destruct (Z.le_gt_cases 20 (loginFailureCount_ (set_lastLogin u now) + 2)); [done|].
      rewrite Hc3 in Hin by (unfold USERS_MAX_LOGIN_FAILURES; lia). cbn [permissions_ set_lastLogin] in Hin. congruence.
    + intros Hge. by apply Hc2.
Qed.

(** The first password of an account is accepted from then on: after it was set
    (with a hash nobody has yet), the account has a salt, and with it the same
    user name and password hash to a stored hash; no session is changed. *)
Theorem first_password_accepted now i user pw w u :
  Users_ w !! i = Some u -> salt_ u = [] -> (0 < contextSize)%nat ->
  (forall ns, length (contextOf ns) = contextSize /\ Forall (fun b => in_range 8 b) (contextOf ns)) ->
  (forall w, saveHashes w = true) -> (forall salt h, hashOf salt user pw = Ok h -> ~ knownHash w h) ->
  exists w' u' h, firstPassword rand contextSize contextOf digest saveHashes (S fuel) now i user pw w = (Ok tt, w') /\
    Users_ w' !! i = Some u' /\ salt_ u' <> [] /\ hashOf (salt_ u') user pw = Ok h /\ knownHash w' h /\
    ActiveSessions_ w' = ActiveSessions_ w.
Proof.
  intros Hu Hsalt Hpos Hctx Hsave Hfresh. cbn [firstPassword].
  rewrite (bind_ok _ _ _ _ _ (userAt_some i w u Hu)), Hsalt.
  destruct (sha512_new user pw w) as (h & salt & n & E & Hh). rewrite (bind_ok _ _ _ _ _ E). cbn [fst snd]. specialize (Hh Hctx).
  set (w1 := set_Users (set_rand w n) (alter (fun u => set_salt u salt) i (Users_ w)) (usersNextUserId_ w)).
  rewrite (bind_ok _ _ (set_rand w n) tt w1) by done.
  destruct (searchHashes_outcome rand now h w1) as (n2 & l & E2).
  pose proof (knownHash_search w1 h) as Hk. destruct (search _ (Hashes_ w1)) as [k|]; [by destruct (Hfresh salt h Hh)|].
  unfold addToHashesDatabase. unfold mbind at 1 2, M_bind at 1 2. rewrite (bind_ok _ _ _ _ _ E2).
  unfold mbind, M_bind, drawTime, modify, gets. cbn. rewrite Hsave.
  exists (set_Hashes (set_rand (set_rand (set_Hashes w1 l) n2) (n2 + 2)) (l ++ [mkHash h (blurredTime now (rand n2) (rand (n2 + 1)%nat))])),
    (set_salt u salt), h.
  split_and!; [done|unfold w1; cbn [Users_ set_Users set_Hashes set_rand]; by rewrite list_lookup_alter_eq, Hu| |exact Hh| |done].
  - intros Es. cbn [salt_ set_salt] in Es. subst salt. unfold passwordHash in Hh. by rewrite contextBytes_nil in Hh.
  - unfold knownHash. cbn [Hashes_ set_Hashes]. rewrite map_app. apply elem_of_app. right. left.
Qed.

End Outcomes.

(** ** Instances *)

(** A context of 256 bytes and a digest that is the length of the text. *)
Definition exampleContext (ns : list Z) : list Z := map (fun i => i mod 256) (seqZ 0 256).
Definition exampleDigest (context : list Z) (t : text) : list Z := [Z.of_nat (length t) mod 256; Z.of_nat (length context) mod 256].
Definition exampleRand (i : nat) : Z := Z.of_nat i.
Definition exampleSalt : text := hexText (exampleContext []).
Definition exampleHash (pw : text) : text :=
  match passwordHash 256 exampleDigest exampleSalt (txt "bob") pw with Ok h => h | Throw _ => [] end.
Definition exampleAccounts :=
  [exampleUser "admin" 0 255;
   set_failures (set_salt (exampleUser "bob" 7 1) exampleSalt) 18].
Definition exampleLogins :=
  set_Hashes (set_LoginSessions (set_Users exampleWeb exampleAccounts 8)
    [mkLogin (hexText exampleSession) (txt "browser") (txt "10.0.0.7") 1150 0]) [mkHash (exampleHash (txt "secret")) 0].
Definition sent (t : text) : text := hexText (jumble exampleSession t).
Abbreviation exampleAttempt pw :=
  (attemptActiveSession exampleRand 256 exampleContext exampleDigest (fun _ => true) (fun _ => true) 5
    1200 (txt "browser") (sent (txt "bob")) (sent pw) (txt "") (txt "10.0.0.7") exampleLogins).

Lemma exampleLogins_reaches pw : dejumble (sent pw) (hexText exampleSession) = Ok pw ->
  reaches 1200 (txt "browser") (sent (txt "bob")) (sent pw) (txt "10.0.0.7") exampleLogins (txt "bob") pw 1
    (set_failures (set_salt (exampleUser "bob" 7 1) exampleSalt) 18).
Proof.
  intros Hpw. split; [split; reflexivity|by vm_compute| |split; [by vm_compute|reflexivity]].
  exists 0%nat, (mkLogin (hexText exampleSession) (txt "browser") (txt "10.0.0.7") 1150 0).
  split; [by vm_compute|]. split; [by vm_compute|]. split; [by vm_compute|exact Hpw].
Qed.

Lemma exampleLogins_wellFormed : wellFormed exampleLogins.
Proof.
  split.
  - intros s Hs. repeat (apply elem_of_cons in Hs as [->|Hs]; [by vm_compute|]). by apply elem_of_nil in Hs.
  - apply (wf_cookies _ exampleWeb_wellFormed).
  - apply (wf_index _ exampleWeb_wellFormed).
Qed.

(** The tenth wrong password in a row (18 failures counted before). *)
Lemma login_outcome_witness : exists w' u', exampleAttempt (txt "wrong!!") = (Ok (NOT_FOUND_IN_DATABASE, sent (txt "bob"), txt ""), w') /\
  Users_ w' !! 1%nat = Some u' /\ isInactiveForGroup (permissions_ u') DEFAULT_USER_GROUP = true.
Proof.
  destruct (login_outcome exampleRand 256 exampleContext exampleDigest (fun _ => true) (fun _ => true) 5
    1200 (txt "browser") (sent (txt "bob")) (sent (txt "wrong!!")) (txt "") (txt "10.0.0.7") exampleLogins (txt "bob") (txt "wrong!!") 1
    (set_failures (set_salt (exampleUser "bob" 7 1) exampleSalt) 18) (exampleHash (txt "wrong!!"))) as [_ Hwrong].
  - apply exampleLogins_reaches. by vm_compute.
  - apply exampleLogins_wellFormed.
  - by vm_compute.
  - by vm_compute.
  - by vm_compute.
  - cbn; lia.
  - vm_compute. split; congruence.
  - destruct Hwrong as (w' & u' & E & _ & Hu & Hc & Hi).
    { unfold knownHash. apply (bool_decide_unpack _). by vm_compute. }
    exists w', u'. split; [exact E|]. split; [exact Hu|]. apply Hi. rewrite Hc. cbn. lia.
Defined.

Lemma session_needs_password_witness : exists r w' s, exampleAttempt (txt "secret") = (Ok r, w') /\
  s ∈ ActiveSessions_ w' /\ session_userId_ s = 7.
Proof.
  assert (is_ok (exampleAttempt (txt "secret")).1 = true) as Hok by by vm_compute.
  assert (existsb (fun s => textEq (ip_ s) (txt "10.0.0.7") && (session_userId_ s =? 7))
    (ActiveSessions_ (exampleAttempt (txt "secret")).2) = true) as Hs by by vm_compute.
  apply existsb_exists in Hs as (s & Hs & Hp). apply list_elem_of_In in Hs. apply andb_prop in Hp as [Hip Hid].
  apply textEq_spec in Hip. apply Z.eqb_eq in Hid.
  destruct (exampleAttempt (txt "secret")) as [[r|e] w'] eqn:E; [|discriminate Hok]. exists r, w', s. split; [reflexivity|].
  split; [exact Hs|].
  cbn [snd] in Hs.
  destruct (session_needs_password exampleRand 256 exampleContext exampleDigest (fun _ => true) (fun _ => true) 5 1200 (txt "browser")
    (sent (txt "bob")) (sent (txt "secret")) (txt "") (txt "10.0.0.7") exampleLogins r w' s (conj eq_refl eq_refl) E Hs) as (user & pw & i & u & _ & _ & Hu & _).
  { intros Hin. repeat (apply elem_of_cons in Hin as [->|Hin]; [discriminate Hip|]). by apply elem_of_nil in Hin. }
  exact Hid.
Defined.

Lemma first_password_accepted_witness : exists w' u',
  firstPassword exampleRand 256 exampleContext exampleDigest (fun _ => true) 1 1200 1 (txt "bob") (txt "new") exampleWeb = (Ok tt, w') /\
  Users_ w' !! 1%nat = Some u' /\ salt_ u' <> [].
Proof.
  destruct (first_password_accepted exampleRand 256 exampleContext exampleDigest (fun _ => true) 0 1200 1 (txt "bob") (txt "new") exampleWeb
    (exampleUser "bob" 7 1)) as (w' & u' & h & E & Hu & Hs & _).
  - reflexivity.
  - reflexivity.
  - lia.
  - intros ns. split; [reflexivity|]. apply (bool_decide_unpack _). by vm_compute.
  - done.
  - intros salt h _ H. by apply elem_of_nil in H.
  - exists w', u'. split_and!; assumption.
Defined.

(** Ten wrong passwords lock an account, not twenty. *)
Lemma ten_wrong_passwords_lock : forall u, loginFailureCount_ u = 0 -> isInactiveForGroup (permissions_ u) DEFAULT_USER_GROUP = false ->
  isInactiveForGroup (permissions_ (Nat.iter 9 recordFailure u)) DEFAULT_USER_GROUP = false /\
  isInactiveForGroup (permissions_ (recordFailure (Nat.iter 9 recordFailure u))) DEFAULT_USER_GROUP = true.
Proof.
  intros u Hu Ha.
  assert (forall k, (k <= 9)%nat -> loginFailureCount_ (Nat.iter k recordFailure u) = 2 * Z.of_nat k /\
    permissions_ (Nat.iter k recordFailure u) = permissions_ u) as H.
  { induction k as [|k IH]; intros Hk; [split; [exact Hu|reflexivity]|]. destruct IH as [Hc Hp]; [lia|].
    change (Nat.iter (S k) recordFailure u) with (recordFailure (Nat.iter k recordFailure u)).
    destruct (recordFailure_count (Nat.iter k recordFailure u)) as (H1 & _ & H3); [lia|].
    split; [lia|]. rewrite <- Hp. apply H3. unfold USERS_MAX_LOGIN_FAILURES. lia. }
  destruct (H 9%nat ltac:(lia)) as [Hc Hp]. split; [by rewrite Hp|].
  destruct (recordFailure_count (Nat.iter 9 recordFailure u)) as (_ & H2 & _); [lia|]. apply H2. unfold USERS_MAX_LOGIN_FAILURES. lia.
Qed.

End Login.
