(* ===== verification/Accounts.v ===== *)
(** * Accounts

    src/otsdaq/WebUsersUtilities/WebUsers.cc: creating, deleting and modifying
    accounts ([createNewAccount], [deleteAccount], [modifyAccountSettings]), the
    choice of the security mode ([loadSecuritySelection]) and the lists of the
    users that are logged in.

    The state is the [WebUsers] record; the time and the clock that a call reads
    are arguments.  Whether the account file can be written, the first line of
    the security file and the environment that permission strings are expanded
    with are parameters. *)

From S2P Require Import Prelude CText StringMacros StringLists StringExpansion WebUsers Login.

Module Accounts.
Import WebUsers Login.

Definition MOD_TYPE_UPDATE : Z := 0.
Definition MOD_TYPE_ADD : Z := 1.
Definition MOD_TYPE_DELETE : Z := 2.
Definition SECURITY_TYPE_NONE : text := txt "NoSecurity".
Definition SECURITY_TYPE_DIGEST_ACCESS : text := txt "DigestAccessAuthentication".
Definition SECURITY_TYPE_DEFAULT : text := SECURITY_TYPE_NONE.
Definition DEFAULT_ADMIN_DISPLAY_NAME : text := txt "Administrator".

Section Accounts.
Variable saveUsers : WebUsers -> bool.
(** The first line of the security file, empty without a file. *)
Variable securityLine : text.
(** For the expansion of permission strings. *)
Variables (getenv : text -> option text) (systemVariables_ : gmap text (gmap text text)) (expansionFuel : nat).

(** ** The security mode *)

Definition alphabetic (c : ascii) : bool := between 65 122 c.
Fixpoint leading (p : ascii -> bool) (s : text) : text :=
  match s with
  | c :: s => if p c then c :: leading p s else []
  | [] => []
  end.
(** [fgets(line, 100, fp)] reads at most 99 characters. *)
Definition selectedSecurity : text :=
  let line := leading alphabetic (take 99 securityLine) in
  if textEq line SECURITY_TYPE_NONE || textEq line SECURITY_TYPE_DIGEST_ACCESS then line else SECURITY_TYPE_DEFAULT.
Definition set_care w care :=
  mkWeb (LoginSessions_ w) (ActiveSessions_ w) (RemoteSessions_ w) (Users_ w) (usersNextUserId_ w) (usersUsernameWithLock_ w)
    (UsersLoggedOutUsernames_ w) (Hashes_ w) (addresses w) care (ipBlacklistEnabled_ w)
    (remoteLoginVerificationEnabled_ w) (remoteLoginVerificationEnabledBlackoutTime_ w) (randPosition w).
Definition loadSecuritySelection : M WebUsers unit := modify (fun w =>
  let w := set_care w (negb (textEq selectedSecurity SECURITY_TYPE_NONE)) in
  set_addresses w (loadIPAddressSecurity (addresses w))).

(** ** createNewAccount and deleteAccount *)

Definition set_creation u t := mkUser (username_ u) (email_ u) (displayName_ u) (salt_ u) (permissions_ u) (userId_ u) (lastLoginAttempt_ u)
  t (loginFailureCount_ u) (lastModifierUsername_ u) (lastModifierTime_ u).
Definition set_names u displayName email := mkUser (username_ u) email displayName (salt_ u) (permissions_ u) (userId_ u)
  (lastLoginAttempt_ u) (accountCreationTime_ u) (loginFailureCount_ u) (lastModifierUsername_ u) (lastModifierTime_ u).
Definition setModifier u (modifierUsername : text) (stamp : Z) := mkUser (username_ u) (email_ u) (displayName_ u) (salt_ u)
  (permissions_ u) (userId_ u) (lastLoginAttempt_ u) (accountCreationTime_ u) (loginFailureCount_ u) modifierUsername stamp.
(** [time(0)*100000 + (clock()%100000)] *)
Definition modifierStamp (now clock : Z) : Z := now * 100000 + Z.rem clock 100000.

Definition found (o : option nat) : bool := match o with Some _ => true | None => false end.

(** The size is taken after the new account was appended. *)
Definition createNewAccount (now clock : Z) (username displayName email : text) : M WebUsers unit :=
  w ← gets id;
  if found (searchUsersDatabaseForUsername w username) || textEq username DEFAULT_ITERATOR_USERNAME
     || textEq username DEFAULT_STATECHANGER_USERNAME then throw RuntimeError
  else if found (searchUsersDatabaseForDisplayName w displayName) then throw RuntimeError
  else
    let level := if (length (Users_ w) + 1 =? 0)%nat then PERMISSION_LEVEL_ADMIN else PERMISSION_LEVEL_NOVICE in
    let u := mkUser username email displayName [] {[ DEFAULT_USER_GROUP := level ]} (usersNextUserId_ w) 0 0 0 [] (modifierStamp now clock) in
    let next := u64 (usersNextUserId_ w + 1) in
    modify (fun w => set_Users w (Users_ w ++ [u]) next) ≫= fun _ =>
    if ACCOUNT_ERROR_THRESHOLD <=? next then throw RuntimeError
    else
      updateUser (length (Users_ w)) (fun u => set_creation u now) ≫= fun _ =>
      saved ← gets saveUsers;
      if negb saved then throw RuntimeError else mret tt.

Definition deleteAccount (username displayName : text) : M WebUsers bool :=
  found ← gets (fun w => searchUsersDatabaseForUsername w username);
  match found with
  | None => mret false
  | Some i =>
      u ← userAt i;
      if negb (textEq (displayName_ u) displayName) then mret false
      else
        modify (fun w => set_Users w (delete i (Users_ w)) (usersNextUserId_ w)) ≫= fun _ =>
        gets saveUsers
  end.

(** ** Permission strings *)

(** [validateValueForDefaultStringDataType<uint8_t>] *)
Definition validateLevel (value : text) : result Z :=
  data ← StringExpansion.convertEnvironmentVariables getenv systemVariables_ expansionFuel value;
  number ← StringLists.getNumber (fun z => Some (u8 z)) data;
  match number with
  | None => Throw Undefined
  | Some (false, _) => Throw RuntimeError
  | Some (true, level) => Ok level
  end.
Definition permissionsFromString (s : text) : result (list (text * Z)) :=
  StringLists.getMapFromStringT validateLevel s (txt ",|&") (txt "=:") StringLists.ws_default [].
Definition atoi (s : text) : Z := s32 (StringLists.strtol (c_str s) 10).

Definition newPermissions (old : permissions) (s : text) : result permissions :=
  newPermissionsMap ← permissionsFromString s;
  Ok match newPermissionsMap with
     | [] => <[DEFAULT_USER_GROUP := u8 (atoi s)]> old
     | [(group, level)] =>
         if textEq group DEFAULT_USER_GROUP then {[ group := level ]}
         else if textEq group [] then <[DEFAULT_USER_GROUP := level]> old
         else <[DEFAULT_USER_GROUP := level]> {[ group := level ]}
     | l => list_to_map l
     end.

(** ** modifyAccountSettings *)

(** An account that becomes active again starts without a password. *)
Definition reactivate (wasInactive : bool) u : User :=
  if wasInactive && negb (isInactiveForGroup (permissions_ u) DEFAULT_USER_GROUP) then set_salt (set_failures u 0) [] else u.

(** The display name is compared with those of the other accounts. *)
Definition displayNameTaken (l : list User) (modi : nat) (displayname : text) : bool :=
  existsb (fun p => negb (p.1 =? modi)%nat && textEq (displayName_ p.2) displayname) (imap pair l).

(** Names and e-mail are changed before the permissions are read. *)
Definition updateAccount (now clock : Z) (i modi : nat) (displayname email permissions : text) : M WebUsers unit :=
  w ← gets id;
  if displayNameTaken (Users_ w) modi displayname then throw RuntimeError
  else
    updateUser modi (fun u => set_names u displayname email) ≫= fun _ =>
    u ← userAt modi;
    newPermissionsMap ← lift (newPermissions (permissions_ u) permissions);
    updateUser modi (fun u => reactivate (isInactiveForGroup (permissions_ u) DEFAULT_USER_GROUP) (set_permissions u newPermissionsMap)) ≫= fun _ =>
    actor ← userAt i;
    updateUser modi (fun u => setModifier u (username_ actor) (modifierStamp now clock)).

(** The commands, for the indices of the acting account and of the account;
    [again] is the recursive call.  An acting account that is not found has no
    permissions, so the branches for it are never taken. *)
Definition modifyByCommand (again : M WebUsers unit) (now clock : Z) (cmd_type : Z) (username displayname email permissions : text)
    (i modi : option nat) : M WebUsers unit :=
  if (length username <? USERNAME_LENGTH)%nat then throw RuntimeError
  else if (length displayname <? DISPLAY_NAME_LENGTH)%nat then throw RuntimeError
  else if cmd_type =? MOD_TYPE_UPDATE then
    match modi, i with
    | None, _ | _, None => throw RuntimeError
    | Some modi, Some i => updateAccount now clock i modi displayname email permissions ≫= fun _ => loadSecuritySelection
    end
  else if cmd_type =? MOD_TYPE_ADD then
    createNewAccount now clock username displayname email ≫= fun _ =>
    match i with
    | None => throw RuntimeError
    | Some i =>
        actor ← userAt i;
        last ← gets (fun w => length (Users_ w) - 1)%nat;
        updateUser last (fun u => setModifier u (username_ actor) (modifierStamp now clock)) ≫= fun _ =>
        if (0 <? length permissions)%nat then again else loadSecuritySelection
    end
  else if cmd_type =? MOD_TYPE_DELETE then deleteAccount username displayname ≫= fun _ => loadSecuritySelection
  else throw RuntimeError.

(** The account at index 0 can only be reset, and only by itself. *)
Definition modifyWith (again : M WebUsers unit) (now clock : Z) (actingUid cmd_type : Z)
    (username displayname email permissions : text) : M WebUsers unit :=
  w ← gets id;
  if negb (isAdminForGroup (getPermissionsForUser w actingUid) DEFAULT_USER_GROUP) then throw RuntimeError
  else
    let i := searchUsersDatabaseForUserId w actingUid in
    let modi := searchUsersDatabaseForUsername w username in
    if bool_decide (modi = Some 0%nat) then
      if bool_decide (i = Some 0%nat) then
        actor ← userAt 0;
        updateUser 0 (fun u => set_failures (set_salt (setModifier u (username_ actor) (modifierStamp now clock)) []) 0)
      else throw RuntimeError
    else modifyByCommand again now clock cmd_type username displayname email permissions i modi.

(** An addition with permissions is followed by an update, which goes no
    further. *)
Definition modifyAccountSettings (now clock : Z) (actingUid cmd_type : Z) (username displayname email permissions : text) : M WebUsers unit :=
  modifyWith (modifyWith (throw Undefined) now clock actingUid MOD_TYPE_UPDATE username displayname email permissions)
    now clock actingUid cmd_type username displayname email permissions.

(** ** Who is logged in *)

(** [std::set<unsigned int>]: the indices in increasing order; an account that
    is not found is [unsigned int(-1)]. *)
Definition sessionUser w (s : ActiveSession) : Z :=
  match searchUsersDatabaseForUserId w (session_userId_ s) with Some i => u32 (Z.of_nat i) | None => u32 NOT_FOUND_IN_DATABASE end.
Fixpoint insertSorted (z : Z) (l : list Z) : list Z :=
  match l with
  | [] => [z]
  | a :: l' => if z <? a then z :: l else if z =? a then l else a :: insertSorted z l'
  end.
Definition activeUserIndices w : list Z :=
  fold_left (fun l s => insertSorted (sessionUser w s) l) (ActiveSessions_ w ++ (map_to_list (RemoteSessions_ w)).*2) [].

Definition getActiveUserCount w : nat := length (activeUserIndices w).

(** The names of the indices that are accounts, with a comma between them. *)
Definition namesOf (field : User -> text) w (indices : list Z) : text :=
  StringLists.join (txt ",") true (omap (fun i => field <$> (Users_ w !! Z.to_nat i)) indices).
Definition activeNames (field : User -> text) (default : text) w : text :=
  let indices := activeUserIndices w in
  namesOf field w indices ++ if (length indices =? 0)%nat && negb (CareAboutCookieCodes_ w) then default else [].
Definition getActiveUserDisplayNamesString w : text := activeNames displayName_ DEFAULT_ADMIN_DISPLAY_NAME w.
Definition getActiveUsernamesString w : text := activeNames username_ DEFAULT_ADMIN_USERNAME w.
End Accounts.

(** ** Ranges of what permission strings give *)

Lemma applyOp_range op a b v : StringLists.applyOp (fun z => Some (u8 z)) op a b = Some v -> in_range 8 v.
Proof.
  unfold StringLists.applyOp. repeat case_match; intros; simplify_eq; by apply wrap_range.
Qed.
Lemma evalLoop_range numbers : forall ops first v b v',
  in_range 8 v -> StringLists.evalLoop (fun z => Some (u8 z)) numbers ops first v = Some (b, v') -> in_range 8 v'.
Proof.
  induction numbers as [|n numbers IH]; intros ops first v b v' Hv; cbn [StringLists.evalLoop]; [by intros [= <- <-]|].
  destruct (bool_decide (n = [])); [by apply IH|]. destruct (negb _); [by intros [= <- <-]|].
  cbn [mbind option_bind]. destruct first; [by apply IH, wrap_range|].
  destruct ops as [|op ops]; [done|]. destruct (StringLists.applyOp _ _ _ _) as [r|] eqn:E; [|done].
  cbn [mbind option_bind]. by eapply IH, applyOp_range.
Qed.

Section Ranges.
Context {V : Type} (Q : V -> Prop) (validate : text -> result V).
Hypothesis validate_range : forall s v, validate s = Ok v -> Q v.

Lemma emplacePair_range (m : list (text * V)) name v :
  Forall (fun p => Q p.2) m -> Q v -> Forall (fun p => Q p.2) (StringLists.emplacePair m name v).
Proof.
  intros Hm Hv. unfold StringLists.emplacePair. case_bool_decide; [done|]. apply Forall_app. split; [done|]. by apply Forall_singleton.
Qed.
Lemma mapLoop_range input d1 d2 ws rest : forall i j name nv (m : list (text * V)) i' j' name' nv' m',
  Forall (fun p => Q p.2) m -> StringLists.mapLoop validate input d1 d2 ws rest i j name nv m = Ok (i', j', name', nv', m') ->
  Forall (fun p => Q p.2) m'.
Proof.
  induction rest as [|c rest IH]; intros i j name nv m i' j' name' nv' m' Hm; cbn [StringLists.mapLoop].
  - by intros [= <- <- <- <- <-].
  - destruct (negb nv); repeat (case_match; [by apply IH|]); try by apply IH.
    case_match; [|by apply IH].
    destruct (validate _) as [v|e] eqn:E; cbn [mbind result_bind]; [|done].
    apply IH. apply emplacePair_range; [done|]. by eapply validate_range.
Qed.
Lemma getMapFromStringT_range input d1 d2 ws m : StringLists.getMapFromStringT validate input d1 d2 ws [] = Ok m ->
  Forall (fun p => Q p.2) m.
Proof.
  unfold StringLists.getMapFromStringT. destruct (StringLists.mapLoop _ _ _ _ _ _ _ _ _ _ _) as [[[[[i j] name] nv] l]|e] eqn:E; [|done].
  apply mapLoop_range in E; [|by constructor]. cbn [mbind result_bind]. case_match; [by intros [= <-]|].
  destruct (validate _) as [v|e] eqn:Ev; cbn [mbind result_bind]; [|done]. intros [= <-].
  apply emplacePair_range; [done|]. by eapply validate_range.
Qed.
End Ranges.

Definition levelsInRange (p : permissions) : Prop := map_Forall (fun _ l => in_range 8 l) (p : gmap text Z).

Lemma levelsInRange_insert (p : permissions) g l : levelsInRange p -> in_range 8 l -> levelsInRange (<[g := l]> (p : gmap text Z)).
Proof. intros Hp Hl. by apply map_Forall_insert_2. Qed.
Lemma levelsInRange_singleton g l : in_range 8 l -> levelsInRange {[ g := l ]}.
Proof. intros Hl. by apply map_Forall_singleton. Qed.

Lemma validateLevel_range getenv vars fuel s v : validateLevel getenv vars fuel s = Ok v -> in_range 8 v.
Proof.
  unfold validateLevel. destruct (StringExpansion.convertEnvironmentVariables _ _ _ _) as [d|e]; [|done]. cbn [mbind result_bind].
  unfold StringLists.getNumber. destruct (StringLists.splitNumbers d) as [[ns ops]|e]; [|done]. cbn [mbind result_bind].
  destruct (StringLists.unaryLoop _ _ _ _ _) as [ns' ops']. cbn [mbind result_bind].
  destruct (StringLists.evalLoop _ _ _ _ _) as [[[] v']|] eqn:E; [|done|done]. intros [= <-]. by eapply evalLoop_range; [|exact E].
Qed.

Lemma newPermissions_range getenv vars fuel old s p :
  levelsInRange old -> newPermissions getenv vars fuel old s = Ok p -> levelsInRange p.
Proof.
  intros Hold. unfold newPermissions, permissionsFromString.
  destruct (StringLists.getMapFromStringT _ _ _ _ _ _) as [m|e] eqn:E; [|done]. cbn [mbind result_bind]. intros [= <-].
  apply (getMapFromStringT_range (in_range 8)) in E; [|by apply validateLevel_range].
  destruct m as [|[g l] m].
  - apply levelsInRange_insert; [done|]. by apply wrap_range.
  - inversion E as [|? ? Hl Hm]; subst. cbn in Hl. destruct m as [|gl m].
    + repeat case_match; auto using levelsInRange_insert, levelsInRange_singleton.
    + intros g' l' Hg. apply elem_of_list_to_map_2 in Hg.
      by apply (proj1 (Forall_forall _ _) E) in Hg.
Qed.

(** ** The table of accounts *)

(** Every account has numbers of its type, and an identity of its own: user
    name, display name and user id occur once, and the ids are below the next
    one. *)
Definition userTyped (next : Z) (u : User) : Prop :=
  0 <= userId_ u < next /\ levelsInRange (permissions_ u) /\ in_range 8 (loginFailureCount_ u).
Record accountsWellFormed w : Prop := mkAccounts {
  aw_usernames : NoDup (map username_ (Users_ w));
  aw_displayNames : NoDup (map displayName_ (Users_ w));
  aw_ids : NoDup (map userId_ (Users_ w));
  aw_typed : Forall (userTyped (usersNextUserId_ w)) (Users_ w);
  aw_next : 0 <= usersNextUserId_ w;
}.

(** What later states keep of the state [w0]: an account with an old id has the
    old user name, and no session is touched. *)
Definition identitiesFrom w0 w : Prop :=
  usersNextUserId_ w0 <= usersNextUserId_ w /\ ActiveSessions_ w = ActiveSessions_ w0 /\
  forall u, u ∈ Users_ w -> userId_ u < usersNextUserId_ w0 ->
    exists u0, u0 ∈ Users_ w0 /\ userId_ u0 = userId_ u /\ username_ u0 = username_ u.

(** The invariant of a run from [w0] that has used the ids below [k]. *)
Definition accountsInv w0 (k : Z) w : Prop := accountsWellFormed w /\ identitiesFrom w0 w /\ usersNextUserId_ w <= k.

Lemma identitiesFrom_refl w : identitiesFrom w w.
Proof. split_and!; [lia|done|]. intros u Hu _. by exists u. Qed.

Lemma identitiesFrom_trans w0 w1 w2 : identitiesFrom w0 w1 -> identitiesFrom w1 w2 -> identitiesFrom w0 w2.
Proof.
  intros (Hn1 & Ha1 & Hu1) (Hn2 & Ha2 & Hu2). split_and!; [lia|congruence|].
  intros u Hu Hlt. destruct (Hu2 u Hu) as (u1 & H1 & Hi1 & Hs1); [lia|].
  destruct (Hu1 u1 H1) as (u0 & H0 & Hi0 & Hs0); [lia|]. exists u0. split_and!; [done|congruence..].
Qed.

Lemma map_alter {A B} (k : A -> B) f (i : nat) (l : list A) : (forall a, l !! i = Some a -> k (f a) = k a) -> map k (alter f i l) = map k l.
Proof.
  revert i. induction l as [|a l IH]; intros [|i] H; try done.
  - change (k (f a) :: map k l = k a :: map k l). f_equal. by apply H.
  - change (k a :: map k (alter f i l) = k a :: map k l). f_equal. by apply IH.
Qed.
Lemma elem_of_alter {A} (f : A -> A) (i : nat) (l : list A) a : a ∈ alter f i l -> a ∈ l \/ exists b, l !! i = Some b /\ a = f b.
Proof.
  intros [j Hj]%list_elem_of_lookup. destruct (decide (i = j)) as [->|Hne].
  - rewrite list_lookup_alter_eq in Hj. destruct (l !! j) as [b|] eqn:Hb; [|done]. injection Hj as <-. right. by exists b.
  - rewrite list_lookup_alter_ne in Hj by done. left. by eapply list_elem_of_lookup_2.
Qed.

(** *** Changing one account *)

(** A change of the account at [i] that keeps its identity and types, and
    gives it a display name that no other account has. *)
Lemma updateUser_inv w0 k i f w :
  (forall u, Users_ w !! i = Some u -> username_ (f u) = username_ u /\ userId_ (f u) = userId_ u /\
     (levelsInRange (permissions_ u) -> levelsInRange (permissions_ (f u))) /\
     (in_range 8 (loginFailureCount_ u) -> in_range 8 (loginFailureCount_ (f u)))) ->
  NoDup (map displayName_ (alter f i (Users_ w))) ->
  accountsInv w0 k w -> accountsInv w0 k (updateUser i f w).2.
Proof.
  intros Hf Hd ([Hn _ Hi Ht Hz] & (Hle & Ha & Hu) & Hk). cbn [updateUser modify snd]. split; [|split; [|exact Hk]].
  - split; cbn [Users_ set_Users usersNextUserId_]; [|exact Hd| | |exact Hz].
    + rewrite map_alter; [done|]. intros u Hui. by apply Hf.
    + rewrite map_alter; [done|]. intros u Hui. by apply Hf.
    + apply Forall_forall. intros u Hin. rewrite Forall_forall in Ht.
      apply elem_of_alter in Hin as [Hin|(b & Hb & ->)]; [by apply Ht|].
      destruct (Hf b Hb) as (_ & Hid & Hl & Hc). destruct (Ht b) as (H1 & H2 & H3); [by eapply list_elem_of_lookup_2|].
      unfold userTyped. rewrite Hid. split; [exact H1|]. split; auto.
  - split_and!; [done|done|]. cbn [Users_ set_Users]. intros u Hin Hlt.
    apply elem_of_alter in Hin as [Hin|(b & Hb & ->)]; [by apply Hu|].
    destruct (Hf b Hb) as (Hn' & Hid & _). destruct (Hu b) as (u0 & H0 & H1 & H2).
    { by eapply list_elem_of_lookup_2. } { lia. }
    exists u0. by rewrite Hid, Hn'.
Qed.

(** A change of what does not identify an account. *)
Lemma keeps_updateUser w0 k i f :
  (forall u, username_ (f u) = username_ u /\ displayName_ (f u) = displayName_ u /\ userId_ (f u) = userId_ u /\
     (levelsInRange (permissions_ u) -> levelsInRange (permissions_ (f u))) /\
     (in_range 8 (loginFailureCount_ u) -> in_range 8 (loginFailureCount_ (f u)))) ->
  keeps (accountsInv w0 k) (updateUser i f).
Proof.
  intros Hf w Hw. apply updateUser_inv; [|by rewrite map_alter; [apply Hw|intros; apply Hf]|done].
  intros u _. by destruct (Hf u) as (? & ? & ? & ? & ?).
Qed.

Lemma keeps_userAt {P : WebUsers -> Prop} i : keeps P (userAt i).
Proof. intros w Hw. unfold userAt. by destruct (Users_ w !! i). Qed.

Lemma keeps_loadSecuritySelection w0 k line : keeps (accountsInv w0 k) (loadSecuritySelection line).
Proof. intros w ([? ? ? ? ?] & ? & ?). split; [by split|by split]. Qed.

(** *** The display name of an update is free *)

Lemma displayNameTaken_false l modi d : displayNameTaken l modi d = false <->
  forall j u, l !! j = Some u -> j <> modi -> displayName_ u <> d.
Proof.
  unfold displayNameTaken. split.
  - intros H j u Hj Hne Hd. rewrite <- not_true_iff_false, existsb_exists in H. destruct H.
    exists (j, u). split.
    + apply list_elem_of_In, elem_of_lookup_imap. by exists j, u.
    + cbn [fst snd]. rewrite Hd, textEq_refl. by destruct (Nat.eqb_spec j modi).
  - intros H. apply not_true_iff_false. rewrite existsb_exists. intros ([j u] & Hin & Hp).
    apply list_elem_of_In, elem_of_lookup_imap in Hin as (j' & u' & [= <- <-] & Hj). cbn in Hp.
    apply andb_prop in Hp as [Hne Hd]. apply textEq_spec in Hd. apply (H j u Hj); [|done].
    intros ->. by rewrite Nat.eqb_refl in Hne.
Qed.

Lemma NoDup_alter {A} (k : A -> text) f (i : nat) (l : list A) d : NoDup (map k l) -> (forall a, k (f a) = d) ->
  (forall j a, l !! j = Some a -> j <> i -> k a <> d) -> NoDup (map k (alter f i l)).
Proof.
  intros Hn Hd Hfree. apply NoDup_alt. intros j1 j2 x H1 H2.
  change (map k (alter f i l)) with (k <$> alter f i l) in H1, H2. rewrite list_lookup_fmap in H1, H2.
  destruct (decide (j1 = i)) as [->|N1]; destruct (decide (j2 = i)) as [->|N2]; [done|exfalso..|].
  - rewrite list_lookup_alter_eq in H1. rewrite list_lookup_alter_ne in H2 by done.
    destruct (l !! i) as [a|]; [|done]. destruct (l !! j2) as [b|] eqn:Hb; [|done].
    cbn in H1, H2. rewrite Hd in H1. apply (Hfree j2 b Hb N2). congruence.
  - rewrite list_lookup_alter_eq in H2. rewrite list_lookup_alter_ne in H1 by done.
    destruct (l !! i) as [a|]; [|done]. destruct (l !! j1) as [b|] eqn:Hb; [|done].
    cbn in H1, H2. rewrite Hd in H2. apply (Hfree j1 b Hb N1). congruence.
  - rewrite list_lookup_alter_ne in H1, H2 by done. refine (NoDup_lookup (k <$> l) j1 j2 x Hn _ _); by rewrite list_lookup_fmap.
Qed.

(** *** The operations keep the invariant *)

Lemma accountsInv_mono w0 k k' w : accountsInv w0 k w -> k <= k' -> accountsInv w0 k' w.
Proof. intros (H1 & H2 & H3) Hk. split_and!; [done..|lia]. Qed.

(** What an update does once the names are changed. *)
Lemma updateRest_keeps w0 k getenv vars fuel now clock i modi s :
  keeps (accountsInv w0 k)
    (u ← userAt modi;
     newPermissionsMap ← lift (newPermissions getenv vars fuel (permissions_ u) s);
     updateUser modi (fun u => reactivate (isInactiveForGroup (permissions_ u) DEFAULT_USER_GROUP) (set_permissions u newPermissionsMap)) ≫= fun _ =>
     actor ← userAt i;
     updateUser modi (fun u => setModifier u (username_ actor) (modifierStamp now clock))).
Proof.
  intros w Hw. destruct (Users_ w !! modi) as [u|] eqn:Hu.
  2:{ rewrite (bind_throw _ _ w Undefined w); [exact Hw|]. unfold userAt. by rewrite Hu. }
  rewrite (bind_ok _ _ w u w); [|unfold userAt; by rewrite Hu].
  destruct (newPermissions _ _ _ _ _) as [p|e] eqn:Hp; [|exact Hw]. rewrite (bind_ok (lift (Ok p)) _ w p w eq_refl).
  assert (levelsInRange p) as Hr.
  { eapply newPermissions_range; [|exact Hp]. destruct Hw as ([_ _ _ Ht _] & _). rewrite Forall_forall in Ht.
    apply (Ht u). by eapply list_elem_of_lookup_2. }
  revert w Hw Hu Hp. intros w Hw _ _. revert w Hw.
  apply keeps_bind; [|intros _; apply keeps_bind; [apply keeps_userAt|intros actor]].
  - apply keeps_updateUser. intros v. unfold reactivate. by destruct (_ && _).
  - apply keeps_updateUser. intros v. by split_and!.
Qed.

Lemma updateAccount_keeps w0 k getenv vars fuel now clock i modi d e s :
  keeps (accountsInv w0 k) (updateAccount getenv vars fuel now clock i modi d e s).
Proof.
  intros w Hw. unfold updateAccount. rewrite (bind_ok (gets id) _ w w w eq_refl).
  destruct (displayNameTaken (Users_ w) modi d) eqn:Hd; [exact Hw|].
  rewrite (bind_ok (updateUser modi (fun u => set_names u d e)) _ w tt _ eq_refl).
  apply updateRest_keeps. apply (updateUser_inv w0 k modi (fun u => set_names u d e) w); [|  |exact Hw].
  - intros u _. by split_and!.
  - apply (NoDup_alter _ _ _ _ d); [apply Hw|done|]. rewrite displayNameTaken_false in Hd. intros j a Hj Hne. by eapply Hd.
Qed.

Lemma NoDup_map_delete {A B} (k : A -> B) i (l : list A) : NoDup (map k l) -> NoDup (map k (delete i l)).
Proof.
  change (map k) with (fmap (M := list) k). rewrite list_fmap_delete. intros H. eapply sublist_NoDup; [exact H|]. apply sublist_delete.
Qed.

Lemma deleteAccount_keeps w0 k saveUsers name d : keeps (accountsInv w0 k) (deleteAccount saveUsers name d).
Proof.
  apply keeps_bind; [apply keeps_gets|]. intros [i|]; [|apply keeps_ret].
  apply keeps_bind; [apply keeps_userAt|]. intros u. apply keeps_if; [apply keeps_ret|].
  apply keeps_bind; [|intros _; apply keeps_gets]. apply keeps_modify.
  intros w ([Hn Hd Hi Ht Hz] & (Hle & Ha & Hu) & Hk). split; [|split; [|exact Hk]].
  - split; [exact (NoDup_map_delete _ i _ Hn)|exact (NoDup_map_delete _ i _ Hd)|exact (NoDup_map_delete _ i _ Hi)|exact (Forall_delete _ _ i Ht)|exact Hz].
  - split_and!; [done|done|]. intros v Hv. apply Hu. refine (elem_of_sublist _ _ _ Hv _). apply sublist_delete.
Qed.


(** The account that is appended takes the next id. *)
Lemma append_inv w0 k w u : accountsInv w0 k w -> usersNextUserId_ w + 1 < 2 ^ 64 ->
  ~ username_ u ∈ map username_ (Users_ w) -> ~ displayName_ u ∈ map displayName_ (Users_ w) ->
  userId_ u = usersNextUserId_ w -> levelsInRange (permissions_ u) -> in_range 8 (loginFailureCount_ u) ->
  accountsInv w0 (k + 1) (set_Users w (Users_ w ++ [u]) (u64 (usersNextUserId_ w + 1))).
Proof.
  intros ([Hn Hd Hi Ht Hz] & (Hle & Ha & Hu) & Hk) Hlt Hnn Hdn Hid Hl Hf. rewrite wrap_small by (unfold in_range; lia).
  split; [|split; [|cbn; lia]].
  - split; cbn [Users_ set_Users usersNextUserId_]; [by apply NoDup_map_snoc..| | |lia].
    + apply NoDup_map_snoc; [done|]. rewrite Hid. intros (v & Hv & Hin)%list_elem_of_fmap.
      rewrite Forall_forall in Ht. destruct (Ht v Hin). lia.
    + apply Forall_app. split; [|apply Forall_singleton; split_and!; [lia|lia|done|done..]].
      eapply Forall_impl; [exact Ht|]. intros v (H1 & H2 & H3). split_and!; [lia|lia|done|done..].
  - split_and!; [cbn; lia|done|]. cbn [Users_ set_Users]. intros v Hv Hvlt. apply elem_of_app in Hv as [Hv|Hv]; [by apply Hu|].
    apply list_elem_of_singleton in Hv as ->. lia.
Qed.

Lemma createNewAccount_inv w0 k saveUsers now clock name d e w : accountsInv w0 k w -> k + 1 < 2 ^ 64 ->
  accountsInv w0 (k + 1) (createNewAccount saveUsers now clock name d e w).2.
Proof.
  intros Hw Hk. assert (accountsInv w0 (k + 1) w) as Hw1 by (eapply accountsInv_mono; [exact Hw|lia]).
  unfold createNewAccount. rewrite (bind_ok (gets id) _ w w w eq_refl).
  destruct (searchUsersDatabaseForUsername w name) as [i|] eqn:Hn; [exact Hw1|].
  destruct (found None || _ || _); [exact Hw1|].
  destruct (searchUsersDatabaseForDisplayName w d) as [j|] eqn:Hd; [exact Hw1|]. cbn [found].
  match goal with |- context [mkUser ?a ?b ?c ?s ?p ?i ?l ?t ?f ?m ?x] => set (u := mkUser a b c s p i l t f m x) end.
  assert (accountsInv w0 (k + 1) (set_Users w (Users_ w ++ [u]) (u64 (usersNextUserId_ w + 1)))) as Hw2.
  { apply append_inv; [exact Hw| |exact (search_none_key username_ _ name Hn)|exact (search_none_key displayName_ _ d Hd)|reflexivity| |exact (wrap_range 8 0 ltac:(done))].
    - destruct Hw as (_ & _ & Hle). lia.
    - apply levelsInRange_singleton. by destruct (_ =? 0)%nat. }
  rewrite (bind_ok (modify _) _ w tt _ eq_refl). destruct (ACCOUNT_ERROR_THRESHOLD <=? _); [exact Hw2|].
  revert Hw2. generalize (set_Users w (Users_ w ++ [u]) (u64 (usersNextUserId_ w + 1))).
  apply keeps_bind; [apply keeps_updateUser; intros v; by split_and!|]. intros _.
  apply keeps_bind; [apply keeps_gets|]. intros saved. apply keeps_if; [apply keeps_throw|apply keeps_ret].
Qed.

(** An addition takes an id. *)
Definition idsTaken (cmd k : Z) : Z := if cmd =? MOD_TYPE_ADD then k + 1 else k.

Lemma modifyByCommand_inv w0 k again saveUsers line getenv vars fuel now clock cmd name d e s i modi w :
  ((cmd =? MOD_TYPE_ADD) = true -> keeps (accountsInv w0 (k + 1)) again) -> accountsInv w0 k w -> k + 1 < 2 ^ 64 ->
  accountsInv w0 (idsTaken cmd k) (modifyByCommand saveUsers line getenv vars fuel again now clock cmd name d e s i modi w).2.
Proof.
  intros Hagain Hw Hk. unfold modifyByCommand, idsTaken.
  assert (accountsInv w0 (if cmd =? MOD_TYPE_ADD then k + 1 else k) w) as Hw'.
  { destruct (cmd =? MOD_TYPE_ADD); [eapply accountsInv_mono; [exact Hw|lia]|exact Hw]. }
  destruct (_ <? _)%nat; [exact Hw'|]. destruct (_ <? _)%nat; [exact Hw'|].
  destruct (cmd =? MOD_TYPE_UPDATE).
  { destruct modi as [modi|], i as [i|]; try exact Hw'. revert Hw'. generalize w.
    apply keeps_bind; [apply updateAccount_keeps|intros _; apply keeps_loadSecuritySelection]. }
  destruct (cmd =? MOD_TYPE_ADD) eqn:Ha.
  - pose proof (createNewAccount_inv w0 k saveUsers now clock name d e w Hw Hk) as Hc.
    unfold mbind at 1, M_bind at 1. destruct (createNewAccount _ _ _ _ _ _ w) as [[[]|x] w']; [|exact Hc]. cbn [snd] in Hc.
    destruct i as [i|]; [|exact Hc]. revert w' Hc. apply keeps_bind; [apply keeps_userAt|]. intros actor.
    apply keeps_bind; [apply keeps_gets|]. intros last. apply keeps_bind; [apply keeps_updateUser; intros v; by split_and!|].
    intros _. apply keeps_if; [by apply Hagain|apply keeps_loadSecuritySelection].
  - destruct (cmd =? MOD_TYPE_DELETE); [|exact Hw]. revert Hw. generalize w.
    apply keeps_bind; [apply deleteAccount_keeps|intros _; apply keeps_loadSecuritySelection].
Qed.

Lemma modifyWith_inv w0 k again saveUsers line getenv vars fuel now clock uid cmd name d e s w :
  ((cmd =? MOD_TYPE_ADD) = true -> keeps (accountsInv w0 (k + 1)) again) -> accountsInv w0 k w -> k + 1 < 2 ^ 64 ->
  accountsInv w0 (idsTaken cmd k) (modifyWith saveUsers line getenv vars fuel again now clock uid cmd name d e s w).2.
Proof.
  intros Hagain Hw Hk. unfold modifyWith. rewrite (bind_ok (gets id) _ w w w eq_refl).
  assert (accountsInv w0 (idsTaken cmd k) w) as Hw'.
  { eapply accountsInv_mono; [exact Hw|]. unfold idsTaken. destruct (cmd =? MOD_TYPE_ADD); lia. }
  destruct (negb _); [exact Hw'|]. cbn zeta. case_bool_decide; [|by apply modifyByCommand_inv].
  case_bool_decide; [|exact Hw']. revert Hw'. generalize w. apply keeps_bind; [apply keeps_userAt|]. intros actor.
  apply keeps_updateUser. intros v. by split_and!.
Qed.

Lemma modifyAccountSettings_inv w0 k saveUsers line getenv vars fuel now clock uid cmd name d e s w :
  accountsInv w0 k w -> k + 2 < 2 ^ 64 ->
  accountsInv w0 (k + 1) (modifyAccountSettings saveUsers line getenv vars fuel now clock uid cmd name d e s w).2.
Proof.
  intros Hw Hk. unfold modifyAccountSettings.
  eapply accountsInv_mono; [apply (modifyWith_inv w0 k); [|exact Hw|lia]|unfold idsTaken; destruct (cmd =? MOD_TYPE_ADD); lia].
  intros _ w' Hw'. apply (modifyWith_inv w0 (k + 1)); [done|exact Hw'|lia].
Qed.

(** ** Runs of requests *)

Inductive request :=
| Create (now clock : Z) (username displayName email : text)
| Delete (username displayName : text)
| Modify (now clock : Z) (actingUid cmd_type : Z) (username displayname email permissions : text).

Section Requests.
Variables (saveUsers : WebUsers -> bool) (securityLine : text).
Variables (getenv : text -> option text) (systemVariables_ : gmap text (gmap text text)) (expansionFuel : nat).

Definition serve (r : request) : M WebUsers unit :=
  match r with
  | Create now clock n d e => createNewAccount saveUsers now clock n d e
  | Delete n d => deleteAccount saveUsers n d ≫= fun _ => mret tt
  | Modify now clock uid cmd n d e s =>
      modifyAccountSettings saveUsers securityLine getenv systemVariables_ expansionFuel now clock uid cmd n d e s
  end.
(** One after the other, whether they succeed or throw. *)
Definition serveAll (l : list request) (w : WebUsers) : WebUsers := fold_left (fun w r => (serve r w).2) l w.

Lemma serve_inv w0 k r w : accountsInv w0 k w -> k + 2 < 2 ^ 64 -> accountsInv w0 (k + 1) (serve r w).2.
Proof.
  intros Hw Hk. destruct r as [now clock n d e|n d|now clock uid cmd n d e s].
  - apply createNewAccount_inv; [exact Hw|lia].
  - eapply accountsInv_mono; [|instantiate (1 := k); lia]. revert Hw. generalize w. clear w.
    apply keeps_bind; [apply deleteAccount_keeps|intros _; apply keeps_ret].
  - by apply modifyAccountSettings_inv.
Qed.

Lemma serveAll_inv w0 l : forall k w, accountsInv w0 k w -> k + Z.of_nat (length l) + 1 < 2 ^ 64 ->
  accountsInv w0 (k + Z.of_nat (length l)) (serveAll l w).
Proof.
  induction l as [|r l IH]; intros k w Hw Hk; cbn [serveAll fold_left length] in *.
  - by rewrite Z.add_0_r.
  - eapply accountsInv_mono; [apply (IH (k + 1)); [by apply serve_inv; [|lia]|lia]|lia].
Qed.

(** *** Adding an account *)

Definition newUser w (now clock : Z) (username displayName email : text) : User :=
  mkUser username email displayName [] {[ DEFAULT_USER_GROUP := PERMISSION_LEVEL_NOVICE ]} (usersNextUserId_ w) 0 now 0 []
    (modifierStamp now clock).
(** The state with the account [u] appended. *)
Definition withNew w (u : User) : WebUsers := set_Users w (Users_ w ++ [u]) (usersNextUserId_ w + 1).

(** What makes a new account acceptable. *)
Record acceptable w (username displayName : text) : Prop := mkAcceptable {
  acc_username : ~ username ∈ map username_ (Users_ w);
  acc_reserved : username <> DEFAULT_ITERATOR_USERNAME /\ username <> DEFAULT_STATECHANGER_USERNAME;
  acc_displayName : ~ displayName ∈ map displayName_ (Users_ w);
  acc_next : 0 <= usersNextUserId_ w < ACCOUNT_ERROR_THRESHOLD - 1;
}.

Lemma alter_new {A} (f : A -> A) l a : alter f (length l) (l ++ [a]) = l ++ [f a].
Proof. rewrite <- (Nat.add_0_r (length l)). by rewrite alter_app_r. Qed.

Lemma updateUser_new w u f : updateUser (length (Users_ w)) f (withNew w u) = (Ok tt, withNew w (f u)).
Proof.
  unfold updateUser, modify, withNew. cbn [Users_ set_Users usersNextUserId_]. rewrite alter_new. reflexivity.
Qed.

Lemma createNewAccount_ok now clock name d e w : (forall w, saveUsers w = true) -> acceptable w name d ->
  createNewAccount saveUsers now clock name d e w = (Ok tt, withNew w (newUser w now clock name d e)).
Proof.
  intros Hsave [Hn [Hr1 Hr2] Hd Hnext]. unfold createNewAccount. rewrite (bind_ok (gets id) _ w w w eq_refl).
  unfold searchUsersDatabaseForUsername, searchUsersDatabaseForDisplayName.
  rewrite (search_fresh _ _ _ Hn), (search_fresh _ _ _ Hd), (textEq_neq _ _ Hr1), (textEq_neq _ _ Hr2). cbn [found orb].
  rewrite Nat.add_1_r. cbn [Nat.eqb]. change (u64 (usersNextUserId_ w + 1)) with (wrap 64 (usersNextUserId_ w + 1)).
  change ACCOUNT_ERROR_THRESHOLD with (2 ^ 64 - 5) in *. rewrite wrap_small by (unfold in_range; lia).
  rewrite (bind_ok (modify _) _ w tt _ eq_refl). destruct (Z.leb_spec (2 ^ 64 - 5) (usersNextUserId_ w + 1)); [lia|].
  match goal with |- context [Users_ w ++ [?x]] => set (u := x) end.
  change (set_Users w (Users_ w ++ [u]) (usersNextUserId_ w + 1)) with (withNew w u).
  rewrite (bind_ok _ _ _ _ _ (updateUser_new w u _)).
  rewrite (bind_ok (gets saveUsers) _ _ true (withNew w (set_creation u now))) by (unfold gets; by rewrite Hsave). done.
Qed.

Lemma acting_admin w w' uid i actor : Users_ w !! i = Some actor -> searchUsersDatabaseForUserId w uid = Some i ->
  (exists l, Users_ w' = Users_ w ++ l) ->
  searchUsersDatabaseForUserId w' uid = Some i /\ getPermissionsForUser w' uid = permissions_ actor /\ userAt i w' = (Ok actor, w').
Proof.
  intros Hi Hs [l Hl]. unfold getPermissionsForUser, userAt.
  assert (searchUsersDatabaseForUserId w' uid = Some i) as ->.
  { unfold searchUsersDatabaseForUserId. rewrite Hl. by apply search_app_some. }
  assert (Users_ w' !! i = Some actor) as ->. { rewrite Hl. by apply lookup_app_l_Some. }
  done.
Qed.

(** The update of the account just appended. *)
Lemma updateAccount_new now clock i actor w u p s :
  Users_ w !! i = Some actor -> ~ displayName_ u ∈ map displayName_ (Users_ w) ->
  isInactiveForGroup (permissions_ u) DEFAULT_USER_GROUP = false ->
  newPermissions getenv systemVariables_ expansionFuel (permissions_ u) s = Ok p ->
  updateAccount getenv systemVariables_ expansionFuel now clock i (length (Users_ w)) (displayName_ u) (email_ u) s (withNew w u) =
    (Ok tt, withNew w (setModifier (set_permissions u p) (username_ actor) (modifierStamp now clock))).
Proof.
  intros Hi Hd Hact Hp. unfold updateAccount. rewrite (bind_ok (gets id) _ (withNew w u) (withNew w u) (withNew w u) eq_refl).
  assert (displayNameTaken (Users_ (withNew w u)) (length (Users_ w)) (displayName_ u) = false) as ->.
  { apply displayNameTaken_false. intros j v Hj Hne Hv. apply Hd. apply lookup_app_Some in Hj as [Hj|[Hge Hj]].
    - apply list_elem_of_fmap. exists v. split; [done|]. by eapply list_elem_of_lookup_2.
    - destruct (j - length (Users_ w))%nat as [|n] eqn:En; [lia|]. by destruct n. }
  rewrite (bind_ok _ _ _ _ _ (updateUser_new w u _)).
  assert (set_names u (displayName_ u) (email_ u) = u) as -> by by destruct u.
  rewrite (bind_ok (userAt _) _ (withNew w u) u (withNew w u)).
  2:{ unfold userAt. assert (Users_ (withNew w u) !! length (Users_ w) = Some u) as ->; [|done].
      by apply list_lookup_middle. }
  rewrite Hp. rewrite (bind_ok (lift (Ok p)) _ _ p _ eq_refl).
  rewrite (bind_ok _ _ _ _ _ (updateUser_new w u _)). rewrite Hact. cbn [reactivate andb].
  rewrite (bind_ok (userAt i) _ (withNew w (set_permissions u p)) actor (withNew w (set_permissions u p))).
  2:{ unfold userAt. assert (Users_ (withNew w (set_permissions u p)) !! i = Some actor) as ->; [|done]. by apply lookup_app_l_Some. }
  apply updateUser_new.
Qed.

(** ** Properties *)

(** C38: The account table stays well typed: after any requests that create, delete
    and modify accounts, successful or not, user names, display names and user
    ids are unique, ids are below the next id, and every permission level and
    failure count is a byte. *)
Theorem accounts_well_typed l w : accountsWellFormed w -> usersNextUserId_ w + Z.of_nat (length l) + 1 < 2 ^ 64 ->
  accountsWellFormed (serveAll l w).
Proof.
  intros Hw Hk. apply (serveAll_inv w l (usersNextUserId_ w) w); [|done].
  split_and!; [done|apply identitiesFrom_refl|lia].
Qed.

(** C37: Nobody inherits a session: after any requests, the account that a session
    of before belongs to has the user name it had then; in particular a new
    account never gets the sessions of a deleted one. *)
Theorem sessions_not_inherited l w s u : accountsWellFormed w -> usersNextUserId_ w + Z.of_nat (length l) + 1 < 2 ^ 64 ->
  s ∈ ActiveSessions_ (serveAll l w) -> session_userId_ s < usersNextUserId_ w ->
  u ∈ Users_ (serveAll l w) -> userId_ u = session_userId_ s ->
  s ∈ ActiveSessions_ w /\ exists u0, u0 ∈ Users_ w /\ userId_ u0 = session_userId_ s /\ username_ u0 = username_ u.
Proof.
  intros Hw Hk Hs Hlt Hu Hid.
  destruct (serveAll_inv w l (usersNextUserId_ w) w) as (_ & (_ & Ha & Hfrom) & _); [split_and!; [done|apply identitiesFrom_refl|lia]|done|].
  rewrite Ha in Hs. split; [done|]. rewrite <- Hid in *. by apply Hfrom.
Qed.
(** An administrator passes the first checks, also once accounts were
    appended. *)
Lemma modifyWith_admin now clock uid name d e s w i actor :
  searchUsersDatabaseForUserId w uid = Some i -> Users_ w !! i = Some actor ->
  isAdminForGroup (permissions_ actor) DEFAULT_USER_GROUP = true ->
  forall cmd again w', (exists l, Users_ w' = Users_ w ++ l) -> searchUsersDatabaseForUsername w' name <> Some 0%nat ->
    modifyWith saveUsers securityLine getenv systemVariables_ expansionFuel again now clock uid cmd name d e s w' =
    modifyByCommand saveUsers securityLine getenv systemVariables_ expansionFuel again now clock cmd name d e s
      (Some i) (searchUsersDatabaseForUsername w' name) w'.
Proof.
  intros Hs Hi Hadm cmd again w' Hl Hne. destruct (acting_admin w w' uid i actor Hi Hs Hl) as (Hs' & Hperm & _).
  unfold modifyWith. rewrite (bind_ok (gets id) _ w' w' w' eq_refl). rewrite Hperm, Hadm, Hs'. cbn [negb].
  by rewrite bool_decide_eq_false_2.
Qed.

(** An administrator adds an account: with new names of sufficient length it is
    appended with the next id, without a password, with the permissions given
    (level one of the default group without any) and the administrator noted;
    every other account stays as it is. *)
Theorem add_account_outcome now clock uid name d e s p w i actor :
  (forall w, saveUsers w = true) -> acceptable w name d ->
  (USERNAME_LENGTH <= length name)%nat -> (DISPLAY_NAME_LENGTH <= length d)%nat ->
  searchUsersDatabaseForUserId w uid = Some i -> Users_ w !! i = Some actor ->
  isAdminForGroup (permissions_ actor) DEFAULT_USER_GROUP = true ->
  (if bool_decide (s = []) then p = {[ DEFAULT_USER_GROUP := PERMISSION_LEVEL_NOVICE ]}
   else newPermissions getenv systemVariables_ expansionFuel {[ DEFAULT_USER_GROUP := PERMISSION_LEVEL_NOVICE ]} s = Ok p) ->
  exists w', serve (Modify now clock uid MOD_TYPE_ADD name d e s) w = (Ok tt, w') /\
    Users_ w' = Users_ w ++ [mkUser name e d [] p (usersNextUserId_ w) 0 now 0 (username_ actor) (modifierStamp now clock)] /\
    usersNextUserId_ w' = usersNextUserId_ w + 1 /\ ActiveSessions_ w' = ActiveSessions_ w.
Proof.
  intros Hsave Hacc Hln Hld Hs Hi Hadm Hp. pose proof Hacc as [Hn [Hr1 Hr2] Hd Hnext].
  pose proof (modifyWith_admin now clock uid name d e s w i actor Hs Hi Hadm) as Henter.
  assert (forall v, username_ v = name -> searchUsersDatabaseForUsername (withNew w v) name = Some (length (Users_ w))) as Hfind.
  { intros v Hv. apply search_app_new; [by apply search_fresh|]. by rewrite Hv, textEq_refl. }
  cbn [serve]. unfold modifyAccountSettings. rewrite Henter; [|exists []; by rewrite app_nil_r|].
  2:{ unfold searchUsersDatabaseForUsername. by rewrite (search_fresh _ _ _ Hn). }
  unfold modifyByCommand at 1. destruct (Nat.ltb_spec (length name) USERNAME_LENGTH); [lia|].
  destruct (Nat.ltb_spec (length d) DISPLAY_NAME_LENGTH); [lia|].
  change (MOD_TYPE_ADD =? MOD_TYPE_UPDATE) with false. change (MOD_TYPE_ADD =? MOD_TYPE_ADD) with true. cbn match.
  rewrite (bind_ok _ _ _ _ _ (createNewAccount_ok now clock name d e w Hsave Hacc)).
  set (u := newUser w now clock name d e).
  destruct (acting_admin w (withNew w u) uid i actor Hi Hs (ex_intro _ [u] eq_refl)) as (_ & _ & Hat).
  rewrite (bind_ok _ _ _ _ _ Hat).
  rewrite (bind_ok (gets _) _ (withNew w u) (length (Users_ w)) (withNew w u)).
  2:{ unfold gets, withNew. cbn [Users_ set_Users]. rewrite length_app. cbn [length]. do 2 f_equal. lia. }
  rewrite (bind_ok _ _ _ _ _ (updateUser_new w u _)). set (u1 := setModifier u _ _).
  destruct s as [|c s].
  - cbn [length Nat.ltb Nat.leb]. rewrite bool_decide_eq_true_2 in Hp by done. subst p.
    eexists. split; [reflexivity|]. by split_and!.
  - cbn [length]. change (0 <? S (length s))%nat with true. cbn match. rewrite bool_decide_eq_false_2 in Hp by done.
    rewrite Henter; [|by exists [u1]|rewrite Hfind by done; intros [= E]; rewrite (nil_length_inv _ E) in Hi; done].
    rewrite Hfind by done. unfold modifyByCommand. destruct (Nat.ltb_spec (length name) USERNAME_LENGTH); [lia|].
    destruct (Nat.ltb_spec (length d) DISPLAY_NAME_LENGTH); [lia|]. change (MOD_TYPE_UPDATE =? MOD_TYPE_UPDATE) with true. cbn match.
    rewrite (bind_ok _ _ _ _ _ (updateAccount_new now clock i actor w u1 p (c :: s) Hi Hd ltac:(by vm_compute) Hp)).
    eexists. split; [reflexivity|]. by split_and!.
Qed.
End Requests.

(** ** Instances *)

Definition exampleRequests : list request :=
  [Modify 1000 5 0 MOD_TYPE_ADD (txt "alice") (txt "Alice") (txt "alice@lab") (txt "allUsers:3");
   Modify 1001 6 0 MOD_TYPE_DELETE (txt "bob") (txt "bob4") [] [];
   Create 1002 7 (txt "bob") (txt "Bobby") (txt "bob@lab")].
Definition exampleTable := set_Users exampleWeb
  [exampleUser "admin" 0 255; set_names (exampleUser "bob" 7 1) (txt "bob4") (txt "bob@lab")] 8.
Abbreviation exampleServe l w := (serveAll (fun _ => true) (txt "DigestAccessAuthentication") (fun _ => None) ∅ 5 l w).

Lemma exampleTable_wellFormed : accountsWellFormed exampleTable.
Proof.
  split; [by apply (bool_decide_unpack _); vm_compute..| |done].
  unfold exampleTable. cbn [Users_ set_Users usersNextUserId_].
  assert (forall u id l, userId_ u = id -> 0 <= id < 8 -> permissions_ u = {[ DEFAULT_USER_GROUP := l ]} -> in_range 8 l ->
    loginFailureCount_ u = 0 -> userTyped 8 u) as H.
  { intros u id l <- Hid Hp Hl Hf. split; [done|]. rewrite Hp, Hf. split; [by apply levelsInRange_singleton|done]. }
  apply Forall_cons_2; [apply (H _ 0 255); done|]. apply Forall_cons_2; [apply (H _ 7 1); done|apply Forall_nil_2].
Qed.

Lemma accounts_well_typed_witness : accountsWellFormed (exampleServe exampleRequests exampleTable).
Proof. apply accounts_well_typed; [apply exampleTable_wellFormed|cbn; lia]. Defined.

(** Bob's account is deleted and made again: the old session (of id 7) is
    nobody's. *)
Lemma sessions_not_inherited_witness :
  map (fun u => (username_ u, userId_ u)) (Users_ (exampleServe exampleRequests exampleTable)) =
    [(txt "admin", 0); (txt "alice", 8); (txt "bob", 9)] /\
  forall u, u ∈ Users_ (exampleServe exampleRequests exampleTable) -> userId_ u = 7 -> username_ u = txt "bob".
Proof.
  split; [by vm_compute|]. intros u Hu Hid.
  destruct (sessions_not_inherited (fun _ => true) (txt "DigestAccessAuthentication") (fun _ => None) ∅ 5 exampleRequests exampleTable
    (mkSession (txt "AB") (txt "10.0.0.5") 7 1 1000 1000) u) as (_ & u0 & H0 & Hid0 & Hn).
  - apply exampleTable_wellFormed.
  - cbn. lia.
  - assert (ActiveSessions_ (exampleServe exampleRequests exampleTable) = ActiveSessions_ exampleWeb) as -> by by vm_compute. left.
  - cbn. lia.
  - exact Hu.
  - exact Hid.
  - rewrite <- Hn. repeat (apply elem_of_cons in H0 as [->|H0]; [by try discriminate Hid0|]). by apply elem_of_nil in H0.
Defined.

Lemma add_account_outcome_witness : exists w',
  serve (fun _ => true) (txt "DigestAccessAuthentication") (fun _ => None) ∅ 5
    (Modify 1000 5 0 MOD_TYPE_ADD (txt "alice") (txt "Alice") (txt "alice@lab") (txt "allUsers:3, experts:255")) exampleTable = (Ok tt, w') /\
  last (Users_ w') = Some (mkUser (txt "alice") (txt "alice@lab") (txt "Alice") []
    (<[DEFAULT_USER_GROUP := 3]> {[ txt "experts" := 255 ]}) 8 0 1000 0 (txt "admin") 100000005).
Proof.
  destruct (add_account_outcome (fun _ => true) (txt "DigestAccessAuthentication") (fun _ => None) ∅ 5 1000 5 0 (txt "alice") (txt "Alice")
    (txt "alice@lab") (txt "allUsers:3, experts:255") (<[DEFAULT_USER_GROUP := 3]> {[ txt "experts" := 255 ]}) exampleTable 0
    (exampleUser "admin" 0 255)) as (w' & E & Hu & _ & _).
  - done.
  - split; [by apply (bool_decide_unpack _); vm_compute|by split|by apply (bool_decide_unpack _); vm_compute|by split].
  - by apply Nat.leb_le.
  - by apply Nat.leb_le.
  - reflexivity.
  - reflexivity.
  - by vm_compute.
  - unfold newPermissions.
    assert (permissionsFromString (fun _ => None) ∅ 5 (txt "allUsers:3, experts:255") = Ok [(DEFAULT_USER_GROUP, 3); (txt "experts", 255)])
      as -> by by vm_compute.
    reflexivity.
  - exists w'. split; [exact E|]. by rewrite Hu, last_snoc.
Defined.

(** *** What goes otherwise than meant *)

(** The first account of an empty table is a novice, not an administrator. *)
Lemma first_account_is_novice saveUsers now clock n d e w : (forall w, saveUsers w = true) -> acceptable w n d -> Users_ w = [] ->
  exists u w', createNewAccount saveUsers now clock n d e w = (Ok tt, w') /\ Users_ w' = [u] /\
    isAdminForGroup (permissions_ u) DEFAULT_USER_GROUP = false.
Proof.
  intros Hsave Hacc Hw. exists (newUser w now clock n d e), (withNew w (newUser w now clock n d e)).
  rewrite createNewAccount_ok by done. unfold withNew. by rewrite Hw.
Qed.

(** An update that is refused for its permission string has changed the names
    already. *)
Lemma refused_update_changes_names :
  let '(r, w) := modifyAccountSettings (fun _ => true) (txt "DigestAccessAuthentication") (fun _ => None) ∅ 5 1000 5 0 MOD_TYPE_UPDATE
    (txt "bob") (txt "Robert") (txt "new@lab") (txt "allUsers:high") exampleTable in
  r = Throw RuntimeError /\ map displayName_ (Users_ w) = [txt "admin"; txt "Robert"].
Proof. by vm_compute. Qed.

(** Any other word in the security file turns the security off. *)
Lemma misspelt_security_is_off : selectedSecurity (txt "DigestAccessAuthentification") = SECURITY_TYPE_NONE.
Proof. by vm_compute. Qed.
End Accounts.
