(* ===== verification/UsersDatabase.v ===== *)
(** * The files of the accounts

    src/otsdaq/WebUsersUtilities/WebUsers.cc: writing the users and the password
    hashes ([saveToDatabase], [saveDatabaseToFile]) and the failure counts
    ([saveLoginFailureCounts]), and reading them at the start ([loadDatabases],
    [loadLoginFailureCounts]).

    A file is a text.  Reading goes line by line with [fgets], the fields of a
    line are found by counting greater-than signs. *)

From stdpp Require Import sorting.
From S2P Require Import Prelude CText StringMacros StringLists StringExpansion WebUsers Login Accounts.

Module UsersDatabase.
Import WebUsers Login Accounts.

Definition lt : ascii := chr 60.
Definition gt : ascii := chr 62.
Definition slash : ascii := chr 47.
Definition newline : ascii := chr 10.
Definition LINE_LEN : nat := 1000.
Definition SHA512_DIGEST_LENGTH : nat := 64.

Definition USERS_DB_GLOBAL_STRING : text := txt "userData".
Definition USERS_DB_ENTRY_STRING : text := txt "userEntry".
Definition USERS_DB_NEXT_UID_STRING : text := txt "nextUserId".
Definition HASHES_DB_GLOBAL_STRING : text := txt "hashData".
Definition HASHES_DB_ENTRY_STRING : text := txt "hashEntry".
Definition DEFAULT_ADMIN_EMAIL : text := txt "root@otsdaq.fnal.gov".

(** ** Writing *)

Inductive saveType := DB_SAVE_OPEN_AND_CLOSE | DB_SAVE_OPEN | DB_SAVE_CLOSE.

Definition openTag (field : text) : text := lt :: c_str field ++ [gt].
Definition closeTag (field : text) : text := lt :: slash :: c_str field ++ [gt].
Definition saveToDatabase (field value : text) (type : saveType) (addNewLine : bool) : text :=
  match type with
  | DB_SAVE_OPEN_AND_CLOSE => openTag field ++ c_str value ++ closeTag field
  | DB_SAVE_OPEN => openTag field ++ c_str value
  | DB_SAVE_CLOSE => closeTag field
  end ++ if addNewLine then [newline] else [].

(** In the order of a [std::map] of strings. *)
Definition entryLe (p q : text * Z) : Prop := textLeb p.1 q.1 = true.
#[local] Instance entryLe_dec : RelDecision entryLe.
Proof. intros p q. unfold entryLe. apply _. Defined.
Definition sortedEntries (p : permissions) : list (text * Z) := merge_sort entryLe (map_to_list p).
Definition permissionsText (p : permissions) : text := StringLists.mapToString (sortedEntries p) (txt ",") (txt ":").

(** [sprintf] with [%lu] and [%hhu]. *)
Definition print_lu (z : Z) : text := to_string_unsigned (u64 z).
Definition print_hhu (z : Z) : text := to_string_unsigned (u8 z).

(** The fields in the order of [UsersDatabaseEntryFields_]. *)
Definition userFields u : list (text * text) :=
  [(txt "username", username_ u); (txt "displayName", displayName_ u); (txt "salt", salt_ u); (txt "uid", print_lu (userId_ u));
   (txt "permissions", permissionsText (permissions_ u)); (txt "lastLoginAttemptTime", print_lu (lastLoginAttempt_ u));
   (txt "accountCreatedTime", print_lu (accountCreationTime_ u)); (txt "loginFailureCount", print_hhu (loginFailureCount_ u));
   (txt "lastModifiedTime", print_lu (lastModifierTime_ u)); (txt "lastModifierUsername", lastModifierUsername_ u);
   (txt "useremail", email_ u)].
Definition hashFields h : list (text * text) := [(txt "hash", hash_ h); (txt "lastAccessTime", print_lu (accessTime_ h))].

Definition saveEntry (entry : text) (fields : list (text * text)) : text :=
  saveToDatabase entry [] DB_SAVE_OPEN false ++ flat_map (fun f => saveToDatabase f.1 f.2 DB_SAVE_OPEN_AND_CLOSE false) fields ++
  saveToDatabase entry [] DB_SAVE_CLOSE true.

(** [saveDatabaseToFile(DB_USERS)] and [saveDatabaseToFile(DB_HASHES)]: what
    the file holds afterwards. *)
Definition saveUsersFile w : text :=
  saveToDatabase USERS_DB_GLOBAL_STRING [] DB_SAVE_OPEN true ++
  saveToDatabase USERS_DB_NEXT_UID_STRING (print_lu (usersNextUserId_ w)) DB_SAVE_OPEN_AND_CLOSE true ++
  flat_map (fun u => saveEntry USERS_DB_ENTRY_STRING (userFields u)) (Users_ w) ++
  saveToDatabase USERS_DB_GLOBAL_STRING [] DB_SAVE_CLOSE true.
Definition saveHashesFile w : text :=
  saveToDatabase HASHES_DB_GLOBAL_STRING [] DB_SAVE_OPEN true ++
  flat_map (fun h => saveEntry HASHES_DB_ENTRY_STRING (hashFields h)) (Hashes_ w) ++
  saveToDatabase HASHES_DB_GLOBAL_STRING [] DB_SAVE_CLOSE true.

Definition saveLoginFailureCounts w : text :=
  flat_map (fun u => if 0 <? loginFailureCount_ u
                     then print_lu (userId_ u) ++ txt " " ++ print_hhu (loginFailureCount_ u) ++ [newline] else []) (Users_ w).

(** ** Reading *)

(** [fgets(line, n + 1, fp)], and the rest of the file. *)
Fixpoint fgets (n : nat) (s : text) : text * text :=
  match n, s with
  | S n, c :: s => if (c =? newline)%char then ([c], s) else let '(line, rest) := fgets n s in (c :: line, rest)
  | _, _ => ([], s)
  end.
(** The lines as C strings; the fuel is the length of the file. *)
Fixpoint readLines (fuel : nat) (s : text) : list text :=
  match fuel, s with
  | O, _ | _, [] => []
  | S fuel, _ => let '(line, rest) := fgets (LINE_LEN - 1) s in c_str line :: readLines fuel rest
  end.
Definition fileLines (s : text) : list text := readLines (length s) s.

(** The walk over a line: [c] counts greater-than signs; after one that [isField]
    selects, the field is read up to the next less-than sign ([cur]).  A field
    that the line ends in is dropped. *)
Fixpoint scanLine (isField : nat -> bool) (line : text) (c : nat) (cur : option text) : list (nat * text) :=
  match line with
  | [] => []
  | ch :: line =>
      match cur with
      | None => if (ch =? gt)%char then scanLine isField line (S c) (if isField (S c) then Some [] else None)
                else scanLine isField line c None
      | Some v => if (ch =? lt)%char then (Nat.div2 c - 1, v)%nat :: scanLine isField line c None
                  else scanLine isField line c (Some (v ++ [ch]))
      end
  end.
Definition lineFields (isField : nat -> bool) (line : text) : list (nat * text) := scanLine isField line 0 None.

(** [strtoul] and [strtol] of 64 bits as [scanf] uses them, with what follows. *)
Definition scanSign (s : text) : bool * text :=
  match skip_space s with
  | c :: s' => if code c =? 45 then (true, s') else if code c =? 43 then (false, s') else (false, c :: s')
  | [] => (false, [])
  end.
Fixpoint skip_digits (s : text) : text :=
  match s with
  | c :: s' => if is_digit c then skip_digits s' else s
  | [] => []
  end.
Definition scanNumber (s : text) : option (bool * Z * text) :=
  let '(neg, s) := scanSign s in
  match s with
  | c :: _ => if is_digit c then Some (neg, read_digits s 0, skip_digits s) else None
  | [] => None
  end.
Definition ulong (neg : bool) (v : Z) : Z := if 2 ^ 64 - 1 <? v then 2 ^ 64 - 1 else if neg then u64 (- v) else v.
Definition long (neg : bool) (v : Z) : Z := Z.min (2 ^ 63 - 1) (Z.max (- 2 ^ 63) (if neg then - v else v)).
(** [sscanf] with [%lu], [%ld] and [%hhu]: what is stored, if anything. *)
Definition scan_lu (s : text) : option Z := (fun n => ulong n.1.1 n.1.2) <$> scanNumber s.
Definition scan_ld (s : text) : option Z := (fun n => long n.1.1 n.1.2) <$> scanNumber s.
Definition scan_hhu (s : text) : option Z := (fun n => u8 (ulong n.1.1 n.1.2)) <$> scanNumber s.

Section Load.
Variables (getenv : text -> option text) (systemVariables_ : gmap text (gmap text text)) (expansionFuel : nat).
(** What the constructor of [User] leaves: the stamp of the clock and an
    uninitialised user id. *)
Variables (stamp unsetId : Z).

Definition freshUser (username : text) : User := mkUser username [] [] [] ∅ unsetId 0 0 0 [] stamp.

(** Permissions of the file: without the default group the account is inactive,
    and the administrator is one whatever the file says. *)
Definition loadPermissions (username value : text) : result permissions :=
  l ← permissionsFromString getenv systemVariables_ expansionFuel value;
  let m : permissions := list_to_map l in
  let m : permissions :=
    match m !! DEFAULT_USER_GROUP with None => <[DEFAULT_USER_GROUP := PERMISSION_LEVEL_INACTIVE]> m | Some _ => m end in
  Ok (if textEq username DEFAULT_ADMIN_USERNAME then {[ DEFAULT_USER_GROUP := PERMISSION_LEVEL_ADMIN ]} else m).

Definition setUserField (f : nat) (v : text) u : result User :=
  match f with
  | 1%nat => Ok (set_names u v (email_ u))
  | 2%nat => Ok (set_salt u v)
  | 3%nat => Ok (mkUser (username_ u) (email_ u) (displayName_ u) (salt_ u) (permissions_ u) (default (userId_ u) (scan_lu v))
      (lastLoginAttempt_ u) (accountCreationTime_ u) (loginFailureCount_ u) (lastModifierUsername_ u) (lastModifierTime_ u))
  | 4%nat => p ← loadPermissions (username_ u) v; Ok (set_permissions u p)
  | 5%nat => Ok (set_lastLogin u (default (lastLoginAttempt_ u) (scan_ld v)))
  | 6%nat => Ok (set_creation u (default (accountCreationTime_ u) (scan_ld v)))
  | 7%nat => Ok (set_failures u (default (loginFailureCount_ u) (scan_hhu v)))
  | 8%nat => Ok (setModifier u (lastModifierUsername_ u) (default (lastModifierTime_ u) (scan_ld v)))
  | 9%nat => Ok (setModifier u v (lastModifierTime_ u))
  | 10%nat => Ok (set_names u (displayName_ u) v)
  | _ => Ok u
  end.
(** The first field appends a user, the others go to the last one. *)
Definition loadUserField (users : list User) (fv : nat * text) : result (list User) :=
  if (fv.1 =? 0)%nat then Ok (users ++ [freshUser fv.2])
  else match last users with
       | None => Throw Undefined
       | Some u => u ← setUserField fv.1 fv.2 u; Ok (removelast users ++ [u])
       end.
Fixpoint foldResult {A B} (f : A -> B -> result A) (a : A) (l : list B) : result A :=
  match l with [] => Ok a | b :: l => a ← f a b; foldResult f a l end.
Definition loadUserLine (users : list User) (line : text) : result (list User) :=
  if (length line <? 30)%nat then Ok users
  else foldResult loadUserField users (lineFields Nat.even line).

(** The line with the next user id: what it says, and the lines after it. *)
Fixpoint loadNextId (lines : list text) : option Z * list text :=
  match lines with
  | [] => (None, [])
  | line :: lines =>
      if (length line <? length USERS_DB_NEXT_UID_STRING * 2)%nat then loadNextId lines
      else if textEq (take (length USERS_DB_NEXT_UID_STRING) (drop 1 line)) USERS_DB_NEXT_UID_STRING
           then (scan_lu (leading (fun c => negb (c =? lt)%char) (drop (length USERS_DB_NEXT_UID_STRING + 2) line)), lines)
           else loadNextId lines
  end.
Definition loadUsersFile (file : text) w : result WebUsers :=
  let '(next, lines) := loadNextId (fileLines file) in
  users ← foldResult loadUserLine (Users_ w) lines;
  Ok (set_Users w users (default (usersNextUserId_ w) next)).

Definition loadHashField (hashes : list Hash) (fv : nat * text) : list Hash :=
  if (fv.1 =? 0)%nat then hashes ++ [mkHash fv.2 0]
  else alter (fun h => mkHash (hash_ h) (default (accessTime_ h) (scan_ld fv.2))) (length hashes - 1)%nat hashes.
Definition loadHashLine (hashes : list Hash) (line : text) : list Hash :=
  if (length line <? SHA512_DIGEST_LENGTH)%nat then hashes
  else fold_left loadHashField (lineFields (fun c => (c =? 2)%nat || (c =? 4)%nat) line) hashes.
Definition loadHashesFile (file : text) w : WebUsers :=
  set_Hashes w (fold_left loadHashLine (fileLines file) (Hashes_ w)).
(** [fscanf(fp, "%lu %u", &uid, &count)]: pairs of numbers, as long as there
    are two. *)
Definition setCount (uid count : Z) (users : list User) : list User :=
  match search (fun u => userId_ u =? uid) users with
  | Some i => alter (fun u => set_failures u count) i users
  | None => users
  end.
Fixpoint loadCounts (fuel : nat) (file : text) (users : list User) : list User :=
  match fuel with
  | O => users
  | S fuel =>
      match scanNumber file with
      | None => users
      | Some (neg, uid, rest) =>
          match scanNumber rest with
          | None => users
          | Some (neg', count, rest) => loadCounts fuel rest (setCount (ulong neg uid) (u8 (u32 (ulong neg' count))) users)
          end
      end
  end.
(** The file, if there is one, is authoritative. *)
Definition loadLoginFailureCounts (file : option text) w : WebUsers :=
  match file with
  | None => w
  | Some file => set_Users w (loadCounts (length file) file (map (fun u => set_failures u 0) (Users_ w))) (usersNextUserId_ w)
  end.

(** [loadDatabases]: a file that is missing is created ([canCreate]), the one of
    the users with the first account. *)
Definition loadDatabases (saveUsers : WebUsers -> bool) (now clock : Z) (canCreate : bool) (hashesFile usersFile : option text)
    : M WebUsers bool :=
  let users : M WebUsers bool :=
    match usersFile with
    | Some file => fun w => match loadUsersFile file w with Ok w => (Ok true, w) | Throw e => (Throw e, w) end
    | None =>
        if canCreate
        then createNewAccount saveUsers now clock DEFAULT_ADMIN_USERNAME DEFAULT_ADMIN_DISPLAY_NAME DEFAULT_ADMIN_EMAIL ≫= fun _ => mret true
        else mret false
    end in
  match hashesFile with
  | Some file => modify (loadHashesFile file) ≫= fun _ => users
  | None => if canCreate then users else mret false
  end.
End Load.

(** ** Reading the lines back *)

Definition noNewline (s : text) : Prop := Forall (fun c => c <> newline /\ code c <> 0) s.
Definition endLine (s : text) : text := s ++ [newline].
(** Text that is one line of the file. *)
Definition oneLine (s : text) : Prop := noNewline s /\ (length s < LINE_LEN - 1)%nat.

Lemma fgets_line n s rest : noNewline s -> (length s < n)%nat -> fgets n (endLine s ++ rest) = (endLine s, rest).
Proof.
  revert n. induction s as [|c s IH]; intros [|n] Hs Hn; cbn [length] in Hn; try lia; [done|].
  inversion Hs as [|? ? [Hc _] Hs']; subst. cbn [endLine app fgets].
  destruct (Ascii.eqb_spec c newline); [done|]. specialize (IH n Hs' ltac:(lia)). unfold endLine in IH. by rewrite IH.
Qed.

Lemma c_str_id s : Forall (fun c => code c <> 0) s -> c_str s = s.
Proof. induction 1 as [|c s Hc _ IH]; [done|]. cbn [c_str]. destruct (Z.eqb_spec (code c) 0); [done|]. by rewrite IH. Qed.
Lemma noNewline_nul s : noNewline s -> Forall (fun c => code c <> 0) s.
Proof. intros H. eapply Forall_impl; [exact H|]. by intros c [_ ?]. Qed.

Lemma readLines_lines ls : Forall oneLine ls -> forall fuel, (length ls <= fuel)%nat ->
  readLines fuel (flat_map endLine ls) = map endLine ls.
Proof.
  induction 1 as [|l ls [Hl Hlen] _ IH]; intros [|fuel] Hf; cbn [length] in Hf; try lia; try done.
  cbn [flat_map map readLines]. destruct (endLine l ++ flat_map endLine ls) as [|c s] eqn:E; [by destruct l|]. rewrite <- E.
  rewrite fgets_line by done. rewrite IH by lia. f_equal. apply c_str_id. apply Forall_app. split; [by apply noNewline_nul|].
  by apply Forall_singleton.
Qed.
Lemma flat_endLine_length ls : (length ls <= length (flat_map endLine ls))%nat.
Proof. induction ls as [|l ls IH]; [done|]. cbn [flat_map length]. unfold endLine at 1. rewrite !length_app. cbn [length]. lia. Qed.
Lemma fileLines_lines ls : Forall oneLine ls -> fileLines (flat_map endLine ls) = map endLine ls.
Proof. intros H. apply readLines_lines; [done|apply flat_endLine_length]. Qed.

(** *** The fields of an entry *)

Definition noGt (s : text) : Prop := Forall (fun c => c <> gt) s.
Definition noLt (s : text) : Prop := Forall (fun c => c <> lt) s.

Lemma scan_skip isField s rest c : noGt s -> scanLine isField (s ++ rest) c None = scanLine isField rest c None.
Proof. induction 1 as [|a s Ha _ IH]; [done|]. cbn [app scanLine]. by destruct (Ascii.eqb_spec a gt). Qed.
Lemma scan_value isField s rest c acc : noLt s ->
  scanLine isField (s ++ lt :: rest) c (Some acc) = (Nat.div2 c - 1, acc ++ s)%nat :: scanLine isField rest c None.
Proof.
  intros H. revert acc. induction H as [|a s Ha _ IH]; intros acc; cbn [app scanLine].
  - by rewrite app_nil_r.
  - destruct (Ascii.eqb_spec a lt); [done|]. rewrite IH, <- app_assoc. done.
Qed.
Lemma scan_open_end isField s c acc : noLt s -> scanLine isField s c (Some acc) = [].
Proof. intros H. revert acc. induction H as [|a s Ha _ IH]; intros acc; [done|]. cbn [scanLine]. by destruct (Ascii.eqb_spec a lt). Qed.

Definition fieldText (f : text * text) : text := saveToDatabase f.1 f.2 DB_SAVE_OPEN_AND_CLOSE false.
(** A tag, and a value that comes back. *)
Definition tagName (s : text) : Prop := Forall (fun c => c <> gt /\ c <> newline /\ code c <> 0) s.
Definition cleanValue (s : text) : Prop := Forall (fun c => c <> lt /\ c <> newline /\ code c <> 0) s.

Lemma c_str_tag s : tagName s -> c_str s = s.
Proof. intros H. apply c_str_id. eapply Forall_impl; [exact H|]. intros c (_ & _ & ?). done. Qed.
Lemma c_str_clean s : cleanValue s -> c_str s = s.
Proof. intros H. apply c_str_id. eapply Forall_impl; [exact H|]. intros c (_ & _ & ?). done. Qed.
Lemma cleanValue_noLt s : cleanValue s -> noLt s.
Proof. intros H. eapply Forall_impl; [exact H|]. by intros c (? & _). Qed.
Lemma tagName_noGt s : tagName s -> noGt s.
Proof. intros H. eapply Forall_impl; [exact H|]. by intros c (? & _). Qed.

Lemma fieldText_eq f v : tagName f -> cleanValue v ->
  fieldText (f, v) = (lt :: f) ++ gt :: v ++ lt :: (slash :: f) ++ [gt].
Proof.
  intros Hf Hv. unfold fieldText, saveToDatabase, openTag, closeTag. cbn [fst snd].
  rewrite (c_str_tag f Hf), (c_str_clean v Hv), app_nil_r. cbn [app]. by rewrite <- !app_assoc.
Qed.

Lemma noGt_cons c s : c <> gt -> noGt s -> noGt (c :: s).
Proof. by constructor. Qed.

(** The fields are numbered from [k]. *)
Lemma scan_fields isField fields : forall k rest,
  Forall (fun f => tagName f.1 /\ cleanValue f.2) fields ->
  (forall i, (i < length fields)%nat -> isField (2 * (k + i) + 2)%nat = true /\ isField (2 * (k + i) + 3)%nat = false) ->
  scanLine isField (flat_map fieldText fields ++ rest) (2 * k + 1) None =
  imap (fun i f => (k + i, f.2)%nat) fields ++ scanLine isField rest (2 * (k + length fields) + 1) None.
Proof.
  induction fields as [|[f v] fields IH]; intros k rest Hc Hi; cbn [flat_map length imap app].
  - by rewrite Nat.add_0_r.
  - inversion Hc as [|? ? [Hf Hv] Hc']; subst. cbn [fst snd] in *. rewrite (fieldText_eq f v Hf Hv), <- !app_assoc.
    rewrite scan_skip by (apply noGt_cons; [done|by apply tagName_noGt]). cbn [app scanLine].
    rewrite (Ascii.eqb_refl gt). destruct (Hi 0%nat) as [H1 H2]; [cbn; lia|]. rewrite Nat.add_0_r in H1, H2.
    replace (S (2 * k + 1)) with (2 * k + 2)%nat by lia. rewrite H1. rewrite <- !app_assoc. cbn [app].
    rewrite scan_value by by apply cleanValue_noLt. rewrite <- !app_assoc. change (slash :: f ++ ?r) with ((slash :: f) ++ r).
    rewrite scan_skip by (apply noGt_cons; [done|by apply tagName_noGt]). cbn [app scanLine]. rewrite (Ascii.eqb_refl gt).
    replace (S (2 * k + 2)) with (2 * k + 3)%nat by lia. rewrite H2.
    replace (2 * k + 3)%nat with (2 * S k + 1)%nat by lia.
    rewrite (IH (S k)); [|done|].
    2:{ intros i Hlt. pose proof (Hi (S i) ltac:(cbn; lia)) as Hs. by replace (k + S i)%nat with (S k + i)%nat in Hs by lia. }
    replace (2 * k + 2)%nat with (2 * (S k))%nat by lia. rewrite Nat.div2_double.
    replace (S k - 1)%nat with (k + 0)%nat by lia. cbn [app]. f_equal. f_equal.
    + apply imap_ext. intros i f' _. cbn. f_equal. lia.
    + do 2 f_equal. lia.
Qed.

Definition entryLine (entry : text) (fields : list (text * text)) : text :=
  openTag entry ++ flat_map fieldText fields ++ closeTag entry.
Lemma saveEntry_line entry fields : tagName entry -> saveEntry entry fields = endLine (entryLine entry fields).
Proof.
  intros He. unfold saveEntry, entryLine, endLine.
  change (flat_map (fun f => saveToDatabase f.1 f.2 DB_SAVE_OPEN_AND_CLOSE false) fields) with (flat_map fieldText fields).
  unfold saveToDatabase. cbn [c_str]. rewrite !app_nil_r, <- !app_assoc. done.
Qed.

Lemma lineFields_entry isField entry fields :
  tagName entry -> Forall (fun f => tagName f.1 /\ cleanValue f.2) fields -> isField 1%nat = false ->
  (forall i, (i < length fields)%nat -> isField (2 * i + 2)%nat = true /\ isField (2 * i + 3)%nat = false) ->
  lineFields isField (endLine (entryLine entry fields)) = imap (fun i f => (i, f.2)) fields.
Proof.
  intros He Hf H1 Hi. unfold lineFields, endLine, entryLine, openTag, closeTag. rewrite (c_str_tag entry He), <- !app_assoc.
  change (lt :: entry ++ [gt]) with ((lt :: entry) ++ [gt]). rewrite <- app_assoc.
  rewrite scan_skip by (apply noGt_cons; [done|by apply tagName_noGt]). cbn [app scanLine]. rewrite (Ascii.eqb_refl gt), H1.
  rewrite (scan_fields isField fields 0); [|done|exact Hi].
  rewrite <- (app_nil_r (imap (fun i f => (i, f.2)) fields)). f_equal.
  change (lt :: slash :: (entry ++ [gt]) ++ [newline]) with ((lt :: slash :: entry ++ [gt]) ++ [newline]).
  assert ((lt :: slash :: entry ++ [gt]) ++ [newline] = (lt :: slash :: entry) ++ gt :: [newline]) as -> by (cbn; by rewrite <- app_assoc).
  rewrite scan_skip by (repeat (apply noGt_cons; [done|]); by apply tagName_noGt). cbn [scanLine]. rewrite (Ascii.eqb_refl gt).
  clear H1 Hi. by destruct (isField _).
Qed.

(** *** Numbers *)

Lemma skip_digits_all s : Forall (fun c => is_digit c = true) s -> skip_digits s = [].
Proof. induction 1 as [|c s Hc _ IH]; [done|]. cbn [skip_digits]. by rewrite Hc. Qed.
(** What is left of a number before a character that is no digit. *)
Lemma scanNumber_print n c rest : 0 <= n -> is_digit c = false ->
  scanNumber (to_string_unsigned n ++ c :: rest) = Some (false, n, c :: rest).
Proof.
  intros Hn Hc. unfold scanNumber, scanSign. destruct (to_string_unsigned_cons n Hn) as (d & s & Hs & Hd).
  pose proof (to_string_unsigned_digits n Hn) as Hall. pose proof (is_digit_code d Hd) as Hcd.
  assert (forall l, Forall (fun c => is_digit c = true) l -> skip_digits (l ++ c :: rest) = c :: rest) as Hskip.
  { induction 1 as [|x l Hx _ IH]; cbn [app skip_digits]; [by rewrite Hc|]. by rewrite Hx. }
  assert (forall l acc, Forall (fun c => is_digit c = true) l -> read_digits (l ++ c :: rest) acc = read_digits l acc) as Hread.
  { intros l acc Hl. revert acc. induction Hl as [|x l Hx _ IH]; intros acc; cbn [app read_digits]; [by rewrite Hc|]. by rewrite Hx. }
  assert (skip_space (to_string_unsigned n ++ c :: rest) = to_string_unsigned n ++ c :: rest) as ->.
  { rewrite Hs. cbn [app]. by apply skip_space_digit. }
  rewrite Hs. cbn [app]. destruct (Z.eqb_spec (code d) 45); [lia|]. destruct (Z.eqb_spec (code d) 43); [lia|].
  rewrite Hd. change (d :: s ++ c :: rest) with ((d :: s) ++ c :: rest). rewrite <- Hs.
  by rewrite Hread, Hskip, read_digits_to_string.
Qed.
Lemma scanNumber_only n : 0 <= n -> scanNumber (to_string_unsigned n) = Some (false, n, []).
Proof.
  intros Hn. unfold scanNumber, scanSign. destruct (to_string_unsigned_cons n Hn) as (d & s & Hs & Hd).
  pose proof (to_string_unsigned_digits n Hn) as Hall. pose proof (is_digit_code d Hd) as Hcd.
  rewrite Hs in *. rewrite skip_space_digit by done.
  destruct (Z.eqb_spec (code d) 45); [lia|]. destruct (Z.eqb_spec (code d) 43); [lia|].
  rewrite Hd, (skip_digits_all _ Hall), <- Hs, read_digits_to_string by done. done.
Qed.

Lemma ulong_id z : in_range 64 z -> ulong false z = z.
Proof. intros [? ?]. unfold ulong. destruct (Z.ltb_spec (2 ^ 64 - 1) z); lia. Qed.
Lemma scan_print_lu z : in_range 64 z -> scan_lu (print_lu z) = Some z.
Proof.
  intros Hz. unfold scan_lu, print_lu. rewrite (wrap_small 64 z Hz), scanNumber_only by apply Hz. cbn. by rewrite ulong_id.
Qed.
Lemma scan_print_ld z : 0 <= z < 2 ^ 63 -> scan_ld (print_lu z) = Some z.
Proof.
  intros Hz. unfold scan_ld, print_lu. rewrite wrap_small by (unfold in_range; lia). rewrite scanNumber_only by lia. cbn [fmap option_fmap option_map fst snd].
  f_equal. unfold long. cbv iota. lia.
Qed.
Lemma scan_print_hhu z : in_range 8 z -> scan_hhu (print_hhu z) = Some z.
Proof.
  intros Hz. unfold scan_hhu, print_hhu. rewrite (wrap_small 8 z Hz), scanNumber_only by apply Hz. cbn [fmap option_fmap option_map fst snd].
  rewrite ulong_id by (destruct Hz; split; [done|]; eapply Z.lt_trans; [eassumption|done]). f_equal. by apply wrap_small.
Qed.

Lemma digits_clean s : Forall (fun c => is_digit c = true) s -> cleanValue s.
Proof.
  intros H. eapply Forall_impl; [exact H|]. intros c Hc%is_digit_code.
  assert (code lt = 60 /\ code newline = 10) as [E1 E2] by done. split_and!; [intros ->; lia|intros ->; lia|lia].
Qed.
Lemma print_lu_clean z : cleanValue (print_lu z).
Proof. apply digits_clean, to_string_unsigned_digits. apply (wrap_range 64 z). done. Qed.
Lemma print_hhu_clean z : cleanValue (print_hhu z).
Proof. apply digits_clean, to_string_unsigned_digits. apply (wrap_range 8 z). done. Qed.

(** *** Permissions *)

(** Names of groups that survive: no separator, no white space. *)
Definition groupName (g : text) : Prop := StringLists.plainToken (txt ",|&") (txt "=:") StringLists.ws_default g /\ cleanValue g.

Lemma sortedEntries_perm p : sortedEntries p ≡ₚ map_to_list p.
Proof. apply merge_sort_Permutation. Qed.

Definition levelOk (e : text * Z) : Prop := groupName e.1 /\ in_range 8 e.2.
Definition printEntry (e : text * Z) : text * text := (e.1, to_string_unsigned e.2).

Lemma permissionsText_join p : permissionsText p = StringLists.join (txt ",") true (map (StringLists.renderPair (chr 58)) (map printEntry (sortedEntries p))).
Proof. unfold permissionsText, StringLists.mapToString. rewrite map_map. done. Qed.

Lemma digits_plain s : s <> [] -> Forall (fun c => is_digit c = true) s ->
  StringLists.plainToken (txt ",|&") (txt "=:") StringLists.ws_default s.
Proof.
  intros Hne H. split; [done|]. eapply Forall_impl; [exact H|]. intros c Hc.
  by destruct c as [[] [] [] [] [] [] [] []].
Qed.

Section Back.
Variables (getenv : text -> option text) (systemVariables_ : gmap text (gmap text text)) (expansionFuel : nat).
Variables (stamp unsetId : Z).

Lemma validateLevel_print l : in_range 8 l -> validateLevel getenv systemVariables_ (S expansionFuel) (to_string_unsigned l) = Ok l.
Proof.
  intros Hl. unfold validateLevel. cbn [StringExpansion.convertEnvironmentVariables].
  assert (StringExpansion.find [StringExpansion.dollar] (to_string_unsigned l) 0 = npos) as ->.
  { pose proof (StringExpansion.find_at [StringExpansion.dollar] [] (to_string_unsigned l)) as H. cbn [app] in H.
    change (size []) with 0 in H. rewrite H. rewrite StringExpansion.findIn_none; [done|]. eapply Forall_impl; [apply to_string_unsigned_digits, Hl|].
    intros c Hc ->. done. }
  rewrite Z.eqb_refl. cbn [orb mbind result_bind]. by rewrite StringLists.getNumber_u8_decimal.
Qed.

Lemma permissionsFromString_print p : map_Forall (fun g l => levelOk (g, l)) (p : gmap text Z) ->
  permissionsFromString getenv systemVariables_ (S expansionFuel) (permissionsText p) = Ok (sortedEntries p).
Proof.
  intros Hp. unfold permissionsFromString. rewrite permissionsText_join.
  assert (Forall levelOk (sortedEntries p)) as Hall.
  { rewrite sortedEntries_perm. apply Forall_forall. intros [g l] Hin. apply Hp. by apply elem_of_map_to_list. }
  change (txt ",") with [StringLists.comma].
  rewrite (StringLists.getMapFromStringT_join _ (txt ",|&") (txt "=:") StringLists.ws_default StringLists.comma (chr 58) eq_refl eq_refl
    _ (sortedEntries p).*2).
  - f_equal. clear Hall. induction (sortedEntries p) as [|[g l] es IH]; [done|]. cbn. by rewrite IH.
  - induction Hall as [|[g l] es [Hg Hl] _ IH]; [constructor|].
    cbn [map fmap list_fmap printEntry fst snd] in *. constructor; [|exact IH].
    destruct (to_string_unsigned_cons l) as (c & s & Hs & _); [apply Hl|].
    split_and!; [apply Hg|apply digits_plain; [change (to_string_unsigned l <> []); by rewrite Hs|apply to_string_unsigned_digits, Hl]|by apply validateLevel_print].
  - assert ((map printEntry (sortedEntries p)).*1 = (sortedEntries p).*1) as ->.
    { clear Hall. induction (sortedEntries p) as [|e es IH]; [done|]. cbn. by rewrite IH. }
    rewrite sortedEntries_perm. apply NoDup_fst_map_to_list.
Qed.

Lemma list_to_map_sorted p : (list_to_map (sortedEntries p) : permissions) = p.
Proof.
  transitivity (list_to_map (map_to_list (p : gmap text Z)) : gmap text Z); [|apply (list_to_map_to_list (M := gmap text))].
  apply (list_to_map_proper (M := gmap text)); [|apply sortedEntries_perm].
  rewrite sortedEntries_perm. apply NoDup_fst_map_to_list.
Qed.

(** What an account needs for the file: text without less-than signs, newlines
    and NUL, numbers of their types, and a line that fits in the buffer. *)
Record savable (u : User) : Prop := mkSavable {
  sv_text : Forall cleanValue [username_ u; displayName_ u; salt_ u; lastModifierUsername_ u; email_ u];
  sv_id : in_range 64 (userId_ u);
  sv_times : Forall (fun t => 0 <= t < 2 ^ 63) [lastLoginAttempt_ u; accountCreationTime_ u; lastModifierTime_ u];
  sv_failures : in_range 8 (loginFailureCount_ u);
  sv_levels : map_Forall (fun g l => levelOk (g, l)) (permissions_ u : gmap text Z);
  sv_line : (length (entryLine USERS_DB_ENTRY_STRING (userFields u)) < LINE_LEN - 1)%nat;
}.

(** The account as it comes back: the administrator is one whatever the groups
    were, and who was not in the default group is inactive in it. *)
Definition asLoaded u : User := set_permissions u
  (if textEq (username_ u) DEFAULT_ADMIN_USERNAME then {[ DEFAULT_USER_GROUP := PERMISSION_LEVEL_ADMIN ]}
   else if decide (is_Some ((permissions_ u : gmap text Z) !! DEFAULT_USER_GROUP)) then permissions_ u
   else <[DEFAULT_USER_GROUP := PERMISSION_LEVEL_INACTIVE]> (permissions_ u)).

Lemma loadPermissions_back u : savable u ->
  loadPermissions getenv systemVariables_ (S expansionFuel) (username_ u) (permissionsText (permissions_ u)) = Ok (permissions_ (asLoaded u)).
Proof.
  intros Hu. unfold loadPermissions. rewrite permissionsFromString_print by apply Hu. cbn [mbind result_bind]. rewrite list_to_map_sorted.
  unfold asLoaded. cbn [permissions_ set_permissions]. destruct (textEq (username_ u) DEFAULT_ADMIN_USERNAME); [done|].
  f_equal. unfold permissions in *. destruct (decide _) as [[l Hl]|Hn]; [by rewrite Hl|].
  destruct (_ !! _) eqn:E; [|done]. destruct Hn. by eexists.
Qed.

Lemma loadField_step users f v u u' : f <> 0%nat -> setUserField getenv systemVariables_ (S expansionFuel) f v u = Ok u' ->
  loadUserField getenv systemVariables_ (S expansionFuel) stamp unsetId (users ++ [u]) (f, v) = Ok (users ++ [u']).
Proof.
  intros Hf E. unfold loadUserField. cbn [fst snd]. destruct (Nat.eqb_spec f 0); [done|]. rewrite last_snoc, E. cbn [mbind result_bind].
  by rewrite removelast_last.
Qed.

Lemma loadUserFields_back users u : savable u ->
  foldResult (loadUserField getenv systemVariables_ (S expansionFuel) stamp unsetId) users (imap (fun i f => (i, f.2)) (userFields u)) =
  Ok (users ++ [asLoaded u]).
Proof.
  intros Hu. pose proof (loadPermissions_back u Hu) as Hp. destruct Hu as [_ Hid Ht Hf _ _].
  inversion Ht as [|? ? Ht1 Ht']; subst. inversion Ht' as [|? ? Ht2 Ht'']; subst. inversion Ht'' as [|? ? Ht3 _]; subst.
  assert (forall f v u1 u2 l, f <> 0%nat -> setUserField getenv systemVariables_ (S expansionFuel) f v u1 = Ok u2 ->
    foldResult (loadUserField getenv systemVariables_ (S expansionFuel) stamp unsetId) (users ++ [u1]) ((f, v) :: l) =
    foldResult (loadUserField getenv systemVariables_ (S expansionFuel) stamp unsetId) (users ++ [u2]) l) as Hstep.
  { intros f v u1 u2 l Hne E. cbn [foldResult]. by rewrite (loadField_step users f v u1 u2 Hne E). }
  unfold userFields. cbn [imap snd compose].
  match goal with |- foldResult ?f users (_ :: ?l) = _ => change (foldResult f (users ++ [freshUser stamp unsetId (username_ u)]) l = Ok (users ++ [asLoaded u])) end.
  do 3 (erewrite Hstep; [|done|reflexivity]).
  erewrite Hstep; [|done|cbn [setUserField set_salt set_names freshUser username_]; rewrite Hp; reflexivity].
  do 6 (erewrite Hstep; [|done|reflexivity]). cbn [foldResult].
  rewrite (scan_print_lu _ Hid), !scan_print_ld, scan_print_hhu by done. cbn. by destruct u.
Qed.
End Back.

Ltac tag := unfold cleanValue, tagName, noNewline; apply (bool_decide_unpack _); by vm_compute.

(** *** The lines of a file *)

Lemma clean_app a b : cleanValue a -> cleanValue b -> cleanValue (a ++ b).
Proof. intros Ha Hb. by apply Forall_app. Qed.
Lemma permissionsText_clean p : map_Forall (fun g l => levelOk (g, l)) (p : gmap text Z) -> cleanValue (permissionsText p).
Proof.
  intros Hp. unfold permissionsText, StringLists.mapToString.
  assert (Forall levelOk (sortedEntries p)) as Hall.
  { rewrite sortedEntries_perm. apply Forall_forall. intros [g l] Hin. apply Hp. by apply elem_of_map_to_list. }
  enough (forall b, cleanValue (StringLists.join (txt ",") b ((fun p => p.1 ++ txt ":" ++ to_string_unsigned p.2) <$> sortedEntries p))) by done.
  induction Hall as [|[g l] es [[_ Hg] Hl] _ IH]; intros b; [constructor|].
  cbn [fmap list_fmap StringLists.join fst snd]. repeat apply clean_app; [| |tag| |apply IH].
  - destruct b; tag.
  - exact Hg.
  - apply digits_clean, to_string_unsigned_digits, Hl.
Qed.

Lemma clean_noNewline s : cleanValue s -> noNewline s.
Proof. intros H. eapply Forall_impl; [exact H|]. intros c (_ & ? & ?). done. Qed.
Lemma tag_noNewline s : tagName s -> noNewline s.
Proof. intros H. eapply Forall_impl; [exact H|]. intros c (_ & ? & ?). done. Qed.
Lemma noNewline_app a b : noNewline a -> noNewline b -> noNewline (a ++ b).
Proof. intros Ha Hb. by apply Forall_app. Qed.
Lemma openTag_noNewline f : tagName f -> noNewline (openTag f).
Proof.
  intros Hf. unfold openTag. rewrite (c_str_tag f Hf). change (lt :: f ++ [gt]) with ([lt] ++ f ++ [gt]).
  repeat apply noNewline_app; [tag|by apply tag_noNewline|tag].
Qed.
Lemma closeTag_noNewline f : tagName f -> noNewline (closeTag f).
Proof.
  intros Hf. unfold closeTag. rewrite (c_str_tag f Hf). change (lt :: slash :: f ++ [gt]) with ([lt; slash] ++ f ++ [gt]).
  repeat apply noNewline_app; [tag|by apply tag_noNewline|tag].
Qed.
Lemma fieldText_noNewline f v : tagName f -> cleanValue v -> noNewline (fieldText (f, v)).
Proof.
  intros Hf Hv. unfold fieldText, saveToDatabase. cbn [fst snd]. rewrite app_nil_r.
  repeat apply noNewline_app; [by apply openTag_noNewline|rewrite (c_str_clean v Hv); by apply clean_noNewline|by apply closeTag_noNewline].
Qed.
Lemma entryLine_noNewline entry fields : tagName entry -> Forall (fun f => tagName f.1 /\ cleanValue f.2) fields ->
  noNewline (entryLine entry fields).
Proof.
  intros He Hf. unfold entryLine. repeat apply noNewline_app; [by apply openTag_noNewline| |by apply closeTag_noNewline].
  induction Hf as [|[f v] fs [H1 H2] _ IH]; [constructor|]. apply noNewline_app; [by apply fieldText_noNewline|exact IH].
Qed.

Lemma userFields_clean u : savable u -> Forall (fun f => tagName f.1 /\ cleanValue f.2) (userFields u).
Proof.
  intros Hu. pose proof (permissionsText_clean _ (sv_levels u Hu)) as Hp.
  pose proof (sv_text u Hu) as Ht. rewrite !Forall_cons in Ht. destruct Ht as (H1 & H2 & H3 & H4 & H5 & _).
  assert (forall a b, cleanValue b -> tagName a -> tagName (a, b).1 /\ cleanValue (a, b).2) as Hpair by done.
  repeat (apply Forall_cons_2; [apply Hpair; [first [assumption|apply print_lu_clean|apply print_hhu_clean]|tag]|]). apply Forall_nil_2.
Qed.

(** An entry is longer than the tags of its first field. *)
Lemma fieldText_length f v : tagName f -> cleanValue v -> length (fieldText (f, v)) = (2 * length f + 5 + length v)%nat.
Proof. intros Hf Hv. rewrite (fieldText_eq f v Hf Hv). cbn [app length]. repeat (rewrite length_app; cbn [length]). lia. Qed.
Lemma entryLine_length entry fields f v : tagName entry -> tagName f -> cleanValue v ->
  (2 * length entry + 5 + 2 * length f + 5 <= length (entryLine entry ((f, v) :: fields)))%nat.
Proof.
  intros He Hf Hv. unfold entryLine, openTag, closeTag. rewrite (c_str_tag entry He). cbn [flat_map].
  rewrite !length_app, (fieldText_length f v Hf Hv). cbn [length]. rewrite !length_app. cbn [length]. lia.
Qed.

Section Files.
Variables (getenv : text -> option text) (systemVariables_ : gmap text (gmap text text)) (expansionFuel : nat).
Variables (stamp unsetId : Z).

Lemma userEntry_tag : tagName USERS_DB_ENTRY_STRING.
Proof. tag. Qed.
Definition userLine u : text := entryLine USERS_DB_ENTRY_STRING (userFields u).

Lemma loadUserLine_back users u : savable u ->
  loadUserLine getenv systemVariables_ (S expansionFuel) stamp unsetId users (endLine (userLine u)) = Ok (users ++ [asLoaded u]).
Proof.
  intros Hu. unfold loadUserLine. destruct (Nat.ltb_spec (length (endLine (userLine u))) 30) as [H|_].
  { unfold endLine, userLine in H. rewrite length_app in H. unfold userFields in H.
    match type of H with context [entryLine ?e ((?f, ?v) :: ?fs)] =>
      pose proof (entryLine_length e fs f v userEntry_tag ltac:(tag)) as Hlen end.
    cbn [length] in H. pose proof (sv_text u Hu) as Ht. apply Forall_cons in Ht as [Hn _]. specialize (Hlen Hn).
    change (length USERS_DB_ENTRY_STRING) with 9%nat in Hlen. change (length (txt "username")) with 8%nat in Hlen. lia. }
  unfold userLine. rewrite lineFields_entry; [by apply loadUserFields_back|exact userEntry_tag|by apply userFields_clean|done|].
  intros i Hi. replace (2 * i + 2)%nat with (2 * S i)%nat by lia. replace (2 * i + 3)%nat with (S (2 * S i)) by lia.
  rewrite Nat.even_succ, <- Nat.negb_even, Nat.even_mul. done.
Qed.

Lemma loadUserLines_back us : Forall savable us -> forall users,
  foldResult (loadUserLine getenv systemVariables_ (S expansionFuel) stamp unsetId) users (map endLine (map userLine us) ++ [endLine (closeTag USERS_DB_GLOBAL_STRING)])
  = Ok (users ++ map asLoaded us).
Proof.
  induction 1 as [|u us Hu _ IH]; intros users.
  - cbn. by rewrite app_nil_r.
  - cbn [map app foldResult]. rewrite loadUserLine_back by done. cbn [mbind result_bind]. rewrite IH, <- app_assoc. done.
Qed.

Definition nextIdLine (next : Z) : text := fieldText (USERS_DB_NEXT_UID_STRING, print_lu next).
Lemma saveUsersFile_lines w : Forall savable (Users_ w) ->
  saveUsersFile w = flat_map endLine (openTag USERS_DB_GLOBAL_STRING :: nextIdLine (usersNextUserId_ w) :: map userLine (Users_ w) ++
    [closeTag USERS_DB_GLOBAL_STRING]).
Proof.
  intros Hw. unfold saveUsersFile. cbn [flat_map]. rewrite flat_map_app. cbn [flat_map]. rewrite app_nil_r. f_equal. f_equal.
  - unfold nextIdLine, fieldText, endLine, saveToDatabase. cbn [fst snd]. by rewrite app_nil_r.
  - f_equal. clear Hw. induction (Users_ w) as [|u us IH]; [done|]. cbn [flat_map map]. rewrite IH. f_equal.
    by apply saveEntry_line, userEntry_tag.
Qed.

Lemma leading_stop (p : ascii -> bool) s c rest : Forall (fun c => p c = true) s -> p c = false -> leading p (s ++ c :: rest) = s.
Proof. intros Hs Hc. induction Hs as [|a s Ha _ IH]; cbn [app leading]; [by rewrite Hc|]. by rewrite Ha, IH. Qed.

Lemma nextIdLine_eq next : endLine (nextIdLine next) =
  lt :: USERS_DB_NEXT_UID_STRING ++ gt :: print_lu next ++ lt :: slash :: USERS_DB_NEXT_UID_STRING ++ [gt; newline].
Proof.
  unfold nextIdLine, endLine. rewrite fieldText_eq; [|tag|apply print_lu_clean]. rewrite <- !app_assoc. cbn [app].
  rewrite <- !app_assoc. cbn [app]. rewrite <- !app_assoc. done.
Qed.
Lemma loadNextId_back next lines : in_range 64 next ->
  loadNextId (endLine (openTag USERS_DB_GLOBAL_STRING) :: endLine (nextIdLine next) :: lines) = (Some next, lines).
Proof.
  intros Hn. rewrite nextIdLine_eq. cbn [loadNextId].
  change (length (endLine (openTag USERS_DB_GLOBAL_STRING)) <? length USERS_DB_NEXT_UID_STRING * 2)%nat with true. cbn iota.
  destruct (Nat.ltb_spec (length (lt :: USERS_DB_NEXT_UID_STRING ++ gt :: print_lu next ++ lt :: slash :: USERS_DB_NEXT_UID_STRING ++ [gt; newline]))
    (length USERS_DB_NEXT_UID_STRING * 2)) as [H|_].
  { cbn [length] in H. rewrite length_app in H. cbn [length] in H. rewrite length_app in H. cbn [length] in H. rewrite length_app in H. lia. }
  change (drop 1 (lt :: ?l)) with l. rewrite take_app_length, textEq_refl.
  change (length USERS_DB_NEXT_UID_STRING + 2)%nat with (S (length (USERS_DB_NEXT_UID_STRING ++ [gt]))).
  change (drop (S ?n) (lt :: ?l)) with (drop n l). change (gt :: print_lu next ++ ?r) with ([gt] ++ print_lu next ++ r).
  rewrite app_assoc, drop_app_length, leading_stop; [by rewrite scan_print_lu| |done].
  eapply Forall_impl; [apply print_lu_clean|]. intros c (Hc & _ & _). by destruct (Ascii.eqb_spec c lt).
Qed.

Lemma endLine_app a b : flat_map endLine (a ++ b) = flat_map endLine a ++ flat_map endLine b.
Proof. apply flat_map_app. Qed.

Lemma oneLine_intro s : noNewline s -> (length s < LINE_LEN - 1)%nat -> oneLine s.
Proof. done. Qed.
Lemma print_lu_length z : (length (print_lu z) <= 64)%nat.
Proof.
  unfold print_lu, to_string_unsigned. pose proof (wrap_range 64 z ltac:(lia)) as Hr.
  assert (forall fuel n acc, (length (dec_loop fuel n acc) <= fuel + length acc)%nat) as H.
  { induction fuel as [|fuel IH]; intros n acc; cbn [dec_loop]; [lia|]. destruct (n <? 10); cbn [length]; [lia|].
    specialize (IH (n / 10) (digit (n mod 10) :: acc)). cbn [length] in IH. lia. }
  specialize (H (dec_fuel (u64 z)) (u64 z) []). cbn [length] in H. unfold dec_fuel in *.
  assert (Z.log2 (u64 z) < 64).
  { destruct (decide (u64 z = 0)) as [->|]; [done|]. destruct Hr. apply Z.log2_lt_pow2; lia. }
  lia.
Qed.

Lemma loadUsersFile_back w w0 : Forall savable (Users_ w) -> in_range 64 (usersNextUserId_ w) ->
  loadUsersFile getenv systemVariables_ (S expansionFuel) stamp unsetId (saveUsersFile w) w0 =
  Ok (set_Users w0 (Users_ w0 ++ map asLoaded (Users_ w)) (usersNextUserId_ w)).
Proof.
  intros Hw Hn. unfold loadUsersFile. rewrite saveUsersFile_lines by done. rewrite fileLines_lines.
  - cbn [map]. rewrite loadNextId_back by done. rewrite map_app. cbn [map]. rewrite loadUserLines_back by done. done.
  - apply Forall_cons_2; [split; [apply openTag_noNewline; tag|apply Nat.ltb_lt; reflexivity]|].
    apply Forall_cons_2.
    { split; [apply fieldText_noNewline; [tag|apply print_lu_clean]|]. unfold nextIdLine.
      rewrite fieldText_length; [|tag|apply print_lu_clean]. pose proof (print_lu_length (usersNextUserId_ w)).
      change (length USERS_DB_NEXT_UID_STRING) with 10%nat. unfold LINE_LEN. lia. }
    apply Forall_app. split; [|apply Forall_cons_2; [split; [apply closeTag_noNewline; tag|apply Nat.ltb_lt; reflexivity]|apply Forall_nil_2]].
    apply Forall_map. eapply Forall_impl; [exact Hw|]. intros u Hu. split; [|apply Hu].
    apply entryLine_noNewline; [exact userEntry_tag|by apply userFields_clean].
Qed.

(** *** Hashes *)

Record hashSavable (h : Hash) : Prop := mkHashSavable {
  hs_text : cleanValue (hash_ h);
  hs_length : (length (hash_ h) <= 800)%nat;
  hs_time : 0 <= accessTime_ h < 2 ^ 63;
}.
Definition hashLine h : text := entryLine HASHES_DB_ENTRY_STRING (hashFields h).

Lemma hashFields_clean h : hashSavable h -> Forall (fun f => tagName f.1 /\ cleanValue f.2) (hashFields h).
Proof.
  intros [H _ _]. apply Forall_cons_2; [split; [tag|exact H]|]. apply Forall_cons_2; [split; [tag|apply print_lu_clean]|apply Forall_nil_2].
Qed.
Lemma hashLine_length h : hashSavable h -> (SHA512_DIGEST_LENGTH <= length (hashLine h) < LINE_LEN - 1)%nat.
Proof.
  intros [H Hl _]. unfold hashLine, entryLine, openTag, closeTag, hashFields. cbn [flat_map]. rewrite app_nil_r.
  repeat (rewrite length_app || cbn [length]). rewrite !fieldText_length by first [exact H|apply print_lu_clean|tag].
  pose proof (print_lu_length (accessTime_ h)).
  change (length (c_str HASHES_DB_ENTRY_STRING)) with 9%nat. change (length (txt "hash")) with 4%nat.
  change (length (txt "lastAccessTime")) with 14%nat. unfold LINE_LEN, SHA512_DIGEST_LENGTH. lia.
Qed.
Lemma loadHashLine_back hashes h : hashSavable h -> loadHashLine hashes (endLine (hashLine h)) = hashes ++ [h].
Proof.
  intros Hh. unfold loadHashLine. destruct (Nat.ltb_spec (length (endLine (hashLine h))) SHA512_DIGEST_LENGTH) as [H|_].
  { pose proof (hashLine_length h Hh). unfold endLine in H. rewrite length_app in H. lia. }
  unfold hashLine. rewrite lineFields_entry; [|tag|by apply hashFields_clean|done|].
  2:{ intros [|[|i]] Hi; [done|done|cbn in Hi; lia]. }
  cbn [hashFields imap snd compose fold_left]. unfold loadHashField. cbn [fst snd Nat.eqb]. rewrite length_app. cbn [length].
  replace (length hashes + 1 - 1)%nat with (length hashes) by lia. rewrite alter_new. cbn [hash_ accessTime_].
  rewrite scan_print_ld by apply Hh. by destruct h.
Qed.
Lemma loadHashesFile_back w w0 : Forall hashSavable (Hashes_ w) ->
  loadHashesFile (saveHashesFile w) w0 = set_Hashes w0 (Hashes_ w0 ++ Hashes_ w).
Proof.
  intros Hw. unfold loadHashesFile. f_equal.
  assert (saveHashesFile w = flat_map endLine (openTag HASHES_DB_GLOBAL_STRING :: map hashLine (Hashes_ w) ++ [closeTag HASHES_DB_GLOBAL_STRING])) as ->.
  { unfold saveHashesFile. cbn [flat_map]. rewrite flat_map_app. cbn [flat_map]. rewrite app_nil_r. f_equal. f_equal.
    clear Hw. induction (Hashes_ w) as [|h hs IH]; [done|]. cbn [flat_map map]. rewrite IH. f_equal. apply saveEntry_line. tag. }
  rewrite fileLines_lines.
  - cbn [map fold_left]. change (loadHashLine (Hashes_ w0) (endLine (openTag HASHES_DB_GLOBAL_STRING))) with (Hashes_ w0).
    rewrite map_app, fold_left_app. cbn [map fold_left].
    change (loadHashLine ?l (endLine (closeTag HASHES_DB_GLOBAL_STRING))) with l.
    generalize (Hashes_ w0). induction Hw as [|h hs Hh _ IH]; intros acc; cbn [map fold_left]; [by rewrite app_nil_r|].
    rewrite loadHashLine_back by done. rewrite IH, <- app_assoc. done.
  - apply Forall_cons_2; [split; [apply openTag_noNewline; tag|apply Nat.ltb_lt; reflexivity]|]. apply Forall_app. split.
    + apply Forall_map. eapply Forall_impl; [exact Hw|]. intros h Hh. split; [|by apply hashLine_length].
      apply entryLine_noNewline; [tag|by apply hashFields_clean].
    + apply Forall_cons_2; [split; [apply closeTag_noNewline; tag|apply Nat.ltb_lt; reflexivity]|apply Forall_nil_2].
Qed.

(** *** Failure counts *)

Definition countLine u : text := if 0 <? loginFailureCount_ u
  then print_lu (userId_ u) ++ txt " " ++ print_hhu (loginFailureCount_ u) ++ [newline] else [].

Lemma scanNumber_space c s : is_space c = true -> scanNumber (c :: s) = scanNumber s.
Proof. intros Hc. unfold scanNumber, scanSign. cbn [skip_space]. by rewrite Hc. Qed.

Lemma loadCounts_line u file fuel users : in_range 64 (userId_ u) -> in_range 8 (loginFailureCount_ u) -> 0 < loginFailureCount_ u ->
  loadCounts (S fuel) (countLine u ++ file) users = loadCounts fuel (newline :: file) (setCount (userId_ u) (loginFailureCount_ u) users).
Proof.
  intros Hid Hc Hpos. unfold countLine. destruct (Z.ltb_spec 0 (loginFailureCount_ u)); [|lia]. cbn [loadCounts].
  rewrite <- !app_assoc. unfold print_lu, print_hhu. rewrite (wrap_small 64 _ Hid), (wrap_small 8 _ Hc).
  change (txt " " ++ ?r) with (chr 32 :: r). rewrite scanNumber_print by first [apply Hid|done].
  rewrite scanNumber_space by done. cbn [app]. rewrite scanNumber_print by first [apply Hc|done].
  rewrite !ulong_id by first [exact Hid|destruct Hc; split; [done|eapply Z.lt_trans; [eassumption|done]]].
  rewrite (wrap_small 32) by (destruct Hc; split; [done|eapply Z.lt_trans; [eassumption|done]]). by rewrite (wrap_small 8 _ Hc).
Qed.
(** The newline left is skipped by the next number. *)
Lemma loadCounts_newline fuel file users : loadCounts fuel (newline :: file) users = loadCounts fuel file users.
Proof. destruct fuel as [|fuel]; [done|]. cbn [loadCounts]. by rewrite scanNumber_space. Qed.

(** The count the file has for a user: that of the entry of the user's id. *)
Definition countIn (us : list User) (uid : Z) : Z :=
  match find (fun u => userId_ u =? uid) us with Some u => loginFailureCount_ u | None => 0 end.
Definition withCounts (count : Z -> Z) (users : list User) : list User :=
  map (fun u => set_failures u (count (userId_ u))) users.

Lemma withCounts_ext f g users : (forall u, u ∈ users -> f (userId_ u) = g (userId_ u)) -> withCounts f users = withCounts g users.
Proof. intros H. apply map_ext_in. intros u Hu. by rewrite H by by apply list_elem_of_In. Qed.

Lemma setCount_withCounts id n users f : NoDup (map userId_ users) ->
  setCount id n (withCounts f users) = withCounts (fun i => if i =? id then n else f i) users.
Proof.
  unfold setCount. induction users as [|u users IH]; intros Hn; [done|]. inversion Hn as [|? ? Hu Hn']; subst.
  specialize (IH Hn'). cbn [withCounts map search]. destruct (Z.eqb_spec (userId_ (set_failures u (f (userId_ u)))) id) as [E|E];
    cbn [userId_ set_failures] in E.
  - cbn [alter list_alter]. rewrite E, Z.eqb_refl. f_equal.
    apply (withCounts_ext f (fun i => if i =? id then n else f i) users).
    intros v Hv. destruct (Z.eqb_spec (userId_ v) id) as [E'|]; [|done]. destruct Hu. rewrite E, <- E'. by apply list_elem_of_fmap_2.
  - destruct (Z.eqb_spec (userId_ u) id); [done|]. fold (withCounts f users).
    change (map ?g users) with (withCounts (fun i => if i =? id then n else f i) users). rewrite <- IH.
    by destruct (search _ (withCounts f users)).
Qed.

Lemma loadCounts_back us : forall users fuel f, NoDup (map userId_ users) -> NoDup (map userId_ us) ->
  Forall (fun u => in_range 64 (userId_ u) /\ in_range 8 (loginFailureCount_ u)) us ->
  (length (flat_map countLine us) <= fuel)%nat -> (forall u, u ∈ us -> f (userId_ u) = 0) ->
  loadCounts fuel (flat_map countLine us) (withCounts f users) =
    withCounts (fun i => if existsb (fun u => userId_ u =? i) us then countIn us i else f i) users.
Proof.
  induction us as [|u us IH]; intros users fuel f Hn Hus Hr Hf H0; cbn [flat_map] in *; [by destruct fuel|].
  inversion Hr as [|? ? [Hid Hc] Hr']; subst. inversion Hus as [|? ? Hu Hus']; subst. rewrite length_app in Hf.
  assert (forall i, existsb (fun v => userId_ v =? i) us = true -> userId_ u <> i) as Hother.
  { intros i Hi Hui. apply existsb_exists in Hi as (v & Hv & Hvi). apply Hu. rewrite Hui. apply Z.eqb_eq in Hvi as <-.
    by apply list_elem_of_fmap_2, list_elem_of_In. }
  assert (forall g, (forall i, g i = if i =? userId_ u then loginFailureCount_ u else f i) ->
    withCounts (fun i => if existsb (fun v => userId_ v =? i) us then countIn us i else g i) users =
    withCounts (fun i => if existsb (fun v => userId_ v =? i) (u :: us) then countIn (u :: us) i else f i) users) as Hstep.
  { intros g Hg. apply withCounts_ext. intros v _. cbn [existsb]. unfold countIn. cbn [find]. rewrite Hg.
    specialize (Hother (userId_ v)). destruct (existsb _ us); destruct (Z.eqb_spec (userId_ u) (userId_ v)) as [E|E]; cbn [orb].
    - by destruct Hother.
    - done.
    - by rewrite E, Z.eqb_refl.
    - by destruct (Z.eqb_spec (userId_ v) (userId_ u)). }
  destruct (Z.ltb_spec 0 (loginFailureCount_ u)) as [Hpos|Hz].
  - assert (1 <= length (countLine u))%nat as Hlen.
    { unfold countLine. destruct (Z.ltb_spec 0 (loginFailureCount_ u)); [|lia]. rewrite !length_app. cbn [length]. lia. }
    destruct fuel as [|fuel]; [lia|]. rewrite loadCounts_line, loadCounts_newline, setCount_withCounts by done.
    rewrite IH; [by apply Hstep|done..|lia|].
    intros v Hv. destruct (Z.eqb_spec (userId_ v) (userId_ u)) as [E|_]; [|apply H0; by right].
    destruct Hu. rewrite <- E. by apply list_elem_of_fmap_2.
  - assert (countLine u = []) as Hnil by (unfold countLine; destruct (Z.ltb_spec 0 (loginFailureCount_ u)); [lia|done]).
    rewrite Hnil in *. cbn [app length] in *. rewrite IH; [|done..|lia|intros v Hv; apply H0; by right].
    apply Hstep. intros i. destruct (Z.eqb_spec i (userId_ u)) as [->|]; [|done]. destruct Hc.
    rewrite (H0 u) by left. lia.
Qed.

(** The file of the counts is authoritative: the users have the counts in it,
    and the others none. *)
Lemma loadLoginFailureCounts_back w w0 : NoDup (map userId_ (Users_ w0)) -> NoDup (map userId_ (Users_ w)) ->
  Forall (fun u => in_range 64 (userId_ u) /\ in_range 8 (loginFailureCount_ u)) (Users_ w) ->
  loadLoginFailureCounts (Some (saveLoginFailureCounts w)) w0 =
    set_Users w0 (withCounts (countIn (Users_ w)) (Users_ w0)) (usersNextUserId_ w0).
Proof.
  intros H0 Hw Hr. unfold loadLoginFailureCounts. f_equal. change (map (fun u => set_failures u 0) ?l) with (withCounts (fun _ => 0) l).
  change (saveLoginFailureCounts w) with (flat_map countLine (Users_ w)). rewrite loadCounts_back by done.
  apply withCounts_ext. intros u _. destruct (existsb _ _) eqn:E; [done|]. unfold countIn.
  destruct (find _ _) as [v|] eqn:Hf; [|done]. apply find_some in Hf as [Hv Hvu]. exfalso.
  rewrite <- not_true_iff_false in E. apply E. apply existsb_exists. by exists v.
Qed.
End Files.
End UsersDatabase.
