(* ===== verification/Restart.v ===== *)
(** * Restarting

    src/otsdaq/WebUsersUtilities/WebUsers.cc: the sessions and the holder of the
    lock on file ([saveActiveSessions], [loadActiveSessions],
    [saveLockStateToFile], [loadUserWithLock]) and the constructor, which reads
    all the files of UsersDatabase.v and these.

    The thread that displays the account code of the administrator is output. *)

From S2P Require Import Prelude CText StringMacros StringLists StringExpansion WebUsers RequestAccess Login Accounts UsersDatabase.

Module Restart.
Import WebUsers RequestAccess Login Accounts UsersDatabase.

(** ** The sessions *)

Definition print_ld (z : Z) : text := to_string_signed z.
Definition sessionLines s : list text :=
  [c_str (cookieCode_ s); c_str (ip_ s); print_lu (session_userId_ s); print_lu (sessionIndex_ s); print_ld (startTime_ s);
   print_ld (lastActivityTime_ s)].
Definition saveActiveSessions w : text :=
  flat_map endLine (to_string_signed 1 :: flat_map sessionLines (ActiveSessions_ w)).

(** [line[strlen(line) - 1] = 0] *)
Definition chop (line : text) : text := removelast line.
(** [fgets] into the line: at the end of the file the line keeps what it holds. *)
Definition nextLine (line : text) (lines : list text) : text * list text :=
  match lines with [] => (line, []) | l :: lines => (l, lines) end.

Fixpoint sessionLoop (fuel : nat) (version : Z) (lines : list text) (sessions : list ActiveSession) : list ActiveSession :=
  match fuel, lines with
  | S fuel, line :: lines =>
      let code := chop line in
      if negb (length code =? COOKIE_CODE_LENGTH)%nat then sessions
      else
        let '(line, lines) := nextLine code lines in
        let ip := chop line in
        let '(line, lines) := nextLine ip lines in
        let uid := default 0 (scan_lu line) in
        let '(line, lines) := nextLine line lines in
        let index := default 0 (scan_lu line) in
        let '(line, lines) := nextLine line lines in
        let start := default 0 (scan_ld line) in
        let '(line, lines) := if 1 <=? version then nextLine line lines else (line, lines) in
        let activity := if 1 <=? version then default 0 (scan_ld line) else start in
        sessionLoop fuel version lines (sessions ++ [mkSession code ip uid index start activity])
  | _, _ => sessions
  end.

(** Without a first line, [sscanf] reads a buffer nothing was written to. *)
Definition loadActiveSessions (unsetVersion : Z) (file : option text) : M WebUsers unit := fun w =>
  match file with
  | None => (Ok tt, w)
  | Some file =>
      match fileLines file with
      | [] => (Throw Undefined, w)
      | line :: lines =>
          let version := default unsetVersion (s32 <$> scan_ld line) in
          (Ok tt, set_ActiveSessions w (sessionLoop (length lines) version lines (ActiveSessions_ w)))
      end
  end.

(** ** The lock *)

Definition saveLockStateToFile w : text := c_str (usersUsernameWithLock_ w).
Definition loadUserWithLock (file : option text) : M WebUsers unit :=
  let username := match file with None => DEFAULT_ADMIN_USERNAME | Some file => c_str (fgets 299 file).1 end in
  if textEq username [] then mret tt
  else
    found ← gets (fun w => searchUsersDatabaseForUsername w username);
    match found with
    | None => mret tt
    | Some i => u ← userAt i; setUserWithLock (userId_ u) true username ≫= fun _ => mret tt
    end.

(** ** The constructor *)

Record files := mkFiles {
  hashesFile : option text; usersFile : option text; sessionsFile : option text; countsFile : option text; lockFile : option text;
}.

Section Construct.
Variables (saveUsers : WebUsers -> bool) (securityLine : text).
Variables (getenv : text -> option text) (systemVariables_ : gmap text (gmap text text)) (expansionFuel : nat).
Variables (stamp unsetId unsetVersion : Z) (now clock : Z) (canCreate : bool).

Definition construct (fs : files) : M WebUsers unit :=
  loadDatabases getenv systemVariables_ expansionFuel stamp unsetId saveUsers now clock canCreate (hashesFile fs) (usersFile fs) ≫= fun _ =>
  loadSecuritySelection securityLine ≫= fun _ =>
  admin ← gets (fun w => searchUsersDatabaseForUsername w DEFAULT_ADMIN_USERNAME);
  if negb (found admin) then throw RuntimeError
  else
    loadActiveSessions unsetVersion (sessionsFile fs) ≫= fun _ =>
    modify (loadLoginFailureCounts (countsFile fs)) ≫= fun _ =>
    loadUserWithLock (lockFile fs).
End Construct.

(** ** Lemmas *)

Record sessionSavable (s : ActiveSession) : Prop := mkSessionSavable {
  ss_code : noNewline (cookieCode_ s) /\ length (cookieCode_ s) = COOKIE_CODE_LENGTH;
  ss_ip : noNewline (ip_ s) /\ (length (ip_ s) < LINE_LEN - 1)%nat;
  ss_ids : in_range 64 (session_userId_ s) /\ in_range 64 (sessionIndex_ s);
  ss_times : 0 <= startTime_ s < 2 ^ 63 /\ 0 <= lastActivityTime_ s < 2 ^ 63;
}.

Lemma chop_endLine s : chop (endLine s) = s.
Proof. apply removelast_last. Qed.
Lemma scan_endLine n : 0 <= n -> scanNumber (endLine (to_string_unsigned n)) = Some (false, n, [newline]).
Proof. intros Hn. unfold endLine. by apply scanNumber_print. Qed.
Lemma scan_lu_line z : in_range 64 z -> scan_lu (endLine (print_lu z)) = Some z.
Proof.
  intros Hz. unfold scan_lu, print_lu. rewrite (wrap_small 64 z Hz), scan_endLine by apply Hz.
  cbn [fmap option_fmap option_map fst snd]. by rewrite ulong_id.
Qed.
Lemma scan_ld_line z : 0 <= z < 2 ^ 63 -> scan_ld (endLine (print_ld z)) = Some z.
Proof.
  intros Hz. unfold scan_ld, print_ld, to_string_signed. destruct (Z.ltb_spec z 0); [lia|]. rewrite scan_endLine by lia.
  cbn [fmap option_fmap option_map fst snd]. f_equal. unfold long. cbv iota. lia.
Qed.

Lemma sessionLoop_back ss : Forall sessionSavable ss -> forall fuel acc, (length ss <= fuel)%nat ->
  sessionLoop fuel 1 (map endLine (flat_map sessionLines ss)) acc = acc ++ ss.
Proof.
  induction 1 as [|s ss [[Hc Hl] [Hip _] [Hu Hi] [Hst Hla]] _ IH]; intros fuel acc Hf; cbn [length flat_map map app sessionLines] in *.
  - destruct fuel; by rewrite app_nil_r.
  - destruct fuel as [|fuel]; [lia|]. cbn [sessionLoop nextLine]. rewrite !chop_endLine.
    rewrite (c_str_id (cookieCode_ s)) by by apply noNewline_nul. rewrite (c_str_id (ip_ s)) by by apply noNewline_nul.
    rewrite Hl, Nat.eqb_refl. cbn [negb]. change (1 <=? 1) with true. cbn iota.
    rewrite (scan_lu_line _ Hu), (scan_lu_line _ Hi), (scan_ld_line _ Hst), (scan_ld_line _ Hla). cbn [default from_option id].
    rewrite IH by lia. rewrite <- app_assoc. by destruct s.
Qed.

Lemma digits_line z : 0 <= z -> noNewline (to_string_unsigned z).
Proof. intros Hz. by apply clean_noNewline, digits_clean, to_string_unsigned_digits. Qed.

Lemma sessionLines_oneLine s : sessionSavable s -> Forall oneLine (sessionLines s).
Proof.
  intros [[Hc Hl] [Hip Hil] [Hu Hi] [Hst Hla]]. unfold sessionLines.
  rewrite (c_str_id (cookieCode_ s)) by by apply noNewline_nul. rewrite (c_str_id (ip_ s)) by by apply noNewline_nul.
  assert (forall z, oneLine (print_lu z)) as H1.
  { intros z. split; [apply clean_noNewline, print_lu_clean|]. pose proof (print_lu_length z). unfold LINE_LEN. lia. }
  assert (forall z, 0 <= z < 2 ^ 63 -> oneLine (print_ld z)) as H2.
  { intros z Hz. assert (print_ld z = print_lu z) as ->; [|apply H1]. unfold print_ld, print_lu, to_string_signed.
    rewrite wrap_small by (unfold in_range; lia). destruct (Z.ltb_spec z 0); [lia|done]. }
  repeat (apply Forall_cons_2; [first [apply H1|by apply H2|split; [done|first [done|rewrite Hl; apply Nat.ltb_lt; reflexivity]]]|]).
  apply Forall_nil_2.
Qed.

Lemma loadActiveSessions_back unset w w0 : Forall sessionSavable (ActiveSessions_ w) ->
  loadActiveSessions unset (Some (saveActiveSessions w)) w0 = (Ok tt, set_ActiveSessions w0 (ActiveSessions_ w0 ++ ActiveSessions_ w)).
Proof.
  intros Hw. unfold loadActiveSessions, saveActiveSessions. rewrite fileLines_lines.
  - cbn [map]. change (default unset (s32 <$> scan_ld (endLine (to_string_signed 1)))) with 1. do 2 f_equal.
    apply sessionLoop_back; [done|]. rewrite length_map. clear. induction (ActiveSessions_ w) as [|s ss IH]; [done|].
    cbn [flat_map length]. rewrite length_app. cbn [length sessionLines]. lia.
  - apply Forall_cons_2; [split; [tag|apply Nat.ltb_lt; reflexivity]|].
    induction Hw as [|s ss Hs _ IH]; [apply Forall_nil_2|]. cbn [flat_map]. apply Forall_app. split; [by apply sessionLines_oneLine|done].
Qed.

(** The holder of the lock is a known user, or nobody. *)
Definition lockSavable w : Prop :=
  noNewline (usersUsernameWithLock_ w) /\ (length (usersUsernameWithLock_ w) < 299)%nat.

Lemma fgets_short n s : noNewline s -> (length s <= n)%nat -> (fgets n s).1 = s.
Proof.
  revert n. induction s as [|c s IH]; intros [|n] Hs Hn; cbn [length] in Hn; try lia; try done.
  inversion Hs as [|? ? [Hc _] Hs']; subst. cbn [fgets]. destruct (Ascii.eqb_spec c newline); [done|].
  specialize (IH n Hs' ltac:(lia)). destruct (fgets n s). cbn [fst] in *. by rewrite IH.
Qed.

(** Whoever has the lock on file gets it back if a session of theirs is there. *)
Lemma loadUserWithLock_back w w0 : lockSavable w -> localOnly w0 -> NoDup (map userId_ (Users_ w0)) -> usersUsernameWithLock_ w0 = [] ->
  loadUserWithLock (Some (saveLockStateToFile w)) w0 =
    (Ok tt, set_lock w0 (if isUsernameActive w0 (usersUsernameWithLock_ w) then usersUsernameWithLock_ w else [])).
Proof.
  intros [Hn Hl] [Hcare _] Hids H0. unfold loadUserWithLock, saveLockStateToFile.
  rewrite (c_str_id (usersUsernameWithLock_ w)) by by apply noNewline_nul. rewrite fgets_short by first [done|lia].
  rewrite c_str_id by by apply noNewline_nul. set (name := usersUsernameWithLock_ w) in *.
  assert (w0 = set_lock w0 []) as E0 by (rewrite <- H0; by destruct w0).
  destruct (textEq name []) eqn:Hnil.
  { apply textEq_spec in Hnil. rewrite Hnil. by destruct (isUsernameActive w0 []); rewrite <- E0. }
  unfold isUsernameActive. rewrite (bind_ok (gets _) _ w0 _ w0 eq_refl).
  destruct (searchUsersDatabaseForUsername w0 name) as [i|] eqn:Hs; [|by rewrite <- E0].
  destruct (search_some _ _ _ Hs) as (u & Hu & Hp). apply textEq_spec in Hp. rewrite Hu.
  rewrite (bind_ok (userAt i) _ w0 u w0) by (unfold userAt; by rewrite Hu).
  assert (setUserWithLock (userId_ u) true name w0 = (Ok (isUserIdActive w0 (userId_ u)), set_lock w0 (if isUserIdActive w0 (userId_ u) then name else []))) as E.
  { unfold setUserWithLock, isUsernameActive. rewrite Hs, Hu, Hcare. cbn [negb orb andb]. rewrite orb_false_r.
    destruct (isUserIdActive w0 (userId_ u)); [|by rewrite <- E0].
    assert (getUsersUsername w0 (userId_ u) = name) as ->.
    { destruct (searchUsersId_unique w0 u Hids) as (j & Hj & Huj); [by eapply list_elem_of_lookup_2|].
      unfold getUsersUsername. by rewrite Hj, Huj. }
    by rewrite textEq_refl, andb_false_r. }
  by rewrite (bind_ok _ _ _ _ _ E).
Qed.

(** ** Properties *)

(** What the files need to be read back. Each was written from the state the
    instance had when it last wrote it: the users and the hashes by
    [saveDatabaseToFile], the sessions by [saveActiveSessions] at the launch
    request, the counts by [saveLoginFailureCounts] at a login, the lock by
    [saveLockStateToFile]. *)
Record readable (users hashes sessions counts lock : WebUsers) : Prop := mkReadable {
  rd_users : Forall savable (Users_ users);
  rd_ids : NoDup (map userId_ (Users_ users));
  rd_next : in_range 64 (usersNextUserId_ users);
  rd_admin : DEFAULT_ADMIN_USERNAME ∈ map username_ (Users_ users);
  rd_hashes : Forall hashSavable (Hashes_ hashes);
  rd_sessions : Forall sessionSavable (ActiveSessions_ sessions);
  rd_counts : NoDup (map userId_ (Users_ counts)) /\
    Forall (fun u => in_range 64 (userId_ u) /\ in_range 8 (loginFailureCount_ u)) (Users_ counts);
  rd_lock : lockSavable lock;
}.
(** The members as the constructor finds them. *)
Record fresh w : Prop := mkFresh {
  fr_users : Users_ w = [];
  fr_hashes : Hashes_ w = [];
  fr_sessions : ActiveSessions_ w = [];
  fr_lock : usersUsernameWithLock_ w = [];
  fr_remote : remoteLoginVerificationEnabled_ w = false;
}.

Section Restart.
Variables (saveUsers : WebUsers -> bool) (securityLine : text).
Variables (getenv : text -> option text) (systemVariables_ : gmap text (gmap text text)) (expansionFuel : nat).
Variables (stamp unsetId unsetVersion : Z) (now clock : Z) (canCreate : bool).

Lemma loadDatabases_back users hashes w0 : Forall savable (Users_ users) -> in_range 64 (usersNextUserId_ users) ->
  Forall hashSavable (Hashes_ hashes) -> fresh w0 ->
  loadDatabases getenv systemVariables_ (S expansionFuel) stamp unsetId saveUsers now clock canCreate
    (Some (saveHashesFile hashes)) (Some (saveUsersFile users)) w0 =
  (Ok true, set_Users (set_Hashes w0 (Hashes_ hashes)) (map asLoaded (Users_ users)) (usersNextUserId_ users)).
Proof.
  intros Hu Hn Hh H0. unfold loadDatabases.
  rewrite (bind_ok (modify _) _ w0 tt (loadHashesFile (saveHashesFile hashes) w0) eq_refl).
  rewrite loadHashesFile_back by done. rewrite loadUsersFile_back by done. cbn [Users_ set_Hashes].
  by rewrite (fr_users _ H0), (fr_hashes _ H0).
Qed.

Lemma asLoaded_ids us : map userId_ (map asLoaded us) = map userId_ us.
Proof. by rewrite map_map. Qed.
Lemma asLoaded_names us : map username_ (map asLoaded us) = map username_ us.
Proof. by rewrite map_map. Qed.

(** C36: A restart restores. The files are those of an instance that wrote them
    at different times, each from the state it had then, and are [readable]: no
    less-than sign, newline or NUL in the texts of an account ([savable]; the
    code does not escape them, see [display_name_injects]), group names that
    are plain tokens, numbers in the range of their types and times not
    negative, lines shorter than the buffer of 1000 ([LINE_LEN]), an account
    [admin], distinct user ids, cookie codes of the length of one, and a
    sessions file that was written after the last start (reading empties it,
    see [second_start_undefined]). The security file selects digest access, and
    there is no remote verification. Then the constructor returns, and has: the
    accounts of the users file, where the administrator has full permissions
    whatever the file says and an account that was not in the default group is
    inactive in it ([asLoaded]), with the failure counts of the counts file,
    zero for a user that is not in it ([countIn]); the next user id, the
    password hashes and the sessions of their files; and the lock belongs to
    its holder on file if a session of theirs was restored, and else to nobody. *)
Theorem restart_restores users hashes sessions counts lock w0 :
  readable users hashes sessions counts lock -> fresh w0 -> selectedSecurity securityLine = SECURITY_TYPE_DIGEST_ACCESS ->
  exists w', construct saveUsers securityLine getenv systemVariables_ (S expansionFuel) stamp unsetId unsetVersion now clock canCreate
      (mkFiles (Some (saveHashesFile hashes)) (Some (saveUsersFile users)) (Some (saveActiveSessions sessions))
         (Some (saveLoginFailureCounts counts)) (Some (saveLockStateToFile lock))) w0 = (Ok tt, w') /\
    Users_ w' = map (fun u => set_failures (asLoaded u) (countIn (Users_ counts) (userId_ u))) (Users_ users) /\
    usersNextUserId_ w' = usersNextUserId_ users /\ Hashes_ w' = Hashes_ hashes /\ ActiveSessions_ w' = ActiveSessions_ sessions /\
    remoteLoginVerificationEnabled_ w' = false /\
    usersUsernameWithLock_ w' = if isUsernameActive w' (usersUsernameWithLock_ lock) then usersUsernameWithLock_ lock else [].
Proof.
  intros [Hu Hids Hnext Hadmin Hh Hs [Hcn Hcr] Hlock] H0 Hsec. unfold construct. cbn [hashesFile usersFile sessionsFile countsFile lockFile].
  rewrite (bind_ok _ _ _ _ _ (loadDatabases_back users hashes w0 Hu Hnext Hh H0)). set (w1 := set_Users _ _ _).
  unfold loadSecuritySelection. rewrite (bind_ok (modify _) _ w1 tt _ eq_refl). rewrite Hsec.
  change (negb (textEq SECURITY_TYPE_DIGEST_ACCESS SECURITY_TYPE_NONE)) with true.
  set (w2 := set_addresses _ _). rewrite (bind_ok (gets _) _ w2 _ w2 eq_refl).
  destruct (searchUsersDatabaseForUsername w2 DEFAULT_ADMIN_USERNAME) as [i|] eqn:Hadm; cbn [found negb].
  2:{ apply search_none_key in Hadm. destruct Hadm. change (Users_ w2) with (map asLoaded (Users_ users)). by rewrite asLoaded_names. }
  rewrite (bind_ok _ _ _ _ _ (loadActiveSessions_back unsetVersion sessions w2 Hs)).
  assert (ActiveSessions_ w2 = []) as -> by apply (fr_sessions _ H0). cbn [app]. set (w3 := set_ActiveSessions w2 (ActiveSessions_ sessions)).
  assert (NoDup (map userId_ (Users_ w3))) as Hids3.
  { change (Users_ w3) with (map asLoaded (Users_ users)). by rewrite asLoaded_ids. }
  rewrite (bind_ok (modify _) _ w3 tt _ eq_refl), (loadLoginFailureCounts_back counts w3) by done. set (w4 := set_Users w3 _ _).
  rewrite loadUserWithLock_back; [|done|split; [done|apply (fr_remote _ H0)]| |apply (fr_lock _ H0)].
  2:{ change (Users_ w4) with (withCounts (countIn (Users_ counts)) (Users_ w3)). unfold withCounts. by rewrite map_map. }
  eexists. split; [reflexivity|]. split_and!; try done.
  - change (withCounts (countIn (Users_ counts)) (map asLoaded (Users_ users)) =
      map (fun u => set_failures (asLoaded u) (countIn (Users_ counts) (userId_ u))) (Users_ users)).
    unfold withCounts. by rewrite map_map.
  - apply (fr_remote _ H0).
Qed.
End Restart.

(** ** Instance *)

Definition sampleUser := mkUser (txt "bob") (txt "bob@lab") (txt "Bob > B") (txt "5EED") (<[DEFAULT_USER_GROUP := 1]> {[ txt "shift" := 200 ]})
  7 1000 900 3 (txt "admin") 90000000.
Definition sampleAdmin := mkUser (txt "admin") (txt "root@lab") (txt "Administrator") (txt "A0")
  (<[DEFAULT_USER_GROUP := 255]> {[ txt "experts" := 100 ]}) 0 1000 900 0 [] 90000000.
Definition sampleSession := mkSession (repeat (chr 65) COOKIE_CODE_LENGTH) (txt "10.0.0.5") 7 1 1000 1100.
(** The instance at the launch request, and a wrong password of "bob" later,
    when the users file is written for another account's sake; a member of no
    group is among the accounts. *)
Definition sampleGuest := mkUser (txt "carl") [] (txt "Carl") [] {[ txt "shift" := 1 ]} 9 0 900 0 [] 90000000.
Definition sampleLaunch := mkWeb [] [sampleSession] ∅ [sampleAdmin; sampleUser] 8 (txt "bob") [] [mkHash (txt "abcdef") 5] exampleAddresses
  true false false 0 0.
Definition sampleState := mkWeb [] [] ∅ [sampleAdmin; set_failures sampleUser 5; sampleGuest] 10 (txt "bob") []
  [mkHash (txt "abcdef") 5; mkHash (txt "123456") 6] exampleAddresses true false false 0 0.
Definition sampleFresh := mkWeb [] [] ∅ [] 0 [] [] [] exampleAddresses true false false 0 0.

Ltac decided := apply (bool_decide_unpack _); by vm_compute.

Lemma sample_group g l : Forall (StringLists.plainChar (txt ",|&") (txt "=:") StringLists.ws_default) g -> cleanValue g -> g <> [] ->
  in_range 8 l -> levelOk (g, l).
Proof. intros H1 H2 H3 H4. split; [|exact H4]. split; [by split|exact H2]. Qed.
Ltac group := apply sample_group; [unfold StringLists.plainChar; decided|tag|done|done].

Ltac sample groups :=
  split; [repeat (apply Forall_cons_2; [tag|]); apply Forall_nil_2|done|repeat (apply Forall_cons_2; [by split|]); apply Forall_nil_2|done
    |groups|apply Nat.ltb_lt; by vm_compute].

Lemma sampleUser_savable : savable (set_failures sampleUser 5).
Proof. sample ltac:(apply map_Forall_insert_2; [group|]; apply map_Forall_singleton; group). Qed.
Lemma sampleAdmin_savable : savable sampleAdmin.
Proof. sample ltac:(apply map_Forall_insert_2; [group|]; apply map_Forall_singleton; group). Qed.
Lemma sampleGuest_savable : savable sampleGuest.
Proof. sample ltac:(apply map_Forall_singleton; group). Qed.

Lemma sample_readable : readable sampleState sampleState sampleLaunch sampleLaunch sampleLaunch.
Proof.
  split.
  - repeat (apply Forall_cons_2; [first [exact sampleAdmin_savable|exact sampleUser_savable|exact sampleGuest_savable]|]). apply Forall_nil_2.
  - decided.
  - done.
  - left.
  - repeat (apply Forall_cons_2; [split; [tag|apply Nat.leb_le; reflexivity|done]|]). apply Forall_nil_2.
  - apply Forall_cons_2; [|apply Forall_nil_2].
    split; [split; [tag|reflexivity]|split; [tag|apply Nat.ltb_lt; reflexivity]|by split|by split].
  - split; [decided|]. repeat (apply Forall_cons_2; [by repeat split|]). apply Forall_nil_2.
  - split; [tag|apply Nat.ltb_lt; reflexivity].
Qed.

(** "bob" has the count of the counts file, the member of no group is inactive,
    the administrator's other groups are gone, and the session of the launch
    and the lock are back. *)
Lemma restart_restores_witness : exists w',
  construct (fun _ => true) (txt "DigestAccessAuthentication") (fun _ => None) ∅ 5 0 0 0 1200 0 true
    (mkFiles (Some (saveHashesFile sampleState)) (Some (saveUsersFile sampleState)) (Some (saveActiveSessions sampleLaunch))
       (Some (saveLoginFailureCounts sampleLaunch)) (Some (saveLockStateToFile sampleLaunch))) sampleFresh = (Ok tt, w') /\
  Users_ w' = [set_permissions sampleAdmin {[ DEFAULT_USER_GROUP := 255 ]}; sampleUser;
    set_permissions sampleGuest (<[DEFAULT_USER_GROUP := 0]> {[ txt "shift" := 1 ]})] /\
  ActiveSessions_ w' = [sampleSession] /\ usersUsernameWithLock_ w' = txt "bob".
Proof.
  destruct (restart_restores (fun _ => true) (txt "DigestAccessAuthentication") (fun _ => None) ∅ 4 0 0 0 1200 0 true
    sampleState sampleState sampleLaunch sampleLaunch sampleLaunch sampleFresh) as (w' & E & Hu & _ & _ & Ha & Hr & Hl).
  - exact sample_readable.
  - by split.
  - by vm_compute.
  - exists w'. split_and!; [exact E|rewrite Hu; vm_compute; reflexivity|exact Ha|]. rewrite Hl.
    assert (isUsernameActive w' (txt "bob") = true) as Hb.
    { unfold isUsernameActive, searchUsersDatabaseForUsername, isUserIdActive. rewrite Hr, Hu, Ha. vm_compute. reflexivity. }
    change (usersUsernameWithLock_ sampleLaunch) with (txt "bob"). rewrite Hb. reflexivity.
Defined.

(** *** What does not survive *)

(** A less-than sign in a display name ends the field: what follows is read as
    other fields, here as another user id. *)
Lemma display_name_injects : forall u, displayName_ u = txt "x</a><b></b><c>0" ->
  username_ u = txt "bob" -> salt_ u = txt "5EED" -> userId_ u = 7 ->
  firstn 4 (lineFields Nat.even (endLine (userLine u))) =
    [(0%nat, txt "bob"); (1%nat, txt "x"); (2%nat, []); (3%nat, txt "0")].
Proof.
  intros u Hd Hn Hs Hi. unfold userLine, entryLine, userFields. rewrite Hd, Hn, Hs, Hi. cbn [flat_map].
  match goal with |- context [fieldText (txt "uid", ?v) ++ ?r] => generalize (fieldText (txt "uid", v) ++ r) end. intros rest.
  reflexivity.
Qed.

(** The sessions file is emptied once it was read, so that a start without a
    save in between reads a line that is not there. *)
Lemma second_start_undefined : (loadActiveSessions 0 (Some []) sampleFresh).1 = Throw Undefined.
Proof. reflexivity. Qed.
End Restart.
