(* ===== verification/SystemMessages.v ===== *)
(** * System messages

    src/otsdaq/WebUsersUtilities/WebUsers.cc: messages to users of the web
    desktop ([addSystemMessage], [addSystemMessageToMap], [getSystemMessage],
    [getLastSystemMessage], [getAllSystemMessages], [systemMessageCleanup]).

    A message is kept by display name; the name of one star is everybody.  The
    accounts are read only; the mail that goes out is a result (its addresses).
    The mutex is not modelled: each call is one step. *)

From stdpp Require Import sorting.
From S2P Require Import Prelude CText StringMacros StringLists WebUsers Accounts UsersDatabase.

Module SystemMessages.
Import WebUsers Accounts UsersDatabase.

Definition SYS_CLEANUP_WILDCARD_TIME : Z := 300.
Definition SYS_CLEANUP_USER_MESSAGE_TIME : Z := 15.
Definition wildcard : text := txt "*".

Record SystemMessage := mkMessage {
  message_ : text;
  creationTime_ : Z;
  firstDeliveryTime_ : Z;
  delivered_ : bool;
  deliveredRemote_ : bool;
}.
Definition newMessage (now : Z) (message : text) : SystemMessage := mkMessage message now 0 false false.
(** [systemMessages_] *)
Abbreviation Messages := (gmap text (list SystemMessage)).

(** ** Cleanup *)

Definition shouldRemove (now : Z) (user : text) (m : SystemMessage) : bool :=
  if textEq user wildcard then creationTime_ m + SYS_CLEANUP_WILDCARD_TIME <? now
  else if delivered_ m && (firstDeliveryTime_ m + SYS_CLEANUP_USER_MESSAGE_TIME <? now) then true
  else creationTime_ m + SYS_CLEANUP_WILDCARD_TIME <? now.
(** The erasing loop of one user. *)
Fixpoint cleanupUser (now : Z) (user : text) (l : list SystemMessage) : list SystemMessage :=
  match l with
  | [] => []
  | m :: l => if shouldRemove now user m then cleanupUser now user l else m :: cleanupUser now user l
  end.
(** A user whose messages are all gone keeps an empty entry. *)
Definition systemMessageCleanup (now : Z) : M Messages unit := modify (map_imap (fun user l => Some (cleanupUser now user l))).

(** ** Adding *)

Definition addSystemMessageToMap (now : Z) (targetUser fullMessage : text) : M Messages unit := modify (fun ms =>
  match ms !! targetUser with
  | None => <[targetUser := [newMessage now fullMessage]]> ms
  | Some l =>
      match last l with
      | Some m => if textEq (message_ m) fullMessage then ms else <[targetUser := l ++ [newMessage now fullMessage]]> ms
      | None => <[targetUser := l ++ [newMessage now fullMessage]]> ms
      end
  end).

Definition validEmail (email : text) : bool :=
  (5 <? length email)%nat && StringLists.mem (chr 64) email && StringLists.mem (chr 46) email.

Section Add.
Variables (getenv : text -> option text) (systemVariables_ : gmap text (gmap text text)) (expansionFuel : nat).
Variable w : WebUsers.

(** The accounts of a group with at least a level; without an address an
    account is passed over. *)
Definition inGroup (group : text) (level : Z) u : bool :=
  let userLevel := getPermissionLevelForGroup (getPermissionsForUser w (userId_ u)) group in
  negb (userLevel =? PERMISSION_LEVEL_INACTIVE) && (level <=? userLevel) && validEmail (email_ u).

Fixpoint notifyAll (now : Z) (fullMessage : text) (users : list User) : M Messages unit :=
  match users with
  | [] => mret tt
  | u :: users => addSystemMessageToMap now (displayName_ u) fullMessage ≫= fun _ => notifyAll now fullMessage users
  end.

Definition emailsOf (users : list User) : gset text := list_to_set (map email_ users).

(** The address of the first account with the display name. *)
Definition emailOf (displayName : text) : gset text :=
  match search (fun u => textEq (displayName_ u) displayName) (Users_ w) with
  | Some i => match Users_ w !! i with Some u => if validEmail (email_ u) then {[ email_ u ]} else ∅ | None => ∅ end
  | None => ∅
  end.

(** One target: a display name, a star, or a group and its lowest level. *)
Definition addTarget (now : Z) (fullMessage : text) (doEmail : bool) (targetUser : text) : M Messages (gset text) :=
  if textEq targetUser [] || (negb (textEq targetUser wildcard) && (length targetUser <? 3)%nat) then mret ∅
  else if doEmail && textEq targetUser wildcard then
    addSystemMessageToMap now targetUser fullMessage ≫= fun _ =>
    mret (emailsOf (List.filter (fun u => validEmail (email_ u)) (Users_ w)) ∪ emailOf targetUser)
  else if StringLists.mem StringLists.colon targetUser then
    targetGroupMap ← lift (permissionsFromString getenv systemVariables_ expansionFuel targetUser);
    match targetGroupMap with
    | [(group, level)] =>
        let users := List.filter (inGroup group level) (Users_ w) in
        notifyAll now fullMessage users ≫= fun _ => mret (if doEmail then emailsOf users else ∅)
    | _ => mret ∅
    end
  else
    addSystemMessageToMap now targetUser fullMessage ≫= fun _ => mret (if doEmail then emailOf targetUser else ∅).

Fixpoint addTargets (now : Z) (fullMessage : text) (doEmail : bool) (targets : list text) (emails : gset text) : M Messages (gset text) :=
  match targets with
  | [] => mret emails
  | t :: targets => more ← addTarget now fullMessage doEmail t; addTargets now fullMessage doEmail targets (emails ∪ more)
  end.

Definition fullMessageOf (subject message : text) : text :=
  StringMacros.encodeURIComponent ((if textEq subject [] then [] else subject ++ txt ": ") ++ message).

(** The addresses the mail is sent to; without its file ([canWrite]) the call
    throws. *)
Definition addSystemMessage (now : Z) (targetUsers : list text) (subject message : text) (doEmail canWrite : bool) : M Messages (gset text) :=
  systemMessageCleanup now ≫= fun _ =>
  emails ← addTargets now (fullMessageOf subject message) doEmail targetUsers ∅;
  if doEmail && negb (bool_decide (emails = ∅)) && negb canWrite then throw RuntimeError else mret emails.

(** The targets as one string. *)
Definition addSystemMessageCSV (now : Z) (targetUsersCSV subject message : text) (doEmail canWrite : bool) : M Messages (gset text) :=
  targets ← lift (StringLists.getVectorFromString targetUsersCSV (txt ",|&") StringLists.ws_default);
  addSystemMessage now targets.1 subject message doEmail canWrite.
End Add.

(** ** Delivery *)

Definition getLastSystemMessage (ms : Messages) : text * Z :=
  match ms !! wildcard with
  | Some l => match last l with Some m => (message_ m, creationTime_ m) | None => ([], 0) end
  | None => ([], 0)
  end.

Definition bar : text := txt "|".
(** [sprintf(tmp, "%lu", creationTime_)] *)
Definition renderMessage (m : SystemMessage) : text := print_lu (creationTime_ m) ++ bar ++ message_ m.

Definition markDelivered (now : Z) (m : SystemMessage) : SystemMessage :=
  mkMessage (message_ m) (creationTime_ m) (if negb (delivered_ m) then now else firstDeliveryTime_ m) true (deliveredRemote_ m).

Definition messagesFor (ms : Messages) (user : text) : list SystemMessage := default [] (ms !! user).

Definition getSystemMessage (now : Z) (targetUser : text) : M Messages text :=
  ms ← gets id;
  let retStr := StringLists.join bar true (map renderMessage (messagesFor ms wildcard ++ messagesFor ms targetUser)) in
  modify (fun ms => alter (map (markDelivered now)) targetUser ms) ≫= fun _ =>
  systemMessageCleanup now ≫= fun _ =>
  mret retStr.

(** The display names in the order of the map. *)
Definition targetsOf (ms : Messages) : list text := merge_sort textLe (map fst (map_to_list ms)).

Definition renderRemote (user : text) (m : SystemMessage) : text :=
  user ++ bar ++ to_string_signed (creationTime_ m) ++ bar ++ message_ m.
Definition markRemote (m : SystemMessage) : SystemMessage :=
  mkMessage (message_ m) (creationTime_ m) (firstDeliveryTime_ m) (delivered_ m) true.
(** What was not delivered to the remote monitor yet, and marks it. *)
Definition undeliveredRemote (ms : Messages) : list text :=
  flat_map (fun user => map (renderRemote user) (List.filter (fun m => negb (deliveredRemote_ m)) (messagesFor ms user))) (targetsOf ms).
Definition getAllSystemMessages : M Messages text := fun ms =>
  (Ok (StringLists.join bar true (undeliveredRemote ms)), fmap (map markRemote) ms).

(** ** A message stays until it is due *)

(** The same message in the same state of delivery. *)
Definition sameMessage (m m' : SystemMessage) : Prop :=
  message_ m' = message_ m /\ creationTime_ m' = creationTime_ m /\ firstDeliveryTime_ m' = firstDeliveryTime_ m /\ delivered_ m' = delivered_ m.
Definition holdsMessage (user : text) (m : SystemMessage) (ms : Messages) : Prop :=
  exists m', m' ∈ messagesFor ms user /\ sameMessage m m'.

Lemma shouldRemove_same now user m m' : sameMessage m m' -> shouldRemove now user m' = shouldRemove now user m.
Proof. intros (_ & E1 & E2 & E3). unfold shouldRemove. by rewrite E1, E2, E3. Qed.

Lemma cleanupUser_in now user l m : m ∈ cleanupUser now user l <-> m ∈ l /\ shouldRemove now user m = false.
Proof.
  induction l as [|a l IH]; cbn [cleanupUser].
  - rewrite elem_of_nil. tauto.
  - destruct (shouldRemove now user a) eqn:E; rewrite !elem_of_cons, IH.
    + split; [tauto|]. intros [[->|H] Hm]; [congruence|done].
    + split; [|tauto]. intros [->|H]; tauto.
Qed.
Lemma messagesFor_cleanup now user ms :
  messagesFor (map_imap (fun user l => Some (cleanupUser now user l)) ms) user = cleanupUser now user (messagesFor ms user).
Proof.
  unfold messagesFor. rewrite (map_lookup_imap (M := gmap text)). by destruct (ms !! user).
Qed.

Lemma keeps_cleanup now user m : shouldRemove now user m = false -> keeps (holdsMessage user m) (systemMessageCleanup now).
Proof.
  intros Hr. apply keeps_modify. intros ms (m' & Hin & Hs). exists m'. split; [|done].
  rewrite messagesFor_cleanup, cleanupUser_in. split; [done|]. by rewrite (shouldRemove_same _ _ m m').
Qed.

Lemma messagesFor_insert ms u user l : messagesFor (<[u := l]> ms) user = if decide (u = user) then l else messagesFor ms user.
Proof.
  unfold messagesFor. destruct (decide (u = user)) as [->|H]; [by rewrite lookup_insert_eq|by rewrite lookup_insert_ne].
Qed.
Lemma addToMap_grows now u full ms user :
  exists l, messagesFor (addSystemMessageToMap now u full ms).2 user = messagesFor ms user ++ l /\ Forall (fun m => m = newMessage now full) l.
Proof.
  unfold addSystemMessageToMap, modify. cbn [snd].
  assert (exists l, messagesFor ms user = messagesFor ms user ++ l /\ Forall (fun m => m = newMessage now full) l) as Hsame
    by (exists []; by rewrite app_nil_r).
  destruct (ms !! u) as [l0|] eqn:E.
  - assert (messagesFor ms u = l0) as El by (unfold messagesFor; by rewrite E).
    assert (exists l, messagesFor (<[u := l0 ++ [newMessage now full]]> ms) user = messagesFor ms user ++ l /\ Forall (fun m => m = newMessage now full) l) as Hnew.
    { rewrite messagesFor_insert. destruct (decide (u = user)) as [->|]; [|exact Hsame]. rewrite El. exists [newMessage now full].
      by repeat constructor. }
    destruct (last l0); [|exact Hnew]. by destruct (textEq _ _).
  - rewrite messagesFor_insert. destruct (decide (u = user)) as [->|]; [|exact Hsame].
    exists [newMessage now full]. split; [|by repeat constructor]. unfold messagesFor. by rewrite E.
Qed.

Lemma keeps_addToMap now u full user m : keeps (holdsMessage user m) (addSystemMessageToMap now u full).
Proof.
  intros ms (m' & Hin & Hs). exists m'. split; [|done]. destruct (addToMap_grows now u full ms user) as (l & -> & _).
  apply elem_of_app. by left.
Qed.

(** ** Runs *)

Inductive op :=
| Post (now : Z) (targetUsers : list text) (subject message : text) (doEmail canWrite : bool)
| Poll (now : Z) (user : text)
| Remote.

Section Runs.
Variables (getenv : text -> option text) (systemVariables_ : gmap text (gmap text text)) (expansionFuel : nat).
Variable w : WebUsers.

Definition perform (o : op) : M Messages unit :=
  match o with
  | Post now targets subject message doEmail canWrite =>
      addSystemMessage getenv systemVariables_ expansionFuel w now targets subject message doEmail canWrite ≫= fun _ => mret tt
  | Poll now user => getSystemMessage now user ≫= fun _ => mret tt
  | Remote => getAllSystemMessages ≫= fun _ => mret tt
  end.
Definition performAll (l : list op) (ms : Messages) : Messages := fold_left (fun ms o => (perform o ms).2) l ms.

Lemma keeps_notifyAll now full users user m : keeps (holdsMessage user m) (notifyAll now full users).
Proof. induction users as [|u users IH]; [apply keeps_ret|]. apply keeps_bind; [apply keeps_addToMap|intros _; exact IH]. Qed.
Lemma keeps_addTarget now full doEmail t user m :
  keeps (holdsMessage user m) (addTarget getenv systemVariables_ expansionFuel w now full doEmail t).
Proof.
  unfold addTarget. apply keeps_if; [apply keeps_ret|]. apply keeps_if.
  { apply keeps_bind; [apply keeps_addToMap|intros _; apply keeps_ret]. }
  apply keeps_if; [|apply keeps_bind; [apply keeps_addToMap|intros _; apply keeps_ret]].
  apply keeps_bind; [apply keeps_lift|]. intros [|[group level] [|]]; try apply keeps_ret.
  apply keeps_bind; [apply keeps_notifyAll|intros _; apply keeps_ret].
Qed.
Lemma keeps_addTargets now full doEmail ts user m : forall emails,
  keeps (holdsMessage user m) (addTargets getenv systemVariables_ expansionFuel w now full doEmail ts emails).
Proof.
  induction ts as [|t ts IH]; intros emails; [apply keeps_ret|]. apply keeps_bind; [apply keeps_addTarget|intros more; apply IH].
Qed.

(** The time of an operation, and whether it marks messages of [user]. *)
Definition timely (user : text) (m : SystemMessage) (o : op) : Prop :=
  match o with
  | Post now _ _ _ _ _ => shouldRemove now user m = false
  | Poll now u => shouldRemove now user m = false /\ (u = user -> delivered_ m = true)
  | Remote => True
  end.

Lemma messagesFor_alter ms f u user : messagesFor (alter f u ms) user = if decide (u = user) then match ms !! user with Some l => f l | None => [] end
  else messagesFor ms user.
Proof.
  unfold messagesFor. destruct (decide (u = user)) as [->|H]; [|by rewrite lookup_alter_ne].
  rewrite lookup_alter_eq. by destruct (ms !! user).
Qed.

Lemma keeps_poll now u user m : shouldRemove now user m = false -> (u = user -> delivered_ m = true) ->
  keeps (holdsMessage user m) (getSystemMessage now u).
Proof.
  intros Hr Hd. apply keeps_bind; [apply keeps_gets|]. intros ms0.
  apply keeps_bind; [|intros _; apply keeps_bind; [by apply keeps_cleanup|intros _; apply keeps_ret]].
  apply keeps_modify. intros ms (m' & Hin & Hs). destruct (decide (u = user)) as [->|Hne].
  - exists (markDelivered now m'). split.
    + rewrite messagesFor_alter, decide_True by done. unfold messagesFor in Hin. destruct (ms !! user) as [l|]; [|by apply elem_of_nil in Hin].
      by apply list_elem_of_fmap_2.
    + destruct Hs as (E1 & E2 & E3 & E4). unfold sameMessage, markDelivered. cbn. rewrite E4, (Hd eq_refl). by split_and!.
  - exists m'. split; [|done]. by rewrite messagesFor_alter, decide_False.
Qed.

Lemma keeps_remote user m : keeps (holdsMessage user m) getAllSystemMessages.
Proof.
  intros ms (m' & Hin & Hs). exists (markRemote m'). split; [|exact Hs]. unfold getAllSystemMessages. cbn [snd]. unfold messagesFor in *.
  rewrite lookup_fmap. destruct (ms !! user) as [l|]; [|by apply elem_of_nil in Hin]. by apply list_elem_of_fmap_2.
Qed.

Lemma perform_keeps user m o : timely user m o -> keeps (holdsMessage user m) (perform o).
Proof.
  destruct o as [now ts subject message doEmail canWrite|now u|]; cbn [perform timely].
  - intros Hr. apply keeps_bind; [|intros _; apply keeps_ret]. apply keeps_bind; [by apply keeps_cleanup|]. intros _.
    apply keeps_bind; [apply keeps_addTargets|]. intros emails. apply keeps_if; [apply keeps_throw|apply keeps_ret].
  - intros [Hr Hd]. apply keeps_bind; [by apply keeps_poll|intros _; apply keeps_ret].
  - intros _. apply keeps_bind; [apply keeps_remote|intros _; apply keeps_ret].
Qed.
Lemma performAll_keeps user m l ms : Forall (timely user m) l -> holdsMessage user m ms -> holdsMessage user m (performAll l ms).
Proof.
  intros Hl. revert ms. induction Hl as [|o l Ho _ IH]; intros ms Hms; [exact Hms|]. cbn [performAll fold_left]. apply IH.
  by apply perform_keeps.
Qed.

(** ** What a poll delivers *)

Definition replyOf (now : Z) (user : text) (ms : Messages) : text :=
  StringLists.join bar true (map renderMessage (messagesFor ms wildcard ++ messagesFor ms user)).
Lemma getSystemMessage_reply now user ms : (getSystemMessage now user ms).1 = Ok (replyOf now user ms).
Proof. done. Qed.
(** The reply lists the message. *)
Definition shows (now : Z) (user : text) (ms : Messages) (m : SystemMessage) : Prop :=
  exists l, (getSystemMessage now user ms).1 = Ok (StringLists.join bar true l) /\ renderMessage m ∈ l.

Lemma holds_shows now user m ms : holdsMessage user m ms -> shows now user ms m.
Proof.
  intros (m' & Hin & (E1 & E2 & _)). eexists. split; [apply getSystemMessage_reply|].
  apply list_elem_of_fmap. exists m'. unfold renderMessage. rewrite E1, E2. split; [done|]. apply elem_of_app. by right.
Qed.

(** Polling delivers: the message is marked at that time. *)
Lemma poll_delivers now user m ms : holdsMessage user m ms -> delivered_ m = false -> user <> wildcard ->
  now <= creationTime_ m + SYS_CLEANUP_WILDCARD_TIME -> holdsMessage user (markDelivered now m) (perform (Poll now user) ms).2.
Proof.
  intros (m' & Hin & Hs) Hd Hu Hnow. destruct Hs as (E1 & E2 & E3 & E4).
  cbn [perform]. unfold getSystemMessage.
  exists (markDelivered now m'). split.
  - change (markDelivered now m' ∈ messagesFor (systemMessageCleanup now (alter (map (markDelivered now)) user ms)).2 user).
    unfold systemMessageCleanup, modify. cbn [snd]. rewrite messagesFor_cleanup, cleanupUser_in. split.
    + rewrite messagesFor_alter, decide_True by done. unfold messagesFor in Hin. destruct (ms !! user) as [l|]; [|by apply elem_of_nil in Hin].
      by apply list_elem_of_fmap_2.
    + unfold shouldRemove, markDelivered. rewrite (textEq_neq _ _ Hu). cbn [delivered_ firstDeliveryTime_ creationTime_].
      rewrite E2, E4, Hd. cbn [negb andb].
      unfold SYS_CLEANUP_USER_MESSAGE_TIME. destruct (Z.ltb_spec (now + 15) now); [lia|].
      destruct (Z.ltb_spec (creationTime_ m + SYS_CLEANUP_WILDCARD_TIME) now); [lia|done].
  - unfold sameMessage, markDelivered. cbn. by rewrite E1, E2, E3, E4.
Qed.

(** ** Properties *)

(** The times at which [user]'s message is not due yet: before it was delivered,
    and after a first delivery at [first]. *)
Definition waiting (user : text) (m : SystemMessage) (o : op) : Prop :=
  match o with
  | Post now _ _ _ _ _ => now <= creationTime_ m + SYS_CLEANUP_WILDCARD_TIME
  | Poll now u => now <= creationTime_ m + SYS_CLEANUP_WILDCARD_TIME /\ u <> user
  | Remote => True
  end.
Definition repeating (first : Z) (m : SystemMessage) (o : op) : Prop :=
  match o with
  | Post now _ _ _ _ _ | Poll now _ =>
      now <= first + SYS_CLEANUP_USER_MESSAGE_TIME /\ now <= creationTime_ m + SYS_CLEANUP_WILDCARD_TIME
  | Remote => True
  end.

Lemma waiting_timely user m o : user <> wildcard -> delivered_ m = false -> waiting user m o -> timely user m o.
Proof.
  intros Hu Hd. assert (forall now, now <= creationTime_ m + SYS_CLEANUP_WILDCARD_TIME -> shouldRemove now user m = false) as H.
  { intros now Hnow. unfold shouldRemove. rewrite (textEq_neq _ _ Hu), Hd. cbn [andb].
    destruct (Z.ltb_spec (creationTime_ m + SYS_CLEANUP_WILDCARD_TIME) now); [lia|done]. }
  destruct o; cbn; [apply H| |done]. intros [Hn Hne]. split; [by apply H|]. by intros ->.
Qed.
Lemma repeating_timely user first m o : user <> wildcard -> delivered_ m = false -> repeating first m o ->
  timely user (markDelivered first m) o.
Proof.
  intros Hu Hd. assert (forall now, now <= first + SYS_CLEANUP_USER_MESSAGE_TIME -> now <= creationTime_ m + SYS_CLEANUP_WILDCARD_TIME ->
    shouldRemove now user (markDelivered first m) = false) as H.
  { intros now H1 H2. unfold shouldRemove, markDelivered. rewrite (textEq_neq _ _ Hu), Hd. cbn [delivered_ firstDeliveryTime_ creationTime_ negb andb].
    destruct (Z.ltb_spec (first + SYS_CLEANUP_USER_MESSAGE_TIME) now); [lia|].
    destruct (Z.ltb_spec (creationTime_ m + SYS_CLEANUP_WILDCARD_TIME) now); [lia|done]. }
  destruct o; cbn; [intros [??]; by apply H|intros [??]; split; [by apply H|done]|done].
Qed.

(** C39: A message reaches every tab of its user. However many other messages
    are sent and polled for in between, the first poll of the user within five
    minutes of its creation ([SYS_CLEANUP_WILDCARD_TIME]) shows it. So does
    every poll after that, as long as every operation up to then is within
    fifteen seconds of the first delivery ([SYS_CLEANUP_USER_MESSAGE_TIME]) and
    within the same five minutes of the creation ([repeating]): the fifteen
    seconds are cut short where the five minutes end (see [late_delivery_cut]). *)
Theorem message_reaches_every_tab user m ms l1 t1 l2 t2 :
  user <> wildcard -> delivered_ m = false -> holdsMessage user m ms ->
  Forall (waiting user m) l1 -> t1 <= creationTime_ m + SYS_CLEANUP_WILDCARD_TIME ->
  Forall (repeating t1 m) l2 ->
  shows t1 user (performAll l1 ms) m /\ shows t2 user (performAll (l1 ++ Poll t1 user :: l2) ms) m.
Proof.
  intros Hu Hd Hm Hl1 Ht1 Hl2.
  assert (holdsMessage user m (performAll l1 ms)) as H1.
  { apply performAll_keeps; [|done]. eapply Forall_impl; [exact Hl1|]. intros o. by apply waiting_timely. }
  split; [by apply holds_shows|].
  unfold performAll. rewrite fold_left_app. cbn [fold_left].
  pose proof (poll_delivers t1 user m _ H1 Hd Hu Ht1) as H2.
  apply (performAll_keeps user (markDelivered t1 m) l2) in H2.
  2:{ eapply Forall_impl; [exact Hl2|]. intros o. by apply repeating_timely. }
  destruct (holds_shows t2 user (markDelivered t1 m) _ H2) as (l & E & Hin). exists l. split; [exact E|exact Hin].
Qed.
End Runs.

(** ** Reading a reply *)

(** [split] at bars, as the client does. *)
Fixpoint splitBars (s : text) : list text :=
  match s with
  | [] => [[]]
  | c :: s =>
      match splitBars s with
      | [] => [[c]]
      | a :: l => if (c =? chr 124)%char then [] :: a :: l else (c :: a) :: l
      end
  end.
Definition noBar (s : text) : Prop := Forall (fun c => c <> chr 124) s.

Lemma splitBars_one s : noBar s -> splitBars s = [s].
Proof. induction 1 as [|c s Hc _ IH]; [done|]. cbn [splitBars]. rewrite IH. by destruct (Ascii.eqb_spec c (chr 124)). Qed.
Lemma splitBars_cons s rest : noBar s -> splitBars (s ++ chr 124 :: rest) = s :: splitBars rest.
Proof.
  assert (splitBars rest <> []) as Hne by (destruct rest as [|c r]; [done|]; cbn; destruct (splitBars r); [done|]; by destruct (c =? chr 124)%char).
  induction 1 as [|c s Hc _ IH]; cbn [app splitBars].
  - destruct (splitBars rest); [done|]. by rewrite Ascii.eqb_refl.
  - rewrite IH. by destruct (Ascii.eqb_spec c (chr 124)).
Qed.
Lemma splitBars_join l : l <> [] -> Forall noBar l -> splitBars (StringLists.join bar true l) = l.
Proof.
  intros Hne Hl. destruct Hl as [|a l Ha Hl]; [done|]. clear Hne. cbn [StringLists.join app].
  revert a Ha. induction Hl as [|b l Hb _ IH]; intros a Ha; cbn [StringLists.join]; [by rewrite app_nil_r, splitBars_one|].
  change (bar ++ ?r) with (chr 124 :: r). rewrite splitBars_cons by done. f_equal. by apply IH.
Qed.

Lemma encode_noBar s : noBar (StringMacros.encodeURIComponent s).
Proof.
  apply Forall_forall. intros c Hin ->. apply list_elem_of_In, in_flat_map in Hin as (d & _ & Hin).
  revert Hin. by destruct d as [[] [] [] [] [] [] [] []]; vm_compute; intuition discriminate.
Qed.

(** *** Every message on the map is encoded *)

Definition encodedMessage (m : SystemMessage) : Prop := exists t, message_ m = StringMacros.encodeURIComponent t.
Definition allEncoded (ms : Messages) : Prop := forall user, Forall encodedMessage (messagesFor ms user).

Section Encoded.
Variables (getenv : text -> option text) (systemVariables_ : gmap text (gmap text text)) (expansionFuel : nat).
Variable w : WebUsers.

Lemma encoded_addToMap now u t : keeps allEncoded (addSystemMessageToMap now u (StringMacros.encodeURIComponent t)).
Proof.
  intros ms Hms user. destruct (addToMap_grows now u (StringMacros.encodeURIComponent t) ms user) as (l & -> & Hl).
  apply Forall_app. split; [apply Hms|]. eapply Forall_impl; [exact Hl|]. intros m ->. by exists t.
Qed.
Lemma encoded_notifyAll now t users : keeps allEncoded (notifyAll now (StringMacros.encodeURIComponent t) users).
Proof. induction users as [|u users IH]; [apply keeps_ret|]. apply keeps_bind; [apply encoded_addToMap|intros _; exact IH]. Qed.
Lemma encoded_addTargets now t doEmail ts : forall emails,
  keeps allEncoded (addTargets getenv systemVariables_ expansionFuel w now (StringMacros.encodeURIComponent t) doEmail ts emails).
Proof.
  induction ts as [|x ts IH]; intros emails; [apply keeps_ret|]. apply keeps_bind; [|intros more; apply IH].
  unfold addTarget. apply keeps_if; [apply keeps_ret|].
  apply keeps_if; [apply keeps_bind; [apply encoded_addToMap|intros _; apply keeps_ret]|].
  apply keeps_if; [|apply keeps_bind; [apply encoded_addToMap|intros _; apply keeps_ret]].
  apply keeps_bind; [apply keeps_lift|]. intros [|[group level] [|]]; try apply keeps_ret.
  apply keeps_bind; [apply encoded_notifyAll|intros _; apply keeps_ret].
Qed.
Lemma encoded_cleanup now : keeps allEncoded (systemMessageCleanup now).
Proof.
  apply keeps_modify. intros ms Hms user. rewrite messagesFor_cleanup. apply Forall_forall. intros m [Hin _]%cleanupUser_in.
  specialize (Hms user). rewrite Forall_forall in Hms. by apply Hms.
Qed.
Lemma encoded_mark f ms u : (forall m, message_ (f m) = message_ m) -> allEncoded ms -> allEncoded (alter (map f) u ms).
Proof.
  intros Hf Hms user. rewrite messagesFor_alter. destruct (decide (u = user)) as [->|]; [|apply Hms]. specialize (Hms user).
  unfold messagesFor in Hms. destruct (ms !! user) as [l|]; [|constructor]. apply Forall_map. eapply Forall_impl; [exact Hms|].
  intros m [t Ht]. exists t. by rewrite Hf.
Qed.
Lemma encoded_perform o : keeps allEncoded (perform getenv systemVariables_ expansionFuel w o).
Proof.
  destruct o as [now ts subject message doEmail canWrite|now u|]; cbn [perform]; (apply keeps_bind; [|intros _; apply keeps_ret]).
  - apply keeps_bind; [apply encoded_cleanup|]. intros _. apply keeps_bind; [apply encoded_addTargets|]. intros emails.
    apply keeps_if; [apply keeps_throw|apply keeps_ret].
  - apply keeps_bind; [apply keeps_gets|]. intros ms0. apply keeps_bind; [apply keeps_modify; intros ms; by apply encoded_mark|].
    intros _. apply keeps_bind; [apply encoded_cleanup|intros _; apply keeps_ret].
  - intros ms Hms user. unfold getAllSystemMessages. cbn [snd]. specialize (Hms user). unfold messagesFor in *. rewrite lookup_fmap.
    destruct (ms !! user) as [l|]; [|constructor]. apply Forall_map. eapply Forall_impl; [exact Hms|]. done.
Qed.
Lemma encoded_performAll l : forall ms, allEncoded ms -> allEncoded (performAll getenv systemVariables_ expansionFuel w l ms).
Proof. induction l as [|o l IH]; intros ms Hms; [exact Hms|]. cbn [performAll fold_left]. apply IH. by apply encoded_perform. Qed.
End Encoded.

Lemma render_join ms : StringLists.join bar true (map renderMessage ms) =
  StringLists.join bar true (flat_map (fun m => [print_lu (creationTime_ m); message_ m]) ms).
Proof.
  enough (forall b, StringLists.join bar b (map renderMessage ms) =
    StringLists.join bar b (flat_map (fun m => [print_lu (creationTime_ m); message_ m]) ms)) by done.
  induction ms as [|m ms IH]; intros b; [done|]. cbn [map flat_map app StringLists.join]. rewrite IH. unfold renderMessage.
  by rewrite <- !app_assoc.
Qed.

Lemma print_lu_noBar z : noBar (print_lu z).
Proof.
  eapply Forall_impl; [apply to_string_unsigned_digits, (wrap_range 64 z); done|]. intros c Hc%is_digit_code ->. by destruct Hc.
Qed.

(** Replies can be read: whatever was sent, split at its bars a reply is the
    times and texts of the messages for everybody and then of those for the
    user, and each text decodes to what was sent. *)
Theorem reply_readable getenv vars fuel w l now user : let ms := performAll getenv vars fuel w l ∅ in
  let visible := messagesFor ms wildcard ++ messagesFor ms user in
  visible <> [] -> exists reply texts, (getSystemMessage now user ms).1 = Ok reply /\
    splitBars reply = flat_map (fun m => [print_lu (creationTime_ m); message_ m]) visible /\
    Forall2 (fun m t => StringMacros.decodeURIComponent (message_ m) = Some t) visible texts.
Proof.
  intros ms visible Hne. assert (allEncoded ms) as Hms by (apply encoded_performAll; intros u; constructor).
  assert (Forall encodedMessage visible) as Hall by by apply Forall_app.
  exists (StringLists.join bar true (map renderMessage visible)).
  assert (exists texts, Forall2 (fun m t => message_ m = StringMacros.encodeURIComponent t) visible texts) as [texts Ht].
  { clear Hne. induction Hall as [|m v [t Ht] _ [ts IH]]; [by exists []|]. exists (t :: ts). by constructor. }
  exists texts. split; [done|]. split.
  - rewrite render_join. apply splitBars_join; [by destruct visible|].
    clear -Hall. induction Hall as [|m v [t Ht] _ IH]; [constructor|]. cbn [flat_map app]. constructor; [apply print_lu_noBar|].
    constructor; [rewrite Ht; apply encode_noBar|exact IH].
  - eapply Forall2_impl; [exact Ht|]. intros m t E. cbn in E. rewrite E. apply StringMacros.decode_encode_URIComponent.
Qed.

(** ** Instances *)

Definition exampleOps : list op := [Post 1000 [txt "*"] (txt "Shift") (txt "run 7 | starts") false true; Post 1001 [txt "bobby"] [] (txt "call me") false true].
Abbreviation examplePerform l ms := (performAll (fun _ => None) ∅ 5 exampleWeb l ms).

Lemma reply_readable_witness : exists reply, (getSystemMessage 1002 (txt "bobby") (examplePerform exampleOps ∅)).1 = Ok reply /\
  splitBars reply = [txt "1000"; txt "Shift%3A%20run%207%20%7C%20starts"; txt "1001"; txt "call%20me"].
Proof.
  destruct (reply_readable (fun _ => None) ∅ 5 exampleWeb exampleOps 1002 (txt "bobby")) as (reply & texts & E & Hs & _).
  - by vm_compute.
  - exists reply. split; [exact E|]. rewrite Hs. by vm_compute.
Defined.

Lemma message_reaches_every_tab_witness :
  shows 1200 (txt "bobby") (examplePerform [Post 1100 [txt "alice"] [] (txt "hi") false true] (examplePerform exampleOps ∅)) (newMessage 1001 (txt "call%20me")) /\
  shows 1214 (txt "bobby") (examplePerform ([Post 1100 [txt "alice"] [] (txt "hi") false true] ++ Poll 1200 (txt "bobby") :: [Poll 1210 (txt "alice")])
    (examplePerform exampleOps ∅)) (newMessage 1001 (txt "call%20me")).
Proof.
  apply (message_reaches_every_tab (fun _ => None) ∅ 5 exampleWeb (txt "bobby") (newMessage 1001 (txt "call%20me")) (examplePerform exampleOps ∅)).
  - done.
  - done.
  - exists (newMessage 1001 (txt "call%20me")). split; [|by split_and!].
    assert (messagesFor (examplePerform exampleOps ∅) (txt "bobby") = [newMessage 1001 (txt "call%20me")]) as -> by by vm_compute. left.
  - apply Forall_cons_2; [by vm_compute|apply Forall_nil_2].
  - by vm_compute.
  - apply Forall_cons_2; [by vm_compute|apply Forall_nil_2].
Defined.

(** First delivered 295 seconds after its creation, a message is gone six
    seconds later, with the clean-up of another user's poll. *)
Lemma late_delivery_cut :
  let sent := examplePerform exampleOps ∅ in
  messagesFor sent (txt "bobby") = [newMessage 1001 (txt "call%20me")] /\
  messagesFor (examplePerform [Poll 1296 (txt "bobby")] sent) (txt "bobby") <> [] /\
  messagesFor (examplePerform [Poll 1296 (txt "bobby"); Poll 1302 (txt "alice")] sent) (txt "bobby") = [].
Proof. split_and!; by vm_compute. Qed.

(** A message to a group passes over the members without an e-mail address,
    also when no mail is sent. *)
Lemma group_message_needs_address :
  let w := set_Users exampleWeb [mkUser (txt "ann") (txt "none") (txt "Annie") [] {[ DEFAULT_USER_GROUP := 1 ]} 3 0 0 0 [] 0] 8 in
  messagesFor (performAll (fun _ => None) ∅ 5 w [Post 1000 [txt "allUsers:1"] [] (txt "hello") false true] ∅) (txt "Annie") = [].
Proof. by vm_compute. Qed.
End SystemMessages.
