(* ===== verification/Doubles.v ===== *)
(** * Double-precision numbers in strings

    The [double] instance of [getNumber] in src/otsdaq/Macros/StringMacros.icc.
    A [double] is an IEEE 754 binary64 value as the Standard Library specifies
    it ([spec_float] with 53 bits of precision), so sums, products, quotients
    and comparisons are the machine's, rounding included. *)

From Stdlib Require Export SpecFloat.
From S2P Require Import Prelude CText StringLists.

Module Doubles.

Abbreviation double := spec_float.
Abbreviation prec := 53 (only parsing).
Abbreviation emax := 1024 (only parsing).

Definition zero : double := S754_zero false.
(** [(double)z], rounded to nearest even. *)
Definition ofZ (z : Z) : double := binary_normalize prec emax z 0 false.
Definition ltb : double -> double -> bool := SFltb.

(** ** strtod on digits, points and signs

    [getNumber] passes it tokens of these characters only; reading stops at the
    first character that does not continue a decimal number. *)

(** [m / 10 ^ k] with a sign, correctly rounded. *)
Definition ofDecimal (neg : bool) (m : Z) (k : Z) : double :=
  match m with
  | Zpos _ =>
      if k =? 0 then binary_normalize prec emax (if neg then - m else m) 0 neg
      else let '(q, e, l) := SFdiv_core_binary prec emax m 0 (10 ^ k) 0 in binary_round_aux prec emax neg q e l
  | _ => S754_zero neg
  end.
Fixpoint countDigits (s : text) : Z :=
  match s with
  | c :: s => if is_digit c then 1 + countDigits s else 0
  | [] => 0
  end.
Fixpoint afterDigits (s : text) : text :=
  match s with
  | c :: s' => if is_digit c then afterDigits s' else s
  | [] => []
  end.
Definition strtod (s : text) : double :=
  let '(neg, s) := match skip_space s with
                   | c :: s' => if (c =? StringLists.minus)%char then (true, s') else if (c =? StringLists.plus)%char then (false, s') else (false, c :: s')
                   | [] => (false, [])
                   end in
  let whole := read_digits s 0 in
  match afterDigits s with
  | c :: s' =>
      if (c =? StringLists.dot)%char then
        let k := countDigits s' in
        if (countDigits s =? 0) && (k =? 0) then zero else ofDecimal neg (read_digits s' whole) k
      else if countDigits s =? 0 then zero else ofDecimal neg whole 0
  | [] => if countDigits s =? 0 then zero else ofDecimal neg whole 0
  end.

(** ** getNumber<double> *)

Definition literalValue (number : text) : double :=
  match StringLists.literalForm number with
  | StringLists.Decimal => strtod number
  | _ => ofZ (StringLists.literalValue number)
  end.
Definition applyOp (op : ascii) (a b : double) : double :=
  if (op =? StringLists.plus)%char then SFadd prec emax a b
  else if (op =? StringLists.minus)%char then SFsub prec emax a b
  else if (op =? StringLists.times)%char then SFmul prec emax a b
  else SFdiv prec emax a b.
(** As [StringLists.evalLoop]. *)
Fixpoint evalLoop (numbers : list text) (ops : list ascii) (first : bool) (retValue : double) : option (bool * double) :=
  match numbers with
  | [] => Some (true, retValue)
  | number :: numbers =>
      if textEq number [] then evalLoop numbers ops first retValue
      else if negb (StringLists.validLiteral number) then Some (false, retValue)
      else
        let tmpValue := literalValue number in
        if first then evalLoop numbers ops false tmpValue
        else
          match ops with
          | [] => None
          | op :: ops => evalLoop numbers ops false (applyOp op retValue tmpValue)
          end
  end.
Definition getNumber (s : text) : result (option (bool * double)) :=
  '(numbers, ops) ← StringLists.splitNumbers s;
  let '(processedNumbers, processedOps) := StringLists.unaryLoop numbers false ops [] [] in
  Ok (evalLoop (StringLists.leadingUnary numbers ops processedNumbers) processedOps true zero).

Example strtod_tenth : strtod (txt "0.1") = S754_finite false 7205759403792794 (-56).
Proof. reflexivity. Qed.
Example sum_of_tenths : getNumber (txt "0.1 + 0.2") = Ok (Some (true, S754_finite false 5404319552844596 (-54))).
Proof. by vm_compute. Qed.
End Doubles.
