(* ===== verification/TableViewColumnInfo.v ===== *)
(** * The columns of a table

    src/otsdaq/TableCore/TableViewColumnInfo.cc and .h: what a column is (its
    type, names, data type, default, choices and limits), the check of all of it
    in the constructor, and the questions the tables ask about types. *)

From S2P Require Import Prelude CText StringMacros StringLists Doubles.

Module TableViewColumnInfo.
Import Doubles.

(** ** Names of types *)

Definition TYPE_UID : text := txt "UID".
Definition TYPE_DATA : text := txt "Data".
Definition TYPE_UNIQUE_DATA : text := txt "UniqueData".
Definition TYPE_UNIQUE_GROUP_DATA : text := txt "UniqueGroupData".
Definition TYPE_MULTILINE_DATA : text := txt "MultilineData".
Definition TYPE_FIXED_CHOICE_DATA : text := txt "FixedChoiceData".
Definition TYPE_BITMAP_DATA : text := txt "BitMap".
Definition TYPE_ON_OFF : text := txt "OnOff".
Definition TYPE_TRUE_FALSE : text := txt "TrueFalse".
Definition TYPE_YES_NO : text := txt "YesNo".
Definition TYPE_START_CHILD_LINK : text := txt "ChildLink".
Definition TYPE_START_CHILD_LINK_UID : text := txt "ChildLinkUID".
Definition TYPE_START_CHILD_LINK_GROUP_ID : text := txt "ChildLinkGroupID".
Definition TYPE_START_GROUP_ID : text := txt "GroupID".
Definition TYPE_COMMENT : text := txt "Comment".
Definition TYPE_AUTHOR : text := txt "Author".
Definition TYPE_TIMESTAMP : text := txt "Timestamp".
Definition DATATYPE_NUMBER : text := txt "NUMBER".
Definition DATATYPE_STRING : text := txt "STRING".
Definition DATATYPE_TIME : text := txt "TIMESTAMP WITH TIMEZONE".
Definition TYPE_VALUE_YES : text := txt "Yes".
Definition TYPE_VALUE_NO : text := txt "No".
Definition TYPE_VALUE_TRUE : text := txt "True".
Definition TYPE_VALUE_FALSE : text := txt "False".
Definition TYPE_VALUE_ON : text := txt "On".
Definition TYPE_VALUE_OFF : text := txt "Off".
Definition DATATYPE_STRING_DEFAULT : text := txt "DEFAULT".
Definition DATATYPE_STRING_ALT_DEFAULT : text := txt "Default".
Definition DATATYPE_COMMENT_DEFAULT : text := txt "No comment.".
Definition DATATYPE_BOOL_DEFAULT : text := txt "0".
Definition DATATYPE_NUMBER_DEFAULT : text := txt "0".
Definition DATATYPE_NUMBER_MIN_DEFAULT : text := [].
Definition DATATYPE_NUMBER_MAX_DEFAULT : text := [].
Definition DATATYPE_TIME_DEFAULT : text := txt "0".
Definition DATATYPE_LINK_DEFAULT : text := txt "NO_LINK".
Definition COL_NAME_STATUS : text := txt "Status".
Definition COL_NAME_ENABLED : text := txt "Enabled".
Definition COL_NAME_PRIORITY : text := txt "Priority".
Definition COL_NAME_COMMENT : text := txt "CommentDescription".

(** ** Links

    A type that begins with [start] and goes on with a dash. *)
Definition linkType (start type : text) : bool :=
  starts_with start type && match drop (length start) type with c :: _ => (c =? StringLists.minus)%char | [] => false end.
Definition isChildLink (type : text) : bool := linkType TYPE_START_CHILD_LINK type.
Definition isChildLinkUID (type : text) : bool := linkType TYPE_START_CHILD_LINK_UID type.
Definition isChildLinkGroupID (type : text) : bool := linkType TYPE_START_CHILD_LINK_GROUP_ID type.
Definition isGroupID (type : text) : bool := linkType TYPE_START_GROUP_ID type.
Definition isUID (type : text) : bool := textEq type TYPE_UID.
Definition isBoolType (type : text) : bool := textEq type TYPE_ON_OFF || textEq type TYPE_TRUE_FALSE || textEq type TYPE_YES_NO.

Definition getChildLinkIndex (type : text) : result text :=
  if isChildLink type then Ok (drop (length TYPE_START_CHILD_LINK + 1) type)
  else if isChildLinkUID type then Ok (drop (length TYPE_START_CHILD_LINK_UID + 1) type)
  else if isChildLinkGroupID type then Ok (drop (length TYPE_START_CHILD_LINK_GROUP_ID + 1) type)
  else if isGroupID type then Ok (drop (length TYPE_START_GROUP_ID + 1) type)
  else Throw RuntimeError.

(** ** Defaults *)

Definition getDefaultDefaultValue (type dataType : text) : result text :=
  if textEq dataType DATATYPE_STRING then
    Ok (if isBoolType type then DATATYPE_BOOL_DEFAULT
        else if isChildLink type then DATATYPE_LINK_DEFAULT
        else if textEq type TYPE_COMMENT then DATATYPE_COMMENT_DEFAULT
        else DATATYPE_STRING_DEFAULT)
  else if textEq dataType DATATYPE_NUMBER then Ok DATATYPE_NUMBER_DEFAULT
  else if textEq dataType DATATYPE_TIME then Ok DATATYPE_TIME_DEFAULT
  else Throw RuntimeError.
Definition legalDataType (dataType : text) : bool :=
  textEq dataType DATATYPE_NUMBER || textEq dataType DATATYPE_STRING || textEq dataType DATATYPE_TIME.
Definition getMinDefaultValue (dataType : text) : result text :=
  if legalDataType dataType then Ok DATATYPE_NUMBER_MIN_DEFAULT else Throw RuntimeError.
Definition getMaxDefaultValue (dataType : text) : result text :=
  if legalDataType dataType then Ok DATATYPE_NUMBER_MAX_DEFAULT else Throw RuntimeError.

Definition getAllTypesForGUI : list text :=
  [TYPE_DATA; TYPE_UNIQUE_DATA; TYPE_UNIQUE_GROUP_DATA; TYPE_FIXED_CHOICE_DATA; TYPE_MULTILINE_DATA; TYPE_BITMAP_DATA; TYPE_ON_OFF;
   TYPE_TRUE_FALSE; TYPE_YES_NO; TYPE_START_CHILD_LINK_UID; TYPE_START_CHILD_LINK_GROUP_ID; TYPE_START_CHILD_LINK; TYPE_START_GROUP_ID].
Definition getAllDataTypesForGUI : list text := [DATATYPE_STRING; DATATYPE_NUMBER; DATATYPE_TIME].
Definition getAllDefaultsForGUI : gmap (text * text) text :=
  list_to_map [((DATATYPE_NUMBER, txt "*"), DATATYPE_NUMBER_DEFAULT); ((DATATYPE_TIME, txt "*"), DATATYPE_TIME_DEFAULT);
    ((DATATYPE_STRING, TYPE_ON_OFF), DATATYPE_BOOL_DEFAULT); ((DATATYPE_STRING, TYPE_TRUE_FALSE), DATATYPE_BOOL_DEFAULT);
    ((DATATYPE_STRING, TYPE_YES_NO), DATATYPE_BOOL_DEFAULT); ((DATATYPE_STRING, TYPE_START_CHILD_LINK), DATATYPE_LINK_DEFAULT);
    ((DATATYPE_STRING, txt "*"), DATATYPE_STRING_DEFAULT)].

(** ** The parameters of a bit map

    A number that [sscanf] did not store, and a field that was not reached, is
    [None]. *)

Record BitMapInfo := mkBitMap {
  numOfRows_ : option Z; numOfColumns_ : option Z; cellBitSize_ : option Z;
  bitMap_minValue_ : option double; bitMap_maxValue_ : option double; stepValue_ : option double;
  aspectRatio_ : text; minColor_ : text; midColor_ : text; maxColor_ : text; absMinColor_ : text; absMaxColor_ : text;
  mapToStrings_ : text;
  rowsAscending_ : option bool; colsAscending_ : option bool; snakeRows_ : option bool; snakeCols_ : option bool;
  floatingPoint_ : bool; mapsToStrings_ : bool;
}.
Definition blankBitMap : BitMapInfo :=
  mkBitMap None None None None None None [] [] [] [] [] [] [] None None None None false false.

Record TableViewColumnInfo := mkColumn {
  type_ : text; name_ : text; storageName_ : text; dataType_ : text;
  defaultValue_ : text; dataChoices_ : list text; minValue_ : text; maxValue_ : text;
  bitMapInfoP_ : option BitMapInfo;
}.

Section Construct.
(** [sscanf] with [%lf]. *)
Variable scan_lf : text -> option double.

Definition isYes (s : text) : bool := textEq s (txt "Yes").
Definition mapsToStrings (mapTo : text) : bool :=
  negb (textEq mapTo []) && negb (textEq mapTo DATATYPE_STRING_DEFAULT) && negb (textEq mapTo DATATYPE_STRING_ALT_DEFAULT).
(** What the parameters say, and whether they are accepted. *)
Definition readBitMap (choices : list text) : result bool * BitMapInfo :=
  let at_ i := nth i choices [] in
  let floating := (16 <? length choices)%nat && isYes (at_ 16%nat) in
  let mapTo := if (17 <? length choices)%nat then at_ 17%nat else [] in
  let cell := sscanf_u (at_ 2%nat) in
  let info maps := mkBitMap (sscanf_u (at_ 0%nat)) (sscanf_u (at_ 1%nat)) cell (scan_lf (at_ 3%nat)) (scan_lf (at_ 4%nat)) (scan_lf (at_ 5%nat))
    (at_ 6%nat) (at_ 7%nat) (at_ 8%nat) (at_ 9%nat) (at_ 10%nat) (at_ 11%nat) mapTo
    (Some (isYes (at_ 12%nat))) (Some (isYes (at_ 13%nat))) (Some (isYes (at_ 14%nat))) (Some (isYes (at_ 15%nat))) floating maps in
  if floating && match cell with Some n => negb (n =? 32) | None => false end then (Ok false, info false)
  else if floating && match cell with None => true | Some _ => false end then (Throw Undefined, info false)
  else if mapsToStrings mapTo && floating then (Ok false, info false)
  else (Ok true, info (mapsToStrings mapTo)).
Definition extractBitMapInfo (type : text) (choices : list text) : result bool * option BitMapInfo :=
  if negb (textEq type TYPE_BITMAP_DATA) then (Ok true, None)
  else if (length choices <? 16)%nat || (18 <? length choices)%nat then (Ok false, Some blankBitMap)
  else let '(r, info) := readBitMap choices in (r, Some info).

(** ** The constructor *)

(** [getline] with a delimiter, to the end of the text. *)
Fixpoint getlines (delimiter : ascii) (s : text) : list text :=
  match s with
  | [] => []
  | c :: s =>
      if (c =? delimiter)%char then [] :: getlines delimiter s
      else match getlines delimiter s with [] => [[c]] | line :: lines => (c :: line) :: lines end
  end.
(** Reading past the end of a line in [decodeURIComponent] is undefined. *)
Fixpoint decodeAll (l : list text) : result (list text) :=
  match l with
  | [] => Ok []
  | s :: l => match StringMacros.decodeURIComponent s with Some d => ds ← decodeAll l; Ok (d :: ds) | None => Throw Undefined end
  end.
Definition getDataChoicesFromString (dataChoicesCSV : text) : result (list text) := decodeAll (getlines StringLists.comma dataChoicesCSV).

Definition legalType (type : text) : bool :=
  existsb (textEq type) [TYPE_UID; TYPE_DATA; TYPE_UNIQUE_DATA; TYPE_UNIQUE_GROUP_DATA; TYPE_MULTILINE_DATA; TYPE_FIXED_CHOICE_DATA;
    TYPE_BITMAP_DATA; TYPE_ON_OFF; TYPE_TRUE_FALSE; TYPE_YES_NO; TYPE_COMMENT; TYPE_AUTHOR; TYPE_TIMESTAMP] ||
  isChildLink type || isChildLinkUID type || isChildLinkGroupID type || isGroupID type.
Definition isDash (c : ascii) : bool := (c =? chr 45)%char || (c =? chr 95)%char.
Definition typeChar (c : ascii) : bool := is_alnum c || isDash c || (c =? chr 46)%char || (c =? chr 32)%char.
Definition dataTypeChar (c : ascii) : bool := is_alnum c || isDash c || (c =? chr 32)%char.
Definition nameChar (c : ascii) : bool := is_alnum c || isDash c.
Definition storageChar (c : ascii) : bool := is_upper c || is_digit c || isDash c.

Definition legalColumn (c : TableViewColumnInfo) : bool :=
  legalType (type_ c) && forallb typeChar (type_ c) &&
  legalDataType (dataType_ c) && negb (textEq (type_ c) TYPE_BITMAP_DATA && negb (textEq (dataType_ c) DATATYPE_STRING)) &&
  (0 <? length (dataType_ c))%nat && forallb dataTypeChar (dataType_ c) &&
  (0 <? length (name_ c))%nat && forallb nameChar (name_ c) &&
  (0 <? length (storageName_ c))%nat && forallb storageChar (storageName_ c).

Definition limit (value : option text) (default : result text) : result text :=
  match value with Some v => Ok (if textEq v (txt "null") then [] else v) | None => default end.

(** The column, and whether an error was found.  An error is thrown, or with
    [captured] (a string to collect them) reported. *)
Definition construct (captured : bool) (type name storageName dataType : text) (defaultValue : option text) (dataChoicesCSV : text)
    (minValue maxValue : option text) : result (TableViewColumnInfo * bool) :=
  let dataType := if textEq dataType (txt "VARCHAR2") then DATATYPE_STRING else dataType in
  default ← match defaultValue with Some d => Ok d | None => getDefaultDefaultValue type dataType end;
  choices ← getDataChoicesFromString dataChoicesCSV;
  min ← limit minValue (getMinDefaultValue dataType);
  max ← limit maxValue (getMaxDefaultValue dataType);
  let legal := legalColumn (mkColumn type name storageName dataType default choices min max None) in
  if negb legal && negb captured then Throw RuntimeError
  else
    let '(bitMapLegal, bitMap) := extractBitMapInfo type choices in
    bitMapLegal ← bitMapLegal;
    if negb bitMapLegal && negb captured then Throw RuntimeError
    else Ok (mkColumn type name storageName dataType default choices min max bitMap, negb (legal && bitMapLegal)).
End Construct.

Definition getBitMapInfo (c : TableViewColumnInfo) : result BitMapInfo :=
  match bitMapInfoP_ c with Some info => Ok info | None => Throw RuntimeError end.
Definition isNumberDataType (c : TableViewColumnInfo) : bool := textEq (dataType_ c) DATATYPE_NUMBER.
End TableViewColumnInfo.
