(* ===== verification/TableView.v ===== *)
(** * Table views

    src/otsdaq/TableCore/TableView.cc, .h and .icc: one version of a table.
    Here are its state, the lookup of columns, rows and links, and the reading
    and writing of values.  (Groups and generated names are in TableRows.v, the
    verification of a whole view in TableInit.v, reading and writing of CSV and
    JSON text in TableCSV.v and TableJSON.v, the cache of versions in
    TableBase.v.)

    A row or column index is a [nat]; the constant [INVALID] is [None].  An
    index the code uses without a check is [Throw Undefined] when it is out of
    range. *)

From S2P Require Import Prelude CText Versions StringMacros StringLists StringExpansion Doubles TableViewColumnInfo.

Module TableView.
Import Doubles TableViewColumnInfo.

Record TableView := mkView {
  storageData_ : text;
  tableName_ : text;
  version_ : TableVersion.TableVersion;
  comment_ : text;
  author_ : text;
  creationTime_ : Z;
  lastAccessTime_ : Z;
  rowDefaultValues_ : list text;
  colUID_ : option nat;
  colStatus_ : option nat;
  colPriority_ : option nat;
  colLinkGroupIDs_ : gmap text nat;
  fillWithLooseColumnMatching_ : bool;
  getSourceRawData_ : bool;
  sourceRawData_ : text;
  sourceColumnMismatchCount_ : Z;
  sourceColumnMissingCount_ : Z;
  sourceColumnNames_ : gset text;
  columnsInfo_ : list TableViewColumnInfo;
  theDataView_ : list (list text);
}.
Implicit Types v : TableView.

(** ** Updates of a member *)

Definition set_data v data := mkView (storageData_ v) (tableName_ v) (version_ v) (comment_ v) (author_ v) (creationTime_ v) (lastAccessTime_ v)
  (rowDefaultValues_ v) (colUID_ v) (colStatus_ v) (colPriority_ v) (colLinkGroupIDs_ v) (fillWithLooseColumnMatching_ v) (getSourceRawData_ v)
  (sourceRawData_ v) (sourceColumnMismatchCount_ v) (sourceColumnMissingCount_ v) (sourceColumnNames_ v) (columnsInfo_ v) data.
Definition set_defaults v defaults := mkView (storageData_ v) (tableName_ v) (version_ v) (comment_ v) (author_ v) (creationTime_ v)
  (lastAccessTime_ v) defaults (colUID_ v) (colStatus_ v) (colPriority_ v) (colLinkGroupIDs_ v) (fillWithLooseColumnMatching_ v)
  (getSourceRawData_ v) (sourceRawData_ v) (sourceColumnMismatchCount_ v) (sourceColumnMissingCount_ v) (sourceColumnNames_ v) (columnsInfo_ v)
  (theDataView_ v).
Definition set_specials v uid status priority links := mkView (storageData_ v) (tableName_ v) (version_ v) (comment_ v) (author_ v)
  (creationTime_ v) (lastAccessTime_ v) (rowDefaultValues_ v) uid status priority links (fillWithLooseColumnMatching_ v) (getSourceRawData_ v)
  (sourceRawData_ v) (sourceColumnMismatchCount_ v) (sourceColumnMissingCount_ v) (sourceColumnNames_ v) (columnsInfo_ v) (theDataView_ v).
Definition set_colUID v uid := set_specials v uid (colStatus_ v) (colPriority_ v) (colLinkGroupIDs_ v).
Definition set_colStatus v status := set_specials v (colUID_ v) status (colPriority_ v) (colLinkGroupIDs_ v).
Definition set_colPriority v priority := set_specials v (colUID_ v) (colStatus_ v) priority (colLinkGroupIDs_ v).
Definition set_links v links := set_specials v (colUID_ v) (colStatus_ v) (colPriority_ v) links.
Definition set_source v mismatch missing names := mkView (storageData_ v) (tableName_ v) (version_ v) (comment_ v) (author_ v)
  (creationTime_ v) (lastAccessTime_ v) (rowDefaultValues_ v) (colUID_ v) (colStatus_ v) (colPriority_ v) (colLinkGroupIDs_ v)
  (fillWithLooseColumnMatching_ v) (getSourceRawData_ v) (sourceRawData_ v) mismatch missing names (columnsInfo_ v) (theDataView_ v).
Definition set_sourceNames v names := set_source v (sourceColumnMismatchCount_ v) (sourceColumnMissingCount_ v) names.
Definition set_header v version comment author created accessed := mkView (storageData_ v) (tableName_ v) version comment author created accessed
  (rowDefaultValues_ v) (colUID_ v) (colStatus_ v) (colPriority_ v) (colLinkGroupIDs_ v) (fillWithLooseColumnMatching_ v) (getSourceRawData_ v)
  (sourceRawData_ v) (sourceColumnMismatchCount_ v) (sourceColumnMissingCount_ v) (sourceColumnNames_ v) (columnsInfo_ v) (theDataView_ v).
Definition set_columns v columns := mkView (storageData_ v) (tableName_ v) (version_ v) (comment_ v) (author_ v) (creationTime_ v)
  (lastAccessTime_ v) (rowDefaultValues_ v) (colUID_ v) (colStatus_ v) (colPriority_ v) (colLinkGroupIDs_ v) (fillWithLooseColumnMatching_ v)
  (getSourceRawData_ v) (sourceRawData_ v) (sourceColumnMismatchCount_ v) (sourceColumnMissingCount_ v) (sourceColumnNames_ v) columns
  (theDataView_ v).
Definition set_raw v get raw := mkView (storageData_ v) (tableName_ v) (version_ v) (comment_ v) (author_ v) (creationTime_ v)
  (lastAccessTime_ v) (rowDefaultValues_ v) (colUID_ v) (colStatus_ v) (colPriority_ v) (colLinkGroupIDs_ v) (fillWithLooseColumnMatching_ v)
  get raw (sourceColumnMismatchCount_ v) (sourceColumnMissingCount_ v) (sourceColumnNames_ v) (columnsInfo_ v) (theDataView_ v).
Definition set_storage v data := mkView data (tableName_ v) (version_ v) (comment_ v) (author_ v) (creationTime_ v) (lastAccessTime_ v)
  (rowDefaultValues_ v) (colUID_ v) (colStatus_ v) (colPriority_ v) (colLinkGroupIDs_ v) (fillWithLooseColumnMatching_ v) (getSourceRawData_ v)
  (sourceRawData_ v) (sourceColumnMismatchCount_ v) (sourceColumnMissingCount_ v) (sourceColumnNames_ v) (columnsInfo_ v) (theDataView_ v).

(** ** Cells *)

Definition getNumberOfRows v : nat := length (theDataView_ v).
Definition getNumberOfColumns v : nat := length (columnsInfo_ v).
Definition getDataColumnSize v : nat := match theDataView_ v with [] => getNumberOfColumns v | row :: _ => length row end.

(** [theDataView_[r][c]] *)
Definition cell v (r c : nat) : result text :=
  match theDataView_ v !! r with
  | Some row => match row !! c with Some x => Ok x | None => Throw Undefined end
  | None => Throw Undefined
  end.
Definition inView v (r c : nat) : bool :=
  match theDataView_ v !! r with Some row => (c <? length row)%nat | None => false end.
Definition putCell v (r c : nat) (x : text) : TableView := set_data v (alter (insert c x) r (theDataView_ v)).
Definition setCell (r c : nat) (x : text) : M TableView unit := fun v =>
  if inView v r c then (Ok tt, putCell v r c x) else (Throw Undefined, v).
(** [columnsInfo_[c]] *)
Definition columnAt v (c : nat) : result TableViewColumnInfo :=
  match columnsInfo_ v !! c with Some ci => Ok ci | None => Throw Undefined end.
Definition getColumnInfo v (column : nat) : result TableViewColumnInfo :=
  match columnsInfo_ v !! column with Some ci => Ok ci | None => Throw RuntimeError end.
(** The check of most members: a column, and a row, that exist. *)
Definition requested v (r c : nat) : bool := (c <? getNumberOfColumns v)%nat && (r <? getNumberOfRows v)%nat.

(** ** Searches *)

Definition findCol v (wildCardName : text) : result nat :=
  match search (fun ci => (StringMacros.wildCardMatch wildCardName (name_ ci)).1) (columnsInfo_ v) with
  | Some c => Ok c
  | None => Throw RuntimeError
  end.
Definition findColByType v (type : text) (startingCol : nat) : option nat :=
  Nat.add startingCol <$> search (fun ci => textEq (type_ ci) type) (drop startingCol (columnsInfo_ v)).

(** The loop reads the cell of each row it passes. *)
Fixpoint rowLoop (rows : list (list text)) (col : nat) (p : nat -> text -> result bool) (row : nat) : result (option nat) :=
  match rows with
  | [] => Ok None
  | r :: rows =>
      match r !! col with
      | None => Throw Undefined
      | Some x => b ← p row x; if (b : bool) then Ok (Some row) else rowLoop rows col p (S row)
      end
  end.
Definition findRow v (col : nat) (value : text) (offsetRow : nat) (doNotThrow : bool) : result (option nat) :=
  found ← rowLoop (drop offsetRow (theDataView_ v)) col (fun _ x => Ok (textEq x value)) offsetRow;
  match found with
  | Some r => Ok (Some r)
  | None => if doNotThrow then Ok None else Throw RuntimeError
  end.

Definition getColumnNames v : gset text := list_to_set (map name_ (columnsInfo_ v)).
Definition getColumnStorageNames v : gset text := list_to_set (map storageName_ (columnsInfo_ v)).
(** A repeated name keeps its first column. *)
Definition getColumnNamesMap v : gmap text nat := list_to_map (imap (fun c ci => (name_ ci, c)) (columnsInfo_ v)).

(** ** The special columns *)

Definition initColUID : M TableView nat := fun v =>
  match colUID_ v with
  | Some c => (Ok c, v)
  | None =>
      let v := set_colUID v (findColByType v TYPE_UID 0) in
      match colUID_ v with Some c => (Ok c, v) | None => (Throw RuntimeError, v) end
  end.
Definition columnNamed v (name : text) : option nat := search (fun ci => textEq (name_ ci) name) (columnsInfo_ v).
Definition initColStatus : M TableView nat := fun v =>
  match colStatus_ v with
  | Some c => (Ok c, v)
  | None =>
      match columnNamed v COL_NAME_STATUS with
      | Some c => (Ok c, set_colStatus v (Some c))
      | None =>
          match columnNamed v COL_NAME_ENABLED with
          | Some c => (Ok c, set_colStatus v (Some c))
          | None => (Throw RuntimeError, v)
          end
      end
  end.
(** [findCol] throws before the member is assigned. *)
Definition initColPriority : M TableView nat := fun v =>
  match colPriority_ v with
  | Some c => (Ok c, v)
  | None =>
      match findCol v (StringMacros.star :: COL_NAME_PRIORITY) with
      | Ok c => (Ok c, set_colPriority v (Some c))
      | Throw e => (Throw e, v)
      end
  end.
Definition known (c : option nat) : result nat := match c with Some c => Ok c | None => Throw RuntimeError end.
Definition getColUID v : result nat := known (colUID_ v).
Definition getColStatus v : result nat := known (colStatus_ v).
Definition getColPriority v : result nat := known (colPriority_ v).

(** ** Links *)

Definition isLinkMember (type : text) : bool := isChildLink type || isChildLinkUID type || isChildLinkGroupID type || isGroupID type.
(** The type of a column has this link index. *)
Definition hasIndex (index : text) (ci : TableViewColumnInfo) : bool :=
  match getChildLinkIndex (type_ ci) with Ok i => textEq index i | Throw _ => false end.

(** The part after the first space, if there is one; a C string. *)
Definition needleLinkIndex (childLinkIndex : text) : text :=
  c_str match search (fun c => (c =? StringMacros.space)%char) childLinkIndex with
        | Some spacePos => if (spacePos + 1 <? length childLinkIndex)%nat then drop (spacePos + 1) childLinkIndex else childLinkIndex
        | None => childLinkIndex
        end.
Definition getLinkGroupIDColumn v (childLinkIndex : text) : result nat :=
  if textEq childLinkIndex [] then Throw RuntimeError
  else
    let needle := needleLinkIndex childLinkIndex in
    match colLinkGroupIDs_ v !! needle with
    | Some c => Ok c
    | None =>
        match search (fun ci => isLinkMember (type_ ci) && hasIndex needle ci) (columnsInfo_ v) with
        | Some c => Ok c
        | None => Throw RuntimeError
        end
    end.

(** The first column other than [c] that is the mate. *)
Definition otherColumn v (c : nat) (p : TableViewColumnInfo -> bool) : option nat :=
  search (fun q => negb (q.1 =? c)%nat && p q.2) (imap pair (columnsInfo_ v)).
(** [None] when the column is not part of a link; otherwise whether it is a
    group link, the link column and the link id column. *)
Definition getChildLink v (c : nat) : result (option (bool * nat * nat)) :=
  match columnsInfo_ v !! c with
  | None => Throw RuntimeError
  | Some ci =>
      let isGroup := isChildLinkGroupID (type_ ci) in
      if isGroup || isChildLinkUID (type_ ci) then
        index ← getChildLinkIndex (type_ ci);
        match otherColumn v c (fun ci => isChildLink (type_ ci) && hasIndex index ci) with
        | Some link => Ok (Some (isGroup, link, c))
        | None => Throw RuntimeError
        end
      else if negb (isChildLink (type_ ci)) then Ok None
      else
        index ← getChildLinkIndex (type_ ci);
        match otherColumn v c (fun ci => (isChildLinkUID (type_ ci) || isChildLinkGroupID (type_ ci)) && hasIndex index ci) with
        | None => Throw RuntimeError
        | Some id =>
            mate ← columnAt v id;
            Ok (Some (negb (isChildLinkUID (type_ mate)), c, id))
        end
  end.

(** ** Values

    [T getValue<T>]: the number parser of the type, and what the code asks of
    [typeid(T)]: an index type ([int] and [unsigned int]), and [bool]. *)

Record valueType (T : Type) := mkType {
  getNumberT : text -> result (option T);
  ofIndex : option (nat -> T);
  ofBool : option (bool -> T);
}.
Arguments mkType {T}. Arguments getNumberT {T}. Arguments ofIndex {T}. Arguments ofBool {T}.

(** Whether the string is a number, out of the result of [getNumber]. *)
Definition parsed {T} (r : result (option (bool * T))) : result (option T) :=
  n ← r; match n with None => Throw Undefined | Some (ok, z) => Ok (if (ok : bool) then Some z else None) end.
Definition type_bool : valueType bool := mkType (fun s => Ok (StringLists.getNumberBool s)) None (Some id).
Definition type_uint64 : valueType Z := mkType (fun s => parsed (StringLists.getNumber (fun z => Some (u64 z)) s)) None None.
Definition type_uint : valueType Z := mkType (fun s => parsed (StringLists.getNumber_uint s)) (Some (fun n => u32 (Z.of_nat n))) None.
Definition type_double : valueType double := mkType (fun s => parsed (Doubles.getNumber s)) None None.

(** The choice lists of the table editor may begin with this flag. *)
Definition ARBITRARY : text := txt "arbitraryBool=".
Definition skipOne (choices : list text) : bool := match choices with ch :: _ => starts_with ARBITRARY ch | [] => false end.

Section Values.
Variables (getenv : text -> option text) (systemVariables_ : gmap text (gmap text text)) (expansionFuel : nat).

Definition expand (doConvert : bool) (value : text) : result text :=
  if doConvert then StringExpansion.convertEnvironmentVariables getenv systemVariables_ expansionFuel value else Ok value.

(** A fixed choice that is left at the standard default stands for the first
    choice. *)
Definition defaultChoice (ci : TableViewColumnInfo) (value : text) : result (option text) :=
  if textEq (type_ ci) TYPE_FIXED_CHOICE_DATA then
    standard ← getDefaultDefaultValue (type_ ci) (dataType_ ci);
    Ok (if textEq value standard then dataChoices_ ci !! (if skipOne (dataChoices_ ci) then 1 else 0)%nat else None)
  else Ok None.

Definition numberValue {T} (ty : valueType T) (doConvert : bool) (value : text) : result T :=
  data ← expand doConvert value;
  n ← getNumberT ty data;
  match n with Some x => Ok x | None => Throw RuntimeError end.

(** The index among the choices, with the default as number 0. *)
Definition choiceIndex (ci : TableViewColumnInfo) (value : text) : result nat :=
  if textEq value (defaultValue_ ci) then Ok 0%nat
  else
    let choices := if skipOne (dataChoices_ ci) then drop 1 (dataChoices_ ci) else dataChoices_ ci in
    match search (textEq value) choices with Some i => Ok (S i) | None => Throw RuntimeError end.
Definition boolValue (ci : TableViewColumnInfo) (value : text) : result bool :=
  if textEq (type_ ci) TYPE_ON_OFF then Ok (textEq value TYPE_VALUE_ON)
  else if textEq (type_ ci) TYPE_TRUE_FALSE then Ok (textEq value TYPE_VALUE_TRUE)
  else if textEq (type_ ci) TYPE_YES_NO then Ok (textEq value TYPE_VALUE_YES)
  else match value with
       | c :: _ => if (c =? chr 49)%char then Ok true else if (c =? chr 48)%char then Ok false else Throw RuntimeError
       | [] => Throw RuntimeError
       end.

(** The templates: [T] is any type but [std::string]. *)
Definition validateValueForColumn {T} (ty : valueType T) v (value : text) (col : nat) (doConvert : bool) : result T :=
  ci ← getColumnInfo v col;
  if isNumberDataType ci then
    choice ← defaultChoice ci value;
    numberValue ty doConvert (default value choice)
  else if negb (textEq (dataType_ ci) DATATYPE_STRING) then Throw RuntimeError
  else
    match ofIndex ty, ofBool ty with
    | Some ofIndex, _ =>
        if textEq (type_ ci) TYPE_FIXED_CHOICE_DATA then i ← choiceIndex ci value; Ok (ofIndex i) else numberValue ty doConvert value
    | None, Some ofBool => b ← boolValue ci value; Ok (ofBool b)
    | None, None => numberValue ty doConvert value
    end.
Definition getValue {T} (ty : valueType T) v (row col : nat) (doConvert : bool) : result T :=
  if negb (requested v row col) then Throw RuntimeError
  else x ← cell v row col; validateValueForColumn ty v x col doConvert.

(** The versions for [std::string]; a time is printed by the C library. *)
Variable timestampString : Z -> text.
Definition getTimestampString (linuxTimeInSeconds : text) : text := timestampString (StringLists.strtol (c_str linuxTimeInSeconds) 10).
Definition validateStringForColumn v (value : text) (col : nat) (doConvert : bool) : result text :=
  ci ← getColumnInfo v col;
  choice ← defaultChoice ci value;
  match choice with
  | Some ch => expand doConvert ch
  | None =>
      if textEq (dataType_ ci) DATATYPE_STRING then expand doConvert value
      else if textEq (dataType_ ci) DATATYPE_TIME then s ← expand doConvert value; Ok (getTimestampString s)
      else Throw RuntimeError
  end.
(** The message about a missing row reads that row. *)
Definition getStringValue v (row col : nat) (doConvert : bool) : result text :=
  match theDataView_ v !! row with
  | None => Throw Undefined
  | Some r => match r !! col with None => Throw RuntimeError | Some x => validateStringForColumn v x col doConvert end
  end.

(** [getValueAsString]: a boolean type has two values. *)
Definition isOneOf (words : list text) (x : text) : bool := existsb (textEq x) words.
Definition boolText (type x : text) : option text :=
  if textEq type TYPE_ON_OFF then Some (if isOneOf [txt "1"; txt "on"; txt "On"; txt "ON"] x then TYPE_VALUE_ON else TYPE_VALUE_OFF)
  else if textEq type TYPE_TRUE_FALSE then Some (if isOneOf [txt "1"; txt "true"; txt "True"; txt "TRUE"] x then TYPE_VALUE_TRUE else TYPE_VALUE_FALSE)
  else if textEq type TYPE_YES_NO then Some (if isOneOf [txt "1"; txt "yes"; txt "Yes"; txt "YES"] x then TYPE_VALUE_YES else TYPE_VALUE_NO)
  else None.
Definition getValueAsString v (row col : nat) (doConvert : bool) : result text :=
  if negb (requested v row col) then Throw RuntimeError
  else
    ci ← columnAt v col;
    x ← cell v row col;
    match boolText (type_ ci) x with Some b => Ok b | None => expand doConvert x end.

Definition doubleQuote : ascii := chr 34.
(** [quotesToDoubleQuotes] doubles a quote for CSV, otherwise it is escaped for
    JSON. *)
Definition escapeChar (quotesToDoubleQuotes : bool) (c : ascii) : text :=
  if (c =? StringMacros.newline)%char then txt "\n"
  else if (c =? StringMacros.tab)%char then txt "\t"
  else if (c =? StringMacros.carriageReturn)%char then txt "\r"
  else if (c =? StringMacros.backslash)%char then [StringMacros.backslash; c]
  else if (c =? doubleQuote)%char then [if quotesToDoubleQuotes then doubleQuote else StringMacros.backslash; c]
  else [c].
Definition getEscapedValueAsString v (row col : nat) (doConvert quotesToDoubleQuotes : bool) : result text :=
  val ← getValueAsString v row col doConvert; Ok (flat_map (escapeChar quotesToDoubleQuotes) val).
End Values.

(** The cells without conversion: a boolean type has two values. *)
Definition shown (ci : TableViewColumnInfo) (x : text) : text := default x (boolText (type_ ci) x).
Definition shownRow v (row : list text) : list text := zip_with shown (columnsInfo_ v) row.
Definition shownData v : list (list text) := map (shownRow v) (theDataView_ v).

(** ** Setting values *)

(** [setValue] of a string, of a number and of a time: the type of the column
    has to fit. *)
Definition setChecked (fits : text -> bool) (value : text) (row col : nat) : M TableView unit :=
  ok ← gets (fun v => requested v row col);
  if negb ok then throw RuntimeError
  else
    ci ← (fun v => lift (columnAt v col) v);
    if fits (dataType_ ci) then setCell row col value else throw RuntimeError.
Definition setValue (value : text) (row col : nat) : M TableView unit := setChecked (fun t => textEq t DATATYPE_STRING) value row col.
Definition setTime (t : Z) (row col : nat) : M TableView unit :=
  setChecked (fun ty => textEq ty DATATYPE_NUMBER || textEq ty DATATYPE_TIME) (to_string_signed t) row col.
Definition setValueAsString (value : text) (row col : nat) : M TableView unit :=
  ok ← gets (fun v => requested v row col);
  if negb ok then throw RuntimeError else setCell row col value.

Definition setURIEncodedComment (uriComment : text) : M TableView unit := fun v =>
  match StringMacros.decodeURIComponent uriComment with
  | Some c => (Ok tt, set_header v (version_ v) c (author_ v) (creationTime_ v) (lastAccessTime_ v))
  | None => (Throw Undefined, v)
  end.
Definition isURIEncodedCommentTheSame v (comment : text) : result bool :=
  match StringMacros.decodeURIComponent comment with Some c => Ok (textEq (comment_ v) c) | None => Throw Undefined end.
Definition getComment v : text := if textEq (comment_ v) [] then DATATYPE_COMMENT_DEFAULT else comment_ v.
Definition reset v : TableView :=
  set_data (set_columns (set_header v (TableVersion.Mk (u32 (-1))) [] [] (creationTime_ v) (lastAccessTime_ v)) []) [].

(** ** Lemmas about cells *)

Lemma isOneOf_spec words x : isOneOf words x = true <-> x ∈ words.
Proof.
  unfold isOneOf. rewrite existsb_exists. split.
  - intros (y & Hy & <-%textEq_spec). by apply list_elem_of_In.
  - intros H. exists x. split; [by apply list_elem_of_In|apply textEq_refl].
Qed.
Lemma isOneOf_false words x : isOneOf words x = false <-> ~ x ∈ words.
Proof. rewrite <- isOneOf_spec. by destruct (isOneOf words x). Qed.

Lemma setCell_ok r c x v u v' : setCell r c x v = (Ok u, v') <-> v' = putCell v r c x /\ inView v r c = true.
Proof.
  unfold setCell. destruct u, (inView v r c); split; [by intros [= <-]|by intros [-> _]|done|by intros [_ H]].
Qed.
Lemma cell_ok v r c x : cell v r c = Ok x <-> exists row, theDataView_ v !! r = Some row /\ row !! c = Some x.
Proof.
  unfold cell. split.
  - destruct (theDataView_ v !! r) as [row|]; [|done]. destruct (row !! c) as [y|] eqn:E; [|done]. intros [= <-]. by exists row.
  - by intros (row & -> & ->).
Qed.
Lemma cell_putCell v r c x : inView v r c = true -> cell (putCell v r c x) r c = Ok x.
Proof.
  unfold inView. destruct (theDataView_ v !! r) as [row|] eqn:E; [|done]. intros H%Nat.ltb_lt. apply cell_ok.
  exists (<[c := x]> row). cbn. by rewrite list_lookup_alter_eq, E, list_lookup_insert_eq.
Qed.
Lemma cell_putCell_row v r c x r' c' : r' <> r -> cell (putCell v r c x) r' c' = cell v r' c'.
Proof. intros H. unfold cell. cbn. by rewrite list_lookup_alter_ne. Qed.
Lemma cell_putCell_col v r c x r' c' : c' <> c -> cell (putCell v r c x) r' c' = cell v r' c'.
Proof.
  intros H. unfold cell. cbn. destruct (decide (r' = r)) as [->|]; [|by rewrite list_lookup_alter_ne].
  rewrite list_lookup_alter_eq. destruct (theDataView_ v !! r) as [row|]; [|done]. cbn. by rewrite list_lookup_insert_ne.
Qed.
End TableView.
