(* ===== verification/TableRows.v ===== *)
(** * Groups, generated names and rows of a table view

    src/otsdaq/TableCore/TableView.cc: the groups a row is a member of (a cell
    that lists them), the rows of a group by status and priority, values that
    are made unique by a number, and the addition, copying and deletion of
    rows. *)

From stdpp Require Import sorting.
From S2P Require Import Prelude CText Versions StringMacros StringLists StringExpansion Doubles TableViewColumnInfo TableView.

Module TableRows.
Import Doubles TableViewColumnInfo TableView.
Implicit Types v : TableView.

(** ** Groups *)

(** Spaces and bars separate the groups of a cell; the loop of
    [isEntryInGroupCol] collects what stands between them. *)
Definition isSeparator (c : ascii) : bool := (c =? chr 32)%char || (c =? chr 124)%char.
Fixpoint groupTokens (s cur : text) : list text :=
  match s with
  | [] => if textEq cur [] then [] else [cur]
  | c :: s =>
      if isSeparator c then (if textEq cur [] then groupTokens s [] else cur :: groupTokens s [])
      else groupTokens s (cur ++ [c])
  end.
Definition isEntryInGroupCol v (r c : nat) (groupNeedle : text) : result bool :=
  if negb (requested v r c) then Throw RuntimeError
  else x ← cell v r c; Ok (existsb (fun g => (StringMacros.wildCardMatch g groupNeedle).1) (groupTokens x [])).
(** With a [groupIDList]: the groups are compared literally, and all of them
    returned. *)
Definition groupsOfEntry v (r c : nat) (groupNeedle : text) : result (bool * list text) :=
  if negb (requested v r c) then Throw RuntimeError
  else x ← cell v r c; Ok (existsb (textEq groupNeedle) (groupTokens x []), sortedSet (groupTokens x [])).
Definition isEntryInGroup v (r : nat) (childLinkIndex groupNeedle : text) : result bool :=
  c ← getLinkGroupIDColumn v childLinkIndex; isEntryInGroupCol v r c groupNeedle.

Definition groupsOfCell (x : text) (set : list text) : list text :=
  StringLists.getSetFromString x (txt ",|&") StringLists.ws_default set.
(** The groups of one row, or of all. *)
Fixpoint groupsOfRows (rows : list (list text)) (c : nat) (set : list text) : result (list text) :=
  match rows with
  | [] => Ok set
  | row :: rows => match row !! c with Some x => groupsOfRows rows c (groupsOfCell x set) | None => Throw Undefined end
  end.
Definition getSetOfGroupIDs v (c : nat) (r : option nat) : result (list text) :=
  match r with
  | Some r => if (r <? getNumberOfRows v)%nat then x ← cell v r c; Ok (groupsOfCell x []) else Throw RuntimeError
  | None => groupsOfRows (theDataView_ v) c []
  end.

Definition separator : text := txt " | ".
(** [getDefaultRowValues()[col]] *)
Definition defaultAt v (c : nat) : result text := match rowDefaultValues_ v !! c with Some d => Ok d | None => Throw Undefined end.
Definition addRowToGroup (row col : nat) (groupID : text) : M TableView unit :=
  v ← gets id;
  member ← lift (isEntryInGroupCol v row col groupID);
  if (member : bool) then throw RuntimeError
  else
    x ← lift (cell v row col);
    standard ← lift (if textEq x [] then Ok [] else defaultAt v col);
    if textEq x standard then setValue groupID row col else setValue (groupID ++ separator ++ x) row col.

Definition deleteRow (r : nat) : M TableView unit := fun v =>
  if (getNumberOfRows v <=? r)%nat then (Throw RuntimeError, v) else (Ok tt, set_data v (delete r (theDataView_ v))).

(** The groups that stay are written one after the other: the count that
    decides about the separator is never incremented. *)
Definition removeRowFromGroup (row col : nat) (groupNeedle : text) (deleteRowIfNoGroupLeft : bool) : M TableView bool :=
  v ← gets id;
  '(member, groupIDList) ← lift (groupsOfEntry v row col groupNeedle);
  if negb member then throw RuntimeError
  else
    let newValue := concat (List.filter (fun g => negb (textEq g groupNeedle)) groupIDList) in
    if deleteRowIfNoGroupLeft && textEq newValue [] then deleteRow row ≫= fun _ => mret true
    else setValue newValue row col ≫= fun _ => mret false.

Definition findRowInGroup v (col : nat) (value groupId childLinkIndex : text) (offsetRow : nat) : result nat :=
  groupIdCol ← getLinkGroupIDColumn v childLinkIndex;
  found ← rowLoop (drop offsetRow (theDataView_ v)) col
    (fun row x => if textEq x value then isEntryInGroupCol v row groupIdCol groupId else Ok false) offsetRow;
  match found with Some r => Ok r | None => Throw RuntimeError end.

(** ** The rows of a group *)

Section Values.
Variables (getenv : text -> option text) (systemVariables_ : gmap text (gmap text text)) (expansionFuel : nat).
Abbreviation getValue := (getValue getenv systemVariables_ expansionFuel).

(** A [std::map] from priorities to rows. *)
Fixpoint insertPriority (priority : Z) (row : nat) (m : list (Z * list nat)) : list (Z * list nat) :=
  match m with
  | [] => [(priority, [row])]
  | (p, rows) :: m' =>
      if priority <? p then (priority, [row]) :: m
      else if priority =? p then (p, rows ++ [row]) :: m'
      else (p, rows) :: insertPriority priority row m'
  end.
(** The row belongs to the rows asked for; the column is [INVALID] for all. *)
Definition isRowOfGroup v (groupIdCol : option nat) (groupID : text) (r : nat) : result bool :=
  if textEq groupID [] || textEq groupID (txt "*") then Ok true
  else match groupIdCol with None => Ok true | Some c => isEntryInGroupCol v r c groupID end.
Definition isRowOn v (onlyStatusTrue : bool) (r : nat) : result bool :=
  match (if onlyStatusTrue then colStatus_ v else None) with
  | Some c => getValue type_bool v r c true
  | None => Ok true
  end.
(** The priority 0 stands for 100; without a priority column all have the
    same. *)
Definition rowPriority v (byPriority : bool) (r : nat) : result Z :=
  match (if byPriority then colPriority_ v else None) with
  | Some c => p ← getValue type_uint64 v r c true; Ok (if p =? 0 then 100 else p)
  | None => Ok 0
  end.
Fixpoint groupLoop v (groupIdCol : option nat) (groupID : text) (onlyStatusTrue byPriority : bool) (rows : list nat) (m : list (Z * list nat))
    : result (list (Z * list nat)) :=
  match rows with
  | [] => Ok m
  | r :: rows =>
      member ← isRowOfGroup v groupIdCol groupID r;
      on ← (if (member : bool) then isRowOn v onlyStatusTrue r else Ok false);
      if negb on then groupLoop v groupIdCol groupID onlyStatusTrue byPriority rows m
      else
        p ← rowPriority v byPriority r;
        groupLoop v groupIdCol groupID onlyStatusTrue byPriority rows (insertPriority p r m)
  end.
Definition getGroupRowsInVectors v (groupIdCol : option nat) (groupID : text) (onlyStatusTrue orderedByPriority : bool)
    : result (list (list nat)) :=
  let byPriority := orderedByPriority && match colPriority_ v with Some _ => true | None => false end in
  m ← groupLoop v groupIdCol groupID onlyStatusTrue byPriority (seq 0 (getNumberOfRows v)) (if byPriority then [] else [(0, [])]);
  Ok (map snd m).
Definition getGroupRows v (groupIdCol : option nat) (groupID : text) (onlyStatusTrue orderedByPriority : bool) : result (list nat) :=
  vectors ← getGroupRowsInVectors v groupIdCol groupID onlyStatusTrue orderedByPriority; Ok (concat vectors).
Definition getGroupRowsByPriority v (groupIdCol : option nat) (groupID : text) (onlyStatusTrue : bool) : result (list (list nat)) :=
  getGroupRowsInVectors v groupIdCol groupID onlyStatusTrue true.
End Values.

(** ** Unique values *)

Record uniqueState := mkUnique { baseValue : text; firstConflict : bool; maxUniqueData : Z }.

Definition endsInDigit (s : text) : bool := match last s with Some c => is_digit c | None => false end.
(** At the first conflict a base that ends in a number gets an underscore. *)
Definition conflict (st : uniqueState) : text :=
  if firstConflict st && endsInDigit (baseValue st) then baseValue st ++ [chr 95] else baseValue st.
Definition isPlusOrSpace (c : ascii) : bool := (c =? chr 43)%char || (c =? chr 32)%char.
(** The value of another row: its number, if its base is the one wanted. *)
Definition uniqueStep (doMathAppendStrategy : bool) (st : uniqueState) (value : text) : uniqueState :=
  let '(alpha, number) := splitTrailing is_digit value in
  if negb (textEq number []) then
    let alpha := if doMathAppendStrategy then (splitTrailing isPlusOrSpace alpha).1 else alpha in
    if negb (textEq (baseValue st) []) && negb (textEq alpha (baseValue st)) then st
    else
      let base := conflict st in
      let index := s32 (default 0 (sscanf_u number)) in
      if maxUniqueData st <? index then mkUnique (if textEq base [] then alpha else base) false index
      else mkUnique base false (maxUniqueData st)
  else if (maxUniqueData st <? 0) && (textEq (baseValue st) [] || textEq value (baseValue st)) then mkUnique (conflict st) false 0
  else st.
(** The rows that count: all but [row], and only those of the group for a
    column that is unique in groups. *)
Definition uniqueGroup v (ci : TableViewColumnInfo) (childLinkIndex groupId : text) : result (option (nat * text)) :=
  if textEq (type_ ci) TYPE_UNIQUE_GROUP_DATA then c ← getLinkGroupIDColumn v childLinkIndex; Ok (Some (c, groupId)) else Ok None.
Definition rowCounts v (group : option (nat * text)) (r : nat) : result bool :=
  match group with Some (c, groupId) => isEntryInGroupCol v r c groupId | None => Ok true end.
Fixpoint uniqueLoop v (math : bool) (row col : nat) (group : option (nat * text)) (rows : list nat) (st : uniqueState) : result uniqueState :=
  match rows with
  | [] => Ok st
  | r :: rows =>
      if (r =? row)%nat then uniqueLoop v math row col group rows st
      else
        counts ← rowCounts v group r;
        if negb counts then uniqueLoop v math row col group rows st
        else x ← cell v r col; uniqueLoop v math row col group rows (uniqueStep math st x)
  end.
Definition uniqueValue (math : bool) (standard : text) (st : uniqueState) : result text :=
  if maxUniqueData st =? -1 then Ok (if textEq (baseValue st) [] then standard else baseValue st)
  else if maxUniqueData st =? 2 ^ 31 - 1 then Throw Undefined
  else Ok (baseValue st ++ (if math then txt " + " else []) ++ to_string_unsigned (maxUniqueData st + 1)).
Definition setUniqueColumnValue (row col : nat) (baseValueAsString : text) (doMathAppendStrategy : bool) (childLinkIndex groupId : text)
    : M TableView text :=
  v ← gets id;
  if negb (requested v row col) then throw RuntimeError
  else
    ci ← lift (columnAt v col);
    group ← lift (uniqueGroup v ci childLinkIndex groupId);
    st ← lift (uniqueLoop v doMathAppendStrategy row col group (seq 0 (getNumberOfRows v)) (mkUnique baseValueAsString true (-1)));
    x ← lift (uniqueValue doMathAppendStrategy (defaultValue_ ci) st);
    setCell row col x ≫= fun _ => mret x.

(** ** Adding and copying rows *)

(** The rows from [k] on move down: the columns of the table are copied from
    the row above. *)
Definition shiftRows (cols k : nat) (data : list (list text)) : list (list text) :=
  imap (fun j row => if (k <? j)%nat then take cols (nth (j - 1) data []) ++ drop cols row else row) data.
Definition makesRoom (cols k : nat) (rows : list (list text)) : bool :=
  (k <=? length rows)%nat && forallb (fun row => (cols <=? length row)%nat) (drop k rows).

Definition stampRow (author : text) (now : Z) (row : nat) : M TableView unit :=
  v ← gets id;
  match findColByType v TYPE_AUTHOR 0, findColByType v TYPE_TIMESTAMP 0 with
  | Some authorCol, Some timestampCol => setValue author row authorCol ≫= fun _ => setTime now row timestampCol
  | Some authorCol, None => setValue author row authorCol ≫= fun _ => throw RuntimeError
  | None, _ => throw RuntimeError
  end.
Definition isUniqueType (type : text) : bool := textEq type TYPE_UNIQUE_DATA || textEq type TYPE_UNIQUE_GROUP_DATA.
(** One column of the new row. *)
Definition fillColumn (incrementUniqueData : bool) (baseNameAutoUID : text) (row : nat) (childLinkIndex groupId : text) (col : nat)
    : M TableView unit :=
  v ← gets id;
  ci ← lift (columnAt v col);
  named ← (if incrementUniqueData then uid ← lift (getColUID v); mret ((col =? uid)%nat || isChildLinkGroupID (type_ ci)) else mret false);
  if (named : bool) then setUniqueColumnValue row col baseNameAutoUID false [] [] ≫= fun _ => mret tt
  else if incrementUniqueData && (1 <? getNumberOfRows v)%nat && isUniqueType (type_ ci)
       then setUniqueColumnValue row col [] false childLinkIndex groupId ≫= fun _ => mret tt
       else d ← lift (defaultAt v col); setCell row col d.
Fixpoint forEach {S A} (l : list A) (f : A -> M S unit) : M S unit :=
  match l with [] => mret tt | a :: l => f a ≫= fun _ => forEach l f end.

Definition addRow (author : text) (now : Z) (incrementUniqueData : bool) (baseNameAutoUID : text) (rowToAdd : option nat)
    (childLinkIndex groupId : text) : M TableView nat :=
  v ← gets id;
  let row := default (getNumberOfRows v) rowToAdd in
  let cols := getNumberOfColumns v in
  if negb (makesRoom cols row (theDataView_ v)) then throw Undefined
  else
    modify (fun v => set_data v (shiftRows cols row (theDataView_ v ++ [replicate cols []]))) ≫= fun _ =>
    forEach (seq 0 cols) (fillColumn incrementUniqueData baseNameAutoUID row childLinkIndex groupId) ≫= fun _ =>
    (if textEq author [] then mret tt else stampRow author now row) ≫= fun _ =>
    mret row.
(** [addRow()] with its default arguments. *)
Definition addDefaultRow : M TableView nat := addRow [] 0 false [] None [] [].

(** One source row; the columns with generated values are left. *)
Definition copyColumn (generate : bool) (source : TableView) (from to col : nat) : M TableView unit :=
  ci ← (fun v => lift (columnAt v col) v);
  if generate && (textEq (type_ ci) TYPE_UID || isUniqueType (type_ ci)) then mret tt
  else x ← lift (cell source from col); setCell to col x.
Fixpoint copyLoop (author : text) (now : Z) (source : TableView) (generate : bool) (baseNameAutoUID : text) (from : list nat)
    (destOffsetRow : option nat) (retRow : option nat) : M TableView (option nat) :=
  match from with
  | [] => mret retRow
  | r :: from =>
      to ← addRow author now generate baseNameAutoUID destOffsetRow [] [];
      cols ← gets getNumberOfColumns;
      forEach (seq 0 cols) (copyColumn generate source r to) ≫= fun _ =>
      copyLoop author now source generate baseNameAutoUID from (Some (S to)) (Some (default to retRow))
  end.
(** [None] for [srcRowsToCopy] and [destOffsetRow] is the default, all rows to
    the end. *)
Definition copyRows (author : text) (now : Z) (source : TableView) (srcOffsetRow : nat) (srcRowsToCopy destOffsetRow : option nat)
    (generate : bool) (baseNameAutoUID : text) : M TableView (option nat) :=
  cols ← gets getNumberOfColumns;
  if negb (getNumberOfColumns source =? cols)%nat then throw RuntimeError
  else
    let rows := seq srcOffsetRow (getNumberOfRows source - srcOffsetRow) in
    copyLoop author now source generate baseNameAutoUID (match srcRowsToCopy with Some n => take n rows | None => rows end) destOffsetRow None.

Definition resizeDataView (nRows nCols : nat) v : TableView :=
  set_data v (take nRows (theDataView_ v) ++ replicate (nRows - getNumberOfRows v) (replicate nCols [])).

(** ** A generated value is new *)

Definition trailing (x : text) : text := (splitTrailing is_digit x).2.
Definition numberOf (x : text) : Z := s32 (default 0 (sscanf_u (trailing x))).
Definition alphaOf (math : bool) (x : text) : text :=
  let alpha := (splitTrailing is_digit x).1 in if math then (splitTrailing isPlusOrSpace alpha).1 else alpha.
Definition endsIn (p : ascii -> bool) (s : text) : bool := match last s with Some c => p c | None => false end.
(** A row with the base wanted, or any row while there is none yet, has its
    number taken into account. *)
Definition covered (math : bool) (st : uniqueState) (x : text) : Prop :=
  if textEq (trailing x) [] then baseValue st = [] \/ x = baseValue st -> 0 <= maxUniqueData st
  else baseValue st = [] \/ alphaOf math x = baseValue st -> numberOf x <= maxUniqueData st.
Definition appended (math : bool) : ascii -> bool := if math then isPlusOrSpace else is_digit.
Record uniqueInv (math : bool) (b0 : text) (st : uniqueState) : Prop := {
  inv_max : -1 <= maxUniqueData st < 2 ^ 31 - 1;
  inv_given : b0 <> [] -> baseValue st = b0;
  inv_ends : endsIn (appended math) (baseValue st) = false;
  inv_none : maxUniqueData st = -1 -> baseValue st = b0;
  inv_first : firstConflict st = true -> baseValue st = b0;
}.

Lemma conflict_inv math b0 st : endsInDigit b0 = false -> uniqueInv math b0 st -> conflict st = baseValue st.
Proof.
  intros H0 I. unfold conflict. destruct (firstConflict st) eqn:Hf; [|done]. by rewrite (inv_first _ _ _ I Hf), H0.
Qed.
Lemma splitTrailing_ends p s : endsIn p (splitTrailing p s).1 = false.
Proof.
  pose proof (splitTrailing_spec p s) as H. destruct (splitTrailing p s) as [a b]. destruct H as (_ & _ & H).
  unfold endsIn. cbn. by destruct (last a).
Qed.
Lemma alphaOf_ends math x : endsIn (appended math) (alphaOf math x) = false.
Proof. unfold alphaOf, appended. destruct math; apply splitTrailing_ends. Qed.

(** The step in terms of the parts of the value. *)
Lemma uniqueStep_eq math st x : uniqueStep math st x =
  if negb (textEq (trailing x) []) then
    if negb (textEq (baseValue st) []) && negb (textEq (alphaOf math x) (baseValue st)) then st
    else if maxUniqueData st <? numberOf x then mkUnique (if textEq (conflict st) [] then alphaOf math x else conflict st) false (numberOf x)
    else mkUnique (conflict st) false (maxUniqueData st)
  else if (maxUniqueData st <? 0) && (textEq (baseValue st) [] || textEq x (baseValue st)) then mkUnique (conflict st) false 0
  else st.
Proof. unfold uniqueStep, trailing, alphaOf, numberOf, trailing. by destruct (splitTrailing is_digit x) as [a b], math. Qed.

Lemma uniqueStep_grows math b0 st x : endsInDigit b0 = false -> uniqueInv math b0 st ->
  maxUniqueData st <= maxUniqueData (uniqueStep math st x) /\
  (baseValue (uniqueStep math st x) = baseValue st \/ baseValue st = []).
Proof.
  intros H0 I. rewrite uniqueStep_eq, (conflict_inv math b0) by done.
  repeat case_match; cbn; split; try lia; auto.
  right. by apply textEq_spec.
Qed.
Lemma covered_mono math st st' x : maxUniqueData st <= maxUniqueData st' -> baseValue st' = baseValue st \/ baseValue st = [] ->
  covered math st x -> covered math st' x.
Proof. unfold covered. intros Hm Hb H. destruct (textEq (trailing x) []); intros Hc; (etransitivity; [apply H|done]); destruct Hb as [Hb|Hb]; rewrite ?Hb in *; auto. Qed.
Lemma uniqueStep_covers math b0 st x : endsInDigit b0 = false -> uniqueInv math b0 st -> covered math (uniqueStep math st x) x.
Proof.
  intros H0 I. rewrite uniqueStep_eq, (conflict_inv math b0) by done. unfold covered.
  destruct (textEq (trailing x) []); cbn [negb].
  - destruct (Z.ltb_spec (maxUniqueData st) 0); cbn [andb]; [|lia].
    destruct (textEq (baseValue st) []) eqn:E1; cbn [orb baseValue maxUniqueData]; [lia|].
    destruct (textEq x (baseValue st)) eqn:E2; cbn; [lia|]. intros [Hc|Hc]; by apply textEq_spec in Hc; congruence.
  - destruct (textEq (baseValue st) []) eqn:E1; cbn [negb andb].
    + destruct (Z.ltb_spec (maxUniqueData st) (numberOf x)); cbn; lia.
    + destruct (textEq (alphaOf math x) (baseValue st)) eqn:E2; cbn [negb].
      * destruct (Z.ltb_spec (maxUniqueData st) (numberOf x)); cbn; lia.
      * intros [Hc|Hc]; by apply textEq_spec in Hc; congruence.
Qed.
Lemma uniqueStep_inv math b0 st x : endsInDigit b0 = false -> numberOf x < 2 ^ 31 - 1 ->
  uniqueInv math b0 st -> uniqueInv math b0 (uniqueStep math st x).
Proof.
  intros H0 Hx I. pose proof I as [Im Ig Ie In If]. rewrite uniqueStep_eq, (conflict_inv math b0) by done.
  destruct (textEq (trailing x) []); cbn [negb].
  - destruct (Z.ltb_spec (maxUniqueData st) 0); cbn [andb]; [|done].
    destruct (_ || _); [|done]. constructor; cbn; try lia; try done.
  - destruct (_ && _); [done|]. destruct (Z.ltb_spec (maxUniqueData st) (numberOf x)); constructor; cbn; try lia; try done.
    + intros Hb. rewrite (Ig Hb). by rewrite (textEq_neq _ _ Hb).
    + destruct (textEq (baseValue st) []); [apply alphaOf_ends|done].
Qed.

Lemma uniqueLoop_inv v math row col group b0 rows st st' : endsInDigit b0 = false ->
  (forall r x, r <> row -> cell v r col = Ok x -> numberOf x < 2 ^ 31 - 1) -> uniqueInv math b0 st ->
  uniqueLoop v math row col group rows st = Ok st' ->
  uniqueInv math b0 st' /\
  (maxUniqueData st <= maxUniqueData st' /\ (baseValue st' = baseValue st \/ baseValue st = [])) /\
  (forall r, r ∈ rows -> r <> row -> rowCounts v group r = Ok true -> exists x, cell v r col = Ok x /\ covered math st' x).
Proof.
  intros H0 Hn. revert st. induction rows as [|r rows IH]; intros st I; cbn [uniqueLoop].
  { intros [= <-]. split_and!; [done|lia|by left|]. intros r Hr. by apply elem_of_nil in Hr. }
  destruct (Nat.eqb_spec r row) as [->|Hr].
  { intros H. destruct (IH _ I H) as (? & ? & Hc). split_and!; [done|tauto|tauto|].
    intros r [->|Hr]%elem_of_cons; [done|by apply Hc]. }
  destruct (rowCounts v group r) as [counts|] eqn:Ec; [|done]. cbn. destruct counts; cbn.
  - destruct (cell v r col) as [x|] eqn:Ex; [|done]. cbn. intros H.
    destruct (uniqueStep_grows math b0 st x H0 I) as [G1 G2].
    assert (uniqueInv math b0 (uniqueStep math st x)) as I' by (eapply uniqueStep_inv; eauto).
    destruct (IH _ I' H) as (? & [G3 G4] & Hc). split_and!; [done|lia| |].
    + destruct G2 as [G2|G2], G4 as [G4|G4]; rewrite ?G2 in *; auto.
    + intros r' [->|Hr']%elem_of_cons; [|by apply Hc]. intros _ _. exists x. split; [done|].
      apply (covered_mono math (uniqueStep math st x)); [done|done|by apply (uniqueStep_covers math b0)].
  - intros H. destruct (IH _ I H) as (? & ? & Hc). split_and!; [done|tauto|tauto|].
    intros r' [->|Hr']%elem_of_cons; [congruence|by apply Hc].
Qed.

Lemma splitTrailing_digits s n : 0 <= n -> endsIn is_digit s = false ->
  splitTrailing is_digit (s ++ to_string_unsigned n) = (s, to_string_unsigned n).
Proof.
  intros Hn Hs. apply splitTrailing_app; [by apply to_string_unsigned_digits|]. unfold endsIn in Hs. by destruct (last s).
Qed.
Lemma to_string_unsigned_nonempty n : 0 <= n -> to_string_unsigned n <> [].
Proof. intros Hn. destruct (to_string_unsigned_cons n Hn) as (c & s & -> & _). done. Qed.

(** The text that is written has the base and the number it was made of. *)
Lemma generated_parts math base n : 0 <= n < 2 ^ 31 -> endsIn (appended math) base = false ->
  let x := base ++ (if math then txt " + " else []) ++ to_string_unsigned n in
  trailing x = to_string_unsigned n /\ alphaOf math x = base /\ numberOf x = n.
Proof.
  intros Hn Hb. cbv zeta.
  assert (splitTrailing is_digit (base ++ (if math then txt " + " else []) ++ to_string_unsigned n)
          = (base ++ (if math then txt " + " else []), to_string_unsigned n)) as E.
  { rewrite (app_assoc base). apply splitTrailing_digits; [lia|]. destruct math; [|by rewrite app_nil_r].
    unfold endsIn. by rewrite last_app. }
  unfold alphaOf, numberOf, trailing. rewrite E. cbn [fst snd]. split_and!; [done| |].
  - destruct math; [|by rewrite app_nil_r]. rewrite splitTrailing_app; [done|by repeat constructor|].
    unfold endsIn, appended in Hb. by destruct (last base).
  - rewrite sscanf_u_to_string_unsigned by (unfold in_range; lia). cbn [default]. apply s32_small. lia.
Qed.

(** The value that comes out is that of no row that was seen. *)
Lemma uniqueValue_fresh math standard b0 st x y : endsInDigit b0 = false -> uniqueInv math b0 st -> 0 <= numberOf y ->
  uniqueValue math standard st = Ok x -> covered math st y -> x <> y.
Proof.
  intros H0 I Hy Hx Hc <-. pose proof I as [Im Ig Ie In If]. unfold uniqueValue in Hx. unfold covered in Hc.
  destruct (Z.eqb_spec (maxUniqueData st) (-1)) as [Hm|Hm].
  - enough (baseValue st = [] \/ x = baseValue st) as [Hb|Hb].
    + destruct (textEq (trailing x) []); [specialize (Hc (or_introl Hb))|specialize (Hc (or_introl Hb))]; lia.
    + assert (trailing x = []) as Et.
      { unfold trailing. rewrite Hb, (In Hm), <- (app_nil_r b0), splitTrailing_app; [done|constructor|].
        unfold endsInDigit in H0. by destruct (last b0). }
      rewrite Et in Hc. specialize (Hc (or_intror Hb)). lia.
    + destruct (textEq (baseValue st) []) eqn:Eb; [left; by apply textEq_spec|right; congruence].
  - destruct (Z.eqb_spec (maxUniqueData st) (2 ^ 31 - 1)); [done|]. apply Ok_inj in Hx as <-.
    destruct (generated_parts math (baseValue st) (maxUniqueData st + 1)) as (E1 & E2 & E3); [lia|done|].
    rewrite E1, E2, E3 in Hc. rewrite textEq_neq in Hc by (apply to_string_unsigned_nonempty; lia).
    specialize (Hc (or_intror eq_refl)). lia.
Qed.
Lemma uniqueInv_start math b0 : endsIn (appended math) b0 = false -> uniqueInv math b0 (mkUnique b0 true (-1)).
Proof. intros H. constructor; cbn; try lia; done. Qed.


(** C13: [setUniqueColumnValue] writes one cell, and what it writes and returns
    is the value of no other row (in the same group, for a column that is
    unique in groups): for a base that does not end in a number (nor, in the
    mode that appends sums, in a plus or space), while no row ends in a number
    beyond the range of [int].  A base that ends in a number is a finding
    ([setUniqueColumnValue_duplicates]). *)
Theorem setUniqueColumnValue_unique v row col base math link groupId x v' :
  endsInDigit base = false -> endsIn (appended math) base = false ->
  (forall r y, r <> row -> cell v r col = Ok y -> 0 <= numberOf y < 2 ^ 31 - 1) ->
  setUniqueColumnValue row col base math link groupId v = (Ok x, v') ->
  v' = putCell v row col x /\ cell v' row col = Ok x /\
  exists ci group, columnAt v col = Ok ci /\ uniqueGroup v ci link groupId = Ok group /\
  forall r, r <> row -> (r < getNumberOfRows v)%nat -> rowCounts v group r = Ok true ->
    exists y, cell v' r col = Ok y /\ cell v r col = Ok y /\ x <> y.
Proof.
  intros Hd He Hn. unfold setUniqueColumnValue, gets, lift, throw, mbind, M_bind, id.
  destruct (requested v row col); cbn [negb]; [|done].
  destruct (columnAt v col) as [ci|] eqn:Eci; [|done]. destruct (uniqueGroup v ci link groupId) as [group|] eqn:Eg; [|done].
  destruct (uniqueLoop _ _ _ _ _ _ _) as [st|] eqn:El; [|done]. destruct (uniqueValue _ _ _) as [z|] eqn:Ez; [|done].
  destruct (setCell row col z v) as [[[]|e] w] eqn:Es; [|done]. intros [= -> <-]. apply setCell_ok in Es as (-> & Hin).
  split_and!; [done|by apply cell_putCell|]. exists ci, group. split_and!; [done..|]. intros r Hr Hlt Hg.
  destruct (uniqueLoop_inv v math row col group base _ _ _ Hd (fun r y H1 H2 => proj2 (Hn r y H1 H2)) (uniqueInv_start math base He) El)
    as (I & _ & Hc).
  destruct (Hc r) as (y & Hy & Hcov); [by apply elem_of_seq; lia|done..|].
  exists y. rewrite cell_putCell_row by done. split_and!; [done..|]. eapply uniqueValue_fresh; eauto. by apply (Hn r).
Qed.

(** ** The rows of a group, in order *)

Lemma elem_of_insertPriority p r m r' : r' ∈ concat (map snd (insertPriority p r m)) <-> r' = r \/ r' ∈ concat (map snd m).
Proof.
  induction m as [|[p' rows] m IH]; cbn; [set_solver|]. destruct (p <? p'); cbn; [set_solver|].
  destruct (p =? p'); cbn; rewrite ?elem_of_app, ?IH; set_solver.
Qed.
Lemma insertPriority_keys p r m k : k ∈ map fst (insertPriority p r m) -> k = p \/ k ∈ map fst m.
Proof.
  induction m as [|[p' rows] m IH]; cbn; [set_solver|]. destruct (p <? p'); cbn; [set_solver|].
  destruct (p =? p'); cbn; set_solver.
Qed.
Lemma insertPriority_sorted p r m : StronglySorted Z.lt (map fst m) -> StronglySorted Z.lt (map fst (insertPriority p r m)).
Proof.
  induction m as [|[p' rows] m IH]; cbn; [intros _; repeat constructor|]. intros H. pose proof H as [Hs Hf]%StronglySorted_inv.
  destruct (Z.ltb_spec p p'); cbn.
  { constructor; [done|]. constructor; [done|]. eapply Forall_impl; [exact Hf|]. cbn. lia. }
  destruct (Z.eqb_spec p p'); cbn; [by constructor|]. constructor; [by apply IH|].
  apply Forall_forall. intros k [->|Hk]%insertPriority_keys; [lia|]. by rewrite Forall_forall in Hf; apply Hf.
Qed.

Section Groups.
Variable prio : nat -> Z.
Definition before (r1 r2 : nat) : Prop := prio r1 < prio r2 \/ prio r1 = prio r2 /\ (r1 < r2)%nat.
(** The map after the rows below [bound]. *)
Definition groupInv (bound : nat) (m : list (Z * list nat)) : Prop :=
  StronglySorted Z.lt (map fst m) /\
  Forall (fun q => StronglySorted lt q.2 /\ Forall (fun r => prio r = q.1 /\ (r < bound)%nat) q.2) m.

Lemma groupInv_mono b b' m : (b <= b')%nat -> groupInv b m -> groupInv b' m.
Proof.
  intros Hb [Hs Hf]. split; [done|]. eapply Forall_impl; [exact Hf|]. cbn. intros q [? Hq]. split; [done|].
  eapply Forall_impl; [exact Hq|]. cbn. lia.
Qed.
Lemma groupInv_insert r m : groupInv r m -> groupInv (S r) (insertPriority (prio r) r m).
Proof.
  intros [Hs Hf]. split; [by apply insertPriority_sorted|]. clear Hs.
  assert (StronglySorted lt [r] /\ Forall (fun r' => prio r' = prio r /\ (r' < S r)%nat) [r]) as H1 by (repeat constructor).
  assert (forall q, StronglySorted lt q.2 /\ Forall (fun r' => prio r' = q.1 /\ (r' < r)%nat) q.2 ->
    StronglySorted lt q.2 /\ Forall (fun r' => prio r' = q.1 /\ (r' < S r)%nat) q.2) as Hq.
  { intros q [? Hq]. split; [done|]. eapply Forall_impl; [exact Hq|]. cbn. lia. }
  induction Hf as [|[p rows] m Hp Hf IH]; cbn; [by constructor|].
  destruct (Z.ltb_spec (prio r) p); [constructor; [done|]; constructor; [by apply Hq|]; by eapply Forall_impl|].
  destruct (Z.eqb_spec (prio r) p) as [<-|].
  - constructor; [|by eapply Forall_impl]. cbn in *. destruct Hp as [Hs Hr]. split.
    + apply StronglySorted_app. split_and!; [|done|by repeat constructor].
      intros a b Ha ->%list_elem_of_singleton. rewrite Forall_forall in Hr. by apply Hr.
    + apply Forall_app. split; [by apply (Hq (prio r, rows))|by repeat constructor].
  - constructor; [by apply Hq|exact IH].
Qed.
Lemma groupInv_sorted b m : groupInv b m -> StronglySorted before (concat (map snd m)).
Proof.
  intros [Hs Hf]. induction Hf as [|[p rows] m [Hp Hr] Hf IH]; cbn in *; [constructor|].
  apply StronglySorted_inv in Hs as [Hs Hk]. apply StronglySorted_app. split_and!; [| |by apply IH].
  - intros a b' Ha Hb. left. rewrite Forall_forall in Hr; rewrite Forall_forall in Hk; rewrite Forall_forall in Hf. destruct (Hr a Ha) as [-> _].
    apply list_elem_of_In, in_concat in Hb as (l & [q [<- Hq]]%in_map_iff & Hb).
    apply list_elem_of_In in Hq, Hb. destruct (Hf q Hq) as [_ Hq']. rewrite Forall_forall in Hq'.
    destruct (Hq' b' Hb) as [-> _]. apply Hk. apply list_elem_of_fmap. by exists q.
  - clear -Hp Hr. induction Hp as [|r l Hl IHl Hall]; [constructor|]. apply Forall_cons in Hr as [[Hr0 _] Hr].
    constructor; [by apply IHl|]. apply Forall_forall. intros a Ha. rewrite Forall_forall in Hall; rewrite Forall_forall in Hr. right.
    destruct (Hr a Ha) as [-> _]. split; [done|by apply Hall].
Qed.
End Groups.

Section GroupRows.
Variables (getenv : text -> option text) (systemVariables_ : gmap text (gmap text text)) (expansionFuel : nat).
Abbreviation isRowOn := (isRowOn getenv systemVariables_ expansionFuel).
Abbreviation rowPriority := (rowPriority getenv systemVariables_ expansionFuel).
Abbreviation groupLoop := (groupLoop getenv systemVariables_ expansionFuel).
Abbreviation getGroupRows := (getGroupRows getenv systemVariables_ expansionFuel).

(** The priority by which a row is sorted. *)
Definition priorityOf v (byPriority : bool) (r : nat) : Z := match rowPriority v byPriority r with Ok p => p | Throw _ => 0 end.

Lemma groupLoop_spec v c g on by_ n : forall k m m', groupInv (priorityOf v by_) k m ->
  groupLoop v c g on by_ (seq k n) m = Ok m' ->
  groupInv (priorityOf v by_) (k + n) m' /\
  forall r, r ∈ concat (map snd m') <->
    r ∈ concat (map snd m) \/ ((k <= r < k + n)%nat /\ isRowOfGroup v c g r = Ok true /\ isRowOn v on r = Ok true).
Proof.
  induction n as [|n IH]; intros k m m' I; cbn [seq groupLoop TableRows.groupLoop].
  { intros [= <-]. rewrite Nat.add_0_r. split; [done|]. intros r. split; [by left|]. intros [?|[? _]]; [done|lia]. }
  rewrite <- Nat.add_succ_comm. destruct (isRowOfGroup v c g k) as [member|] eqn:Em; [|done]. cbn [mbind result_bind].
  assert (forall b, b = false -> (member = false \/ isRowOn v on k = Ok false) -> groupLoop v c g on by_ (seq (S k) n) m = Ok m' ->
    groupInv (priorityOf v by_) (S k + n) m' /\ forall r, r ∈ concat (map snd m') <->
    r ∈ concat (map snd m) \/ ((k <= r < S k + n)%nat /\ isRowOfGroup v c g r = Ok true /\ isRowOn v on r = Ok true)) as Skip.
  { intros b -> Hno H. destruct (IH _ _ _ (groupInv_mono _ k (S k) m ltac:(lia) I) H) as [I' He]. split; [done|].
    intros r. rewrite He. split; intros [?|(? & ? & ?)]; [by left|right; split_and!; [lia|lia|done..]|by left|].
    right. split_and!; [|lia|done..]. destruct (decide (r = k)) as [->|]; [|lia]. destruct Hno as [->|Hno]; congruence. }
  destruct member; [|by apply (Skip false); auto].
  destruct (isRowOn v on k) as [[]|] eqn:Eon; [|by apply (Skip false); auto|done].
  destruct (rowPriority v by_ k) as [p|] eqn:Ep; [|done]. cbn [negb mbind result_bind].
  assert (p = priorityOf v by_ k) as -> by (unfold priorityOf; by rewrite Ep).
  intros H. destruct (IH _ _ _ (groupInv_insert _ k m I) H) as [I' He]. split; [done|].
  intros r. rewrite He, elem_of_insertPriority. split.
  - intros [[->|?]|(? & ? & ?)]; [right; split_and!; [lia|lia|done..]|by left|right; split_and!; [lia|lia|done..]].
  - intros [?|(? & ? & ?)]; [by left; right|]. destruct (decide (r = k)) as [->|]; [by left; left|right; split_and!; [lia|lia|done..]].
Qed.

Lemma priorityOf_ordered v ordered :
  priorityOf v (ordered && match colPriority_ v with Some _ => true | None => false end) = priorityOf v ordered.
Proof. unfold priorityOf, TableRows.rowPriority. by destruct ordered, (colPriority_ v). Qed.

(** C14: [getGroupRows] returns each row that is a member of the group and, if
    asked, on, and no other; by rising priority (0 standing for 100) and in the
    order of the table within a priority. *)
Theorem getGroupRows_spec v c g on ordered rows : getGroupRows v c g on ordered = Ok rows ->
  (forall r, r ∈ rows <-> (r < getNumberOfRows v)%nat /\ isRowOfGroup v c g r = Ok true /\ isRowOn v on r = Ok true) /\
  StronglySorted (before (priorityOf v ordered)) rows.
Proof.
  unfold getGroupRows, getGroupRowsInVectors.
  set (by_ := ordered && _). destruct (TableRows.groupLoop _ _ _ _ _ _ _ _ _ _) as [m|] eqn:E; [|done]. intros [= <-].
  apply groupLoop_spec in E as [I He].
  - split; [|rewrite <- (priorityOf_ordered v ordered); by eapply groupInv_sorted].
    intros r. rewrite He. split.
    + intros [Hr|(? & ? & ?)]; [|split_and!; [lia|done..]]. exfalso. destruct by_; cbn in Hr; by apply elem_of_nil in Hr.
    + intros (? & ? & ?). right. split_and!; [lia|lia|done..].
  - unfold groupInv. destruct by_; cbn; split; repeat constructor.
Qed.
End GroupRows.

(** ** New rows *)

Definition rectangular v : Prop := Forall (fun row => length row = getNumberOfColumns v) (theDataView_ v).

Lemma alter_snoc {A} (f : A -> A) (l : list A) (x : A) : alter f (length l) (l ++ [x]) = l ++ [f x].
Proof. replace (length l) with (length l + 0)%nat by lia. by rewrite alter_app_r. Qed.
Lemma forEach_app {S A} (l1 l2 : list A) (f : A -> M S unit) x : forEach (l1 ++ l2) f x = (forEach l1 f ≫= fun _ => forEach l2 f) x.
Proof.
  revert x. induction l1 as [|a l1 IH]; intros x; [done|]. cbn [app forEach]. unfold mbind at 1 3, M_bind at 1 3. unfold mbind, M_bind.
  destruct (f a x) as [[u|e] x']; [|done]. rewrite IH. done.
Qed.

(** A loop that puts a value into each column of a row. *)
Lemma forEach_fill r g (f : nat -> M TableView unit) v0 m :
  (forall c w, (c < getNumberOfColumns v0)%nat -> w = set_data v0 (theDataView_ w) -> inView w r c = true ->
    f c w = (Ok tt, putCell w r c (g c))) ->
  forall pre post v, v = set_data v0 (theDataView_ v) -> theDataView_ v !! r = Some (pre ++ post) -> length post = m ->
    (length pre + m <= getNumberOfColumns v0)%nat ->
    forEach (seq (length pre) m) f v = (Ok tt, set_data v (<[r := pre ++ map g (seq (length pre) m)]> (theDataView_ v))).
Proof.
  intros Hf. induction m as [|m IH]; intros pre post v Hv Hr Hp Hle.
  { apply nil_length_inv in Hp as ->. rewrite app_nil_r in Hr. cbn [seq map]. rewrite app_nil_r, list_insert_id by done.
    cbn. unfold mret, M_ret. f_equal. rewrite Hv at 1. by rewrite Hv. }
  destruct post as [|x post]; [done|]. cbn [seq forEach map]. rewrite (bind_ok (f (length pre)) _ v tt (putCell v r (length pre) (g (length pre)))).
  2: { apply Hf; [lia|done|]. unfold inView. rewrite Hr, length_app. cbn. apply Nat.ltb_lt. lia. }
  pose proof (IH (pre ++ [g (length pre)]) post (putCell v r (length pre) (g (length pre)))) as IH'.
  rewrite length_app in IH'. cbn [length] in IH'. rewrite Nat.add_1_r in IH'. rewrite IH'; [| | |by cbn in Hp; lia|lia].
  - f_equal. unfold putCell, set_data. cbn. f_equal. rewrite <- app_assoc. cbn.
    by rewrite list_insert_alter.
  - rewrite Hv at 1. done.
  - cbn. rewrite list_lookup_alter_eq, Hr. cbn. f_equal. rewrite insert_app_r_alt by lia.
    rewrite Nat.sub_diag. cbn. by rewrite <- app_assoc.
Qed.
Lemma forEach_fill_row r g (f : nat -> M TableView unit) v row :
  (forall c w, (c < getNumberOfColumns v)%nat -> w = set_data v (theDataView_ w) -> inView w r c = true ->
    f c w = (Ok tt, putCell w r c (g c))) ->
  theDataView_ v !! r = Some row -> length row = getNumberOfColumns v ->
  forEach (seq 0 (getNumberOfColumns v)) f v = (Ok tt, set_data v (<[r := map g (seq 0 (getNumberOfColumns v))]> (theDataView_ v))).
Proof. intros Hf Hr Hl. apply (forEach_fill r g f v _ Hf [] row); [by destruct v|done|done|done]. Qed.

(** The rows moved down by one, with a row of the right width between. *)
Lemma shiftRows_room cols k (data : list (list text)) : Forall (fun row => length row = cols) data -> (k <= length data)%nat ->
  exists row, length row = cols /\ shiftRows cols k (data ++ [replicate cols []]) = take k data ++ row :: drop k data.
Proof.
  intros Hd Hk. exists (default (replicate cols []) (data !! k)). split.
  { destruct (data !! k) as [row|] eqn:E; cbn -[Nat.ltb]; [|by rewrite length_replicate]. by apply (Forall_lookup_1 _ _ _ _ Hd E). }
  apply list_eq. intros j. unfold shiftRows. rewrite list_lookup_imap.
  destruct (Nat.lt_trichotomy j k) as [Hj|[->|Hj]].
  - rewrite (lookup_app_l data) by lia. rewrite lookup_app_l by (rewrite length_take; lia). rewrite lookup_take_lt by done.
    destruct (data !! j); [|done]. cbn -[Nat.ltb]. destruct (Nat.ltb_spec k j); [lia|done].
  - rewrite (lookup_app_r (take k data)) by (rewrite length_take; lia). rewrite length_take, Nat.min_l, Nat.sub_diag by lia. cbn -[Nat.ltb].
    destruct (decide (k < length data)%nat).
    + rewrite lookup_app_l by done. destruct (lookup_lt_is_Some_2 data k) as [row ->]; [done|]. cbn -[Nat.ltb]. by rewrite Nat.ltb_irrefl.
    + replace k with (length data) by lia. rewrite list_lookup_middle by done. cbn -[Nat.ltb]. rewrite Nat.ltb_irrefl.
      by rewrite lookup_ge_None_2 by lia.
  - rewrite (lookup_app_r (take k data)) by (rewrite length_take; lia). rewrite length_take, Nat.min_l by lia.
    destruct j as [|j]; [lia|]. replace (S j - k)%nat with (S (j - k)) by lia. rewrite lookup_cons, lookup_drop. replace (k + (j - k))%nat with j by lia.
    destruct (data !! j) as [row|] eqn:E.
    + destruct ((data ++ [replicate cols []]) !! S j) as [next|] eqn:En.
      2: { apply lookup_ge_None_1 in En. rewrite length_app in En. apply lookup_lt_Some in E. cbn in En. lia. }
      cbn -[Nat.ltb]. destruct (Nat.ltb_spec k (S j)); [|lia]. rewrite Nat.sub_0_r.
      rewrite app_nth1 by (by apply lookup_lt_Some in E). apply nth_lookup_Some with (d := []) in E as En'.
      rewrite En'. pose proof (Forall_lookup_1 _ _ _ _ Hd E) as Hrow. cbn in Hrow. rewrite <- Hrow, firstn_all.
      assert (length next = cols) as Hn.
      { destruct (decide (S j < length data)%nat).
        - rewrite lookup_app_l in En by done. by apply (Forall_lookup_1 _ _ _ _ Hd En).
        - apply lookup_lt_Some in E. replace (S j) with (length data) in En by lia.
          rewrite list_lookup_middle in En by done. injection En as <-. by rewrite length_replicate. }
      rewrite drop_ge by lia. by rewrite app_nil_r.
    + apply lookup_ge_None_1 in E. rewrite lookup_ge_None_2; [done|]. rewrite length_app. cbn -[Nat.ltb]. lia.
Qed.

(** What a new row holds; a row that is added for an author is stamped. *)
Definition newRow v (author : text) (now : Z) : list text :=
  if textEq author [] then rowDefaultValues_ v
  else match findColByType v TYPE_AUTHOR 0, findColByType v TYPE_TIMESTAMP 0 with
       | Some a, Some t => <[t := to_string_signed now]> (<[a := author]> (rowDefaultValues_ v))
       | _, _ => rowDefaultValues_ v
       end.
Definition hasType v (c : nat) (fits : text -> bool) : Prop := exists ci, columnsInfo_ v !! c = Some ci /\ fits (dataType_ ci) = true.
Definition stampable v (author : text) : Prop := author <> [] -> exists a t,
  findColByType v TYPE_AUTHOR 0 = Some a /\ findColByType v TYPE_TIMESTAMP 0 = Some t /\
  hasType v a (fun ty => textEq ty DATATYPE_STRING) /\ hasType v t (fun ty => textEq ty DATATYPE_NUMBER || textEq ty DATATYPE_TIME).
Lemma newRow_length v author now : length (rowDefaultValues_ v) = getNumberOfColumns v -> length (newRow v author now) = getNumberOfColumns v.
Proof. intros Hd. unfold newRow. repeat case_match; by rewrite ?length_insert. Qed.
Definition insertRows (k : nat) (rows data : list (list text)) : list (list text) := take k data ++ rows ++ drop k data.

Lemma setChecked_ok fits x r c v row : theDataView_ v !! r = Some row -> length row = getNumberOfColumns v -> hasType v c fits ->
  setChecked fits x r c v = (Ok tt, putCell v r c x).
Proof.
  intros Hr Hl (ci & Hc & Hf). unfold setChecked, gets, lift, mbind, M_bind, requested, columnAt.
  pose proof (lookup_lt_Some _ _ _ Hr) as Hlr. pose proof (lookup_lt_Some _ _ _ Hc) as Hlc. unfold getNumberOfColumns, getNumberOfRows in *.
  rewrite (proj2 (Nat.ltb_lt _ _) Hlc), (proj2 (Nat.ltb_lt _ _) Hlr). cbn [negb andb]. rewrite Hc, Hf.
  unfold setCell, inView. rewrite Hr, (proj2 (Nat.ltb_lt _ _)); [done|lia].
Qed.
Lemma putCell_put v r c x row : theDataView_ v !! r = Some row -> putCell v r c x = set_data v (<[r := <[c := x]> row]> (theDataView_ v)).
Proof. intros Hr. unfold putCell. f_equal. by apply list_alter_lookup. Qed.
Lemma fillDefaults base k link g v row : theDataView_ v !! k = Some row -> length row = getNumberOfColumns v ->
  length (rowDefaultValues_ v) = getNumberOfColumns v ->
  forEach (seq 0 (getNumberOfColumns v)) (fillColumn false base k link g) v =
    (Ok tt, set_data v (<[k := rowDefaultValues_ v]> (theDataView_ v))).
Proof.
  intros Hr Hl Hd. pose proof (map_seq_lookup [] (rowDefaultValues_ v) (getNumberOfColumns v) Hd) as E.
  replace (<[k := rowDefaultValues_ v]> (theDataView_ v)) with (<[k := map (fun c => nth c (rowDefaultValues_ v) []) (seq 0 (getNumberOfColumns v))]> (theDataView_ v))
    by (by rewrite E). apply (forEach_fill_row k (fun c => nth c (rowDefaultValues_ v) []) _ v row); [|done|done]. intros c w Hc Hw Hin.
  assert (columnsInfo_ w = columnsInfo_ v /\ rowDefaultValues_ w = rowDefaultValues_ v) as [Ec Er] by by rewrite Hw.
  unfold fillColumn, gets, lift, mbind, M_bind, columnAt, defaultAt, id. rewrite Ec, Er.
  unfold getNumberOfColumns in Hc, Hd.
  destruct (lookup_lt_is_Some_2 (columnsInfo_ v) c Hc) as [ci ->]. destruct (lookup_lt_is_Some_2 (rowDefaultValues_ v) c) as [d Ed]; [lia|].
  cbn. rewrite Ed. unfold setCell. rewrite Hin. by rewrite (nth_lookup_Some _ _ [] _ Ed).
Qed.

Lemma stampRow_put author now k v row a t : theDataView_ v !! k = Some row -> length row = getNumberOfColumns v ->
  findColByType v TYPE_AUTHOR 0 = Some a -> findColByType v TYPE_TIMESTAMP 0 = Some t ->
  hasType v a (fun ty => textEq ty DATATYPE_STRING) -> hasType v t (fun ty => textEq ty DATATYPE_NUMBER || textEq ty DATATYPE_TIME) ->
  stampRow author now k v = (Ok tt, set_data v (<[k := <[t := to_string_signed now]> (<[a := author]> row)]> (theDataView_ v))).
Proof.
  intros Hr Hl Fa Ft Ta Tt. unfold stampRow. rewrite (bind_ok (gets id) _ v v v) by done. unfold id. rewrite Fa, Ft. unfold setValue, setTime.
  rewrite (bind_ok (setChecked _ _ _ _) _ v tt _ (setChecked_ok _ author k a v _ Hr Hl Ta)). rewrite (putCell_put _ _ _ _ _ Hr).
  set (w := set_data v _). assert (theDataView_ w !! k = Some (<[a := author]> row)) as Hw.
  { cbn. apply list_lookup_insert_eq. exact (lookup_lt_Some _ _ _ Hr). }
  rewrite (setChecked_ok _ (to_string_signed now) k t w _ Hw); [|by rewrite length_insert|done].
  rewrite (putCell_put _ _ _ _ _ Hw). unfold w. cbn [theDataView_ set_data]. by rewrite list_insert_insert_eq.
Qed.

(** [addRow] without generated values puts one row with the default values
    (stamped with the author and the time, if there is an author) before row
    [rowToAdd], or at the end, returns its index, and moves no other value. *)
Lemma addRow_spec author now base rowToAdd link g v : let k := default (getNumberOfRows v) rowToAdd in
  rectangular v -> length (rowDefaultValues_ v) = getNumberOfColumns v -> (k <= getNumberOfRows v)%nat -> stampable v author ->
  addRow author now false base rowToAdd link g v = (Ok k, set_data v (insertRows k [newRow v author now] (theDataView_ v))).
Proof.
  intros k Hrect Hd Hk Hst. unfold addRow. rewrite (bind_ok (gets id) _ v v v) by done. fold k.
  assert (makesRoom (getNumberOfColumns v) k (theDataView_ v) = true) as ->.
  { unfold makesRoom. apply andb_true_intro. split; [by apply Nat.leb_le|]. apply forallb_forall. intros row Hrow.
    apply list_elem_of_In in Hrow. apply Nat.leb_le. pose proof (Forall_drop _ k _ Hrect) as Hr. rewrite Forall_forall in Hr. by rewrite (Hr row Hrow). }
  cbn [negb]. destruct (shiftRows_room (getNumberOfColumns v) k (theDataView_ v)) as (row & Hl & Es); [done|done|].
  rewrite (bind_ok (modify _) _ v tt _ eq_refl), Es. set (data := take k _ ++ row :: _).
  assert (data !! k = Some row) as Hrow by by apply lookup_middle.
  rewrite (bind_ok (forEach _ _) _ _ tt _ (fillDefaults base k link g (set_data v data) row Hrow Hl Hd)). cbn [theDataView_ rowDefaultValues_ set_data].
  change (set_data (set_data v data) ?x) with (set_data v x).
  assert (forall r, <[k := r]> data = insertRows k [r] (theDataView_ v)) as Ei by (intros; by apply insert_middle).
  unfold newRow. destruct (textEq author []) eqn:Ea.
  { cbn. unfold mret, M_ret. f_equal. by rewrite Ei. }
  apply textEq_false in Ea. destruct (Hst Ea) as (a & t & Fa & Ft & Ta & Tt). rewrite Fa, Ft. rewrite Ei.
  set (w := set_data v _). assert (theDataView_ w !! k = Some (rowDefaultValues_ v)) as Hw by (by apply lookup_middle).
  rewrite (bind_ok (stampRow author now k) _ w tt (set_data v (insertRows k [<[t := to_string_signed now]> (<[a := author]> (rowDefaultValues_ v))] (theDataView_ v)))); [done|].
  rewrite (stampRow_put author now k w (rowDefaultValues_ v) a t Hw Hd Fa Ft Ta Tt). unfold w, insertRows. cbn [theDataView_ set_data].
  do 2 f_equal. by apply insert_middle.
Qed.

Lemma copyColumns_spec source from to v row src : theDataView_ v !! to = Some row -> length row = getNumberOfColumns v ->
  theDataView_ source !! from = Some src -> length src = getNumberOfColumns v ->
  forEach (seq 0 (getNumberOfColumns v)) (copyColumn false source from to) v = (Ok tt, set_data v (<[to := src]> (theDataView_ v))).
Proof.
  intros Hr Hl Hs Hls. pose proof (map_seq_lookup [] src (getNumberOfColumns v) Hls) as E.
  replace (<[to := src]> (theDataView_ v)) with (<[to := map (fun c => nth c src []) (seq 0 (getNumberOfColumns v))]> (theDataView_ v))
    by (by rewrite E). apply (forEach_fill_row to (fun c => nth c src []) _ v row); [|done|done]. intros c w Hc Hw Hin.
  assert (columnsInfo_ w = columnsInfo_ v) as Ec by by rewrite Hw.
  unfold copyColumn, lift, mbind, M_bind, columnAt. rewrite Ec. unfold getNumberOfColumns in Hc, Hls.
  destruct (lookup_lt_is_Some_2 (columnsInfo_ v) c Hc) as [ci ->]. destruct (lookup_lt_is_Some_2 src c) as [x Ex]; [lia|].
  cbn. unfold cell. rewrite Hs, Ex. unfold setCell. rewrite Hin. by rewrite (nth_lookup_Some _ _ [] _ Ex).
Qed.
Lemma insertRows_more k data x rows : (k <= length data)%nat -> insertRows (S k) rows (insertRows k [x] data) = insertRows k (x :: rows) data.
Proof.
  intros Hk. unfold insertRows. assert (length (take k data ++ [x]) = S k) as Hl by (rewrite length_app, length_take; cbn; lia).
  rewrite (app_assoc (take k data)), take_app_length', drop_app_length' by done. by rewrite <- !app_assoc.
Qed.
Lemma rectangular_insert v k rows : rectangular v -> Forall (fun row => length row = getNumberOfColumns v) rows ->
  rectangular (set_data v (insertRows k rows (theDataView_ v))).
Proof. intros Hv Hr. unfold rectangular, insertRows. cbn. repeat apply Forall_app_2; [by apply Forall_take|done|by apply Forall_drop]. Qed.

Lemma copyLoop_spec author now source base rows : forall from dest ret v, let k := default (getNumberOfRows v) dest in
  rectangular v -> length (rowDefaultValues_ v) = getNumberOfColumns v -> (k <= getNumberOfRows v)%nat -> stampable v author ->
  Forall2 (fun r row => theDataView_ source !! r = Some row /\ length row = getNumberOfColumns v) from rows ->
  copyLoop author now source false base from dest ret v =
    (Ok (match from with [] => ret | _ => Some (default k ret) end), set_data v (insertRows k rows (theDataView_ v))).
Proof.
  induction rows as [|row rows IH]; intros from dest ret v k Hv Hd Hk Hst HF.
  { apply Forall2_nil_inv_r in HF as ->. cbn. unfold mret, M_ret, insertRows. cbn. rewrite take_drop. by destruct v. }
  apply Forall2_cons_inv_r in HF as (r & from' & [Hr Hl] & HF & ->). cbn [copyLoop].
  rewrite (bind_ok (addRow _ _ _ _ _ _ _) _ v k _ (addRow_spec author now base dest [] [] v Hv Hd Hk Hst)).
  set (w := set_data v _). rewrite (bind_ok (gets getNumberOfColumns) _ w (getNumberOfColumns v) w eq_refl).
  assert (theDataView_ w !! k = Some (newRow v author now)) as Hw by (by apply lookup_middle).
  rewrite (bind_ok (forEach _ _) _ w tt _ (copyColumns_spec source r k w _ row Hw (newRow_length v author now Hd) Hr Hl)).
  assert (set_data w (<[k := row]> (theDataView_ w)) = set_data v (insertRows k [row] (theDataView_ v))) as ->.
  { unfold w, insertRows. cbn [theDataView_ set_data]. do 2 f_equal. by apply insert_middle. }
  clear w Hw. set (w := set_data v _).
  assert (getNumberOfRows w = S (getNumberOfRows v)) as Hn.
  { unfold w, getNumberOfRows, insertRows. cbn [theDataView_ set_data].
    rewrite !length_app, length_take, length_drop. cbn [length]. unfold getNumberOfRows in Hk. lia. }
  rewrite (IH from' (Some (S k)) (Some (default k ret)) w).
  - change (default (getNumberOfRows w) (Some (S k))) with (S k). unfold w. cbn [theDataView_ set_data]. rewrite insertRows_more by done. by destruct from'.
  - apply rectangular_insert; [done|by repeat constructor].
  - done.
  - change (S k <= getNumberOfRows w)%nat. lia.
  - done.
  - done.
Qed.
Lemma rows_from (data : list (list text)) (P : list text -> Prop) off : Forall P data ->
  Forall2 (fun r row => data !! r = Some row /\ P row) (seq off (length data - off)) (drop off data).
Proof.
  intros HP. apply Forall2_same_length_lookup. split; [by rewrite length_seq, length_drop|]. intros i r row Hr Hrow.
  apply lookup_seq in Hr as [-> _]. rewrite lookup_drop in Hrow. split; [done|]. by apply (Forall_lookup_1 _ _ _ _ HP Hrow).
Qed.
Lemma Forall2_take_both {A B} (P : A -> B -> Prop) n l k : Forall2 P l k -> Forall2 P (take n l) (take n k).
Proof. intros H. revert n. induction H; intros [|n]; cbn; constructor; auto. Qed.

(** The rows that [copyRows] takes of the source. *)
Definition copiedRows (source : TableView) (off : nat) (n : option nat) : list (list text) :=
  let rows := drop off (theDataView_ source) in match n with Some n => take n rows | None => rows end.

(** [copyRows] without generated values puts exactly the rows asked for,
    as many as there are, unchanged and in their order before row
    [destOffsetRow], or at the end; it returns where the first one is, and all
    the other rows stay as they are.  (The author and time with which each row
    is added are overwritten by those of the source.) *)
Theorem copyRows_inserts author now source off n dest base v : let k := default (getNumberOfRows v) dest in
  getNumberOfColumns source = getNumberOfColumns v -> rectangular source -> rectangular v ->
  length (rowDefaultValues_ v) = getNumberOfColumns v -> (k <= getNumberOfRows v)%nat -> stampable v author ->
  copyRows author now source off n dest false base v =
    (Ok (match copiedRows source off n with [] => None | _ => Some k end), set_data v (insertRows k (copiedRows source off n) (theDataView_ v))).
Proof.
  intros k Hc Hs Hv Hd Hk Hst. unfold copyRows. rewrite (bind_ok (gets getNumberOfColumns) _ v _ v eq_refl).
  rewrite Hc, Nat.eqb_refl. cbn [negb].
  set (from := match n with Some _ => _ | None => _ end).
  assert (Forall2 (fun r row => theDataView_ source !! r = Some row /\ length row = getNumberOfColumns v) from (copiedRows source off n)) as HF.
  { unfold from, copiedRows. unfold rectangular in Hs. rewrite Hc in Hs. pose proof (rows_from _ _ off Hs) as HF.
    destruct n; [by apply Forall2_take_both|done]. }
  rewrite (copyLoop_spec author now source base (copiedRows source off n) from dest None v Hv Hd Hk Hst HF).
  by destruct HF.
Qed.

(** ** Groups of a cell *)

Lemma groupTokens_group g s cur : Forall (fun c => isSeparator c = false) g -> groupTokens (g ++ s) cur = groupTokens s (cur ++ g).
Proof.
  intros Hg. revert cur. induction Hg as [|c g Hc _ IH]; intros cur; cbn; [by rewrite app_nil_r|].
  rewrite Hc, IH. by rewrite <- app_assoc.
Qed.
Lemma groupTokens_separator g x : g <> [] -> Forall (fun c => isSeparator c = false) g -> groupTokens (g ++ separator ++ x) [] = g :: groupTokens x [].
Proof. intros Hn Hg. rewrite groupTokens_group by done. cbn. by rewrite (textEq_neq _ _ Hn). Qed.
Lemma groupTokens_one g : g <> [] -> Forall (fun c => isSeparator c = false) g -> groupTokens g [] = [g].
Proof.
  intros Hn Hg. rewrite <- (app_nil_r g) at 1. rewrite groupTokens_group by done. cbn. by rewrite (textEq_neq _ _ Hn).
Qed.
Lemma setValue_ok x r c v v' : setValue x r c v = (Ok tt, v') -> v' = putCell v r c x /\ inView v r c = true.
Proof.
  unfold setValue, setChecked, gets, lift, throw, mbind, M_bind. destruct (requested v r c); cbn; [|done].
  destruct (columnAt v c); [|done]. destruct (textEq _ _); [|done]. apply setCell_ok.
Qed.

(** The groups that stay in a cell: none if it is empty or holds the default. *)
Definition keptGroups v (col : nat) (x : text) : list text :=
  if textEq x [] || match defaultAt v col with Ok d => textEq x d | Throw _ => false end then [] else groupTokens x [].

(** a row that is added to a group was not a member of it (by wild card);
    afterwards the cell names the group in front of the groups it named before,
    or it alone, if the cell was empty or still the default. *)
Theorem addRowToGroup_groups row col g v v' : g <> [] -> Forall (fun c => isSeparator c = false) g ->
  addRowToGroup row col g v = (Ok tt, v') ->
  exists x y, cell v row col = Ok x /\ cell v' row col = Ok y /\ v' = putCell v row col y /\
    Forall (fun h => (StringMacros.wildCardMatch h g).1 = false) (groupTokens x []) /\
    groupTokens y [] = g :: keptGroups v col x.
Proof.
  intros Hn Hg. unfold addRowToGroup, gets, lift, throw, mbind, M_bind, id.
  destruct (isEntryInGroupCol v row col g) as [member|] eqn:Em; [|done]. destruct member; [done|].
  destruct (cell v row col) as [x|] eqn:Ex; [|done].
  unfold isEntryInGroupCol in Em. destruct (requested v row col); [|done]. cbn [negb] in Em. rewrite Ex in Em. cbn in Em.
  apply Ok_inj in Em. assert (Forall (fun h => (StringMacros.wildCardMatch h g).1 = false) (groupTokens x [])) as Hnot.
  { apply Forall_forall. intros h Hh. destruct (StringMacros.wildCardMatch h g).1 eqn:Eh; [|done].
    assert (existsb (fun h => (StringMacros.wildCardMatch h g).1) (groupTokens x []) = true) as Ht; [|congruence].
    apply existsb_exists. exists h. split; [by apply list_elem_of_In|done]. }
  assert (forall y, setValue y row col v = (Ok tt, v') -> groupTokens y [] = g :: keptGroups v col x ->
    exists x0 y0, Ok x = Ok x0 /\ cell v' row col = Ok y0 /\ v' = putCell v row col y0 /\
    Forall (fun h => (StringMacros.wildCardMatch h g).1 = false) (groupTokens x0 []) /\
    groupTokens y0 [] = g :: keptGroups v col x0) as G.
  { intros y [-> Hin]%setValue_ok Hy. exists x, y. split_and!; [done|by apply cell_putCell|done..]. }
  unfold keptGroups in *. destruct (textEq x []) eqn:E0; cbn [orb] in *.
  { rewrite E0. intros H. apply (G g H). by apply groupTokens_one. }
  destruct (defaultAt v col) as [d|]; [|done]. destruct (textEq x d); intros H; apply (G _ H).
  - by apply groupTokens_one.
  - by apply groupTokens_separator.
Qed.

(** ** Concrete runs *)

(** A small table: identifiers, a group column, a unique value, a comment, an
    author and a time. *)
Definition column (type name dataType default : string) : TableViewColumnInfo :=
  mkColumn (txt type) (txt name) (txt name) (txt dataType) (txt default) [] [] [] None.
Definition sampleColumns : list TableViewColumnInfo :=
  [column "UID" "UID" "STRING" "DEFAULT"; column "GroupID-FEs" "GROUP" "STRING" "";
   column "UniqueData" "PORT" "STRING" ""; column "Priority" "PRIORITY" "NUMBER" "0";
   column "Comment" "CommentDescription" "STRING" ""; column "Author" "AUTHOR" "STRING" "admin"; column "Timestamp" "TIME" "TIMESTAMP WITH TIMEZONE" "0"].
Definition sampleRow (uid group port priority : string) : list text :=
  [txt uid; txt group; txt port; txt priority; txt "none"; txt "admin"; txt "0"].
Definition sample : TableView :=
  mkView [] (txt "FE_TABLE") (TableVersion.Mk 1) [] [] 0 0 (map defaultValue_ sampleColumns) (Some 0%nat) None (Some 3%nat) ∅ false false [] 0 0 ∅
    sampleColumns [sampleRow "FE1" "A | B" "P1" "7"; sampleRow "FE2" "B C" "P9" "0"; sampleRow "Other" "A|C" "Q3" "7"].

Lemma setUniqueColumnValue_unique_witness :
  let '(r, v') := setUniqueColumnValue 2 2 (txt "P") false [] [] sample in
  r = Ok (txt "P10") /\ v' = putCell sample 2 2 (txt "P10").
Proof.
  destruct (setUniqueColumnValue 2 2 (txt "P") false [] [] sample) as [r v'] eqn:E.
  assert (r = Ok (txt "P10")) as -> by (transitivity (setUniqueColumnValue 2 2 (txt "P") false [] [] sample).1; [by rewrite E|by vm_compute]).
  split; [done|]. refine (proj1 (setUniqueColumnValue_unique sample 2 2 (txt "P") false [] [] (txt "P10") v' eq_refl eq_refl _ E)).
  intros [|[|[|r]]] y Hr Hy; try done; by injection Hy as <-.
Defined.
(** A base that ends in a number is given an underscore, but only if it is the
    base of some row: here it is the whole value of one, which is written
    again. *)
Lemma setUniqueColumnValue_duplicates :
  (setUniqueColumnValue 2 0 (txt "FE1") false [] [] sample).1 = Ok (txt "FE1") /\ cell sample 0 0 = Ok (txt "FE1").
Proof. by vm_compute. Qed.

Lemma getGroupRows_spec_witness :
  exists rows, getGroupRows (fun _ => None) ∅ 100 sample (Some 1%nat) [] false true = Ok rows /\ rows = [0; 2; 1]%nat /\
  StronglySorted (before (priorityOf (fun _ => None) ∅ 100 sample true)) rows.
Proof.
  exists [0; 2; 1]%nat. assert (getGroupRows (fun _ => None) ∅ 100 sample (Some 1%nat) [] false true = Ok [0; 2; 1]%nat) as E by by vm_compute.
  split; [exact E|]. split; [done|]. exact (proj2 (getGroupRows_spec _ _ _ sample (Some 1%nat) [] false true _ E)).
Defined.

Lemma sample_stampable author : stampable sample author.
Proof. intros _. exists 5%nat, 6%nat. split_and!; [done|done|by eexists|by eexists]. Qed.
Lemma sample_rectangular : rectangular sample.
Proof. by repeat constructor. Qed.
Lemma copyRows_inserts_witness :
  copyRows (txt "ann") 5 sample 1 (Some 5%nat) (Some 0%nat) false [] sample =
    (Ok (Some 0%nat), set_data sample (insertRows 0 (copiedRows sample 1 (Some 5%nat)) (theDataView_ sample))).
Proof.
  exact (copyRows_inserts (txt "ann") 5 sample 1 (Some 5%nat) (Some 0%nat) [] sample eq_refl sample_rectangular sample_rectangular eq_refl
    (Nat.le_0_l _) (sample_stampable _)).
Defined.

Lemma addRowToGroup_groups_witness :
  exists v' x y, addRowToGroup 0 1 (txt "D") sample = (Ok tt, v') /\ cell sample 0 1 = Ok x /\ cell v' 0 1 = Ok y /\
    groupTokens y [] = txt "D" :: keptGroups sample 1 x.
Proof.
  destruct (addRowToGroup 0 1 (txt "D") sample) as [r v'] eqn:E.
  assert (r = Ok tt) as -> by (transitivity (addRowToGroup 0 1 (txt "D") sample).1; [by rewrite E|by vm_compute]).
  destruct (addRowToGroup_groups 0 1 (txt "D") sample v' ltac:(done) ltac:(by repeat constructor) E) as (x & y & Hx & Hy & _ & _ & H).
  by exists v', x, y.
Defined.
(** [removeRowFromGroup] writes the groups that stay without a separator: out
    of three groups two become another one. *)
Lemma removeRowFromGroup_merges :
  cell (removeRowFromGroup 0 1 (txt "A") false (putCell sample 0 1 (txt "A | B | C"))).2 0 1 = Ok (txt "BC").
Proof. by vm_compute. Qed.
(** A comma stands between groups for [getSetOfGroupIDs] and within a group for
    [isEntryInGroupCol]. *)
Lemma group_separators_differ :
  let v := putCell sample 0 1 (txt "A,B") in
  getSetOfGroupIDs v 1 (Some 0%nat) = Ok [txt "A"; txt "B"] /\ isEntryInGroupCol v 0 1 (txt "A") = Ok false.
Proof. by vm_compute. Qed.
End TableRows.
