(* ===== verification/TableInit.v ===== *)
(** * The verification of a table view

    src/otsdaq/TableCore/TableView.cc, [TableView::init] and [copy]: every view
    that is filled or edited goes through it.  It finds the special columns,
    brings booleans to their two values, and throws on anything a table must
    not hold: repeated names or identifiers, values that are no choice, numbers
    outside their limits, links without a mate. *)

From S2P Require Import Prelude CText Versions StringMacros StringLists StringExpansion Doubles TableViewColumnInfo TableView TableRows.

Module TableInit.
Import Doubles TableViewColumnInfo TableView TableRows.
Implicit Types v : TableView.

(** ** Columns *)

(** Names are compared without underscores. *)
Definition capsColName (storageName : text) : text :=
  List.filter (fun c => negb (c =? chr 95)%char) (if textEq storageName (txt "COMMENT_DESCRIPTION") then txt "COMMENT" else storageName).
Definition allDifferent (l : list text) : bool := (length (remove_dups l) =? length l)%nat.

(** The column of a type that a table must have exactly once, [fromEnd] columns
    before the end. *)
Definition requireColumn (type : text) (name : option text) (fromEnd : nat) : M TableView unit := fun v =>
  match findColByType v type 0 with
  | None => (Throw RuntimeError, v)
  | Some colPos =>
      match columnsInfo_ v !! colPos, findColByType v type (S colPos) with
      | Some ci, None =>
          if match name with Some n => textEq (name_ ci) n | None => true end && (colPos + fromEnd =? getNumberOfColumns v)%nat
          then (Ok tt, v) else (Throw RuntimeError, v)
      | _, _ => (Throw RuntimeError, v)
      end
  end.

(** The default of a link with fixed choices is one of them. *)
Definition firstIs (s : text) (l : list text) : bool := match l with x :: _ => textEq x s | [] => false end.
Definition ARBITRARY_YES : text := txt "arbitraryBool=1".
Definition ARBITRARY_NO : text := txt "arbitraryBool=0".
Definition listedChoices (choices : list text) : list text := if firstIs ARBITRARY_NO choices then drop 1 choices else choices.
Definition rowDefault (ci : TableViewColumnInfo) : text :=
  if isChildLink (type_ ci) then
    if match dataChoices_ ci with [] => true | _ => firstIs ARBITRARY_YES (dataChoices_ ci) end then defaultValue_ ci
    else if isOneOf (listedChoices (dataChoices_ ci)) (defaultValue_ ci) then defaultValue_ ci
    else match listedChoices (dataChoices_ ci) with ch :: _ => ch | [] => defaultValue_ ci end
  else defaultValue_ ci.
Definition initRowDefaults : M TableView (list text) := fun v =>
  let defaults := map rowDefault (columnsInfo_ v) in (Ok defaults, set_defaults v defaults).

(** ** Identifiers *)

(** The cells of a column one after the other. *)
Fixpoint distinctLoop (legal : text -> bool) (rows : list (list text)) (c : nat) (seen : list text) : result unit :=
  match rows with
  | [] => Ok tt
  | row :: rows =>
      match row !! c with
      | None => Throw Undefined
      | Some x => if isOneOf seen x || negb (legal x) then Throw RuntimeError else distinctLoop legal rows c (x :: seen)
      end
  end.
Definition legalUID (uid : text) : bool := (0 <? length uid)%nat && forallb nameChar uid.
Definition checkUIDs : M TableView unit := fun v =>
  (match colUID_ v with Some c => distinctLoop legalUID (theDataView_ v) c [] | None => Throw Undefined end, v).
(** The columns with a type, in the order [findColByType] gives them. *)
Definition colsOfType v (type : text) : list nat :=
  map fst (List.filter (fun q => textEq (type_ q.2) type) (imap pair (columnsInfo_ v))).
Fixpoint checkAll {A} (f : A -> result unit) (l : list A) : result unit :=
  match l with [] => Ok tt | a :: l => f a ≫= fun _ => checkAll f l end.
Definition checkUniqueData : M TableView unit := fun v =>
  (checkAll (fun c => distinctLoop (fun _ => true) (theDataView_ v) c []) (colsOfType v TYPE_UNIQUE_DATA), v).

(** Within each group of a group column the values of a column are different;
    [seen] holds groups and values. *)
Fixpoint groupDataLoop (rows : list (list text)) (groupCol c : nat) (seen : list (text * text)) : result unit :=
  match rows with
  | [] => Ok tt
  | row :: rows =>
      match row !! groupCol with
      | None => Throw Undefined
      | Some g =>
          match groupsOfCell g [] with
          | [] => groupDataLoop rows groupCol c seen
          | groups =>
              match row !! c with
              | None => Throw Undefined
              | Some x =>
                  if existsb (fun g => existsb (fun p => textEq p.1 g && textEq p.2 x) seen) groups then Throw RuntimeError
                  else groupDataLoop rows groupCol c (map (fun g => (g, x)) groups ++ seen)
              end
          end
      end
  end.
Definition groupIDCols v : list nat := map fst (List.filter (fun q => isGroupID (type_ q.2)) (imap pair (columnsInfo_ v))).
Definition checkUniqueGroupData : M TableView unit := fun v =>
  (checkAll (fun c => checkAll (fun groupCol => groupDataLoop (theDataView_ v) groupCol c []) (groupIDCols v))
     (colsOfType v TYPE_UNIQUE_GROUP_DATA), v).

(** ** Values of one column *)

Fixpoint everyCell (p : text -> bool) (rows : list (list text)) (c : nat) : result unit :=
  match rows with
  | [] => Ok tt
  | row :: rows =>
      match row !! c with None => Throw Undefined | Some x => if p x then everyCell p rows c else Throw RuntimeError end
  end.

(** The words for the two values of a boolean type. *)
Definition onWords (type : text) : option (list text * text) :=
  if textEq type TYPE_ON_OFF then Some ([txt "1"; txt "TRUE"; txt "on"; txt "On"; txt "ON"], TYPE_VALUE_ON)
  else if textEq type TYPE_TRUE_FALSE then Some ([txt "1"; txt "true"; txt "True"; txt "TRUE"], TYPE_VALUE_TRUE)
  else if textEq type TYPE_YES_NO then Some ([txt "1"; txt "TRUE"; txt "yes"; txt "Yes"; txt "YES"], TYPE_VALUE_YES)
  else None.
Definition offWords (type : text) : list text * text :=
  if textEq type TYPE_ON_OFF then ([txt "0"; txt "FALSE"; txt "off"; txt "Off"; txt "OFF"], TYPE_VALUE_OFF)
  else if textEq type TYPE_TRUE_FALSE then ([txt "0"; txt "false"; txt "False"; txt "FALSE"], TYPE_VALUE_FALSE)
  else ([txt "0"; txt "FALSE"; txt "no"; txt "No"; txt "NO"], TYPE_VALUE_NO).
Definition canonicalBool (type x : text) : option text :=
  match onWords type with
  | None => None
  | Some (words, value) => if isOneOf words x then Some value else if isOneOf (offWords type).1 x then Some (offWords type).2 else None
  end.
(** Rewriting the cells of a column from row to row. *)
Definition rewriteCell (c : nat) (f : text -> option text) (r : nat) : M TableView unit :=
  x ← (fun v => lift (cell v r c) v);
  match f x with Some y => setCell r c y | None => throw RuntimeError end.
Definition rewriteColumn (c : nat) (f : text -> option text) : M TableView unit :=
  rows ← gets getNumberOfRows; forEach (seq 0 rows) (rewriteCell c f).

Section Init.
Variables (getenv : text -> option text) (systemVariables_ : gmap text (gmap text text)) (expansionFuel : nat).
Abbreviation getValue := (getValue getenv systemVariables_ expansionFuel).
Abbreviation expand := (expand getenv systemVariables_ expansionFuel).

(** A limit: an expression, or nothing. *)
Definition readLimit (s : text) : result (option double) :=
  if textEq s [] then Ok None
  else data ← expand true s; n ← getNumberT type_double data; match n with Some d => Ok (Some d) | None => Throw RuntimeError end.
Definition outside (min max : option double) (d : double) : bool :=
  match min with Some m => ltb d m | None => false end || match max with Some m => ltb m d | None => false end.
Definition checkLimits (ci : TableViewColumnInfo) (c : nat) : M TableView unit := fun v =>
  (if negb (isNumberDataType ci) then Ok tt
   else
     min ← readLimit (minValue_ ci);
     max ← readLimit (maxValue_ ci);
     match min, max with
     | None, None => Ok tt
     | _, _ =>
         if match min, max with Some a, Some b => ltb b a | _, _ => false end then Throw RuntimeError
         else checkAll (fun r => d ← getValue type_double v r c true; if outside min max d then Throw RuntimeError else Ok tt)
                (seq 0 (getNumberOfRows v))
     end, v).

(** The indices that have to be different: of the group columns, and of the
    columns with link ids. *)
Record indices := mkIndices { groupIdIndexes : list text; childLinkIdLabels : list text }.

(** One column.  With arbitrary values allowed for a choice the limits of the
    column are not checked either.  (Links are recognised by the check of their
    choices, so that the branch behind it for child links is never reached.) *)
Definition checkColumn (defaults : list text) (ix : indices) (c : nat) : M TableView indices :=
  ci ← (fun v => lift (columnAt v c) v);
  d ← lift (match defaults !! c with Some d => Ok d | None => Throw Undefined end);
  if textEq (type_ ci) TYPE_FIXED_CHOICE_DATA then
    if firstIs ARBITRARY_YES (dataChoices_ ci) then mret ix
    else
      (fun v => lift (everyCell (fun x => textEq x d || isOneOf (dataChoices_ ci) x) (theDataView_ v) c) v) ≫= fun _ =>
      checkLimits ci c ≫= fun _ => mret ix
  else if isChildLink (type_ ci) then
    if match dataChoices_ ci with [] => true | _ => firstIs ARBITRARY_YES (dataChoices_ ci) end then mret ix
    else
      (fun v => lift (everyCell (isOneOf (listedChoices (dataChoices_ ci))) (theDataView_ v) c) v) ≫= fun _ =>
      checkLimits ci c ≫= fun _ => mret ix
  else if isBoolType (type_ ci) then
    rewriteColumn c (canonicalBool (type_ ci)) ≫= fun _ => checkLimits ci c ≫= fun _ => mret ix
  else if isGroupID (type_ ci) then
    index ← lift (getChildLinkIndex (type_ ci));
    modify (fun v => set_links v (<[index := c]> (colLinkGroupIDs_ v))) ≫= fun _ =>
    checkLimits ci c ≫= fun _ => mret (mkIndices (groupIdIndexes ix ++ [index]) (childLinkIdLabels ix))
  else if isChildLinkUID (type_ ci) || isChildLinkGroupID (type_ ci) then
    index ← lift (getChildLinkIndex (type_ ci));
    rewriteColumn c (fun x => Some (if textEq x [] then d else x)) ≫= fun _ =>
    (fun v => lift (getChildLink v c) v) ≫= fun _ =>
    checkLimits ci c ≫= fun _ => mret (mkIndices (groupIdIndexes ix) (childLinkIdLabels ix ++ [index]))
  else checkLimits ci c ≫= fun _ => mret ix.
Fixpoint checkColumns (defaults : list text) (cols : list nat) (ix : indices) : M TableView indices :=
  match cols with
  | [] => mret ix
  | c :: cols => ix ← checkColumn defaults ix c; checkColumns defaults cols ix
  end.

Definition isRectangular v : bool := forallb (fun row => (length row =? getNumberOfColumns v)%nat) (theDataView_ v).
Definition check (b : bool) : M TableView unit := if b then mret tt else throw RuntimeError.
Definition ignore {S A} (m : M S A) : M S unit := catch_all (m ≫= fun _ => mret tt) (fun _ => mret tt).

Definition init : M TableView unit :=
  v ← gets id;
  check (allDifferent (map (fun ci => capsColName (storageName_ ci)) (columnsInfo_ v))) ≫= fun _ =>
  initColUID ≫= fun _ =>
  ignore initColStatus ≫= fun _ =>
  ignore initColPriority ≫= fun _ =>
  modify (fun v => if bool_decide (sourceColumnNames_ v = ∅) then set_sourceNames v (getColumnStorageNames v) else v) ≫= fun _ =>
  requireColumn TYPE_COMMENT (Some COL_NAME_COMMENT) 3 ≫= fun _ =>
  requireColumn TYPE_AUTHOR None 2 ≫= fun _ =>
  requireColumn TYPE_TIMESTAMP None 1 ≫= fun _ =>
  checkUIDs ≫= fun _ =>
  checkUniqueData ≫= fun _ =>
  checkUniqueGroupData ≫= fun _ =>
  defaults ← initRowDefaults;
  check (isRectangular v) ≫= fun _ =>
  ix ← checkColumns defaults (seq 0 (getNumberOfColumns v)) (mkIndices [] []);
  check (allDifferent (groupIdIndexes ix)) ≫= fun _ =>
  check (allDifferent (childLinkIdLabels ix)).
End Init.

(** ** Copies *)

(** [convertToCaps] of src/otsdaq/TableCore/TableBase.cc, for a name that need
    not end in Table: an underscore before the capital letter that begins a
    word, then capitals. *)
Definition GROUP_CACHE_PREPEND : text := txt "GroupCache_".
Definition JSON_DOC_PREPEND : text := txt "JSONDoc_".
Definition startsWord (before : option ascii) (after : option ascii) : bool :=
  match before with
  | None => false
  | Some b => is_lower b || ((is_upper b || is_digit b) && match after with Some a => is_lower a | None => false end)
  end.
Fixpoint capsLoop (whole : text) (before : option ascii) (s : text) : result text :=
  match s with
  | [] => Ok []
  | c :: s' =>
      here ← (if is_upper c then Ok ((if startsWord before (head s') then [chr 95] else []) ++ [c])
              else if is_lower c then Ok [chr (code c - 32)]
              else if is_digit c then Ok [c]
              else if (starts_with GROUP_CACHE_PREPEND whole || starts_with JSON_DOC_PREPEND whole) && (c =? chr 95)%char then Ok [chr 45]
              else Throw RuntimeError);
      rest ← capsLoop whole (Some c) s';
      Ok (here ++ rest)
  end.
Definition convertToCaps (str : text) : result text := capsLoop str None str.

Definition isSpecialTable v : result bool :=
  cache ← convertToCaps GROUP_CACHE_PREPEND;
  doc ← convertToCaps JSON_DOC_PREPEND;
  Ok (starts_with cache (tableName_ v) || starts_with doc (tableName_ v)).

(** A new view of a name. *)
Definition construct (tableName : text) (now : Z) : result TableView :=
  caps ← convertToCaps tableName;
  if textEq tableName [] then Throw RuntimeError
  else Ok (mkView [] caps (TableVersion.of_uint TableVersion.INVALID) [] [] now 0 [] None None None ∅ false false [] 0 0 ∅ [] []).

Definition copy (source : TableView) (destinationVersion : TableVersion.TableVersion) (author : text) (now : Z) : M TableView unit :=
  modify (fun v => set_sourceNames (set_data (set_columns (set_header v destinationVersion (comment_ source) author (creationTime_ v) now)
    (columnsInfo_ source)) (theDataView_ source)) (sourceColumnNames_ source)) ≫= fun _ =>
  special ← (fun v => lift (isSpecialTable v) v);
  if (special : bool) then mret tt
  else
    initColUID ≫= fun _ =>
    initRowDefaults ≫= fun _ =>
    ignore initColStatus ≫= fun _ =>
    ignore initColPriority.
End TableInit.
