(* ===== verification/TableInvariant.v ===== *)
(** * What a verified table view satisfies

    The invariant that [TableView::init] establishes, and that it accepts
    without a change: the views that pass a second time unchanged are exactly
    those with the invariant. *)

From S2P Require Import Prelude CText Versions StringMacros StringLists StringExpansion Doubles TableViewColumnInfo TableView TableRows TableInit.

Module TableInvariant.
Import Doubles TableViewColumnInfo TableView TableRows TableInit.
Implicit Types v : TableView.

(** ** Loops over the cells of a column *)

(** The cells of a column; every row reaches beyond it. *)
Definition colValues (rows : list (list text)) (c : nat) : list text := map (fun row => nth c row []) rows.
Definition wide (c : nat) (rows : list (list text)) : Prop := Forall (fun row => (c < length row)%nat) rows.

Lemma wide_cell c (row : list text) : (c < length row)%nat -> row !! c = Some (nth c row []).
Proof. intros H. destruct (lookup_lt_is_Some_2 row c H) as [x Hx]. rewrite Hx. f_equal. symmetry. by apply nth_lookup_Some. Qed.
Lemma everyCell_ok p rows c : wide c rows -> everyCell p rows c = Ok tt <-> Forall (fun x => p x = true) (colValues rows c).
Proof.
  induction 1 as [|row rows Hrow _ IH]; cbn; [done|]. rewrite (wide_cell c row Hrow), Forall_cons, <- IH.
  destruct (p _); [by split; [intros|intros [_ ?]]|by split; [|intros [? _]]].
Qed.
Lemma distinctLoop_ok legal rows c : wide c rows -> forall seen,
  distinctLoop legal rows c seen = Ok tt <->
  NoDup (colValues rows c) /\ Forall (fun x => legal x = true) (colValues rows c) /\ (forall x, x ∈ colValues rows c -> ~ x ∈ seen).
Proof.
  induction 1 as [|row rows Hrow _ IH]; intros seen; cbn [distinctLoop colValues map].
  { split; [|done]. intros _. split_and!; [constructor|constructor|]. intros x Hx. by apply elem_of_nil in Hx. }
  rewrite (wide_cell c row Hrow). set (x := nth c row []). fold (colValues rows c).
  destruct (isOneOf seen x) eqn:Es; cbn [orb].
  { apply isOneOf_spec in Es. split; [done|]. intros (_ & _ & H). exfalso. apply (H x); [left|done]. }
  apply isOneOf_false in Es. destruct (legal x) eqn:El; cbn [negb].
  2: { split; [done|]. intros (_ & [H _]%Forall_cons & _). congruence. }
  rewrite IH, NoDup_cons, Forall_cons. split.
  - intros (Hn & Hl & Hs). split_and!; [|done|done|done|].
    + intros Hx. apply (Hs x Hx). left.
    + intros y [->|Hy]%elem_of_cons; [done|]. intros Hin. apply (Hs y Hy). by right.
  - intros ([Hx Hn] & [_ Hl] & Hs). split_and!; [done|done|]. intros y Hy [->|Hin]%elem_of_cons; [done|].
    apply (Hs y); [by right|done].
Qed.
Lemma checkAll_ok {A} (f : A -> result unit) l : checkAll f l = Ok tt <-> Forall (fun a => f a = Ok tt) l.
Proof.
  induction l as [|a l IH]; cbn; [done|]. rewrite Forall_cons, <- IH. destruct (f a) as [[]|]; cbn.
  - by split; [intros|intros [_ ?]].
  - by split; [|intros [? _]].
Qed.

(** The groups of a row with its value. *)
Lemma emplace_NoDup s e : NoDup s -> NoDup (StringLists.emplace s e).
Proof.
  intros H. unfold StringLists.emplace. case_bool_decide; [done|]. apply NoDup_app. split_and!; [done| |apply NoDup_singleton].
  intros x Hx ->%list_elem_of_singleton. done.
Qed.
Lemma groupsOfCell_NoDup x : NoDup (groupsOfCell x []).
Proof.
  unfold groupsOfCell, StringLists.getSetFromString.
  assert (forall rest i j set, NoDup set -> NoDup (StringLists.setLoop x (txt ",|&") StringLists.ws_default rest i j set).2) as G.
  { induction rest as [|ch rest IH]; intros i j set Hs; cbn [StringLists.setLoop]; [done|].
    destruct (_ || _); [|by apply IH]. destruct (i =? j)%nat; apply IH; [done|by apply emplace_NoDup]. }
  specialize (G x 0%nat 0%nat [] (NoDup_nil_2)). destruct (StringLists.setLoop _ _ _ _ _ _ _) as [[i j] set]. cbn in G.
  destruct (i =? j)%nat; [done|by apply emplace_NoDup].
Qed.
Definition groupPairs (rows : list (list text)) (groupCol c : nat) : list (text * text) :=
  flat_map (fun row => map (fun g => (g, nth c row [])) (groupsOfCell (nth groupCol row []) [])) rows.
Lemma groupDataLoop_ok rows groupCol c : wide groupCol rows -> wide c rows -> forall seen,
  groupDataLoop rows groupCol c seen = Ok tt <->
  NoDup (groupPairs rows groupCol c) /\ (forall p, p ∈ groupPairs rows groupCol c -> ~ p ∈ seen).
Proof.
  induction rows as [|row rows IH]; intros Hg Hc seen.
  { split; [|done]. intros _. split; [constructor|]. intros p Hp. by apply elem_of_nil in Hp. }
  apply Forall_cons in Hg as [Hg0 Hg]. apply Forall_cons in Hc as [Hc0 Hc].
  cbn [groupDataLoop groupPairs flat_map]. rewrite (wide_cell _ _ Hg0). fold (groupPairs rows groupCol c).
  pose proof (groupsOfCell_NoDup (nth groupCol row [])) as Hn. destruct (groupsOfCell (nth groupCol row []) []) as [|g0 gs] eqn:Egs.
  { cbn [map app]. by apply IH. }
  rewrite <- Egs in *. clear g0 gs Egs. set (groups := groupsOfCell (nth groupCol row []) []) in *.
  rewrite (wide_cell _ _ Hc0). set (x := nth c row []).
  assert (forall p, p ∈ map (fun g => (g, x)) groups <-> p.2 = x /\ p.1 ∈ groups) as Hm.
  { intros [g y]. change (map ?f ?l) with (f <$> l). rewrite list_elem_of_fmap. cbn. split.
    - intros (g' & [= -> ->] & ?). done.
    - intros [-> Hp]. by exists g. }
  destruct (existsb _ groups) eqn:Eex.
  { split; [done|]. intros [_ H]. exfalso. apply existsb_exists in Eex as (g & Hg' & Hex). apply existsb_exists in Hex as (p & Hp & He).
    apply andb_prop in He as [E1%textEq_spec E2%textEq_spec]. apply (H p); [|by apply list_elem_of_In].
    apply elem_of_app. left. apply Hm. split; [done|rewrite E1; by apply list_elem_of_In]. }
  assert (forall p, p ∈ map (fun g => (g, x)) groups -> ~ p ∈ seen) as Hns.
  { intros p [H2 H1]%Hm Hp. assert (existsb (fun g => existsb (fun p => textEq p.1 g && textEq p.2 x) seen) groups = true); [|congruence].
    apply existsb_exists. exists p.1. split; [by apply list_elem_of_In|]. apply existsb_exists. exists p.
    split; [by apply list_elem_of_In|]. apply andb_true_intro. split; [apply textEq_refl|by apply textEq_spec]. }
  rewrite (IH Hg Hc), NoDup_app. split.
  - intros [Hr Hs]. split_and!; [| |done|].
    + apply NoDup_fmap_2; [|done]. by intros ? ? [= ->].
    + intros p Hp Hin. apply (Hs p Hin). apply elem_of_app. by left.
    + intros p [Hp|Hp]%elem_of_app; [by apply Hns|]. intros Hin. apply (Hs p Hp). apply elem_of_app. by right.
  - intros [(_ & Hd & Hr) Hs]. split; [done|]. intros p Hp [Hin|Hin]%elem_of_app; [by apply (Hd p)|].
    apply (Hs p); [|done]. apply elem_of_app. by right.
Qed.

(** ** Rewriting a column *)

Definition rewriteRow (c : nat) (f : text -> option text) (row : list text) : list text := <[c := default [] (f (nth c row []))]> row.
Lemma rewriteRow_length c f row : length (rewriteRow c f row) = length row.
Proof. apply length_insert. Qed.
Lemma rewriteRow_nth c f row : (c < length row)%nat -> nth c (rewriteRow c f row) [] = default [] (f (nth c row [])).
Proof. intros H. apply nth_lookup_Some. by apply list_lookup_insert_eq. Qed.
Lemma rewriteRow_other c f row c' : c' <> c -> nth c' (rewriteRow c f row) [] = nth c' row [].
Proof. intros H. rewrite !nth_lookup. unfold rewriteRow. by rewrite list_lookup_insert_ne. Qed.
Lemma rewriteRow_id c f row : (c < length row)%nat -> f (nth c row []) = Some (nth c row []) -> rewriteRow c f row = row.
Proof. intros H E. unfold rewriteRow. rewrite E. apply list_insert_id. by apply wide_cell. Qed.
Lemma rewriteRows_id c f rows : wide c rows -> Forall (fun x => f x = Some x) (colValues rows c) -> map (rewriteRow c f) rows = rows.
Proof.
  induction 1 as [|row rows Hrow _ IH]; cbn; [done|]. intros [H1 H2]%Forall_cons. f_equal; [by apply rewriteRow_id|by apply IH].
Qed.
Lemma colValues_rewrite c f rows : wide c rows -> colValues (map (rewriteRow c f) rows) c = map (fun x => default [] (f x)) (colValues rows c).
Proof. induction 1 as [|row rows Hrow _ IH]; cbn; [done|]. f_equal; [by apply rewriteRow_nth|done]. Qed.
Lemma colValues_rewrite_other c f rows c' : c' <> c -> colValues (map (rewriteRow c f) rows) c' = colValues rows c'.
Proof. intros H. unfold colValues. rewrite map_map. apply map_ext. intros row. by apply rewriteRow_other. Qed.

Lemma rewriteCell_inv c f r row v v' : theDataView_ v !! r = Some row -> (c < length row)%nat ->
  rewriteCell c f r v = (Ok tt, v') <-> is_Some (f (nth c row [])) /\ v' = set_data v (<[r := rewriteRow c f row]> (theDataView_ v)).
Proof.
  intros Hr Hc. unfold rewriteCell. rewrite bind_inv. unfold lift. unfold cell. rewrite Hr, (wide_cell c row Hc). split.
  - intros (x & s1 & [= <- <-] & H). unfold rewriteRow. destruct (f (nth c row [])) as [y|]; [|done]. split; [by eexists|].
    apply setCell_ok in H as [-> _]. by apply putCell_put.
  - intros [[y Hy] ->]. exists (nth c row []), v. split; [done|]. unfold rewriteRow. rewrite Hy. apply setCell_ok. cbn.
    split; [by rewrite (putCell_put _ _ _ _ _ Hr)|]. unfold inView. rewrite Hr. by apply Nat.ltb_lt.
Qed.
Lemma rewriteLoop_inv c f rest : forall front v v', theDataView_ v = front ++ rest -> wide c rest ->
  forEach (seq (length front) (length rest)) (rewriteCell c f) v = (Ok tt, v') <->
  Forall (fun x => is_Some (f x)) (colValues rest c) /\ v' = set_data v (front ++ map (rewriteRow c f) rest).
Proof.
  induction rest as [|row rest IH]; intros front v v' Hd Hw; cbn [length seq forEach map].
  { rewrite app_nil_r, <- (app_nil_r front), <- Hd. split.
    - intros [= <-]. split; [constructor|by destruct v].
    - intros [_ ->]. unfold mret, M_ret. by destruct v. }
  apply Forall_cons in Hw as [Hc Hw]. assert (theDataView_ v !! length front = Some row) as Hr by (rewrite Hd; by apply list_lookup_middle).
  assert (forall s1, s1 = set_data v (<[length front := rewriteRow c f row]> (theDataView_ v)) ->
    theDataView_ s1 = (front ++ [rewriteRow c f row]) ++ rest) as Hs1.
  { intros s1 ->. cbn. rewrite Hd. rewrite <- app_assoc. cbn. rewrite <- (Nat.add_0_r (length front)) at 1. by rewrite insert_app_r. }
  rewrite bind_inv. cbn [colValues map]. rewrite Forall_cons. fold (colValues rest c). split.
  - intros ([] & s1 & H1 & H2). apply (rewriteCell_inv c f (length front) row) in H1 as [Hsome Hs]; [|done|done].
    pose proof (IH (front ++ [rewriteRow c f row]) s1 v' (Hs1 s1 Hs) Hw) as IH'. rewrite length_app, Nat.add_1_r in IH'.
    apply IH' in H2 as [HF ->]. split; [done|]. rewrite Hs. rewrite <- app_assoc. done.
  - intros [[Hsome HF] ->]. eexists tt, _. split; [by apply (rewriteCell_inv c f (length front) row)|].
    pose proof (IH (front ++ [rewriteRow c f row]) _ (set_data v (front ++ rewriteRow c f row :: map (rewriteRow c f) rest)) (Hs1 _ eq_refl) Hw) as IH'.
    rewrite length_app, Nat.add_1_r in IH'. apply IH'. split; [done|]. rewrite <- app_assoc. done.
Qed.
Lemma rewriteColumn_inv c f v v' : wide c (theDataView_ v) -> rewriteColumn c f v = (Ok tt, v') <->
  Forall (fun x => is_Some (f x)) (colValues (theDataView_ v) c) /\ v' = set_data v (map (rewriteRow c f) (theDataView_ v)).
Proof.
  intros Hw. unfold rewriteColumn. rewrite (bind_ok (gets getNumberOfRows) _ v _ v eq_refl).
  apply (rewriteLoop_inv c f (theDataView_ v) [] v v' eq_refl Hw).
Qed.

(** ** One column *)

Definition isLinkID (ci : TableViewColumnInfo) : bool := isChildLinkUID (type_ ci) || isChildLinkGroupID (type_ ci).
Inductive kind := Choice | Link | Bool | Group | LinkID | Plain.
Definition kindOf (ci : TableViewColumnInfo) : kind :=
  if textEq (type_ ci) TYPE_FIXED_CHOICE_DATA then Choice
  else if isChildLink (type_ ci) then Link
  else if isBoolType (type_ ci) then Bool
  else if isGroupID (type_ ci) then Group
  else if isLinkID ci then LinkID
  else Plain.
(** Any value may stand in the column, and no limit holds. *)
Definition unlimited (ci : TableViewColumnInfo) : bool :=
  match kindOf ci with
  | Choice => firstIs ARBITRARY_YES (dataChoices_ ci)
  | Link => match dataChoices_ ci with [] => true | _ => firstIs ARBITRARY_YES (dataChoices_ ci) end
  | _ => false
  end.
(** What a cell becomes; [None] is refused. *)
Definition cellRule (ci : TableViewColumnInfo) (d x : text) : option text :=
  match kindOf ci with
  | Choice => if unlimited ci || textEq x d || isOneOf (dataChoices_ ci) x then Some x else None
  | Link => if unlimited ci || isOneOf (listedChoices (dataChoices_ ci)) x then Some x else None
  | Bool => canonicalBool (type_ ci) x
  | LinkID => Some (if textEq x [] then d else x)
  | Group | Plain => Some x
  end.
Definition linkIndex (ci : TableViewColumnInfo) : text := match getChildLinkIndex (type_ ci) with Ok i => i | Throw _ => [] end.
Definition linksStep (ci : TableViewColumnInfo) (c : nat) (links : gmap text nat) : gmap text nat :=
  match kindOf ci with Group => <[linkIndex ci := c]> links | _ => links end.
Definition ixStep (ci : TableViewColumnInfo) (ix : indices) : indices :=
  match kindOf ci with
  | Group => mkIndices (groupIdIndexes ix ++ [linkIndex ci]) (childLinkIdLabels ix)
  | LinkID => mkIndices (groupIdIndexes ix) (childLinkIdLabels ix ++ [linkIndex ci])
  | _ => ix
  end.
(** A link id has a link column as its mate. *)
Definition hasMate v (c : nat) (ci : TableViewColumnInfo) : Prop := kindOf ci = LinkID -> exists p, getChildLink v c = Ok p.

Lemma unit_ok (r : result unit) : is_ok r = true <-> r = Ok tt.
Proof. by destruct r as [[]|]; cbn; split. Qed.
Lemma getChildLinkIndex_ok ci : kindOf ci = Group \/ kindOf ci = LinkID -> getChildLinkIndex (type_ ci) = Ok (linkIndex ci).
Proof.
  unfold kindOf, linkIndex, getChildLinkIndex, isLinkID.
  destruct (textEq _ _); [naive_solver|]. destruct (isChildLink _); [naive_solver|]. destruct (isBoolType _); [naive_solver|].
  destruct (isChildLinkUID _); [done|]. destruct (isChildLinkGroupID _); [done|]. destruct (isGroupID _); [done|]. naive_solver.
Qed.
Lemma set_id v : set_links (set_data v (theDataView_ v)) (colLinkGroupIDs_ v) = v.
Proof. by destruct v. Qed.

Section Columns.
Variables (getenv : text -> option text) (systemVariables_ : gmap text (gmap text text)) (expansionFuel : nat).
Abbreviation checkLimits := (checkLimits getenv systemVariables_ expansionFuel).
Abbreviation checkColumn := (checkColumn getenv systemVariables_ expansionFuel).
Abbreviation checkColumns := (checkColumns getenv systemVariables_ expansionFuel).

(** The values are numbers within the limits of the column. *)
Definition limitsOK v (c : nat) (ci : TableViewColumnInfo) : Prop := (checkLimits ci c v).1 = Ok tt.
Lemma checkLimits_inv ci c v v' : checkLimits ci c v = (Ok tt, v') <-> limitsOK v c ci /\ v' = v.
Proof.
  unfold limitsOK, TableInit.checkLimits. cbn [fst]. split; [by intros [= -> ->]|by intros [-> ->]].
Qed.

Definition afterColumn v (c : nat) (ci : TableViewColumnInfo) (d : text) : TableView :=
  set_links (set_data v (map (rewriteRow c (cellRule ci d)) (theDataView_ v))) (linksStep ci c (colLinkGroupIDs_ v)).
Lemma afterColumn_id v c ci d : wide c (theDataView_ v) -> Forall (fun x => cellRule ci d x = Some x) (colValues (theDataView_ v) c) ->
  kindOf ci <> Group -> afterColumn v c ci d = v.
Proof.
  intros Hw HF Hk. unfold afterColumn. rewrite rewriteRows_id by done.
  assert (linksStep ci c (colLinkGroupIDs_ v) = colLinkGroupIDs_ v) as -> by (unfold linksStep; by destruct (kindOf ci)). apply set_id.
Qed.
(** The ends of the branches. *)
Lemma limits_then_inv ci c (ix ix' : indices) v v' :
  (checkLimits ci c ≫= fun _ => mret ix) v = (Ok ix', v') <-> limitsOK v c ci /\ ix' = ix /\ v' = v.
Proof.
  rewrite bind_inv. split.
  - intros ([] & s1 & [HL ->]%checkLimits_inv & [= <- <-]). done.
  - intros (HL & -> & ->). exists tt, v. split; [by apply checkLimits_inv|done].
Qed.
Lemma checked_inv p ci c (ix ix' : indices) v v' : wide c (theDataView_ v) ->
  ((fun w => lift (everyCell p (theDataView_ w) c) w) ≫= fun _ => checkLimits ci c ≫= fun _ => mret ix) v = (Ok ix', v') <->
  Forall (fun x => p x = true) (colValues (theDataView_ v) c) /\ limitsOK v c ci /\ ix' = ix /\ v' = v.
Proof.
  intros Hw. rewrite bind_inv, <- (everyCell_ok p _ c Hw), <- (limits_then_inv ci c ix). unfold lift. split.
  - intros ([] & s1 & [= HE <-] & H). done.
  - intros [HE H]. exists tt, v. by rewrite HE.
Qed.
Lemma rewritten_inv f ci c (ix ix' : indices) v v' : wide c (theDataView_ v) ->
  (rewriteColumn c f ≫= fun _ => checkLimits ci c ≫= fun _ => mret ix) v = (Ok ix', v') <->
  Forall (fun x => is_Some (f x)) (colValues (theDataView_ v) c) /\ limitsOK v' c ci /\ ix' = ix /\
  v' = set_data v (map (rewriteRow c f) (theDataView_ v)).
Proof.
  intros Hw. rewrite bind_inv. split.
  - intros ([] & s1 & [HF ->]%rewriteColumn_inv & (HL & -> & ->)%limits_then_inv); [|done]. done.
  - intros (HF & HL & -> & ->). eexists tt, _. split; [by apply rewriteColumn_inv|]. by apply limits_then_inv.
Qed.
(** Conditions that only compare. *)
Lemma guarded_ok (p : text -> bool) l : Forall (fun x => is_Some (if p x then Some x else None)) l <-> Forall (fun x => p x = true) l.
Proof. apply Forall_iff. intros x. destruct (p x); [by split; [|eexists]|by split; [intros []|]]. Qed.
Lemma guarded_id (p : text -> bool) l : Forall (fun x => p x = true) l -> Forall (fun x => (if p x then Some x else None) = Some x) l.
Proof. intros H. eapply Forall_impl; [exact H|]. cbn. by intros x ->. Qed.

Section Branches.
Variables (v : TableView) (c : nat) (ci : TableViewColumnInfo) (d : text) (ix ix' : indices) (v' : TableView).
Hypothesis Hw : wide c (theDataView_ v).
(** What the branch for the kind of the column has to amount to. *)
Abbreviation outcome := (Forall (fun x => is_Some (cellRule ci d x)) (colValues (theDataView_ v) c) /\ hasMate v c ci /\
  (unlimited ci = false -> limitsOK v' c ci) /\ ix' = ixStep ci ix /\ v' = afterColumn v c ci d).

Lemma branch_free : unlimited ci = true -> kindOf ci = Choice \/ kindOf ci = Link -> (mret ix : M TableView indices) v = (Ok ix', v') <-> outcome.
Proof using Hw.
  intros Hu Hk. assert (Forall (fun x => cellRule ci d x = Some x) (colValues (theDataView_ v) c)) as HF.
  { apply Forall_forall. intros x _. unfold cellRule. rewrite Hu. by destruct Hk as [-> | ->]. }
  rewrite afterColumn_id by (done || by destruct Hk as [-> | ->]).
  assert (ixStep ci ix = ix) as -> by (unfold ixStep; by destruct Hk as [-> | ->]). rewrite Hu. split.
  - intros [= <- <-]. split_and!; [|by intros Hl; destruct Hk; congruence|done|done|done]. eapply Forall_impl; [exact HF|]. cbn. intros x ->. by eexists.
  - intros (_ & _ & _ & -> & ->). done.
Qed.
Lemma branch_checked (p : text -> bool) : unlimited ci = false -> kindOf ci = Choice \/ kindOf ci = Link -> (forall x, cellRule ci d x = if p x then Some x else None) ->
  ((fun w => lift (everyCell p (theDataView_ w) c) w) ≫= fun _ => checkLimits ci c ≫= fun _ => mret ix) v = (Ok ix', v') <-> outcome.
Proof using Hw.
  intros Hu Hk Hp. rewrite checked_inv by done.
  assert (ixStep ci ix = ix) as -> by (unfold ixStep; by destruct Hk as [-> | ->]).
  assert (Forall (fun x => p x = true) (colValues (theDataView_ v) c) -> afterColumn v c ci d = v) as Hid.
  { intros HF. apply afterColumn_id; [done| |by destruct Hk as [-> | ->]]. eapply Forall_impl; [exact (guarded_id p _ HF)|]. cbn. intros x. by rewrite Hp. }
  rewrite <- (guarded_ok p). split.
  - intros (HF & HL & -> & ->). pose proof HF as HF'. rewrite guarded_ok in HF'. rewrite (Hid HF').
    split_and!; [|by intros Hl; destruct Hk; congruence|done|done|done].
    eapply Forall_impl; [exact HF|]. cbn. intros x. by rewrite Hp.
  - intros (HF & _ & HL & -> & ->). assert (Forall (fun x => is_Some (if p x then Some x else None)) (colValues (theDataView_ v) c)) as HF'.
    { eapply Forall_impl; [exact HF|]. cbn. intros x. by rewrite Hp. }
    split; [done|]. rewrite guarded_ok in HF'. rewrite (Hid HF') in *. split_and!; [by apply HL|done|done].
Qed.
End Branches.
Lemma checkColumn_inv defaults ix c v ix' v' ci d : wide c (theDataView_ v) -> columnsInfo_ v !! c = Some ci -> defaults !! c = Some d ->
  checkColumn defaults ix c v = (Ok ix', v') <->
  Forall (fun x => is_Some (cellRule ci d x)) (colValues (theDataView_ v) c) /\ hasMate v c ci /\
  (unlimited ci = false -> limitsOK v' c ci) /\ ix' = ixStep ci ix /\ v' = afterColumn v c ci d.
Proof.
  intros Hw Hc Hd. unfold TableInit.checkColumn.
  assert ((fun w => lift (columnAt w c) w) v = (Ok ci, v)) as E1 by (unfold lift, columnAt; by rewrite Hc).
  assert (lift (match defaults !! c with Some d => Ok d | None => Throw Undefined end) v = (Ok d, v)) as E2 by (unfold lift; by rewrite Hd).
  rewrite (bind_ok (fun w => lift (columnAt w c) w) _ v ci v E1), (bind_ok (lift _) _ v d v E2).
  clear E1 E2. pose proof (eq_refl (kindOf ci)) as Ek. unfold kindOf in Ek at 2.
  destruct (textEq (type_ ci) TYPE_FIXED_CHOICE_DATA) eqn:E1.
  { destruct (firstIs ARBITRARY_YES (dataChoices_ ci)) eqn:Eu.
    - apply branch_free; [done|unfold unlimited; by rewrite Ek|by left].
    - assert (unlimited ci = false) as Hu by (unfold unlimited; by rewrite Ek). apply branch_checked; [done|done|by left|].
      intros x. unfold cellRule. by rewrite Ek, Hu. }
  destruct (isChildLink (type_ ci)) eqn:E2.
  { destruct (match dataChoices_ ci with [] => true | _ => _ end) eqn:Eu.
    - apply branch_free; [done|unfold unlimited; by rewrite Ek|by right].
    - assert (unlimited ci = false) as Hu by (unfold unlimited; by rewrite Ek). apply branch_checked; [done|done|by right|].
      intros x. unfold cellRule. by rewrite Ek, Hu. }
  destruct (isBoolType (type_ ci)) eqn:E3.
  { rewrite rewritten_inv by done. unfold hasMate, unlimited, ixStep, afterColumn, cellRule, linksStep. rewrite Ek. split.
    - intros (HF & HL & -> & ->). by split_and!.
    - intros (HF & _ & HL & -> & ->). split_and!; [done|by apply HL|done|by destruct v]. }
  fold (isLinkID ci).
  assert (kindOf ci = Group \/ kindOf ci = Plain -> Forall (fun x => cellRule ci d x = Some x) (colValues (theDataView_ v) c)) as Hplain.
  { intros Hk. apply Forall_forall. intros x _. unfold cellRule. by destruct Hk as [-> | ->]. }
  destruct (isGroupID (type_ ci)) eqn:E4.
  { rewrite (getChildLinkIndex_ok ci) by auto. rewrite (bind_ok (lift _) _ v (linkIndex ci) v) by done.
    rewrite (bind_ok (modify _) _ v tt _ eq_refl), limits_then_inv.
    assert (afterColumn v c ci d = set_links v (<[linkIndex ci := c]> (colLinkGroupIDs_ v))) as ->.
    { unfold afterColumn, linksStep. rewrite Ek, rewriteRows_id by auto. by destruct v. }
    unfold hasMate, unlimited, ixStep. rewrite Ek. split.
    - intros (HL & -> & ->). split_and!; try done. eapply Forall_impl; [by apply Hplain; left|]. cbn. intros x ->. by eexists.
    - intros (_ & _ & HL & -> & ->). split_and!; [by apply HL|done|done]. }
  destruct (isLinkID ci) eqn:E5.
  - rewrite (getChildLinkIndex_ok ci) by auto. rewrite (bind_ok (lift _) _ v (linkIndex ci) v) by done. rewrite bind_inv.
    unfold hasMate, unlimited, ixStep, afterColumn, cellRule, linksStep. rewrite Ek. split.
    + intros ([] & s1 & [HF ->]%rewriteColumn_inv & H); [|done]. rewrite bind_inv in H.
      destruct H as (q & s2 & [= Hq <-] & (HL & -> & ->)%limits_then_inv). split_and!; try done. intros _. by exists q.
    + intros (HF & HM & HL & -> & ->). destruct (HM eq_refl) as [q Hq]. eexists tt, _. split; [by apply rewriteColumn_inv|].
      rewrite bind_inv. exists q. eexists. split; [unfold lift; f_equal; exact Hq|]. apply limits_then_inv.
      split_and!; [by apply HL|done|by destruct v].
  - rewrite limits_then_inv. rewrite afterColumn_id; [|done|by apply Hplain; right|by rewrite Ek].
    unfold hasMate, unlimited, ixStep. rewrite Ek. split.
    + intros (HL & -> & ->). split_and!; try done. eapply Forall_impl; [by apply Hplain; right|]. cbn. intros x ->. by eexists.
    + intros (_ & _ & HL & -> & ->). split_and!; [by apply HL|done|done].
Qed.

(** ** All columns *)

Lemma checkAll_ext {A} (f g : A -> result unit) l : (forall a, f a = g a) -> checkAll f l = checkAll g l.
Proof. intros H. induction l as [|a l IH]; cbn; [done|]. by rewrite H, IH. Qed.
Lemma cell_values v w c r : map length (theDataView_ v) = map length (theDataView_ w) ->
  colValues (theDataView_ v) c = colValues (theDataView_ w) c -> cell v r c = cell w r c.
Proof.
  intros Hl Hc. unfold cell. apply (f_equal (lookup r)) in Hl, Hc. unfold colValues in Hc.
  change (map ?f ?l) with (f <$> l) in *. rewrite !list_lookup_fmap in *.
  destruct (theDataView_ v !! r) as [a|], (theDataView_ w !! r) as [b|]; try done. cbn in *.
  injection Hl as Hl. injection Hc as Hc. rewrite !nth_lookup in Hc.
  destruct (a !! c) as [x|] eqn:Ea, (b !! c) as [y|] eqn:Eb; cbn in Hc; [by subst| | |done].
  - apply lookup_lt_Some in Ea. apply lookup_ge_None_1 in Eb. lia.
  - apply lookup_lt_Some in Eb. apply lookup_ge_None_1 in Ea. lia.
Qed.
(** The limits of a column concern its cells only. *)
Lemma limitsOK_ext v w c ci : columnsInfo_ v = columnsInfo_ w -> map length (theDataView_ v) = map length (theDataView_ w) ->
  colValues (theDataView_ v) c = colValues (theDataView_ w) c -> limitsOK v c ci -> limitsOK w c ci.
Proof.
  intros Hi Hl Hc. unfold limitsOK, TableInit.checkLimits. cbn [fst]. intros H. etransitivity; [|exact H]. clear H.
  assert (getNumberOfRows v = getNumberOfRows w) as Hn by (apply (f_equal length) in Hl; by rewrite !length_map in Hl).
  destruct (isNumberDataType ci); [|done]. cbn [negb]. rewrite Hn.
  destruct (readLimit _ _ _ _) as [mn|]; [|done]. destruct (readLimit _ _ _ _) as [mx|]; [|done]. cbn [mbind result_bind].
  assert (forall mn mx r, (d ← getValue getenv systemVariables_ expansionFuel type_double v r c true; if outside mn mx d then Throw RuntimeError else Ok tt) =
    (d ← getValue getenv systemVariables_ expansionFuel type_double w r c true; if outside mn mx d then Throw RuntimeError else Ok tt)) as E.
  { intros mn' mx' r. unfold getValue, requested, validateValueForColumn, getColumnInfo. unfold getNumberOfColumns. by rewrite Hi, Hn, (cell_values v w c r Hl Hc). }
  destruct mn, mx; try done; try destruct (ltb _ _); try done; symmetry; by apply checkAll_ext.
Qed.

Lemma wide_rectangular v c : rectangular v -> (c < getNumberOfColumns v)%nat -> wide c (theDataView_ v).
Proof. intros Hv Hc. eapply Forall_impl; [exact Hv|]. cbn. intros row ->. done. Qed.
Lemma rectangular_lengths v w : columnsInfo_ v = columnsInfo_ w -> map length (theDataView_ v) = map length (theDataView_ w) ->
  rectangular v -> rectangular w.
Proof.
  unfold rectangular, getNumberOfColumns. intros -> Hl Hv.
  apply (proj1 (List.Forall_map length (fun n => n = length (columnsInfo_ w)) (theDataView_ w))). rewrite <- Hl. by apply List.Forall_map.
Qed.

Definition withColumn {A} v (c : nat) (f : TableViewColumnInfo -> A -> A) (a : A) : A := match columnsInfo_ v !! c with Some ci => f ci a | None => a end.
Definition ixOf v (cols : list nat) (ix : indices) : indices := fold_left (fun ix c => withColumn v c ixStep ix) cols ix.
Definition linksOf v (cols : list nat) (links : gmap text nat) : gmap text nat := fold_left (fun links c => withColumn v c (fun ci => linksStep ci c) links) cols links.
Lemma linksOf_cons v c cols links ci : columnsInfo_ v !! c = Some ci -> linksOf v (c :: cols) links = linksOf v cols (linksStep ci c links).
Proof. intros H. unfold linksOf. cbn [fold_left]. unfold withColumn at 2. by rewrite H. Qed.
Lemma ixOf_cons v c cols ix ci : columnsInfo_ v !! c = Some ci -> ixOf v (c :: cols) ix = ixOf v cols (ixStep ci ix).
Proof. intros H. unfold ixOf. cbn [fold_left]. unfold withColumn at 2. by rewrite H. Qed.
(** What holds for one column between the view before and after. *)
Record columnChecked v v' (c : nat) (ci : TableViewColumnInfo) (d : text) : Prop := {
  checked_values : colValues (theDataView_ v') c = map (fun x => default [] (cellRule ci d x)) (colValues (theDataView_ v) c);
  checked_legal : Forall (fun x => is_Some (cellRule ci d x)) (colValues (theDataView_ v) c);
  checked_mate : hasMate v c ci;
  checked_limits : unlimited ci = false -> limitsOK v' c ci;
}.

Lemma checkColumns_sound defaults cols : forall ix v ix' v', NoDup cols -> rectangular v -> length defaults = getNumberOfColumns v ->
  Forall (fun c => (c < getNumberOfColumns v)%nat) cols -> checkColumns defaults cols ix v = (Ok ix', v') ->
  v' = set_links (set_data v (theDataView_ v')) (linksOf v cols (colLinkGroupIDs_ v)) /\ ix' = ixOf v cols ix /\
  map length (theDataView_ v) = map length (theDataView_ v') /\
  (forall c, ~ c ∈ cols -> colValues (theDataView_ v') c = colValues (theDataView_ v) c) /\
  (forall c ci d, c ∈ cols -> columnsInfo_ v !! c = Some ci -> defaults !! c = Some d -> columnChecked v v' c ci d).
Proof.
  induction cols as [|c cols IH]; intros ix v ix' v' Hn Hr Hd Hc; cbn [TableInit.checkColumns].
  { intros [= <- <-]. split_and!; [by destruct v|done|done|done|]. intros c ci d Hin. by apply elem_of_nil in Hin. }
  apply NoDup_cons in Hn as [Hnc Hn]. apply Forall_cons in Hc as [Hcc Hc]. rewrite bind_inv. intros (ix1 & v1 & H1 & H2).
  destruct (lookup_lt_is_Some_2 (columnsInfo_ v) c Hcc) as [ci Hci]. destruct (lookup_lt_is_Some_2 defaults c) as [d Hdc]; [by rewrite Hd|].
  pose proof (wide_rectangular v c Hr Hcc) as Hw.
  apply (checkColumn_inv defaults ix c v ix1 v1 ci d Hw Hci Hdc) in H1 as (HF & HM & HL & -> & ->).
  assert (map length (theDataView_ v) = map length (theDataView_ (afterColumn v c ci d))) as Hlen.
  { cbn. rewrite map_map. apply map_ext. intros row. by rewrite rewriteRow_length. }
  destruct (IH _ _ _ _ Hn (rectangular_lengths v (afterColumn v c ci d) eq_refl Hlen Hr) Hd Hc H2) as (Ev & Ei & El & Ho & Hk).
  assert (theDataView_ (afterColumn v c ci d) = map (rewriteRow c (cellRule ci d)) (theDataView_ v)) as Edata by done.
  split_and!.
  - rewrite (linksOf_cons v c cols _ ci Hci). exact Ev.
  - rewrite (ixOf_cons v c cols _ ci Hci). exact Ei.
  - by rewrite Hlen.
  - intros c' Hc'. rewrite Ho by (intros ?; apply Hc'; by right). rewrite Edata. apply colValues_rewrite_other. intros ->. apply Hc'. left.
  - intros c' ci' d' [->|Hin]%elem_of_cons Hci' Hd'.
    + assert (ci' = ci) as -> by congruence. assert (d' = d) as -> by congruence.
      assert (colValues (theDataView_ v') c = colValues (theDataView_ (afterColumn v c ci d)) c) as Ec by by apply Ho.
      constructor; [by rewrite Ec, Edata, colValues_rewrite|done|done|]. intros Hu.
      apply (limitsOK_ext (afterColumn v c ci d) v'); [by rewrite Ev|done|done|by apply HL].
    + destruct (Hk c' ci' d' Hin Hci' Hd') as [K1 K2 K3 K4].
      assert (colValues (theDataView_ (afterColumn v c ci d)) c' = colValues (theDataView_ v) c') as Ec.
      { rewrite Edata. apply colValues_rewrite_other. by intros ->. }
      rewrite Ec in K1, K2. by constructor.
Qed.
End Columns.

(** ** Columns that must be there once *)

Lemma allDifferent_ok l : allDifferent l = true <-> NoDup l.
Proof.
  unfold allDifferent. rewrite Nat.eqb_eq. split.
  - assert (forall l : list text, (length (remove_dups l) <= length l)%nat) as Hle.
    { induction l0 as [|x l0 IH]; cbn; [done|]. case_decide; cbn; lia. }
    induction l as [|x l IH]; cbn; [constructor|]. case_decide as Hx; cbn.
    + specialize (Hle l). lia.
    + intros [= H]. constructor; [done|by apply IH].
  - induction 1 as [|x l Hx Hn IH]; cbn; [done|]. case_decide; [done|]. cbn. by rewrite IH.
Qed.
Lemma findColByType_none v type s : findColByType v type s = None <->
  forall c ci, (s <= c)%nat -> columnsInfo_ v !! c = Some ci -> type_ ci <> type.
Proof.
  unfold findColByType. rewrite fmap_None, search_none. split.
  - intros H c ci Hc Hci. apply textEq_false, H. apply list_elem_of_lookup. exists (c - s)%nat. rewrite lookup_drop.
    by replace (s + (c - s))%nat with c by lia.
  - intros H ci (j & Hj)%list_elem_of_lookup. rewrite lookup_drop in Hj. apply textEq_false. apply (H (s + j)%nat); [lia|done].
Qed.
Lemma findColByType_some v type s c : findColByType v type s = Some c ->
  ((s <= c)%nat /\ exists ci, columnsInfo_ v !! c = Some ci /\ type_ ci = type) /\
  forall c' ci, (s <= c' < c)%nat -> columnsInfo_ v !! c' = Some ci -> type_ ci <> type.
Proof.
  unfold findColByType. intros (j & Hj & ->)%fmap_Some. split.
  - split; [lia|]. destruct (search_some _ _ _ Hj) as (ci & Hci & He%textEq_spec). exists ci. by rewrite lookup_drop in Hci.
  - intros c' ci Hc Hci. apply textEq_false. refine (search_before _ _ j (c' - s) ci Hj _ _); [lia|].
    rewrite lookup_drop. by replace (s + (c' - s))%nat with c' by lia.
Qed.
(** The column of the type is the one [fromEnd] before the end, and no other. *)
Definition soleColumn v (type : text) (fromEnd : nat) : Prop :=
  (fromEnd <= getNumberOfColumns v)%nat /\
  forall c ci, columnsInfo_ v !! c = Some ci -> type_ ci = type <-> (c + fromEnd = getNumberOfColumns v)%nat.
Definition namedColumn v (name : option text) (fromEnd : nat) : Prop :=
  forall n ci, name = Some n -> columnsInfo_ v !! (getNumberOfColumns v - fromEnd)%nat = Some ci -> name_ ci = n.
Lemma requireColumn_ok type name fromEnd v v' : (0 < fromEnd)%nat -> requireColumn type name fromEnd v = (Ok tt, v') <->
  soleColumn v type fromEnd /\ namedColumn v name fromEnd /\ v' = v.
Proof.
  intros H0. unfold requireColumn. destruct (findColByType v type 0) as [c|] eqn:E.
  - apply findColByType_some in E as ((_ & ci & Hci & Ht) & Hfirst). rewrite Hci. pose proof (lookup_lt_Some _ _ _ Hci) as Hlt. fold (getNumberOfColumns v) in Hlt.
    destruct (findColByType v type (S c)) as [c'|] eqn:E'.
    { split; [done|]. intros ((Hle & Hs) & _ & _). apply findColByType_some in E' as ((Hc' & ci' & Hci' & Ht') & _).
      apply (Hs c ci Hci) in Ht. apply (Hs c' ci' Hci') in Ht'. lia. }
    destruct (_ && _) eqn:Eb.
    + apply andb_prop in Eb as [En Ec%Nat.eqb_eq]. split; [intros [= <-]|by intros (_ & _ & ->)]. split_and!; [|intros n ci'|done].
      * split; [lia|]. intros c1 ci1 H1. split; [|intros Hc1; replace c1 with c in H1 by lia; congruence].
        intros Ht1. destruct (Nat.lt_trichotomy c1 c) as [Hc1|[->|Hc1]]; [exfalso|lia|exfalso].
        -- apply (Hfirst c1 ci1); [lia|done|done].
        -- rewrite findColByType_none in E'. apply (E' c1 ci1); [lia|done|done].
      * intros -> H. replace (getNumberOfColumns v - fromEnd)%nat with c in H by lia. rewrite Hci in H. injection H as ->. by apply textEq_spec.
    + split; [done|]. intros ((Hle & Hs) & Hn & _). apply (Hs c ci Hci) in Ht. rewrite (proj2 (Nat.eqb_eq _ _) Ht), andb_true_r in Eb.
      destruct name as [n|]; [|done]. apply textEq_false in Eb. exfalso. apply Eb. apply (Hn n ci eq_refl).
      by replace (getNumberOfColumns v - fromEnd)%nat with c by lia.
  - split; [done|]. intros ((Hle & Hs) & _ & _). rewrite findColByType_none in E. exfalso.
    destruct (lookup_lt_is_Some_2 (columnsInfo_ v) (getNumberOfColumns v - fromEnd)) as [ci Hci]; [unfold getNumberOfColumns in *; lia|].
    apply (E _ _ (Nat.le_0_l _) Hci), (Hs _ _ Hci). lia.
Qed.

(** ** Link indices *)

#[export] Instance kind_eq_dec : EqDecision kind.
Proof. solve_decision. Defined.
Definition hasKind (k : kind) (ci : TableViewColumnInfo) : bool := bool_decide (kindOf ci = k).
Definition indicesOf v (k : kind) : list text := map linkIndex (List.filter (hasKind k) (columnsInfo_ v)).

Lemma ixOf_columns v rest : forall front ix, columnsInfo_ v = front ++ rest ->
  groupIdIndexes (ixOf v (seq (length front) (length rest)) ix) = groupIdIndexes ix ++ map linkIndex (List.filter (hasKind Group) rest) /\
  childLinkIdLabels (ixOf v (seq (length front) (length rest)) ix) = childLinkIdLabels ix ++ map linkIndex (List.filter (hasKind LinkID) rest).
Proof.
  induction rest as [|ci rest IH]; intros front ix Hv; cbn [length seq List.filter]; [by rewrite !app_nil_r|].
  assert (columnsInfo_ v !! length front = Some ci) as Hci by (rewrite Hv; by apply list_lookup_middle).
  rewrite (ixOf_cons v _ _ _ ci Hci). pose proof (IH (front ++ [ci]) (ixStep ci ix)) as [IH1 IH2]; [by rewrite <- app_assoc|].
  rewrite length_app, Nat.add_1_r in IH1, IH2. rewrite IH1, IH2. unfold ixStep, hasKind.
  destruct (kindOf ci) eqn:Ek; cbn; rewrite <- ?app_assoc; done.
Qed.
Lemma ixOf_all v : ixOf v (seq 0 (getNumberOfColumns v)) (mkIndices [] []) = mkIndices (indicesOf v Group) (indicesOf v LinkID).
Proof.
  pose proof (ixOf_columns v (columnsInfo_ v) [] (mkIndices [] []) eq_refl) as [H1 H2]. unfold getNumberOfColumns. cbn [length] in *.
  destruct (ixOf v _ _) as [a b]. cbn in *. by rewrite H1, H2.
Qed.
Lemma NoDup_filter_inj {A B} (g : A -> B) (p : A -> bool) l i j a b : NoDup (map g (List.filter p l)) ->
  l !! i = Some a -> l !! j = Some b -> p a = true -> p b = true -> g a = g b -> i = j.
Proof.
  revert i j. induction l as [|x l IH]; intros i j Hn Hi Hj Ha Hb Hg; [done|]. cbn in Hn.
  assert (forall k y, l !! k = Some y -> p y = true -> g y ∈ map g (List.filter p l)) as Hin.
  { intros k y Hk Hy. change (map g ?l) with (g <$> l). apply list_elem_of_fmap. exists y. split; [done|].
    apply list_elem_of_In, filter_In. split; [|done]. apply list_elem_of_In. by eapply list_elem_of_lookup_2. }
  destruct i as [|i], j as [|j]; cbn in Hi, Hj; [done|..].
  - injection Hi as ->. rewrite Ha in Hn. cbn in Hn. apply NoDup_cons in Hn as [Hx _]. exfalso. apply Hx. rewrite Hg. by apply (Hin j).
  - injection Hj as ->. rewrite Hb in Hn. cbn in Hn. apply NoDup_cons in Hn as [Hx _]. exfalso. apply Hx. rewrite <- Hg. by apply (Hin i).
  - f_equal. apply IH; try done. destruct (p x); [|done]. cbn in Hn. by apply NoDup_cons in Hn as [_ ?].
Qed.
(** After the check each link index of a group column leads to its column. *)
Lemma linksOf_lookup v cols c ci : columnsInfo_ v !! c = Some ci -> kindOf ci = Group -> NoDup (indicesOf v Group) ->
  forall links, c ∈ cols \/ links !! linkIndex ci = Some c -> linksOf v cols links !! linkIndex ci = Some c.
Proof.
  intros Hci Hk Hn. induction cols as [|c' cols IH]; intros links; [by intros [H|H]; [apply elem_of_nil in H|]|].
  intros H. unfold linksOf. cbn [fold_left]. fold (linksOf v cols (withColumn v c' (fun ci => linksStep ci c') links)). apply IH.
  unfold withColumn. destruct (columnsInfo_ v !! c') as [ci'|] eqn:Hci'.
  2: { destruct H as [[->|H]%elem_of_cons|H]; [congruence|by left|by right]. }
  assert (forall k, kindOf ci' = k -> k <> Group -> c ∈ cols \/ linksStep ci' c' links !! linkIndex ci = Some c) as Other.
  { intros k Hk' Hne. unfold linksStep. destruct H as [[->|H]%elem_of_cons|H]; [|by left|right; by destruct (kindOf ci'); subst].
    assert (ci' = ci) by congruence. congruence. }
  destruct (decide (kindOf ci' = Group)) as [Hg|Hg]; [|by apply (Other (kindOf ci'))]. clear Other.
  unfold linksStep. rewrite Hg. destruct (decide (linkIndex ci' = linkIndex ci)) as [He|He].
  - right. rewrite He. assert (c' = c) as ->; [|by apply lookup_insert_eq].
    eapply (NoDup_filter_inj linkIndex (hasKind Group)); [exact Hn|done|done|..|done]; unfold hasKind; by apply bool_decide_eq_true_2.
  - destruct H as [[->|H]%elem_of_cons|H]; [by assert (ci' = ci) by congruence; subst|by left|right]. by rewrite lookup_insert_ne.
Qed.

(** ** The invariant *)

Definition statusKnown v : Prop := (initColStatus v).2 = v.
Definition priorityKnown v : Prop := (initColPriority v).2 = v.
Section Invariant.
Variables (getenv : text -> option text) (systemVariables_ : gmap text (gmap text text)) (expansionFuel : nat).
Abbreviation init := (init getenv systemVariables_ expansionFuel).
Abbreviation limitsOK := (limitsOK getenv systemVariables_ expansionFuel).

Record wellFormed v : Prop := {
  wf_names : NoDup (map (fun ci => capsColName (storageName_ ci)) (columnsInfo_ v));
  wf_rectangular : rectangular v;
  wf_comment : soleColumn v TYPE_COMMENT 3 /\ namedColumn v (Some COL_NAME_COMMENT) 3;
  wf_author : soleColumn v TYPE_AUTHOR 2;
  wf_timestamp : soleColumn v TYPE_TIMESTAMP 1;
  (** the identifiers *)
  wf_uid : exists c ci, colUID_ v = Some c /\ columnsInfo_ v !! c = Some ci /\ type_ ci = TYPE_UID /\
    NoDup (colValues (theDataView_ v) c) /\ Forall (fun x => legalUID x = true) (colValues (theDataView_ v) c);
  wf_unique : forall c ci, columnsInfo_ v !! c = Some ci -> type_ ci = TYPE_UNIQUE_DATA -> NoDup (colValues (theDataView_ v) c);
  wf_groups : forall c ci g gi, columnsInfo_ v !! c = Some ci -> type_ ci = TYPE_UNIQUE_GROUP_DATA ->
    columnsInfo_ v !! g = Some gi -> isGroupID (type_ gi) = true -> NoDup (groupPairs (theDataView_ v) g c);
  (** the values, each of which is already what the check makes of it *)
  wf_values : forall c ci, columnsInfo_ v !! c = Some ci ->
    Forall (fun x => cellRule ci (rowDefault ci) x = Some x) (colValues (theDataView_ v) c);
  wf_mates : forall c ci, columnsInfo_ v !! c = Some ci -> hasMate v c ci;
  wf_limits : forall c ci, columnsInfo_ v !! c = Some ci -> unlimited ci = false -> limitsOK v c ci;
  wf_groupIDs : NoDup (indicesOf v Group);
  wf_linkIDs : NoDup (indicesOf v LinkID);
  (** the members the check fills in *)
  wf_defaults : rowDefaultValues_ v = map rowDefault (columnsInfo_ v);
  wf_links : forall c ci, columnsInfo_ v !! c = Some ci -> kindOf ci = Group -> colLinkGroupIDs_ v !! linkIndex ci = Some c;
  wf_status : statusKnown v;
  wf_priority : priorityKnown v;
  wf_sources : sourceColumnNames_ v <> ∅;
}.

(** ** The steps of [init] *)

Lemma check_then {A} b (f : unit -> M TableView A) v a v' : (check b ≫= f) v = (Ok a, v') <-> b = true /\ f tt v = (Ok a, v').
Proof. unfold check. destruct b; [|by split; [|intros [? _]]]. by split; [intros|intros [_ ?]]. Qed.
Lemma ignore_then {A B} (m : M TableView A) (f : unit -> M TableView B) v : (m v).1 <> Throw Undefined -> (ignore m ≫= f) v = f tt (m v).2.
Proof.
  intros H. unfold ignore, catch_if, mbind, M_bind. destruct (m v) as [[a|e] s]; cbn in *; [done|]. by destruct e.
Qed.
(** A check that does not change the view. *)
Lemma test_then {A} (r : TableView -> result unit) (f : unit -> M TableView A) v a v' :
  ((fun w => (r w, w)) ≫= f) v = (Ok a, v') <-> r v = Ok tt /\ f tt v = (Ok a, v').
Proof. unfold mbind, M_bind. destruct (r v) as [[]|e]; split; [done|by intros [_ ?]|done|by intros [? _]]. Qed.
Lemma requireColumn_then {A} type name fromEnd (f : unit -> M TableView A) v a v' : (0 < fromEnd)%nat ->
  (requireColumn type name fromEnd ≫= f) v = (Ok a, v') <-> (soleColumn v type fromEnd /\ namedColumn v name fromEnd) /\ f tt v = (Ok a, v').
Proof.
  intros H0. rewrite bind_inv. split.
  - intros ([] & s1 & (Hs & Hn & ->)%requireColumn_ok & H); [|done]. done.
  - intros [[Hs Hn] H]. exists tt, v. split; [by apply requireColumn_ok|done].
Qed.
Lemma requireColumn_then_any {A} type fromEnd (f : unit -> M TableView A) v a v' : (0 < fromEnd)%nat ->
  (requireColumn type None fromEnd ≫= f) v = (Ok a, v') <-> soleColumn v type fromEnd /\ f tt v = (Ok a, v').
Proof. intros H0. rewrite requireColumn_then by done. split; [by intros [[? _] ?]|by intros [? ?]]. Qed.
Lemma isRectangular_ok v : isRectangular v = true <-> rectangular v.
Proof.
  unfold isRectangular, rectangular. rewrite forallb_forall, Forall_forall. split; intros H row Hr.
  - apply Nat.eqb_eq, H. by apply list_elem_of_In.
  - apply Nat.eqb_eq, H. by apply list_elem_of_In.
Qed.

Definition knowSources v : TableView := if bool_decide (sourceColumnNames_ v = ∅) then set_sourceNames v (getColumnStorageNames v) else v.
(** The special columns are looked up first. *)
Definition prepared v : TableView := knowSources (initColPriority (initColStatus (initColUID v).2).2).2.
Lemma initColStatus_defined v : (initColStatus v).1 <> Throw Undefined.
Proof. unfold initColStatus. by repeat case_match. Qed.
Lemma initColPriority_defined v : (initColPriority v).1 <> Throw Undefined.
Proof. unfold initColPriority, findCol. destruct (colPriority_ v); [done|]. by destruct (search _ _). Qed.

Definition defaultsOf v : list text := map rowDefault (columnsInfo_ v).
Lemma init_inv v v' : let w := prepared v in init v = (Ok tt, v') <->
  NoDup (map (fun ci => capsColName (storageName_ ci)) (columnsInfo_ v)) /\ is_ok (initColUID v).1 = true /\
  (soleColumn w TYPE_COMMENT 3 /\ namedColumn w (Some COL_NAME_COMMENT) 3) /\ soleColumn w TYPE_AUTHOR 2 /\ soleColumn w TYPE_TIMESTAMP 1 /\
  (checkUIDs w).1 = Ok tt /\ (checkUniqueData w).1 = Ok tt /\ (checkUniqueGroupData w).1 = Ok tt /\ rectangular v /\
  exists ix, checkColumns getenv systemVariables_ expansionFuel (defaultsOf w) (seq 0 (getNumberOfColumns v)) (mkIndices [] []) (set_defaults w (defaultsOf w)) = (Ok ix, v') /\
    NoDup (groupIdIndexes ix) /\ NoDup (childLinkIdLabels ix).
Proof.
  intros w. unfold TableInit.init. rewrite (bind_ok (gets id) _ v v v eq_refl). unfold id. rewrite check_then, allDifferent_ok.
  apply and_iff_compat_l. unfold w, prepared. clear w. destruct (initColUID v) as [[c|e] v1] eqn:E1.
  2: { rewrite (bind_throw initColUID _ v e v1 E1). cbn. by split; [|intros [? _]]. }
  rewrite (bind_ok initColUID _ v c v1 E1). cbn [fst snd is_ok].
  rewrite (ignore_then initColStatus) by apply initColStatus_defined. set (v2 := (initColStatus v1).2).
  rewrite (ignore_then initColPriority) by apply initColPriority_defined. set (v3 := (initColPriority v2).2).
  rewrite (bind_ok (modify _) _ v3 tt (knowSources v3) eq_refl). set (w := knowSources v3).
  rewrite requireColumn_then, requireColumn_then_any, requireColumn_then_any by lia.
  rewrite (test_then (fun w => (checkUIDs w).1)), (test_then (fun w => (checkUniqueData w).1)), (test_then (fun w => (checkUniqueGroupData w).1)).
  rewrite (bind_ok initRowDefaults _ w (defaultsOf w) (set_defaults w (defaultsOf w)) eq_refl), check_then, isRectangular_ok, bind_inv.
  assert (forall ix s1, (check (allDifferent (groupIdIndexes ix)) ≫= fun _ => check (allDifferent (childLinkIdLabels ix))) s1 = (Ok tt, v') <->
    s1 = v' /\ NoDup (groupIdIndexes ix) /\ NoDup (childLinkIdLabels ix)) as Hend.
  { intros ix s1. rewrite check_then, <- !allDifferent_ok. unfold check. destruct (allDifferent (groupIdIndexes ix)), (allDifferent (childLinkIdLabels ix)).
    - split; [by intros [_ [= <-]]|by intros [-> _]].
    - by split; [intros [_ ?]|intros (_ & _ & ?)].
    - by split; [intros [? _]|intros (_ & ? & _)].
    - by split; [intros [? _]|intros (_ & ? & _)]. }
  split.
  - intros (HC & HA & HT & HU & HD & HG & HR & ix & s1 & Hk & (-> & Hn)%Hend). split_and!; try done; try apply HC. by exists ix.
  - intros (_ & HC & HA & HT & HU & HD & HG & HR & ix & Hk & Hn). split_and!; try done; try apply HC. exists ix, v'. split; [done|]. by apply Hend.
Qed.

(** ** [init] establishes the invariant *)

Lemma kindOf_type ci : type_ ci = TYPE_UID \/ type_ ci = TYPE_UNIQUE_DATA \/ type_ ci = TYPE_UNIQUE_GROUP_DATA -> kindOf ci = Plain.
Proof. unfold kindOf, isLinkID. by intros [-> |[-> | ->]]. Qed.
Lemma kindOf_group ci : isGroupID (type_ ci) = true -> kindOf ci = Group.
Proof.
  intros H. unfold kindOf, isLinkID. pose proof H as H'. apply andb_prop in H' as [(r & E)%starts_with_spec _].
  rewrite H. rewrite E. rewrite (textEq_neq (TYPE_START_GROUP_ID ++ r) TYPE_FIXED_CHOICE_DATA) by done.
  unfold isBoolType. by rewrite !textEq_neq by done.
Qed.
Lemma cellRule_keeps ci d x : kindOf ci = Plain \/ kindOf ci = Group -> cellRule ci d x = Some x.
Proof. unfold cellRule. by intros [-> | ->]. Qed.
Lemma canonicalBool_idem type x y : canonicalBool type x = Some y -> canonicalBool type y = Some y.
Proof.
  unfold canonicalBool, onWords, offWords. destruct (textEq type TYPE_ON_OFF); [|destruct (textEq type TYPE_TRUE_FALSE); [|destruct (textEq type TYPE_YES_NO); [|done]]].
  all: destruct (isOneOf _ x); [intros [= <-]; reflexivity|destruct (isOneOf _ x); [intros [= <-]; reflexivity|done]].
Qed.
(** Checking a value again changes nothing. *)
Lemma cellRule_idem ci d x y : cellRule ci d x = Some y -> cellRule ci d y = Some y.
Proof.
  unfold cellRule. destruct (kindOf ci).
  - destruct (_ || _) eqn:E; [|done]. intros [= <-]. by rewrite E.
  - destruct (_ || _) eqn:E; [|done]. intros [= <-]. by rewrite E.
  - apply canonicalBool_idem.
  - by intros [= <-].
  - intros [= <-]. f_equal. by destruct (textEq x []) eqn:E; [destruct (textEq d [])|rewrite E].
  - by intros [= <-].
Qed.
Lemma rules_idem ci d l : Forall (fun x => is_Some (cellRule ci d x)) l -> Forall (fun x => cellRule ci d x = Some x) (map (fun x => default [] (cellRule ci d x)) l).
Proof. induction 1 as [|x l [y Hy] _ IH]; cbn; constructor; [|done]. rewrite Hy. by apply (cellRule_idem ci d x). Qed.
Lemma rules_id ci d l : Forall (fun x => cellRule ci d x = Some x) l -> map (fun x => default [] (cellRule ci d x)) l = l.
Proof. induction 1 as [|x l Hx _ IH]; cbn; [done|]. by rewrite Hx, IH. Qed.
Lemma groupPairs_ext rows rows' g c : colValues rows g = colValues rows' g -> colValues rows c = colValues rows' c -> groupPairs rows g c = groupPairs rows' g c.
Proof.
  revert rows'. induction rows as [|row rows IH]; intros [|row' rows']; cbn; try done. intros [= Hg Hgs] [= Hc Hcs].
  rewrite Hg, Hc. f_equal. by apply IH.
Qed.

Lemma colsOfType_elem v type c : c ∈ colsOfType v type <-> exists ci, columnsInfo_ v !! c = Some ci /\ type_ ci = type.
Proof.
  unfold colsOfType. change (map fst ?l) with (fst <$> l). rewrite list_elem_of_fmap. split.
  - intros ([c' ci] & -> & H). apply list_elem_of_In, filter_In in H as [H E%textEq_spec]. apply list_elem_of_In, list_elem_of_lookup in H as [j Hj].
    rewrite list_lookup_imap in Hj. apply fmap_Some in Hj as (ci' & Hci & [= -> ->]). by exists ci'.
  - intros (ci & Hci & E). exists (c, ci). split; [done|]. apply list_elem_of_In, filter_In. split; [|by apply textEq_spec].
    apply list_elem_of_In, list_elem_of_lookup. exists c. by rewrite list_lookup_imap, Hci.
Qed.
Lemma groupIDCols_elem v c : c ∈ groupIDCols v <-> exists ci, columnsInfo_ v !! c = Some ci /\ isGroupID (type_ ci) = true.
Proof.
  unfold groupIDCols. change (map fst ?l) with (fst <$> l). rewrite list_elem_of_fmap. split.
  - intros ([c' ci] & -> & H). apply list_elem_of_In, filter_In in H as [H E]. apply list_elem_of_In, list_elem_of_lookup in H as [j Hj].
    rewrite list_lookup_imap in Hj. apply fmap_Some in Hj as (ci' & Hci & [= -> ->]). by exists ci'.
  - intros (ci & Hci & E). exists (c, ci). split; [done|]. apply list_elem_of_In, filter_In. split; [|done].
    apply list_elem_of_In, list_elem_of_lookup. exists c. by rewrite list_lookup_imap, Hci.
Qed.
Lemma column_lt v c ci : columnsInfo_ v !! c = Some ci -> (c < getNumberOfColumns v)%nat.
Proof. apply lookup_lt_Some. Qed.
Lemma checkUniqueData_ok v : rectangular v -> (checkUniqueData v).1 = Ok tt <->
  forall c ci, columnsInfo_ v !! c = Some ci -> type_ ci = TYPE_UNIQUE_DATA -> NoDup (colValues (theDataView_ v) c).
Proof.
  intros Hr. cbn [checkUniqueData fst]. unfold checkUniqueData. cbn [fst]. rewrite checkAll_ok, Forall_forall. split.
  - intros H c ci Hci Ht. assert (c ∈ colsOfType v TYPE_UNIQUE_DATA) as Hc by (apply colsOfType_elem; by exists ci).
    specialize (H c Hc). apply distinctLoop_ok in H as (? & _); [done|]. by apply wide_rectangular; [|by eapply column_lt].
  - intros H c (ci & Hci & Ht)%colsOfType_elem. apply distinctLoop_ok; [by apply wide_rectangular; [|by eapply column_lt]|].
    split_and!; [by apply (H c ci)|by apply Forall_forall|]. intros x _ Hx. by apply elem_of_nil in Hx.
Qed.
Lemma checkUniqueGroupData_ok v : rectangular v -> (checkUniqueGroupData v).1 = Ok tt <->
  forall c ci g gi, columnsInfo_ v !! c = Some ci -> type_ ci = TYPE_UNIQUE_GROUP_DATA ->
    columnsInfo_ v !! g = Some gi -> isGroupID (type_ gi) = true -> NoDup (groupPairs (theDataView_ v) g c).
Proof.
  intros Hr. unfold checkUniqueGroupData. cbn [fst]. rewrite checkAll_ok, Forall_forall. split.
  - intros H c ci g gi Hci Ht Hgi Hg. assert (c ∈ colsOfType v TYPE_UNIQUE_GROUP_DATA) as Hc by (apply colsOfType_elem; by exists ci).
    specialize (H c Hc). rewrite checkAll_ok, Forall_forall in H. assert (g ∈ groupIDCols v) as Hgc by (apply groupIDCols_elem; by exists gi).
    specialize (H g Hgc). apply groupDataLoop_ok in H as [? _]; [done|by apply wide_rectangular; [|by eapply column_lt]..].
  - intros H c (ci & Hci & Ht)%colsOfType_elem. apply checkAll_ok, Forall_forall. intros g (gi & Hgi & Hg)%groupIDCols_elem.
    apply groupDataLoop_ok; [by apply wide_rectangular; [|by eapply column_lt]..|]. split; [by eapply H|]. intros p _ Hp. by apply elem_of_nil in Hp.
Qed.

(** *** The lookup of the special columns *)

Lemma initColStatus_frame v : columnsInfo_ (initColStatus v).2 = columnsInfo_ v /\ theDataView_ (initColStatus v).2 = theDataView_ v /\
  colUID_ (initColStatus v).2 = colUID_ v /\ sourceColumnNames_ (initColStatus v).2 = sourceColumnNames_ v /\ colPriority_ (initColStatus v).2 = colPriority_ v /\
  colLinkGroupIDs_ (initColStatus v).2 = colLinkGroupIDs_ v.
Proof. unfold initColStatus. by repeat case_match. Qed.
Lemma initColPriority_frame v : columnsInfo_ (initColPriority v).2 = columnsInfo_ v /\ theDataView_ (initColPriority v).2 = theDataView_ v /\
  colUID_ (initColPriority v).2 = colUID_ v /\ sourceColumnNames_ (initColPriority v).2 = sourceColumnNames_ v /\ colStatus_ (initColPriority v).2 = colStatus_ v /\
  colLinkGroupIDs_ (initColPriority v).2 = colLinkGroupIDs_ v.
Proof. unfold initColPriority. by repeat case_match. Qed.
Lemma initColUID_frame v : columnsInfo_ (initColUID v).2 = columnsInfo_ v /\ theDataView_ (initColUID v).2 = theDataView_ v.
Proof. unfold initColUID. destruct (colUID_ v); [done|]. by destruct (colUID_ (set_colUID v _)). Qed.
Lemma knowSources_frame v : columnsInfo_ (knowSources v) = columnsInfo_ v /\ theDataView_ (knowSources v) = theDataView_ v /\
  colUID_ (knowSources v) = colUID_ v /\ colStatus_ (knowSources v) = colStatus_ v /\ colPriority_ (knowSources v) = colPriority_ v.
Proof. unfold knowSources. by case_bool_decide. Qed.
Lemma prepared_frame v : columnsInfo_ (prepared v) = columnsInfo_ v /\ theDataView_ (prepared v) = theDataView_ v /\
  colUID_ (prepared v) = colUID_ (initColUID v).2.
Proof.
  unfold prepared. pose proof (initColUID_frame v) as (A1 & A2). set (v1 := (initColUID v).2) in *.
  pose proof (initColStatus_frame v1) as (B1 & B2 & B3 & _). set (v2 := (initColStatus v1).2) in *.
  pose proof (initColPriority_frame v2) as (C1 & C2 & C3 & _). set (v3 := (initColPriority v2).2) in *.
  pose proof (knowSources_frame v3) as (D1 & D2 & D3 & _). split_and!; congruence.
Qed.
(** What was looked up is found again. *)
Lemma status_known v w : columnsInfo_ w = columnsInfo_ v -> colStatus_ w = colStatus_ (initColStatus v).2 -> statusKnown w.
Proof.
  unfold statusKnown, initColStatus, columnNamed. intros Hc. rewrite Hc. destruct (colStatus_ v) as [c|] eqn:E; cbn; [by rewrite E; intros ->|].
  destruct (search _ _); cbn; [by intros ->|]. destruct (search _ _); cbn; [by intros ->|]. rewrite E. by intros ->.
Qed.
Lemma priority_known v w : columnsInfo_ w = columnsInfo_ v -> colPriority_ w = colPriority_ (initColPriority v).2 -> priorityKnown w.
Proof.
  unfold priorityKnown, initColPriority, findCol. intros Hc. rewrite Hc. destruct (colPriority_ v) as [c|] eqn:E; cbn; [by rewrite E; intros ->|].
  destruct (search _ _); cbn; [by intros ->|]. rewrite E. by intros ->.
Qed.
Lemma prepared_known v w : columnsInfo_ w = columnsInfo_ v -> colStatus_ w = colStatus_ (prepared v) -> colPriority_ w = colPriority_ (prepared v) ->
  statusKnown w /\ priorityKnown w.
Proof.
  unfold prepared. pose proof (initColUID_frame v) as (A1 & A2). set (v1 := (initColUID v).2) in *.
  pose proof (initColStatus_frame v1) as (B1 & B2 & B3 & B4 & B5 & _). set (v2 := (initColStatus v1).2) in *.
  pose proof (initColPriority_frame v2) as (C1 & C2 & C3 & C4 & C5 & _). set (v3 := (initColPriority v2).2) in *.
  pose proof (knowSources_frame v3) as (D1 & D2 & D3 & D4 & D5). intros Hc Hs Hp. split.
  - apply (status_known v1); [congruence|]. fold v2. congruence.
  - apply (priority_known v2); [congruence|]. fold v3. congruence.
Qed.
Lemma prepared_sources v : columnsInfo_ v <> [] -> sourceColumnNames_ (prepared v) <> ∅.
Proof.
  unfold prepared. pose proof (initColUID_frame v) as (A1 & A2). set (v1 := (initColUID v).2) in *.
  pose proof (initColStatus_frame v1) as (B1 & _). set (v2 := (initColStatus v1).2) in *.
  pose proof (initColPriority_frame v2) as (C1 & _). set (v3 := (initColPriority v2).2) in *. intros Hv.
  unfold knowSources. case_bool_decide as H; [|done]. cbn. unfold getColumnStorageNames. rewrite C1, B1, A1.
  destruct (columnsInfo_ v) as [|ci l]; [done|]. cbn. intros He. apply (not_elem_of_empty (C := gset text) (storageName_ ci)). rewrite <- He. set_solver.
Qed.

(** A view that was not yet verified, or whose identifiers are known. *)
Definition uidColumn v : Prop := forall c, colUID_ v = Some c -> exists ci, columnsInfo_ v !! c = Some ci /\ type_ ci = TYPE_UID.
Lemma initColUID_found v : uidColumn v -> is_ok (initColUID v).1 = true ->
  exists c ci, colUID_ (initColUID v).2 = Some c /\ columnsInfo_ v !! c = Some ci /\ type_ ci = TYPE_UID.
Proof.
  unfold uidColumn, initColUID. destruct (colUID_ v) as [c|] eqn:E.
  - intros H _. destruct (H c eq_refl) as (ci & ? & ?). by exists c, ci.
  - destruct (findColByType v TYPE_UID 0) as [c|] eqn:F; [|done]. intros _ _. apply findColByType_some in F as [(_ & ci & ? & ?) _].
    by exists c, ci.
Qed.

(** What [init] leaves in each column. *)
Definition sanitized v v' : Prop := columnsInfo_ v' = columnsInfo_ v /\ map length (theDataView_ v') = map length (theDataView_ v) /\
  forall c ci, columnsInfo_ v !! c = Some ci ->
    Forall (fun x => is_Some (cellRule ci (rowDefault ci) x)) (colValues (theDataView_ v) c) /\
    colValues (theDataView_ v') c = map (fun x => default [] (cellRule ci (rowDefault ci) x)) (colValues (theDataView_ v) c).

Lemma init_columns v v' : rectangular v -> (exists ix,
    checkColumns getenv systemVariables_ expansionFuel (defaultsOf (prepared v)) (seq 0 (getNumberOfColumns v)) (mkIndices [] [])
      (set_defaults (prepared v) (defaultsOf (prepared v))) = (Ok ix, v') /\ NoDup (groupIdIndexes ix) /\ NoDup (childLinkIdLabels ix)) ->
  let u := set_defaults (prepared v) (defaultsOf v) in
  v' = set_links (set_data u (theDataView_ v')) (linksOf u (seq 0 (getNumberOfColumns v)) (colLinkGroupIDs_ u)) /\
  sanitized v v' /\ NoDup (indicesOf v Group) /\ NoDup (indicesOf v LinkID) /\
  forall c ci, columnsInfo_ v !! c = Some ci -> hasMate v' c ci /\ (unlimited ci = false -> limitsOK v' c ci).
Proof.
  pose proof (prepared_frame v) as (P1 & P2 & P3). intros Hr (ix & Hk & Hg & Hl) u.
  assert (defaultsOf (prepared v) = defaultsOf v) as Ed by (unfold defaultsOf; by rewrite P1). rewrite Ed in Hk. fold u in Hk.
  assert (columnsInfo_ u = columnsInfo_ v) as Cu by exact P1. assert (theDataView_ u = theDataView_ v) as Du by exact P2.
  assert (getNumberOfColumns u = getNumberOfColumns v) as Nu by (unfold getNumberOfColumns; by rewrite Cu).
  apply checkColumns_sound in Hk as (Ev & Ei & El & _ & Hc); [|by apply NoDup_seq|unfold rectangular; by rewrite Nu, Du| |].
  2: { unfold defaultsOf. rewrite length_map. by rewrite Nu. }
  2: { apply Forall_forall. intros c Hc%elem_of_seq. rewrite Nu. lia. }
  assert (columnsInfo_ v' = columnsInfo_ v) as Cv' by (rewrite Ev; exact Cu).
  rewrite <- Nu, ixOf_all in Ei. subst ix. cbn [groupIdIndexes childLinkIdLabels] in Hg, Hl. unfold indicesOf in Hg, Hl. rewrite Cu in Hg, Hl.
  assert (forall c ci, columnsInfo_ v !! c = Some ci -> columnChecked getenv systemVariables_ expansionFuel u v' c ci (rowDefault ci)) as Hcol.
  { intros c ci Hci. apply Hc; [apply elem_of_seq; pose proof (column_lt v c ci Hci); lia|by rewrite Cu|].
    unfold defaultsOf. change (map rowDefault ?l) with (rowDefault <$> l). by rewrite list_lookup_fmap, Hci. }
  split_and!; [exact Ev| |done|done|].
  - split_and!; [done|by rewrite <- El, Du|]. intros c ci Hci. destruct (Hcol c ci Hci) as [K1 K2 _ _]. by rewrite Du in K1, K2.
  - intros c ci Hci. destruct (Hcol c ci Hci) as [_ _ K3 K4]. split; [|done]. intros Hk. destruct (K3 Hk) as [q Hq]. exists q.
    rewrite Ev. exact Hq.
Qed.
Lemma init_wellFormed v v' : uidColumn v -> init v = (Ok tt, v') -> wellFormed v' /\ sanitized v v'.
Proof.
  intros Hu (HN & HU & [HC1 HC2] & HA & HT & HI & HD & HG & HR & HK)%init_inv.
  pose proof (prepared_frame v) as (P1 & P2 & P3).
  destruct (init_columns v v' HR HK) as (Ev & [Cv [Lv HS]] & Hg & Hl & Hm). clear HK.
  destruct (initColUID_found v Hu HU) as (uc & uci & Huc & Huci & Hut). rewrite <- P3 in Huc.
  set (u := set_defaults (prepared v) (defaultsOf v)) in *.
  assert (rectangular (prepared v)) as HRw by (unfold rectangular, getNumberOfColumns; by rewrite P1, P2).
  assert (rectangular v') as HR' by by apply (rectangular_lengths v v').
  assert (getNumberOfColumns v' = getNumberOfColumns v) as Nv by (unfold getNumberOfColumns; by rewrite Cv).
  assert (forall c ci, columnsInfo_ v !! c = Some ci -> kindOf ci = Plain \/ kindOf ci = Group -> colValues (theDataView_ v') c = colValues (theDataView_ (prepared v)) c) as Hsame.
  { intros c ci Hci Hk. destruct (HS c ci Hci) as [_ ->]. rewrite P2. apply rules_id, Forall_forall. intros x _. by apply cellRule_keeps. }
  split; [|by split_and!]. constructor; try rewrite Cv; try done.
  - unfold soleColumn, namedColumn, getNumberOfColumns in *. rewrite P1 in HC1, HC2. rewrite Cv. done.
  - unfold soleColumn, getNumberOfColumns in *. rewrite P1 in HA. rewrite Cv. done.
  - unfold soleColumn, getNumberOfColumns in *. rewrite P1 in HT. rewrite Cv. done.
  - exists uc, uci. assert (colUID_ v' = Some uc) as Hv' by (rewrite Ev; exact Huc). split_and!; [done|done|done|..].
    all: unfold checkUIDs in HI; cbn [fst] in HI; rewrite Huc in HI; apply distinctLoop_ok in HI as (I1 & I2 & _);
      [|apply wide_rectangular; [done|]; apply (column_lt _ _ uci); by rewrite P1].
    all: rewrite (Hsame uc uci); [done|done|left; apply kindOf_type; by left].
  - intros c ci Hci Ht. rewrite (Hsame c ci); [|done|left; apply kindOf_type; by right; left].
    rewrite checkUniqueData_ok in HD by done. apply (HD c ci); [by rewrite P1|done].
  - intros c ci g gi Hci Ht Hgi Hgt. rewrite (groupPairs_ext _ (theDataView_ (prepared v)) g c).
    + rewrite checkUniqueGroupData_ok in HG by done. apply (HG c ci g gi); rewrite ?P1; done.
    + apply (Hsame g gi Hgi). right. by apply kindOf_group.
    + apply (Hsame c ci Hci). left. apply kindOf_type. by right; right.
  - intros c ci Hci. destruct (HS c ci Hci) as [K1 ->]. by apply rules_idem.
  - intros c ci Hci. by apply Hm.
  - intros c ci Hci. by apply Hm.
  - unfold indicesOf. by rewrite Cv.
  - unfold indicesOf. by rewrite Cv.
  - rewrite Ev. done.
  - intros c ci Hci Hk. rewrite Ev. cbn. apply linksOf_lookup; [exact (eq_trans (f_equal (fun l => l !! c) P1) Hci)|done| |].
    + unfold indicesOf. change (columnsInfo_ u) with (columnsInfo_ (prepared v)). by rewrite P1.
    + left. apply elem_of_seq. pose proof (column_lt v c ci Hci). lia.
  - apply (prepared_known v); [done|by rewrite Ev|by rewrite Ev].
  - apply (prepared_known v); [done|by rewrite Ev|by rewrite Ev].
  - rewrite Ev. cbn. apply prepared_sources. intros E. by rewrite E in Huci.
Qed.

(** *** Link columns

    The branch of [init] that would check link columns follows another one for
    the same columns and never runs.  It asks for what is required here: text
    as the data type, a link id as the mate, one spelling of no link, different
    link indices. *)
Definition noLinkSpellings : list text := map txt ["NoLink"; "No_Link"; "NOLINK"; "Nolink"; "nolink"; "noLink"]%string.
Record tidyLinks v : Prop := {
  tl_columns c ci : columnsInfo_ v !! c = Some ci -> kindOf ci = Link ->
    dataType_ ci = DATATYPE_STRING /\ (exists p, getChildLink v c = Ok (Some p)) /\
    Forall (fun x => x ∉ noLinkSpellings) (colValues (theDataView_ v) c);
  tl_indices : NoDup (indicesOf v Link);
}.
Lemma getChildLink_columns v v' c : columnsInfo_ v' = columnsInfo_ v -> getChildLink v' c = getChildLink v c.
Proof. intros H. unfold getChildLink, otherColumn, columnAt, getNumberOfColumns. by rewrite H. Qed.
Lemma tidyLinks_kept v v' : sanitized v v' -> tidyLinks v -> tidyLinks v'.
Proof.
  intros (Cv & _ & HS) [Hc Hi]. split.
  - intros c ci. rewrite Cv. intros Hci Hk. destruct (Hc c ci Hci Hk) as (H1 & [p H2] & H3). split_and!; [done| |].
    + exists p. by rewrite (getChildLink_columns v v' c Cv).
    + destruct (HS c ci Hci) as [Hsome ->]. rewrite rules_id; [done|]. eapply Forall_impl; [exact Hsome|]. cbn. intros x [y Hy].
      rewrite Hy. f_equal. unfold cellRule in Hy. rewrite Hk in Hy. by destruct (_ || _); [injection Hy as <-|].
  - unfold indicesOf. by rewrite Cv.
Qed.

(** ** [init] accepts the invariant *)

Lemma afterColumn_fixed v c ci d : wide c (theDataView_ v) -> Forall (fun x => cellRule ci d x = Some x) (colValues (theDataView_ v) c) ->
  (kindOf ci = Group -> colLinkGroupIDs_ v !! linkIndex ci = Some c) -> afterColumn v c ci d = v.
Proof.
  intros Hw HF Hl. unfold afterColumn. rewrite rewriteRows_id by done.
  assert (linksStep ci c (colLinkGroupIDs_ v) = colLinkGroupIDs_ v) as ->; [|apply set_id].
  unfold linksStep. destruct (kindOf ci); try done. by apply insert_id, Hl.
Qed.
Lemma checkColumns_accepts v cols : wellFormed v -> Forall (fun c => (c < getNumberOfColumns v)%nat) cols -> forall ix,
  checkColumns getenv systemVariables_ expansionFuel (rowDefaultValues_ v) cols ix v = (Ok (ixOf v cols ix), v).
Proof.
  intros W. induction 1 as [|c cols Hc _ IH]; intros ix; cbn [TableInit.checkColumns]; [done|].
  destruct (lookup_lt_is_Some_2 (columnsInfo_ v) c Hc) as [ci Hci].
  assert (rowDefaultValues_ v !! c = Some (rowDefault ci)) as Hd.
  { rewrite (wf_defaults v W). change (map rowDefault ?l) with (rowDefault <$> l). by rewrite list_lookup_fmap, Hci. }
  pose proof (wide_rectangular v c (wf_rectangular v W) Hc) as Hw.
  rewrite (ixOf_cons v c cols ix ci Hci). rewrite <- IH. apply (bind_ok (checkColumn _ _ _ _ _ _)).
  apply (checkColumn_inv getenv systemVariables_ expansionFuel _ ix c v (ixStep ci ix) v ci (rowDefault ci) Hw Hci Hd).
  pose proof (wf_values v W c ci Hci) as HF. split_and!; [|by apply (wf_mates v W)|by apply (wf_limits v W)|done|].
  - eapply Forall_impl; [exact HF|]. cbn. intros x ->. by eexists.
  - symmetry. apply afterColumn_fixed; [done|done|by apply (wf_links v W)].
Qed.
Lemma prepared_fixed v : wellFormed v -> prepared v = v /\ is_ok (initColUID v).1 = true.
Proof.
  intros W. destruct (wf_uid v W) as (c & ci & Hc & _). unfold prepared, initColUID. rewrite Hc. cbn [fst snd is_ok]. split; [|done].
  rewrite (wf_status v W), (wf_priority v W). unfold knowSources. rewrite bool_decide_eq_false_2; [done|]. apply (wf_sources v W).
Qed.
Lemma wellFormed_accepted v : wellFormed v -> init v = (Ok tt, v).
Proof.
  intros W. destruct (prepared_fixed v W) as [Ep HU]. apply init_inv. rewrite Ep.
  assert (set_defaults v (defaultsOf v) = v) as Es by (unfold defaultsOf; rewrite <- (wf_defaults v W); by destruct v).
  pose proof (wf_rectangular v W) as HR. destruct (wf_uid v W) as (c & ci & Hc & Hci & _ & I1 & I2).
  split_and!; [apply (wf_names v W)|done|apply (wf_comment v W)|apply (wf_comment v W)|apply (wf_author v W)|apply (wf_timestamp v W)|..|done|].
  - unfold checkUIDs. cbn [fst]. rewrite Hc. apply distinctLoop_ok; [by apply wide_rectangular; [|by eapply column_lt]|].
    split_and!; [done|done|]. intros x _ Hx. by apply elem_of_nil in Hx.
  - apply checkUniqueData_ok; [done|apply (wf_unique v W)].
  - apply checkUniqueGroupData_ok; [done|apply (wf_groups v W)].
  - rewrite Es. unfold defaultsOf. rewrite <- (wf_defaults v W). eexists. split.
    + apply checkColumns_accepts; [done|]. apply Forall_forall. intros k Hk%elem_of_seq. lia.
    + rewrite ixOf_all. split; [apply (wf_groupIDs v W)|apply (wf_linkIDs v W)].
Qed.
End Invariant.

(** ** The theorems *)

(** C11: a view with tidy link columns that [init] accepts satisfies the
    invariant: different column names, rows of one width, comment, author and
    time as the last columns, different legal identifiers, unique data (in each
    group), fixed choices kept, booleans with one of their two values, link ids
    with a mate and not empty unless their default is, numbers within their
    limits (where arbitrary choices do not lift them), different link indices
    that are looked up right, defaults and special columns known; the links
    stay tidy; and [init] changes nothing but the cells of booleans and link
    ids, as [cellRule] says.  Tidy ([tidyLinks]) is what [init] means to check
    or to bring about in the link columns themselves and does not, since the
    branch never runs (untidy_accepted): text as the data type, a link id as
    the mate, "NO_LINK" the only spelling of no link, and different link
    indices.  If the identifier column is already known, it is one
    ([uidColumn]). *)
Theorem init_establishes getenv systemVariables_ expansionFuel v v' : uidColumn v -> tidyLinks v ->
  init getenv systemVariables_ expansionFuel v = (Ok tt, v') ->
  wellFormed getenv systemVariables_ expansionFuel v' /\ tidyLinks v' /\ sanitized v v'.
Proof. intros Hu Ht H. destruct (init_wellFormed _ _ _ v v' Hu H) as [W S]. split_and!; [done|by eapply tidyLinks_kept|done]. Qed.

(** C12: the views that [init] accepts without a change are exactly those with
    the invariant; so a second verification of a view finds nothing and changes
    nothing. *)
Theorem init_fixpoint getenv systemVariables_ expansionFuel v : uidColumn v ->
  init getenv systemVariables_ expansionFuel v = (Ok tt, v) <-> wellFormed getenv systemVariables_ expansionFuel v.
Proof.
  intros Hu. split; [|apply wellFormed_accepted]. intros H. by apply (init_wellFormed _ _ _ v v Hu).
Qed.

(** ** Concrete runs *)

Definition noEnv : text -> option text := fun _ => None.
Definition choices (l : list string) (ci : TableViewColumnInfo) : TableViewColumnInfo :=
  mkColumn (type_ ci) (name_ ci) (storageName_ ci) (dataType_ ci) (defaultValue_ ci) (map txt l) (minValue_ ci) (maxValue_ ci) (bitMapInfoP_ ci).
Definition limits (min max : string) (ci : TableViewColumnInfo) : TableViewColumnInfo :=
  mkColumn (type_ ci) (name_ ci) (storageName_ ci) (dataType_ ci) (defaultValue_ ci) (dataChoices_ ci) (txt min) (txt max) (bitMapInfoP_ ci).
(** A table with each kind of column. *)
Definition kinds : list TableViewColumnInfo :=
  [column "UID" "UID" "STRING" "DEFAULT"; column "OnOff" "Status" "STRING" "0";
   column "ChildLink-FE" "LinkToFE" "STRING" "NO_LINK"; column "ChildLinkUID-FE" "LinkToFEUID" "STRING" "NO_LINK";
   column "GroupID-DTC" "Group" "STRING" ""; column "UniqueGroupData" "Port" "STRING" "";
   choices ["fast"; "slow"]%string (column "FixedChoiceData" "Speed" "STRING" "fast");
   limits "0" "2*50" (column "Data" "Level" "NUMBER" "0");
   column "Comment" "CommentDescription" "STRING" ""; column "Author" "Author" "STRING" ""; column "Timestamp" "Time" "TIMESTAMP WITH TIMEZONE" "0"].
Definition kindsRow (uid status link id group port speed level : string) : list text :=
  [txt uid; txt status; txt link; txt id; txt group; txt port; txt speed; txt level; txt "none"; txt "admin"; txt "0"].
Definition withLink (link : string) : TableView :=
  mkView [] (txt "FE_TABLE") (TableVersion.Mk 1) [] [] 0 0 [] None None None ∅ false false [] 0 0 ∅ kinds
    [kindsRow "FE1" "1" "FETable" "" "A | B" "P1" "slow" "7"; kindsRow "FE2" "off" link "x" "C" "P1" "fast" "3*20"].
Definition unverified : TableView := withLink "NoLink".
Definition verified : TableView := (init noEnv ∅ 100 unverified).2.

Lemma unverified_uid : uidColumn unverified.
Proof. intros c. done. Qed.
Lemma unverified_ok : init noEnv ∅ 100 unverified = (Ok tt, verified).
Proof. assert ((init noEnv ∅ 100 unverified).1 = Ok tt) as H by by vm_compute. unfold verified. by destruct (init noEnv ∅ 100 unverified) as [r v]; cbn in H; subst. Qed.
(** The same with the spelling that is kept. *)
Definition tidy : TableView := withLink "NO_LINK".
Lemma tidy_ok : init noEnv ∅ 100 tidy = (Ok tt, (init noEnv ∅ 100 tidy).2).
Proof. assert ((init noEnv ∅ 100 tidy).1 = Ok tt) as H by by vm_compute. by destruct (init noEnv ∅ 100 tidy) as [r v]; cbn in H; subst. Qed.
Lemma tidy_tidyLinks : tidyLinks tidy.
Proof.
  split; [|vm_compute; repeat constructor; by intros ?%elem_of_nil].
  assert (Forall (fun p => kindOf p.2 = Link -> dataType_ p.2 = DATATYPE_STRING /\ (exists q, getChildLink tidy p.1 = Ok (Some q)) /\
    Forall (fun x => x ∉ noLinkSpellings) (colValues (theDataView_ tidy) p.1)) (imap pair kinds)) as H.
  { repeat (constructor; [first [by vm_compute|intros _; split_and!; [by vm_compute|eexists; by vm_compute|]]|]); [|constructor].
    repeat constructor; apply (bool_decide_unpack _); by vm_compute. }
  intros c ci Hci. rewrite Forall_forall in H. apply (H (c, ci)). apply list_elem_of_lookup. exists c. rewrite list_lookup_imap. change (kinds !! c = Some ci) in Hci. by rewrite Hci.
Qed.
Lemma init_establishes_witness :
  wellFormed noEnv ∅ 100 (init noEnv ∅ 100 tidy).2 /\ sanitized tidy (init noEnv ∅ 100 tidy).2 /\
  colValues (theDataView_ (init noEnv ∅ 100 tidy).2) 1 = [txt "On"; txt "Off"] /\
  colValues (theDataView_ (init noEnv ∅ 100 tidy).2) 3 = [txt "NO_LINK"; txt "x"].
Proof.
  assert (uidColumn tidy) as Hu by done.
  destruct (init_establishes noEnv ∅ 100 tidy (init noEnv ∅ 100 tidy).2 Hu tidy_tidyLinks tidy_ok) as (W & _ & S).
  split_and!; [exact W|exact S|by vm_compute|by vm_compute].
Defined.
Lemma verified_uid : uidColumn verified.
Proof. intros c Hc. assert (colUID_ verified = Some 0%nat) as E by by vm_compute. rewrite E in Hc. injection Hc as <-. eexists. by vm_compute. Qed.
Lemma init_fixpoint_witness : init noEnv ∅ 100 verified = (Ok tt, verified) /\ ~ wellFormed noEnv ∅ 100 unverified.
Proof.
  split.
  - apply (init_fixpoint noEnv ∅ 100 verified verified_uid). exact (proj1 (init_wellFormed noEnv ∅ 100 unverified verified unverified_uid unverified_ok)).
  - intros H. apply (init_fixpoint noEnv ∅ 100 unverified unverified_uid) in H.
    assert (theDataView_ (init noEnv ∅ 100 unverified).2 = theDataView_ unverified) as E by by rewrite H. by vm_compute in E.
Defined.

(** The spellings of no link are never brought to one: the branch that does it
    follows another one for the same columns. *)
Lemma noLink_stays : cell verified 1 2 = Ok (txt "NoLink").
Proof. by vm_compute. Qed.
(** Nor is a link column refused whose mate is missing. *)
Lemma untidy_accepted :
  let v := set_data (set_columns unverified (column "ChildLink-DTC" "LinkToDTC" "STRING" "NO_LINK" :: kinds)) [txt "NO_LINK" :: kindsRow "FE1" "1" "FETable" "" "A" "P1" "slow" "7"] in
  (init noEnv ∅ 100 v).1 = Ok tt /\ getChildLink v 0 = Throw RuntimeError.
Proof. by vm_compute. Qed.
(** Choices with arbitrary values allowed skip the limits as well. *)
Lemma arbitrary_unlimited :
  let ci := limits "0" "9" (choices ["arbitraryBool=1"; "1"]%string (column "FixedChoiceData" "Gain" "NUMBER" "1")) in
  let v := set_data (set_columns unverified (ci :: kinds)) [txt "77" :: kindsRow "FE1" "1" "FETable" "" "A" "P1" "slow" "7"] in
  (init noEnv ∅ 100 v).1 = Ok tt /\ ~ limitsOK noEnv ∅ 100 v 0 ci.
Proof. split; [by vm_compute|]. unfold limitsOK. by vm_compute. Qed.
(** [init] reads TRUE as on, [getValueAsString] as off. *)
Lemma excel_bool_differs :
  canonicalBool TYPE_ON_OFF (txt "TRUE") = Some TYPE_VALUE_ON /\ boolText TYPE_ON_OFF (txt "TRUE") = Some TYPE_VALUE_OFF.
Proof. by vm_compute. Qed.
End TableInvariant.
