(* ===== verification/TableBase.v ===== *)
(** * The versions of a table

    src/otsdaq/TableCore/TableBase.cc and .h: a table keeps the views of its
    versions in a map, one of them active, and drops the views that were not
    used for the longest time.  Versions are ordered as unsigned numbers, so
    that the temporary ones, which print as negative numbers, come last.

    [activeTableView_] is a pointer into the map: here the key of the view it
    points to, and reading it when that view is gone is undefined.  A call that
    makes a view reads the clock when it constructs it ([created]) and when it
    copies into it ([now]). *)

From Stdlib Require Import Sorted.
From S2P Require Import Prelude OrderedMap CText Versions StringMacros StringLists StringExpansion Doubles TableViewColumnInfo TableView TableRows TableInit.

#[export] Instance TableVersion_ordered : Ordered TableVersion.TableVersion := TableVersion.ltb.
#[export] Instance TableVersion_laws : OrderedLaws TableVersion.TableVersion.
Proof.
  split; unfold key_lt, TableVersion_ordered, TableVersion.ltb.
  - intros k. apply Z.ltb_irrefl.
  - intros i j k. rewrite !Z.ltb_lt. lia.
  - intros [i] [j]. rewrite !Z.ltb_ge. cbn. intros H1 H2. f_equal. lia.
Qed.

Module TableBase.
Import OrderedMap TableVersion TableViewColumnInfo TableView TableRows TableInit.
Abbreviation version := TableVersion.TableVersion.
Abbreviation view := TableView.TableView.

Record TableBase := mkBase {
  MAX_VIEWS_IN_CACHE : Z;
  tableName_ : text;
  activeTableView_ : option version;
  mockupTableView_ : view;
  tableViews_ : list (version * view);
}.
Implicit Types s : TableBase.

Definition set_active s active := mkBase (MAX_VIEWS_IN_CACHE s) (tableName_ s) active (mockupTableView_ s) (tableViews_ s).
Definition set_views s views := mkBase (MAX_VIEWS_IN_CACHE s) (tableName_ s) (activeTableView_ s) (mockupTableView_ s) views.

(** The size of the cache is chosen by the constructor. *)
Definition BACKBONE_MEMBER_MAX_VIEWS_IN_CACHE : Z := 100.
Definition maxViews (tableName : text) : Z :=
  if textEq tableName (txt "GroupAliasesTable") || textEq tableName (txt "VersionAliasesTable") then BACKBONE_MEMBER_MAX_VIEWS_IN_CACHE else 20.

(** ** The active view *)

Definition isStored s (v : version) : bool := stored (tableViews_ s) v.
Definition deactivate : M TableBase unit := modify (fun s => set_active s None).
Definition isActive s : bool := match activeTableView_ s with Some _ => true | None => false end.
(** [getView] and [getViewP]; the version INVALID asks for the active view. *)
Definition activeView s : result view :=
  match activeTableView_ s with
  | None => Throw RuntimeError
  | Some v => match find (tableViews_ s) v with Some w => Ok w | None => Throw Undefined end
  end.
Definition getView s (v : version) : result view :=
  if neqb_uint v INVALID then match find (tableViews_ s) v with Some w => Ok w | None => Throw RuntimeError end else activeView s.
Definition getViewVersion s : result version := w ← getView s TableVersion.default; Ok (TableView.version_ w).
Definition activeIs s (v : version) : result bool :=
  match activeTableView_ s with None => Ok false | Some _ => w ← getViewVersion s; Ok (eqb w v) end.
Definition setActiveView (v : version) : M TableBase bool :=
  s ← gets id;
  match find (tableViews_ s) v with
  | None => throw RuntimeError
  | Some w => modify (fun s => set_active s (Some v)) ≫= fun _ => if neqb (TableView.version_ w) v then throw RuntimeError else mret true
  end.

(** ** Which versions there are *)

Definition getStoredVersions s : list version := keys (tableViews_ s).
Definition countsAsStored (v : version) : bool := negb (isTemporaryVersion v) && negb (isInvalid v).
Definition getNumberOfStoredViews s : Z := Z.of_nat (length (List.filter (fun p => countsAsStored p.1) (tableViews_ s))).
Definition latestAndMockupColumnNumberMismatch s : bool :=
  match last (tableViews_ s) with
  | Some (v, w) => if isTemporaryVersion v then true else negb (getNumberOfColumns w =? getNumberOfColumns (mockupTableView_ s))%nat
  | None => true
  end.
Definition getNextTemporaryVersion s : result version :=
  let v := match tableViews_ s with
           | (first, _) :: _ =>
               if isTemporaryVersion first then TableVersion.getNextTemporaryVersion first else TableVersion.getNextTemporaryVersion TableVersion.default
           | [] => TableVersion.getNextTemporaryVersion TableVersion.default
           end in
  if isStored s v || isInvalid v || negb (isTemporaryVersion v) then Throw RuntimeError else Ok v.
Definition getNextVersion s : result version :=
  let v := match last (tableViews_ s) with
           | Some (latest, _) => if isTemporaryVersion latest then TableVersion.getNextVersion TableVersion.default else TableVersion.getNextVersion latest
           | None => TableVersion.getNextVersion TableVersion.default
           end in
  if isStored s v || isInvalid v || isTemporaryVersion v then Throw RuntimeError else Ok v.
Definition getTemporaryView s (v : version) : result view :=
  match find (tableViews_ s) v with Some w => if isTemporaryVersion v then Ok w else Throw RuntimeError | None => Throw RuntimeError end.

(** ** Removal *)

Definition deactivateIf (v : version) : M TableBase unit :=
  s ← gets id; active ← lift (activeIs s v); if (active : bool) then deactivate else mret tt.
Definition removeView (v : version) : M TableBase unit :=
  deactivateIf v ≫= fun _ => modify (fun s => set_views s (erase (tableViews_ s) v)).
Definition eraseView (v : version) : M TableBase bool :=
  s ← gets id; if isStored s v then removeView v ≫= fun _ => mret true else mret false.

(** The version that was not used for the longest time, or the first one when
    all have to go; -1 is "none yet". *)
Fixpoint stalest (trimSize : Z) (views : list (version * view)) (found : version * Z) : version :=
  match views with
  | [] => found.1
  | (v, w) :: views =>
      if isTemporaryVersion v then stalest trimSize views found
      else if (found.2 =? -1) || (lastAccessTime_ w <? found.2) then
        if trimSize =? 0 then v else stalest trimSize views (v, lastAccessTime_ w)
      else stalest trimSize views found
  end.
(** The fuel is the number of views: each round removes one. *)
Fixpoint trimLoop (fuel : nat) (trimSize : Z) : M TableBase unit :=
  s ← gets id;
  if negb (trimSize <? getNumberOfStoredViews s) then mret tt
  else
    match fuel with
    | O => throw Undefined
    | S fuel =>
        let v := stalest trimSize (tableViews_ s) (TableVersion.default, -1) in
        if isInvalid v then throw RuntimeError else eraseView v ≫= fun _ => trimLoop fuel trimSize
    end.
Definition trimCache (trimSize : Z) : M TableBase unit :=
  s ← gets id;
  trimLoop (length (tableViews_ s)) (if trimSize =? u32 (-1) then MAX_VIEWS_IN_CACHE s else trimSize).
Definition trimTemporary (target : version) : M TableBase unit :=
  s ← gets id;
  if isInvalid target then forEach (keys (tableViews_ s)) (fun v => if isTemporaryVersion v then removeView v else mret tt)
  else if isTemporaryVersion target then eraseView target ≫= fun _ => mret tt
  else throw RuntimeError.
Definition reset (keepTemporaryVersions : bool) : M TableBase unit :=
  deactivate ≫= fun _ => if keepTemporaryVersions then trimCache 0 else modify (fun s => set_views s []).

(** ** New views *)

(** [emplace(version, TableView(tableName_))]: the view is constructed first. *)
Definition emplaceView (v : version) (created : Z) : M TableBase unit :=
  s ← gets id;
  w ← lift (construct (tableName_ s) created);
  modify (fun s => set_views s (emplace (tableViews_ s) v w)).
(** A member function of the view [tableViews_.at(version)]. *)
Definition onView {A} (v : version) (m : M view A) : M TableBase A := fun s =>
  match find (tableViews_ s) v with
  | None => (Throw OutOfRange, s)
  | Some w => let '(r, w') := m w in (r, set_views s (update (tableViews_ s) v (fun _ => w')))
  end.
Definition copyInto (v : version) (source : view) (author : text) (created now : Z) : M TableBase unit :=
  emplaceView v created ≫= fun _ => onView v (copy source v author now).

Definition setupMockupView (v : version) (created now : Z) : M TableBase unit :=
  s ← gets id;
  if isStored s v then throw RuntimeError
  else
    copyInto v (mockupTableView_ s) (author_ (mockupTableView_ s)) created now ≫= fun _ =>
    trimCache (u32 (-1)) ≫= fun _ =>
    s ← gets id; if isStored s v then mret tt else throw RuntimeError.

(** The first free version from the one given on downwards.  The fuel is the
    number of views and one more: every version passed is stored. *)
Fixpoint searchTemporary (fuel : nat) s (v : version) : result version :=
  if negb (isStored s v) then Ok v
  else
    let next := TableVersion.getNextTemporaryVersion v in
    if isInvalid next then Ok next
    else match fuel with O => Throw Undefined | S fuel => searchTemporary fuel s next end.
Definition startVersion (destination : version) : version :=
  if isInvalid destination then TableVersion.getNextTemporaryVersion TableVersion.default else destination.
Definition freeVersion s (destination : version) : result version := searchTemporary (S (length (tableViews_ s))) s (startVersion destination).
Definition createTemporaryView (source destination : version) (created now : Z) : M TableBase version :=
  s ← gets id;
  v ← lift (freeVersion s destination);
  if isStored s v || isInvalid v then throw RuntimeError
  else
    (match find (tableViews_ s) source with
     | Some w =>
         if eqb_uint source INVALID then copyInto v (mockupTableView_ s) (author_ (mockupTableView_ s)) created now
         else ignore (copyInto v w (author_ w) created now)
     | None =>
         if neqb_uint source (u32 (-1)) then throw RuntimeError
         else copyInto v (mockupTableView_ s) (author_ (mockupTableView_ s)) created now
     end) ≫= fun _ => mret v.

(** [copied] is the clock at the second copy. *)
Definition copyView (source : view) (destination : version) (author : text) (looseColumnMatching : bool) (created now copied : Z) : M TableBase version :=
  s ← gets id;
  if negb looseColumnMatching && negb (getNumberOfColumns source =? getNumberOfColumns (mockupTableView_ s))%nat then throw RuntimeError
  else if negb (isInvalid destination) && isStored s destination then throw RuntimeError
  else
    v ← createTemporaryView TableVersion.default destination created now;
    catch_all (copyInto v source author copied copied) (fun e => eraseView v ≫= fun _ => throw e) ≫= fun _ => mret v.

(** When both versions are the same the view is copied onto itself: [copy]
    clears the columns before it reads them. *)
Definition changeVersionAndActivateView (temporaryVersion v : version) (created now : Z) : M TableBase unit :=
  s ← gets id;
  match find (tableViews_ s) temporaryVersion with
  | None => throw RuntimeError
  | Some w =>
      if isInvalid v then throw RuntimeError
      else
        copyInto v (if eqb temporaryVersion v then set_columns w [] else w) (author_ w) created now ≫= fun _ =>
        setActiveView v ≫= fun _ =>
        eraseView temporaryVersion ≫= fun _ => mret tt
  end.

(** ** Sequences of calls

    [perform] is one call from outside; a call that throws leaves the state as
    it is at the throw, and the next call starts from there. *)

Inductive call :=
| SetActiveView (v : version)
| EraseView (v : version)
| TrimCache (trimSize : Z)
| TrimTemporary (target : version)
| Reset (keepTemporaryVersions : bool)
| Deactivate
| SetupMockupView (v : version) (created now : Z)
| CreateTemporaryView (source destination : version) (created now : Z)
| CopyView (source : view) (destination : version) (author : text) (looseColumnMatching : bool) (created now copied : Z)
| ChangeVersionAndActivateView (temporaryVersion v : version) (created now : Z).
Definition perform (c : call) : M TableBase unit :=
  match c with
  | SetActiveView v => setActiveView v ≫= fun _ => mret tt
  | EraseView v => eraseView v ≫= fun _ => mret tt
  | TrimCache trimSize => trimCache trimSize
  | TrimTemporary target => trimTemporary target
  | Reset keep => reset keep
  | Deactivate => deactivate
  | SetupMockupView v created now => setupMockupView v created now
  | CreateTemporaryView source destination created now => createTemporaryView source destination created now ≫= fun _ => mret tt
  | CopyView source destination author loose created now copied =>
      copyView source destination author loose created now copied ≫= fun _ => mret tt
  | ChangeVersionAndActivateView temporaryVersion v created now => changeVersionAndActivateView temporaryVersion v created now
  end.
(** The outcomes of the calls, and the state after the last one. *)
Fixpoint performAll (calls : list call) s : list (result unit) * TableBase :=
  match calls with
  | [] => ([], s)
  | c :: calls => let '(r, s) := perform c s in let '(rs, s) := performAll calls s in (r :: rs, s)
  end.

(** ** The invariant of the cache

    The map is ordered, every view carries the version it is filed under, and
    the active view is one of the map. *)

Definition versionsOf (c : call) : list version :=
  match c with
  | SetActiveView v | EraseView v | TrimTemporary v | SetupMockupView v _ _ => [v]
  | CreateTemporaryView v w _ _ => [v; w]
  | CopyView _ v _ _ _ _ _ => [v]
  | ChangeVersionAndActivateView v w _ _ => [v; w]
  | TrimCache _ | Reset _ | Deactivate => []
  end.
(** The arguments are of their C++ types. *)
Definition wfCall (c : call) : Prop := Forall TableVersion.wf (versionsOf c) /\ match c with TrimCache n => 0 <= n | _ => True end.

Record valid s : Prop := {
  valid_sorted : sorted (tableViews_ s);
  valid_version v w : find (tableViews_ s) v = Some w -> TableView.version_ w = v;
  valid_wf v : v ∈ keys (tableViews_ s) -> TableVersion.wf v;
  valid_active v : activeTableView_ s = Some v -> isStored s v = true;
  valid_max : 0 <= MAX_VIEWS_IN_CACHE s;
}.
#[export] Hint Resolve valid_sorted : core.

(** *** Reading the active view *)

Lemma activeView_defined s : valid s -> activeView s <> Throw Undefined.
Proof.
  intros Hs. unfold activeView. destruct (activeTableView_ s) as [v|] eqn:Hv; [|done].
  apply (valid_active _ Hs) in Hv. unfold isStored, stored in Hv. by destruct (find _ v).
Qed.
Lemma getViewVersion_active s v : valid s -> activeTableView_ s = Some v -> getViewVersion s = Ok v.
Proof.
  intros Hs Hv. pose proof (valid_active _ Hs _ Hv) as Hst. unfold getViewVersion, getView. change (neqb_uint TableVersion.default INVALID) with false.
  cbn match. unfold activeView. rewrite Hv.
  unfold isStored, stored in Hst. destruct (find _ v) as [w|] eqn:Hf; [|done]. cbn. by rewrite (valid_version _ Hs _ _ Hf).
Qed.
Definition activeAt s (v : version) : bool := match activeTableView_ s with Some a => eqb a v | None => false end.
Lemma activeIs_spec s v : valid s -> activeIs s v = Ok (activeAt s v).
Proof.
  intros Hs. unfold activeIs, activeAt. destruct (activeTableView_ s) as [a|] eqn:Ha; [|done]. by rewrite (getViewVersion_active s a).
Qed.
Lemma eqb_spec (v w : version) : reflect (v = w) (eqb v w).
Proof. unfold eqb. destruct v as [v], w as [w]. cbn. destruct (Z.eqb_spec v w); constructor; congruence. Qed.

(** *** Erasing *)

Definition removed s (v : version) : TableBase :=
  set_views (if activeAt s v then set_active s None else s) (erase (tableViews_ s) v).
Lemma removeView_run s v : valid s -> removeView v s = (Ok tt, removed s v).
Proof.
  intros Hs. unfold removeView, deactivateIf, removed, mbind, M_bind, gets, lift. cbn. rewrite activeIs_spec by done.
  destruct (activeAt s v); done.
Qed.
Lemma eraseView_run s v : valid s -> eraseView v s = (Ok (isStored s v), if isStored s v then removed s v else s).
Proof.
  intros Hs. unfold eraseView. rewrite (bind_ok (gets id) _ s s s) by done. destruct (isStored s v) eqn:Hv; [|done].
  by rewrite (bind_ok (removeView v) _ s tt (removed s v)) by by apply removeView_run.
Qed.
Lemma views_removed s v : tableViews_ (removed s v) = erase (tableViews_ s) v.
Proof. unfold removed. by destruct (activeAt s v). Qed.
Lemma max_removed s v : MAX_VIEWS_IN_CACHE (removed s v) = MAX_VIEWS_IN_CACHE s.
Proof. unfold removed. by destruct (activeAt s v). Qed.
Lemma active_removed s v : activeTableView_ (removed s v) = if activeAt s v then None else activeTableView_ s.
Proof. unfold removed. by destruct (activeAt s v). Qed.
Lemma valid_removed s v : valid s -> valid (removed s v).
Proof.
  intros Hs. constructor; rewrite ?views_removed, ?max_removed.
  - by apply sorted_erase, valid_sorted.
  - intros j w. rewrite find_erase. destruct (sameKey j v); [done|]. by apply valid_version.
  - intros j [_ Hj]%keys_erase. by apply (valid_wf _ Hs).
  - intros j. rewrite active_removed. unfold isStored. rewrite views_removed, stored_erase. unfold activeAt. intros Hj.
    destruct (activeTableView_ s) as [a|] eqn:Ha; [|done]. destruct (eqb_spec a v) as [|Hne]; [done|]. injection Hj as ->.
    destruct (sameKey_spec j v) as [|]; [done|]. by apply (valid_active _ Hs).
  - apply (valid_max _ Hs).
Qed.

(** *** Making a view *)

Lemma convertToCaps_defined str : convertToCaps str <> Throw Undefined.
Proof.
  unfold convertToCaps. generalize (@None ascii). generalize str at 1 as whole. induction str as [|c str IH]; intros whole before; cbn; [done|].
  set (here := if is_upper c then _ else _). assert (Hh : here <> Throw Undefined).
  { unfold here. destruct (is_upper c); [done|]. destruct (is_lower c); [done|]. destruct (is_digit c); [done|]. by destruct (_ && (c =? chr 95)%char). }
  destruct here as [h|e]; cbn; [|congruence]. specialize (IH whole (Some c)). destruct (capsLoop whole (Some c) str); cbn; congruence.
Qed.
Lemma construct_defined tableName created : construct tableName created <> Throw Undefined.
Proof.
  unfold construct. pose proof (convertToCaps_defined tableName) as Hd. destruct (convertToCaps tableName) as [caps|e]; cbn; [|congruence].
  by destruct (textEq tableName []).
Qed.
Lemma isSpecialTable_defined w : isSpecialTable w <> Throw Undefined.
Proof. done. Qed.

(** What [copy] does after it has copied the members leaves the version alone,
    and is defined. *)
Definition hasVersion (v : version) (w : view) : Prop := TableView.version_ w = v.
Lemma initColUID_safe v : safe (hasVersion v) initColUID.
Proof. intros w Hw. unfold initColUID. destruct (colUID_ w); [done|]. destruct (colUID_ (set_colUID _ _)); done. Qed.
Lemma initColStatus_safe v : safe (hasVersion v) initColStatus.
Proof. intros w Hw. unfold initColStatus. destruct (colStatus_ w); [done|]. by destruct (columnNamed w _), (columnNamed w COL_NAME_ENABLED). Qed.
Lemma findCol_defined w name : findCol w name <> Throw Undefined.
Proof. unfold findCol. by destruct (search _ _). Qed.
Lemma initColPriority_safe v : safe (hasVersion v) initColPriority.
Proof.
  intros w Hw. unfold initColPriority. destruct (colPriority_ w); [done|]. pose proof (findCol_defined w (StringMacros.star :: COL_NAME_PRIORITY)) as Hd.
  destruct (findCol w _) as [c|e]; cbn; split; [done..|congruence].
Qed.
Lemma initRowDefaults_safe v : safe (hasVersion v) initRowDefaults.
Proof. by intros w Hw. Qed.
Lemma safe_ignore {S A} (P : S -> Prop) (m : M S A) : safe P m -> safe P (ignore m).
Proof.
  intros Hm s Hs. destruct (Hm s Hs) as [Hk Hd]. unfold ignore, catch_if, mbind, M_bind. destruct (m s) as [[a|e] s']; cbn in *; [done|].
  destruct e; done.
Qed.
#[local] Hint Resolve initColUID_safe initColStatus_safe initColPriority_safe initRowDefaults_safe safe_ignore : keeps.
Lemma copy_version source v author now w :
  TableView.version_ (copy source v author now w).2 = v /\ (copy source v author now w).1 <> Throw Undefined.
Proof.
  unfold copy. rewrite (bind_ok (modify _) _ w tt _ eq_refl). set (w1 := set_sourceNames _ _).
  assert (H : safe (hasVersion v) (special ← (fun v => lift (isSpecialTable v) v);
    if (special : bool) then mret tt
    else initColUID ≫= fun _ => initRowDefaults ≫= fun _ => ignore initColStatus ≫= fun _ => ignore initColPriority)).
  { apply safe_bind; [|intros special; apply safe_if; eauto 10 with keeps].
    intros w' Hw'. split; [done|]. apply isSpecialTable_defined. }
  exact (H w1 eq_refl).
Qed.

(** A view [w] filed under [v]. *)
Definition put s (v : version) (w : view) : TableBase := set_views s (update (emplace (tableViews_ s) v w) v (fun _ => w)).
Lemma find_put s v w j : valid s -> find (tableViews_ (put s v w)) j = if sameKey j v then Some w else find (tableViews_ s) j.
Proof.
  intros Hs. cbn. rewrite find_updated, find_emplace by by apply valid_sorted. destruct (sameKey j v); [|done].
  by destruct (find _ v).
Qed.
Lemma isStored_put s v w j : valid s -> isStored (put s v w) j = sameKey j v || isStored s j.
Proof. intros Hs. unfold isStored, stored. rewrite find_put by done. by destruct (sameKey j v). Qed.
Lemma keys_put s v w j : j ∈ keys (tableViews_ (put s v w)) <-> j = v \/ j ∈ keys (tableViews_ s).
Proof. unfold put. cbn [tableViews_ set_views]. by rewrite keys_updated, keys_emplace. Qed.
Lemma valid_put s v w : valid s -> TableVersion.wf v -> TableView.version_ w = v -> valid (put s v w).
Proof.
  intros Hs Hv Hw. constructor.
  - by apply sorted_update, sorted_emplace, valid_sorted.
  - intros j x. rewrite find_put by done. destruct (sameKey_spec j v) as [Hj|]; [intros [= <-]; congruence|by apply valid_version].
  - intros j [->|Hj]%keys_put; [done|by apply (valid_wf _ Hs)].
  - intros j Hj. rewrite isStored_put by done. rewrite (valid_active _ Hs j Hj). apply orb_true_r.
  - apply (valid_max _ Hs).
Qed.

Lemma emplaceView_run s v created :
  emplaceView v created s =
    match construct (tableName_ s) created with
    | Ok w => (Ok tt, set_views s (emplace (tableViews_ s) v w))
    | Throw e => (Throw e, s)
    end.
Proof.
  unfold emplaceView. rewrite (bind_ok (gets id) _ s s s) by done. unfold mbind, M_bind, lift, id.
  by destruct (construct (tableName_ s) created).
Qed.

(** The view that is copied into: the one there is, or a new one. *)
Definition target s (v : version) (created : Z) : result view :=
  w ← construct (tableName_ s) created; Ok match find (tableViews_ s) v with Some w => w | None => w end.
Lemma copyInto_run s v source author created now : valid s ->
  copyInto v source author created now s =
    match target s v created with
    | Throw e => (Throw e, s)
    | Ok w => ((copy source v author now w).1, put s v (copy source v author now w).2)
    end.
Proof.
  intros Hs. unfold copyInto, target. destruct (construct (tableName_ s) created) as [new|e] eqn:Hc.
  - cbn [mbind result_bind]. set (w := match find (tableViews_ s) v with Some w => w | None => new end).
    rewrite (bind_ok (emplaceView v created) _ s tt (set_views s (emplace (tableViews_ s) v new)))
      by (rewrite emplaceView_run; by rewrite Hc).
    unfold onView. cbn [tableViews_ set_views]. rewrite find_emplace, sameKey_refl by by apply valid_sorted.
    replace (match find (tableViews_ s) v with Some b => Some b | None => Some new end) with (Some w) by (unfold w; by destruct (find _ v)).
    destruct (copy source v author now w) as [r w']. unfold put. cbn [fst snd set_views tableViews_ MAX_VIEWS_IN_CACHE].
    by rewrite (update_emplace _ v new w' w').
  - cbn. apply bind_throw. by rewrite emplaceView_run, Hc.
Qed.
Lemma target_defined s v created : target s v created <> Throw Undefined.
Proof. unfold target. pose proof (construct_defined (tableName_ s) created) as Hd. destruct (construct _ _); cbn; congruence. Qed.
Lemma copyInto_safe v source author created now : TableVersion.wf v -> safe valid (copyInto v source author created now).
Proof.
  intros Hv s Hs. rewrite copyInto_run by done. pose proof (target_defined s v created) as Hd. destruct (target s v created) as [w|e]; cbn; [|split; [done|congruence]].
  destruct (copy_version source v author now w) as [Hw Hc]. split; [by apply valid_put|done].
Qed.

(** *** Trimming *)

Definition noInvalid s : Prop := forall v, v ∈ keys (tableViews_ s) -> isInvalid v = false.
Definition persistent s (v : version) (w : view) : Prop := find (tableViews_ s) v = Some w /\ isTemporaryVersion v = false.

Lemma stalest_in trimSize views found : (stalest trimSize views found) = found.1 \/ stalest trimSize views found ∈ keys views.
Proof.
  revert found. induction views as [|[v w] views IH]; intros found; cbn [stalest keys map fst]; [by left|].
  assert (Hrest : forall f, f.1 = found.1 \/ f.1 = v -> stalest trimSize views f = found.1 \/ stalest trimSize views f ∈ v :: keys views).
  { intros f Hf. destruct (IH f) as [Hi|Hi]; [|right; by right]. rewrite Hi. destruct Hf as [Hf|Hf]; [by left|right; rewrite Hf; left]. }
  destruct (isTemporaryVersion v); [apply Hrest; by left|]. destruct (_ || _); [|apply Hrest; by left].
  destruct (trimSize =? 0); [right; left|]. apply Hrest. by right.
Qed.
Lemma keys_length s v : valid s -> isStored s v = true -> length (tableViews_ s) = S (length (tableViews_ (removed s v))).
Proof. intros Hs Hv. rewrite views_removed. apply length_erase; [by apply valid_sorted|done]. Qed.
Lemma getNumberOfStoredViews_le s : 0 <= getNumberOfStoredViews s <= Z.of_nat (length (tableViews_ s)).
Proof. unfold getNumberOfStoredViews. pose proof (List.filter_length_le (fun p => countsAsStored p.1) (tableViews_ s)). lia. Qed.
Lemma default_invalid : isInvalid TableVersion.default = true.
Proof. done. Qed.

(** One round of the loop: what it removes is stored. *)
Lemma trimLoop_round s n : let v := stalest n (tableViews_ s) (TableVersion.default, -1) in isInvalid v = false -> isStored s v = true.
Proof.
  intros v Hv. apply stored_spec. destruct (stalest_in n (tableViews_ s) (TableVersion.default, -1)) as [Hd|]; [|done].
  unfold v in Hv. rewrite Hd in Hv. discriminate Hv.
Qed.
Lemma trimLoop_unfold fuel n s : valid s ->
  trimLoop fuel n s =
    if negb (n <? getNumberOfStoredViews s) then (Ok tt, s)
    else match fuel with
         | O => (Throw Undefined, s)
         | S fuel =>
             let v := stalest n (tableViews_ s) (TableVersion.default, -1) in
             if isInvalid v then (Throw RuntimeError, s) else trimLoop fuel n (removed s v)
         end.
Proof.
  intros Hs. destruct fuel as [|fuel]; cbn [trimLoop]; rewrite (bind_ok (gets id) _ s s s) by done; [by destruct (negb _)|].
  destruct (negb _); [done|]. cbn zeta. destruct (isInvalid _) eqn:Hv; [done|]. apply trimLoop_round in Hv.
  by rewrite (bind_ok (eraseView _) _ s _ _ (eraseView_run s _ Hs)), Hv.
Qed.
(** The number of views is enough fuel. *)
Lemma trimLoop_safe fuel n s : 0 <= n -> (length (tableViews_ s) <= fuel)%nat -> valid s -> valid (trimLoop fuel n s).2 /\ (trimLoop fuel n s).1 <> Throw Undefined.
Proof.
  intros Hn. revert s. induction fuel as [|fuel IH]; intros s Hf Hs; rewrite trimLoop_unfold by done; destruct (Z.ltb_spec n (getNumberOfStoredViews s)) as [Hlt|]; try done.
  - pose proof (getNumberOfStoredViews_le s). lia.
  - cbn [negb]. cbn zeta. destruct (isInvalid _) eqn:Hv; [done|]. apply trimLoop_round in Hv. apply IH; [|by apply valid_removed].
    pose proof (keys_length s _ Hs Hv). lia.
Qed.
Lemma trimCache_run n s : trimCache n s = trimLoop (length (tableViews_ s)) (if n =? u32 (-1) then MAX_VIEWS_IN_CACHE s else n) s.
Proof. done. Qed.
Lemma trimCache_safe n : 0 <= n -> safe valid (trimCache n).
Proof. intros Hn s Hs. rewrite trimCache_run. apply trimLoop_safe; [|done..]. destruct (n =? _); [apply (valid_max _ Hs)|done]. Qed.

(** *** The search for a free temporary version *)

Lemma next_wf v : TableVersion.wf (TableVersion.getNextTemporaryVersion v).
Proof. unfold TableVersion.getNextTemporaryVersion. destruct (isTemporaryVersion v); destruct (isTemporaryVersion (of_uint _)); apply wf_of_uint. Qed.
Lemma next_temporary v : isInvalid (TableVersion.getNextTemporaryVersion v) = false -> isTemporaryVersion (TableVersion.getNextTemporaryVersion v) = true.
Proof. unfold TableVersion.getNextTemporaryVersion. destruct (isTemporaryVersion (of_uint _)) eqn:Ht; [done|]. intros H. discriminate H. Qed.
Lemma next_below v : TableVersion.wf v -> isTemporaryVersion v = true -> isInvalid (TableVersion.getNextTemporaryVersion v) = false ->
  TableVersion.version_ (TableVersion.getNextTemporaryVersion v) = TableVersion.version_ v - 1.
Proof.
  intros Hv Ht. unfold TableVersion.getNextTemporaryVersion. rewrite Ht. destruct (isTemporaryVersion (of_uint _)); [|intros H; discriminate H].
  intros _. cbn. apply wrap_small. destruct (class_spec _ Hv); try done. unfold in_range. lia.
Qed.
Lemma filter_length_below (p q : version * view -> bool) l a :
  (forall x, p x = true -> q x = true) -> a ∈ l -> p a = false -> q a = true -> (length (List.filter p l) < length (List.filter q l))%nat.
Proof.
  intros Hpq Ha Hp Hq. assert (Hle : forall l, (length (List.filter p l) <= length (List.filter q l))%nat).
  { clear l Ha. induction l as [|x l IH]; cbn; [done|]. specialize (Hpq x). destruct (p x); [rewrite Hpq by done; cbn; lia|]. destruct (q x); cbn; lia. }
  induction l as [|x l IH]; [by apply elem_of_nil in Ha|]. apply elem_of_cons in Ha as [->|Ha]; cbn.
  - rewrite Hp, Hq. cbn. specialize (Hle l). lia.
  - specialize (IH Ha). specialize (Hpq x). destruct (p x); [rewrite Hpq by done; cbn; lia|]. destruct (q x); cbn; lia.
Qed.
Definition notAbove s (v : version) : nat := length (List.filter (fun p => leb p.1 v) (tableViews_ s)).
Lemma searchTemporary_defined fuel s v : TableVersion.wf v -> isTemporaryVersion v = true -> (notAbove s v <= fuel)%nat -> searchTemporary fuel s v <> Throw Undefined.
Proof.
  revert v. induction fuel as [|fuel IH]; intros v Hv Ht Hf; cbn [searchTemporary]; destruct (isStored s v) eqn:Hs; try done; cbn [negb]; cbn zeta;
    destruct (isInvalid (TableVersion.getNextTemporaryVersion v)) eqn:Hi; try done.
  all: apply stored_spec in Hs; apply list_elem_of_fmap in Hs as ([j w] & -> & Hin); cbn [fst] in *.
  all: pose proof (next_below j Hv Ht Hi) as Hn.
  all: assert (Hlt : (notAbove s (TableVersion.getNextTemporaryVersion j) < notAbove s j)%nat)
         by (apply (filter_length_below _ _ _ (j, w)); [|done|..]; unfold leb, gtb; cbn [fst]; [intros x; rewrite !negb_true_iff, !Z.ltb_ge; lia|..];
             rewrite ?negb_false_iff, ?negb_true_iff, ?Z.ltb_lt, ?Z.ltb_ge; lia).
  - lia.
  - apply IH; [apply next_wf|by apply next_temporary|lia].
Qed.
(** The search from any version. *)
Lemma searchTemporary_start s v : TableVersion.wf v -> searchTemporary (S (length (tableViews_ s))) s v <> Throw Undefined.
Proof.
  intros Hv. assert (Hle : forall u, (notAbove s u <= length (tableViews_ s))%nat) by (intros u; apply List.filter_length_le).
  cbn [searchTemporary]. destruct (isStored s v); [|done]. cbn [negb]. cbn zeta. destruct (isInvalid _) eqn:Hi; [done|].
  apply searchTemporary_defined; [apply next_wf|by apply next_temporary|apply Hle].
Qed.
(** The version found is the one asked for, or a temporary one. *)
Lemma searchTemporary_found fuel s v u : searchTemporary fuel s v = Ok u -> TableVersion.wf v ->
  TableVersion.wf u /\ (u = v \/ isInvalid u = true \/ isTemporaryVersion u = true).
Proof.
  revert v. induction fuel as [|fuel IH]; intros v; cbn [searchTemporary]; destruct (negb (isStored s v)); try (intros [= <-]; by auto).
  all: cbn zeta; destruct (isInvalid (TableVersion.getNextTemporaryVersion v)) eqn:Hi.
  all: try (intros [= <-] _; split; [apply next_wf|by auto]).
  - done.
  - intros Hu _. destruct (IH _ Hu (next_wf v)) as [Hw [->|H]]; split; try done; [|by right]. right. right. by apply next_temporary.
Qed.

(** *** Every call keeps the invariant *)

Lemma safe_forEach {S A} (P : S -> Prop) (l : list A) (f : A -> M S unit) : (forall a, safe P (f a)) -> safe P (forEach l f).
Proof. intros Hf. induction l as [|a l IH]; cbn [forEach]; [apply safe_ret|]. by apply safe_bind. Qed.
Lemma safe_lift {S A} (P : S -> Prop) (r : result A) : r <> Throw Undefined -> safe P (lift r).
Proof. by intros Hr x Hx. Qed.
(** What is bound to [id] is the state. *)
Lemma safe_state {S A} (P : S -> Prop) (f : S -> M S A) :
  (forall x, P x -> P (f x x).2 /\ (f x x).1 <> Throw Undefined) -> safe P (gets id ≫= f).
Proof. intros Hf x Hx. by apply Hf. Qed.
Lemma safe_catch_all {S A} (P : S -> Prop) (m : M S A) h : safe P m -> (forall e, e <> Undefined -> safe P (h e)) -> safe P (catch_all m h).
Proof.
  intros Hm Hh s Hs. destruct (Hm s Hs) as [Hk Hd]. unfold catch_if. destruct (m s) as [[a|e] s']; cbn in *; [done|].
  destruct e; cbn; try done; by apply Hh.
Qed.

Lemma deactivate_safe : safe valid deactivate.
Proof. intros s Hs. split; [|done]. cbn. by destruct Hs; constructor. Qed.
Lemma removeView_safe v : safe valid (removeView v).
Proof. intros s Hs. rewrite removeView_run by done. split; [by apply valid_removed|done]. Qed.
Lemma eraseView_safe v : safe valid (eraseView v).
Proof. intros s Hs. rewrite eraseView_run by done. split; [|done]. cbn. destruct (isStored s v); [by apply valid_removed|done]. Qed.
Lemma setActiveView_run s v : valid s ->
  setActiveView v s = if isStored s v then (Ok true, set_active s (Some v)) else (Throw RuntimeError, s).
Proof.
  intros Hs. unfold setActiveView, isStored, stored. rewrite (bind_ok (gets id) _ s s s) by done.
  destruct (find (tableViews_ s) v) as [w|] eqn:Hf; [|done]. rewrite (bind_ok (modify _) _ s tt _ eq_refl).
  unfold neqb. by rewrite (valid_version _ Hs _ _ Hf), Z.eqb_refl.
Qed.
Lemma setActiveView_safe v : safe valid (setActiveView v).
Proof.
  intros s Hs. rewrite setActiveView_run by done. destruct (isStored s v) eqn:Hv; [|done]. split; [|done]. cbn.
  destruct Hs. constructor; cbn; try done. by intros j [= <-].
Qed.
Lemma trimTemporary_safe v : safe valid (trimTemporary v).
Proof.
  apply safe_state. intros s Hs. destruct (isInvalid v).
  - apply (safe_forEach valid); [|done]. intros j. destruct (isTemporaryVersion j); [apply removeView_safe|apply safe_ret].
  - destruct (isTemporaryVersion v); [|done]. apply (safe_bind valid); [apply eraseView_safe|intros; apply safe_ret|done].
Qed.
Lemma valid_empty s : valid s -> valid (set_views (set_active s None) []).
Proof. intros Hs. constructor; cbn; try done; [apply Sorted.SSorted_nil|by intros j ?%elem_of_nil|apply (valid_max _ Hs)]. Qed.
Lemma reset_safe keep : safe valid (reset keep).
Proof.
  intros s Hs. unfold reset. rewrite (bind_ok deactivate _ s tt (set_active s None)) by done. destruct keep.
  - apply trimCache_safe; [done|]. by apply (deactivate_safe s).
  - split; [|done]. by apply valid_empty.
Qed.
Lemma setupMockupView_safe v created now : TableVersion.wf v -> safe valid (setupMockupView v created now).
Proof.
  intros Hv. apply safe_state. intros s Hs. destruct (isStored s v); [done|].
  apply (safe_bind valid); [by apply copyInto_safe| |done]. intros _.
  apply safe_bind; [by apply trimCache_safe|]. intros _. apply safe_state. intros s' Hs'. by destruct (isStored s' v).
Qed.
Lemma start_wf destination : TableVersion.wf destination -> TableVersion.wf (startVersion destination).
Proof. intros Hd. unfold startVersion. by destruct (isInvalid destination); [apply next_wf|]. Qed.
Lemma freeVersion_wf s destination v : TableVersion.wf destination -> freeVersion s destination = Ok v -> TableVersion.wf v.
Proof. intros Hd Hv. by destruct (searchTemporary_found _ _ _ _ Hv (start_wf _ Hd)). Qed.
Lemma freeVersion_defined s destination : TableVersion.wf destination -> freeVersion s destination <> Throw Undefined.
Proof. intros Hd. by apply searchTemporary_start, start_wf. Qed.
Lemma createTemporaryView_safe source destination created now :
  TableVersion.wf destination -> safe valid (createTemporaryView source destination created now).
Proof.
  intros Hd. apply safe_state. intros s Hs. destruct (freeVersion s destination) as [v|e] eqn:Hv.
  - pose proof (freeVersion_wf _ _ _ Hd Hv) as Hw. rewrite (bind_ok (lift (Ok v)) _ s v s) by done.
    destruct (_ || _); [done|]. apply (safe_bind valid); [|intros; apply safe_ret|done].
    destruct (find (tableViews_ s) source); case_match; try apply safe_ignore; try (by apply copyInto_safe); by apply safe_throw.
  - pose proof (freeVersion_defined s destination Hd). rewrite (bind_throw (lift (Throw e)) _ s e s) by done. split; [done|]. cbn. congruence.
Qed.
(** The version it answers can be filed under. *)
Lemma createTemporaryView_wf source destination created now s v s' :
  TableVersion.wf destination -> createTemporaryView source destination created now s = (Ok v, s') -> TableVersion.wf v.
Proof.
  intros Hd. unfold createTemporaryView. rewrite (bind_ok (gets id) _ s s s) by done. destruct (freeVersion s destination) as [u|e] eqn:Hv; [|done].
  rewrite (bind_ok (lift (Ok u)) _ s u s) by done. destruct (_ || _); [done|]. rewrite bind_inv. intros (? & ? & _ & [= <- <-]).
  by apply (freeVersion_wf _ _ _ Hd Hv).
Qed.
Lemma copyView_safe source destination author loose created now copied :
  TableVersion.wf destination -> safe valid (copyView source destination author loose created now copied).
Proof.
  intros Hd. apply safe_state. intros s Hs. repeat (case_match; [done|]).
  destruct (createTemporaryView_safe TableVersion.default destination created now Hd s Hs) as [Hk Hdef].
  destruct (createTemporaryView _ _ _ _ s) as [[v|e] s1] eqn:Hc.
  - pose proof (createTemporaryView_wf _ _ _ _ _ _ _ Hd Hc) as Hw. rewrite (bind_ok (createTemporaryView _ _ _ _) _ s v s1) by done.
    apply (safe_bind valid); [|intros; apply safe_ret|done]. apply safe_catch_all; [by apply copyInto_safe|].
    intros e He. apply safe_bind; [apply eraseView_safe|]. intros _. by apply safe_throw.
  - rewrite (bind_throw (createTemporaryView _ _ _ _) _ s e s1) by done. done.
Qed.
Lemma changeVersionAndActivateView_safe temporaryVersion v created now :
  TableVersion.wf v -> safe valid (changeVersionAndActivateView temporaryVersion v created now).
Proof.
  intros Hv. apply safe_state. intros s Hs. destruct (find (tableViews_ s) temporaryVersion); [|done]. destruct (isInvalid v); [done|].
  apply (safe_bind valid); [by apply copyInto_safe| |done]. intros _. apply safe_bind; [apply setActiveView_safe|]. intros _.
  apply safe_bind; [apply eraseView_safe|]. intros _. apply safe_ret.
Qed.
Lemma safe_answered {A} (m : M TableBase A) : safe valid m -> safe valid (m ≫= fun _ => mret tt).
Proof. intros Hm. apply safe_bind; [done|]. intros _. apply safe_ret. Qed.
#[local] Hint Resolve safe_answered setActiveView_safe eraseView_safe trimCache_safe trimTemporary_safe reset_safe deactivate_safe
  setupMockupView_safe createTemporaryView_safe copyView_safe changeVersionAndActivateView_safe : keeps.
Lemma perform_safe c : wfCall c -> safe valid (perform c).
Proof.
  intros [Hv Hc]. unfold wfCall in *. rewrite Forall_forall in Hv.
  assert (Hw : forall w, w ∈ versionsOf c -> TableVersion.wf w) by done. clear Hv.
  destruct c; cbn [perform versionsOf] in *; auto 3 with keeps.
  - apply setupMockupView_safe, Hw. left.
  - apply safe_answered, createTemporaryView_safe, Hw. right. left.
  - apply safe_answered, copyView_safe, Hw. left.
  - apply changeVersionAndActivateView_safe, Hw. right. left.
Qed.

(** C15: Whatever sequence of calls is made from outside, with whatever outcomes,
    the cache stays consistent: the map is ordered, a view carries the version
    it is filed under, and the pointer to the active view is never left
    dangling.  No call reads through it when it is, and every loop ends. *)
Theorem cache_consistent calls s :
  valid s -> Forall wfCall calls ->
  let '(outcomes, s') := performAll calls s in
  valid s' /\ ~ Throw Undefined ∈ outcomes /\ length outcomes = length calls /\ activeView s' <> Throw Undefined.
Proof.
  revert s. induction calls as [|c calls IH]; intros s Hs Hc; cbn [performAll].
  - split_and!; [done|by apply not_elem_of_nil|done|by apply activeView_defined].
  - apply Forall_cons in Hc as [Hc Hcs]. destruct (perform_safe c Hc s Hs) as [Hk Hd]. destruct (perform c s) as [r s1]. cbn [fst snd] in *.
    specialize (IH s1 Hk Hcs). destruct (performAll calls s1) as [rs s2]. destruct IH as (H1 & H2 & H3 & H4).
    split_and!; [done| |cbn; by rewrite H3|done]. intros [He|He]%elem_of_cons; [by rewrite <- He in Hd|by apply H2].
Qed.

(** ** What the trimming keeps *)

Definition timesKnown (views : list (version * view)) : Prop := forall v w, (v, w) ∈ views -> 0 <= lastAccessTime_ w.
(** [r] is a persistent version of [views] that was used for the last time before all others. *)
Definition oldestOf (n : Z) (views : list (version * view)) (r : version) : Prop :=
  exists w, (r, w) ∈ views /\ isTemporaryVersion r = false /\
    (n <> 0 -> forall v' w', (v', w') ∈ views -> isTemporaryVersion v' = false -> lastAccessTime_ w <= lastAccessTime_ w').
Lemma stalest_later n views v0 t0 : n <> 0 -> 0 <= t0 -> timesKnown views ->
  (stalest n views (v0, t0) = v0 /\ forall v w, (v, w) ∈ views -> isTemporaryVersion v = false -> t0 <= lastAccessTime_ w) \/
  exists w, (stalest n views (v0, t0), w) ∈ views /\ isTemporaryVersion (stalest n views (v0, t0)) = false /\ lastAccessTime_ w < t0 /\
    forall v' w', (v', w') ∈ views -> isTemporaryVersion v' = false -> lastAccessTime_ w <= lastAccessTime_ w'.
Proof.
  intros Hn. revert v0 t0. induction views as [|[v w] views IH]; intros v0 t0 Ht Hk; cbn [stalest].
  - left. split; [done|]. by intros v w ?%elem_of_nil.
  - assert (Hk' : timesKnown views) by (intros v' w' Hin; apply (Hk v'); by right).
    pose proof (Hk v w (list_elem_of_here _ _)) as Hw. destruct (isTemporaryVersion v) eqn:Hv.
    + destruct (IH v0 t0 Ht Hk') as [[He Hmin]|(x & Hin & Htmp & Hlt & Hmin)]; [left|right].
      * split; [done|]. intros v' w' [[= -> ->]|Hin]%elem_of_cons; [congruence|by apply Hmin].
      * exists x. split_and!; [by right|done..|]. intros v' w' [[= -> ->]|Hin']%elem_of_cons; [congruence|by apply Hmin].
    + cbn [fst snd]. destruct (Z.eqb_spec t0 (-1)) as [|_]; [lia|]. cbn [orb]. destruct (Z.eqb_spec n 0) as [|_]; [done|].
      destruct (Z.ltb_spec (lastAccessTime_ w) t0) as [Hlt|Hge].
      * right. destruct (IH v (lastAccessTime_ w) Hw Hk') as [[He Hmin]|(x & Hin & Htmp & Hlt' & Hmin)].
        -- rewrite He. exists w. split_and!; [left|done..|]. intros v' w' [[= -> ->]|Hin']%elem_of_cons; [done|by apply Hmin].
        -- exists x. split_and!; [by right|done|lia|]. intros v' w' [[= -> ->]|Hin']%elem_of_cons; [lia|by apply Hmin].
      * destruct (IH v0 t0 Ht Hk') as [[He Hmin]|(x & Hin & Htmp & Hlt' & Hmin)]; [left|right].
        -- split; [done|]. intros v' w' [[= -> ->]|Hin]%elem_of_cons; [done|by apply (Hmin v')].
        -- exists x. split_and!; [by right|done..|]. intros v' w' [[= -> ->]|Hin']%elem_of_cons; [lia|by apply Hmin].
Qed.
Lemma stalest_oldest n views v w : timesKnown views -> (v, w) ∈ views -> isTemporaryVersion v = false ->
  oldestOf n views (stalest n views (TableVersion.default, -1)).
Proof.
  intros Hk. induction views as [|[j x] views IH]; intros Hin Hv; [by apply elem_of_nil in Hin|]. cbn [stalest].
  assert (Hk' : timesKnown views) by (intros v' w' Hin'; apply (Hk v'); by right).
  destruct (isTemporaryVersion j) eqn:Hj.
  - apply elem_of_cons in Hin as [[= -> ->]|Hin]; [congruence|]. destruct (IH Hk' Hin Hv) as (y & Hy & Ht & Hmin).
    exists y. split_and!; [by right|done|]. intros Hn v' w' [[= -> ->]|Hin']%elem_of_cons; [congruence|by apply Hmin].
  - cbn [fst snd orb Z.eqb]. change (-1 =? -1) with true. cbn [orb].
    destruct (Z.eqb_spec n 0) as [->|Hn]; [exists x; split_and!; [left|done|done]|].
    destruct (stalest_later n views j (lastAccessTime_ x) Hn (Hk j x (list_elem_of_here _ _)) Hk') as [[He Hmin]|(y & Hy & Ht & Hlt & Hmin)].
    + rewrite He. exists x. split_and!; [left|done|]. intros _ v' w' [[= -> ->]|Hin']%elem_of_cons; [done|by apply (Hmin v')].
    + exists y. split_and!; [by right|done|]. intros _ v' w' [[= -> ->]|Hin']%elem_of_cons; [lia|by apply (Hmin v')].
Qed.

(** The count of persistent views. *)
Lemma persistent_counts s v : noInvalid s -> v ∈ keys (tableViews_ s) -> countsAsStored v = negb (isTemporaryVersion v).
Proof. intros Hn Hv. unfold countsAsStored. by rewrite (Hn v Hv), andb_true_r. Qed.
Lemma count_exists s : 0 < getNumberOfStoredViews s -> exists v w, (v, w) ∈ tableViews_ s /\ isTemporaryVersion v = false.
Proof.
  unfold getNumberOfStoredViews. destruct (List.filter _ _) as [|[v w] l] eqn:Hl; [cbn; lia|]. intros _. exists v, w.
  assert (Hin : (v, w) ∈ List.filter (fun p => countsAsStored p.1) (tableViews_ s)) by (rewrite Hl; left).
  apply list_elem_of_In, filter_In in Hin as [Hin Hc]. split; [by apply list_elem_of_In|]. cbn in Hc.
  unfold countsAsStored in Hc. by destruct (isTemporaryVersion v).
Qed.
Lemma filter_erase (views : list (version * view)) v : sorted views -> stored views v = true -> countsAsStored v = true ->
  length (List.filter (fun p => countsAsStored p.1) views) = S (length (List.filter (fun p => countsAsStored p.1) (erase views v))).
Proof.
  induction views as [|[j w] views IH]; intros Hs Hv Hc; [done|]. apply sorted_cons in Hs as [Hs Hj]. unfold stored in Hv.
  rewrite erase_cons. cbn [find] in Hv. destruct (sameKey_spec v j) as [Heq|Hne]; cbn [negb].
  - subst j. cbn [List.filter fst]. rewrite Hc. cbn [length]. rewrite erase_not_stored; [done|].
    apply find_none. intros Hin. specialize (Hj v Hin). by rewrite key_irrefl in Hj.
  - specialize (IH Hs Hv Hc). cbn [List.filter fst]. destruct (countsAsStored j); cbn [length]; [by rewrite IH|done].
Qed.
Lemma count_removed s v : valid s -> isStored s v = true -> countsAsStored v = true -> getNumberOfStoredViews (removed s v) = getNumberOfStoredViews s - 1.
Proof.
  intros Hs Hv Hc. unfold getNumberOfStoredViews. rewrite views_removed, (filter_erase (tableViews_ s) v) by (done || by apply valid_sorted). lia.
Qed.

(** From [s] to [s'] only views of persistent versions went, the ones used
    least recently first, and the active view only when it went. *)
Record trimmed (n : Z) s s' : Prop := {
  trimmed_valid : valid s';
  trimmed_kept v w : find (tableViews_ s') v = Some w -> find (tableViews_ s) v = Some w;
  trimmed_temporary v : isTemporaryVersion v = true -> find (tableViews_ s') v = find (tableViews_ s) v;
  trimmed_oldest v w v' w' : n <> 0 -> persistent s v w -> find (tableViews_ s') v = None -> persistent s' v' w' -> lastAccessTime_ w <= lastAccessTime_ w';
  trimmed_count : getNumberOfStoredViews s' = Z.min (getNumberOfStoredViews s) n;
  trimmed_active : activeTableView_ s' = match activeTableView_ s with Some a => if isStored s' a then Some a else None | None => None end;
  trimmed_frame : MAX_VIEWS_IN_CACHE s' = MAX_VIEWS_IN_CACHE s /\ tableName_ s' = tableName_ s /\ mockupTableView_ s' = mockupTableView_ s;
}.
Lemma trimmed_refl n s : valid s -> getNumberOfStoredViews s <= n -> trimmed n s s.
Proof.
  intros Hs Hn. constructor; try done; [intros v w v' w' _ [Hv _] Hnone _; congruence|lia|].
  destruct (activeTableView_ s) as [a|] eqn:Ha; [|done]. by rewrite (valid_active _ Hs a Ha).
Qed.
Lemma find_removed s v j : find (tableViews_ (removed s v)) j = if sameKey j v then None else find (tableViews_ s) j.
Proof. by rewrite views_removed, find_erase. Qed.
Lemma trimmed_step n s s' v : valid s -> n < getNumberOfStoredViews s -> isStored s v = true -> countsAsStored v = true ->
  oldestOf n (tableViews_ s) v -> trimmed n (removed s v) s' -> trimmed n s s'.
Proof.
  intros Hs Hn Hv Hc (w & Hin & Htmp & Hmin) H. pose proof (in_find _ _ _ (valid_sorted _ Hs) Hin) as Hfw.
  assert (Hgone : find (tableViews_ s') v = None).
  { destruct (find (tableViews_ s') v) as [x|] eqn:Hx; [|done]. apply (trimmed_kept _ _ _ H) in Hx.
    by rewrite find_removed, sameKey_refl in Hx. }
  constructor.
  - apply (trimmed_valid _ _ _ H).
  - intros j x Hx. apply (trimmed_kept _ _ _ H) in Hx. rewrite find_removed in Hx. by destruct (sameKey j v).
  - intros j Hj. rewrite (trimmed_temporary _ _ _ H) by done. rewrite find_removed. by destruct (sameKey_spec j v) as [->|]; [congruence|].
  - intros j x j' x' H0 [Hj Htj] Hnone [Hj' Htj']. destruct (sameKey_spec j v) as [Heq|Hne].
    + subst j. rewrite Hfw in Hj. injection Hj as <-. apply (Hmin H0 j'); [|done].
      apply find_in. apply (trimmed_kept _ _ _ H) in Hj'. rewrite find_removed in Hj'. by destruct (sameKey j' v).
    + apply (trimmed_oldest _ _ _ H j x j' x'); try done. split; [|done]. rewrite find_removed. by destruct (sameKey_spec j v).
  - rewrite (trimmed_count _ _ _ H), count_removed by done. lia.
  - rewrite (trimmed_active _ _ _ H), active_removed. unfold activeAt. destruct (activeTableView_ s) as [a|]; [|done].
    destruct (eqb_spec a v) as [->|]; [|done]. unfold isStored, stored. by rewrite Hgone.
  - destruct (trimmed_frame _ _ _ H) as (H1 & H2 & H3). rewrite H1, H2, H3. unfold removed. by destruct (activeAt s v).
Qed.
Lemma noInvalid_removed s v : noInvalid s -> noInvalid (removed s v).
Proof. intros Hn j. rewrite views_removed. intros [_ Hj]%keys_erase. by apply Hn. Qed.
Lemma timesKnown_removed s v : timesKnown (tableViews_ s) -> timesKnown (tableViews_ (removed s v)).
Proof. intros Hk j w. rewrite views_removed. unfold erase. intros Hin%list_elem_of_In%filter_In. apply (Hk j w). apply list_elem_of_In, Hin. Qed.
Lemma trimLoop_trimmed fuel n s : 0 <= n -> (length (tableViews_ s) <= fuel)%nat -> valid s -> noInvalid s -> timesKnown (tableViews_ s) ->
  exists s', trimLoop fuel n s = (Ok tt, s') /\ trimmed n s s'.
Proof.
  intros Hn. revert s. induction fuel as [|fuel IH]; intros s Hf Hs Hi Hk; rewrite trimLoop_unfold by done;
    destruct (Z.ltb_spec n (getNumberOfStoredViews s)) as [Hlt|Hge]; cbn [negb].
  - pose proof (getNumberOfStoredViews_le s). lia.
  - exists s. split; [done|by apply trimmed_refl].
  - cbn zeta. destruct (count_exists s) as (v & w & Hin & Hv); [lia|].
    pose proof (stalest_oldest n _ _ _ Hk Hin Hv) as Ho. set (r := stalest n (tableViews_ s) _) in *.
    destruct Ho as (x & Hx & Htx & Hmin). assert (Hkey : r ∈ keys (tableViews_ s)) by (apply list_elem_of_fmap; by exists (r, x)).
    rewrite (Hi r Hkey). assert (Hst : isStored s r = true) by by apply stored_spec.
    pose proof (keys_length s r Hs Hst). destruct (IH (removed s r)) as (s' & Hrun & Htr); [lia|by apply valid_removed|by apply noInvalid_removed|by apply timesKnown_removed|].
    exists s'. split; [done|]. apply (trimmed_step n s s' r); try done; [|by exists x].
    by rewrite (persistent_counts s r Hi Hkey), Htx.
  - exists s. split; [done|by apply trimmed_refl].
Qed.

Definition limit (n : Z) s : Z := if n =? u32 (-1) then MAX_VIEWS_IN_CACHE s else n.
Lemma limit_nonneg n s : 0 <= n -> valid s -> 0 <= limit n s.
Proof. intros Hn Hs. unfold limit. destruct (n =? u32 (-1)); [apply (valid_max _ Hs)|done]. Qed.
(** C16: Trimming ends, with at most the limit of persistent views.  All temporary
    views stay, and a view that went was not used after one that stayed. *)
Theorem trimCache_spec n s : 0 <= n -> valid s -> noInvalid s -> timesKnown (tableViews_ s) ->
  exists s', trimCache n s = (Ok tt, s') /\ trimmed (limit n s) s s'.
Proof.
  intros Hn Hs Hi Hk. rewrite trimCache_run. apply trimLoop_trimmed; try done. by apply limit_nonneg.
Qed.

(** ** What is copied *)

Record copied (source : view) (author : text) (now : Z) (w : view) : Prop := mkCopied {
  copied_data : theDataView_ w = theDataView_ source;
  copied_columns : columnsInfo_ w = columnsInfo_ source;
  copied_sources : sourceColumnNames_ w = sourceColumnNames_ source;
  copied_comment : comment_ w = comment_ source;
  copied_author : author_ w = author;
  copied_time : lastAccessTime_ w = now;
}.
(** The special columns are only looked up. *)
Definition specialsIrrelevant (P : view -> Prop) : Prop := forall w uid status priority links, P w -> P (set_specials w uid status priority links).
Lemma initColUID_keeps P : specialsIrrelevant P -> keeps P initColUID.
Proof. intros HP w Hw. unfold initColUID. destruct (colUID_ w); [done|]. destruct (colUID_ (set_colUID _ _)); by apply HP. Qed.
Lemma initColStatus_keeps P : specialsIrrelevant P -> keeps P initColStatus.
Proof.
  intros HP w Hw. unfold initColStatus. destruct (colStatus_ w); [done|].
  destruct (columnNamed w _); [by apply HP|]. destruct (columnNamed w _); [by apply HP|done].
Qed.
Lemma initColPriority_keeps P : specialsIrrelevant P -> keeps P initColPriority.
Proof. intros HP w Hw. unfold initColPriority. destruct (colPriority_ w); [done|]. destruct (findCol w _); [by apply HP|done]. Qed.
Lemma copied_specials source author now : specialsIrrelevant (copied source author now).
Proof. by intros w uid status priority links []. Qed.
Lemma initRowDefaults_copied source author now : keeps (copied source author now) initRowDefaults.
Proof. intros w []. by constructor. Qed.
Lemma keeps_ignore {S A} (P : S -> Prop) (m : M S A) : keeps P m -> keeps P (ignore m).
Proof. intros Hm. unfold ignore. auto with keeps. Qed.
#[export] Hint Resolve initColUID_keeps initColStatus_keeps initColPriority_keeps keeps_ignore : keeps.
#[local] Hint Resolve copied_specials initRowDefaults_copied : keeps.
(** A property of the copied members that the rest of [copy] leaves. *)
Lemma copy_keeps (P : view -> Prop) source v author now w : specialsIrrelevant P -> keeps P initRowDefaults ->
  P (set_sourceNames (set_data (set_columns (set_header w v (comment_ source) author (creationTime_ w) now) (columnsInfo_ source))
       (theDataView_ source)) (sourceColumnNames_ source)) ->
  P (copy source v author now w).2.
Proof.
  intros HP Hd Hw. unfold copy. rewrite (bind_ok (modify _) _ w tt _ eq_refl).
  assert (H : keeps P (special ← (fun v => lift (isSpecialTable v) v);
    if (special : bool) then mret tt
    else initColUID ≫= fun _ => initRowDefaults ≫= fun _ => ignore initColStatus ≫= fun _ => ignore initColPriority)).
  { apply keeps_bind; [by intros x Hx|]. intros special. apply keeps_if; auto 10 with keeps. }
  exact (H _ Hw).
Qed.
Lemma copy_copied source v author now w : copied source author now (copy source v author now w).2.
Proof. apply copy_keeps; [apply copied_specials|apply initRowDefaults_copied|done]. Qed.
Lemma copy_tableName source v author now w : TableView.tableName_ (copy source v author now w).2 = TableView.tableName_ w.
Proof. apply (copy_keeps (fun x => TableView.tableName_ x = TableView.tableName_ w)); [by intros x uid status priority links Hx|by intros x Hx|done]. Qed.

(** ** New views *)

(** From [s] to [s'] the view of [v] was written, and no other. *)
Record written s s' (v : version) : Prop := mkWritten {
  written_others j : j <> v -> find (tableViews_ s') j = find (tableViews_ s) j;
  written_active : activeTableView_ s' = activeTableView_ s;
}.
Lemma written_refl s v : written s s v.
Proof. by constructor. Qed.
Lemma written_trans s s1 s2 v : written s s1 v -> written s1 s2 v -> written s s2 v.
Proof. intros [H1 A1] [H2 A2]. constructor; [|congruence]. intros j Hj. by rewrite H2, H1. Qed.
Lemma written_put s v w : valid s -> written s (put s v w) v.
Proof. intros Hs. constructor; [|done]. intros j Hj. rewrite find_put by done. by destruct (sameKey_spec j v). Qed.
Lemma copyInto_written s v source author created now : valid s -> written s (copyInto v source author created now s).2 v.
Proof. intros Hs. rewrite copyInto_run by done. destruct (target s v created); [by apply written_put|apply written_refl]. Qed.
Lemma copyInto_content s v source author created now w : valid s -> target s v created = Ok w ->
  exists x, find (tableViews_ (copyInto v source author created now s).2) v = Some x /\ copied source author now x.
Proof.
  intros Hs Hw. rewrite copyInto_run, Hw by done. cbn [snd]. exists (copy source v author now w).2. split; [|apply copy_copied].
  by rewrite find_put, sameKey_refl.
Qed.
Lemma target_ok s v created : is_ok (construct (tableName_ s) created) = true -> exists w, target s v created = Ok w.
Proof. unfold target. destruct (construct _ _); [by eexists|done]. Qed.
Lemma ignore_state {S A} (m : M S A) x : (ignore m x).2 = (m x).2.
Proof. unfold ignore, catch_if, mbind, M_bind. destruct (m x) as [[a|e] x']; cbn; [done|]. by destruct e. Qed.

(** Which view a temporary one is made from. *)
Definition origin s (source : version) : view :=
  match find (tableViews_ s) source with
  | Some w => if eqb_uint source INVALID then mockupTableView_ s else w
  | None => mockupTableView_ s
  end.
Lemma createTemporaryView_inv source destination created now s v s' :
  createTemporaryView source destination created now s = (Ok v, s') ->
  freeVersion s destination = Ok v /\ isStored s v = false /\ isInvalid v = false /\
  s' = (copyInto v (origin s source) (author_ (origin s source)) created now s).2.
Proof.
  unfold createTemporaryView. rewrite (bind_ok (gets id) _ s s s) by done. destruct (freeVersion s destination) as [u|e]; [|done].
  rewrite (bind_ok (lift (Ok u)) _ s u s) by done. destruct (isStored s u) eqn:Hu; [done|]. destruct (isInvalid u) eqn:Hi; [done|]. cbn [orb].
  rewrite bind_inv. unfold origin. destruct (find (tableViews_ s) source) as [w|].
  - destruct (eqb_uint source INVALID).
    + intros ([] & s1 & H & [= <- <-]). by rewrite H.
    + intros ([] & s1 & H & [= <- <-]). apply (f_equal snd) in H. rewrite ignore_state in H. by rewrite H.
  - destruct (neqb_uint source (u32 (-1))); [by intros (? & ? & ? & _)|]. intros ([] & s1 & H & [= <- <-]). by rewrite H.
Qed.
Lemma freeVersion_asked s destination : isInvalid destination = false -> isStored s destination = false -> freeVersion s destination = Ok destination.
Proof. intros Hi Hd. unfold freeVersion, startVersion. rewrite Hi. cbn [searchTemporary]. by rewrite Hd. Qed.
Lemma freeVersion_temporary s destination v : TableVersion.wf destination -> isInvalid v = false -> freeVersion s destination = Ok v ->
  v = destination \/ isTemporaryVersion v = true.
Proof.
  intros Hd Hv Hf. destruct (searchTemporary_found _ _ _ _ Hf (start_wf _ Hd)) as [_ [->|[H|H]]]; [|congruence|by right].
  unfold startVersion in *. destruct (isInvalid destination); [right; by apply next_temporary|by left].
Qed.

(** A temporary view is made under a version that was free - the one asked for
    when it is free - as a copy of the source, or of the mock-up, and no other
    view changes. *)
Theorem createTemporaryView_spec source destination created now s v s' :
  valid s -> TableVersion.wf destination -> createTemporaryView source destination created now s = (Ok v, s') ->
  isStored s v = false /\ written s s' v /\
  (v = destination \/ isTemporaryVersion v = true) /\
  (isInvalid destination = false -> isStored s destination = false -> v = destination) /\
  (is_ok (construct (tableName_ s) created) = true ->
     exists w, find (tableViews_ s') v = Some w /\ copied (origin s source) (author_ (origin s source)) now w).
Proof.
  intros Hs Hd H. apply createTemporaryView_inv in H as (Hf & Hv & Hi & ->). split_and!; [done|by apply copyInto_written|by apply (freeVersion_temporary s)|..].
  - intros H1 H2. rewrite freeVersion_asked in Hf by done. by injection Hf.
  - intros Hc. destruct (target_ok s v created Hc) as [w Hw]. by apply (copyInto_content _ _ _ _ _ _ w).
Qed.

(** A copy that fails leaves the versions as they were. *)
Lemma removed_written s s' v j : isStored s v = false -> written s s' v -> find (tableViews_ (removed s' v)) j = find (tableViews_ s) j.
Proof.
  intros Hv Hw. rewrite find_removed. destruct (sameKey_spec j v) as [->|Hj]; [|by apply (written_others _ _ _ Hw)].
  unfold isStored in Hv. by apply stored_none in Hv.
Qed.
Lemma construct_time tableName created created' : is_ok (construct tableName created) = is_ok (construct tableName created').
Proof. unfold construct. destruct (convertToCaps tableName); cbn; [by destruct (textEq tableName [])|done]. Qed.
Lemma copyInto_frame s v source author created now : valid s -> tableName_ (copyInto v source author created now s).2 = tableName_ s.
Proof. intros Hs. rewrite copyInto_run by done. by destruct (target s v created). Qed.
Lemma copyInto_caught s v source author now : valid s -> TableVersion.wf v ->
  catch_all (copyInto v source author now now) (fun e => eraseView v ≫= fun _ => throw e) s =
    match copyInto v source author now now s with
    | (Ok tt, s') => (Ok tt, s')
    | (Throw e, s') => (Throw e, if isStored s' v then removed s' v else s')
    end.
Proof.
  intros Hs Hv. destruct (copyInto_safe v source author now now Hv s Hs) as [Hk Hd]. unfold catch_if.
  destruct (copyInto v source author now now s) as [[[]|e] s']; [done|]. cbn [fst snd] in *.
  replace (any_exn e) with true by (destruct e; done). by rewrite (bind_ok (eraseView v) _ s' _ _ (eraseView_run s' v Hk)).
Qed.
(** A first copy that fails leaves nothing, or the copy of the mock-up it was
    making. *)
Lemma createTemporaryView_failed destination created now s e s' :
  valid s -> is_ok (construct (tableName_ s) created) = true ->
  createTemporaryView TableVersion.default destination created now s = (Throw e, s') ->
  s' = s \/ exists v w, isStored s v = false /\ written s s' v /\ find (tableViews_ s') v = Some w /\
    copied (mockupTableView_ s) (author_ (mockupTableView_ s)) now w.
Proof.
  intros Hs Hc. unfold createTemporaryView. rewrite (bind_ok (gets id) _ s s s) by done. destruct (freeVersion s destination) as [v|x].
  2: { rewrite (bind_throw (lift (Throw x)) _ s x s) by done. intros [= _ <-]. by left. }
  rewrite (bind_ok (lift (Ok v)) _ s v s) by done. destruct (isStored s v) eqn:Hv; [intros [= _ <-]; by left|].
  destruct (isInvalid v); [intros [= _ <-]; by left|]. cbn [orb].
  set (m := mockupTableView_ s). intros H. right. exists v.
  assert (copyInto v m (author_ m) created now s = (Throw e, s')) as Hrun.
  { revert H. change (neqb_uint TableVersion.default (u32 (-1))) with false. change (eqb_uint TableVersion.default INVALID) with true. fold m.
    destruct (find _ _); unfold mbind at 1, M_bind at 1; destruct (copyInto _ _ _ _ _ s) as [[[]|x] s1]; by intros [= -> ->]. }
  destruct (target_ok s v created Hc) as [t Ht].
  destruct (copyInto_content s v m (author_ m) created now t Hs Ht) as (w & Hw & Hcp).
  pose proof (copyInto_written s v m (author_ m) created now Hs) as Hwr. rewrite Hrun in Hw, Hwr. by exists w.
Qed.
(** C17: Copying a view in: under a new version, with the data, the columns and the
    author asked for.  If that copy fails its version is removed again, and
    every version is as it was.  The call that makes room for it, with a copy of
    the mock-up, is outside of the [try]: if it fails, all is as before or the
    copy of the mock-up is left as a new version.  The table has a name a view
    can have. *)
Theorem copyView_spec source destination author loose created now copyTime s :
  valid s -> TableVersion.wf destination -> is_ok (construct (tableName_ s) created) = true ->
  match copyView source destination author loose created now copyTime s with
  | (Ok v, s') => isStored s v = false /\ written s s' v /\ exists w, find (tableViews_ s') v = Some w /\ copied source author copyTime w
  | (Throw e, s') =>
      (forall j, find (tableViews_ s') j = find (tableViews_ s) j) \/
      createTemporaryView TableVersion.default destination created now s = (Throw e, s') /\
      exists v w, isStored s v = false /\ written s s' v /\ find (tableViews_ s') v = Some w /\
        copied (mockupTableView_ s) (author_ (mockupTableView_ s)) now w
  end.
Proof.
  intros Hs Hd Hc. unfold copyView. rewrite (bind_ok (gets id) _ s s s) by done. cbn beta.
  destruct (negb loose && _); [by left|]. destruct (negb (isInvalid destination) && _); [by left|].
  destruct (createTemporaryView_safe TableVersion.default destination created now Hd s Hs) as [Hk _].
  destruct (createTemporaryView TableVersion.default destination created now s) as [[v|e] s1] eqn:Hr.
  2: { rewrite (bind_throw (createTemporaryView _ _ _ _) _ s e s1) by done.
       destruct (createTemporaryView_failed _ _ _ _ _ _ Hs Hc Hr) as [->|H]; [by left|right; by split]. }
  cbn [snd] in Hk. pose proof (createTemporaryView_wf _ _ _ _ _ _ _ Hd Hr) as Hwf.
  rewrite (bind_ok (createTemporaryView _ _ _ _) _ s v s1) by done. apply createTemporaryView_inv in Hr as (_ & Hv & _ & Hs1).
  pose proof (copyInto_written s v (origin s TableVersion.default) (author_ (origin s TableVersion.default)) created now Hs) as Hw1. rewrite <- Hs1 in Hw1.
  pose proof (written_trans _ _ _ _ Hw1 (copyInto_written s1 v source author copyTime copyTime Hk)) as Hw2.
  assert (Hc1 : is_ok (construct (tableName_ s1) copyTime) = true).
  { rewrite Hs1, copyInto_frame by done. by rewrite <- Hc, (construct_time _ _ created). }
  destruct (target_ok s1 v copyTime Hc1) as [w Hw]. destruct (copyInto_content s1 v source author copyTime copyTime w Hk Hw) as (x & Hx & Hcp).
  pose proof (copyInto_caught s1 v source author copyTime Hk Hwf) as Hcatch.
  destruct (copyInto v source author copyTime copyTime s1) as [[[]|e] s2]; cbn [snd] in *.
  - rewrite (bind_ok (catch_all _ _) _ s1 tt s2) by done. split_and!; [done..|]. by exists x.
  - rewrite (bind_throw (catch_all _ _) _ s1 e _ Hcatch). left. intros j. destruct (isStored s2 v) eqn:Hst; [by apply removed_written|].
    unfold isStored, stored in Hst. by rewrite Hx in Hst.
Qed.

(** A temporary view becomes the active view of a version: with its data,
    columns and author, replacing a view that had the version, and the
    temporary one is gone. *)
Theorem changeVersionAndActivateView_spec temporaryVersion v created now s s' w :
  valid s -> TableVersion.wf v -> temporaryVersion <> v -> find (tableViews_ s) temporaryVersion = Some w ->
  changeVersionAndActivateView temporaryVersion v created now s = (Ok tt, s') ->
  (exists x, find (tableViews_ s') v = Some x /\ copied w (author_ w) now x /\ activeView s' = Ok x) /\
  isStored s' temporaryVersion = false /\
  forall j, j <> v -> j <> temporaryVersion -> find (tableViews_ s') j = find (tableViews_ s) j.
Proof.
  intros Hs Hv Hne Hw. unfold changeVersionAndActivateView. rewrite (bind_ok (gets id) _ s s s) by done. cbn beta. unfold id. rewrite Hw.
  destruct (isInvalid v); [done|]. destruct (eqb_spec temporaryVersion v) as [|_]; [done|].
  pose proof (copyInto_safe v w (author_ w) created now Hv s Hs) as [Hk _]. pose proof (copyInto_written s v w (author_ w) created now Hs) as Hwr.
  destruct (target s v created) as [t|e] eqn:Ht; [|rewrite bind_inv; intros ([] & s1 & H & _); by rewrite copyInto_run, Ht in H].
  destruct (copyInto_content s v w (author_ w) created now t Hs Ht) as (x & Hx & Hcp).
  rewrite bind_inv. intros ([] & s1 & H & Hrest). rewrite H in Hk, Hwr, Hx. cbn [snd] in *.
  rewrite bind_inv in Hrest. destruct Hrest as (b & s2 & Ha & Hrest). rewrite setActiveView_run in Ha by done.
  destruct (isStored s1 v) eqn:Hst; [|done]. injection Ha as <- <-.
  assert (Hk2 : valid (set_active s1 (Some v))) by (pose proof (setActiveView_safe v s1 Hk) as [H1 _]; by rewrite setActiveView_run, Hst in H1).
  rewrite bind_inv in Hrest. destruct Hrest as (b & s3 & He & [= <-]). rewrite eraseView_run in He by done. injection He as <- <-.
  assert (Hact : activeAt (set_active s1 (Some v)) temporaryVersion = false) by (unfold activeAt; cbn; destruct (eqb_spec v temporaryVersion); congruence).
  assert (Hf : forall j, j <> temporaryVersion ->
    find (tableViews_ (if isStored (set_active s1 (Some v)) temporaryVersion then removed (set_active s1 (Some v)) temporaryVersion else set_active s1 (Some v))) j
    = find (tableViews_ s1) j).
  { intros j Hj. destruct (isStored _ temporaryVersion); [|done]. rewrite find_removed. by destruct (sameKey_spec j temporaryVersion). }
  split_and!.
  - exists x. rewrite Hf by congruence. split_and!; [done..|]. unfold activeView.
    replace (activeTableView_ _) with (Some v) by (destruct (isStored _ temporaryVersion); [by rewrite active_removed, Hact|done]).
    by rewrite Hf, Hx by congruence.
  - destruct (isStored (set_active s1 (Some v)) temporaryVersion) eqn:Hst'; [|done].
    unfold isStored. rewrite views_removed, stored_erase. by rewrite sameKey_refl.
  - intros j Hj Hj'. rewrite Hf by done. by apply (written_others _ _ _ Hwr).
Qed.
(** With one version for both, the view is erased. *)
Lemma changeVersion_same v created now s s' : valid s -> TableVersion.wf v ->
  changeVersionAndActivateView v v created now s = (Ok tt, s') -> isStored s' v = false /\ isActive s' = false.
Proof.
  intros Hs Hv. unfold changeVersionAndActivateView. rewrite (bind_ok (gets id) _ s s s) by done. cbn beta. unfold id.
  destruct (find (tableViews_ s) v) as [w|]; [|done]. destruct (isInvalid v); [done|].
  match goal with |- context [copyInto v ?x _ _ _] => set (src := x) end.
  pose proof (copyInto_safe v src (author_ w) created now Hv s Hs) as [Hk _].
  rewrite bind_inv. intros ([] & s1 & H & Hrest). rewrite H in Hk. cbn [snd] in *.
  rewrite bind_inv in Hrest. destruct Hrest as (b & s2 & Ha & Hrest). rewrite setActiveView_run in Ha by done.
  destruct (isStored s1 v) eqn:Hst; [|done]. injection Ha as <- <-.
  assert (Hk2 : valid (set_active s1 (Some v))) by (pose proof (setActiveView_safe v s1 Hk) as [H1 _]; by rewrite setActiveView_run, Hst in H1).
  rewrite bind_inv in Hrest. destruct Hrest as (b & s3 & He & [= <-]). rewrite eraseView_run in He by done. injection He as <- <-.
  replace (isStored (set_active s1 (Some v)) v) with true by done. split.
  - unfold isStored. rewrite views_removed, stored_erase. by rewrite sameKey_refl.
  - unfold isActive. rewrite active_removed. unfold activeAt. cbn. by destruct (eqb_spec v v).
Qed.

(** ** The next version *)

Lemma ltb_key (v w : version) : key_lt v w = true <-> TableVersion.version_ v < TableVersion.version_ w.
Proof. unfold key_lt, TableVersion_ordered, TableVersion.ltb. apply Z.ltb_lt. Qed.
Lemma below_scratch v : TableVersion.wf v -> TableVersion.version_ v <= 2147483647 -> isInvalid v = false /\ isTemporaryVersion v = false.
Proof. intros Hv Hb. pose proof (class_spec v Hv) as Hc. destruct Hc; (done || lia). Qed.
(** The next version is above all that are stored, when no temporary one is. *)
Theorem getNextVersion_above s : valid s -> (forall v, v ∈ keys (tableViews_ s) -> TableVersion.version_ v < TableVersion.SCRATCH) ->
  exists v, getNextVersion s = Ok v /\ isInvalid v = false /\ isTemporaryVersion v = false /\
    forall j, j ∈ keys (tableViews_ s) -> TableVersion.version_ j < TableVersion.version_ v.
Proof.
  change TableVersion.SCRATCH with 2147483647. intros Hs Hb. unfold getNextVersion.
  destruct (last (tableViews_ s)) as [[latest w]|] eqn:Hl.
  - assert (Hin : latest ∈ keys (tableViews_ s)).
    { pose proof Hl as Hl'. apply last_Some in Hl' as [l' Hl']. rewrite Hl'. unfold keys. rewrite map_app. apply elem_of_app. right. left. }
    pose proof (Hb _ Hin) as Hlt. pose proof (valid_wf _ Hs _ Hin) as Hwf. destruct (below_scratch latest Hwf) as [_ Hnt]; [lia|].
    set (v := TableVersion.Mk (TableVersion.version_ latest + 1)).
    assert (Hv : TableVersion.getNextVersion latest = v).
    { rewrite TableVersion.getNextVersion_spec by done. change TableVersion.SCRATCH with 2147483647. by destruct (Z.ltb_spec (TableVersion.version_ latest) 2147483647); [|lia]. }
    assert (Hvw : TableVersion.wf v) by (unfold TableVersion.wf, in_range in *; cbn; lia).
    destruct (below_scratch v Hvw) as [Hvi Hvt]; [cbn; lia|].
    assert (Habove : forall j, j ∈ keys (tableViews_ s) -> TableVersion.version_ j < TableVersion.version_ v).
    { intros j Hj. cbn. destruct (last_key_max _ _ _ (valid_sorted _ Hs) Hl j Hj) as [->|Hlt'%ltb_key]; lia. }
    rewrite Hnt, Hv, Hvi, Hvt. destruct (isStored s v) eqn:Hst; [|by exists v].
    apply stored_spec in Hst. specialize (Habove v Hst). lia.
  - apply last_None in Hl. exists (TableVersion.Mk 0). unfold isStored. rewrite Hl. split_and!; try done. by intros j ?%elem_of_nil.
Qed.
(** With a temporary version stored, the next version is the first of all: the
    last key of the map is then a temporary one. *)
Lemma getNextVersion_temporary s v w : last (tableViews_ s) = Some (v, w) -> isTemporaryVersion v = true ->
  getNextVersion s = if isStored s (TableVersion.Mk 0) then Throw RuntimeError else Ok (TableVersion.Mk 0).
Proof.
  intros Hl Hv. unfold getNextVersion. rewrite Hl, Hv. change (TableVersion.getNextVersion TableVersion.default) with (TableVersion.Mk 0).
  by destruct (isStored s (TableVersion.Mk 0)).
Qed.
(** With a persistent version stored, the next temporary version is the first
    one, also when that is stored. *)
Lemma getNextTemporaryVersion_persistent s v w views : tableViews_ s = (v, w) :: views -> isTemporaryVersion v = false ->
  getNextTemporaryVersion s = if isStored s (TableVersion.Mk 4294967294) then Throw RuntimeError else Ok (TableVersion.Mk 4294967294).
Proof.
  intros Hv Ht. unfold getNextTemporaryVersion. rewrite Hv, Ht.
  change (TableVersion.getNextTemporaryVersion TableVersion.default) with (TableVersion.Mk 4294967294).
  by destruct (isStored s (TableVersion.Mk 4294967294)).
Qed.

(** ** A version from the mock-up *)

Lemma noInvalid_put s v w : noInvalid s -> isInvalid v = false -> noInvalid (put s v w).
Proof. intros Hn Hv j [->|Hj]%keys_put; [done|by apply Hn]. Qed.
Lemma timesKnown_put s v w : timesKnown (tableViews_ s) -> 0 <= lastAccessTime_ w -> timesKnown (tableViews_ (put s v w)).
Proof.
  intros Hk Hw j x Hin. cbn in Hin. unfold update in Hin. apply list_elem_of_fmap in Hin as ([i y] & He & Hin). cbn [fst snd] in He.
  destruct (sameKey v i) eqn:Hi; injection He as -> ->; [done|].
  assert (forall m, (i, y) ∈ emplace m v w -> (i, y) = (v, w) \/ (i, y) ∈ m) as Hem.
  { induction m as [|[a b] m IH]; cbn [emplace]; [by intros ?%list_elem_of_singleton; left|].
    destruct (key_lt v a); [by intros [H|H]%elem_of_cons; [left|right]|]. destruct (key_lt a v); [|by right].
    intros [H|H]%elem_of_cons; [right; rewrite H; left|]. destruct (IH H); [by left|right; by right]. }
  destruct (Hem _ Hin) as [[= -> ->]|Hin']; [done|by apply (Hk i)].
Qed.
Lemma count_positive s v w : (v, w) ∈ tableViews_ s -> countsAsStored v = true -> 0 < getNumberOfStoredViews s.
Proof.
  unfold getNumberOfStoredViews. intros Hin Hc. assert (Hf : (v, w) ∈ List.filter (fun p => countsAsStored p.1) (tableViews_ s)).
  { apply list_elem_of_In, filter_In. split; [by apply list_elem_of_In|done]. }
  destruct (List.filter _ _); [by apply elem_of_nil in Hf|cbn; lia].
Qed.
(** A mock-up is filed under a new version and survives the trimming that
    follows, provided that every other persistent view was used before now. *)
Theorem setupMockupView_spec v created now s :
  valid s -> noInvalid s -> timesKnown (tableViews_ s) -> 0 <= now -> 0 < MAX_VIEWS_IN_CACHE s ->
  TableVersion.wf v -> isInvalid v = false -> isStored s v = false ->
  (forall j w, persistent s j w -> lastAccessTime_ w < now) ->
  is_ok (copyInto v (mockupTableView_ s) (author_ (mockupTableView_ s)) created now s).1 = true ->
  exists s' w, setupMockupView v created now s = (Ok tt, s') /\
    find (tableViews_ s') v = Some w /\ copied (mockupTableView_ s) (author_ (mockupTableView_ s)) now w /\
    getNumberOfStoredViews s' <= MAX_VIEWS_IN_CACHE s.
Proof.
  intros Hs Hn Hk Hnow Hmax Hv Hi Hst Hold Hok. unfold setupMockupView. rewrite (bind_ok (gets id) _ s s s) by done. cbn beta. unfold id. rewrite Hst.
  set (src := mockupTableView_ s) in *. rewrite copyInto_run in Hok by done. destruct (target s v created) as [t|e] eqn:Ht; [|done].
  pose proof (copy_version src v (author_ src) now t) as [Hver _]. pose proof (copy_copied src v (author_ src) now t) as Hcp.
  set (w := (copy src v (author_ src) now t).2) in *. destruct (copy src v (author_ src) now t).1 as [[]|] eqn:Hr; [|done].
  rewrite (bind_ok (copyInto _ _ _ _ _) _ s tt (put s v w)) by (rewrite copyInto_run, Ht by done; by rewrite Hr).
  set (s1 := put s v w). assert (Hs1 : valid s1) by by apply valid_put.
  destruct (trimLoop_trimmed (length (tableViews_ s1)) (MAX_VIEWS_IN_CACHE s) s1) as (s' & Hrun & Htr); try done; [lia|by apply noInvalid_put|by apply timesKnown_put; [|rewrite (copied_time _ _ _ _ Hcp)]|].
  rewrite (bind_ok (trimCache _) _ s1 tt s') by done. rewrite (bind_ok (gets id) _ s' s' s') by done. cbn beta. unfold id.
  assert (Hfind : find (tableViews_ s') v = Some w).
  { destruct (find (tableViews_ s') v) as [x|] eqn:Hx.
    - apply (trimmed_kept _ _ _ Htr) in Hx. unfold s1 in Hx. by rewrite find_put, sameKey_refl in Hx by done.
    - exfalso. destruct (isTemporaryVersion v) eqn:Htmp.
      { rewrite (trimmed_temporary _ _ _ Htr v Htmp) in Hx. unfold s1 in Hx. by rewrite find_put, sameKey_refl in Hx by done. }
      assert (Hin1 : find (tableViews_ s1) v = Some w) by (unfold s1; by rewrite find_put, sameKey_refl).
      assert (Hc1 : 0 < getNumberOfStoredViews s1) by (apply (count_positive s1 v w); [by apply find_in|unfold countsAsStored; by rewrite Htmp, Hi]).
      destruct (count_exists s') as (j & x & Hjx & Hjt); [rewrite (trimmed_count _ _ _ Htr); lia|].
      pose proof (in_find _ _ _ (valid_sorted _ (trimmed_valid _ _ _ Htr)) Hjx) as Hfx.
      pose proof (trimmed_oldest _ _ _ Htr v w j x) as Hle. rewrite (copied_time _ _ _ _ Hcp) in Hle.
      assert (Hlast : lastAccessTime_ x < now).
      { apply (Hold j x). split; [|done]. pose proof (trimmed_kept _ _ _ Htr j x Hfx) as Hf1. unfold s1 in Hf1. rewrite find_put in Hf1 by done.
        destruct (sameKey_spec j v) as [->|]; [congruence|done]. }
      assert (now <= lastAccessTime_ x); [|lia]. apply Hle; [lia|by split|done|by split]. }
  exists s', w. unfold isStored, stored. rewrite Hfind. split_and!; [done..|]. rewrite (trimmed_count _ _ _ Htr). lia.
Qed.

(** ** Runs *)

Lemma performAll_valid calls s : valid s -> Forall wfCall calls -> valid (performAll calls s).2.
Proof.
  revert s. induction calls as [|c calls IH]; intros s Hs Hc; [done|]. apply Forall_cons in Hc as [Hc Hcs]. cbn [performAll].
  pose proof (perform_safe c Hc s Hs) as [Hk _]. destruct (perform c s) as [r s1]. specialize (IH s1 Hk Hcs).
  by destruct (performAll calls s1).
Qed.
Definition emptyTable : TableBase := mkBase 3 (txt "FETable") None sample [].
Lemma emptyTable_valid : valid emptyTable.
Proof. constructor; try done; [apply Sorted.SSorted_nil|by intros j ?%elem_of_nil]. Qed.
Abbreviation V := TableVersion.Mk.
Definition stringy s : list version * option version := (keys (tableViews_ s), activeTableView_ s).
Ltac wf_calls := repeat (apply Forall_cons; split; [split; [repeat (apply Forall_cons; split; [split; reflexivity || (vm_compute; discriminate)|]); apply Forall_nil; done|done]|]); by apply Forall_nil.

(** Versions are loaded, one is edited through a temporary version and saved,
    and the oldest one is dropped. *)
Definition session : list call :=
  [SetupMockupView (V 1) 10 10; SetupMockupView (V 2) 20 20; SetActiveView (V 2); SetActiveView (V 7);
   CreateTemporaryView (V 2) TableVersion.default 30 30; ChangeVersionAndActivateView (V 4294967294) (V 3) 40 40;
   SetupMockupView (V 4) 50 50].
Lemma session_wf : Forall wfCall session.
Proof. wf_calls. Qed.
Definition edited : TableBase := (performAll (take 5 session) emptyTable).2.
Lemma edited_valid : valid edited.
Proof. apply performAll_valid; [apply emptyTable_valid|]. apply Forall_take, session_wf. Qed.
Lemma cache_consistent_witness :
  let '(outcomes, s') := performAll session emptyTable in
  outcomes = [Ok tt; Ok tt; Ok tt; Throw RuntimeError; Ok tt; Ok tt; Ok tt] /\ stringy s' = ([V 2; V 3; V 4], Some (V 3)) /\ valid s'.
Proof.
  pose proof (cache_consistent session emptyTable emptyTable_valid session_wf) as H.
  destruct (performAll session emptyTable) as [outcomes s'] eqn:E. destruct H as [Hv _].
  assert (outcomes = (performAll session emptyTable).1) as -> by by rewrite E. assert (s' = (performAll session emptyTable).2) as -> by by rewrite E.
  split_and!; [by vm_compute|by vm_compute|exact Hv].
Defined.
Lemma noInvalid_check s : forallb (fun v => negb (isInvalid v)) (keys (tableViews_ s)) = true -> noInvalid s.
Proof. intros H v Hv. rewrite forallb_forall in H. apply list_elem_of_In in Hv. by apply negb_true_iff, H. Qed.
Lemma timesKnown_check (views : list (version * view)) : forallb (fun p => 0 <=? lastAccessTime_ p.2) views = true -> timesKnown views.
Proof. intros H v w Hv. rewrite forallb_forall in H. apply list_elem_of_In in Hv. by apply Z.leb_le, (H (v, w)). Qed.
Lemma edited_noInvalid : noInvalid edited.
Proof. apply noInvalid_check. by vm_compute. Qed.
Lemma edited_times : timesKnown (tableViews_ edited).
Proof. apply timesKnown_check. by vm_compute. Qed.
Lemma trimCache_spec_witness :
  exists s', trimCache 1 edited = (Ok tt, s') /\ trimmed 1 edited s' /\ stringy (trimCache 1 edited).2 = ([V 2; V 4294967294], Some (V 2)).
Proof.
  destruct (trimCache_spec 1 edited ltac:(done) edited_valid edited_noInvalid edited_times) as (s' & E & T).
  exists s'. split; [exact E|]. split; [exact T|]. by vm_compute.
Defined.
Lemma edited_wf v : v <= 4294967295 -> 0 <= v -> TableVersion.wf (V v).
Proof. intros H1 H2. split; cbn; lia. Qed.
Lemma copyView_spec_witness :
  exists s', copyView sample TableVersion.default (txt "ann") false 60 60 60 edited = (Ok (V 4294967293), s') /\
    isStored edited (V 4294967293) = false /\ written edited s' (V 4294967293) /\
    exists w, find (tableViews_ s') (V 4294967293) = Some w /\ copied sample (txt "ann") 60 w.
Proof.
  assert (W : TableVersion.wf TableVersion.default) by (apply edited_wf; by vm_compute).
  pose proof (copyView_spec sample TableVersion.default (txt "ann") false 60 60 60 edited edited_valid W eq_refl) as H.
  destruct (copyView sample TableVersion.default (txt "ann") false 60 60 60 edited) as [r s'] eqn:E.
  pose proof (run_result _ _ _ _ (Ok (V 4294967293)) E ltac:(by vm_compute)) as Hr. subst r.
  exists s'. split; [exact eq_refl|exact H].
Defined.
(** A mock-up that cannot be verified: the copy of it stays as a new version. *)
Lemma copyView_leaves_mockup :
  let '(r, s') := copyView sample TableVersion.default (txt "ann") true 60 60 60 (mkBase 3 (txt "FETable") None (set_columns sample []) []) in
  r = Throw RuntimeError /\ keys (tableViews_ s') = [V 4294967294].
Proof. by vm_compute. Qed.
Lemma setupMockupView_spec_witness :
  exists s' w, setupMockupView (V 0) 40 40 edited = (Ok tt, s') /\ find (tableViews_ s') (V 0) = Some w /\ copied sample [] 40 w.
Proof.
  assert (Hold : forall j w, persistent edited j w -> lastAccessTime_ w < 40).
  { intros j w [Hf _]. apply find_in in Hf. assert (H : forallb (fun p => lastAccessTime_ p.2 <? 40) (tableViews_ edited) = true) by by vm_compute.
    rewrite forallb_forall in H. apply list_elem_of_In in Hf. apply Z.ltb_lt. exact (H (j, w) Hf). }
  destruct (setupMockupView_spec (V 0) 40 40 edited edited_valid edited_noInvalid edited_times ltac:(lia) ltac:(by vm_compute)
    (edited_wf 0 ltac:(lia) ltac:(lia)) eq_refl ltac:(by vm_compute) Hold ltac:(by vm_compute)) as (s' & w & E & F & C & _).
  exists s', w. split; [exact E|]. split; [exact F|exact C].
Defined.
(** A version loaded in the same second as the others can be the one the
    trimming takes: the error called impossible is thrown. *)
Lemma setupMockupView_same_second :
  (performAll [SetupMockupView (V 1) 10 10; SetupMockupView (V 2) 10 10; SetupMockupView (V 3) 10 10; SetupMockupView (V 0) 10 10] emptyTable).1
  = [Ok tt; Ok tt; Ok tt; Throw RuntimeError].
Proof. by vm_compute. Qed.
Lemma changeVersionAndActivateView_spec_witness :
  exists s' w x, changeVersionAndActivateView (V 4294967294) (V 3) 40 40 edited = (Ok tt, s') /\
    find (tableViews_ edited) (V 4294967294) = Some w /\ find (tableViews_ s') (V 3) = Some x /\ copied w (author_ w) 40 x /\
    isStored s' (V 4294967294) = false.
Proof.
  destruct (find (tableViews_ edited) (V 4294967294)) as [w|] eqn:F; [|by vm_compute in F].
  destruct (changeVersionAndActivateView (V 4294967294) (V 3) 40 40 edited) as [r s'] eqn:E.
  pose proof (run_result _ _ _ _ (Ok tt) E ltac:(by vm_compute)) as Hr. subst r.
  destruct (changeVersionAndActivateView_spec (V 4294967294) (V 3) 40 40 edited s' w edited_valid (edited_wf 3 ltac:(lia) ltac:(lia)) ltac:(discriminate) F E)
    as ((x & Hx & Hc & _) & Hst & _).
  exists s', w, x. split_and!; [exact eq_refl|exact eq_refl|exact Hx|exact Hc|exact Hst].
Defined.
(** While a version is being edited the next version is computed as 0. *)
Lemma getNextVersion_while_edited :
  getNextVersion edited = Ok (V 0) /\ keys (tableViews_ edited) = [V 1; V 2; V 4294967294] /\ getNextTemporaryVersion edited = Throw RuntimeError.
Proof. by vm_compute. Qed.
Definition loaded : TableBase := (performAll (take 2 session) emptyTable).2.
Lemma getNextVersion_above_witness : exists v, getNextVersion loaded = Ok v /\ v = V 3 /\
  forall j, j ∈ keys (tableViews_ loaded) -> TableVersion.version_ j < TableVersion.version_ v.
Proof.
  assert (Hv : valid loaded) by (apply performAll_valid; [apply emptyTable_valid|apply Forall_take, session_wf]).
  destruct (getNextVersion_above loaded Hv) as (v & E & _ & _ & H).
  - intros v Hin. assert (B : forallb (fun v => TableVersion.version_ v <? TableVersion.SCRATCH) (keys (tableViews_ loaded)) = true) by by vm_compute.
    rewrite forallb_forall in B. apply list_elem_of_In in Hin. by apply Z.ltb_lt, B.
  - exists v. split; [exact E|]. split; [|exact H]. assert (E' : getNextVersion loaded = Ok (V 3)) by by vm_compute. rewrite E in E'. by injection E'.
Defined.
End TableBase.
