(* ===== verification/TableCompare.v ===== *)
(** * Comparing the versions of a table

    src/otsdaq/TableCore/TableBase.cc: [checkForDuplicate], which finds the
    version that already holds what is about to be saved, and
    [diffTwoVersions], which reports the differences of two versions.  The last
    two columns, author and time, do not count.

    The number of columns less two is computed as an unsigned number, so that
    with fewer than two columns the loops run until an index is out of range. *)

From S2P Require Import Prelude OrderedMap CText Versions StringMacros StringLists StringExpansion Doubles TableViewColumnInfo TableView TableRows TableInit TableBase.

Module TableCompare.
Import OrderedMap TableViewColumnInfo TableView TableRows TableBase.
Implicit Types s : TableBase.

Definition dataColumns (cols : nat) : Z := u32 (Z.of_nat cols - 2).

(** ** Duplicates *)

Fixpoint sameCells (r1 r2 : list text) (n : Z) : result bool :=
  if n <=? 0 then Ok true
  else
    match r1, r2 with
    | x :: r1, y :: r2 => if textEq x y then sameCells r1 r2 (n - 1) else Ok false
    | _, _ => Throw Undefined
    end.
Fixpoint sameRows (d1 d2 : list (list text)) (n : Z) : result bool :=
  match d1, d2 with
  | r1 :: d1, r2 :: d2 => same ← sameCells r1 r2 n; if (same : bool) then sameRows d1 d2 n else Ok false
  | _, _ => Ok true
  end.
Definition sameNames (w1 w2 : view) : bool :=
  (base.size (sourceColumnNames_ w1) =? base.size (sourceColumnNames_ w2))%nat &&
  forallb (fun name => bool_decide (name ∈ sourceColumnNames_ w2)) (elements (sourceColumnNames_ w1)).
(** A view that is compared at all: of another persistent version, and of the
    same size. *)
Definition isCandidate (needleVersion ignoreVersion : version) (needle : view) (p : version * view) : bool :=
  negb (TableVersion.eqb p.1 needleVersion) && negb (TableVersion.eqb p.1 ignoreVersion) && negb (TableVersion.isTemporaryVersion p.1) &&
  (getNumberOfRows p.2 =? getNumberOfRows needle)%nat &&
  (getDataColumnSize p.2 =? getNumberOfColumns needle)%nat && (sourceColumnMismatchCount_ p.2 =? 0).
Fixpoint duplicateLoop (needleVersion ignoreVersion : version) (needle : view) (views : list (version * view)) : result version :=
  match views with
  | [] => Ok TableVersion.default
  | p :: views =>
      if negb (isCandidate needleVersion ignoreVersion needle p) then duplicateLoop needleVersion ignoreVersion needle views
      else
        same ← (if sameNames p.2 needle then sameRows (theDataView_ p.2) (theDataView_ needle) (dataColumns (getNumberOfColumns needle)) else Ok false);
        if (same : bool) then Ok p.1 else duplicateLoop needleVersion ignoreVersion needle views
  end.
(** The newest versions first; the invalid version when there is no match. *)
Definition checkForDuplicate s (needleVersion ignoreVersion : version) : result version :=
  match find (tableViews_ s) needleVersion with
  | None => Throw RuntimeError
  | Some needle => duplicateLoop needleVersion ignoreVersion needle (rev (tableViews_ s))
  end.

(** ** Differences *)

Record diff := mkDiff { noDifference : bool; report : text; modifiedRecords : gmap text (list text) }.

(** The checks answer whether to go on.  [diffReport] and [v1ModifiedRecords]
    say whether the caller passed the pointers: without a report the first
    difference ends the comparison. *)
Section Diff.
Variables (diffReport v1ModifiedRecords : bool) (v1 v2 : version) (view1 view2 : view).

Definition note (message : list text) : M diff bool := fun d =>
  (Ok diffReport, mkDiff false (if diffReport then report d ++ concat message else report d) (modifiedRecords d)).
Definition andThen (m n : M diff bool) : M diff bool := c ← m; if (c : bool) then n else mret false.
Fixpoint forAll {A} (l : list A) (f : A -> M diff bool) : M diff bool :=
  match l with [] => mret true | a :: l => andThen (f a) (forAll l f) end.
Definition unless (b : bool) (message : list text) : M diff bool := if b then mret true else note message.

Definition E : text := [chr 10].
Definition V1 : text := TableVersion.print v1.
Definition V2 : text := TableVersion.print v2.
Definition count (n : nat) : text := to_string_unsigned (Z.of_nat n).
Definition names1 : gset text := sourceColumnNames_ view1.
Definition names2 : gset text := sourceColumnNames_ view2.

Definition columnCounts : M diff bool :=
  unless (base.size names1 =? base.size names2)%nat
    [txt "<li>Found column count mismatch. The v"; V1; txt " column count is <b>'"; count (base.size names1); txt "'</b> and the v"; V2;
     txt " column count is <b>'"; count (base.size names2); txt "'</b>."; E].
Definition columnNames : M diff bool :=
  andThen
    (forAll (sortedSet (elements names1)) (fun name => unless (bool_decide (name ∈ names2))
       [txt "<li>Found column name mismatch. The v"; V1; txt " column <b>'"; name; txt "'</b> was not found in v"; V2; txt "."; E]))
    (forAll (sortedSet (elements names2)) (fun name => unless (bool_decide (name ∈ names1))
       [txt "<li>Found column name mismatch. The v"; V1; txt " does not have column <b>'"; name; txt "'</b> that was found in v"; V2; txt "."; E])).
Definition rowCounts : M diff bool :=
  unless (getNumberOfRows view1 =? getNumberOfRows view2)%nat
    [txt "<li>Found row count mismatch. The v"; V1; txt " row count is <b>'"; count (getNumberOfRows view1); txt "'</b> and the v"; V2;
     txt " row count is <b>'"; count (getNumberOfRows view2); txt "'</b>."; E].

Definition uidAt (w : view) (row : nat) : result text := c ← getColUID w; cell w row c.
Fixpoint uidsFrom (w : view) (rows : list nat) : result (list text) :=
  match rows with [] => Ok [] | r :: rows => uid ← uidAt w r; uids ← uidsFrom w rows; Ok (uid :: uids) end.
Definition uids (w : view) : result (list text) := uidsFrom w (seq 0 (getNumberOfRows w)).
Definition recordNames : M diff bool :=
  uidSet1 ← lift (uids view1);
  uidSet2 ← lift (uids view2);
  andThen
    (forAll (sortedSet uidSet1) (fun uid => unless (bool_decide (uid ∈ uidSet2))
       [txt "<li>Found record name mismatch. The v"; V1; txt " record <b>'"; uid; txt "'</b> was not found in v"; V2; txt "."; E]))
    (forAll (sortedSet uidSet2) (fun uid => unless (bool_decide (uid ∈ uidSet1))
       [txt "<li>Found record name mismatch. v"; V1; txt " does not have record <b>'"; uid; txt "'</b> that was found in v"; V2; txt "."; E])).

(** The same index when it agrees, otherwise the first that does. *)
Fixpoint firstThat (l : list nat) (p : nat -> result bool) : result (option nat) :=
  match l with [] => Ok None | i :: l => b ← p i; if (b : bool) then Ok (Some i) else firstThat l p end.
Definition mate (l : list nat) (p : nat -> result bool) (i : nat) : result (option nat) :=
  b ← p i; if (b : bool) then Ok (Some i) else firstThat l p.
Definition sameUID (row row2 : nat) : result bool := uid1 ← uidAt view1 row; uid2 ← uidAt view2 row2; Ok (textEq uid1 uid2).
Definition sameColumn (col col2 : nat) : result bool :=
  ci1 ← getColumnInfo view1 col; ci2 ← getColumnInfo view2 col2; Ok (textEq (name_ ci1) (name_ ci2)).
(** The indices below a bound, up to the one that is out of range. *)
Definition columnsBelow (w : view) (bound : Z) : list nat := List.filter (fun c => Z.of_nat c <? bound) (seq 0 (S (getNumberOfColumns w))).

Definition recordModified (uid name : text) : M diff bool :=
  (if v1ModifiedRecords
   then modify (fun d => mkDiff (noDifference d) (report d) (<[uid := default [] (modifiedRecords d !! uid) ++ [name]]> (modifiedRecords d)))
   else mret tt) ≫= fun _ => mret true.
Definition compareColumn (row row2 col : nat) : M diff bool :=
  m ← lift (mate (columnsBelow view2 (dataColumns (getNumberOfColumns view2))) (sameColumn col) col);
  match m with
  | None => mret true
  | Some col2 =>
      x1 ← lift (cell view1 row col);
      x2 ← lift (cell view2 row2 col2);
      if textEq x1 x2 then mret true
      else
        ci ← lift (getColumnInfo view1 col);
        uid ← lift (uidAt view1 row);
        andThen
          (note [txt "<li><b>"; name_ ci; txt "</b> value mismatch at v"; V1; txt " {UID,r,c}:{<b>"; uid; txt "</b>,"; count row; txt ","; count col;
                 txt "}: <b>'"; x1; txt "'</b> vs value in v"; V2; txt ": <b>'"; x2; txt "'</b>."; E])
          (recordModified uid (name_ ci))
  end.
Definition compareRow (row : nat) : M diff bool :=
  m ← lift (mate (seq 0 (getNumberOfRows view2)) (sameUID row) row);
  match m with
  | None => mret true
  | Some row2 =>
      forAll (columnsBelow view1 (Z.min (dataColumns (getNumberOfColumns view1)) (dataColumns (getNumberOfColumns view2)))) (compareColumn row row2)
  end.
Definition compareRows : M diff bool := forAll (seq 0 (getNumberOfRows view1 `min` getNumberOfRows view2)) compareRow.

Definition compareViews : M diff bool :=
  andThen columnCounts (andThen columnNames (andThen rowCounts (andThen recordNames compareRows))) ≫= fun _ =>
  d ← gets id;
  (if noDifference d && diffReport
   then modify (fun d => mkDiff true (report d ++ concat [txt "<li>No difference found between v"; V1; txt " and v"; V2; txt "."; E]) (modifiedRecords d))
   else mret tt) ≫= fun _ => mret (noDifference d).
End Diff.

(** The answer, with the report and the records as the caller passed them. *)
Definition diffTwoVersions (diffReport v1ModifiedRecords : bool) s (v1 v2 : version) : M diff bool :=
  match find (tableViews_ s) v1 with
  | None => throw RuntimeError
  | Some view1 =>
      match find (tableViews_ s) v2 with
      | None => throw RuntimeError
      | Some view2 =>
          modify (fun d => mkDiff true (report d) (modifiedRecords d)) ≫= fun _ =>
          compareViews diffReport v1ModifiedRecords v1 v2 view1 view2
      end
  end.

(** ** What counts as a duplicate *)

Definition dataPart (w : view) (cols : nat) : list (list text) := map (take (cols - 2)) (theDataView_ w).
Definition uniform (w : view) : Prop := Forall (fun row => length row = getDataColumnSize w) (theDataView_ w).
Record duplicateOf (needleVersion ignoreVersion : version) (needle : view) (v : version) (w : view) : Prop := {
  duplicate_other : v <> needleVersion /\ v <> ignoreVersion /\ TableVersion.isTemporaryVersion v = false;
  duplicate_shape : getDataColumnSize w = getNumberOfColumns needle /\ sourceColumnMismatchCount_ w = 0;
  duplicate_names : sourceColumnNames_ w = sourceColumnNames_ needle;
  duplicate_data : dataPart w (getNumberOfColumns needle) = dataPart needle (getNumberOfColumns needle);
}.

Lemma sameCells_spec n r1 r2 : (n <= length r1)%nat -> (n <= length r2)%nat -> sameCells r1 r2 (Z.of_nat n) = Ok (bool_decide (take n r1 = take n r2)).
Proof.
  revert r1 r2. induction n as [|n IH]; intros r1 r2 H1 H2.
  - destruct r1, r2; cbn; by rewrite bool_decide_true.
  - destruct r1 as [|x r1], r2 as [|y r2]; cbn [length] in *; [lia..|]. cbn [sameCells]. destruct (Z.leb_spec (Z.of_nat (S n)) 0); [lia|].
    replace (Z.of_nat (S n) - 1) with (Z.of_nat n) by lia. cbn [take]. unfold textEq. case_bool_decide as Hxy; [subst y|].
    + rewrite IH by lia. f_equal. apply bool_decide_ext. by split; [intros ->|intros [= ->]].
    + rewrite bool_decide_false; [done|]. by intros [= ? _].
Qed.
Lemma sameRows_spec n d1 d2 : length d1 = length d2 -> Forall (fun r => n <= length r)%nat d1 -> Forall (fun r => n <= length r)%nat d2 ->
  sameRows d1 d2 (Z.of_nat n) = Ok (bool_decide (map (take n) d1 = map (take n) d2)).
Proof.
  revert d2. induction d1 as [|r1 d1 IH]; intros [|r2 d2] Hl H1 H2; try done. apply Forall_cons in H1 as [H1 Hd1]. apply Forall_cons in H2 as [H2 Hd2].
  cbn [sameRows map]. rewrite sameCells_spec by done. cbn [mbind result_bind]. case_bool_decide as He.
  - rewrite IH by (done || by injection Hl). f_equal. apply bool_decide_ext. rewrite He. by split; [intros ->|intros [= ->]].
  - rewrite bool_decide_false; [done|]. by intros [= ? _].
Qed.
Lemma sameNames_spec w1 w2 : sameNames w1 w2 = bool_decide (sourceColumnNames_ w1 = sourceColumnNames_ w2).
Proof.
  unfold sameNames. case_bool_decide as He.
  - rewrite He, Nat.eqb_refl. cbn [andb]. apply forallb_forall. intros x Hx. apply bool_decide_eq_true. apply elem_of_elements. by apply list_elem_of_In.
  - destruct (Nat.eqb_spec (base.size (sourceColumnNames_ w1)) (base.size (sourceColumnNames_ w2))) as [Hs|]; [|done]. cbn [andb].
    apply not_true_is_false. intros H. apply He. rewrite forallb_forall in H.
    assert (Hsub : sourceColumnNames_ w1 ⊆ sourceColumnNames_ w2).
    { intros x Hx. apply elem_of_elements, list_elem_of_In in Hx. by apply H, bool_decide_eq_true in Hx. }
    apply set_subseteq_size_eq; [done|lia].
Qed.
Lemma dataColumns_small cols : (2 <= cols)%nat -> Z.of_nat cols < 2 ^ 32 -> dataColumns cols = Z.of_nat (cols - 2).
Proof. intros H1 H2. unfold dataColumns. rewrite wrap_small by (unfold in_range; lia). lia. Qed.

Section Duplicates.
Variables (needleVersion ignoreVersion : version) (needle : view).
Hypothesis (enough : (2 <= getNumberOfColumns needle)%nat) (small : Z.of_nat (getNumberOfColumns needle) < 2 ^ 32).
Hypothesis (needle_shape : Forall (fun row => length row = getNumberOfColumns needle) (theDataView_ needle)).

Definition isDuplicate (p : version * view) : bool :=
  isCandidate needleVersion ignoreVersion needle p && bool_decide (sourceColumnNames_ p.2 = sourceColumnNames_ needle) &&
  bool_decide (dataPart p.2 (getNumberOfColumns needle) = dataPart needle (getNumberOfColumns needle)).
Lemma isDuplicate_spec v w : isDuplicate (v, w) = true <-> duplicateOf needleVersion ignoreVersion needle v w.
Proof.
  unfold isDuplicate, isCandidate. cbn [fst snd]. rewrite !andb_true_iff, !negb_true_iff, !bool_decide_eq_true, !Nat.eqb_eq, Z.eqb_eq.
  assert (Hneq : forall u : version, TableVersion.eqb v u = false <-> v <> u) by (intros u; destruct (eqb_spec v u); split; congruence).
  rewrite !Hneq. split.
  - intros [[[[[[[H1 H2] H3] H4] H5] H6] H7] H8]. by constructor.
  - intros [(H1 & H2 & H3) [H4 H5] H6 H7]. split_and!; try done. apply (f_equal length) in H7. unfold dataPart in H7. by rewrite !length_map in H7.
Qed.
Lemma duplicateLoop_step p views : uniform p.2 ->
  duplicateLoop needleVersion ignoreVersion needle (p :: views) =
    if isDuplicate p then Ok p.1 else duplicateLoop needleVersion ignoreVersion needle views.
Proof.
  intros Hu. cbn [duplicateLoop]. unfold isDuplicate. destruct (isCandidate needleVersion ignoreVersion needle p) eqn:Hc; [|done]. cbn [negb andb].
  unfold isCandidate in Hc. rewrite !andb_true_iff, !Nat.eqb_eq in Hc. destruct Hc as [[[[[_ _] _] Hrows] Hcols] _].
  rewrite sameNames_spec. case_bool_decide; [|done]. rewrite dataColumns_small by done. rewrite sameRows_spec; [done|done|..].
  - eapply Forall_impl; [exact Hu|]. intros row Hrow. cbn in Hrow. rewrite Hrow, Hcols. lia.
  - eapply Forall_impl; [exact needle_shape|]. intros row Hrow. cbn in Hrow. rewrite Hrow. lia.
Qed.
Lemma duplicateLoop_newest views : sorted views -> Forall (fun p => uniform p.2) views ->
  exists v, duplicateLoop needleVersion ignoreVersion needle (rev views) = Ok v /\
    ((v = TableVersion.default /\ forall j x, (j, x) ∈ views -> ~ duplicateOf needleVersion ignoreVersion needle j x) \/
     exists w, (v, w) ∈ views /\ duplicateOf needleVersion ignoreVersion needle v w /\
       forall j x, (j, x) ∈ views -> duplicateOf needleVersion ignoreVersion needle j x -> j = v \/ key_lt j v = true).
Proof.
  induction views as [|[v w] views IH] using rev_ind; intros Hs Hu.
  - exists TableVersion.default. split; [done|]. left. split; [done|]. by intros j x ?%elem_of_nil.
  - apply sorted_snoc in Hs as [Hs Hlast]. apply Forall_app in Hu as [Hu Hw]. apply Forall_cons in Hw as [Hw _].
    rewrite rev_app_distr. cbn [rev app]. rewrite (duplicateLoop_step (v, w) _ Hw). destruct (isDuplicate (v, w)) eqn:Hd.
    + exists v. split; [done|]. right. exists w. split_and!; [apply elem_of_app; right; left|by apply isDuplicate_spec|].
      intros j x [Hin|Hin]%elem_of_app _; [|apply list_elem_of_singleton in Hin; injection Hin as -> ->; by left].
      right. apply Hlast. apply list_elem_of_fmap. by exists (j, x).
    + assert (Hno : ~ duplicateOf needleVersion ignoreVersion needle v w) by (rewrite <- isDuplicate_spec; congruence).
      destruct (IH Hs Hu) as (u & Hr & Hcase). exists u. split; [done|]. destruct Hcase as [[-> Hnone]|(y & Hy & Hdup & Hmax)]; [left|right].
      * split; [done|]. intros j x [Hin|Hin]%elem_of_app; [by apply (Hnone j x)|]. apply list_elem_of_singleton in Hin. injection Hin as Hj Hx. by subst j x.
      * exists y. split_and!; [apply elem_of_app; by left|done|]. intros j x [Hin|Hin]%elem_of_app Hjx; [by apply (Hmax j x)|].
        apply list_elem_of_singleton in Hin. injection Hin as Hj Hx. by subst j x.
Qed.
End Duplicates.

(** The version answered holds the same rows, up to author and time, under the
    same source columns, and is the newest such version; the invalid version is
    answered when there is none. *)
Theorem checkForDuplicate_newest s needleVersion ignoreVersion needle :
  valid s -> find (tableViews_ s) needleVersion = Some needle ->
  (2 <= getNumberOfColumns needle)%nat -> Z.of_nat (getNumberOfColumns needle) < 2 ^ 32 ->
  Forall (fun row => length row = getNumberOfColumns needle) (theDataView_ needle) ->
  (forall v w, find (tableViews_ s) v = Some w -> uniform w) ->
  exists v, checkForDuplicate s needleVersion ignoreVersion = Ok v /\
    ((v = TableVersion.default /\ forall j x, find (tableViews_ s) j = Some x -> ~ duplicateOf needleVersion ignoreVersion needle j x) \/
     exists w, find (tableViews_ s) v = Some w /\ duplicateOf needleVersion ignoreVersion needle v w /\
       forall j x, find (tableViews_ s) j = Some x -> duplicateOf needleVersion ignoreVersion needle j x ->
         TableVersion.version_ j <= TableVersion.version_ v).
Proof.
  intros Hs Hn Hc Hb Hr Hu. pose proof (valid_sorted _ Hs) as Hsort. unfold checkForDuplicate. rewrite Hn.
  destruct (duplicateLoop_newest needleVersion ignoreVersion needle Hc Hb Hr (tableViews_ s) Hsort) as (v & Hv & Hcase).
  { apply Forall_forall. intros [v w] Hin. cbn. apply (Hu v). by apply in_find. }
  exists v. split; [done|]. destruct Hcase as [[-> Hnone]|(w & Hw & Hd & Hmax)]; [left|right].
  - split; [done|]. intros j x Hj. apply Hnone. by apply find_in.
  - exists w. split_and!; [by apply in_find|done|]. intros j x Hj Hjx. destruct (Hmax j x (find_in _ _ _ Hj) Hjx) as [->|H%ltb_key]; lia.
Qed.

(** ** What no difference means *)

(** Without a report a check goes on, or ends the comparison with a difference. *)
Definition decides (m : M diff bool) (P : Prop) : Prop := forall d, noDifference d = true ->
  (m d = (Ok true, d) /\ P) \/ (exists d', m d = (Ok false, d') /\ noDifference d' = false /\ ~ P).
Lemma decides_iff m P Q : decides m P -> (P <-> Q) -> decides m Q.
Proof. intros Hm HPQ d Hd. destruct (Hm d Hd) as [[H HP]|(d' & H & Hd' & HP)]; [left|right]; [split; [done|by apply HPQ]|].
  exists d'. split_and!; [done|done|]. intros HQ. by apply HP, HPQ. Qed.
Lemma decides_unless b message : decides (unless false b message) (b = true).
Proof. intros d Hd. destruct b; [by left|right]. by eexists. Qed.
Lemma decides_then m n P Q : decides m P -> (P -> decides n Q) -> decides (andThen m n) (P /\ Q).
Proof.
  intros Hm Hn d Hd. unfold andThen. destruct (Hm d Hd) as [[H HP]|(d' & H & Hd' & HP)].
  - rewrite (bind_ok m _ d true d H). destruct (Hn HP d Hd) as [[H' HQ]|(d' & H' & Hd' & HQ)]; [by left|right]. exists d'.
    split_and!; [done|done|intros [_ H2]; by apply HQ].
  - rewrite (bind_ok m _ d false d' H). right. exists d'. split_and!; [done|done|intros [H1 _]; by apply HP].
Qed.
Lemma decides_andThen m n P Q : decides m P -> decides n Q -> decides (andThen m n) (P /\ Q).
Proof. intros Hm Hn. by apply decides_then. Qed.
Lemma decides_forAll {A} (l : list A) f (P : A -> Prop) : (forall a, a ∈ l -> decides (f a) (P a)) -> decides (forAll l f) (forall a, a ∈ l -> P a).
Proof.
  induction l as [|a l IH]; intros Hf.
  - intros d Hd. left. split; [done|]. by intros a ?%elem_of_nil.
  - cbn [forAll]. eapply decides_iff; [apply decides_andThen; [apply Hf; left|apply IH; intros b Hb; apply Hf; by right]|].
    split; [intros [Ha Hl] b [->|Hb]%elem_of_cons; [done|by apply Hl]|]. intros H. split; [apply H; left|intros b Hb; apply H; by right].
Qed.
Lemma decides_lift {A} (r : result A) f a P : r = Ok a -> decides (f a) P -> decides (x ← lift r; f x) P.
Proof. intros -> Hf d Hd. rewrite (bind_ok (lift (Ok a)) _ d a d) by done. by apply Hf. Qed.

(** Two views with the same columns and unique identifiers. *)
Record comparable (view1 view2 : view) (c : nat) : Prop := {
  comparable_names : map name_ (columnsInfo_ view1) = map name_ (columnsInfo_ view2);
  comparable_columns : (2 <= getNumberOfColumns view1)%nat /\ Z.of_nat (getNumberOfColumns view1) < 2 ^ 32;
  comparable_rows1 : Forall (fun row => length row = getNumberOfColumns view1) (theDataView_ view1);
  comparable_rows2 : Forall (fun row => length row = getNumberOfColumns view1) (theDataView_ view2);
  comparable_uid : colUID_ view1 = Some c /\ colUID_ view2 = Some c /\ (c < getNumberOfColumns view1 - 2)%nat;
  comparable_unique1 : NoDup (map (fun row => nth c row []) (theDataView_ view1));
  comparable_unique2 : NoDup (map (fun row => nth c row []) (theDataView_ view2));
}.

Lemma uidAt_row w c row r : colUID_ w = Some c -> theDataView_ w !! row = Some r -> (c < length r)%nat -> uidAt w row = Ok (nth c r []).
Proof.
  intros Hc Hr Hl. unfold uidAt, getColUID, cell. rewrite Hc. cbn. rewrite Hr. destruct (lookup_lt_is_Some_2 r c Hl) as [x Hx].
  rewrite Hx. f_equal. symmetry. by apply nth_lookup_Some.
Qed.
Lemma uids_all w c : colUID_ w = Some c -> Forall (fun r => c < length r)%nat (theDataView_ w) -> uids w = Ok (map (fun r => nth c r []) (theDataView_ w)).
Proof.
  intros Hc Hl. unfold uids.
  assert (H : forall pre post, theDataView_ w = pre ++ post -> uidsFrom w (seq (length pre) (length post)) = Ok (map (fun r => nth c r []) post)).
  { intros pre post. revert pre. induction post as [|r post IH]; intros pre Hd; [done|]. cbn [length seq uidsFrom map].
    assert (Hr : theDataView_ w !! length pre = Some r) by (rewrite Hd; by apply list_lookup_middle).
    rewrite (uidAt_row w c _ r Hc Hr) by (by apply (Forall_lookup_1 _ _ _ _ Hl Hr)). cbn [mbind result_bind].
    specialize (IH (pre ++ [r])). rewrite length_app in IH. cbn [length] in IH. replace (length pre + 1)%nat with (S (length pre)) in IH by lia.
    rewrite IH by by rewrite <- app_assoc. done. }
  apply (H []). done.
Qed.
Lemma firstThat_spec l p (q : nat -> bool) : (forall i, i ∈ l -> p i = Ok (q i)) ->
  firstThat l p = Ok (List.find q l).
Proof.
  induction l as [|i l IH]; intros H; [done|]. cbn. rewrite H by left. cbn. destruct (q i); [done|]. apply IH. intros j Hj. apply H. by right.
Qed.

Section Comparable.
Context (v1 v2 : version) (records : bool) (view1 view2 : view) (c : nat) (comp : comparable view1 view2 c).
Abbreviation cols := (getNumberOfColumns view1).

Lemma columns_agree : getNumberOfColumns view2 = cols.
Proof. pose proof (f_equal length (comparable_names _ _ _ comp)) as H. by rewrite !length_map in H. Qed.
Lemma columns_below w : getNumberOfColumns w = cols -> columnsBelow w (dataColumns cols) = seq 0 (cols - 2).
Proof.
  intros Hw. unfold columnsBelow. rewrite Hw, dataColumns_small by apply (comparable_columns _ _ _ comp).
  destruct (comparable_columns _ _ _ comp) as [H2 _]. replace (S cols) with ((cols - 2) + 3)%nat by lia.
  rewrite seq_app, List.filter_app. cbn [plus].
  rewrite (List.forallb_filter_id _ (seq 0 (cols - 2))).
  2: { apply forallb_forall. intros i Hi%in_seq. apply Z.ltb_lt. lia. }
  cbn [seq List.filter]. rewrite !(proj2 (Z.ltb_ge _ _)) by lia. by rewrite app_nil_r.
Qed.
Lemma sameColumn_here col : (col < cols)%nat -> sameColumn view1 view2 col col = Ok true.
Proof.
  intros Hc. unfold sameColumn, getColumnInfo. destruct (lookup_lt_is_Some_2 (columnsInfo_ view1) col Hc) as [ci Hci].
  pose proof (f_equal (fun l => l !! col) (comparable_names _ _ _ comp)) as Hn. cbn in Hn.
  change (map name_ ?l) with (name_ <$> l) in Hn. rewrite !list_lookup_fmap, Hci in Hn. cbn in Hn.
  rewrite Hci. destruct (columnsInfo_ view2 !! col) as [ci2|]; [|done]. cbn in *. injection Hn as ->. by rewrite textEq_refl.
Qed.
Lemma compareColumn_decides row row2 col r1 r2 : theDataView_ view1 !! row = Some r1 -> theDataView_ view2 !! row2 = Some r2 -> (col < cols - 2)%nat ->
  decides (compareColumn false records v1 v2 view1 view2 row row2 col) (r1 !! col = r2 !! col).
Proof.
  intros H1 H2 Hc. destruct comp as [_ [Hge _] Hr1 Hr2 (Hu1 & _ & Hcu) _ _].
  pose proof (Forall_lookup_1 _ _ _ _ Hr1 H1) as Hl1. pose proof (Forall_lookup_1 _ _ _ _ Hr2 H2) as Hl2. cbn in Hl1, Hl2.
  destruct (lookup_lt_is_Some_2 r1 col) as [x1 Hx1]; [lia|]. destruct (lookup_lt_is_Some_2 r2 col) as [x2 Hx2]; [lia|].
  unfold compareColumn. apply (decides_lift _ _ (Some col)); [unfold mate; by rewrite sameColumn_here by lia|].
  apply (decides_lift _ _ x1); [unfold cell; by rewrite H1, Hx1|]. apply (decides_lift _ _ x2); [unfold cell; by rewrite H2, Hx2|].
  rewrite Hx1, Hx2. unfold textEq. case_bool_decide as He; [subst; intros d Hd; by left|].
  destruct (lookup_lt_is_Some_2 (columnsInfo_ view1) col) as [ci Hci]; [unfold getNumberOfColumns in *; lia|].
  apply (decides_lift _ _ ci); [unfold getColumnInfo; by rewrite Hci|].
  apply (decides_lift _ _ (nth c r1 [])); [apply uidAt_row; [done|done|lia]|].
  intros d Hd. right. eexists. split_and!; [reflexivity|done|congruence].
Qed.
Lemma take_columns (r1 r2 : list text) n : (n <= length r1)%nat -> (n <= length r2)%nat ->
  take n r1 = take n r2 <-> forall col, col ∈ seq 0 n -> r1 !! col = r2 !! col.
Proof.
  intros H1 H2. split.
  - intros He col Hcol%elem_of_seq. rewrite <- (lookup_take_lt r1 n), <- (lookup_take_lt r2 n) by lia. by rewrite He.
  - intros He. apply list_eq. intros i. destruct (decide (i < n)%nat).
    + rewrite !lookup_take_lt by done. apply He, elem_of_seq. lia.
    + rewrite !lookup_take_ge by lia. done.
Qed.
Lemma find_seq_unique (q : nat -> bool) n i : (i < n)%nat -> q i = true -> (forall j, (j < n)%nat -> q j = true -> j = i) -> List.find q (seq 0 n) = Some i.
Proof.
  intros Hi Hq Hu. destruct (List.find q (seq 0 n)) as [j|] eqn:Hf.
  - apply List.find_some in Hf as [Hj%in_seq Hqj]. f_equal. apply Hu; [lia|done].
  - exfalso. pose proof (List.find_none _ _ Hf i) as Hn. rewrite Hq in Hn. discriminate Hn. apply in_seq. lia.
Qed.
Definition uidOf (row : list text) : text := nth c row [].
Lemma sameUID_rows row row2 r1 r2 : theDataView_ view1 !! row = Some r1 -> theDataView_ view2 !! row2 = Some r2 ->
  sameUID view1 view2 row row2 = Ok (textEq (uidOf r1) (uidOf r2)).
Proof.
  intros H1 H2. destruct comp as [_ _ Hr1 Hr2 (Hu1 & Hu2 & Hcu) _ _].
  pose proof (Forall_lookup_1 _ _ _ _ Hr1 H1) as Hl1. pose proof (Forall_lookup_1 _ _ _ _ Hr2 H2) as Hl2. cbn in Hl1, Hl2.
  unfold sameUID. rewrite (uidAt_row view1 c row r1), (uidAt_row view2 c row2 r2) by (done || lia). done.
Qed.
Lemma unique_row i j r r' : theDataView_ view2 !! i = Some r -> theDataView_ view2 !! j = Some r' -> uidOf r = uidOf r' -> i = j.
Proof.
  intros Hi Hj He. apply (NoDup_lookup (uidOf <$> theDataView_ view2) i j (uidOf r)); [apply (comparable_unique2 _ _ _ comp)|..].
  - by rewrite list_lookup_fmap, Hi.
  - by rewrite list_lookup_fmap, Hj, He.
Qed.
Definition matesAgree (r1 : list text) : Prop :=
  forall r2, r2 ∈ theDataView_ view2 -> uidOf r1 = uidOf r2 -> take (cols - 2) r1 = take (cols - 2) r2.
Lemma mate_row row r1 : theDataView_ view1 !! row = Some r1 -> (row < getNumberOfRows view2)%nat ->
  exists m, mate (seq 0 (getNumberOfRows view2)) (sameUID view1 view2 row) row = Ok m /\
    match m with
    | Some row2 => exists r2, theDataView_ view2 !! row2 = Some r2 /\ uidOf r1 = uidOf r2
    | None => forall r2, r2 ∈ theDataView_ view2 -> uidOf r1 <> uidOf r2
    end.
Proof.
  intros H1 Hrow. set (q := fun j => match theDataView_ view2 !! j with Some r2 => textEq (uidOf r1) (uidOf r2) | None => false end).
  assert (Hq : forall j, (j < getNumberOfRows view2)%nat -> sameUID view1 view2 row j = Ok (q j)).
  { intros j Hj. unfold q. destruct (lookup_lt_is_Some_2 (theDataView_ view2) j Hj) as [r2 H2]. rewrite H2. by apply sameUID_rows. }
  assert (Hqr : forall j, q j = true -> exists r2, theDataView_ view2 !! j = Some r2 /\ uidOf r1 = uidOf r2).
  { intros j. unfold q. destruct (theDataView_ view2 !! j) as [r2|]; [|done]. intros H%textEq_spec. by exists r2. }
  unfold mate. rewrite Hq by done. cbn [mbind result_bind]. destruct (q row) eqn:Hqrow; [exists (Some row); split; [done|by apply Hqr]|].
  rewrite (firstThat_spec _ _ q) by (intros j Hj%elem_of_seq; apply Hq; lia). eexists. split; [done|].
  destruct (List.find q _) as [row2|] eqn:Hf.
  - apply Hqr. by apply List.find_some in Hf as [_ Hf].
  - intros r2 [j Hj]%list_elem_of_lookup He. pose proof (List.find_none _ _ Hf j) as Hn. unfold q in Hn. rewrite Hj, He, textEq_refl in Hn.
    discriminate Hn. apply in_seq. apply lookup_lt_Some in Hj. unfold getNumberOfRows. lia.
Qed.
Lemma compareRow_decides row r1 : theDataView_ view1 !! row = Some r1 -> (row < getNumberOfRows view2)%nat ->
  decides (compareRow false records v1 v2 view1 view2 row) (matesAgree r1).
Proof.
  intros H1 Hrow. destruct (mate_row row r1 H1 Hrow) as (m & Hm & Hspec). unfold compareRow. apply (decides_lift _ _ m _ Hm).
  destruct m as [row2|].
  - destruct Hspec as (r2 & H2 & He). rewrite columns_agree, Z.min_id, columns_below by done.
    eapply decides_iff; [apply decides_forAll; intros col Hcol%elem_of_seq; apply compareColumn_decides; [done|done|lia]|].
    pose proof (Forall_lookup_1 _ _ _ _ (comparable_rows1 _ _ _ comp) H1) as Hl1. pose proof (Forall_lookup_1 _ _ _ _ (comparable_rows2 _ _ _ comp) H2) as Hl2.
    cbn in Hl1, Hl2. rewrite <- take_columns by lia. split; [|intros H; apply H; [by eapply list_elem_of_lookup_2|done]].
    intros Ht r3 [j Hj]%list_elem_of_lookup H3. assert (row2 = j) as -> by (apply (unique_row _ _ r2 r3); [done|done|congruence]). congruence.
  - intros d Hd. left. split; [done|]. intros r2 Hr2 He. by destruct (Hspec r2 Hr2).
Qed.

(** The rows are compared up to their order. *)
Lemma dataPart_uid w r : r ∈ theDataView_ w -> length r = cols -> nth c (take (cols - 2) r) [] = uidOf r.
Proof.
  intros _ Hl. destruct (comparable_uid _ _ _ comp) as (_ & _ & Hc). unfold uidOf.
  destruct (lookup_lt_is_Some_2 r c) as [x Hx]; [lia|]. rewrite (nth_lookup_Some r c [] x Hx). apply nth_lookup_Some. by rewrite lookup_take_lt by lia.
Qed.
Lemma dataPart_uids w : Forall (fun row => length row = cols) (theDataView_ w) -> map (fun p => nth c p []) (dataPart w cols) = map uidOf (theDataView_ w).
Proof.
  intros Hl. unfold dataPart. rewrite map_map. apply map_ext_in. intros r Hr%list_elem_of_In. apply (dataPart_uid w); [done|].
  rewrite Forall_forall in Hl. by apply Hl.
Qed.
Lemma dataPart_unique w : Forall (fun row => length row = cols) (theDataView_ w) -> NoDup (map uidOf (theDataView_ w)) -> NoDup (dataPart w cols).
Proof. intros Hl Hn. rewrite <- (dataPart_uids w Hl) in Hn. by apply (NoDup_fmap_1 (fun p => nth c p [])) in Hn. Qed.
Lemma same_records :
  (getNumberOfRows view1 = getNumberOfRows view2 /\ (forall u, u ∈ map uidOf (theDataView_ view1) <-> u ∈ map uidOf (theDataView_ view2)) /\
   forall r1, r1 ∈ theDataView_ view1 -> matesAgree r1) <-> dataPart view1 cols ≡ₚ dataPart view2 cols.
Proof.
  destruct comp as [_ _ Hr1 Hr2 _ Hn1 Hn2]. split.
  - intros (Hrows & Hu & Hm). apply (submseteq_length_Permutation (dataPart view1 cols)); [|unfold dataPart; rewrite !length_map; unfold getNumberOfRows in Hrows; lia].
    apply NoDup_submseteq; [by apply dataPart_unique|]. intros p (r1 & -> & H1)%list_elem_of_fmap.
    assert (Hin : uidOf r1 ∈ map uidOf (theDataView_ view2)) by (apply Hu, list_elem_of_fmap; by exists r1).
    apply list_elem_of_fmap in Hin as (r2 & He & H2). apply list_elem_of_fmap. exists r2. split; [by apply Hm|done].
  - intros Hp. assert (Hup : map uidOf (theDataView_ view1) ≡ₚ map uidOf (theDataView_ view2)).
    { rewrite <- (dataPart_uids view1 Hr1), <- (dataPart_uids view2 Hr2). by apply Permutation_map. }
    split_and!.
    + apply Permutation_length in Hp. unfold dataPart in Hp. by rewrite !length_map in Hp.
    + intros u. by rewrite Hup.
    + intros r1 H1 r2 H2 He. assert (Hin : take (cols - 2) r1 ∈ dataPart view2 cols).
      { rewrite <- Hp. apply list_elem_of_fmap. by exists r1. }
      apply list_elem_of_fmap in Hin as (r3 & Ht & H3). rewrite Ht. f_equal.
      assert (He3 : uidOf r3 = uidOf r2).
      { rewrite <- He. rewrite Forall_forall in Hr1, Hr2. rewrite <- (dataPart_uid view1 r1), <- (dataPart_uid view2 r3) by auto. by rewrite Ht. }
      apply list_elem_of_lookup in H2 as [j Hj]. apply list_elem_of_lookup in H3 as [i Hi].
      assert (i = j) as -> by by apply (unique_row i j r3 r2). congruence.
Qed.

Lemma recordNames_decides : decides (recordNames false v1 v2 view1 view2)
  (forall u, u ∈ map uidOf (theDataView_ view1) <-> u ∈ map uidOf (theDataView_ view2)).
Proof.
  destruct comp as [_ _ Hr1 Hr2 (Hu1 & Hu2 & Hcu) _ _]. unfold recordNames.
  apply (decides_lift _ _ _ _ (uids_all view1 c Hu1 ltac:(eapply Forall_impl; [exact Hr1|]; intros r H; cbn in H; lia))).
  apply (decides_lift _ _ _ _ (uids_all view2 c Hu2 ltac:(eapply Forall_impl; [exact Hr2|]; intros r H; cbn in H; lia))).
  eapply decides_iff; [apply decides_andThen; apply decides_forAll; intros u _; apply decides_unless|]. cbn beta. split.
  - intros [H1 H2] u. split; intros Hu; [specialize (H1 u)|specialize (H2 u)]; rewrite elem_of_sortedSet, bool_decide_eq_true in *; auto.
  - intros H. split; intros u Hu; rewrite elem_of_sortedSet in Hu; apply bool_decide_eq_true, H, Hu.
Qed.
Lemma compareRows_decides : getNumberOfRows view1 = getNumberOfRows view2 ->
  decides (compareRows false records v1 v2 view1 view2) (forall r1, r1 ∈ theDataView_ view1 -> matesAgree r1).
Proof.
  intros Hrows. unfold compareRows. rewrite <- Hrows, Nat.min_id.
  apply (decides_iff _ (forall row, row ∈ seq 0 (getNumberOfRows view1) -> forall r1, theDataView_ view1 !! row = Some r1 -> matesAgree r1)).
  - apply decides_forAll. intros row Hrow%elem_of_seq. destruct (lookup_lt_is_Some_2 (theDataView_ view1) row) as [r1 H1]; [unfold getNumberOfRows in Hrow; lia|].
    eapply decides_iff; [apply (compareRow_decides row r1 H1); lia|]. split; [intros H r Hr; rewrite H1 in Hr; by injection Hr as <-|intros H; by apply H].
  - split; [|intros H row _ r1 Hr1; apply H; by eapply list_elem_of_lookup_2].
    intros H r1 [row Hr]%list_elem_of_lookup. apply (H row); [|done]. apply elem_of_seq. apply lookup_lt_Some in Hr. unfold getNumberOfRows. lia.
Qed.
Lemma columnNames_decides : decides (columnNames false v1 v2 view1 view2) (sourceColumnNames_ view1 = sourceColumnNames_ view2).
Proof.
  eapply decides_iff; [apply decides_andThen; apply decides_forAll; intros u _; apply decides_unless|].
  cbn beta. unfold names1, names2. setoid_rewrite bool_decide_eq_true. setoid_rewrite elem_of_sortedSet. setoid_rewrite elem_of_elements. split.
  - intros (H1 & H2). apply set_eq. intros x. split; [apply H1|apply H2].
  - by intros ->.
Qed.
Lemma compareViews_decides d : noDifference d = true ->
  exists b d', compareViews false records v1 v2 view1 view2 d = (Ok b, d') /\
    (b = true <-> sourceColumnNames_ view1 = sourceColumnNames_ view2 /\ dataPart view1 cols ≡ₚ dataPart view2 cols).
Proof.
  intros Hd. unfold compareViews.
  match goal with |- context [andThen ?a ?b ≫= _] => set (checks := andThen a b) end.
  assert (Hdec : decides checks (sourceColumnNames_ view1 = sourceColumnNames_ view2 /\ dataPart view1 cols ≡ₚ dataPart view2 cols)).
  { eapply decides_iff.
    - apply decides_andThen; [apply decides_unless|]. apply decides_andThen; [apply columnNames_decides|].
      apply decides_then; [apply decides_unless|]. intros Hrows%Nat.eqb_eq. apply decides_andThen; [apply recordNames_decides|by apply compareRows_decides].
    - rewrite <- same_records, !Nat.eqb_eq. unfold names1, names2. split; [intros (_ & H1 & H2); by split|]. intros [H1 H2]. by rewrite H1. }
  destruct (Hdec d Hd) as [[H HP]|(d' & H & Hd' & HP)].
  - exists true, d. rewrite (bind_ok checks _ d true d H), (bind_ok (gets id) _ d d d) by done. unfold id. by rewrite Hd.
  - exists false, d'. rewrite (bind_ok checks _ d false d' H), (bind_ok (gets id) _ d' d' d') by done. unfold id. by rewrite Hd'.
Qed.
End Comparable.

(** C33: Two versions with the same columns and unique identifiers show no
    difference exactly if they have the same source columns and the same rows,
    in any order and up to author and time. *)
Theorem diffTwoVersions_same_rows records s v1 v2 view1 view2 c d :
  find (tableViews_ s) v1 = Some view1 -> find (tableViews_ s) v2 = Some view2 -> comparable view1 view2 c ->
  exists b d', diffTwoVersions false records s v1 v2 d = (Ok b, d') /\
    (b = true <-> sourceColumnNames_ view1 = sourceColumnNames_ view2 /\
       dataPart view1 (getNumberOfColumns view1) ≡ₚ dataPart view2 (getNumberOfColumns view1)).
Proof.
  intros H1 H2 Hc. unfold diffTwoVersions. rewrite H1, H2. rewrite (bind_ok (modify _) _ d tt _ eq_refl).
  by apply (compareViews_decides v1 v2 records view1 view2 c Hc).
Qed.

(** ** Runs *)

(** A view loaded twice and edited without a change is found again; ignoring the
    newest version, the older one is. *)
Lemma uniform_check (views : list (version * view)) : forallb (fun p => forallb (fun row => length row =? getDataColumnSize p.2)%nat (theDataView_ p.2)) views = true ->
  forall v w, (v, w) ∈ views -> uniform w.
Proof.
  intros H v w Hin. rewrite forallb_forall in H. apply list_elem_of_In, H in Hin. rewrite forallb_forall in Hin. apply Forall_forall.
  intros row Hrow%list_elem_of_In. by apply Nat.eqb_eq, Hin.
Qed.
Lemma edited_uniform v w : find (tableViews_ edited) v = Some w -> uniform w.
Proof. intros Hf%find_in. revert Hf. apply uniform_check. by vm_compute. Qed.
Definition needleVersion : version := TableVersion.Mk 4294967294.
Lemma checkForDuplicate_newest_witness : exists needle,
  find (tableViews_ edited) needleVersion = Some needle /\
  checkForDuplicate edited needleVersion TableVersion.default = Ok (TableVersion.Mk 2) /\
  checkForDuplicate edited needleVersion (TableVersion.Mk 2) = Ok (TableVersion.Mk 1) /\
  exists w, duplicateOf needleVersion TableVersion.default needle (TableVersion.Mk 2) w.
Proof.
  destruct (find (tableViews_ edited) needleVersion) as [needle|] eqn:F; [|by vm_compute in F].
  assert (B : (2 <=? getNumberOfColumns needle)%nat && (Z.of_nat (getNumberOfColumns needle) <? 2 ^ 32) &&
    forallb (fun row => length row =? getNumberOfColumns needle)%nat (theDataView_ needle) = true).
  { vm_compute in F. injection F as <-. by vm_compute. }
  apply andb_true_iff in B as [[B1%Nat.leb_le B2%Z.ltb_lt]%andb_true_iff B3]. rewrite forallb_forall in B3.
  assert (B4 : Forall (fun row => length row = getNumberOfColumns needle) (theDataView_ needle)).
  { apply Forall_forall. intros row Hrow%list_elem_of_In. by apply Nat.eqb_eq, B3. }
  destruct (checkForDuplicate_newest edited needleVersion TableVersion.default needle edited_valid F B1 B2 B4 edited_uniform) as (v & E & H).
  assert (E1 : checkForDuplicate edited needleVersion TableVersion.default = Ok (TableVersion.Mk 2)) by by vm_compute.
  rewrite E1 in E. apply Ok_inj in E. subst v. destruct H as [[H _]|(w & _ & H & _)]; [discriminate H|].
  exists needle. split; [reflexivity|]. split; [reflexivity|]. split; [by vm_compute|]. exists w. exact H.
Defined.

(** The rows of the sample in another order, with another author. *)
Definition reordered : view := set_data sample (rev (theDataView_ sample)).
Definition other : view := set_data sample (take 2 (theDataView_ sample) ++ [sampleRow "FE3" "A" "P3" "1"]).
Definition versions : TableBase :=
  mkBase 20 (txt "FETable") None sample [(TableVersion.Mk 1, sample); (TableVersion.Mk 2, reordered); (TableVersion.Mk 3, other)].
Lemma comparable_sample w : columnsInfo_ w = columnsInfo_ sample -> colUID_ w = Some 0%nat ->
  forallb (fun row => length row =? getNumberOfColumns sample)%nat (theDataView_ w) = true -> bool_decide (NoDup (map (fun row => nth 0 row []) (theDataView_ w))) = true ->
  comparable sample w 0.
Proof.
  intros Hc Hu Hl Hn. assert (H : Forall (fun row => length row = getNumberOfColumns sample) (theDataView_ w)).
  { rewrite forallb_forall in Hl. apply Forall_forall. intros row Hrow%list_elem_of_In. by apply Nat.eqb_eq, Hl. }
  constructor; [by rewrite Hc|split; cbn; lia|apply sample_rectangular|exact H|split_and!; [done|exact Hu|cbn; lia]| |by apply bool_decide_eq_true in Hn].
  apply (bool_decide_unpack _). by vm_compute.
Qed.
Definition start : diff := mkDiff true [] ∅.
Lemma diffTwoVersions_same_rows_witness :
  (diffTwoVersions false false versions (TableVersion.Mk 1) (TableVersion.Mk 2) start).1 = Ok true /\
  dataPart sample 7 ≡ₚ dataPart reordered 7 /\
  (diffTwoVersions false false versions (TableVersion.Mk 1) (TableVersion.Mk 3) start).1 = Ok false /\
  ~ dataPart sample 7 ≡ₚ dataPart other 7.
Proof.
  destruct (diffTwoVersions_same_rows false versions (TableVersion.Mk 1) (TableVersion.Mk 2) sample reordered 0 start eq_refl eq_refl
    (comparable_sample reordered eq_refl eq_refl ltac:(by vm_compute) ltac:(by vm_compute))) as (b & d & E & H).
  destruct (diffTwoVersions_same_rows false versions (TableVersion.Mk 1) (TableVersion.Mk 3) sample other 0 start eq_refl eq_refl
    (comparable_sample other eq_refl eq_refl ltac:(by vm_compute) ltac:(by vm_compute))) as (b' & d' & E' & H').
  assert (E1 : (diffTwoVersions false false versions (TableVersion.Mk 1) (TableVersion.Mk 2) start).1 = Ok true) by by vm_compute.
  assert (E2 : (diffTwoVersions false false versions (TableVersion.Mk 1) (TableVersion.Mk 3) start).1 = Ok false) by by vm_compute.
  pose proof (run_result _ _ _ _ _ E E1) as R. apply Ok_inj in R. pose proof (run_result _ _ _ _ _ E' E2) as R'. apply Ok_inj in R'. subst b b'.
  split; [exact E1|]. split; [exact (proj2 (proj1 H eq_refl))|]. split; [exact E2|].
  intros P. discriminate (proj2 H' (conj eq_refl P)).
Defined.
End TableCompare.
