(* ===== verification/TableMerge.v ===== *)
(** * Merging two views of a table

    [TableBase::mergeViews] of src/otsdaq/TableCore/TableBase.cc: a new
    temporary version from view A and view B.  Records of B with a UID that A
    has are skipped, replace those of A, or are renamed; the new names are put
    into the conversion maps, which the caller passes from table to table, so
    that links to renamed records and groups can be converted as well.

    The text of [mergeReport] and the traces are left out: they repeat what is
    written to the view and to the maps. *)

From S2P Require Import Prelude OrderedMap CText Versions StringMacros StringLists StringExpansion Accounts Doubles TableViewColumnInfo TableView TableRows TableInit TableBase.

(** The order of [std::string] and [std::pair]. *)
#[export] Instance text_ordered : Ordered text := fun a b => textLeb a b && negb (textEq a b).
#[export] Instance pair_ordered {K L} `{Ordered K, Ordered L} : Ordered (K * L) := fun p q =>
  key_lt p.1 q.1 || (negb (key_lt q.1 p.1) && key_lt p.2 q.2).
#[export] Instance text_laws : OrderedLaws text.
Proof.
  split; unfold key_lt, text_ordered; intros *; rewrite ?andb_true_iff, ?negb_true_iff, ?andb_false_iff, ?negb_false_iff, ?textEq_false, ?textEq_spec.
  - by right.
  - intros [H1 N1] [H2 N2]. split; [by apply (textLeb_trans _ j)|]. intros ->. apply N1. by apply textLeb_antisym.
  - intros [H1|H1] [H2|H2]; try done. destruct (textLeb_total i j); congruence.
Qed.
Section PairLaws.
Context {K L : Type} {ordK : Ordered K} {ordL : Ordered L} {lawsK : OrderedLaws K} {lawsL : OrderedLaws L}.
Lemma pair_lt (p q : K * L) : key_lt p q = true <-> key_lt p.1 q.1 = true \/ (p.1 = q.1 /\ key_lt p.2 q.2 = true).
Proof.
  unfold key_lt at 1, pair_ordered. rewrite orb_true_iff, andb_true_iff, negb_true_iff. split.
  - intros [H|[H1 H2]]; [by left|]. destruct (key_lt p.1 q.1) eqn:H; [by left|right]. split; [by apply key_total|done].
  - intros [H|[-> H]]; [by left|right]. by rewrite key_irrefl.
Qed.
#[export] Instance pair_laws : OrderedLaws (K * L).
Proof.
  split.
  - intros p. apply not_true_iff_false. rewrite pair_lt. intros [H|[_ H]]; by rewrite key_irrefl in H.
  - intros p q r. rewrite !pair_lt. intros [H1|[E1 H1]] [H2|[E2 H2]].
    + left. by apply (key_trans _ q.1).
    + left. by rewrite <- E2.
    + left. by rewrite E1.
    + right. split; [congruence|by apply (key_trans _ q.2)].
  - intros [k l] [k' l']. rewrite <- !not_true_iff_false, !pair_lt. cbn. intros H1 H2.
    assert (Hk : k = k') by (apply key_total; apply not_true_iff_false; tauto). subst k'.
    f_equal. apply key_total; apply not_true_iff_false; tauto.
Qed.
End PairLaws.

Module TableMerge.
Import OrderedMap TableViewColumnInfo TableView TableRows TableInit TableBase.
Abbreviation version := TableVersion.TableVersion.
Abbreviation view := TableView.TableView.

Inductive MergeApproach := SKIP | REPLACE | RENAME.

(** Keys: table and UID; table, link index and group. *)
Definition uidMap : Type := list (text * text * text).
Definition groupidMap : Type := list (text * (text * text) * text).
Record merge := mkMerge { table : TableBase; uidConversionMap : uidMap; groupidConversionMap : groupidMap }.
(** [map[key] = value] *)
Definition assign {K A} `{Ordered K} (m : list (K * A)) (k : K) (a : A) : list (K * A) := update (emplace m k a) k (fun _ => a).
Definition convertUID (k : text * text) (id : text) : M merge unit :=
  modify (fun st => mkMerge (table st) (assign (uidConversionMap st) k id) (groupidConversionMap st)).
Definition convertGroupID (k : text * (text * text)) (id : text) : M merge unit :=
  modify (fun st => mkMerge (table st) (uidConversionMap st) (assign (groupidConversionMap st) k id)).
(** A member function of the table, and of its destination view. *)
Definition onTable {A} (m : M TableBase A) : M merge A := fun st =>
  let '(r, s) := m (table st) in (r, mkMerge s (uidConversionMap st) (groupidConversionMap st)).

(** ** New names *)

(** The name without the digits at its end, and the number after them; [atoi]
    of [INT_MAX] plus one overflows. *)
Definition splitId (str : text) : result (text * Z) :=
  let '(uniqueIdBase, digits) := splitTrailing is_digit str in
  match digits with
  | [] => Ok (str, 0)
  | _ => let n := Accounts.atoi digits in if n =? 2 ^ 31 - 1 then Throw Undefined else Ok (uniqueIdBase, u32 (n + 1))
  end.
(** The numbers are tried one after the other.  The fuel is the number of names
    that may be taken. *)
Fixpoint freeId (fuel : nat) (taken : text -> result bool) (uniqueIdBase : text) (uniqueId : Z) : result text :=
  let uniqueIdString := uniqueIdBase ++ to_string_unsigned uniqueId in
  found ← taken uniqueIdString;
  if negb (found : bool) then Ok uniqueIdString
  else match fuel with O => Throw Undefined | S fuel => freeId fuel taken uniqueIdBase (u32 (uniqueId + 1)) end.
Definition newId (fuel : nat) (taken : text -> result bool) (str : text) : result text :=
  '(uniqueIdBase, uniqueId) ← splitId str; freeId fuel taken uniqueIdBase uniqueId.

Section Merge.
Variables (getenv : text -> option text) (systemVariables_ : gmap text (gmap text text)) (expansionFuel : nat).
Definition value (w : view) (row col : nat) : result text := getValueAsString getenv systemVariables_ expansionFuel w row col true.

(** Whether some row of a list satisfies the test; later rows are not read. *)
Fixpoint someRow (rows : list nat) (p : nat -> result bool) : result bool :=
  match rows with [] => Ok false | r :: rows => b ← p r; if (b : bool) then Ok true else someRow rows p end.
Definition anyRow (w : view) (p : nat -> result bool) : result bool := someRow (seq 0 (getNumberOfRows w)) p.
Definition hasValue (w : view) (col : nat) (s : text) (row : nat) : result bool := x ← value w row col; Ok (textEq x s).
Definition orElse (a b : result bool) : result bool := x ← a; if (x : bool) then Ok true else b.

Variables (sourceViewA sourceViewB : view).

(** ** The conversion maps *)

Definition takenGroup (aGroupids bGroupids localConvertedIds : list text) (id : text) : result bool :=
  Ok (isOneOf aGroupids id || isOneOf bGroupids id || isOneOf localConvertedIds id).
Fixpoint convertGroups (cb : nat) (aGroupids bGroupids todo localConvertedIds : list text) : M merge unit :=
  match todo with
  | [] => mret tt
  | bGroupid :: todo =>
      if negb (isOneOf aGroupids bGroupid) then convertGroups cb aGroupids bGroupids todo localConvertedIds
      else
        id ← lift (newId (length (aGroupids ++ bGroupids ++ localConvertedIds)) (takenGroup aGroupids bGroupids localConvertedIds) bGroupid);
        ci ← lift (getColumnInfo sourceViewB cb);
        index ← lift (getChildLinkIndex (type_ ci));
        name ← gets (fun st => TableBase.tableName_ (table st));
        convertGroupID (name, (index, bGroupid)) id ≫= fun _ =>
        convertGroups cb aGroupids bGroupids todo (localConvertedIds ++ [id])
  end.

(** The other records of B are looked at, not the one in question. *)
Definition takenUID (cb rb : nat) (localConvertedIds : list text) (id : text) : result bool :=
  orElse (anyRow sourceViewA (hasValue sourceViewA cb id))
    (orElse (someRow (List.filter (fun r => negb (r =? rb)%nat) (seq 0 (getNumberOfRows sourceViewB))) (hasValue sourceViewB cb id))
       (Ok (isOneOf localConvertedIds id))).
Definition sameInA (cb rb ra : nat) : result bool := x ← value sourceViewA ra cb; y ← value sourceViewB rb cb; Ok (textEq x y).
Fixpoint convertUIDs (cb : nat) (rows : list nat) (localConvertedIds : list text) : M merge unit :=
  match rows with
  | [] => mret tt
  | rb :: rows =>
      found ← lift (anyRow sourceViewA (sameInA cb rb));
      if negb (found : bool) then convertUIDs cb rows localConvertedIds
      else
        str ← lift (cell sourceViewB rb cb);
        id ← lift (newId (getNumberOfRows sourceViewA + getNumberOfRows sourceViewB + length localConvertedIds) (takenUID cb rb localConvertedIds) str);
        name ← gets (fun st => TableBase.tableName_ (table st));
        uid ← lift (value sourceViewB rb cb);
        convertUID (name, uid) id ≫= fun _ =>
        convertUIDs cb rows (localConvertedIds ++ [id])
  end.
Definition convertColumn (cb : nat) : M merge unit :=
  a ← lift (getColumnInfo sourceViewA cb);
  if negb (isUID (type_ a) || isGroupID (type_ a)) then mret tt
  else
    b ← lift (getColumnInfo sourceViewB cb);
    mockup ← gets (fun st => mockupTableView_ (table st));
    m ← lift (getColumnInfo mockup cb);
    if negb (textEq (type_ a) (type_ b) && textEq (type_ a) (type_ m)) then throw RuntimeError
    else if isGroupID (type_ a) then
      aGroupids ← lift (getSetOfGroupIDs sourceViewA cb None);
      bGroupids ← lift (getSetOfGroupIDs sourceViewB cb None);
      convertGroups cb aGroupids bGroupids (sortedSet bGroupids) []
    else convertUIDs cb (seq 0 (getNumberOfRows sourceViewB)) [].
Definition fillConversionMaps : M merge unit := forEach (seq 0 (getNumberOfColumns sourceViewB)) convertColumn.

(** ** The records of B *)

Variables (author : text) (now : Z) (generateUniqueDataColumns : bool) (destinationVersion : version).
Definition onDestination {A} (m : M view A) : M merge A := onTable (onView destinationVersion m).
Definition destination (st : merge) : result view := match find (tableViews_ (table st)) destinationVersion with Some w => Ok w | None => Throw Undefined end.

(** What is in a map replaces the value of a cell. *)
Definition remap (found : option text) (row col : nat) : M merge unit :=
  match found with Some id => onDestination (setValueAsString id row col) | None => mret tt end.
Definition linkValues (rb cb : nat) : result (nat * text * text) :=
  link ← getChildLink sourceViewB cb;
  match link with
  | Some (_, linkCol, idCol) => tableName ← value sourceViewB rb linkCol; id ← value sourceViewB rb idCol; Ok (idCol, tableName, id)
  | None => Throw Undefined
  end.
(** A text that begins with a slash may be a path to a renamed record.  The
    original name is written in place of itself, not the converted one. *)
Fixpoint textLink (strb : text) (m : uidMap) : option text :=
  match m with
  | [] => None
  | ((tableName, uid), _) :: m =>
      let path := tableName ++ [chr 47] ++ uid in
      match search (fun i => starts_with path (drop i strb)) (seq 0 (S (length strb))) with
      | Some stri => Some (take stri strb ++ path ++ drop (stri + length path) strb)
      | None => textLink strb m
      end
  end.
Definition convertCell (destRow rb cb : nat) : M merge unit :=
  ci ← lift (getColumnInfo sourceViewB cb);
  st ← gets id;
  if isChildLink (type_ ci) then mret tt
  else if isChildLinkUID (type_ ci) then
    '(idCol, tableName, uid) ← lift (linkValues rb cb);
    remap (find (uidConversionMap st) (tableName, uid)) destRow idCol
  else if isChildLinkGroupID (type_ ci) then
    '(idCol, tableName, gid) ← lift (linkValues rb cb);
    index ← lift (getChildLinkIndex (type_ ci));
    remap (find (groupidConversionMap st) (tableName, (index, gid))) destRow idCol
  else if isUID (type_ ci) then
    uid ← lift (value sourceViewB rb cb);
    remap (find (uidConversionMap st) (TableBase.tableName_ (table st), uid)) destRow cb
  else if isGroupID (type_ ci) then
    index ← lift (getChildLinkIndex (type_ ci));
    gid ← lift (value sourceViewB rb cb);
    remap (find (groupidConversionMap st) (TableBase.tableName_ (table st), (index, gid))) destRow cb
  else
    strb ← lift (value sourceViewB rb cb);
    if (length (TableBase.tableName_ (table st)) + 2 <? length strb)%nat && match strb with c :: _ => (c =? chr 47)%char | [] => false end
    then remap (textLink strb (uidConversionMap st)) destRow cb
    else mret tt.
(** The row number of the copy; there is one row to copy. *)
Definition copyRecord (generate : bool) (rb : nat) : M merge (option nat) :=
  onDestination (copyRows author now sourceViewB rb (Some 1%nat) None generate []).
Definition renameRecord (rb : nat) : M merge unit :=
  destRow ← copyRecord generateUniqueDataColumns rb;
  match destRow with
  | Some destRow => forEach (seq 0 (getNumberOfColumns sourceViewB)) (convertCell destRow rb)
  | None => throw Undefined
  end.

(** The first record of the destination with the UID of the record of B. *)
Fixpoint conflictLoop (dest : view) (colUID rb : nat) (rows : list nat) : result (option nat) :=
  match rows with
  | [] => Ok None
  | row :: rows =>
      x ← value dest row colUID;
      y ← value sourceViewB rb colUID;
      if textEq x y then Ok (Some row) else conflictLoop dest colUID rb rows
  end.
(** [destSize] is the number of records of the destination. *)
Definition mergeRecord (replace : bool) (colUID rb : nat) : M merge unit :=
  dest ← (fun st => lift (destination st) st);
  conflict ← lift (conflictLoop dest colUID rb (seq 0 (getNumberOfRows dest)));
  match conflict with
  | None => copyRecord false rb ≫= fun _ => mret tt
  | Some destRow =>
      if replace then onDestination (deleteRow destRow) ≫= fun _ => copyRecord false rb ≫= fun _ => mret tt
      else mret tt
  end.
Definition mergeRecords (approach : MergeApproach) : M merge unit :=
  mockup ← gets (fun st => mockupTableView_ (table st));
  colUID ← lift (getColUID mockup);
  forEach (seq 0 (getNumberOfRows sourceViewB)) (fun rb =>
    match approach with
    | RENAME => renameRecord rb
    | REPLACE => mergeRecord true colUID rb
    | SKIP => mergeRecord false colUID rb
    end).
End Merge.

(** ** The merge *)

Definition isRename (approach : MergeApproach) : bool := match approach with RENAME => true | _ => false end.
Section MergeViews.
Variables (getenv : text -> option text) (systemVariables_ : gmap text (gmap text text)) (expansionFuel : nat).

(** [created], [made] and [copied] are the clock when the view is constructed
    and at the two copies, [now] at the rows. *)
Definition mergeViews (sourceViewA sourceViewB : view) (destinationVersion : version) (author : text) (mergeApproach : MergeApproach)
    (fillRecordConversionMaps applyRecordConversionMaps generateUniqueDataColumns : bool) (created made copied now : Z) : M merge version :=
  mockup ← gets (fun st => mockupTableView_ (table st));
  if negb (getNumberOfColumns sourceViewA =? getNumberOfColumns mockup)%nat then throw RuntimeError
  else if negb (getNumberOfColumns sourceViewB =? getNumberOfColumns mockup)%nat then throw RuntimeError
  else
    (if fillRecordConversionMaps && isRename mergeApproach
     then fillConversionMaps getenv systemVariables_ expansionFuel sourceViewA sourceViewB else mret tt) ≫= fun _ =>
    if negb applyRecordConversionMaps then mret TableVersion.default
    else
      v ← onTable (createTemporaryView TableVersion.default destinationVersion created made);
      catch_all
        (onTable (copyInto v sourceViewA author copied copied) ≫= fun _ =>
         mergeRecords getenv systemVariables_ expansionFuel sourceViewB author now generateUniqueDataColumns v mergeApproach)
        (fun e => onTable (eraseView v) ≫= fun _ => throw e) ≫= fun _ =>
      mret v.
End MergeViews.

(** ** Skipping and replacing *)

Section Conflicts.
Context (getenv : text -> option text) (systemVariables_ : gmap text (gmap text text)) (expansionFuel : nat).
Context (A B : view) (c : nat) (author : text) (now : Z) (v : version).
Abbreviation value := (TableMerge.value getenv systemVariables_ expansionFuel).
Definition plain (x : text) : Prop := StringExpansion.convertEnvironmentVariables getenv systemVariables_ expansionFuel x = Ok x.
Definition uid (row : list text) : text := nth c row [].

(** Both views have the same number of columns, with identifiers in column [c]
    that hold no references to variables and are unique in each view. *)
Record mergeable : Prop := {
  mergeable_columns : getNumberOfColumns B = getNumberOfColumns A;
  mergeable_rectA : rectangular A;
  mergeable_rectB : rectangular B;
  mergeable_uidA : exists ci, columnsInfo_ A !! c = Some ci /\ type_ ci = TYPE_UID;
  mergeable_uidB : exists ci, columnsInfo_ B !! c = Some ci /\ type_ ci = TYPE_UID;
  mergeable_plain row : row ∈ theDataView_ A ++ theDataView_ B -> plain (uid row);
  mergeable_uniqueA : NoDup (map uid (theDataView_ A));
  mergeable_uniqueB : NoDup (map uid (theDataView_ B));
}.
Context (ok : mergeable).

Lemma value_uid w r row : (exists ci, columnsInfo_ w !! c = Some ci /\ type_ ci = TYPE_UID) ->
  theDataView_ w !! r = Some row -> length row = getNumberOfColumns w -> plain (uid row) -> value w r c = Ok (uid row).
Proof.
  intros (ci & Hci & Ht) Hr Hl Hp. pose proof (lookup_lt_Some _ _ _ Hr) as Hlr. pose proof (lookup_lt_Some _ _ _ Hci) as Hlc.
  unfold TableMerge.value, getValueAsString, requested. rewrite (proj2 (Nat.ltb_lt _ _)) by exact Hlc. rewrite (proj2 (Nat.ltb_lt _ _)) by exact Hlr.
  cbn [andb negb]. unfold columnAt, cell. rewrite Hci, Hr. cbn [mbind result_bind].
  destruct (lookup_lt_is_Some_2 row c) as [x Hx]; [unfold getNumberOfColumns in Hl; lia|]. rewrite Hx. cbn [mbind result_bind]. rewrite Ht.
  assert (Hu : uid row = x) by by apply nth_lookup_Some. rewrite Hu in *. exact Hp.
Qed.

(** The destination: a view with the columns of A, and rows of A and B. *)
Context (w0 : view) (cols0 : columnsInfo_ w0 = columnsInfo_ A) (defaults0 : length (rowDefaultValues_ w0) = getNumberOfColumns w0)
  (stamp0 : stampable w0 author).
Definition rowsOK (d : list (list text)) : Prop := forall row, row ∈ d -> length row = getNumberOfColumns A /\ plain (uid row).
Definition holding (st : merge) (w : view) : merge :=
  mkMerge (set_views (table st) (update (tableViews_ (table st)) v (fun _ => w))) (uidConversionMap st) (groupidConversionMap st).
Definition hasDestination (st : merge) : Prop := isStored (table st) v = true.

Lemma holding_find st w : hasDestination st -> find (tableViews_ (table (holding st w))) v = Some w.
Proof.
  unfold hasDestination, isStored, stored. cbn. rewrite find_updated, sameKey_refl. by destruct (find (tableViews_ (table st)) v).
Qed.
Lemma holding_has st w : hasDestination st -> hasDestination (holding st w).
Proof. intros H. unfold hasDestination, isStored, stored. by rewrite holding_find. Qed.
Lemma update_update {X} (m : list (version * X)) k x y : update (update m k (fun _ => x)) k (fun _ => y) = update m k (fun _ => y).
Proof. unfold update. rewrite map_map. apply map_ext. intros [j z]. cbn. destruct (sameKey k j) eqn:Hk; cbn; by rewrite Hk. Qed.
Lemma holding_holding st w w' : holding (holding st w) w' = holding st w'.
Proof.
  unfold holding, set_views. cbn [table tableViews_ uidConversionMap groupidConversionMap MAX_VIEWS_IN_CACHE TableBase.tableName_ activeTableView_ mockupTableView_].
  by rewrite update_update.
Qed.
Lemma onDestination_run {X} (m : M view X) st w : hasDestination st ->
  onDestination v m (holding st w) = ((m w).1, holding st (m w).2).
Proof.
  intros Hd. unfold onDestination, onTable, onView. rewrite (holding_find st w Hd). destruct (m w) as [r w']. unfold holding, set_views. cbn [table tableViews_ uidConversionMap groupidConversionMap fst snd MAX_VIEWS_IN_CACHE TableBase.tableName_ activeTableView_ mockupTableView_].
  by rewrite update_update.
Qed.

Lemma copyRecord_run st d rb row : hasDestination st -> (forall r, r ∈ d -> length r = getNumberOfColumns A) -> theDataView_ B !! rb = Some row ->
  copyRecord B author now v false rb (holding st (set_data w0 d)) = (Ok (Some (length d)), holding st (set_data w0 (d ++ [row]))).
Proof.
  intros Hd Hr Hrow. unfold copyRecord. rewrite onDestination_run by done.
  assert (Hl : length row = getNumberOfColumns A).
  { rewrite <- (mergeable_columns ok). pose proof (mergeable_rectB ok) as HB. unfold rectangular in HB. rewrite Forall_forall in HB.
    apply HB. by eapply list_elem_of_lookup_2. }
  assert (Hcols : getNumberOfColumns w0 = getNumberOfColumns A) by (unfold getNumberOfColumns; by rewrite cols0).
  assert (Hrun : copyRows author now B rb (Some 1%nat) None false [] (set_data w0 d) = (Ok (Some (length d)), set_data w0 (d ++ [row]))).
  { unfold copyRows. rewrite (bind_ok (gets getNumberOfColumns) _ _ _ _ eq_refl).
    change (getNumberOfColumns (set_data w0 d)) with (getNumberOfColumns w0). rewrite Hcols, (mergeable_columns ok), Nat.eqb_refl. cbn [negb].
    pose proof (lookup_lt_Some _ _ _ Hrow) as Hlt.
    replace (take 1 (seq rb (getNumberOfRows B - rb))) with [rb].
    2: { unfold getNumberOfRows. destruct (length (theDataView_ B) - rb)%nat eqn:Hn; [lia|done]. }
    rewrite (copyLoop_spec author now B [] [row] [rb] None None (set_data w0 d)).
    - f_equal. unfold insertRows. cbn [theDataView_ set_data default getNumberOfRows]. unfold getNumberOfRows. cbn [theDataView_ set_data].
      rewrite take_ge, drop_ge by done. by rewrite app_nil_r.
    - apply Forall_forall. intros x Hx. change (getNumberOfColumns (set_data w0 d)) with (getNumberOfColumns w0). rewrite Hcols. by apply Hr.
    - exact defaults0.
    - done.
    - exact stamp0.
    - constructor; [|constructor]. split; [done|]. change (getNumberOfColumns (set_data w0 d)) with (getNumberOfColumns w0). by rewrite Hcols. }
  by rewrite Hrun.
Qed.

Definition mergeRow (replace : bool) (d : list (list text)) (row : list text) : list (list text) :=
  match search (fun x => textEq (uid x) (uid row)) d with
  | None => d ++ [row]
  | Some i => if replace then delete i d ++ [row] else d
  end.
Lemma conflictLoop_run d rb row : rowsOK d -> theDataView_ B !! rb = Some row -> length row = getNumberOfColumns A -> plain (uid row) ->
  forall pre post, d = pre ++ post ->
  conflictLoop getenv systemVariables_ expansionFuel B (set_data w0 d) c rb (seq (length pre) (length post)) =
    Ok (Nat.add (length pre) <$> search (fun x => textEq (uid x) (uid row)) post).
Proof.
  intros Hd Hrow Hl Hp pre post. revert pre. induction post as [|x post IH]; intros pre He; [done|]. cbn [length seq conflictLoop search].
  assert (Hx : d !! length pre = Some x) by (rewrite He; by apply list_lookup_middle).
  destruct (Hd x) as [Hxl Hxp]; [by eapply list_elem_of_lookup_2|].
  rewrite (value_uid (set_data w0 d) (length pre) x); [|destruct (mergeable_uidA ok) as (ci & Hci & Ht); exists ci; cbn; by rewrite cols0|done|cbn; unfold getNumberOfColumns in *; cbn; by rewrite cols0|done].
  cbn [mbind result_bind]. rewrite (value_uid B rb row); [|apply (mergeable_uidB ok)|done|by rewrite (mergeable_columns ok)|done]. cbn [mbind result_bind].
  destruct (textEq (uid x) (uid row)); [cbn; f_equal; f_equal; lia|].
  specialize (IH (pre ++ [x])). rewrite length_app in IH. cbn [length] in IH. replace (length pre + 1)%nat with (S (length pre)) in IH by lia.
  rewrite IH by (by rewrite <- app_assoc). destruct (search _ post); cbn; [|done]. do 2 f_equal. lia.
Qed.
Lemma rowB rb row : theDataView_ B !! rb = Some row -> length row = getNumberOfColumns A /\ plain (uid row).
Proof.
  intros Hrow. apply list_elem_of_lookup_2 in Hrow. split.
  - rewrite <- (mergeable_columns ok). pose proof (mergeable_rectB ok) as HB. unfold rectangular in HB. rewrite Forall_forall in HB. by apply HB.
  - apply (mergeable_plain ok). apply elem_of_app. by right.
Qed.
Lemma mergeRow_ok replace d row : rowsOK d -> length row = getNumberOfColumns A /\ plain (uid row) -> rowsOK (mergeRow replace d row).
Proof.
  intros Hd Hrow x. unfold mergeRow. destruct (search _ d) as [i|]; [destruct replace; [|by apply Hd]|];
    intros [Hx|Hx%list_elem_of_singleton]%elem_of_app; try (by subst x); apply Hd; [|done].
  by apply (elem_of_submseteq _ _ _ Hx (sublist_submseteq _ _ (sublist_delete d i))).
Qed.
Lemma mergeRecord_run replace st d rb row : hasDestination st -> rowsOK d -> theDataView_ B !! rb = Some row ->
  mergeRecord getenv systemVariables_ expansionFuel B author now v replace c rb (holding st (set_data w0 d)) =
    (Ok tt, holding st (set_data w0 (mergeRow replace d row))).
Proof.
  intros Hd Hr Hrow. destruct (rowB rb row Hrow) as [Hl Hp]. unfold mergeRecord.
  assert (Hdest : destination v (holding st (set_data w0 d)) = Ok (set_data w0 d)) by (unfold destination; by rewrite holding_find).
  rewrite (bind_ok (fun st => lift (destination v st) st) _ _ (set_data w0 d) (holding st (set_data w0 d))) by (by rewrite Hdest).
  pose proof (conflictLoop_run d rb row Hr Hrow Hl Hp [] d eq_refl) as Hc. cbn [length] in Hc. unfold getNumberOfRows. cbn [theDataView_ set_data].
  rewrite Hc. unfold mergeRow. destruct (search _ d) as [i|] eqn:Hs; cbn [fmap option_fmap option_map];
    rewrite (bind_ok (lift _) _ _ _ (holding st (set_data w0 d)) eq_refl).
  - destruct replace; [|done]. cbn [plus]. destruct (search_some _ _ _ Hs) as (x & Hx & _). pose proof (lookup_lt_Some _ _ _ Hx) as Hlt.
    rewrite (bind_ok (onDestination v (deleteRow i)) _ _ tt (holding st (set_data w0 (delete i d)))).
    2: { rewrite onDestination_run by done. unfold deleteRow, getNumberOfRows. cbn [theDataView_ set_data].
         rewrite (proj2 (Nat.leb_gt _ _)) by done. done. }
    assert (Hr' : rowsOK (delete i d)) by (intros y Hy; apply Hr; by apply (elem_of_submseteq _ _ _ Hy (sublist_submseteq _ _ (sublist_delete d i)))).
    by rewrite (bind_ok (copyRecord _ _ _ _ _ _) _ _ _ _ (copyRecord_run st (delete i d) rb row Hd (fun x Hx => proj1 (Hr' x Hx)) Hrow)).
  - by rewrite (bind_ok (copyRecord _ _ _ _ _ _) _ _ _ _ (copyRecord_run st d rb row Hd (fun x Hx => proj1 (Hr x Hx)) Hrow)).
Qed.
Lemma mergeLoop_run replace st rows pre d : hasDestination st -> rowsOK d -> theDataView_ B = pre ++ rows ->
  forEach (seq (length pre) (length rows)) (mergeRecord getenv systemVariables_ expansionFuel B author now v replace c) (holding st (set_data w0 d)) =
    (Ok tt, holding st (set_data w0 (fold_left (mergeRow replace) rows d))).
Proof.
  intros Hd. revert pre d. induction rows as [|row rows IH]; intros pre d Hr HB; [done|]. cbn [length seq forEach fold_left].
  assert (Hrow : theDataView_ B !! length pre = Some row) by (rewrite HB; by apply list_lookup_middle).
  rewrite (bind_ok (mergeRecord _ _ _ _ _ _ _ _ _ _) _ _ _ _ (mergeRecord_run replace st d (length pre) row Hd Hr Hrow)).
  specialize (IH (pre ++ [row])). rewrite length_app in IH. cbn [length] in IH. replace (length pre + 1)%nat with (S (length pre)) in IH by lia.
  apply IH; [|by rewrite <- app_assoc]. apply mergeRow_ok; [done|by apply (rowB (length pre))].
Qed.

(** What the loop computes. *)
Definition absent (rows : list (list text)) (row : list text) : bool := negb (isOneOf (map uid rows) (uid row)).
Definition skipped (a b : list (list text)) : list (list text) := a ++ List.filter (absent a) b.
Definition replaced (a b : list (list text)) : list (list text) := List.filter (absent b) a ++ b.
Lemma absent_spec rows row : absent rows row = true <-> ~ uid row ∈ map uid rows.
Proof. unfold absent. rewrite negb_true_iff, <- isOneOf_spec. by destruct (isOneOf _ _). Qed.
Lemma search_uid d row : search (fun x => textEq (uid x) (uid row)) d = None <-> absent d row = true.
Proof.
  rewrite absent_spec, search_none. split.
  - intros H (x & He & Hx)%list_elem_of_fmap. specialize (H x Hx). rewrite He, textEq_refl in H. done.
  - intros H x Hx. apply textEq_neq. intros He. apply H. rewrite <- He. apply list_elem_of_fmap. by exists x.
Qed.
Lemma fold_skip b a : NoDup (map uid b) -> fold_left (mergeRow false) b a = skipped a b.
Proof.
  revert a. induction b as [|row b IH]; intros a Hn; [unfold skipped; cbn; by rewrite app_nil_r|]. cbn [map] in Hn. apply NoDup_cons in Hn as [Hr Hn].
  cbn [fold_left]. rewrite IH by done. unfold skipped, mergeRow. cbn [List.filter].
  destruct (search _ a) as [i|] eqn:Hs.
  - destruct (absent a row) eqn:Ha; [|done]. apply search_uid in Ha. congruence.
  - apply search_uid in Hs as Ha. rewrite Ha, <- app_assoc. cbn [app]. do 2 f_equal. apply List.filter_ext_in. intros x Hx%list_elem_of_In.
    apply eq_true_iff_eq. rewrite !absent_spec, map_app, not_elem_of_app. cbn [map]. rewrite list_elem_of_singleton.
    assert (uid x <> uid row) by (intros He; apply Hr; rewrite <- He; apply list_elem_of_fmap; by exists x). by split; [intros [? ?]|].
Qed.
Lemma filter_delete d row i : NoDup (map uid d) -> search (fun x => textEq (uid x) (uid row)) d = Some i -> delete i d = List.filter (absent [row]) d.
Proof.
  revert i. induction d as [|x d IH]; intros i Hn; cbn [search map]; [done|]. cbn [map] in Hn. apply NoDup_cons in Hn as [Hx Hn].
  assert (Habs : absent [row] x = negb (textEq (uid x) (uid row))) by (unfold absent, isOneOf; cbn; by rewrite orb_false_r).
  cbn [List.filter]. rewrite Habs. destruct (textEq (uid x) (uid row)) eqn:He; [apply textEq_spec in He|].
  - intros [= <-]. cbn [negb delete list_delete]. symmetry. apply List.forallb_filter_id. apply forallb_forall. intros y Hy%list_elem_of_In.
    apply absent_spec. cbn [map]. rewrite list_elem_of_singleton. intros Hy'. apply Hx. rewrite He, <- Hy'. apply list_elem_of_fmap. by exists y.
  - destruct (search _ d) as [j|]; [|done]. intros [= <-]. cbn [negb delete list_delete]. f_equal. by apply IH.
Qed.
Lemma fold_replace b a : NoDup (map uid b) -> NoDup (map uid a) -> fold_left (mergeRow true) b a = replaced a b.
Proof.
  revert a. induction b as [|row b IH]; intros a Hnb Hna.
  { unfold replaced. cbn. rewrite app_nil_r. symmetry. apply List.forallb_filter_id. by apply forallb_forall. }
  cbn [map] in Hnb. apply NoDup_cons in Hnb as [Hr Hnb]. cbn [fold_left].
  assert (Hstep : mergeRow true a row = List.filter (absent [row]) a ++ [row]).
  { unfold mergeRow. destruct (search _ a) as [i|] eqn:Hs; [by rewrite (filter_delete a row i)|]. f_equal. symmetry. apply List.forallb_filter_id.
    apply forallb_forall. intros x Hx%list_elem_of_In. apply absent_spec. cbn [map]. rewrite list_elem_of_singleton. intros He.
    pose proof (proj1 (search_none _ _) Hs x Hx) as Hf. cbn beta in Hf. by rewrite He, textEq_refl in Hf. }
  assert (Hrow : absent b row = true) by by apply absent_spec.
  rewrite Hstep, IH; [|done|].
  - unfold replaced. rewrite List.filter_app. cbn [List.filter]. rewrite Hrow, <- app_assoc. cbn [app]. f_equal.
    rewrite filter_twice. apply List.filter_ext. intros x. apply eq_true_iff_eq. rewrite andb_true_iff, !absent_spec. cbn [map].
    rewrite !not_elem_of_cons. split; [intros [[H1 _] H2]|intros [H1 H2]; split_and!]; try done. apply not_elem_of_nil.
  - rewrite map_app. cbn [map]. apply NoDup_app. split_and!; [|intros u (x & -> & Hx)%list_elem_of_fmap|apply NoDup_singleton].
    + by apply NoDup_map_lfilter.
    + rewrite list_elem_of_singleton. apply list_elem_of_In, filter_In in Hx as [_ Hx]. apply absent_spec in Hx. cbn [map] in Hx. by rewrite list_elem_of_singleton in Hx.
Qed.
Lemma mergeRecords_run replace generate st : hasDestination st -> colUID_ (mockupTableView_ (table st)) = Some c ->
  mergeRecords getenv systemVariables_ expansionFuel B author now generate v (if replace : bool then REPLACE else SKIP) (holding st (set_data w0 (theDataView_ A))) =
    (Ok tt, holding st (set_data w0 (if replace then replaced (theDataView_ A) (theDataView_ B) else skipped (theDataView_ A) (theDataView_ B)))).
Proof.
  intros Hd Hc. unfold mergeRecords. rewrite (bind_ok (gets _) _ _ _ _ eq_refl). cbn [table holding].
  assert (Hg : getColUID (mockupTableView_ (set_views (table st) (update (tableViews_ (table st)) v (fun _ => set_data w0 (theDataView_ A))))) = Ok c).
  { unfold getColUID. cbn. by rewrite Hc. }
  rewrite Hg. rewrite (bind_ok (lift _) _ _ _ _ eq_refl).
  assert (Hr : rowsOK (theDataView_ A)).
  { intros row Hrow. split; [|apply (mergeable_plain ok), elem_of_app; by left]. pose proof (mergeable_rectA ok) as HA. unfold rectangular in HA.
    rewrite Forall_forall in HA. by apply HA. }
  pose proof (mergeLoop_run replace st (theDataView_ B) [] (theDataView_ A) Hd Hr eq_refl) as Hrun. cbn [length] in Hrun.
  change (holding st (set_data w0 (theDataView_ A))) with (mkMerge (set_views (table st) (update (tableViews_ (table st)) v (fun _ => set_data w0 (theDataView_ A)))) (uidConversionMap st) (groupidConversionMap st)) in Hrun.
  assert (Hfold : fold_left (mergeRow replace) (theDataView_ B) (theDataView_ A) = if replace then replaced (theDataView_ A) (theDataView_ B) else skipped (theDataView_ A) (theDataView_ B)).
  { destruct replace; [apply fold_replace|apply fold_skip]; apply ok. }
  rewrite Hfold in Hrun. by destruct replace.
Qed.
End Conflicts.

(** A copy takes the default values of the columns, unless the table is special. *)
Definition defaulted (w : view) : Prop := length (rowDefaultValues_ w) = getNumberOfColumns w.
Lemma defaulted_specials : specialsIrrelevant defaulted.
Proof. by intros w u s p l Hw. Qed.
#[local] Hint Resolve defaulted_specials : keeps.
Lemma copy_defaults source v author now w w' : copy source v author now w = (Ok tt, w') -> isSpecialTable w = Ok false -> defaulted w'.
Proof.
  unfold copy. rewrite (bind_ok (modify _) _ w tt _ eq_refl). set (w1 := set_sourceNames _ _). intros H Hs.
  rewrite (bind_ok (fun v => lift (isSpecialTable v) v) _ w1 false w1) in H by (unfold lift; f_equal; exact Hs).
  rewrite bind_inv in H. destruct H as (i & w2 & _ & H). rewrite bind_inv in H. destruct H as (l & w3 & Hd & H).
  assert (Hw3 : defaulted w3) by (injection Hd as _ <-; unfold defaulted; cbn; by rewrite length_map).
  assert (Hk : keeps defaulted (ignore initColStatus ≫= fun _ => ignore initColPriority)) by auto with keeps.
  specialize (Hk w3 Hw3). by rewrite H in Hk.
Qed.
Lemma isSpecialTable_name w w' : TableView.tableName_ w = TableView.tableName_ w' -> isSpecialTable w = isSpecialTable w'.
Proof. unfold isSpecialTable. by intros ->. Qed.

(** ** The new version *)

Lemma copyInto_ok v source author created now s s' : valid s -> copyInto v source author created now s = (Ok tt, s') ->
  exists w w', target s v created = Ok w /\ copy source v author now w = (Ok tt, w') /\ s' = put s v w'.
Proof.
  intros Hs H. rewrite copyInto_run in H by done. destruct (target s v created) as [w|] eqn:Ht; [|done].
  exists w. destruct (copy source v author now w) as [r w'] eqn:Hc. exists w'. cbn in H. injection H as -> <-. done.
Qed.
Definition ordinary (tableName : text) (created : Z) : Prop := exists w, construct tableName created = Ok w /\ isSpecialTable w = Ok false.
Lemma stampable_columns w w' author : columnsInfo_ w = columnsInfo_ w' -> stampable w author -> stampable w' author.
Proof.
  intros Hc Hs Ha. destruct (Hs Ha) as (a & t & H1 & H2 & (ci & H3 & H4) & (ci' & H5 & H6)). exists a, t. unfold findColByType in *. rewrite <- Hc in *.
  split_and!; [done|done|exists ci|exists ci']; by rewrite <- Hc.
Qed.
(** The destination that holds a copy of view A. *)
Lemma destination_made s v source destination author created made copied s1 s2 :
  valid s -> TableVersion.wf destination -> ordinary (TableBase.tableName_ s) created ->
  createTemporaryView TableVersion.default destination created made s = (Ok v, s1) ->
  copyInto v source author copied copied s1 = (Ok tt, s2) ->
  exists w0, s2 = set_views s1 (update (tableViews_ s1) v (fun _ => w0)) /\ isStored s1 v = true /\ defaulted w0 /\
    TableBase.copied source author copied w0 /\ mockupTableView_ s1 = mockupTableView_ s /\
    TableBase.tableName_ s1 = TableBase.tableName_ s /\
    forall j, j <> v -> find (tableViews_ s1) j = find (tableViews_ s) j.
Proof.
  intros Hs Hd (n & Hn & Hsp) H1 H2. pose proof (createTemporaryView_safe TableVersion.default destination created made Hd s Hs) as [Hs1 _].
  rewrite H1 in Hs1. cbn in Hs1. apply createTemporaryView_inv in H1 as (_ & Hv & _ & E1).
  rewrite copyInto_run in E1 by done. unfold target in E1. rewrite Hn in E1. cbn [mbind result_bind] in E1.
  unfold isStored in Hv. rewrite (proj1 (stored_none _ _) Hv) in E1. cbn [snd] in E1.
  match type of E1 with s1 = put s v (copy ?o v ?a ?t n).2 => set (made0 := (copy o v a t n).2) in *; pose proof (copy_tableName o v a t n) as Hname end.
  fold made0 in Hname. assert (Hf1 : find (tableViews_ s1) v = Some made0) by (rewrite E1, find_put by done; by rewrite sameKey_refl).
  assert (Hst : isStored s1 v = true) by (unfold isStored, stored; by rewrite Hf1).
  destruct (copyInto_ok _ _ _ _ _ _ _ Hs1 H2) as (w & w0 & Ht & Hc & E2). unfold target in Ht. rewrite Hf1 in Ht.
  destruct (construct (TableBase.tableName_ s1) copied) as [x|]; [|done]. cbn in Ht. injection Ht as <-.
  exists w0. split_and!.
  - rewrite E2. unfold put. rewrite emplace_stored; [done|by apply valid_sorted|done].
  - done.
  - apply (copy_defaults _ _ _ _ _ _ Hc). rewrite <- Hsp. by apply isSpecialTable_name.
  - pose proof (copy_copied source v author copied made0) as Hcp. by rewrite Hc in Hcp.
  - by rewrite E1.
  - by rewrite E1.
  - intros j Hj. rewrite E1, find_put by done. by destruct (sameKey_spec j v).
Qed.

(** C32: Skipping keeps all records of A and adds those of B whose UID A does not
    have; replacing keeps those of A that B does not have and adds all of B.
    The records are unchanged and in order, they are put into the new version,
    and no other version changes. *)
Theorem mergeViews_conflicts getenv systemVariables_ expansionFuel A B c author (replace fill generate : bool) destination created made copied now st v s1 s2 :
  valid (table st) -> TableVersion.wf destination -> ordinary (TableBase.tableName_ (table st)) created ->
  mergeable getenv systemVariables_ expansionFuel A B c -> stampable A author ->
  colUID_ (mockupTableView_ (table st)) = Some c -> getNumberOfColumns A = getNumberOfColumns (mockupTableView_ (table st)) ->
  createTemporaryView TableVersion.default destination created made (table st) = (Ok v, s1) ->
  copyInto v A author copied copied s1 = (Ok tt, s2) ->
  exists st' w, mergeViews getenv systemVariables_ expansionFuel A B destination author (if replace then REPLACE else SKIP) fill true generate created made copied now st = (Ok v, st') /\
    find (tableViews_ (table st')) v = Some w /\ columnsInfo_ w = columnsInfo_ A /\
    theDataView_ w = (if replace then replaced c (theDataView_ A) (theDataView_ B) else skipped c (theDataView_ A) (theDataView_ B)) /\
    (forall j, j <> v -> find (tableViews_ (table st')) j = find (tableViews_ (table st)) j) /\
    uidConversionMap st' = uidConversionMap st /\ groupidConversionMap st' = groupidConversionMap st.
Proof.
  intros Hs Hd Hord Hok Hstamp Hc Hcols H1 H2.
  destruct (destination_made _ _ _ _ _ _ _ _ _ _ Hs Hd Hord H1 H2) as (w0 & E2 & Hst & Hdef & Hcp & Hmock & _ & Hothers).
  set (st1 := mkMerge s1 (uidConversionMap st) (groupidConversionMap st)).
  assert (E : mkMerge s2 (uidConversionMap st) (groupidConversionMap st) = holding v st1 (set_data w0 (theDataView_ A))).
  { rewrite E2. unfold holding. cbn. by rewrite <- (copied_data _ _ _ _ Hcp); destruct w0. }
  set (d := if replace then replaced c (theDataView_ A) (theDataView_ B) else skipped c (theDataView_ A) (theDataView_ B)).
  exists (holding v st1 (set_data w0 d)), (set_data w0 d).
  assert (Hrun : mergeRecords getenv systemVariables_ expansionFuel B author now generate v (if replace then REPLACE else SKIP) (holding v st1 (set_data w0 (theDataView_ A)))
    = (Ok tt, holding v st1 (set_data w0 d))).
  { apply (mergeRecords_run getenv systemVariables_ expansionFuel A B c author now v Hok); [apply (copied_columns _ _ _ _ Hcp)|exact Hdef| |exact Hst|by cbn; rewrite Hmock].
    by apply (stampable_columns A); [symmetry; apply (copied_columns _ _ _ _ Hcp)|]. }
  split_and!; [|by apply holding_find|apply (copied_columns _ _ _ _ Hcp)|done| |done|done].
  - unfold mergeViews. rewrite (bind_ok (gets _) _ st (mockupTableView_ (table st)) st) by done. rewrite (mergeable_columns _ _ _ _ _ _ Hok), Hcols, Nat.eqb_refl. cbn [negb].
    replace (fill && isRename _) with false by (destruct fill, replace; done). rewrite (bind_ok (mret tt) _ st tt st) by done.
    rewrite (bind_ok (onTable _) _ st v st1) by (unfold onTable; by rewrite H1).
    rewrite (bind_ok (catch_all _ _) _ st1 tt (holding v st1 (set_data w0 d))); [done|]. unfold catch_if.
    rewrite (bind_ok (onTable (copyInto v A author copied copied)) _ st1 tt (mkMerge s2 (uidConversionMap st) (groupidConversionMap st))) by (unfold onTable, st1; cbn [table]; by rewrite H2).
    by rewrite E, Hrun.
  - intros j Hj. cbn. rewrite find_updated. destruct (sameKey_spec j v); [done|]. by apply Hothers.
Qed.

(** ** Fresh names *)

Lemma to_string_unsigned_inj i j : in_range 32 i -> in_range 32 j -> to_string_unsigned i = to_string_unsigned j -> i = j.
Proof. intros Hi Hj He. apply (f_equal sscanf_u) in He. rewrite !sscanf_u_to_string_unsigned in He by done. by injection He. Qed.
Lemma wrap_shift u k : u32 (u32 (u + k) + 1) = u32 (u + (k + 1)).
Proof. unfold wrap. rewrite Z.add_mod_idemp_l by lia. f_equal. lia. Qed.
Definition candidate (base : text) (u : Z) (k : nat) : text := base ++ to_string_unsigned (u32 (u + Z.of_nat k)).
Lemma candidate_inj base u j k : Z.of_nat j < 2 ^ 32 -> Z.of_nat k < 2 ^ 32 -> candidate base u j = candidate base u k -> j = k.
Proof.
  intros Hj Hk He. apply app_inv_head, to_string_unsigned_inj in He; [|apply wrap_range; lia..].
  unfold wrap in He. assert (Hd : (Z.of_nat j - Z.of_nat k) mod 2 ^ 32 = 0).
  { replace (Z.of_nat j - Z.of_nat k) with ((u + Z.of_nat j) - (u + Z.of_nat k)) by lia. rewrite Zminus_mod, He, Z.sub_diag. done. }
  apply Z.mod_divide in Hd as [q Hq]; [|lia]. assert (q = 0) by nia. lia.
Qed.
(** As many names as may be taken, and one more, are enough. *)
Lemma freeId_fresh used taken base u fuel : (forall s, taken s = Ok (bool_decide (s ∈ used))) -> (length used <= fuel)%nat -> Z.of_nat (length used) < 2 ^ 32 ->
  in_range 32 u -> exists id, freeId fuel taken base u = Ok id /\ ~ id ∈ used.
Proof.
  intros Ht Hf Hl Hu.
  assert (Hbound : forall k, (forall i, (i < k)%nat -> candidate base u i ∈ used) -> Z.of_nat k <= 2 ^ 32 -> (k <= length used)%nat).
  { intros k Hin Hk. rewrite <- (length_seq k 0), <- (length_map (candidate base u)).
    apply submseteq_length, NoDup_submseteq; [|intros x (i & -> & Hi%elem_of_seq)%list_elem_of_fmap; apply Hin; lia].
    apply NoDup_fmap_2_strong; [|apply NoDup_seq]. intros i j Hi%elem_of_seq Hj%elem_of_seq. apply candidate_inj; lia. }
  assert (Hloop : forall m k, (length used <= m + k)%nat -> Z.of_nat k < 2 ^ 32 -> (forall i, (i < k)%nat -> candidate base u i ∈ used) ->
    exists id, freeId m taken base (u32 (u + Z.of_nat k)) = Ok id /\ ~ id ∈ used).
  { induction m as [|m IH]; intros k Hm Hk Hin; cbn [freeId]; rewrite Ht; cbn [mbind result_bind]; case_bool_decide as Hc; try (by eexists);
      cbn [negb]; fold (candidate base u k) in Hc; assert (Hin' : forall i, (i < S k)%nat -> candidate base u i ∈ used)
        by (intros i Hi; destruct (decide (i = k)) as [->|]; [done|apply Hin; lia]); pose proof (Hbound (S k) Hin' ltac:(lia)).
    - lia.
    - rewrite wrap_shift. replace (Z.of_nat k + 1) with (Z.of_nat (S k)) by lia. apply IH; [lia|lia|done]. }
  specialize (Hloop fuel 0%nat). cbn [Z.of_nat] in Hloop. rewrite Z.add_0_r, wrap_small in Hloop by done. apply Hloop; [lia|lia|]. intros i Hi. lia.
Qed.
Lemma splitId_range str base u : splitId str = Ok (base, u) -> in_range 32 u.
Proof.
  unfold splitId. destruct (splitTrailing is_digit str) as [b [|c digits]]; [intros [= _ <-]; unfold in_range; lia|].
  destruct (_ =? _); [done|]. intros [= _ <-]. apply wrap_range. lia.
Qed.
Lemma newId_fresh used taken str fuel : (forall s, taken s = Ok (bool_decide (s ∈ used))) -> (length used <= fuel)%nat -> Z.of_nat (length used) < 2 ^ 32 ->
  is_ok (splitId str) = true -> exists id, newId fuel taken str = Ok id /\ ~ id ∈ used.
Proof.
  intros Ht Hf Hl Hs. unfold newId. destruct (splitId str) as [[base u]|] eqn:He; [|done]. cbn.
  apply (freeId_fresh used); [done..|by apply (splitId_range str base)].
Qed.

(** ** The conversion map of the identifiers *)

Lemma find_assign {K X} {ord : Ordered K} {laws : OrderedLaws K} (m : list (K * X)) k a j : sorted m ->
  find (assign m k a) j = if sameKey j k then Some a else find m j.
Proof.
  intros Hs. unfold assign. rewrite find_updated, find_emplace by done. destruct (sameKey j k); [|done]. by destruct (find m k).
Qed.
Lemma sorted_assign {K X} {ord : Ordered K} {laws : OrderedLaws K} (m : list (K * X)) k a : sorted m -> sorted (assign m k a).
Proof. intros Hs. by apply sorted_update, sorted_emplace. Qed.
Definition assignAll (name : text) (l : list (text * text)) (m : uidMap) : uidMap := fold_left (fun m p => assign m (name, p.1) p.2) l m.
Lemma assignAll_cons name p l m : assignAll name (p :: l) m = assignAll name l (assign m (name, p.1) p.2).
Proof. done. Qed.
Lemma sorted_assignAll name l m : sorted m -> sorted (assignAll name l m).
Proof. revert m. induction l as [|p l IH]; intros m Hs; [done|]. by apply IH, sorted_assign. Qed.
Lemma find_assignAll_other name l m k : sorted m -> (forall u, u ∈ map fst l -> (name, u) <> k) -> find (assignAll name l m) k = find m k.
Proof.
  revert m. induction l as [|[u id] l IH]; intros m Hs Hk; [done|]. rewrite assignAll_cons. cbn [fst snd].
  rewrite IH by (by apply sorted_assign || (intros w Hw; apply Hk; by right)). rewrite find_assign by done.
  destruct (sameKey_spec k (name, u)) as [->|]; [|done]. exfalso. apply (Hk u); [left|done].
Qed.
Lemma find_assignAll name l m u id : sorted m -> NoDup (map fst l) -> (u, id) ∈ l -> find (assignAll name l m) (name, u) = Some id.
Proof.
  revert m. induction l as [|[w i] l IH]; intros m Hs Hn Hin; [by apply elem_of_nil in Hin|]. cbn [map fst] in Hn. apply NoDup_cons in Hn as [Hw Hn].
  rewrite assignAll_cons. cbn [fst snd]. apply elem_of_cons in Hin as [[= -> ->]|Hin].
  - rewrite find_assignAll_other; [|by apply sorted_assign|intros x Hx [= ->]; done]. by rewrite find_assign, sameKey_refl.
  - apply IH; [by apply sorted_assign|done|done].
Qed.

Lemma someRow_spec rows p (q : nat -> bool) : (forall r, r ∈ rows -> p r = Ok (q r)) -> someRow rows p = Ok (existsb q rows).
Proof.
  induction rows as [|r rows IH]; intros H; [done|]. cbn. rewrite H by left. cbn. destruct (q r); [done|]. apply IH. intros i Hi. apply H. by right.
Qed.

Section Conversion.
Context (getenv : text -> option text) (systemVariables_ : gmap text (gmap text text)) (expansionFuel : nat).
Context (A B : view) (c : nat).
Context (ok : mergeable getenv systemVariables_ expansionFuel A B c).
Abbreviation uid := (uid c).
Abbreviation value := (TableMerge.value getenv systemVariables_ expansionFuel).
Definition uidA : list text := map uid (theDataView_ A).
Definition uidB : list text := map uid (theDataView_ B).
Definition conflict (row : list text) : bool := isOneOf uidA (uid row).

Lemma valueA r row : theDataView_ A !! r = Some row -> value A r c = Ok (uid row).
Proof.
  intros Hr. pose proof (list_elem_of_lookup_2 _ _ _ Hr) as Hin. apply value_uid; [apply (mergeable_uidA _ _ _ _ _ _ ok)|done|..].
  - pose proof (mergeable_rectA _ _ _ _ _ _ ok) as H. unfold rectangular in H. rewrite Forall_forall in H. by apply H.
  - apply (mergeable_plain _ _ _ _ _ _ ok), elem_of_app. by left.
Qed.
Lemma valueB r row : theDataView_ B !! r = Some row -> value B r c = Ok (uid row).
Proof.
  intros Hr. pose proof (list_elem_of_lookup_2 _ _ _ Hr) as Hin. apply value_uid; [apply (mergeable_uidB _ _ _ _ _ _ ok)|done|..].
  - pose proof (mergeable_rectB _ _ _ _ _ _ ok) as H. unfold rectangular in H. rewrite Forall_forall in H. by apply H.
  - apply (mergeable_plain _ _ _ _ _ _ ok), elem_of_app. by right.
Qed.
Definition at_ (w : view) (r : nat) : text := uid (nth r (theDataView_ w) []).
Lemma at_lookup w r : (r < getNumberOfRows w)%nat -> exists row, theDataView_ w !! r = Some row /\ at_ w r = uid row.
Proof.
  intros Hr. destruct (lookup_lt_is_Some_2 (theDataView_ w) r Hr) as [row Hrow]. exists row. split; [done|]. unfold at_.
  by rewrite (nth_lookup_Some _ _ _ _ Hrow).
Qed.
Lemma at_all w : map (at_ w) (seq 0 (getNumberOfRows w)) = map uid (theDataView_ w).
Proof. unfold at_. rewrite <- (map_map (fun r => nth r (theDataView_ w) []) uid). by rewrite map_seq_lookup. Qed.
Lemma existsb_member (f : nat -> text) rows id : existsb (fun r => textEq (f r) id) rows = bool_decide (id ∈ map f rows).
Proof.
  apply eq_true_iff_eq. rewrite existsb_exists, bool_decide_eq_true, list_elem_of_fmap. split.
  - intros (r & Hr%list_elem_of_In & He%textEq_spec). by exists r.
  - intros (r & -> & Hr). exists r. split; [by apply list_elem_of_In|apply textEq_refl].
Qed.
Lemma anyRow_member id : anyRow A (hasValue getenv systemVariables_ expansionFuel A c id) = Ok (bool_decide (id ∈ uidA)).
Proof.
  unfold anyRow. rewrite (someRow_spec _ _ (fun r => textEq (at_ A r) id)).
  - by rewrite existsb_member, at_all.
  - intros r Hr%elem_of_seq. destruct (at_lookup A r) as (row & Hrow & ->); [lia|]. unfold hasValue. by rewrite (valueA r row Hrow).
Qed.
Lemma sameInA_member rb row : theDataView_ B !! rb = Some row ->
  anyRow A (sameInA getenv systemVariables_ expansionFuel A B c rb) = Ok (conflict row).
Proof.
  intros Hrow. unfold anyRow. rewrite (someRow_spec _ _ (fun r => textEq (at_ A r) (uid row))).
  - rewrite existsb_member, at_all. f_equal. apply eq_true_iff_eq. unfold conflict. by rewrite bool_decide_eq_true, isOneOf_spec.
  - intros r Hr%elem_of_seq. destruct (at_lookup A r) as (rowA & HrowA & ->); [lia|]. unfold sameInA. by rewrite (valueA r rowA HrowA), (valueB rb row Hrow).
Qed.
Definition otherRows (rb : nat) : list nat := List.filter (fun r => negb (r =? rb)%nat) (seq 0 (getNumberOfRows B)).
Definition used (rb : nat) (localConvertedIds : list text) : list text := uidA ++ map (at_ B) (otherRows rb) ++ localConvertedIds.
Lemma takenUID_member rb local id : takenUID getenv systemVariables_ expansionFuel A B c rb local id = Ok (bool_decide (id ∈ used rb local)).
Proof.
  unfold takenUID, orElse. rewrite anyRow_member. cbn [mbind result_bind]. fold (otherRows rb).
  rewrite (someRow_spec (otherRows rb) _ (fun r => textEq (at_ B r) id)).
  2: { intros r Hr. apply list_elem_of_In, filter_In in Hr as [Hr%in_seq _]. destruct (at_lookup B r) as (row & Hrow & ->); [lia|].
       unfold hasValue. by rewrite (valueB r row Hrow). }
  rewrite existsb_member. cbn [mbind result_bind]. repeat case_bool_decide; try done.
  all: unfold used in *; rewrite !elem_of_app, <- ?isOneOf_spec in *; try tauto.
  - f_equal. destruct (isOneOf local id); tauto.
  - f_equal. destruct (isOneOf local id); tauto.
Qed.
Lemma length_used rb local : (length (used rb local) <= getNumberOfRows A + getNumberOfRows B + length local)%nat.
Proof.
  unfold used, uidA, otherRows. rewrite !length_app, !length_map. pose proof (List.filter_length_le (fun r => negb (r =? rb)%nat) (seq 0 (getNumberOfRows B))) as H.
  rewrite length_seq in H. unfold getNumberOfRows in *. lia.
Qed.
Lemma used_covers rb row local id : theDataView_ B !! rb = Some row -> conflict row = true -> ~ id ∈ used rb local ->
  ~ id ∈ uidA /\ ~ id ∈ uidB /\ ~ id ∈ local.
Proof.
  unfold used. rewrite !not_elem_of_app. intros Hrow Hc (Ha & Hb & Hl). split_and!; [done| |done]. unfold uidB. rewrite <- (at_all B).
  intros (r & -> & Hr)%list_elem_of_fmap. destruct (decide (r = rb)) as [->|Hne].
  - apply Ha. apply elem_of_seq in Hr. destruct (at_lookup B rb) as (row' & Hrow' & ->); [lia|]. rewrite Hrow in Hrow'. injection Hrow' as <-.
    by apply isOneOf_spec.
  - apply Hb. apply list_elem_of_fmap. exists r. split; [done|]. apply list_elem_of_In, filter_In. apply list_elem_of_In in Hr. split; [done|].
    by destruct (Nat.eqb_spec r rb).
Qed.
Definition conflicts (rows : list (list text)) : list (list text) := List.filter conflict rows.
Definition withUIDs (st : merge) (m : uidMap) : merge := mkMerge (table st) m (groupidConversionMap st).
Abbreviation tableName st := (TableBase.tableName_ (table st)).
Lemma convertUIDs_run rows : forall pre local st, theDataView_ B = pre ++ rows ->
  (forall row, row ∈ rows -> conflict row = true -> is_ok (splitId (uid row)) = true) ->
  Z.of_nat (getNumberOfRows A + getNumberOfRows B + length local + length rows) < 2 ^ 32 ->
  exists ids, length ids = length (conflicts rows) /\ NoDup ids /\ (forall id, id ∈ ids -> ~ id ∈ uidA /\ ~ id ∈ uidB /\ ~ id ∈ local) /\
    convertUIDs getenv systemVariables_ expansionFuel A B c (seq (length pre) (length rows)) local st =
      (Ok tt, withUIDs st (assignAll (tableName st) (zip (map uid (conflicts rows)) ids) (uidConversionMap st))).
Proof.
  induction rows as [|row rows IH]; intros pre local st HB Hsplit Hsmall.
  { exists []. split_and!; [done|constructor|by intros id ?%elem_of_nil|]. by destruct st. }
  assert (Hrow : theDataView_ B !! length pre = Some row) by (rewrite HB; by apply list_lookup_middle).
  assert (HB' : theDataView_ B = (pre ++ [row]) ++ rows) by by rewrite <- app_assoc.
  assert (Hlen : length (pre ++ [row]) = S (length pre)) by (rewrite length_app; cbn; lia). cbn [length] in Hsmall.
  cbn [length seq convertUIDs]. rewrite (sameInA_member _ row Hrow). rewrite (bind_ok (lift _) _ st _ st eq_refl).
  unfold conflicts. cbn [List.filter]. destruct (conflict row) eqn:Hc; cbn [negb].
  - assert (Hcell : cell B (length pre) c = Ok (uid row)).
    { unfold cell. rewrite Hrow. destruct (mergeable_uidB _ _ _ _ _ _ ok) as (ci & Hci & _). apply lookup_lt_Some in Hci.
      pose proof (mergeable_rectB _ _ _ _ _ _ ok) as H. unfold rectangular in H. rewrite Forall_forall in H.
      destruct (lookup_lt_is_Some_2 row c) as [x Hx]; [rewrite (H row) by (by eapply list_elem_of_lookup_2); done|]. rewrite Hx.
      unfold TableMerge.uid. by rewrite (nth_lookup_Some _ _ _ _ Hx). }
    rewrite Hcell, (bind_ok (lift _) _ st _ st eq_refl).
    destruct (newId_fresh (used (length pre) local) (takenUID getenv systemVariables_ expansionFuel A B c (length pre) local) (uid row)
      (getNumberOfRows A + getNumberOfRows B + length local) (takenUID_member _ _) (length_used _ _)) as (id & Hid & Hfresh).
    { pose proof (length_used (length pre) local). lia. }
    { apply Hsplit; [left|done]. }
    destruct (used_covers _ _ _ _ Hrow Hc Hfresh) as (HidA & HidB & Hidl).
    rewrite Hid, (bind_ok (lift _) _ st _ st eq_refl), (bind_ok (gets _) _ st (tableName st) st eq_refl), (valueB _ row Hrow), (bind_ok (lift _) _ st _ st eq_refl).
    set (st1 := withUIDs st (assign (uidConversionMap st) (tableName st, uid row) id)).
    rewrite (bind_ok (convertUID _ _) _ st tt st1) by done.
    destruct (IH (pre ++ [row]) (local ++ [id]) st1 HB') as (ids & Hl & Hn & Hnew & Hrun); [intros r Hr; apply Hsplit; by right|rewrite length_app; cbn [length]; lia|].
    rewrite Hlen in Hrun. exists (id :: ids). unfold conflicts in Hl, Hrun. split_and!.
    + cbn [length]. by rewrite Hl.
    + constructor; [|done]. intros Hin. destruct (Hnew id Hin) as (_ & _ & H). apply H. apply elem_of_app. right. left.
    + intros i [->|Hi]%elem_of_cons; [done|]. destruct (Hnew i Hi) as (H1 & H2 & H3). split_and!; [done..|]. intros H. apply H3. apply elem_of_app. by left.
    + rewrite Hrun. done.
  - destruct (IH (pre ++ [row]) local st HB') as (ids & Hl & Hn & Hnew & Hrun); [intros r Hr; apply Hsplit; by right|lia|].
    rewrite Hlen in Hrun. by exists ids.
Qed.

(** What the filled map does to the identifiers of B. *)
Definition conv (name : text) (m : uidMap) (row : list text) : text := default (uid row) (find m (name, uid row)).
Lemma uid_inj_rows (l : list (list text)) r1 r2 : NoDup (map uid l) -> r1 ∈ l -> r2 ∈ l -> uid r1 = uid r2 -> r1 = r2.
Proof.
  intros Hn [i Hi]%list_elem_of_lookup [j Hj]%list_elem_of_lookup He.
  assert (i = j) as ->; [|congruence]. refine (NoDup_lookup (uid <$> l) i j (uid r1) Hn _ _); rewrite list_lookup_fmap.
  - by rewrite Hi.
  - by rewrite Hj, He.
Qed.
Lemma conv_unique name ids m : sorted m -> (forall row, row ∈ theDataView_ B -> find m (name, uid row) = None) ->
  length ids = length (conflicts (theDataView_ B)) -> NoDup ids -> (forall id, id ∈ ids -> ~ id ∈ uidA /\ ~ id ∈ uidB) ->
  let m' := assignAll name (zip (map uid (conflicts (theDataView_ B))) ids) m in
  NoDup (uidA ++ map (conv name m') (theDataView_ B)) /\
  forall row, row ∈ theDataView_ B -> conflict row = false -> conv name m' row = uid row.
Proof.
  intros Hs Hnone Hl Hn Hnew m'. set (cs := conflicts (theDataView_ B)) in *. set (l := zip (map uid cs) ids) in *.
  assert (Hfst : map fst l = map uid cs) by (apply fst_zip; rewrite length_map; lia).
  assert (Hsnd : map snd l = ids) by (apply snd_zip; rewrite length_map; lia).
  assert (Hcs : forall row, row ∈ cs <-> row ∈ theDataView_ B /\ conflict row = true).
  { intros row. unfold cs, conflicts. rewrite !list_elem_of_In. apply filter_In. }
  assert (HnB : NoDup (map uid (theDataView_ B))) by apply ok.
  assert (Hncs : NoDup (map fst l)) by (rewrite Hfst; by apply NoDup_map_lfilter).
  assert (Hno : forall row, row ∈ theDataView_ B -> conflict row = false -> conv name m' row = uid row).
  { intros row Hrow Hc. unfold conv, m'. rewrite find_assignAll_other; [by rewrite Hnone|done|].
    intros u Hu [= ->]. rewrite Hfst in Hu. apply list_elem_of_fmap in Hu as (row' & He & Hrow'). apply Hcs in Hrow' as [Hin Hc'].
    rewrite (uid_inj_rows _ _ _ HnB Hrow Hin He) in Hc. congruence. }
  assert (Hyes : forall row, row ∈ theDataView_ B -> conflict row = true -> (uid row, conv name m' row) ∈ l).
  { intros row Hrow Hc. assert (Hu : uid row ∈ map fst l) by (rewrite Hfst; apply list_elem_of_fmap; exists row; split; [done|by apply Hcs]).
    apply list_elem_of_fmap in Hu as ([u id] & He & Hin). cbn in He. subst u. unfold conv, m'. by rewrite (find_assignAll name l m _ id). }
  assert (Hids : forall u id, (u, id) ∈ l -> ~ id ∈ uidA /\ ~ id ∈ uidB).
  { intros u id Hin. apply Hnew. rewrite <- Hsnd. apply list_elem_of_fmap. by exists (u, id). }
  split; [|done]. apply NoDup_app. split_and!.
  - apply ok.
  - intros x Hx (row & -> & Hrow)%list_elem_of_fmap. destruct (conflict row) eqn:Hc.
    + destruct (Hids _ _ (Hyes row Hrow Hc)) as [HA _]. by apply HA.
    + rewrite Hno in Hx by done. unfold conflict in Hc. apply not_true_iff_false in Hc. apply Hc. by apply isOneOf_spec.
  - apply NoDup_fmap_2_strong; [|by apply (NoDup_fmap_1 uid)]. intros r1 r2 H1 H2 He. apply (uid_inj_rows _ _ _ HnB H1 H2).
    destruct (conflict r1) eqn:Hc1, (conflict r2) eqn:Hc2.
    + pose proof (Hyes r1 H1 Hc1) as E1. pose proof (Hyes r2 H2 Hc2) as E2. rewrite He in E1.
      apply list_elem_of_lookup in E1 as [i Ei]. apply list_elem_of_lookup in E2 as [j Ej].
      assert (i = j) as ->; [|rewrite Ei in Ej; by injection Ej].
      apply (NoDup_lookup ids i j (conv name m' r2) Hn); rewrite <- Hsnd; change (map snd l) with (snd <$> l); rewrite list_lookup_fmap; [by rewrite Ei|by rewrite Ej].
    + exfalso. rewrite (Hno r2 H2 Hc2) in He. destruct (Hids _ _ (Hyes r1 H1 Hc1)) as [_ HB]. apply HB. rewrite He. apply list_elem_of_fmap. by exists r2.
    + exfalso. rewrite (Hno r1 H1 Hc1) in He. destruct (Hids _ _ (Hyes r2 H2 Hc2)) as [_ HB]. apply HB. rewrite <- He. apply list_elem_of_fmap. by exists r1.
    + by rewrite (Hno r1), (Hno r2) in He.
Qed.
End Conversion.

(** ** All columns *)

(** The group columns change the map of the groups only. *)
Definition uidsKept (st0 st : merge) : Prop := table st = table st0 /\ uidConversionMap st = uidConversionMap st0.
Lemma convertGroups_keeps st0 B cb a b todo local : keeps (uidsKept st0) (convertGroups B cb a b todo local).
Proof.
  revert local. induction todo as [|g todo IH]; intros local; cbn [convertGroups]; [by intros st Hst|]. destruct (negb _); [done|].
  repeat (apply keeps_bind; [first [apply keeps_lift|apply keeps_gets]|intros ?]). apply keeps_bind; [|by intros _].
  apply keeps_modify. by intros st [H1 H2].
Qed.
Section Filling.
Context (getenv : text -> option text) (systemVariables_ : gmap text (gmap text text)) (expansionFuel : nat).
Context (A B : view) (c : nat) (ok : mergeable getenv systemVariables_ expansionFuel A B c).
(** Column [c] is the only one with identifiers. *)
Context (single : forall cb ci, columnsInfo_ A !! cb = Some ci -> isUID (type_ ci) = true -> cb = c).
Context (splits : forall row, row ∈ theDataView_ B -> conflict A c row = true -> is_ok (splitId (uid c row)) = true).
Context (small : Z.of_nat (getNumberOfRows A + getNumberOfRows B + getNumberOfRows B) < 2 ^ 32).
Abbreviation convertColumn := (convertColumn getenv systemVariables_ expansionFuel A B).

Lemma convertColumn_other st0 cb : cb <> c -> keeps (uidsKept st0) (convertColumn cb).
Proof.
  intros Hcb st Hst. unfold TableMerge.convertColumn, getColumnInfo. destruct (columnsInfo_ A !! cb) as [a|] eqn:Ha; [|done].
  rewrite (bind_ok (lift (Ok a)) _ st a st) by done. destruct (isUID (type_ a)) eqn:Hu; [by destruct Hcb; apply (single cb a)|]. cbn [orb].
  destruct (isGroupID (type_ a)) eqn:Hg; [|done]. cbn [negb]. revert st Hst.
  match goal with |- forall st, _ -> uidsKept st0 (?m st).2 => change (keeps (uidsKept st0) m) end.
  repeat (apply keeps_bind; [first [apply keeps_lift|apply keeps_gets]|intros ?]).
  apply keeps_if; [by intros st Hst|]. repeat (apply keeps_bind; [apply keeps_lift|intros ?]). apply convertGroups_keeps.
Qed.
Lemma columns_keep st0 cols : (forall cb, cb ∈ cols -> cb <> c) -> keeps (uidsKept st0) (forEach cols convertColumn).
Proof.
  induction cols as [|cb cols IH]; intros Hc; cbn [forEach]; [by intros st Hst|].
  apply keeps_bind; [apply convertColumn_other, Hc; left|]. intros _. apply IH. intros i Hi. apply Hc. by right.
Qed.
Lemma convertColumn_uid st st' : convertColumn c st = (Ok tt, st') ->
  exists ids, length ids = length (conflicts A c (theDataView_ B)) /\ NoDup ids /\ (forall id, id ∈ ids -> ~ id ∈ uidA A c /\ ~ id ∈ uidB B c) /\
    st' = withUIDs st (assignAll (TableBase.tableName_ (table st)) (zip (map (uid c) (conflicts A c (theDataView_ B))) ids) (uidConversionMap st)).
Proof.
  destruct (mergeable_uidA _ _ _ _ _ _ ok) as (ci & Hci & Ht). unfold TableMerge.convertColumn, getColumnInfo. rewrite Hci.
  rewrite (bind_ok (lift (Ok ci)) _ st ci st) by done. rewrite Ht. change (isUID TYPE_UID) with true. cbn [orb negb].
  intros H. repeat (rewrite bind_inv in H; destruct H as (? & ? & Hl & H); unfold lift, gets in Hl; injection Hl as _ <-).
  destruct (negb _); [done|]. change (isGroupID TYPE_UID) with false in H.
  destruct (convertUIDs_run getenv systemVariables_ expansionFuel A B c ok (theDataView_ B) [] [] st eq_refl splits) as (ids & H1 & H2 & H3 & Hrun); [cbn [length]; unfold getNumberOfRows in *; lia|].
  cbn [length] in Hrun. exists ids. split_and!; [done|done|intros id Hid; destruct (H3 id Hid) as (? & ? & _); by split|].
  unfold getNumberOfRows in H. rewrite Hrun in H. by injection H as <-.
Qed.
Lemma fillConversionMaps_uid st st' : fillConversionMaps getenv systemVariables_ expansionFuel A B st = (Ok tt, st') ->
  exists ids, length ids = length (conflicts A c (theDataView_ B)) /\ NoDup ids /\ (forall id, id ∈ ids -> ~ id ∈ uidA A c /\ ~ id ∈ uidB B c) /\
    table st' = table st /\
    uidConversionMap st' = assignAll (TableBase.tableName_ (table st)) (zip (map (uid c) (conflicts A c (theDataView_ B))) ids) (uidConversionMap st).
Proof.
  unfold fillConversionMaps. destruct (mergeable_uidB _ _ _ _ _ _ ok) as (ci & Hci & _). apply lookup_lt_Some in Hci.
  replace (seq 0 (getNumberOfColumns B)) with (seq 0 c ++ c :: seq (S c) (getNumberOfColumns B - S c)).
  2: { change (c :: seq (S c) (getNumberOfColumns B - S c)) with (seq c (S (getNumberOfColumns B - S c))). rewrite <- seq_app. f_equal. unfold getNumberOfColumns. lia. }
  rewrite forEach_app. cbn [forEach]. rewrite bind_inv. intros ([] & st1 & H1 & H). rewrite bind_inv in H. destruct H as ([] & st2 & H2 & H3).
  assert (K1 : uidsKept st st1).
  { pose proof (columns_keep st (seq 0 c) ltac:(intros cb Hcb%elem_of_seq; lia) st (conj eq_refl eq_refl)) as K. by rewrite H1 in K. }
  destruct (convertColumn_uid _ _ H2) as (ids & L & N & F & E2). destruct K1 as [T1 U1].
  assert (K3 : uidsKept st2 st').
  { pose proof (columns_keep st2 (seq (S c) (getNumberOfColumns B - S c)) ltac:(intros cb Hcb%elem_of_seq; lia) st2 (conj eq_refl eq_refl)) as K. by rewrite H3 in K. }
  destruct K3 as [T3 U3]. exists ids. split_and!; [done..|by rewrite T3, E2|]. rewrite U3, E2. cbn. by rewrite T1, U1.
Qed.
End Filling.

(** ** Renamed records *)

Section Renaming.
Context (getenv : text -> option text) (systemVariables_ : gmap text (gmap text text)) (expansionFuel : nat).
Context (A B : view) (c : nat) (author : text) (now : Z) (v : version) (ok : mergeable getenv systemVariables_ expansionFuel A B c).
Context (single : forall cb ci, columnsInfo_ B !! cb = Some ci -> isUID (type_ ci) = true -> cb = c).
Context (w0 : view) (cols0 : columnsInfo_ w0 = columnsInfo_ A) (defaults0 : length (rowDefaultValues_ w0) = getNumberOfColumns w0)
  (stamp0 : stampable w0 author).
Abbreviation uid := (uid c).
Abbreviation convertCell := (convertCell getenv systemVariables_ expansionFuel B v).
Abbreviation name st := (TableBase.tableName_ (table st)).
Abbreviation conv st := (conv c (name st) (uidConversionMap st)).
(** The rows of the destination and of the record in work. *)
Definition holds (st : merge) (d : list (list text)) (row : list text) : merge := holding v st (set_data w0 (d ++ [row])).

Lemma remap_run found st d row col st' : hasDestination v st -> length row = getNumberOfColumns A ->
  remap v found (length d) col (holds st d row) = (Ok tt, st') ->
  st' = holds st d (match found with Some id => <[col := id]> row | None => row end).
Proof.
  intros Hd Hl H. destruct found as [id|]; cbn [remap] in H; [|by injection H as <-]. unfold holds in H. rewrite onDestination_run in H by done.
  unfold setValueAsString in H. rewrite (bind_ok (gets _) _ (set_data w0 (d ++ [row])) _ (set_data w0 (d ++ [row])) eq_refl) in H.
  destruct (negb _); [done|]. unfold setCell, inView in H. cbn [theDataView_ set_data] in H. rewrite list_lookup_middle in H by done.
  destruct (col <? length row)%nat eqn:Hc; [|done]. cbn [fst snd] in H. injection H as <-. unfold holds, putCell. f_equal. cbn [theDataView_ set_data].
  by rewrite alter_snoc.
Qed.
(** A cell of the record is converted: only that cell changes, and in the
    identifier's column to the converted identifier. *)
Lemma getChildLink_self w cb isGroup link i : getChildLink w cb = Ok (Some (isGroup, link, i)) ->
  (exists ci, columnsInfo_ w !! cb = Some ci /\ (isChildLinkUID (type_ ci) = true \/ isChildLinkGroupID (type_ ci) = true)) -> i = cb.
Proof.
  intros H (ci & Hci & Ht). unfold getChildLink in H. rewrite Hci in H.
  assert (Hor : isChildLinkGroupID (type_ ci) || isChildLinkUID (type_ ci) = true) by (destruct Ht as [-> | ->]; by rewrite ?orb_true_r).
  rewrite Hor in H. destruct (getChildLinkIndex (type_ ci)); [|done]. cbn [mbind result_bind] in H. destruct (otherColumn _ _ _); [|done]. by injection H.
Qed.
Lemma linkValues_self rb cb i t u : linkValues getenv systemVariables_ expansionFuel B rb cb = Ok (i, t, u) ->
  (exists ci, columnsInfo_ B !! cb = Some ci /\ (isChildLinkUID (type_ ci) = true \/ isChildLinkGroupID (type_ ci) = true)) -> i = cb.
Proof.
  unfold linkValues. destruct (getChildLink B cb) as [[[[g l] j]|]|] eqn:Hg; [|done|done]. cbn [mbind result_bind].
  destruct (value _ _ _ B rb l); [|done]. cbn [mbind result_bind]. destruct (value _ _ _ B rb j); [|done]. cbn [mbind result_bind]. intros [= -> _ _].
  by apply (getChildLink_self B cb g l).
Qed.
Lemma convertCell_run st d row rowB rb cb st' : hasDestination v st -> length row = getNumberOfColumns A -> theDataView_ B !! rb = Some rowB ->
  convertCell (length d) rb cb (holds st d row) = (Ok tt, st') ->
  exists row', st' = holds st d row' /\ length row' = getNumberOfColumns A /\
    (cb <> c -> uid row' = uid row) /\ (cb = c -> uid row' = conv st rowB \/ (uid row' = uid row /\ conv st rowB = uid rowB)).
Proof.
  intros Hd Hl HrowB. unfold TableMerge.convertCell, getColumnInfo. destruct (columnsInfo_ B !! cb) as [ci|] eqn:Hci; [|done].
  rewrite (bind_ok (lift (Ok ci)) _ (holds st d row) ci (holds st d row)) by done.
  rewrite (bind_ok (gets id) _ (holds st d row) (holds st d row) (holds st d row)) by done. cbn beta.
  change (uidConversionMap (holds st d row)) with (uidConversionMap st). change (groupidConversionMap (holds st d row)) with (groupidConversionMap st).
  change (TableBase.tableName_ (table (holds st d row))) with (name st).
  assert (Hsame : forall found, cb <> c -> remap v found (length d) cb (holds st d row) = (Ok tt, st') ->
    exists row', st' = holds st d row' /\ length row' = getNumberOfColumns A /\ (cb <> c -> uid row' = uid row) /\
      (cb = c -> uid row' = conv st rowB \/ (uid row' = uid row /\ conv st rowB = uid rowB))).
  { intros found Hne H. apply remap_run in H; [|done|done]. eexists. split; [exact H|]. split; [destruct found; by rewrite ?length_insert|].
    split; [|done]. intros _. destruct found; [|done]. unfold TableMerge.uid. rewrite !nth_lookup. by rewrite list_lookup_insert_ne. }
  assert (Hnot : isUID (type_ ci) = false -> cb <> c).
  { intros Hu ->. destruct (mergeable_uidB _ _ _ _ _ _ ok) as (ci' & Hci' & Ht). rewrite Hci in Hci'. injection Hci' as <-. by rewrite Ht in Hu. }
  assert (Huid : cb = c -> type_ ci = TYPE_UID).
  { intros ->. destruct (mergeable_uidB _ _ _ _ _ _ ok) as (ci' & Hci' & Ht). rewrite Hci in Hci'. by injection Hci' as <-. }
  assert (Hkind : forall p : text -> bool, p TYPE_UID = false -> p (type_ ci) = true -> cb <> c).
  { intros p Hp Ht He. rewrite (Huid He) in Ht. congruence. }
  destruct (isChildLink (type_ ci)) eqn:E1.
  { intros [= <-]. exists row. split_and!; [done|done|done|]. by intros He; destruct (Hkind isChildLink eq_refl E1). }
  destruct (isChildLinkUID (type_ ci)) eqn:E2.
  { destruct (linkValues _ _ _ B rb cb) as [[[i t] u]|] eqn:Hlv; [|done]. rewrite (bind_ok (lift _) _ (holds st d row) (i, t, u) (holds st d row)) by done.
    rewrite (linkValues_self rb cb i t u Hlv) by (exists ci; auto). apply Hsame. by apply (Hkind isChildLinkUID). }
  destruct (isChildLinkGroupID (type_ ci)) eqn:E3.
  { destruct (linkValues _ _ _ B rb cb) as [[[i t] u]|] eqn:Hlv; [|done]. rewrite (bind_ok (lift _) _ (holds st d row) (i, t, u) (holds st d row)) by done.
    destruct (getChildLinkIndex (type_ ci)) as [ix|]; [|done]. rewrite (bind_ok (lift _) _ (holds st d row) ix (holds st d row)) by done.
    rewrite (linkValues_self rb cb i t u Hlv) by (exists ci; auto). apply Hsame. by apply (Hkind isChildLinkGroupID). }
  destruct (isUID (type_ ci)) eqn:E4.
  { assert (cb = c) as -> by by apply (single cb ci). rewrite (valueB _ _ _ A B c ok rb rowB HrowB).
    rewrite (bind_ok (lift _) _ (holds st d row) (uid rowB) (holds st d row)) by done. intros H. apply remap_run in H; [|done|done].
    eexists. split; [exact H|]. unfold TableMerge.conv. split; [destruct (find _ _); by rewrite ?length_insert|]. split; [done|]. intros _.
    destruct (find (uidConversionMap st) (name st, uid rowB)) as [id|]; [|by right]. left. cbn. unfold TableMerge.uid.
    apply nth_lookup_Some. rewrite list_lookup_insert_eq; [done|]. apply lookup_lt_Some in Hci. rewrite Hl. by rewrite <- (mergeable_columns _ _ _ _ _ _ ok). }
  destruct (isGroupID (type_ ci)) eqn:E5.
  { destruct (getChildLinkIndex (type_ ci)) as [ix|]; [|done]. rewrite (bind_ok (lift _) _ (holds st d row) ix (holds st d row)) by done.
    destruct (value _ _ _ B rb cb) as [g|]; [|done]. rewrite (bind_ok (lift _) _ (holds st d row) g (holds st d row)) by done. apply Hsame. by apply (Hnot eq_refl). }
  destruct (value _ _ _ B rb cb) as [s|]; [|done]. rewrite (bind_ok (lift _) _ (holds st d row) s (holds st d row)) by done.
  destruct (_ && _); [apply Hsame; by apply Hnot|]. intros [= <-]. exists row. split_and!; [done..|]. intros He. by destruct (Hnot eq_refl).
Qed.
(** Over the columns, the identifier is converted in column [c] and stays in
    the others. *)
Lemma convertCells_run cols : forall st d row rowB rb st', hasDestination v st -> length row = getNumberOfColumns A -> theDataView_ B !! rb = Some rowB -> NoDup cols ->
  forEach cols (convertCell (length d) rb) (holds st d row) = (Ok tt, st') ->
  exists row', st' = holds st d row' /\ length row' = getNumberOfColumns A /\
    (c ∉ cols -> uid row' = uid row) /\ (c ∈ cols -> uid row' = conv st rowB \/ (uid row' = uid row /\ conv st rowB = uid rowB)).
Proof.
  induction cols as [|cb cols IH]; intros st d row rowB rb st' Hd Hl HrowB Hn H; cbn [forEach] in H.
  { injection H as <-. exists row. split_and!; [done..|by intros ?%elem_of_nil]. }
  apply NoDup_cons in Hn as [Hcb Hn]. rewrite bind_inv in H. destruct H as ([] & st1 & H1 & H).
  destruct (convertCell_run _ _ _ _ _ _ _ Hd Hl HrowB H1) as (row1 & -> & Hl1 & Hother & Hself).
  destruct (IH _ _ _ _ _ _ Hd Hl1 HrowB Hn H) as (row2 & -> & Hl2 & Hother2 & Hself2). exists row2. split; [done|]. split; [done|].
  rewrite not_elem_of_cons, elem_of_cons. split; [intros [Hne Hni]; by rewrite Hother2, Hother by congruence|].
  intros [<-|Hin]; [rewrite Hother2 by done; by apply Hself|]. assert (cb <> c) by (by intros ->). destruct (Hself2 Hin) as [?|[E ?]]; [by left|right].
  by rewrite E, Hother.
Qed.
Lemma renameRecord_run st d rb rw st' : hasDestination v st -> (forall r, r ∈ d -> length r = getNumberOfColumns A) -> theDataView_ B !! rb = Some rw ->
  renameRecord getenv systemVariables_ expansionFuel B author now false v rb (holding v st (set_data w0 d)) = (Ok tt, st') ->
  exists row, st' = holding v st (set_data w0 (d ++ [row])) /\ length row = getNumberOfColumns A /\ uid row = conv st rw.
Proof.
  intros Hd Hl Hw. destruct (rowB getenv systemVariables_ expansionFuel A B c ok rb rw Hw) as [HlB _]. unfold renameRecord.
  rewrite (bind_ok (copyRecord _ _ _ _ _ _) _ _ _ _ (copyRecord_run getenv systemVariables_ expansionFuel A B c author now v ok w0 cols0 defaults0 stamp0 st d rb rw Hd Hl Hw)).
  intros H. destruct (convertCells_run _ st d rw rw rb st' Hd HlB Hw (NoDup_seq _ _) H) as (row & -> & Hlr & _ & Hu).
  exists row. split; [done|]. split; [done|]. destruct (mergeable_uidB _ _ _ _ _ _ ok) as (ci & Hci & _). apply lookup_lt_Some in Hci.
  destruct Hu as [?|[E ?]]; [apply elem_of_seq; unfold getNumberOfColumns; lia|done|congruence].
Qed.
Lemma renameLoop_run st rows : forall pre d st', hasDestination v st -> (forall r, r ∈ d -> length r = getNumberOfColumns A) -> theDataView_ B = pre ++ rows ->
  forEach (seq (length pre) (length rows)) (renameRecord getenv systemVariables_ expansionFuel B author now false v) (holding v st (set_data w0 d)) = (Ok tt, st') ->
  exists renamed, st' = holding v st (set_data w0 (d ++ renamed)) /\ map uid renamed = map (conv st) rows /\
    forall r, r ∈ renamed -> length r = getNumberOfColumns A.
Proof.
  induction rows as [|row rows IH]; intros pre d st' Hd Hl HB H; cbn [length seq forEach] in H.
  { injection H as <-. exists []. split_and!; [by rewrite app_nil_r|done|by intros r ?%elem_of_nil]. }
  rewrite bind_inv in H. destruct H as ([] & st1 & H1 & H).
  assert (Hrow : theDataView_ B !! length pre = Some row) by (rewrite HB; by apply list_lookup_middle).
  destruct (renameRecord_run _ _ _ _ _ Hd Hl Hrow H1) as (row' & -> & Hl' & Hu).
  specialize (IH (pre ++ [row]) (d ++ [row']) st'). rewrite length_app in IH. cbn [length] in IH. replace (length pre + 1)%nat with (S (length pre)) in IH by lia.
  destruct (IH Hd) as (renamed & -> & Hm & Hlr); [|by rewrite <- app_assoc|done|].
  - intros r [Hr|Hr%list_elem_of_singleton]%elem_of_app; [by apply Hl|by subst r].
  - exists (row' :: renamed). rewrite <- app_assoc. split; [done|]. cbn [map]. rewrite Hm, Hu. split; [done|].
    intros r [->|Hr]%elem_of_cons; [done|by apply Hlr].
Qed.
End Renaming.

(** An exception that is caught and thrown again does not end in a result. *)
Lemma cleanup_inv {S X Y} sel (m : M S X) (clean : exn -> M S Y) s a s' :
  catch_if sel m (fun e => clean e ≫= fun _ => throw e) s = (Ok a, s') -> m s = (Ok a, s').
Proof.
  unfold catch_if. destruct (m s) as [[x|e] s1]; [done|]. destruct (sel e); [|done]. unfold mbind, M_bind. by destruct (clean e s1) as [[]].
Qed.
Lemma mergeViews_inv getenv systemVariables_ expansionFuel A B destination author generate created made copied now st v st' :
  mergeViews getenv systemVariables_ expansionFuel A B destination author RENAME true true generate created made copied now st = (Ok v, st') ->
  exists st0 s1 s2, fillConversionMaps getenv systemVariables_ expansionFuel A B st = (Ok tt, st0) /\
    createTemporaryView TableVersion.default destination created made (table st0) = (Ok v, s1) /\
    copyInto v A author copied copied s1 = (Ok tt, s2) /\
    forEach (seq 0 (getNumberOfRows B)) (renameRecord getenv systemVariables_ expansionFuel B author now generate v)
      (mkMerge s2 (uidConversionMap st0) (groupidConversionMap st0)) = (Ok tt, st').
Proof.
  unfold mergeViews. cbn [isRename andb negb].
  rewrite (bind_ok (gets _) _ st (mockupTableView_ (table st)) st) by done. do 2 (destruct (negb _); [done|]).
  rewrite bind_inv. intros ([] & st0 & Hfill & H). exists st0. rewrite bind_inv in H. destruct H as (v0 & st1 & H1 & H). unfold onTable in H1.
  destruct (createTemporaryView _ _ _ _ (table st0)) as [[v'|e] s1] eqn:Hcreate; [|done]. injection H1 as -> <-.
  rewrite bind_inv in H. destruct H as ([] & st2 & H2 & H3). injection H3 as <- <-. apply cleanup_inv in H2.
  rewrite bind_inv in H2. destruct H2 as ([] & st3 & H2 & H3). unfold onTable in H2. cbn [table uidConversionMap groupidConversionMap] in H2.
  destruct (copyInto _ _ _ _ _ s1) as [[[]|] s2] eqn:Hcopy; [|done]. injection H2 as <-. exists s1, s2. split_and!; [done..|].
  unfold mergeRecords in H3. rewrite bind_inv in H3. destruct H3 as (? & ? & [= <- <-] & H3). rewrite bind_inv in H3. destruct H3 as (? & ? & Hc & H3).
  unfold lift in Hc. injection Hc as _ <-. exact H3.
Qed.

(** C31: Renaming keeps all records of A and adds every record of B, so that no two
    records of the result have the same UID.  A record of B without a conflict
    keeps its UID; the others get the UID that the conversion map now has for
    them. *)
Theorem mergeViews_rename getenv systemVariables_ expansionFuel A B c author destination created made copied now st st' v :
  valid (table st) -> TableVersion.wf destination -> ordinary (TableBase.tableName_ (table st)) created ->
  mergeable getenv systemVariables_ expansionFuel A B c -> stampable A author ->
  (forall cb ci, columnsInfo_ A !! cb = Some ci \/ columnsInfo_ B !! cb = Some ci -> isUID (type_ ci) = true -> cb = c) ->
  (forall row, row ∈ theDataView_ B -> conflict A c row = true -> is_ok (splitId (uid c row)) = true) ->
  Z.of_nat (getNumberOfRows A + getNumberOfRows B + getNumberOfRows B) < 2 ^ 32 ->
  sorted (uidConversionMap st) -> (forall row, row ∈ theDataView_ B -> find (uidConversionMap st) (TableBase.tableName_ (table st), uid c row) = None) ->
  mergeViews getenv systemVariables_ expansionFuel A B destination author RENAME true true false created made copied now st = (Ok v, st') ->
  exists w renamed, find (tableViews_ (table st')) v = Some w /\ columnsInfo_ w = columnsInfo_ A /\
    theDataView_ w = theDataView_ A ++ renamed /\ NoDup (map (uid c) (theDataView_ w)) /\
    map (uid c) renamed = map (conv c (TableBase.tableName_ (table st)) (uidConversionMap st')) (theDataView_ B) /\
    (forall row, row ∈ theDataView_ B -> ~ uid c row ∈ map (uid c) (theDataView_ A) ->
      conv c (TableBase.tableName_ (table st)) (uidConversionMap st') row = uid c row) /\
    (forall j, j <> v -> find (tableViews_ (table st')) j = find (tableViews_ (table st)) j).
Proof.
  intros Hs Hd Hord Hok Hstamp single Hsplit Hsmall Hsorted Hnone (st0 & s1 & s2 & Hfill & H1 & H2 & H3)%mergeViews_inv.
  destruct (fillConversionMaps_uid getenv systemVariables_ expansionFuel A B c Hok (fun cb ci H => single cb ci (or_introl H)) Hsplit Hsmall st st0 Hfill)
    as (ids & Hl & Hn & Hnew & Htable & Hmap).
  destruct (conv_unique getenv systemVariables_ expansionFuel A B c Hok _ ids _ Hsorted Hnone Hl Hn Hnew) as [Hunique Hkept]. rewrite <- Hmap in Hunique, Hkept.
  rewrite Htable in H1. destruct (destination_made _ _ _ _ _ _ _ _ _ _ Hs Hd Hord H1 H2) as (w0 & E2 & Hst & Hdef & Hcp & Hmock & Htname & Hothers).
  set (st1 := mkMerge s1 (uidConversionMap st0) (groupidConversionMap st0)).
  assert (E : mkMerge s2 (uidConversionMap st0) (groupidConversionMap st0) = holding v st1 (set_data w0 (theDataView_ A))).
  { rewrite E2. unfold holding. cbn. by rewrite <- (copied_data _ _ _ _ Hcp); destruct w0. }
  assert (Hname : TableBase.tableName_ (table st1) = TableBase.tableName_ (table st)) by exact Htname.
  assert (HA : forall r, r ∈ theDataView_ A -> length r = getNumberOfColumns A).
  { pose proof (mergeable_rectA _ _ _ _ _ _ Hok) as HA. unfold rectangular in HA. by rewrite Forall_forall in HA. }
  rewrite E in H3. apply (renameLoop_run getenv systemVariables_ expansionFuel A B c author now v Hok (fun cb ci H => single cb ci (or_intror H)) w0
    (copied_columns _ _ _ _ Hcp) Hdef (stampable_columns A w0 author (eq_sym (copied_columns _ _ _ _ Hcp)) Hstamp) st1 (theDataView_ B) [] (theDataView_ A) st' Hst HA eq_refl) in H3
    as (renamed & -> & Hm & _).
  rewrite Hname in Hm. change (uidConversionMap st1) with (uidConversionMap st0) in Hm.
  exists (set_data w0 (theDataView_ A ++ renamed)), renamed. split_and!; [by apply holding_find|apply (copied_columns _ _ _ _ Hcp)|done| |done| |].
  - cbn [theDataView_ set_data]. rewrite map_app, Hm. exact Hunique.
  - intros row Hrow Hno. apply Hkept; [done|]. unfold conflict. apply not_true_iff_false. by rewrite isOneOf_spec.
  - intros j Hj. cbn. rewrite find_updated. destruct (sameKey_spec j v); [done|]. by apply Hothers.
Qed.

(** ** Runs *)

Definition noEnvironment (_ : text) : option text := None.
(** A second view with a record that [sample] has as well, and a new one. *)
Definition second : view := set_data sample [sampleRow "FE2" "B" "P2" "1"; sampleRow "FE7" "C D" "P3" "2"].
Definition beginning : merge := mkMerge emptyTable [] [].
Lemma mergeable_check w1 w2 : columnsInfo_ w1 = columnsInfo_ sample -> columnsInfo_ w2 = columnsInfo_ sample ->
  forallb (fun row => length row =? 7)%nat (theDataView_ w1 ++ theDataView_ w2) = true ->
  forallb (fun row => match StringExpansion.convertEnvironmentVariables noEnvironment ∅ 100 (uid 0 row) with Ok x => textEq x (uid 0 row) | _ => false end)
    (theDataView_ w1 ++ theDataView_ w2) = true ->
  bool_decide (NoDup (map (uid 0) (theDataView_ w1))) && bool_decide (NoDup (map (uid 0) (theDataView_ w2))) = true -> mergeable noEnvironment ∅ 100 w1 w2 0.
Proof.
  intros H1 H2 Hl Hp Hn. apply andb_true_iff in Hn as [Hn1%bool_decide_eq_true Hn2%bool_decide_eq_true].
  rewrite forallb_forall in Hl, Hp.
  assert (Hc : forall w, columnsInfo_ w = columnsInfo_ sample -> getNumberOfColumns w = 7%nat /\ exists ci, columnsInfo_ w !! 0%nat = Some ci /\ type_ ci = TYPE_UID).
  { intros w Hw. unfold getNumberOfColumns. rewrite Hw. split; [done|]. by eexists. }
  destruct (Hc w1 H1) as [N1 U1]. destruct (Hc w2 H2) as [N2 U2]. constructor; try done; [by rewrite N1| | |].
  - unfold rectangular. apply Forall_forall. intros row Hrow. rewrite N1. apply Nat.eqb_eq, Hl, list_elem_of_In, elem_of_app. by left.
  - unfold rectangular. apply Forall_forall. intros row Hrow. rewrite N2. apply Nat.eqb_eq, Hl, list_elem_of_In, elem_of_app. by right.
  - intros row Hrow%list_elem_of_In. apply Hp in Hrow. unfold plain. destruct (StringExpansion.convertEnvironmentVariables _ _ _ _); [|done].
    by apply textEq_spec in Hrow as ->.
Qed.
Lemma second_mergeable : mergeable noEnvironment ∅ 100 sample second 0.
Proof. apply mergeable_check; try done; by vm_compute. Qed.
Lemma emptyTable_ordinary : ordinary (TableBase.tableName_ emptyTable) 60.
Proof. unfold ordinary. destruct (construct _ _) as [w|] eqn:E; [|by vm_compute in E]. exists w. split; [done|]. vm_compute in E. by injection E as <-. Qed.
Lemma invalid_wf : TableVersion.wf TableVersion.default.
Proof. apply edited_wf; by vm_compute. Qed.
Lemma mergeViews_conflicts_witness : exists v st',
  mergeViews noEnvironment ∅ 100 sample second TableVersion.default (txt "ann") REPLACE true true false 60 60 60 60 beginning = (Ok v, st') /\
  (fun w => map (fun row => (uid 0 row, uid 3 row)) (theDataView_ w)) <$> find (tableViews_ (table st')) v =
    Some [(txt "FE1", txt "7"); (txt "Other", txt "7"); (txt "FE2", txt "1"); (txt "FE7", txt "2")].
Proof.
  destruct (createTemporaryView TableVersion.default TableVersion.default 60 60 emptyTable) as [r s1] eqn:E1.
  pose proof (run_result _ _ _ _ (Ok (V 4294967294)) E1 ltac:(by vm_compute)) as Hr. subst r.
  destruct (copyInto (V 4294967294) sample (txt "ann") 60 60 s1) as [r s2] eqn:E2.
  assert (Hr : r = Ok tt).
  { assert (B : (copyInto (V 4294967294) sample (txt "ann") 60 60 (createTemporaryView TableVersion.default TableVersion.default 60 60 emptyTable).2).1 = Ok tt) by by vm_compute.
    rewrite E1 in B. cbn [snd] in B. by rewrite E2 in B. }
  subst r.
  destruct (mergeViews_conflicts noEnvironment ∅ 100 sample second 0 (txt "ann") true true false TableVersion.default 60 60 60 60 beginning (V 4294967294) s1 s2
    emptyTable_valid invalid_wf emptyTable_ordinary second_mergeable (sample_stampable _) eq_refl eq_refl E1 E2) as (st' & w & E & F & _ & D & _).
  exists (V 4294967294), st'. split; [exact E|]. rewrite F. cbn [fmap option_fmap option_map]. rewrite D. by vm_compute.
Defined.
Lemma mergeViews_rename_witness : exists v st' w,
  mergeViews noEnvironment ∅ 100 sample second TableVersion.default (txt "ann") RENAME true true false 60 60 60 60 beginning = (Ok v, st') /\
  find (tableViews_ (table st')) v = Some w /\ NoDup (map (uid 0) (theDataView_ w)) /\
  map (uid 0) (theDataView_ w) = [txt "FE1"; txt "FE2"; txt "Other"; txt "FE3"; txt "FE7"].
Proof.
  destruct (mergeViews noEnvironment ∅ 100 sample second TableVersion.default (txt "ann") RENAME true true false 60 60 60 60 beginning) as [r st'] eqn:E.
  pose proof (run_result _ _ _ _ (Ok (V 4294967294)) E ltac:(by vm_compute)) as Hr. subst r.
  destruct (mergeViews_rename noEnvironment ∅ 100 sample second 0 (txt "ann") TableVersion.default 60 60 60 60 beginning st' (V 4294967294)
    emptyTable_valid invalid_wf emptyTable_ordinary second_mergeable (sample_stampable _)) as (w & renamed & F & _ & _ & N & _); [|..|exact E|].
  - intros cb ci H Hu. do 7 (destruct cb as [|cb]; [first [reflexivity|destruct H as [H|H]; injection H as <-; by vm_compute in Hu]|]). by destruct H.
  - intros row Hrow _. assert (B : forallb (fun row => is_ok (splitId (uid 0 row))) (theDataView_ second) = true) by by vm_compute.
    rewrite forallb_forall in B. by apply B, list_elem_of_In.
  - by vm_compute.
  - apply Sorted.SSorted_nil.
  - by intros row Hrow.
  - exists (V 4294967294), st', w. split; [exact eq_refl|]. split; [exact F|]. split; [exact N|].
    assert (B : (fun w => map (uid 0) (theDataView_ w)) <$> find (tableViews_ (table
      (mergeViews noEnvironment ∅ 100 sample second TableVersion.default (txt "ann") RENAME true true false 60 60 60 60 beginning).2)) (V 4294967294)
      = Some [txt "FE1"; txt "FE2"; txt "Other"; txt "FE3"; txt "FE7"]) by by vm_compute.
    rewrite E in B. cbn [snd] in B. rewrite F in B. by injection B.
Defined.

(** A text link to a renamed record is written as it was: the original path is
    put in place of itself. *)
Lemma textLink_unchanged strb m t : textLink strb m = Some t -> t = strb.
Proof.
  induction m as [|[[tableName id] new] m IH]; cbn [textLink]; [done|].
  destruct (search _ (seq 0 (S (length strb)))) as [i|] eqn:Hs; [|exact IH]. intros [= <-]. set (path := tableName ++ [chr 47] ++ id) in *.
  destruct (search_some _ _ _ Hs) as (j & Hj & Hp). rewrite lookup_seq in Hj. destruct Hj as [-> _]. cbn [plus] in Hp.
  apply starts_with_spec in Hp as [r Hr]. rewrite <- (take_drop i strb) at 3. f_equal. rewrite Hr at 1. f_equal.
  by rewrite <- drop_drop, Hr, drop_app_length.
Qed.
(** A record in several groups keeps them all: the new names of groups are used
    for cells that hold the name of one group only.  The link to group C would
    be converted to [C0], which no record is in. *)
Lemma mergeViews_group_list :
  let st' := (mergeViews noEnvironment ∅ 100 sample second TableVersion.default (txt "ann") RENAME true true false 60 60 60 60 beginning).2 in
  map snd (groupidConversionMap st') = [txt "B0"; txt "C0"] /\
  (fun w => map (fun row => uid 1 row) (drop 3 (theDataView_ w))) <$> find (tableViews_ (table st')) (V 4294967294) = Some [txt "B0"; txt "C D"].
Proof. by vm_compute. Qed.
Lemma splitId_limit : splitId (txt "FE2147483647") = Throw Undefined /\ splitId (txt "FE09") = Ok (txt "FE", 10) /\ splitId (txt "FE") = Ok (txt "FE", 0).
Proof. by vm_compute. Qed.
End TableMerge.
