(* ===== verification/TableJSON.v ===== *)
(** * The JSON text of a table view

    [printJSON], [fillFromJSON] and [getMismatchColumnInfo] of
    src/otsdaq/TableCore/TableView.cc.  A view is stored as a JSON document and
    loaded by a reader of its own, which goes through the characters once and
    treats every completed value at once: the fields of the header at depth 1,
    the cells at depth 2 below [DATA_SET].

    The reader is in two parts: [scanChar] is the switch over the character,
    [handleNewValue] what follows it.  The index [i] is an [unsigned int], so
    the loop does not end for a text of 2^32 characters or more
    ([Undefined]). *)

From S2P Require Import Prelude CText Versions StringMacros StringLists Doubles TableViewColumnInfo TableView TableRows TableInit.

Module TableJSON.
Import TableViewColumnInfo TableView TableRows TableInit.
Implicit Types v w : TableView.

(** ** Writing *)

Definition nl : text := [StringMacros.newline].
Definition quoted (s : text) : text := doubleQuote :: s ++ [doubleQuote].
Definition tabs (n : nat) : text := replicate n StringMacros.tab.
Definition commentChar (c : ascii) : text :=
  if (c =? StringMacros.newline)%char then txt "\n"
  else if (c =? StringMacros.tab)%char then txt "\t"
  else if (c =? StringMacros.carriageReturn)%char then txt "\r"
  else (if (c =? doubleQuote)%char || (c =? StringMacros.backslash)%char then [StringMacros.backslash] else []) ++ [c].
(** Entries on lines of their own, with a comma after all but the last. *)
Fixpoint entries (l : list text) : text :=
  match l with
  | [] => []
  | [e] => e ++ nl
  | e :: l => e ++ txt "," ++ nl ++ entries l
  end.
Definition field (key value : text) : text := quoted key ++ txt " : " ++ value.
Definition printRow v (r : nat) : result text :=
  cells ← mapM (fun '(c, ci) =>
    val ← getEscapedValueAsString (fun _ => None) ∅ 0 v r c false false;
    Ok (tabs 2 ++ field (storageName_ ci) (quoted val))) (imap pair (columnsInfo_ v));
  Ok (tabs 1 ++ txt "{" ++ nl ++ entries cells ++ tabs 1 ++ txt "}").
Definition printJSON v : result text :=
  special ← isSpecialTable v;
  if (special : bool) then Ok (storageData_ v)
  else
    rows ← mapM (printRow v) (seq 0 (getNumberOfRows v));
    Ok (txt "{" ++ nl ++
        field (txt "NAME") (quoted (tableName_ v)) ++ txt "," ++ nl ++
        field (txt "COMMENT") (quoted (flat_map commentChar (comment_ v))) ++ txt "," ++ nl ++
        field (txt "AUTHOR") (quoted (author_ v)) ++ txt "," ++ nl ++
        field (txt "CREATION_TIME") (to_string_signed (creationTime_ v)) ++ txt "," ++ nl ++
        field (txt "COL_TYPES") (txt "{") ++ nl ++
        entries (map (fun ci => tabs 2 ++ field (storageName_ ci) (quoted (dataType_ ci))) (columnsInfo_ v)) ++ txt "}," ++ nl ++
        field (txt "DATA_SET") (txt "[") ++ nl ++
        entries rows ++ txt "]" ++ nl ++ txt "}").

(** ** The switch over a character *)

(** An entry of [jsonPath] with its [jsonPathType]; a key has its text. *)
Inductive level := Object | Array | Key (key : text).
Definition levelText (l : level) : text := match l with Object => txt "{" | Array => txt "[" | Key key => key end.
Inductive popType := NoPop | ObjectPop | ArrayPop | KeyPop.
(** [endNumber] is [None] for [(unsigned int)-1]; [jsonPath] has its last entry
    first.  [sqBracketCount] is only printed. *)
Record scan := mkScan {
  startString : nat;
  startNumber : nat;
  endNumber : option nat;
  bracketCount : nat;
  inQuotes : bool;
  newString : bool;
  extractedString : text;
  currKey : text;
  currVal : text;
  currDepth : nat;
  jsonPath : list level;
  lastPopType : popType;
}.
Definition scan0 : scan := mkScan 0 0 None 0 false false [] [] [] 0 [] NoPop.
Definition set_quotes s q start := mkScan start (startNumber s) (endNumber s) (bracketCount s) q (newString s) (extractedString s)
  (currKey s) (currVal s) (currDepth s) (jsonPath s) (lastPopType s).
Definition set_string s str := mkScan (startString s) (startNumber s) (endNumber s) (bracketCount s) false true str
  (currKey s) (currVal s) (currDepth s) (jsonPath s) (lastPopType s).
Definition set_numbers s start stop := mkScan (startString s) start stop (bracketCount s) (inQuotes s) (newString s) (extractedString s)
  (currKey s) (currVal s) (currDepth s) (jsonPath s) (lastPopType s).
Definition set_newString s b := mkScan (startString s) (startNumber s) (endNumber s) (bracketCount s) (inQuotes s) b (extractedString s)
  (currKey s) (currVal s) (currDepth s) (jsonPath s) (lastPopType s).
Definition set_value s key val depth := mkScan (startString s) (startNumber s) (endNumber s) (bracketCount s) (inQuotes s) (newString s)
  (extractedString s) key val depth (jsonPath s) (lastPopType s).
Definition set_path s path pop count := mkScan (startString s) (startNumber s) (endNumber s) count (inQuotes s) (newString s) (extractedString s)
  (currKey s) (currVal s) (currDepth s) path pop.

(** After a character: [return -1], or the state and [newValue]. *)
Inductive scanned := Invalid | Scanned (s : scan) (newValue : bool).
Definition on (s : scan) : result scanned := Ok (Scanned s false).
(** [jsonPathType[jsonPathType.size() - 1]] *)
Definition top (s : scan) : result level := match jsonPath s with l :: _ => Ok l | [] => Throw Undefined end.
Definition pop (s : scan) (p : popType) : scan := set_path s (tail (jsonPath s)) p (bracketCount s).
(** The value that ends at [i]: the last string, or what is between the last
    mark and [endNumber]. *)
Definition takeValue (json : text) (i : nat) (s : scan) : scan :=
  if newString s then set_value s (currKey s) (extractedString s) (currDepth s)
  else
    let stop := match endNumber s with Some e => if (e <=? startNumber s)%nat then i else e | None => i end in
    set_numbers (set_value s (currKey s)
      (if (stop <=? startNumber s)%nat then [] else take (stop - startNumber s - 1) (drop (startNumber s + 1) json)) (currDepth s))
      (startNumber s) (Some stop).
Definition setKey (s : scan) (key : text) : scan := set_value s key (currVal s) (currDepth s).
Definition setDepth (s : scan) : scan := set_value s (currKey s) (currVal s) (bracketCount s).
(** The key an array belongs to: the last one below the last entry.  [None] is
    [return -1]; if there is only the array the key stays. *)
Fixpoint lastKey (path : list level) : option text :=
  match path with [] => None | Key key :: _ => Some key | _ :: path => lastKey path end.
Definition arrayKey (s : scan) : option text :=
  match tail (jsonPath s) with [] => Some (currKey s) | below => lastKey below end.

Definition onQuote (json : text) (i : nat) (s : scan) : scan :=
  if match i with O => false | S j => match json !! j with Some d => (d =? StringMacros.backslash)%char | None => false end end then s
  else if inQuotes s then
    set_string s (StringMacros.restoreJSONStringEntities (take (i - startString s - 1) (drop (startString s + 1) json)))
  else set_quotes s true i.
Definition onColon (i : nat) (s : scan) : result scanned :=
  l ← top s;
  match l with
  | Object =>
      if newString s
      then on (set_newString (set_numbers (set_path s (Key (extractedString s) :: jsonPath s) (lastPopType s) (bracketCount s)) i None) false)
      else Ok Invalid
  | _ => Ok Invalid
  end.
Definition onComma (json : text) (i : nat) (s : scan) : result scanned :=
  match lastPopType s with
  | ObjectPop =>
      l ← top s;
      match l with Key _ => on (pop s KeyPop) | _ => on s end
  | _ =>
      let s := setDepth (takeValue json i s) in
      l ← top s;
      match l with
      | Key key => Ok (Scanned (set_numbers (pop (setKey s key) KeyPop) i (endNumber s)) true)
      | Array =>
          match arrayKey s with
          | Some key => Ok (Scanned (set_numbers (setKey s key) i (endNumber s)) true)
          | None => Ok Invalid
          end
      | Object => Ok Invalid
      end
  end.
Definition onOpen (s : scan) : scan := set_path s (Object :: jsonPath s) NoPop (S (bracketCount s)).
Definition closeObject (s : scan) (newValue : bool) : result scanned :=
  l ← top s;
  match l with
  | Object => Ok (Scanned (set_path s (tail (jsonPath s)) ObjectPop (bracketCount s - 1)) newValue)
  | _ => Ok Invalid
  end.
Definition onClose (json : text) (i : nat) (s : scan) : result scanned :=
  match lastPopType s with
  | ObjectPop => closeObject s false
  | _ =>
      l ← top s;
      match l with
      | Key key => closeObject (pop (takeValue json i (setDepth (setKey s key))) (lastPopType s)) true
      | _ => closeObject s false
      end
  end.
Definition onOpenArray (i : nat) (s : scan) : scan := set_numbers (set_path s (Array :: jsonPath s) (lastPopType s) (bracketCount s)) i (endNumber s).
Definition onCloseArray (json : text) (i : nat) (s : scan) : result scanned :=
  l ← top s;
  match l with
  | Array =>
      let s := takeValue json i (setDepth s) in
      match arrayKey s with
      | Some key => on (pop (setKey s key) ArrayPop)
      | None => Ok Invalid
      end
  | _ => Ok Invalid
  end.
Definition onBlank (i : nat) (s : scan) : scan := set_numbers s i (match endNumber s with None => Some i | e => e end).
Definition isBlank (c : ascii) : bool :=
  (c =? StringMacros.space)%char || (c =? StringMacros.tab)%char || (c =? StringMacros.newline)%char || (c =? StringMacros.carriageReturn)%char.
Definition scanChar (json : text) (i : nat) (c : ascii) (s : scan) : result scanned :=
  if (c =? doubleQuote)%char then on (onQuote json i s)
  else if inQuotes s then on s
  else if (c =? chr 58)%char then onColon i s
  else if (c =? chr 44)%char then onComma json i s
  else if (c =? chr 123)%char then on (onOpen s)
  else if (c =? chr 125)%char then onClose json i s
  else if (c =? chr 91)%char then on (onOpenArray i s)
  else if (c =? chr 93)%char then onCloseArray json i s
  else if isBlank c then on (onBlank i s)
  else on s.

(** ** What is done with a value *)

(** [row] and [lastCol] are [None] for [(unsigned int)-1]. *)
Record fill := mkFill {
  theView : TableView;
  keyEntryCountMap : gmap text nat;
  colFoundCount : nat;
  row : option nat;
  colSpeedup : nat;
  lastCol : option nat;
}.
Definition onView {A} (m : M TableView A) : M fill A := fun f =>
  let '(r, v) := m (theView f) in (r, mkFill v (keyEntryCountMap f) (colFoundCount f) (row f) (colSpeedup f) (lastCol f)).
Definition changeView (g : TableView -> TableView) : M fill unit := onView (modify g).

(** Whether a key of the text names a column.  Underscores are ignored, a key
    that is shorter than the name matches, and so does one of letters [C]: the
    index into [COMMENT] is not advanced. *)
Fixpoint keyLoop (storageName key : text) (storageIndex : nat) (keyIsMatch keyIsComment : bool) : result (bool * bool) :=
  match key with
  | [] => Ok (keyIsMatch, keyIsComment)
  | k :: key =>
      if (length storageName <? storageIndex)%nat then Throw Undefined
      else
        let storageIndex := if bool_decide (storageName !! storageIndex = Some (chr 95)) then S storageIndex else storageIndex in
        if (k =? chr 95)%char then keyLoop storageName key storageIndex keyIsMatch keyIsComment
        else
          let mismatch := negb (bool_decide (storageName !! storageIndex = Some k)) in
          if mismatch && negb keyIsComment then Ok (false, false)
          else keyLoop storageName key (S storageIndex) (keyIsMatch && negb mismatch) (keyIsComment && (k =? chr 67)%char)
  end.
Definition keyMatches (storageName key : text) : result bool :=
  '(keyIsMatch, keyIsComment) ← keyLoop storageName key 0 true true; Ok (keyIsMatch || keyIsComment).
(** The columns are tried from [colSpeedup] on. *)
Fixpoint findColumn v (key : text) (cols : list nat) : result (option nat) :=
  match cols with
  | [] => Ok None
  | col :: cols =>
      ci ← columnAt v col;
      found ← keyMatches (storageName_ ci) key;
      if (found : bool) then Ok (Some col) else findColumn v key cols
  end.

Definition nameFirstRow (key : text) : M fill unit :=
  changeView (fun v => if (getNumberOfRows v =? 1)%nat then set_sourceNames v ({[ key ]} ∪ sourceColumnNames_ v) else v).
Definition nextRow : M fill unit :=
  r ← onView addDefaultRow;
  modify (fun f => mkFill (theView f) (keyEntryCountMap f) (colFoundCount f) (Some r) (colSpeedup f) (lastCol f)).
Definition placeValue (val : text) (col : nat) : M fill unit :=
  f ← gets id;
  match row f with
  | Some r => if (getNumberOfRows (theView f) <=? r)%nat then throw RuntimeError else onView (setCell r col val)
  | None => throw RuntimeError
  end.
Definition passColumn (noc : nat) : M fill unit :=
  modify (fun f => mkFill (theView f) (keyEntryCountMap f) (colFoundCount f) (row f) ((colSpeedup f + 1) mod noc)%nat (lastCol f)).
Definition columnMismatch (key : text) : M fill unit :=
  changeView (fun v => set_source v (u32 (sourceColumnMismatchCount_ v + 1)) (sourceColumnMissingCount_ v) (sourceColumnNames_ v)) ≫= fun _ =>
  nameFirstRow key.

(** With loose matching the columns are taken in order. *)
Definition fillLoose (key val : text) : M fill unit :=
  f ← gets id;
  let noc := getNumberOfColumns (theView f) in
  if (noc =? 0)%nat then columnMismatch key
  else
    let col := colSpeedup f in
    (if match lastCol f with None => true | Some l => (col <=? l)%nat end then nextRow else mret tt) ≫= fun _ =>
    modify (fun f => mkFill (theView f) (keyEntryCountMap f) (colFoundCount f) (row f) (colSpeedup f) (Some col)) ≫= fun _ =>
    nameFirstRow key ≫= fun _ =>
    placeValue val col ≫= fun _ =>
    passColumn noc.
(** A new row begins with the first key of all, and with a key that was met
    more often than there are rows. *)
Definition countKey (key : text) : M fill unit :=
  modify (fun f => mkFill (theView f) (<[key := match keyEntryCountMap f !! key with Some n => S n | None => 0%nat end]> (keyEntryCountMap f))
    (colFoundCount f) (row f) (colSpeedup f) (lastCol f)).
Definition beginsRow (key : text) (f : fill) : bool :=
  (base.size (keyEntryCountMap f) =? 1)%nat ||
  match keyEntryCountMap f !! key, row f with
  | Some (S n), Some r => (r <? S n)%nat
  | _, _ => false
  end.
Definition countMissing : M fill unit :=
  f ← gets id;
  changeView (fun v => if (0 <? getNumberOfRows v)%nat
    then set_source v (sourceColumnMismatchCount_ v)
      (u32 (sourceColumnMissingCount_ v + (Z.of_nat (getNumberOfColumns v) - Z.of_nat (colFoundCount f)))) (sourceColumnNames_ v)
    else v) ≫= fun _ =>
  modify (fun f => mkFill (theView f) (keyEntryCountMap f) 0 (row f) (colSpeedup f) (lastCol f)).
Definition fillStrict (key val : text) : M fill unit :=
  f ← gets id;
  let noc := getNumberOfColumns (theView f) in
  found ← lift (findColumn (theView f) key (map (fun ccnt => (ccnt + colSpeedup f) mod noc)%nat (seq 0 noc)));
  match found with
  | None => columnMismatch key
  | Some col =>
      countKey key ≫= fun _ =>
      begins ← gets (beginsRow key);
      (if (begins : bool) then countMissing ≫= fun _ => nextRow else mret tt) ≫= fun _ =>
      modify (fun f => mkFill (theView f) (keyEntryCountMap f) (S (colFoundCount f)) (row f) (colSpeedup f) (Some col)) ≫= fun _ =>
      nameFirstRow key ≫= fun _ =>
      placeValue val col ≫= fun _ =>
      passColumn noc
  end.

Inductive jsonKey := FILL_NAME | FILL_COMMENT | FILL_AUTHOR | FILL_CREATION_TIME | FILL_DATA_SET.
Definition keyOf (s : text) : option jsonKey :=
  if textEq s (txt "NAME") then Some FILL_NAME
  else if textEq s (txt "COMMENT") then Some FILL_COMMENT
  else if textEq s (txt "AUTHOR") then Some FILL_AUTHOR
  else if textEq s (txt "CREATION_TIME") then Some FILL_CREATION_TIME
  else if textEq s (txt "DATA_SET") then Some FILL_DATA_SET
  else None.
(** The key at depth 1, or the one that the nested value belongs to,
    [jsonPath[1]]. *)
Definition matchedKey (s : scan) : result (option jsonKey) :=
  match currDepth s with
  | 0%nat => Ok None
  | 1%nat => Ok (keyOf (currKey s))
  | _ => match rev (jsonPath s) !! 1%nat with Some l => Ok (keyOf (levelText l)) | None => Throw Undefined end
  end.
Definition setComment (c : text) v := set_header v (version_ v) c (author_ v) (creationTime_ v) (lastAccessTime_ v).
Definition setAuthor (a : text) v := set_header v (version_ v) (comment_ v) a (creationTime_ v) (lastAccessTime_ v).
Definition setCreationTime (t : Z) v := set_header v (version_ v) (comment_ v) (author_ v) t (lastAccessTime_ v).
Definition fillHeader (k : jsonKey) (val : text) : M fill unit :=
  match k with
  | FILL_COMMENT => changeView (setComment val)
  | FILL_AUTHOR => changeView (setAuthor val)
  | FILL_CREATION_TIME => changeView (setCreationTime (StringLists.strtol (c_str val) 10))
  | _ => mret tt
  end.
Definition fillRaw (key val : text) : M fill unit :=
  changeView (fun v => set_sourceNames (set_raw v (getSourceRawData_ v)
    (sourceRawData_ v ++ StringMacros.encodeURIComponent key ++ txt "," ++ StringMacros.encodeURIComponent val ++ txt ","))
    ({[ key ]} ∪ sourceColumnNames_ v)).
Definition handleNewValue (rawData : bool) (s : scan) : M fill unit :=
  k ← lift (matchedKey s);
  if rawData then
    match currDepth s, k with
    | 1%nat, Some k => fillHeader k (currVal s)
    | 2%nat, _ => fillRaw (currKey s) (currVal s)
    | _, _ => mret tt
    end
  else
    match currDepth s, k with
    | 1%nat, Some k => fillHeader k (currVal s)
    | 2%nat, Some FILL_DATA_SET =>
        loose ← gets (fun f => fillWithLooseColumnMatching_ (theView f));
        if (loose : bool) then fillLoose (currKey s) (currVal s) else fillStrict (currKey s) (currVal s)
    | _, _ => mret tt
    end.
(** [true] at the end of the text, [false] for [return -1]. *)
Fixpoint fillLoop (rawData : bool) (json : text) (i : nat) (rest : text) (s : scan) : M fill bool :=
  match rest with
  | [] => mret true
  | c :: rest =>
      next ← lift (scanChar json i c s);
      match next with
      | Invalid => mret false
      | Scanned s false => fillLoop rawData json (S i) rest s
      | Scanned s true =>
          handleNewValue rawData s ≫= fun _ =>
          fillLoop rawData json (S i) rest (set_newString (set_numbers s (startNumber s) None) false)
      end
  end.

(** ** The whole text *)

Definition startFill v : TableView :=
  set_source (if getSourceRawData_ v then set_raw v false [] else v) 0 0 ∅.
Definition finish : M TableView Z :=
  v ← gets id;
  if negb (fillWithLooseColumnMatching_ v) && (0 <? sourceColumnMissingCount_ v) then throw RuntimeError
  else
    modify (fun v => if bool_decide (sourceColumnNames_ v = ∅) then set_sourceNames v (getColumnStorageNames v) else v) ≫= fun _ =>
    mret 0.
Definition fillFromJSON (json : text) : M TableView Z :=
  special ← (fun v => lift (isSpecialTable v) v);
  if (special : bool) then modify (fun v => set_storage v json) ≫= fun _ => mret 0
  else if 2 ^ 32 <=? Z.of_nat (length json) then throw Undefined
  else
    rawData ← gets getSourceRawData_;
    modify startFill ≫= fun _ =>
    complete ← (fun v => let '(r, f) := fillLoop rawData json 0 json scan0 (mkFill v ∅ 0 None 0 None) in (r, theView f));
    if (complete : bool) then finish else mret (-1).

(** ** The report of mismatches *)

Definition nextIndex (preIndexStr : text) (index : ascii) : text * ascii :=
  if (index =? chr 122)%char then (preIndexStr ++ [chr 97], chr 97) else (preIndexStr, chr (code index + 1)).
Fixpoint listNames (names other : list text) (preIndexStr : text) (index : ascii) : text :=
  match names with
  | [] => []
  | name :: names =>
      let entry := preIndexStr ++ [index] ++ txt ". " ++ name in
      (nl ++ tabs 1 ++ (if isOneOf other name then entry else txt "*** " ++ entry ++ txt " ***")) ++
      let '(pre, index) := nextIndex preIndexStr index in listNames names other pre index
  end.
(** [prefix] is what [__SS__] begins a message with. *)
Definition getMismatchColumnInfo (prefix : text) v : text :=
  let srcColNames := sortedSet (elements (sourceColumnNames_ v)) in
  let destColNames := sortedSet (elements (getColumnStorageNames v)) in
  let n (k : nat) := to_string_unsigned (Z.of_nat k) in
  prefix ++ txt "The source column size was found to be " ++ n (length srcColNames) ++
  txt ", and the current number of columns for this table is " ++ n (getNumberOfColumns v) ++
  txt ". This resulted in a count of " ++ to_string_unsigned (sourceColumnMismatchCount_ v) ++
  txt " source column mismatches, and a count of " ++ to_string_unsigned (sourceColumnMissingCount_ v) ++
  txt " table entries missing in " ++ n (getNumberOfRows v) ++ txt " row(s) of data." ++ nl ++
  nl ++ nl ++ n (length srcColNames) ++ txt " Source column names in ALPHABETICAL order were as follows:" ++ nl ++
  listNames srcColNames destColNames [] (chr 97) ++ nl ++
  nl ++ nl ++ n (length destColNames) ++ txt " Current table column names in ALPHABETICAL order are as follows:" ++ nl ++
  listNames destColNames srcColNames [] (chr 97) ++ nl.

(** ** What the reader sees

    [reads pre chunk s evs Q]: after the text [pre] and from state [s], the
    reader goes through [chunk], whatever follows it, hands over the values
    [evs] and reaches a state with [Q]. *)

Definition event : Type := nat * text * text * list level.
Definition eventState (e : event) : scan := let '(depth, key, val, path) := e in mkScan 0 0 None 0 false false [] key val depth path NoPop.
Definition handleEvent (rawData : bool) (e : event) : M fill unit := handleNewValue rawData (eventState e).
Definition reads (pre chunk : text) (s : scan) (evs : list event) (Q : scan -> Prop) : Prop :=
  forall rest, exists s', Q s' /\ forall rawData f,
    fillLoop rawData (pre ++ chunk ++ rest) (length pre) (chunk ++ rest) s f =
    (forEach evs (handleEvent rawData) ≫= fun _ => fillLoop rawData (pre ++ chunk ++ rest) (length (pre ++ chunk)) rest s') f.

Lemma reads_nil pre s Q : Q s -> reads pre [] s [] Q.
Proof. intros H rest. exists s. split; [done|]. intros raw f. cbn [app]. by rewrite app_nil_r. Qed.
Lemma bind_assoc_run {S A B C} (m : M S A) (g : A -> M S B) (h : B -> M S C) x :
  ((m ≫= g) ≫= h) x = (m ≫= fun a => g a ≫= h) x.
Proof. unfold mbind, M_bind. by destruct (m x) as [[a|e] x']. Qed.
Lemma reads_app pre c1 c2 s e1 e2 Q1 Q2 : reads pre c1 s e1 Q1 -> (forall s1, Q1 s1 -> reads (pre ++ c1) c2 s1 e2 Q2) ->
  reads pre (c1 ++ c2) s (e1 ++ e2) Q2.
Proof.
  intros R1 R rest. destruct (R1 (c2 ++ rest)) as (s1 & H1 & E1). destruct (R s1 H1 rest) as (s2 & H2 & E2). exists s2. split; [done|]. intros raw f.
  rewrite <- (app_assoc c1 c2 rest), E1. rewrite (app_assoc pre c1 c2). unfold mbind, M_bind. rewrite forEach_app. unfold mbind, M_bind.
  destruct (forEach e1 (handleEvent raw) f) as [[[]|e] f']; [|done].
  specialize (E2 raw f'). rewrite <- (app_assoc pre c1) in E2. exact E2.
Qed.
Lemma reads_weaken pre chunk s evs (Q1 Q2 : scan -> Prop) : reads pre chunk s evs Q1 -> (forall s', Q1 s' -> Q2 s') -> reads pre chunk s evs Q2.
Proof. intros R HQ rest. destruct (R rest) as (s' & H & E). exists s'. split; [by apply HQ|done]. Qed.
(** One character. *)
Lemma reads_step pre c s (Q : scan -> Prop) : (forall rest, exists s', scanChar (pre ++ c :: rest) (length pre) c s = Ok (Scanned s' false) /\ Q s') -> reads pre [c] s [] Q.
Proof.
  intros H rest. destruct (H rest) as (s' & E & HQ). exists s'. split; [done|]. intros raw f. cbn [app fillLoop].
  rewrite (bind_ok (lift _) _ f (Scanned s' false) f) by (unfold lift; by rewrite E).
  rewrite length_app. cbn [length]. by replace (length pre + 1)%nat with (S (length pre)) by lia.
Qed.
Lemma reads_char pre c s s' (Q : scan -> Prop) : (forall rest, scanChar (pre ++ c :: rest) (length pre) c s = Ok (Scanned s' false)) -> Q s' -> reads pre [c] s [] Q.
Proof. intros H HQ. apply reads_step. intros rest. by exists s'. Qed.
Definition valueTaken (s : scan) : scan := set_newString (set_numbers s (startNumber s) None) false.
Lemma reads_value pre c s s' (Q : scan -> Prop) : (forall rest, scanChar (pre ++ c :: rest) (length pre) c s = Ok (Scanned s' true)) ->
  Q (valueTaken s') -> reads pre [c] s [(currDepth s', currKey s', currVal s', jsonPath s')] Q.
Proof.
  intros H HQ rest. exists (valueTaken s'). split; [done|]. intros raw f. cbn [app fillLoop]. rewrite (bind_ok (lift _) _ f (Scanned s' true) f) by (unfold lift; by rewrite H).
  rewrite length_app. cbn [length forEach]. replace (length pre + 1)%nat with (S (length pre)) by lia. rewrite bind_assoc_run. done.
Qed.

(** Between two tokens: the path, the last thing closed, the open braces and
    the string read since. *)
Record between (path : list level) (p : popType) (count : nat) (str : option text) (s : scan) : Prop := {
  between_path : jsonPath s = path;
  between_pop : lastPopType s = p;
  between_count : bracketCount s = count;
  between_string : match str with Some x => newString s = true /\ extractedString s = x | None => newString s = false end;
  between_quotes : inQuotes s = false;
}.

Lemma reads_blanks chunk : forall pre path p count str s, forallb isBlank chunk = true -> between path p count str s ->
  reads pre chunk s [] (between path p count str).
Proof.
  induction chunk as [|c chunk IH]; intros pre path p count str s Hb Hs; [by apply reads_nil|]. cbn [forallb] in Hb. apply andb_true_iff in Hb as [Hc Hb].
  change (c :: chunk) with ([c] ++ chunk). apply (reads_app _ _ _ _ [] [] (between path p count str)); [|intros s1 Hs1; by apply IH].
  apply (reads_char _ _ _ (onBlank (length pre) s)); [|by destruct Hs; constructor]. intros rest. unfold scanChar. rewrite (between_quotes _ _ _ _ _ Hs), Hc.
  unfold isBlank in Hc. rewrite !orb_true_iff, !Ascii.eqb_eq in Hc. by destruct Hc as [[[->| ->]| ->]| ->].
Qed.

(** A string body: every quote in it follows a backslash, which is also not its
    last character. *)
Fixpoint bodyOK (escaped : bool) (body : text) : bool :=
  match body with
  | [] => negb escaped
  | c :: body => (negb (c =? doubleQuote)%char || escaped) && bodyOK (c =? StringMacros.backslash)%char body
  end.
Definition endsEscaped (pre : text) : bool := match last pre with Some c => (c =? StringMacros.backslash)%char | None => false end.
Lemma onQuote_escaped pre c rest s : endsEscaped pre = true -> onQuote (pre ++ c :: rest) (length pre) s = s.
Proof.
  unfold endsEscaped, onQuote. destruct pre as [|d l _] using rev_ind; [done|]. rewrite last_snoc. intros Hd. rewrite length_app. cbn [length].
  replace (length l + 1)%nat with (S (length l)) by lia. rewrite <- app_assoc. cbn [app]. rewrite list_lookup_middle by done. by rewrite Hd.
Qed.
Lemma onQuote_plain pre c rest s : endsEscaped pre = false -> onQuote (pre ++ c :: rest) (length pre) s =
  if inQuotes s then set_string s (StringMacros.restoreJSONStringEntities (take (length pre - startString s - 1) (drop (startString s + 1) (pre ++ c :: rest))))
  else set_quotes s true (length pre).
Proof.
  unfold endsEscaped, onQuote. destruct pre as [|d l _] using rev_ind; [done|]. rewrite last_snoc. intros Hd. rewrite length_app. cbn [length].
  replace (length l + 1)%nat with (S (length l)) by lia. rewrite <- app_assoc. cbn [app]. rewrite list_lookup_middle by done. by rewrite Hd.
Qed.
Lemma endsEscaped_snoc pre c : endsEscaped (pre ++ [c]) = (c =? StringMacros.backslash)%char.
Proof. unfold endsEscaped. by rewrite last_snoc. Qed.
(** Within quotes nothing happens up to the closing quote. *)
Lemma reads_body body : forall pre s, inQuotes s = true -> bodyOK (endsEscaped pre) body = true -> reads pre body s [] (eq s).
Proof.
  induction body as [|c body IH]; intros pre s Hq Hb; [by apply reads_nil|]. cbn [bodyOK] in Hb. apply andb_true_iff in Hb as [Hc Hb].
  change (c :: body) with ([c] ++ body). apply (reads_app _ _ _ _ [] [] (eq s)).
  - apply (reads_char _ _ _ s); [|done]. intros rest. unfold scanChar. destruct (c =? doubleQuote)%char eqn:Ec; [|by rewrite Hq]. cbn in Hc. by rewrite onQuote_escaped.
  - intros s1 <-. apply IH; [done|]. by rewrite endsEscaped_snoc.
Qed.
Lemma bodyOK_end body : forall pre, bodyOK (endsEscaped pre) body = true -> endsEscaped (pre ++ body) = false.
Proof.
  induction body as [|c body IH]; intros pre Hb; cbn [bodyOK] in Hb; [rewrite app_nil_r; by apply negb_true_iff|]. apply andb_true_iff in Hb as [_ Hb].
  change (c :: body) with ([c] ++ body). rewrite app_assoc. apply IH. by rewrite endsEscaped_snoc.
Qed.
Lemma slice_between {X} (pre body rest : list X) (d : X) :
  take (length ((pre ++ [d]) ++ body) - length pre - 1) (drop (length pre + 1) (((pre ++ [d]) ++ body) ++ rest)) = body.
Proof.
  rewrite <- (app_assoc (pre ++ [d]) body). rewrite drop_app_le by (rewrite length_app; cbn; lia). rewrite drop_ge by (rewrite length_app; cbn; lia).
  cbn [app]. rewrite take_app_le by (rewrite !length_app; cbn; lia). apply take_ge. rewrite !length_app. cbn. lia.
Qed.
Lemma reads_quoted pre body path p count str s : endsEscaped pre = false -> bodyOK false body = true -> between path p count str s ->
  reads pre (quoted body) s [] (between path p count (Some (StringMacros.restoreJSONStringEntities body))).
Proof.
  intros Hp Hb Hs. unfold quoted. change (doubleQuote :: body ++ [doubleQuote]) with ([doubleQuote] ++ body ++ [doubleQuote]).
  set (s1 := set_quotes s true (length pre)). apply (reads_app _ _ _ _ [] [] (eq s1)).
  { apply (reads_char _ _ _ s1); [|done]. intros rest. unfold scanChar. rewrite Ascii.eqb_refl, onQuote_plain by done. by rewrite (between_quotes _ _ _ _ _ Hs). }
  intros ? <-. apply (reads_app _ _ _ _ [] [] (eq s1)); [apply reads_body; [done|]; by rewrite endsEscaped_snoc|]. intros ? <-.
  apply (reads_char _ _ _ (set_string s1 (StringMacros.restoreJSONStringEntities body))); [|by destruct Hs].
  intros rest. unfold scanChar. rewrite Ascii.eqb_refl, onQuote_plain.
  2: { apply bodyOK_end. by rewrite endsEscaped_snoc. }
  cbn [inQuotes set_quotes s1 startString]. unfold on. do 4 f_equal. apply slice_between.
Qed.

(** *** Tokens *)

Abbreviation comma := (chr 44).
Section Tokens.
Context (json : text) (i : nat) (s : scan) (path : list level) (p : popType) (count : nat) (str : option text) (Hs : between path p count str s).
Lemma scan_colon : scanChar json i (chr 58) s = onColon i s.
Proof. unfold scanChar. by rewrite (between_quotes _ _ _ _ _ Hs). Qed.
Lemma scan_comma : scanChar json i comma s = onComma json i s.
Proof. unfold scanChar. by rewrite (between_quotes _ _ _ _ _ Hs). Qed.
Lemma scan_open : scanChar json i (chr 123) s = on (onOpen s).
Proof. unfold scanChar. by rewrite (between_quotes _ _ _ _ _ Hs). Qed.
Lemma scan_close : scanChar json i (chr 125) s = onClose json i s.
Proof. unfold scanChar. by rewrite (between_quotes _ _ _ _ _ Hs). Qed.
Lemma scan_openArray : scanChar json i (chr 91) s = on (onOpenArray i s).
Proof. unfold scanChar. by rewrite (between_quotes _ _ _ _ _ Hs). Qed.
Lemma scan_closeArray : scanChar json i (chr 93) s = onCloseArray json i s.
Proof. unfold scanChar. by rewrite (between_quotes _ _ _ _ _ Hs). Qed.
Lemma top_path l below : path = l :: below -> top s = Ok l.
Proof. intros He. unfold top. by rewrite (between_path _ _ _ _ _ Hs), He. Qed.
(** A string is the value as it is. *)
Lemma takeValue_string x : str = Some x -> takeValue json i s = set_value s (currKey s) x (currDepth s).
Proof. intros He. destruct Hs as [_ _ _ Hstr _]. rewrite He in Hstr. destruct Hstr as [Hn Hx]. unfold takeValue. by rewrite Hn, Hx. Qed.
Lemma takeValue_between : between path p count str (takeValue json i s).
Proof. destruct Hs as [H1 H2 H3 H4 H5]. unfold takeValue. destruct (newString s) eqn:Hn; by constructor; cbn; rewrite ?Hn. Qed.
End Tokens.
Definition closesObject (p : popType) : bool := match p with ObjectPop => true | _ => false end.

Lemma reads_colon pre key path p count s : between (Object :: path) p count (Some key) s ->
  reads pre (txt ":") s [] (fun s' => between (Key key :: Object :: path) p count None s' /\ endNumber s' = None).
Proof.
  intros Hs. eapply (reads_char pre (chr 58)).
  - intros rest. rewrite (scan_colon _ _ _ _ _ _ _ Hs). unfold onColon. rewrite (top_path _ _ _ _ _ Hs Object path eq_refl). cbn [mbind result_bind].
    destruct Hs as [? ? ? [Hn Hx] ?]. by rewrite Hn.
  - destruct Hs as [Hp ? ? [Hn Hx] ?]. split; [|done]. constructor; try done. cbn. by rewrite Hp, Hx.
Qed.
Lemma reads_comma_value pre key path p count val s : closesObject p = false -> between (Key key :: path) p count (Some val) s ->
  reads pre (txt ",") s [(count, key, val, path)] (between path KeyPop count None).
Proof.
  intros Hp Hs. set (s' := set_numbers (pop (setKey (setDepth (set_value s (currKey s) val (currDepth s))) key) KeyPop) (length pre) (endNumber s)).
  assert (He : (count, key, val, path) = (currDepth s', currKey s', currVal s', jsonPath s')).
  { destruct Hs as [H1 _ H3 _ _]. cbn. by rewrite H1, H3. }
  rewrite He. apply (reads_value pre comma).
  - intros rest. rewrite (scan_comma _ _ _ _ _ _ _ Hs). unfold onComma. rewrite (takeValue_string _ _ _ _ _ _ _ Hs val eq_refl), (between_pop _ _ _ _ _ Hs).
    destruct p; cbn in Hp; try congruence; unfold top; cbn [jsonPath setDepth set_value]; rewrite (between_path _ _ _ _ _ Hs); reflexivity.
  - destruct Hs as [H1 H2 H3 _ H5]. constructor; try done. cbn. by rewrite H1.
Qed.
Lemma reads_close_value pre key path p count val s : closesObject p = false -> between (Key key :: Object :: path) p (S count) (Some val) s ->
  reads pre (txt "}") s [(S count, key, val, path)] (between path ObjectPop count None).
Proof.
  intros Hp Hs. set (s1 := pop (set_value (setDepth (setKey s key)) key val (S count)) (lastPopType s)).
  set (s' := set_path s1 path ObjectPop count).
  assert (He : (S count, key, val, path) = (currDepth s', currKey s', currVal s', jsonPath s')) by done.
  rewrite He. apply (reads_value pre (chr 125)).
  - intros rest. rewrite (scan_close _ _ _ _ _ _ _ Hs). unfold onClose. rewrite (between_pop _ _ _ _ _ Hs), (top_path _ _ _ _ _ Hs _ _ eq_refl). cbn [mbind result_bind].
    assert (Hk : between (Key key :: Object :: path) p (S count) (Some val) (setDepth (setKey s key))) by (by destruct Hs; constructor).
    rewrite (takeValue_string _ _ _ _ _ _ _ Hk val eq_refl).
    assert (Hd : currDepth (setDepth (setKey s key)) = S count) by (cbn; by apply (between_count _ _ _ _ _ Hs)). rewrite Hd.
    unfold s', s1. destruct Hs as [H1 H2 H3 H4 H5]. rewrite H2. destruct p; cbn in Hp; try congruence; unfold closeObject, top; cbn; rewrite H1; cbn; rewrite H3; cbn; rewrite ?Nat.sub_0_r; reflexivity.
  - destruct Hs as [H1 H2 H3 _ H5]. by constructor.
Qed.
Lemma reads_close_empty pre path p count str s : closesObject p = false -> between (Object :: path) p (S count) str s ->
  reads pre (txt "}") s [] (between path ObjectPop count str).
Proof.
  intros Hp Hs. apply (reads_char pre (chr 125) _ (set_path s path ObjectPop count)).
  - intros rest. rewrite (scan_close _ _ _ _ _ _ _ Hs). unfold onClose. rewrite (between_pop _ _ _ _ _ Hs), (top_path _ _ _ _ _ Hs _ _ eq_refl). cbn [mbind result_bind].
    unfold closeObject. rewrite (top_path _ _ _ _ _ Hs _ _ eq_refl). cbn [mbind result_bind].
    destruct Hs as [H1 H2 H3 H4 H5]. rewrite H1, H3. cbn. rewrite Nat.sub_0_r. by destruct p.
  - destruct Hs as [H1 H2 H3 H4 H5]. by constructor.
Qed.
(** The comma after an object that was a value, and after one in an array. *)
Lemma reads_comma_object pre key path count str s : between (Key key :: path) ObjectPop count str s -> reads pre (txt ",") s [] (between path KeyPop count str).
Proof.
  intros Hs. apply (reads_char pre comma _ (pop s KeyPop)).
  - intros rest. rewrite (scan_comma _ _ _ _ _ _ _ Hs). unfold onComma. rewrite (between_pop _ _ _ _ _ Hs). by rewrite (top_path _ _ _ _ _ Hs _ _ eq_refl).
  - destruct Hs as [H1 H2 H3 H4 H5]. constructor; try done. cbn. by rewrite H1.
Qed.
Lemma reads_comma_array pre path count str s : between (Array :: path) ObjectPop count str s -> reads pre (txt ",") s [] (between (Array :: path) ObjectPop count str).
Proof.
  intros Hs. apply (reads_char pre comma _ s); [|done].
  intros rest. rewrite (scan_comma _ _ _ _ _ _ _ Hs). unfold onComma. rewrite (between_pop _ _ _ _ _ Hs). by rewrite (top_path _ _ _ _ _ Hs _ _ eq_refl).
Qed.
Lemma reads_open pre path p count str s : between path p count str s -> reads pre (txt "{") s [] (between (Object :: path) NoPop (S count) str).
Proof.
  intros Hs. apply (reads_char pre (chr 123) _ (onOpen s)); [intros rest; by apply (scan_open _ _ _ _ _ _ _ Hs)|].
  destruct Hs as [H1 H2 H3 H4 H5]. constructor; try done; cbn; by rewrite ?H1, ?H3.
Qed.
Lemma reads_openArray pre path p count str s : between path p count str s -> reads pre (txt "[") s [] (between (Array :: path) p count str).
Proof.
  intros Hs. apply (reads_char pre (chr 91) _ (onOpenArray (length pre) s)); [intros rest; by apply (scan_openArray _ _ _ _ _ _ _ Hs)|].
  destruct Hs as [H1 H2 H3 H4 H5]. constructor; try done; cbn; by rewrite ?H1.
Qed.

(** *** Fields, objects and rows *)

Lemma endsEscaped_app pre c : endsEscaped c = false -> endsEscaped pre = false -> endsEscaped (pre ++ c) = false.
Proof. unfold endsEscaped. rewrite last_app. by destruct (last c). Qed.
Lemma endsEscaped_some pre c d : last c = Some d -> endsEscaped (pre ++ c) = (d =? StringMacros.backslash)%char.
Proof. intros H. unfold endsEscaped. by rewrite last_app, H. Qed.
Lemma tabs_blank n : forallb isBlank (tabs n) = true.
Proof. unfold tabs. by induction n. Qed.
Lemma endsEscaped_tabs pre n : endsEscaped pre = false -> endsEscaped (pre ++ tabs n) = false.
Proof. intros H. apply endsEscaped_app; [|done]. induction n as [|n IH]; [done|]. unfold tabs in *. by rewrite replicate_S_end, endsEscaped_snoc. Qed.
Lemma quoted_last s : last (quoted s) = Some doubleQuote.
Proof. unfold quoted. change (doubleQuote :: s ++ [doubleQuote]) with ((doubleQuote :: s) ++ [doubleQuote]). by rewrite last_snoc. Qed.
(** A name that can stand between quotes as it is. *)
Definition cleanName (s : text) : bool := forallb (fun c => negb (c =? doubleQuote)%char && negb (c =? StringMacros.backslash)%char) s.
Lemma cleanName_spec s : cleanName s = true -> bodyOK false s = true /\ StringMacros.restoreJSONStringEntities s = s.
Proof.
  unfold cleanName. induction s as [|c s IH]; [done|]. cbn [forallb]. intros [[H1 H2]%andb_true_iff H]%andb_true_iff. destruct (IH H) as [IH1 IH2].
  apply negb_true_iff in H1, H2. cbn [bodyOK]. rewrite H1, H2. split; [done|]. rewrite StringMacros.restore_plain; [by rewrite IH2|]. intros ->. by rewrite Ascii.eqb_refl in H2.
Qed.

Lemma reads_key pre n key path p count s : endsEscaped pre = false -> cleanName key = true -> between (Object :: path) p count None s ->
  reads pre (tabs n ++ quoted key ++ txt " : ") s [] (between (Key key :: Object :: path) p count None).
Proof.
  intros Hp [Hk1 Hk2]%cleanName_spec Hs. apply (reads_app _ _ _ _ [] [] (between (Object :: path) p count None)); [by apply reads_blanks; [apply tabs_blank|]|].
  intros s1 H1. apply (reads_app _ _ _ _ [] [] (between (Object :: path) p count (Some key))).
  { rewrite <- Hk2 at 2. apply (reads_quoted _ _ _ _ _ None); [by apply endsEscaped_tabs|done|done]. }
  intros s2 H2. change (txt " : ") with (txt " " ++ txt ":" ++ txt " ").
  apply (reads_app _ _ _ _ [] [] (between (Object :: path) p count (Some key))); [by apply reads_blanks|]. intros s3 H3.
  apply (reads_app _ _ _ _ [] [] (fun s' => between (Key key :: Object :: path) p count None s' /\ endNumber s' = None)); [by apply reads_colon|].
  intros s4 [H4 _]. by apply reads_blanks.
Qed.
Lemma reads_field pre n key body path p count s : endsEscaped pre = false -> cleanName key = true -> bodyOK false body = true ->
  between (Object :: path) p count None s ->
  reads pre (tabs n ++ field key (quoted body)) s [] (between (Key key :: Object :: path) p count (Some (StringMacros.restoreJSONStringEntities body))).
Proof.
  intros Hp Hk Hb Hs. unfold field. replace (tabs n ++ quoted key ++ txt " : " ++ quoted body) with ((tabs n ++ quoted key ++ txt " : ") ++ quoted body) by (by rewrite <- !app_assoc).
  apply (reads_app _ _ _ _ [] [] (between (Key key :: Object :: path) p count None)); [by apply reads_key|].
  intros s1 H1. apply (reads_quoted _ _ _ _ _ None); [|done|done]. rewrite !app_assoc. by rewrite (endsEscaped_some _ (txt " : ") StringMacros.space).
Qed.
Lemma endsEscaped_field pre n key body rest : endsEscaped ((pre ++ tabs n ++ field key (quoted body)) ++ txt "," ++ nl ++ rest) = endsEscaped (nl ++ rest).
Proof.
  unfold endsEscaped. rewrite !last_app. destruct (last rest); done.
Qed.
(** [key : value,] and the end of the line. *)
Lemma reads_fieldComma pre n key body path p count s : endsEscaped pre = false -> cleanName key = true -> bodyOK false body = true -> closesObject p = false ->
  between (Object :: path) p count None s ->
  reads pre ((tabs n ++ field key (quoted body)) ++ txt "," ++ nl) s [(count, key, StringMacros.restoreJSONStringEntities body, Object :: path)]
    (between (Object :: path) KeyPop count None).
Proof.
  intros Hp Hk Hb Hc Hs. apply (reads_app _ _ _ _ [] [_] (between (Key key :: Object :: path) p count (Some (StringMacros.restoreJSONStringEntities body)))); [by apply reads_field|].
  intros s1 H1. apply (reads_app _ _ _ _ [_] [] (between (Object :: path) KeyPop count None)); [by apply (reads_comma_value _ _ _ p)|].
  intros s2 H2. by apply reads_blanks.
Qed.
Fixpoint objectEvents (count : nat) (path : list level) (l : list (text * text)) : list event :=
  match l with
  | [] => []
  | [(key, val)] => [(count, key, val, path)]
  | (key, val) :: l => (count, key, val, Object :: path) :: objectEvents count path l
  end.
Definition fields (n : nat) (l : list (text * text)) : list text := map (fun e => tabs n ++ field e.1 (quoted e.2)) l.
Definition restored (l : list (text * text)) : list (text * text) := map (fun e => (e.1, StringMacros.restoreJSONStringEntities e.2)) l.
Definition fieldOK (e : text * text) : bool := cleanName e.1 && bodyOK false e.2.
Lemma reads_object n m l : forall pre path p count s, endsEscaped pre = false -> forallb fieldOK l = true -> closesObject p = false ->
  between (Object :: path) p (S count) None s ->
  reads pre (entries (fields n l) ++ tabs m ++ txt "}") s (objectEvents (S count) path (restored l)) (between path ObjectPop count None).
Proof.
  induction l as [|[key body] l IH]; intros pre path p count s Hp Hl Hc Hs.
  { cbn [fields map entries restored objectEvents app]. apply (reads_app _ _ _ _ [] [] (between (Object :: path) p (S count) None)); [by apply reads_blanks; [apply tabs_blank|]|].
    intros s1 H1. by apply (reads_close_empty _ _ p). }
  cbn [forallb] in Hl. apply andb_true_iff in Hl as [[Hk Hb]%andb_true_iff Hl]. destruct l as [|e l].
  - change (entries (fields n [(key, body)])) with ((tabs n ++ field key (quoted body)) ++ nl). rewrite <- app_assoc. cbn [restored map objectEvents].
    apply (reads_app _ _ _ _ [] [_] (between (Key key :: Object :: path) p (S count) (Some (StringMacros.restoreJSONStringEntities body)))); [by apply reads_field|].
    intros s1 H1. rewrite (app_assoc nl (tabs m)). apply (reads_app _ _ _ _ [] [_] (between (Key key :: Object :: path) p (S count) (Some (StringMacros.restoreJSONStringEntities body)))).
    { apply reads_blanks; [|done]. rewrite forallb_app. apply andb_true_iff. split; [done|apply tabs_blank]. }
    intros s2 H2. by apply (reads_close_value _ _ _ p).
  - change (entries (fields n ((key, body) :: e :: l))) with ((tabs n ++ field key (quoted body)) ++ txt "," ++ nl ++ entries (fields n (e :: l))).
    change (objectEvents (S count) path (restored ((key, body) :: e :: l))) with
      ([(S count, key, StringMacros.restoreJSONStringEntities body, Object :: path)] ++ objectEvents (S count) path (restored (e :: l))).
    replace (((tabs n ++ field key (quoted body)) ++ txt "," ++ nl ++ entries (fields n (e :: l))) ++ tabs m ++ txt "}")
      with (((tabs n ++ field key (quoted body)) ++ txt "," ++ nl) ++ entries (fields n (e :: l)) ++ tabs m ++ txt "}") by (by rewrite <- !app_assoc).
    apply (reads_app _ _ _ _ _ _ (between (Object :: path) KeyPop (S count) None)); [by apply (reads_fieldComma _ _ _ _ _ p)|].
    intros s1 H1. apply (IH _ _ KeyPop); [|done|done|done]. rewrite !app_assoc. by rewrite (endsEscaped_some _ nl StringMacros.newline).
Qed.

(** The rows of the array, each an object. *)
Definition rowText (l : list (text * text)) : text := tabs 1 ++ txt "{" ++ nl ++ entries (fields 2 l) ++ tabs 1 ++ txt "}".
Lemma reads_row pre path p count s l : endsEscaped pre = false -> forallb fieldOK l = true -> between (Array :: path) p count None s ->
  reads pre (rowText l) s (objectEvents (S count) (Array :: path) (restored l)) (between (Array :: path) ObjectPop count None).
Proof.
  intros Hp Hl Hs. unfold rowText. apply (reads_app _ _ _ _ [] _ (between (Array :: path) p count None)); [by apply reads_blanks|].
  intros s1 H1. apply (reads_app _ _ _ _ [] _ (between (Object :: Array :: path) NoPop (S count) None)); [by apply (reads_open _ _ p)|].
  intros s2 H2. apply (reads_app _ _ _ _ [] _ (between (Object :: Array :: path) NoPop (S count) None)); [by apply reads_blanks|].
  intros s3 H3. apply (reads_object _ _ _ _ _ NoPop); [|done|done|done]. by rewrite (endsEscaped_some _ nl StringMacros.newline).
Qed.
Lemma reads_rows rows : forall pre path p count s, endsEscaped pre = false -> Forall (fun l => forallb fieldOK l = true) rows ->
  between (Array :: path) p count None s ->
  reads pre (entries (map rowText rows)) s (concat (map (fun l => objectEvents (S count) (Array :: path) (restored l)) rows))
    (fun s' => exists p', between (Array :: path) p' count None s').
Proof.
  induction rows as [|l rows IH]; intros pre path p count s Hp Hr Hs; [apply reads_nil; by exists p|]. apply Forall_cons in Hr as [Hl Hr].
  cbn [map concat]. destruct rows as [|l' rows].
  - cbn [map concat entries]. rewrite app_nil_r. rewrite <- (app_nil_r (objectEvents _ _ _)).
    apply (reads_app _ _ _ _ _ [] (between (Array :: path) ObjectPop count None)); [by apply (reads_row _ _ p)|]. intros s1 H1.
    eapply reads_weaken; [by apply reads_blanks|]. intros s' H'. by eexists.
  - change (entries (rowText l :: map rowText (l' :: rows))) with (rowText l ++ txt "," ++ nl ++ entries (map rowText (l' :: rows))).
    apply (reads_app _ _ _ _ _ _ (between (Array :: path) ObjectPop count None)); [by apply (reads_row _ _ p)|]. intros s1 H1.
    apply (reads_app _ _ _ _ [] _ (between (Array :: path) ObjectPop count None)); [by apply reads_comma_array|]. intros s2 H2.
    apply (reads_app _ _ _ _ [] _ (between (Array :: path) ObjectPop count None)); [by apply reads_blanks|]. intros s3 H3.
    apply (IH _ _ ObjectPop); [|done|done]. by rewrite (endsEscaped_some _ nl StringMacros.newline).
Qed.

(** *** The document *)

(** Digits of a number are passed over; the number is what lies between the
    blank and the comma. *)
Definition isPlain (c : ascii) : bool := negb (isOneOf [txt ":"; txt ","; txt "{"; txt "}"; txt "["; txt "]"; [doubleQuote]] [c]) && negb (isBlank c).
Lemma scan_plain json i c s path p count str : between path p count str s -> isPlain c = true -> scanChar json i c s = on s.
Proof.
  intros Hs Hc. unfold scanChar. rewrite (between_quotes _ _ _ _ _ Hs). unfold isPlain, isOneOf in Hc. cbn [existsb] in Hc.
  rewrite andb_true_iff, !negb_true_iff, !orb_false_iff, !textEq_false in Hc. destruct Hc as [(H1 & H2 & H3 & H4 & H5 & H6 & H7 & _) Hb].
  destruct (Ascii.eqb_spec c doubleQuote) as [->|_]; [done|]. destruct (Ascii.eqb_spec c (chr 58)) as [->|_]; [done|].
  destruct (Ascii.eqb_spec c comma) as [->|_]; [done|]. destruct (Ascii.eqb_spec c (chr 123)) as [->|_]; [done|].
  destruct (Ascii.eqb_spec c (chr 125)) as [->|_]; [done|]. destruct (Ascii.eqb_spec c (chr 91)) as [->|_]; [done|].
  destruct (Ascii.eqb_spec c (chr 93)) as [->|_]; [done|]. by rewrite Hb.
Qed.
Lemma reads_plain chunk : forall pre s path p count str, between path p count str s -> forallb isPlain chunk = true -> reads pre chunk s [] (eq s).
Proof.
  induction chunk as [|c chunk IH]; intros pre s path p count str Hs Hc; [by apply reads_nil|]. cbn [forallb] in Hc. apply andb_true_iff in Hc as [Hc Hcs].
  change (c :: chunk) with ([c] ++ chunk). apply (reads_app _ _ _ _ [] [] (eq s)).
  - apply (reads_char _ _ _ s); [|done]. intros rest. by apply (scan_plain _ _ _ _ path p count str).
  - intros ? <-. by apply (IH _ _ path p count str).
Qed.
Lemma reads_number pre key digits path p count s : endsEscaped pre = false -> cleanName key = true -> forallb isPlain digits = true -> closesObject p = false ->
  between (Object :: path) p count None s ->
  reads pre (field key digits ++ txt "," ++ nl) s [(count, key, digits, Object :: path)] (between (Object :: path) KeyPop count None).
Proof.
  intros Hp [Hk1 Hk2]%cleanName_spec Hd Hc Hs. unfold field.
  replace ((quoted key ++ txt " : " ++ digits) ++ txt "," ++ nl) with (quoted key ++ txt " " ++ txt ":" ++ txt " " ++ digits ++ txt "," ++ nl) by (by rewrite <- !app_assoc).
  apply (reads_app _ _ _ _ [] _ (between (Object :: path) p count (Some key))); [rewrite <- Hk2 at 2; by apply (reads_quoted _ _ _ _ _ None)|]. intros s1 H1.
  apply (reads_app _ _ _ _ [] _ (between (Object :: path) p count (Some key))); [by apply reads_blanks|]. intros s2 H2.
  apply (reads_app _ _ _ _ [] _ (fun s' => between (Key key :: Object :: path) p count None s' /\ endNumber s' = None)); [by apply reads_colon|]. intros s3 [H3 E3].
  set (pre3 := ((pre ++ quoted key) ++ txt " ") ++ txt ":").
  apply (reads_app _ _ _ _ [] _ (fun s' => between (Key key :: Object :: path) p count None s' /\ startNumber s' = length pre3 /\ endNumber s' = Some (length pre3))).
  { apply (reads_char pre3 (chr 32) _ (onBlank (length pre3) s3)).
    - intros rest. unfold scanChar. by rewrite (between_quotes _ _ _ _ _ H3).
    - split; [by destruct H3; constructor|]. unfold onBlank. by rewrite E3. }
  intros s4 (H4 & B4 & E4). apply (reads_app _ _ _ _ [] _ (eq s4)); [by apply (reads_plain _ _ _ _ _ _ _ H4)|]. intros ? <-.
  apply (reads_app _ _ _ _ [_] [] (between (Object :: path) KeyPop count None)); [|intros s5 H5; by apply reads_blanks].
  set (s' := set_numbers (pop (setKey (setDepth (set_numbers (set_value s4 (currKey s4) digits (currDepth s4)) (startNumber s4) (Some (length ((pre3 ++ txt " ") ++ digits))))) key) KeyPop)
    (length ((pre3 ++ txt " ") ++ digits)) (Some (length ((pre3 ++ txt " ") ++ digits)))).
  assert (He : (count, key, digits, Object :: path) = (currDepth s', currKey s', currVal s', jsonPath s')) by (destruct H4 as [P _ C _ _]; cbn; by rewrite P, C).
  rewrite He. apply (reads_value _ comma).
  - intros rest. rewrite (scan_comma _ _ _ _ _ _ _ H4). unfold onComma. rewrite (between_pop _ _ _ _ _ H4).
    assert (Hv : takeValue (((pre3 ++ txt " ") ++ digits) ++ comma :: rest) (length ((pre3 ++ txt " ") ++ digits)) s4 =
      set_numbers (set_value s4 (currKey s4) digits (currDepth s4)) (startNumber s4) (Some (length ((pre3 ++ txt " ") ++ digits)))).
    { unfold takeValue. destruct H4 as [_ _ _ Hn _]. cbn in Hn. rewrite Hn, E4, B4, Nat.leb_refl.
      rewrite (proj2 (Nat.leb_gt _ _)) by (rewrite !length_app; cbn; lia). repeat f_equal. exact (slice_between pre3 digits (comma :: rest) (chr 32)). }
    rewrite Hv. destruct p; cbn in Hc; try congruence; unfold top; cbn [jsonPath setDepth set_value set_numbers]; rewrite (between_path _ _ _ _ _ H4); reflexivity.
  - destruct H4 as [P _ C _ Q]. constructor; try done. cbn. by rewrite P.
Qed.
(** The end of the array and of the document; what is handed over for the key
    of the array has no use. *)
Lemma reads_closeArray pre key path p s : between (Array :: Key key :: path) p 1 None s ->
  reads pre (txt "]") s [] (between (Key key :: path) ArrayPop 1 None).
Proof.
  intros Hs. apply (reads_step pre (chr 93)). intros rest. rewrite (scan_closeArray _ _ _ _ _ _ _ Hs). unfold onCloseArray.
  rewrite (top_path _ _ _ _ _ Hs _ _ eq_refl). cbn [mbind result_bind].
  assert (H : between (Array :: Key key :: path) p 1 None (setDepth s)) by (by destruct Hs; constructor).
  apply (takeValue_between (pre ++ chr 93 :: rest) (length pre)) in H. destruct H as [P _ C S Q].
  unfold arrayKey. rewrite P. cbn [tail lastKey]. eexists. split; [reflexivity|]. constructor; try done. cbn. by rewrite P.
Qed.
Lemma reads_end pre p s : closesObject p = false -> between [Key (txt "DATA_SET"); Object] p 1 None s -> reads pre (txt "}") s [] (fun _ => True).
Proof.
  intros Hp Hs rest. set (json := pre ++ chr 125 :: rest).
  assert (H : between [Key (txt "DATA_SET"); Object] p 1 None (setDepth (setKey s (txt "DATA_SET")))) by (by destruct Hs; constructor).
  apply (takeValue_between json (length pre)) in H.
  assert (Hk : currKey (takeValue json (length pre) (setDepth (setKey s (txt "DATA_SET")))) = txt "DATA_SET" /\
    currDepth (takeValue json (length pre) (setDepth (setKey s (txt "DATA_SET")))) = 1%nat).
  { unfold takeValue. destruct Hs as [P _ C S _]. cbn in S. cbn [newString setDepth setKey set_value]. rewrite S. cbn. by rewrite C. }
  set (tv := takeValue json (length pre) (setDepth (setKey s (txt "DATA_SET")))) in *. set (s1 := pop tv p).
  set (s' := set_path s1 [] ObjectPop 0). exists (valueTaken s'). split; [done|]. intros raw f. change (txt "}" ++ rest) with (chr 125 :: rest). cbn [fillLoop forEach]. fold json.
  rewrite (bind_ok (lift _) _ f (Scanned s' true) f).
  2: { unfold lift. rewrite (scan_close _ _ _ _ _ _ _ Hs). unfold onClose. rewrite (between_pop _ _ _ _ _ Hs), (top_path _ _ _ _ _ Hs _ _ eq_refl). cbn [mbind result_bind].
       fold tv. destruct H as [P _ C _ _]. unfold s', s1.
       destruct p; cbn in Hp; try congruence; unfold closeObject, top; cbn; rewrite P; cbn; rewrite C; reflexivity. }
  destruct Hk as [Hk Hd]. rewrite (bind_ok (handleNewValue raw s') _ f tt f).
  2: { unfold handleNewValue, matchedKey. change (currDepth s') with (currDepth tv). change (currKey s') with (currKey tv). change (currVal s') with (currVal tv). rewrite Hd, Hk. destruct raw; reflexivity. }
  rewrite length_app. change (length (txt "}")) with 1%nat. rewrite Nat.add_1_r. reflexivity.
Qed.

(** The text of a document, and the values in it. *)
Record document := mkDocument {
  name : text;
  commentBody : text;
  authorName : text;
  created : text;
  types : list (text * text);
  rowFields : list (list (text * text));
}.
Definition documentText (d : document) : text :=
  txt "{" ++ nl ++
  ((tabs 0 ++ field (txt "NAME") (quoted (name d))) ++ txt "," ++ nl) ++
  ((tabs 0 ++ field (txt "COMMENT") (quoted (commentBody d))) ++ txt "," ++ nl) ++
  ((tabs 0 ++ field (txt "AUTHOR") (quoted (authorName d))) ++ txt "," ++ nl) ++
  (field (txt "CREATION_TIME") (created d) ++ txt "," ++ nl) ++
  (tabs 0 ++ quoted (txt "COL_TYPES") ++ txt " : ") ++ txt "{" ++ nl ++ (entries (fields 2 (types d)) ++ tabs 0 ++ txt "}") ++ txt "," ++ nl ++
  (tabs 0 ++ quoted (txt "DATA_SET") ++ txt " : ") ++ txt "[" ++ nl ++ entries (map rowText (rowFields d)) ++ txt "]" ++ nl ++ txt "}".
Definition rowEvents (l : list (text * text)) : list event := objectEvents 2 [Array; Key (txt "DATA_SET"); Object] (restored l).
Definition documentEvents (d : document) : list event :=
  [(1%nat, txt "NAME", StringMacros.restoreJSONStringEntities (name d), [Object])] ++
  [(1%nat, txt "COMMENT", StringMacros.restoreJSONStringEntities (commentBody d), [Object])] ++
  [(1%nat, txt "AUTHOR", StringMacros.restoreJSONStringEntities (authorName d), [Object])] ++
  [(1%nat, txt "CREATION_TIME", created d, [Object])] ++
  objectEvents 2 [Key (txt "COL_TYPES"); Object] (restored (types d)) ++
  concat (map rowEvents (rowFields d)) ++ [].
Definition documentOK (d : document) : Prop :=
  bodyOK false (name d) = true /\ bodyOK false (commentBody d) = true /\ bodyOK false (authorName d) = true /\ forallb isPlain (created d) = true /\
  forallb fieldOK (types d) = true /\ Forall (fun l => forallb fieldOK l = true) (rowFields d).

Lemma endsEscaped_nl pre : endsEscaped (pre ++ nl) = false.
Proof. by rewrite (endsEscaped_some _ nl StringMacros.newline). Qed.
Lemma endsEscaped_lines pre c : endsEscaped (pre ++ c ++ txt "," ++ nl) = false.
Proof. rewrite !app_assoc. apply endsEscaped_nl. Qed.
Lemma reads_document d : documentOK d -> reads [] (documentText d) scan0 (documentEvents d) (fun _ => True).
Proof.
  intros (H1 & H2 & H3 & H4 & H5 & H6). unfold documentText, documentEvents.
  assert (S0 : between [] NoPop 0 None scan0) by by constructor.
  apply (reads_app _ _ _ _ [] _ (between [Object] NoPop 1 None)); [by apply (reads_open _ _ NoPop)|]. intros s1 S1.
  apply (reads_app _ _ _ _ [] _ (between [Object] NoPop 1 None)); [by apply reads_blanks|]. intros s2 S2.
  apply (reads_app _ _ _ _ [_] _ (between [Object] KeyPop 1 None)); [by apply (reads_fieldComma _ 0 _ _ [] NoPop)|]. intros s3 S3.
  apply (reads_app _ _ _ _ [_] _ (between [Object] KeyPop 1 None)); [apply (reads_fieldComma _ 0 _ _ [] KeyPop); try done; apply endsEscaped_lines|]. intros s4 S4.
  apply (reads_app _ _ _ _ [_] _ (between [Object] KeyPop 1 None)); [apply (reads_fieldComma _ 0 _ _ [] KeyPop); try done; apply endsEscaped_lines|]. intros s5 S5.
  apply (reads_app _ _ _ _ [_] _ (between [Object] KeyPop 1 None)); [apply (reads_number _ _ _ [] KeyPop); try done; apply endsEscaped_lines|]. intros s6 S6.
  apply (reads_app _ _ _ _ [] _ (between [Key (txt "COL_TYPES"); Object] KeyPop 1 None)); [apply (reads_key _ 0 _ [] KeyPop); try done; apply endsEscaped_lines|]. intros s7 S7.
  apply (reads_app _ _ _ _ [] _ (between [Object; Key (txt "COL_TYPES"); Object] NoPop 2 None)); [by apply (reads_open _ _ KeyPop)|]. intros s8 S8.
  apply (reads_app _ _ _ _ [] _ (between [Object; Key (txt "COL_TYPES"); Object] NoPop 2 None)); [by apply reads_blanks|]. intros s9 S9.
  apply (reads_app _ _ _ _ _ _ (between [Key (txt "COL_TYPES"); Object] ObjectPop 1 None)); [apply (reads_object _ _ _ _ _ NoPop); try done; apply endsEscaped_nl|]. intros s10 S10.
  apply (reads_app _ _ _ _ [] _ (between [Object] KeyPop 1 None)); [by apply (reads_comma_object _ (txt "COL_TYPES"))|]. intros s11 S11.
  apply (reads_app _ _ _ _ [] _ (between [Object] KeyPop 1 None)); [by apply reads_blanks|]. intros s12 S12.
  apply (reads_app _ _ _ _ [] _ (between [Key (txt "DATA_SET"); Object] KeyPop 1 None)); [apply (reads_key _ 0 _ [] KeyPop); try done; apply endsEscaped_nl|]. intros s13 S13.
  apply (reads_app _ _ _ _ [] _ (between [Array; Key (txt "DATA_SET"); Object] KeyPop 1 None)); [by apply reads_openArray|]. intros s14 S14.
  apply (reads_app _ _ _ _ [] _ (between [Array; Key (txt "DATA_SET"); Object] KeyPop 1 None)); [by apply reads_blanks|]. intros s15 S15.
  apply (reads_app _ _ _ _ _ [] (fun s' => exists p', between [Array; Key (txt "DATA_SET"); Object] p' 1 None s')); [apply (reads_rows _ _ _ KeyPop); try done; apply endsEscaped_nl|]. intros s16 [p S16].
  apply (reads_app _ _ _ _ [] [] (between [Key (txt "DATA_SET"); Object] ArrayPop 1 None)); [by apply (reads_closeArray _ _ _ p)|]. intros s17 S17.
  apply (reads_app _ _ _ _ [] [] (between [Key (txt "DATA_SET"); Object] ArrayPop 1 None)); [by apply reads_blanks|]. intros s18 S18.
  by apply (reads_end _ ArrayPop).
Qed.

(** ** Filling the rows *)

Lemma keyLoop_self storageName : forall key idx b, drop idx storageName = key -> exists b', keyLoop storageName key idx true b = Ok (true, b').
Proof.
  induction key as [|k key IH]; intros idx b Hd; cbn [keyLoop]; [by exists b|].
  assert (Hk : storageName !! idx = Some k) by (rewrite <- (Nat.add_0_r idx), <- lookup_drop, Hd; done).
  assert (Hs : drop (S idx) storageName = key) by (rewrite <- Nat.add_1_r, <- drop_drop, Hd; done).
  pose proof (lookup_lt_Some _ _ _ Hk) as Hlt. rewrite (proj2 (Nat.ltb_ge _ _)) by lia. rewrite Hk.
  destruct (Ascii.eqb_spec k (chr 95)) as [->|Hne]; [rewrite (bool_decide_true (Some (chr 95) = _)) by done; by apply IH|].
  rewrite (bool_decide_false (Some k = Some (chr 95))) by (intros E; apply Hne; by injection E). rewrite Hk, bool_decide_true by done. cbn [negb andb]. by apply IH.
Qed.
Lemma keyMatches_self name : keyMatches name name = Ok true.
Proof. unfold keyMatches. by destruct (keyLoop_self name name 0 true eq_refl) as [b ->]. Qed.

Section Filling.
Context (w0 : TableView) (nonempty : (0 < getNumberOfColumns w0)%nat) (strict : fillWithLooseColumnMatching_ w0 = false)
  (defaults : length (rowDefaultValues_ w0) = getNumberOfColumns w0) (distinct : NoDup (map storageName_ (columnsInfo_ w0))).
Abbreviation noc := (getNumberOfColumns w0).
Abbreviation names := (map storageName_ (columnsInfo_ w0)).

(** The rows [d] are complete, and of the next one the first [c] cells. *)
Definition partialRow (c : nat) (vals : list text) : list (list text) :=
  match c with O => [] | _ => [take c vals ++ drop c (rowDefaultValues_ w0)] end.
Definition previous (d : list (list text)) : option nat := match d with [] => None | _ => Some (length d - 1)%nat end.
Definition loadedView (d : list (list text)) (c : nat) (vals : list text) : TableView :=
  set_source (set_data w0 (d ++ partialRow c vals)) 0 0 (list_to_set (match d with [] => take c names | _ => names end)).
Record loading (d : list (list text)) (vals : list text) (c : nat) (f : fill) : Prop := {
  loading_view : theView f = loadedView d c vals;
  loading_row : row f = match c with O => previous d | _ => Some (length d) end;
  loading_found : colFoundCount f = match c with O => match d with [] => 0%nat | _ => noc end | _ => c end;
  loading_speed : colSpeedup f = (c mod noc)%nat;
  loading_keys j nm : names !! j = Some nm -> keyEntryCountMap f !! nm = if (j <? c)%nat then Some (length d) else previous d;
  loading_first : c = 0%nat -> d = [] -> keyEntryCountMap f = ∅;
}.
Lemma loading_next d vals vals' f : length vals = noc -> loading d vals noc f -> loading (d ++ [vals]) vals' 0 f.
Proof.
  intros Hl [Hv Hr Hc Hs Hk _]. destruct noc as [|n] eqn:Hn; [lia|]. constructor.
  - rewrite Hv. unfold loadedView. cbn [partialRow]. rewrite app_nil_r, take_ge by lia. rewrite (drop_ge (rowDefaultValues_ w0)) by lia. rewrite app_nil_r.
    f_equal. destruct d as [|x d]; cbn [app]; [|done]. rewrite take_ge; [done|]. rewrite length_map. unfold getNumberOfColumns in Hn. lia.
  - rewrite Hr. unfold previous. rewrite length_app. cbn. destruct (d ++ [vals]) eqn:He; [by destruct d|]. f_equal. lia.
  - rewrite Hc. by destruct (d ++ [vals]) eqn:He; [destruct d|].
  - by rewrite Hs, Nat.Div0.mod_same, Nat.Div0.mod_0_l.
  - intros j nm Hj. rewrite (Hk j nm Hj). pose proof (lookup_lt_Some _ _ _ Hj) as Hlt. rewrite length_map in Hlt. unfold getNumberOfColumns in Hn.
    rewrite (proj2 (Nat.ltb_lt _ _)) by lia. cbn. unfold previous. rewrite length_app. cbn. destruct (d ++ [vals]) eqn:He; [by destruct d|]. f_equal. lia.
  - intros _ He. by destruct d.
Qed.
Lemma loadedView_columns d c vals : columnsInfo_ (loadedView d c vals) = columnsInfo_ w0.
Proof. done. Qed.
(** The column is found at once. *)
Lemma findColumn_next d vals c f ci : loading d vals c f -> columnsInfo_ w0 !! c = Some ci ->
  findColumn (theView f) (storageName_ ci) (map (fun ccnt => (ccnt + colSpeedup f) mod noc)%nat (seq 0 noc)) = Ok (Some c).
Proof.
  intros Hf Hci. pose proof (lookup_lt_Some _ _ _ Hci) as Hlt. destruct noc as [|n] eqn:Hn; [lia|]. cbn [seq map findColumn].
  rewrite (loading_speed _ _ _ _ Hf), Hn. unfold getNumberOfColumns in Hn. rewrite Nat.add_0_l. assert (Hm : (c mod S n = c)%nat) by (apply Nat.mod_small; lia). rewrite !Hm.
  rewrite (loading_view _ _ _ _ Hf). unfold columnAt. rewrite loadedView_columns, Hci. cbn [mbind result_bind]. by rewrite keyMatches_self.
Qed.
Lemma size_one_names (m : gmap text nat) a b x y : m !! a = Some x -> m !! b = Some y -> a <> b -> base.size m <> 1%nat.
Proof.
  intros Ha Hb Hne Hs. assert (H : base.size (delete a m) = 0%nat) by (rewrite map_size_delete, Ha, Hs; done).
  apply map_size_empty_inv in H. assert (He : delete a m !! b = Some y) by (by rewrite lookup_delete_ne). by rewrite H, lookup_empty in He.
Qed.
(** A new row begins exactly with the first column. *)
Lemma beginsRow_next d vals c f ci g : loading d vals c f -> columnsInfo_ w0 !! c = Some ci -> row g = row f ->
  keyEntryCountMap g = <[storageName_ ci := match keyEntryCountMap f !! storageName_ ci with Some n => S n | None => 0%nat end]> (keyEntryCountMap f) ->
  beginsRow (storageName_ ci) g = (c =? 0)%nat /\ keyEntryCountMap g !! storageName_ ci = Some (length d).
Proof.
  intros Hf Hci Hr Hg. assert (Hnm : names !! c = Some (storageName_ ci)) by by rewrite list_lookup_fmap, Hci.
  pose proof (loading_keys _ _ _ _ Hf c _ Hnm) as Hk. rewrite Nat.ltb_irrefl in Hk. unfold beginsRow. rewrite Hg, lookup_insert_eq, Hk.
  assert (Hlen : match previous d with Some n => S n | None => 0%nat end = length d) by (destruct d; cbn; lia).
  rewrite Hlen. split; [|done]. rewrite Hr, (loading_row _ _ _ _ Hf). destruct c as [|c].
  - cbn [Nat.eqb]. destruct d as [|r d]; cbn [previous length].
    + rewrite (loading_first _ _ _ _ Hf eq_refl eq_refl), map_size_insert_None, map_size_empty by done. done.
    + rewrite orb_true_iff. right. apply Nat.ltb_lt. lia.
  - cbn [Nat.eqb]. apply orb_false_iff. split.
    + apply Nat.eqb_neq. pose proof (lookup_lt_Some _ _ _ Hci) as Hlt.
      destruct (lookup_lt_is_Some_2 names 0) as [nm0 H0]; [rewrite length_map; lia|].
      assert (nm0 <> storageName_ ci) by (intros ->; pose proof (NoDup_lookup _ _ _ _ distinct H0 Hnm); lia).
      apply (size_one_names _ nm0 (storageName_ ci) (length d) (length d)); [|by rewrite lookup_insert_eq|done].
      rewrite lookup_insert_ne by done. by rewrite (loading_keys _ _ _ _ Hf 0%nat _ H0).
    + destruct (length d) as [|n]; [done|]. apply Nat.ltb_irrefl.
Qed.
(** Once the row is there, the cell is put into it. *)
Definition openView (d : list (list text)) (c : nat) (vals : list text) : TableView :=
  set_source (set_data w0 (d ++ [take c vals ++ drop c (rowDefaultValues_ w0)])) 0 0 (list_to_set (match d with [] => take c names | _ => names end)).
Definition opened (d : list (list text)) (vals : list text) (c : nat) (km : gmap text nat) (f : fill) : Prop :=
  theView f = openView d c vals /\ keyEntryCountMap f = km /\ colFoundCount f = c /\ row f = Some (length d) /\ colSpeedup f = (c mod noc)%nat.
Definition rowsFit (d : list (list text)) : Prop := Forall (fun r => length r = noc) d.
Lemma countMissing_none d vals f g : loading d vals 0 f -> theView g = theView f -> colFoundCount g = colFoundCount f ->
  countMissing g = (Ok tt, mkFill (theView g) (keyEntryCountMap g) 0 (row g) (colSpeedup g) (lastCol g)).
Proof.
  intros Hf Hv Hc. unfold countMissing. rewrite (bind_ok (gets id) _ g g g) by done. unfold changeView, onView, modify.
  assert (Hsame : (if (0 <? getNumberOfRows (theView g))%nat then set_source (theView g) (sourceColumnMismatchCount_ (theView g))
    (u32 (sourceColumnMissingCount_ (theView g) + (Z.of_nat (getNumberOfColumns (theView g)) - Z.of_nat (colFoundCount g)))) (sourceColumnNames_ (theView g)) else theView g) = theView g).
  { rewrite Hc, (loading_found _ _ _ _ Hf), Hv, (loading_view _ _ _ _ Hf). destruct d as [|r d]; [done|].
    change (getNumberOfColumns (loadedView (r :: d) 0 vals)) with noc. cbn [id sourceColumnMissingCount_ loadedView set_source]. rewrite Z.sub_diag. done. }
  unfold mbind, M_bind. unfold id. rewrite Hsame. by destruct g.
Qed.
Lemma begin_row d vals c f g ci : loading d vals c f -> rowsFit d -> columnsInfo_ w0 !! c = Some ci -> theView g = theView f -> row g = row f ->
  colFoundCount g = colFoundCount f -> colSpeedup g = colSpeedup f ->
  exists h, (if (c =? 0)%nat then countMissing ≫= fun _ => nextRow else mret tt) g = (Ok tt, h) /\ opened d vals c (keyEntryCountMap g) h.
Proof.
  intros Hf Hd Hci Hv Hr Hc Hs. destruct c as [|c]; cbn [Nat.eqb].
  - rewrite (bind_ok countMissing _ g tt _ (countMissing_none d vals f g Hf Hv Hc)). unfold nextRow, onView. cbn [theView].
    assert (Hadd : addDefaultRow (theView g) = (Ok (length d), openView d 0 vals)).
    { rewrite Hv, (loading_view _ _ _ _ Hf). unfold addDefaultRow, loadedView. cbn [partialRow take]. rewrite app_nil_r.
      rewrite (addRow_spec [] 0 [] None [] [] (set_source (set_data w0 d) 0 0 _)); [|exact Hd|exact defaults|cbn; unfold getNumberOfRows; lia|by intros H].
      f_equal. unfold insertRows, newRow. cbn [default getNumberOfRows theDataView_ set_source set_data textEq bool_decide].
      unfold getNumberOfRows. cbn [theDataView_ set_source set_data]. rewrite (take_ge d), (drop_ge d) by done. rewrite textEq_refl. reflexivity. }
    eexists. unfold mbind, M_bind. cbv beta. cbn [theView]. rewrite Hadd. split; [reflexivity|]. split_and!; [done|done|done|done|]. cbn. by rewrite Hs, (loading_speed _ _ _ _ Hf).
  - exists g. split; [done|]. split_and!; [|done|by rewrite Hc, (loading_found _ _ _ _ Hf)|by rewrite Hr, (loading_row _ _ _ _ Hf)|by rewrite Hs, (loading_speed _ _ _ _ Hf)].
    rewrite Hv, (loading_view _ _ _ _ Hf). done.
Qed.
(** The cell of column [c]. *)
Lemma place_cell d vals c x w h : (c < noc)%nat -> length vals = noc -> vals !! c = Some x ->
  theView h = w -> theDataView_ w = d ++ [take c vals ++ drop c (rowDefaultValues_ w0)] -> row h = Some (length d) ->
  placeValue x c h = (Ok tt, mkFill (set_data w (d ++ [take (S c) vals ++ drop (S c) (rowDefaultValues_ w0)]))
    (keyEntryCountMap h) (colFoundCount h) (row h) (colSpeedup h) (lastCol h)).
Proof.
  intros Hc Hl Hx Hv Hw Hr. unfold placeValue. rewrite (bind_ok (gets id) _ h h h) by done. unfold id. rewrite Hr, Hv.
  unfold getNumberOfRows. rewrite Hw, length_app. cbn [length].
  rewrite (proj2 (Nat.leb_gt _ _)) by lia. unfold onView. rewrite Hv. unfold setCell, inView. rewrite Hw, list_lookup_middle by done.
  assert (Hlt : (length (take c vals) = c)%nat) by (rewrite length_take; lia).
  assert (Hld : (length (drop c (rowDefaultValues_ w0)) = noc - c)%nat) by (rewrite length_drop; lia).
  rewrite length_app, Hlt, Hld, (proj2 (Nat.ltb_lt _ _)) by lia. cbn [fst snd]. unfold putCell. rewrite Hr. do 3 f_equal.
  rewrite Hw, alter_snoc. do 2 f_equal.
  rewrite insert_app_r_alt by lia. rewrite Hlt, Nat.sub_diag. rewrite (take_S_r _ _ x Hx), <- app_assoc. f_equal.
  destruct (drop c (rowDefaultValues_ w0)) as [|y l] eqn:Hd; [cbn in Hld; lia|]. cbn. f_equal. rewrite <- Nat.add_1_r, <- drop_drop, Hd. done.
Qed.
Definition namedView (d : list (list text)) (c : nat) (vals : list text) : TableView :=
  set_source (set_data w0 (d ++ [take c vals ++ drop c (rowDefaultValues_ w0)])) 0 0 (list_to_set (match d with [] => take (S c) names | _ => names end)).
Lemma name_row d vals c ci h : columnsInfo_ w0 !! c = Some ci -> theView h = openView d c vals ->
  nameFirstRow (storageName_ ci) h = (Ok tt, mkFill (namedView d c vals) (keyEntryCountMap h) (colFoundCount h) (row h) (colSpeedup h) (lastCol h)).
Proof.
  intros Hci Hv. unfold nameFirstRow, changeView, onView, modify. rewrite Hv. do 2 f_equal. unfold getNumberOfRows. cbn [theDataView_ openView set_source set_data].
  rewrite length_app. cbn [length]. destruct d as [|r d]; [|destruct (Nat.eqb_spec (length (r :: d) + 1) 1) as [He|]; [cbn in He; lia|done]].
  cbn [length Nat.add Nat.eqb app]. unfold set_sourceNames, openView, namedView. cbn [sourceColumnNames_ set_source]. unfold set_source. cbn. f_equal.
  assert (Hn : names !! c = Some (storageName_ ci)) by by rewrite list_lookup_fmap, Hci.
  rewrite (take_S_r _ _ _ Hn), list_to_set_app_L. cbn. set_solver.
Qed.
Lemma fillStrict_next d vals c x ci f : loading d vals c f -> rowsFit d -> length vals = noc -> columnsInfo_ w0 !! c = Some ci -> vals !! c = Some x ->
  exists f', fillStrict (storageName_ ci) x f = (Ok tt, f') /\ loading d vals (S c) f'.
Proof.
  intros Hf Hd Hl Hci Hx. pose proof (lookup_lt_Some _ _ _ Hci) as Hlt. fold noc in Hlt. unfold fillStrict. rewrite (bind_ok (gets id) _ f f f) by done.
  assert (Hn : getNumberOfColumns (theView f) = noc) by by rewrite (loading_view _ _ _ _ Hf). rewrite Hn.
  rewrite (findColumn_next d vals c f ci Hf Hci), (bind_ok (lift _) _ f (Some c) f) by done.
  set (g := mkFill (theView f) (<[storageName_ ci := match keyEntryCountMap f !! storageName_ ci with Some n => S n | None => 0%nat end]> (keyEntryCountMap f))
    (colFoundCount f) (row f) (colSpeedup f) (lastCol f)).
  rewrite (bind_ok (countKey _) _ f tt g) by done.
  destruct (beginsRow_next d vals c f ci g Hf Hci eq_refl eq_refl) as [Hb Hk]. rewrite (bind_ok (gets _) _ g (c =? 0)%nat g) by (unfold gets; by rewrite Hb).
  destruct (begin_row d vals c f g ci Hf Hd Hci eq_refl eq_refl eq_refl eq_refl) as (h & Hh & Hv & Hm & Hcf & Hr & Hs).
  rewrite (bind_ok _ _ g tt h Hh). rewrite (bind_ok (modify _) _ h tt _ eq_refl).
  set (h2 := mkFill (theView h) (keyEntryCountMap h) (S (colFoundCount h)) (row h) (colSpeedup h) (Some c)).
  rewrite (bind_ok (nameFirstRow _) _ h2 tt _ (name_row d vals c ci h2 Hci Hv)). set (h3 := mkFill (namedView d c vals) _ _ _ _ _).
  rewrite (bind_ok (placeValue x c) _ h3 tt _ (place_cell d vals c x (namedView d c vals) h3 Hlt Hl Hx eq_refl eq_refl Hr)).
  eexists. split; [reflexivity|]. constructor.
  - done.
  - exact Hr.
  - cbn. by rewrite Hcf.
  - cbn. rewrite Hs, Nat.Div0.add_mod_idemp_l. f_equal. lia.
  - intros j nm Hj. cbn -[Nat.ltb]. rewrite Hm. cbn [keyEntryCountMap g]. destruct (decide (nm = storageName_ ci)) as [->|Hne].
    + assert (j = c) as ->.
      { apply (NoDup_lookup names _ _ (storageName_ ci) distinct Hj). by rewrite list_lookup_fmap, Hci. }
      rewrite (proj2 (Nat.ltb_lt _ _)) by lia. exact Hk.
    + rewrite lookup_insert_ne by done. rewrite (loading_keys _ _ _ _ Hf j nm Hj).
      assert (j <> c) by (intros ->; rewrite list_lookup_fmap, Hci in Hj; by injection Hj as <-).
      replace (j <? S c)%nat with (j <? c)%nat; [done|]. apply eq_true_iff_eq. rewrite !Nat.ltb_lt. lia.
  - done.
Qed.

(** A value of the data set, as it is handled. *)
Definition fillData (e : text * text) : M fill unit :=
  loose ← gets (fun f => fillWithLooseColumnMatching_ (theView f));
  if (loose : bool) then fillLoose e.1 e.2 else fillStrict e.1 e.2.
Lemma fillData_next d vals c x ci f : loading d vals c f -> rowsFit d -> length vals = noc -> columnsInfo_ w0 !! c = Some ci -> vals !! c = Some x ->
  exists f', fillData (storageName_ ci, x) f = (Ok tt, f') /\ loading d vals (S c) f'.
Proof.
  intros Hf Hd Hl Hci Hx. destruct (fillStrict_next d vals c x ci f Hf Hd Hl Hci Hx) as (f' & E & Hf'). exists f'. split; [|done].
  unfold fillData. rewrite (bind_ok (gets _) _ f false f); [done|]. unfold gets. rewrite (loading_view _ _ _ _ Hf). cbn. by rewrite strict.
Qed.
Lemma fillRow m : forall c d vals f, (c + m = noc)%nat -> loading d vals c f -> rowsFit d -> length vals = noc ->
  exists f', forEach (drop c (zip names vals)) fillData f = (Ok tt, f') /\ loading d vals noc f'.
Proof.
  induction m as [|m IH]; intros c d vals f Hc Hf Hd Hl.
  { rewrite drop_ge by (rewrite length_zip_with, length_map; unfold getNumberOfColumns in *; lia). exists f. split; [done|]. by replace noc with c by lia. }
  assert (Hlc : (c < length (columnsInfo_ w0))%nat) by (unfold getNumberOfColumns in Hc; lia).
  destruct (lookup_lt_is_Some_2 _ _ Hlc) as [ci Hci]. destruct (lookup_lt_is_Some_2 vals c) as [x Hx]; [lia|].
  rewrite (drop_S _ (storageName_ ci, x)) by (apply lookup_zip_with_Some; exists (storageName_ ci), x; rewrite list_lookup_fmap, Hci; done).
  destruct (fillData_next d vals c x ci f Hf Hd Hl Hci Hx) as (f1 & E1 & H1). cbn [forEach].
  destruct (IH (S c) d vals f1 ltac:(lia) H1 Hd Hl) as (f2 & E2 & H2). exists f2. split; [|done]. by rewrite (bind_ok (fillData _) _ f tt f1 E1).
Qed.
Lemma fillRows rows : forall d f, loading d [] 0 f -> rowsFit (d ++ rows) ->
  exists f', forEach rows (fun vals => forEach (zip names vals) fillData) f = (Ok tt, f') /\ loading (d ++ rows) [] 0 f'.
Proof.
  induction rows as [|vals rows IH]; intros d f Hf Hd; [exists f; split; [done|by rewrite app_nil_r]|].
  assert (Hf' : loading d vals 0 f) by (by destruct Hf). unfold rowsFit in Hd. rewrite Forall_app in Hd.
  destruct Hd as [Hd1 [Hl Hrows]%Forall_cons].
  destruct (fillRow noc 0 d vals f eq_refl Hf' Hd1 Hl) as (f1 & E1 & H1). cbn [forEach]. rewrite drop_0 in E1.
  rewrite (bind_ok (forEach _ _) _ f tt f1 E1). pose proof (loading_next d vals [] f1 Hl H1) as H2.
  destruct (IH (d ++ [vals]) f1 H2) as (f2 & E2 & H3).
  - unfold rowsFit. rewrite !Forall_app. split; [split; [done|by apply Forall_singleton]|done].
  - exists f2. split; [done|]. by rewrite <- app_assoc in H3.
Qed.
End Filling.

Lemma forEach_objectEvents {S} (h : event -> M S unit) (g : text * text -> M S unit) count path l :
  (forall e x, h (count, e.1, e.2, path) x = g e x) -> (forall e x, h (count, e.1, e.2, Object :: path) x = g e x) ->
  forall x, forEach (objectEvents count path l) h x = forEach l g x.
Proof.
  intros H1 H2. induction l as [|[key val] l IH]; intros x; [done|]. destruct l as [|e l].
  - cbn [objectEvents forEach]. unfold mbind, M_bind. by rewrite (H1 (key, val)).
  - change (objectEvents count path ((key, val) :: e :: l)) with ((count, key, val, Object :: path) :: objectEvents count path (e :: l)).
    change (forEach ((key, val) :: e :: l) g x) with ((g (key, val) ≫= fun _ => forEach (e :: l) g) x). cbn [forEach]. unfold mbind, M_bind. rewrite (H2 (key, val)).
    destruct (g (key, val) x) as [[[]|] x']; [|done]. exact (IH x').
Qed.
Lemma forEach_concat {S A B} (h : A -> M S unit) (k : B -> list A) l : forall x, forEach (concat (map k l)) h x = forEach l (fun b => forEach (k b) h) x.
Proof.
  induction l as [|b l IH]; intros x; [done|]. cbn [map concat]. rewrite forEach_app. cbn [forEach]. unfold mbind, M_bind.
  destruct (forEach (k b) h x) as [[[]|] x']; [apply IH|done].
Qed.
Lemma forEach_ext {S A} (g h : A -> M S unit) l : (forall a x, a ∈ l -> g a x = h a x) -> forall x, forEach l g x = forEach l h x.
Proof.
  induction l as [|a l IH]; intros H x; [done|]. cbn [forEach]. unfold mbind, M_bind. rewrite H by left. destruct (h a x) as [[[]|] x']; [|done].
  apply IH. intros b y Hb. apply H. by right.
Qed.
Lemma forEach_skip {S A} (l : list A) (x : S) : forEach l (fun _ => mret tt) x = (Ok tt, x).
Proof. by induction l. Qed.

(** ** The round trip *)

Definition escaped (x : text) : text := flat_map (escapeChar false) x.
Definition rowOf v (row : list text) : list (text * text) := zip (map storageName_ (columnsInfo_ v)) (map escaped (shownRow v row)).
Definition documentOf v : document :=
  mkDocument (tableName_ v) (flat_map commentChar (comment_ v)) (author_ v) (to_string_signed (creationTime_ v))
    (map (fun ci => (storageName_ ci, dataType_ ci)) (columnsInfo_ v)) (map (rowOf v) (theDataView_ v)).

Lemma printRow_text v r row : theDataView_ v !! r = Some row -> length row = getNumberOfColumns v -> printRow v r = Ok (rowText (rowOf v row)).
Proof.
  intros Hr Hl. unfold printRow. pose proof (lookup_lt_Some _ _ _ Hr) as Hlr.
  rewrite (mapM_ok _ (fun '(c, ci) => tabs 2 ++ field (storageName_ ci) (quoted (escaped (shown ci (nth c row [])))))).
  - cbn [mbind result_bind]. unfold rowText. do 4 f_equal. unfold fields, rowOf, shownRow. do 2 f_equal. apply list_eq. intros c.
    rewrite !map_lookup, list_lookup_imap, lookup_zip_with, !map_lookup, lookup_zip_with.
    destruct (columnsInfo_ v !! c) as [ci|] eqn:Hc; [|done]. pose proof (lookup_lt_Some _ _ _ Hc) as Hlc.
    destruct (lookup_lt_is_Some_2 row c) as [x Hx]; [unfold getNumberOfColumns in Hl; lia|]. rewrite Hx. cbn. by rewrite (nth_lookup_Some _ _ _ _ Hx).
  - intros [c ci] Hin%elem_of_lookup_imap. destruct Hin as (c' & ci' & [= -> ->] & Hc). pose proof (lookup_lt_Some _ _ _ Hc) as Hlc.
    destruct (lookup_lt_is_Some_2 row c') as [x Hx]; [unfold getNumberOfColumns in Hl; lia|]. rewrite (nth_lookup_Some _ _ _ _ Hx).
    unfold getEscapedValueAsString, getValueAsString, requested, columnAt, cell. rewrite Hc, Hr, Hx.
    rewrite (proj2 (Nat.ltb_lt _ _)) by exact Hlc. rewrite (proj2 (Nat.ltb_lt _ _)) by exact Hlr. cbn [andb negb mbind result_bind].
    unfold shown. by destruct (boolText (type_ ci') x).
Qed.
Lemma printJSON_document v : isSpecialTable v = Ok false -> rectangular v -> printJSON v = Ok (documentText (documentOf v)).
Proof.
  intros Hs Hr. unfold printJSON. rewrite Hs. cbn [mbind result_bind]. unfold rectangular in Hr. rewrite Forall_forall in Hr.
  rewrite (mapM_ok _ (fun r => rowText (rowOf v (nth r (theDataView_ v) [])))).
  2: { intros r Hin%elem_of_seq. destruct (lookup_lt_is_Some_2 (theDataView_ v) r) as [row Hrow]; [unfold getNumberOfRows in Hin; lia|].
       rewrite (nth_lookup_Some _ _ _ _ Hrow). apply printRow_text; [done|]. apply Hr. by eapply list_elem_of_lookup_2. }
  cbn [mbind result_bind]. f_equal. unfold documentText, documentOf. cbn [name commentBody authorName created types rowFields].
  assert (E1 : map (fun ci => tabs 2 ++ field (storageName_ ci) (quoted (dataType_ ci))) (columnsInfo_ v) =
    fields 2 (map (fun ci => (storageName_ ci, dataType_ ci)) (columnsInfo_ v))) by (unfold fields; by rewrite map_map).
  assert (E2 : map (fun r => rowText (rowOf v (nth r (theDataView_ v) []))) (seq 0 (getNumberOfRows v)) = map rowText (map (rowOf v) (theDataView_ v))).
  { rewrite map_map. rewrite <- (map_map (fun r => nth r (theDataView_ v) []) (fun row => rowText (rowOf v row))). by rewrite map_seq_lookup. }
  rewrite E1, E2. change (tabs 0) with (@nil ascii). unfold field. rewrite <- !app_assoc. reflexivity.
Qed.

(** ** What can be stored *)

(** A text that does not end in a backslash. *)
Definition storableText (x : text) : bool := negb (endsEscaped x).
Record storable v : Prop := {
  storable_name : cleanName (tableName_ v) = true;
  storable_author : cleanName (author_ v) = true;
  storable_comment : storableText (comment_ v) = true;
  storable_created : 0 <= creationTime_ v < 2 ^ 63;
  storable_columns : forallb (fun ci => cleanName (storageName_ ci) && cleanName (dataType_ ci)) (columnsInfo_ v) = true;
  storable_cells : forallb (forallb storableText) (shownData v) = true;
}.
Lemma bodyOK_flat e x : (forall c, e c = escapeChar false c) -> storableText x = true -> bodyOK false (flat_map e x) = true.
Proof.
  intros He. assert (H : forall x p, x <> [] -> endsEscaped x = false -> bodyOK p (flat_map e x) = true).
  { clear x. induction x as [|c x IH]; intros p Hne Hx; [done|]. cbn [flat_map]. rewrite He.
    assert (Hrest : forall q, (x = [] -> q = false) -> bodyOK q (flat_map e x) = true).
    { intros q Hq. destruct x as [|d x]; [by rewrite Hq|]. by apply IH. }
    assert (Hc : x = [] -> (c =? StringMacros.backslash)%char = false) by by intros ->.
    unfold escapeChar. destruct (Ascii.eqb_spec c StringMacros.newline) as [->|]; [by apply Hrest|].
    destruct (Ascii.eqb_spec c StringMacros.tab) as [->|]; [by apply Hrest|]. destruct (Ascii.eqb_spec c StringMacros.carriageReturn) as [->|]; [by apply Hrest|].
    destruct (Ascii.eqb_spec c StringMacros.backslash) as [->|Hb]; [by apply Hrest|]. destruct (Ascii.eqb_spec c doubleQuote) as [->|Hq]; [by apply Hrest|].
    cbn [app bodyOK]. destruct (Ascii.eqb_spec c doubleQuote); [done|]. destruct (Ascii.eqb_spec c StringMacros.backslash); [done|]. by apply Hrest. }
  unfold storableText. intros Hx%negb_true_iff. destruct x as [|c x]; [done|]. by apply H.
Qed.
Lemma restore_flat e x : (forall c, e c = escapeChar false c) -> StringMacros.restoreJSONStringEntities (flat_map e x) = x.
Proof.
  intros He. rewrite <- (StringMacros.restore_escape_JSON x) at 2. f_equal. unfold StringMacros.escapeJSONStringEntities. apply flat_map_ext. intros c. rewrite He.
  unfold escapeChar, StringMacros.escapeJSONChar.
  destruct (Ascii.eqb_spec c StringMacros.newline) as [->|]; [done|]. destruct (Ascii.eqb_spec c StringMacros.tab) as [->|]; [done|].
  destruct (Ascii.eqb_spec c StringMacros.carriageReturn) as [->|]; [done|]. destruct (Ascii.eqb_spec c StringMacros.backslash) as [->|]; [done|].
  change StringMacros.doubleQuote with doubleQuote. by destruct (Ascii.eqb_spec c doubleQuote) as [->|].
Qed.
Lemma commentChar_escape c : commentChar c = escapeChar false c.
Proof.
  unfold commentChar, escapeChar. destruct (c =? StringMacros.newline)%char, (c =? StringMacros.tab)%char, (c =? StringMacros.carriageReturn)%char; try done.
  by destruct (c =? doubleQuote)%char, (c =? StringMacros.backslash)%char.
Qed.
Lemma signed_plain n : 0 <= n -> forallb isPlain (to_string_signed n) = true /\ c_str (to_string_signed n) = to_string_signed n.
Proof.
  intros Hn. unfold to_string_signed. destruct (Z.ltb_spec n 0); [lia|]. induction (to_string_unsigned_digits n Hn) as [|c s Hc _ [IH1 IH2]]; [done|].
  apply is_digit_code in Hc. cbn [forallb c_str]. rewrite IH1, IH2. split.
  - rewrite andb_true_r. unfold isPlain. apply andb_true_iff. split; apply negb_true_iff, not_true_iff_false.
    + rewrite isOneOf_spec, !elem_of_cons, elem_of_nil. intros HP. repeat destruct HP as [HP|HP]; try done. all: injection HP as ->; destruct Hc as [Hlo Hhi]; first [exact (Hlo eq_refl)|exact (Hhi eq_refl)].
    + unfold isBlank. rewrite !orb_true_iff, !Ascii.eqb_eq. intros [[[->| ->]| ->]| ->]; destruct Hc as [Hlo Hhi]; first [exact (Hlo eq_refl)|exact (Hhi eq_refl)].
  - destruct (Z.eqb_spec (code c) 0); [lia|done].
Qed.

Lemma documentOK_of v : rectangular v -> storable v -> documentOK (documentOf v).
Proof.
  intros Hr [Hn Ha Hc Ht Hcols Hcells]. apply cleanName_spec in Hn as [Hn _]. apply cleanName_spec in Ha as [Ha _]. unfold documentOK, documentOf. cbn [name commentBody authorName created types rowFields].
  split_and!; [done|by apply bodyOK_flat; [apply commentChar_escape|]|done|apply signed_plain; lia| |].
  - rewrite forallb_forall in Hcols. apply forallb_forall. intros e (ci & <- & Hin)%in_map_iff. apply Hcols in Hin as [H1 H2]%andb_true_iff.
    unfold fieldOK. cbn [fst snd]. rewrite H1. by apply cleanName_spec in H2 as [-> _].
  - apply Forall_forall. intros l (row & -> & Hrow)%list_elem_of_fmap. apply forallb_forall. intros e He%list_elem_of_In. unfold rowOf in He.
    apply list_elem_of_lookup in He as [c He]. apply lookup_zip_with_Some in He as (nm & b & -> & Hnm & Hb). rewrite map_lookup in Hnm. rewrite map_lookup in Hb.
    destruct (columnsInfo_ v !! c) as [ci|] eqn:Hci; [|done]. injection Hnm as <-. destruct (shownRow v row !! c) as [x|] eqn:Hx; [|done]. injection Hb as <-.
    unfold fieldOK. cbn [fst snd]. apply andb_true_iff. split.
    + rewrite forallb_forall in Hcols. apply list_elem_of_lookup_2, list_elem_of_In, Hcols, andb_true_iff in Hci. apply Hci.
    + apply bodyOK_flat; [done|]. rewrite forallb_forall in Hcells. assert (Hs : In (shownRow v row) (shownData v)) by (apply in_map; by apply list_elem_of_In).
      apply Hcells in Hs. rewrite forallb_forall in Hs. apply Hs, list_elem_of_In. by eapply list_elem_of_lookup_2.
Qed.
Lemma restored_row v row : restored (rowOf v row) = zip (map storageName_ (columnsInfo_ v)) (shownRow v row).
Proof.
  unfold restored, rowOf. apply list_eq. intros c. rewrite !map_lookup, !lookup_zip_with, !map_lookup. destruct (columnsInfo_ v !! c); [|done]. cbn.
  destruct (shownRow v row !! c) as [x|]; [|done]. cbn. do 2 f_equal. by apply restore_flat.
Qed.
Lemma rowEvents_fill l f : forEach (rowEvents l) (handleEvent false) f = forEach (restored l) fillData f.
Proof. apply (forEach_objectEvents (handleEvent false)); by intros [key val] x. Qed.
Lemma typeEvents_skip l f : forEach (objectEvents 2 [Key (txt "COL_TYPES"); Object] l) (handleEvent false) f = (Ok tt, f).
Proof. rewrite (forEach_objectEvents (handleEvent false) (fun _ => mret tt)); [apply forEach_skip| |]; by intros [key val] x. Qed.

(** The view that is loaded. *)
Definition loadedFrom v w : TableView :=
  set_source (set_data (setCreationTime (creationTime_ v) (setAuthor (author_ v) (setComment (comment_ v) w))) (shownData v)) 0 0 (getColumnStorageNames v).
Record loadable v w : Prop := {
  loadable_columns : columnsInfo_ w = columnsInfo_ v;
  loadable_some : (0 < getNumberOfColumns v)%nat;
  loadable_names : NoDup (map storageName_ (columnsInfo_ v));
  loadable_empty : theDataView_ w = [];
  loadable_strict : fillWithLooseColumnMatching_ w = false;
  loadable_raw : getSourceRawData_ w = false;
  loadable_defaults : length (rowDefaultValues_ w) = getNumberOfColumns w;
}.
Lemma header_events v w rest : getSourceRawData_ w = false -> cleanName (author_ v) = true -> 0 <= creationTime_ v < 2 ^ 63 ->
  forEach ([(1%nat, txt "NAME", StringMacros.restoreJSONStringEntities (tableName_ v), [Object])] ++
           [(1%nat, txt "COMMENT", StringMacros.restoreJSONStringEntities (flat_map commentChar (comment_ v)), [Object])] ++
           [(1%nat, txt "AUTHOR", StringMacros.restoreJSONStringEntities (author_ v), [Object])] ++
           [(1%nat, txt "CREATION_TIME", to_string_signed (creationTime_ v), [Object])] ++ rest) (handleEvent false) (mkFill (startFill w) ∅ 0 None 0 None) =
  forEach rest (handleEvent false) (mkFill (setCreationTime (creationTime_ v) (setAuthor (author_ v) (setComment (comment_ v) (startFill w)))) ∅ 0 None 0 None).
Proof.
  intros Hraw Ha Ht. rewrite (restore_flat commentChar) by apply commentChar_escape. apply cleanName_spec in Ha as [_ ->].
  assert (E : StringLists.strtol (c_str (to_string_signed (creationTime_ v))) 10 = creationTime_ v).
  { rewrite (proj2 (signed_plain (creationTime_ v) ltac:(lia))). unfold to_string_signed. destruct (Z.ltb_spec (creationTime_ v) 0); [lia|]. by apply StringLists.strtol_decimal. }
  transitivity (forEach rest (handleEvent false) (mkFill (setCreationTime (StringLists.strtol (c_str (to_string_signed (creationTime_ v))) 10)
    (setAuthor (author_ v) (setComment (comment_ v) (startFill w)))) ∅ 0 None 0 None)); [reflexivity|by rewrite E].
Qed.
Lemma shownRow_length v row : length row = getNumberOfColumns v -> length (shownRow v row) = getNumberOfColumns v.
Proof. intros H. unfold shownRow. rewrite length_zip_with. unfold getNumberOfColumns in *. lia. Qed.
Lemma loadedView_start w : theDataView_ w = [] -> loadedView (startFill w) [] 0 [] = startFill w.
Proof. intros H. unfold loadedView, startFill. destruct w. cbn in H. subst. by destruct getSourceRawData_0. Qed.
Lemma fill_rows v w f : loadable v w -> rectangular v ->
  theView f = setCreationTime (creationTime_ v) (setAuthor (author_ v) (setComment (comment_ v) (startFill w))) ->
  keyEntryCountMap f = ∅ -> colFoundCount f = 0%nat -> row f = None -> colSpeedup f = 0%nat ->
  exists f', forEach (concat (map rowEvents (map (rowOf v) (theDataView_ v)))) (handleEvent false) f = (Ok tt, f') /\
    theView f' = set_source (set_data (theView f) (shownData v)) 0 0 (list_to_set (match shownData v with [] => [] | _ => map storageName_ (columnsInfo_ v) end)).
Proof.
  intros [Hcols Hsome Hnames Hempty Hstrict Hraw Hdef] Hr Hv Hk Hc Hrow Hs.
  set (w1 := setCreationTime (creationTime_ v) (setAuthor (author_ v) (setComment (comment_ v) (startFill w)))) in *.
  assert (W : columnsInfo_ w1 = columnsInfo_ v /\ rowDefaultValues_ w1 = rowDefaultValues_ w /\ fillWithLooseColumnMatching_ w1 = false /\ loadedView w1 [] 0 [] = w1).
  { unfold w1, startFill, loadedView. destruct w. cbn in *. by subst. }
  destruct W as (W1 & W2 & W3 & W4).
  assert (Hn : getNumberOfColumns w1 = getNumberOfColumns v) by (unfold getNumberOfColumns; by rewrite W1).
  assert (Hl : loading w1 [] [] 0 f).
  { constructor; [by rewrite Hv, W4|by rewrite Hrow|by rewrite Hc| |intros j nm _; by rewrite Hk|done]. rewrite Hs. symmetry. apply Nat.mod_small. lia. }
  assert (Hfit : rowsFit w1 ([] ++ shownData v)).
  { apply Forall_forall. intros r (row0 & -> & Hin)%list_elem_of_fmap. rewrite Hn. apply shownRow_length. unfold rectangular in Hr. rewrite Forall_forall in Hr. by apply Hr. }
  assert (Hd : length (rowDefaultValues_ w1) = getNumberOfColumns w1) by (rewrite W2, Hdef, Hn; unfold getNumberOfColumns; by rewrite Hcols).
  destruct (fillRows w1 ltac:(lia) W3 Hd ltac:(by rewrite W1) (shownData v) [] f Hl Hfit) as (f' & E & [Hv' _ _ _ _ _]).
  exists f'. split.
  - rewrite forEach_concat. rewrite <- E. unfold shownData. rewrite W1. clear. generalize (theDataView_ v) as rows. revert f.
    intros f rows. revert f. induction rows as [|r rows IH]; intros f; [done|]. cbn [map forEach]. unfold mbind, M_bind. rewrite rowEvents_fill, restored_row.
    destruct (forEach (zip _ _) fillData f) as [[[]|] f1]; [apply IH|done].
  - rewrite Hv', Hv. unfold loadedView. cbn [app partialRow take]. rewrite app_nil_r, W1. done.
Qed.

(** C28: What [printJSON] writes is read back by [fillFromJSON] into an empty view of
    the same columns: every cell, the comment, the author and the time of
    creation, and the names of the columns, with no mismatch. *)
Theorem fillFromJSON_printJSON v w json :
  isSpecialTable v = Ok false -> isSpecialTable w = Ok false -> rectangular v -> storable v -> loadable v w ->
  printJSON v = Ok json -> Z.of_nat (length json) < 2 ^ 32 ->
  fillFromJSON json w = (Ok 0, loadedFrom v w).
Proof.
  intros Hsv Hsw Hr Hst Hld Hp Hlen. rewrite (printJSON_document v Hsv Hr) in Hp. injection Hp as <-.
  unfold fillFromJSON. rewrite (bind_ok (fun v => lift (isSpecialTable v) v) _ w false w) by (unfold lift; by rewrite Hsw).
  rewrite (proj2 (Z.leb_gt _ _)) by done. rewrite (bind_ok (gets _) _ w false w) by (unfold gets; by rewrite (loadable_raw _ _ Hld)).
  rewrite (bind_ok (modify startFill) _ w tt (startFill w)) by done.
  destruct (reads_document _ (documentOK_of v Hr Hst) []) as (s' & _ & E). specialize (E false (mkFill (startFill w) ∅ 0 None 0 None)).
  rewrite app_nil_r in E. cbn [app length] in E.
  set (f1 := mkFill (setCreationTime (creationTime_ v) (setAuthor (author_ v) (setComment (comment_ v) (startFill w)))) ∅ 0 None 0 None).
  destruct (fill_rows v w f1 Hld Hr eq_refl eq_refl eq_refl eq_refl eq_refl) as (f' & Ef & Ev).
  assert (Hrun : fillLoop false (documentText (documentOf v)) 0 (documentText (documentOf v)) scan0 (mkFill (startFill w) ∅ 0 None 0 None) = (Ok true, f')).
  { rewrite E. rewrite (bind_ok (forEach _ _) _ _ tt f'); [done|]. unfold documentEvents. cbn [name commentBody authorName created types rowFields documentOf].
    rewrite (header_events v w) by (apply Hld || apply Hst). fold f1. rewrite forEach_app, (bind_ok _ _ f1 tt f1 (typeEvents_skip _ _)). by rewrite app_nil_r. }
  rewrite (bind_ok _ _ (startFill w) true (theView f')) by (by rewrite Hrun). rewrite Ev.
  unfold finish. rewrite (bind_ok (gets id) _ _ _ _ eq_refl). unfold id. cbn [fillWithLooseColumnMatching_ sourceColumnMissingCount_ set_source]. rewrite andb_false_r.
  unfold modify, mret, M_ret, mbind, M_bind. f_equal. cbn [theView f1 sourceColumnNames_ set_source].
  unfold loadedFrom, startFill. rewrite (loadable_raw _ _ Hld). change (getColumnStorageNames (set_source _ _ _ _)) with (getColumnStorageNames w).
  assert (Hw : getColumnStorageNames w = getColumnStorageNames v) by (unfold getColumnStorageNames; by rewrite (loadable_columns _ _ Hld)). rewrite Hw.
  destruct (bool_decide _) eqn:Hb; [done|]. destruct (shownData v); [by apply bool_decide_eq_false in Hb|done].
Qed.

(** ** Runs *)

Definition special : text := txt "a " ++ [doubleQuote] ++ txt "\n" ++ nl ++ tabs 1 ++ [StringMacros.backslash; doubleQuote] ++ txt "z".
Definition stored : TableView :=
  setComment special (setAuthor (txt "ann") (setCreationTime 1700000000
    (set_data sample [sampleRow "FE1" "A | B" "P{,}:[1]" "7"; [txt "FE2"; special; []; txt "0"; special; txt "admin"; txt "0"]]))).
Definition emptied : TableView := set_data sample [].
Lemma stored_storable : storable stored.
Proof. constructor; by vm_compute. Qed.
Lemma sample_loadable v : columnsInfo_ v = columnsInfo_ sample -> loadable v emptied.
Proof.
  intros H. constructor; try done; unfold getNumberOfColumns; rewrite ?H; try done; [cbn; lia|]. apply (bool_decide_unpack _). by vm_compute.
Qed.
Definition jsonOf v : text := match printJSON v with Ok json => json | Throw _ => [] end.
Lemma fillFromJSON_printJSON_witness :
  fillFromJSON (jsonOf stored) emptied = (Ok 0, loadedFrom stored emptied) /\ theDataView_ (loadedFrom stored emptied) = theDataView_ stored.
Proof.
  destruct (printJSON stored) as [json|] eqn:E; [|by vm_compute in E]. assert (Ej : jsonOf stored = json) by (unfold jsonOf; by rewrite E).
  split; [|by vm_compute]. rewrite Ej. apply fillFromJSON_printJSON; [by vm_compute|by vm_compute| |apply stored_storable|by apply sample_loadable|exact E|].
  - apply Forall_forall. intros row Hrow. assert (B : forallb (fun row => length row =? getNumberOfColumns stored)%nat (theDataView_ stored) = true) by by vm_compute.
    rewrite forallb_forall in B. apply list_elem_of_In in Hrow. by apply Nat.eqb_eq, B.
  - assert (B : Z.of_nat (length (jsonOf stored)) <? 2 ^ 32 = true) by by vm_compute. rewrite Ej in B. by apply Z.ltb_lt.
Defined.

(** A value that ends in a backslash is written with its closing quote right
    after a backslash.  The reader takes that quote for an escaped one: the rest
    of the table is lost, and the result is success. *)
Definition backslashed : TableView := set_data sample [sampleRow "FE1" "A" "C:\" "7"; sampleRow "FE2" "B" "P2" "1"].
Lemma backslash_loses_rows :
  let r := fillFromJSON (jsonOf backslashed) emptied in
  r.1 = Ok 0 /\ theDataView_ r.2 = [[txt "FE1"; txt "A"; []; txt "0"; []; txt "admin"; txt "0"]] /\ sourceColumnMissingCount_ r.2 = 0.
Proof. by vm_compute. Qed.
(** [COMMENT] is accepted because it is the beginning of a name, not as an
    alternative to it; so is any other beginning, and a [C] for every column. *)
Lemma keyMatches_runs :
  keyMatches (txt "COMMENT_DESCRIPTION") (txt "COMMENT") = Ok true /\ keyMatches (txt "DESCRIPTION") (txt "COMMENT") = Ok false /\
  keyMatches (txt "PORT_NUMBER") (txt "PORT") = Ok true /\ keyMatches (txt "PORT") (txt "PORT_NUMBER") = Ok false /\
  keyMatches (txt "UID") (txt "C") = Ok true /\ keyMatches (txt "U") (txt "COMMENT") = Throw Undefined.
Proof. by vm_compute. Qed.
(** A number is lost when a blank comes between it and the next brace. *)
Definition timed (tail : text) : text := txt "{ " ++ field (txt "CREATION_TIME") (txt "123") ++ tail.
Lemma number_before_blank :
  creationTime_ (fillFromJSON (timed (txt "}")) emptied).2 = 123 /\ creationTime_ (fillFromJSON (timed (txt " }")) emptied).2 = 0.
Proof. by vm_compute. Qed.
(** Columns that the last row does not have are not counted. *)
Definition entry (k v : string) : text := field (txt k) (quoted (txt v)).
Definition oneRow (l : list text) : text := txt "{" ++ field (txt "DATA_SET") (txt "[{" ++ concat l ++ txt "}]") ++ txt "}".
Lemma last_row_incomplete :
  let r := fillFromJSON (oneRow [entry "UID" "FE1" ++ txt ","; entry "GROUP" "A"]) emptied in
  r.1 = Ok 0 /\ sourceColumnMissingCount_ r.2 = 0 /\ theDataView_ r.2 = [[txt "FE1"; txt "A"; []; txt "0"; []; txt "admin"; txt "0"]].
Proof. by vm_compute. Qed.
(** A view that has rows is not filled further. *)
Lemma filled_twice : (fillFromJSON (jsonOf stored) sample).1 = Throw RuntimeError.
Proof. by vm_compute. Qed.
(** A comma or a brace outside of any object reads before the path. *)
Lemma outside_object : fillFromJSON (txt ",") emptied = (Throw Undefined, startFill emptied) /\ (fillFromJSON (txt "}") emptied).1 = Throw Undefined.
Proof. by vm_compute. Qed.
End TableJSON.
