(* ===== verification/TableCSV.v ===== *)
(** * The CSV text of a table view

    [printCSV], [fillFromCSV], [fillFromEncodedCSV] and [setURIEncodedValue] of
    src/otsdaq/TableCore/TableView.cc.  [fillFromEncodedCSV] is how the web
    editor sends a table: cells encoded as URI components, each ended by a
    comma, rows ended by semicolons.  [fillFromCSV] is the import of a file.

    [now] is the clock.  The offsets are row numbers that are not negative, and
    the texts have less than 2^31 characters (positions are kept in an [int]).
    Traces are left out. *)

From S2P Require Import Prelude CText Versions StringMacros StringLists StringExpansion Doubles TableViewColumnInfo TableView TableRows TableInit.

Module TableCSV.
Import TableViewColumnInfo TableView TableRows TableInit.
Implicit Types v w : TableView.

Section CSV.
Variables (getenv : text -> option text) (systemVariables_ : gmap text (gmap text text)) (expansionFuel : nat).
Abbreviation getValueAsString := (getValueAsString getenv systemVariables_ expansionFuel).
Abbreviation init := (init getenv systemVariables_ expansionFuel).

(** ** Writing *)

Definition quoted (s : text) : text := doubleQuote :: s ++ [doubleQuote].
Fixpoint joined (delimiter : text) (l : list text) : text :=
  match l with [] => [] | [e] => e | e :: l => e ++ delimiter ++ joined delimiter l end.
Definition printRow v (valueDelimeter recordDelimeter : text) (r : nat) : result text :=
  cells ← mapM (fun c => val ← getEscapedValueAsString getenv systemVariables_ expansionFuel v r c false true; Ok (quoted val))
    (seq 0 (getNumberOfColumns v));
  Ok (joined valueDelimeter cells ++ recordDelimeter).
Definition printCSV v (valueDelimeter recordDelimeter : text) (includeColumnNames : bool) : result text :=
  special ← isSpecialTable v;
  if (special : bool) then Throw RuntimeError
  else
    rows ← mapM (printRow v valueDelimeter recordDelimeter) (seq 0 (getNumberOfRows v));
    Ok ((if includeColumnNames then joined valueDelimeter (map (fun ci => quoted (storageName_ ci)) (columnsInfo_ v)) ++ recordDelimeter else []) ++
        concat rows).

(** ** Reading a file *)

Variables (author : text) (now : Z).

(** The end of a row: a row of column names is taken out again, any other is
    stamped with author and time.  What is returned is the next row number. *)
Definition endRow (row col : nat) (currentValue : text) : M TableView nat :=
  setValueAsString (StringMacros.trim currentValue) row col ≫= fun _ =>
  v ← gets id;
  value ← lift (getValueAsString v row col true);
  ci ← lift (columnAt v col);
  if textEq value (storageName_ ci) then deleteRow row ≫= fun _ => mret row
  else stampRow author now row ≫= fun _ => mret (S row).
Definition endField (row col : nat) (currentValue : text) : M TableView unit :=
  rows ← gets getNumberOfRows;
  (if ((col =? 0) && (rows <=? row))%nat then addRow author now false [] None [] [] ≫= fun _ => mret tt else mret tt) ≫= fun _ =>
  setValueAsString (StringMacros.trim currentValue) row col.
(** The characters, with the row, the column, the value so far and whether the
    text is inside quotes. *)
Fixpoint csvLoop (rowDelimter colDelimter : ascii) (data : text) (row col : nat) (currentValue : text) (insideQuotes : bool) : M TableView (nat * nat * text) :=
  match data with
  | [] => mret (row, col, currentValue)
  | c :: rest =>
      if (c =? doubleQuote)%char then
        match rest with
        | nextChar :: rest' =>
            if insideQuotes && (nextChar =? doubleQuote)%char
            then csvLoop rowDelimter colDelimter rest' row col (currentValue ++ [doubleQuote]) insideQuotes
            else csvLoop rowDelimter colDelimter rest row col currentValue (negb insideQuotes)
        | [] => csvLoop rowDelimter colDelimter rest row col currentValue (negb insideQuotes)
        end
      else if (c =? rowDelimter)%char && negb insideQuotes then
        endField row col currentValue ≫= fun _ => csvLoop rowDelimter colDelimter rest row (S col) [] insideQuotes
      else if ((c =? colDelimter)%char || (c =? StringMacros.carriageReturn)%char) && negb insideQuotes then
        if (0 <? col)%nat
        then row ← endRow row col currentValue; csvLoop rowDelimter colDelimter rest row 0 [] insideQuotes
        else csvLoop rowDelimter colDelimter rest row col currentValue insideQuotes
      else csvLoop rowDelimter colDelimter rest row col (currentValue ++ [c]) insideQuotes
  end.
Definition fillFromCSV (data : text) (dataOffset : nat) (rowDelimter colDelimter : ascii) : M TableView unit :=
  '(row, col, currentValue) ← csvLoop rowDelimter colDelimter data dataOffset 0 [] false;
  (if (0 <? col)%nat then endRow row col currentValue ≫= fun _ => mret tt else mret tt) ≫= fun _ =>
  init.

(** ** The table editor *)

(** The environment is consulted for a number, though the result is not
    used. *)
Definition storeDecoded (ci : TableViewColumnInfo) (valueStr : text) (r c : nat) : M TableView unit :=
  if textEq (dataType_ ci) DATATYPE_NUMBER then
    lift (StringExpansion.convertEnvironmentVariables getenv systemVariables_ expansionFuel valueStr) ≫= fun _ => setCell r c valueStr
  else if textEq (dataType_ ci) DATATYPE_TIME then setTime (StringLists.strtol (c_str valueStr) 10) r c
  else setCell r c valueStr.
(** [stamp] is the author given to this function, not the one of the fill. *)
Definition setURIEncodedValue (value : text) (r c : nat) (stamp : text) : M TableView bool :=
  ok ← gets (fun v => requested v r c);
  if negb ok then throw RuntimeError
  else
    v ← gets id;
    valueStr ← lift (match StringMacros.decodeURIComponent value with Some s => Ok s | None => Throw Undefined end);
    originalValueStr ← lift (getValueAsString v r c false);
    ci ← lift (columnAt v c);
    storeDecoded ci valueStr r c ≫= fun _ =>
    newValueStr ← (fun v => lift (getValueAsString v r c false) v);
    let rowWasModified := negb (textEq originalValueStr newValueStr) in
    (if negb (textEq stamp []) && rowWasModified then stampRow stamp now r else mret tt) ≫= fun _ =>
    mret rowWasModified.
(** The parts of a text that a delimiter ends; what follows the last one is not
    looked at. *)
Fixpoint partsLoop (delimiter : ascii) (part s : text) : list text :=
  match s with
  | [] => []
  | c :: s => if (c =? delimiter)%char then part :: partsLoop delimiter [] s else partsLoop delimiter (part ++ [c]) s
  end.
Definition parts (delimiter : ascii) (s : text) : list text := partsLoop delimiter [] s.
(** The cells of a row; the last two columns are skipped. *)
Fixpoint cellsLoop (cells : list text) (r c : nat) (rowWasModified : bool) : M TableView bool :=
  match cells with
  | [] => mret rowWasModified
  | cell :: cells =>
      cols ← gets getNumberOfColumns;
      if (Z.of_nat cols - 2 <=? Z.of_nat c) then cellsLoop cells r (S c) rowWasModified
      else
        modified ← setURIEncodedValue cell r c [];
        cellsLoop cells r (S c) (rowWasModified || modified)
  end.
Definition encodedRow (r : nat) (data : text) : M TableView bool :=
  rows ← gets getNumberOfRows;
  added ← (if (rows <=? r)%nat then addDefaultRow ≫= fun _ => mret true else mret false);
  rowWasModified ← cellsLoop (parts (chr 44) data) r 0 added;
  (if negb (textEq author []) && rowWasModified then stampRow author now r else mret tt) ≫= fun _ =>
  mret rowWasModified.
(** The number of the row after the last one, and of modified rows. *)
Fixpoint encodedRows (data : list text) (r : nat) (countRowsModified : nat) : M TableView (nat * nat) :=
  match data with
  | [] => mret (r, countRowsModified)
  | row :: data =>
      rowWasModified ← encodedRow r row;
      encodedRows data (S r) (if (rowWasModified : bool) then S countRowsModified else countRowsModified)
  end.
Definition deleteExcess (r : nat) : M TableView nat :=
  rows ← gets getNumberOfRows;
  forEach (seq 0 (rows - r)) (fun _ => deleteRow r) ≫= fun _ =>
  mret (rows - r)%nat.
Definition columnsMatch v : bool :=
  (base.size (getColumnStorageNames v) =? base.size (sourceColumnNames_ v))%nat && bool_decide (getColumnStorageNames v ⊆ sourceColumnNames_ v).
Definition fillFromEncodedCSV (data : text) (dataOffset : nat) : M TableView Z :=
  '(r, countRowsModified) ← encodedRows (parts (chr 59) data) dataOffset 0;
  deleted ← deleteExcess r;
  v ← gets id;
  let same := (countRowsModified + deleted =? 0)%nat in
  if same && columnsMatch v then mret (-1)
  else
    modify (fun v => set_sourceNames v (getColumnStorageNames v)) ≫= fun _ =>
    init ≫= fun _ =>
    mret (if same then 1 else 0).
End CSV.

(** ** The file that is written is read back *)

Section RoundTrip.
Context (getenv : text -> option text) (systemVariables_ : gmap text (gmap text text)) (expansionFuel : nat) (author : text) (now : Z).
Abbreviation csvLoop := (csvLoop getenv systemVariables_ expansionFuel author now (chr 44) StringMacros.newline).
Abbreviation endRow := (endRow getenv systemVariables_ expansionFuel author now).
Abbreviation endField := (endField author now).
Abbreviation convert := (StringExpansion.convertEnvironmentVariables getenv systemVariables_ expansionFuel).

(** A value that the escapes of the writer leave alone, and the trimming. *)
Definition csvChar (c : ascii) : bool := negb (isOneOf [[StringMacros.newline]; [StringMacros.tab]; [StringMacros.carriageReturn]; [StringMacros.backslash]] [c]).
Definition csvValue (x : text) : bool := forallb csvChar x && textEq (StringMacros.trim x) x.
Definition doubled (x : text) : text := flat_map (escapeChar true) x.

Lemma csvChar_escape c : csvChar c = true -> escapeChar true c = if (c =? doubleQuote)%char then [doubleQuote; doubleQuote] else [c].
Proof.
  unfold csvChar, isOneOf. cbn [existsb]. rewrite negb_true_iff, !orb_false_iff, !textEq_false. intros (H1 & H2 & H3 & H4 & _). unfold escapeChar.
  destruct (Ascii.eqb_spec c StringMacros.newline) as [->|]; [done|]. destruct (Ascii.eqb_spec c StringMacros.tab) as [->|]; [done|].
  destruct (Ascii.eqb_spec c StringMacros.carriageReturn) as [->|]; [done|]. destruct (Ascii.eqb_spec c StringMacros.backslash) as [->|]; [done|].
  by destruct (Ascii.eqb_spec c doubleQuote) as [->|].
Qed.
(** Inside quotes every character but the closing quote is taken, two quotes
    for one. *)
Definition quoteFirst (s : text) : bool := match s with c :: _ => (c =? doubleQuote)%char | [] => false end.
Lemma csv_inside x : forall row col cv rest, forallb csvChar x = true -> quoteFirst rest = false ->
  csvLoop (doubled x ++ doubleQuote :: rest) row col cv true = csvLoop rest row col (cv ++ x) false.
Proof.
  induction x as [|c x IH]; intros row col cv rest Hx Hr.
  { cbn [doubled flat_map app]. rewrite app_nil_r. destruct rest as [|d rest]; [done|]. cbn [quoteFirst] in Hr. cbn [TableCSV.csvLoop]. rewrite Hr. done. }
  cbn [forallb] in Hx. apply andb_true_iff in Hx as [Hc Hx]. cbn [doubled flat_map]. rewrite (csvChar_escape c Hc).
  specialize (IH row col (cv ++ [c]) rest Hx Hr). rewrite <- app_assoc in IH. cbn [app] in IH. unfold doubled in IH.
  destruct (Ascii.eqb_spec c doubleQuote) as [->|Hne].
  - cbn [app TableCSV.csvLoop]. rewrite Ascii.eqb_refl. cbn [andb]. exact IH.
  - cbn [app TableCSV.csvLoop]. destruct (Ascii.eqb_spec c doubleQuote); [done|]. rewrite !andb_false_r. exact IH.
Qed.
Lemma csv_quoted x row col rest : forallb csvChar x = true -> quoteFirst rest = false ->
  csvLoop (quoted (doubled x) ++ rest) row col [] false = csvLoop rest row col x false.
Proof.
  intros Hx Hr. unfold quoted. change ((doubleQuote :: doubled x ++ [doubleQuote]) ++ rest) with (doubleQuote :: (doubled x ++ [doubleQuote]) ++ rest).
  rewrite <- app_assoc. cbn [app]. etransitivity; [|exact (csv_inside x row col [] rest Hx Hr)]. cbn [TableCSV.csvLoop]. rewrite Ascii.eqb_refl. cbn [andb negb].
  by destruct (doubled x ++ doubleQuote :: rest).
Qed.

(** *** The view that is filled *)

Context (w0 : TableView) (a t : nat).
Abbreviation noc := (getNumberOfColumns w0).
(** The time of the row is in the last column. *)
Record importable : Prop := {
  importable_columns : (1 < noc)%nat;
  importable_defaults : length (rowDefaultValues_ w0) = noc;
  importable_author : findColByType w0 TYPE_AUTHOR 0 = Some a;
  importable_time : findColByType w0 TYPE_TIMESTAMP 0 = Some t;
  importable_authorType : hasType w0 a (fun ty => textEq ty DATATYPE_STRING);
  importable_timeType : hasType w0 t (fun ty => textEq ty DATATYPE_NUMBER || textEq ty DATATYPE_TIME);
  importable_last : exists ci, columnsInfo_ w0 !! (noc - 1)%nat = Some ci /\ type_ ci = TYPE_TIMESTAMP;
}.
Context (ok : importable).
Definition stamped (row : list text) : list text := <[t := to_string_signed now]> (<[a := author]> row).
Definition partialRow (c : nat) (vals : list text) : list (list text) :=
  match c with O => [] | _ => [take c vals ++ drop c (newRow w0 author now)] end.
Definition filled (d : list (list text)) (c : nat) (vals : list text) : TableView := set_data w0 (d ++ partialRow c vals).
Definition rowsFit (d : list (list text)) : Prop := Forall (fun r => length r = noc) d.

Lemma partial_last (c : nat) vals x : (c < noc)%nat -> length vals = noc -> vals !! c = Some x ->
  <[c := x]> (take c vals ++ drop c (newRow w0 author now)) = take (S c) vals ++ drop (S c) (newRow w0 author now).
Proof.
  intros Hc Hl Hx. assert (Hlt : (length (take c vals) = c)%nat) by (rewrite length_take; lia).
  rewrite insert_app_r_alt by lia. rewrite Hlt, Nat.sub_diag. rewrite (take_S_r _ _ x Hx), <- app_assoc. f_equal.
  pose proof (newRow_length w0 author now (importable_defaults ok)) as Hn.
  destruct (drop c (newRow w0 author now)) as [|y l] eqn:Hd; [apply (f_equal length) in Hd; rewrite length_drop in Hd; cbn in Hd; lia|].
  cbn. f_equal. rewrite <- Nat.add_1_r, <- drop_drop, Hd. done.
Qed.
Lemma stampable_importable : stampable w0 author.
Proof. intros _. exists a, t. split_and!; apply ok. Qed.
Lemma addRow_filled d vals : rowsFit d -> addRow author now false [] None [] [] (filled d 0 vals) = (Ok (length d), set_data w0 (d ++ [newRow w0 author now])).
Proof.
  intros Hd. unfold filled. cbn [partialRow]. rewrite app_nil_r.
  rewrite (addRow_spec author now [] None [] [] (set_data w0 d)); [|exact Hd|apply ok|cbn; unfold getNumberOfRows; lia|exact stampable_importable].
  unfold insertRows. cbn [default theDataView_ set_data]. unfold getNumberOfRows. cbn [theDataView_ set_data]. rewrite (take_ge d), (drop_ge d) by done. done.
Qed.
(** A value is put into the row in work. *)
Lemma setValue_open d row c x : (c < noc)%nat -> length row = noc ->
  setValueAsString x (length d) c (set_data w0 (d ++ [row])) = (Ok tt, set_data w0 (d ++ [<[c := x]> row])).
Proof.
  intros Hc Hl. unfold setValueAsString. rewrite (bind_ok (gets _) _ _ true (set_data w0 (d ++ [row]))).
  2: { unfold gets, requested. change (getNumberOfColumns (set_data w0 (d ++ [row]))) with noc. unfold getNumberOfRows. cbn [theDataView_ set_data].
       rewrite length_app. cbn [length]. rewrite !(proj2 (Nat.ltb_lt _ _)) by lia. done. }
  cbn [negb]. unfold setCell, inView. cbn [theDataView_ set_data]. rewrite list_lookup_middle by done. rewrite (proj2 (Nat.ltb_lt _ _)) by lia.
  unfold putCell. cbn [theDataView_ set_data]. by rewrite alter_snoc.
Qed.
Lemma open_length c vals : (c <= noc)%nat -> length vals = noc -> length (take c vals ++ drop c (newRow w0 author now)) = noc.
Proof. intros Hc Hl. pose proof (newRow_length w0 author now (importable_defaults ok)). rewrite length_app, length_take, length_drop. lia. Qed.
Lemma endField_run d c vals x : rowsFit d -> length vals = noc -> (c < noc)%nat -> vals !! c = Some x -> StringMacros.trim x = x ->
  endField (length d) c x (filled d c vals) = (Ok tt, filled d (S c) vals).
Proof.
  intros Hd Hl Hc Hx Ht. unfold TableCSV.endField. rewrite (bind_ok (gets _) _ _ _ _ eq_refl).
  assert (Hopen : (if ((c =? 0) && (getNumberOfRows (filled d c vals) <=? length d))%nat then addRow author now false [] None [] [] ≫= fun _ => mret tt else mret tt) (filled d c vals)
    = (Ok tt, set_data w0 (d ++ [take c vals ++ drop c (newRow w0 author now)]))).
  { destruct c as [|c]; [|done]. unfold getNumberOfRows. unfold filled at 1. cbn [partialRow Nat.eqb theDataView_ set_data andb]. rewrite app_nil_r, Nat.leb_refl.
    by rewrite (bind_ok (addRow _ _ _ _ _ _ _) _ _ _ _ (addRow_filled d vals Hd)). }
  rewrite (bind_ok _ _ _ tt _ Hopen), Ht. rewrite setValue_open by (done || (apply open_length; lia || done)).
  unfold filled. cbn [partialRow]. by rewrite (partial_last c vals x).
Qed.
(** The last value of a row: a line of column names leaves the view as it was. *)
Lemma endRow_run d c vals x ci : rowsFit d -> length vals = noc -> S c = noc -> (0 < c)%nat -> vals !! c = Some x -> StringMacros.trim x = x ->
  columnsInfo_ w0 !! c = Some ci -> convert x = Ok x ->
  endRow (length d) c x (filled d c vals) =
    if textEq x (storageName_ ci) then (Ok (length d), filled d 0 []) else (Ok (length (d ++ [stamped vals])), filled (d ++ [stamped vals]) 0 []).
Proof.
  intros Hd Hl Hc Hpos Hx Ht Hci Hconv. unfold TableCSV.endRow. rewrite Ht.
  assert (Hset : setValueAsString x (length d) c (filled d c vals) = (Ok tt, set_data w0 (d ++ [vals]))).
  { destruct c as [|c]; [lia|]. unfold filled. cbn [partialRow]. rewrite setValue_open by (lia || (apply open_length; lia || done)).
    rewrite (partial_last (S c) vals x) by (done || lia). rewrite Hc, take_ge by lia. pose proof (newRow_length w0 author now (importable_defaults ok)).
    rewrite drop_ge by lia. by rewrite app_nil_r. }
  rewrite (bind_ok (setValueAsString _ _ _) _ _ tt _ Hset). set (w := set_data w0 (d ++ [vals])). rewrite (bind_ok (gets id) _ w w w) by done. unfold id.
  assert (Hrow : theDataView_ w !! length d = Some vals) by (by apply list_lookup_middle).
  assert (Hval : TableView.getValueAsString getenv systemVariables_ expansionFuel w (length d) c true = Ok x).
  { unfold TableView.getValueAsString, requested, columnAt, cell. change (getNumberOfColumns w) with noc. change (columnsInfo_ w) with (columnsInfo_ w0).
    pose proof (lookup_lt_Some _ _ _ Hrow) as Hlt. unfold getNumberOfRows. rewrite Hci, Hrow, Hx. rewrite !(proj2 (Nat.ltb_lt _ _)) by lia. cbn [andb negb mbind result_bind].
    destruct (importable_last ok) as (ci' & Hci' & Hty). replace (noc - 1)%nat with c in Hci' by lia. rewrite Hci in Hci'. injection Hci' as <-. rewrite Hty. exact Hconv. }
  rewrite Hval, (bind_ok (lift _) _ w x w) by done. unfold columnAt. change (columnsInfo_ w) with (columnsInfo_ w0). rewrite Hci, (bind_ok (lift _) _ w ci w) by done.
  destruct (textEq x (storageName_ ci)).
  - assert (Hdel : deleteRow (length d) w = (Ok tt, set_data w0 d)).
    { unfold deleteRow, getNumberOfRows. cbn [theDataView_ w set_data]. rewrite length_app. cbn [length]. rewrite (proj2 (Nat.leb_gt _ _)) by lia.
      change (set_data w ?x) with (set_data w0 x). by rewrite delete_middle, app_nil_r. }
    rewrite (bind_ok (deleteRow _) _ w tt _ Hdel). unfold filled. cbn [partialRow]. by rewrite app_nil_r.
  - assert (Hst : stampRow author now (length d) w = (Ok tt, set_data w0 (d ++ [stamped vals]))).
    { rewrite (stampRow_put author now (length d) w vals a t Hrow Hl); try apply ok. change (set_data w ?x) with (set_data w0 x). cbn [theDataView_ w set_data].
      do 2 f_equal. rewrite insert_app_r_alt by lia. by rewrite Nat.sub_diag. }
    rewrite (bind_ok (stampRow _ _ _) _ w tt _ Hst). unfold filled. cbn [partialRow]. rewrite app_nil_r, length_app. cbn [length]. by rewrite Nat.add_1_r.
Qed.

(** *** Rows and the whole text *)

Definition field (x : text) : text := quoted (doubled x).
Definition rowText (vals : list text) : text := joined (txt ",") (map field vals) ++ [StringMacros.newline].
Lemma fields_run m : forall c d vals rest, (c + S m = noc)%nat -> (0 < c + m)%nat -> rowsFit d -> length vals = noc -> forallb csvValue vals = true ->
  exists x, vals !! (c + m)%nat = Some x /\
  csvLoop (joined (txt ",") (map field (drop c vals)) ++ StringMacros.newline :: rest) (length d) c [] false (filled d c vals) =
    (r ← endRow (length d) (c + m) x; csvLoop rest r 0 [] false) (filled d (c + m) vals).
Proof.
  induction m as [|m IH]; intros c d vals rest Hc Hpos Hd Hl Hv.
  - destruct (lookup_lt_is_Some_2 vals c) as [x Hx]; [lia|]. exists x. rewrite Nat.add_0_r in *. split; [done|].
    assert (Hvx : csvValue x = true) by (rewrite forallb_forall in Hv; by apply Hv, list_elem_of_In, (list_elem_of_lookup_2 vals c)).
    apply andb_true_iff in Hvx as [Hvx _]. rewrite (drop_S vals x c Hx), drop_ge by lia. cbn [map joined]. unfold field. rewrite csv_quoted by done.
    cbn [TableCSV.csvLoop]. change (StringMacros.newline =? doubleQuote)%char with false. change (StringMacros.newline =? chr 44)%char with false.
    rewrite Ascii.eqb_refl. cbn [andb orb negb]. rewrite (proj2 (Nat.ltb_lt _ _)) by lia. done.
  - destruct (lookup_lt_is_Some_2 vals c) as [x Hx]; [lia|]. assert (Hvx : csvValue x = true) by (rewrite forallb_forall in Hv; by apply Hv, list_elem_of_In, (list_elem_of_lookup_2 vals c)).
    apply andb_true_iff in Hvx as [Hvx Htr%textEq_spec]. destruct (IH (S c) d vals rest ltac:(lia) ltac:(lia) Hd Hl Hv) as (y & Hy & E). replace (S c + m)%nat with (c + S m)%nat in Hy, E by lia.
    exists y. split; [done|]. rewrite (drop_S vals x c Hx). destruct (lookup_lt_is_Some_2 vals (S c)) as [z Hz]; [lia|].
    rewrite (drop_S vals z (S c) Hz) in *. cbn [map joined] in *. change (txt ",") with [chr 44] in *. unfold field in *. rewrite <- !app_assoc. rewrite csv_quoted by done.
    cbn [app TableCSV.csvLoop]. change (chr 44 =? doubleQuote)%char with false. rewrite Ascii.eqb_refl. cbn [andb negb].
    rewrite (bind_ok (endField _ _ _) _ _ tt _ (endField_run d c vals x Hd Hl ltac:(lia) Hx Htr)). by rewrite <- E.
Qed.
Definition lastName : text := match columnsInfo_ w0 !! (noc - 1)%nat with Some ci => storageName_ ci | None => [] end.
Lemma row_run d vals rest : rowsFit d -> length vals = noc -> forallb csvValue vals = true -> convert (nth (noc - 1) vals []) = Ok (nth (noc - 1) vals []) ->
  csvLoop (rowText vals ++ rest) (length d) 0 [] false (filled d 0 []) =
    let d' := if textEq (nth (noc - 1) vals []) lastName then d else d ++ [stamped vals] in csvLoop rest (length d') 0 [] false (filled d' 0 []).
Proof.
  intros Hd Hl Hv Hconv. pose proof (importable_columns ok) as Hn. unfold rowText. rewrite <- app_assoc. cbn [app].
  destruct (fields_run (noc - 1) 0 d vals rest ltac:(lia) ltac:(lia) Hd Hl Hv) as (x & Hx & E). rewrite drop_0 in E. cbn [Nat.add] in *. change (filled d 0 []) with (filled d 0 vals). rewrite E.
  rewrite (nth_lookup_Some _ _ [] _ Hx) in *. destruct (importable_last ok) as (ci & Hci & _). unfold lastName. rewrite Hci.
  assert (Hvx : csvValue x = true) by (rewrite forallb_forall in Hv; by eapply Hv, list_elem_of_In, list_elem_of_lookup_2). apply andb_true_iff in Hvx as [_ Htr%textEq_spec].
  unfold mbind, M_bind. rewrite (endRow_run d (noc - 1) vals x ci Hd Hl ltac:(lia) ltac:(lia) Hx Htr Hci Hconv). by destruct (textEq x (storageName_ ci)).
Qed.
Lemma stamped_length row : length (stamped row) = length row.
Proof. unfold stamped. by rewrite !length_insert. Qed.
(** A row of the file is a value for every column, and its last value is no
    column name. *)
Definition rowOK (vals : list text) : Prop :=
  length vals = noc /\ forallb csvValue vals = true /\ convert (nth (noc - 1) vals []) = Ok (nth (noc - 1) vals []) /\ nth (noc - 1) vals [] <> lastName.
Lemma rows_run rows : forall d, rowsFit d -> Forall rowOK rows ->
  csvLoop (concat (map rowText rows)) (length d) 0 [] false (filled d 0 []) = (Ok (length (d ++ map stamped rows), 0%nat, []), filled (d ++ map stamped rows) 0 []).
Proof.
  induction rows as [|vals rows IH]; intros d Hd Hr; [cbn [map concat]; by rewrite app_nil_r|]. apply Forall_cons in Hr as [(Hl & Hv & Hconv & Hne) Hr].
  cbn [map concat]. rewrite row_run by done. rewrite (textEq_neq _ _ Hne). cbn zeta. rewrite IH; [by rewrite <- app_assoc| |done].
  unfold rowsFit. apply Forall_app. split; [done|]. apply Forall_singleton. by rewrite stamped_length.
Qed.

Abbreviation printCSV := (printCSV getenv systemVariables_ expansionFuel).
Definition nameOK (x : text) : bool := csvValue x && forallb (fun c => negb (c =? doubleQuote)%char) x.
Lemma doubled_name x : nameOK x = true -> doubled x = x.
Proof.
  unfold nameOK, csvValue. intros [[Hc _]%andb_true_iff Hq]%andb_true_iff. induction x as [|c x IH]; [done|]. cbn [forallb] in Hc, Hq.
  apply andb_true_iff in Hc as [Hc Hcs]. apply andb_true_iff in Hq as [Hq Hqs]. unfold doubled in *. cbn [flat_map]. rewrite (csvChar_escape c Hc), IH by done.
  by destruct (c =? doubleQuote)%char.
Qed.
Definition headerRow v : list text := map storageName_ (columnsInfo_ v).
Lemma csvRow_text v r row : theDataView_ v !! r = Some row -> length row = getNumberOfColumns v ->
  printRow getenv systemVariables_ expansionFuel v (txt ",") [StringMacros.newline] r = Ok (rowText (shownRow v row)).
Proof.
  intros Hr Hl. unfold printRow. pose proof (lookup_lt_Some _ _ _ Hr) as Hlr.
  rewrite (mapM_ok _ (fun c => field (nth c (shownRow v row) []))).
  - cbn [mbind result_bind]. unfold rowText. do 3 f_equal. rewrite <- (map_map (fun c => nth c (shownRow v row) []) field). f_equal. apply map_seq_lookup.
    unfold shownRow. rewrite length_zip_with. unfold getNumberOfColumns in *. lia.
  - intros c Hc%elem_of_seq. destruct (lookup_lt_is_Some_2 (columnsInfo_ v) c) as [ci Hci]; [unfold getNumberOfColumns in Hc; lia|].
    destruct (lookup_lt_is_Some_2 row c) as [x Hx]; [lia|]. unfold getEscapedValueAsString, TableView.getValueAsString, requested, columnAt, cell.
    rewrite Hci, Hr, Hx. unfold getNumberOfRows. rewrite !(proj2 (Nat.ltb_lt _ _)) by lia. cbn [andb negb mbind result_bind].
    assert (Hs : nth c (shownRow v row) [] = shown ci x).
    { apply nth_lookup_Some. unfold shownRow. rewrite lookup_zip_with, Hci, Hx. done. }
    rewrite Hs. unfold shown. by destruct (boolText (type_ ci) x).
Qed.
Lemma printCSV_text v header : isSpecialTable v = Ok false -> rectangular v -> (header = true -> forallb nameOK (headerRow v) = true) ->
  printCSV v (txt ",") [StringMacros.newline] header = Ok ((if header then rowText (headerRow v) else []) ++ concat (map rowText (shownData v))).
Proof.
  intros Hs Hr Hh. unfold TableCSV.printCSV. rewrite Hs. cbn [mbind result_bind]. unfold rectangular in Hr. rewrite Forall_forall in Hr.
  rewrite (mapM_ok _ (fun r => rowText (shownRow v (nth r (theDataView_ v) [])))).
  2: { intros r Hin%elem_of_seq. destruct (lookup_lt_is_Some_2 (theDataView_ v) r) as [row Hrow]; [unfold getNumberOfRows in Hin; lia|].
       rewrite (nth_lookup_Some _ _ _ _ Hrow). apply csvRow_text; [done|]. apply Hr. by eapply list_elem_of_lookup_2. }
  cbn [mbind result_bind]. f_equal. f_equal.
  - destruct header; [|done]. unfold rowText, headerRow. rewrite map_map. do 2 f_equal. apply map_ext_in. intros ci Hci. unfold field. rewrite doubled_name; [done|].
    specialize (Hh eq_refl). rewrite forallb_forall in Hh. apply Hh. by apply in_map.
  - f_equal. unfold shownData. rewrite map_map. rewrite <- (map_map (fun r => nth r (theDataView_ v) []) (fun row => rowText (shownRow v row))). by rewrite map_seq_lookup.
Qed.

(** C30: A file written by [printCSV], with a line of column names or without, is
    read into an empty view of the same columns with every value, and author
    and time of the import; what is left is the verification of the view. *)
Theorem fillFromCSV_printCSV v (header : bool) csv :
  isSpecialTable v = Ok false -> rectangular v -> columnsInfo_ w0 = columnsInfo_ v -> theDataView_ w0 = [] -> Forall rowOK (shownData v) ->
  (header = true -> forallb nameOK (headerRow v) = true /\ convert lastName = Ok lastName) ->
  printCSV v (txt ",") [StringMacros.newline] header = Ok csv ->
  fillFromCSV getenv systemVariables_ expansionFuel author now csv 0 (chr 44) StringMacros.newline w0 =
    init getenv systemVariables_ expansionFuel (set_data w0 (map stamped (shownData v))).
Proof.
  intros Hs Hr Hcols Hempty Hrows Hh Hp. rewrite (printCSV_text v header Hs Hr) in Hp by (intros H; by apply Hh). injection Hp as <-.
  assert (Hw : filled [] 0 [] = w0) by (unfold filled; cbn; destruct w0; cbn in *; by subst).
  assert (Hrun : csvLoop ((if header then rowText (headerRow v) else []) ++ concat (map rowText (shownData v))) 0 0 [] false w0 =
    (Ok (length (map stamped (shownData v)), 0%nat, []), set_data w0 (map stamped (shownData v)))).
  { pose proof (rows_run (shownData v) [] (Forall_nil_2 _) Hrows) as E. cbn [app length] in E.
    assert (Hf : filled (map stamped (shownData v)) 0 [] = set_data w0 (map stamped (shownData v))) by (unfold filled; cbn [partialRow]; by rewrite app_nil_r).
    rewrite Hf, Hw in E. destruct header; [|exact E]. destruct (Hh eq_refl) as [Hn Hconv].
    assert (Hlast : nth (noc - 1) (headerRow v) [] = lastName).
    { unfold lastName. destruct (importable_last ok) as (ci & Hci & _). rewrite Hci. apply nth_lookup_Some. unfold headerRow. rewrite map_lookup, <- Hcols, Hci. done. }
    assert (Hv : forallb csvValue (headerRow v) = true) by (apply forallb_forall; intros x Hx; rewrite forallb_forall in Hn; apply Hn in Hx; unfold nameOK in Hx; by apply andb_true_iff in Hx as [Hx _]).
    pose proof (row_run [] (headerRow v) (concat (map rowText (shownData v))) (Forall_nil_2 _)) as Er. rewrite Hlast, textEq_refl, Hw in Er. cbn [length] in Er. cbn zeta in Er.
    rewrite Er; [rewrite Hw; exact E| |exact Hv|exact Hconv]. unfold headerRow. rewrite length_map, <- Hcols. done. }
  unfold fillFromCSV. by rewrite (bind_ok _ _ w0 _ _ Hrun).
Qed.
End RoundTrip.

(** ** Runs *)

Definition noEnvironment (_ : text) : option text := None.
Definition emptied : TableView := set_data sample [].
Definition csvOf v (header : bool) : text :=
  match printCSV noEnvironment ∅ 100 v (txt ",") [StringMacros.newline] header with Ok csv => csv | Throw _ => [] end.
Definition spelled : TableView :=
  set_data sample [sampleRow "FE1" "A | B" "P,{}:[1];" "7"; [txt "FE2"; txt "a " ++ [doubleQuote] ++ txt "b, c" ++ [doubleQuote; doubleQuote]; []; txt "0"; txt "none"; txt "eve"; txt "17"]].
Lemma sample_importable : importable emptied 5 6.
Proof.
  constructor; try done; try (cbn; lia); try (by vm_compute); by eexists.
Qed.
Lemma fillFromCSV_printCSV_witness :
  fillFromCSV noEnvironment ∅ 100 (txt "ann") 77 (csvOf spelled true) 0 (chr 44) StringMacros.newline emptied =
    init noEnvironment ∅ 100 (set_data emptied (map (stamped (txt "ann") 77 5 6) (shownData spelled))) /\
  (init noEnvironment ∅ 100 (set_data emptied (map (stamped (txt "ann") 77 5 6) (shownData spelled)))).1 = Ok tt /\
  map (fun row => nth 1 row []) (map (stamped (txt "ann") 77 5 6) (shownData spelled)) = map (fun row => nth 1 row []) (theDataView_ spelled).
Proof.
  split; [|by vm_compute]. destruct (printCSV noEnvironment ∅ 100 spelled (txt ",") [StringMacros.newline] true) as [csv|] eqn:E; [|by vm_compute in E].
  assert (Ec : csvOf spelled true = csv) by (unfold csvOf; by rewrite E). rewrite Ec.
  apply (fillFromCSV_printCSV noEnvironment ∅ 100 (txt "ann") 77 emptied 5 6 sample_importable spelled true csv); [| |reflexivity|reflexivity| | |exact E].
  - by vm_compute.
  - apply Forall_forall. intros row Hrow. assert (B : forallb (fun row => length row =? getNumberOfColumns spelled)%nat (theDataView_ spelled) = true) by by vm_compute.
    rewrite forallb_forall in B. apply list_elem_of_In in Hrow. by apply Nat.eqb_eq, B.
  - assert (B : forallb (fun vals => (length vals =? 7)%nat && forallb csvValue vals &&
      match StringExpansion.convertEnvironmentVariables noEnvironment ∅ 100 (nth 6 vals []) with Ok x => textEq x (nth 6 vals []) | _ => false end &&
      negb (textEq (nth 6 vals []) (txt "TIME"))) (shownData spelled) = true) by by vm_compute.
    rewrite forallb_forall in B. apply Forall_forall. intros vals Hin%list_elem_of_In. apply B in Hin. rewrite !andb_true_iff, negb_true_iff, textEq_false in Hin.
    destruct Hin as [[[H1%Nat.eqb_eq H2] H3] H4]. split; [done|]. split; [done|]. split; [|done]. change (getNumberOfColumns emptied - 1)%nat with 6%nat.
    destruct (StringExpansion.convertEnvironmentVariables _ _ _ _); [|done]. by apply textEq_spec in H3 as ->.
  - intros _. split; by vm_compute.
Defined.
(** The writer escapes line ends and backslashes as for JSON, the reader of CSV
    does not undo it; blanks at the ends of a quoted value are removed. *)
Definition altered : TableView :=
  set_data sample [[txt "FE1"; txt "a" ++ [StringMacros.newline] ++ txt "b"; txt "C:\x"; txt "0"; txt "  none "; txt "eve"; txt "17"]].
Lemma csv_altered_values :
  map (fun row => take 5 row) (theDataView_ (fillFromCSV noEnvironment ∅ 100 (txt "ann") 77 (csvOf altered false) 0 (chr 44) StringMacros.newline emptied).2) =
  [[txt "FE1"; txt "a\nb"; txt "C:\\x"; txt "0"; txt "none"]].
Proof. by vm_compute. Qed.
(** A line without a comma is not a row, and its text becomes the beginning of
    the next row. *)
Lemma line_without_comma :
  map (fun row => take 2 row) (theDataView_ (fillFromCSV noEnvironment ∅ 100 (txt "ann") 77
    (txt "title" ++ [StringMacros.newline] ++ txt "FE1,A,P,0,none,eve,17" ++ [StringMacros.newline]) 0 (chr 44) StringMacros.newline emptied).2) = [[txt "titleFE1"; txt "A"]].
Proof. by vm_compute. Qed.

(** ** The table of the editor *)

Lemma partsLoop_part d part s rest : forallb (fun c => negb (c =? d)%char) s = true -> partsLoop d part (s ++ d :: rest) = (part ++ s) :: partsLoop d [] rest.
Proof.
  revert part. induction s as [|c s IH]; intros part Hs; cbn [app partsLoop]; [by rewrite Ascii.eqb_refl, app_nil_r|]. cbn [forallb] in Hs.
  apply andb_true_iff in Hs as [Hc%negb_true_iff Hs]. rewrite Hc, IH by done. by rewrite <- app_assoc.
Qed.
Lemma parts_concat d (l : list text) : Forall (fun s => forallb (fun c => negb (c =? d)%char) s = true) l -> parts d (concat (map (fun s => s ++ [d]) l)) = l.
Proof.
  unfold parts. induction 1 as [|s l Hs _ IH]; [done|]. cbn [map concat]. rewrite <- app_assoc. cbn [app]. rewrite partsLoop_part by done. by rewrite IH.
Qed.
Definition encodedCells (xs : list text) : text := concat (map (fun s => s ++ [chr 44]) (map StringMacros.encodeURIComponent xs)).
Definition encodedTable (rows : list (list text)) : text := concat (map (fun s => s ++ [chr 59]) (map encodedCells rows)).
Lemma parts_cells xs : parts (chr 44) (encodedCells xs) = map StringMacros.encodeURIComponent xs.
Proof. apply parts_concat. apply Forall_forall. intros s (x & -> & _)%list_elem_of_fmap. apply StringMacros.encoded_clean. by left. Qed.
Lemma parts_table rows : parts (chr 59) (encodedTable rows) = map encodedCells rows.
Proof.
  apply parts_concat. apply Forall_forall. intros s (xs & -> & _)%list_elem_of_fmap. unfold encodedCells. rewrite map_map.
  induction xs as [|x xs IH]; [done|]. cbn [map concat]. rewrite !forallb_app, IH, (StringMacros.encoded_clean (chr 59) x) by by right. done.
Qed.

Section Editing.
Context (getenv : text -> option text) (systemVariables_ : gmap text (gmap text text)) (expansionFuel : nat) (author : text) (now : Z).
Context (w0 : TableView) (a t : nat).
Abbreviation noc := (getNumberOfColumns w0).
Abbreviation cols := (columnsInfo_ w0).
Abbreviation convert := (StringExpansion.convertEnvironmentVariables getenv systemVariables_ expansionFuel).

(** What is stored for a value that is sent: a time as its number. *)
Definition storedValue (ci : TableViewColumnInfo) (x : text) : text :=
  if textEq (dataType_ ci) DATATYPE_NUMBER then x
  else if textEq (dataType_ ci) DATATYPE_TIME then to_string_signed (StringLists.strtol (c_str x) 10) else x.
(** A row after the cells [xs] are sent: author and time stay. *)
Definition editRow (old xs : list text) : list text := take (noc - 2) (zip_with storedValue cols xs) ++ drop (noc - 2) old.
Definition differs (old new : list text) : bool := negb (bool_decide (shownRow w0 old = shownRow w0 new)).
Definition stampedRow (row : list text) : list text :=
  if textEq author [] then row else <[t := to_string_signed now]> (<[a := author]> row).
Definition editedRow (old xs : list text) : list text := let new := editRow old xs in if differs old new then stampedRow new else new.
Definition addedRow (xs : list text) : list text := stampedRow (editRow (rowDefaultValues_ w0) xs).

(** The cells that come fit the table: as many as columns, and a number may
    refer to variables that exist. *)
Definition sendable (xs : list text) : Prop :=
  length xs = noc /\ forall c ci x, (c < noc - 2)%nat -> cols !! c = Some ci -> xs !! c = Some x -> textEq (dataType_ ci) DATATYPE_NUMBER = true -> is_ok (convert x) = true.
Record editable : Prop := {
  editable_columns : (2 <= noc)%nat;
  editable_defaults : length (rowDefaultValues_ w0) = noc;
  editable_author : findColByType w0 TYPE_AUTHOR 0 = Some a;
  editable_time : findColByType w0 TYPE_TIMESTAMP 0 = Some t;
  editable_authorType : hasType w0 a (fun ty => textEq ty DATATYPE_STRING);
  editable_timeType : hasType w0 t (fun ty => textEq ty DATATYPE_NUMBER || textEq ty DATATYPE_TIME);
}.
Context (ok : editable).

Lemma value_shown w r c row ci x : columnsInfo_ w = cols -> theDataView_ w !! r = Some row -> cols !! c = Some ci -> row !! c = Some x ->
  TableView.getValueAsString getenv systemVariables_ expansionFuel w r c false = Ok (shown ci x).
Proof.
  intros Hw Hr Hci Hx. pose proof (lookup_lt_Some _ _ _ Hr) as Hlr. pose proof (lookup_lt_Some _ _ _ Hci) as Hlc.
  unfold TableView.getValueAsString, requested, columnAt, cell, getNumberOfRows, getNumberOfColumns. rewrite Hw, Hr, Hci, Hx, !(proj2 (Nat.ltb_lt _ _)) by lia.
  cbn [andb negb mbind result_bind]. unfold shown. by destruct (boolText (type_ ci) x).
Qed.
Lemma storeDecoded_run ci x r c w row : columnsInfo_ w = cols -> theDataView_ w !! r = Some row -> length row = noc -> cols !! c = Some ci ->
  (textEq (dataType_ ci) DATATYPE_NUMBER = true -> is_ok (convert x) = true) ->
  storeDecoded getenv systemVariables_ expansionFuel ci x r c w = (Ok tt, set_data w (<[r := <[c := storedValue ci x]> row]> (theDataView_ w))).
Proof.
  intros Hw Hr Hl Hci Hn. pose proof (lookup_lt_Some _ _ _ Hci) as Hlc. unfold getNumberOfColumns in Hl. unfold storeDecoded, storedValue.
  assert (Hset : forall y, setCell r c y w = (Ok tt, set_data w (<[r := <[c := y]> row]> (theDataView_ w)))).
  { intros y. unfold setCell, inView. rewrite Hr, (proj2 (Nat.ltb_lt _ _)) by lia. by rewrite (putCell_put w r c y row Hr). }
  destruct (textEq (dataType_ ci) DATATYPE_NUMBER) eqn:En.
  - specialize (Hn eq_refl). destruct (convert x) as [y|] eqn:Ec; [|done]. rewrite (bind_ok (lift _) _ w y w) by done. apply Hset.
  - destruct (textEq (dataType_ ci) DATATYPE_TIME) eqn:Et; [|apply Hset]. unfold setTime.
    rewrite (setChecked_ok _ _ r c w row Hr); [by rewrite (putCell_put w r c _ row Hr)|unfold getNumberOfColumns; by rewrite Hw|].
    exists ci. rewrite Hw. split; [done|]. by rewrite Et, orb_true_r.
Qed.
Lemma setURIEncodedValue_run ci x y r c w row : columnsInfo_ w = cols -> theDataView_ w !! r = Some row -> length row = noc -> cols !! c = Some ci -> row !! c = Some y ->
  (textEq (dataType_ ci) DATATYPE_NUMBER = true -> is_ok (convert x) = true) ->
  setURIEncodedValue getenv systemVariables_ expansionFuel now (StringMacros.encodeURIComponent x) r c [] w =
    (Ok (negb (textEq (shown ci y) (shown ci (storedValue ci x)))), set_data w (<[r := <[c := storedValue ci x]> row]> (theDataView_ w))).
Proof.
  intros Hw Hr Hl Hci Hy Hn. pose proof (lookup_lt_Some _ _ _ Hci) as Hlc. pose proof (lookup_lt_Some _ _ _ Hr) as Hlr. unfold setURIEncodedValue.
  rewrite (bind_ok (gets _) _ w true w).
  2: { unfold gets, requested, getNumberOfRows, getNumberOfColumns. rewrite Hw, !(proj2 (Nat.ltb_lt _ _)) by lia. done. }
  cbn [negb]. rewrite (bind_ok (gets id) _ w w w) by done. unfold id. rewrite StringMacros.decode_encode_URIComponent. rewrite (bind_ok (lift _) _ w x w) by done.
  rewrite (value_shown w r c row ci y) by done. rewrite (bind_ok (lift _) _ w (shown ci y) w) by done.
  unfold columnAt at 1. rewrite Hw, Hci, (bind_ok (lift _) _ w ci w) by done.
  rewrite (bind_ok (storeDecoded _ _ _ _ _ _ _) _ w tt _ (storeDecoded_run ci x r c w row Hw Hr Hl Hci Hn)). set (w1 := set_data w _).
  assert (Hr1 : theDataView_ w1 !! r = Some (<[c := storedValue ci x]> row)) by (cbn; by apply list_lookup_insert_eq).
  rewrite (bind_ok (fun v => lift _ v) _ w1 (shown ci (storedValue ci x)) w1).
  2: { unfold lift. rewrite (value_shown w1 r c (<[c := storedValue ci x]> row) ci (storedValue ci x)); [done|done|done|done|].
       apply list_lookup_insert_eq. unfold getNumberOfColumns in Hl. lia. }
  done.
Qed.

(** *** A row *)

Definition cellDiffers (old xs : list text) (c : nat) : bool :=
  match cols !! c, old !! c, xs !! c with
  | Some ci, Some y, Some x => negb (textEq (shown ci y) (shown ci (storedValue ci x)))
  | _, _, _ => false
  end.
Definition rowAt (k : nat) (old xs : list text) : list text := take k (zip_with storedValue cols xs) ++ drop k old.
Lemma stored_lookup xs c ci x : cols !! c = Some ci -> xs !! c = Some x -> zip_with storedValue cols xs !! c = Some (storedValue ci x).
Proof. intros Hci Hx. by rewrite lookup_zip_with, Hci, Hx. Qed.
Lemma rowAt_length k old xs : (k <= noc)%nat -> length old = noc -> length xs = noc -> length (rowAt k old xs) = noc.
Proof. intros Hk Ho Hx. unfold rowAt. rewrite length_app, length_take, length_zip_with, length_drop. unfold getNumberOfColumns in *. lia. Qed.
Lemma rowAt_next k old xs ci x : length old = noc -> length xs = noc -> cols !! k = Some ci -> xs !! k = Some x ->
  <[k := storedValue ci x]> (rowAt k old xs) = rowAt (S k) old xs.
Proof.
  intros Ho Hl Hci Hx. pose proof (lookup_lt_Some _ _ _ Hci) as Hlc. unfold getNumberOfColumns in *. unfold rowAt.
  assert (Hlt : (length (take k (zip_with storedValue cols xs)) = k)%nat) by (rewrite length_take, length_zip_with; lia).
  rewrite insert_app_r_alt by lia. rewrite Hlt, Nat.sub_diag, (take_S_r _ _ _ (stored_lookup xs k ci x Hci Hx)), <- app_assoc. f_equal.
  destruct (drop k old) as [|y l] eqn:Hd; [apply (f_equal length) in Hd; rewrite length_drop in Hd; cbn in Hd; lia|]. cbn. f_equal. rewrite <- Nat.add_1_r, <- drop_drop, Hd. done.
Qed.
Lemma rowAt_lookup k old xs c : length old = noc -> length xs = noc -> (k <= noc)%nat -> rowAt k old xs !! c = if (c <? k)%nat then zip_with storedValue cols xs !! c else old !! c.
Proof.
  intros Ho Hl Hk. unfold rowAt. assert (Hlt : (length (take k (zip_with storedValue cols xs)) = k)%nat) by (rewrite length_take, length_zip_with; unfold getNumberOfColumns in *; lia).
  destruct (Nat.ltb_spec c k).
  - rewrite lookup_app_l by lia. by apply lookup_take_lt.
  - rewrite lookup_app_r by lia. rewrite Hlt, lookup_drop. f_equal. lia.
Qed.
Lemma cellsLoop_skip cells : forall r c modified w, getNumberOfColumns w = noc -> (noc - 2 <= c)%nat ->
  cellsLoop getenv systemVariables_ expansionFuel now cells r c modified w = (Ok modified, w).
Proof.
  induction cells as [|x cells IH]; intros r c modified w Hw Hc; cbn [cellsLoop]; [done|]. rewrite (bind_ok (gets _) _ w noc w) by (unfold gets; by rewrite Hw).
  rewrite (proj2 (Z.leb_le _ _)) by lia. apply IH; [done|lia].
Qed.
Lemma cellsLoop_run j : forall k r old xs modified w, (k + j = noc - 2)%nat -> columnsInfo_ w = cols -> length old = noc -> sendable xs ->
  theDataView_ w !! r = Some (rowAt k old xs) ->
  cellsLoop getenv systemVariables_ expansionFuel now (map StringMacros.encodeURIComponent (drop k xs)) r k modified w =
    (Ok (modified || existsb (cellDiffers old xs) (seq k j)), set_data w (<[r := rowAt (noc - 2) old xs]> (theDataView_ w))).
Proof.
  induction j as [|j IH]; intros k r old xs modified w Hk Hw Ho [Hl Hx] Hr; pose proof (editable_columns ok) as Hn.
  { rewrite cellsLoop_skip; [|unfold getNumberOfColumns; by rewrite Hw|lia]. cbn [seq existsb]. rewrite orb_false_r. f_equal. replace (noc - 2)%nat with k by lia.
    rewrite list_insert_id by done. by destruct w. }
  destruct (lookup_lt_is_Some_2 cols k) as [ci Hci]; [unfold getNumberOfColumns in *; lia|]. destruct (lookup_lt_is_Some_2 xs k) as [x Hxk]; [lia|].
  destruct (lookup_lt_is_Some_2 old k) as [y Hy]; [lia|]. rewrite (drop_S xs x k Hxk). cbn [map cellsLoop seq existsb].
  rewrite (bind_ok (gets _) _ w noc w) by (unfold gets, getNumberOfColumns; by rewrite Hw). rewrite (proj2 (Z.leb_gt _ _)) by lia.
  rewrite (bind_ok (setURIEncodedValue _ _ _ _ _ _ _ _) _ w _ _ (setURIEncodedValue_run ci x y r k w (rowAt k old xs) Hw Hr ltac:(apply rowAt_length; lia) Hci
    ltac:(rewrite rowAt_lookup by lia; by rewrite Nat.ltb_irrefl) ltac:(apply (Hx k ci x); [lia|done|done]))).
  rewrite (rowAt_next k old xs ci x Ho Hl Hci Hxk). rewrite (IH (S k) r old xs); [|lia|done|done|done|by apply list_lookup_insert_eq, (lookup_lt_Some _ _ _ Hr)].
  cbn [theDataView_ set_data]. rewrite list_insert_insert_eq. f_equal. f_equal. rewrite <- orb_assoc. f_equal. unfold cellDiffers at 2. by rewrite Hci, Hy, Hxk.
Qed.
Lemma editRow_at old xs : editRow old xs = rowAt (noc - 2) old xs.
Proof. done. Qed.
(** The row is modified if it shows another value. *)
Lemma differs_cells old xs : length old = noc -> length xs = noc -> existsb (cellDiffers old xs) (seq 0 (noc - 2)) = differs old (editRow old xs).
Proof.
  intros Ho Hl. apply eq_true_iff_eq. rewrite existsb_exists. unfold differs. rewrite negb_true_iff, bool_decide_eq_false. split.
  - intros (c & Hc%in_seq & Hd) He. unfold cellDiffers in Hd. destruct (cols !! c) as [ci|] eqn:Hci; [|done]. destruct (old !! c) as [y|] eqn:Hy; [|done].
    destruct (xs !! c) as [x|] eqn:Hx; [|done]. apply (f_equal (lookup c)) in He. unfold shownRow in He. rewrite !lookup_zip_with, Hci, Hy in He. cbn in He.
    rewrite editRow_at, rowAt_lookup in He by lia. rewrite (proj2 (Nat.ltb_lt _ _)), (stored_lookup xs c ci x Hci Hx) in He by lia. cbn in He. injection He as He.
    rewrite He, textEq_refl in Hd. done.
  - intros Hne. destruct (existsb (cellDiffers old xs) (seq 0 (noc - 2))) eqn:Hex; [by apply existsb_exists in Hex|]. exfalso. apply Hne.
    apply list_eq. intros c. unfold shownRow. rewrite !lookup_zip_with. destruct (cols !! c) as [ci|] eqn:Hci; [|done]. cbn. pose proof (lookup_lt_Some _ _ _ Hci) as Hlc.
    rewrite editRow_at, rowAt_lookup by lia. destruct (Nat.ltb_spec c (noc - 2)); [|done].
    destruct (lookup_lt_is_Some_2 old c) as [y Hy]; [unfold getNumberOfColumns in *; lia|]. destruct (lookup_lt_is_Some_2 xs c) as [x Hx]; [unfold getNumberOfColumns in *; lia|].
    rewrite Hy, (stored_lookup xs c ci x Hci Hx). cbn. f_equal. apply not_true_iff_false in Hex. rewrite existsb_exists in Hex.
    destruct (textEq (shown ci y) (shown ci (storedValue ci x))) eqn:He; [by apply textEq_spec|]. exfalso. apply Hex. exists c. split; [apply in_seq; lia|].
    unfold cellDiffers. by rewrite Hci, Hy, Hx, He.
Qed.

(** *** All rows *)

Abbreviation encodedRow := (encodedRow getenv systemVariables_ expansionFuel author now).
Abbreviation encodedRows := (encodedRows getenv systemVariables_ expansionFuel author now).
Definition rowsFit_ (d : list (list text)) : Prop := Forall (fun r => length r = noc) d.
Lemma stampedRow_run modified w r row : columnsInfo_ w = cols -> theDataView_ w !! r = Some row -> length row = noc ->
  (if negb (textEq author []) && modified then stampRow author now r else mret tt) w =
    (Ok tt, set_data w (<[r := if modified then stampedRow row else row]> (theDataView_ w))).
Proof.
  intros Hw Hr Hl. unfold stampedRow. destruct (textEq author []) eqn:Ha; destruct modified; cbn [negb andb].
  1,2,4: rewrite list_insert_id by done; by destruct w.
  apply stampRow_put; [done|unfold getNumberOfColumns; by rewrite Hw|unfold findColByType; rewrite Hw; apply ok|unfold findColByType; rewrite Hw; apply ok|..];
    unfold hasType; rewrite Hw; apply ok.
Qed.
Lemma editRow_length old xs : length old = noc -> length xs = noc -> length (editRow old xs) = noc.
Proof. intros Ho Hl. rewrite editRow_at. apply rowAt_length; lia. Qed.
Lemma stampedRow_length row : length (stampedRow row) = length row.
Proof. unfold stampedRow. destruct (textEq author []); by rewrite ?length_insert. Qed.
Lemma cellsLoop_row r old xs added w : columnsInfo_ w = cols -> length old = noc -> sendable xs -> theDataView_ w !! r = Some old ->
  cellsLoop getenv systemVariables_ expansionFuel now (parts (chr 44) (encodedCells xs)) r 0 added w =
    (Ok (added || differs old (editRow old xs)), set_data w (<[r := editRow old xs]> (theDataView_ w))).
Proof.
  intros Hw Ho Hx Hr. rewrite parts_cells. pose proof (cellsLoop_run (noc - 2) 0 r old xs added w ltac:(lia) Hw Ho Hx Hr) as H. rewrite drop_0 in H. rewrite H.
  rewrite differs_cells by (done || apply Hx). done.
Qed.
Lemma encodedRow_old d old rest xs : length old = noc -> sendable xs ->
  encodedRow (length d) (encodedCells xs) (set_data w0 (d ++ old :: rest)) = (Ok (differs old (editRow old xs)), set_data w0 (d ++ editedRow old xs :: rest)).
Proof.
  intros Ho Hx. unfold TableCSV.encodedRow. set (w := set_data w0 (d ++ old :: rest)). assert (Hr : theDataView_ w !! length d = Some old) by (by apply list_lookup_middle).
  rewrite (bind_ok (gets _) _ w (length (d ++ old :: rest)) w) by done. rewrite length_app. cbn [length]. rewrite (proj2 (Nat.leb_gt _ _)) by lia.
  rewrite (bind_ok (mret false) _ w false w) by done. rewrite (bind_ok (cellsLoop _ _ _ _ _ _ _ _) _ w _ _ (cellsLoop_row (length d) old xs false w eq_refl Ho Hx Hr)). cbn [orb].
  set (w1 := set_data w _). assert (Hr1 : theDataView_ w1 !! length d = Some (editRow old xs)) by (cbn; apply list_lookup_insert_eq; exact (lookup_lt_Some _ _ _ Hr)).
  rewrite (bind_ok _ _ w1 tt _ (stampedRow_run (differs old (editRow old xs)) w1 (length d) (editRow old xs) eq_refl Hr1 (editRow_length _ _ Ho (proj1 Hx)))).
  cbn [theDataView_ w1 w set_data]. rewrite list_insert_insert_eq. unfold editedRow. rewrite insert_app_r_alt, Nat.sub_diag by lia. done.
Qed.
Lemma encodedRow_new d xs : rowsFit_ d -> sendable xs ->
  encodedRow (length d) (encodedCells xs) (set_data w0 d) = (Ok true, set_data w0 (d ++ [addedRow xs])).
Proof.
  intros Hd Hx. unfold TableCSV.encodedRow. rewrite (bind_ok (gets _) _ (set_data w0 d) (length d) (set_data w0 d)) by done. rewrite Nat.leb_refl.
  assert (Hadd : addDefaultRow (set_data w0 d) = (Ok (length d), set_data w0 (d ++ [rowDefaultValues_ w0]))).
  { unfold addDefaultRow. rewrite (addRow_spec [] 0 [] None [] [] (set_data w0 d)); [|exact Hd|apply ok|cbn; unfold getNumberOfRows; lia|by intros H].
    unfold insertRows, newRow. rewrite textEq_refl. cbn [default theDataView_ set_data]. unfold getNumberOfRows. cbn [theDataView_ set_data]. rewrite (take_ge d), (drop_ge d) by done. done. }
  assert (Hif : (addDefaultRow ≫= (fun _ => mret true) : M TableView bool) (set_data w0 d) = (Ok true, set_data w0 (d ++ [rowDefaultValues_ w0]))) by by rewrite (bind_ok addDefaultRow _ _ _ _ Hadd).
  rewrite (bind_ok _ _ _ _ _ Hif).
  set (w := set_data w0 (d ++ [rowDefaultValues_ w0])). assert (Hr : theDataView_ w !! length d = Some (rowDefaultValues_ w0)) by (by apply list_lookup_middle).
  rewrite (bind_ok (cellsLoop _ _ _ _ _ _ _ _) _ w _ _ (cellsLoop_row (length d) _ xs true w eq_refl (editable_defaults ok) Hx Hr)). cbn [orb].
  set (w1 := set_data w _). assert (Hr1 : theDataView_ w1 !! length d = Some (editRow (rowDefaultValues_ w0) xs)) by (cbn; apply list_lookup_insert_eq; exact (lookup_lt_Some _ _ _ Hr)).
  rewrite (bind_ok _ _ w1 tt _ (stampedRow_run true w1 (length d) _ eq_refl Hr1 (editRow_length _ _ (editable_defaults ok) (proj1 Hx)))).
  cbn [theDataView_ w1 w set_data]. rewrite list_insert_insert_eq. unfold addedRow. rewrite insert_app_r_alt, Nat.sub_diag by lia. done.
Qed.
(** The rows that are there are edited, further ones are added. *)
Fixpoint editedRows (olds news : list (list text)) : list (list text) :=
  match news, olds with
  | [], _ => []
  | xs :: news, old :: olds => editedRow old xs :: editedRows olds news
  | xs :: news, [] => addedRow xs :: editedRows [] news
  end.
Fixpoint modifiedRows (olds news : list (list text)) : nat :=
  match news, olds with
  | [], _ => 0
  | xs :: news, old :: olds => (if differs old (editRow old xs) then 1 else 0) + modifiedRows olds news
  | _ :: news, [] => S (modifiedRows [] news)
  end.
Lemma encodedRows_run news : forall d olds count, rowsFit_ d -> rowsFit_ olds -> Forall sendable news ->
  encodedRows (map encodedCells news) (length d) count (set_data w0 (d ++ olds)) =
    (Ok ((length d + length news)%nat, (count + modifiedRows olds news)%nat), set_data w0 (d ++ editedRows olds news ++ drop (length news) olds)).
Proof.
  induction news as [|xs news IH]; intros d olds count Hd Ho Hn.
  { cbn [map TableCSV.encodedRows length modifiedRows editedRows app]. rewrite !Nat.add_0_r, drop_0. by destruct olds. }
  apply Forall_cons in Hn as [Hx Hn]. cbn [map TableCSV.encodedRows]. destruct olds as [|old olds].
  - rewrite app_nil_r. rewrite (bind_ok (encodedRow _ _) _ _ _ _ (encodedRow_new d xs Hd Hx)).
    assert (Hlen : length (d ++ [addedRow xs]) = S (length d)) by (rewrite length_app; cbn; lia).
    assert (Hfit : length (addedRow xs) = noc) by (unfold addedRow; rewrite stampedRow_length; apply editRow_length; [apply ok|apply Hx]).
    specialize (IH (d ++ [addedRow xs]) [] (S count)). rewrite Hlen, app_nil_r in IH. rewrite IH; [|apply Forall_app; split; [done|by apply Forall_singleton]|done|done].
    cbn [length modifiedRows editedRows drop]. rewrite !drop_nil, !app_nil_r, <- app_assoc. cbn [app]. do 3 f_equal; lia.
  - apply Forall_cons in Ho as [Hold Ho]. rewrite (bind_ok (encodedRow _ _) _ _ _ _ (encodedRow_old d old olds xs Hold Hx)).
    assert (Hlen : length (d ++ [editedRow old xs]) = S (length d)) by (rewrite length_app; cbn; lia).
    assert (Hfit : length (editedRow old xs) = noc).
    { unfold editedRow. destruct (differs _ _); rewrite ?stampedRow_length; by apply editRow_length, Hx. }
    specialize (IH (d ++ [editedRow old xs]) olds (if differs old (editRow old xs) then S count else count)). rewrite Hlen, <- app_assoc in IH. cbn [app] in IH.
    rewrite IH; [|apply Forall_app; split; [done|by apply Forall_singleton]|done|done].
    cbn [length modifiedRows editedRows drop]. rewrite <- app_assoc. cbn [app]. destruct (differs old (editRow old xs)); do 3 f_equal; lia.
Qed.
Lemma deleteExcess_run d rest : deleteExcess (length d) (set_data w0 (d ++ rest)) = (Ok (length rest), set_data w0 d).
Proof.
  unfold deleteExcess. rewrite (bind_ok (gets _) _ _ (length (d ++ rest)) _) by done. rewrite length_app. replace (length d + length rest - length d)%nat with (length rest) by lia.
  assert (H : forall k, forEach (seq k (length rest)) (fun _ => deleteRow (length d)) (set_data w0 (d ++ rest)) = (Ok tt, set_data w0 d)).
  { induction rest as [|r rest IH]; intros k; cbn [length seq forEach]; [by rewrite app_nil_r|].
    rewrite (bind_ok (deleteRow _) _ _ tt (set_data w0 (d ++ rest))); [apply IH|]. unfold deleteRow, getNumberOfRows. cbn [theDataView_ set_data]. rewrite length_app. cbn [length].
    rewrite (proj2 (Nat.leb_gt _ _)) by lia. change (set_data (set_data w0 ?x) ?y) with (set_data w0 y). by rewrite delete_middle. }
  by rewrite (bind_ok (forEach _ _) _ _ tt _ (H 0%nat)).
Qed.

(** Nothing is new: as many rows, which show the same values. *)
Definition sameRows (olds news : list (list text)) : Prop := Forall2 (fun old xs => shownRow w0 old = shownRow w0 (editRow old xs)) olds news.
Lemma modifiedRows_zero olds news : (modifiedRows olds news + (length olds - length news) =? 0)%nat = true <-> sameRows olds news.
Proof.
  unfold sameRows. revert olds. induction news as [|xs news IH]; intros [|old olds]; cbn [modifiedRows length Nat.sub Nat.add].
  - split; [constructor|done].
  - rewrite Nat.eqb_eq. split; [lia|by intros H; inversion H].
  - split; [done|by intros H; inversion H].
  - rewrite Forall2_cons, <- IH. unfold differs. case_bool_decide as Hd; cbn [negb Nat.add]; [tauto|]. split; [done|by intros [? _]].
Qed.
Lemma editedRows_length olds news : length (editedRows olds news) = length news.
Proof. revert olds. induction news as [|xs news IH]; intros [|old olds]; cbn; by rewrite ?IH. Qed.
(** C29: What the editor sends replaces the rows from [dataOffset] on: a row that
    shows another value than before, or is added, gets the author and the time,
    rows that are not sent are deleted, and the last two columns keep their
    values.  If nothing is new and the columns are those of the source, the
    answer is -1, otherwise the view is verified and the answer tells whether
    only the columns are new. *)
Theorem fillFromEncodedCSV_spec news dataOffset : rowsFit_ (theDataView_ w0) -> Forall sendable news -> (dataOffset <= length (theDataView_ w0))%nat ->
  let olds := drop dataOffset (theDataView_ w0) in
  let w := set_data w0 (take dataOffset (theDataView_ w0) ++ editedRows olds news) in
  exists same : bool, (same = true <-> sameRows olds news) /\
    fillFromEncodedCSV getenv systemVariables_ expansionFuel author now (encodedTable news) dataOffset w0 =
      if same && columnsMatch w0 then (Ok (-1), w)
      else (init getenv systemVariables_ expansionFuel ≫= fun _ => mret (if same then 1 else 0)) (set_sourceNames w (getColumnStorageNames w0)).
Proof.
  intros Hd Hn Ho olds w. exists (modifiedRows olds news + (length olds - length news) =? 0)%nat. split; [apply modifiedRows_zero|].
  set (d := take dataOffset (theDataView_ w0)). assert (Hlen : length d = dataOffset) by (unfold d; rewrite length_take; lia).
  assert (Hw0 : w0 = set_data w0 (d ++ olds)) by (unfold d, olds; rewrite take_drop; by destruct w0).
  assert (Hd1 : rowsFit_ d) by (by apply Forall_take). assert (Hd2 : rowsFit_ olds) by (by apply Forall_drop).
  pose proof (encodedRows_run news d olds 0 Hd1 Hd2 Hn) as Hrun. rewrite <- Hw0, Hlen in Hrun.
  unfold fillFromEncodedCSV. rewrite parts_table, (bind_ok (encodedRows _ _ _) _ w0 _ _ Hrun).
  assert (Hlen' : length (d ++ editedRows olds news) = (dataOffset + length news)%nat).
  { by rewrite length_app, Hlen, editedRows_length. }
  pose proof (deleteExcess_run (d ++ editedRows olds news) (drop (length news) olds)) as Hdel. rewrite Hlen', <- app_assoc, length_drop in Hdel.
  rewrite (bind_ok (deleteExcess _) _ _ _ _ Hdel). rewrite (bind_ok (gets id) _ _ w w) by done. unfold id.
  rewrite Nat.add_0_l. change (columnsMatch w) with (columnsMatch w0). destruct (_ && columnsMatch w0); [done|]. done.
Qed.
End Editing.

Definition sentRows : list (list text) :=
  [[txt "FE1"; txt "A | B"; txt "P1"; txt "7"; txt "none"; txt "admin"; txt "0"]; [txt "FE2"; txt "B; C"; txt "P,9"; txt "5"; txt "none"; txt "admin"; txt "0"]].
Lemma sample_editable : editable sample 5 6.
Proof. constructor; try done; try (cbn; lia); by eexists. Qed.
Lemma sent_sendable : Forall (sendable noEnvironment ∅ 100 sample) sentRows.
Proof.
  assert (B : forallb (fun xs => (length xs =? 7)%nat && forallb (fun x => is_ok (StringExpansion.convertEnvironmentVariables noEnvironment ∅ 100 x)) xs) sentRows = true) by by vm_compute.
  rewrite forallb_forall in B. apply Forall_forall. intros xs Hin%list_elem_of_In. apply B, andb_true_iff in Hin as [Hl%Nat.eqb_eq Hc]. split; [done|].
  intros c ci x _ _ Hx _. rewrite forallb_forall in Hc. apply Hc, list_elem_of_In. by eapply list_elem_of_lookup_2.
Qed.
Lemma fillFromEncodedCSV_spec_witness :
  exists w, fillFromEncodedCSV noEnvironment ∅ 100 (txt "ann") 77 (encodedTable sentRows) 0 sample = (Ok 0, w) /\
    theDataView_ w = [sampleRow "FE1" "A | B" "P1" "7"; [txt "FE2"; txt "B; C"; txt "P,9"; txt "5"; txt "none"; txt "ann"; txt "77"]] /\
    ~ sameRows sample (theDataView_ sample) sentRows.
Proof.
  destruct (fillFromEncodedCSV_spec noEnvironment ∅ 100 (txt "ann") 77 sample 5 6 sample_editable sentRows 0) as (same & Hs & E).
  - apply Forall_forall. intros row Hrow. assert (B : forallb (fun row => length row =? 7)%nat (theDataView_ sample) = true) by by vm_compute.
    rewrite forallb_forall in B. apply list_elem_of_In in Hrow. by apply Nat.eqb_eq, B.
  - apply sent_sendable.
  - cbn. lia.
  - destruct (fillFromEncodedCSV noEnvironment ∅ 100 (txt "ann") 77 (encodedTable sentRows) 0 sample) as [r w] eqn:Em.
    pose proof (run_result _ _ _ _ (Ok 0) Em ltac:(by vm_compute)) as Hr. subst r. exists w. split; [reflexivity|]. split.
    + assert (B : theDataView_ (fillFromEncodedCSV noEnvironment ∅ 100 (txt "ann") 77 (encodedTable sentRows) 0 sample).2 =
        [sampleRow "FE1" "A | B" "P1" "7"; [txt "FE2"; txt "B; C"; txt "P,9"; txt "5"; txt "none"; txt "ann"; txt "77"]]) by by vm_compute.
      rewrite Em in B. exact B.
    + intros H. apply Hs in H. subst same.
      pose proof (proj1 Hs eq_refl) as H. apply Forall2_length in H. discriminate.
Defined.
(** A number is checked for its variables when it is sent, though the check is
    meant to be left to the verification. *)
Lemma number_with_unknown_variable :
  (setURIEncodedValue noEnvironment ∅ 100 77 (StringMacros.encodeURIComponent (txt "${PORT}")) 0 3 [] sample).1 = Throw RuntimeError /\
  (setURIEncodedValue noEnvironment ∅ 100 77 (StringMacros.encodeURIComponent (txt "seven")) 0 3 [] sample).1 = Ok true.
Proof. by vm_compute. Qed.
End TableCSV.
