(* ===== verification/FESlowControlsChannel.v ===== *)
(** * Slow-controls channels

    src/otsdaq/FECore/FESlowControlsChannel.cc and .h: one value of a front end
    that is sampled again and again, compared with four alarm thresholds, put
    into packets for the monitoring server and saved to files.

    A buffer is a list of bytes.  What depends on the machine or the plugin is
    an argument: the clock, the answer of a read, what [sscanf] stores for
    [%f] and [%lf] (its bytes, [None] if nothing matches), whether [fopen]
    succeeds, and what the memory behind a string holds ([past], for each sample
    its own): alarms are compared as 8-byte numbers however short the value is.  Files are the bytes
    appended to them.  Traces are left out. *)

From Stdlib Require Import SpecFloat.
From S2P Require Import Prelude CText Network StringMacros StringLists BinaryStrings.

Module FESlowControlsChannel.
Import BinaryStringMacros.

(** ** Numbers in memory *)

(** [*((T* )&s[0])] for an unsigned [T] of [w] bytes; [behind] is the memory
    behind the terminating NUL of the string. *)
Definition load (w : nat) (behind s : bytes) : Z := number (take w (s ++ 0 :: behind)).
Definition loadSigned (w : nat) (behind s : bytes) : Z := swrap (8 * Z.of_nat w) (load w behind s).
(** The value of an IEEE 754 number with [mw] bits of mantissa and [ew] of
    exponent. *)
Definition ofBits (mw ew : Z) (z : Z) : spec_float :=
  let sign := Z.testbit z (mw + ew) in
  let mantissa := z mod 2 ^ mw in
  let exponent := (z / 2 ^ mw) mod 2 ^ ew in
  let emin := 3 - 2 ^ (ew - 1) - (mw + 1) in
  if exponent =? 0 then match mantissa with Zpos m => S754_finite sign m emin | _ => S754_zero sign end
  else if exponent =? 2 ^ ew - 1 then if mantissa =? 0 then S754_infinity sign else S754_nan
  else match mantissa + 2 ^ mw with Zpos m => S754_finite sign m (exponent - 1 + emin) | _ => S754_nan end.
Definition asFloat (z : Z) : spec_float := ofBits 23 8 z.
Definition asDouble (z : Z) : spec_float := ofBits 52 11 z.

(** [printf] with [%f]: six decimals, ties to even. *)
Definition millionths (m : positive) (e : Z) : Z :=
  if 0 <=? e then Z.pos m * 2 ^ e * 10 ^ 6
  else
    let d := 2 ^ (- e) in
    let q := Z.pos m * 10 ^ 6 / d in
    let r := Z.pos m * 10 ^ 6 mod d in
    if (d <? 2 * r) || ((2 * r =? d) && Z.odd q) then q + 1 else q.
Definition padded (w : nat) (s : text) : text := replicate (w - length s) (chr 48) ++ s.
Definition print_f (sign : bool) (f : spec_float) : text :=
  (if sign then txt "-" else []) ++
  match f with
  | S754_zero _ => txt "0.000000"
  | S754_infinity _ => txt "inf"
  | S754_nan => txt "nan"
  | S754_finite _ m e => let n := millionths m e in to_string_unsigned (n / 10 ^ 6) ++ txt "." ++ padded 6 (to_string_unsigned (n mod 10 ^ 6))
  end.

(** ** The channel *)

(** The interface a channel belongs to. *)
Record Interface := mkInterface {
  interfaceUID_ : text; interfaceType_ : text; universalAddressSize_ : Z; universalDataSize_ : Z }.
(** The answer of a read of the plugin: what it leaves in the buffer, or an
    exception, a [std::runtime_error] or another one, with its message. *)
Inductive readAnswer :=
| ReadOk (data : bytes)
| ReadFailed (isRuntimeError : bool) (what : text).

(** What the constructor fixes. *)
Record Config := mkConfig {
  interface_ : Interface; channelName : text; fullChannelName : text; dataType : text; transformation : text;
  sizeOfDataTypeBits_ : Z; sizeOfDataTypeBytes_ : Z; sizeOfReadBytes_ : Z; universalDataBitOffset_ : Z;
  readAccess_ : bool; writeAccess_ : bool; monitoringEnabled : bool; recordChangesOnly_ : bool; delayBetweenSamples_ : Z;
  saveEnabled_ : bool; saveBinaryFormat_ : bool; alarmsEnabled_ : bool; latchAlarms_ : bool;
  universalAddress_ : bytes; lolo_ : bytes; lo_ : bytes; hi_ : bytes; hihi_ : bytes; saveFullFileName_ : text }.
Record Channel := mkChannel {
  config : Config; txPacketSequenceNumber_ : Z; universalReadValue_ : bytes; sample_ : bytes; lastSample_ : bytes; lastSampleTime_ : Z;
  loloAlarmed_ : bool; loAlarmed_ : bool; hiAlarmed_ : bool; hihiAlarmed_ : bool }.
Implicit Types c : Channel.

Definition set_read c (v : bytes) := mkChannel (config c) (txPacketSequenceNumber_ c) v (sample_ c) (lastSample_ c) (lastSampleTime_ c) (loloAlarmed_ c) (loAlarmed_ c) (hiAlarmed_ c) (hihiAlarmed_ c).
Definition set_sample c (v : bytes) := mkChannel (config c) (txPacketSequenceNumber_ c) (universalReadValue_ c) v (lastSample_ c) (lastSampleTime_ c) (loloAlarmed_ c) (loAlarmed_ c) (hiAlarmed_ c) (hihiAlarmed_ c).
Definition set_lastSample c (v : bytes) := mkChannel (config c) (txPacketSequenceNumber_ c) (universalReadValue_ c) (sample_ c) v (lastSampleTime_ c) (loloAlarmed_ c) (loAlarmed_ c) (hiAlarmed_ c) (hihiAlarmed_ c).
Definition set_lastTime c (t : Z) := mkChannel (config c) (txPacketSequenceNumber_ c) (universalReadValue_ c) (sample_ c) (lastSample_ c) t (loloAlarmed_ c) (loAlarmed_ c) (hiAlarmed_ c) (hihiAlarmed_ c).
Definition set_sequence c (n : Z) := mkChannel (config c) n (universalReadValue_ c) (sample_ c) (lastSample_ c) (lastSampleTime_ c) (loloAlarmed_ c) (loAlarmed_ c) (hiAlarmed_ c) (hihiAlarmed_ c).
Definition set_alarmed c (lolo lo hi hihi : bool) := mkChannel (config c) (txPacketSequenceNumber_ c) (universalReadValue_ c) (sample_ c) (lastSample_ c) (lastSampleTime_ c) lolo lo hi hihi.

Definition getReadSizeBytes c : Z := sizeOfReadBytes_ (config c).
Definition getUniversalAddress c : bytes := universalAddress_ (config c).
Definition getInterfaceUID c : text := interfaceUID_ (interface_ (config c)).
Definition getInterfaceType c : text := interfaceType_ (interface_ (config c)).

(** ** Construction *)

Definition underscoreString (str : text) : text := map (fun ch => if is_lower ch || is_upper ch || is_digit ch then ch else chr 95) str.

(** Ends in 'b': a number of bits, with the number of bytes to read before a
    'B'.  The bytes read, and the bits. *)
Fixpoint searchB (dataType rest : text) (i : nat) : option Z * option Z :=
  match rest with
  | [] | [_] => (None, sscanf_u (c_str dataType))
  | ch :: rest =>
      if (ch =? chr 66)%char then (sscanf_u (c_str dataType), sscanf_u (c_str (drop (S i) dataType)))
      else searchB dataType rest (S i)
  end.
Definition endsInB (dataType : text) : bool := match last dataType with Some ch => (ch =? chr 98)%char | None => false end.
(** A size that [sscanf] does not store is not initialised. *)
Definition sizesOf (dataType : text) : result (Z * Z) :=
  let named s := textEq dataType (txt s) in
  if (1 <? length dataType)%nat && endsInB dataType then
    match searchB dataType dataType 0 with
    | (_, None) => Throw Undefined
    | (read, Some bits) => Ok (default 0 read, bits)
    end
  else if named "char"%string || named "unsigned char"%string then Ok (0, 8)
  else if named "short"%string || named "unsigned short"%string then Ok (0, 16)
  else if named "int"%string || named "unsigned int"%string then Ok (0, 32)
  else if named "long long"%string || named "unsigned long long"%string then Ok (0, 64)
  else if named "float"%string then Ok (0, 32)
  else if named "double"%string then Ok (0, 64)
  else Throw RuntimeError.
Definition bytesForBits (bits : Z) : Z := bits / 8 + (if bits mod 8 =? 0 then 0 else 1).

Section Conversion.
Variables (scan_f scan_lf : text -> option bytes).

Definition convertStringToBuffer (dataType inString : text) (buffer : bytes) (useDataType : bool) : result bytes :=
  if useDataType && (textEq dataType (txt "float") || textEq dataType (txt "double")) then
    if textEq dataType (txt "float") && (length buffer =? 4)%nat then Ok (default buffer (scan_f (c_str inString)))
    else if textEq dataType (txt "double") && (length buffer =? 8)%nat then Ok (default buffer (scan_lf (c_str inString)))
    else Throw RuntimeError
  else
    v ← getNumber_uint64 inString;
    match v with
    | None => Throw Undefined
    | Some (false, _) => Throw RuntimeError
    | Some (true, val) => Ok (resize (take (length buffer) (bytesOf 8 val)) (length buffer))
    end.
(** The test of [universalBlockRead], if the plugin is not known to have it. *)
Definition testBlockRead (sizeOfReadBytes dataSize : Z) (answer : readAnswer) : M bool unit :=
  confirmed ← gets id;
  if (dataSize <? sizeOfReadBytes) && negb confirmed then
    match answer with
    | ReadFailed true what => if textEq (c_str what) (txt "UNDEFINED BLOCK READ") then throw RuntimeError else modify (fun _ => true)
    | ReadFailed false _ => throw OtherExn
    | ReadOk _ => modify (fun _ => true)
    end
  else mret tt.

(** The state is whether the interface is known to implement block reads. *)
Definition FESlowControlsChannel (interface : Interface) (testRead : bytes -> Z -> readAnswer) (now : Z)
    (channelName dataType universalAddress transformation : text) (universalDataBitOffset : Z)
    (readAccess writeAccess monitoringEnabled recordChangesOnly : bool) (delayBetweenSamples : Z)
    (saveEnabled : bool) (savePath saveFileRadix : text) (saveBinaryFormat alarmsEnabled latchAlarms : bool)
    (lolo lo hi hihi : text) : M bool Channel :=
  let fullChannelName := interfaceUID_ interface ++ txt ":" ++ channelName in
  let saveFullFileName := savePath ++ txt "/" ++ saveFileRadix ++ txt "-" ++ underscoreString fullChannelName ++ txt "-" ++
    to_string_signed now ++ (if saveBinaryFormat then txt ".dat" else txt ".txt") in
  if (universalAddressSize_ interface =? 0) || (universalDataSize_ interface =? 0) then throw RuntimeError
  else
    '(read, bits) ← lift (sizesOf dataType);
    let sizeOfReadBytes := if read =? 0 then bytesForBits (u32 (universalDataBitOffset + bits)) else read in
    let sizeOfDataTypeBytes := bytesForBits bits in
    address ← lift (convertStringToBuffer dataType universalAddress (replicate (Z.to_nat (universalAddressSize_ interface)) 0) false);
    testBlockRead sizeOfReadBytes (universalDataSize_ interface) (testRead address sizeOfReadBytes) ≫= fun _ =>
    let empty := replicate (Z.to_nat sizeOfDataTypeBytes) 0 in
    let threshold s := lift (if alarmsEnabled then convertStringToBuffer dataType s empty true else Ok empty) in
    lolo_ ← threshold lolo; lo_ ← threshold lo; hi_ ← threshold hi; hihi_ ← threshold hihi;
    mret (mkChannel (mkConfig interface channelName fullChannelName dataType transformation bits sizeOfDataTypeBytes sizeOfReadBytes universalDataBitOffset
            readAccess writeAccess monitoringEnabled recordChangesOnly (if delayBetweenSamples <? 1 then 1 else delayBetweenSamples)
            saveEnabled saveBinaryFormat alarmsEnabled latchAlarms address lolo_ lo_ hi_ hihi_ saveFullFileName)
            0 [] empty empty 0 false false false false).
End Conversion.

(** ** Reading *)

(** Block reads are for values larger than the data size of the interface. *)
Definition readsBlock c : bool := universalDataSize_ (interface_ (config c)) <? getReadSizeBytes c.
Definition doRead c (answer : readAnswer) : result bytes :=
  let size := if readsBlock c then getReadSizeBytes c else universalDataSize_ (interface_ (config c)) in
  match answer with
  | ReadOk data => Ok (resize data (Z.to_nat size))
  | ReadFailed true _ => Throw RuntimeError
  | ReadFailed false _ => Throw OtherExn
  end.

(** ** Alarms *)

Definition clearAlarms c (targetAlarm : Z) : Channel :=
  let clear i alarmed := if (targetAlarm =? -1) || (targetAlarm =? i) then false else alarmed in
  set_alarmed c (clear 0 (loloAlarmed_ c)) (clear 1 (loAlarmed_ c)) (clear 2 (hiAlarmed_ c)) (clear 3 (hihiAlarmed_ c)).

Inductive useType := UnsignedLongLong | LongLong | Float | Double | NoType.
Definition useTypeOf (dataType : text) : useType :=
  let named s := textEq dataType (txt s) in
  if endsInB dataType then UnsignedLongLong
  else if named "char"%string then LongLong
  else if named "unsigned char"%string then UnsignedLongLong
  else if named "short"%string then LongLong
  else if named "unsigned short"%string then UnsignedLongLong
  else if named "int"%string then LongLong
  else if named "unsigned int"%string then UnsignedLongLong
  else if named "long long"%string then LongLong
  else if named "unsigned long long"%string then UnsignedLongLong
  else if named "float"%string then Float
  else if named "double"%string then Double
  else NoType.

Definition alarmValueArray c : list bytes := [lolo_ (config c); lo_ (config c); hi_ (config c); hihi_ (config c)].

(** [past] is what is in memory behind the sample (0) and the thresholds (1 to
    4) while one sample is handled; the next one finds another memory. *)
Section Samples.
Variable past : nat -> bytes.

(** [a <= b], at the type of the comparison. *)
Definition leAs (t : useType) (pa a pb b : bytes) : bool :=
  match t with
  | UnsignedLongLong => load 8 pa a <=? load 8 pb b
  | LongLong => loadSigned 8 pa a <=? loadSigned 8 pb b
  | Float => SFleb (asFloat (load 4 pa a)) (asFloat (load 4 pb b))
  | Double => SFleb (asDouble (load 8 pa a)) (asDouble (load 8 pb b))
  | NoType => false
  end.
Definition atOrBelow c (k : nat) (threshold : bytes) : bool := leAs (useTypeOf (dataType (config c))) (past 0) (sample_ c) (past k) threshold.
Definition atOrAbove c (k : nat) (threshold : bytes) : bool := leAs (useTypeOf (dataType (config c))) (past k) threshold (past 0) (sample_ c).
Definition checked c (alarmed : bool) : bool := negb alarmed || negb (latchAlarms_ (config c)).
(** The four alarms that fire, the bits 0 to 3 of [createPacketMask]. *)
Definition firedAlarms c : list bool :=
  [checked c (loloAlarmed_ c) && atOrBelow c 1 (lolo_ (config c)); checked c (loAlarmed_ c) && atOrBelow c 2 (lo_ (config c));
   checked c (hiAlarmed_ c) && atOrAbove c 3 (hi_ (config c)); checked c (hihiAlarmed_ c) && atOrAbove c 4 (hihi_ (config c))].
Definition raise c (fired : list bool) : Channel :=
  let f k := nth k fired false in
  set_alarmed c (loloAlarmed_ c || f 0%nat) (loAlarmed_ c || f 1%nat) (hiAlarmed_ c || f 2%nat) (hihiAlarmed_ c || f 3%nat).
(** A mask is the list of its bits. *)
Abbreviation mask := (list bool).

Definition asciiBytes (s : text) : bytes := map code s.
Definition packet (type sequence time : Z) (name : text) (bits : Z) (value : bytes) : bytes :=
  [u8 type; u8 sequence] ++ bytesOf 8 time ++ bytesOf 4 (Z.of_nat (length name)) ++ asciiBytes name ++ [u8 (Z.of_nat (length value)); u8 bits] ++ value.
(** A packet is appended and the sequence counter of the channel counts. *)
Definition addPacket c (txBuffer : bytes) (type : Z) (value : bytes) : Channel * bytes :=
  (set_sequence c (u8 (txPacketSequenceNumber_ c + 1)),
   txBuffer ++ packet type (txPacketSequenceNumber_ c) (lastSampleTime_ c) (fullChannelName (config c)) (sizeOfDataTypeBits_ (config c)) value).
Fixpoint alarmPackets c (txBuffer : bytes) (i : Z) (fired : mask) (alarmValues : list bytes) : Channel * bytes :=
  match fired, alarmValues with
  | f :: fired, value :: alarmValues =>
      let '(c, txBuffer) := if (f : bool) then addPacket c txBuffer (i + 1) value else (c, txBuffer) in
      alarmPackets c txBuffer (i + 1) fired alarmValues
  | _, _ => (c, txBuffer)
  end.
Definition checkAlarms c (txBuffer : bytes) : mask * Channel * bytes :=
  let fired := firedAlarms c in
  let c := raise c fired in
  let '(c, txBuffer) := if monitoringEnabled (config c) then alarmPackets c txBuffer 0 fired (alarmValueArray c) else (c, txBuffer) in
  (fired, c, txBuffer).

(** ** Files *)

Definition line (s : text) : bytes := asciiBytes (s ++ [StringMacros.newline]).
(** ["%lu"] of a [time_t]. *)
Definition timeText (t : Z) : text := to_string_unsigned (u64 t).
Definition nibble (d : Z) : ascii := if d <? 10 then chr (48 + d) else chr (87 + d).
Definition nibbles (b : Z) : text := [nibble (b / 16 mod 16); nibble (b mod 16)].
(** A value by the type of the channel; the loop over the bits of an alarm value
    never advances, and leaves the array of alarm values. *)
Definition printValue c (behind value : bytes) : option text :=
  let named s := textEq (dataType (config c)) (txt s) in
  if named "char"%string then Some (to_string_signed (loadSigned 1 behind value))
  else if named "unsigned char"%string then Some (to_string_unsigned (load 1 behind value))
  else if named "short"%string then Some (to_string_signed (loadSigned 2 behind value))
  else if named "unsigned short"%string then Some (to_string_unsigned (load 2 behind value))
  else if named "int"%string then Some (to_string_signed (loadSigned 4 behind value))
  else if named "unsigned int"%string then Some (to_string_unsigned (load 4 behind value))
  else if named "long long"%string then Some (to_string_signed (loadSigned 8 behind value))
  else if named "unsigned long long"%string then Some (to_string_unsigned (load 8 behind value))
  else if named "float"%string then let z := load 4 behind value in Some (print_f (Z.testbit z 31) (asFloat z))
  else if named "double"%string then let z := load 8 behind value in Some (print_f (Z.testbit z 63) (asDouble z))
  else None.
Definition printedLine c (behind value : bytes) : bytes := match printValue c behind value with Some s => line s | None => [] end.
Definition sampleLine c : bytes :=
  if endsInB (dataType (config c)) then line (txt "0x" ++ concat (map nibbles (sample_ c))) else printedLine c (past 0) (sample_ c).
Definition alarmLine c (k : nat) (value : bytes) : result bytes :=
  if endsInB (dataType (config c)) then match value with [] => Ok (line (txt "0x")) | _ :: _ => Throw Undefined end
  else Ok (printedLine c (past k) value).
(** The alarms of a mask, [k] is the mark of the first bit. *)
Fixpoint alarmLines c (name : bytes) (k : nat) (fired : mask) (alarmValues : list bytes) : result bytes :=
  match fired, alarmValues with
  | f :: fired, value :: alarmValues =>
      here ← (if (f : bool) then value ← alarmLine c k value; Ok (line (timeText (Z.of_nat k)) ++ name ++ value) else Ok []);
      rest ← alarmLines c name (S k) fired alarmValues;
      Ok (here ++ rest)
  | _, _ => Ok []
  end.
(** A file in text: [name] is the line of the channel's name in the aggregate
    file. *)
Definition saveText c (name : bytes) (fired : mask) : result bytes :=
  alarms ← alarmLines c name 1 fired (alarmValueArray c);
  Ok (line (timeText (lastSampleTime_ c)) ++ name ++ sampleLine c ++ alarms).
(** A record of the aggregate binary file: [size] is that of the sample, for
    alarms too. *)
Definition aggregateRecord c (time : Z) (value : bytes) : bytes :=
  bytesOf 8 time ++ bytesOf 4 (Z.of_nat (length (fullChannelName (config c)))) ++ asciiBytes (fullChannelName (config c)) ++
  [u8 (Z.of_nat (length (sample_ c))); u8 (sizeOfDataTypeBits_ (config c))] ++ value.
Definition ownRecord (time : Z) (value : bytes) : bytes := bytesOf 8 time ++ value.
(** The loop shifts the mask as it goes, so nothing is left of it. *)
Fixpoint saveBinary (record : Z -> bytes -> bytes) (k : Z) (fired : mask) (alarmValues : list bytes) : bytes :=
  match fired, alarmValues with
  | f :: fired, value :: alarmValues => (if (f : bool) then record k value else []) ++ saveBinary record (k + 1) fired alarmValues
  | _, _ => []
  end.

(** ** A sample *)

(** Where a sample goes: the packets, the aggregate file if it is open, and the
    file of the channel. *)
Record Outputs := mkOutputs { txBuffer : bytes; fpAggregate : option bytes; ownFile : bytes }.
Abbreviation S := (Channel * Outputs)%type.
Definition set_tx (o : Outputs) (tx : bytes) := mkOutputs tx (fpAggregate o) (ownFile o).

Definition extractSample : M S unit := fun '(c, o) =>
  let bits := sizeOfDataTypeBits_ (config c) in
  match extractValueFromBinaryString (universalReadValue_ c) [] bits (universalDataBitOffset_ (config c)) with
  | Ok sample => (Ok tt, (set_sample c sample, o))
  | Throw e => (Throw e, (set_sample c (replicate (Z.to_nat (bytesForBits bits)) 0), o))
  end.
(** The packets; the mask that is left for the files. *)
Definition sendPackets (txBufferUsed : bool) : M S mask := fun '(c, o) =>
  let '(c, tx) := if monitoringEnabled (config c) && txBufferUsed then addPacket c (txBuffer o) 0 (sample_ c) else (c, txBuffer o) in
  let '(alarmMask, c, tx) := if alarmsEnabled_ (config c) && txBufferUsed then checkAlarms c tx else ([], c, tx) in
  (Ok alarmMask, (c, set_tx o tx)).
Definition saveAggregate (aggregateIsBinaryFormat : bool) (alarmMask : mask) : M S mask := fun '(c, o) =>
  match fpAggregate o with
  | None => (Ok alarmMask, (c, o))
  | Some file =>
      if aggregateIsBinaryFormat then
        (Ok [], (c, mkOutputs (txBuffer o) (Some (file ++ aggregateRecord c (lastSampleTime_ c) (sample_ c) ++
          saveBinary (aggregateRecord c) 1 alarmMask (alarmValueArray c))) (ownFile o)))
      else
        match saveText c (line (c_str (fullChannelName (config c)))) alarmMask with
        | Ok s => (Ok alarmMask, (c, mkOutputs (txBuffer o) (Some (file ++ s)) (ownFile o)))
        | Throw e => (Throw e, (c, o))
        end
  end.
Definition saveOwn (opens : bool) (alarmMask : mask) : M S unit := fun '(c, o) =>
  if saveEnabled_ (config c) && opens then
    if saveBinaryFormat_ (config c) then
      (Ok tt, (c, mkOutputs (txBuffer o) (fpAggregate o) (ownFile o ++ ownRecord (lastSampleTime_ c) (sample_ c) ++
        saveBinary ownRecord 1 alarmMask (alarmValueArray c))))
    else
      match saveText c [] alarmMask with
      | Ok s => (Ok tt, (c, mkOutputs (txBuffer o) (fpAggregate o) (ownFile o ++ s)))
      | Throw e => (Throw e, (c, o))
      end
  else (Ok tt, (c, o)).
Definition onChannel (f : Channel -> Channel) : M S unit := modify (fun '(c, o) => (f c, o)).
Definition isNoChange c : bool := recordChangesOnly_ (config c) && negb (lastSampleTime_ c =? 0) && bool_decide (lastSample_ c = sample_ c).
Definition handleSample (now : Z) (opens : bool) (universalReadValue : bytes) (aggregateIsBinaryFormat txBufferUsed : bool) : M S unit :=
  onChannel (fun c => set_read c universalReadValue) ≫= fun _ =>
  extractSample ≫= fun _ =>
  onChannel (fun c => set_lastTime c now) ≫= fun _ =>
  noChange ← gets (fun s => isNoChange s.1);
  if (noChange : bool) then mret tt
  else
    onChannel (fun c => set_lastSample c (sample_ c)) ≫= fun _ =>
    alarmMask ← sendPackets txBufferUsed;
    alarmMask ← saveAggregate aggregateIsBinaryFormat alarmMask;
    saveOwn opens alarmMask.
End Samples.
(** ** The packets, read back

    A reader of the format that the source documents: 1 byte of type, 1 of
    sequence, 8 of time, 4 for the size of the name, the name, 1 byte for the
    size of the value, 1 for its bits, the value. *)

Record Packet := mkPacket { type : Z; sequence : Z; time : Z; name : bytes; bits : Z; value : bytes }.
Definition readPacket (b : bytes) : option (Packet * bytes) :=
  match b with
  | type :: sequence :: b =>
      let time := number (take 8 b) in
      let size := Z.to_nat (number (take 4 (drop 8 b))) in
      let b := drop 12 b in
      match drop size b with
      | bytes :: bits :: b' =>
          let n := Z.to_nat bytes in
          if (length b' <? n)%nat then None
          else Some (mkPacket type sequence time (take size b) bits (take n b'), drop n b')
      | _ => None
      end
  | _ => None
  end.
Fixpoint readLoop (fuel : nat) (b : bytes) : option (list Packet) :=
  match b, fuel with
  | [], _ => Some []
  | _, O => None
  | _, S fuel => match readPacket b with Some (p, b) => cons p <$> readLoop fuel b | None => None end
  end.
Definition readPackets (b : bytes) : option (list Packet) := readLoop (length b) b.

Definition encode (p : Packet) : bytes :=
  [type p; sequence p] ++ bytesOf 8 (time p) ++ bytesOf 4 (Z.of_nat (length (name p))) ++ name p ++ [Z.of_nat (length (value p)); bits p] ++ value p.
Definition readable (p : Packet) : Prop := in_range 64 (time p) /\ Z.of_nat (length (name p)) < 2 ^ 32.

Lemma length_bytesOf n v : length (bytesOf n v) = n.
Proof. unfold bytesOf. by rewrite length_fmap, length_seq. Qed.
Lemma number_bytesOf n v : 0 <= v < 2 ^ (8 * Z.of_nat n) -> number (bytesOf n v) = v.
Proof.
  revert v. induction n as [|n IH]; intros v Hv; [cbn in *; change (2 ^ (8 * Z.of_nat 0)) with 1 in Hv; lia|].
  replace (8 * Z.of_nat (S n)) with (8 + 8 * Z.of_nat n) in Hv by lia. rewrite Z.pow_add_r in Hv by lia. change (2 ^ 8) with 256 in Hv.
  assert (E : bytesOf (S n) v = v mod 256 :: bytesOf n (v / 256)).
  { unfold bytesOf. cbn [seq fmap list_fmap]. rewrite byte_of_div by lia. change (2 ^ (8 * Z.of_nat 0)) with 1. rewrite Z.div_1_r. f_equal.
    rewrite <- seq_shift, <- list_fmap_compose. apply list_fmap_ext. intros _ i _. cbn. rewrite !byte_of_div by lia.
    replace (8 * Z.of_nat (S i)) with (8 + 8 * Z.of_nat i) by lia. rewrite Z.pow_add_r, <- Z.div_div by lia. done. }
  rewrite E. cbn [number]. rewrite IH; [Z.div_mod_to_equations; lia|]. split; [apply Z.div_pos; lia|]. apply Z.div_lt_upper_bound; lia.
Qed.
Lemma take_bytesOf n v b : take n (bytesOf n v ++ b) = bytesOf n v.
Proof. apply take_app_length'. by rewrite length_bytesOf. Qed.
Lemma drop_bytesOf n v b : drop n (bytesOf n v ++ b) = b.
Proof. apply drop_app_length'. by rewrite length_bytesOf. Qed.
Lemma readPacket_encode p b : readable p -> readPacket (encode p ++ b) = Some (p, b).
Proof.
  intros [Ht Hn]. destruct p as [t s time name bits value]. unfold encode, readable in *. cbn [type sequence FESlowControlsChannel.time FESlowControlsChannel.name FESlowControlsChannel.bits FESlowControlsChannel.value] in *.
  cbn [app readPacket]. rewrite <- !app_assoc. change 12%nat with (8 + 4)%nat. rewrite <- drop_drop, take_bytesOf, drop_bytesOf, take_bytesOf, drop_bytesOf.
  rewrite !number_bytesOf by (unfold in_range in *; cbn; lia). rewrite Nat2Z.id, drop_app_length, take_app_length. cbn [app]. rewrite Nat2Z.id.
  rewrite length_app. destruct (Nat.ltb_spec (length value + length b) (length value)); [lia|]. by rewrite take_app_length, drop_app_length.
Qed.
Lemma readLoop_encode ps b : Forall readable ps -> forall fuel qs, (length ps <= fuel)%nat -> readLoop (fuel - length ps) b = Some qs ->
  readLoop fuel (concat (map encode ps) ++ b) = Some (ps ++ qs).
Proof.
  induction 1 as [|p ps Hp _ IH]; intros fuel qs Hf Hb; cbn [map concat app length] in *; [by rewrite Nat.sub_0_r in Hb|].
  destruct fuel as [|fuel]; [lia|]. rewrite <- app_assoc. assert (E : exists x l, encode p ++ concat (map encode ps) ++ b = x :: l) by (by do 2 eexists).
  destruct E as (x & l & E). cbn [readLoop]. rewrite E, <- E, readPacket_encode by done. by rewrite (IH fuel qs) by (lia || done).
Qed.
Lemma encoded_lengths ps : (length ps <= length (concat (map encode ps)))%nat.
Proof. induction ps as [|p ps IH]; cbn [map concat length]; [lia|]. rewrite length_app. unfold encode at 1. rewrite !length_app. cbn. lia. Qed.
Lemma readPackets_encode ps : Forall readable ps -> readPackets (concat (map encode ps)) = Some ps.
Proof.
  intros H. unfold readPackets. pose proof (readLoop_encode ps [] H (length (concat (map encode ps))) []) as E. rewrite !app_nil_r in E. apply E; [apply encoded_lengths|].
  by destruct (_ - _)%nat.
Qed.

(** ** What a sample does *)

Section Sampled.
Context (past : nat -> bytes).
Implicit Types o : Outputs.

(** The bits of the channel in the value that was read. *)
Definition sampleOf (cfg : Config) (read : bytes) : bytes :=
  bytesOf (bytesFor (sizeOfDataTypeBits_ cfg)) ((number read / 2 ^ universalDataBitOffset_ cfg) mod 2 ^ sizeOfDataTypeBits_ cfg).
Definition fits (cfg : Config) (read : bytes) : Prop :=
  is_bytes read /\ Z.of_nat (length read) < 2 ^ 28 /\ 0 < sizeOfDataTypeBits_ cfg /\ 0 <= universalDataBitOffset_ cfg /\
  universalDataBitOffset_ cfg + sizeOfDataTypeBits_ cfg <= 8 * Z.of_nat (length read).
Definition sampled c (now : Z) (read : bytes) : Channel := set_lastTime (set_sample (set_read c read) (sampleOf (config c) read)) now.
(** What is worth a packet: the value, and the alarms that fire. *)
Fixpoint alarmEvents (i : Z) (fired : list bool) (values : list bytes) : list (Z * bytes) :=
  match fired, values with
  | f :: fired, value :: values => (if (f : bool) then [(i + 1, value)] else []) ++ alarmEvents (i + 1) fired values
  | _, _ => []
  end.
Definition events c : list (Z * bytes) :=
  if monitoringEnabled (config c)
  then (0, sample_ c) :: (if alarmsEnabled_ (config c) then alarmEvents 0 (firedAlarms past c) (alarmValueArray c) else [])
  else [].
Fixpoint numbered (cfg : Config) (seq time : Z) (events : list (Z * bytes)) : list Packet :=
  match events with
  | [] => []
  | (type, value) :: events =>
      mkPacket type seq time (asciiBytes (fullChannelName cfg)) (u8 (sizeOfDataTypeBits_ cfg)) value :: numbered cfg (u8 (seq + 1)) time events
  end.
Definition counted c (n : nat) : Channel := set_sequence c (u8 (txPacketSequenceNumber_ c + Z.of_nat n)).
Definition settled c : Channel :=
  counted (if alarmsEnabled_ (config c) then raise c (firedAlarms past c) else c) (length (events c)).
(** Sizes that the bytes of a packet can hold. *)
Definition wellSized (cfg : Config) : Prop :=
  Z.of_nat (length (fullChannelName cfg)) < 2 ^ 32 /\ sizeOfDataTypeBits_ cfg <= 2040 /\
  Forall (fun v => length v < 256)%nat [lolo_ cfg; lo_ cfg; hi_ cfg; hihi_ cfg].

Lemma extractSample_run c o : fits (config c) (universalReadValue_ c) ->
  extractSample (c, o) = (Ok tt, (set_sample c (sampleOf (config c) (universalReadValue_ c)), o)).
Proof.
  intros (Hb & Hl & Hn & Ho & Hf). unfold extractSample. destruct (extract_fits (universalReadValue_ c) [] _ _ Hb Hl Hn Ho Hf) as (out & -> & Hout & Hlen & Hnum).
  do 4 f_equal. apply number_inj; [done|apply bytesOf_bytes|unfold sampleOf; by rewrite length_bytesOf|]. unfold sampleOf. rewrite number_bytesOf; [done|].
  assert (0 < 2 ^ sizeOfDataTypeBits_ (config c)) by (apply Z.pow_pos_nonneg; lia).
  destruct (Z.mod_pos_bound (number (universalReadValue_ c) / 2 ^ universalDataBitOffset_ (config c)) (2 ^ sizeOfDataTypeBits_ (config c))) as [H1 H2]; [done|].
  split; [done|]. eapply Z.lt_le_trans; [exact H2|]. apply Z.pow_le_mono_r; [lia|]. unfold bytesFor. rewrite Z2Nat.id; Z.div_mod_to_equations; lia.
Qed.
Lemma sampleOf_length cfg read : 0 < sizeOfDataTypeBits_ cfg <= 2040 -> (length (sampleOf cfg read) < 256)%nat.
Proof. intros H. unfold sampleOf. rewrite length_bytesOf. unfold bytesFor. apply Nat2Z.inj_lt. rewrite Z2Nat.id; Z.div_mod_to_equations; lia. Qed.

Lemma counted_counted c n m : counted (counted c n) m = counted c (n + m).
Proof.
  unfold counted, set_sequence. cbn [txPacketSequenceNumber_ config universalReadValue_ sample_ lastSample_ lastSampleTime_ loloAlarmed_ loAlarmed_ hiAlarmed_ hihiAlarmed_]. f_equal.
  unfold wrap. rewrite Z.add_mod_idemp_l by done. f_equal. lia.
Qed.
Lemma addPacket_run c tx type value : in_range 8 (txPacketSequenceNumber_ c) -> 0 <= type < 256 -> (length value < 256)%nat ->
  addPacket c tx type value = (counted c 1, tx ++ concat (map encode (numbered (config c) (txPacketSequenceNumber_ c) (lastSampleTime_ c) [(type, value)]))).
Proof.
  intros Hs Ht Hl. unfold addPacket, packet. cbn [numbered map concat]. rewrite app_nil_r. unfold encode.
  cbn [FESlowControlsChannel.type sequence time name bits FESlowControlsChannel.value]. unfold asciiBytes. rewrite length_map, (wrap_small 8 type), (wrap_small 8 (txPacketSequenceNumber_ c)), (wrap_small 8 (Z.of_nat _)) by (unfold in_range in *; lia). done.
Qed.

Lemma counted_0 c : in_range 8 (txPacketSequenceNumber_ c) -> counted c 0 = c.
Proof. intros H. unfold counted, set_sequence. rewrite Z.add_0_r, wrap_small by done. by destruct c. Qed.
Lemma counted_range c n : in_range 8 (txPacketSequenceNumber_ (counted c n)).
Proof. by apply wrap_range. Qed.
Lemma numbered_app cfg s t es es' : in_range 8 s -> numbered cfg s t (es ++ es') = numbered cfg s t es ++ numbered cfg (u8 (s + Z.of_nat (length es))) t es'.
Proof.
  revert s. induction es as [|[k v] es IH]; intros s Hs; cbn [app numbered length]; [by rewrite Z.add_0_r, wrap_small|].
  rewrite IH by by apply wrap_range. do 3 f_equal. unfold wrap. rewrite Z.add_mod_idemp_l by done. f_equal. lia.
Qed.
Lemma alarmPackets_run fired : forall c tx i values, in_range 8 (txPacketSequenceNumber_ c) -> 0 <= i -> i + Z.of_nat (length fired) <= 255 ->
  Forall (fun v => length v < 256)%nat values ->
  alarmPackets c tx i fired values = (counted c (length (alarmEvents i fired values)),
    tx ++ concat (map encode (numbered (config c) (txPacketSequenceNumber_ c) (lastSampleTime_ c) (alarmEvents i fired values)))).
Proof.
  induction fired as [|f fired IH]; intros c tx i values Hs Hi Hn Hv; [cbn; by rewrite counted_0, app_nil_r|].
  cbn [length] in Hn. destruct Hv as [|v values Hlv Hv]; [cbn; by rewrite counted_0, app_nil_r|]. cbn [alarmPackets alarmEvents].
  destruct f; cbn [app].
  - rewrite addPacket_run by (done || lia). rewrite IH by (apply counted_range || done || lia). rewrite counted_counted. f_equal.
    change (?x :: ?l) with ([x] ++ l) at 2. rewrite numbered_app, map_app, concat_app, app_assoc by done. done.
  - by rewrite IH by (done || lia).
Qed.
Lemma config_raise c fired : config (raise c fired) = config c.
Proof. done. Qed.
(** The alarms do not depend on the counter. *)
Lemma firedAlarms_counted c n : firedAlarms past (counted c n) = firedAlarms past c.
Proof. done. Qed.
Lemma firedAlarms_length c : length (firedAlarms past c) = 4%nat.
Proof. done. Qed.
Lemma sendPackets_run used c o : in_range 8 (txPacketSequenceNumber_ c) -> wellSized (config c) -> (length (sample_ c) < 256)%nat ->
  (sendPackets past used (c, o)).2 =
    if used then (settled c, set_tx o (txBuffer o ++ concat (map encode (numbered (config c) (txPacketSequenceNumber_ c) (lastSampleTime_ c) (events c)))))
    else (c, o).
Proof.
  intros Hs (Hname & Hbits & Hthr) Hsample. unfold sendPackets. destruct used; [|rewrite !andb_false_r; by destruct o].
  rewrite !andb_true_r. unfold settled, events. destruct (monitoringEnabled (config c)) eqn:Em.
  - rewrite addPacket_run by (done || lia). unfold checkAlarms. cbn [config counted set_sequence]. destruct (alarmsEnabled_ (config c)) eqn:Ea; cbn [length].
    + rewrite firedAlarms_counted, config_raise. cbn [config counted set_sequence]. rewrite Em. rewrite alarmPackets_run; [|apply counted_range|lia|cbn; lia|exact Hthr].
      cbn [snd]. rewrite <- app_assoc. change (raise (counted c 1) ?f) with (counted (raise c f) 1). rewrite counted_counted.
      by rewrite <- concat_app, <- map_app.
    + done.
  - unfold checkAlarms. destruct (alarmsEnabled_ (config c)); cbn [length]; [rewrite config_raise, Em|]; cbn [snd numbered map concat]; rewrite app_nil_r; by rewrite counted_0.
Qed.
(** Files are no concern of the packets and the channel. *)
Lemma saveAggregate_keeps binary m c o : (saveAggregate past binary m (c, o)).2.1 = c /\ txBuffer (saveAggregate past binary m (c, o)).2.2 = txBuffer o.
Proof. unfold saveAggregate. destruct (fpAggregate o); [|done]. destruct binary; [done|]. by destruct (saveText _ _ _). Qed.
Lemma saveOwn_keeps opens m c o : (saveOwn past opens m (c, o)).2.1 = c /\ txBuffer (saveOwn past opens m (c, o)).2.2 = txBuffer o.
Proof. unfold saveOwn. destruct (_ && _); [|done]. destruct (saveBinaryFormat_ _); [done|]. by destruct (saveText _ _ _). Qed.
Lemma handleSample_run now opens read binary used c o : fits (config c) read -> in_range 8 (txPacketSequenceNumber_ c) -> wellSized (config c) ->
  let s' := (handleSample past now opens read binary used (c, o)).2 in
  let c1 := sampled c now read in
  let c2 := set_lastSample c1 (sample_ c1) in
  s'.1 = (if isNoChange c1 then c1 else if used then settled c2 else c2) /\
  txBuffer s'.2 = txBuffer o ++ (if isNoChange c1 || negb used then [] else concat (map encode (numbered (config c) (txPacketSequenceNumber_ c) now (events c2)))).
Proof.
  intros Hf Hs Hw s' c1 c2. subst s'. unfold handleSample. rewrite (bind_ok _ _ _ tt (set_read c read, o)) by done.
  rewrite (bind_ok _ _ _ _ _ (extractSample_run (set_read c read) o Hf)). rewrite (bind_ok _ _ _ tt (c1, o)) by done.
  rewrite (bind_ok _ _ _ (isNoChange c1) (c1, o)) by done. destruct (isNoChange c1); [cbn; by rewrite app_nil_r|]. rewrite (bind_ok _ _ _ tt (c2, o)) by done.
  assert (Hl : (length (sample_ c2) < 256)%nat) by (apply sampleOf_length; destruct Hf as (_ & _ & ? & _), Hw as (_ & ? & _); lia).
  pose proof (sendPackets_run used c2 o Hs Hw Hl) as E. destruct (sendPackets past used (c2, o)) as [[m|e] [c3 o3]] eqn:Esp; cbn [snd] in E;
    [|exfalso; unfold sendPackets in Esp; destruct (if _ && _ then _ else _) as [? ?]; destruct (if _ && _ then _ else _) as [[? ?] ?]; discriminate].
  rewrite (bind_ok _ _ _ _ _ Esp). destruct (saveAggregate_keeps binary m c3 o3) as [E1 E2]. unfold mbind, M_bind.
  assert (Hc : c3 = if used then settled c2 else c2) by (apply (f_equal fst) in E; by destruct used).
  assert (Ht : txBuffer o3 = txBuffer o ++ if false || negb used then [] else concat (map encode (numbered (config c) (txPacketSequenceNumber_ c) now (events c2)))).
  { apply (f_equal snd) in E. cbn [snd] in E. destruct used; cbn [snd] in E; rewrite E; cbn; [done|by rewrite app_nil_r]. }
  destruct (saveAggregate past binary m (c3, o3)) as [[m'|e] [c4 o4]]; cbn [fst snd] in *; [|split; [etrans; [exact E1|exact Hc]|etrans; [exact E2|exact Ht]]].
  destruct (saveOwn_keeps opens m' c4 o4) as [E3 E4]. split; [etrans; [exact E3|etrans; [exact E1|exact Hc]]|etrans; [exact E4|etrans; [exact E2|exact Ht]]].
Qed.

(** A sample that fits throws nothing; a step is undefined only in the text of an
    alarm. *)
Lemma alarmLines_throw c name fired e : forall k values, alarmLines past c name k fired values = Throw e -> e = Undefined.
Proof.
  induction fired as [|f fired IH]; intros k [|v values] H; try discriminate. cbn [alarmLines] in H. destruct f; cbn [mbind result_bind] in H.
  - unfold alarmLine in H. destruct (endsInB _); [destruct v; [|by injection H]|]; cbn [mbind result_bind] in H; destruct (alarmLines past c name (S k) fired values) eqn:E; try discriminate; injection H as <-; by eapply IH.
  - destruct (alarmLines past c name (S k) fired values) eqn:E; [discriminate|]. injection H as <-. by eapply IH.
Qed.
Lemma saveText_throw c name m e : saveText past c name m = Throw e -> e = Undefined.
Proof. unfold saveText. destruct (alarmLines _ _ _ _ _ _) eqn:E; [discriminate|]. intros [= <-]. by eapply alarmLines_throw. Qed.
Lemma handleSample_throw now opens read binary used c o e : fits (config c) read -> (handleSample past now opens read binary used (c, o)).1 = Throw e -> e = Undefined.
Proof.
  intros Hf. unfold handleSample. rewrite (bind_ok _ _ _ tt (set_read c read, o)) by done. rewrite (bind_ok _ _ _ _ _ (extractSample_run (set_read c read) o Hf)).
  set (c1 := sampled c now read). rewrite (bind_ok _ _ _ tt (c1, o)) by done. rewrite (bind_ok _ _ _ (isNoChange c1) (c1, o)) by done. destruct (isNoChange c1); [done|].
  rewrite (bind_ok _ _ _ tt (set_lastSample c1 (sample_ c1), o)) by done. unfold mbind at 1, M_bind at 1. unfold sendPackets. destruct (if _ && _ then _ else _) as [c2 tx2]. destruct (if _ && _ then _ else _) as [[m c3] tx3].
  unfold mbind, M_bind, saveAggregate, saveOwn. destruct (fpAggregate _); [destruct binary|].
  - destruct (_ && _); [|done]. destruct (saveBinaryFormat_ _); [done|]. destruct (saveText _ _ _ _) eqn:E; [done|]. cbn. intros [= <-]. by eapply saveText_throw.
  - destruct (saveText _ _ (line _) _) eqn:E; [|cbn; intros [= <-]; by eapply saveText_throw]. destruct (_ && _); [|done]. destruct (saveBinaryFormat_ _); [done|].
    destruct (saveText _ _ [] _) eqn:E'; [done|]. cbn. intros [= <-]. by eapply saveText_throw.
  - destruct (_ && _); [|done]. destruct (saveBinaryFormat_ _); [done|]. destruct (saveText _ _ _ _) eqn:E; [done|]. cbn. intros [= <-]. by eapply saveText_throw.
Qed.

Lemma numbered_readable cfg t es : forall s, wellSized cfg -> in_range 63 t -> Forall readable (numbered cfg s t es).
Proof.
  induction es as [|[k v] es IH]; intros s Hw Ht; cbn [numbered]; constructor; [|by apply IH]. split; cbn; [unfold in_range in *; change (2 ^ 63) with 9223372036854775808 in Ht; change (2 ^ 64) with 18446744073709551616; lia|].
  unfold asciiBytes. rewrite length_map. apply Hw.
Qed.
Lemma settled_config c : config (settled c) = config c.
Proof. unfold settled, counted. cbn [config set_sequence]. by destruct (alarmsEnabled_ (config c)). Qed.
Definition isValue (p : Packet) : bool := type p =? 0.
Definition isAlarm (k : nat) (p : Packet) : bool := type p =? Z.of_nat k + 1.
(** The comparison of the code for alarm [k]. *)
Definition meets (cfg : Config) (k : nat) (v : bytes) : bool :=
  let t := useTypeOf (dataType cfg) in
  match k with
  | 0%nat => leAs t (past 0) v (past 1) (lolo_ cfg)
  | 1%nat => leAs t (past 0) v (past 2) (lo_ cfg)
  | 2%nat => leAs t (past 3) (hi_ cfg) (past 0) v
  | 3%nat => leAs t (past 4) (hihi_ cfg) (past 0) v
  | _ => false
  end.
Definition alarmed c (k : nat) : bool := nth k [loloAlarmed_ c; loAlarmed_ c; hiAlarmed_ c; hihiAlarmed_ c] false.
Definition fires c (k : nat) (v : bytes) : bool := (negb (alarmed c k) || negb (latchAlarms_ (config c))) && meets (config c) k v.

Lemma firedAlarms_spec c k : (k < 4)%nat -> nth k (firedAlarms past c) false = fires c k (sample_ c).
Proof. intros H. do 4 (destruct k as [|k]; [done|]). lia. Qed.
Lemma alarmed_settled c k : (k < 4)%nat -> alarmsEnabled_ (config c) = true -> alarmed (settled c) k = alarmed c k || fires c k (sample_ c).
Proof. intros H E. rewrite <- firedAlarms_spec by done. unfold settled. rewrite E. do 4 (destruct k as [|k]; [done|]). lia. Qed.

Lemma filter_numbered_value cfg t es : forall s, Forall (fun e => e.1 <> 0) es -> List.filter isValue (numbered cfg s t es) = [].
Proof.
  induction es as [|[k v] es IH]; intros s He; [done|]. apply Forall_cons in He as [Hk He]. cbn [fst] in Hk. cbn [numbered List.filter].
  unfold isValue at 1. cbn [type]. destruct (Z.eqb_spec k 0); [done|]. by apply IH.
Qed.
Lemma alarmEvents_types fired : forall i values, 0 <= i -> Forall (fun e => e.1 <> 0) (alarmEvents i fired values).
Proof.
  induction fired as [|f fired IH]; intros i [|v values] Hi; cbn [alarmEvents]; try constructor. apply Forall_app. split; [|apply IH; lia].
  destruct f; [|constructor]. constructor; [cbn; lia|constructor].
Qed.
(** Each alarm that fires has one packet. *)
Definition countAlarm (k : nat) (ps : list Packet) : nat := length (List.filter (isAlarm k) ps).
Lemma countAlarm_app k ps qs : countAlarm k (ps ++ qs) = (countAlarm k ps + countAlarm k qs)%nat.
Proof. unfold countAlarm. by rewrite List.filter_app, length_app. Qed.
Lemma countAlarm_events c s t k : (k < 4)%nat ->
  countAlarm k (numbered (config c) s t (alarmEvents 0 (firedAlarms past c) (alarmValueArray c))) = if fires c k (sample_ c) then 1%nat else 0%nat.
Proof.
  intros H. rewrite <- firedAlarms_spec by done. unfold firedAlarms, alarmValueArray. generalize (lolo_ (config c)), (lo_ (config c)), (hi_ (config c)), (hihi_ (config c)).
  intros v0 v1 v2 v3. generalize (checked c (loloAlarmed_ c) && atOrBelow past c 1 v0), (checked c (loAlarmed_ c) && atOrBelow past c 2 v1),
    (checked c (hiAlarmed_ c) && atOrAbove past c 3 v2), (checked c (hihiAlarmed_ c) && atOrAbove past c 4 v3). intros f0 f1 f2 f3.
  do 4 (destruct k as [|k]; [by destruct f0, f1, f2, f3|]). lia.
Qed.
Lemma isValue_packets cfg t value es s : Forall (fun e => e.1 <> 0) es ->
  map (fun p => (time p, FESlowControlsChannel.value p)) (List.filter isValue (numbered cfg s t ((0, value) :: es))) = [(t, value)].
Proof. intros H. cbn [numbered List.filter]. unfold isValue at 1. cbn [type Z.eqb]. by rewrite filter_numbered_value. Qed.
Lemma events_types c : Forall (fun e => e.1 <> 0) (if alarmsEnabled_ (config c) then alarmEvents 0 (firedAlarms past c) (alarmValueArray c) else []).
Proof. destruct (alarmsEnabled_ _); [|constructor]. by apply alarmEvents_types. Qed.

(** Sequence numbers that count on from [s], modulo 256. *)
Definition numberedFrom (s : Z) (ps : list Packet) : Prop := forall i p, ps !! i = Some p -> sequence p = u8 (s + Z.of_nat i).
Lemma numberedFrom_app s ps qs : numberedFrom s ps -> numberedFrom (s + Z.of_nat (length ps)) qs -> numberedFrom s (ps ++ qs).
Proof.
  intros H1 H2 i p Hi. apply lookup_app_Some in Hi as [Hi|[Hi1 Hi2]]; [by apply H1|]. rewrite (H2 _ _ Hi2). f_equal. lia.
Qed.
Lemma numberedFrom_mod s s' ps : u8 s = u8 s' -> numberedFrom s ps -> numberedFrom s' ps.
Proof. intros E H i p Hi. rewrite (H _ _ Hi). unfold wrap in *. by rewrite <- Z.add_mod_idemp_l, E, Z.add_mod_idemp_l. Qed.
Lemma numbered_numberedFrom cfg t es : forall s, in_range 8 s -> numberedFrom s (numbered cfg s t es).
Proof.
  induction es as [|[k v] es IH]; intros s Hs [|i] p Hi; cbn [numbered] in Hi; try discriminate; cbn [lookup list_lookup] in Hi.
  - injection Hi as <-. cbn [sequence]. by rewrite Z.add_0_r, wrap_small.
  - apply IH in Hi; [|by apply wrap_range]. rewrite Hi. unfold wrap. rewrite Z.add_mod_idemp_l by done. f_equal. lia.
Qed.
Lemma numbered_length cfg t es : forall s, length (numbered cfg s t es) = length es.
Proof. induction es as [|[k v] es IH]; intros s; cbn; by rewrite ?IH. Qed.
Lemma numbered_names cfg t es : forall s, Forall (fun p => name p = asciiBytes (fullChannelName cfg)) (numbered cfg s t es).
Proof. induction es as [|[k v] es IH]; intros s; cbn; by constructor. Qed.
Lemma existsb_values (f : bytes -> bool) ps : existsb (fun p => isValue p && f (value p)) ps = existsb (fun e => f e.2) (map (fun p => (time p, value p)) (List.filter isValue ps)).
Proof. induction ps as [|p ps IH]; [done|]. cbn [existsb List.filter]. rewrite IH. by destruct (isValue p). Qed.

(** What one sample of a latching channel does to alarm [k]. *)
Lemma latched_step c now read : latchAlarms_ (config c) = true -> alarmsEnabled_ (config c) = true -> monitoringEnabled (config c) = true ->
  let c1 := sampled c now read in let c2 := set_lastSample c1 (sample_ c1) in
  forall k, (k < 4)%nat ->
  let ps := numbered (config c) (txPacketSequenceNumber_ c) now (events c2) in
  let hit := existsb (fun p => isValue p && meets (config c) k (value p)) ps in
  countAlarm k ps = (if negb (alarmed c k) && hit then 1 else 0)%nat /\ alarmed (settled c2) k = alarmed c k || hit.
Proof.
  intros Hl Ha Hm c1 c2 k Hk ps hit.
  assert (Hhit : hit = meets (config c) k (sample_ c2)).
  { subst hit ps. unfold events. cbn [c2 c1 config set_lastSample sampled set_lastTime set_sample set_read]. rewrite Hm, Ha. cbn [numbered existsb]. unfold isValue at 1. cbn [type value Z.eqb andb].
    fold c1. fold c2. set (es := alarmEvents _ _ _). assert (E : Forall (fun e => e.1 <> 0) es) by by apply alarmEvents_types.
    by rewrite (existsb_values (meets (config c) k)), filter_numbered_value, orb_false_r. }
  assert (Hf : fires c2 k (sample_ c2) = negb (alarmed c k) && hit).
  { unfold fires. rewrite Hhit. cbn [config c2 c1 set_lastSample sampled set_lastTime set_sample set_read]. rewrite Hl, orb_false_r. done. }
  split.
  - subst ps. unfold events. cbn [c2 c1 config set_lastSample sampled set_lastTime set_sample set_read]. rewrite Hm, Ha. fold c1. fold c2. rewrite <- Hf.
    rewrite <- (countAlarm_events c2 (u8 (txPacketSequenceNumber_ c + 1)) now k Hk). unfold countAlarm at 1. cbn [numbered List.filter]. unfold isAlarm at 1. cbn [type].
    destruct (Z.eqb_spec 0 (Z.of_nat k + 1)); [lia|]. done.
  - rewrite alarmed_settled by done. rewrite Hf. change (alarmed c2 k) with (alarmed c k). by destruct (alarmed c k), hit.
Qed.
End Sampled.

(** The memory behind a value does not matter to a value of the width of the
    comparison. *)
Lemma load_whole w behind s : length s = w -> load w behind s = number s.
Proof. intros <-. unfold load. by rewrite take_app_length. Qed.
Lemma number_zeros n : number (replicate n 0) = 0.
Proof. induction n as [|n IH]; cbn; [done|]. by rewrite IH. Qed.
(** A shorter one is compared right if the memory behind it is zero. *)
Lemma load_zeros w n s : (length s <= w)%nat -> load w (replicate n 0) s = number s.
Proof.
  intros H. unfold load. rewrite take_app_ge by done.
  change (0 :: replicate n 0) with (replicate (S n) 0). rewrite take_replicate. clear H. generalize ((w - length s) `min` S n)%nat. intros k. induction s as [|b s IH]; cbn; [apply number_zeros|by rewrite IH].
Qed.

(** ** Numbers that fill their memory

    The documented meaning of a value and a threshold, for the types whose width
    is the one the code compares. *)

Inductive NumberType := Unsigned64 | Signed64 | Float32 | Float64.
Definition typeName (t : NumberType) : text :=
  match t with
  | Unsigned64 => txt "unsigned long long" | Signed64 => txt "long long" | Float32 => txt "float" | Float64 => txt "double"
  end.
Definition width (t : NumberType) : nat := match t with Float32 => 4 | _ => 8 end.
Definition atMost (t : NumberType) (a b : bytes) : bool :=
  match t with
  | Unsigned64 => number a <=? number b
  | Signed64 => swrap 64 (number a) <=? swrap 64 (number b)
  | Float32 => SFleb (asFloat (number a)) (asFloat (number b))
  | Float64 => SFleb (asDouble (number a)) (asDouble (number b))
  end.
(** The channel holds numbers of type [t], and its thresholds are such. *)
Record holds (t : NumberType) (cfg : Config) : Prop := {
  h_type : dataType cfg = typeName t;
  h_bits : sizeOfDataTypeBits_ cfg = 8 * Z.of_nat (width t);
  h_thresholds : Forall (fun v => length v = width t) [lolo_ cfg; lo_ cfg; hi_ cfg; hihi_ cfg] }.
(** The value reaches the threshold of alarm [k]: it is at or below the two
    low ones, at or above the two high ones. *)
Definition reaches (t : NumberType) (cfg : Config) (k : nat) (v : bytes) : bool :=
  match k with
  | 0%nat => atMost t v (lolo_ cfg)
  | 1%nat => atMost t v (lo_ cfg)
  | 2%nat => atMost t (hi_ cfg) v
  | 3%nat => atMost t (hihi_ cfg) v
  | _ => false
  end.
Lemma leAs_atMost t pa a pb b : length a = width t -> length b = width t -> leAs (useTypeOf (typeName t)) pa a pb b = atMost t a b.
Proof.
  intros Ha Hb. destruct t; cbn [width] in *; match goal with |- leAs ?u _ _ _ _ = _ => let u' := eval vm_compute in u in change u with u' end;
    unfold leAs, loadSigned, atMost; by rewrite !load_whole.
Qed.
Lemma meets_reaches past t cfg k v : holds t cfg -> length v = width t -> meets past cfg k v = reaches t cfg k v.
Proof.
  intros [Ht _ Hth] Hv. unfold meets, reaches. rewrite Ht. repeat (apply Forall_cons in Hth as [? Hth]).
  do 4 (destruct k as [|k]; [by apply leAs_atMost|]). done.
Qed.
Lemma sampleOf_width t cfg read : holds t cfg -> length (sampleOf cfg read) = width t.
Proof. intros [_ Hb _]. unfold sampleOf. rewrite length_bytesOf, Hb. by destruct t. Qed.

(** ** Many samples

    The samples of a channel: the time, whether its file opens, what was read,
    and what is in the memory behind the values at that moment. *)
Abbreviation Sample := (Z * bool * bytes * (nat -> bytes))%type.
Fixpoint handleSamples (binary : bool) (samples : list Sample) : M (Channel * Outputs) unit :=
  match samples with
  | [] => mret tt
  | (now, opens, read, past) :: samples => handleSample past now opens read binary true ≫= fun _ => handleSamples binary samples
  end.
Fixpoint packetsOf c (samples : list Sample) : list Packet :=
  match samples with
  | [] => []
  | (now, _, read, past) :: samples =>
      let c1 := sampled c now read in
      if isNoChange c1 then packetsOf c1 samples
      else
        let c2 := set_lastSample c1 (sample_ c1) in
        numbered (config c) (txPacketSequenceNumber_ c) now (events past c2) ++ packetsOf (settled past c2) samples
  end.
(** The bits of the channel lie in what is read, and the clock is that of a
    time after 1970. *)
Definition allFit (cfg : Config) (samples : list Sample) : Prop := Forall (fun s => fits cfg s.1.2 /\ 0 < s.1.1.1 < 2 ^ 63) samples.

Lemma handleSamples_run binary samples : forall c o s', allFit (config c) samples -> in_range 8 (txPacketSequenceNumber_ c) -> wellSized (config c) ->
  handleSamples binary samples (c, o) = (Ok tt, s') ->
  txBuffer s'.2 = txBuffer o ++ concat (map encode (packetsOf c samples)) /\ Forall readable (packetsOf c samples).
Proof.
  induction samples as [|[[[now opens] read] past] samples IH]; intros c o s' Hf Hs Hw Hr; cbn [handleSamples packetsOf] in *; [injection Hr as <-; cbn; by rewrite app_nil_r|].
  apply Forall_cons in Hf as [[Hf1 Hnow] Hf]. cbn [fst snd] in *. apply bind_inv in Hr as ([] & [c3 o3] & H1 & Hr).
  pose proof (handleSample_run past now opens read binary true c o Hf1 Hs Hw) as [E1 E2]. rewrite H1 in E1, E2. cbn [fst snd negb] in E1, E2. rewrite orb_false_r in E2. subst c3.
  destruct (isNoChange (sampled c now read)).
  - rewrite app_nil_r in E2. apply IH in Hr as [Hr1 Hr2]; [|done..]. by rewrite Hr1, E2.
  - set (c2 := set_lastSample _ _) in *. apply IH in Hr as [Hr1 Hr2]; [|by rewrite settled_config..|by apply wrap_range|by rewrite settled_config].
    rewrite Hr1, E2, <- app_assoc, map_app, concat_app. split; [done|]. apply Forall_app. split; [apply numbered_readable; [done|unfold in_range; lia]|done].
Qed.

(** The values that are to be recorded: all of them, or the first one and those
    that differ from the one before. *)
Fixpoint recorded (cfg : Config) (first : bool) (before : bytes) (samples : list Sample) : list (Z * bytes) :=
  match samples with
  | [] => []
  | (now, _, read, _) :: samples =>
      let value := sampleOf cfg read in
      if recordChangesOnly_ cfg && negb first && bool_decide (before = value) then recorded cfg false before samples
      else (now, value) :: recorded cfg false value samples
  end.
Definition neverSampled c : bool := lastSampleTime_ c =? 0.
Definition toRecord c (samples : list Sample) : list (Z * bytes) := recorded (config c) (neverSampled c) (lastSample_ c) samples.
(** The first value of a channel that records changes is not the one its last
    sample starts with, which the code would take for unchanged. *)
Definition firstDiffers c (samples : list Sample) : Prop :=
  recordChangesOnly_ (config c) = true -> neverSampled c = true ->
  match samples with [] => True | s :: _ => sampleOf (config c) s.1.2 <> lastSample_ c end.
Lemma sampledBefore c samples : lastSampleTime_ c <> 0 -> neverSampled c = false /\ firstDiffers c samples.
Proof. unfold firstDiffers, neverSampled. intros H. destruct (Z.eqb_spec (lastSampleTime_ c) 0); by split. Qed.

(** The values among the packets are those to be recorded. *)
Lemma packetsOf_values samples : forall c, allFit (config c) samples -> firstDiffers c samples -> monitoringEnabled (config c) = true ->
  map (fun p => (time p, value p)) (List.filter isValue (packetsOf c samples)) = toRecord c samples.
Proof.
  unfold toRecord. induction samples as [|[[[now opens] read] past] samples IH]; intros c Hf Hd Hm; [done|]. apply Forall_cons in Hf as [[_ Hnow] Hf]. cbn [fst snd] in *.
  cbn [packetsOf recorded]. unfold isNoChange at 1. cbn [sampled set_lastTime set_sample set_read config lastSampleTime_ lastSample_ sample_].
  destruct (Z.eqb_spec now 0); [lia|]. cbn [negb]. rewrite andb_true_r. unfold firstDiffers in Hd. cbn [fst snd] in Hd.
  destruct (recordChangesOnly_ (config c) && bool_decide (lastSample_ c = sampleOf (config c) read)) eqn:E.
  - apply andb_prop in E as [E1 E2]. rewrite E1, E2. apply bool_decide_eq_true in E2. destruct (neverSampled c); [by destruct (Hd E1 eq_refl)|]. cbn [andb negb].
    destruct (sampledBefore (sampled c now read) samples) as [Hn Hd1]; [done|]. specialize (IH (sampled c now read) Hf Hd1 Hm). by rewrite Hn in IH.
  - replace (recordChangesOnly_ (config c) && negb (neverSampled c) && bool_decide (lastSample_ c = sampleOf (config c) read)) with false
      by (symmetry; destruct (recordChangesOnly_ (config c)), (neverSampled c); (done || exact E)).
    set (c2 := set_lastSample _ _). rewrite List.filter_app, map_app. assert (Hc2 : config (settled past c2) = config c) by by rewrite settled_config.
    destruct (sampledBefore (settled past c2) samples) as [Hn Hd1]; [unfold settled, counted; cbn [lastSampleTime_ set_sequence]; destruct (alarmsEnabled_ _); cbn; lia|].
    rewrite IH, Hn, Hc2 by by rewrite ?Hc2. unfold events. change (monitoringEnabled (config c2)) with (monitoringEnabled (config c)). rewrite Hm.
    change (config c) with (config c2) at 1. rewrite isValue_packets by apply (events_types past c2). cbn [app]. do 2 f_equal.
    unfold settled, counted. cbn [lastSample_ set_sequence]. by destruct (alarmsEnabled_ _).
Qed.
Lemma packetsOf_numbered samples : forall c, in_range 8 (txPacketSequenceNumber_ c) -> numberedFrom (txPacketSequenceNumber_ c) (packetsOf c samples).
Proof.
  induction samples as [|[[[now opens] read] past] samples IH]; intros c Hs; cbn [packetsOf]; [by intros i p; rewrite lookup_nil|]. destruct (isNoChange _); [by apply (IH (sampled c now read))|].
  apply numberedFrom_app; [by apply numbered_numberedFrom|]. set (c2 := set_lastSample _ _). eapply numberedFrom_mod; [|apply IH; by apply wrap_range].
  rewrite numbered_length. unfold settled, counted. cbn [txPacketSequenceNumber_ set_sequence]. rewrite wrap_wrap by lia. by destruct (alarmsEnabled_ _).
Qed.

Lemma packetsOf_names samples : forall c, Forall (fun p => name p = asciiBytes (fullChannelName (config c))) (packetsOf c samples).
Proof.
  induction samples as [|[[[now opens] read] past] samples IH]; intros c; cbn [packetsOf]; [constructor|]. destruct (isNoChange _); [exact (IH (sampled c now read))|].
  apply Forall_app. split; [apply numbered_names|]. specialize (IH (settled past (set_lastSample (sampled c now read) (sample_ (sampled c now read))))). by rewrite settled_config in IH.
Qed.
(** C18: What is sent of a run of samples is read back by the documented format: the
    values are those that were read at the channel's bits, with their times, all
    of them, or the first one and those that differ from the one before; and the
    sequence numbers count the packets modulo 256.  The first value of a channel
    that records changes is not zero, which it starts with ([firstDiffers]:
    such a value is lost, [first_zero_dropped]); the bits lie in what is read
    ([allFit]), and sizes in the bytes of the packet ([wellSized]). *)
Theorem samples_read_back binary samples c o s' :
  allFit (config c) samples -> in_range 8 (txPacketSequenceNumber_ c) -> wellSized (config c) -> monitoringEnabled (config c) = true ->
  firstDiffers c samples -> txBuffer o = [] -> handleSamples binary samples (c, o) = (Ok tt, s') ->
  exists ps, readPackets (txBuffer s'.2) = Some ps /\
    map (fun p => (time p, value p)) (List.filter isValue ps) = toRecord c samples /\
    Forall (fun p => name p = asciiBytes (fullChannelName (config c))) ps /\
    numberedFrom (txPacketSequenceNumber_ c) ps.
Proof.
  intros Hf Hs Hw Hm Hd Ho Hr. apply handleSamples_run in Hr as [Ht Hr]; [|done..]. exists (packetsOf c samples). rewrite Ht, Ho. cbn [app].
  split_and!; [by apply readPackets_encode|by apply packetsOf_values|by apply packetsOf_names|by apply packetsOf_numbered].
Qed.

Lemma meets_packets past t c s time es k : holds t (config c) -> (length (sample_ c) = width t) -> Forall (fun e => e.1 <> 0) es ->
  existsb (fun p => isValue p && meets past (config c) k (value p)) (numbered (config c) s time ((0, sample_ c) :: es)) =
  existsb (fun p => isValue p && reaches t (config c) k (value p)) (numbered (config c) s time ((0, sample_ c) :: es)).
Proof.
  intros Ht Hl He. cbn [numbered existsb]. unfold isValue at 1 3. cbn [type Z.eqb andb value].
  by rewrite (existsb_values (meets past (config c) k)), (existsb_values (reaches t (config c) k)), filter_numbered_value, (meets_reaches past t).
Qed.
Lemma latched_packets t k samples : (k < 4)%nat -> forall c, holds t (config c) -> latchAlarms_ (config c) = true -> alarmsEnabled_ (config c) = true -> monitoringEnabled (config c) = true ->
  let ps := packetsOf c samples in
  let hit := existsb (fun p => isValue p && reaches t (config c) k (value p)) ps in
  countAlarm k ps = (if negb (alarmed c k) && hit then 1 else 0)%nat.
Proof.
  intros Hk. induction samples as [|[[[now opens] read] past] samples IH]; intros c Ht Hl Ha Hm; cbn [packetsOf]; [by rewrite andb_false_r|].
  destruct (isNoChange _); [exact (IH (sampled c now read) Ht Hl Ha Hm)|]. set (c2 := set_lastSample _ _).
  destruct (latched_step past c now read Hl Ha Hm k Hk) as [H1 H2]. fold c2 in H1, H2. cbn zeta. rewrite countAlarm_app, existsb_app.
  assert (Hhit : existsb (fun p => isValue p && meets past (config c) k (value p)) (numbered (config c) (txPacketSequenceNumber_ c) now (events past c2)) =
    existsb (fun p => isValue p && reaches t (config c) k (value p)) (numbered (config c) (txPacketSequenceNumber_ c) now (events past c2))).
  { unfold events. change (monitoringEnabled (config c2)) with (monitoringEnabled (config c)). rewrite Hm. change (config c) with (config c2).
    apply meets_packets; [exact Ht|exact (sampleOf_width t (config c) read Ht)|apply events_types]. }
  rewrite Hhit in H1, H2. rewrite H1. specialize (IH (settled past c2)). rewrite settled_config in IH. cbn zeta in IH. rewrite (IH Ht Hl Ha Hm), H2.
  generalize (existsb (fun p => isValue p && reaches t (config c) k (value p)) (numbered (config c) (txPacketSequenceNumber_ c) now (events past c2))). change (config c2) with (config c). intros b.
  by destruct (alarmed c k), b, (existsb _ _).
Qed.
(** C19: A latched alarm is sent once: in any run of samples there is one packet for
    it if it was not raised before and one of the values to be recorded reaches
    its threshold as a number, and none otherwise, whatever is in the memory
    around the values.  The channel's type is one of the width that the code
    compares, [unsigned long long], [long long], [float] or [double] ([holds]);
    shorter ones are compared with the memory behind them
    ([short_alarm_compares_eight_bytes]).  As for the packets, the first value
    of a channel that records changes is not zero. *)
Theorem latched_alarm_once t binary samples c o s' k :
  allFit (config c) samples -> in_range 8 (txPacketSequenceNumber_ c) -> wellSized (config c) -> holds t (config c) ->
  monitoringEnabled (config c) = true -> alarmsEnabled_ (config c) = true -> latchAlarms_ (config c) = true -> (k < 4)%nat ->
  firstDiffers c samples -> txBuffer o = [] -> handleSamples binary samples (c, o) = (Ok tt, s') ->
  exists ps, readPackets (txBuffer s'.2) = Some ps /\
    countAlarm k ps = (if negb (alarmed c k) && existsb (fun e => reaches t (config c) k e.2) (toRecord c samples) then 1 else 0)%nat.
Proof.
  intros Hf Hs Hw Ht Hm Ha Hl Hk Hd Ho Hr. apply handleSamples_run in Hr as [Hb Hr]; [|done..]. exists (packetsOf c samples). rewrite Hb, Ho. cbn [app].
  split; [by apply readPackets_encode|]. rewrite (latched_packets t), <- packetsOf_values, existsb_values by done. done.
Qed.

(** ** Runs *)

Definition noScan (_ : text) : option bytes := None.
Definition fe : Interface := mkInterface (txt "FE1") (txt "ADC") 4 8.
Definition channelOf (dataType lolo hi : string) (offset : Z) (changesOnly ownBinary : bool) : Channel :=
  match (FESlowControlsChannel noScan noScan fe (fun _ _ => ReadOk []) 1700000000 (txt "T1") (txt dataType) (txt "0x10") [] offset
           true false true changesOnly 5 true (txt "/data") (txt "sc") ownBinary true true (txt lolo) (txt lolo) (txt hi) (txt "500") false).1 with
  | Ok c => c
  | Throw _ => mkChannel (mkConfig fe [] [] [] [] 0 0 0 0 false false false false 0 false false false false [] [] [] [] [] []) 0 [] [] [] 0 false false false false
  end.
Definition noPast (_ : nat) : bytes := replicate 16 0.
Definition nothing : Outputs := mkOutputs [] None [].
Abbreviation run samples c := (handleSamples true samples (c, nothing)) (only parsing).

Definition c1 : Channel := channelOf "unsigned long long" "5" "100" 0 true true.
Definition word (v : Z) : bytes := bytesOf 8 v.
(** The memory behind the values changes as it likes. *)
Definition somePast (b : Z) (k : nat) : bytes := replicate (16 - k) b.
Definition sampleRun : list Sample :=
  [(1700000000, true, word 50, noPast); (1700000005, true, word 3, somePast 255); (1700000010, true, word 3, somePast 7); (1700000015, true, word 2, noPast);
   (1700000020, true, word 600, somePast 1)].

Lemma c1_sized : wellSized (config c1).
Proof. split; [by vm_compute|]. split; [by vm_compute|]. repeat constructor; cbn; lia. Qed.
Lemma sampleRun_fits : allFit (config c1) sampleRun.
Proof.
  assert (B : forallb (fun s => forallb (fun b => (0 <=? b) && (b <? 2 ^ 8)) s.1.2 && (length s.1.2 =? 8)%nat && (0 <? s.1.1.1) && (s.1.1.1 <? 2 ^ 63)) sampleRun = true) by by vm_compute.
  rewrite forallb_forall in B. apply Forall_forall. intros s Hs%list_elem_of_In. apply B in Hs. rewrite !andb_true_iff, !Z.ltb_lt, Nat.eqb_eq, forallb_forall in Hs.
  destruct Hs as [[[H1 H2] H3] H4]. split; [|done]. unfold fits. rewrite H2. split_and!; [|by vm_compute..|by intros [=]|by intros [=]].
  apply Forall_forall. intros b Hb%list_elem_of_In. apply H1 in Hb. rewrite andb_true_iff, Z.leb_le, Z.ltb_lt in Hb. done.
Qed.
Lemma samples_read_back_witness :
  exists s' ps, run sampleRun c1 = (Ok tt, s') /\ readPackets (txBuffer s'.2) = Some ps /\
    map (fun p => (time p, number (value p))) (List.filter isValue ps) = [(1700000000, 50); (1700000005, 3); (1700000015, 2); (1700000020, 600)].
Proof.
  destruct (run sampleRun c1) as [r s'] eqn:Hr. pose proof (run_result _ _ _ _ (Ok tt) Hr ltac:(by vm_compute)) as E. subst r. exists s'.
  destruct (samples_read_back true sampleRun c1 nothing s') as (ps & H1 & H2 & _); [apply sampleRun_fits|split; by vm_compute|apply c1_sized|by vm_compute|by vm_compute|done|exact Hr|].
  exists ps. split; [done|]. split; [exact H1|]. assert (E : forall l, map (fun p => (time p, number (value p))) l = map (fun e => (e.1, number e.2)) (map (fun p => (time p, value p)) l)) by (intros l; rewrite map_map; done).
  rewrite E, H2. by vm_compute.
Defined.
Lemma latched_alarm_once_witness :
  exists s' ps, run sampleRun c1 = (Ok tt, s') /\ readPackets (txBuffer s'.2) = Some ps /\ countAlarm 0 ps = 1%nat.
Proof.
  destruct (run sampleRun c1) as [r s'] eqn:Hr. pose proof (run_result _ _ _ _ (Ok tt) Hr ltac:(by vm_compute)) as E. subst r. exists s'.
  destruct (latched_alarm_once Unsigned64 true sampleRun c1 nothing s' 0) as (ps & H1 & H2); [apply sampleRun_fits|split; by vm_compute|apply c1_sized|split; [done|done|repeat constructor]|by vm_compute..|lia|by vm_compute|done|exact Hr|].
  exists ps. split; [done|]. split; [exact H1|]. rewrite H2. by vm_compute.
Defined.
(** A first value of zero is taken for unchanged: the last sample is zeros, and
    its time is set just before it is tested. *)
Lemma first_zero_dropped : txBuffer (run [(1700000000, true, word 0, noPast)] c1).2.2 = [] /\ ownFile (run [(1700000000, true, word 0, noPast)] c1).2.2 = [].
Proof. by vm_compute. Qed.
(** -1 is not at or below 0 for a [short], if the memory behind it is zero;
    what it is depends on that memory. *)
Definition cShort : Channel := channelOf "short" "0" "1000" 0 false true.
Lemma short_alarm_compares_eight_bytes :
  nth 0 (firedAlarms noPast (set_sample cShort [255; 255])) true = false /\
  nth 0 (firedAlarms (fun k => match k with O => replicate 16 255 | _ => replicate 16 0 end) (set_sample cShort [255; 255; 255])) false = true /\
  nth 2 (firedAlarms noPast (set_sample cShort [255; 255])) false = true.
Proof. by vm_compute. Qed.
(** The file of the channel misses the alarms if the front end has a binary
    file. *)
Lemma own_file_misses_alarms :
  length (ownFile (handleSample noPast 1700000000 true (word 600) true true (c1, mkOutputs [] None [])).2.2) = 48%nat /\
  length (ownFile (handleSample noPast 1700000000 true (word 600) true true (c1, mkOutputs [] (Some []) [])).2.2) = 16%nat.
Proof. by vm_compute. Qed.
(** An alarm of a number of bits is never printed: the loop counts the wrong
    variable. *)
Definition cBits : Channel := channelOf "12b" "5" "100" 4 false false.
Lemma text_alarm_of_bits :
  (handleSample noPast 1700000000 true [64; 12; 0; 0; 0; 0; 0; 0] false true (cBits, nothing)).1 = Throw Undefined /\
  ownFile (handleSample noPast 1700000000 true [64; 2; 0; 0; 0; 0; 0; 0] false true (cBits, nothing)).2.2 = line (txt "1700000000") ++ line (txt "0x2400").
Proof. by vm_compute. Qed.
Example print_f_half : print_f false (asDouble 4608308318706860032) = txt "1.250000" /\ asFloat 1069547520 = S754_finite false 12582912 (-23).
Proof. by vm_compute. Qed.
End FESlowControlsChannel.
