(* ===== verification/SlowControls.v ===== *)
(** * The slow-controls work loop of a front end

    [slowControlsRunning] of src/otsdaq/FECore/FEVInterface.cc and what it uses:
    once a second the channels that are due are read (or take the value another
    channel of the same address has just read), handled, sent as UDP datagrams
    and handed to the metric manager.

    The work loop's environment answers step by step: the clock, whether the
    loop goes on, whether slow controls are paused, the reads of the plugin,
    whether a channel's file opens, what is in the memory behind the values of
    a sample, and whether [sendto] sends a datagram.  The tree, read before the loop, and
    the metric manager and formulas of artdaq and ROOT are arguments; traces
    are left out.  The channels are those of [mapOfSlowControlsChannels_], in
    its order. *)

From Stdlib Require Import SpecFloat.
From S2P Require Import Prelude CText Network StringMacros StringLists BinaryStrings FESlowControlsChannel.

Module SlowControls.
Import BinaryStringMacros FESlowControlsChannel.

Definition UNKNOWN_TYPE : text := txt "UNKNOWN".
Definition txBufferSz : nat := 1500.
Definition txBufferFullThreshold : nat := 750.

(** The answers of the environment, by the number of the question. *)
Record Environment := mkEnvironment {
  clock : nat -> Z; getContinueWorkLoop : nat -> bool; slowControlsWorkLoopShouldRun_ : nat -> bool; reads : nat -> readAnswer; opens : nat -> bool;
  behind : nat -> nat -> bytes; sendtoWorks : nat -> bool;
  metricsRunning : bool; (* metricMan && metricMan->Running() *)
  Eval : text -> Z -> spec_float (* TFormula *) }.
(** What was set up from the tree: the socket, the format of the aggregate
    file. *)
Record Setup := mkSetup { slowControlsTxSocket : bool; aggregateFileIsBinaryFormat : bool; universalAddressSize : Z }.

Inductive metric := Plain (value : Z) | Transformed (value : spec_float).
Record Loop := mkLoop {
  channels : list Channel; iterator : nat; buffer : bytes; fp : option bytes; ownFiles : gmap text bytes;
  sent : list bytes; metrics : list (text * metric); questions : nat;
  timeCounter : Z; numOfReadAccessChannels : Z; firstTime : bool }.
Implicit Types l : Loop.
Definition set_iterator l (i : nat) := mkLoop (channels l) i (buffer l) (fp l) (ownFiles l) (sent l) (metrics l) (questions l) (timeCounter l) (numOfReadAccessChannels l) (firstTime l).
Definition set_buffer l (b : bytes) := mkLoop (channels l) (iterator l) b (fp l) (ownFiles l) (sent l) (metrics l) (questions l) (timeCounter l) (numOfReadAccessChannels l) (firstTime l).
Definition set_handled l (cs : list Channel) (b : bytes) (f : option bytes) (o : gmap text bytes) := mkLoop cs (iterator l) b f o (sent l) (metrics l) (questions l) (timeCounter l) (numOfReadAccessChannels l) (firstTime l).
Definition add_sent l (b : bytes) := mkLoop (channels l) (iterator l) (buffer l) (fp l) (ownFiles l) (sent l ++ [b]) (metrics l) (questions l) (timeCounter l) (numOfReadAccessChannels l) (firstTime l).
Definition add_metric l (m : text * metric) := mkLoop (channels l) (iterator l) (buffer l) (fp l) (ownFiles l) (sent l) (metrics l ++ [m]) (questions l) (timeCounter l) (numOfReadAccessChannels l) (firstTime l).
Definition asked l := mkLoop (channels l) (iterator l) (buffer l) (fp l) (ownFiles l) (sent l) (metrics l) (S (questions l)) (timeCounter l) (numOfReadAccessChannels l) (firstTime l).
Definition set_counts l (t n : Z) (first : bool) := mkLoop (channels l) (iterator l) (buffer l) (fp l) (ownFiles l) (sent l) (metrics l) (questions l) t n first.

(** ** The iterator over the channels *)

Definition resetSlowControlsChannelIterator : M Loop unit := modify (fun l => set_iterator l 0).
(** The index of the channel, [None] for the null pointer. *)
Definition getNextSlowControlsChannel : M Loop (option nat) := fun l =>
  if (iterator l <? length (channels l))%nat then (Ok (Some (iterator l)), set_iterator l (S (iterator l))) else (Ok None, l).
Definition getSlowControlsChannelCount l : Z := u32 (Z.of_nat (length (channels l))).
Definition channelAt (i : nat) : M Loop Channel := fun l =>
  match channels l !! i with Some c => (Ok c, l) | None => (Throw Undefined, l) end.

(** The macro that pauses slow controls: the flag, and its result. *)
Definition PauseResumeSlowControls (pause : bool) : bool * text :=
  (negb pause, txt "Slow Controls workloop is " ++ if negb pause then txt "active." else txt "paused.").

Section Running.
Variables (env : Environment) (setup : Setup).
Definition ask {A} (answer : nat -> A) : M Loop A := fun l => (Ok (answer (questions l)), asked l).

(** [channel->handleSample(...)] on the channel [c] at [i]. *)
Definition sampleOn (i : nat) (c : Channel) (now : Z) (fileOpens : bool) (past : nat -> bytes) (read : bytes) : M Loop unit := fun l =>
  let name := saveFullFileName_ (config c) in
  let '(r, (c, o)) := handleSample past now fileOpens read (aggregateFileIsBinaryFormat setup) (slowControlsTxSocket setup)
    (c, mkOutputs (buffer l) (fp l) (default [] (ownFiles l !! name))) in
  (r, set_handled l (<[i := c]> (channels l)) (txBuffer o) (fpAggregate o) (<[name := ownFile o]> (ownFiles l))).
Definition handle (i : nat) (read : bytes) : M Loop unit :=
  now ← ask (clock env);
  fileOpens ← ask (opens env);
  past ← ask (behind env);
  c ← channelAt i;
  sampleOn i c now fileOpens past read.

(** Whether [channel] may take what [channelToCopy] has read. *)
Definition sameAddress (channelToCopy channel : Channel) : result bool :=
  a ← binaryNumberToHexString_string (getUniversalAddress channelToCopy) (txt "0x") (txt " ");
  b ← binaryNumberToHexString_string (getUniversalAddress channel) (txt "0x") (txt " ");
  Ok (textEq a b).
Definition mayCopy (usingBufferedValue : bool) (channelToCopy channel : Channel) : M Loop bool :=
  if usingBufferedValue || negb (textEq (getInterfaceUID channelToCopy) (getInterfaceUID channel)) ||
     negb (textEq (getInterfaceType channelToCopy) (getInterfaceType channel)) then mret false
  else
    same ← lift (sameAddress channelToCopy channel);
    if negb same || negb (getReadSizeBytes channelToCopy =? getReadSizeBytes channel) then mret false
    else now ← ask (clock env); mret (now - lastSampleTime_ channelToCopy <? 2).
(** The search goes on after it has found a value, until the iterator is back
    behind the channel. *)
Fixpoint searchLoop (fuel i : nat) (usingBufferedValue : bool) : M Loop bool :=
  match fuel with
  | O => throw Undefined
  | S fuel =>
      next ← getNextSlowControlsChannel;
      match next with
      | None => mret usingBufferedValue
      | Some j =>
          if (j =? i)%nat then mret usingBufferedValue
          else
            channelToCopy ← channelAt j;
            channel ← channelAt i;
            copy ← mayCopy usingBufferedValue channelToCopy channel;
            if (copy : bool) then handle i (universalReadValue_ channelToCopy) ≫= fun _ => searchLoop fuel i true
            else searchLoop fuel i usingBufferedValue
      end
  end.
Definition searchBuffered (i : nat) : M Loop bool :=
  channel ← channelAt i;
  if textEq (getInterfaceType channel) UNKNOWN_TYPE then mret false
  else
    resetSlowControlsChannelIterator ≫= fun _ =>
    fuel ← gets (fun l => S (length (channels l)));
    searchLoop fuel i false.

(** The value for the metric manager: a byte is shifted as an [int]. *)
Fixpoint metricLoop (sample : bytes) (ii val : Z) : result Z :=
  match sample with
  | [] => Ok val
  | b :: sample => if 32 <=? ii * 8 then Throw Undefined else metricLoop sample (ii + 1) (u64 (val + s32 (Z.shiftl b (ii * 8))))
  end.
Definition sendMetric (i : nat) : M Loop unit :=
  channel ← channelAt i;
  if monitoringEnabled (config channel) && metricsRunning env && (universalAddressSize setup <=? 8) then
    val ← lift (metricLoop (sample_ channel) 0 0);
    if (1 <? length (transformation (config channel)))%nat then
      match Eval env (transformation (config channel)) val with
      | S754_nan => throw RuntimeError
      | transformedVal => modify (fun l => add_metric l (fullChannelName (config channel), Transformed transformedVal))
      end
    else modify (fun l => add_metric l (fullChannelName (config channel), Plain val))
  else mret tt.
(** [TransmitterSocket::send]: the buffer is one datagram. *)
Definition send : M Loop unit :=
  works ← ask (sendtoWorks env);
  if (works : bool) then modify (fun l => add_sent l (buffer l)) else throw RuntimeError.
Definition clearBuffer : M Loop unit := modify (fun l => set_buffer l []).
(** The buffer may not have grown too far, and is sent early if it is full. *)
Definition sendEarly : M Loop unit :=
  size ← gets (fun l => length (buffer l));
  if (txBufferSz <? size)%nat then throw RuntimeError
  else if slowControlsTxSocket setup && (txBufferFullThreshold <? size)%nat then send ≫= fun _ => clearBuffer
  else mret tt.
(** Whether there is a sample to go on with. *)
Definition readChannel (i : nat) : M Loop bool :=
  usingBufferedValue ← searchBuffered i;
  if (usingBufferedValue : bool) then mret true
  else
    channel ← channelAt i;
    answer ← ask (reads env);
    match doRead channel answer with
    | Throw Undefined => throw Undefined
    | Throw _ => mret false
    | Ok readVal => handle i readVal ≫= fun _ => mret true
    end.
Definition visit (i : nat) : M Loop unit :=
  channel ← channelAt i;
  if negb (readAccess_ (config channel)) then mret tt
  else
    modify (fun l => if firstTime l then set_counts l (timeCounter l) (u32 (numOfReadAccessChannels l + 1)) true else l) ≫= fun _ =>
    t ← gets timeCounter;
    if negb (Z.rem t (delayBetweenSamples_ (config channel)) =? 0) then mret tt
    else
      handled ← readChannel i;
      if (handled : bool) then sendMetric i ≫= fun _ => sendEarly else mret tt.
Fixpoint scanLoop (fuel : nat) : M Loop unit :=
  match fuel with
  | O => throw Undefined
  | S fuel =>
      next ← getNextSlowControlsChannel;
      match next with
      | None => mret tt
      | Some i =>
          continue ← ask (getContinueWorkLoop env);
          if negb continue then mret tt
          else visit i ≫= fun _ => scanLoop fuel
      end
  end.
(** One scan over the channels, with what is left to send. *)
Definition scan : M Loop unit :=
  clearBuffer ≫= fun _ =>
  resetSlowControlsChannelIterator ≫= fun _ =>
  fuel ← gets (fun l => S (length (channels l)));
  scanLoop fuel ≫= fun _ =>
  empty ← gets (fun l => (length (buffer l) =? 0)%nat);
  if slowControlsTxSocket setup && negb empty then send else mret tt.
(** The loop, once a second; [None] if the fuel runs out before the loop is
    told to end. *)
Fixpoint mainLoop (fuel : nat) : M Loop (option unit) :=
  match fuel with
  | O => mret None
  | S fuel =>
      continue ← ask (getContinueWorkLoop env);
      if negb continue then mret (Some tt)
      else
        modify (fun l => set_counts l (timeCounter l + 1) (numOfReadAccessChannels l) (firstTime l)) ≫= fun _ =>
        shouldRun ← ask (slowControlsWorkLoopShouldRun_ env);
        if negb shouldRun then mainLoop fuel
        else
          scan ≫= fun _ =>
          none ← gets (fun l => firstTime l && (numOfReadAccessChannels l =? 0));
          if (none : bool) then mret (Some tt)
          else modify (fun l => set_counts l (timeCounter l) (numOfReadAccessChannels l) false) ≫= fun _ => mainLoop fuel
  end.
(** The answer [false] is for the work loop to end; an exception is sent to the
    Gateway from a thread of its own. *)
Inductive outcome := Finished | AsyncException | StillRunning | NotDefined.
Definition slowControlsRunning (fuel : nat) (cs : list Channel) (file : option bytes) (files : gmap text bytes) : outcome * Loop :=
  let start := mkLoop cs 0 [] file files [] [] 0 0 0 true in
  if getSlowControlsChannelCount start =? 0 then (Finished, start)
  else match mainLoop fuel start with
       | (Ok (Some _), l) => (Finished, l)
       | (Ok None, l) => (StillRunning, l)
       | (Throw Undefined, l) => (NotDefined, l)
       | (Throw _, l) => (AsyncException, l)
       end.
End Running.

(** ** The iterator comes back

    The search for a value that can be copied uses the iterator of the scan.
    The scan without the iterator: *)
Section Scan.
Context (env : Environment) (setup : Setup).
Fixpoint searchAll (js : list nat) (i : nat) (usingBufferedValue : bool) : M Loop bool :=
  match js with
  | [] => modify (fun l => set_iterator l (S i)) ≫= fun _ => mret usingBufferedValue
  | j :: js =>
      modify (fun l => set_iterator l (S j)) ≫= fun _ =>
      channelToCopy ← channelAt j;
      channel ← channelAt i;
      copy ← mayCopy env usingBufferedValue channelToCopy channel;
      if (copy : bool) then handle env setup i (universalReadValue_ channelToCopy) ≫= fun _ => searchAll js i true
      else searchAll js i usingBufferedValue
  end.
Fixpoint visitAll (js : list nat) : M Loop unit :=
  match js with
  | [] => mret tt
  | i :: js =>
      modify (fun l => set_iterator l (S i)) ≫= fun _ =>
      continue ← ask (getContinueWorkLoop env);
      if negb continue then mret tt
      else visit env setup i ≫= fun _ => visitAll js
  end.

(** What leaves the number of channels and the iterator alone. *)
Definition stays {A} (m : M Loop A) : Prop := forall l, length (channels (m l).2) = length (channels l) /\ iterator (m l).2 = iterator l.
Lemma stays_ret {A} (a : A) : stays (mret a). Proof. done. Qed.
Lemma stays_throw {A} e : stays (throw e : M Loop A). Proof. done. Qed.
Lemma stays_gets {A} (f : Loop -> A) : stays (gets f). Proof. done. Qed.
Lemma stays_lift {A} (r : result A) : stays (lift r). Proof. done. Qed.
Lemma stays_ask {A} (f : nat -> A) : stays (ask f). Proof. done. Qed.
Lemma stays_channelAt i : stays (channelAt i). Proof. intros l. unfold channelAt. by destruct (_ !! _). Qed.
Lemma stays_modify f : (forall l, channels (f l) = channels l /\ iterator (f l) = iterator l) -> stays (modify f).
Proof. intros H l. destruct (H l) as [H1 H2]. cbn. by rewrite H1, H2. Qed.
Lemma stays_bind {A B} (m : M Loop A) (f : A -> M Loop B) : stays m -> (forall a, stays (f a)) -> stays (m ≫= f).
Proof.
  intros Hm Hf l. destruct (Hm l) as [H1 H2]. unfold mbind, M_bind. destruct (m l) as [[a|e] l']; cbn in *; [|done].
  destruct (Hf a l') as [H3 H4]. by rewrite H3, H4.
Qed.
Lemma stays_if {A} (b : bool) (m1 m2 : M Loop A) : stays m1 -> stays m2 -> stays (if b then m1 else m2).
Proof. by destruct b. Qed.
Lemma stays_spec {A} (m : M Loop A) l : stays m -> match m l with (Ok _, l') => length (channels l') = length (channels l) /\ iterator l' = iterator l | _ => True end.
Proof. intros H. specialize (H l). by destruct (m l) as [[a|e] l']. Qed.
Create HintDb stays.
#[local] Hint Resolve stays_ret stays_throw stays_gets stays_lift stays_ask stays_channelAt stays_bind stays_if : stays.
Lemma stays_handle i read : stays (handle env setup i read).
Proof.
  unfold handle. apply stays_bind; [apply stays_ask|]. intros now. apply stays_bind; [apply stays_ask|]. intros o. apply stays_bind; [apply stays_ask|]. intros past.
  apply stays_bind; [apply stays_channelAt|]. intros c l. unfold sampleOn. destruct (handleSample _ _ _ _ _ _ _) as [r [c' o']]. cbn. by rewrite length_insert.
Qed.
Lemma stays_mayCopy u a b : stays (mayCopy env u a b).
Proof. unfold mayCopy. eauto 10 with stays. Qed.
Lemma stays_sendMetric i : stays (sendMetric env setup i).
Proof.
  unfold sendMetric. apply stays_bind; [apply stays_channelAt|]. intros c. apply stays_if; [|apply stays_ret]. apply stays_bind; [apply stays_lift|]. intros v.
  apply stays_if; [|by apply stays_modify]. destruct (Eval _ _ _); (by apply stays_modify) || apply stays_throw.
Qed.
Lemma stays_sendEarly : stays (sendEarly env setup).
Proof.
  unfold sendEarly. apply stays_bind; [apply stays_gets|]. intros n. apply stays_if; [apply stays_throw|]. apply stays_if; [|apply stays_ret].
  apply stays_bind; [|intros _; by apply stays_modify]. unfold send. apply stays_bind; [apply stays_ask|]. intros w. apply stays_if; [by apply stays_modify|apply stays_throw].
Qed.

Lemma getNext_run l : getNextSlowControlsChannel l = if (iterator l <? length (channels l))%nat then (Ok (Some (iterator l)), set_iterator l (S (iterator l))) else (Ok None, l).
Proof. done. Qed.
Lemma searchLoop_run i d : forall fuel u l, (iterator l + d)%nat = i -> (i < length (channels l))%nat -> (d < fuel)%nat ->
  searchLoop env setup fuel i u l = searchAll (seq (iterator l) d) i u l.
Proof.
  induction d as [|d IH]; intros [|fuel] u l Hi Hl Hf; try lia; cbn [searchLoop seq searchAll].
  - rewrite (bind_ok _ _ l (Some i) (set_iterator l (S i))) by (rewrite getNext_run; destruct (Nat.ltb_spec (iterator l) (length (channels l))); [|lia]; do 3 f_equal; lia).
    by rewrite Nat.eqb_refl.
  - rewrite (bind_ok _ _ l (Some (iterator l)) (set_iterator l (S (iterator l)))) by (rewrite getNext_run; destruct (Nat.ltb_spec (iterator l) (length (channels l))); [done|lia]).
    destruct (Nat.eqb_spec (iterator l) i); [lia|]. rewrite (bind_ok (modify _) _ l tt (set_iterator l (S (iterator l)))) by done. set (l1 := set_iterator l (S (iterator l))).
    assert (Hl1 : iterator l1 = S (iterator l) /\ length (channels l1) = length (channels l)) by done. unfold mbind, M_bind.
    destruct (stays_channelAt (iterator l) l1) as [E1 E2]. destruct (channelAt (iterator l) l1) as [[a|e] l2]; [|done]. cbn in E1, E2.
    destruct (stays_channelAt i l2) as [E3 E4]. destruct (channelAt i l2) as [[c|e] l3]; [|done]. cbn in E3, E4.
    destruct (stays_mayCopy u a c l3) as [E5 E6]. destruct (mayCopy env u a c l3) as [[[]|e] l4]; cbn in E5, E6; [| |done].
    + destruct (stays_handle i (universalReadValue_ a) l4) as [E7 E8]. destruct (handle env setup i (universalReadValue_ a) l4) as [[[]|e] l5]; [|done]. cbn in E7, E8.
      assert (E : iterator l5 = S (iterator l)) by lia. rewrite <- E. apply IH; lia.
    + assert (E : iterator l4 = S (iterator l)) by lia. rewrite <- E. apply IH; lia.
Qed.
Lemma searchBuffered_run i l : (i < length (channels l))%nat ->
  searchBuffered env setup i l =
    (channel ← channelAt i; if textEq (getInterfaceType channel) UNKNOWN_TYPE then mret false else searchAll (seq 0 i) i false) l.
Proof.
  intros Hi. unfold searchBuffered. destruct (stays_channelAt i l) as [E1 E2]. destruct (channelAt i l) as [[c|e] l1] eqn:E; cbn in E1, E2;
    [rewrite !(bind_ok _ _ _ _ _ E)|by rewrite !(bind_throw _ _ _ _ _ E)].
  destruct (textEq _ _); [done|]. rewrite (bind_ok _ _ l1 tt (set_iterator l1 0)) by done. rewrite (bind_ok _ _ _ (S (length (channels l1))) (set_iterator l1 0)) by done.
  rewrite (searchLoop_run i i) by (cbn; lia). cbn [iterator set_iterator]. destruct i as [|i]; [done|]. done.
Qed.

(** After it, the iterator is behind the channel, as if it had never moved. *)
Lemma searchAll_iterator js : forall i u l, match searchAll js i u l with (Ok _, l') => length (channels l') = length (channels l) /\ iterator l' = S i | _ => True end.
Proof.
  induction js as [|j js IH]; intros i u l; cbn [searchAll]; [done|]. unfold mbind, M_bind. cbn [modify]. set (l1 := set_iterator l (S j)).
  assert (E0 : length (channels l1) = length (channels l)) by done.
  destruct (stays_channelAt j l1) as [E1 _]. destruct (channelAt j l1) as [[a|e] l2]; [|done]. cbn in E1.
  destruct (stays_channelAt i l2) as [E3 _]. destruct (channelAt i l2) as [[c|e] l3]; [|done]. cbn in E3.
  destruct (stays_mayCopy u a c l3) as [E5 _]. destruct (mayCopy env u a c l3) as [[[]|e] l4]; cbn in E5; [| |done].
  - destruct (stays_handle i (universalReadValue_ a) l4) as [E7 _]. destruct (handle env setup i (universalReadValue_ a) l4) as [[[]|e] l5]; [|done]. cbn in E7.
    specialize (IH i true l5). destruct (searchAll js i true l5) as [[b|e] l6]; [|done]. destruct IH as [H1 H2]. split; [lia|done].
  - specialize (IH i u l4). destruct (searchAll js i u l4) as [[b|e] l6]; [|done]. destruct IH as [H1 H2]. split; [lia|done].
Qed.
Lemma readChannel_iterator i l : (i < length (channels l))%nat -> iterator l = S i ->
  match readChannel env setup i l with (Ok _, l') => length (channels l') = length (channels l) /\ iterator l' = S i | _ => True end.
Proof.
  intros Hi Hit. unfold readChannel.
  assert (Hs : match searchBuffered env setup i l with (Ok _, l') => length (channels l') = length (channels l) /\ iterator l' = S i | _ => True end).
  { rewrite searchBuffered_run by done. destruct (stays_channelAt i l) as [E1 E2]. destruct (channelAt i l) as [[c|e] l1] eqn:E; cbn in E1, E2;
      [rewrite (bind_ok _ _ _ _ _ E)|by rewrite (bind_throw _ _ _ _ _ E)].
    destruct (textEq _ _); [cbn; by rewrite E1, E2|]. pose proof (searchAll_iterator (seq 0 i) i false l1) as H. by rewrite E1 in H. }
  destruct (searchBuffered env setup i l) as [[b|e] l1] eqn:E; [rewrite (bind_ok _ _ _ _ _ E)|by rewrite (bind_throw _ _ _ _ _ E)].
  destruct Hs as [E1 E2]. destruct b; [done|]. rewrite <- E1, <- E2. apply (stays_spec (channel ← channelAt i; _)). apply stays_bind; [apply stays_channelAt|]. intros c. apply stays_bind; [apply stays_ask|].
  intros a. destruct (doRead c a) as [v|[]]; try (apply stays_ret || apply stays_throw). apply stays_bind; [apply stays_handle|]. intros _. apply stays_ret.
Qed.
Lemma visit_iterator i l : (i < length (channels l))%nat -> iterator l = S i ->
  match visit env setup i l with (Ok _, l') => length (channels l') = length (channels l) /\ iterator l' = S i | _ => True end.
Proof.
  intros Hi Hit. unfold visit. destruct (stays_channelAt i l) as [E1 E2]. destruct (channelAt i l) as [[c|e] l1] eqn:E; cbn in E1, E2;
    [rewrite (bind_ok _ _ _ _ _ E)|by rewrite (bind_throw _ _ _ _ _ E)].
  destruct (negb _); [cbn; by rewrite E1, E2|]. set (l2 := if firstTime l1 then set_counts l1 (timeCounter l1) (u32 (numOfReadAccessChannels l1 + 1)) true else l1).
  rewrite (bind_ok (modify _) _ l1 tt l2) by done. assert (E3 : length (channels l2) = length (channels l) /\ iterator l2 = S i) by (unfold l2; destruct (firstTime l1); cbn; lia).
  rewrite (bind_ok (gets timeCounter) _ l2 (timeCounter l2) l2) by done. destruct (negb _); [done|]. destruct E3 as [E3 E4].
  pose proof (readChannel_iterator i l2 ltac:(lia) E4) as Hr. destruct (readChannel env setup i l2) as [[b|e] l3] eqn:Er; [rewrite (bind_ok _ _ _ _ _ Er)|by rewrite (bind_throw _ _ _ _ _ Er)].
  destruct Hr as [E5 E6]. rewrite <- E3, <- E5, <- E6. apply (stays_spec (if b then _ else _)). apply stays_if; [|apply stays_ret].
  apply stays_bind; [apply stays_sendMetric|]. intros _. apply stays_sendEarly.
Qed.
Lemma scanLoop_run d : forall fuel l, (iterator l + d)%nat = length (channels l) -> (d < fuel)%nat -> scanLoop env setup fuel l = visitAll (seq (iterator l) d) l.
Proof.
  induction d as [|d IH]; intros [|fuel] l Hd Hf; try lia; cbn [scanLoop seq visitAll].
  - rewrite (bind_ok _ _ l None l); [done|]. rewrite getNext_run. destruct (Nat.ltb_spec (iterator l) (length (channels l))); [lia|done].
  - rewrite (bind_ok _ _ l (Some (iterator l)) (set_iterator l (S (iterator l)))) by (rewrite getNext_run; destruct (Nat.ltb_spec (iterator l) (length (channels l))); [done|lia]).
    rewrite (bind_ok (modify _) _ l tt (set_iterator l (S (iterator l)))) by done. set (l1 := set_iterator l (S (iterator l))).
    rewrite !(bind_ok (ask _) _ l1 (getContinueWorkLoop env (questions l1)) (asked l1)) by done. destruct (negb _); [done|].
    pose proof (visit_iterator (iterator l) (asked l1)) as Hv. cbn [channels iterator asked l1 set_iterator] in Hv. specialize (Hv ltac:(lia) eq_refl).
    destruct (visit env setup (iterator l) (asked l1)) as [[[]|e] l2] eqn:E; [rewrite !(bind_ok _ _ _ _ _ E)|by rewrite !(bind_throw _ _ _ _ _ E)].
    destruct Hv as [H1 H2]. rewrite <- H2. apply IH; lia.
Qed.
(** C21: A scan visits every channel once, in order, though the search for a value
    to copy moves the same iterator: the search looks at exactly the channels
    before the one visited, and both loops end. *)
Theorem scan_visits_each_channel l :
  (iterator l = 0%nat -> scanLoop env setup (S (length (channels l))) l = visitAll (seq 0 (length (channels l))) l) /\
  (forall i, (i < length (channels l))%nat ->
    searchBuffered env setup i l =
      (channel ← channelAt i; if textEq (getInterfaceType channel) UNKNOWN_TYPE then mret false else searchAll (seq 0 i) i false) l).
Proof.
  split; [|intros i; apply (searchBuffered_run i)]. intros H. rewrite (scanLoop_run (length (channels l))) by lia. by rewrite H.
Qed.
End Scan.

(** ** Hexadecimal strings only read outside the buffer, or not at all *)

Lemma readByte_throw mem i e : readByte mem i = Throw e -> e = Undefined.
Proof. unfold readByte. destruct (_ <? _); [by intros [= <-]|]. destruct (_ !! _); [done|by intros [= <-]]. Qed.
Lemma wordLoop_throw mem j ks e : forall dest, wordLoop mem j ks dest = Throw e -> e = Undefined.
Proof.
  induction ks as [|k ks IH]; intros dest H; [done|]. cbn [wordLoop] in H. destruct (readByte _ _) eqn:E; cbn in H; [by eapply IH|]. injection H as <-. by eapply readByte_throw.
Qed.
Lemma groupLoop_throw fuel mem n d e : forall j dest, groupLoop fuel mem n d j dest = Throw e -> e = Undefined.
Proof.
  induction fuel as [|fuel IH]; intros j dest H; [done|]. cbn [groupLoop] in H. destruct (_ <? _); [|done].
  destruct (wordLoop _ _ _ _) eqn:E; cbn in H; [by eapply IH|]. injection H as <-. by eapply wordLoop_throw.
Qed.
Lemma tailLoop_throw fuel mem j e : forall k dest, tailLoop fuel mem j k dest = Throw e -> e = Undefined.
Proof.
  induction fuel as [|fuel IH]; intros k dest H; [done|]. cbn [tailLoop] in H. destruct (_ <=? _); [|done].
  destruct (readByte _ _) eqn:E; cbn in H; [|injection H as <-; by eapply readByte_throw]. destruct (_ =? _); [done|by eapply IH].
Qed.

(** ** What is sent

    [hoare P m Q E]: from [P], [m] returns with [Q] or throws with [E]. *)
Definition hoare {A} (P : Loop -> Prop) (m : M Loop A) (Q : A -> Loop -> Prop) (E : exn -> Loop -> Prop) : Prop :=
  forall l, P l -> match m l with (Ok a, l') => Q a l' | (Throw e, l') => E e l' end.
Lemma hoare_bind {A B} P (m : M Loop A) Q (f : A -> M Loop B) R E : hoare P m Q E -> (forall a, hoare (Q a) (f a) R E) -> hoare P (m ≫= f) R E.
Proof. intros Hm Hf l Hl. specialize (Hm l Hl). unfold mbind, M_bind. destruct (m l) as [[a|e] l']; [by apply Hf|done]. Qed.
Lemma hoare_ret {A} P (a : A) E : hoare P (mret a) (fun _ => P) E.
Proof. by intros l Hl. Qed.
Lemma hoare_if {A} P (b : bool) (m1 m2 : M Loop A) Q E : hoare P m1 Q E -> hoare P m2 Q E -> hoare P (if b then m1 else m2) Q E.
Proof. by destruct b. Qed.
Lemma hoare_weaken {A} P P' (m : M Loop A) Q Q' E : (forall l, P' l -> P l) -> (forall a l, Q a l -> Q' a l) -> hoare P m Q E -> hoare P' m Q' E.
Proof. intros HP HQ H l Hl. specialize (H l (HP l Hl)). destruct (m l) as [[a|e] l']; [by apply HQ|done]. Qed.
Lemma hoare_ask {A} (P : Loop -> Prop) (f : nat -> A) E : (forall l, P l -> P (asked l)) -> hoare P (ask f) (fun a l => P l /\ exists n, a = f n) E.
Proof. intros H l Hl. cbn. split; [by apply H|by exists (questions l)]. Qed.
Lemma hoare_gets {A} (P : Loop -> Prop) (f : Loop -> A) E : hoare P (gets f) (fun a l => P l /\ a = f l) E.
Proof. by intros l Hl. Qed.
Lemma hoare_modify (P Q : Loop -> Prop) f E : (forall l, P l -> Q (f l)) -> hoare P (modify f) (fun _ => Q) E.
Proof. intros H l Hl. by apply H. Qed.
Lemma hoare_channelAt (P : Loop -> Prop) i E : (forall l, P l -> E Undefined l) -> hoare P (channelAt i) (fun c l => P l /\ channels l !! i = Some c) E.
Proof. intros H l Hl. unfold channelAt. destruct (channels l !! i) eqn:Ec; [done|by apply H]. Qed.
Lemma hoare_lift {A} (P : Loop -> Prop) (r : result A) E : (forall e l, r = Throw e -> P l -> E e l) -> hoare P (lift r) (fun _ => P) E.
Proof. intros H l Hl. unfold lift. destruct r; [done|by apply H]. Qed.

Section Sent.
Context (env : Environment) (setup : Setup) (fe : Interface) (cs0 : list Channel).

(** The bytes a read leaves in the buffer. *)
Definition readLength (cfg : Config) : nat := Z.to_nat (if universalDataSize_ fe <? sizeOfReadBytes_ cfg then sizeOfReadBytes_ cfg else universalDataSize_ fe).
(** A channel of the interface [fe] whose bits lie in what is read. *)
Record channelOK (cfg : Config) : Prop := {
  ok_interface : interface_ cfg = fe;
  ok_sized : wellSized cfg;
  ok_bits : 0 < sizeOfDataTypeBits_ cfg /\ 0 <= universalDataBitOffset_ cfg;
  ok_fits : universalDataBitOffset_ cfg + sizeOfDataTypeBits_ cfg <= 8 * Z.of_nat (readLength cfg);
  ok_length : Z.of_nat (readLength cfg) < 2 ^ 28 }.
Definition bufferOK (cfg : Config) (read : bytes) : Prop := is_bytes read /\ length read = readLength cfg.
Lemma fits_ok cfg read : channelOK cfg -> bufferOK cfg read -> fits cfg read.
Proof. intros [_ _ [H1 H2] H3 H4] [H5 H6]. unfold fits. rewrite H6. done. Qed.

Definition own (c0 : Channel) (ps : list Packet) : list Packet := List.filter (fun p => bool_decide (name p = asciiBytes (fullChannelName (config c0)))) ps.
(** Channel [c] is [c0] after the packets [ps]. *)
Record follows (ps : list Packet) (c0 c : Channel) : Prop := {
  fo_config : config c = config c0;
  fo_range : in_range 8 (txPacketSequenceNumber_ c);
  fo_count : txPacketSequenceNumber_ c = u8 (txPacketSequenceNumber_ c0 + Z.of_nat (length (own c0 ps)));
  fo_numbered : numberedFrom (txPacketSequenceNumber_ c0) (own c0 ps);
  fo_read : lastSampleTime_ c = 0 \/ bufferOK (config c) (universalReadValue_ c) }.
Definition wire (ps : list Packet) : bytes := concat (map encode ps).
(** The datagrams sent and the buffer hold whole packets; [pss] are those of
    the datagrams, [ps] those of the buffer. *)
Record holding (pss : list (list Packet)) (ps : list Packet) l : Prop := {
  ho_sent : sent l = map wire pss;
  ho_small : Forall (fun d => length d <= 1500)%nat (sent l);
  ho_readable : Forall (Forall readable) pss;
  ho_buffer : buffer l = wire ps;
  ho_buffered : Forall readable ps;
  ho_channels : Forall2 (follows (concat pss ++ ps)) cs0 (channels l) }.
Definition Holding l : Prop := exists pss ps, holding pss ps l.
(** What the receiver may rely on. *)
Definition delivered l : Prop := exists pss, map readPackets (sent l) = map Some pss /\ Forall (fun d => length d <= 1500)%nat (sent l) /\
  Forall (fun c0 => numberedFrom (txPacketSequenceNumber_ c0) (own c0 (concat pss))) cs0.
Lemma numberedFrom_prefix s ps qs : numberedFrom s (ps ++ qs) -> numberedFrom s ps.
Proof. intros H i p Hi. apply H. by apply lookup_app_l_Some. Qed.
Lemma holding_delivered l : Holding l -> delivered l.
Proof.
  intros (pss & ps & [H1 H2 H3 H4 H5 H6]). exists pss. split_and!; [|done|].
  - rewrite H1, map_map. apply map_ext_in. intros qs Hq%list_elem_of_In. apply readPackets_encode. by eapply Forall_forall in H3.
  - apply Forall_forall. intros c0 Hc0%list_elem_of_lookup_1. destruct Hc0 as [i Hi]. destruct (Forall2_lookup_l _ _ _ _ _ H6 Hi) as (c & _ & [_ _ _ Hn _]).
    unfold own in Hn. rewrite List.filter_app in Hn. by eapply numberedFrom_prefix.
Qed.

Context (Hok : Forall (fun c0 => channelOK (config c0) /\ in_range 8 (txPacketSequenceNumber_ c0)) cs0).
Context (Hnames : NoDup (map (fun c0 => fullChannelName (config c0)) cs0)).
Context (Hclock : forall n, 2 <= clock env n < 2 ^ 63).
Context (Hreads : forall n data, reads env n = ReadOk data -> is_bytes data).
Context (Hsocket : slowControlsTxSocket setup = true).

(** Sizes: no channel can send more than the rest of the buffer. *)
Definition small (cfg : Config) : Prop :=
  (5 * (16 + length (fullChannelName cfg) + bytesFor (sizeOfDataTypeBits_ cfg)) <= 750)%nat /\
  Forall (fun v => (length v <= bytesFor (sizeOfDataTypeBits_ cfg))%nat) [lolo_ cfg; lo_ cfg; hi_ cfg; hihi_ cfg].
Definition calm : Prop := metricsRunning env = false /\ (forall n, sendtoWorks env n = true) /\ Forall (fun c0 => small (config c0)) cs0.
(** An exception ends the loop; if all is calm, only an undefined step does. *)
Definition ended (e : exn) l : Prop := delivered l /\ (calm -> e = Undefined).
(** The state between the visits, and when a channel has been handled. *)
Definition level (handled : bool) l : Prop := Holding l /\ if handled then calm -> (length (buffer l) <= 1500)%nat else (length (buffer l) <= 750)%nat.

Lemma level_ended b l : level b l -> ended Undefined l.
Proof. intros [H _]. split; [by apply holding_delivered|done]. Qed.
Lemma asciiBytes_inj a b : asciiBytes a = asciiBytes b -> a = b.
Proof.
  revert b. induction a as [|x a IH]; intros [|y b] H; try discriminate; [done|]. cbn in H. injection H as Hc H. rewrite (IH b H). f_equal.
  by rewrite <- (chr_code x), <- (chr_code y), Hc.
Qed.
Lemma own_numbered c0 cfg s t es : own c0 (numbered cfg s t es) = if bool_decide (fullChannelName cfg = fullChannelName (config c0)) then numbered cfg s t es else [].
Proof.
  pose proof (numbered_names cfg t es s) as H. unfold own. case_bool_decide as E; induction H as [|p ps Hp _ IH]; cbn [List.filter]; [done| |done|].
  - rewrite bool_decide_eq_true_2 by (by rewrite Hp, E). by rewrite IH.
  - rewrite bool_decide_eq_false_2; [done|]. rewrite Hp. intros H%asciiBytes_inj. done.
Qed.
Lemma own_app c0 ps qs : own c0 (ps ++ qs) = own c0 ps ++ own c0 qs.
Proof. apply List.filter_app. Qed.
(** The packets of another channel do not concern this one, its own move it
    on. *)
Lemma follows_other ps c0 c cfg s t es : fullChannelName cfg <> fullChannelName (config c0) -> follows ps c0 c -> follows (ps ++ numbered cfg s t es) c0 c.
Proof.
  intros Hne [H1 H2 H3 H4 H5]. assert (E : own c0 (ps ++ numbered cfg s t es) = own c0 ps) by by rewrite own_app, own_numbered, bool_decide_eq_false_2, app_nil_r.
  constructor; [done|done|by rewrite E|by rewrite E|done].
Qed.
Lemma follows_own ps c0 c t es c' : follows ps c0 c -> config c' = config c -> txPacketSequenceNumber_ c' = u8 (txPacketSequenceNumber_ c + Z.of_nat (length es)) ->
  bufferOK (config c') (universalReadValue_ c') -> follows (ps ++ numbered (config c) (txPacketSequenceNumber_ c) t es) c0 c'.
Proof.
  intros [H1 H2 H3 H4 H5] Hc Hs Hb.
  assert (E : own c0 (ps ++ numbered (config c) (txPacketSequenceNumber_ c) t es) = own c0 ps ++ numbered (config c) (txPacketSequenceNumber_ c) t es)
    by by rewrite own_app, own_numbered, bool_decide_eq_true_2 by (by rewrite H1).
  constructor; [by rewrite Hc|rewrite Hs; by apply wrap_range| | |by right].
  - rewrite E, length_app, numbered_length, Hs, H3. unfold wrap. rewrite Z.add_mod_idemp_l by done. f_equal. lia.
  - rewrite E. apply numberedFrom_app; [done|]. eapply numberedFrom_mod; [|by apply numbered_numberedFrom]. rewrite H3 at 1. by rewrite wrap_wrap by lia.
Qed.

Lemma length_packet p : length (encode p) = (16 + length (name p) + length (value p))%nat.
Proof. unfold encode. rewrite !length_app, !length_bytesOf. cbn. lia. Qed.
Lemma length_wire_numbered cfg t (b : nat) es : forall s, Forall (fun e => length e.2 <= b)%nat es ->
  (length (wire (numbered cfg s t es)) <= length es * (16 + length (fullChannelName cfg) + b))%nat.
Proof.
  induction es as [|[k v] es IH]; intros s H; [cbn; lia|]. apply Forall_cons in H as [H1 H]. cbn [snd] in H1. unfold wire. cbn [numbered map concat length].
  rewrite length_app, length_packet. cbn [name value]. specialize (IH (u8 (s + 1)) H). unfold wire in IH. unfold asciiBytes. rewrite length_map. lia.
Qed.
Lemma alarmEvents_values (P : bytes -> Prop) fired : forall i values, Forall P values -> Forall (fun e => P e.2) (alarmEvents i fired values) /\ (length (alarmEvents i fired values) <= length fired)%nat.
Proof.
  induction fired as [|f fired IH]; intros i values H; [by split; [constructor|cbn]|]. destruct H as [|v values Hv H]; [split; [constructor|cbn; lia]|]. cbn [alarmEvents].
  destruct (IH (i + 1) values H) as [H1 H2]. destruct f; cbn [app length]; split; [by constructor|lia|done|lia].
Qed.
Lemma events_small past c t s : small (config c) -> (length (sample_ c) <= bytesFor (sizeOfDataTypeBits_ (config c)))%nat ->
  (length (wire (numbered (config c) s t (events past c))) <= 750)%nat.
Proof.
  intros [Hs Hv] Hl. set (b := bytesFor _) in *. assert (H : Forall (fun e => length e.2 <= b)%nat (events past c) /\ (length (events past c) <= 5)%nat).
  { unfold events. destruct (monitoringEnabled _); [|split; [constructor|cbn; lia]].
    destruct (alarmEvents_values (fun v => length v <= b)%nat (firedAlarms past c) 0 (alarmValueArray c) Hv) as [H1 H2]. rewrite firedAlarms_length in H2.
    destruct (alarmsEnabled_ _); cbn [length]; (split; [constructor; [done|]|]); (done || lia || constructor). }
  destruct H as [H1 H2]. pose proof (length_wire_numbered (config c) t b _ s H1). nia.
Qed.
Lemma wire_app ps qs : wire (ps ++ qs) = wire ps ++ wire qs.
Proof. unfold wire. by rewrite map_app, concat_app. Qed.

Lemma config_ok i c l pss ps : holding pss ps l -> channels l !! i = Some c ->
  exists c0, cs0 !! i = Some c0 /\ follows (concat pss ++ ps) c0 c /\ channelOK (config c) /\ (calm -> small (config c)).
Proof.
  intros [_ _ _ _ _ H6] Hc. destruct (Forall2_lookup_r _ _ _ _ _ H6 Hc) as (c0 & Hc0 & Hf). exists c0. split; [done|]. split; [done|].
  destruct (Forall_lookup_1 _ _ _ _ Hok Hc0) as [H1 _]. rewrite (fo_config _ _ _ Hf). split; [done|]. intros (_ & _ & Hs). by eapply (Forall_lookup_1 _ _ _ _ Hs).
Qed.
(** The packets that handling channel [i] adds keep all channels in step. *)
Lemma channels_step pss ps i c c0 c' t es l : holding pss ps l -> channels l !! i = Some c -> cs0 !! i = Some c0 ->
  follows (concat pss ++ (ps ++ numbered (config c) (txPacketSequenceNumber_ c) t es)) c0 c' ->
  Forall2 (follows (concat pss ++ (ps ++ numbered (config c) (txPacketSequenceNumber_ c) t es))) cs0 (<[i := c']> (channels l)).
Proof.
  intros Hh Hc Hc0 Hf. pose proof (ho_channels _ _ _ Hh) as H6. apply Forall2_same_length_lookup. split; [by rewrite length_insert, (Forall2_length _ _ _ H6)|].
  intros j a b Ha Hb. destruct (decide (i = j)) as [<-|Hne].
  - rewrite list_lookup_insert_eq in Hb by by eapply lookup_lt_Some. injection Hb as <-. rewrite Hc0 in Ha. by injection Ha as <-.
  - rewrite list_lookup_insert_ne in Hb by done. pose proof (Forall2_lookup_lr _ _ _ _ _ _ H6 Ha Hb) as Hab. rewrite app_assoc. apply follows_other; [|done].
    destruct (config_ok i c l pss ps Hh Hc) as (c0' & Hc0' & Hf' & _). rewrite Hc0 in Hc0'. injection Hc0' as <-. rewrite (fo_config _ _ _ Hf').
    intros E. apply Hne. eapply (NoDup_lookup _ _ _ _ Hnames); [by rewrite list_lookup_fmap, Hc0|rewrite list_lookup_fmap, Ha; cbn; by rewrite E].
Qed.

Lemma sampleOn_level i c now o past read l : level false l -> channels l !! i = Some c -> bufferOK (config c) read -> 2 <= now < 2 ^ 63 ->
  match sampleOn setup i c now o past read l with (Ok _, l') => level true l' | (Throw e, l') => ended e l' end.
Proof.
  intros [(pss & ps & Hh) Hlen] Hc Hb Hnow. destruct (config_ok i c l pss ps Hh Hc) as (c0 & Hc0 & Hfo & Hcfg & Hsmall).
  pose proof (fits_ok _ _ Hcfg Hb) as Hfit. unfold sampleOn. rewrite Hsocket. set (out := mkOutputs _ _ _).
  pose proof (handleSample_run past now o read (aggregateFileIsBinaryFormat setup) true c out Hfit (fo_range _ _ _ Hfo) (ok_sized _ Hcfg)) as [E1 E2].
  pose proof (handleSample_throw past now o read (aggregateFileIsBinaryFormat setup) true c out) as E3.
  destruct (handleSample past now o read (aggregateFileIsBinaryFormat setup) true (c, out)) as [r [c' o']]. cbn [fst snd negb] in E1, E2, E3. rewrite orb_false_r in E2.
  set (c1 := sampled c now read) in *. set (c2 := set_lastSample c1 (sample_ c1)) in *. set (es := if isNoChange c1 then [] else events past c2).
  assert (Ht : txBuffer o' = buffer l ++ wire (numbered (config c) (txPacketSequenceNumber_ c) now es)) by (rewrite E2; unfold es; by destruct (isNoChange c1)).
  assert (Hc' : config c' = config c) by (rewrite E1; destruct (isNoChange c1); [done|by rewrite settled_config]).
  assert (Hseq : txPacketSequenceNumber_ c' = u8 (txPacketSequenceNumber_ c + Z.of_nat (length es))).
  { rewrite E1. unfold es. destruct (isNoChange c1); [cbn; rewrite Z.add_0_r, wrap_small by apply Hfo; done|]. unfold settled, counted. cbn [txPacketSequenceNumber_ set_sequence]. by destruct (alarmsEnabled_ _). }
  assert (Hrd : universalReadValue_ c' = read) by (rewrite E1; destruct (isNoChange c1); [done|]; unfold settled, counted; by destruct (alarmsEnabled_ _)).
  set (l' := set_handled l _ _ _ _). set (ps' := ps ++ numbered (config c) (txPacketSequenceNumber_ c) now es).
  assert (Hh' : Holding l').
  { exists pss, ps'. pose proof Hh as [H1 H2 H3 H4 H5 H6]. constructor; [done|done|done| | |].
    - cbn [buffer l' set_handled]. by rewrite Ht, H4, <- wire_app.
    - apply Forall_app. split; [done|]. apply numbered_readable; [apply Hcfg|unfold in_range; lia].
    - cbn [channels l' set_handled]. eapply channels_step; [done|done|done|]. rewrite app_assoc. eapply follows_own; [done|done|done|]. by rewrite Hc', Hrd. }
  destruct r as [[]|e].
  - split; [done|]. intros Hcalm. cbn [buffer l' set_handled]. rewrite Ht, length_app. assert (Hw : (length (wire (numbered (config c) (txPacketSequenceNumber_ c) now es)) <= 750)%nat); [|lia].
    unfold es. destruct (isNoChange c1); [cbn; lia|]. apply (events_small past c2); [by apply Hsmall|]. change (sample_ c2) with (sampleOf (config c) read). unfold sampleOf. by rewrite length_bytesOf.
  - split; [by apply holding_delivered|]. intros _. by apply E3.
Qed.

Lemma channelAt_some i l c : channels l !! i = Some c -> channelAt i l = (Ok c, l).
Proof. unfold channelAt. by intros ->. Qed.
Lemma channelAt_none i l : channels l !! i = None -> channelAt i l = (Throw Undefined, l).
Proof. unfold channelAt. by intros ->. Qed.
(** The steps of a scan. *)
Definition steps {A} (P : Loop -> Prop) (m : M Loop A) (Q : A -> Loop -> Prop) : Prop := hoare P m Q ended.
Lemma level_asked b l : level b l -> level b (asked l).
Proof. intros [(pss & ps & [H1 H2 H3 H4 H5 H6]) Hl]. split; [|done]. exists pss, ps. by constructor. Qed.
Lemma level_iterator b l i : level b l -> level b (set_iterator l i).
Proof. intros [(pss & ps & [H1 H2 H3 H4 H5 H6]) Hl]. split; [|done]. exists pss, ps. by constructor. Qed.
Lemma handle_level i read : steps (fun l => level false l /\ forall c, channels l !! i = Some c -> bufferOK (config c) read) (handle env setup i read) (fun _ => level true).
Proof.
  unfold steps, handle. intros l [Hl Hb]. rewrite (bind_ok (ask _) _ l (clock env (questions l)) (asked l)) by done.
  rewrite (bind_ok (ask _) _ (asked l) (opens env (S (questions l))) (asked (asked l))) by done.
  rewrite (bind_ok (ask _) _ (asked (asked l)) (behind env (S (S (questions l)))) (asked (asked (asked l)))) by done. unfold channelAt, mbind, M_bind. cbn [channels asked].
  destruct (channels l !! i) as [c|] eqn:Hc; [|by eapply level_ended, level_asked, level_asked, level_asked].
  apply sampleOn_level; [by apply level_asked, level_asked, level_asked|done|by apply Hb|apply Hclock].
Qed.
Lemma hexString_throw s p d e : binaryNumberToHexString_string s p d = Throw e -> e = Undefined.
Proof.
  unfold binaryNumberToHexString_string, binaryNumberToHexString. destruct (groupLoop _ _ _ _ _ _) as [[j dest]|e'] eqn:E; intros H; cbn [mbind result_bind] in H; [by eapply tailLoop_throw|]. injection H as <-. by eapply groupLoop_throw.
Qed.
Lemma sameAddress_throw a b e : sameAddress a b = Throw e -> e = Undefined.
Proof.
  unfold sameAddress. destruct (binaryNumberToHexString_string (getUniversalAddress a) _ _) eqn:E1; cbn; [|intros [= <-]; by eapply hexString_throw].
  destruct (binaryNumberToHexString_string (getUniversalAddress b) _ _) eqn:E2; cbn; [done|intros [= <-]; by eapply hexString_throw].
Qed.
Lemma mayCopy_level u a c : steps (level u) (mayCopy env u a c) (fun copy l => level u l /\ (copy = true -> u = false /\ getReadSizeBytes a = getReadSizeBytes c /\ lastSampleTime_ a <> 0)).
Proof.
  unfold steps, mayCopy. destruct u; cbn [orb]; [by intros l Hl|]. destruct (_ || _); [by intros l Hl|].
  eapply hoare_bind; [apply (hoare_lift (level false)); intros e l He Hl; apply sameAddress_throw in He as ->; by eapply level_ended|]. intros same.
  destruct same; cbn [negb orb]; [|by intros l Hl]. destruct (Z.eqb_spec (getReadSizeBytes a) (getReadSizeBytes c)) as [E|]; cbn [negb]; [|by intros l Hl].
  eapply hoare_bind; [apply hoare_ask; intros l; apply level_asked|]. intros now l [Hl [n ->]]. cbn. split; [done|]. intros H%Z.ltb_lt. split_and!; [done|done|]. pose proof (Hclock n). lia.
Qed.
(** What a channel of the same size has read fits this one. *)
Lemma copied_ok l i j a c b : level b l -> channels l !! j = Some a -> channels l !! i = Some c -> getReadSizeBytes a = getReadSizeBytes c -> lastSampleTime_ a <> 0 ->
  bufferOK (config c) (universalReadValue_ a).
Proof.
  intros [(pss & ps & Hh) _] Ha Hc Hs Ht. destruct (config_ok j a l pss ps Hh Ha) as (a0 & _ & Hfa & _). destruct (fo_read _ _ _ Hfa) as [?|[H1 H2]]; [done|].
  split; [done|]. rewrite H2. unfold readLength. unfold getReadSizeBytes in Hs. by rewrite Hs.
Qed.
Lemma searchLoop_level fuel i : forall u, steps (level u) (searchLoop env setup fuel i u) level.
Proof.
  induction fuel as [|fuel IH]; intros u l Hl; cbn [searchLoop]; [by eapply level_ended|].
  destruct (getNextSlowControlsChannel l) as [[next|e] l1] eqn:En; [rewrite (bind_ok _ _ _ _ _ En)|by rewrite getNext_run in En; destruct (_ <? _)%nat].
  assert (Hl1 : level u l1) by (rewrite getNext_run in En; destruct (_ <? _)%nat; injection En as <- <-; [by apply level_iterator|done]). destruct next as [j|]; [|done].
  destruct (j =? i)%nat; [done|]. destruct (channels l1 !! j) as [a|] eqn:Ha; [rewrite (bind_ok _ _ _ _ _ (channelAt_some _ _ _ Ha))|rewrite (bind_throw _ _ _ _ _ (channelAt_none _ _ Ha)); by eapply level_ended].
  destruct (channels l1 !! i) as [c|] eqn:Hc; [rewrite (bind_ok _ _ _ _ _ (channelAt_some _ _ _ Hc))|rewrite (bind_throw _ _ _ _ _ (channelAt_none _ _ Hc)); by eapply level_ended].
  pose proof (mayCopy_level u a c l1 Hl1) as Hm. destruct (stays_mayCopy env u a c l1) as [_ _].
  assert (Hch : channels (mayCopy env u a c l1).2 = channels l1).
  { unfold mayCopy. destruct (_ || _ || _); [done|]. unfold mbind, M_bind, lift. destruct (sameAddress a c); [|done]. by destruct (_ || _). }
  destruct (mayCopy env u a c l1) as [[copy|e] l2] eqn:Em; [rewrite (bind_ok _ _ _ _ _ Em)|by rewrite (bind_throw _ _ _ _ _ Em)]. cbn [snd] in Hch. destruct Hm as [Hl2 Hcopy].
  destruct copy; [|by apply IH]. destruct (Hcopy eq_refl) as (-> & Hsize & Htime).
  pose proof (handle_level i (universalReadValue_ a) l2) as Hh. unfold mbind, M_bind. destruct (handle env setup i (universalReadValue_ a) l2) as [[[]|e] l3].
  - apply IH. apply Hh. split; [done|]. rewrite Hch. intros c' Hc'. rewrite Hc in Hc'. injection Hc' as <-. exact (copied_ok l1 i j a c false Hl1 Ha Hc Hsize Htime).
  - apply Hh. split; [done|]. rewrite Hch. intros c' Hc'. rewrite Hc in Hc'. injection Hc' as <-. exact (copied_ok l1 i j a c false Hl1 Ha Hc Hsize Htime).
Qed.
Lemma searchBuffered_level i : steps (level false) (searchBuffered env setup i) level.
Proof.
  unfold steps, searchBuffered. intros l Hl. destruct (channels l !! i) as [c|] eqn:Hc; [rewrite (bind_ok _ _ _ _ _ (channelAt_some _ _ _ Hc))|rewrite (bind_throw _ _ _ _ _ (channelAt_none _ _ Hc)); by eapply level_ended].
  destruct (textEq _ _); [done|]. rewrite (bind_ok _ _ l tt (set_iterator l 0)) by done. rewrite (bind_ok (gets _) _ _ (S (length (channels l))) (set_iterator l 0)) by done.
  apply searchLoop_level. by apply level_iterator.
Qed.
Lemma doRead_ok i l pss ps c n v : holding pss ps l -> channels l !! i = Some c -> doRead c (reads env n) = Ok v -> bufferOK (config c) v.
Proof.
  intros Hh Hc Hv. destruct (config_ok i c l pss ps Hh Hc) as (_ & _ & _ & Hcfg & _). unfold doRead, readsBlock in Hv. rewrite (ok_interface _ Hcfg) in Hv.
  destruct (reads env n) as [data|[] ?] eqn:Er; [|discriminate..]. apply Hreads in Er. injection Hv as <-. split; [|by rewrite length_resize].
  unfold resize. apply Forall_app. split; [by apply Forall_take|]. apply Forall_replicate. split; [lia|reflexivity].
Qed.
Lemma readChannel_level i : steps (level false) (readChannel env setup i) level.
Proof.
  unfold steps, readChannel. eapply hoare_bind; [apply searchBuffered_level|]. intros [] l Hl; [done|].
  destruct (channels l !! i) as [c|] eqn:Hc; [rewrite (bind_ok _ _ _ _ _ (channelAt_some _ _ _ Hc))|rewrite (bind_throw _ _ _ _ _ (channelAt_none _ _ Hc)); by eapply level_ended].
  rewrite (bind_ok (ask _) _ l (reads env (questions l)) (asked l)) by done. assert (Hl1 : level false (asked l)) by by apply level_asked.
  destruct (doRead c (reads env (questions l))) as [v|[]] eqn:Ev; try done; [|by eapply level_ended].
  unfold mbind, M_bind. pose proof (handle_level i v (asked l)) as Hh. destruct (handle env setup i v (asked l)) as [[[]|e] l2]; apply Hh; (split; [done|]);
    intros c' Hc'; cbn [channels asked] in Hc'; rewrite Hc in Hc'; injection Hc' as <-; destruct Hl as [(pss & ps & Hh') _]; by eapply doRead_ok.
Qed.
Lemma sendMetric_level i : steps (level true) (sendMetric env setup i) (fun _ => level true).
Proof.
  unfold steps, sendMetric. intros l Hl. destruct (channels l !! i) as [c|] eqn:Hc; [rewrite (bind_ok _ _ _ _ _ (channelAt_some _ _ _ Hc))|rewrite (bind_throw _ _ _ _ _ (channelAt_none _ _ Hc)); by eapply level_ended].
  destruct (_ && metricsRunning env && _) eqn:Em; [|done]. assert (Hend : forall e, ended e l).
  { intros e. split; [by apply holding_delivered, Hl|]. intros (Hm & _). rewrite Hm, andb_false_r in Em. done. }
  assert (Hadd : forall m, level true (add_metric l m)) by (intros m; destruct Hl as [(pss & ps & [H1 H2 H3 H4 H5 H6]) Hs]; split; [|done]; exists pss, ps; by constructor).
  unfold lift, mbind, M_bind. destruct (metricLoop _ _ _) as [v|e]; [|done]. destruct (1 <? _)%nat; [|apply Hadd]. destruct (Eval _ _ _); (apply Hadd || apply Hend).
Qed.
Lemma send_run l :
  sendtoWorks env (questions l) = true /\ send env l = (Ok tt, add_sent (asked l) (buffer l)) \/
  sendtoWorks env (questions l) = false /\ send env l = (Throw RuntimeError, asked l).
Proof. unfold send, mbind, M_bind, ask. destruct (sendtoWorks env (questions l)); [left|right]; by split. Qed.
Lemma sendEarly_level : steps (level true) (sendEarly env setup) (fun _ => level false).
Proof.
  unfold steps, sendEarly. intros l [(pss & ps & Hh) Hs]. rewrite (bind_ok (gets _) _ l (length (buffer l)) l) by done. unfold txBufferSz, txBufferFullThreshold.
  destruct (Nat.ltb_spec 1500 (length (buffer l))) as [Hbig|Hbig]; [split; [apply holding_delivered; by exists pss, ps|intros Hc; specialize (Hs Hc); lia]|].
  rewrite Hsocket. destruct (Nat.ltb_spec 750 (length (buffer l))) as [Hf|Hf]; cbn [andb]; [|split; [by exists pss, ps|done]].
  destruct (send_run l) as [[Hw E]|[Hw E]]; [rewrite (bind_ok _ _ _ _ _ E)|rewrite (bind_throw _ _ _ _ _ E)].
  2: { split; [apply (holding_delivered l); by exists pss, ps|]. intros (_ & Hc & _). by rewrite Hc in Hw. }
  cbn. split; [|cbn; lia]. exists (pss ++ [ps]), []. destruct Hh as [H1 H2 H3 H4 H5 H6]. constructor; cbn [sent add_sent asked set_buffer buffer channels].
  - by rewrite map_app, H1, H4.
  - apply Forall_app. split; [done|by apply Forall_singleton].
  - apply Forall_app. split; [done|by apply Forall_singleton].
  - done.
  - done.
  - rewrite concat_app. cbn [concat]. by rewrite !app_nil_r.
Qed.
Lemma visit_level i : steps (level false) (visit env setup i) (fun _ => level false).
Proof.
  unfold steps, visit. intros l Hl. destruct (channels l !! i) as [c|] eqn:Hc; [rewrite (bind_ok _ _ _ _ _ (channelAt_some _ _ _ Hc))|rewrite (bind_throw _ _ _ _ _ (channelAt_none _ _ Hc)); by eapply level_ended].
  destruct (negb _); [done|]. set (l2 := if firstTime l then set_counts l (timeCounter l) (u32 (numOfReadAccessChannels l + 1)) true else l).
  rewrite (bind_ok (modify _) _ l tt l2) by done. assert (Hl2 : level false l2).
  { unfold l2. destruct (firstTime l); [|done]. destruct Hl as [(pss & ps & [H1 H2 H3 H4 H5 H6]) Hs]. split; [|done]. exists pss, ps. by constructor. }
  rewrite (bind_ok (gets timeCounter) _ l2 (timeCounter l2) l2) by done. destruct (negb _); [done|]. revert l2 Hl2. fold (steps (level false) (handled ← readChannel env setup i; if (handled : bool) then sendMetric env setup i ≫= fun _ => sendEarly env setup else mret tt) (fun _ => level false)).
  eapply hoare_bind; [apply readChannel_level|]. intros []; [|by intros l' Hl']. eapply hoare_bind; [apply sendMetric_level|]. intros []. apply sendEarly_level.
Qed.
Lemma scanLoop_level fuel : steps (level false) (scanLoop env setup fuel) (fun _ => level false).
Proof.
  induction fuel as [|fuel IH]; intros l Hl; cbn [scanLoop]; [by eapply level_ended|].
  destruct (getNextSlowControlsChannel l) as [[next|e] l1] eqn:En; [rewrite (bind_ok _ _ _ _ _ En)|by rewrite getNext_run in En; destruct (_ <? _)%nat].
  assert (Hl1 : level false l1) by (rewrite getNext_run in En; destruct (_ <? _)%nat; injection En as <- <-; [by apply level_iterator|done]). destruct next as [j|]; [|done].
  rewrite (bind_ok (ask _) _ l1 (getContinueWorkLoop env (questions l1)) (asked l1)) by done. apply level_asked in Hl1. destruct (negb _); [done|].
  revert Hl1. generalize (asked l1). change (steps (level false) (visit env setup j ≫= fun _ => scanLoop env setup fuel) (fun _ => level false)).
  eapply hoare_bind; [apply visit_level|]. intros []. apply IH.
Qed.
(** Between the scans everything has been sent. *)
Definition allSent l : Prop := exists pss, sent l = map wire pss /\ Forall (fun d => length d <= 1500)%nat (sent l) /\ Forall (Forall readable) pss /\ Forall2 (follows (concat pss)) cs0 (channels l).
Lemma scan_level : steps allSent (scan env setup) (fun _ => allSent).
Proof.
  unfold steps, scan. intros l (pss & H1 & H2 & H3 & H4). rewrite (bind_ok clearBuffer _ l tt (set_buffer l [])) by done. rewrite (bind_ok _ _ _ tt (set_iterator (set_buffer l []) 0)) by done.
  rewrite (bind_ok (gets _) _ _ (S (length (channels l))) (set_iterator (set_buffer l []) 0)) by done. set (l1 := set_iterator _ _).
  assert (Hl1 : level false l1) by (split; [exists pss, []; constructor; cbn; try done; by rewrite app_nil_r|cbn; lia]). pose proof (scanLoop_level (S (length (channels l))) l1 Hl1) as Hs.
  destruct (scanLoop env setup (S (length (channels l))) l1) as [[[]|e] l2] eqn:E; [rewrite (bind_ok _ _ _ _ _ E)|by rewrite (bind_throw _ _ _ _ _ E)].
  destruct Hs as [(qss & qs & [G1 G2 G3 G4 G5 G6]) Hlen]. rewrite (bind_ok (gets _) _ l2 (length (buffer l2) =? 0)%nat l2) by done. rewrite Hsocket. cbn [andb].
  destruct (Nat.eqb_spec (length (buffer l2)) 0) as [E0|E0]; cbn [negb].
  - assert (qs = []) as -> by (destruct qs as [|q qs]; [done|]; rewrite G4 in E0; unfold wire in E0; cbn [map concat] in E0; rewrite length_app, length_packet in E0; lia).
    rewrite app_nil_r in G6. by exists qss.
  - destruct (send_run l2) as [[Hw ->]|[Hw ->]].
    2: { split; [apply (holding_delivered l2); exists qss, qs; by constructor|]. intros (_ & Hc & _). by rewrite Hc in Hw. }
    exists (qss ++ [qs]). cbn [sent add_sent asked channels]. split; [by rewrite map_app, G1, G4|].
    split; [apply Forall_app; split; [done|]; apply Forall_singleton; lia|]. split; [apply Forall_app; split; [done|by apply Forall_singleton]|].
    rewrite concat_app. cbn [concat]. by rewrite app_nil_r.
Qed.
Lemma mainLoop_level fuel : steps allSent (mainLoop env setup fuel) (fun _ => allSent).
Proof.
  induction fuel as [|fuel IH]; intros l Hl; cbn [mainLoop]; [done|]. rewrite (bind_ok (ask _) _ l (getContinueWorkLoop env (questions l)) (asked l)) by done.
  assert (Hl1 : allSent (asked l)) by done. destruct (negb _); [done|]. rewrite (bind_ok (modify _) _ _ tt (set_counts (asked l) (timeCounter (asked l) + 1) (numOfReadAccessChannels (asked l)) (firstTime (asked l)))) by done.
  set (l2 := set_counts _ _ _ _). rewrite (bind_ok (ask _) _ l2 (slowControlsWorkLoopShouldRun_ env (questions l2)) (asked l2)) by done. assert (Hl3 : allSent (asked l2)) by done.
  destruct (negb _); [by apply IH|]. pose proof (scan_level (asked l2) Hl3) as Hs. destruct (scan env setup (asked l2)) as [[[]|e] l4] eqn:E; [rewrite (bind_ok _ _ _ _ _ E)|by rewrite (bind_throw _ _ _ _ _ E)].
  rewrite (bind_ok (gets _) _ l4 (firstTime l4 && (numOfReadAccessChannels l4 =? 0)) l4) by done. destruct (_ && _); [done|]. rewrite (bind_ok (modify _) _ l4 tt (set_counts l4 (timeCounter l4) (numOfReadAccessChannels l4) false)) by done.
  by apply IH.
Qed.

Lemma start_allSent file files : Forall (fun c0 => lastSampleTime_ c0 = 0) cs0 -> allSent (mkLoop cs0 0 [] file files [] [] 0 0 0 true).
Proof.
  intros Hf. exists []. split; [done|]. split; [constructor|]. split; [constructor|]. apply Forall2_same_length_lookup. split; [done|]. cbn [channels]. intros i a b Ha Hb. rewrite Ha in Hb. injection Hb as <-.
  destruct (Forall_lookup_1 _ _ _ _ Hok Ha) as [_ Hr]. constructor; [done|done| | |left; by apply (Forall_lookup_1 _ _ _ _ Hf Ha)].
  - cbn. by rewrite Z.add_0_r, wrap_small.
  - intros j p Hj. cbn in Hj. by rewrite lookup_nil in Hj.
Qed.
(** C20: However long the loop runs and however it ends, each datagram has at most
    1500 bytes and holds whole packets, and the packets of each channel come
    with sequence numbers that count without a gap.  If every [sendto] succeeds
    (one that fails throws, which ends the loop: [failed_send_ends_loop]), no
    channel can send more than half of the buffer at once and no metrics are
    sent ([calm]), the loop is never ended by an exception.  The socket is set
    up; the channels belong to one interface, have different names, and their
    bits lie in what is read ([channelOK]); the clock is past 1970. *)
Theorem datagrams_hold_packets fuel file files : Forall (fun c0 => lastSampleTime_ c0 = 0) cs0 ->
  let '(out, l) := slowControlsRunning env setup fuel cs0 file files in
  delivered l /\ (calm -> out <> AsyncException).
Proof.
  intros Hfresh. unfold slowControlsRunning. pose proof (start_allSent file files Hfresh) as Hs. set (start := mkLoop _ _ _ _ _ _ _ _ _ _ _) in *.
  assert (Hd : forall l, allSent l -> delivered l).
  { intros l (pss & H1 & H2 & H3 & H4). exists pss. split_and!; [|done|].
    - rewrite H1, map_map. apply map_ext_in. intros qs Hq%list_elem_of_In. apply readPackets_encode. by eapply Forall_forall in H3.
    - apply Forall_forall. intros c0 [i Hi]%list_elem_of_lookup_1. by destruct (Forall2_lookup_l _ _ _ _ _ H4 Hi) as (c & _ & [_ _ _ Hn _]). }
  destruct (_ =? 0); [by split; [apply Hd|]|]. pose proof (mainLoop_level fuel start Hs) as Hm. destruct (mainLoop env setup fuel start) as [[[[]|]|e] l]; [by split; [apply Hd|]..|].
  destruct Hm as [Hm1 Hm2]. destruct e; (split; [done|]; intros Hc; specialize (Hm2 Hc)); congruence || discriminate.
Qed.
End Sent.

(** ** Runs *)

Definition adc : Channel := channelOf "unsigned long long" "5" "100" 0 false true.
Definition named (name : text) c : Channel :=
  let cfg := config c in
  mkChannel (mkConfig (interface_ cfg) name (txt "FE1:" ++ name) (dataType cfg) (transformation cfg) (sizeOfDataTypeBits_ cfg) (sizeOfDataTypeBytes_ cfg) (sizeOfReadBytes_ cfg)
    (universalDataBitOffset_ cfg) (readAccess_ cfg) (writeAccess_ cfg) (monitoringEnabled cfg) (recordChangesOnly_ cfg) 1 (saveEnabled_ cfg) (saveBinaryFormat_ cfg)
    (alarmsEnabled_ cfg) (latchAlarms_ cfg) (universalAddress_ cfg) (lolo_ cfg) (lo_ cfg) (hi_ cfg) (hihi_ cfg) (saveFullFileName_ cfg ++ name)) 0 [] [] [] 0 false false false false.
Definition two : list Channel := [named (txt "A") adc; named (txt "B") adc].
(** The value counts up, a second passes with every twenty questions, the loop
    ends after fifty. *)
Definition quiet : Environment :=
  mkEnvironment (fun n => 1000 + Z.of_nat (n / 20) mod 1000000) (fun n => (n <? 50)%nat) (fun _ => true) (fun n => ReadOk (bytesOf 8 (Z.of_nat n mod 256))) (fun _ => true)
    (fun n => somePast (Z.of_nat n mod 256)) (fun _ => true) false (fun _ _ => S754_nan).
Definition withSocket : Setup := mkSetup true true 4.

Abbreviation fe1 := FESlowControlsChannel.fe.
Lemma two_ok : Forall (fun c0 => channelOK fe1 (config c0) /\ in_range 8 (txPacketSequenceNumber_ c0)) two.
Proof.
  repeat constructor; try done; try (cbn; lia); try (vm_compute; lia). all: vm_compute; congruence.
Qed.
Lemma quiet_clock n : 2 <= clock quiet n < 2 ^ 63.
Proof. cbn [clock quiet]. pose proof (Z.mod_pos_bound (Z.of_nat (n / 20)) 1000000). change (2 ^ 63) with 9223372036854775808. lia. Qed.
Lemma quiet_reads n data : reads quiet n = ReadOk data -> is_bytes data.
Proof. cbn [reads quiet]. intros [= <-]. apply bytesOf_bytes. Qed.
Lemma two_calm : calm quiet two.
Proof. split; [done|]. split; [done|]. repeat constructor; apply Nat.leb_le; by vm_compute. Qed.
Lemma datagrams_hold_packets_witness :
  exists l, slowControlsRunning quiet withSocket 10 two None ∅ = (Finished, l) /\ delivered two l /\ map (fun d => (length d)) (sent l) = [174; 58; 58; 58]%nat.
Proof.
  destruct (slowControlsRunning quiet withSocket 10 two None ∅) as [out l] eqn:E.
  pose proof (datagrams_hold_packets quiet withSocket fe1 two two_ok) as H.
  assert (Hn : NoDup (map (fun c0 => fullChannelName (config c0)) two)) by (apply (bool_decide_unpack _); by vm_compute).
  specialize (H Hn quiet_clock quiet_reads eq_refl 10%nat None ∅). rewrite E in H. destruct H as [H _]; [by repeat constructor|].
  assert (B : ((slowControlsRunning quiet withSocket 10 two None ∅).1, map (fun d => length d) (sent (slowControlsRunning quiet withSocket 10 two None ∅).2)) = (Finished, [174; 58; 58; 58]%nat)) by by vm_compute.
  rewrite E in B. cbn [fst snd] in B. exists l. split; [f_equal; exact (f_equal fst B)|]. split; [exact H|exact (f_equal snd B)].
Defined.
Lemma scan_visits_each_channel_witness :
  let l := mkLoop two 0 [] None ∅ [] [] 0 1 0 true in
  scanLoop quiet withSocket 3 l = visitAll quiet withSocket [0%nat; 1%nat] l /\ (searchBuffered quiet withSocket 1 l).1 = Ok false.
Proof.
  intros l. destruct (scan_visits_each_channel quiet withSocket l) as [H1 H2]. split; [exact (H1 eq_refl)|].
  rewrite (H2 1%nat); [by vm_compute|cbn; lia].
Defined.
(** A channel with a long name may send more than the buffer is meant to hold:
    the loop ends with an exception that should never happen. *)
Definition loud : Channel :=
  named (replicate 300 (chr 97)) (channelOf "unsigned long long" "1000" "0" 0 false true).
Lemma long_name_ends_loop :
  let r := slowControlsRunning (mkEnvironment (clock quiet) (getContinueWorkLoop quiet) (slowControlsWorkLoopShouldRun_ quiet)
     (fun _ => ReadOk (bytesOf 8 500)) (opens quiet) (behind quiet) (sendtoWorks quiet) false (Eval quiet)) withSocket 10 [loud] None ∅ in
  r.1 = AsyncException /\ sent r.2 = [].
Proof. by vm_compute. Qed.
(** A [sendto] that fails ends the loop. *)
Lemma failed_send_ends_loop :
  let r := slowControlsRunning (mkEnvironment (clock quiet) (getContinueWorkLoop quiet) (slowControlsWorkLoopShouldRun_ quiet)
     (reads quiet) (opens quiet) (behind quiet) (fun n => (n <? 20)%nat) false (Eval quiet)) withSocket 10 two None ∅ in
  r.1 = AsyncException /\ length (sent r.2) = 1%nat.
Proof. by vm_compute. Qed.
(** The value for the metric manager: from the fourth byte on the shift is that
    of a signed [int], then it is not defined. *)
Lemma metric_wrong : metricLoop [0; 0; 0; 128] 0 0 = Ok (2 ^ 64 - 2 ^ 31) /\ metricLoop [1; 0; 0; 0; 0; 0; 0; 0] 0 0 = Throw Undefined.
Proof. by vm_compute. Qed.
(** It is the value for up to three bytes. *)
Lemma metric_small a b c : is_bytes [a; b; c] -> metricLoop [a; b; c] 0 0 = Ok (number [a; b; c]).
Proof.
  intros H. apply Forall_cons in H as [Ha H]. apply Forall_cons in H as [Hb H]. apply Forall_cons in H as [Hc _]. unfold in_range in *. change (2 ^ 8) with 256 in *.
  cbn [metricLoop number]. change (32 <=? 0 * 8) with false. change (32 <=? (0 + 1) * 8) with false. change (32 <=? (0 + 1 + 1) * 8) with false. cbv iota.
  rewrite !Z.shiftl_mul_pow2 by lia. change (2 ^ (0 * 8)) with 1. change (2 ^ ((0 + 1) * 8)) with 256. change (2 ^ ((0 + 1 + 1) * 8)) with 65536.
  rewrite !s32_small by (change (2 ^ 31) with 2147483648; lia). unfold wrap. change (2 ^ 64) with 18446744073709551616. rewrite (Z.mod_small (0 + a * 1)), (Z.mod_small (0 + a * 1 + b * 256)), Z.mod_small by lia. f_equal. lia.
Qed.
End SlowControls.
