(* ===== verification/FEMacros.v ===== *)
(** * Macros of front ends

    src/otsdaq/FECore/FEVInterface.cc, .h and .icc, and FEVInterfacesManager.cc:
    MacroMaker macros (a text of read, write and delay commands), sequences of
    register writes, front-end macros (functions of a plugin that a user or
    another front end calls by name) and the text of their arguments.

    The hardware is a state [W] with the plugin's [universalRead] and
    [universalWrite] on addresses and values of 64 bits (the plugin's address
    and data are at most that wide) and the sleep.  Traces are left out. *)

From S2P Require Import Prelude CText Network StringMacros StringLists BinaryStrings TableViewColumnInfo.

Module FEMacros.
Import StringLists.

(** ** MacroMaker macros *)

Inductive opType := OP_TYPE_READ | OP_TYPE_WRITE | OP_TYPE_DELAY.
Record readOp_t := mkReadOp { address_ : Z; addressIsVar_ : bool; addressVarName_ : text; dataIsVar_ : bool; dataVarName_ : text }.
Record writeOp_t := mkWriteOp { waddress_ : Z; waddressIsVar_ : bool; waddressVarName_ : text; data_ : Z; wdataIsVar_ : bool; wdataVarName_ : text }.
Record delayOp_t := mkDelayOp { delay_ : Z; delayIsVar_ : bool; delayVarName_ : text }.
(** The operations are in order, each with its index among those of its
    type. *)
Record macroStruct_t := mkMacro {
  macroName_ : text; lsbf_ : bool; operations_ : list (opType * nat);
  readOps_ : list readOp_t; writeOps_ : list writeOp_t; delayOps_ : list delayOp_t;
  namesOfInputArguments_ : list text; namesOfOutputArguments_ : list text }.
Implicit Types m : macroStruct_t.

Definition quote : list ascii := [chr 34].
Definition vectorOf (s : text) (delimiter : list ascii) : result (list text) := '(l, _) ← getVectorFromString s delimiter ws_default; Ok l.
Definition extracted (l : list text) (i : nat) : result text := match l !! i with Some s => Ok s | None => Throw Undefined end.
Definition fieldIs (l : list text) (i : nat) (name : text) : bool := match l !! i with Some s => textEq s name | None => false end.
(** Not all characters are hexadecimal digits. *)
Definition localIsVariable (fieldValue : text) : bool := existsb (fun c => negb (is_digit c || between 97 102 c || between 65 70 c)) fieldValue.
(** The pairs of characters of [s] from its end, for [i] from the number of
    pairs of [n] characters. *)
Definition pairAt (s : text) (i : nat) : text := take 2 (drop (length s - 2 * (i + 1)) s).
Definition flipped (s : text) : text := concat (map (pairAt s) (seq 0 (length s / 2))).
Definition hexNumber (digits : text) : result Z :=
  v ← BinaryStringMacros.getNumber_uint64 (txt "0x" ++ digits);
  match v with Some (_, z) => Ok z | None => Throw Undefined end.
(** An address, with the byte order flipped if the least significant is first:
    a leading 0 makes sure that no digit is missed. *)
Definition addressNumber (lsbf : bool) (piece : text) : result Z := hexNumber (if lsbf then flipped (txt "0" ++ piece) else piece).
(** For data the 0 goes into another field. *)
Definition dataNumber (lsbf : bool) (piece : text) : result Z := hexNumber (if lsbf then flipped piece else piece).

Definition addRead m (op : readOp_t) :=
  mkMacro (macroName_ m) (lsbf_ m) (operations_ m ++ [(OP_TYPE_READ, length (readOps_ m))]) (readOps_ m ++ [op]) (writeOps_ m) (delayOps_ m)
    (if addressIsVar_ op then emplace (namesOfInputArguments_ m) (addressVarName_ op) else namesOfInputArguments_ m)
    (if dataIsVar_ op then emplace (namesOfOutputArguments_ m) (dataVarName_ op) else namesOfOutputArguments_ m).
Definition addWrite m (op : writeOp_t) :=
  let inputs := if waddressIsVar_ op then emplace (namesOfInputArguments_ m) (waddressVarName_ op) else namesOfInputArguments_ m in
  mkMacro (macroName_ m) (lsbf_ m) (operations_ m ++ [(OP_TYPE_WRITE, length (writeOps_ m))]) (readOps_ m) (writeOps_ m ++ [op]) (delayOps_ m)
    (if wdataIsVar_ op then emplace inputs (wdataVarName_ op) else inputs) (namesOfOutputArguments_ m).
Definition addDelay m (op : delayOp_t) :=
  mkMacro (macroName_ m) (lsbf_ m) (operations_ m ++ [(OP_TYPE_DELAY, length (delayOps_ m))]) (readOps_ m) (writeOps_ m) (delayOps_ m ++ [op])
    (if delayIsVar_ op then emplace (namesOfInputArguments_ m) (delayVarName_ op) else namesOfInputArguments_ m) (namesOfOutputArguments_ m).

(** The value or the variable of a field. *)
Definition fieldOf (number : text -> result Z) (piece : text) : result (Z * bool * text) :=
  if localIsVariable piece then Ok (0, true, piece) else z ← number piece; Ok (z, false, []).
Definition readOpOf (lsbf : bool) (address data : text) : result readOp_t :=
  '(z, isVar, name) ← fieldOf (addressNumber lsbf) address;
  Ok (mkReadOp z isVar name (localIsVariable data) (if localIsVariable data then data else [])).
Definition writeOpOf (lsbf : bool) (address data : text) : result writeOp_t :=
  '(z, isVar, name) ← fieldOf (addressNumber lsbf) address;
  '(d, dataIsVar, dataName) ← fieldOf (dataNumber lsbf) data;
  Ok (mkWriteOp z isVar name d dataIsVar dataName).
Definition delayOpOf (delay : text) : result delayOp_t :=
  '(z, isVar, name) ← fieldOf hexNumber delay; Ok (mkDelayOp z isVar name).
(** One command: [index:type:address:data], or [index:d:delay]. *)
Definition addCommand m (command : text) : result macroStruct_t :=
  commandPieces ← vectorOf command [colon];
  match commandPieces with
  | [_; [c]; address; data] =>
      if (c =? chr 114)%char then op ← readOpOf (lsbf_ m) address data; Ok (addRead m op)
      else if (c =? chr 119)%char then op ← writeOpOf (lsbf_ m) address data; Ok (addWrite m op)
      else Throw RuntimeError
  | [_; [c]; delay] => if (c =? chr 100)%char then op ← delayOpOf delay; Ok (addDelay m op) else Throw RuntimeError
  | _ => Throw RuntimeError
  end.
Fixpoint addCommands m (commands : list text) : result macroStruct_t :=
  match commands with [] => Ok m | command :: commands => m ← addCommand m command; addCommands m commands end.
(** The text of a macro is split at the quotes. *)
Definition parseMacro (macroString : text) : result macroStruct_t :=
  extractVec ← vectorOf macroString quote;
  if negb (fieldIs extractVec 1 (txt "name")) then Throw RuntimeError
  else if negb (fieldIs extractVec 5 (txt "sequence")) then Throw RuntimeError
  else if negb (fieldIs extractVec 17 (txt "LSBF")) then Throw RuntimeError
  else
    macroName ← extracted extractVec 3;
    lsbf ← extracted extractVec 19;
    sequence ← extracted extractVec 7;
    sequenceCommands ← vectorOf sequence [comma];
    addCommands (mkMacro macroName (negb (textEq lsbf (txt "false"))) [] [] [] [] [] []) sequenceCommands.

Section Hardware.
Context {W : Type}.
Variables (universalRead : Z -> W -> result Z * W) (universalWrite : Z -> Z -> W -> result unit * W) (usleep : Z -> W -> W).
Abbreviation variables := (gmap text Z).
(** The macro's operations keep the values of their variables. *)
Record Run := mkRun { macro : macroStruct_t; variableMap : variables; world : W }.
Definition set_readOp m i (op : readOp_t) := mkMacro (macroName_ m) (lsbf_ m) (operations_ m) (<[i := op]> (readOps_ m)) (writeOps_ m) (delayOps_ m) (namesOfInputArguments_ m) (namesOfOutputArguments_ m).
Definition set_writeOp m i (op : writeOp_t) := mkMacro (macroName_ m) (lsbf_ m) (operations_ m) (readOps_ m) (<[i := op]> (writeOps_ m)) (delayOps_ m) (namesOfInputArguments_ m) (namesOfOutputArguments_ m).
Definition set_delayOp m i (op : delayOp_t) := mkMacro (macroName_ m) (lsbf_ m) (operations_ m) (readOps_ m) (writeOps_ m) (<[i := op]> (delayOps_ m)) (namesOfInputArguments_ m) (namesOfOutputArguments_ m).

Definition onWorld {A} (f : W -> result A * W) : M Run A := fun r => let '(a, w) := f (world r) in (a, mkRun (macro r) (variableMap r) w).
Definition setMacro (f : macroStruct_t -> macroStruct_t) : M Run unit := modify (fun r => mkRun (f (macro r)) (variableMap r) (world r)).
(** [variableMap.at(name)] *)
Definition at_ (name : text) : M Run Z := fun r => match variableMap r !! name with Some z => (Ok z, r) | None => (Throw OutOfRange, r) end.
Definition setAt (name : text) (z : Z) : M Run unit := fun r =>
  match variableMap r !! name with Some _ => (Ok tt, mkRun (macro r) (<[name := z]> (variableMap r)) (world r)) | None => (Throw OutOfRange, r) end.
Definition opAt {A} (ops : macroStruct_t -> list A) (i : nat) : M Run A := fun r =>
  match ops (macro r) !! i with Some op => (Ok op, r) | None => (Throw Undefined, r) end.
(** A field's value, written back if it is a variable. *)
Definition valueOf (isVar : bool) (name : text) (value : Z) : M Run Z := if isVar then at_ name else mret value.

Definition doRead (i : nat) : M Run unit :=
  op ← opAt readOps_ i;
  address ← valueOf (addressIsVar_ op) (addressVarName_ op) (address_ op);
  setMacro (fun m => set_readOp m i (mkReadOp address (addressIsVar_ op) (addressVarName_ op) (dataIsVar_ op) (dataVarName_ op))) ≫= fun _ =>
  dataValue ← onWorld (universalRead address);
  if dataIsVar_ op then setAt (dataVarName_ op) dataValue else mret tt.
Definition doWrite (i : nat) : M Run unit :=
  op ← opAt writeOps_ i;
  address ← valueOf (waddressIsVar_ op) (waddressVarName_ op) (waddress_ op);
  setMacro (fun m => set_writeOp m i (mkWriteOp address (waddressIsVar_ op) (waddressVarName_ op) (data_ op) (wdataIsVar_ op) (wdataVarName_ op))) ≫= fun _ =>
  data ← valueOf (wdataIsVar_ op) (wdataVarName_ op) (data_ op);
  setMacro (fun m => set_writeOp m i (mkWriteOp address (waddressIsVar_ op) (waddressVarName_ op) data (wdataIsVar_ op) (wdataVarName_ op))) ≫= fun _ =>
  onWorld (universalWrite address data).
(** Milliseconds, for the sleep in microseconds. *)
Definition doDelay (i : nat) : M Run unit :=
  op ← opAt delayOps_ i;
  delay ← valueOf (delayIsVar_ op) (delayVarName_ op) (delay_ op);
  setMacro (fun m => set_delayOp m i (mkDelayOp delay (delayIsVar_ op) (delayVarName_ op))) ≫= fun _ =>
  onWorld (fun w => (Ok tt, usleep (u32 (u64 (delay * 1000))) w)).
Definition runOperation (op : opType * nat) : M Run unit :=
  match op with (OP_TYPE_READ, i) => doRead i | (OP_TYPE_WRITE, i) => doWrite i | (OP_TYPE_DELAY, i) => doDelay i end.
Fixpoint runOperations (ops : list (opType * nat)) : M Run unit :=
  match ops with [] => mret tt | op :: ops => runOperation op ≫= fun _ => runOperations ops end.
Definition runMacro : M Run unit := ops ← gets (fun r => operations_ (macro r)); runOperations ops.

(** ** Sequences of register writes

    The entries of the linked table, in order: the address, the value, its
    first bit and its number of bits; a field that cannot be read throws when
    its entry is reached. *)
Record sequenceEntry := mkEntry { WriteAddress : Z; WriteValue : Z; StartingBitPosition : Z; BitFieldSize : Z }.
(** [(1 << size) - 1] of an [int]; a shift to its sign or beyond is
    undefined, as is one of 64 bits by more. *)
Definition bitMask (e : sequenceEntry) : result Z := if 31 <=? BitFieldSize e then Throw Undefined else Ok (Z.shiftl 1 (BitFieldSize e) - 1).
Definition shifted (z n : Z) : result Z := if 64 <=? n then Throw Undefined else Ok (u64 (Z.shiftl z n)).
Definition sequenceWrite (writeHistory : gmap Z Z) (e : sequenceEntry) : result (gmap Z Z * Z) :=
  mask ← bitMask e;
  writeValue ← shifted (Z.land (WriteValue e) mask) (StartingBitPosition e);
  mask ← shifted mask (StartingBitPosition e);
  let before := default 0 (writeHistory !! WriteAddress e) in
  let value := Z.lor (Z.land before (u64 (Z.lnot mask))) writeValue in
  Ok (<[WriteAddress e := value]> writeHistory, value).
Fixpoint sequenceLoop (writeHistory : gmap Z Z) (entries : list (result sequenceEntry)) : M W unit :=
  match entries with
  | [] => mret tt
  | e :: entries =>
      e ← lift e;
      '(writeHistory, value) ← lift (sequenceWrite writeHistory e);
      universalWrite (WriteAddress e) value ≫= fun _ =>
      sequenceLoop writeHistory entries
  end.
(** [None]: the link cannot be read from the tree, which is ignored; an empty
    list is also a disconnected link. *)
Definition runSequenceOfCommands (configSeqLink : option (list (result sequenceEntry))) : M W unit :=
  match configSeqLink with Some entries => sequenceLoop ∅ entries | None => mret tt end.
End Hardware.

(** ** Front-end macros and their arguments *)

Definition frontEndMacroArg_t : Type := text * text.
Implicit Types args : list frontEndMacroArg_t.

(** The name before an open parenthesis: defaults and notes after it may
    change. *)
Fixpoint beforeParen (s : text) : text :=
  match s with [] => [] | c :: s => if (c =? chr 40)%char then [] else c :: beforeParen s end.
Definition getFEMacroConstArgument args (argName : text) : result text :=
  match List.find (fun arg => textEq (beforeParen arg.1) (beforeParen argName)) args with Some arg => Ok arg.2 | None => Throw RuntimeError end.
Definition isDefault (data : text) : bool := textEq data (txt "Default") || textEq data (txt "DEFAULT").
(** For texts, and for numbers ([getNumber] of the type). *)
Definition getFEMacroConstArgumentValue_string args (argName defaultValue : text) : result text :=
  data ← getFEMacroConstArgument args argName; Ok (if isDefault data then defaultValue else data).
Definition getFEMacroConstArgumentValue {T} (getNumber : text -> result (option (bool * T))) args (argName : text) (defaultValue : T) : result T :=
  data ← getFEMacroConstArgument args argName;
  if isDefault data then Ok defaultValue
  else v ← getNumber data; match v with Some (true, z) => Ok z | Some (false, _) => Throw RuntimeError | None => Throw Undefined end.
(** The index of the argument, a reference to its value. *)
Fixpoint getFEMacroArgument args (argName : text) : result nat :=
  match args with
  | [] => Throw RuntimeError
  | arg :: args => if textEq arg.1 argName then Ok 0%nat else i ← getFEMacroArgument args argName; Ok (S i)
  end.
Definition getFEMacroArgumentValue {T} (getNumber : text -> result (option (bool * T))) args (argName : text) : result T :=
  i ← getFEMacroArgument args argName;
  v ← getNumber (default [] (snd <$> args !! i));
  match v with Some (true, z) => Ok z | Some (false, _) => Throw RuntimeError | None => Throw Undefined end.
Definition setFEMacroArgumentValue args (argName value : text) : result (list frontEndMacroArg_t) :=
  i ← getFEMacroArgument args argName; Ok (alter (fun arg => (arg.1, value)) i args).
Definition emplaceFEMacroArgumentValue args (argName value : text) : list frontEndMacroArg_t := args ++ [(argName, value)].

Section Manager.
Context {W : Type}.
(** A macro function gets the inputs and the outputs, which it may change. *)
Record frontEndMacroStruct_t := mkFEMacro {
  feMacroName_ : text;
  macroFunction_ : list frontEndMacroArg_t -> list frontEndMacroArg_t -> M W (list frontEndMacroArg_t);
  namesOfInputArguments : list text; namesOfOutputArguments : list text;
  requiredUserPermissions_ : text; allowedCallingFrontEnds_ : text; feMacroTooltip_ : text }.
Abbreviation FEMacroFunctions := (gmap text frontEndMacroStruct_t).
Definition registerFEMacroFunction (mapOfFEMacroFunctions_ : FEMacroFunctions) (feMacroName : text)
    (feMacroFunction : list frontEndMacroArg_t -> list frontEndMacroArg_t -> M W (list frontEndMacroArg_t))
    (namesOfInputArgs namesOfOutputArgs : list text) (requiredUserPermissions allowedCallingFEs feMacroTooltip : text) : result FEMacroFunctions :=
  if mapOfFEMacroFunctions_ !! feMacroName is Some _ then Throw RuntimeError
  else Ok (<[feMacroName := mkFEMacro feMacroName feMacroFunction namesOfInputArgs namesOfOutputArgs requiredUserPermissions allowedCallingFEs feMacroTooltip]> mapOfFEMacroFunctions_).

(** A macro called by its own front end: the names are compared in full. *)
Fixpoint namesMatch args (names : list text) : bool :=
  match args, names with a :: args, n :: names => textEq a.1 n && namesMatch args names | _, _ => true end.
Definition runSelfFrontEndMacro (mapOfFEMacroFunctions_ : FEMacroFunctions) (feMacroName : text) (argsIn : list frontEndMacroArg_t) : M W (list frontEndMacroArg_t) :=
  match mapOfFEMacroFunctions_ !! feMacroName with
  | None => throw RuntimeError
  | Some feMacro =>
      if negb (namesMatch argsIn (namesOfInputArguments feMacro)) then throw RuntimeError
      else if negb (length (namesOfInputArguments feMacro) =? length argsIn)%nat then throw RuntimeError
      else macroFunction_ feMacro argsIn (map (fun name => (name, txt "DEFAULT")) (namesOfOutputArguments feMacro))
  end.

(** *** The texts of arguments *)

(** [getline] up to a comma; what is left, or nothing if the text ended. *)
Fixpoint untilComma (s : text) : text * option text :=
  match s with
  | [] => ([], None)
  | c :: s => if (c =? comma)%char then ([], Some s) else let '(a, b) := untilComma s in (c :: a, b)
  end.
(** A pair without a comma: the second [getline] fails at the end of the text
    and leaves the value of the pair before. *)
Fixpoint argumentPairs (pieces : list text) (argValue : text) : list frontEndMacroArg_t :=
  match pieces with
  | [] => []
  | splitVal :: pieces =>
      let '(argName, rest) := untilComma splitVal in
      let argValue := match rest with Some rest => (untilComma rest).1 | None => argValue end in
      (argName, argValue) :: argumentPairs pieces argValue
  end.
Definition semicolon : ascii := chr 59.
Definition inputArguments (inputArgs : text) : list frontEndMacroArg_t := argumentPairs (TableViewColumnInfo.getlines semicolon inputArgs) [].
Definition decoded (s : text) : result text := match StringMacros.decodeURIComponent s with Some s => Ok s | None => Throw Undefined end.
Definition decodedPair (arg : frontEndMacroArg_t) : result frontEndMacroArg_t := a ← decoded arg.1; b ← decoded arg.2; Ok (a, b).
Fixpoint renderHex (fuel : nat) (n : Z) (acc : text) : text :=
  match fuel with
  | O => acc
  | S fuel => let d := n mod 16 in let acc := (if d <? 10 then chr (48 + d) else chr (87 + d)) :: acc in if n <? 16 then acc else renderHex fuel (n / 16) acc
  end.
(** ["10 (0xa)"] of a number of 64 bits. *)
Definition numberText (z : Z) : text := to_string_unsigned z ++ txt " (0x" ++ renderHex 16 z [] ++ txt ")".
Definition outputText (pairs : list frontEndMacroArg_t) : text := join [semicolon] true (map (fun arg => arg.1 ++ [comma] ++ arg.2) pairs).

(** *** The manager of the front ends *)

Record FrontEnd := mkFrontEnd {
  getMapOfFEMacroFunctions : FEMacroFunctions;
  universalRead_ : Z -> W -> result Z * W; universalWrite_ : Z -> Z -> W -> result unit * W }.
Variables (theFEInterfaces_ : gmap text FrontEnd) (usleep : Z -> W -> W).
Definition getFEInterfaceP (interfaceID : text) : result FrontEnd := match theFEInterfaces_ !! interfaceID with Some fe => Ok fe | None => Throw RuntimeError end.

Definition sameNames args (names : list text) : bool := (length names =? length args)%nat && forallb (fun a => bool_decide (a.1 ∈ names)) args.
(** The variables of a macro, outputs first, at 0, then the inputs given. *)
Fixpoint setVariables (variableMap : gmap text Z) args : result (gmap text Z) :=
  match args with
  | [] => Ok variableMap
  | a :: args =>
      v ← BinaryStringMacros.getNumber_uint64 a.2;
      match v, variableMap !! a.1 with
      | None, _ => Throw Undefined
      | _, None => Throw OutOfRange
      | Some (_, z), Some _ => setVariables (<[a.1 := z]> variableMap) args
      end
  end.
Fixpoint outputValues (variableMap : gmap text Z) args : result (list frontEndMacroArg_t) :=
  match args with
  | [] => Ok []
  | a :: args => match variableMap !! a.1 with Some z => rest ← outputValues variableMap args; Ok ((a.1, numberText z) :: rest) | None => Throw OutOfRange end
  end.
Definition runOn (fe : FrontEnd) (macro : macroStruct_t) (variableMap : gmap text Z) (argsOut : list frontEndMacroArg_t) : M W text := fun w =>
  match runMacro (universalRead_ fe) (universalWrite_ fe) usleep (mkRun macro variableMap w) with
  | (Ok _, r) => (outputs ← outputValues (FEMacros.variableMap r) argsOut; Ok (outputText outputs), world r)
  | (Throw e, r) => (Throw e, world r)
  end.
(** A MacroMaker macro on a front end: the output arguments in, their values
    out. *)
Definition runMacroOn (interfaceID macroObjectString inputArgs outputArgs : text) : M W text :=
  macro ← lift (parseMacro macroObjectString);
  fe ← lift (getFEInterfaceP interfaceID);
  let argsIn := inputArguments inputArgs in
  let argsOut := map (fun name => (name, txt "DEFAULT")) (TableViewColumnInfo.getlines comma outputArgs) in
  if negb (sameNames argsIn (namesOfInputArguments_ macro)) then throw RuntimeError
  else if negb (sameNames argsOut (namesOfOutputArguments_ macro)) then throw RuntimeError
  else
    variableMap ← lift (setVariables (gset_to_gmap 0 (list_to_set (namesOfOutputArguments_ macro ++ namesOfInputArguments_ macro))) argsIn);
    runOn fe macro variableMap argsOut.

(** *** Front-end macros by name *)

Definition PLOTLY_PLOT : text := txt "Plotly_Plot".
Definition ARG_OUT_DEFAULT : text := txt "DEFAULT".
Fixpoint inputNamesMatch args (names : list text) : bool :=
  match args, names with a :: args, n :: names => textEq (beforeParen a.1) (beforeParen n) && inputNamesMatch args names | _, _ => true end.
(** Numbers are shown in decimal and hexadecimal; an exception means that it is
    none. *)
Definition outputValue (value : text) : result text :=
  match BinaryStringMacros.getNumber_uint64 value with
  | Ok (Some (true, z)) => Ok (numberText z)
  | Ok None | Throw Undefined => Throw Undefined
  | _ => Ok (StringMacros.encodeURIComponent value)
  end.
Definition outputPair (arg : frontEndMacroArg_t) : result frontEndMacroArg_t := v ← outputValue arg.2; Ok (StringMacros.encodeURIComponent arg.1, v).
(** The built-in output comes last and is left out if it was not set. *)
Definition shownOutputs args : list frontEndMacroArg_t :=
  match last args with
  | Some arg => if textEq arg.2 ARG_OUT_DEFAULT then removelast args else args
  | None => args
  end.
Definition runFEMacro (interfaceID : text) (feMacro : frontEndMacroStruct_t) (inputArgs outputArgs : text) : M W text :=
  argsIn ← lift (mapM decodedPair (inputArguments inputArgs));
  if negb (length (namesOfInputArguments feMacro) =? length argsIn)%nat then throw RuntimeError
  else if negb (inputNamesMatch argsIn (namesOfInputArguments feMacro)) then throw RuntimeError
  else
    names ← lift (mapM decoded (TableViewColumnInfo.getlines comma outputArgs));
    let argsOut := map (fun name => (name, ARG_OUT_DEFAULT)) names in
    if negb (length (namesOfOutputArguments feMacro) =? length argsOut)%nat then throw RuntimeError
    else if negb (namesMatch argsOut (namesOfOutputArguments feMacro)) then throw RuntimeError
    else
      lift (getFEInterfaceP interfaceID) ≫= fun _ =>
      argsOut ← macroFunction_ feMacro argsIn (argsOut ++ [(PLOTLY_PLOT, ARG_OUT_DEFAULT)]);
      if negb (Z.of_nat (length (namesOfOutputArguments feMacro)) =? u64 (Z.of_nat (length argsOut) - 1)) then throw RuntimeError
      else outputs ← lift (mapM outputPair (shownOutputs argsOut)); mret (outputText outputs).
Definition runFEMacroNamed (interfaceID feMacroName inputArgs outputArgs : text) : M W text :=
  fe ← lift (getFEInterfaceP interfaceID);
  match getMapOfFEMacroFunctions fe !! feMacroName with None => throw RuntimeError | Some feMacro => runFEMacro interfaceID feMacro inputArgs outputArgs end.
(** A macro that another front end calls: it must be allowed to. *)
Definition allowedFEsSet (feMacro : frontEndMacroStruct_t) : list text :=
  getSetFromString (allowedCallingFrontEnds_ feMacro) [comma; chr 124; chr 38] ws_default [].
Definition runFEMacroByFE (callingInterfaceID interfaceID feMacroName inputArgs : text) : M W text :=
  fe ← lift (getFEInterfaceP interfaceID);
  match getMapOfFEMacroFunctions fe !! feMacroName with
  | None => throw RuntimeError
  | Some feMacro =>
      if negb (StringMacros.inWildCardSet callingInterfaceID (allowedFEsSet feMacro)) then throw RuntimeError
      else runFEMacro interfaceID feMacro inputArgs (join [comma] true (namesOfOutputArguments feMacro))
  end.
End Manager.

(** ** A macro does what its commands say

    The commands as data, with the order of the text, and the meaning of their
    fields: a field of hexadecimal digits is a number, with the most significant
    digit first, or, least significant byte first, byte by byte with a 0 before
    an odd number of digits; any other field names a variable. *)
Inductive operand := Constant (z : Z) | Variable_ (name : text).
Inductive Command := CRead (address : operand) (output : option text) | CWrite (address data : operand) | CDelay (delay : operand).
Definition isConstant (piece : text) : bool := forallb isHexDigit piece.
Definition digitOf (c : ascii) : Z := if is_digit c then code c - 48 else if between 97 102 c then code c - 87 else code c - 55.
Definition hexValue (s : text) : Z := fold_left (fun z c => 16 * z + digitOf c) s 0.
Fixpoint bytesValue (s : text) : Z :=
  match s with
  | hi :: lo :: s => 16 * digitOf hi + digitOf lo + 256 * bytesValue s
  | _ => 0
  end.
Definition evenDigits (s : text) : text := if Nat.even (length s) then s else txt "0" ++ s.
Definition constantOf (lsbf : bool) (piece : text) : Z := if lsbf then bytesValue (evenDigits piece) else hexValue piece.
Definition operandOf (lsbf : bool) (piece : text) : operand := if isConstant piece then Constant (constantOf lsbf piece) else Variable_ piece.
Definition commandOf (lsbf : bool) (command : text) : result Command :=
  commandPieces ← vectorOf command [colon];
  match commandPieces with
  | [_; [c]; address; data] =>
      if (c =? chr 114)%char then Ok (CRead (operandOf lsbf address) (if isConstant data then None else Some data))
      else if (c =? chr 119)%char then Ok (CWrite (operandOf lsbf address) (operandOf lsbf data))
      else Throw RuntimeError
  | [_; [c]; delay] => if (c =? chr 100)%char then Ok (CDelay (operandOf false delay)) else Throw RuntimeError
  | _ => Throw RuntimeError
  end.
(** The texts of a macro's commands, and whether the least significant byte is
    first. *)
Definition commandTexts (macroString : text) : result (bool * list text) :=
  extractVec ← vectorOf macroString quote;
  lsbf ← extracted extractVec 19;
  sequence ← extracted extractVec 7;
  sequenceCommands ← vectorOf sequence [comma];
  Ok (negb (textEq lsbf (txt "false")), sequenceCommands).
Definition commandsOf (macroString : text) : result (list Command) :=
  '(lsbf, commands) ← commandTexts macroString;
  mapM (commandOf lsbf) commands.

(** Constants that are read right: below 2^63, and data with the least
    significant byte first of an even number of digits. *)
Definition constantFits (lsbf : bool) (piece : text) : bool :=
  negb (isConstant piece) || negb (bool_decide (piece = [])) && (constantOf lsbf piece <? 2 ^ 63).
Definition commandFits (lsbf : bool) (command : text) : bool :=
  match vectorOf command [colon] with
  | Ok [_; [c]; address; data] =>
      constantFits lsbf address && (if (c =? chr 119)%char then constantFits lsbf data && (negb lsbf || negb (isConstant data) || Nat.even (length data)) else true)
  | Ok [_; _; delay] => constantFits false delay
  | _ => true
  end.
Definition macroFits (macroString : text) : bool :=
  match commandTexts macroString with Ok (lsbf, commands) => forallb (commandFits lsbf) commands | Throw _ => true end.

(** *** The numbers of the code are those of the text *)

Lemma localIsVariable_spec piece : localIsVariable piece = negb (isConstant piece).
Proof.
  unfold localIsVariable, isConstant, isHexDigit. induction piece as [|c piece IH]; [done|]. cbn [existsb forallb]. rewrite IH, negb_andb.
  by destruct (is_digit c), (between 97 102 c), (between 65 70 c).
Qed.
Lemma isConstant_digits piece : isConstant piece = true -> Forall (fun c => isHexDigit c = true) piece.
Proof. unfold isConstant. rewrite forallb_forall. intros H. apply Forall_forall. intros c Hc%list_elem_of_In. by apply H. Qed.
Lemma digitValue_hex c : isHexDigit c = true -> digitValue c = digitOf c /\ 0 <= digitOf c < 16.
Proof.
  intros H%isHexDigit_code. unfold digitValue, digitOf, is_digit, is_upper, is_lower, between.
  repeat match goal with |- context [?a <=? ?b] => destruct (Z.leb_spec a b) end; cbn [andb]; lia.
Qed.
Lemma readBase_hex s : Forall (fun c => isHexDigit c = true) s -> forall acc, readBase 16 s acc = fold_left (fun z c => 16 * z + digitOf c) s acc.
Proof.
  induction 1 as [|c s Hc _ IH]; intros acc; [done|]. cbn [readBase fold_left]. destruct (digitValue_hex c Hc) as [-> H].
  destruct (Z.ltb_spec (digitOf c) 16); [|lia]. rewrite IH. f_equal. lia.
Qed.
Lemma hexValue_nonneg s : Forall (fun c => isHexDigit c = true) s -> 0 <= hexValue s.
Proof.
  unfold hexValue. assert (H : forall s acc, Forall (fun c => isHexDigit c = true) s -> 0 <= acc -> 0 <= fold_left (fun z c => 16 * z + digitOf c) s acc); [|intros Hs; by apply H].
  clear s. induction s as [|c s IH]; intros acc Hs Ha; [done|]. apply Forall_cons in Hs as [Hc Hs]. destruct (digitValue_hex c Hc) as [_ Hd]. cbn [fold_left]. apply IH; [done|lia].
Qed.
Lemma hexNumber_spec s : s <> [] -> Forall (fun c => isHexDigit c = true) s -> hexValue s < 2 ^ 63 -> hexNumber s = Ok (hexValue s).
Proof.
  intros Hne Hs Hv. pose proof (hexValue_nonneg s Hs) as H0. assert (E : readBase 16 s 0 = hexValue s) by by apply readBase_hex.
  unfold hexNumber, BinaryStringMacros.getNumber_uint64. rewrite getNumber_hexadecimal; rewrite ?E; [done|done|done|done|].
  f_equal. apply wrap_small. change (2 ^ 63) with 9223372036854775808 in Hv. unfold in_range. change (2 ^ 64) with 18446744073709551616. lia.
Qed.
(** Pairs of digits from the end are bytes in the other order. *)
Lemma pairAt_cons2 a b s i : (2 * (i + 1) <= length s)%nat -> pairAt (a :: b :: s) i = pairAt s i.
Proof. intros H. unfold pairAt. cbn [length]. replace (S (S (length s)) - 2 * (i + 1))%nat with (S (S (length s - 2 * (i + 1))))%nat by lia. done. Qed.
Lemma flipped_pair a b s n : length s = (2 * n)%nat -> flipped (a :: b :: s) = flipped s ++ [a; b].
Proof.
  intros H. unfold flipped. cbn [length]. rewrite H. replace (S (S (2 * n)) / 2)%nat with (S n) by (apply (Nat.div_unique _ 2 _ 0); lia).
  replace (2 * n / 2)%nat with n by (rewrite Nat.mul_comm, Nat.div_mul; lia). rewrite seq_S, map_app, concat_app. cbn [map concat Nat.add]. rewrite app_nil_r. f_equal.
  - f_equal. apply map_ext_in. intros i Hi%in_seq. apply pairAt_cons2. lia.
  - unfold pairAt. cbn [length]. rewrite H. replace (S (S (2 * n)) - 2 * (n + 1))%nat with 0%nat by lia. done.
Qed.
Lemma flipped_odd c s n : length s = (2 * n)%nat -> flipped (c :: s) = flipped s.
Proof.
  intros H. unfold flipped. cbn [length]. rewrite H. replace (S (2 * n) / 2)%nat with n by (apply (Nat.div_unique _ 2 _ 1); lia).
  replace (2 * n / 2)%nat with n by (rewrite Nat.mul_comm, Nat.div_mul; lia). f_equal. apply map_ext_in. intros i Hi%in_seq.
  unfold pairAt. cbn [length]. rewrite H. by replace (S (2 * n) - 2 * (i + 1))%nat with (S (2 * n - 2 * (i + 1)))%nat by lia.
Qed.
Lemma flipped_value n : forall s, length s = (2 * n)%nat -> Forall (fun c => isHexDigit c = true) s ->
  hexValue (flipped s) = bytesValue s /\ Forall (fun c => isHexDigit c = true) (flipped s) /\ length (flipped s) = length s.
Proof.
  induction n as [|n IH]; intros s Hl Hs; [destruct s; [done|discriminate]|].
  destruct s as [|a [|b s]]; [discriminate|cbn in Hl; lia|]. cbn [length] in Hl. apply Forall_cons in Hs as [Ha Hs]. apply Forall_cons in Hs as [Hb Hs].
  assert (Hn : length s = (2 * n)%nat) by lia. destruct (IH s Hn Hs) as (E & Hf & Hlen). rewrite (flipped_pair a b s n) by done. split_and!.
  - unfold hexValue in *. rewrite fold_left_app, E. cbn [fold_left bytesValue]. lia.
  - apply Forall_app. split; [done|]. by repeat constructor.
  - rewrite length_app, Hlen. cbn. lia.
Qed.
Lemma even_length (s : text) : Nat.even (length s) = true -> exists n, length s = (2 * n)%nat.
Proof. rewrite Nat.even_spec. by intros [n Hn]; exists n. Qed.
Lemma flippedNumber_spec s : s <> [] -> Nat.even (length s) = true -> Forall (fun c => isHexDigit c = true) s -> bytesValue s < 2 ^ 63 -> hexNumber (flipped s) = Ok (bytesValue s).
Proof.
  intros Hne Hev Hs Hv. destruct (even_length s Hev) as [n Hn]. destruct (flipped_value n s Hn Hs) as (Ev & Hf & Hl). rewrite <- Ev in *. apply hexNumber_spec; [|done|done].
  intros E. rewrite E in Hl. by destruct s.
Qed.
Lemma constantFits_spec lsbf piece : constantFits lsbf piece = true -> isConstant piece = true ->
  piece <> [] /\ Forall (fun c => isHexDigit c = true) piece /\ constantOf lsbf piece < 2 ^ 63.
Proof.
  unfold constantFits. intros H Hc. rewrite Hc in H. cbn [negb orb] in H. apply andb_prop in H as [H1 H2]. apply negb_true_iff, bool_decide_eq_false in H1.
  apply Z.ltb_lt in H2. by split_and!; [|apply isConstant_digits|].
Qed.
Lemma addressNumber_spec lsbf piece : constantFits lsbf piece = true -> isConstant piece = true -> addressNumber lsbf piece = Ok (constantOf lsbf piece).
Proof.
  intros H Hc. destruct (constantFits_spec lsbf piece H Hc) as (Hne & Hs & Hv). unfold addressNumber, constantOf, evenDigits in *.
  destruct lsbf; [|by apply hexNumber_spec]. destruct (Nat.even (length piece)) eqn:Hev.
  - destruct (even_length piece Hev) as [n Hn]. cbn [txt String.list_ascii_of_string app]. rewrite (flipped_odd _ piece n) by done. by apply flippedNumber_spec.
  - apply flippedNumber_spec; [done| |by constructor|done]. cbn [txt String.list_ascii_of_string app length]. rewrite Nat.even_succ, <- Nat.negb_even. by rewrite Hev.
Qed.
Lemma dataNumber_spec lsbf piece : constantFits lsbf piece = true -> negb lsbf || negb (isConstant piece) || Nat.even (length piece) = true -> isConstant piece = true ->
  dataNumber lsbf piece = Ok (constantOf lsbf piece).
Proof.
  intros H He Hc. rewrite Hc, orb_false_r in He. destruct (constantFits_spec lsbf piece H Hc) as (Hne & Hs & Hv). unfold dataNumber, constantOf, evenDigits in *.
  destruct lsbf; [|by apply hexNumber_spec]. cbn [negb orb] in He. rewrite He in *. by apply flippedNumber_spec.
Qed.
Lemma delayNumber_spec piece : constantFits false piece = true -> isConstant piece = true -> hexNumber piece = Ok (constantOf false piece).
Proof. intros H Hc. destruct (constantFits_spec false piece H Hc) as (Hne & Hs & Hv). by apply hexNumber_spec. Qed.

Section Meaning.
Context {W : Type} (universalRead : Z -> W -> result Z * W) (universalWrite : Z -> Z -> W -> result unit * W) (usleep : Z -> W -> W).
Definition meaningOf (variables : gmap text Z) (o : operand) : result Z :=
  match o with Constant z => Ok z | Variable_ name => match variables !! name with Some z => Ok z | None => Throw OutOfRange end end.
(** One command on the variables and the hardware. *)
Definition interpret1 (c : Command) : M (gmap text Z * W) unit := fun '(variables, w) =>
  match c with
  | CRead a output =>
      match meaningOf variables a with
      | Throw e => (Throw e, (variables, w))
      | Ok address =>
          let '(r, w) := universalRead address w in
          match r, output with
          | Throw e, _ => (Throw e, (variables, w))
          | Ok z, None => (Ok tt, (variables, w))
          | Ok z, Some name => match variables !! name with Some _ => (Ok tt, (<[name := z]> variables, w)) | None => (Throw OutOfRange, (variables, w)) end
          end
      end
  | CWrite a d =>
      match meaningOf variables a, meaningOf variables d with
      | Ok address, Ok data => let '(r, w) := universalWrite address data w in (r, (variables, w))
      | Throw e, _ | _, Throw e => (Throw e, (variables, w))
      end
  | CDelay d =>
      match meaningOf variables d with Throw e => (Throw e, (variables, w)) | Ok delay => (Ok tt, (variables, usleep (u32 (u64 (delay * 1000))) w)) end
  end.
Fixpoint interpret (cs : list Command) : M (gmap text Z * W) unit :=
  match cs with [] => mret tt | c :: cs => interpret1 c ≫= fun _ => interpret cs end.

Definition asOperand (isVar : bool) (name : text) (z : Z) : operand := if isVar then Variable_ name else Constant z.
(** The operation is the command. *)
Definition implements1 m (op : opType * nat) (c : Command) : Prop :=
  match op with
  | (OP_TYPE_READ, i) => exists o, readOps_ m !! i = Some o /\ c = CRead (asOperand (addressIsVar_ o) (addressVarName_ o) (address_ o)) (if dataIsVar_ o then Some (dataVarName_ o) else None)
  | (OP_TYPE_WRITE, i) => exists o, writeOps_ m !! i = Some o /\ c = CWrite (asOperand (waddressIsVar_ o) (waddressVarName_ o) (waddress_ o)) (asOperand (wdataIsVar_ o) (wdataVarName_ o) (data_ o))
  | (OP_TYPE_DELAY, i) => exists o, delayOps_ m !! i = Some o /\ c = CDelay (asOperand (delayIsVar_ o) (delayVarName_ o) (delay_ o))
  end.
Definition implements m (cs : list Command) : Prop := Forall2 (implements1 m) (operations_ m) cs.

(** A change of the remembered values of variables does not matter. *)
Lemma implements_read m i o z : readOps_ m !! i = Some o -> (addressIsVar_ o = false -> z = address_ o) ->
  forall op c, implements1 m op c -> implements1 (set_readOp m i (mkReadOp z (addressIsVar_ o) (addressVarName_ o) (dataIsVar_ o) (dataVarName_ o))) op c.
Proof.
  intros Ho Hz [[] j] c; cbn [implements1 set_readOp readOps_ writeOps_ delayOps_]; try done. intros (o' & Hj & ->). destruct (decide (i = j)) as [<-|Hne].
  - rewrite Ho in Hj. injection Hj as <-. eexists. split; [apply list_lookup_insert_eq; by eapply lookup_lt_Some|]. cbn. unfold asOperand. destruct (addressIsVar_ o); [done|]. by rewrite Hz.
  - exists o'. by rewrite list_lookup_insert_ne.
Qed.
Lemma implements_write m i o z d : writeOps_ m !! i = Some o -> (waddressIsVar_ o = false -> z = waddress_ o) -> (wdataIsVar_ o = false -> d = data_ o) ->
  forall op c, implements1 m op c -> implements1 (set_writeOp m i (mkWriteOp z (waddressIsVar_ o) (waddressVarName_ o) d (wdataIsVar_ o) (wdataVarName_ o))) op c.
Proof.
  intros Ho Hz Hd [[] j] c; cbn [implements1 set_writeOp readOps_ writeOps_ delayOps_]; try done. intros (o' & Hj & ->). destruct (decide (i = j)) as [<-|Hne].
  - rewrite Ho in Hj. injection Hj as <-. eexists. split; [apply list_lookup_insert_eq; by eapply lookup_lt_Some|]. cbn. unfold asOperand.
    destruct (waddressIsVar_ o), (wdataIsVar_ o); rewrite ?Hz, ?Hd by done; done.
  - exists o'. by rewrite list_lookup_insert_ne.
Qed.
Lemma implements_delay m i o z : delayOps_ m !! i = Some o -> (delayIsVar_ o = false -> z = delay_ o) ->
  forall op c, implements1 m op c -> implements1 (set_delayOp m i (mkDelayOp z (delayIsVar_ o) (delayVarName_ o))) op c.
Proof.
  intros Ho Hz [[] j] c; cbn [implements1 set_delayOp readOps_ writeOps_ delayOps_]; try done. intros (o' & Hj & ->). destruct (decide (i = j)) as [<-|Hne].
  - rewrite Ho in Hj. injection Hj as <-. eexists. split; [apply list_lookup_insert_eq; by eapply lookup_lt_Some|]. cbn. unfold asOperand. destruct (delayIsVar_ o); [done|]. by rewrite Hz.
  - exists o'. by rewrite list_lookup_insert_ne.
Qed.
Lemma valueOf_run (isVar : bool) (name : text) (z : Z) m (vs : gmap text Z) (w : W) :
  valueOf isVar name z (mkRun m vs w) = (meaningOf vs (asOperand isVar name z), mkRun m vs w).
Proof. unfold valueOf, asOperand. destruct isVar; [|done]. cbn. unfold at_. cbn. by destruct (vs !! name). Qed.
Lemma meaning_constant (vs : gmap text Z) (isVar : bool) (name : text) (z v : Z) : meaningOf vs (asOperand isVar name z) = Ok v -> isVar = false -> v = z.
Proof. intros H ->. cbn in H. by injection H. Qed.

(** What the run of an operation keeps. *)
Definition keepsMacro m m' : Prop := operations_ m' = operations_ m /\ forall op c, implements1 m op c -> implements1 m' op c.
Lemma keepsMacro_refl m : keepsMacro m m.
Proof. done. Qed.
Lemma keepsMacro_trans m1 m2 m3 : keepsMacro m1 m2 -> keepsMacro m2 m3 -> keepsMacro m1 m3.
Proof. intros [E1 H1] [E2 H2]. split; [by rewrite E2|]. intros op c H. by apply H2, H1. Qed.
Lemma runOperation_run (m : macroStruct_t) (op : opType * nat) (c : Command) (vs : gmap text Z) (w : W) : implements1 m op c ->
  let '(r, s) := runOperation universalRead universalWrite usleep op (mkRun m vs w) in
  interpret1 c (vs, w) = (r, (variableMap s, world s)) /\ keepsMacro m (macro s).
Proof.
  destruct op as [[] i]; cbn [implements1 runOperation]; intros (o & Ho & ->); unfold doRead, doWrite, doDelay, opAt, onWorld, setMacro, modify; unfold mbind, M_bind; cbn [macro]; rewrite Ho; rewrite valueOf_run; cbn [interpret1].
  - destruct (meaningOf vs _) as [z|e] eqn:Ez; [|done]. cbn. destruct (universalRead z w) as [[d|e] w']; cbn.
    + destruct (dataIsVar_ o) eqn:Ed; [|refine (conj eq_refl (conj eq_refl _)); cbn; rewrite <- Ed; eapply implements_read; [done|]; intros Hv; by eapply meaning_constant].
      unfold setAt. cbn. destruct (vs !! dataVarName_ o); (split; [done|]; split; [done|]; rewrite <- Ed; eapply implements_read; [done|]; intros Hv; by eapply meaning_constant).
    + split; [done|]. split; [done|]. eapply implements_read; [done|]. intros Hv. by eapply meaning_constant.
  - destruct (meaningOf vs (asOperand (waddressIsVar_ o) _ _)) as [z|e] eqn:Ez; [|done]. cbn. rewrite valueOf_run.
    assert (K1 : keepsMacro m (set_writeOp m i (mkWriteOp z (waddressIsVar_ o) (waddressVarName_ o) (data_ o) (wdataIsVar_ o) (wdataVarName_ o)))).
    { split; [done|]. eapply implements_write; [done| |done]. intros Hv. by eapply meaning_constant. }
    destruct (meaningOf vs (asOperand (wdataIsVar_ o) _ _)) as [d|e] eqn:Ed; [|by split]. cbn.
    assert (K2 : keepsMacro m (set_writeOp (set_writeOp m i (mkWriteOp z (waddressIsVar_ o) (waddressVarName_ o) (data_ o) (wdataIsVar_ o) (wdataVarName_ o))) i
      (mkWriteOp z (waddressIsVar_ o) (waddressVarName_ o) d (wdataIsVar_ o) (wdataVarName_ o)))).
    { eapply keepsMacro_trans; [exact K1|]. split; [done|]. set (o2 := mkWriteOp z _ _ (data_ o) _ _) in *. apply (implements_write _ i o2); [cbn; apply list_lookup_insert_eq; by eapply lookup_lt_Some|done|].
      cbn. intros Hv. by eapply meaning_constant. }
    destruct (universalWrite z d w) as [[[]|e] w']; by split.
  - destruct (meaningOf vs _) as [z|e] eqn:Ez; [|done]. cbn. split; [done|]. split; [done|]. eapply implements_delay; [done|]. intros Hv. by eapply meaning_constant.
Qed.
Lemma runOperations_run (ops : list (opType * nat)) : forall (cs : list Command) (m : macroStruct_t) (vs : gmap text Z) (w : W), Forall2 (implements1 m) ops cs ->
  let '(r, s) := runOperations universalRead universalWrite usleep ops (mkRun m vs w) in
  interpret cs (vs, w) = (r, (variableMap s, world s)) /\ keepsMacro m (macro s).
Proof.
  induction ops as [|op ops IH]; intros cs m vs w H; inversion H as [|? c ? cs' H1 H2]; subst; cbn [runOperations interpret]; [done|].
  pose proof (runOperation_run m op c vs w H1) as Hr. unfold mbind, M_bind. destruct (runOperation _ _ _ op _) as [[[]|e] [m1 vs1 w1]]; destruct Hr as [-> K1]; [|done]. cbn [macro variableMap world] in *.
  specialize (IH cs' m1 vs1 w1). destruct (runOperations _ _ _ ops _) as [r s]. destruct IH as [E K2]; [|split; [done|by eapply keepsMacro_trans]].
  eapply Forall2_impl; [exact H2|]. by apply K1.
Qed.
(** Parsing gives operations that are the commands. *)
Lemma parsed_operand lsbf number piece z isVar name : (isConstant piece = true -> number piece = Ok (constantOf lsbf piece)) ->
  fieldOf number piece = Ok (z, isVar, name) -> operandOf lsbf piece = asOperand isVar name z.
Proof.
  intros Hn. unfold fieldOf, operandOf. rewrite localIsVariable_spec. destruct (isConstant piece); cbn [negb]; [|by intros [= <- <- <-]].
  rewrite Hn by done. cbn. by intros [= <- <- <-].
Qed.
Lemma implements_addRead m cs o : implements m cs ->
  implements (addRead m o) (cs ++ [CRead (asOperand (addressIsVar_ o) (addressVarName_ o) (address_ o)) (if dataIsVar_ o then Some (dataVarName_ o) else None)]).
Proof.
  intros H. apply Forall2_app; [|constructor; [|constructor]; exists o; split; [cbn; apply list_lookup_middle; done|done]].
  eapply Forall2_impl; [exact H|]. intros [[] i] c; cbn [implements1 addRead readOps_ writeOps_ delayOps_]; try done. intros (o' & Ho & ->). exists o'. by rewrite lookup_app_l by by eapply lookup_lt_Some.
Qed.
Lemma implements_addWrite m cs o : implements m cs ->
  implements (addWrite m o) (cs ++ [CWrite (asOperand (waddressIsVar_ o) (waddressVarName_ o) (waddress_ o)) (asOperand (wdataIsVar_ o) (wdataVarName_ o) (data_ o))]).
Proof.
  intros H. apply Forall2_app; [|constructor; [|constructor]; exists o; split; [cbn; apply list_lookup_middle; done|done]].
  eapply Forall2_impl; [exact H|]. intros [[] i] c; cbn [implements1 addWrite readOps_ writeOps_ delayOps_]; try done. intros (o' & Ho & ->). exists o'. by rewrite lookup_app_l by by eapply lookup_lt_Some.
Qed.
Lemma implements_addDelay m cs o : implements m cs -> implements (addDelay m o) (cs ++ [CDelay (asOperand (delayIsVar_ o) (delayVarName_ o) (delay_ o))]).
Proof.
  intros H. apply Forall2_app; [|constructor; [|constructor]; exists o; split; [cbn; apply list_lookup_middle; done|done]].
  eapply Forall2_impl; [exact H|]. intros [[] i] c; cbn [implements1 addDelay readOps_ writeOps_ delayOps_]; try done. intros (o' & Ho & ->). exists o'. by rewrite lookup_app_l by by eapply lookup_lt_Some.
Qed.
Lemma addCommand_implements m m' cs command : commandFits (lsbf_ m) command = true -> implements m cs -> addCommand m command = Ok m' ->
  lsbf_ m' = lsbf_ m /\ exists c, commandOf (lsbf_ m) command = Ok c /\ implements m' (cs ++ [c]).
Proof.
  intros Hfit H. unfold addCommand, commandOf. unfold commandFits in Hfit. destruct (vectorOf command [colon]) as [l|]; cbn [mbind result_bind]; [|done].
  destruct l as [|? [|[|c []] [|p2 [|p3 []]]]]; try done.
  - destruct (c =? chr 100)%char; [|done]. unfold delayOpOf. destruct (fieldOf hexNumber p2) as [[[z isVar] name]|] eqn:E; cbn [mbind result_bind]; [|done]. intros [= <-].
    rewrite (parsed_operand false _ _ _ _ _ (delayNumber_spec p2 Hfit) E). split; [done|]. eexists. split; [done|]. by apply (implements_addDelay m cs (mkDelayOp z isVar name)).
  - apply andb_prop in Hfit as [Hfa Hfd]. pose proof (addressNumber_spec (lsbf_ m) p2 Hfa) as Ha. destruct (c =? chr 114)%char; [|destruct (c =? chr 119)%char; [|done]].
    + unfold readOpOf. destruct (fieldOf (addressNumber _) p2) as [[[z isVar] name]|] eqn:E; cbn [mbind result_bind]; [|done]. intros [= <-].
      rewrite (parsed_operand _ _ _ _ _ _ Ha E). split; [done|]. eexists. split; [done|]. pose proof (implements_addRead m cs (mkReadOp z isVar name (localIsVariable p3) (if localIsVariable p3 then p3 else [])) H) as K.
      cbn [addressIsVar_ addressVarName_ address_ dataIsVar_ dataVarName_] in K. rewrite localIsVariable_spec in K |- *. by destruct (isConstant p3).
    + apply andb_prop in Hfd as [Hfd He]. pose proof (dataNumber_spec (lsbf_ m) p3 Hfd He) as Hd.
      unfold writeOpOf. destruct (fieldOf (addressNumber _) p2) as [[[z isVar] name]|] eqn:E; cbn [mbind result_bind]; [|done].
      destruct (fieldOf (dataNumber _) p3) as [[[d dIsVar] dname]|] eqn:E'; cbn [mbind result_bind]; [|done]. intros [= <-].
      rewrite (parsed_operand _ _ _ _ _ _ Ha E), (parsed_operand _ _ _ _ _ _ Hd E'). split; [done|]. eexists. split; [done|]. by apply (implements_addWrite m cs (mkWriteOp z isVar name d dIsVar dname)).
Qed.
Lemma addCommands_implements commands : forall m m' cs, forallb (commandFits (lsbf_ m)) commands = true -> implements m cs -> addCommands m commands = Ok m' ->
  exists cs', mapM (commandOf (lsbf_ m)) commands = Ok cs' /\ implements m' (cs ++ cs').
Proof.
  induction commands as [|command commands IH]; intros m m' cs Hfit H Hm; cbn [addCommands] in Hm; [injection Hm as <-; exists []; by rewrite app_nil_r|].
  cbn [forallb] in Hfit. apply andb_prop in Hfit as [Hf Hfit].
  destruct (addCommand m command) as [m1|] eqn:E; cbn [mbind result_bind] in Hm; [|done]. destruct (addCommand_implements m m1 cs command Hf H E) as (Hl & c & Hc & H1).
  destruct (IH m1 m' (cs ++ [c])) as (cs' & Hcs & H2); [by rewrite Hl|done..|]. exists (c :: cs'). rewrite <- app_assoc in H2. split; [|done]. cbn [mapM]. rewrite Hc. cbn [mbind result_bind]. rewrite <- Hl, Hcs. done.
Qed.
(** C25: A macro, however often it is run, does what the commands of its text say, in
    their order: the same reads, writes and delays, the same variables and the
    same exception, if there is one.  Its constants are below 2^63 (a larger one
    is read as 2^63 - 1: [large_literal_saturates]), and with the least
    significant byte first the data have an even number of digits (of an odd
    number one is lost: [odd_data_loses_digit]). *)
Theorem macro_runs_its_commands macroString m : macroFits macroString = true -> parseMacro macroString = Ok m ->
  exists cs, commandsOf macroString = Ok cs /\
    forall m', keepsMacro m m' -> forall vs w,
      let '(r, s) := runMacro universalRead universalWrite usleep (mkRun m' vs w) in
      interpret cs (vs, w) = (r, (variableMap s, world s)) /\ keepsMacro m (macro s).
Proof.
  unfold parseMacro, macroFits, commandsOf, commandTexts. intros Hfit H. destruct (vectorOf macroString quote) as [l|]; cbn [mbind result_bind] in *; [|done].
  destruct (negb _); [done|]. destruct (negb _); [done|]. destruct (negb _); [done|]. destruct (extracted l 3); cbn [mbind result_bind] in *; [|done].
  destruct (extracted l 19) as [lsbf|]; cbn [mbind result_bind] in *; [|done]. destruct (extracted l 7) as [sequence|]; cbn [mbind result_bind] in *; [|done].
  destruct (vectorOf sequence [comma]) as [commands|]; cbn [mbind result_bind] in *; [|done].
  edestruct addCommands_implements as (cs & Hcs & Hm); [| |exact H|]; [exact Hfit|by apply Forall2_nil|]. cbn [lsbf_ app] in *. exists cs. split; [done|]. intros m' K vs w.
  unfold runMacro. rewrite (bind_ok (gets _) _ (mkRun m' vs w) (operations_ m') (mkRun m' vs w)) by done. destruct K as [K1 K2]. rewrite K1.
  pose proof (runOperations_run (operations_ m) cs m' vs w) as Hr. destruct (runOperations _ _ _ (operations_ m) _) as [r s]. destruct Hr as [E K]; [by eapply Forall2_impl|].
  split; [done|]. eapply keepsMacro_trans; [by split|exact K].
Qed.
End Meaning.

(** A macro that writes an argument to a register, reads it back and waits. *)
Definition quoted (s : text) : text := map (fun c => if (c =? chr 39)%char then chr 34 else c) s.
Definition exampleMacro : text :=
  quoted (txt "{'name':'loop','sequence':'0:w:100:value,1:r:100:back,2:d:a','time':'now','notes':'none','LSBF':'false'}").
Definition memoryRead (address : Z) (w : gmap Z Z) : result Z * gmap Z Z := (Ok (default 0 (w !! address)), w).
Definition memoryWrite (address data : Z) (w : gmap Z Z) : result unit * gmap Z Z := (Ok tt, <[address := data]> w).
Lemma macro_runs_its_commands_witness : exists m, parseMacro exampleMacro = Ok m /\
  exists cs, commandsOf exampleMacro = Ok cs /\
    let vs : gmap text Z := {[txt "value" := 7; txt "back" := 0]} in
    interpret memoryRead memoryWrite (fun _ w => w) cs (vs, ∅) = (Ok tt, (<[txt "back" := 7]> vs, {[256 := 7]})) /\
    (runMacro memoryRead memoryWrite (fun _ w => w) (mkRun m vs ∅)).1 = Ok tt.
Proof.
  destruct (parseMacro exampleMacro) as [m|] eqn:E; [|vm_compute in E; discriminate]. exists m. split; [done|].
  destruct (macro_runs_its_commands memoryRead memoryWrite (fun _ w => w) exampleMacro m eq_refl E) as (cs & Hcs & H). exists cs. split; [done|].
  specialize (H m (keepsMacro_refl m)). intros vs. specialize (H vs ∅). vm_compute in Hcs. injection Hcs as <-.
  match goal with |- ?l = ?r /\ _ => assert (Hr : l = r) by (vm_compute; reflexivity) end.
  destruct (runMacro _ _ _ _) as [r s]. destruct H as [H _]. rewrite Hr in H.
  split; [exact Hr|exact (eq_sym (f_equal fst H))].
Defined.

(** ** What a sequence of writes leaves in the registers *)

Section Sequences.
(** The writes, in their order. *)
Definition logWrite (address data : Z) (w : list (Z * Z)) : result unit * list (Z * Z) := (Ok tt, w ++ [(address, data)]).
(** A bit of a register after entries, the last one first: the last one that
    has it in its field. *)
Fixpoint bitOf (entries : list sequenceEntry) (address b : Z) : bool :=
  match entries with
  | [] => false
  | e :: entries =>
      if (WriteAddress e =? address) && (StartingBitPosition e <=? b) && (b <? StartingBitPosition e + BitFieldSize e)
      then Z.testbit (WriteValue e) (b - StartingBitPosition e) else bitOf entries address b
  end.
Definition inRegister (e : sequenceEntry) : Prop := 0 <= BitFieldSize e < 31 /\ 0 <= StartingBitPosition e < 64 /\ in_range 64 (WriteValue e).
Definition historyOf (h : gmap Z Z) (entries : list sequenceEntry) : Prop :=
  forall a, in_range 64 (default 0 (h !! a)) /\ forall b, 0 <= b < 64 -> Z.testbit (default 0 (h !! a)) b = bitOf entries a b.
Lemma fieldMask_bit n b : 0 <= n -> 0 <= b -> Z.testbit (Z.shiftl 1 n - 1) b = (b <? n).
Proof. intros Hn Hb. replace (Z.shiftl 1 n - 1) with (Z.ones n) by (unfold Z.ones; lia). rewrite Z.testbit_ones by lia. lia. Qed.
Lemma sequenceWrite_bits h entries e : historyOf h entries -> inRegister e ->
  exists h' v, sequenceWrite h e = Ok (h', v) /\ in_range 64 v /\ historyOf h' (e :: entries) /\
    forall b, 0 <= b < 64 -> Z.testbit v b = bitOf (e :: entries) (WriteAddress e) b.
Proof.
  intros Hh ([Hs0 Hs] & [Hp0 Hp] & Hv). unfold sequenceWrite, bitMask, shifted.
  rewrite (proj2 (Z.leb_gt 31 _)) by lia. rewrite !(proj2 (Z.leb_gt 64 _)) by lia. cbn [mbind result_bind].
  destruct (Hh (WriteAddress e)) as [Hr Hb]. eexists _, _. split; [done|].
  set (before := default 0 (h !! WriteAddress e)) in *. set (v := Z.lor _ _).
  assert (Hbits : forall b, 0 <= b < 64 -> Z.testbit v b = bitOf (e :: entries) (WriteAddress e) b).
  { intros b Hb64. subst v. cbn [bitOf]. rewrite Z.eqb_refl. cbn [andb]. rewrite Z.lor_spec, Z.land_spec, Hb by done. unfold u64.
    rewrite !Z.mod_pow2_bits_low by lia. rewrite Z.lnot_spec by lia. rewrite Z.mod_pow2_bits_low by lia. rewrite !Z.shiftl_spec by lia. rewrite Z.land_spec.
    destruct (Z.leb_spec (StartingBitPosition e) b); cbn [andb].
    - rewrite !fieldMask_bit by lia. destruct (Z.ltb_spec b (StartingBitPosition e + BitFieldSize e)); destruct (Z.ltb_spec (b - StartingBitPosition e) (BitFieldSize e)); try lia; cbn.
      + by rewrite andb_false_r, andb_true_r.
      + by rewrite andb_true_r, andb_false_r, orb_false_r.
    - rewrite !Z.testbit_neg_r by lia. cbn. by rewrite andb_true_r, orb_false_r. }
  assert (Hr' : in_range 64 v).
  { subst v. apply in_range_testbit; [done| |].
    - apply Z.lor_nonneg. split; [apply Z.land_nonneg; left; apply Hr|]. unfold u64. by apply Z.mod_pos_bound.
    - intros b Hb64. rewrite Z.lor_spec, Z.land_spec. rewrite (testbit_range 64 before) by done. cbn [andb orb]. unfold u64. by rewrite Z.mod_pow2_bits_high by lia. }
  split; [done|]. split; [|done]. intros a. destruct (decide (a = WriteAddress e)) as [->|Hne].
  - rewrite lookup_insert_eq. cbn [default]. done.
  - rewrite lookup_insert_ne by done. destruct (Hh a) as [Ha1 Ha2]. split; [done|]. intros b Hb64. rewrite Ha2 by done. cbn [bitOf].
    destruct (Z.eqb_spec (WriteAddress e) a); [by subst|done].
Qed.
Lemma sequenceLoop_bits entries : forall h done w, Forall inRegister entries -> historyOf h done ->
  exists log, sequenceLoop logWrite h (map Ok entries) w = (Ok tt, w ++ log) /\ length log = length entries /\
    forall i e, entries !! i = Some e -> exists v, log !! i = Some (WriteAddress e, v) /\ in_range 64 v /\
      forall b, 0 <= b < 64 -> Z.testbit v b = bitOf (rev (take (S i) entries) ++ done) (WriteAddress e) b.
Proof.
  induction entries as [|e entries IH]; intros h dn w Hall Hh; cbn [map sequenceLoop].
  { exists []. by rewrite app_nil_r. }
  inversion Hall as [|? ? He Hall']; subst. destruct (sequenceWrite_bits h dn e Hh He) as (h' & v & E & Hr & Hh' & Hb).
  destruct (IH h' (e :: dn) (w ++ [(WriteAddress e, v)]) Hall' Hh') as (log & Hrun & Hlen & Hlog).
  exists ((WriteAddress e, v) :: log). unfold mbind, M_bind, lift. cbn. rewrite E. cbn. rewrite Hrun, <- app_assoc. split; [done|]. split; [by rewrite Hlen|].
  intros [|i] e' Hi; cbn in Hi |- *.
  - injection Hi as <-. exists v. by rewrite take_0.
  - destruct (Hlog i e' Hi) as (v' & Hv' & Hr' & Hb'). exists v'. split; [done|]. split; [done|]. intros b Hb64. rewrite Hb' by done. by rewrite <- app_assoc.
Qed.
(** C26: Every entry of a sequence writes its address once, in order, and the value
    that is written has, bit for bit, the field of the last entry of that
    address that covers it, and 0 where there is none.  Fields have fewer than
    31 bits and begin below bit 64 ([inRegister]): from 31 bits on the shift of
    the mask is undefined ([wide_field_undefined]).  The writes succeed. *)
Theorem sequence_bits entries : Forall inRegister entries ->
  exists log, runSequenceOfCommands logWrite (Some (map Ok entries)) [] = (Ok tt, log) /\ length log = length entries /\
    forall i e, entries !! i = Some e -> exists v, log !! i = Some (WriteAddress e, v) /\ in_range 64 v /\
      forall b, 0 <= b < 64 -> Z.testbit v b = bitOf (rev (take (S i) entries)) (WriteAddress e) b.
Proof.
  intros Hall. destruct (sequenceLoop_bits entries ∅ [] [] Hall) as (log & Hrun & Hlen & Hlog).
  - intros a. rewrite lookup_empty. cbn. split; [done|]. intros b _. by rewrite Z.bits_0.
  - exists log. cbn [runSequenceOfCommands]. split; [done|]. split; [done|]. intros i e Hi. destruct (Hlog i e Hi) as (v & ? & ? & Hb). exists v. split; [done|]. split; [done|]. intros b Hb64. rewrite Hb by done. by rewrite app_nil_r.
Qed.
Lemma sequence_bits_witness : exists log,
  runSequenceOfCommands logWrite (Some (map Ok [mkEntry 8 5 0 4; mkEntry 8 255 4 4; mkEntry 8 2 2 2])) [] = (Ok tt, log) /\ log = [(8, 5); (8, 245); (8, 249)] /\
  Z.testbit 249 3 = bitOf (rev [mkEntry 8 5 0 4; mkEntry 8 255 4 4; mkEntry 8 2 2 2]) 8 3.
Proof.
  destruct (sequence_bits [mkEntry 8 5 0 4; mkEntry 8 255 4 4; mkEntry 8 2 2 2]) as (log & Hrun & Hlen & H); [repeat constructor; cbn; lia|].
  exists log. split; [done|]. assert (E : log = [(8, 5); (8, 245); (8, 249)]) by (vm_compute in Hrun; by injection Hrun as <-). split; [done|].
  destruct (H 2%nat (mkEntry 8 2 2 2) eq_refl) as (v & Hv & _ & Hb). rewrite E in Hv. injection Hv as <-. by apply (Hb 3).
Defined.
End Sequences.
(** A field of 31 bits or more has no mask: 1 is shifted as an [int]. *)
Lemma wide_field_undefined {W} (universalWrite : Z -> Z -> W -> result unit * W) e entries w : 31 <= BitFieldSize e ->
  runSequenceOfCommands universalWrite (Some (Ok e :: entries)) w = (Throw Undefined, w).
Proof. intros H. cbn [runSequenceOfCommands sequenceLoop]. unfold mbind, M_bind, lift. cbn. unfold sequenceWrite, bitMask. by rewrite (proj2 (Z.leb_le _ _) H). Qed.
(** With the least significant byte first, the first of an odd number of data
    digits is lost; an address has a 0 before it and keeps it. *)
Lemma odd_data_loses_digit : dataNumber true (txt "abc") = Ok 188 /\ addressNumber true (txt "abc") = Ok 48138.
Proof. by vm_compute. Qed.

(** ** The arguments of front-end macros *)

(** What a client sends: names and values encoded. *)
Definition argumentText (arg : frontEndMacroArg_t) : text := StringMacros.encodeURIComponent arg.1 ++ comma :: StringMacros.encodeURIComponent arg.2.
Definition argumentsText args : text := join [semicolon] true (map argumentText args).
Definition namesText (names : list text) : text := join [comma] true (map StringMacros.encodeURIComponent names).

Definition clean (d : ascii) (s : text) : Prop := forallb (fun c => negb (c =? d)%char) s = true.
Lemma getlines_one d s : clean d s -> TableViewColumnInfo.getlines d s = match s with [] => [] | _ => [s] end.
Proof.
  unfold clean. induction s as [|c s IH]; [done|]. cbn [forallb TableViewColumnInfo.getlines]. rewrite andb_true_iff, negb_true_iff. intros [-> Hs].
  rewrite IH by done. by destruct s.
Qed.
Lemma getlines_cons d s rest : clean d s -> TableViewColumnInfo.getlines d (s ++ d :: rest) = s :: TableViewColumnInfo.getlines d rest.
Proof.
  unfold clean. induction s as [|c s IH]; cbn [forallb app TableViewColumnInfo.getlines]; [by rewrite Ascii.eqb_refl|].
  rewrite andb_true_iff, negb_true_iff. intros [-> Hs]. by rewrite IH.
Qed.
Lemma getlines_join d l : Forall (fun s => s <> [] /\ clean d s) l -> TableViewColumnInfo.getlines d (join [d] true l) = l.
Proof.
  intros Hl. destruct Hl as [|a l [Ha Hca] Hl]; [done|]. cbn [join app].
  revert a Ha Hca. induction Hl as [|b l [Hb Hcb] _ IH]; intros a Ha Hca; cbn [join app].
  - rewrite app_nil_r, getlines_one by done. by destruct a.
  - change (d :: b ++ ?x) with (d :: (b ++ x)). rewrite getlines_cons by done. f_equal. by apply IH.
Qed.
Lemma untilComma_cons s rest : clean comma s -> untilComma (s ++ comma :: rest) = (s, Some rest).
Proof. unfold clean. induction s as [|c s IH]; cbn [forallb app untilComma]; [done|]. rewrite andb_true_iff, negb_true_iff. intros [-> Hs]. by rewrite IH. Qed.
Lemma untilComma_one s : clean comma s -> untilComma s = (s, None).
Proof. unfold clean. induction s as [|c s IH]; cbn [forallb untilComma]; [done|]. rewrite andb_true_iff, negb_true_iff. intros [-> Hs]. by rewrite IH. Qed.
Lemma clean_encoded d x : d = comma \/ d = semicolon -> clean d (StringMacros.encodeURIComponent x).
Proof. intros H. by apply StringMacros.encoded_clean. Qed.
Lemma decoded_encoded x : decoded (StringMacros.encodeURIComponent x) = Ok x.
Proof. unfold decoded. by rewrite StringMacros.decode_encode_URIComponent. Qed.
Lemma encoded_nonempty x : x <> [] -> StringMacros.encodeURIComponent x <> [].
Proof. destruct x as [|c x]; [done|]. intros _. cbn. by destruct (is_lower c || is_upper c || is_digit c). Qed.
Lemma inputArguments_text args : mapM decodedPair (inputArguments (argumentsText args)) = Ok args.
Proof.
  unfold inputArguments, argumentsText. rewrite getlines_join.
  - generalize (@nil ascii) as v. induction args as [|arg args IH]; intros v; [done|]. cbn [map argumentPairs]. unfold argumentText.
    rewrite untilComma_cons by (apply clean_encoded; by left). rewrite untilComma_one by (apply clean_encoded; by left). cbn [mapM fst].
    unfold decodedPair. cbn [fst snd]. rewrite !decoded_encoded. cbn [mbind result_bind]. fold decodedPair. rewrite IH. by destruct arg.
  - apply Forall_forall. intros s (arg & -> & _)%list_elem_of_fmap. unfold argumentText. split; [by destruct (StringMacros.encodeURIComponent arg.1)|].
    unfold clean. rewrite forallb_app. cbn [forallb]. rewrite !clean_encoded by by right. done.
Qed.
Lemma names_text names : Forall (fun s => s <> []) names -> mapM decoded (TableViewColumnInfo.getlines comma (namesText names)) = Ok names.
Proof.
  intros Hn. unfold namesText. rewrite getlines_join.
  - induction Hn as [|s names _ _ IH]; [done|]. cbn [map mapM]. by rewrite decoded_encoded, IH.
  - apply Forall_forall. intros s (x & -> & Hx)%list_elem_of_fmap. rewrite Forall_forall in Hn. split; [by apply encoded_nonempty, Hn|apply clean_encoded; by left].
Qed.
Lemma namesMatch_defaults names : namesMatch (map (fun name => (name, ARG_OUT_DEFAULT)) names) names = true.
Proof. induction names as [|n names IH]; [done|]. cbn [map namesMatch fst]. by rewrite textEq_refl, IH. Qed.
Lemma inputNamesMatch_spec args : forall names, length names = length args ->
  inputNamesMatch args names = true <-> Forall2 (fun arg name => beforeParen arg.1 = beforeParen name) args names.
Proof.
  induction args as [|arg args IH]; intros [|n names] Hl; cbn [inputNamesMatch]; try done.
  rewrite andb_true_iff, textEq_spec, IH by by injection Hl. by rewrite Forall2_cons.
Qed.

Section Calls.
Context {W : Type} (theFEInterfaces_ : gmap text (@FrontEnd W)).
Definition defaultOutputs (names : list text) : list frontEndMacroArg_t := map (fun name => (name, ARG_OUT_DEFAULT)) names ++ [(PLOTLY_PLOT, ARG_OUT_DEFAULT)].
(** What the caller gets after the function ran. *)
Definition answer (feMacro : @frontEndMacroStruct_t W) (argsOut : list frontEndMacroArg_t) : result text :=
  if negb (Z.of_nat (length (namesOfOutputArguments feMacro)) =? u64 (Z.of_nat (length argsOut) - 1)) then Throw RuntimeError
  else outputs ← mapM outputPair (shownOutputs argsOut); Ok (outputText outputs).
Definition calls (feMacro : @frontEndMacroStruct_t W) args : M W text :=
  fun w => let '(r, w') := macroFunction_ feMacro args (defaultOutputs (namesOfOutputArguments feMacro)) w in ((argsOut ← r; answer feMacro argsOut), w').

(** Whatever the texts sent, the function of a front-end macro runs at most once, and
    only with arguments whose names are those it was registered with, up to
    their notes in parentheses, and with all outputs at their default. *)
Lemma runFEMacro_cases interfaceID (feMacro : @frontEndMacroStruct_t W) (inputArgs outputArgs : text) (w : W) :
  (exists e, runFEMacro theFEInterfaces_ interfaceID feMacro inputArgs outputArgs w = (Throw e, w)) \/
  exists fe args, getFEInterfaceP theFEInterfaces_ interfaceID = Ok fe /\ mapM decodedPair (inputArguments inputArgs) = Ok args /\
    Forall2 (fun arg name => beforeParen arg.1 = beforeParen name) args (namesOfInputArguments feMacro) /\
    runFEMacro theFEInterfaces_ interfaceID feMacro inputArgs outputArgs w = calls feMacro args w.
Proof.
  unfold runFEMacro, calls, answer, mbind, M_bind, lift, throw, mret, M_ret.
  destruct (mapM decodedPair _) as [args|e] eqn:Ea; [|left; by exists e].
  destruct (length (namesOfInputArguments feMacro) =? length args)%nat eqn:El; cbn [negb]; [|left; by eexists].
  destruct (inputNamesMatch args (namesOfInputArguments feMacro)) eqn:En; cbn [negb]; [|left; by eexists].
  destruct (mapM decoded _) as [names|e]; [|left; by exists e].
  destruct (length (namesOfOutputArguments feMacro) =? _)%nat eqn:Elo; cbn [negb]; [|left; by eexists].
  destruct (namesMatch _ (namesOfOutputArguments feMacro)) eqn:Eno; cbn [negb]; [|left; by eexists].
  destruct (getFEInterfaceP _ _) as [fe|e]; [|left; by exists e].
  right. exists fe, args. split; [done|]. split; [done|]. apply Nat.eqb_eq in El, Elo. split; [by apply inputNamesMatch_spec|].
  assert (names = namesOfOutputArguments feMacro) as ->.
  { rewrite length_map in Elo. revert Elo Eno. generalize (namesOfOutputArguments feMacro) as ns. clear. induction names as [|n names IH]; intros [|n' ns]; cbn [map namesMatch length fst]; try done.
    rewrite andb_true_iff, textEq_spec. intros Hl [-> H]. f_equal. apply IH; [by injection Hl|done]. }
  unfold defaultOutputs. destruct (macroFunction_ feMacro args _ w) as [[argsOut|e] w']; [|done]. cbn [mbind result_bind].
  destruct (negb _); [done|]. by destruct (mapM outputPair _).
Qed.
(** C27: The encoded names and values that a client sends reach the function of the
    macro as they were: it runs exactly once, with these arguments and every
    output at its default, and what it leaves in the outputs is the answer. *)
Theorem fe_macro_gets_arguments interfaceID fe (feMacro : @frontEndMacroStruct_t W) args (w : W) :
  theFEInterfaces_ !! interfaceID = Some fe ->
  Forall2 (fun arg name => beforeParen arg.1 = beforeParen name) args (namesOfInputArguments feMacro) ->
  Forall (fun name => name <> []) (namesOfOutputArguments feMacro) ->
  runFEMacro theFEInterfaces_ interfaceID feMacro (argumentsText args) (namesText (namesOfOutputArguments feMacro)) w = calls feMacro args w.
Proof.
  intros Hfe Hin Hout. unfold runFEMacro. rewrite inputArguments_text, names_text by done. unfold mbind, M_bind, lift. cbn [result_bind].
  assert (Hl : length args = length (namesOfInputArguments feMacro)) by by eapply Forall2_length. rewrite (proj2 (Nat.eqb_eq _ _) (eq_sym Hl)). cbn [negb]. rewrite (proj2 (inputNamesMatch_spec args _ (eq_sym Hl)) Hin). cbn [negb].
  rewrite length_map, Nat.eqb_refl, namesMatch_defaults. cbn [negb]. unfold getFEInterfaceP. rewrite Hfe. cbn [fst snd].
  unfold calls, answer, defaultOutputs. destruct (macroFunction_ feMacro args _ w) as [[argsOut|e] w']; [|done]. cbn [mbind result_bind]. unfold throw, mret, M_ret.
  destruct (negb _); [done|]. by destruct (mapM outputPair _).
Qed.
(** Another front end can run a macro only if it is in the access list of the
    macro: otherwise nothing is run. *)
Theorem front_end_needs_access callingInterfaceID interfaceID feMacroName (inputArgs : text) (w : W) :
  let '(r, w') := runFEMacroByFE theFEInterfaces_ callingInterfaceID interfaceID feMacroName inputArgs w in
  (w' = w /\ exists e, r = Throw e) \/
  exists fe feMacro args, theFEInterfaces_ !! interfaceID = Some fe /\ getMapOfFEMacroFunctions fe !! feMacroName = Some feMacro /\
    StringMacros.inWildCardSet callingInterfaceID (allowedFEsSet feMacro) = true /\
    mapM decodedPair (inputArguments inputArgs) = Ok args /\
    Forall2 (fun arg name => beforeParen arg.1 = beforeParen name) args (namesOfInputArguments feMacro) /\
    (r, w') = calls feMacro args w.
Proof.
  unfold runFEMacroByFE, mbind, M_bind, lift. destruct (getFEInterfaceP theFEInterfaces_ interfaceID) as [fe|e] eqn:Hfe; cbn [fst snd]; [|left; split; [done|by exists e]].
  destruct (getMapOfFEMacroFunctions fe !! feMacroName) as [feMacro|] eqn:Hm; [|left; split; [done|by eexists]].
  destruct (StringMacros.inWildCardSet _ _) eqn:Ha; cbn [negb]; [|left; split; [done|by eexists]].
  destruct (runFEMacro_cases interfaceID feMacro inputArgs (join [comma] true (namesOfOutputArguments feMacro)) w) as [[e ->]|(fe' & args & _ & Hargs & Hn & ->)]; [left; split; [done|by exists e]|].
  destruct (calls feMacro args w) as [r w'] eqn:Ec. right. exists fe, feMacro, args. split; [|by rewrite Ec].
  unfold getFEInterfaceP in Hfe. destruct (theFEInterfaces_ !! interfaceID); [by injection Hfe as ->|done].
Qed.
End Calls.

(** A macro that adds two numbers, on a front end [FE0] that [Consumer] may
    call. *)
Definition addMacro : @frontEndMacroStruct_t nat :=
  mkFEMacro (txt "Add") (fun argsIn argsOut => fun calls => (Ok (alter (fun arg => (arg.1, txt "5")) 0%nat argsOut), S calls))
    [txt "first (note)"; txt "second"] [txt "sum"] (txt "1") (txt "Consumer") [].
Definition exampleFEs : gmap text (@FrontEnd nat) :=
  {[txt "FE0" := mkFrontEnd {[txt "Add" := addMacro]} (fun _ w => (Ok 0, w)) (fun _ _ w => (Ok tt, w))]}.
Definition exampleArgs : list frontEndMacroArg_t := [(txt "first (old note)", txt "2,;%"); (txt "second", txt "3")].
Lemma fe_macro_gets_arguments_witness :
  runFEMacro exampleFEs (txt "FE0") addMacro (argumentsText exampleArgs) (namesText [txt "sum"]) 0%nat = calls addMacro exampleArgs 0%nat /\
  calls addMacro exampleArgs 0%nat = (Ok (txt "sum,5 (0x5)"), 1%nat).
Proof.
  split; [|by vm_compute]. eapply (fe_macro_gets_arguments exampleFEs (txt "FE0") _ addMacro exampleArgs 0%nat); [by vm_compute| |by repeat constructor].
  apply Forall2_cons. split; [by vm_compute|]. apply Forall2_cons. split; [by vm_compute|]. by apply Forall2_nil.
Defined.
Example front_end_needs_access_example :
  runFEMacroByFE exampleFEs (txt "Consumer") (txt "FE0") (txt "Add") (argumentsText exampleArgs) 0%nat = (Ok (txt "sum,5 (0x5)"), 1%nat) /\
  runFEMacroByFE exampleFEs (txt "Other") (txt "FE0") (txt "Add") (argumentsText exampleArgs) 0%nat = (Throw RuntimeError, 0%nat).
Proof. by vm_compute. Qed.

(** An argument without a comma takes the value of the argument before it. *)
Lemma missing_value_is_previous : inputArguments (txt "first,2;second") = [(txt "first", txt "2"); (txt "second", txt "2")].
Proof. by vm_compute. Qed.
(** The same name twice passes the checks of a MacroMaker macro with two
    inputs: the other input is 0. *)
Lemma duplicate_name_passes args (names : list text) : length names = length args -> Forall (fun a => a.1 ∈ names) args -> sameNames args names = true.
Proof. intros Hl Ha. unfold sameNames. rewrite Hl, Nat.eqb_refl. cbn [andb]. apply forallb_forall. intros a Hin. rewrite Forall_forall in Ha. apply bool_decide_eq_true. apply Ha. by apply list_elem_of_In. Qed.
Lemma duplicate_leaves_zero : sameNames [(txt "a", txt "5"); (txt "a", txt "6")] [txt "a"; txt "b"] = true /\
  setVariables (gset_to_gmap 0 (list_to_set [txt "a"; txt "b"])) [(txt "a", txt "5"); (txt "a", txt "6")] = Ok {[txt "a" := 6; txt "b" := 0]}.
Proof. split; by vm_compute. Qed.
(** The output names that a front end's call sends are not encoded, but are
    decoded. *)
Definition commaMacro : @frontEndMacroStruct_t nat :=
  mkFEMacro (txt "Two") (fun argsIn argsOut => fun calls => (Ok argsOut, S calls)) [] [txt "low, high"] (txt "1") (txt "*") [].
Lemma comma_name_never_runs :
  let fes : gmap text (@FrontEnd nat) := {[txt "FE0" := mkFrontEnd {[txt "Two" := commaMacro]} (fun _ w => (Ok 0, w)) (fun _ _ w => (Ok tt, w))]} in
  runFEMacroByFE fes (txt "Consumer") (txt "FE0") (txt "Two") [] 0%nat = (Throw RuntimeError, 0%nat).
Proof. by vm_compute. Qed.
End FEMacros.
