(* ===== verification/FEVInterfacesManager.v ===== *)
(** * State transitions of the front ends of a supervisor

    src/otsdaq/FECore/FEVInterfacesManager.cc: the creation of the front ends
    and the passes in which configure, halt, pause, resume, start and stop go
    through them by priority.  A front end may ask for another sub-iteration
    (it alone is called again), another iteration or another
    subsystem-iteration.

    A front end is its [VStateMachine]; its plugin's functions and work loops
    are [plugin], which changes that and a state [W] of all the hardware.  The
    children of the group link and their plugins are arguments. *)

From S2P Require Import Prelude CText StringMacros VStateMachine.

Module FEVInterfacesManager.
Import VStateMachine.

(** What the manager calls of a front end. *)
Inductive feCall :=
| FEConfigure | ConfigureSlowControls | StartSlowControlsWorkLoop | StopSlowControlsWorkLoop | StartWorkLoop | StopWorkLoop
| FEHalt | FEPause | FEResume | FEStart (runNumber : text) | FEStop.
(** No front end is in a sub-iteration: [(unsigned int)-1]. *)
Definition NONE : Z := u32 (-1).

Section Manager.
Context {W : Type}.
Variable plugin : text -> feCall -> M (VStateMachine * W) unit.

Record Manager := mkManager {
  self : VStateMachine;
  theFEInterfaces_ : gmap text VStateMachine;
  theFENamesByPriority_ : list text;
  stateMachinesIterationDone_ : gmap text bool;
  stateMachinesWaitingSubsystemIteration_ : gset text;
  lastSubsystemIterationIndexSeen_ : Z;
  stateMachinesIterationWorkCount_ : Z;
  subIterationWorkStateMachineIndex_ : Z;
  world : W }.
Implicit Types m : Manager.
Definition set_self m v := mkManager v (theFEInterfaces_ m) (theFENamesByPriority_ m) (stateMachinesIterationDone_ m) (stateMachinesWaitingSubsystemIteration_ m) (lastSubsystemIterationIndexSeen_ m) (stateMachinesIterationWorkCount_ m) (subIterationWorkStateMachineIndex_ m) (world m).
Definition set_fes m fes w := mkManager (self m) fes (theFENamesByPriority_ m) (stateMachinesIterationDone_ m) (stateMachinesWaitingSubsystemIteration_ m) (lastSubsystemIterationIndexSeen_ m) (stateMachinesIterationWorkCount_ m) (subIterationWorkStateMachineIndex_ m) w.
Definition set_names m names := mkManager (self m) (theFEInterfaces_ m) names (stateMachinesIterationDone_ m) (stateMachinesWaitingSubsystemIteration_ m) (lastSubsystemIterationIndexSeen_ m) (stateMachinesIterationWorkCount_ m) (subIterationWorkStateMachineIndex_ m) (world m).
Definition set_done m done waiting last := mkManager (self m) (theFEInterfaces_ m) (theFENamesByPriority_ m) done waiting last (stateMachinesIterationWorkCount_ m) (subIterationWorkStateMachineIndex_ m) (world m).
Definition set_count m n := mkManager (self m) (theFEInterfaces_ m) (theFENamesByPriority_ m) (stateMachinesIterationDone_ m) (stateMachinesWaitingSubsystemIteration_ m) (lastSubsystemIterationIndexSeen_ m) n (subIterationWorkStateMachineIndex_ m) (world m).
Definition set_sub m i := mkManager (self m) (theFEInterfaces_ m) (theFENamesByPriority_ m) (stateMachinesIterationDone_ m) (stateMachinesWaitingSubsystemIteration_ m) (lastSubsystemIterationIndexSeen_ m) (stateMachinesIterationWorkCount_ m) i (world m).

Definition onSelf (f : VStateMachine -> VStateMachine) : M Manager unit := modify (fun m => set_self m (f (self m))).
(** [getFEInterfaceP(name)], and a member function of the front end. *)
Definition getFEInterfaceP (name : text) : M Manager VStateMachine := fun m =>
  match theFEInterfaces_ m !! name with Some v => (Ok v, m) | None => (Throw RuntimeError, m) end.
Definition onFE {A} (name : text) (f : M (VStateMachine * W) A) : M Manager A := fun m =>
  match theFEInterfaces_ m !! name with
  | Some v => let '(r, (v, w)) := f (v, world m) in (r, set_fes m (<[name := v]> (theFEInterfaces_ m)) w)
  | None => (Throw RuntimeError, m)
  end.
Definition callFE (name : text) (c : feCall) : M Manager unit := onFE name (plugin name c).
(** [stateMachinesIterationDone_[name]], which enters a missing name. *)
Definition isDone (name : text) : M Manager bool := fun m =>
  match stateMachinesIterationDone_ m !! name with
  | Some b => (Ok b, m)
  | None => (Ok false, set_done m (<[name := false]> (stateMachinesIterationDone_ m)) (stateMachinesWaitingSubsystemIteration_ m) (lastSubsystemIterationIndexSeen_ m))
  end.
Definition setDone (name : text) (b : bool) : M Manager unit :=
  modify (fun m => set_done m (<[name := b]> (stateMachinesIterationDone_ m)) (stateMachinesWaitingSubsystemIteration_ m) (lastSubsystemIterationIndexSeen_ m)).

(** ** Creation *)

Definition destroy : M Manager unit := modify (fun m => set_names (set_fes m ∅ (world m)) []).
(** A child of the group link: its status, which may not be there, and what
    the construction of its plugin gives; a [cet::exception] is a
    [RuntimeError] here. *)
Record FEChild := mkChild { childName : text; Status : result bool; makeInterface : W -> result VStateMachine * W }.
Definition makeChild (c : FEChild) : M Manager unit := fun m =>
  match makeInterface c (world m) with
  | (Ok v, w) => (Ok tt, set_fes m (<[childName c := v]> (theFEInterfaces_ m)) w)
  | (Throw e, w) => (Throw e, set_fes m (theFEInterfaces_ m) w)
  end.
Fixpoint createLoop (children : list FEChild) : M Manager unit :=
  match children with
  | [] => mret tt
  | c :: children =>
      match Status c with
      | Ok false => createLoop children
      | Throw Undefined => throw Undefined
      | _ => makeChild c ≫= fun _ => createLoop children
      end
  end.
(** The names by priority and the children, read from the configuration
    tree. *)
Variable feGroup : result (list text * list FEChild).
Definition createInterfaces : M Manager unit :=
  destroy ≫= fun _ =>
  '(names, children) ← lift feGroup;
  modify (fun m => set_names m names) ≫= fun _ =>
  createLoop children.

(** ** Around a pass and around a front end *)

Definition rearm m : Manager :=
  set_done m (set_fold (fun name done => <[name := false]> done) (stateMachinesIterationDone_ m) (stateMachinesWaitingSubsystemIteration_ m)) ∅ (subsystemIterationIndex_ (self m)).
Definition preStateMachineExecutionLoop : M Manager unit :=
  onSelf (fun v => clearSubIterationWork (clearIterationWork (clearSubsystemIterationWork v))) ≫= fun _ =>
  modify (fun m => set_count m 0) ≫= fun _ =>
  first ← gets (fun m => isFirstIteration (self m));
  if (first : bool) then
    modify (fun m => set_done (set_sub m NONE) (gset_to_gmap false (dom (theFEInterfaces_ m))) ∅ (subsystemIterationIndex_ (self m)))
  else
    changed ← gets (fun m => negb (subsystemIterationIndex_ (self m) =? lastSubsystemIterationIndexSeen_ m));
    if (changed : bool) then modify rearm else mret tt.
Definition nameAt (i : nat) : M Manager text := fun m =>
  match theFENamesByPriority_ m !! i with Some name => (Ok name, m) | None => (Throw RuntimeError, m) end.
Definition preStateMachineExecution (i : nat) (transitionName : text) : M Manager unit :=
  name ← nameAt i;
  s ← gets self;
  onFE name (modify (fun '(v, w) =>
    let v := setTransitionName v transitionName in
    let v := setSubsystemIterationIndex v (subsystemIterationIndex_ s) in
    let v := setIterationIndex v (iterationIndex_ s) in
    let v := setSubIterationIndex v (subIterationIndex_ s) in
    let v := setSystemMinReadyForEventGenerationStartIteration v (systemMinReadyForEventGenerationStartIteration_ s) in
    (clearSubIterationWork (clearIterationWork (clearSubsystemIterationWork v)), w))).
(** Whether the front end is done with the transition, or with this
    subsystem-iteration. *)
Definition postStateMachineExecution (i : nat) : M Manager bool :=
  name ← nameAt i;
  fe ← getFEInterfaceP name;
  if subIterationWorkFlag_ fe then
    modify (fun m => set_sub m (u32 (Z.of_nat i))) ≫= fun _ => onSelf indicateSubIterationWork ≫= fun _ => mret false
  else
    modify (fun m => set_sub m NONE) ≫= fun _ =>
    if iterationWorkFlag_ fe then
      setDone name false ≫= fun _ => onSelf indicateIterationWork ≫= fun _ =>
      modify (fun m => set_count m (u32 (stateMachinesIterationWorkCount_ m + 1))) ≫= fun _ => mret false
    else
      setDone name true ≫= fun _ =>
      (if subsystemIterationWorkFlag_ fe then
         modify (fun m => set_done m (stateMachinesIterationDone_ m) ({[name]} ∪ stateMachinesWaitingSubsystemIteration_ m) (lastSubsystemIterationIndexSeen_ m)) ≫= fun _ =>
         onSelf indicateSubsystemIterationWork
       else mret tt) ≫= fun _ =>
      onFE name (modify (fun '(v, w) => (setTransitionName v [], w))) ≫= fun _ => mret true.

(** ** A pass *)

(** Through the front ends from the [i]th on: those that are not in the
    sub-iteration and those that are done are left out. *)
Fixpoint eachFrontEnd {A} (body : nat -> text -> M Manager A) (i : nat) (names : list text) : M Manager (list A) :=
  match names with
  | [] => mret []
  | name :: names =>
      index ← gets subIterationWorkStateMachineIndex_;
      if negb (index =? NONE) && negb (Z.of_nat i =? index) then eachFrontEnd body (S i) names
      else
        getFEInterfaceP name ≫= fun _ =>
        done ← isDone name;
        if (done : bool) then eachFrontEnd body (S i) names
        else a ← body i name; rest ← eachFrontEnd body (S i) names; mret (a :: rest)
  end.
Definition pass {A} (body : nat -> text -> M Manager A) : M Manager (list A) :=
  preStateMachineExecutionLoop ≫= fun _ => names ← gets theFENamesByPriority_; eachFrontEnd body 0 names.
Definition around (i : nat) (transitionName : text) (calls : M Manager unit) : M Manager bool :=
  preStateMachineExecution i transitionName ≫= fun _ => calls ≫= fun _ => postStateMachineExecution i.
(** [try { ... } catch(...) { }] *)
Definition ignoringErrors (f : M Manager unit) : M Manager unit := catch_all f (fun _ => mret tt).

Definition noWork (v : VStateMachine) : bool := negb (subIterationWorkFlag_ v) && negb (iterationWorkFlag_ v) && negb (subsystemIterationWorkFlag_ v).
(** Whether it failed; slow controls start when the front end is done. *)
Definition configureFE (i : nat) (name : text) : M Manager bool :=
  catch_all
    (around i (txt "Configuring") (callFE name FEConfigure) ≫= fun _ =>
     fe ← getFEInterfaceP name;
     (if noWork fe then callFE name ConfigureSlowControls ≫= fun _ => callFE name StartSlowControlsWorkLoop else mret tt) ≫= fun _ =>
     mret false)
    (fun _ => mret true).
Definition configure : M Manager unit :=
  first ← gets (fun m => isFirstIteration (self m));
  (if (first : bool) then createInterfaces else mret tt) ≫= fun _ =>
  failures ← pass configureFE;
  if existsb id failures then throw RuntimeError else mret tt.
Definition haltFE (i : nat) (name : text) : M Manager bool :=
  around i (txt "Halting")
    (ignoringErrors (callFE name StopWorkLoop) ≫= fun _ => ignoringErrors (callFE name StopSlowControlsWorkLoop) ≫= fun _ => ignoringErrors (callFE name FEHalt)).
Definition halt : M Manager unit :=
  pass haltFE ≫= fun _ =>
  over ← gets (fun m => negb (subIterationWorkFlag_ (self m)) && negb (iterationWorkFlag_ (self m)));
  if (over : bool) then destroy else mret tt.
Definition pauseFE (i : nat) (name : text) : M Manager bool := around i (txt "Pausing") (callFE name StopWorkLoop ≫= fun _ => callFE name FEPause).
Definition pause : M Manager unit := pass pauseFE ≫= fun _ => mret tt.
(** The work loop starts once the front end is done. *)
Definition thenStartWorkLoop (name : text) (done : bool) : M Manager unit := if done then callFE name StartWorkLoop else mret tt.
Definition resumeFE (i : nat) (name : text) : M Manager unit := done ← around i (txt "Resuming") (callFE name FEResume); thenStartWorkLoop name done.
Definition resume : M Manager unit := pass resumeFE ≫= fun _ => mret tt.
Definition startFE (runNumber : text) (i : nat) (name : text) : M Manager unit := done ← around i (txt "Starting") (callFE name (FEStart runNumber)); thenStartWorkLoop name done.
Definition start (runNumber : text) : M Manager unit := pass (startFE runNumber) ≫= fun _ => mret tt.
(** The name of the transition is that of [start]. *)
Definition stopFE (i : nat) (name : text) : M Manager bool := around i (txt "Starting") (callFE name StopWorkLoop ≫= fun _ => callFE name FEStop).
Definition stop : M Manager unit := pass stopFE ≫= fun _ => mret tt.

(** ** Status *)

(** The texts of the front ends that have one, by priority; what fails is left
    out. *)
Fixpoint progressLoop (cnt : bool) m (names : list text) : text :=
  match names with
  | [] => []
  | name :: names =>
      let feProgress := match theFEInterfaces_ m !! name with Some v => VStateMachine.getStatusProgressDetail v | None => [] end in
      if bool_decide (feProgress = []) then progressLoop cnt m names
      else (if cnt then txt "," else []) ++ StringMacros.encodeURIComponent feProgress ++ progressLoop true m names
  end.
Definition getStatusProgressDetail m : text := progressLoop false m (theFENamesByPriority_ m).
(** The front ends' own answers are virtual. *)
Definition getMinReadyForEventGenerationStartIteration (minReady : text -> Z) m : Z :=
  map_fold (fun name _ maxIteration => Z.max (minReady name) maxIteration) 0 (theFEInterfaces_ m).
Definition allFEWorkloopsAreDone (isActive : text -> bool) m : bool := forallb (fun '(name, _) => negb (isActive name)) (map_to_list (theFEInterfaces_ m)).
End Manager.

(** ** Front ends that iterate

    Front ends that ask for iterations only: [n name] is the last iteration
    the front end [name] asks for.  The log has the calls with the iteration
    index the front end sees. *)
Section Iterating.
Variable n : text -> nat.
Abbreviation Log := (list (text * feCall * Z)).
Definition isTransition (c : feCall) : bool := match c with FEConfigure | FEHalt | FEPause | FEResume | FEStart _ | FEStop => true | _ => false end.
Definition iterating (name : text) (c : feCall) : M (VStateMachine * Log) unit := fun '(v, log) =>
  (Ok tt, (if isTransition c && (iterationIndex_ v <? Z.of_nat (n name)) then indicateIterationWork v else v, log ++ [(name, c, iterationIndex_ v)])).

Inductive transition := TConfigure | THalt | TPause | TResume | TStart (runNumber : text) | TStop.
Context (feGroup : result (list text * list (@FEChild Log))).
Abbreviation MM := (@Manager Log).
Definition run (t : transition) : M MM unit :=
  match t with
  | TConfigure => configure iterating feGroup | THalt => halt iterating | TPause => pause iterating
  | TResume => resume iterating | TStart r => start iterating r | TStop => stop iterating
  end.
(** The calls of a front end in a pass, and those when it is done. *)
Definition before (t : transition) : list feCall :=
  match t with
  | TConfigure => [FEConfigure] | THalt => [StopWorkLoop; StopSlowControlsWorkLoop; FEHalt] | TPause => [StopWorkLoop; FEPause]
  | TResume => [FEResume] | TStart r => [FEStart r] | TStop => [StopWorkLoop; FEStop]
  end.
Definition after (t : transition) : list feCall :=
  match t with TConfigure => [ConfigureSlowControls; StartSlowControlsWorkLoop] | TResume | TStart _ => [StartWorkLoop] | _ => [] end.
Definition callsOf (t : transition) (j : nat) (name : text) : Log :=
  map (fun c => (name, c, Z.of_nat j)) (before t ++ if (j <? n name)%nat then [] else after t).
(** Those of the [j]th iteration, by priority. *)
Definition iteration (t : transition) (names : list text) (j : nat) : Log := concat (map (callsOf t j) (List.filter (fun name => (j <=? n name)%nat) names)).

(** The passes of a supervisor whose Gateway gives it the next indices: the
    innermost tier that has work. *)
Definition nextIndices (ss it sub : Z) : M MM unit := onSelf (fun v => set_indices v ss it sub (systemMinReadyForEventGenerationStartIteration_ v)).
Fixpoint driven (fuel : nat) (t : transition) : M MM bool :=
  match fuel with
  | O => mret false
  | S fuel =>
      run t ≫= fun _ =>
      v ← gets self;
      if subIterationWorkFlag_ v then nextIndices (subsystemIterationIndex_ v) (iterationIndex_ v) (u32 (subIterationIndex_ v + 1)) ≫= fun _ => driven fuel t
      else if iterationWorkFlag_ v then nextIndices (subsystemIterationIndex_ v) (u32 (iterationIndex_ v + 1)) 0 ≫= fun _ => driven fuel t
      else if subsystemIterationWorkFlag_ v then nextIndices (u32 (subsystemIterationIndex_ v + 1)) (u32 (iterationIndex_ v + 1)) 0 ≫= fun _ => driven fuel t
      else mret true
  end.

(** The manager in a pass of iteration [j]. *)
Record inPass (j : nat) (m : MM) : Prop := {
  pass_index : iterationIndex_ (self m) = Z.of_nat j;
  pass_sub : subIterationWorkStateMachineIndex_ m = NONE;
  pass_flags : subIterationWorkFlag_ (self m) = false /\ subsystemIterationWorkFlag_ (self m) = false }.
(** The [name]d front end has run. *)
Record ranOne (t : transition) (j : nat) (name : text) (m m' : MM) : Prop := {
  ran_names : theFENamesByPriority_ m' = theFENamesByPriority_ m;
  ran_self : self m' = if (j <? n name)%nat then indicateIterationWork (self m) else self m;
  ran_fes : exists v, theFEInterfaces_ m' = <[name := v]> (theFEInterfaces_ m);
  ran_done : stateMachinesIterationDone_ m' = <[name := negb (j <? n name)%nat]> (stateMachinesIterationDone_ m);
  ran_sub : subIterationWorkStateMachineIndex_ m' = NONE;
  ran_last : lastSubsystemIterationIndexSeen_ m' = lastSubsystemIterationIndexSeen_ m;
  ran_world : world m' = world m ++ callsOf t j name }.
(** A body runs the calls of the transition on a front end that is not done. *)
Definition runs {A} (t : transition) (body : nat -> text -> M MM A) (good : A -> Prop) : Prop :=
  forall i name j m v, inPass j m -> theFENamesByPriority_ m !! i = Some name -> theFEInterfaces_ m !! name = Some v ->
    exists a m', body i name m = (Ok a, m') /\ good a /\ ranOne t j name m m'.

(** A front end in a pass, [b] if it has asked for an iteration, and the
    manager after calls of it. *)
Record inCalls (j : nat) (b : bool) (v : VStateMachine) : Prop := {
  calls_index : iterationIndex_ v = Z.of_nat j;
  calls_flags : iterationWorkFlag_ v = b /\ subIterationWorkFlag_ v = false /\ subsystemIterationWorkFlag_ v = false }.
Definition afterCalls (m : MM) (name : text) (v : VStateMachine) (log : Log) : MM := set_fes m (<[name := v]> (theFEInterfaces_ m)) (world m ++ log).
Lemma afterCalls_again (m : MM) name v v' log log' : afterCalls (afterCalls m name v log) name v' log' = afterCalls m name v' (log ++ log').
Proof. unfold afterCalls, set_fes. cbn. by rewrite insert_insert_eq, app_assoc. Qed.
Lemma afterCalls_get (m : MM) name v log : theFEInterfaces_ (afterCalls m name v log) !! name = Some v.
Proof. cbn. by rewrite lookup_insert_eq. Qed.

Lemma callFE_run (m : MM) name c j b v log : inCalls j b v ->
  exists v', callFE iterating name c (afterCalls m name v log) = (Ok tt, afterCalls m name v' (log ++ [(name, c, Z.of_nat j)])) /\
    inCalls j (b || isTransition c && (j <? n name)%nat) v'.
Proof.
  intros [Hi (Hb & Hs & Hss)]. unfold callFE, onFE. rewrite afterCalls_get. unfold iterating. rewrite Hi.
  replace (Z.of_nat j <? Z.of_nat (n name)) with (j <? n name)%nat by (destruct (Z.ltb_spec (Z.of_nat j) (Z.of_nat (n name))), (Nat.ltb_spec j (n name)); lia || done). eexists. split.
  - by rewrite <- (afterCalls_again m name v _ log).
  - destruct (isTransition c && (j <? n name)%nat); [rewrite orb_true_r|rewrite orb_false_r]; split; cbn; auto.
Qed.
Lemma pre_run (m : MM) i name transitionName j v : inPass j m -> theFENamesByPriority_ m !! i = Some name -> theFEInterfaces_ m !! name = Some v ->
  exists v', preStateMachineExecution i transitionName m = (Ok tt, afterCalls m name v' []) /\ inCalls j false v'.
Proof.
  intros [Hi Hs Hf] Hn Hv. unfold preStateMachineExecution, nameAt, mbind, M_bind. rewrite Hn. cbn [gets]. unfold onFE. rewrite Hv. cbn.
  eexists. split; [unfold afterCalls; by rewrite app_nil_r|]. split; cbn; auto.
Qed.
Lemma post_run (m : MM) i name j v log : inPass j m -> theFENamesByPriority_ m !! i = Some name -> inCalls j (j <? n name)%nat v ->
  exists m' v', postStateMachineExecution i (afterCalls m name v log) = (Ok (negb (j <? n name)%nat), m') /\
    theFENamesByPriority_ m' = theFENamesByPriority_ m /\ theFEInterfaces_ m' = <[name := v']> (theFEInterfaces_ m) /\
    (inCalls j (j <? n name)%nat v') /\ world m' = world m ++ log /\
    self m' = (if (j <? n name)%nat then indicateIterationWork (self m) else self m) /\
    stateMachinesIterationDone_ m' = <[name := negb (j <? n name)%nat]> (stateMachinesIterationDone_ m) /\
    subIterationWorkStateMachineIndex_ m' = NONE /\ lastSubsystemIterationIndexSeen_ m' = lastSubsystemIterationIndexSeen_ m.
Proof.
  intros [Hi Hs Hf] Hn [Hvi (Hb & Hvs & Hvss)]. unfold postStateMachineExecution.
  rewrite (bind_ok _ _ _ name (afterCalls m name v log)) by (unfold nameAt; cbn; by rewrite Hn).
  rewrite (bind_ok _ _ _ v (afterCalls m name v log)) by (unfold getFEInterfaceP; by rewrite afterCalls_get).
  rewrite Hvs, Hb. destruct (j <? n name)%nat; cbn [negb].
  - eexists _, v. split; [unfold mbind, M_bind; cbn; done|]. cbn. split_and!; done.
  - rewrite Hvss. unfold mbind, M_bind, onFE. cbn. rewrite lookup_insert_eq. cbn. eexists _, _. split; [done|]. cbn. rewrite insert_insert_eq. split_and!; try done.
Qed.
(** A function that makes the calls [cs] of a front end. *)
Definition makes (name : text) (f : M MM unit) (cs : list feCall) : Prop := forall (m : MM) j b v log, inCalls j b v ->
  exists v', f (afterCalls m name v log) = (Ok tt, afterCalls m name v' (log ++ map (fun c => (name, c, Z.of_nat j)) cs)) /\
    inCalls j (b || existsb isTransition cs && (j <? n name)%nat) v'.
Lemma makes_call name c : makes name (callFE iterating name c) [c].
Proof. intros m j b v log Hv. destruct (callFE_run m name c j b v log Hv) as (v' & E & H). exists v'. split; [done|]. cbn [existsb]. by rewrite orb_false_r. Qed.
Lemma makes_bind name f g cs ds : makes name f cs -> makes name g ds -> makes name (f ≫= fun _ => g) (cs ++ ds).
Proof.
  intros Hf Hg m j b v log Hv. destruct (Hf m j b v log Hv) as (v1 & E1 & H1). destruct (Hg m j _ v1 (log ++ map (fun c => (name, c, Z.of_nat j)) cs) H1) as (v2 & E2 & H2).
  exists v2. rewrite (bind_ok _ _ _ _ _ E1), E2, map_app, app_assoc. split; [done|]. rewrite existsb_app, andb_orb_distrib_l, orb_assoc. done.
Qed.
Lemma makes_ignoring name f cs : makes name f cs -> makes name (ignoringErrors f) cs.
Proof. intros Hf m j b v log Hv. destruct (Hf m j b v log Hv) as (v' & E & H). exists v'. split; [|done]. unfold ignoringErrors, catch_if. by rewrite E. Qed.
Lemma makes_none name : makes name (mret tt) [].
Proof. intros m j b v log Hv. exists v. cbn. rewrite app_nil_r, orb_false_r. done. Qed.

Lemma around_run (m : MM) i name tn f cs j v : inPass j m -> theFENamesByPriority_ m !! i = Some name -> theFEInterfaces_ m !! name = Some v ->
  makes name f cs -> existsb isTransition cs = true ->
  exists m' v', around i tn f m = (Ok (negb (j <? n name)%nat), m') /\
    theFENamesByPriority_ m' = theFENamesByPriority_ m /\ theFEInterfaces_ m' = <[name := v']> (theFEInterfaces_ m) /\
    (inCalls j (j <? n name)%nat v') /\ world m' = world m ++ map (fun c => (name, c, Z.of_nat j)) cs /\
    self m' = (if (j <? n name)%nat then indicateIterationWork (self m) else self m) /\
    stateMachinesIterationDone_ m' = <[name := negb (j <? n name)%nat]> (stateMachinesIterationDone_ m) /\
    subIterationWorkStateMachineIndex_ m' = NONE /\ lastSubsystemIterationIndexSeen_ m' = lastSubsystemIterationIndexSeen_ m.
Proof.
  intros Hp Hn Hv Hf Hcs. unfold around. destruct (pre_run m i name tn j v Hp Hn Hv) as (v1 & E1 & H1). rewrite (bind_ok _ _ _ _ _ E1).
  destruct (Hf m j false v1 [] H1) as (v2 & E2 & H2). rewrite (bind_ok _ _ _ _ _ E2). rewrite Hcs in H2. by apply post_run.
Qed.
(** What comes after: calls if the front end is done. *)
Lemma after_run (m m1 : MM) t j name v' (f : M MM unit) (ds : list feCall) : inCalls j (j <? n name)%nat v' ->
  theFENamesByPriority_ m1 = theFENamesByPriority_ m -> theFEInterfaces_ m1 = <[name := v']> (theFEInterfaces_ m) ->
  world m1 = world m ++ map (fun c => (name, c, Z.of_nat j)) (before t) ->
  self m1 = (if (j <? n name)%nat then indicateIterationWork (self m) else self m) ->
  stateMachinesIterationDone_ m1 = <[name := negb (j <? n name)%nat]> (stateMachinesIterationDone_ m) ->
  subIterationWorkStateMachineIndex_ m1 = NONE -> lastSubsystemIterationIndexSeen_ m1 = lastSubsystemIterationIndexSeen_ m ->
  makes name f ds -> ds = (if (j <? n name)%nat then [] else after t) ->
  exists m', f m1 = (Ok tt, m') /\ ranOne t j name m m'.
Proof.
  intros Hv Hn Hf Hw Hs Hd Hsub Hl Hmk ->. assert (E : m1 = afterCalls m1 name v' []).
  { unfold afterCalls, set_fes. rewrite Hf, insert_insert_eq, app_nil_r, <- Hf. by destruct m1. }
  destruct (Hmk m1 j _ v' [] Hv) as (v2 & E2 & _). rewrite <- E in E2. eexists. split; [exact E2|]. split; cbn; try done.
  - exists v2. by rewrite Hf, insert_insert_eq.
  - rewrite Hw, <- app_assoc. unfold callsOf. by rewrite map_app.
Qed.
Ltac startRun H := destruct H as (m1 & v1 & E & Hn1 & Hf1 & Hc1 & Hw1 & Hs1 & Hd1 & Hsub1 & Hl1).
Lemma runs_simple t (body : nat -> text -> M MM bool) (tn : text) (f : text -> M MM unit) :
  (forall i name, body i name = around i tn (f name)) -> (forall name, makes name (f name) (before t)) -> existsb isTransition (before t) = true -> after t = [] ->
  runs t body (fun _ => True).
Proof.
  intros Hbody Hf Ht Ha i name j m v Hp Hn Hv. startRun (around_run m i name tn (f name) (before t) j v Hp Hn Hv (Hf name) Ht).
  rewrite Hbody, E. destruct (after_run m m1 t j name v1 (mret tt) []) as (m2 & E2 & H2); try done; [apply makes_none|by rewrite Ha; destruct (j <? n name)%nat|].
  injection E2 as <-. eauto.
Qed.
Lemma runs_thenStart t (body : nat -> text -> M MM unit) (tn : text) (f : text -> M MM unit) :
  (forall i name, body i name = (done ← around i tn (f name); thenStartWorkLoop iterating name done)) -> (forall name, makes name (f name) (before t)) -> existsb isTransition (before t) = true -> after t = [StartWorkLoop] ->
  runs t body (fun _ => True).
Proof.
  intros Hbody Hf Ht Ha i name j m v Hp Hn Hv. startRun (around_run m i name tn (f name) (before t) j v Hp Hn Hv (Hf name) Ht).
  rewrite Hbody, (bind_ok _ _ _ _ _ E).
  destruct (after_run m m1 t j name v1 (thenStartWorkLoop iterating name (negb (j <? n name)%nat)) (if (j <? n name)%nat then [] else after t)) as (m2 & E2 & H2); try done; [|eauto].
  rewrite Ha. unfold thenStartWorkLoop. destruct (j <? n name)%nat; [apply makes_none|apply makes_call].
Qed.
Lemma runs_configure : runs TConfigure (configureFE iterating) (fun failed => failed = false).
Proof.
  intros i name j m v Hp Hn Hv. startRun (around_run m i name (txt "Configuring") (callFE iterating name FEConfigure) [FEConfigure] j v Hp Hn Hv (makes_call _ _) eq_refl).
  unfold configureFE, catch_if. rewrite (bind_ok _ _ _ _ _ E).
  rewrite (bind_ok (getFEInterfaceP name) _ m1 v1 m1) by (unfold getFEInterfaceP; by rewrite Hf1, lookup_insert_eq).
  set (f := if noWork v1 then _ else _).
  destruct (after_run m m1 TConfigure j name v1 f (if (j <? n name)%nat then [] else after TConfigure)) as (m2 & E2 & H2); try done.
  - subst f. destruct Hc1 as [_ (Hi & Hs & Hss)]. unfold noWork. rewrite Hi, Hs, Hss. destruct (j <? n name)%nat; cbn [negb andb]; [apply makes_none|].
    apply (makes_bind name _ _ [ConfigureSlowControls] [StartSlowControlsWorkLoop]); apply makes_call.
  - rewrite (bind_ok _ _ _ _ _ E2). eauto.
Qed.
Lemma runs_halt : runs THalt (haltFE iterating) (fun _ => True).
Proof.
  eapply runs_simple; [done| |done..]. intros name. apply (makes_bind name _ _ [StopWorkLoop]); [apply makes_ignoring, makes_call|].
  apply (makes_bind name _ _ [StopSlowControlsWorkLoop]); apply makes_ignoring, makes_call.
Qed.
Lemma runs_pause : runs TPause (pauseFE iterating) (fun _ => True).
Proof. eapply runs_simple; [done| |done..]. intros name. apply (makes_bind name _ _ [StopWorkLoop]); apply makes_call. Qed.
Lemma runs_stop : runs TStop (stopFE iterating) (fun _ => True).
Proof. eapply runs_simple; [done| |done..]. intros name. apply (makes_bind name _ _ [StopWorkLoop]); apply makes_call. Qed.
Lemma runs_resume : runs TResume (resumeFE iterating) (fun _ => True).
Proof. eapply runs_thenStart; [done| |done..]. intros name. apply makes_call. Qed.
Lemma runs_start r : runs (TStart r) (startFE iterating r) (fun _ => True).
Proof. eapply runs_thenStart; [done| |done..]. intros name. apply makes_call. Qed.

(** *** A pass *)

(** Before the front ends [rest] in iteration [j]. *)
Record ready (j : nat) (rest : list text) (m : MM) : Prop := {
  ready_pass : inPass j m;
  ready_fes : forall name, name ∈ rest -> exists v, theFEInterfaces_ m !! name = Some v;
  ready_done : forall name, name ∈ rest -> stateMachinesIterationDone_ m !! name = Some (n name <? j)%nat }.
(** What the front ends [l] leave. *)
Record ranAll (t : transition) (j : nat) (l : list text) (m m' : MM) : Prop := {
  all_names : theFENamesByPriority_ m' = theFENamesByPriority_ m;
  all_self : self m' = if existsb (fun name => (j <? n name)%nat) l then indicateIterationWork (self m) else self m;
  all_fes : dom (theFEInterfaces_ m') = dom (theFEInterfaces_ m);
  all_done : forall name, stateMachinesIterationDone_ m' !! name = if bool_decide (name ∈ l) then Some (n name <? S j)%nat else stateMachinesIterationDone_ m !! name;
  all_sub : subIterationWorkStateMachineIndex_ m' = NONE;
  all_last : lastSubsystemIterationIndexSeen_ m' = lastSubsystemIterationIndexSeen_ m;
  all_world : world m' = world m ++ iteration t l j }.
Lemma iteration_cons t name l j : iteration t (name :: l) j = (if (j <=? n name)%nat then callsOf t j name else []) ++ iteration t l j.
Proof. unfold iteration. cbn [List.filter]. by destruct (j <=? n name)%nat. Qed.
Lemma eachFrontEnd_run {A} t (body : nat -> text -> M MM A) (good : A -> Prop) j : runs t body good ->
  forall l i m, NoDup l -> ready j l m -> (forall k name, l !! k = Some name -> theFENamesByPriority_ m !! (i + k)%nat = Some name) ->
  exists rs m', eachFrontEnd body i l m = (Ok rs, m') /\ Forall good rs /\ ranAll t j l m m'.
Proof.
  intros Hb. induction l as [|name l IH]; intros i m Hnd Hr Hnames; cbn [eachFrontEnd].
  { exists [], m. split; [done|]. split; [done|]. destruct Hr as [[] _ _]. split; try done. cbn. by rewrite app_nil_r. }
  apply NoDup_cons in Hnd as [Hname Hnd]. pose proof Hr as [Hp Hf Hd]. destruct (Hf name ltac:(left)) as [v Hv]. pose proof (Hd name ltac:(left)) as Hdone.
  pose proof (Hnames 0%nat name eq_refl) as Hn. rewrite Nat.add_0_r in Hn.
  assert (Hnames' : forall k name', l !! k = Some name' -> theFENamesByPriority_ m !! (S i + k)%nat = Some name').
  { intros k name' Hk. rewrite Nat.add_succ_comm. by apply Hnames. }
  rewrite (bind_ok (gets _) _ m (subIterationWorkStateMachineIndex_ m) m) by done. rewrite (pass_sub _ _ Hp), Z.eqb_refl. cbn [negb andb].
  rewrite (bind_ok (getFEInterfaceP name) _ m v m) by (unfold getFEInterfaceP; by rewrite Hv).
  rewrite (bind_ok (isDone name) _ m (n name <? j)%nat m) by (unfold isDone; by rewrite Hdone).
  destruct (Nat.ltb_spec (n name) j) as [Hlt|Hge].
  - destruct (IH (S i) m Hnd) as (rs & m' & E & Hg & [H1 H2 H3 H4 H5 H6 H7]); [split; [done|intros ? ?; apply Hf; by right|intros ? ?; apply Hd; by right]|done|].
    exists rs, m'. split; [done|]. split; [done|]. split; try done.
    + cbn [existsb]. destruct (Nat.ltb_spec j (n name)); [lia|done].
    + intros name'. rewrite H4. case_bool_decide as Hin; [by rewrite bool_decide_true by by right|]. destruct (decide (name' = name)) as [->|Hne].
      * rewrite bool_decide_true by left. rewrite Hdone. f_equal. destruct (Nat.ltb_spec (n name) j), (Nat.ltb_spec (n name) (S j)); lia || done.
      * rewrite bool_decide_false; [done|]. by intros [?|?]%elem_of_cons.
    + rewrite H7, iteration_cons. by destruct (Nat.leb_spec j (n name)); [lia|].
  - destruct (Hb i name j m v Hp Hn Hv) as (a & m1 & E1 & Hgood & [R1 R2 [v1 R3] R4 R5 R6 R7]).
    destruct (IH (S i) m1 Hnd) as (rs & m' & E & Hg & [H1 H2 H3 H4 H5 H6 H7]).
    + split.
      * destruct Hp as [P1 P2 [P3 P4]]. split; [|done|]; rewrite R2; by destruct (j <? n name)%nat.
      * intros name' Hin. rewrite R3. rewrite lookup_insert_ne by (intros ->; done). apply Hf. by right.
      * intros name' Hin. rewrite R4. rewrite lookup_insert_ne by (intros ->; done). apply Hd. by right.
    + intros k name' Hk. rewrite R1. by apply Hnames'.
    + exists (a :: rs), m'. rewrite (bind_ok _ _ _ _ _ E1), (bind_ok _ _ _ _ _ E). split; [done|]. split; [by constructor|]. split.
      * by rewrite H1.
      * rewrite H2, R2. cbn [existsb]. destruct (j <? n name)%nat; cbn [orb]; [|done]. by destruct (existsb _ l).
      * rewrite H3, R3, dom_insert_L. apply elem_of_dom_2 in Hv. set_solver.
      * intros name'. rewrite H4, R4. case_bool_decide as Hin; [by rewrite bool_decide_true by by right|]. destruct (decide (name' = name)) as [->|Hne].
        -- rewrite lookup_insert_eq, bool_decide_true by left. f_equal. destruct (Nat.ltb_spec j (n name)), (Nat.ltb_spec (n name) (S j)); lia || done.
        -- rewrite lookup_insert_ne by done. rewrite bool_decide_false; [done|]. by intros [?|?]%elem_of_cons.
      * done.
      * by rewrite H6.
      * rewrite H7, R7, iteration_cons. destruct (Nat.leb_spec j (n name)); [|lia]. by rewrite app_assoc.
Qed.
(** Before the pass of iteration [j]. *)
Record atStart (ss : Z) (j : nat) (m : MM) : Prop := {
  start_ss : subsystemIterationIndex_ (self m) = ss;
  start_it : iterationIndex_ (self m) = Z.of_nat j;
  start_sub : subIterationIndex_ (self m) = 0;
  start_nodup : NoDup (theFENamesByPriority_ m);
  start_fes : forall name, name ∈ theFENamesByPriority_ m -> exists v, theFEInterfaces_ m !! name = Some v;
  start_later : (0 < j)%nat -> lastSubsystemIterationIndexSeen_ m = ss /\ subIterationWorkStateMachineIndex_ m = NONE /\
    forall name, name ∈ theFENamesByPriority_ m -> stateMachinesIterationDone_ m !! name = Some (n name <? j)%nat }.
(** After it, if nobody destroyed the front ends. *)
Record atEnd (t : transition) (ss : Z) (j : nat) (names : list text) (m m' : MM) : Prop := {
  end_self : self m' = set_work (self m) false (existsb (fun name => (j <? n name)%nat) names) false;
  end_names : theFENamesByPriority_ m' = names;
  end_fes : dom (theFEInterfaces_ m') = dom (theFEInterfaces_ m);
  end_last : lastSubsystemIterationIndexSeen_ m' = ss;
  end_sub : subIterationWorkStateMachineIndex_ m' = NONE;
  end_done : forall name, name ∈ names -> stateMachinesIterationDone_ m' !! name = Some (n name <? S j)%nat;
  end_world : world m' = world m ++ iteration t names j }.
Definition singleSubsystem (ss : Z) : Prop := ss = 0 \/ ss = SUBSYSTEM_ITERATION_STANDALONE.

Lemma succ_eqb j : (Z.of_nat (S j) =? 0) = false.
Proof. apply Z.eqb_neq. lia. Qed.
Lemma pass_run {A} t (body : nat -> text -> M MM A) (good : A -> Prop) ss j m : runs t body good -> singleSubsystem ss -> atStart ss j m ->
  exists rs m', pass body m = (Ok rs, m') /\ Forall good rs /\ atEnd t ss j (theFENamesByPriority_ m) m m'.
Proof.
  intros Hb Hss [Hs Hi Hu Hnd Hf Hl]. unfold pass.
  assert (E : exists m0, preStateMachineExecutionLoop m = (Ok tt, m0) /\ self m0 = set_work (self m) false false false /\ theFENamesByPriority_ m0 = theFENamesByPriority_ m /\
    theFEInterfaces_ m0 = theFEInterfaces_ m /\ world m0 = world m /\ subIterationWorkStateMachineIndex_ m0 = NONE /\ lastSubsystemIterationIndexSeen_ m0 = ss /\
    forall name, name ∈ theFENamesByPriority_ m -> stateMachinesIterationDone_ m0 !! name = Some (n name <? j)%nat).
  { unfold preStateMachineExecutionLoop, mbind, M_bind. cbn. unfold isFirstIteration, isStandaloneSubsystem. cbn. rewrite Hs, Hi, Hu.
    destruct j as [|j].
    - destruct Hss as [-> | ->]; cbn; (eexists; split; [done|]; cbn; rewrite ?Hs; split_and!; try done; intros name Hin; rewrite lookup_gset_to_gmap_Some; split; [|done]; destruct (Hf name Hin) as [v Hv]; by eapply elem_of_dom_2).
    - destruct (Hl ltac:(lia)) as (Hlast & Hsub & Hd). rewrite succ_eqb. rewrite andb_false_r. cbn. rewrite ?Hs, Hlast, Z.eqb_refl. cbn.
      eexists. split; [done|]. cbn. split_and!; done. }
  destruct E as (m0 & E & F1 & F2 & F3 & F4 & F5 & F6 & F7). rewrite (bind_ok _ _ _ _ _ E), (bind_ok (gets _) _ m0 (theFENamesByPriority_ m0) m0) by done. rewrite F2.
  destruct (eachFrontEnd_run t body good j Hb (theFENamesByPriority_ m) 0 m0 Hnd) as (rs & m' & E' & Hg & [H1 H2 H3 H4 H5 H6 H7]).
  - split; [split; [by rewrite F1|done|by rewrite F1]|by rewrite F3|done].
  - intros k name Hk. by rewrite F2.
  - exists rs, m'. split; [done|]. split; [done|]. split.
    + rewrite H2, F1. by destruct (existsb _ _).
    + by rewrite H1.
    + by rewrite H3, F3.
    + by rewrite H6.
    + done.
    + intros name Hin. by rewrite H4, bool_decide_true.
    + by rewrite H7, F4.
Qed.

Lemma create_self (m0 m : MM) : createInterfaces feGroup m0 = (Ok tt, m) -> self m = self m0.
Proof.
  assert (K : forall children, keeps (fun m' : MM => self m' = self m0) (createLoop children)).
  { induction children as [|c children IH]; [by intros m' Hm|]. cbn [createLoop].
    assert (Hmake : keeps (fun m' : MM => self m' = self m0) (makeChild c ≫= fun _ => createLoop children)).
    { apply keeps_bind; [|done]. intros m' Hm'. unfold makeChild. by destruct (makeInterface c (world m')) as [[v|e] w]. }
    destruct (Status c) as [[]|[]]; first [exact Hmake|exact IH|apply keeps_throw]. }
  intros E. assert (K' : keeps (fun m' : MM => self m' = self m0) (createInterfaces feGroup)).
  { unfold createInterfaces. apply keeps_bind; [by intros m' Hm'|]. intros _. apply keeps_bind; [apply keeps_lift|]. intros [names children].
    apply keeps_bind; [by intros m' Hm'|]. intros _. apply K. }
  specialize (K' m0 eq_refl). by rewrite E in K'.
Qed.
(** What [run] gives: the end of a pass, or after the last pass of halting no
    front ends. *)
Lemma good_none (rs : list bool) : Forall (fun failed => failed = false) rs -> existsb id rs = false.
Proof. induction 1 as [|b rs -> _ IH]; done. Qed.
Lemma run_run t ss j m0 m : singleSubsystem ss -> (match t with TConfigure => if (j =? 0)%nat then createInterfaces feGroup m0 = (Ok tt, m) else m0 = m | _ => m0 = m end) -> atStart ss j m ->
  exists m1 m', run t m0 = (Ok tt, m') /\ atEnd t ss j (theFENamesByPriority_ m) m m1 /\ self m' = self m1 /\ world m' = world m1 /\
    (existsb (fun name => (j <? n name)%nat) (theFENamesByPriority_ m) = true -> m' = m1).
Proof.
  intros Hss H0 Hs. destruct t; cbn [run].
  - destruct (pass_run TConfigure _ _ ss j m runs_configure Hss Hs) as (rs & m' & E & Hg & He). exists m', m'. split_and!; try done.
    assert (Hf : isFirstIteration (self m0) = (j =? 0)%nat).
    { unfold isFirstIteration, isStandaloneSubsystem. assert (A : self m0 = self m) by (destruct (j =? 0)%nat; [symmetry; by apply create_self|by subst]). destruct Hs as [A1 A2 A3 _ _ _]. rewrite A, A1, A2, A3.
      destruct Hss as [-> | ->], j as [|j]; try done; replace (Z.of_nat (S j) =? 0) with false by lia; by rewrite andb_false_r. }
    unfold configure. rewrite (bind_ok (gets _) _ m0 (j =? 0)%nat m0) by by rewrite <- Hf.
    assert (Hc : (if (j =? 0)%nat then createInterfaces feGroup else mret tt) m0 = (Ok tt, m)) by (destruct (j =? 0)%nat; [done|by subst]).
    rewrite (bind_ok _ _ _ _ _ Hc), (bind_ok _ _ _ _ _ E). by rewrite good_none.
  - subst m0. destruct (pass_run THalt _ _ ss j m runs_halt Hss Hs) as (rs & m' & E & _ & He). unfold halt. rewrite (bind_ok _ _ _ _ _ E).
    rewrite (bind_ok (gets _) _ m' (negb (existsb (fun name => (j <? n name)%nat) (theFENamesByPriority_ m))) m') by (unfold gets; by rewrite (end_self _ _ _ _ _ _ He)).
    destruct (existsb _ _) eqn:Ex; cbn [negb]; [exists m', m'; by split_and!|]. eexists m', _. split; [done|]. split_and!; done.
  - subst m0. destruct (pass_run TPause _ _ ss j m runs_pause Hss Hs) as (rs & m' & E & _ & He). unfold pause. rewrite (bind_ok _ _ _ _ _ E). exists m', m'. by split_and!.
  - subst m0. destruct (pass_run TResume _ _ ss j m runs_resume Hss Hs) as (rs & m' & E & _ & He). unfold resume. rewrite (bind_ok _ _ _ _ _ E). exists m', m'. by split_and!.
  - subst m0. destruct (pass_run (TStart runNumber) _ _ ss j m (runs_start runNumber) Hss Hs) as (rs & m' & E & _ & He). unfold start. rewrite (bind_ok _ _ _ _ _ E). exists m', m'. by split_and!.
  - subst m0. destruct (pass_run TStop _ _ ss j m runs_stop Hss Hs) as (rs & m' & E & _ & He). unfold stop. rewrite (bind_ok _ _ _ _ _ E). exists m', m'. by split_and!.
Qed.
Lemma iteration_over t names j : existsb (fun name => (j <? n name)%nat) names = false -> forall j', (j < j')%nat -> iteration t names j' = [].
Proof.
  intros He j' Hj. unfold iteration. induction names as [|name names IH]; [done|]. cbn [existsb] in He. apply orb_false_iff in He as [H1 H2]. cbn [List.filter].
  apply Nat.ltb_ge in H1. destruct (Nat.leb_spec j' (n name)); [lia|]. by apply IH.
Qed.
Lemma seq_ge k : forall a, Forall (fun x => (a <= x)%nat) (seq a k).
Proof. intros a. apply Forall_forall. intros x Hx%elem_of_seq. lia. Qed.
Lemma driven_run t ss N : singleSubsystem ss -> Z.of_nat N < 2 ^ 32 - 1 -> forall k j m0 m, (j + k = N)%nat ->
  (match t with TConfigure => if (j =? 0)%nat then createInterfaces feGroup m0 = (Ok tt, m) else m0 = m | _ => m0 = m end) -> atStart ss j m ->
  Forall (fun name => (n name <= N)%nat) (theFENamesByPriority_ m) ->
  exists m', driven (S k) t m0 = (Ok true, m') /\ world m' = world m ++ concat (map (iteration t (theFENamesByPriority_ m)) (seq j (S k))).
Proof.
  intros Hss HN. induction k as [|k IH]; intros j m0 m Hjk H0 Hs HF.
  all: destruct (run_run t ss j m0 m Hss H0 Hs) as (m1 & m' & E & [E1 E2 E3 E4 E5 E6 E7] & Hself & Hworld & Hsame); cbn [driven]; rewrite (bind_ok _ _ _ _ _ E).
  all: rewrite (bind_ok (gets self) _ m' (self m') m') by done; rewrite Hself, E1; cbn [set_work subIterationWorkFlag_ iterationWorkFlag_ subsystemIterationWorkFlag_].
  all: destruct (existsb (fun name => (j <? n name)%nat) (theFENamesByPriority_ m)) eqn:Ex.
  - exfalso. apply existsb_exists in Ex as (name & Hin & Hlt). rewrite Forall_forall in HF. apply list_elem_of_In in Hin. specialize (HF name Hin). apply Nat.ltb_lt in Hlt. lia.
  - exists m'. split; [done|]. rewrite Hworld, E7. cbn. by rewrite app_nil_r.
  - specialize (Hsame eq_refl) as ->. clear E Hself Hworld.
    rewrite (bind_ok (nextIndices _ _ _) _ m1 tt _) by done. cbn [set_work subsystemIterationIndex_ iterationIndex_].
    set (m2 := set_self m1 _). destruct (IH (S j) m2 m2) as (m3 & E3' & Hw3); [lia|by destruct t| |by (subst m2; cbn; rewrite E2)|].
    + destruct Hs as [S1 S2 S3 S4 S5 S6]. subst m2. split; cbn.
      * done.
      * rewrite S2, wrap_small; [lia|]. unfold in_range. change (2 ^ 32) with 4294967296 in *. lia.
      * done.
      * by rewrite E2.
      * intros name. rewrite E2. intros Hin. destruct (S5 name Hin) as [v Hv]. apply elem_of_dom_2 in Hv. rewrite <- E3 in Hv. by apply elem_of_dom in Hv.
      * intros _. split; [done|]. split; [done|]. intros name. rewrite E2. apply E6.
    + exists m3. split; [exact E3'|]. rewrite Hw3. subst m2. cbn [set_self world theFENamesByPriority_]. by rewrite E7, E2, <- app_assoc.
  - exists m'. split; [done|]. rewrite Hworld, E7. f_equal. change (seq j (S (S k))) with (j :: seq (S j) (S k)). generalize (seq_ge (S k) (S j)). generalize (seq (S j) (S k)) as l. cbn [map concat].
    induction l as [|j' l IHl]; intros Hl; [by rewrite app_nil_r|]. apply Forall_cons in Hl as [Hj Hl]. cbn [map concat]. rewrite (iteration_over t _ j Ex j' Hj). by apply IHl.
Qed.
(** C23: Front ends that ask for iterations go through a transition together: in
    each iteration those that still ask are called once, by priority, with the
    index of the iteration, and each is called from iteration 0 to the last one
    it asked for and then no more; what follows a transition (the slow controls,
    the work loop) follows its last call; and the transition ends as soon as no
    front end asks. *)
Theorem front_ends_iterate_together t ss N m0 m : singleSubsystem ss -> Z.of_nat N < 2 ^ 32 - 1 ->
  (match t with TConfigure => createInterfaces feGroup m0 = (Ok tt, m) | _ => m0 = m end) -> atStart ss 0 m ->
  Forall (fun name => (n name <= N)%nat) (theFENamesByPriority_ m) ->
  exists m', driven (S N) t m0 = (Ok true, m') /\
    world m' = world m ++ concat (map (iteration t (theFENamesByPriority_ m)) (seq 0 (S N))).
Proof. intros Hss HN H0 Hs HF. by apply (driven_run t ss N Hss HN N 0 m0 m). Qed.
End Iterating.

(** ** A sub-iteration is for one front end *)
Section SubIteration.
Context {W : Type}.
Abbreviation MW := (@Manager W).
Lemma skip_all {A} (body : nat -> text -> M MW A) (l : list text) : forall i (m : MW), subIterationWorkStateMachineIndex_ m <> NONE ->
  (forall k, (k < length l)%nat -> Z.of_nat (i + k) <> subIterationWorkStateMachineIndex_ m) -> eachFrontEnd body i l m = (Ok [], m).
Proof.
  induction l as [|name l IH]; intros i m Hn Hk; cbn [eachFrontEnd]; [done|]. rewrite (bind_ok (gets _) _ m (subIterationWorkStateMachineIndex_ m) m) by done.
  rewrite (proj2 (Z.eqb_neq _ _) Hn). specialize (Hk 0%nat ltac:(cbn; lia)) as Hk0. rewrite Nat.add_0_r in Hk0. rewrite (proj2 (Z.eqb_neq _ _) Hk0). cbn [negb andb].
  apply IH; [done|]. intros k Hkl. rewrite Nat.add_succ_comm. apply Hk. cbn. lia.
Qed.
Lemma skip_until {A} (body : nat -> text -> M MW A) (l l' : list text) : forall i (m : MW), subIterationWorkStateMachineIndex_ m = Z.of_nat (i + length l) ->
  subIterationWorkStateMachineIndex_ m <> NONE -> eachFrontEnd body i (l ++ l') m = eachFrontEnd body (i + length l) l' m.
Proof.
  induction l as [|name l IH]; intros i m Hi Hn; cbn [app length eachFrontEnd]; [by rewrite Nat.add_0_r|]. rewrite (bind_ok (gets _) _ m (subIterationWorkStateMachineIndex_ m) m) by done.
  rewrite (proj2 (Z.eqb_neq _ _) Hn), Hi. cbn [length]. rewrite (proj2 (Z.eqb_neq (Z.of_nat i) _)) by lia. cbn [negb andb].
  rewrite IH; [by rewrite Nat.add_succ_comm|rewrite Hi; cbn [length]; f_equal; lia|done].
Qed.
(** C24: A pass in which a front end is in a sub-iteration, and stays in it, runs
    that front end alone, whatever the plugins do: its functions and nothing
    else, up to an exception. *)
Theorem sub_iteration_runs_alone {A} (body : nat -> text -> M MW A) (m m1 m2 : MW) i name v r :
  isFirstIteration (self m) = false -> theFENamesByPriority_ m !! i = Some name -> Z.of_nat i < NONE -> subIterationWorkStateMachineIndex_ m = Z.of_nat i ->
  preStateMachineExecutionLoop m = (Ok tt, m1) -> theFEInterfaces_ m1 !! name = Some v -> stateMachinesIterationDone_ m1 !! name = Some false ->
  body i name m1 = (r, m2) -> subIterationWorkStateMachineIndex_ m2 = Z.of_nat i ->
  pass body m = (a ← r; Ok [a], m2).
Proof.
  intros Hfirst Hname Hi Hsub Hpre Hv Hdone Hbody Hsub2. unfold pass. rewrite (bind_ok _ _ _ _ _ Hpre), (bind_ok (gets _) _ m1 (theFENamesByPriority_ m1) m1) by done.
  assert (Hm1 : theFENamesByPriority_ m1 = theFENamesByPriority_ m /\ subIterationWorkStateMachineIndex_ m1 = subIterationWorkStateMachineIndex_ m).
  { revert Hpre. unfold preStateMachineExecutionLoop, mbind, M_bind. cbn. unfold isFirstIteration, isStandaloneSubsystem in *. cbn. rewrite Hfirst. cbn. by destruct (negb _); intros [= <-]. }
  destruct Hm1 as [E1 E2]. rewrite E1. rewrite Hsub in E2. destruct (list_elem_of_split_length (theFENamesByPriority_ m) i name Hname) as (l1 & l2 & Hl & Hlen). rewrite Hl.
  assert (Hn : subIterationWorkStateMachineIndex_ m1 <> NONE) by (rewrite E2; lia).
  rewrite (skip_until body l1 (name :: l2) 0 m1) by (rewrite ?E2; cbn; lia || done). rewrite <- Hlen. cbn [Nat.add eachFrontEnd].
  rewrite (bind_ok (gets _) _ m1 (subIterationWorkStateMachineIndex_ m1) m1) by done. rewrite E2, Z.eqb_refl, andb_false_r.
  rewrite (bind_ok (getFEInterfaceP name) _ m1 v m1) by (unfold getFEInterfaceP; by rewrite Hv). rewrite (bind_ok (isDone name) _ m1 false m1) by (unfold isDone; by rewrite Hdone).
  destruct r as [a|e]; [|by rewrite (bind_throw _ _ _ _ _ Hbody)]. rewrite (bind_ok _ _ _ _ _ Hbody).
  rewrite (bind_ok _ _ m2 [] m2); [done|]. apply skip_all; [rewrite Hsub2; lia|]. intros k _. rewrite Hsub2. lia.
Qed.
End SubIteration.

(** ** Runs *)

(** Two front ends, of which [A] asks for an iteration. *)
Definition fresh (name : text) : VStateMachine := construct name.
Definition names2 : list text := [txt "A"; txt "B"].
Definition nobody {W} (w : W) : @Manager W := mkManager (construct (txt "fes")) ∅ [] ∅ ∅ 0 0 NONE w.
Definition made {W} (names : list text) : result (list text * list (@FEChild W)) := Ok (names, map (fun name => mkChild name (Ok true) (fun w => (Ok (fresh name), w))) names).
Definition created {W} (names : list text) (w : W) : @Manager W := (createInterfaces (made names) (nobody w)).2.
Definition onceMore (name : text) : nat := if textEq name (txt "A") then 1 else 0.
Definition A : text := txt "A".
Definition B : text := txt "B".
Lemma front_ends_iterate_together_witness : exists m', driven onceMore (made names2) 2 TConfigure (nobody []) = (Ok true, m') /\
  world m' = [(A, FEConfigure, 0); (B, FEConfigure, 0); (B, ConfigureSlowControls, 0); (B, StartSlowControlsWorkLoop, 0);
              (A, FEConfigure, 1); (A, ConfigureSlowControls, 1); (A, StartSlowControlsWorkLoop, 1)].
Proof.
  destruct (front_ends_iterate_together onceMore (made names2) TConfigure 0 1 (nobody []) (created names2 [])) as (m' & E & Hw).
  - by left.
  - done.
  - by vm_compute.
  - split; cbn; try done; [by apply (bool_decide_unpack _); vm_compute| |lia].
    intros name Hin. assert (name = A \/ name = B) as [-> | ->]; [|by eexists; vm_compute..].
    change (name ∈ names2) in Hin. unfold names2 in Hin. set_solver.
  - repeat constructor; vm_compute; lia.
  - exists m'. split; [exact E|]. rewrite Hw. by vm_compute.
Defined.

(** Front ends that ask for what a script says, by the iteration and
    sub-iteration. *)
Inductive request := AskIteration | AskSubIteration | AskSubsystemIteration | AskNothing.
Definition asks (r : request) (v : VStateMachine) : VStateMachine :=
  match r with AskIteration => indicateIterationWork v | AskSubIteration => indicateSubIterationWork v | AskSubsystemIteration => indicateSubsystemIterationWork v | AskNothing => v end.
Definition scripted (script : text -> Z -> Z -> request) (name : text) (c : feCall) : M (VStateMachine * list (text * feCall * Z * Z)) unit := fun '(v, log) =>
  if isTransition c then (Ok tt, (asks (script name (iterationIndex_ v) (subIterationIndex_ v)) v, log ++ [(name, c, iterationIndex_ v, subIterationIndex_ v)])) else (Ok tt, (v, log)).
Definition next {W} (m : @Manager W) : option (@Manager W) :=
  let v := self m in
  let to ss it sub := Some (set_self m (set_indices v ss it sub (systemMinReadyForEventGenerationStartIteration_ v))) in
  if subIterationWorkFlag_ v then to (subsystemIterationIndex_ v) (iterationIndex_ v) (subIterationIndex_ v + 1)
  else if iterationWorkFlag_ v then to (subsystemIterationIndex_ v) (iterationIndex_ v + 1) 0
  else if subsystemIterationWorkFlag_ v then to (subsystemIterationIndex_ v + 1) (iterationIndex_ v + 1) 0
  else None.
Fixpoint runAll {W} (fuel : nat) (t : M (@Manager W) unit) (m : @Manager W) : option (@Manager W) :=
  match fuel with
  | O => None
  | S fuel => match t m with (Throw _, _) => None | (Ok _, m) => match next m with Some m => runAll fuel t m | None => Some m end end
  end.
Abbreviation logOf script t := (world <$> runAll 9 (t (scripted script)) (created [A; B; txt "C"] [])).

(** The second pass of front ends that always ask for a sub-iteration. *)
Definition always : text -> Z -> Z -> request := fun _ _ _ => AskSubIteration.
Definition m0 : @Manager (list (text * feCall * Z * Z)) :=
  let m := (stop (scripted always) (created [A; B] [])).2 in match next m with Some m => m | None => m end.
Definition m1 := (preStateMachineExecutionLoop m0).2.
Definition m2 := (stopFE (scripted always) 0 A m1).2.
Lemma sub_iteration_runs_alone_witness :
  pass (stopFE (scripted always)) m0 = (Ok [false], m2) /\ world m2 = [(A, FEStop, 0, 0); (A, FEStop, 0, 1)].
Proof.
  split; [|by vm_compute]. destruct (theFEInterfaces_ m1 !! A) as [v|] eqn:Hv.
  - apply (sub_iteration_runs_alone (stopFE (scripted always)) m0 m1 m2 0 A v (Ok false)); [by vm_compute..| |exact Hv|by vm_compute| |by vm_compute].
    + vm_compute. reflexivity.
    + vm_compute. reflexivity.
  - exfalso. assert (H : bool_decide (theFEInterfaces_ m1 !! A = None) = false) by by vm_compute. by apply bool_decide_eq_false in H.
Defined.

(** The request of [A] for an iteration is lost if [B], after it, asks for a
    sub-iteration: the flags are cleared before the sub-iteration, which runs
    [B] only. *)
Lemma sub_iteration_drops_iteration :
  logOf (fun name it sub => if (it =? 0) && (sub =? 0) then if textEq name A then AskIteration else if textEq name B then AskSubIteration else AskNothing else AskNothing) (fun p => start p (txt "7"))
  = Some [(A, FEStart (txt "7"), 0, 0); (B, FEStart (txt "7"), 0, 0); (B, FEStart (txt "7"), 0, 1); (txt "C", FEStart (txt "7"), 0, 1)].
Proof. by vm_compute. Qed.
(** And [C] is called for the first time with sub-iteration index 1, so it is
    never called in the first iteration. *)
Lemma later_front_end_not_first :
  logOf (fun name it sub => if textEq name B && (sub =? 0) then AskSubIteration else AskNothing) pause
  = Some [(A, FEPause, 0, 0); (B, FEPause, 0, 0); (B, FEPause, 0, 1); (txt "C", FEPause, 0, 1)].
Proof. by vm_compute. Qed.
(** The request of [B] for a subsystem-iteration is lost if [A] asks for an
    iteration at the same time. *)
Lemma iteration_drops_subsystem_iteration :
  logOf (fun name it sub => if (it =? 0) then if textEq name A then AskIteration else if textEq name B then AskSubsystemIteration else AskNothing else AskNothing) resume
  = Some [(A, FEResume, 0, 0); (B, FEResume, 0, 0); (txt "C", FEResume, 0, 0); (A, FEResume, 1, 0)].
Proof. by vm_compute. Qed.
(** Halting destroys the front ends when one of them asks for a
    subsystem-iteration: it is never called again. *)
Lemma halt_drops_subsystem_iteration :
  logOf (fun name it sub => if textEq name A && (it <? 3) then AskSubsystemIteration else AskNothing) halt
  = Some [(A, FEHalt, 0, 0); (B, FEHalt, 0, 0); (txt "C", FEHalt, 0, 0)].
Proof. by vm_compute. Qed.
(** The name of the transition while a front end stops. *)
Definition spying (name : text) (c : feCall) : M (VStateMachine * list (feCall * text)) unit := fun '(v, log) => (Ok tt, (v, log ++ [(c, transitionName_ v)])).
Lemma stop_named_starting : world (stop spying (created [A] [])).2 = [(StopWorkLoop, txt "Starting"); (FEStop, txt "Starting")].
Proof. by vm_compute. Qed.
End FEVInterfacesManager.
