(* ===== verification/CoreSupervisorBase.v ===== *)
(** * Supervisors

    src/otsdaq/CoreSupervisors/CoreSupervisorBase.cc: what run control calls in
    a supervisor.  It activates the configuration group and takes its state
    machine implementations (for a supervisor of front ends the manager of
    FEVInterfacesManager.v) through the transitions, with their iterations.

    The implementations' functions are the parameter [implementation], which
    changes the implementation's [VStateMachine] and a state [W] shared by all;
    the configuration manager is a state [C] with its queries and
    [loadTableGroup].  At the end the layers are put together: messages,
    run control, supervisor, front ends. *)

From S2P Require Import Prelude CText StringMacros StringLists Versions ProgressBar FiniteStateMachine RunControlStateMachine VStateMachine FEVInterfacesManager.

Module CoreSupervisorBase.
Import FiniteStateMachine RunControlStateMachine.
#[local] Open Scope string_scope.
#[local] Open Scope Z_scope.

Abbreviation V := VStateMachine.VStateMachine.

(** What the supervisor calls of an implementation. *)
Inductive fsmCall := FsmConfigure | FsmHalt | FsmPause | FsmResume | FsmStart (runNumber : string) | FsmStop.
(** No implementation is in a sub-iteration: [(unsigned int)-1]. *)
Definition NONE : Z := u32 (-1).

Section Supervisor.
Context {W C : Type}.
Variable implementation : nat -> fsmCall -> M (V * W) unit.

Record Supervisor := mkSupervisor {
  theStateMachineImplementation_ : list V;
  stateMachinesIterationDone_ : list bool;
  stateMachinesWaitingSubsystemIteration_ : gset nat;
  lastSubsystemIterationIndexSeen_ : Z;
  stateMachinesIterationWorkCount_ : Z;
  subIterationWorkStateMachineIndex_ : Z;
  lastActivationHadMergeOrOverride_ : bool;
  propertiesAreSetup_ : bool;
  systemVariables_ : gmap string (gmap string string);
  theConfigurationManager_ : C;
  world : W }.
Implicit Types s : Supervisor.
Definition set_fsms s fsms w := mkSupervisor fsms (stateMachinesIterationDone_ s) (stateMachinesWaitingSubsystemIteration_ s) (lastSubsystemIterationIndexSeen_ s) (stateMachinesIterationWorkCount_ s) (subIterationWorkStateMachineIndex_ s) (lastActivationHadMergeOrOverride_ s) (propertiesAreSetup_ s) (systemVariables_ s) (theConfigurationManager_ s) w.
Definition set_done s done waiting last := mkSupervisor (theStateMachineImplementation_ s) done waiting last (stateMachinesIterationWorkCount_ s) (subIterationWorkStateMachineIndex_ s) (lastActivationHadMergeOrOverride_ s) (propertiesAreSetup_ s) (systemVariables_ s) (theConfigurationManager_ s) (world s).
Definition set_count s n := mkSupervisor (theStateMachineImplementation_ s) (stateMachinesIterationDone_ s) (stateMachinesWaitingSubsystemIteration_ s) (lastSubsystemIterationIndexSeen_ s) n (subIterationWorkStateMachineIndex_ s) (lastActivationHadMergeOrOverride_ s) (propertiesAreSetup_ s) (systemVariables_ s) (theConfigurationManager_ s) (world s).
Definition set_sub s i := mkSupervisor (theStateMachineImplementation_ s) (stateMachinesIterationDone_ s) (stateMachinesWaitingSubsystemIteration_ s) (lastSubsystemIterationIndexSeen_ s) (stateMachinesIterationWorkCount_ s) i (lastActivationHadMergeOrOverride_ s) (propertiesAreSetup_ s) (systemVariables_ s) (theConfigurationManager_ s) (world s).
Definition set_configuration s last properties variables manager := mkSupervisor (theStateMachineImplementation_ s) (stateMachinesIterationDone_ s) (stateMachinesWaitingSubsystemIteration_ s) (lastSubsystemIterationIndexSeen_ s) (stateMachinesIterationWorkCount_ s) (subIterationWorkStateMachineIndex_ s) last properties variables manager (world s).

Abbreviation World := (FiniteStateMachine Fn * RunControl Supervisor)%type.
Definition set_application (c : RunControl Supervisor) s : RunControl Supervisor :=
  mkRC (theProgressBar_ c) (asyncFailureReceived_ c) (asyncPauseExceptionReceived_ c) (asyncStopExceptionReceived_ c)
    (subsystemIterationIndex_ c) (iterationIndex_ c) (subIterationIndex_ c) (subsystemIterationWorkFlag_ c)
    (iterationWorkFlag_ c) (subIterationWorkFlag_ c) (minReadyForEventGenerationStartIteration_ c)
    (lastIterationState_ c) (lastIterationCommand_ c) (lastAttemptedConfigureGroup_ c) (configuredGroup_ c)
    (lastIterationResult_ c) (lastSubsystemIterationIndex_ c) (lastIterationIndex_ c) (lastSubIterationIndex_ c)
    (stateTransitionFunctionTable_ c) (detachedThreads c) s.
Definition getsup {A} (g : Supervisor -> A) : M World A := getc (fun c => g (application c)).
Definition setsup (g : Supervisor -> Supervisor) : M World unit := setc (fun c => set_application c (g (application c))).
(** A member function of the [i]th implementation. *)
Definition onImplementation (i : nat) (f : M (V * W) unit) : M World unit := fun w =>
  let s := application w.2 in
  match theStateMachineImplementation_ s !! i with
  | Some v => let '(r, (v, x)) := f (v, world s) in (r, (w.1, set_application w.2 (set_fsms s (<[i := v]> (theStateMachineImplementation_ s)) x)))
  | None => (Throw Undefined, w)
  end.
(** [stateMachinesIterationDone_[i]] of a [std::vector]. *)
Definition isDone (i : nat) : M World bool :=
  done ← getsup stateMachinesIterationDone_;
  match done !! i with Some b => mret b | None => throw Undefined end.
Definition setDone (i : nat) (b : bool) : M World unit :=
  done ← getsup stateMachinesIterationDone_;
  if (i <? length done)%nat then setsup (fun s => set_done s (<[i := b]> done) (stateMachinesWaitingSubsystemIteration_ s) (lastSubsystemIterationIndexSeen_ s))
  else throw Undefined.

(** ** Around a pass and around an implementation *)

Definition rearm (index : Z) s : result Supervisor :=
  let waiting := elements (stateMachinesWaitingSubsystemIteration_ s) in
  if forallb (fun i => (i <? length (stateMachinesIterationDone_ s))%nat) waiting
  then Ok (set_done s (fold_left (fun done i => <[i := false]> done) waiting (stateMachinesIterationDone_ s)) ∅ index)
  else Throw Undefined.
Definition preStateMachineExecutionLoop : M World unit :=
  setc (fun c => clearSubIterationWork (clearIterationWork (clearSubsystemIterationWork c))) ≫= fun _ =>
  setsup (fun s => set_count s 0) ≫= fun _ =>
  first ← getc isFirstIteration;
  index ← getc subsystemIterationIndex_;
  if (first : bool) then
    setsup (fun s => set_done (set_sub s NONE) (replicate (length (theStateMachineImplementation_ s)) false) ∅ index)
  else
    last ← getsup lastSubsystemIterationIndexSeen_;
    if negb (index =? last) then
      s ← getsup id; s ← lift (rearm index s); setsup (fun _ => s)
    else mret tt.
Definition inRange (i : nat) : M World unit :=
  n ← getsup (fun s => length (theStateMachineImplementation_ s));
  if (n <=? i)%nat then throw RuntimeError else mret tt.
Definition preStateMachineExecution (i : nat) : M World unit :=
  inRange i ≫= fun _ =>
  c ← getc id;
  onImplementation i (modify (fun '(v, w) =>
    let v := VStateMachine.setSubsystemIterationIndex v (subsystemIterationIndex_ c) in
    let v := VStateMachine.setIterationIndex v (iterationIndex_ c) in
    let v := VStateMachine.setSubIterationIndex v (subIterationIndex_ c) in
    let v := VStateMachine.setSystemMinReadyForEventGenerationStartIteration v (minReadyForEventGenerationStartIteration_ c) in
    (VStateMachine.clearSubIterationWork (VStateMachine.clearIterationWork (VStateMachine.clearSubsystemIterationWork v)), w))).
Definition postStateMachineExecution (i : nat) : M World unit :=
  inRange i ≫= fun _ =>
  fsms ← getsup theStateMachineImplementation_;
  v ← lift (from_option Ok (Throw Undefined) (fsms !! i));
  if VStateMachine.subIterationWorkFlag_ v then
    setsup (fun s => set_sub s (u32 (Z.of_nat i))) ≫= fun _ => setc indicateSubIterationWork
  else if VStateMachine.iterationWorkFlag_ v then
    setDone i false ≫= fun _ => setc indicateIterationWork ≫= fun _ =>
    setsup (fun s => set_count s (u32 (stateMachinesIterationWorkCount_ s + 1)))
  else if VStateMachine.subsystemIterationWorkFlag_ v then
    setDone i true ≫= fun _ =>
    setsup (fun s => set_done s (stateMachinesIterationDone_ s) ({[i]} ∪ stateMachinesWaitingSubsystemIteration_ s) (lastSubsystemIterationIndexSeen_ s)) ≫= fun _ =>
    setc indicateSubsystemIterationWork
  else setDone i true.

(** ** A pass *)

Fixpoint eachImplementation (call : fsmCall) (indices : list nat) : M World unit :=
  match indices with
  | [] => mret tt
  | i :: indices =>
      index ← getsup subIterationWorkStateMachineIndex_;
      if negb (index =? NONE) && negb (Z.of_nat i =? index) then eachImplementation call indices
      else
        done ← isDone i;
        if (done : bool) then eachImplementation call indices
        else
          preStateMachineExecution i ≫= fun _ =>
          onImplementation i (implementation i call) ≫= fun _ =>
          postStateMachineExecution i ≫= fun _ =>
          eachImplementation call indices
  end.
Definition passFSMs (call : fsmCall) : M World unit :=
  preStateMachineExecutionLoop ≫= fun _ =>
  n ← getsup (fun s => length (theStateMachineImplementation_ s));
  eachImplementation call (seq 0 n).

(** ** The transitions

    The text of an exception, what the second [catch] appends of an exception
    when it throws it again, and the header of an [__SUP_SS__] stream. *)
Variables (what rethrown : exn -> string) (ss_header : string).
Definition newline : string := "
".
Definition errorText (error unknown : string) (e : exn) : string :=
  match e with
  | RuntimeError => ss_header +:+ error +:+ what e +:+ newline
  | _ => ss_header +:+ unknown +:+ newline +:+ rethrown e
  end.
Definition fail (error : string) : M World unit := setm (fun f => setErrorMessage f error true) ≫= fun _ => throw FsmException.
Definition transitionError (action : string) (e : exn) : M World unit :=
  fail (errorText ("Error was caught while " +:+ action +:+ ": ") ("Unknown error was caught while " +:+ action +:+ ". Please checked the logs.") e).
Definition transitionConfiguringFSMs : M World unit := catch_all (passFSMs FsmConfigure) (transitionError "configuring").
(** Errors are ignored when the supervisor comes from Failed or Halted. *)
Definition transitionHalting : M World unit :=
  catch_all (passFSMs FsmHalt) (fun e =>
    from ← getm getProvenanceStateName;
    if String.eqb from FAILED_STATE_NAME || String.eqb from HALTED_STATE_NAME then mret tt else transitionError "Halting" e).
Definition transitionInitializing : M World unit :=
  setsup (fun s => set_configuration s (lastActivationHadMergeOrOverride_ s) false (systemVariables_ s) (theConfigurationManager_ s)).
Definition transitionPausing : M World unit := catch_all (passFSMs FsmPause) (transitionError "Pausing").
Definition transitionResuming : M World unit := catch_all (passFSMs FsmResume) (transitionError "Resuming").
(** A parameter of the message of the transition; there may be no message. *)
Definition parameter (name : string) : M World string :=
  message ← getm theMessage_;
  match message with Some m => lift (getValue m name) | None => throw Undefined end.
Definition transitionStarting : M World unit :=
  runNumber ← parameter "RunNumber";
  catch_all (passFSMs (FsmStart runNumber)) (transitionError "Starting").
Definition transitionStopping : M World unit := catch_all (passFSMs FsmStop) (transitionError "Stopping").

(** ** The activation of a configuration group

    What the configuration manager answers and does; [loadTableGroup] gets the
    group and the tables to merge in and to override. *)
Variables (convertEnvironmentVariables : text -> result text)
  (getActiveGroupName : C -> text) (getActiveGroupKey : C -> TableGroupKey.TableGroupKey)
  (getActiveVersions : C -> list (text * TableVersion.TableVersion))
  (loadTableGroup : text -> TableGroupKey.TableGroupKey -> list (text * TableVersion.TableVersion) -> list (text * TableVersion.TableVersion) -> M C unit).

(** [getMapFromString] with the default delimiters, to versions. *)
Definition versionValue (value : text) : result TableVersion.TableVersion :=
  data ← convertEnvironmentVariables value;
  n ← StringLists.getNumber_uint data;
  match n with None => Throw Undefined | Some (true, n) => Ok (TableVersion.of_uint n) | Some (false, _) => Throw RuntimeError end.
Definition tablesOf (commonList : text) : result (list (text * TableVersion.TableVersion)) :=
  if bool_decide (commonList = []) then Ok []
  else
    match StringMacros.decodeURIComponent commonList with
    | None => Throw Undefined
    | Some commonList => StringLists.getMapFromStringT versionValue commonList (txt ",|&") (txt "=:") StringLists.ws_default []
    end.
(** A list that is missing in the message is empty. *)
Definition commonTables (name : string) : M World (list (text * TableVersion.TableVersion)) :=
  commonList ← catch_all (parameter name) (fun _ => mret "");
  lift (tablesOf (txt commonList)).
Definition setVariable (name value : string) (variables : gmap string (gmap string string)) : gmap string (gmap string string) :=
  <["ActiveStateMachine" := <[name := value]> (default ∅ (variables !! "ActiveStateMachine"))]> variables.
Definition fillVariable (name parameterName : string) : M World unit :=
  value ← parameter parameterName;
  setsup (fun s => set_configuration s (lastActivationHadMergeOrOverride_ s) (propertiesAreSetup_ s) (setVariable name value (systemVariables_ s)) (theConfigurationManager_ s)).
Definition onConfigurationManager (f : M C unit) : M World unit := fun w =>
  let s := application w.2 in
  let '(r, manager) := f (theConfigurationManager_ s) in
  (r, (w.1, set_application w.2 (set_configuration s (lastActivationHadMergeOrOverride_ s) (propertiesAreSetup_ s) (systemVariables_ s) manager))).
Definition isActiveGroup (name : text) (key : TableGroupKey.TableGroupKey) (manager : C) : bool :=
  bool_decide (getActiveGroupName manager = name) && TableGroupKey.eqb (getActiveGroupKey manager) key.
Definition haveScratchOrTemporaryMembers (manager : C) : bool :=
  existsb (fun '(_, version) => TableVersion.isScratchVersion version || TableVersion.isTemporaryVersion version) (getActiveVersions manager).
Definition groupText (name : string) (key : TableGroupKey.TableGroupKey) : string :=
  name +:+ "(" +:+ string_of_list_ascii (TableGroupKey.toString key) +:+ ")".
Definition loadError (group : string) (e : exn) : M World unit :=
  fail (match e with
        | RuntimeError => ss_header +:+ "Error loading table group '" +:+ group +:+ "! " +:+ newline +:+ what e +:+ newline
        | _ => ss_header +:+ "Unknown error loading table group '" +:+ group +:+ "!" +:+ newline +:+ rethrown e
        end).
Definition maySkip (attemptSkipIfGroupUnchanged : bool) (name : text) (key : TableGroupKey.TableGroupKey) (mergeIn override : list (text * TableVersion.TableVersion)) (s : Supervisor) : bool :=
  attemptSkipIfGroupUnchanged && bool_decide (mergeIn = []) && bool_decide (override = []) && negb (lastActivationHadMergeOrOverride_ s) &&
  isActiveGroup name key (theConfigurationManager_ s) && negb (haveScratchOrTemporaryMembers (theConfigurationManager_ s)).
Definition activate (name : string) (key : TableGroupKey.TableGroupKey) (mergeIn override : list (text * TableVersion.TableVersion)) : M World unit :=
  catch_all (onConfigurationManager (loadTableGroup (txt name) key mergeIn override)) (loadError (groupText name key)) ≫= fun _ =>
  setsup (fun s => set_configuration s (negb (bool_decide (mergeIn = [])) || negb (bool_decide (override = []))) (propertiesAreSetup_ s) (systemVariables_ s) (theConfigurationManager_ s)).
Definition configureInit (attemptSkipIfGroupUnchanged : bool) : M World unit :=
  first ← getc isFirstIteration;
  if negb first then mret tt
  else
    name ← parameter "ConfigurationTableGroupName";
    keyText ← parameter "ConfigurationTableGroupKey";
    key ← lift (from_option Ok (Throw Undefined) (TableGroupKey.of_string (txt keyText)));
    fillVariable "name" "ActiveStateMachineName" ≫= fun _ =>
    fillVariable "windowName" "ActiveStateMachineWindowName" ≫= fun _ =>
    fillVariable "runAlias" "ActiveStateMachineRunAlias" ≫= fun _ =>
    mergeInTables ← commonTables "SubsystemCommonList";
    overrideTables ← commonTables "SubsystemCommonOverrideList";
    skip ← getsup (maySkip attemptSkipIfGroupUnchanged (txt name) key mergeInTables overrideTables);
    if (skip : bool) then mret tt else activate name key mergeInTables overrideTables.
Definition transitionConfiguring : M World unit := configureInit true ≫= fun _ => transitionConfiguringFSMs.

(** The functions bound to states and transitions; those that are not
    overridden do nothing.  [FESupervisor] overrides two of them again
    ([callFE]). *)
Definition enteringErrorFor (event : string) : M World unit := if String.eqb event "FailedEvent" then mret tt else throw OtherExn.
Definition callCore (fn : Fn) (event : string) : M World unit :=
  match fn with
  | RunControlStateMachine.transitionConfiguring => transitionConfiguring
  | RunControlStateMachine.transitionHalting => transitionHalting
  | RunControlStateMachine.transitionInitializing => transitionInitializing
  | RunControlStateMachine.transitionPausing => transitionPausing
  | RunControlStateMachine.transitionResuming => transitionResuming
  | RunControlStateMachine.transitionStarting => transitionStarting
  | RunControlStateMachine.transitionStopping => transitionStopping
  | RunControlStateMachine.enteringError => enteringErrorFor event
  | _ => mret tt
  end.

(** ** Status *)

(** The implementations' own texts and answers are virtual. *)
Variables (progressDetail : nat -> V * W -> text) (minReady : nat -> V * W -> Z).
Definition eachText (s : Supervisor) : list text := imap (fun i v => progressDetail i (v, world s)) (theStateMachineImplementation_ s).
Definition joinColon (details : list text) : text :=
  fold_left (fun detail d => if bool_decide (d = []) then detail else app (app detail (if bool_decide (detail = []) then [] else txt ":")) d) details [].
(** [uptime] and [timeInState] are in seconds. *)
Definition getStatusProgressDetail (uptime timeInState : Z) (w : World) : text :=
  let state := getCurrentStateName w.1 in
  if negb (inTransition_ w.1) && (String.eqb state HALTED_STATE_NAME || String.eqb state INITIAL_STATE_NAME) then
    app (txt "Uptime: ") (app (StringMacros.encodeURIComponent (StringLists.getTimeDurationString uptime))
      (app (txt ", Time-in-state: ") (StringMacros.encodeURIComponent (StringLists.getTimeDurationString timeInState))))
  else
    let detail := joinColon (eachText (application w.2)) in
    if bool_decide (detail = []) && negb (String.eqb (lastIterationCommand_ w.2) "") then
      app (txt "Last Command: ") (app (txt (lastIterationCommand_ w.2))
        (if String.eqb (lastIterationCommand_ w.2) CONFIGURE_TRANSITION_NAME then app (txt " w/") (txt (lastAttemptedConfigureGroup_ w.2)) else []))
    else detail.
(** The parameter [Status] of the answer to a status request. *)
Definition statusText (w : World) : string :=
  if String.eqb (theErrorMessage_ w.1) "" then
    if inTransition_ w.1 || (ProgressBar.read (theProgressBar_ w.2) <? 100) then
      match getCurrentTransitionName w.1 "" with Ok name => name | Throw _ => getProvenanceStateName w.1 end
    else getCurrentStateName w.1
  else (if String.eqb (getCurrentStateName w.1) "Paused" then "Soft-Error:::" else "Error:::") +:+ theErrorMessage_ w.1.
(** The disk spaces are in kilobytes; [subapps] is the serialised list. *)
Record DiskSpace := mkDiskSpace { logSpace : Z; dataSpace : Z; varSpace : Z }.
Definition applicationStatusRequest (uptime timeInState : Z) (isFirstAppInContext : bool) (space : DiskSpace) (subapps : text) (w : World) : list (string * text) :=
  let show z := if isFirstAppInContext then to_string_unsigned z else txt "0" in
  [("Status", txt (statusText w)); ("Progress", ProgressBar.readPercentageString (theProgressBar_ w.2));
   ("Detail", getStatusProgressDetail uptime timeInState w); ("ConfiguredGroup", txt (configuredGroup_ w.2));
   ("AvailableLogSpaceKB", show (logSpace space)); ("AvailableDataSpaceKB", show (dataSpace space)); ("AvailableVarSpaceKB", show (varSpace space)); ("Subapps", subapps)].
Definition minReadyForEventGenerationStartIterationRequest (s : Supervisor) : text :=
  to_string_unsigned (fold_left (fun maxIteration val => if maxIteration <? val then val else maxIteration)
    (imap (fun i v => minReady i (v, world s)) (theStateMachineImplementation_ s)) 0).

(** ** Asynchronous exceptions

    [sendWithSOAPReply] gives the printed reply.  The last [throw] is outside
    of a handler, so it ends the process: [Undefined] here. *)
Variable sendWithSOAPReply : string -> string -> result string.
Definition asyncCommand (isPauseException isStopException : bool) : string :=
  if isStopException then "AsyncStopException" else if isPauseException then "AsyncPauseException" else "AsyncError".
Definition sendAsyncExceptionToGateway (errorMessage : string) (isPauseException isStopException : bool) : M World unit :=
  setm (fun f => setErrorMessage f errorMessage true) ≫= fun _ =>
  reply ← lift (sendWithSOAPReply (asyncCommand isPauseException isStopException) errorMessage);
  match String.index 0 "Fault" reply with Some _ => throw Undefined | None => mret tt end.
End Supervisor.
Arguments Supervisor W C : clear implicits.

(** ** The supervisor of front ends

    src/otsdaq/CoreSupervisors/FESupervisor.cc: artdaq's metric manager (a
    global; whether there is one and it is initialised) is set up when the
    supervisor configures and shut down when it halts.  The waiting for macros
    that still run in threads is left out. *)
Section FESupervisor.
Context {W C P : Type}.
Variable implementation : nat -> fsmCall -> M (V * (option bool * W)) unit.
Variables (what rethrown : exn -> string) (ss_header : string) (convertEnvironmentVariables : text -> result text)
  (getActiveGroupName : C -> text) (getActiveGroupKey : C -> TableGroupKey.TableGroupKey) (getActiveVersions : C -> list (text * TableVersion.TableVersion))
  (loadTableGroup : text -> TableGroupKey.TableGroupKey -> list (text * TableVersion.TableVersion) -> list (text * TableVersion.TableVersion) -> M C unit).
(** What is read from the configuration, and artdaq's functions. *)
Variables (supervisorNode : C -> result unit) (metricsBlock preamble : C -> result text)
  (makePset : text -> result P) (initialize : P -> text -> result bool) (shutdown : result unit).
Abbreviation SupFE := (Supervisor (option bool * W) C).
Abbreviation WorldFE := (FiniteStateMachine Fn * RunControl SupFE)%type.
Definition setMetricMan (g : option bool -> option bool) : M WorldFE unit :=
  setsup (fun s : SupFE => set_fsms s (theStateMachineImplementation_ s) (g (world s).1, (world s).2)).
Definition fromConfiguration {A} (g : C -> result A) : M WorldFE A := r ← getsup (fun s : SupFE => g (theConfigurationManager_ s)); lift r.
(** An error is ignored if there are no metrics in the configuration. *)
Definition initializeMetrics : M WorldFE unit :=
  fromConfiguration supervisorNode ≫= fun _ =>
  '(metric_string, metricStringSetup) ← catch_all (t ← fromConfiguration metricsBlock; mret (t, true)) (fun _ => mret ([], false));
  setMetricMan (fun metricMan => match metricMan with None => Some false | _ => metricMan end) ≫= fun _ =>
  metricNamePreamble ← fromConfiguration preamble;
  metric_pset ← lift (makePset metric_string);
  catch_all (initialized ← lift (initialize metric_pset metricNamePreamble); setMetricMan (fun _ => Some initialized))
    (fun e => if metricStringSetup : bool then throw e else mret tt).
Definition metricsError (e : exn) : M WorldFE unit :=
  fail (match e with
        | RuntimeError => ss_header +:+ "Error loading metrics in FESupervisor::transitionConfiguring(): " +:+ what e +:+ newline
        | _ => ss_header +:+ "Error loading metrics in FESupervisor::transitionConfiguring()" +:+ newline +:+ rethrown e
        end).
Definition transitionConfiguringFE : M WorldFE unit :=
  configureInit what rethrown ss_header convertEnvironmentVariables getActiveGroupName getActiveGroupKey getActiveVersions loadTableGroup false ≫= fun _ =>
  catch_all initializeMetrics metricsError ≫= fun _ =>
  transitionConfiguringFSMs implementation what rethrown ss_header.
Definition shutdownMetrics : M WorldFE unit :=
  metricMan ← getsup (fun s : SupFE => (world s).1);
  (if bool_decide (metricMan = Some true) then lift shutdown else mret tt) ≫= fun _ =>
  setMetricMan (fun _ => None).
Definition transitionHaltingFE : M WorldFE unit :=
  transitionHalting implementation what rethrown ss_header ≫= fun _ =>
  catch_all shutdownMetrics (fun e => fail (ss_header +:+ "Error shutting down metrics in FESupervisor::transitionHalting()" +:+ newline +:+ rethrown e)).
(** The two functions are overridden, the others are those of
    [CoreSupervisorBase]. *)
Definition callFE (fn : Fn) (event : string) : M WorldFE unit :=
  match fn with
  | RunControlStateMachine.transitionConfiguring => transitionConfiguringFE
  | RunControlStateMachine.transitionHalting => transitionHaltingFE
  | _ => callCore implementation what rethrown ss_header convertEnvironmentVariables getActiveGroupName getActiveGroupKey getActiveVersions loadTableGroup fn event
  end.
End FESupervisor.

(** ** A supervisor of front ends

    The [FESupervisor], with its own functions for configuring and halting; its
    one implementation is the manager of the front ends; [n name] is the last
    iteration the front end [name] asks for (FEVInterfacesManager.v). *)
Module FE := FEVInterfacesManager.
Section FrontEnds.
Variable n : text -> nat.
Context {C P : Type} (feGroup : result (list text * list (@FE.FEChild (list (text * FE.feCall * Z))))).
Abbreviation Log := (list (text * FE.feCall * Z)).
Abbreviation Manager := (@FE.Manager Log).
Abbreviation Sup := (Supervisor (option bool * Manager) C).
Abbreviation World := (FiniteStateMachine Fn * RunControl Sup)%type.
Definition transitionOf (call : fsmCall) : FE.transition :=
  match call with
  | FsmConfigure => FE.TConfigure | FsmHalt => FE.THalt | FsmPause => FE.TPause | FsmResume => FE.TResume
  | FsmStart runNumber => FE.TStart (txt runNumber) | FsmStop => FE.TStop
  end.
Definition frontEnds (i : nat) (call : fsmCall) : M (V * (option bool * Manager)) unit := fun '(v, (metricMan, m)) =>
  let '(r, m') := FE.run n feGroup (transitionOf call) (FE.set_self m v) in (r, (FE.self m', (metricMan, m'))).
Definition manager (s : Sup) : Manager := (world s).2.

Variables (clock : RunControl Sup -> Z) (what rethrown : exn -> string) (ss_header : string) (convertEnvironmentVariables : text -> result text)
  (getActiveGroupName : C -> text) (getActiveGroupKey : C -> TableGroupKey.TableGroupKey) (getActiveVersions : C -> list (text * TableVersion.TableVersion))
  (loadTableGroup : text -> TableGroupKey.TableGroupKey -> list (text * TableVersion.TableVersion) -> list (text * TableVersion.TableVersion) -> M C unit)
  (supervisorNode : C -> result unit) (metricsBlock preamble : C -> result text)
  (makePset : text -> result P) (initialize : P -> text -> result bool) (shutdown : result unit).
Abbreviation call := (callFE frontEnds what rethrown ss_header convertEnvironmentVariables getActiveGroupName getActiveGroupKey getActiveVersions loadTableGroup
  supervisorNode metricsBlock preamble makePset initialize shutdown).
Definition handler (m : Message) : M World string := runControlMessageHandler call clock what ss_header m.

(** *** A pass *)

(** The implementation as the supervisor prepares it. *)
Definition prepared (c : RunControl Sup) (v : V) : V :=
  VStateMachine.set_work (VStateMachine.set_indices v (subsystemIterationIndex_ c) (iterationIndex_ c) (subIterationIndex_ c) (minReadyForEventGenerationStartIteration_ c)) false false false.
(** The supervisor before the pass of iteration [j]. *)
Record supReady (ss : Z) (j : nat) (v : V) (s : Sup) : Prop := {
  ready_fsm : theStateMachineImplementation_ s = [v];
  ready_later : (0 < j)%nat -> stateMachinesIterationDone_ s = [false] /\ lastSubsystemIterationIndexSeen_ s = ss /\ subIterationWorkStateMachineIndex_ s = NONE }.
(** After it; [b] is whether a front end asks for another. *)
Record supRan (ss : Z) (b : bool) (m' : Manager) (s' : Sup) : Prop := {
  ran_fsm : theStateMachineImplementation_ s' = [FE.self m'];
  ran_manager : manager s' = m';
  ran_done : stateMachinesIterationDone_ s' = [negb b];
  ran_last : lastSubsystemIterationIndexSeen_ s' = ss;
  ran_sub : subIterationWorkStateMachineIndex_ s' = NONE }.
Definition asksIteration (b : bool) (v : V) : Prop := VStateMachine.subIterationWorkFlag_ v = false /\ VStateMachine.iterationWorkFlag_ v = b /\ VStateMachine.subsystemIterationWorkFlag_ v = false.

(** The functions of the one implementation. *)
Lemma onImplementation_one v f (c : RunControl Sup) g r v' m' : theStateMachineImplementation_ (application c) = [v] -> g (v, world (application c)) = (r, (v', m')) ->
  onImplementation 0 g (f, c) = (r, (f, set_application c (set_fsms (application c) [v'] m'))).
Proof. intros Hfsm Hg. unfold onImplementation. cbn [snd]. rewrite Hfsm. change ([v] !! 0%nat) with (Some v). cbv iota. by rewrite Hg. Qed.
Lemma inRange_one v f (c : RunControl Sup) : theStateMachineImplementation_ (application c) = [v] -> inRange 0 (f, c) = (Ok tt, (f, c)).
Proof. intros Hfsm. unfold inRange, mbind, M_bind, getsup, getc, gets. cbn. by rewrite Hfsm. Qed.
Lemma isDone_one b f (c : RunControl Sup) : stateMachinesIterationDone_ (application c) = [b] -> isDone 0 (f, c) = (Ok b, (f, c)).
Proof. intros Hd. unfold isDone, mbind, M_bind, getsup, getc, gets. cbn. by rewrite Hd. Qed.
Lemma setDone_one b b' f (c : RunControl Sup) : stateMachinesIterationDone_ (application c) = [b] ->
  let s := application c in setDone 0 b' (f, c) = (Ok tt, (f, set_application c (set_done s [b'] (stateMachinesWaitingSubsystemIteration_ s) (lastSubsystemIterationIndexSeen_ s)))).
Proof. intros Hd. unfold setDone, mbind, M_bind, getsup, getc, gets. cbn. by rewrite Hd. Qed.
(** The loop body for the one implementation, which is not done. *)
Lemma body_one v t (f : FiniteStateMachine Fn) (c : RunControl Sup) m' b : theStateMachineImplementation_ (application c) = [v] ->
  stateMachinesIterationDone_ (application c) = [false] -> subIterationWorkStateMachineIndex_ (application c) = NONE ->
  subsystemIterationWorkFlag_ c = false -> iterationWorkFlag_ c = false -> subIterationWorkFlag_ c = false ->
  FE.run n feGroup (transitionOf t) (FE.set_self (manager (application c)) (prepared c v)) = (Ok tt, m') -> asksIteration b (FE.self m') ->
  exists s', eachImplementation frontEnds t [0%nat] (f, c) = (Ok tt, (f, set_application (set_work c false b false) s')) /\
    supRan (lastSubsystemIterationIndexSeen_ (application c)) b m' s'.
Proof.
  intros Hfsm Hdone Hsub F1 F2 F3 Hrun (B1 & B2 & B3). cbn [eachImplementation].
  rewrite (bind_ok (getsup _) _ (f, c) NONE (f, c)) by (unfold getsup, getc, gets; cbn; by rewrite Hsub). rewrite Z.eqb_refl. cbn [negb andb].
  rewrite (bind_ok _ _ _ _ _ (isDone_one false f c Hdone)).
  set (c1 := set_application c (set_fsms (application c) [prepared c v] (world (application c)))).
  rewrite (bind_ok (preStateMachineExecution 0) _ (f, c) tt (f, c1)).
  2:{ unfold preStateMachineExecution. rewrite (bind_ok _ _ _ _ _ (inRange_one v f c Hfsm)), (bind_ok (getc id) _ (f, c) c (f, c)) by done.
      by apply (onImplementation_one v). }
  set (c2 := set_application c (set_fsms (application c) [FE.self m'] ((world (application c)).1, m'))).
  rewrite (bind_ok (onImplementation 0 _) _ (f, c1) tt (f, c2)).
  2:{ apply (onImplementation_one (prepared c v) f c1 (frontEnds 0 t) (Ok tt) (FE.self m') ((world (application c)).1, m')); [done|]. unfold frontEnds, c1. cbn [world application set_application set_fsms].
      unfold manager in Hrun. destruct (world (application c)) as [mm m]. cbn [snd] in Hrun. by rewrite Hrun. }
  assert (Hpost : exists s', postStateMachineExecution 0 (f, c2) = (Ok tt, (f, set_application (set_work c false b false) s')) /\
    supRan (lastSubsystemIterationIndexSeen_ (application c)) b m' s').
  { unfold postStateMachineExecution. rewrite (bind_ok _ _ _ _ _ (inRange_one (FE.self m') f c2 eq_refl)).
    rewrite (bind_ok (getsup _) _ (f, c2) [FE.self m'] (f, c2)), (bind_ok (lift _) _ (f, c2) (FE.self m') (f, c2)) by done.
    rewrite B1, B2, B3. assert (Hd : stateMachinesIterationDone_ (application c2) = [false]) by done. destruct b.
    - rewrite (bind_ok _ _ _ _ _ (setDone_one false false f c2 Hd)). eexists. split; [unfold mbind, M_bind; cbn; unfold set_work, set_application; cbn; by rewrite F1, F3|by split].
    - rewrite (setDone_one false true f c2 Hd). eexists. split; [unfold set_work, set_application; cbn; by rewrite F1, F2, F3|by split]. }
  destruct Hpost as (s' & E & Hs'). exists s'. by rewrite (bind_ok _ _ _ _ _ E).
Qed.
Lemma passFSMs_one ss j v t f (c : RunControl Sup) m' b : FE.singleSubsystem ss ->
  subsystemIterationIndex_ c = ss -> iterationIndex_ c = Z.of_nat j -> subIterationIndex_ c = 0 ->
  supReady ss j v (application c) ->
  FE.run n feGroup (transitionOf t) (FE.set_self (manager (application c)) (prepared c v)) = (Ok tt, m') -> asksIteration b (FE.self m') ->
  exists s', passFSMs frontEnds t (f, c) = (Ok tt, (f, set_application (set_work c false b false) s')) /\ supRan ss b m' s'.
Proof.
  intros Hss H1 H2 H3 [Hfsm Hlater] Hrun Hb. unfold passFSMs.
  assert (Hpre : exists s1, preStateMachineExecutionLoop (f, c) = (Ok tt, (f, set_application (set_work c false false false) s1)) /\
    theStateMachineImplementation_ s1 = [v] /\ stateMachinesIterationDone_ s1 = [false] /\ subIterationWorkStateMachineIndex_ s1 = NONE /\
    lastSubsystemIterationIndexSeen_ s1 = ss /\ world s1 = world (application c)).
  { unfold preStateMachineExecutionLoop, mbind, M_bind. cbn. unfold isFirstIteration, isStandaloneSubsystem. cbn. rewrite H1, H2, H3. destruct j as [|j].
    - destruct Hss as [-> | ->]; cbn; (eexists; split; [done|]; cbn; rewrite Hfsm; done).
    - destruct (Hlater ltac:(lia)) as (Hd & Hl & Hsub). rewrite FE.succ_eqb, andb_false_r. cbn. rewrite Hl, Z.eqb_refl. cbn. eexists. split; [done|]. done. }
  destruct Hpre as (s1 & E & S1 & S2 & S3 & S4 & S5). rewrite (bind_ok _ _ _ _ _ E).
  set (c1 := set_application (set_work c false false false) s1). rewrite (bind_ok (getsup _) _ (f, c1) 1%nat (f, c1)) by (unfold getsup, getc, gets; cbn; by rewrite S1).
  destruct (body_one v t f c1 m' b) as (s' & E' & [R1 R2 R3 R4 R5]); try done; [unfold manager in *; cbn; by rewrite S5|].
  exists s'. split; [exact E'|]. split; try done. by rewrite R4.
Qed.
(** *** A transition *)

(** The metrics can be set up with what the configuration says. *)
Record metricsStart : Prop := {
  ms_node manager : supervisorNode manager = Ok tt;
  ms_block manager : metricsBlock manager <> Throw Undefined;
  ms_preamble manager : is_ok (preamble manager) = true;
  ms_pset block : is_ok (makePset block) = true;
  ms_initialize pset name : is_ok (initialize pset name) = true }.
(** What the message of a transition carries; that the group can be activated
    and the metrics be set up, or shut down. *)
Definition activates (m0 : Message) : Prop := exists name keyText key mergeIn override,
  getValue m0 "ConfigurationTableGroupName" = Ok name /\ getValue m0 "ConfigurationTableGroupKey" = Ok keyText /\
  TableGroupKey.of_string (txt keyText) = Some key /\
  is_ok (getValue m0 "ActiveStateMachineName") = true /\ is_ok (getValue m0 "ActiveStateMachineWindowName") = true /\ is_ok (getValue m0 "ActiveStateMachineRunAlias") = true /\
  tablesOf convertEnvironmentVariables (txt (default "" (parameters m0 !! "SubsystemCommonList"))) = Ok mergeIn /\
  tablesOf convertEnvironmentVariables (txt (default "" (parameters m0 !! "SubsystemCommonOverrideList"))) = Ok override /\
  forall manager, exists manager', loadTableGroup (txt name) key mergeIn override manager = (Ok tt, manager').
Definition carries (t : fsmCall) (m0 : Message) : Prop :=
  match t with FsmConfigure => is_ok (getValue m0 "ConfigurationAlias") = true /\ activates m0 /\ metricsStart
  | FsmHalt => shutdown = Ok tt | FsmStart runNumber => getValue m0 "RunNumber" = Ok runNumber | _ => True end.
Definition fnOf (t : fsmCall) : Fn :=
  match t with
  | FsmConfigure => RunControlStateMachine.transitionConfiguring | FsmHalt => RunControlStateMachine.transitionHalting
  | FsmPause => RunControlStateMachine.transitionPausing | FsmResume => RunControlStateMachine.transitionResuming
  | FsmStart _ => RunControlStateMachine.transitionStarting | FsmStop => RunControlStateMachine.transitionStopping
  end.
(** Only the configuration and the metric manager have changed. *)
Record reconfigured (s s' : Sup) : Prop := {
  rc_fsms : theStateMachineImplementation_ s' = theStateMachineImplementation_ s;
  rc_manager : manager s' = manager s;
  rc_done : stateMachinesIterationDone_ s' = stateMachinesIterationDone_ s;
  rc_last : lastSubsystemIterationIndexSeen_ s' = lastSubsystemIterationIndexSeen_ s;
  rc_sub : subIterationWorkStateMachineIndex_ s' = subIterationWorkStateMachineIndex_ s }.
Lemma reconfigured_refl s : reconfigured s s.
Proof. done. Qed.
Lemma reconfigured_trans s1 s2 s3 : reconfigured s1 s2 -> reconfigured s2 s3 -> reconfigured s1 s3.
Proof. intros [] []. split; congruence. Qed.
Lemma parameter_run f (c : RunControl Sup) m0 name value : theMessage_ f = Some m0 -> getValue m0 name = Ok value -> parameter name (f, c) = (Ok value, (f, c)).
Proof. intros Hm Hv. unfold parameter. rewrite (bind_ok (getm _) _ (f, c) (Some m0) (f, c)) by (unfold getm, getf, gets; cbn; by rewrite Hm). by rewrite Hv. Qed.
Lemma fillVariable_run f (c : RunControl Sup) m0 name parameterName : theMessage_ f = Some m0 -> is_ok (getValue m0 parameterName) = true ->
  exists s', fillVariable name parameterName (f, c) = (Ok tt, (f, set_application c s')) /\ reconfigured (application c) s'.
Proof.
  intros Hm Hv. destruct (getValue m0 parameterName) as [value|] eqn:E; [|done]. unfold fillVariable. rewrite (bind_ok _ _ _ _ _ (parameter_run f c m0 _ _ Hm E)).
  eexists. by split.
Qed.
Lemma commonTables_run f (c : RunControl Sup) m0 name tables : theMessage_ f = Some m0 ->
  tablesOf convertEnvironmentVariables (txt (default "" (parameters m0 !! name))) = Ok tables -> commonTables convertEnvironmentVariables name (f, c) = (Ok tables, (f, c)).
Proof.
  intros Hm Ht. unfold commonTables. rewrite (bind_ok _ _ (f, c) (default "" (parameters m0 !! name)) (f, c)); [by unfold lift; rewrite Ht|].
  unfold catch_if, parameter. rewrite (bind_ok (getm _) _ (f, c) (Some m0) (f, c)) by (unfold getm, getf, gets; cbn; by rewrite Hm).
  unfold lift, getValue. by destruct (parameters m0 !! name).
Qed.
Lemma set_application_again (c : RunControl Sup) s s' : set_application (set_application c s) s' = set_application c s'.
Proof. done. Qed.
Lemma configureInit_run f (c : RunControl Sup) m0 : theMessage_ f = Some m0 -> activates m0 ->
  exists s', configureInit what rethrown ss_header convertEnvironmentVariables getActiveGroupName getActiveGroupKey getActiveVersions loadTableGroup false (f, c) = (Ok tt, (f, set_application c s')) /\
    reconfigured (application c) s'.
Proof.
  intros Hm (name & keyText & key & mergeIn & override & P1 & P2 & P3 & P4 & P5 & P6 & P7 & P8 & P9). unfold configureInit.
  rewrite (bind_ok (getc _) _ (f, c) (isFirstIteration c) (f, c)) by done. destruct (isFirstIteration c); cbn [negb].
  2:{ exists (application c). split; [by destruct c|]. by apply reconfigured_refl. }
  rewrite (bind_ok _ _ _ _ _ (parameter_run f c m0 _ _ Hm P1)), (bind_ok _ _ _ _ _ (parameter_run f c m0 _ _ Hm P2)). rewrite (bind_ok (lift _) _ (f, c) key (f, c)) by by rewrite P3.
  destruct (fillVariable_run f c m0 "name" "ActiveStateMachineName" Hm P4) as (s1 & E1 & R1). rewrite (bind_ok _ _ _ _ _ E1).
  destruct (fillVariable_run f (set_application c s1) m0 "windowName" "ActiveStateMachineWindowName" Hm P5) as (s2 & E2 & R2). rewrite (bind_ok _ _ _ _ _ E2).
  destruct (fillVariable_run f (set_application c s2) m0 "runAlias" "ActiveStateMachineRunAlias" Hm P6) as (s3 & E3 & R3). rewrite set_application_again in E3. rewrite (bind_ok _ _ _ _ _ E3).
  assert (R : reconfigured (application c) s3) by (eapply reconfigured_trans, reconfigured_trans; eauto).
  rewrite (bind_ok _ _ _ _ _ (commonTables_run f (set_application (set_application c s2) s3) m0 _ _ Hm P7)), (bind_ok _ _ _ _ _ (commonTables_run f (set_application (set_application c s2) s3) m0 _ _ Hm P8)).
  rewrite set_application_again. rewrite (bind_ok (getsup _) _ (f, set_application c s3) (maySkip getActiveGroupName getActiveGroupKey getActiveVersions false (txt name) key mergeIn override s3) (f, set_application c s3)) by done.
  destruct (maySkip _ _ _ _ _ _ _ _ _); [by exists s3|]. unfold activate. destruct (P9 (theConfigurationManager_ s3)) as [manager' E].
  set (s4 := set_configuration s3 (lastActivationHadMergeOrOverride_ s3) (propertiesAreSetup_ s3) (systemVariables_ s3) manager').
  rewrite (bind_ok _ _ _ tt (f, set_application c s4)).
  - eexists. split; [done|]. eapply reconfigured_trans; [exact R|]. done.
  - unfold catch_if, onConfigurationManager. cbn [snd set_application application]. by rewrite E.
Qed.
(** Around the metric manager. *)
Lemma setMetricMan_run g f (c : RunControl Sup) :
  exists s', setMetricMan (W := Manager) (C := C) g (f, c) = (Ok tt, (f, set_application c s')) /\ reconfigured (application c) s'.
Proof. eexists. by split. Qed.
Lemma fromConfiguration_run {A} (g : C -> result A) f (c : RunControl Sup) : fromConfiguration (W := Manager) g (f, c) = (g (theConfigurationManager_ (application c)), (f, c)).
Proof. done. Qed.
Lemma initializeMetrics_run f (c : RunControl Sup) : metricsStart ->
  exists s', initializeMetrics supervisorNode metricsBlock preamble makePset initialize (f, c) = (Ok tt, (f, set_application c s')) /\ reconfigured (application c) s'.
Proof.
  intros [Hnode Hblk Hpre Hpset Hinit]. unfold initializeMetrics.
  rewrite (bind_ok (fromConfiguration _) _ (f, c) tt (f, c)) by by rewrite fromConfiguration_run, Hnode.
  assert (Hblock : exists block, catch_all (t ← fromConfiguration (W := Manager) metricsBlock; mret (t, true)) (fun _ => mret ([], false)) (f, c) = (Ok block, (f, c))).
  { unfold catch_if, mbind, M_bind. rewrite fromConfiguration_run. specialize (Hblk (theConfigurationManager_ (application c))).
    destruct (metricsBlock _) as [t|[]]; first [by destruct Hblk|by eexists]. }
  destruct Hblock as ([t b] & Eb). rewrite (bind_ok _ _ _ _ _ Eb).
  destruct (setMetricMan_run (fun metricMan => match metricMan with None => Some false | _ => metricMan end) f c) as (s1 & E1 & R1). rewrite (bind_ok _ _ _ _ _ E1).
  specialize (Hpre (theConfigurationManager_ s1)). destruct (preamble (theConfigurationManager_ s1)) as [name|] eqn:Ep; [|done].
  rewrite (bind_ok (fromConfiguration preamble) _ _ name (f, set_application c s1)) by by rewrite fromConfiguration_run, <- Ep.
  specialize (Hpset t). destruct (makePset t) as [pset|]; [|done]. rewrite (bind_ok (lift _) _ _ pset (f, set_application c s1)) by done.
  specialize (Hinit pset name). destruct (initialize pset name) as [i|]; [|done].
  destruct (setMetricMan_run (fun _ => Some i) f (set_application c s1)) as (s2 & E2 & R2).
  exists s2. split; [|by eapply reconfigured_trans]. unfold catch_if. rewrite (bind_ok (lift _) _ _ i (f, set_application c s1)) by done. by rewrite E2.
Qed.
Lemma shutdownMetrics_run f (c : RunControl Sup) : shutdown = Ok tt ->
  exists s', shutdownMetrics shutdown (f, c) = (Ok tt, (f, set_application c s')) /\ reconfigured (application c) s'.
Proof.
  intros Hs. unfold shutdownMetrics. rewrite (bind_ok (getsup _) _ (f, c) (world (application c)).1 (f, c)) by done.
  rewrite (bind_ok _ _ (f, c) tt (f, c)) by (case_bool_decide; [by rewrite Hs|done]). apply setMetricMan_run.
Qed.
Lemma transition_run ss j v t event f (c : RunControl Sup) m0 m' b : FE.singleSubsystem ss ->
  subsystemIterationIndex_ c = ss -> iterationIndex_ c = Z.of_nat j -> subIterationIndex_ c = 0 -> supReady ss j v (application c) ->
  theMessage_ f = Some m0 -> carries t m0 ->
  FE.run n feGroup (transitionOf t) (FE.set_self (manager (application c)) (prepared c v)) = (Ok tt, m') -> asksIteration b (FE.self m') ->
  exists s', call (fnOf t) event (f, c) = (Ok tt, (f, set_application (set_work c false b false) s')) /\ supRan ss b m' s'.
Proof.
  intros Hss H1 H2 H3 Hr Hm Hc Hrun Hb.
  assert (Hpass : forall s0, reconfigured (application c) s0 -> exists s', passFSMs frontEnds t (f, set_application c s0) = (Ok tt, (f, set_application (set_work c false b false) s')) /\ supRan ss b m' s').
  { intros s0 [R1 R2 R3 R4 R5]. destruct Hr as [Q1 Q2].
    destruct (passFSMs_one ss j v t f (set_application c s0) m' b) as (s' & E & Hs'); try done;
      [split; cbn [application set_application]; [by rewrite R1|by rewrite R3, R4, R5]|cbn [application set_application]; by rewrite R2|].
    exists s'. by rewrite E. }
  assert (Hplain : exists s', passFSMs frontEnds t (f, c) = (Ok tt, (f, set_application (set_work c false b false) s')) /\ supRan ss b m' s').
  { assert (Hc0 : set_application c (application c) = c) by by destruct c. destruct (Hpass _ (reconfigured_refl _)) as (s' & E & Hs'). rewrite Hc0 in E. by exists s'. }
  destruct t; cbn [fnOf callFE callCore carries] in *.
  1:{ destruct Hc as (_ & Ha & Hmetrics). destruct (configureInit_run f c m0 Hm Ha) as (s0 & E0 & R0).
      destruct (initializeMetrics_run f (set_application c s0) Hmetrics) as (s1 & E1 & R1). destruct (Hpass s1) as (s' & E & Hs'); [by eapply reconfigured_trans|]. exists s'.
      unfold transitionConfiguringFE. rewrite (bind_ok _ _ _ _ _ E0), (bind_ok (catch_all _ _) _ _ tt (f, set_application c s1)) by (unfold catch_if; by rewrite E1).
      unfold transitionConfiguringFSMs, catch_if. by rewrite E. }
  all: destruct Hplain as (s' & E & Hs').
  1:{ destruct (shutdownMetrics_run f (set_application (set_work c false b false) s') Hc) as (s1 & E1 & [R1 R2 R3 R4 R5]). exists s1. unfold transitionHaltingFE.
      rewrite (bind_ok _ _ (f, c) tt (f, set_application (set_work c false b false) s')) by (unfold transitionHalting, catch_if; by rewrite E).
      split; [unfold catch_if; by rewrite E1|]. cbn [application set_application] in *. destruct Hs'. split; congruence. }
  all: exists s'; split; [|done].
  - unfold transitionPausing, catch_if. by rewrite E.
  - unfold transitionResuming, catch_if. by rewrite E.
  - unfold transitionStarting. rewrite (bind_ok _ _ _ _ _ (parameter_run f c m0 _ _ Hm Hc)). unfold catch_if. by rewrite E.
  - unfold transitionStopping, catch_if. by rewrite E.
Qed.
(** *** The machine *)

Definition commandOf (t : fsmCall) : string :=
  match t with
  | FsmConfigure => CONFIGURE_TRANSITION_NAME | FsmHalt => HALT_TRANSITION_NAME | FsmPause => PAUSE_TRANSITION_NAME
  | FsmResume => RESUME_TRANSITION_NAME | FsmStart _ => START_TRANSITION_NAME | FsmStop => STOP_TRANSITION_NAME
  end.
(** The command, in a state that has the transition, is taken as it is. *)
Record isTaken (t : fsmCall) (s : State) (r : Row) (m : Message) : Prop := {
  taken_fn : func r = fnOf t;
  taken_to : to r ∈ legalStates /\ to r <> FAILED_STATE;
  taken_as : convertInTry (stateName s) (convertBeforeTry (commandOf t) (stateName s) m) = (commandOf t, m);
  taken_init : commandOf t <> INIT_TRANSITION_NAME;
  taken_drives : drivesMachine (commandOf t) = true;
  taken_noinit : String.eqb (commandOf t) CONFIGURE_TRANSITION_NAME && String.eqb (stateName s) INITIAL_STATE_NAME = false }.
Lemma taken_here t s r m : s ∈ legalStates -> nextRow s (commandOf t) = Some r -> isTaken t s r m.
Proof.
  intros Hs Hr. assert (Hto : to r ∈ legalStates) by by eapply nextRow_legal. unfold legalStates in Hs. rewrite !elem_of_cons, elem_of_nil in Hs.
  destruct Hs as [->|[->|[->|[->|[->|[->|[->|[]]]]]]]]; destruct t; vm_compute in Hr; try done; injection Hr as <-; split; try done; (split; [exact Hto|done]).
Qed.
Lemma plain_stateActions : forall s, s ∈ legalStates -> match stateActions_ (machine "") !! s with Some fn => call fn = (fun _ => mret tt) | None => True end.
Proof. intros s Hs. unfold legalStates in Hs. rewrite !elem_of_cons, elem_of_nil in Hs. destruct Hs as [->|[->|[->|[->|[->|[->|[->|[]]]]]]]]; vm_compute; done. Qed.
Lemma tables_rows f : tables f = tables (machine "") -> (forall s t, entry (stateTransitionTable_ f) s t = to <$> nextRow s t) /\ (forall s t, entry (transitionActions_ f) s t = func <$> nextRow s t) /\ stateActions_ f = stateActions_ (machine "").
Proof.
  intros Ht. split_and!; [|intros s t..|]; [intros s t; rewrite (tables_transitions f (machine "") Ht); apply machine_next| |].
  - assert (transitionActions_ f = transitionActions_ (machine "")) as -> by (unfold tables in Ht; congruence). apply machine_action.
  - unfold tables in Ht. congruence.
Qed.
Lemma exec_fired t r m f (c c' : RunControl Sup) : atRest (f, c) -> nextRow (currentState_ f) (commandOf t) = Some r ->
  call (fnOf t) (commandOf t) (departing f (commandOf t) (Some m), c) = (Ok tt, (departing f (commandOf t) (Some m), c')) ->
  exists f', exec call clock (commandOf t) (Some m) (f, c) = (Ok true, (f', c')) /\ atRest (f', c') /\ currentState_ f' = to r /\ theMessage_ f' = Some m /\ stateMachineName_ f' = stateMachineName_ f.
Proof.
  intros [Ht Hi Hs] Hr Hcall. cbn [fst snd] in *. destruct (tables_rows f Ht) as (T1 & T2 & T3). destruct (taken_here t _ r m Hs Hr) as [Hfn [Hto Hnf] _ _ _ _].
  set (f1 := departing f (commandOf t) (Some m)) in *.
  assert (Hfire : fireEvent call (commandOf t) (f1, c) = (Ok tt, (set_current f1 (to r), c'))).
  { unfold fireEvent, getf, gets, setf, modify, catch_if, mret, M_ret. unfold mbind, M_bind. cbv beta. cbn [fst snd].
    change (stateTransitionTable_ f1) with (stateTransitionTable_ f). change (currentState_ f1) with (currentState_ f).
    rewrite (T1 (currentState_ f) (commandOf t)). rewrite Hr. cbn [fmap option_fmap option_map fst snd].
    change (transitionActions_ f1) with (transitionActions_ f). change (currentState_ f1) with (currentState_ f). rewrite (T2 (currentState_ f) (commandOf t)), Hr. cbn [fmap option_fmap option_map callIf]. rewrite Hfn, Hcall. cbv beta iota. cbn [fst snd].
    change (stateActions_ (set_current f1 (to r))) with (stateActions_ f). rewrite T3. pose proof (plain_stateActions (to r) Hto) as Hp.
    destruct (stateActions_ (machine "") !! to r) as [fn|]; cbn [callIf]; [by rewrite Hp|done]. }
  eexists. split.
  - unfold exec, execTransition. replace (String.eqb (commandOf t) "fail") with false by by destruct t.
    unfold execNormal, getf, gets, setf, modify, catch_if, mret, M_ret, stampEntranceTime, modify. unfold mbind, M_bind. cbn [fst snd]. rewrite Hi. cbv beta iota. cbn [fst snd].
    assert (getTransitions f (currentState_ f) !! commandOf t = Some (to r)) as Hg.
    { specialize (T1 (currentState_ f) (commandOf t)). rewrite Hr in T1. unfold getTransitions, entry in *. destruct (stateTransitionTable_ f !! currentState_ f); done. }
    cbn [currentState_ set_progress getTransitions stateTransitionTable_] in *. unfold getTransitions in *. cbn [stateTransitionTable_ set_progress]. rewrite Hg. cbv beta iota.
    match goal with |- context [fireEvent call _ ?w] => change w with (f1, c) end. rewrite Hfire. reflexivity.
  - split; [|done]. split; done.
Qed.
(** *** The front ends *)

(** The manager before the pass of iteration [j], but for its own indices. *)
Record managed (ss : Z) (j : nat) (names : list text) (m : Manager) : Prop := {
  managed_names : FE.theFENamesByPriority_ m = names;
  managed_nodup : NoDup names;
  managed_fes : forall name, name ∈ names -> exists v, FE.theFEInterfaces_ m !! name = Some v;
  managed_later : (0 < j)%nat -> FE.lastSubsystemIterationIndexSeen_ m = ss /\ FE.subIterationWorkStateMachineIndex_ m = FE.NONE /\
    forall name, name ∈ names -> FE.stateMachinesIterationDone_ m !! name = Some (n name <? j)%nat }.
(** What the first pass starts from: configuring creates the front ends. *)
Definition settledIn (t : fsmCall) (j : nat) (m0 m : Manager) : Prop :=
  match t with FsmConfigure => if (j =? 0)%nat then forall v, FE.createInterfaces feGroup (FE.set_self m0 v) = (Ok tt, FE.set_self m v) else m0 = m | _ => m0 = m end.
Definition someoneAsks (j : nat) (names : list text) : bool := existsb (fun name => (j <? n name)%nat) names.
Lemma frontEnds_run t ss j names m0 m v : FE.singleSubsystem ss -> settledIn t j m0 m -> managed ss j names m ->
  VStateMachine.subsystemIterationIndex_ v = ss -> VStateMachine.iterationIndex_ v = Z.of_nat j -> VStateMachine.subIterationIndex_ v = 0 ->
  exists m', FE.run n feGroup (transitionOf t) (FE.set_self m0 v) = (Ok tt, m') /\ asksIteration (someoneAsks j names) (FE.self m') /\
    FE.world m' = (FE.world m ++ FE.iteration n (transitionOf t) names j)%list /\ (someoneAsks j names = true -> managed ss (S j) names m').
Proof.
  intros Hss H0 [Hn Hnd Hf Hl] V1 V2 V3. subst names.
  destruct (FE.run_run n feGroup (transitionOf t) ss j (FE.set_self m0 v) (FE.set_self m v) Hss) as (m1 & m' & E & [E1 E2 E3 E4 E5 E6 E7] & Hself & Hworld & Hsame).
  - destruct t; cbn [settledIn transitionOf] in *; try by rewrite H0. destruct (j =? 0)%nat; [apply H0|by rewrite H0].
  - by split.
  - exists m'. split; [exact E|]. split; [by rewrite Hself, E1|]. split; [by rewrite Hworld, E7|].
    intros Hb. rewrite (Hsame Hb). split; [done|done| |].
    + intros name Hin. destruct (Hf name Hin) as [x Hx]. apply elem_of_dom_2 in Hx. cbn in E3. rewrite <- E3 in Hx. by apply elem_of_dom in Hx.
    + intros _. by split_and!.
Qed.

(** *** A message *)

(** The message of iteration [j]: not a retransmission, and read with these
    indices. *)
Record isMessage (t : fsmCall) (ss : Z) (j : nat) (m : Message) : Prop := {
  message_command : command m = commandOf t;
  message_new : retransmittedCommand m = false;
  message_indices : exists minReady, forall w : World, readIndices m w = (Ok tt, (w.1, set_indices w.2 ss (Z.of_nat j) 0 minReady)) }.
(** The supervisor before the message of iteration [j] of the transition [t]
    from the state [s0], begun with the message [m0]. *)
Record expects (t : fsmCall) (ss : Z) (s0 : State) (r : Row) (m0 : Message) (j : nat) (w : World) : Prop := {
  expects_rest : atRest w;
  expects_table : stateTransitionFunctionTable_ w.2 = functionTable;
  expects_sup : exists v, supReady ss j v (application w.2);
  expects_state : match j with
                  | O => currentState_ w.1 = s0 /\ nameFits (commandOf t) w.1
                  | S _ => currentState_ w.1 = to r /\ lastIterationState_ w.2 = s0 /\ lastIterationCommand_ w.2 = commandOf t /\ theMessage_ w.1 = Some m0
                  end }.
Lemma clear_exact command st (w : World) : exists e a p s, (clearFlags command st;; clearMessageUnlessAsync command) w = (Ok tt, (set_error w.1 e, set_async w.2 a p s)).
Proof.
  unfold clearFlags, clearMessageUnlessAsync. destruct w as [[] []].
  destruct (_ && String.eqb st FAILED_STATE_NAME), (String.eqb command RESUME_TRANSITION_NAME), (String.eqb command START_TRANSITION_NAME);
    unfold clearErrorMessage, setm, setf, setc, getc, gets, modify, mret, M_ret, mbind, M_bind; cbn;
    try (match goal with |- context [if ?b then _ else _] => destruct b end); by eexists _, _, _, _.
Qed.
(** What the reply says. *)
Definition replyOf (t : fsmCall) (b : bool) : string := commandOf t +:+ (if b then "Iterate" else "Done").
Definition runsTo (t : fsmCall) (ss : Z) (j : nat) (b : bool) (Post : Manager -> Prop) (m0 : Manager) : Prop :=
  forall v, VStateMachine.subsystemIterationIndex_ v = ss -> VStateMachine.iterationIndex_ v = Z.of_nat j -> VStateMachine.subIterationIndex_ v = 0 ->
    exists m', FE.run n feGroup (transitionOf t) (FE.set_self m0 v) = (Ok tt, m') /\ asksIteration b (FE.self m') /\ Post m'.
(** The supervisor after the pass. *)
Definition leaves (ss : Z) (b : bool) (Post : Manager -> Prop) (s' : Sup) : Prop :=
  Post (manager s') /\ theStateMachineImplementation_ s' = [FE.self (manager s')] /\ stateMachinesIterationDone_ s' = [negb b] /\
  lastSubsystemIterationIndexSeen_ s' = ss /\ subIterationWorkStateMachineIndex_ s' = NONE.
Lemma call_runs t ss j b Post m0 event f (c : RunControl Sup) : FE.singleSubsystem ss ->
  subsystemIterationIndex_ c = ss -> iterationIndex_ c = Z.of_nat j -> subIterationIndex_ c = 0 -> (exists v, supReady ss j v (application c)) ->
  theMessage_ f = Some m0 -> carries t m0 -> runsTo t ss j b Post (manager (application c)) ->
  exists s', call (fnOf t) event (f, c) = (Ok tt, (f, set_application (set_work c false b false) s')) /\ leaves ss b Post s'.
Proof.
  intros Hss H1 H2 H3 [v Hr] Hm Hc Hrun. destruct (Hrun (prepared c v) H1 H2 H3) as (m' & E & Hb & Hpost).
  destruct (transition_run ss j v t event f c m0 m' b Hss H1 H2 H3 Hr Hm Hc E Hb) as (s' & Ec & [R1 R2 R3 R4 R5]).
  exists s'. split; [exact Ec|]. subst m'. by split_and!.
Qed.
(** What the handler keeps of the supervisor. *)
Definition kept (c : RunControl Sup) := (stateTransitionFunctionTable_ c, application c, lastIterationState_ c, lastIterationCommand_ c, subsystemIterationIndex_ c, iterationIndex_ c, subIterationIndex_ c, subsystemIterationWorkFlag_ c, iterationWorkFlag_ c, subIterationWorkFlag_ c).
Lemma record_run command m (w : World) : exists c', recordConfiguredGroup command m w = (Ok tt, (w.1, c')) /\ kept c' = kept w.2.
Proof. unfold recordConfiguredGroup, getm, getf, gets, setc, modify, mbind, M_bind. cbn [fst snd]. eexists. split; [done|]. by repeat case_match. Qed.
Lemma work_reply t b (c : RunControl Sup) : subIterationWorkFlag_ c = false -> iterationWorkFlag_ c = b -> subsystemIterationWorkFlag_ c = false ->
  workResult (commandOf t) (commandOf t +:+ "Done") c = replyOf t b.
Proof. intros H1 H2 H3. unfold workResult. rewrite H1, H2, H3. by destruct b. Qed.
Lemma atRest_any f (c c' : RunControl Sup) : atRest (f, c) -> atRest (f, c').
Proof. intros [H1 H2 H3]. by split. Qed.
Lemma atRest_error f (c c' : RunControl Sup) e : atRest (f, c) -> atRest (set_error f e, c').
Proof. intros [H1 H2 H3]. by split. Qed.
(** The first pass drives the machine. *)
Lemma body_first t ss b Post r m f (c : RunControl Sup) : FE.singleSubsystem ss -> atRest (f, c) -> nextRow (currentState_ f) (commandOf t) = Some r ->
  subsystemIterationIndex_ c = ss -> iterationIndex_ c = 0 -> subIterationIndex_ c = 0 -> (exists v, supReady ss 0 v (application c)) ->
  carries t m -> runsTo t ss 0 b Post (manager (application c)) ->
  exists f' c' s', transitionBody call clock (commandOf t) (stateName (currentState_ f)) (commandOf t +:+ "Done") m (f, c) = (Ok (replyOf t b), (f', c')) /\
    atRest (f', c') /\ currentState_ f' = to r /\ theMessage_ f' = Some m /\ leaves ss b Post s' /\
    kept c' = (stateTransitionFunctionTable_ c, s', currentState_ f, commandOf t, ss, 0, 0, false, b, false).
Proof.
  intros Hss Hrest Hr H1 H2 H3 Hsup Hc Hrun. destruct (taken_here t _ r m (rest_state _ Hrest) Hr) as [_ _ _ _ _ Hni]. cbn [fst] in Hni.
  unfold transitionBody. rewrite Hni. rewrite (bind_ok _ _ (f, c) tt (f, c)) by done.
  set (c1 := set_work c false false false). rewrite (bind_ok _ _ (f, c) tt (f, c1)) by done.
  rewrite (bind_ok (getc _) _ (f, c1) true (f, c1)).
  2:{ unfold getc, gets. cbn. unfold isFirstIteration, isStandaloneSubsystem. cbn. rewrite H1, H2, H3. by destruct Hss as [-> | ->]. }
  set (c2 := set_last c1 (currentState_ f) (commandOf t) (lastIterationResult_ c1)).
  assert (Hfirst : exists c3, (if String.eqb (commandOf t) CONFIGURE_TRANSITION_NAME then alias ← lift (getValue m "ConfigurationAlias");
      setc (fun c => set_groups c (attemptedGroup m alias) (configuredGroup_ c)) else mret tt) (f, c2) = (Ok tt, (f, c3)) /\ kept c3 = kept c2).
  { destruct t; cbn [commandOf]; try (by exists c2). cbn [carries] in Hc. destruct Hc as [Ha _]. destruct (getValue m "ConfigurationAlias") as [alias|]; [|done]. eexists. split; [reflexivity|done]. }
  destruct Hfirst as (c3 & E3 & K3). injection K3 as K1 K2 K3 K4 K5 K6 K7 K8 K9 K10.
  destruct (call_runs t ss 0 b Post m (commandOf t) (departing f (commandOf t) (Some m)) c3) as (s' & Ec & Hl); try done; [by rewrite K5|by rewrite K6|by rewrite K7|by rewrite K2|by rewrite K2|].
  destruct (exec_fired t r m f c3 _ (atRest_any f c c3 Hrest) Hr Ec) as (f' & Ee & [A1 A2 A3] & Hcur & Hmsg & _).
  rewrite (bind_ok (firstTransition _ _ _ _) _ (f, c1) tt (f', set_application (set_work c3 false b false) s')).
  2:{ unfold firstTransition. rewrite (bind_ok (getm _) _ (f, c1) (currentState_ f) (f, c1)) by done. rewrite (bind_ok (setc _) _ (f, c1) tt (f, c2)) by done.
      rewrite (bind_ok _ _ _ _ _ E3). by rewrite (bind_ok _ _ _ _ _ Ee). }
  destruct (record_run (commandOf t) m (f', set_application (set_work c3 false b false) s')) as (c5 & E5 & K'). rewrite (bind_ok _ _ _ _ _ E5).
  unfold kept in K'. cbn in K'. injection K' as L1 L2 L3 L4 L5 L6 L7 L8 L9 L10.
  exists f', c5, s'. split; [unfold getc, gets; cbn [fst snd]; by rewrite (work_reply t b)|]. split; [by split|]. split_and!; try done; try apply Hl.
  unfold kept. rewrite L1, L2, L3, L4, L5, L6, L7, L8, L9, L10, K1, K3, K4, K5, K6, K7. cbn. by rewrite H1, H2, H3.
Qed.
(** A later pass calls the function bound to the transition. *)
Lemma body_later t ss s0 r j b Post m0 m f (c : RunControl Sup) : FE.singleSubsystem ss -> atRest (f, c) -> s0 ∈ legalStates -> nextRow s0 (commandOf t) = Some r ->
  subsystemIterationIndex_ c = ss -> iterationIndex_ c = Z.of_nat (S j) -> subIterationIndex_ c = 0 -> (exists v, supReady ss (S j) v (application c)) ->
  theMessage_ f = Some m0 -> carries t m0 -> runsTo t ss (S j) b Post (manager (application c)) ->
  stateTransitionFunctionTable_ c = functionTable -> lastIterationState_ c = s0 -> lastIterationCommand_ c = commandOf t ->
  exists c' s', transitionBody call clock (commandOf t) (stateName s0) (commandOf t +:+ "Done") m (f, c) = (Ok (replyOf t b), (f, c')) /\
    leaves ss b Post s' /\ kept c' = (functionTable, s', s0, commandOf t, ss, Z.of_nat (S j), 0, false, b, false).
Proof.
  intros Hss Hrest Hs0 Hr H1 H2 H3 Hsup Hm Hc Hrun T1 T2 T3. destruct (taken_here t _ r m Hs0 Hr) as [Hfn _ _ _ _ Hni].
  unfold transitionBody. rewrite Hni. rewrite (bind_ok _ _ (f, c) tt (f, c)) by done.
  set (c1 := set_work c false false false). rewrite (bind_ok _ _ (f, c) tt (f, c1)) by done.
  rewrite (bind_ok (getc _) _ (f, c1) false (f, c1)).
  2:{ unfold getc, gets. cbn. unfold isFirstIteration. cbn. rewrite H2, FE.succ_eqb. by rewrite andb_false_r. }
  destruct (call_runs t ss (S j) b Post m0 (commandOf t) f c1) as (s' & Ec & Hl); try done.
  rewrite (bind_ok (iterate _ _) _ (f, c1) tt (f, set_application (set_work c1 false b false) s')).
  2:{ unfold iterate. rewrite (bind_ok (getc _) _ (f, c1) (Some (fnOf t)) (f, c1)); [done|]. unfold getc, gets. cbn. by rewrite T1, T2, T3, functionTable_next, Hr, <- Hfn. }
  destruct (record_run (commandOf t) m (f, set_application (set_work c1 false b false) s')) as (c5 & E5 & K'). rewrite (bind_ok _ _ _ _ _ E5).
  unfold kept in K'. cbn in K'. injection K' as L1 L2 L3 L4 L5 L6 L7 L8 L9 L10.
  exists c5, s'. split; [unfold getc, gets; cbn [fst snd]; by rewrite (work_reply t b)|]. split; [apply Hl|].
  unfold kept. rewrite L1, L2, L3, L4, L5, L6, L7, L8, L9, L10. by rewrite T1, T2, T3, H1, H2, H3.
Qed.
Lemma handle_body t s r m f (c : RunControl Sup) : isTaken t s r m -> exists e a p q,
  handleTransition call clock what ss_header (commandOf t) (stateName s) m (f, c) =
  (result ← catch_all (transitionBody call clock (commandOf t) (stateName s) (commandOf t +:+ "Done") m) (transitionFailed what ss_header (commandOf t)); finish (commandOf t) result) (set_error f e, set_async c a p q).
Proof.
  intros [_ _ Hc Hi _ _]. apply String.eqb_neq in Hi. unfold handleTransition. rewrite Hi. cbn [andb].
  assert (Hb : convertBeforeTry (commandOf t) (stateName s) m = (commandOf t, m)) by (unfold convertBeforeTry; by rewrite Hi). rewrite Hb in Hc |- *.
  destruct (clear_exact (commandOf t) (stateName s) (f, c)) as (e & a & p & q & E). exists e, a, p, q. cbn [fst snd] in E.
  unfold mbind, M_bind in E. unfold mbind at 1, M_bind at 1. destruct (clearFlags (commandOf t) (stateName s) (f, c)) as [[[]|x] w0]; [|done].
  rewrite (bind_ok _ _ _ _ _ E). by rewrite Hc.
Qed.
(** The end of the handler: the machine is not failed. *)
Lemma finish_state t b f (c : RunControl Sup) r : atRest (f, c) -> currentState_ f = to r -> to r ∈ legalStates -> to r <> FAILED_STATE ->
  exists c', finish (commandOf t) (replyOf t b) (f, c) = (Ok (replyOf t b), (f, c')) /\ kept c' = kept c.
Proof.
  intros Hrest Hcur Hto Hne. destruct (finish_run (commandOf t) (replyOf t b) (f, c)) as (p & E). cbv zeta in E. cbn [fst snd] in E.
  assert (Hname : String.eqb (getCurrentStateName f) FAILED_STATE_NAME = false).
  { rewrite (atRest_current _ Hrest : getCurrentStateName f = _). cbn [fst]. rewrite Hcur. unfold legalStates in Hto. rewrite !elem_of_cons, elem_of_nil in Hto.
    destruct Hto as [E'|[E'|[E'|[E'|[E'|[E'|[E'|[]]]]]]]]; rewrite E'; (reflexivity || by destruct Hne). }
  rewrite Hname in E. eexists. by split.
Qed.
Lemma start_later t s0 j f (c : RunControl Sup) : atRest (f, c) -> s0 ∈ legalStates -> iterationIndex_ c = Z.of_nat (S j) -> lastIterationState_ c = s0 ->
  exists c', startIteration (commandOf t) (f, c) = (Ok (stateName s0), (f, c')) /\ kept c' = kept c.
Proof.
  intros Hrest Hs0 Hi Hl. unfold startIteration. set (c1 := set_lastIndices c (subsystemIterationIndex_ c) (iterationIndex_ c) (subIterationIndex_ c)). rewrite (bind_ok (setc _) _ (f, c) tt (f, c1)) by done.
  rewrite (bind_ok (getc _) _ (f, c1) false (f, c1)) by (unfold getc, gets; cbn; unfold isFirstIteration; cbn; by rewrite Hi, FE.succ_eqb, andb_false_r).
  rewrite (bind_ok _ _ (f, c1) (stateName s0) (f, c1)).
  2:{ rewrite (bind_ok (getc _) _ (f, c1) s0 (f, c1)) by (unfold getc, gets; cbn; by rewrite Hl). unfold getm, getf, gets. cbn [fst]. by rewrite (atRest_name _ s0 Hrest Hs0 : getStateName f s0 = _). }
  eexists. split; [reflexivity|done].
Qed.
Lemma handler_step t ss s0 r m0 m j b Post (w : World) : FE.singleSubsystem ss -> s0 ∈ legalStates -> nextRow s0 (commandOf t) = Some r ->
  expects t ss s0 r m0 j w -> isMessage t ss j m -> (j = 0%nat -> m = m0) -> carries t m0 -> runsTo t ss j b Post (manager (application w.2)) ->
  exists w', handler m w = (Ok (replyOf t b), w') /\ Post (manager (application w'.2)) /\ currentState_ w'.1 = to r /\ atRest w' /\ (b = true -> expects t ss s0 r m0 (S j) w').
Proof.
  intros Hss Hs0 Hr [Hrest Htab Hsup Hstate] [Mc Mn [mr Mi]] Hm Hc Hrun. destruct w as [f c]. cbn [fst snd] in *.
  destruct (taken_here t s0 r m Hs0 Hr) as [Hfn [Hto Hne] Hta Hti Htd Htn]. set (c1 := set_indices c ss (Z.of_nat j) 0 mr).
  unfold handler, runControlMessageHandler. rewrite (bind_ok _ _ _ _ _ (Mi (f, c))). cbn [fst snd]. fold c1. rewrite (bind_ok (getc _) _ (f, c1) false (f, c1)) by (unfold getc, gets; by rewrite Mn).
  cbv iota. rewrite Mc.
  (* the body of the try *)
  assert (Hbody : exists c2, startIteration (commandOf t) (f, c1) = (Ok (stateName s0), (f, c2)) /\
    forall e a p q, exists f3 c3 s', transitionBody call clock (commandOf t) (stateName s0) (commandOf t +:+ "Done") m (set_error f e, set_async c2 a p q) = (Ok (replyOf t b), (f3, c3)) /\
      atRest (f3, c3) /\ currentState_ f3 = to r /\ theMessage_ f3 = Some m0 /\ leaves ss b Post s' /\ kept c3 = (functionTable, s', s0, commandOf t, ss, Z.of_nat j, 0, false, b, false)).
  { destruct j as [|j].
    - destruct Hstate as [<- Hfit]. specialize (Hm eq_refl) as ->. assert (Hfirst : isFirstIteration c1 = true) by (unfold isFirstIteration, isStandaloneSubsystem; cbn; by destruct Hss as [-> | ->]).
      destruct (startIteration_first (commandOf t) (f, c1) Hfit Hfirst) as (p & E). cbn [fst snd] in E. rewrite (atRest_current _ Hrest : getCurrentStateName f = _) in E. eexists. split; [exact E|].
      intros e a p0 q. set (c2 := set_async _ a p0 q).
      destruct (body_first t ss b Post r m0 (set_error f e) c2) as (f3 & c3 & s' & E3 & A & B & D & L & K); try done; [by eapply atRest_error|].
      exists f3, c3, s'. split; [exact E3|]. split_and!; try done; try apply L. rewrite K. change (stateTransitionFunctionTable_ c2) with (stateTransitionFunctionTable_ c). by rewrite Htab.
    - destruct Hstate as (Hcur & Hls & Hlc & Hmsg). destruct (start_later t s0 j f c1) as (c2 & E & K); try done; [by eapply atRest_any|]. exists c2. split; [exact E|].
      intros e a p q. unfold kept in K. cbn in K. injection K as K1 K2 K3 K4 K5 K6 K7 K8 K9 K10.
      destruct (body_later t ss s0 r j b Post m0 m (set_error f e) (set_async c2 a p q)) as (c3 & s' & E3 & L & K); try done.
      1:{ by eapply atRest_error. } 1,2: change (application (set_async c2 a p q)) with (application c2); by rewrite K2.
      1:{ by rewrite <- Htab, <- K1. } 1:{ by rewrite <- Hls, <- K3. } 1:{ by rewrite <- Hlc, <- K4. }
      exists (set_error f e), c3, s'. split; [exact E3|]. split_and!; try done; try apply L. by eapply atRest_error. }
  destruct Hbody as (c2 & E2 & Hb). rewrite (bind_ok _ _ _ _ _ E2). rewrite dispatch_transition by done.
  destruct (handle_body t s0 r m f c2) as (e & a & p & q & ->); [by apply taken_here|]. destruct (Hb e a p q) as (f3 & c3 & s' & E3 & A & B & D & L & K).
  rewrite (bind_ok _ _ (set_error f e, set_async c2 a p q) (replyOf t b) (f3, c3)) by (unfold catch_if; by rewrite E3).
  destruct (finish_state t b f3 c3 r A B Hto Hne) as (c4 & E4 & K4). rewrite E4. exists (f3, c4). split; [done|]. rewrite K in K4. unfold kept in K4. injection K4 as L1 L2 L3 L4 L5 L6 L7 L8 L9 L10.
  cbn [fst snd]. destruct L as (P1 & P2 & P3 & P4 & P5). split; [by rewrite L2|]. split; [done|]. split; [by eapply atRest_any|]. intros ->. split; cbn [fst snd]; try done; [by eapply atRest_any|].
  exists (FE.self (manager s')). rewrite L2. split; [done|]. intros _. by split_and!.
Qed.
(** *** A transition from its first message to its last *)

(** Whoever sends the messages sends the next one as long as the reply asks
    for an iteration. *)
Fixpoint converse (fuel : nat) (t : fsmCall) (message : nat -> Message) (j : nat) : M World string :=
  match fuel with
  | O => mret ""
  | S fuel =>
      reply ← handler (message j);
      if String.eqb reply (commandOf t +:+ "Iterate") then converse fuel t message (S j) else mret reply
  end.
Definition log (w : World) : Log := FE.world (manager (application w.2)).
Lemma replyOf_again t b : String.eqb (replyOf t b) (commandOf t +:+ "Iterate") = b.
Proof. by destruct t, b. Qed.
Lemma someoneAsks_bound N j names : Forall (fun name => (n name <= N)%nat) names -> (N <= j)%nat -> someoneAsks j names = false.
Proof.
  intros HN Hj. unfold someoneAsks. induction HN as [|name names Hn _ IH]; [done|]. cbn [existsb]. rewrite IH. destruct (Nat.ltb_spec j (n name)); [lia|done].
Qed.
Lemma converse_run t ss s0 r names (message : nat -> Message) N : FE.singleSubsystem ss -> s0 ∈ legalStates -> nextRow s0 (commandOf t) = Some r ->
  carries t (message 0%nat) -> (forall j, (j <= N)%nat -> isMessage t ss j (message j)) -> Forall (fun name => (n name <= N)%nat) names ->
  forall k j w m, (j + k = N)%nat -> expects t ss s0 r (message 0%nat) j w -> settledIn t j (manager (application w.2)) m -> managed ss j names m ->
  exists w', converse (S k) t message j w = (Ok (commandOf t +:+ "Done"), w') /\ currentState_ w'.1 = to r /\ atRest w' /\
    log w' = (FE.world m ++ concat (map (FE.iteration n (transitionOf t) names) (seq j (S k))))%list.
Proof.
  intros Hss Hs0 Hr Hc Hmsg HN. induction k as [|k IH]; intros j w m Hjk Hex Hset Hman.
  all: destruct (handler_step t ss s0 r (message 0%nat) (message j) j (someoneAsks j names)
    (fun m' => FE.world m' = (FE.world m ++ FE.iteration n (transitionOf t) names j)%list /\ (someoneAsks j names = true -> managed ss (S j) names m')) w)
    as (w' & E & [Hw Hm'] & Hcur & Hrest & Hnext); try done; [apply Hmsg; lia|by intros ->|intros v V1 V2 V3; destruct (frontEnds_run t ss j names _ m v Hss Hset Hman V1 V2 V3) as (m' & ? & ? & ? & ?); by exists m'|].
  all: cbn [converse]; rewrite (bind_ok _ _ _ _ _ E), replyOf_again.
  - rewrite (someoneAsks_bound N) in * by (done || lia). exists w'. split; [done|]. split_and!; try done. unfold log. rewrite Hw. cbn. by rewrite app_nil_r.
  - destruct (someoneAsks j names) eqn:Ex.
    + destruct (IH (S j) w' (manager (application w'.2))) as (w2 & E2 & Hcur2 & Hrest2 & Hlog); [lia|by apply Hnext|by destruct t|by apply Hm'|].
      exists w2. split; [done|]. split_and!; try done. rewrite Hlog, Hw. change (seq j (S (S k))) with (j :: seq (S j) (S k)). cbn [map concat]. by rewrite <- app_assoc.
    + exists w'. split; [done|]. split_and!; try done. unfold log. rewrite Hw. f_equal.
      change (seq j (S (S k))) with (j :: seq (S j) (S k)). generalize (FE.seq_ge (S k) (S j)). generalize (seq (S j) (S k)) as l. cbn [map concat].
      induction l as [|j' l IHl]; intros Hl; [cbn; by rewrite app_nil_r|]. apply Forall_cons in Hl as [Hj Hl]. cbn [map concat].
      rewrite (FE.iteration_over n (transitionOf t) names j Ex j' Hj). by apply IHl.
Qed.
(** C22: A transition of a supervisor of front ends reaches them: from the first
    message to the reply that says done, run control, the [FESupervisor], with
    its own functions for configuring and halting, and the manager of the front
    ends together call each front end once in each iteration it asks for, by
    priority and with the iteration's index, ask for another iteration as long
    as one of them does, and end in the state the diagram gives for the command.
    The front ends ask for iterations only and none throws ([managed]); the
    messages say what the transition needs, the group can be loaded and the
    metrics be set up or shut down ([carries]). *)
Theorem transition_reaches_front_ends t ss r names message N w m : FE.singleSubsystem ss -> nextRow (currentState_ w.1) (commandOf t) = Some r ->
  atRest w -> stateTransitionFunctionTable_ w.2 = functionTable -> nameFits (commandOf t) w.1 -> length (theStateMachineImplementation_ (application w.2)) = 1%nat ->
  carries t (message 0%nat) -> (forall j, (j <= N)%nat -> isMessage t ss j (message j)) ->
  settledIn t 0 (manager (application w.2)) m -> managed ss 0 names m -> Forall (fun name => (n name <= N)%nat) names ->
  exists w', converse (S N) t message 0 w = (Ok (commandOf t +:+ "Done"), w') /\ currentState_ w'.1 = to r /\ atRest w' /\
    log w' = (FE.world m ++ concat (map (FE.iteration n (transitionOf t) names) (seq 0 (S N))))%list.
Proof.
  intros Hss Hr Hrest Htab Hfit Himpl Hc Hmsg Hset Hman HN. eapply converse_run; try done; [apply Hrest|].
  split; try done. destruct (theStateMachineImplementation_ (application w.2)) as [|v []] eqn:E; [done| |done]. exists v. split; [done|lia].
Qed.
End FrontEnds.

(** ** Runs *)

(** A supervisor of the front ends [A], which asks for an iteration, and [B]. *)
Definition sample : Supervisor (option bool * @FE.Manager (list (text * FE.feCall * Z))) unit :=
  mkSupervisor [VStateMachine.construct (txt "fes")] [] ∅ 0 0 NONE false true ∅ tt (None, FE.nobody []).
(** Metrics that can be set up. *)
Definition noMetrics (_ : unit) : result text := Ok (txt "metrics: {}").
Definition inState {E} (s : State) (e : E) : FiniteStateMachine Fn * RunControl E :=
  (set_current (machine "FE") s, mkRC (ProgressBar.construct ∅) false false false 0 0 0 false false false 0 "X"%char "" "" "" "" 0 0 0 functionTable [] e).
Lemma set_current_tables (f : FiniteStateMachine Fn) s : tables (set_current f s) = tables f /\ inTransition_ (set_current f s) = inTransition_ f /\ currentState_ (set_current f s) = s.
Proof. done. Qed.
Lemma inState_atRest {E} s (e : E) : existsb (Ascii.eqb s) legalStates = true -> atRest (inState s e).
Proof.
  intros Hs. destruct (set_current_tables (machine "FE") s) as (H1 & H2 & H3). split; unfold inState; cbn [fst].
  - rewrite H1. apply tables_machine.
  - rewrite H2. apply machine_idle.
  - rewrite H3. apply existsb_exists in Hs as (s' & Hin & ->%Ascii.eqb_eq). by apply list_elem_of_In.
Qed.
Definition configureMessage (j : nat) : Message :=
  mkMessage "Configure" (list_to_map ([("ConfigurationAlias", "alias"); ("ConfigurationTableGroupName", "group"); ("ConfigurationTableGroupKey", "5");
    ("ActiveStateMachineName", "fsm"); ("ActiveStateMachineWindowName", "window"); ("ActiveStateMachineRunAlias", "run");
    ("subsystemIterationIndex", "-1")] ++ match j with O => [] | S _ => [("iterationIndex", "1")] end)).
Lemma transition_reaches_front_ends_witness : exists w',
  converse FE.onceMore (FE.made FE.names2) (fun _ => 0) (fun _ => "error") (fun _ => "") "" Ok (fun _ => []) (fun _ => TableGroupKey.default) (fun _ => []) (fun _ _ _ _ u => (Ok tt, u))
    (fun _ => Ok tt) noMetrics (fun _ => Ok []) Ok (fun _ _ => Ok true) (Ok tt)
    2 FsmConfigure configureMessage 0 (inState "H"%char sample) = (Ok "ConfigureDone", w') /\ currentState_ w'.1 = "C"%char /\
  log w' = [(FE.A, FE.FEConfigure, 0); (FE.B, FE.FEConfigure, 0); (FE.B, FE.ConfigureSlowControls, 0); (FE.B, FE.StartSlowControlsWorkLoop, 0);
            (FE.A, FE.FEConfigure, 1); (FE.A, FE.ConfigureSlowControls, 1); (FE.A, FE.StartSlowControlsWorkLoop, 1)].
Proof.
  destruct (transition_reaches_front_ends FE.onceMore (FE.made FE.names2) (fun _ => 0) (fun _ => "error") (fun _ => "") "" Ok (fun _ => []) (fun _ => TableGroupKey.default) (fun _ => []) (fun _ _ _ _ u => (Ok tt, u))
    (fun _ => Ok tt) noMetrics (fun _ => Ok []) Ok (fun _ _ => Ok true) (Ok tt)
    FsmConfigure VStateMachine.SUBSYSTEM_ITERATION_STANDALONE (mkRow "H"%char "C"%char CONFIGURE_TRANSITION_NAME "Configuring" (Some "ConfigurationAlias") RunControlStateMachine.transitionConfiguring)
    FE.names2 configureMessage 1 (inState "H"%char sample) (FE.created FE.names2 [])) as (w' & E & Hcur & _ & Hlog).
  - by right.
  - by vm_compute.
  - by apply inState_atRest.
  - done.
  - eexists. by vm_compute.
  - done.
  - split; [by vm_compute|]. split; [|by split]. eexists "group", "5", _, [], []. split_and!; try (by vm_compute). intros []. by exists tt.
  - intros [|[|j]] Hj; [| |lia]; (split; [done|done|]; exists 0; intros w; by vm_compute).
  - intros v. by vm_compute.
  - split; [by vm_compute|by apply (bool_decide_unpack _); vm_compute| |lia].
    intros name Hin. unfold FE.names2 in Hin. assert (name = FE.A \/ name = FE.B) as [-> | ->] by (unfold FE.A, FE.B; set_solver); by eexists; vm_compute.
  - repeat constructor; vm_compute; lia.
  - exists w'. split; [exact E|]. split; [exact Hcur|]. rewrite Hlog. by vm_compute.
Defined.
(** *** Implementations that ask for what a script says *)

Definition scriptedFSM (script : nat -> Z -> Z -> FE.request) (i : nat) (c : fsmCall) : M (V * list (nat * fsmCall * Z * Z)) unit := fun '(v, log) =>
  (Ok tt, (FE.asks (script i (VStateMachine.iterationIndex_ v) (VStateMachine.subIterationIndex_ v)) v, log ++ [(i, c, VStateMachine.iterationIndex_ v, VStateMachine.subIterationIndex_ v)])%list).
Definition two : Supervisor (list (nat * fsmCall * Z * Z)) unit :=
  mkSupervisor [VStateMachine.construct (txt "fes"); VStateMachine.construct (txt "data")] [] ∅ 0 0 NONE false true ∅ tt [].
(** Passes with the indices given: the log, and the work that is left. *)
Definition passes {W C} (implementation : nat -> fsmCall -> M (V * W) unit) (call : fsmCall) (indices : list (Z * Z * Z)) (s : Supervisor W C) : W * (bool * bool * bool) :=
  let w := fold_left (fun w '(ss, it, sub) => (passFSMs implementation call (w.1, set_indices w.2 ss it sub 0)).2) indices (inState "R"%char s) in
  (world (application w.2), (subsystemIterationWorkFlag_ w.2, iterationWorkFlag_ w.2, subIterationWorkFlag_ w.2)).
(** After a sub-iteration of the first implementation the second is never
    called, though no work is left: the index is not cleared when the first is
    done. *)
Lemma others_never_called :
  passes (scriptedFSM (fun i it sub => if (i =? 0)%nat && (sub =? 0) then FE.AskSubIteration else FE.AskNothing)) FsmPause [(0, 0, 0); (0, 0, 1)] two
  = ([(0%nat, FsmPause, 0, 0); (0%nat, FsmPause, 0, 1)], (false, false, false)).
Proof. by vm_compute. Qed.
(** In standalone mode the index never changes, so a request for a
    subsystem-iteration is answered with SubsystemIterate and then forgotten. *)
Lemma standalone_request_lost :
  passes (scriptedFSM (fun _ it _ => if it <? 5 then FE.AskSubsystemIteration else FE.AskNothing)) FsmResume [(u32 (-1), 0, 0); (u32 (-1), 1, 0); (u32 (-1), 2, 0)] two
  = ([(0%nat, FsmResume, 0, 0); (1%nat, FsmResume, 0, 0)], (false, false, false)).
Proof. by vm_compute. Qed.
(** A supervisor that is told to fail while it runs takes any transition of
    its state, and none of its functions looks at the failure: it aborts and is
    Halted, not Failed. *)
Definition quietly : nat -> fsmCall -> M (V * list (nat * fsmCall * Z * Z)) unit := scriptedFSM (fun _ _ _ => FE.AskNothing).
Definition callTwo := callCore quietly (fun _ => "error") (fun _ => "") "" Ok (fun _ : unit => []) (fun _ => TableGroupKey.default) (fun _ => []) (fun _ _ _ _ u => (Ok tt, u)).
Lemma told_to_fail_halts :
  let w := (runControlMessageHandler callTwo (fun _ => 0) (fun _ => "error") "" (mkMessage "AsyncError" {["ErrorMessage" := "lost data"]}) (inState "R"%char two)).2 in
  detachedThreads w.2 = ["fail"] /\ (w ← runDetached callTwo (fun _ => 0) 0 w; Some (currentState_ w.1)) = Some "H"%char.
Proof. by vm_compute. Qed.
(** A reply that has the text Fault ends the process: the exception is thrown
    again where there is none. *)
Lemma fault_ends_process w : (sendAsyncExceptionToGateway (W := unit) (C := unit) (fun _ _ => Ok "Fault: no such command") "lost data" false false w).1 = Throw Undefined.
Proof. done. Qed.
(** The metric manager is gone while a front end still has halting
    iterations. *)
Definition halting (n : Z) : nat -> fsmCall -> M (V * (option bool * unit)) unit := fun _ _ '(v, w) =>
  (Ok tt, (if VStateMachine.iterationIndex_ v <? n then VStateMachine.indicateIterationWork v else v, w)).
Lemma metrics_gone_while_halting :
  let s := mkSupervisor [VStateMachine.construct (txt "fes")] [] ∅ 0 0 NONE false true ∅ tt (Some true, tt) in
  let w := (transitionHaltingFE (halting 1) (fun _ => "error") (fun _ => "") "" (Ok tt) (inState "R"%char s)).2 in
  (world (application w.2)).1 = None /\ iterationWorkFlag_ w.2 = true.
Proof. by vm_compute. Qed.
End CoreSupervisorBase.
