(* ===== verification/SupervisorInfo.v ===== *)
(** * What is known of the supervisors

    src/otsdaq/SupervisorInfo/: SupervisorInfo.cc keeps the status of one
    supervisor, of its subapps and the history of the free disk space,
    AllSupervisorInfo.cc all of them, by class, and the order in which a command
    of run control is sent to them.

    Descriptors of the XDAQ context and the applications of the context table are
    arguments; a reference to an entry of [allSupervisorInfo_] is its id (the
    entries stay where they are: [init] runs once, in the constructor).  Members
    that the constructor leaves unset are [None], and reading them is undefined. *)

From S2P Require Import Prelude OrderedMap CText StringExpansion.

#[export] Instance Z_ordered : Ordered Z := Z.ltb.
#[export] Instance Z_laws : OrderedLaws Z.
Proof. split; unfold key_lt, Z_ordered; intros; lia. Qed.

Module SupervisorInfo.
#[local] Open Scope string_scope.
#[local] Open Scope list_scope.
#[local] Open Scope Z_scope.

Definition APP_STATUS_UNKNOWN : string := "UNKNOWN".
Definition APP_STATUS_NOT_MONITORED : string := "Not Monitored".

Abbreviation space := (list (Z * Z)).
Record SubappInfo := mkSubapp {
  subName : string; subStatus : string; subProgress : Z; subId : Z; subDetail : string;
  subLastStatusTime : Z; subLastStatusChangeTime : Z;
  subUrl : string; subParentUrl : string; subClassName : string;
  subLogSpace : space; subDataSpace : space; subVarSpace : space }.
#[export] Instance SubappInfo_eq_dec : EqDecision SubappInfo.
Proof. solve_decision. Defined.
Definition newSubapp : SubappInfo := mkSubapp "" "" 0 0 "" 0 0 "" "" "" [] [] [].

Record SupervisorInfo := mkInfo {
  name_ : string; contextName_ : string; id_ : Z; class_ : string; contextURL_ : string;
  hostname_ : string; URN_ : string; URL_ : string;
  status_ : string; progress_ : option Z; detail_ : string;
  lastStatusTime_ : option Z; lastStatusChangeTime_ : Z;
  subapps_ : gmap string SubappInfo;
  availableLogSpaceKB_ : space; availableDataSpaceKB_ : space; availableVarSpaceKB_ : space }.
Implicit Types s : SupervisorInfo.

(** ** Free disk space over the last hour *)

Definition at_ (d : space) (i : nat) : result (Z * Z) := from_option Ok (Throw OutOfRange) (d !! i).
(** [operator[]] of a deque. *)
Definition el (d : space) (i : nat) : result (Z * Z) := from_option Ok (Throw Undefined) (d !! i).
Fixpoint fillTo (n : nat) (x : Z * Z) (d : space) : space :=
  match n with O => d | S n => if (length d <? 10)%nat then fillTo n x (d ++ [x]) else d end.
Definition keepInterval (now : Z) (i : nat) (d : space) : result space :=
  old ← el d (i + 1);
  let w := Z.shiftl 1 (Z.of_nat (i / 2)) * 225 in
  d ← (if w + w / 2 <? now - old.1 then
         a ← el d i; b ← el d (i - 1); Ok (<[i := b]> (<[(i + 1)%nat := a]> d))
       else Ok d);
  x ← el d (i + 1); y ← el d i;
  if x.1 =? y.1 then
    z ← el d (i - 1);
    if negb (y.1 =? z.1) then Ok (<[i := z]> d) else Ok d
  else Ok d.
(** The loop from 8 down by 2 stops where the deque ends. *)
Fixpoint keepIntervals (now : Z) (indices : list nat) (d : space) : result space :=
  match indices with
  | [] => Ok d
  | i :: indices => if (i + 1 <? length d)%nat then keepInterval now i d ≫= keepIntervals now indices else Ok d
  end.
Definition dropOne (now : Z) (d : space) : result space :=
  if (2 <? length d)%nat then
    second ← at_ d 2;
    let d := if 225 <? now - second.1 then delete 2%nat d else delete 1%nat d in
    if (length d <? 10)%nat then first ← at_ d 1; Ok (fillTo 10 first d) else Ok d
  else Ok d.
Definition emplaceAvailableSpace (now kb : Z) (d : space) : result space :=
  if 0 <? kb then dropOne now ((now, kb) :: d) ≫= keepIntervals now [8; 6; 4; 2]%nat
  else Ok d.

(** ** Status *)

Definition setStatus (now : Z) s (status : string) (progress : Z) (detail : string) (logKB dataKB varKB : Z) : result SupervisorInfo :=
  let known := negb (bool_decide (status = APP_STATUS_UNKNOWN)) in
  let time := if known then Some now else lastStatusTime_ s in
  let change := if known && negb (bool_decide (status_ s = status)) then now else lastStatusChangeTime_ s in
  a ← emplaceAvailableSpace now logKB (availableLogSpaceKB_ s);
  b ← emplaceAvailableSpace now dataKB (availableDataSpaceKB_ s);
  c ← emplaceAvailableSpace now varKB (availableVarSpaceKB_ s);
  Ok (mkInfo (name_ s) (contextName_ s) (id_ s) (class_ s) (contextURL_ s) (hostname_ s) (URN_ s) (URL_ s)
        status (Some progress) detail time change (subapps_ s) a b c).
Definition set_subapps s m := mkInfo (name_ s) (contextName_ s) (id_ s) (class_ s) (contextURL_ s) (hostname_ s) (URN_ s) (URL_ s)
  (status_ s) (progress_ s) (detail_ s) (lastStatusTime_ s) (lastStatusChangeTime_ s) m
  (availableLogSpaceKB_ s) (availableDataSpaceKB_ s) (availableVarSpaceKB_ s).
Definition setSubappStatus (now : Z) s (name status : string) (progress : Z) (detail : string) (logKB dataKB varKB : Z) : result SupervisorInfo :=
  let i := default newSubapp (subapps_ s !! name) in
  let known := negb (bool_decide (status = APP_STATUS_UNKNOWN)) in
  let time := if known then now else subLastStatusTime i in
  let change := if known && negb (bool_decide (subStatus i = status)) then now else subLastStatusChangeTime i in
  a ← emplaceAvailableSpace now logKB (subLogSpace i);
  b ← emplaceAvailableSpace now dataKB (subDataSpace i);
  c ← emplaceAvailableSpace now varKB (subVarSpace i);
  Ok (set_subapps s (<[name := mkSubapp name status progress (subId i) detail time change (subUrl i) (subParentUrl i) (subClassName i) a b c]> (subapps_ s))).
Definition copySubappStatus s (info : SubappInfo) : SupervisorInfo := set_subapps s (<[subName info := info]> (subapps_ s)).
Definition clearSubapps s : SupervisorInfo := set_subapps s ∅.
Definition getProgress s : result Z := from_option Ok (Throw Undefined) (progress_ s).
Definition getLastStatusTime s : result Z := from_option Ok (Throw Undefined) (lastStatusTime_ s).

(** ** Subapps in a status reply *)

Definition newline : ascii := "010".
Definition serializeSubapp (info : SubappInfo) : text :=
  txt (subName info) ++ [newline] ++
  txt (subDetail info) ++ [newline] ++
  to_string_unsigned (subProgress info) ++ [newline] ++
  txt (subStatus info) ++ [newline] ++
  to_string_signed (subLastStatusTime info) ++ [newline] ++
  to_string_signed (subLastStatusChangeTime info) ++ [newline] ++
  txt (subUrl info) ++ [newline] ++
  txt (subClassName info) ++ [newline].
Definition serializeSubappInfos (infos : list SubappInfo) : text := concat (map serializeSubapp infos).

(** A stream is what is left of its text, or [None] after the end was read;
    [getline] gives whether it succeeded, the line (the old one if the stream
    had ended before) and the stream. *)
Fixpoint uptoNewline (s : text) : text * option text :=
  match s with
  | [] => ([], None)
  | c :: s => if (c =? newline)%char then ([], Some s) else let '(l, r) := uptoNewline s in (c :: l, r)
  end.
Definition getline (stream : option text) (line : text) : bool * text * option text :=
  match stream with
  | None => (false, line, None)
  | Some s => let '(l, r) := uptoNewline s in (match r with Some _ => true | None => negb (bool_decide (l = [])) end, l, r)
  end.
(** [converter >> x] of a fresh stream into a variable that is 0. *)
Definition scanNumber (s : text) : option (bool * Z) :=
  match skip_space s with
  | c :: s' =>
      let '(neg, s') := if code c =? 45 then (true, s') else if code c =? 43 then (false, s') else (false, c :: s') in
      match s' with c :: _ => if is_digit c then Some (neg, read_digits s' 0) else None | [] => None end
  | [] => None
  end.
Definition readUnsigned (s : text) : Z :=
  match scanNumber s with
  | Some (neg, v) => if 2 ^ 32 - 1 <? v then 2 ^ 32 - 1 else if neg then u32 (- v) else v
  | None => 0
  end.
Definition readTime (s : text) : Z :=
  match scanNumber s with
  | Some (neg, v) => let v := if neg then - v else v in Z.max (- 2 ^ 63) (Z.min (2 ^ 63 - 1) v)
  | None => 0
  end.
Definition str (s : text) : string := String.string_of_list_ascii s.

Fixpoint deserializeLoop (fuel : nat) (stream : option text) (line : text) : list SubappInfo :=
  match fuel with
  | O => []
  | S fuel =>
      let '(ok, line, stream) := getline stream line in
      if ok then
        let name := str line in
        let '(_, line, stream) := getline stream line in
        let detail := str line in
        let '(_, line, stream) := getline stream line in
        let progress := readUnsigned line in
        let '(_, line, stream) := getline stream line in
        let status := str line in
        let '(_, line, stream) := getline stream line in
        let time := readTime line in
        let '(_, line, stream) := getline stream line in
        let change := readTime line in
        let '(_, line, stream) := getline stream line in
        let url := str line in
        let '(_, line, stream) := getline stream line in
        let cls := str line in
        mkSubapp name status progress 0 detail time change url "" cls [] [] [] :: deserializeLoop fuel stream line
      else []
  end.
(** Each turn takes at least one character of the text. *)
Definition deserializeSubappInfos (info_string : text) : list SubappInfo := deserializeLoop (S (length info_string)) (Some info_string) [].

(** ** The constructor *)

Definition extractHostname (URL : text) : result text :=
  let i := StringExpansion.find (txt "://") URL 0 in
  let i := if i =? npos then 0 else u64 (i + 3) in
  let j := StringExpansion.find (txt ":") URL i in
  let j := if j =? npos then j else u64 (j - i) in
  substr URL i j.

Definition create (name contextName : string) (id : Z) (cls contextURL URN : string) : result SupervisorInfo :=
  hostname ← extractHostname (txt contextURL);
  Ok (mkInfo (if bool_decide (name = "") then "LID-" +:+ str (to_string_unsigned id) else name)
        (if bool_decide (contextName = "") then cls else contextName) id cls contextURL (str hostname) URN
        (contextURL +:+ "/" +:+ URN) APP_STATUS_UNKNOWN None "" None 0 ∅ [] [] []).

(** ** The history of the free space

    It is a resampling of what was recorded: from the newest sample on, in order. *)
Definition resampled (d e : space) : Prop :=
  exists f : nat -> nat, f 0%nat = 0%nat /\ (forall i j, (i <= j)%nat -> (f i <= f j)%nat) /\
    forall k x, e !! k = Some x -> d !! f k = Some x.
(** As many samples as the functions that read rates expect. *)
Definition sized (d : space) : Prop := (length d <= 2 \/ length d = 10)%nat.

Lemma resampled_refl d : resampled d d.
Proof. by exists id. Qed.
Lemma resampled_trans d e c : resampled d e -> resampled e c -> resampled d c.
Proof.
  intros (f & Hf0 & Hfm & Hf) (g & Hg0 & Hgm & Hg). exists (f ∘ g). unfold compose. rewrite Hg0.
  split; [done|]. split; [by intros; apply Hfm, Hgm|]. intros k x Hk. by apply Hf, Hg.
Qed.
Lemma resampled_delete i d : (0 < i)%nat -> resampled d (delete i d).
Proof.
  intros Hi. exists (fun k => if (k <? i)%nat then k else S k). split; [by destruct i; [lia|]|]. split.
  - intros a b Hab. destruct (Nat.ltb_spec a i), (Nat.ltb_spec b i); lia.
  - intros k x. destruct (Nat.ltb_spec k i); [by rewrite list_lookup_delete_lt|by rewrite list_lookup_delete_ge].
Qed.
Lemma fillTo_length n x d : length (fillTo n x d) = if (10 <=? length d)%nat then length d else Nat.min 10 (n + length d).
Proof.
  revert d. induction n as [|n IH]; intros d; cbn [fillTo]; [destruct (Nat.leb_spec 10 (length d)); lia|].
  destruct (Nat.ltb_spec (length d) 10).
  - rewrite IH, length_app. cbn [length]. destruct (Nat.leb_spec 10 (length d + 1)), (Nat.leb_spec 10 (length d)); lia.
  - destruct (Nat.leb_spec 10 (length d)); lia.
Qed.
Lemma resampled_fill n x c : forall d, (exists j, d !! j = Some x /\ S j = length d) -> resampled c d -> resampled c (fillTo n x d).
Proof.
  induction n as [|n IH]; intros d (j & Hj & Hl) Hc; cbn [fillTo]; [done|]. destruct (length d <? 10)%nat; [|done].
  apply IH.
  - exists (length d). rewrite lookup_app_r, Nat.sub_diag, length_app by lia. split; [done|]. cbn. lia.
  - apply (resampled_trans _ d); [done|]. exists (fun k => Nat.min k j). split; [lia|]. split; [lia|].
    intros k y Hk. destruct (decide (k < length d)%nat) as [Hlt|Hge].
    + rewrite lookup_app_l in Hk by done. by replace (k `min` j)%nat with k by lia.
    + rewrite lookup_app_r in Hk by lia. replace (k `min` j)%nat with j by lia. rewrite Hj.
      destruct (k - length d)%nat; [done|]. by destruct n0.
Qed.
Lemma resampled_shift i d x : (1 < i)%nat -> d !! (i - 1)%nat = Some x -> resampled d (<[i := x]> d).
Proof.
  intros Hi Hx. exists (fun k => if decide (k = i) then (i - 1)%nat else k). split; [by rewrite decide_False by lia|]. split.
  - intros a b Hab. repeat case_decide; lia.
  - intros k y Hk. case_decide as Hki.
    + subst k. rewrite list_lookup_insert_eq in Hk by (apply lookup_lt_Some in Hx; assert (Hl := lookup_lt_Some _ _ _ Hk); rewrite length_insert in Hl; lia). congruence.
    + by rewrite list_lookup_insert_ne in Hk.
Qed.
Lemma keepInterval_spec now i d : (1 < i)%nat -> (i + 1 < length d)%nat ->
  exists e, keepInterval now i d = Ok e /\ length e = length d /\ resampled d e.
Proof.
  intros Hi Hl. unfold keepInterval, el.
  destruct (lookup_lt_is_Some_2 d (i + 1) Hl) as [o Ho]. destruct (lookup_lt_is_Some_2 d i ltac:(lia)) as [a Ha].
  destruct (lookup_lt_is_Some_2 d (i - 1) ltac:(lia)) as [b Hb]. rewrite Ho. cbn [from_option mbind result_bind].
  set (r := if (_ <? now - o.1) : bool then _ else _).
  assert (Hr : exists e, r = Ok e /\ length e = length d /\ resampled d e).
  { unfold r. destruct (_ <? now - o.1); [|by exists d; split; [|split; [|apply resampled_refl]]].
    rewrite Ha, Hb. cbn [from_option mbind result_bind]. eexists; split; [done|]. rewrite !length_insert. split; [done|].
    apply (resampled_trans _ (<[(i + 1)%nat := a]> d)).
    - apply resampled_shift; [lia|]. by replace (i + 1 - 1)%nat with i by lia.
    - apply resampled_shift; [done|]. by rewrite list_lookup_insert_ne by lia. }
  destruct Hr as (e & -> & Hle & He). cbn [mbind result_bind].
  destruct (lookup_lt_is_Some_2 e (i + 1) ltac:(lia)) as [o' Ho']. destruct (lookup_lt_is_Some_2 e i ltac:(lia)) as [a' Ha'].
  destruct (lookup_lt_is_Some_2 e (i - 1) ltac:(lia)) as [b' Hb']. rewrite Ho', Ha', Hb'. cbn [from_option mbind result_bind].
  destruct (o'.1 =? a'.1); [destruct (negb _)|].
  - eexists; split; [done|]. rewrite length_insert. split; [done|]. apply (resampled_trans _ e); [done|]. by apply resampled_shift.
  - by exists e.
  - by exists e.
Qed.
Lemma keepIntervals_spec now indices : forall d, Forall (fun i => (1 < i)%nat) indices ->
  exists e, keepIntervals now indices d = Ok e /\ length e = length d /\ resampled d e.
Proof.
  induction indices as [|i indices IH]; intros d Hi; cbn [keepIntervals]; [by exists d; split; [|split; [|apply resampled_refl]]|].
  apply Forall_cons in Hi as [Hi Hs]. destruct (Nat.ltb_spec (i + 1) (length d)); [|by exists d; split; [|split; [|apply resampled_refl]]].
  destruct (keepInterval_spec now i d Hi ltac:(done)) as (e & -> & Hle & He). cbn [mbind result_bind].
  destruct (IH e Hs) as (c & -> & Hlc & Hc). exists c. split; [done|]. split; [lia|]. by apply (resampled_trans _ e).
Qed.

(** Recording a sample never fails; the history stays at the size its readers
    expect, starts with the new sample and goes back in time. *)
Theorem emplaceAvailableSpace_spec now kb d : sized d ->
  exists e, emplaceAvailableSpace now kb d = Ok e /\ sized e /\
    (if 0 <? kb then head e = Some (now, kb) /\ resampled ((now, kb) :: d) e else e = d).
Proof.
  intros Hd. unfold emplaceAvailableSpace. destruct (0 <? kb); [|by exists d].
  set (c := (now, kb) :: d).
  assert (Hm : exists m, dropOne now c = Ok m /\ sized m /\ (0 < length m)%nat /\ resampled c m).
  { unfold dropOne, sized in *. destruct (Nat.ltb_spec 2 (length c)) as [Hl|Hl]; [|exists c; split; [done|]; split; [lia|]; split; [cbn; lia|apply resampled_refl]].
    unfold at_. destruct (lookup_lt_is_Some_2 c 2 Hl) as [s Hs]. rewrite Hs. cbn [from_option mbind result_bind].
    set (e := if 225 <? now - s.1 then delete 2%nat c else delete 1%nat c).
    assert (He : length e = length d /\ resampled c e).
    { unfold e. destruct (225 <? now - s.1); (split; [rewrite length_delete by (apply lookup_lt_is_Some_2; lia); cbn; lia|apply resampled_delete; lia]). }
    destruct He as [Hle He]. cbn [length c] in Hl. destruct (Nat.ltb_spec (length e) 10) as [H10|H10].
    - destruct (lookup_lt_is_Some_2 e 1 ltac:(cbn in Hl; lia)) as [f Hf]. rewrite Hf. cbn [from_option mbind result_bind].
      exists (fillTo 10 f e). split; [done|]. rewrite fillTo_length. destruct (Nat.leb_spec 10 (length e)); [lia|].
      split; [right; lia|]. split; [lia|]. apply resampled_fill; [|done]. exists 1%nat. split; [done|]. cbn in Hl. lia.
    - exists e. split; [done|]. split; [lia|]. by split; [lia|]. }
  destruct Hm as (m & -> & Hsm & Hpm & Hm). cbn [mbind result_bind].
  destruct (keepIntervals_spec now [8; 6; 4; 2]%nat m ltac:(repeat constructor; lia)) as (e & -> & Hle & He).
  exists e. split; [done|]. split; [unfold sized in *; lia|]. assert (Hr := resampled_trans _ _ _ Hm He). split; [|done].
  destruct Hr as (f & Hf0 & _ & Hf). destruct e as [|x e]; [cbn in Hle; lia|]. specialize (Hf 0%nat x eq_refl). by rewrite Hf0 in Hf.
Qed.

(** ** What is read back of the subapps *)

Definition oneLine (s : string) : Prop := ~ newline ∈ txt s.
Definition sendable (i : SubappInfo) : Prop :=
  oneLine (subName i) /\ oneLine (subDetail i) /\ oneLine (subStatus i) /\ oneLine (subUrl i) /\ oneLine (subClassName i) /\
  in_range 32 (subProgress i) /\ - 2 ^ 63 <= subLastStatusTime i < 2 ^ 63 /\ - 2 ^ 63 <= subLastStatusChangeTime i < 2 ^ 63.
Definition carried (i : SubappInfo) : SubappInfo :=
  mkSubapp (subName i) (subStatus i) (subProgress i) 0 (subDetail i) (subLastStatusTime i) (subLastStatusChangeTime i) (subUrl i) "" (subClassName i) [] [] [].

Lemma str_txt (x : string) : str (txt x) = x.
Proof. apply String.string_of_list_ascii_of_string. Qed.
Lemma uptoNewline_line l r : ~ newline ∈ l -> uptoNewline (l ++ newline :: r) = (l, Some r).
Proof.
  induction l as [|c l IH]; intros Hn; cbn [app uptoNewline]; [done|].
  rewrite not_elem_of_cons in Hn. destruct Hn as [Hc Hl].
  destruct (Ascii.eqb_spec c newline); [congruence|]. by rewrite IH.
Qed.
Lemma getline_line l r line : ~ newline ∈ l -> getline (Some (l ++ newline :: r)) line = (true, l, Some r).
Proof. intros Hn. unfold getline. by rewrite uptoNewline_line. Qed.

Lemma digits_no_newline n : 0 <= n -> ~ newline ∈ to_string_unsigned n.
Proof.
  intros Hn Hin. assert (Hd := to_string_unsigned_digits n Hn). rewrite Forall_forall in Hd. by specialize (Hd _ Hin).
Qed.
Lemma signed_no_newline z : ~ newline ∈ to_string_signed z.
Proof.
  unfold to_string_signed. destruct (z <? 0) eqn:Hz; [|apply digits_no_newline; lia].
  rewrite not_elem_of_cons. split; [done|]. apply digits_no_newline; lia.
Qed.

Lemma scanNumber_unsigned n : 0 <= n -> scanNumber (to_string_unsigned n) = Some (false, n).
Proof.
  intros Hn. destruct (to_string_unsigned_cons n Hn) as (c & r & Hs & Hc).
  unfold scanNumber. rewrite Hs, skip_space_digit by done. assert (Hr := is_digit_code c Hc).
  destruct (Z.eqb_spec (code c) 45); [lia|]. destruct (Z.eqb_spec (code c) 43); [lia|].
  by rewrite Hc, <- Hs, read_digits_to_string.
Qed.
Lemma readUnsigned_written n : in_range 32 n -> readUnsigned (to_string_unsigned n) = n.
Proof. intros [H0 H1]. unfold readUnsigned. rewrite scanNumber_unsigned by done. destruct (Z.ltb_spec (2 ^ 32 - 1) n); lia. Qed.
Lemma readTime_written z : - 2 ^ 63 <= z < 2 ^ 63 -> readTime (to_string_signed z) = z.
Proof.
  intros Hz. unfold readTime, to_string_signed. destruct (Z.ltb_spec z 0).
  - assert (Hn : scanNumber (chr 45 :: to_string_unsigned (- z)) = Some (true, - z)); [|rewrite Hn; lia].
    destruct (to_string_unsigned_cons (- z) ltac:(lia)) as (c & r & Hs & Hc).
    unfold scanNumber. change (skip_space (chr 45 :: ?x)) with (chr 45 :: x). cbv iota. change (code (chr 45) =? 45) with true. cbv iota beta.
    rewrite Hs at 1. cbv iota. rewrite Hc. by rewrite read_digits_to_string by lia.
  - rewrite scanNumber_unsigned by lia. lia.
Qed.

Lemma deserialize_step fuel i r line : sendable i ->
  deserializeLoop (S fuel) (Some (serializeSubapp i ++ r)) line = carried i :: deserializeLoop fuel (Some r) (txt (subClassName i)).
Proof.
  intros (Hn & Hd & Hs & Hu & Hc & Hp & Ht & Ht').
  unfold serializeSubapp. rewrite <- !app_assoc. cbn [app deserializeLoop].
  rewrite getline_line by done. cbv iota beta. rewrite getline_line by done. cbv iota beta.
  rewrite getline_line by (apply digits_no_newline, Hp). cbv iota beta. rewrite getline_line by done. cbv iota beta.
  rewrite getline_line by apply signed_no_newline. cbv iota beta. rewrite getline_line by apply signed_no_newline. cbv iota beta.
  rewrite getline_line by done. cbv iota beta. rewrite getline_line by done. cbv iota beta.
  by rewrite !str_txt, readUnsigned_written, !readTime_written.
Qed.
Lemma deserialize_all infos : forall fuel line, (length infos < fuel)%nat -> Forall sendable infos ->
  deserializeLoop fuel (Some (serializeSubappInfos infos)) line = map carried infos.
Proof.
  induction infos as [|i infos IH]; intros [|fuel] line Hf Hs; cbn [length] in Hf; try lia; [done|].
  apply Forall_cons in Hs as [Hi Hs]. change (serializeSubappInfos (i :: infos)) with (serializeSubapp i ++ serializeSubappInfos infos).
  rewrite deserialize_step by done. by rewrite IH by (done || lia).
Qed.
Lemma serialize_length infos : (length infos <= length (serializeSubappInfos infos))%nat.
Proof.
  induction infos as [|i infos IH]; [cbn; lia|]. change (serializeSubappInfos (i :: infos)) with (serializeSubapp i ++ serializeSubappInfos infos).
  rewrite length_app. unfold serializeSubapp. rewrite !length_app. cbn [length]. lia.
Qed.

(** What a supervisor reports of its subapps is what the Gateway files: names,
    status, progress, detail, times, URL and class, as long as the texts have no
    line breaks. *)
Theorem subapps_read_back infos : Forall sendable infos ->
  deserializeSubappInfos (serializeSubappInfos infos) = map carried infos.
Proof. intros Hs. apply deserialize_all; [|done]. assert (Hl := serialize_length infos). lia. Qed.

Definition reader : SubappInfo := mkSubapp "reader" "Running" 100 7 "step 2" 1700000000 (-1) "host" "parent" "artdaq::Reader" [] [] [].
Lemma subapps_read_back_witness :
  Forall sendable [reader] /\ deserializeSubappInfos (serializeSubappInfos [reader; reader]) = [carried reader; carried reader].
Proof.
  assert (Hs : sendable reader).
  { unfold sendable, oneLine, reader, in_range. cbn [subName subDetail subStatus subUrl subClassName subProgress subLastStatusTime subLastStatusChangeTime].
    repeat split; try lia; refine (proj1 (bool_decide_eq_true (newline ∉ txt _)) _); vm_compute; reflexivity. }
  split; [by constructor; [|constructor]|]. apply (subapps_read_back [reader; reader]). by constructor; [|constructor].
Defined.

(** A detail of two lines shifts every field after it, and an empty subapp
    follows: the line that is left is read as the name of another one. *)
Definition twoLines : SubappInfo := mkSubapp "reader" "Running" 100 0 ("step 1" +:+ String newline "step 2") 5 6 "host" "" "cls" [] [] [].
Lemma two_lines_shift : deserializeSubappInfos (serializeSubappInfos [twoLines]) =
  [mkSubapp "reader" "100" 0 0 "step 1" 0 5 "6" "" "host" [] [] []; mkSubapp "cls" "" 0 0 "" 0 0 "" "" "" [] [] []].
Proof. vm_compute. reflexivity. Qed.

End SupervisorInfo.

(** ** All supervisors *)

Module AllSupervisorInfo.
Import SupervisorInfo.
#[local] Open Scope string_scope.
#[local] Open Scope list_scope.
#[local] Open Scope Z_scope.

(** The classes, from XDAQContextTable.cc. *)
Definition GATEWAY_SUPERVISOR_CLASS : string := "ots::GatewaySupervisor".
Definition WIZARD_SUPERVISOR_CLASS : string := "ots::WizardSupervisor".
Definition ARTDAQ_SUPERVISOR_CLASS : string := "ots::ARTDAQSupervisor".
Definition FETypeClassNames_ : list string := ["ots::FESupervisor"; "ots::FEDataManagerSupervisor"; "ots::ARTDAQFEDataManagerSupervisor"].
Definition DMTypeClassNames_ : list string := ["ots::DataManagerSupervisor"; "ots::FEDataManagerSupervisor"; "ots::ARTDAQFEDataManagerSupervisor"].
Definition LogbookTypeClassNames_ : list string := ["ots::LogbookSupervisor"; "ots::ECLSupervisor"].
Definition MacroMakerTypeClassNames_ : list string := ["ots::MacroMakerSupervisor"].
Definition ChatTypeClassNames_ : list string := ["ots::ChatSupervisor"].
Definition ConsoleTypeClassNames_ : list string := ["ots::ConsoleSupervisor"].
Definition ConfigurationGUITypeClassNames_ : list string := ["ots::ConfigurationGUISupervisor"].
Definition CodeEditorTypeClassNames_ : list string := ["ots::CodeEditorSupervisor"].
Definition DEFAULT_PRIORITY : Z := 100.

Definition isOf (classes : list string) (s : SupervisorInfo) : bool := bool_decide (class_ s ∈ classes).
Definition isGatewaySupervisor := isOf [GATEWAY_SUPERVISOR_CLASS].
Definition isWizardSupervisor := isOf [WIZARD_SUPERVISOR_CLASS].
Definition isTypeARTDAQSupervisor := isOf [ARTDAQ_SUPERVISOR_CLASS].
Definition isTypeFESupervisor := isOf FETypeClassNames_.
Definition isTypeDMSupervisor := isOf DMTypeClassNames_.
Definition isTypeLogbookSupervisor := isOf LogbookTypeClassNames_.
Definition isTypeMacroMakerSupervisor := isOf MacroMakerTypeClassNames_.
Definition isTypeConfigurationGUISupervisor := isOf ConfigurationGUITypeClassNames_.
Definition isTypeChatSupervisor := isOf ChatTypeClassNames_.
Definition isTypeConsoleSupervisor := isOf ConsoleTypeClassNames_.
Definition isTypeCodeEditorSupervisor := isOf CodeEditorTypeClassNames_.

(** References to entries of [allSupervisorInfo_] are their ids. *)
Record AllSupervisorInfo := mkAll {
  theSupervisorInfo_ : option Z; theWizardInfo_ : option Z; theARTDAQSupervisorInfo_ : option Z;
  allSupervisorInfo_ : list (Z * SupervisorInfo);
  allFETypeSupervisorInfo_ : list (Z * Z); allDMTypeSupervisorInfo_ : list (Z * Z);
  allLogbookTypeSupervisorInfo_ : list (Z * Z); allMacroMakerTypeSupervisorInfo_ : list (Z * Z);
  allTraceControllerSupervisorInfo_ : gmap string Z }.
Definition empty : AllSupervisorInfo := mkAll None None None [] [] [] [] [] ∅.
Implicit Types a : AllSupervisorInfo.

Definition set_special a gateway wizard artdaq := mkAll gateway wizard artdaq (allSupervisorInfo_ a) (allFETypeSupervisorInfo_ a) (allDMTypeSupervisorInfo_ a) (allLogbookTypeSupervisorInfo_ a) (allMacroMakerTypeSupervisorInfo_ a) (allTraceControllerSupervisorInfo_ a).
Definition set_infos a l := mkAll (theSupervisorInfo_ a) (theWizardInfo_ a) (theARTDAQSupervisorInfo_ a) l (allFETypeSupervisorInfo_ a) (allDMTypeSupervisorInfo_ a) (allLogbookTypeSupervisorInfo_ a) (allMacroMakerTypeSupervisorInfo_ a) (allTraceControllerSupervisorInfo_ a).
Definition set_types a fe dm logbook macro := mkAll (theSupervisorInfo_ a) (theWizardInfo_ a) (theARTDAQSupervisorInfo_ a) (allSupervisorInfo_ a) fe dm logbook macro (allTraceControllerSupervisorInfo_ a).
Definition set_trace a m := mkAll (theSupervisorInfo_ a) (theWizardInfo_ a) (theARTDAQSupervisorInfo_ a) (allSupervisorInfo_ a) (allFETypeSupervisorInfo_ a) (allDMTypeSupervisorInfo_ a) (allLogbookTypeSupervisorInfo_ a) (allMacroMakerTypeSupervisorInfo_ a) m.

(** The maps of loggers and macro makers, and of trace controllers, are kept. *)
Definition destroy a : AllSupervisorInfo :=
  mkAll None None None [] [] [] (allLogbookTypeSupervisorInfo_ a) (allMacroMakerTypeSupervisorInfo_ a) (allTraceControllerSupervisorInfo_ a).

(** ** init

    A descriptor of the context, with the names of the context table. *)
Record descriptor := mkDescriptor { localId : Z; className : string; contextURLOf : string; urn : string; applicationUID : string; contextUID : string }.

(** SupervisorDescriptorInfoBase::init: the descriptors come out of a set of
    pointers, in any order. *)
Definition baseInit (descriptors : list descriptor) : result (list (Z * descriptor)) :=
  fold_left (fun r d => m ← r; if OrderedMap.stored m (localId d) then Throw RuntimeError else Ok (OrderedMap.emplace m (localId d) d))
    descriptors (Ok []).

Fixpoint wizardMode (l : list (Z * descriptor)) : bool :=
  match l with
  | [] => false
  | (_, d) :: l =>
      if bool_decide (className d ∈ [GATEWAY_SUPERVISOR_CLASS]) then false
      else if bool_decide (className d ∈ [WIZARD_SUPERVISOR_CLASS]) then true else wizardMode l
  end.
Definition addType (b : bool) (id : Z) (m : list (Z * Z)) : list (Z * Z) := if b then OrderedMap.emplace m id id else m.
Definition addSupervisor (configured : bool) a (d : descriptor) : result AllSupervisorInfo :=
  let id := localId d in
  s ← create (if configured then applicationUID d else "") (if configured then contextUID d else "") id (className d) (contextURLOf d) (urn d);
  if OrderedMap.stored (allSupervisorInfo_ a) id then Throw RuntimeError
  else
    let a := set_infos a (OrderedMap.emplace (allSupervisorInfo_ a) id s) in
    a ← (if isTypeARTDAQSupervisor s then
           match theARTDAQSupervisorInfo_ a with
           | Some _ => Throw RuntimeError
           | None => Ok (set_special a (theSupervisorInfo_ a) (theWizardInfo_ a) (Some id))
           end
         else Ok a);
    if isGatewaySupervisor s then
      match theSupervisorInfo_ a with
      | Some _ => Throw RuntimeError
      | None => Ok (set_special a (Some id) (theWizardInfo_ a) (theARTDAQSupervisorInfo_ a))
      end
    else if isWizardSupervisor s then
      match theWizardInfo_ a with
      | Some _ => Throw RuntimeError
      | None => Ok (set_special a (theSupervisorInfo_ a) (Some id) (theARTDAQSupervisorInfo_ a))
      end
    else Ok (set_types a (addType (isTypeFESupervisor s) id (allFETypeSupervisorInfo_ a))
                         (addType (isTypeDMSupervisor s) id (allDMTypeSupervisorInfo_ a))
                         (addType (isTypeLogbookSupervisor s) id (allLogbookTypeSupervisorInfo_ a))
                         (addType (isTypeMacroMakerSupervisor s) id (allMacroMakerTypeSupervisorInfo_ a))).
Definition emplaceHost (m : gmap string Z) (host : string) (id : Z) : gmap string Z :=
  match m !! host with Some _ => m | None => <[host := id]> m end.
Definition traceControllers a : gmap string Z :=
  let m := match theARTDAQSupervisorInfo_ a with
           | Some id => from_option (fun s => {[ hostname_ s := id ]}) ∅ (OrderedMap.find (allSupervisorInfo_ a) id)
           | None => ∅
           end in
  fold_left (fun m p => emplaceHost m (hostname_ p.2) p.1) (allSupervisorInfo_ a) m.
Definition init (MACROMAKER_MODE : bool) (descriptors : list descriptor) a : result AllSupervisorInfo :=
  let a := destroy a in
  all ← baseInit descriptors;
  let configured := negb (wizardMode all || MACROMAKER_MODE) in
  a ← fold_left (fun r p => a ← r; addSupervisor configured a p.2) all (Ok a);
  let found o := match o with Some _ => true | None => false end in
  let ok := if MACROMAKER_MODE then
              negb (found (theWizardInfo_ a) || found (theSupervisorInfo_ a)) && (length (allMacroMakerTypeSupervisorInfo_ a) =? 1)%nat
            else xorb (found (theWizardInfo_ a)) (found (theSupervisorInfo_ a)) in
  if ok then Ok (set_trace a (traceControllers a)) else Throw RuntimeError.

(** ** Status

    [free]: the entry's mutex can be taken. *)
Definition setSupervisorStatus (now : Z) (free : bool) a (id : Z) (status : string) (progress : Z) (detail : string) (subapps : list SubappInfo) (logKB dataKB varKB : Z) : result AllSupervisorInfo :=
  match OrderedMap.find (allSupervisorInfo_ a) id with
  | None => Throw RuntimeError
  | Some s =>
      if free then
        s ← setStatus now s status progress detail logKB dataKB varKB;
        let s := if negb (base.size (subapps_ s) =? length subapps)%nat then clearSubapps s else s in
        let s := fold_left copySubappStatus subapps s in
        Ok (set_infos a (OrderedMap.update (allSupervisorInfo_ a) id (fun _ => s)))
      else Ok a
  end.
Definition clearSupervisorSubappsStatus (free : bool) a (id : Z) : result AllSupervisorInfo :=
  match OrderedMap.find (allSupervisorInfo_ a) id with
  | None => Throw RuntimeError
  | Some _ => Ok (if free then set_infos a (OrderedMap.update (allSupervisorInfo_ a) id clearSubapps) else a)
  end.
Definition getSupervisorInfo a (id : Z) : result SupervisorInfo := from_option Ok (Throw RuntimeError) (OrderedMap.find (allSupervisorInfo_ a) id).
Definition theInfo a (o : option Z) : result SupervisorInfo :=
  match o with Some id => from_option Ok (Throw Undefined) (OrderedMap.find (allSupervisorInfo_ a) id) | None => Throw RuntimeError end.
Definition getGatewayInfo a := theInfo a (theSupervisorInfo_ a).
Definition getWizardInfo a := theInfo a (theWizardInfo_ a).
Definition getArtdaqSupervisorInfo a := theInfo a (theARTDAQSupervisorInfo_ a).

(** ** The order of a command

    Applications of the context table, with the priorities of their commands. *)
Record XDAQApplication := mkApp { appId : Z; appStatus : bool; stateMachineCommandPriority_ : gmap string Z }.
Record XDAQContext := mkContext { contextStatus : bool; applications_ : list XDAQApplication }.

Definition priorityOf (command : string) (app : XDAQApplication) : Z :=
  match stateMachineCommandPriority_ app !! command with
  | Some p => if p =? 0 then DEFAULT_PRIORITY else p
  | None => DEFAULT_PRIORITY
  end.
Definition enabled (contexts : list XDAQContext) : list XDAQApplication :=
  concat (map (fun c => if contextStatus c then List.filter appStatus (applications_ c) else []) contexts).
Definition addAt (m : list (Z * list Z)) (priority id : Z) : list (Z * list Z) :=
  OrderedMap.update (OrderedMap.emplace m priority []) priority (fun ids => ids ++ [id]).
Definition orderedByPriority (command : string) (contexts : list XDAQContext) : list (Z * list Z) :=
  fold_left (fun m app => addAt m (priorityOf command app) (appId app)) (enabled contexts) [].
(** Those that take no part in transitions. *)
Definition leftOut (s : SupervisorInfo) : bool :=
  isGatewaySupervisor s || isTypeLogbookSupervisor s || isTypeMacroMakerSupervisor s || isTypeConfigurationGUISupervisor s ||
  isTypeChatSupervisor s || isTypeConsoleSupervisor s || isTypeCodeEditorSupervisor s.
Fixpoint levelOf a (onlyGatewayContextSupervisors : bool) (ids : list Z) : result (list Z) :=
  match ids with
  | [] => Ok []
  | id :: ids =>
      s ← from_option Ok (Throw RuntimeError) (OrderedMap.find (allSupervisorInfo_ a) id);
      skip ← (if onlyGatewayContextSupervisors then
                g ← from_option Ok (Throw Undefined) (theSupervisorInfo_ a ≫= OrderedMap.find (allSupervisorInfo_ a));
                Ok (negb (bool_decide (contextName_ s = contextName_ g)))
              else Ok false);
      rest ← levelOf a onlyGatewayContextSupervisors ids;
      Ok (if (skip : bool) || leftOut s then rest else id :: rest)
  end.
Fixpoint levelsOf a (only : bool) (l : list (Z * list Z)) : result (list (list Z)) :=
  match l with
  | [] => Ok []
  | (_, ids) :: l =>
      level ← levelOf a only ids;
      rest ← levelsOf a only l;
      Ok (match level with [] => rest | _ => level :: rest end)
  end.
Definition getOrderedSupervisorDescriptors a (contexts : list XDAQContext) (command : string) (only : bool) : result (list (list Z)) :=
  levelsOf a only (orderedByPriority command contexts).

(** ** The order, against a plain description *)

Definition taking a (only : bool) (id : Z) : bool :=
  match OrderedMap.find (allSupervisorInfo_ a) id with
  | Some s =>
      negb (only && negb (bool_decide (Some (contextName_ s) = contextName_ <$> (theSupervisorInfo_ a ≫= OrderedMap.find (allSupervisorInfo_ a)))))
      && negb (leftOut s)
  | None => false
  end.
Definition nonempty {A} (l : list A) : bool := match l with [] => false | _ => true end.
(** The applications of priority [p], in the order of the context table. *)
Definition ofPriority a (contexts : list XDAQContext) (command : string) (only : bool) (p : Z) : list Z :=
  List.filter (taking a only) (map appId (List.filter (fun app => priorityOf command app =? p) (enabled contexts))).
Definition priorities : list Z := seqZ 0 256.
Definition levels a contexts command only : list (list Z) :=
  List.filter nonempty (map (ofPriority a contexts command only) priorities).

Definition priorities_in_range (contexts : list XDAQContext) : Prop :=
  forall app, app ∈ enabled contexts -> map_Forall (fun _ p => in_range 8 p) (stateMachineCommandPriority_ app).
Definition all_known a (contexts : list XDAQContext) : Prop :=
  forall app, app ∈ enabled contexts -> is_Some (OrderedMap.find (allSupervisorInfo_ a) (appId app)).
Definition gateway_known a : Prop := is_Some (theSupervisorInfo_ a ≫= OrderedMap.find (allSupervisorInfo_ a)).

Lemma levelOf_taking a only ids : gateway_known a -> (forall id, id ∈ ids -> is_Some (OrderedMap.find (allSupervisorInfo_ a) id)) ->
  levelOf a only ids = Ok (List.filter (taking a only) ids).
Proof.
  intros [g Hg]. induction ids as [|id ids IH]; intros Hk; [done|]. cbn [levelOf List.filter].
  destruct (Hk id ltac:(left)) as [s Hs]. rewrite IH by (intros; apply Hk; by right).
  unfold taking at 2. rewrite Hs, Hg. cbn [from_option mbind result_bind fmap option_fmap option_map].
  destruct only; cbn [andb negb orb mbind result_bind]; [|by destruct (leftOut s)].
  rewrite (bool_decide_ext (Some (contextName_ s) = Some (contextName_ g)) (contextName_ s = contextName_ g)) by (split; [by intros [=]|by intros ->]).
  by destruct (bool_decide _), (leftOut s).
Qed.
Lemma levelsOf_taking a only (m : list (Z * list Z)) : gateway_known a ->
  (forall q, q ∈ m -> forall id, id ∈ q.2 -> is_Some (OrderedMap.find (allSupervisorInfo_ a) id)) ->
  levelsOf a only m = Ok (List.filter nonempty (map (fun q => List.filter (taking a only) q.2) m)).
Proof.
  intros Hg. induction m as [|[p ids] m IH]; intros Hk; [done|]. cbn [levelsOf map List.filter snd].
  rewrite levelOf_taking; [|done|by apply (Hk (p, ids)); left]. cbn [mbind result_bind].
  rewrite IH by (intros q Hq; apply Hk; by right). cbn [mbind result_bind]. by destruct (List.filter (taking a only) ids).
Qed.

(** A sorted map read at every key of an interval. *)
Lemma by_keys {A B} (f : list A -> list B) (Hf : f [] = []) n : forall lo (m : list (Z * list A)), OrderedMap.sorted m ->
  (forall k, k ∈ OrderedMap.keys m -> lo <= k < lo + Z.of_nat n) ->
  List.filter nonempty (map (fun p => f (default [] (OrderedMap.find m p))) (seqZ lo (Z.of_nat n))) =
  List.filter nonempty (map (fun q => f q.2) m).
Proof.
  induction n as [|n IH]; intros lo m Hs Hk.
  - destruct m as [|[k v] m]; [done|]. specialize (Hk k ltac:(left)). lia.
  - rewrite Nat2Z.inj_succ, seqZ_cons by lia. rewrite Z.pred_succ. cbn [map List.filter].
    destruct m as [|[k v] m].
    + assert (Hlo : f (default [] (OrderedMap.find [] lo)) = []) by done. rewrite Hlo. cbn [nonempty].
      apply (IH (Z.succ lo) []); [done|]. by intros k ?%elem_of_nil.
    + apply OrderedMap.sorted_cons in Hs as [Hm Hlt]. assert (Hkr := Hk k ltac:(left)).
      destruct (decide (k = lo)) as [->|Hne].
      * cbn [OrderedMap.find]. rewrite OrderedMap.sameKey_refl. cbn [default map List.filter snd].
        assert (Hrest : map (fun p => f (default [] (if OrderedMap.sameKey p lo then Some v else OrderedMap.find m p))) (seqZ (Z.succ lo) (Z.of_nat n)) =
                        map (fun p => f (default [] (OrderedMap.find m p))) (seqZ (Z.succ lo) (Z.of_nat n))).
        { apply map_ext_in. intros p Hp%list_elem_of_In%elem_of_seqZ. destruct (OrderedMap.sameKey_spec p lo); [lia|done]. }
        rewrite Hrest, IH; [done|done|]. intros j Hj. assert (Hl := Hlt j Hj). apply Z.ltb_lt in Hl.
        specialize (Hk j ltac:(by right)). lia.
      * assert (Hn : OrderedMap.find ((k, v) :: m) lo = None).
        { apply OrderedMap.find_none. intros [Hx|Hx]%elem_of_cons; [done|]. assert (Hl := Hlt lo Hx). apply Z.ltb_lt in Hl. lia. }
        assert (Hlo : f (default [] (OrderedMap.find ((k, v) :: m) lo)) = []) by (by rewrite Hn). rewrite Hlo. cbn [nonempty]. apply IH; [by apply OrderedMap.sorted_cons|].
        intros j Hj. specialize (Hk j Hj). apply elem_of_cons in Hj as [->|Hj]; [cbn in *; lia|].
        assert (Hl := Hlt j Hj). apply Z.ltb_lt in Hl. lia.
Qed.

Lemma find_addAt m p id q : OrderedMap.sorted m ->
  default [] (OrderedMap.find (addAt m p id) q) = default [] (OrderedMap.find m q) ++ (if q =? p then [id] else []).
Proof.
  intros Hs. unfold addAt. rewrite OrderedMap.find_updated, OrderedMap.find_emplace by done.
  destruct (OrderedMap.sameKey_spec q p) as [->|Hq].
  - rewrite Z.eqb_refl. by destruct (OrderedMap.find m p).
  - destruct (Z.eqb_spec q p); [done|]. by rewrite app_nil_r.
Qed.
Record filed (command : string) (apps : list XDAQApplication) (m : list (Z * list Z)) : Prop := {
  filed_sorted : OrderedMap.sorted m;
  filed_find p : default [] (OrderedMap.find m p) = map appId (List.filter (fun app => priorityOf command app =? p) apps);
  filed_keys k : k ∈ OrderedMap.keys m -> exists app, app ∈ apps /\ k = priorityOf command app }.
Lemma filed_all command apps : filed command apps (fold_left (fun m app => addAt m (priorityOf command app) (appId app)) apps []).
Proof.
  induction apps as [|app apps IH] using rev_ind; [split; [constructor|done|by intros k ?%elem_of_nil]|].
  rewrite fold_left_app. cbn [fold_left]. destruct IH as [Hs Hf Hk]. split.
  - by apply OrderedMap.sorted_update, OrderedMap.sorted_emplace.
  - intros p. rewrite find_addAt, Hf, List.filter_app, map_app by done. cbn [List.filter map]. rewrite (Z.eqb_sym _ p). by destruct (p =? _).
  - intros k. unfold addAt. rewrite OrderedMap.keys_updated, OrderedMap.keys_emplace. intros [->|(app' & Ha & ->)%Hk].
    + exists app. split; [|done]. apply elem_of_app. right. left.
    + exists app'. split; [|done]. apply elem_of_app. by left.
Qed.
Lemma priorityOf_range command app : map_Forall (fun _ p => in_range 8 p) (stateMachineCommandPriority_ app) -> 0 <= priorityOf command app < 256.
Proof.
  intros Hr. unfold priorityOf. destruct (stateMachineCommandPriority_ app !! command) as [p|] eqn:Hp; [|done].
  specialize (Hr _ _ Hp). unfold in_range in Hr. cbn beta in Hr. destruct (p =? 0); [done|lia].
Qed.

(** A command of run control goes, level by level, to the applications that
    take part, by rising priority, 0 or none standing for 100, and within a level
    in the order of the context table; each one is in exactly one level. *)
Theorem ordered_descriptors_spec a contexts command only :
  gateway_known a -> all_known a contexts -> priorities_in_range contexts ->
  getOrderedSupervisorDescriptors a contexts command only = Ok (levels a contexts command only).
Proof.
  intros Hg Hk Hr. unfold getOrderedSupervisorDescriptors, orderedByPriority.
  destruct (filed_all command (enabled contexts)) as [Hs Hf Hkeys]. set (m := fold_left _ _ _) in *. clearbody m.
  rewrite levelsOf_taking; [|done|].
  - f_equal. unfold levels. rewrite <- (by_keys (List.filter (taking a only)) eq_refl 256 0); [|done|].
    + f_equal. apply map_ext. intros p. unfold ofPriority. by rewrite Hf.
    + intros k (app & Ha & ->)%Hkeys. apply priorityOf_range. by apply Hr.
  - intros [p ids] Hq id Hid. apply OrderedMap.in_find in Hq; [|done]. assert (Hfp := Hf p). rewrite Hq in Hfp. cbn in Hfp, Hid. subst ids.
    apply list_elem_of_fmap in Hid as (app & -> & Ha). apply Hk. apply list_elem_of_In, filter_In in Ha as [Ha _]. by apply list_elem_of_In.
Qed.

Lemma in_levels a contexts command only id : id ∈ concat (levels a contexts command only) -> taking a only id = true.
Proof.
  unfold levels. induction priorities as [|p l IH]; cbn [map List.filter]; [by intros ?%elem_of_nil|].
  destruct (nonempty (ofPriority a contexts command only p)); [|done]. cbn [concat]. intros [Hin|Hin]%elem_of_app; [|by apply IH].
  unfold ofPriority in Hin. apply list_elem_of_In, filter_In in Hin. apply Hin.
Qed.
Lemma levels_ext a a' contexts command only : (forall id, taking a' only id = taking a only id) -> levels a' contexts command only = levels a contexts command only.
Proof.
  intros Ht. unfold levels. f_equal. apply map_ext. intros p. unfold ofPriority. by apply List.filter_ext.
Qed.

(** A Gateway, two front-end supervisors of which one has to come first, and a
    console, which takes no part. *)
Definition exampleDescriptor (id : Z) (cls : string) : descriptor := mkDescriptor id cls "http://host:2015" "urn" "" "".
Definition exampleSystem : result AllSupervisorInfo :=
  init false [exampleDescriptor 260 "ots::FESupervisor"; exampleDescriptor 200 GATEWAY_SUPERVISOR_CLASS;
    exampleDescriptor 250 "ots::FESupervisor"; exampleDescriptor 270 "ots::ConsoleSupervisor"] empty.
Definition exampleContexts : list XDAQContext :=
  [mkContext true [mkApp 200 true ∅; mkApp 250 true ∅; mkApp 270 true ∅; mkApp 260 true {["Configure" := 3]}; mkApp 290 false ∅]].
Definition exampleAll : AllSupervisorInfo := match exampleSystem with Ok a => a | Throw _ => empty end.
Lemma ordered_descriptors_spec_witness :
  gateway_known exampleAll /\ getOrderedSupervisorDescriptors exampleAll exampleContexts "Configure" false = Ok (levels exampleAll exampleContexts "Configure" false)
  /\ levels exampleAll exampleContexts "Configure" false = [[260]; [250]].
Proof.
  assert (Hg : gateway_known exampleAll) by (unfold gateway_known; vm_compute; by eexists).
  split; [done|]. split; [|vm_compute; reflexivity].
  apply (ordered_descriptors_spec exampleAll exampleContexts "Configure" false); [done| |].
  - assert (Hf : Forall (fun app => is_Some (OrderedMap.find (allSupervisorInfo_ exampleAll) (appId app))) (enabled exampleContexts)).
    { change (enabled exampleContexts) with [mkApp 200 true ∅; mkApp 250 true ∅; mkApp 270 true ∅; mkApp 260 true {["Configure" := 3]}].
      repeat constructor; vm_compute; by eexists. }
    intros app Ha. by rewrite Forall_forall in Hf; apply Hf.
  - assert (Hf : Forall (fun app => map_Forall (fun _ p => in_range 8 p) (stateMachineCommandPriority_ app)) (enabled exampleContexts)).
    { change (enabled exampleContexts) with [mkApp 200 true ∅; mkApp 250 true ∅; mkApp 270 true ∅; mkApp 260 true {["Configure" := 3]}].
      do 3 (constructor; [apply map_Forall_empty|]). constructor; [|constructor]. apply map_Forall_singleton. by split. }
    intros app Ha. by rewrite Forall_forall in Hf; apply Hf.
Defined.

End AllSupervisorInfo.
