(* ===== verification/Broadcast.v ===== *)
(** * Broadcasting a command

    src/otsdaq/GatewaySupervisor/GatewaySupervisor.cc: how the Gateway takes all
    supervisors and the remote subsystems through a transition: by priority, in
    iterations of all, in sub-iterations of one, and in subsystem-iterations
    together with the other Gateways.

    One thread (NumberOfStateMachineBroadcastThreads is 1 by default).  What other
    threads and the targets do meanwhile is in the parameters: [send] and
    [errorRequest] exchange a message with a supervisor, [elapse] sleeps; each may
    change the whole Gateway.  [OtherExn] is xdaq::exception::Exception.  The loops
    have no bound in the code; here they have fuel, and [None] means that it did
    not suffice.

    After the definitions: supervisors that follow scripts, with what is then
    sent; and the wait for the remote subsystems. *)

From S2P Require Import Prelude CText StringMacros StringExpansion ProgressBar FiniteStateMachine RunControlStateMachine SupervisorInfo.

Module Broadcast.
Import FiniteStateMachine RunControlStateMachine SupervisorInfo.
#[local] Open Scope string_scope.
#[local] Open Scope list_scope.
#[local] Open Scope Z_scope.

Abbreviation All := AllSupervisorInfo.AllSupervisorInfo.
Definition number (z : Z) : string := str (to_string_signed z).
Definition endl : string := String newline "".
Definition SUBSYSTEM_ITERATION_STANDALONE : Z := -1.

Inductive FSM_ModeTypes := Follow_FSM | DoNotHalt | OnlyConfigure.
#[export] Instance FSM_ModeTypes_eq_dec : EqDecision FSM_ModeTypes.
Proof. solve_decision. Defined.
Record RemoteGatewayInfo := mkRemote {
  fullName : string; remoteName : string; remoteStatus : string; remoteProgress : Z; remoteDetail : string;
  remoteCommand : string; fsmName : string; config_dump : string; selected_config_alias : string;
  fsm_mode : FSM_ModeTypes; fsm_included : bool; iterationsDone : bool; doNotHaltWasCommandedHalt : bool }.

Section Broadcast.
Context {W : Type}.

Record Gateway := mkGateway {
  theStateMachine_ : FiniteStateMachine Fn;
  theProgressBar_ : ProgressBar.ProgressBar;
  asyncFailureReceived_ : bool;
  allSupervisorInfo_ : All;
  broadcastCommandMessageIndex_ : Z;
  broadcastCommandStatus_ : string;
  broadcastSubsystemIterationsDone_ : bool;
  broadcastIterationsDone_ : bool;
  broadcastIterationBreakpoint_ : Z;
  remoteGatewayApps_ : list RemoteGatewayInfo;
  broadcastIncludedRemoteGatewayNames_ : gset string;
  isRemoteSubsystemIteration_ : bool;
  remoteIterationIndex_ : Z;
  remoteSubsystemErrorReceived_ : bool;
  activeStateMachineName_ : string;
  minReadyForEventGenerationStartIteration_ : Z;
  activeStateMachineSubsystemCommonList_ : string;
  activeStateMachineSubsystemCommonOverrideList_ : string;
  world : W }.
Implicit Types g : Gateway.

Definition set_bar g p := mkGateway (theStateMachine_ g) p (asyncFailureReceived_ g) (allSupervisorInfo_ g) (broadcastCommandMessageIndex_ g) (broadcastCommandStatus_ g) (broadcastSubsystemIterationsDone_ g) (broadcastIterationsDone_ g) (broadcastIterationBreakpoint_ g) (remoteGatewayApps_ g) (broadcastIncludedRemoteGatewayNames_ g) (isRemoteSubsystemIteration_ g) (remoteIterationIndex_ g) (remoteSubsystemErrorReceived_ g) (activeStateMachineName_ g) (minReadyForEventGenerationStartIteration_ g) (activeStateMachineSubsystemCommonList_ g) (activeStateMachineSubsystemCommonOverrideList_ g) (world g).
Definition set_infos g a := mkGateway (theStateMachine_ g) (theProgressBar_ g) (asyncFailureReceived_ g) a (broadcastCommandMessageIndex_ g) (broadcastCommandStatus_ g) (broadcastSubsystemIterationsDone_ g) (broadcastIterationsDone_ g) (broadcastIterationBreakpoint_ g) (remoteGatewayApps_ g) (broadcastIncludedRemoteGatewayNames_ g) (isRemoteSubsystemIteration_ g) (remoteIterationIndex_ g) (remoteSubsystemErrorReceived_ g) (activeStateMachineName_ g) (minReadyForEventGenerationStartIteration_ g) (activeStateMachineSubsystemCommonList_ g) (activeStateMachineSubsystemCommonOverrideList_ g) (world g).
Definition set_messageIndex g i := mkGateway (theStateMachine_ g) (theProgressBar_ g) (asyncFailureReceived_ g) (allSupervisorInfo_ g) i (broadcastCommandStatus_ g) (broadcastSubsystemIterationsDone_ g) (broadcastIterationsDone_ g) (broadcastIterationBreakpoint_ g) (remoteGatewayApps_ g) (broadcastIncludedRemoteGatewayNames_ g) (isRemoteSubsystemIteration_ g) (remoteIterationIndex_ g) (remoteSubsystemErrorReceived_ g) (activeStateMachineName_ g) (minReadyForEventGenerationStartIteration_ g) (activeStateMachineSubsystemCommonList_ g) (activeStateMachineSubsystemCommonOverrideList_ g) (world g).
Definition set_status g t := mkGateway (theStateMachine_ g) (theProgressBar_ g) (asyncFailureReceived_ g) (allSupervisorInfo_ g) (broadcastCommandMessageIndex_ g) t (broadcastSubsystemIterationsDone_ g) (broadcastIterationsDone_ g) (broadcastIterationBreakpoint_ g) (remoteGatewayApps_ g) (broadcastIncludedRemoteGatewayNames_ g) (isRemoteSubsystemIteration_ g) (remoteIterationIndex_ g) (remoteSubsystemErrorReceived_ g) (activeStateMachineName_ g) (minReadyForEventGenerationStartIteration_ g) (activeStateMachineSubsystemCommonList_ g) (activeStateMachineSubsystemCommonOverrideList_ g) (world g).
Definition set_done g subsystem iterations := mkGateway (theStateMachine_ g) (theProgressBar_ g) (asyncFailureReceived_ g) (allSupervisorInfo_ g) (broadcastCommandMessageIndex_ g) (broadcastCommandStatus_ g) subsystem iterations (broadcastIterationBreakpoint_ g) (remoteGatewayApps_ g) (broadcastIncludedRemoteGatewayNames_ g) (isRemoteSubsystemIteration_ g) (remoteIterationIndex_ g) (remoteSubsystemErrorReceived_ g) (activeStateMachineName_ g) (minReadyForEventGenerationStartIteration_ g) (activeStateMachineSubsystemCommonList_ g) (activeStateMachineSubsystemCommonOverrideList_ g) (world g).
Definition set_remotes g l := mkGateway (theStateMachine_ g) (theProgressBar_ g) (asyncFailureReceived_ g) (allSupervisorInfo_ g) (broadcastCommandMessageIndex_ g) (broadcastCommandStatus_ g) (broadcastSubsystemIterationsDone_ g) (broadcastIterationsDone_ g) (broadcastIterationBreakpoint_ g) l (broadcastIncludedRemoteGatewayNames_ g) (isRemoteSubsystemIteration_ g) (remoteIterationIndex_ g) (remoteSubsystemErrorReceived_ g) (activeStateMachineName_ g) (minReadyForEventGenerationStartIteration_ g) (activeStateMachineSubsystemCommonList_ g) (activeStateMachineSubsystemCommonOverrideList_ g) (world g).
Definition set_included g names := mkGateway (theStateMachine_ g) (theProgressBar_ g) (asyncFailureReceived_ g) (allSupervisorInfo_ g) (broadcastCommandMessageIndex_ g) (broadcastCommandStatus_ g) (broadcastSubsystemIterationsDone_ g) (broadcastIterationsDone_ g) (broadcastIterationBreakpoint_ g) (remoteGatewayApps_ g) names (isRemoteSubsystemIteration_ g) (remoteIterationIndex_ g) (remoteSubsystemErrorReceived_ g) (activeStateMachineName_ g) (minReadyForEventGenerationStartIteration_ g) (activeStateMachineSubsystemCommonList_ g) (activeStateMachineSubsystemCommonOverrideList_ g) (world g).
(** Driven by a top-level Gateway, the index of its last message, and its error. *)
Definition set_top g driven index error := mkGateway (theStateMachine_ g) (theProgressBar_ g) (asyncFailureReceived_ g) (allSupervisorInfo_ g) (broadcastCommandMessageIndex_ g) (broadcastCommandStatus_ g) (broadcastSubsystemIterationsDone_ g) (broadcastIterationsDone_ g) (broadcastIterationBreakpoint_ g) (remoteGatewayApps_ g) (broadcastIncludedRemoteGatewayNames_ g) driven index error (activeStateMachineName_ g) (minReadyForEventGenerationStartIteration_ g) (activeStateMachineSubsystemCommonList_ g) (activeStateMachineSubsystemCommonOverrideList_ g) (world g).
Definition set_common g common override := mkGateway (theStateMachine_ g) (theProgressBar_ g) (asyncFailureReceived_ g) (allSupervisorInfo_ g) (broadcastCommandMessageIndex_ g) (broadcastCommandStatus_ g) (broadcastSubsystemIterationsDone_ g) (broadcastIterationsDone_ g) (broadcastIterationBreakpoint_ g) (remoteGatewayApps_ g) (broadcastIncludedRemoteGatewayNames_ g) (isRemoteSubsystemIteration_ g) (remoteIterationIndex_ g) (remoteSubsystemErrorReceived_ g) (activeStateMachineName_ g) (minReadyForEventGenerationStartIteration_ g) common override (world g).
Definition set_world g w := mkGateway (theStateMachine_ g) (theProgressBar_ g) (asyncFailureReceived_ g) (allSupervisorInfo_ g) (broadcastCommandMessageIndex_ g) (broadcastCommandStatus_ g) (broadcastSubsystemIterationsDone_ g) (broadcastIterationsDone_ g) (broadcastIterationBreakpoint_ g) (remoteGatewayApps_ g) (broadcastIncludedRemoteGatewayNames_ g) (isRemoteSubsystemIteration_ g) (remoteIterationIndex_ g) (remoteSubsystemErrorReceived_ g) (activeStateMachineName_ g) (minReadyForEventGenerationStartIteration_ g) (activeStateMachineSubsystemCommonList_ g) (activeStateMachineSubsystemCommonOverrideList_ g) w.

Variable now : Gateway -> Z.
(** Seconds, in tenths. *)
Variable elapse : Z -> Gateway -> Gateway.
Variable send : Z -> Message -> M Gateway string.
Variable errorRequest : Z -> M Gateway string.

Definition andThen {A B} (m : M Gateway (option A)) (k : A -> M Gateway (option B)) : M Gateway (option B) :=
  m ≫= fun o => match o with Some a => k a | None => mret None end.
Definition sleep (tenths : Z) : M Gateway unit := modify (elapse tenths).
Definition step : M Gateway unit := modify (fun g => set_bar g (ProgressBar.step (theProgressBar_ g))).
Definition addParameter (m : Message) (name value : string) : Message := mkMessage (command m) (<[name := value]> (parameters m)).
Definition xdaq_exn (e : exn) : bool := match e with OtherExn => true | _ => false end.
Definition not_fsm_exn (e : exn) : bool := any_exn e && negb (fsm_exn e).

Definition checkForAsyncError : M Gateway unit :=
  failed ← gets asyncFailureReceived_; if (failed : bool) then throw FsmException else mret tt.

(** ** A supervisor *)

(** The entry a [const SupervisorInfo&] refers to. *)
Definition appInfo (id : Z) : M Gateway SupervisorInfo := fun g =>
  (from_option Ok (Throw Undefined) (OrderedMap.OrderedMap.find (AllSupervisorInfo.allSupervisorInfo_ (allSupervisorInfo_ g)) id), g).
Definition nextCommandId (m : Message) : M Gateway Message :=
  i ← gets broadcastCommandMessageIndex_;
  modify (fun g => set_messageIndex g (u32 (i + 1))) ≫= fun _ =>
  mret (addParameter m "commandId" (number (s32 i))).
(** Ten looks at a supervisor of unknown status, two seconds apart. *)
Fixpoint waitKnown (id : Z) (attempts : nat) : M Gateway unit :=
  i ← appInfo id;
  if bool_decide (status_ i = APP_STATUS_UNKNOWN) then
    match attempts with O => throw FsmException | S attempts => sleep 20 ≫= fun _ => waitKnown id attempts end
  else mret tt.
(** The entry's mutex is recursive and held by this thread. *)
Definition setStatusOf (id : Z) (status : string) (progress : Z) (detail : string) : M Gateway unit := fun g =>
  match AllSupervisorInfo.setSupervisorStatus (now g) true (allSupervisorInfo_ g) id status progress detail [] 0 0 0 with
  | Ok a => (Ok tt, set_infos g a)
  | Throw e => (Throw e, g)
  end.
Definition transmit (id : Z) (status : string) (progress : Z) (detail : string) (m : Message) : M Gateway string :=
  waitKnown id 9 ≫= fun _ => setStatusOf id status progress detail ≫= fun _ => send id m.
Definition resend (id : Z) (m : Message) : M Gateway (string * Message) :=
  m ← nextCommandId (addParameter m "retransmission" "1");
  reply ← catch_if xdaq_exn (send id m) (fun _ => throw FsmException);
  mret (reply, m).
Definition exchange (id : Z) (status : string) (progress : Z) (detail : string) (m : Message) : M Gateway (string * Message) :=
  catch_if xdaq_exn (reply ← transmit id status progress detail m; mret (reply, m)) (fun _ => resend id m).

Inductive answer := Finished | Again | Iterate | SubsystemIterate | Answered.
Definition readReply (id : Z) (command reply : string) : M Gateway answer :=
  if bool_decide (reply ∉ [command +:+ "Done"; command +:+ "Response"; command +:+ "Iterate"; command +:+ "SubsystemIterate"; command +:+ "SubIterate"]) then
    catch_if xdaq_exn
      (errorRequest id ≫= fun _ => if bool_decide (command = ERROR_TRANSITION_NAME) then mret Finished else throw FsmException)
      (fun _ => throw FsmException)
  else if bool_decide (reply = command +:+ "Iterate") then mret Iterate
  else if bool_decide (reply = command +:+ "SubsystemIterate") then
    modify (fun g => set_done g false (broadcastIterationsDone_ g)) ≫= fun _ => mret SubsystemIterate
  else if bool_decide (reply = command +:+ "SubIterate") then mret Again
  else mret Answered.

Definition givenDetail (i : SupervisorInfo) (progress iteration subIteration : Z) : string :=
  let detail := if 100 <=? progress then "" else detail_ i in
  if (iteration =? 0) && (subIteration =? 0) then ""
  else if bool_decide (detail = "") then number iteration +:+ ":" +:+ number subIteration else detail.
Definition subIterationBody (id : Z) (command : string) (iteration subIteration : Z) (m : Message) : M Gateway (answer * Message) :=
  checkForAsyncError ≫= fun _ =>
  step ≫= fun _ =>
  let m := if subIteration =? 0 then m else addParameter m "subIterationIndex" (number (s32 subIteration)) in
  step ≫= fun _ =>
  f ← gets theStateMachine_;
  let status := match getCurrentTransitionName f command with Ok name => name | Throw _ => APP_STATUS_UNKNOWN end in
  i ← appInfo id;
  progress ← lift (getProgress i);
  let detail := givenDetail i progress iteration subIteration in
  let progress := if 100 <=? progress then 0 else progress in
  m ← nextCommandId m;
  r ← exchange id status progress detail m;
  a ← readReply id command r.1;
  mret (a, r.2).
Fixpoint subIterationLoop (fuel : nat) (id : Z) (command : string) (iteration subIteration : Z) (m : Message) : M Gateway (option bool) :=
  match fuel with
  | O => mret None
  | S fuel =>
      r ← subIterationBody id command iteration subIteration m;
      match r.1 with
      | Finished | SubsystemIterate | Answered => mret (Some true)
      | Iterate => mret (Some false)
      | Again => subIterationLoop fuel id command iteration (u32 (subIteration + 1)) r.2
      end
  end.
Definition handleBroadcastMessageTarget (fuel : nat) (id : Z) (m : Message) (command : string) (iteration : Z) : M Gateway (option bool) :=
  catch_if not_fsm_exn (subIterationLoop fuel id command iteration 0 m) (fun _ => throw FsmException).

(** ** Remote subsystems *)

Variable subsystemCommon subsystemCommonOverride : string. (* the tables of the aliases, as text *)
Variable getLastLogEntry : string -> string.

Definition isRemoteGatewayIncludedInBroadcast g (r : RemoteGatewayInfo) : bool := bool_decide (fullName r ∈ broadcastIncludedRemoteGatewayNames_ g).
Definition startsWith (p s : string) : bool := starts_with (txt p) (txt s).
Definition contains (p s : string) : bool := match StringExpansion.findIn (txt p) (txt s) with Some _ => true | None => false end.
Definition errorCommands : list string := [ERROR_TRANSITION_NAME; FAIL_TRANSITION_NAME; HALT_TRANSITION_NAME; ABORT_TRANSITION_NAME].
Definition isMode (m : FSM_ModeTypes) (r : RemoteGatewayInfo) : bool := bool_decide (fsm_mode r = m).

Definition set_remote_done (r : RemoteGatewayInfo) done halt := mkRemote (fullName r) (remoteName r) (remoteStatus r) (remoteProgress r) (remoteDetail r) (remoteCommand r) (fsmName r) (config_dump r) (selected_config_alias r) (fsm_mode r) (fsm_included r) done halt.
Definition set_remote_command (r : RemoteGatewayInfo) command name := mkRemote (fullName r) (remoteName r) (remoteStatus r) (remoteProgress r) (remoteDetail r) command name (config_dump r) (selected_config_alias r) (fsm_mode r) (fsm_included r) (iterationsDone r) (doNotHaltWasCommandedHalt r).
Definition set_remote_status (r : RemoteGatewayInfo) status progress dump := mkRemote (fullName r) (remoteName r) status progress (remoteDetail r) (remoteCommand r) (fsmName r) dump (selected_config_alias r) (fsm_mode r) (fsm_included r) (iterationsDone r) (doNotHaltWasCommandedHalt r).

(** A subsystem that only follows Configure, and is not in a state for it. *)
Definition skipsOnlyConfigure (command : string) (r : RemoteGatewayInfo) : bool :=
  isMode OnlyConfigure r &&
  negb (bool_decide (remoteStatus r = INITIAL_STATE_NAME) || bool_decide (remoteStatus r = HALTED_STATE_NAME) ||
        startsWith FAILED_STATE_NAME (remoteStatus r) || contains "Error" (remoteStatus r) ||
        (bool_decide (remoteStatus r = HALTED_STATE_NAME) && bool_decide (command = CONFIGURE_TRANSITION_NAME))).
Definition alreadyConfigured (command : string) (r : RemoteGatewayInfo) : bool :=
  bool_decide (remoteStatus r = CONFIGURED_STATE_NAME) && (remoteProgress r =? 100) &&
  (bool_decide (command = INIT_TRANSITION_NAME) || bool_decide (command = CONFIGURE_TRANSITION_NAME)).
(** The command for a subsystem that is not to be halted: [None] to skip it. *)
Definition localCommand (command : string) (r : RemoteGatewayInfo) : option string :=
  if isMode DoNotHalt r && bool_decide (command ∈ errorCommands) &&
     negb (bool_decide (command = HALT_TRANSITION_NAME) && startsWith FAILED_STATE_NAME (remoteStatus r))
  then
    if bool_decide (command = ABORT_TRANSITION_NAME) ||
       (bool_decide (command = HALT_TRANSITION_NAME) && bool_decide (remoteStatus r ∈ [RUNNING_STATE_NAME; PAUSED_STATE_NAME]))
    then Some STOP_TRANSITION_NAME else None
  else Some command.
Definition commandAndParams (m : Message) (local : string) (r : RemoteGatewayInfo) : string :=
  local +:+
  (match parameters m !! "ConfigurationAlias" with
   | Some v => "," +:+ (if bool_decide (selected_config_alias r = "") then v else selected_config_alias r)
   | None => ""
   end) +:+
  (match parameters m !! "RunNumber" with Some v => "," +:+ v | None => "" end).
Definition encoded (s : string) : string := str (StringMacros.encodeURIComponent (txt s)).
Definition commandText g (m : Message) (iteration : Z) (local : string) (r : RemoteGatewayInfo) : string :=
  commandAndParams m local r +:+
  ",IterationIndex:" +:+ number iteration +:+
  ",MinReadyForEventGenerationStartIteration:" +:+ number (minReadyForEventGenerationStartIteration_ g) +:+
  (if bool_decide (activeStateMachineSubsystemCommonList_ g = "") then "" else ",SubsystemCommonTableList:" +:+ encoded (activeStateMachineSubsystemCommonList_ g)) +:+
  (if bool_decide (activeStateMachineSubsystemCommonOverrideList_ g = "") then "" else ",SubsystemCommonOverrideTableList:" +:+ encoded (activeStateMachineSubsystemCommonOverrideList_ g)) +:+
  (if bool_decide (getLastLogEntry local = "") then "" else ",LogEntry:" +:+ encoded (getLastLogEntry local)).
(** One turn of the loop: the copy afterwards, and whether it was commanded. *)
Definition commandRemote g (m : Message) (iteration : Z) (r : RemoteGatewayInfo) : result (RemoteGatewayInfo * bool) :=
  let c := command m in
  if negb (isRemoteGatewayIncludedInBroadcast g r) then Ok (r, false)
  else if negb (iteration =? 0) && iterationsDone r then Ok (r, false)
  else
    let r := if iteration =? 0 then set_remote_done r false false else r in
    match localCommand c r with
    | None => Ok (r, false)
    | Some local =>
        let r := if isMode DoNotHalt r && bool_decide (c = HALT_TRANSITION_NAME) && startsWith FAILED_STATE_NAME (remoteStatus r)
                 then set_remote_done r (iterationsDone r) true else r in
        if skipsOnlyConfigure c r || alreadyConfigured c r then Ok (r, false)
        else if bool_decide (remoteCommand r ∉ [""; "Sent"]) && (iteration =? 0) then Throw RuntimeError
        else
          let r := set_remote_command r (commandText g m iteration local r) (activeStateMachineName_ g) in
          let r := if iteration =? 0 then set_remote_status r ("Launching " +:+ commandAndParams m local r) 0 "" else r in
          Ok (r, true)
    end.
Definition writeBack (iteration : Z) (commanded : list string) (apps : list RemoteGatewayInfo) (l : RemoteGatewayInfo) : list RemoteGatewayInfo :=
  let was := bool_decide (fullName l ∈ commanded) in
  if negb was && negb (iteration =? 0) then apps
  else match search (fun r => bool_decide (fullName r = fullName l)) apps with
       | None => apps
       | Some i => alter (fun r =>
           let r := set_remote_done r (iterationsDone l) (doNotHaltWasCommandedHalt l) in
           if was then
             set_remote_status (set_remote_command r (remoteCommand l) (fsmName l)) (remoteStatus l) (remoteProgress l)
               (if bool_decide (config_dump l = "") then config_dump r else config_dump l)
           else r) i apps
       end.
Definition broadcastMessageToRemoteGateways (m : Message) (iteration : Z) : M Gateway unit :=
  apps ← gets remoteGatewayApps_;
  match apps with
  | [] => mret tt
  | _ :: _ =>
      modify (fun g => if bool_decide (command m = CONFIGURE_TRANSITION_NAME) then set_common g subsystemCommon subsystemCommonOverride else set_common g "" "") ≫= fun _ =>
      g ← gets id;
      local ← lift (mapM (commandRemote g m iteration) apps);
      let commanded := map (fun p => fullName p.1) (List.filter snd local) in
      modify (fun g => set_remotes g (fold_left (writeBack iteration commanded) (map fst local) (remoteGatewayApps_ g)))
  end.

(** What the poll makes of a subsystem. *)
Inductive progressOf := Skipped | Done | Failing | Requests (index : Z) | Unread | Underway.
Definition restingStates : list string := [INITIAL_STATE_NAME; HALTED_STATE_NAME; CONFIGURED_STATE_NAME; RUNNING_STATE_NAME; PAUSED_STATE_NAME; SHUTDOWN_STATE_NAME].
Definition resting (status : string) : bool := bool_decide (status ∈ restingStates) || startsWith FAILED_STATE_NAME status.
(** [std::stoul], stored in an [unsigned int]. *)
Definition stoul (s : text) : option Z :=
  match scanNumber s with
  | Some (neg, v) => if 2 ^ 64 - 1 <? v then None else Some (u32 (if (neg : bool) then u64 (- v) else v))
  | None => None
  end.
Definition requestPrefix : string := "needNextIteration:".
Definition poll g (command destinationState : string) (r : RemoteGatewayInfo) : progressOf :=
  if negb (isRemoteGatewayIncludedInBroadcast g r) || iterationsDone r then Skipped
  else if isMode DoNotHalt r && bool_decide (command ∈ errorCommands) && negb (doNotHaltWasCommandedHalt r) then Skipped
  else if skipsOnlyConfigure command r || alreadyConfigured command r then Skipped
  else if contains "Error" (remoteStatus r) || contains "Fail" (remoteStatus r) then Failing
  else if bool_decide (remoteStatus r = destinationState) && (remoteProgress r =? 100) then Done
  else match StringExpansion.findIn (txt requestPrefix) (txt (remoteDetail r)) with
       | Some k =>
           if resting (remoteStatus r) then Underway
           else match stoul (drop (k + String.length requestPrefix) (txt (remoteDetail r))) with Some i => Requests i | None => Unread end
       | None => Underway
       end.
Record Polls := mkPolls { progress100cnt : gmap string Z; unknownResponseCounts : gmap string Z }.
(** How many are left of how many, and the last of them. *)
Record Tally := mkTally { remaining : Z; total : Z; last : string * string * Z }.
Definition maxIterations : Z := 3000.
Definition markDone (name : string) (apps : list RemoteGatewayInfo) : list RemoteGatewayInfo :=
  match search (fun r => bool_decide (fullName r = name)) apps with
  | Some i => alter (fun r => set_remote_done r true (doNotHaltWasCommandedHalt r)) i apps
  | None => apps
  end.
(** One subsystem in one look; the flag: nobody is left so far. *)
Definition pollOne (command destinationState : string) (iterationIndex iteration : Z) (p : Polls) (r : RemoteGatewayInfo) : M Gateway (Polls * bool) :=
  g ← gets id;
  match poll g command destinationState r with
  | Skipped => mret (p, true)
  | Failing => throw RuntimeError
  | Done => modify (fun g => set_remotes g (markDone (fullName r) (remoteGatewayApps_ g))) ≫= fun _ => mret (p, true)
  | Unread => mret (p, false)
  | Requests i =>
      let expected := u32 (iterationIndex + 1) in
      if i <? expected then mret (p, false)
      else if expected <? i then throw RuntimeError
      else
        modify (fun g => set_done g false (broadcastIterationsDone_ g)) ≫= fun _ =>
        mret (mkPolls (<[fullName r := 0]> (progress100cnt p)) (unknownResponseCounts p), true)
  | Underway =>
      let n := if remoteProgress r =? 100 then default 0 (progress100cnt p !! fullName r) + 1 else 0 in
      if 300 <? n then throw RuntimeError
      else
        let u := if bool_decide (remoteStatus r = APP_STATUS_UNKNOWN) then default 0 (unknownResponseCounts p !! fullName r) + 1 else 0 in
        if 2 <? u then throw RuntimeError
        else if maxIterations <? iteration then throw RuntimeError
        else mret (mkPolls (<[fullName r := n]> (progress100cnt p)) (<[fullName r := u]> (unknownResponseCounts p)), false)
  end.
Definition tally g (command destinationState : string) (r : RemoteGatewayInfo) (finished : bool) (t : Tally) : Tally :=
  mkTally (remaining t + (if finished then 0 else 1))
    (total t + match poll g command destinationState r with Skipped => 0 | _ => 1 end)
    (if finished then last t else (remoteName r, remoteStatus r, remoteProgress r)).
Fixpoint pollAll (command destinationState : string) (iterationIndex iteration : Z) (p : Polls) (t : Tally) (apps : list RemoteGatewayInfo) : M Gateway (Polls * Tally) :=
  match apps with
  | [] => mret (p, t)
  | r :: apps =>
      g ← gets id;
      x ← pollOne command destinationState iterationIndex iteration p r;
      pollAll command destinationState iterationIndex iteration x.1 (tally g command destinationState r x.2 t) apps
  end.
Definition waitText (command : string) (iterationIndex iteration : Z) (t : Tally) : string :=
  let left := u32 (u64 (u64 (maxIterations - iteration) * 200) / 1000) in
  (if 0 <? iterationIndex then "Subsystem-iteration " +:+ number iterationIndex +:+ ": " else "") +:+
  "Waiting on " +:+ number (remaining t) +:+ " of " +:+ number (total t) +:+ " remote gateways to finish command '" +:+ command +:+ "'" +:+
  (if remaining t =? 1 then ".. Last is '" +:+ (last t).1.1 +:+ "' w/progress='" +:+ number (last t).2 +:+ "' and status='" +:+ (last t).1.2 +:+ "'" else "") +:+ endl +:+
  "(wait count = " +:+ number iteration +:+ ", " +:+
  (if left / 60 <? 1 then number left else number (left / 60) +:+ " minutes " +:+ number (left mod 60)) +:+ " seconds until timeout)" +:+ endl.
Fixpoint pollLoop (fuel : nat) (command destinationState : string) (iterationIndex iteration : Z) (p : Polls) : M Gateway (option unit) :=
  match fuel with
  | O => mret None
  | S fuel =>
      apps ← gets remoteGatewayApps_;
      x ← pollAll command destinationState iterationIndex (iteration + 1) p (mkTally 0 0 ("", "", 0)) apps;
      let finished := remaining x.2 =? 0 in
      (if finished then mret tt
       else modify (fun g => set_status g (waitText command iterationIndex (iteration + 1) x.2)) ≫= fun _ => sleep 2 : M Gateway unit) ≫= fun _ =>
      checkForAsyncError ≫= fun _ =>
      if finished then mret (Some tt) else pollLoop fuel command destinationState iterationIndex (iteration + 1) x.1
  end.
Definition broadcastMessageToRemoteGatewaysComplete (fuel : nat) (m : Message) (iterationIndex : Z) : M Gateway (option unit) :=
  f ← gets theStateMachine_;
  destinationState ← lift (getTransitionFinalStateName f (command m));
  if bool_decide (command m = "Error") then mret (Some tt)
  else pollLoop fuel (command m) destinationState iterationIndex 0 (mkPolls ∅ ∅).

(** ** The iterations *)

Definition indexed (standalone : bool) (m : Message) (subsystemIteration iteration : Z) : Message :=
  let m := if standalone then addParameter m "subsystemIterationIndex" (number SUBSYSTEM_ITERATION_STANDALONE)
           else if subsystemIteration =? 0 then m else addParameter m "subsystemIterationIndex" (number (s32 subsystemIteration)) in
  if iteration =? 0 then m else addParameter m "iterationIndex" (number (s32 iteration)).
(** The supervisors of one level, each with its flag; how many failed. *)
Fixpoint levelLoop (fuel : nat) (standalone : bool) (m : Message) (subsystemIteration iteration : Z) (level : list (Z * bool)) : M Gateway (option (list (Z * bool) * nat)) :=
  match level with
  | [] => mret (Some ([], O))
  | (id, done) :: level =>
      checkForAsyncError ≫= fun _ =>
      andThen
        (if (done : bool) then mret (Some (true, O))
         else catch_if fsm_exn
           (andThen (handleBroadcastMessageTarget fuel id (indexed standalone m subsystemIteration iteration) (command m) iteration) (fun d =>
              (if (d : bool) then mret tt else modify (fun g => set_done g (broadcastSubsystemIterationsDone_ g) false)) ≫= fun _ => mret (Some (d, O))))
           (fun _ => mret (Some (false, 1%nat))))
        (fun x => andThen (levelLoop fuel standalone m subsystemIteration iteration level) (fun y =>
           mret (Some ((id, x.1) :: y.1, (x.2 + y.2)%nat))))
  end.
Fixpoint levelsLoop (fuel : nat) (standalone : bool) (m : Message) (subsystemIteration iteration : Z) (levels : list (list (Z * bool))) : M Gateway (option (list (list (Z * bool)))) :=
  match levels with
  | [] => mret (Some [])
  | level :: levels =>
      andThen (levelLoop fuel standalone m subsystemIteration iteration level) (fun x =>
        if (0 <? x.2)%nat then throw FsmException
        else andThen (levelsLoop fuel standalone m subsystemIteration iteration levels) (fun y => mret (Some (x.1 :: y))))
  end.
Definition iterationStatus (subsystemIteration iteration : Z) (done : bool) : string :=
  (if 0 <? iteration then "SubsystemIteration " +:+ number subsystemIteration +:+ ", Iteration " +:+ number iteration +:+ ": " else "") +:+
  (if done then "complete" else "continuing") +:+ endl.
(** The inner loop: the next iteration index and the flags. *)
Fixpoint iterationLoop (fuel n : nat) (standalone : bool) (m : Message) (subsystemIteration iteration : Z) (levels : list (list (Z * bool))) : M Gateway (option (Z * list (list (Z * bool)))) :=
  match n with
  | O => mret None
  | S n =>
      modify (fun g => set_done g (broadcastSubsystemIterationsDone_ g) true) ≫= fun _ =>
      andThen (levelsLoop fuel standalone m subsystemIteration iteration levels) (fun levels =>
        done ← gets broadcastIterationsDone_;
        modify (fun g => set_status g (iterationStatus subsystemIteration iteration done)) ≫= fun _ =>
        if (done : bool) then mret (Some (u32 (iteration + 1), levels))
        else iterationLoop fuel n standalone m subsystemIteration (u32 (iteration + 1)) levels)
  end.

(** The wait for the top-level Gateway, four minutes at most. *)
Fixpoint awaitLoop (fuel : nat) (deadline next : Z) : M Gateway (option unit) :=
  g ← gets id;
  if (remoteIterationIndex_ g <? next) && negb (remoteSubsystemErrorReceived_ g) then
    match fuel with
    | O => mret None
    | S fuel =>
        sleep 10 ≫= fun _ =>
        g ← gets id;
        if (deadline <=? now g) && (remoteIterationIndex_ g <? next) then throw RuntimeError else awaitLoop fuel deadline next
    end
  else mret (Some tt).
Definition awaitTopLevel (fuel : nat) (subsystemIteration : Z) : M Gateway (option unit) :=
  let next := u32 (subsystemIteration + 1) in
  modify (fun g => set_status g (requestPrefix +:+ number next)) ≫= fun _ =>
  g ← gets id;
  andThen (if remoteIterationIndex_ g <? next then awaitLoop fuel (now g + 240) next else mret (Some tt)) (fun _ =>
    g ← gets id;
    if remoteSubsystemErrorReceived_ g then
      modify (fun g => set_top g (isRemoteSubsystemIteration_ g) (remoteIterationIndex_ g) false) ≫= fun _ => throw RuntimeError
    else if negb (remoteIterationIndex_ g =? next) then throw RuntimeError
    else modify (fun g => set_status g ("Completed subsystem-iteration: " +:+ number subsystemIteration +:+ " (top-level driven, continuing)")) ≫= fun _ => mret (Some tt)).
Definition subsystemStatus (subsystemIteration : Z) (done : bool) : string :=
  (if 0 <? subsystemIteration then "Subsystem-iteration " +:+ number subsystemIteration +:+ ": " else "") +:+
  (if done then "complete (all done)" else "complete (need more subsystem-iterations)") +:+ endl.
Definition betweenSubsystemIterations (fuel : nat) (subsystemIteration : Z) : M Gateway (option unit) :=
  g ← gets id;
  let done := broadcastSubsystemIterationsDone_ g in
  if negb (subsystemIteration =? 0) || negb done then
    if negb done && isRemoteSubsystemIteration_ g then awaitTopLevel fuel subsystemIteration
    else modify (fun g => set_status g (subsystemStatus subsystemIteration done)) ≫= fun _ => mret (Some tt)
  else mret (Some tt).
Definition resetFlags (levels : list (list (Z * bool))) : list (list (Z * bool)) := map (map (fun p => (p.1, false))) levels.
(** The outer loop. *)
Fixpoint subsystemLoop (fuel n : nat) (standalone : bool) (m : Message) (subsystemIteration iteration : Z) (levels : list (list (Z * bool))) : M Gateway (option unit) :=
  match n with
  | O => mret None
  | S n =>
      modify (fun g => set_done g true (broadcastIterationsDone_ g)) ≫= fun _ =>
      breakpoint ← gets broadcastIterationBreakpoint_;
      if breakpoint <=? subsystemIteration then
        modify (fun g => set_done g false (broadcastIterationsDone_ g)) ≫= fun _ =>
        sleep 50 ≫= fun _ =>
        done ← gets broadcastSubsystemIterationsDone_;
        if (done : bool) then mret (Some tt) else subsystemLoop fuel n standalone m subsystemIteration iteration levels
      else
        (if subsystemIteration =? 0 then mret tt else broadcastMessageToRemoteGateways m subsystemIteration) ≫= fun _ =>
        andThen (iterationLoop fuel fuel standalone m subsystemIteration iteration levels) (fun x =>
        andThen (broadcastMessageToRemoteGatewaysComplete fuel m subsystemIteration) (fun _ =>
        andThen (betweenSubsystemIterations fuel subsystemIteration) (fun _ =>
          done ← gets broadcastSubsystemIterationsDone_;
          if (done : bool) then mret (Some tt)
          else subsystemLoop fuel n standalone m (u32 (subsystemIteration + 1)) x.1 (resetFlags x.2))))
  end.

(** ** The broadcast *)

Variable contexts : list AllSupervisorInfo.XDAQContext.
Variable gatewayId : Z.
(** The mutex of the Gateway's own entry can be taken. *)
Variable gatewayFree : bool.

Definition setGatewayStatus : M Gateway unit := fun g =>
  match AllSupervisorInfo.setSupervisorStatus (now g) gatewayFree (allSupervisorInfo_ g) gatewayId (getCurrentStateName (theStateMachine_ g)) 100 "" [] 0 0 0 with
  | Ok a => (Ok tt, set_infos g a)
  | Throw e => (Throw e, g)
  end.
(** Only the applications of the Gateway's context. *)
Definition onlyLocal (c : string) : bool := bool_decide (c = SHUTDOWN_TRANSITION_NAME) || bool_decide (c = STARTUP_TRANSITION_NAME).
Definition orderedSupervisors (command : string) : M Gateway (list (list Z)) := fun g =>
  (match AllSupervisorInfo.getOrderedSupervisorDescriptors (allSupervisorInfo_ g) contexts command (onlyLocal command) with
   | Throw RuntimeError => Throw FsmException
   | r => r
   end, g).
Definition queueError g (r : RemoteGatewayInfo) : RemoteGatewayInfo :=
  if negb (isRemoteGatewayIncludedInBroadcast g r) || iterationsDone r then r
  else if bool_decide (remoteCommand r ∉ [""; "Sent"]) then r
  else set_remote_command r ERROR_TRANSITION_NAME (activeStateMachineName_ g).
Definition abandon {A} (e : exn) : M Gateway A :=
  modify (fun g => set_top g false 0 (remoteSubsystemErrorReceived_ g)) ≫= fun _ =>
  modify (fun g => set_status g "") ≫= fun _ =>
  modify (fun g => set_remotes g (map (queueError g) (remoteGatewayApps_ g))) ≫= fun _ =>
  throw e.
Definition wrapUp (command : string) : M Gateway unit :=
  (if bool_decide (command = INIT_TRANSITION_NAME) then mret tt
   else modify (fun g => set_top g false 0 (remoteSubsystemErrorReceived_ g))) ≫= fun _ =>
  modify (fun g => set_top g (isRemoteSubsystemIteration_ g) (remoteIterationIndex_ g) false) ≫= fun _ =>
  checkForAsyncError ≫= fun _ => step.
Definition broadcastMessage (fuel : nat) (m : Message) : M Gateway (option unit) :=
  modify (fun g => set_status g "") ≫= fun _ =>
  step ≫= fun _ =>
  setGatewayStatus ≫= fun _ =>
  modify (fun g => set_done g (broadcastSubsystemIterationsDone_ g) false) ≫= fun _ =>
  ordered ← orderedSupervisors (command m);
  step ≫= fun _ =>
  step ≫= fun _ =>
  modify (fun g => set_included g (list_to_set (map fullName (List.filter fsm_included (remoteGatewayApps_ g))))) ≫= fun _ =>
  g ← gets id;
  let standalone := negb (isRemoteSubsystemIteration_ g) && bool_decide (broadcastIncludedRemoteGatewayNames_ g = ∅) in
  broadcastMessageToRemoteGateways m 0 ≫= fun _ =>
  step ≫= fun _ =>
  andThen
    (catch_all
      (andThen (subsystemLoop fuel fuel standalone m 0 0 (map (map (fun id => (id, false))) ordered)) (fun _ =>
         wrapUp (command m) ≫= fun _ => mret (Some tt)))
      abandon)
    (fun _ =>
       step ≫= fun _ => modify (fun g => set_status g "") ≫= fun _ => step ≫= fun _ => mret (Some tt)).

End Broadcast.

(** ** Targets that follow scripts

    A target answers with the next entry of its script, and Done at its end.  The
    messages sent are recorded. *)

Inductive request := AsksSub | AsksIteration | AsksSubsystem | IsDone | Fails.
#[export] Instance request_eq_dec : EqDecision request.
Proof. solve_decision. Defined.
Definition suffix (r : request) : string :=
  match r with AsksSub => "SubIterate" | AsksIteration => "Iterate" | AsksSubsystem => "SubsystemIterate" | IsDone => "Done" | Fails => "Failed" end.
Definition next (l : list request) : request * list request := match l with [] => (IsDone, []) | r :: l => (r, l) end.
Abbreviation targets := ((Z -> list request) * list (Z * Message))%type.
Abbreviation G := (@Gateway targets).
Definition setScript (scripts : Z -> list request) (id : Z) (l : list request) : Z -> list request := fun i => if i =? id then l else scripts i.
Definition serve (id : Z) (m : Message) : M G string := fun g =>
  let '(scripts, log) := world g in
  let '(r, rest) := next (scripts id) in
  (Ok (command m +:+ suffix r), set_world g (setScript scripts id rest, log ++ [(id, m)])).
Definition askError (id : Z) : M G string := mret "error".

Section Scripted.
Variable now : G -> Z.
Variable elapse : Z -> G -> G.
Variable f : FiniteStateMachine Fn.
Variable c : string.
Variable P : nat.

Abbreviation handle fuel id m iteration := (handleBroadcastMessageTarget now elapse serve askError fuel id m c iteration).

(** The command is a transition of the machine's state. *)
Hypothesis transition : exists name dest, getCurrentTransitionName f c = Ok name /\ name <> APP_STATUS_UNKNOWN /\ getTransitionFinalStateName f c = Ok dest.

(** A status was heard of the supervisor. *)
Definition heard (g : G) (id : Z) : Prop := exists i, OrderedMap.OrderedMap.find (AllSupervisorInfo.allSupervisorInfo_ (allSupervisorInfo_ g)) id = Some i /\
  status_ i <> APP_STATUS_UNKNOWN /\ is_Some (progress_ i).
Record quiet (ids : list Z) (g : G) : Prop := {
  q_async : asyncFailureReceived_ g = false;
  q_machine : theStateMachine_ g = f;
  q_remotes : remoteGatewayApps_ g = [];
  q_breakpoint : Z.of_nat P <= broadcastIterationBreakpoint_ g;
  q_top : isRemoteSubsystemIteration_ g = false;
  q_heard id : id ∈ ids -> heard g id }.

Fixpoint numbered (k : Z) (l : list (Z * Message)) : list (Z * Message) :=
  match l with [] => [] | (id, m) :: l => (id, addParameter m "commandId" (number (s32 k))) :: numbered (u32 (k + 1)) l end.
Definition after (k : Z) (n : nat) : Z := Nat.iter n (fun k => u32 (k + 1)) k.
Lemma after_S k n : after (u32 (k + 1)) n = after k (S n).
Proof. unfold after. by rewrite Nat.iter_succ_r. Qed.
Lemma after_add k a b : after (after k a) b = after k (a + b).
Proof. revert k. induction a as [|a IH]; intros k; [done|]. rewrite <- after_S, IH. cbn [Nat.add]. by rewrite after_S. Qed.
Lemma numbered_append a : forall k b, numbered k (a ++ b) = numbered k a ++ numbered (after k (length a)) b.
Proof. induction a as [|[id m] a IH]; intros k b; [done|]. cbn [app numbered length]. by rewrite IH, after_S. Qed.

(** [sent] was sent, and the two flags are as given. *)
Record ran (ids : list Z) (sent : list (Z * Message)) (scripts : Z -> list request) (subsystem iterations : bool) (g g' : G) : Prop := {
  r_quiet : quiet ids g';
  r_scripts i : (world g').1 i = scripts i;
  r_log : (world g').2 = (world g).2 ++ numbered (broadcastCommandMessageIndex_ g) sent;
  r_index : broadcastCommandMessageIndex_ g' = after (broadcastCommandMessageIndex_ g) (length sent);
  r_subsystem : broadcastSubsystemIterationsDone_ g' = subsystem;
  r_iterations : broadcastIterationsDone_ g' = iterations }.

Lemma ran_trans ids s1 s2 f1 f2 a1 b1 a2 b2 g g1 g2 : ran ids s1 f1 a1 b1 g g1 -> ran ids s2 f2 a2 b2 g1 g2 -> ran ids (s1 ++ s2) f2 a2 b2 g g2.
Proof.
  intros [] []. split; try done.
  - rewrite r_log1, r_log0, r_index0, numbered_append. by rewrite <- app_assoc.
  - by rewrite r_index1, r_index0, after_add, length_app.
Qed.

Lemma addParameter_twice m n v w : addParameter (addParameter m n v) n w = addParameter m n w.
Proof. unfold addParameter. cbn. by rewrite insert_insert_eq. Qed.
Lemma addParameter_comm m n n' v w : n <> n' -> addParameter (addParameter m n v) n' w = addParameter (addParameter m n' w) n v.
Proof. intros Hn. unfold addParameter. cbn. by rewrite insert_insert_ne. Qed.

(** One sub-iteration. *)
Definition withSub (m : Message) (u : Z) : Message := if u =? 0 then m else addParameter m "subIterationIndex" (number (s32 u)).
Definition answerOf (r : request) : answer :=
  match r with AsksSub => Again | AsksIteration => Iterate | AsksSubsystem => SubsystemIterate | _ => Answered end.
Lemma heard_known g id i : OrderedMap.OrderedMap.find (AllSupervisorInfo.allSupervisorInfo_ (allSupervisorInfo_ g)) id = Some i ->
  status_ i <> APP_STATUS_UNKNOWN -> waitKnown elapse id 9 g = (Ok tt, g).
Proof.
  intros Hf Hs. cbn [waitKnown]. rewrite (bind_ok _ _ g i g) by (unfold appInfo; by rewrite Hf). by rewrite bool_decide_false.
Qed.

Lemma setSupervisorStatus_run time a id i status progress detail : OrderedMap.OrderedMap.find (AllSupervisorInfo.allSupervisorInfo_ a) id = Some i ->
  exists a' i', AllSupervisorInfo.setSupervisorStatus time true a id status progress detail [] 0 0 0 = Ok a' /\ status_ i' = status /\ progress_ i' = Some progress /\
    contextName_ i' = contextName_ i /\ class_ i' = class_ i /\ AllSupervisorInfo.theSupervisorInfo_ a' = AllSupervisorInfo.theSupervisorInfo_ a /\
    forall j, OrderedMap.OrderedMap.find (AllSupervisorInfo.allSupervisorInfo_ a') j = if j =? id then Some i' else OrderedMap.OrderedMap.find (AllSupervisorInfo.allSupervisorInfo_ a) j.
Proof.
  intros Hi. unfold AllSupervisorInfo.setSupervisorStatus. rewrite Hi. unfold setStatus. change (emplaceAvailableSpace time 0 ?d) with (Ok d). cbn [mbind result_bind].
  set (i0 := mkInfo _ _ _ _ _ _ _ _ status (Some progress) _ _ _ _ _ _ _). set (i' := fold_left _ _ _). eexists _, i'. split; [done|].
  assert (Hs : status_ i' = status /\ progress_ i' = Some progress /\ contextName_ i' = contextName_ i /\ class_ i' = class_ i) by (unfold i'; cbn [fold_left]; by case_match).
  destruct Hs as (Hs & Hp & Hcn & Hcl). split_and!; try done. intros j. cbn [AllSupervisorInfo.allSupervisorInfo_ AllSupervisorInfo.set_infos]. rewrite OrderedMap.OrderedMap.find_updated.
  destruct (OrderedMap.OrderedMap.sameKey_spec j id) as [->|Hne]; [by rewrite Z.eqb_refl, Hi|]. by destruct (Z.eqb_spec j id).
Qed.
Lemma setStatusOf_run ids g id i status progress detail : quiet ids g ->
  OrderedMap.OrderedMap.find (AllSupervisorInfo.allSupervisorInfo_ (allSupervisorInfo_ g)) id = Some i -> status <> APP_STATUS_UNKNOWN ->
  exists a, setStatusOf now id status progress detail g = (Ok tt, set_infos g a) /\ quiet ids (set_infos g a).
Proof.
  intros Hq Hi Hs. unfold setStatusOf. destruct (setSupervisorStatus_run (now g) (allSupervisorInfo_ g) id i status progress detail Hi) as (a & i' & -> & Hs' & Hp' & _ & _ & _ & Hf).
  exists a. split; [done|]. destruct Hq as [H1 H2 H3 H4 H5 Hh]. split; try done.
  intros id' Hid. destruct (Hh id' Hid) as (i1 & Hf1 & Hu & Hp). unfold heard. cbn [allSupervisorInfo_ set_infos]. rewrite Hf.
  destruct (id' =? id); [|by exists i1]. exists i'. split; [done|]. rewrite Hs', Hp'. split; [done|by eexists].
Qed.
Lemma readReply_run id r g : r <> Fails ->
  readReply askError id c (c +:+ suffix r) g = (Ok (answerOf r), if bool_decide (r = AsksSubsystem) then set_done g false (broadcastIterationsDone_ g) else g).
Proof.
  intros Hr. unfold readReply.
  rewrite (bool_decide_false (_ ∉ _)) by (intros Hn; apply Hn; destruct r; rewrite !elem_of_cons; naive_solver).
  assert (He : forall a b : string, bool_decide (c +:+ a = c +:+ b) = bool_decide (a = b)).
  { intros a b. apply bool_decide_ext. split; [|by intros ->]. clear. induction c as [|x c' IH]; [done|]. intros H. injection H as H. by apply IH. }
  rewrite !He. by destruct r.
Qed.

(** A sub-iteration up to the reply. *)
Lemma until_reply ids g id iteration u m scripts log r rest : quiet ids g -> id ∈ ids -> command m = c ->
  world g = (scripts, log) -> next (scripts id) = (r, rest) ->
  let m' := addParameter (withSub m u) "commandId" (number (s32 (broadcastCommandMessageIndex_ g))) in
  exists g', subIterationBody now elapse serve askError id c iteration u m g = (readReply askError id c (c +:+ suffix r) ≫= fun a => mret (a, m')) g' /\
    ran ids [(id, withSub m u)] (setScript scripts id rest) (broadcastSubsystemIterationsDone_ g) (broadcastIterationsDone_ g) g g'.
Proof using transition.
  intros Hq Hid Hm Hw Hn m'. destruct transition as (name & dest & Hname & Hunknown & _).
  set (g1 := set_bar g (ProgressBar.step (theProgressBar_ g))). set (g2 := set_bar g1 (ProgressBar.step (theProgressBar_ g1))).
  set (g3 := set_messageIndex g2 (u32 (broadcastCommandMessageIndex_ g + 1))).
  assert (Hq3 : quiet ids g3) by (destruct Hq; by split).
  destruct (q_heard ids g Hq id Hid) as (i & Hi & Hs & [progress Hp]).
  unfold subIterationBody. rewrite (bind_ok checkForAsyncError _ g tt g) by (unfold checkForAsyncError; rewrite (bind_ok (gets _) _ g false g) by (unfold gets; by rewrite (q_async ids g Hq)); done).
  rewrite (bind_ok step _ g tt g1) by done. cbv zeta. change (if u =? 0 then m else _) with (withSub m u). rewrite (bind_ok step _ g1 tt g2) by done.
  rewrite (bind_ok (gets _) _ g2 f g2) by (unfold gets; cbn; by rewrite (q_machine ids g Hq)). rewrite Hname.
  rewrite (bind_ok (appInfo id) _ g2 i g2) by (unfold appInfo; cbn; by rewrite Hi).
  rewrite (bind_ok (lift _) _ g2 progress g2) by (unfold lift, getProgress; by rewrite Hp).
  rewrite (bind_ok (nextCommandId _) _ g2 m' g3) by done.
  set (p' := if 100 <=? progress then 0 else progress). set (detail := givenDetail _ _ _ _).
  destruct (setStatusOf_run ids g3 id i name p' detail Hq3 Hi Hunknown) as (a & Ha & Hq4). set (g4 := set_infos g3 a) in *.
  set (g5 := set_world g4 (setScript scripts id rest, log ++ [(id, m')])).
  assert (Hex : exchange now elapse serve id name p' detail m' g3 = (Ok (c +:+ suffix r, m'), g5)).
  { unfold exchange, catch_if, transmit. rewrite (bind_ok _ _ g3 (c +:+ suffix r) g5); [done|].
    rewrite (bind_ok _ _ g3 tt g3) by (by apply (heard_known g3 id i)). rewrite (bind_ok _ _ g3 tt g4) by done.
    unfold serve. change (world g4) with (world g). rewrite Hw, Hn. assert (Hc : command m' = c) by (unfold m', withSub; by destruct (u =? 0)). by rewrite Hc. }
  rewrite (bind_ok _ _ _ _ _ Hex). exists g5. split; [done|]. assert (Hq5 : quiet ids g5) by (destruct Hq4; by split).
  split; try done. cbn. by rewrite Hw.
Qed.
(** A sub-iteration of a target that answers [r]. *)
Lemma body_run ids g id iteration u m scripts log r rest : quiet ids g -> id ∈ ids -> command m = c -> r <> Fails ->
  world g = (scripts, log) -> next (scripts id) = (r, rest) ->
  let m' := addParameter (withSub m u) "commandId" (number (s32 (broadcastCommandMessageIndex_ g))) in
  exists g', subIterationBody now elapse serve askError id c iteration u m g = (Ok (answerOf r, m'), g') /\
    ran ids [(id, withSub m u)] (setScript scripts id rest) (broadcastSubsystemIterationsDone_ g && negb (bool_decide (r = AsksSubsystem))) (broadcastIterationsDone_ g) g g'.
Proof using transition.
  intros Hq Hid Hm Hr Hw Hn m'. destruct (until_reply ids g id iteration u m scripts log r rest Hq Hid Hm Hw Hn) as (g5 & E & R). rewrite E.
  rewrite (bind_ok _ _ _ _ _ (readReply_run id r g5 Hr)). eexists. split; [done|]. destruct R.
  destruct (bool_decide (r = AsksSubsystem)); rewrite ?andb_true_r, ?andb_false_r; split; try done. destruct r_quiet0. by split.
Qed.

(** What is left of a script after [u] sub-iterations and the answer [r]. *)
Definition serves (l : list request) (u : nat) (r : request) (rest : list request) : Prop :=
  (l = replicate u AsksSub ++ r :: rest /\ r <> AsksSub /\ r <> Fails) \/ (l = [] /\ u = 0%nat /\ r = IsDone /\ rest = []).
Lemma serves_0 l r rest : serves l 0 r rest -> next l = (r, rest) /\ r <> AsksSub /\ r <> Fails.
Proof. by intros [(-> & ? & ?)|(-> & _ & -> & ->)]. Qed.
Lemma serves_S l u r rest : serves l (S u) r rest -> exists l', next l = (AsksSub, l') /\ serves l' u r rest.
Proof. intros [(-> & ? & ?)|(_ & [=] & _)]. cbn. eexists. split; [done|]. by left. Qed.

(** [m'] differs from [base] at most in the two indices. *)
Definition overlays (base m' : Message) : Prop := forall x y,
  addParameter (addParameter m' "subIterationIndex" x) "commandId" y = addParameter (addParameter base "subIterationIndex" x) "commandId" y.
Lemma overlays_sent base k x : overlays base (addParameter (withSub base k) "commandId" x).
Proof.
  intros y z. unfold withSub. destruct (k =? 0); rewrite (addParameter_comm _ "commandId") by done; rewrite addParameter_twice; [done|].
  by rewrite addParameter_twice.
Qed.
Lemma ran_sent ids s1 s2 scripts a b g g' : (forall k, numbered k s1 = numbered k s2) -> length s1 = length s2 -> ran ids s1 scripts a b g g' -> ran ids s2 scripts a b g g'.
Proof. intros Hn Hl []. split; try done; congruence. Qed.
Lemma ran_scripts ids sent s1 s2 a b g g' : (forall i, s1 i = s2 i) -> ran ids sent s1 a b g g' -> ran ids sent s2 a b g g'.
Proof. intros Hs []. split; try done. intros i. by rewrite <- Hs. Qed.

Definition turn (id : Z) (base : Message) (k : Z) (u : nat) : list (Z * Message) := map (fun j => (id, withSub base (k + Z.of_nat j))) (seq 0 (S u)).
Lemma turn_S id base k u : turn id base k (S u) = (id, withSub base k) :: turn id base (k + 1) u.
Proof.
  unfold turn. change (seq 0 (S (S u))) with (0%nat :: seq 1 (S u)). cbn [map]. rewrite Z.add_0_r. f_equal.
  rewrite <- seq_shift, List.map_map. apply map_ext. intros j. f_equal. f_equal. lia.
Qed.
Lemma subIterationLoop_run ids id iteration r rest base : id ∈ ids -> command base = c ->
  forall u fuel k m g, quiet ids g -> (u < fuel)%nat -> 0 <= k -> k + Z.of_nat u < 2 ^ 32 -> serves ((world g).1 id) u r rest ->
  command m = c -> (if k =? 0 then m = base else overlays base m) ->
  exists g', subIterationLoop now elapse serve askError fuel id c iteration k m g = (Ok (Some (negb (bool_decide (r = AsksIteration)))), g') /\
    ran ids (turn id base k u) (setScript (world g).1 id rest) (broadcastSubsystemIterationsDone_ g && negb (bool_decide (r = AsksSubsystem))) (broadcastIterationsDone_ g) g g'.
Proof using transition.
  intros Hid Hbase. induction u as [|u IH]; intros [|fuel] k m g Hq Hf Hk Hu Hs Hm Ho; [lia| |lia|].
  all: assert (Hsent : forall n, numbered n [(id, withSub m k)] = numbered n [(id, withSub base k)])
    by (intros n; unfold withSub; destruct (k =? 0) eqn:E; [by rewrite Ho|cbn; by rewrite Ho]).
  - apply serves_0 in Hs as (Hn & Hr1 & Hr2). destruct (body_run ids g id iteration k m (world g).1 (world g).2 r rest) as (g' & E & R); try done; [by apply surjective_pairing|].
    cbn [subIterationLoop]. rewrite (bind_ok _ _ _ _ _ E). cbn [fst snd]. exists g'. split; [by destruct r|].
    unfold turn. cbn [seq map]. rewrite Z.add_0_r. by apply (ran_sent ids _ _ _ _ _ _ _ Hsent).
  - apply serves_S in Hs as (l' & Hn & Hs). destruct (body_run ids g id iteration k m (world g).1 (world g).2 AsksSub l') as (g1 & E & R); try done; [by apply surjective_pairing|].
    cbn [subIterationLoop]. rewrite (bind_ok _ _ _ _ _ E). cbn [fst snd answerOf]. rewrite wrap_small by (unfold in_range; lia).
    destruct (IH fuel (k + 1) (addParameter (withSub m k) "commandId" (number (s32 (broadcastCommandMessageIndex_ g)))) g1) as (g' & E' & R'); try lia.
    + apply R.
    + rewrite (r_scripts _ _ _ _ _ _ _ R). unfold setScript. by rewrite Z.eqb_refl.
    + unfold withSub. by destruct (k =? 0).
    + destruct (Z.eqb_spec (k + 1) 0); [lia|]. specialize (Hsent (broadcastCommandMessageIndex_ g)). cbn [numbered] in Hsent.
      assert (He : forall a b : Message, [(id, a)] = [(id, b)] -> a = b) by by intros a b [= ->]. rewrite (He _ _ Hsent). apply overlays_sent.
    + exists g'. split; [done|]. rewrite turn_S. change ((id, withSub base k) :: ?b) with ([(id, withSub base k)] ++ b).
      rewrite (r_subsystem _ _ _ _ _ _ _ R), (r_iterations _ _ _ _ _ _ _ R) in R'. change (negb (bool_decide (AsksSub = AsksSubsystem))) with true in R'. rewrite andb_true_r in R'.
      eapply ran_trans; [by eapply ran_sent, R|]. eapply ran_scripts, R'. intros i. unfold setScript. destruct (Z.eqb_spec i id); [done|].
      rewrite (r_scripts _ _ _ _ _ _ _ R). unfold setScript. by destruct (Z.eqb_spec i id).
Qed.
Lemma handle_run ids id iteration base u r rest fuel g : id ∈ ids -> command base = c -> quiet ids g -> (u < fuel)%nat -> Z.of_nat u < 2 ^ 32 ->
  serves ((world g).1 id) u r rest ->
  exists g', handle fuel id base iteration g = (Ok (Some (negb (bool_decide (r = AsksIteration)))), g') /\
    ran ids (turn id base 0 u) (setScript (world g).1 id rest) (broadcastSubsystemIterationsDone_ g && negb (bool_decide (r = AsksSubsystem))) (broadcastIterationsDone_ g) g g'.
Proof using transition.
  intros Hid Hc Hq Hf Hu Hs. destruct (subIterationLoop_run ids id iteration r rest base Hid Hc u fuel 0 base g) as (g' & E & R); try done.
  exists g'. split; [|done]. unfold handleBroadcastMessageTarget, catch_if. by rewrite E.
Qed.

Lemma checkForAsyncError_run ids g : quiet ids g -> checkForAsyncError g = (Ok tt, g).
Proof using Type. intros Hq. unfold checkForAsyncError. by rewrite (bind_ok (gets _) _ g false g) by (unfold gets; by rewrite (q_async ids g Hq)). Qed.



(** *** Plans

    For each supervisor its subsystem-iterations, of each the iterations, of each
    the number of sub-iterations after the first call. *)
Variable plan : Z -> list (list nat).
Hypothesis plan_nonempty : forall id p, p ∈ plan id -> p <> [].

(** Later subsystem-iterations call everyone again, once. *)
Definition passAt (id : Z) (s : nat) : list nat := nth s (plan id) [0%nat].
Definition asksSubsystem (id : Z) (s : nat) : bool := (S s <? length (plan id))%nat.
Definition doneAt (id : Z) (s j : nat) : bool := (length (passAt id s) <=? j)%nat.
Definition subsAt (id : Z) (s j : nat) : nat := nth j (passAt id s) 0%nat.
Definition answerAt (id : Z) (s j : nat) : request :=
  if doneAt id s (S j) then if asksSubsystem id s then AsksSubsystem else IsDone else AsksIteration.
Fixpoint iterationsScript (final : request) (p : list nat) : list request :=
  match p with
  | [] => []
  | u :: p => replicate u AsksSub ++ (match p with [] => final | _ => AsksIteration end) :: iterationsScript final p
  end.
Fixpoint script (ps : list (list nat)) : list request :=
  match ps with
  | [] => []
  | p :: ps => iterationsScript (match ps with [] => IsDone | _ => AsksSubsystem end) p ++ script ps
  end.
(** What is left of it before iteration [j] of subsystem-iteration [s]. *)
Definition remains (id : Z) (s j : nat) : list request :=
  if (s <? length (plan id))%nat
  then iterationsScript (if asksSubsystem id s then AsksSubsystem else IsDone) (drop j (passAt id s)) ++ script (drop (S s) (plan id))
  else [].

Lemma remains_0 id : remains id 0 0 = script (plan id).
Proof using Type. unfold remains, passAt, asksSubsystem. destruct (plan id) as [|p ps] eqn:E; [done|]. cbn. rewrite drop_0. by destruct ps. Qed.
Lemma passAt_nonempty id s : (0 < length (passAt id s))%nat.
Proof using plan_nonempty.
  unfold passAt. destruct (Nat.lt_ge_cases s (length (plan id))) as [Hs|Hs]; [|rewrite nth_overflow by done; cbn; lia].
  assert (Hn := plan_nonempty id (nth s (plan id) [0%nat]) ltac:(by apply list_elem_of_In, nth_In)).
  destruct (nth s (plan id) [0%nat]); [done|cbn; lia].
Qed.
Lemma remains_next id s j : doneAt id s j = true -> remains id s j = remains id (S s) 0.
Proof using Type.
  unfold doneAt, remains. intros Hd%Nat.leb_le. rewrite drop_ge by done. cbn [iterationsScript app]. rewrite drop_0. unfold passAt, asksSubsystem.
  destruct (Nat.ltb_spec s (length (plan id))), (Nat.ltb_spec (S s) (length (plan id))); try lia; [|by rewrite drop_ge by lia|done].
  destruct (lookup_lt_is_Some_2 (plan id) (S s) ltac:(done)) as [p Hp]. rewrite (drop_S _ p) by done. cbn [script].
  rewrite (nth_lookup_Some _ _ _ _ Hp). f_equal. f_equal.
  destruct (Nat.ltb_spec (S (S s)) (length (plan id))).
  - destruct (drop (S (S s)) (plan id)) eqn:E; [|done]. apply (f_equal length) in E. rewrite length_drop in E. cbn in E. lia.
  - by rewrite drop_ge by lia.
Qed.
Lemma remains_serves id s j : doneAt id s j = false -> serves (remains id s j) (subsAt id s j) (answerAt id s j) (remains id s (S j)).
Proof using Type.
  unfold doneAt. intros Hd%Nat.leb_gt. unfold remains, answerAt, asksSubsystem. destruct (Nat.ltb_spec s (length (plan id))) as [Hs|Hs].
  - left. destruct (lookup_lt_is_Some_2 (passAt id s) j Hd) as [u Hu]. rewrite (drop_S _ u) by done. cbn [iterationsScript].
    unfold subsAt. rewrite (nth_lookup_Some _ _ _ _ Hu). rewrite <- app_assoc. cbn [app]. unfold doneAt. split.
    + f_equal. f_equal. destruct (Nat.leb_spec (length (passAt id s)) (S j)).
      * by rewrite drop_ge by lia.
      * destruct (drop (S j) (passAt id s)) eqn:E; [|done]. apply (f_equal length) in E. rewrite length_drop in E. cbn in E. lia.
    + by destruct (length (passAt id s) <=? S j)%nat, (S s <? length (plan id))%nat.
  - right. unfold subsAt, doneAt. assert (Hp : passAt id s = [0%nat]) by (by apply nth_overflow). rewrite Hp in Hd |- *. cbn in Hd.
    assert (j = 0%nat) as -> by lia. destruct (Nat.ltb_spec (S s) (length (plan id))); [lia|done].
Qed.

(** *** The loops on plans *)
Variable m : Message.
Variable fuel : nat.
Hypothesis command_m : command m = c.
Hypothesis enough : forall id s j, (subsAt id s j < fuel)%nat /\ Z.of_nat (subsAt id s j) < 2 ^ 32.

Definition turnAt (s j : nat) (ss it : Z) (id : Z) : list (Z * Message) :=
  if doneAt id s j then [] else turn id (indexed true m ss it) 0 (subsAt id s j).
Definition flagsAt (s j : nat) (level : list Z) : list (Z * bool) := map (fun id => (id, doneAt id s j)) level.

Lemma command_indexed ss it : command (indexed true m ss it) = c.
Proof using command_m. unfold indexed. by destruct (it =? 0). Qed.
Lemma doneAt_S id s j : doneAt id s j = true -> doneAt id s (S j) = true.
Proof using Type. unfold doneAt. intros H%Nat.leb_le. apply Nat.leb_le. lia. Qed.
Lemma set_done_quiet ids g a b : quiet ids g -> quiet ids (set_done g a b).
Proof using Type. intros []. by split. Qed.

(** The scripts of [level] move on, the others stay. *)
Definition moved (level : list Z) (s j : nat) (scripts : Z -> list request) : Z -> list request :=
  fun i => if bool_decide (i ∈ level) then remains i s (S j) else scripts i.
Definition asksNow (s j : nat) (id : Z) : bool := negb (doneAt id s j) && bool_decide (answerAt id s j = AsksSubsystem).

Lemma one_run ids s j ss it id g : quiet ids g -> id ∈ ids -> (world g).1 id = remains id s j ->
  exists g', (if doneAt id s j then mret (Some (true, O))
     else catch_if fsm_exn
       (andThen (handle fuel id (indexed true m ss it) it) (fun d =>
          (if (d : bool) then mret tt else modify (fun g => set_done g (broadcastSubsystemIterationsDone_ g) false)) ≫= fun _ => mret (Some (d, O))))
       (fun _ => mret (Some (false, 1%nat)))) g = (Ok (Some (doneAt id s (S j), O)), g') /\
    ran ids (turnAt s j ss it id) (moved [id] s j (world g).1) (broadcastSubsystemIterationsDone_ g && negb (asksNow s j id))
      (broadcastIterationsDone_ g && doneAt id s (S j)) g g'.
Proof using transition command_m enough.
  intros Hq Hid Hs. unfold turnAt, asksNow. destruct (doneAt id s j) eqn:Hd; cbn [negb andb].
  - exists g. rewrite doneAt_S, !andb_true_r by done. split; [done|]. split; try done; [|by rewrite app_nil_r].
    intros i. unfold moved. case_bool_decide as Hi; [|done]. apply list_elem_of_singleton in Hi as ->. rewrite Hs.
    by rewrite (remains_next id s j), (remains_next id s (S j)) by (done || by apply doneAt_S).
  - destruct (enough id s j) as [Hf Hu].
    destruct (handle_run ids id it (indexed true m ss it) (subsAt id s j) (answerAt id s j) (remains id s (S j)) fuel g) as (g1 & E & R); try done; [apply command_indexed|rewrite Hs; by apply remains_serves|].
    assert (Ha : negb (bool_decide (answerAt id s j = AsksIteration)) = doneAt id s (S j)).
    { unfold answerAt. destruct (doneAt id s (S j)); [by destruct (asksSubsystem id s)|done]. }
    rewrite Ha in E. unfold catch_if, andThen. unfold mbind at 1, M_bind at 1. unfold mbind in E. rewrite E. cbv iota beta.
    assert (Hm : forall i, setScript (world g).1 id (remains id s (S j)) i = moved [id] s j (world g).1 i).
    { intros i. unfold setScript, moved. destruct (Z.eqb_spec i id) as [->|Hne]; [by rewrite bool_decide_true by left|].
      rewrite bool_decide_false; [done|]. by intros ?%list_elem_of_singleton. }
    eapply ran_scripts in R; [|exact Hm]. destruct (doneAt id s (S j)) eqn:Hd'.
    + exists g1. split; [done|]. by rewrite andb_true_r.
    + eexists. split; [done|]. rewrite andb_false_r. destruct R. split; try done. by apply set_done_quiet.
Qed.

Lemma levelLoop_run ids s j ss it level : forall g, quiet ids g -> NoDup level -> (forall id, id ∈ level -> id ∈ ids /\ (world g).1 id = remains id s j) ->
  exists g', levelLoop now elapse serve askError fuel true m ss it (flagsAt s j level) g = (Ok (Some (flagsAt s (S j) level, O)), g') /\
    ran ids (concat (map (turnAt s j ss it) level)) (moved level s j (world g).1) (broadcastSubsystemIterationsDone_ g && forallb (fun id => negb (asksNow s j id)) level)
      (broadcastIterationsDone_ g && forallb (fun id => doneAt id s (S j)) level) g g'.
Proof using transition command_m enough.
  induction level as [|id level IH]; intros g Hq Hnd Hl.
  - exists g. cbn. rewrite !andb_true_r. split; [done|]. split; try done. by rewrite app_nil_r.
  - apply NoDup_cons in Hnd as [Hni Hnd]. destruct (Hl id ltac:(left)) as [Hid Hs].
    destruct (one_run ids s j ss it id g Hq Hid Hs) as (g1 & E1 & R1).
    destruct (IH g1) as (g2 & E2 & R2); [apply R1|done| |].
    { intros id' Hin. destruct (Hl id' ltac:(by right)) as [Hid' Hs']. split; [done|]. rewrite (r_scripts _ _ _ _ _ _ _ R1). unfold moved.
      rewrite bool_decide_false; [done|]. intros Hx%list_elem_of_singleton. by subst. }
    exists g2. cbn [flagsAt map levelLoop]. rewrite (bind_ok _ _ _ _ _ (checkForAsyncError_run ids g Hq)). rewrite command_m.
    unfold andThen at 1. rewrite (bind_ok _ _ _ _ _ E1). cbn [fst snd]. unfold andThen at 1. rewrite (bind_ok _ _ _ _ _ E2). split; [done|].
    cbn [map concat forallb]. rewrite !andb_assoc.
    rewrite (r_subsystem _ _ _ _ _ _ _ R1), (r_iterations _ _ _ _ _ _ _ R1) in R2. eapply ran_trans; [exact R1|]. eapply ran_scripts; [|exact R2].
    intros i. unfold moved. case_bool_decide as H1; case_bool_decide as H2; try done.
    + destruct H2. by right.
    + rewrite (r_scripts _ _ _ _ _ _ _ R1). unfold moved. apply elem_of_cons in H2 as [->|H2]; [by rewrite bool_decide_true by left|done].
    + rewrite (r_scripts _ _ _ _ _ _ _ R1). unfold moved. rewrite bool_decide_false; [done|]. intros ->%list_elem_of_singleton. destruct H2. by left.
Qed.

Lemma levelsLoop_run ids s j ss it levels : forall g, quiet ids g -> NoDup (concat levels) -> (forall id, id ∈ concat levels -> id ∈ ids /\ (world g).1 id = remains id s j) ->
  exists g', levelsLoop now elapse serve askError fuel true m ss it (map (flagsAt s j) levels) g = (Ok (Some (map (flagsAt s (S j)) levels)), g') /\
    ran ids (concat (map (turnAt s j ss it) (concat levels))) (moved (concat levels) s j (world g).1)
      (broadcastSubsystemIterationsDone_ g && forallb (fun id => negb (asksNow s j id)) (concat levels))
      (broadcastIterationsDone_ g && forallb (fun id => doneAt id s (S j)) (concat levels)) g g'.
Proof using transition command_m enough.
  induction levels as [|level levels IH]; intros g Hq Hnd Hl.
  - exists g. cbn. rewrite !andb_true_r. split; [done|]. split; try done. by rewrite app_nil_r.
  - cbn [concat] in Hnd, Hl |- *. apply NoDup_app in Hnd as (Hnd1 & Hdis & Hnd2).
    destruct (levelLoop_run ids s j ss it level g Hq Hnd1) as (g1 & E1 & R1); [intros; apply Hl, elem_of_app; by left|].
    destruct (IH g1) as (g2 & E2 & R2); [apply R1|done| |].
    { intros id Hin. destruct (Hl id) as [Hid Hs]; [apply elem_of_app; by right|]. split; [done|]. rewrite (r_scripts _ _ _ _ _ _ _ R1). unfold moved.
      rewrite bool_decide_false; [done|]. intros Hx. by apply (Hdis id Hx). }
    exists g2. cbn [map levelsLoop]. unfold andThen at 1. rewrite (bind_ok _ _ _ _ _ E1). cbn [fst snd]. change (0 <? 0)%nat with false. cbv iota.
    unfold andThen at 1. rewrite (bind_ok _ _ _ _ _ E2). split; [done|]. rewrite map_app, concat_app, !forallb_app, !andb_assoc.
    rewrite (r_subsystem _ _ _ _ _ _ _ R1), (r_iterations _ _ _ _ _ _ _ R1) in R2. eapply ran_trans; [exact R1|]. eapply ran_scripts; [|exact R2].
    intros i. unfold moved. case_bool_decide as H1.
    + rewrite bool_decide_true; [done|]. apply elem_of_app. by right.
    + rewrite (r_scripts _ _ _ _ _ _ _ R1). unfold moved. rewrite (bool_decide_ext (i ∈ level ++ concat levels) (i ∈ level)); [done|].
      rewrite elem_of_app. naive_solver.
Qed.

Variable levels : list (list Z).
Abbreviation ids := (concat levels).
Hypothesis ids_distinct : NoDup ids.

(** The iterations of a subsystem-iteration, and the subsystem-iterations. *)
Definition width (s : nat) : nat := foldr Nat.max 1%nat (map (fun id => length (passAt id s)) ids).
Definition passes : nat := foldr Nat.max 1%nat (map (fun id => length (plan id)) ids).
Lemma max_le (l : list nat) n : (foldr Nat.max 1 l <= n)%nat <-> (1 <= n)%nat /\ Forall (fun x => (x <= n)%nat) l.
Proof using Type.
  induction l as [|x l IH]; cbn [foldr]; [split; [by split|by intros []]|]. rewrite Nat.max_lub_iff, IH, Forall_cons. tauto.
Qed.
Lemma passes_pos : (0 < passes)%nat.
Proof using Type. assert (Hw := Nat.le_refl passes). unfold passes at 1 in Hw. apply max_le in Hw as [Hw _]. exact Hw. Qed.
Lemma all_done s j : (0 < j)%nat -> forallb (fun id => doneAt id s j) ids = (width s <=? j)%nat.
Proof using Type.
  intros Hj. apply eq_true_iff_eq. rewrite forallb_forall, Nat.leb_le. unfold width. rewrite max_le, Forall_map, Forall_forall. unfold doneAt. cbv beta.
  split; [intros Ha; split; [lia|]; intros id Hid%list_elem_of_In; by apply Nat.leb_le, Ha|intros [_ Ha] id Hid%list_elem_of_In; by apply Nat.leb_le, Ha].
Qed.
Lemma nobody_asks s : forallb (fun id => negb (asksSubsystem id s)) ids = (passes <=? S s)%nat.
Proof using Type.
  apply eq_true_iff_eq. rewrite forallb_forall, Nat.leb_le. unfold passes. rewrite max_le, Forall_map, Forall_forall. unfold asksSubsystem. cbv beta.
  split.
  - intros Ha. split; [lia|]. intros id Hid%list_elem_of_In. specialize (Ha id Hid). apply negb_true_iff, Nat.ltb_ge in Ha. lia.
  - intros [_ Ha] id Hid%list_elem_of_In. apply negb_true_iff, Nat.ltb_ge. specialize (Ha id Hid). lia.
Qed.
Definition askedBy (s j : nat) : bool := forallb (fun id => negb (asksSubsystem id s && doneAt id s j)) ids.
Lemma askedBy_0 s : askedBy s 0 = true.
Proof using plan_nonempty.
  apply forallb_forall. intros id _. unfold doneAt. assert (Hn := passAt_nonempty id s). destruct (Nat.leb_spec (length (passAt id s)) 0); [lia|]. by rewrite andb_false_r.
Qed.
Lemma askedBy_S s j : askedBy s j && forallb (fun id => negb (asksNow s j id)) ids = askedBy s (S j).
Proof using Type.
  unfold askedBy. generalize ids as l. induction l as [|id l IH]; [done|]. cbn [forallb]. rewrite <- IH. clear IH.
  assert (Hh : negb (asksSubsystem id s && doneAt id s (S j)) = negb (asksSubsystem id s && doneAt id s j) && negb (asksNow s j id)).
  { unfold asksNow, answerAt. destruct (doneAt id s j) eqn:Hd; [by rewrite doneAt_S, !andb_true_r by done|].
    destruct (doneAt id s (S j)), (asksSubsystem id s); done. }
  rewrite Hh. destruct (negb (asksSubsystem id s && doneAt id s j)), (negb (asksNow s j id)); cbn; try done; by rewrite ?andb_false_r.
Qed.
Lemma askedBy_width s : askedBy s (width s) = (passes <=? S s)%nat.
Proof using Type.
  rewrite <- nobody_asks. unfold askedBy. apply eq_true_iff_eq. rewrite !forallb_forall. split; intros Ha id Hid; specialize (Ha id Hid).
  - destruct (asksSubsystem id s); [|done]. cbn in Ha. apply negb_true_iff in Ha. unfold doneAt in Ha. apply Nat.leb_gt in Ha.
    assert (Hw : (width s <= width s)%nat) by done. unfold width at 1 in Hw. apply max_le in Hw as [_ Hw]. rewrite Forall_map, Forall_forall in Hw.
    specialize (Hw id ltac:(by apply list_elem_of_In)). cbn in Hw. lia.
  - by destruct (asksSubsystem id s).
Qed.

(** What is sent in iteration [j] of subsystem-iteration [s], the iteration's
    index being [it]: by level, to those that are not done yet. *)
Definition iterationSent (s j : nat) (it : Z) : list (Z * Message) := concat (map (turnAt s j (Z.of_nat s) it) ids).
(** The index never starts again. *)
Definition passSent (s : nat) (it : nat) : list (Z * Message) := concat (map (fun j => iterationSent s j (Z.of_nat (it + j))) (seq 0 (width s))).
Fixpoint passesSent (n s it : nat) : list (Z * Message) :=
  match n with O => [] | S n => passSent s it ++ passesSent n (S s) (it + width s) end.
Fixpoint iterations (n s : nat) : nat := match n with O => O | S n => (width s + iterations n (S s))%nat end.


(** Before iteration [j] of subsystem-iteration [s]. *)
Record before (s j : nat) (g : G) : Prop := {
  b_quiet : quiet ids g;
  b_scripts id : id ∈ ids -> (world g).1 id = remains id s j;
  b_asked : broadcastSubsystemIterationsDone_ g = askedBy s j }.

Lemma forallb_done_S s j : forallb (fun id => doneAt id s (S j)) ids = (width s <=? S j)%nat.
Proof using Type. apply all_done. lia. Qed.
Lemma set_status_quiet g t : quiet ids g -> quiet ids (set_status g t).
Proof using Type. intros []. by split. Qed.
Lemma iteration_run s j it g : before s j g ->
  exists g', levelsLoop now elapse serve askError fuel true m (Z.of_nat s) it (map (flagsAt s j) levels) (set_done g (broadcastSubsystemIterationsDone_ g) true) =
    (Ok (Some (map (flagsAt s (S j)) levels)), g') /\ before s (S j) g' /\ broadcastIterationsDone_ g' = (width s <=? S j)%nat /\
    (world g').2 = (world g).2 ++ numbered (broadcastCommandMessageIndex_ g) (iterationSent s j it) /\
    broadcastCommandMessageIndex_ g' = after (broadcastCommandMessageIndex_ g) (length (iterationSent s j it)).
Proof using transition command_m enough ids_distinct.
  intros [Hq Hs Ha]. set (g0 := set_done _ _ true). assert (Hq0 : quiet ids g0) by by apply set_done_quiet.
  destruct (levelsLoop_run ids s j (Z.of_nat s) it levels g0 Hq0 ids_distinct) as (g' & E & [R1 R2 R3 R4 R5 R6]); [intros id Hid; by split; [|apply Hs]|].
  exists g'. split; [exact E|]. split; [|split; [|done]].
  - split; [done| |].
    + intros id Hid. rewrite R2. unfold moved. by rewrite bool_decide_true.
    + rewrite R5. cbn. by rewrite Ha, askedBy_S.
  - rewrite R6. cbn [g0 set_done broadcastIterationsDone_]. by rewrite forallb_done_S.
Qed.
Lemma width_pos s : (0 < width s)%nat.
Proof using Type. assert (Hw : (width s <= width s)%nat) by done. unfold width at 1 in Hw. apply max_le in Hw as [Hw _]. exact Hw. Qed.

Definition iterationsFrom (s it j n : nat) : list (Z * Message) := concat (map (fun j => iterationSent s j (Z.of_nat (it + j))) (seq j n)).
Lemma iterationLoop_run s it : forall n k j g, (j + S n = width s)%nat -> (n < k)%nat -> Z.of_nat (it + width s) < 2 ^ 32 -> before s j g ->
  exists g', iterationLoop now elapse serve askError fuel k true m (Z.of_nat s) (Z.of_nat (it + j)) (map (flagsAt s j) levels) g =
    (Ok (Some (Z.of_nat (it + width s), map (flagsAt s (width s)) levels)), g') /\ before s (width s) g' /\
    (world g').2 = (world g).2 ++ numbered (broadcastCommandMessageIndex_ g) (iterationsFrom s it j (S n)) /\
    broadcastCommandMessageIndex_ g' = after (broadcastCommandMessageIndex_ g) (length (iterationsFrom s it j (S n))).
Proof using transition command_m enough ids_distinct.
  induction n as [|n IH]; intros [|k] j g Hj Hk Hit Hb; try lia.
  all: destruct (iteration_run s j (Z.of_nat (it + j)) g Hb) as (g1 & E & Hb1 & Hd & Hlog & Hidx).
  all: set (g2 := set_status g1 (iterationStatus (Z.of_nat s) (Z.of_nat (it + j)) (broadcastIterationsDone_ g1))).
  all: assert (Hb2 : before s (S j) g2) by (destruct Hb1; split; [by apply set_status_quiet|done|done]).
  all: cbn [iterationLoop]; rewrite (bind_ok (modify _) _ g tt (set_done g (broadcastSubsystemIterationsDone_ g) true)) by done.
  all: unfold andThen; rewrite (bind_ok _ _ _ _ _ E); rewrite (bind_ok (gets _) _ g1 (broadcastIterationsDone_ g1) g1) by done; rewrite (bind_ok (modify _) _ g1 tt g2) by done.
  all: rewrite Hd, wrap_small by (unfold in_range; lia); replace (Z.of_nat (it + j) + 1) with (Z.of_nat (it + S j)) by lia.
  - destruct (Nat.leb_spec (width s) (S j)); [|lia]. exists g2. assert (S j = width s) as -> by lia. split; [done|]. split; [by replace (width s) with (S j) by lia|].
    unfold iterationsFrom. cbn [seq map concat]. rewrite app_nil_r. done.
  - destruct (Nat.leb_spec (width s) (S j)); [lia|]. destruct (IH k (S j) g2) as (g3 & E3 & Hb3 & Hlog3 & Hidx3); try done; try lia.
    exists g3. split; [exact E3|]. split; [done|]. unfold iterationsFrom. change (seq j (S (S n))) with (j :: seq (S j) (S n)). cbn [map concat].
    fold (iterationsFrom s it (S j) (S n)). rewrite numbered_append, length_app, <- after_add, <- Hidx. split; [|exact Hidx3].
    rewrite Hlog3. change (world g2) with (world g1). rewrite Hlog. by rewrite <- app_assoc.
Qed.

Variable subsystemCommon subsystemCommonOverride : string.
Variable getLastLogEntry : string -> string.

Lemma iterationsFrom_0 s it : iterationsFrom s it 0 (width s) = passSent s it.
Proof using Type. done. Qed.
(** Without remote subsystems there is nobody to command or to wait for. *)
Lemma remoteGateways_none g i : quiet ids g -> broadcastMessageToRemoteGateways subsystemCommon subsystemCommonOverride getLastLogEntry m i g = (Ok tt, g).
Proof using Type. intros Hq. unfold broadcastMessageToRemoteGateways. by rewrite (bind_ok (gets _) _ g [] g) by (unfold gets; by rewrite (q_remotes ids g Hq)). Qed.
Lemma complete_none g i : quiet ids g -> broadcastMessageToRemoteGatewaysComplete elapse fuel m i g = (Ok (Some tt), g).
Proof using transition command_m enough.
  intros Hq. destruct transition as (name & dest & _ & _ & Hd). unfold broadcastMessageToRemoteGatewaysComplete.
  rewrite (bind_ok (gets _) _ g f g) by (unfold gets; by rewrite (q_machine ids g Hq)). rewrite (bind_ok (lift _) _ g dest g) by (unfold lift; by rewrite command_m, Hd).
  case_bool_decide; [done|]. destruct (enough 0 0%nat 0%nat) as [Hf _]. destruct fuel as [|k]; [lia|]. cbn [pollLoop].
  rewrite (bind_ok (gets _) _ g [] g) by (unfold gets; by rewrite (q_remotes ids g Hq)). cbn [pollAll]. rewrite (bind_ok (mret _) _ g (mkPolls ∅ ∅, mkTally 0 0 ("", "", 0)) g) by done.
  cbn [snd remaining]. change (0 =? 0) with true. cbv iota zeta. rewrite (bind_ok (mret _) _ g tt g) by done. by rewrite (bind_ok _ _ _ _ _ (checkForAsyncError_run ids g Hq)).
Qed.
Lemma between_run s g : quiet ids g -> exists g', betweenSubsystemIterations now elapse fuel s g = (Ok (Some tt), g') /\
  exists t, g' = set_status g t.
Proof using Type.
  intros Hq. unfold betweenSubsystemIterations. rewrite (bind_ok (gets _) _ g g g) by done. rewrite (q_top ids g Hq), andb_false_r.
  destruct (negb (s =? 0) || _); eexists; (split; [done|]); [by eexists|]. exists (broadcastCommandStatus_ g). by destruct g.
Qed.
Lemma quiet_same ids0 g g' : quiet ids0 g -> asyncFailureReceived_ g' = asyncFailureReceived_ g -> theStateMachine_ g' = theStateMachine_ g -> remoteGatewayApps_ g' = remoteGatewayApps_ g ->
  broadcastIterationBreakpoint_ g' = broadcastIterationBreakpoint_ g -> isRemoteSubsystemIteration_ g' = isRemoteSubsystemIteration_ g -> allSupervisorInfo_ g' = allSupervisorInfo_ g -> quiet ids0 g'.
Proof using Type. intros [] H1 H2 H3 H4 H5 H6. split; try congruence. intros id Hid. unfold heard. rewrite H6. by apply q_heard0. Qed.
Lemma resetFlags_run s : resetFlags (map (flagsAt s (width s)) levels) = map (flagsAt (S s) 0) levels.
Proof using plan_nonempty.
  unfold resetFlags. rewrite List.map_map. apply map_ext. intros level. unfold flagsAt. rewrite List.map_map. apply map_ext. intros id. cbn [fst]. f_equal.
  unfold doneAt. assert (Hn := passAt_nonempty id (S s)). destruct (Nat.leb_spec (length (passAt id (S s))) 0); [lia|done].
Qed.
Lemma iterations_pos n s : (n <= iterations n s)%nat.
Proof using Type. revert s. induction n as [|n IH]; intros s; [done|]. cbn [iterations]. assert (Hw := width_pos s). specialize (IH (S s)). lia. Qed.

Hypothesis passes_fit : (passes <= P)%nat.
Lemma subsystemLoop_run : forall n s it k g, (s + S n = passes)%nat -> (n < k)%nat -> Z.of_nat (it + iterations (S n) s) < 2 ^ 32 -> Z.of_nat passes < 2 ^ 32 ->
  (forall s, (s < passes)%nat -> (width s <= fuel)%nat) -> quiet ids g -> (forall id, id ∈ ids -> (world g).1 id = remains id s 0) ->
  exists g', subsystemLoop now elapse serve askError subsystemCommon subsystemCommonOverride getLastLogEntry fuel k true m (Z.of_nat s) (Z.of_nat it) (map (flagsAt s 0) levels) g = (Ok (Some tt), g') /\
    quiet ids g' /\ (world g').2 = (world g).2 ++ numbered (broadcastCommandMessageIndex_ g) (passesSent (S n) s it) /\
    broadcastCommandMessageIndex_ g' = after (broadcastCommandMessageIndex_ g) (length (passesSent (S n) s it)).
Proof using transition command_m enough ids_distinct plan_nonempty passes_fit.
  induction n as [|n IH]; intros s it [|k] g Hs Hk Hit Hp Hfuel Hq Hw; try lia.
  all: set (g0 := set_done g true (broadcastIterationsDone_ g)).
  all: assert (Hb : before s 0 g0) by (split; [by apply set_done_quiet|done|by rewrite askedBy_0]).
  all: destruct (iterationLoop_run s it (pred (width s)) fuel 0 g0) as (g1 & E1 & Hb1 & Hlog1 & Hidx1);
    [assert (H0 := width_pos s); lia|assert (H0 := width_pos s); specialize (Hfuel s ltac:(lia)); lia|cbn [iterations] in Hit; lia|done|].
  all: replace (S (pred (width s))) with (width s) in Hlog1, Hidx1 by (assert (H0 := width_pos s); lia); rewrite iterationsFrom_0 in Hlog1, Hidx1; rewrite Nat.add_0_r in E1.
  all: destruct (between_run (Z.of_nat s) g1 (b_quiet _ _ _ Hb1)) as (g2 & E2 & t & Hg2).
  all: assert (Hq2 : quiet ids g2) by (rewrite Hg2; apply set_status_quiet, Hb1).
  all: cbn [subsystemLoop]; rewrite (bind_ok (modify _) _ g tt g0) by done; rewrite (bind_ok (gets _) _ g0 (broadcastIterationBreakpoint_ g) g0) by done.
  all: assert (Hbp := q_breakpoint ids g Hq); destruct (Z.leb_spec (broadcastIterationBreakpoint_ g) (Z.of_nat s)); [lia|].
  all: rewrite (bind_ok _ _ g0 tt g0) by (destruct (Z.of_nat s =? 0); [done|apply remoteGateways_none, Hb]).
  all: unfold andThen; rewrite (bind_ok _ _ _ _ _ E1); cbv iota; rewrite (bind_ok _ _ _ _ _ (complete_none g1 _ (b_quiet _ _ _ Hb1))); cbv iota; rewrite (bind_ok _ _ _ _ _ E2); cbv iota.
  all: rewrite (bind_ok (gets _) _ g2 (passes <=? S s)%nat g2) by (unfold gets; rewrite Hg2; cbn; by rewrite (b_asked _ _ _ Hb1), askedBy_width).
  - destruct (Nat.leb_spec passes (S s)); [|lia]. exists g2. split; [done|]. split; [done|]. cbn [passesSent]. rewrite app_nil_r. rewrite Hg2. done.
  - destruct (Nat.leb_spec passes (S s)); [lia|]. cbn [fst snd]. rewrite resetFlags_run, wrap_small by (unfold in_range; lia).
    replace (Z.of_nat s + 1) with (Z.of_nat (S s)) by lia.
    destruct (IH (S s) (it + width s)%nat k g2) as (g3 & E3 & Hq3 & Hlog3 & Hidx3); try done; try lia.
    + cbn [iterations] in Hit |- *. lia.
    + intros id Hid. rewrite Hg2. cbn. rewrite (b_scripts _ _ _ Hb1 id Hid). apply remains_next. unfold doneAt. apply Nat.leb_le.
      assert (Hww : (width s <= width s)%nat) by done. unfold width at 1 in Hww. apply max_le in Hww as [_ Hww]. rewrite Forall_map, Forall_forall in Hww. by apply Hww.
    + exists g3. split; [exact E3|]. split; [done|]. change (passesSent (S (S n)) s it) with (passSent s it ++ passesSent (S n) (S s) (it + width s)).
      rewrite numbered_append, length_app, <- after_add. rewrite Hg2 in Hlog3, Hidx3. cbn [broadcastCommandMessageIndex_ set_status world] in Hlog3, Hidx3.
      rewrite Hidx1 in Hidx3, Hlog3. split; [|exact Hidx3]. rewrite Hlog3, Hlog1. by rewrite <- app_assoc.
Qed.

End Scripted.

(** *** The whole broadcast *)

(** The status of an entry has no influence on the order. *)
Lemma taking_same a a' only id : AllSupervisorInfo.theSupervisorInfo_ a' = AllSupervisorInfo.theSupervisorInfo_ a ->
  (forall j, (fun i => (contextName_ i, class_ i)) <$> OrderedMap.OrderedMap.find (AllSupervisorInfo.allSupervisorInfo_ a') j =
             (fun i => (contextName_ i, class_ i)) <$> OrderedMap.OrderedMap.find (AllSupervisorInfo.allSupervisorInfo_ a) j) ->
  AllSupervisorInfo.taking a' only id = AllSupervisorInfo.taking a only id.
Proof.
  intros Ht Hf. unfold AllSupervisorInfo.taking. rewrite Ht.
  assert (Hg : contextName_ <$> (AllSupervisorInfo.theSupervisorInfo_ a ≫= OrderedMap.OrderedMap.find (AllSupervisorInfo.allSupervisorInfo_ a')) =
               contextName_ <$> (AllSupervisorInfo.theSupervisorInfo_ a ≫= OrderedMap.OrderedMap.find (AllSupervisorInfo.allSupervisorInfo_ a))).
  { destruct (AllSupervisorInfo.theSupervisorInfo_ a) as [gid|]; [|done]. specialize (Hf gid). cbn.
    destruct (OrderedMap.OrderedMap.find _ gid), (OrderedMap.OrderedMap.find _ gid); cbn in *; congruence. }
  rewrite Hg. specialize (Hf id). destruct (OrderedMap.OrderedMap.find (AllSupervisorInfo.allSupervisorInfo_ a') id) as [i'|], (OrderedMap.OrderedMap.find (AllSupervisorInfo.allSupervisorInfo_ a) id) as [i|]; cbn in Hf; try done.
  injection Hf as H1 H2. rewrite H1. f_equal. f_equal.
  unfold AllSupervisorInfo.leftOut, AllSupervisorInfo.isGatewaySupervisor, AllSupervisorInfo.isTypeLogbookSupervisor, AllSupervisorInfo.isTypeMacroMakerSupervisor,
    AllSupervisorInfo.isTypeConfigurationGUISupervisor, AllSupervisorInfo.isTypeChatSupervisor, AllSupervisorInfo.isTypeConsoleSupervisor, AllSupervisorInfo.isTypeCodeEditorSupervisor, AllSupervisorInfo.isOf.
  by rewrite H2.
Qed.

(** What the Gateway knows at the start of a broadcast of [c]: itself, and a
    status of everyone it commands. *)
Record knows (contexts : list AllSupervisorInfo.XDAQContext) (gatewayId : Z) (a : All) : Prop := {
  k_gateway : AllSupervisorInfo.theSupervisorInfo_ a = Some gatewayId;
  k_itself : exists i, OrderedMap.OrderedMap.find (AllSupervisorInfo.allSupervisorInfo_ a) gatewayId = Some i /\ AllSupervisorInfo.isGatewaySupervisor i = true;
  k_all : AllSupervisorInfo.all_known a contexts;
  k_priorities : AllSupervisorInfo.priorities_in_range contexts }.
Lemma setGatewayStatus_run (now : G -> Z) contexts gatewayId free g a0 : allSupervisorInfo_ g = a0 -> knows contexts gatewayId a0 ->
  exists a, setGatewayStatus now gatewayId free g = (Ok tt, set_infos g a) /\
    (forall c, AllSupervisorInfo.getOrderedSupervisorDescriptors a contexts c (onlyLocal c) = Ok (AllSupervisorInfo.levels a0 contexts c (onlyLocal c))) /\
    forall j, j <> gatewayId -> OrderedMap.OrderedMap.find (AllSupervisorInfo.allSupervisorInfo_ a) j = OrderedMap.OrderedMap.find (AllSupervisorInfo.allSupervisorInfo_ a0) j.
Proof.
  intros <- [Hg (i & Hi & Hc) Ha Hp]. assert (Hgk : AllSupervisorInfo.gateway_known (allSupervisorInfo_ g)) by (unfold AllSupervisorInfo.gateway_known; rewrite Hg; cbn; by rewrite Hi).
  unfold setGatewayStatus. destruct free.
  - destruct (setSupervisorStatus_run (now g) (allSupervisorInfo_ g) gatewayId i (getCurrentStateName (theStateMachine_ g)) 100 "" Hi) as (a & i' & -> & _ & _ & Hcn & Hcl & Ht & Hf).
    exists a. split; [done|]. split; [|intros j Hj; rewrite Hf; by destruct (Z.eqb_spec j gatewayId)]. intros c.
    rewrite AllSupervisorInfo.ordered_descriptors_spec; [| | |done].
    + f_equal. apply AllSupervisorInfo.levels_ext. intros id. apply taking_same; [done|].
      intros j. rewrite Hf. destruct (Z.eqb_spec j gatewayId) as [->|]; [|done]. rewrite Hi. cbn. congruence.
    + unfold AllSupervisorInfo.gateway_known. rewrite Ht, Hg. cbn. rewrite Hf, Z.eqb_refl. by eexists.
    + intros app Happ. rewrite Hf. destruct (AllSupervisorInfo.appId app =? gatewayId); [by eexists|by apply Ha].
  - unfold AllSupervisorInfo.setSupervisorStatus. rewrite Hi. exists (allSupervisorInfo_ g). split; [done|]. split; [|done]. intros c. by apply AllSupervisorInfo.ordered_descriptors_spec.
Qed.
Lemma gateway_not_commanded contexts gatewayId a c only : knows contexts gatewayId a -> ~ gatewayId ∈ concat (AllSupervisorInfo.levels a contexts c only).
Proof.
  intros [Hg (i & Hi & Hc) _ _] Ht%AllSupervisorInfo.in_levels. unfold AllSupervisorInfo.taking in Ht. rewrite Hi in Ht.
  unfold AllSupervisorInfo.leftOut in Ht. rewrite Hc in Ht. by rewrite andb_false_r in Ht.
Qed.

(** The Gateway when the loops start, if it has no remote subsystems, and when
    they are over. *)
Definition stepped (g : G) : G := set_bar g (ProgressBar.step (theProgressBar_ g)).
Definition started (g : G) (a : All) : G :=
  stepped (set_included (stepped (stepped (set_done (set_infos (stepped (set_status g "")) a) (broadcastSubsystemIterationsDone_ g) false))) ∅).
Definition ended (g : G) : G := stepped (set_status (stepped g) "").
(** The guarded part: the loops, and what follows them. *)
Definition guarded (now : G -> Z) (elapse : Z -> G -> G) (common override : string) (logEntry : string -> string) (m : Message) (fuel : nat) (levels : list (list Z)) : M G (option unit) :=
  catch_all
    (andThen (subsystemLoop now elapse serve askError common override logEntry fuel fuel true m 0 0 (map (map (fun id => (id, false))) levels)) (fun _ =>
       wrapUp (command m) ≫= fun _ => mret (Some tt)))
    abandon.
Lemma broadcastMessage_start now elapse contexts gatewayId free common override logEntry m fuel g a levels :
  remoteGatewayApps_ g = [] -> isRemoteSubsystemIteration_ g = false ->
  setGatewayStatus now gatewayId free (stepped (set_status g "")) = (Ok tt, set_infos (stepped (set_status g "")) a) ->
  AllSupervisorInfo.getOrderedSupervisorDescriptors a contexts (command m) (onlyLocal (command m)) = Ok levels ->
  broadcastMessage now elapse serve askError common override logEntry contexts gatewayId free fuel m g =
    andThen (guarded now elapse common override logEntry m fuel levels) (fun _ => step ≫= fun _ => modify (fun g => set_status g "") ≫= fun _ => step ≫= fun _ => mret (Some tt)) (started g a).
Proof.
  intros Hr Ht Ea Hord. unfold started, broadcastMessage.
  rewrite (bind_ok (modify _) _ g tt (set_status g "")) by reflexivity. rewrite (bind_ok step _ _ tt (stepped (set_status g ""))) by reflexivity.
  rewrite (bind_ok _ _ _ _ _ Ea). set (g2 := set_infos _ a) in *.
  rewrite (bind_ok (modify _) _ g2 tt (set_done g2 (broadcastSubsystemIterationsDone_ g) false)) by reflexivity. set (g3 := set_done g2 _ false) in *.
  rewrite (bind_ok (orderedSupervisors _ _) _ g3 levels g3) by (unfold orderedSupervisors; change (allSupervisorInfo_ g3) with a; by rewrite Hord).
  assert (H3 : remoteGatewayApps_ g3 = [] /\ isRemoteSubsystemIteration_ g3 = false) by (by split). clearbody g3. clear g2 Ea Hord. destruct H3 as [Hr3 Ht3].
  rewrite (bind_ok step _ g3 tt (stepped g3)) by reflexivity. rewrite (bind_ok step _ (stepped g3) tt (stepped (stepped g3))) by reflexivity.
  assert (H4 : remoteGatewayApps_ (stepped (stepped g3)) = [] /\ isRemoteSubsystemIteration_ (stepped (stepped g3)) = false) by (by split). set (g4 := stepped (stepped g3)) in *. clearbody g4. destruct H4 as [Hr4 Ht4].
  rewrite (bind_ok (modify _) _ g4 tt (set_included g4 ∅)) by (unfold modify; by rewrite Hr4). set (g5 := set_included g4 ∅) in *.
  rewrite (bind_ok (gets _) _ g5 g5 g5) by reflexivity.
  assert (Hst : negb (isRemoteSubsystemIteration_ g5) && bool_decide (broadcastIncludedRemoteGatewayNames_ g5 = ∅) = true) by (unfold g5; cbn; rewrite Ht4; by rewrite bool_decide_true).
  rewrite Hst. cbv zeta.
  rewrite (bind_ok (broadcastMessageToRemoteGateways _ _ _ _ _) _ g5 tt g5) by (unfold broadcastMessageToRemoteGateways; rewrite (bind_ok (gets _) _ g5 [] g5) by (unfold gets, g5; cbn; by rewrite Hr4); reflexivity).
  rewrite (bind_ok step _ g5 tt (stepped g5)) by reflexivity. reflexivity.
Qed.
Lemma guarded_returns now elapse common override logEntry m fuel levels g g7 g8 :
  subsystemLoop now elapse serve askError common override logEntry fuel fuel true m 0 0 (map (map (fun id => (id, false))) levels) g = (Ok (Some tt), g7) ->
  wrapUp (command m) g7 = (Ok tt, g8) -> guarded now elapse common override logEntry m fuel levels g = (Ok (Some tt), g8).
Proof. intros E7 E8. unfold guarded, catch_if, andThen. rewrite (bind_ok _ _ _ _ _ E7). cbv iota. by rewrite (bind_ok _ _ _ _ _ E8). Qed.

Lemma start_levels plan (levels : list (list Z)) : (forall id p, p ∈ plan id -> p <> []) ->
  map (map (fun id => (id, false))) levels = map (flagsAt plan 0 0) levels.
Proof.
  intros Hne. apply map_ext. intros level. unfold flagsAt. apply map_ext. intros id. f_equal.
  unfold doneAt. assert (Hn := passAt_nonempty plan Hne id 0). destruct (Nat.leb_spec (length (passAt plan id 0)) 0); [lia|done].
Qed.
Lemma wrapUp_run f P ids c g : quiet f P ids g -> exists g', wrapUp c g = (Ok tt, g') /\ (world g').2 = (world g).2.
Proof.
  intros Hq. unfold wrapUp. set (g1 := if bool_decide (c = INIT_TRANSITION_NAME) then g else set_top g false 0 (remoteSubsystemErrorReceived_ g)).
  rewrite (bind_ok _ _ g tt g1) by (unfold g1; by case_bool_decide). rewrite (bind_ok (modify _) _ g1 tt (set_top g1 (isRemoteSubsystemIteration_ g1) (remoteIterationIndex_ g1) false)) by done.
  assert (Hq1 : quiet f P ids (set_top g1 (isRemoteSubsystemIteration_ g1) (remoteIterationIndex_ g1) false)).
  { unfold g1. case_bool_decide; [by eapply quiet_same|]. destruct Hq. by split. }
  rewrite (bind_ok _ _ _ _ _ (checkForAsyncError_run f P ids _ Hq1)). eexists. split; [done|]. unfold g1. by case_bool_decide.
Qed.
(** What the fuel and the 32-bit counters have to hold. *)
Record fits (plan : Z -> list (list nat)) (levels : list (list Z)) (fuel : nat) : Prop := {
  fit_passes id p : p ∈ plan id -> p <> [];
  fit_subs id s j : (subsAt plan id s j < fuel)%nat /\ Z.of_nat (subsAt plan id s j) < 2 ^ 32;
  fit_width s : (s < passes plan levels)%nat -> (width plan levels s <= fuel)%nat;
  fit_fuel : (passes plan levels <= fuel)%nat;
  fit_counters : Z.of_nat (iterations plan levels (passes plan levels) 0) < 2 ^ 32 }.
Lemma started_quiet f P ids gatewayId g a : quiet f P ids g -> ~ gatewayId ∈ ids ->
  (forall j, j <> gatewayId -> OrderedMap.OrderedMap.find (AllSupervisorInfo.allSupervisorInfo_ a) j = OrderedMap.OrderedMap.find (AllSupervisorInfo.allSupervisorInfo_ (allSupervisorInfo_ g)) j) ->
  quiet f P ids (started g a).
Proof.
  intros [H1 H2 H3 H4 H5 H6] Hni Hfind. split; [exact H1|exact H2|exact H3|exact H4|exact H5|]. intros id Hid. destruct (H6 id Hid) as (i & Hi & Hrest). exists i. split; [|exact Hrest].
  change (allSupervisorInfo_ (started g a)) with a. rewrite Hfind; [done|]. by intros ->.
Qed.
Lemma loops_run now elapse f c plan m levels common override logEntry fuel g :
  (exists name dest, getCurrentTransitionName f c = Ok name /\ name <> APP_STATUS_UNKNOWN /\ getTransitionFinalStateName f c = Ok dest) -> command m = c ->
  quiet f (passes plan levels) (concat levels) g -> NoDup (concat levels) -> fits plan levels fuel -> (forall id, id ∈ concat levels -> (world g).1 id = script (plan id)) ->
  exists g', subsystemLoop now elapse serve askError common override logEntry fuel fuel true m 0 0 (map (map (fun id => (id, false))) levels) g = (Ok (Some tt), g') /\
    quiet f (passes plan levels) (concat levels) g' /\ (world g').2 = (world g).2 ++ numbered (broadcastCommandMessageIndex_ g) (passesSent plan m levels (passes plan levels) 0 0).
Proof.
  intros Ht Hm Hq Hnd [Hne Hsub Hwid Hf Hcnt] Hs. rewrite (start_levels plan levels Hne).
  assert (Hp : exists n, passes plan levels = S n) by (assert (H := passes_pos plan levels); destruct (passes plan levels); [lia|by eexists]). destruct Hp as [n Hn].
  assert (Hpc := iterations_pos plan levels (passes plan levels) 0).
  destruct (subsystemLoop_run now elapse f c (passes plan levels) Ht plan Hne m fuel Hm Hsub levels Hnd common override logEntry (le_n _) n 0 0 fuel g) as (g' & E & Hq' & Hlog & _); [lia|lia| |lia|exact Hwid|exact Hq| |].
  - rewrite <- Hn. exact Hcnt.
  - intros id Hid. rewrite remains_0. by apply Hs.
  - exists g'. split; [exact E|]. split; [exact Hq'|]. rewrite Hlog, Hn. reflexivity.
Qed.
(** C5: A broadcast without remote subsystems sends exactly what the supervisors ask
    for, in order, and ends: in each subsystem-iteration everyone is called, in
    each iteration those that asked for it, level by level of the priorities,
    each with its sub-iterations in a row; the index of iterations goes on over
    the subsystem-iterations, and the ids of the messages are consecutive, both
    printed as [int].  Nobody fails, every status has been heard, and no
    asynchronous error or breakpoint interrupts it ([quiet], [fits], [script]). *)
Theorem broadcast_sends_what_is_asked now elapse contexts gatewayId free common override logEntry plan m fuel levels g name dest :
  let c := command m in
  AllSupervisorInfo.levels (allSupervisorInfo_ g) contexts c (onlyLocal c) = levels ->
  knows contexts gatewayId (allSupervisorInfo_ g) -> NoDup (concat levels) ->
  quiet (theStateMachine_ g) (passes plan levels) (concat levels) g ->
  getCurrentTransitionName (theStateMachine_ g) c = Ok name -> name <> APP_STATUS_UNKNOWN -> getTransitionFinalStateName (theStateMachine_ g) c = Ok dest ->
  fits plan levels fuel -> (forall id, id ∈ concat levels -> (world g).1 id = script (plan id)) ->
  exists g', broadcastMessage now elapse serve askError common override logEntry contexts gatewayId free fuel m g = (Ok (Some tt), g') /\
    (world g').2 = (world g).2 ++ numbered (broadcastCommandMessageIndex_ g) (passesSent plan m levels (passes plan levels) 0 0) /\
    broadcastCommandStatus_ g' = "".
Proof.
  intros c Hlevels Hk Hnd Hq Hname Hun Hdest Hfits Hs.
  destruct (setGatewayStatus_run now contexts gatewayId free (stepped (set_status g "")) (allSupervisorInfo_ g) eq_refl Hk) as (a & Ea & Hord & Hfind).
  assert (Hni := gateway_not_commanded contexts gatewayId (allSupervisorInfo_ g) c (onlyLocal c) Hk).
  specialize (Hord c). rewrite Hlevels in Hord, Hni. clear Hlevels.
  assert (Hq6 := started_quiet _ _ _ gatewayId g a Hq Hni Hfind).
  destruct (loops_run now elapse (theStateMachine_ g) c plan m levels common override logEntry fuel (started g a)) as (g7 & E7 & Hq7 & Hlog7); [by exists name, dest|done|exact Hq6|exact Hnd|exact Hfits|exact Hs|].
  destruct (wrapUp_run _ _ _ c g7 Hq7) as (g8 & E8 & Hlog8).
  exists (ended g8). split; [|split; [|reflexivity]].
  - rewrite (broadcastMessage_start now elapse contexts gatewayId free common override logEntry m fuel g a levels (q_remotes _ _ _ _ Hq) (q_top _ _ _ _ Hq) Ea Hord).
    unfold andThen at 1. rewrite (bind_ok _ _ _ _ _ (guarded_returns _ _ _ _ _ _ _ _ _ _ _ E7 E8)). reflexivity.
  - change (world (ended g8)) with (world g8). rewrite Hlog8. exact Hlog7.
Qed.


(** *** An example

    A Halted Gateway and two front-end supervisors, of which 260 has a priority for
    Configure. *)
Definition heardFrom (a : All) (id : Z) : All :=
  match AllSupervisorInfo.setSupervisorStatus 0 true a id HALTED_STATE_NAME 100 "" [] 0 0 0 with Ok a => a | Throw _ => a end.
Definition exampleInfos : All := heardFrom (heardFrom AllSupervisorInfo.exampleAll 250) 260.
Definition exampleGateway (scripts : Z -> list request) : G :=
  mkGateway (set_current (machine "Gateway") "H"%char) (ProgressBar.construct ∅) false exampleInfos 0 "" true true 10 [] ∅ false 0 false "" 0 "" "" (scripts, []).
Definition exampleMessage : Message := mkMessage CONFIGURE_TRANSITION_NAME {["ConfigurationAlias" := "Test"]}.
(** 260 asks for a sub-iteration, for an iteration and for a subsystem-iteration. *)
Definition examplePlan (id : Z) : list (list nat) := if id =? 260 then [[1%nat; 0%nat]; [0%nat]] else [[0%nat]].
Definition exampleLevels : list (list Z) := [[260]; [250]].
Lemma example_levels : AllSupervisorInfo.levels exampleInfos AllSupervisorInfo.exampleContexts CONFIGURE_TRANSITION_NAME (onlyLocal CONFIGURE_TRANSITION_NAME) = exampleLevels.
Proof. vm_compute. reflexivity. Qed.
Lemma example_enabled : AllSupervisorInfo.enabled AllSupervisorInfo.exampleContexts =
  [AllSupervisorInfo.mkApp 200 true ∅; AllSupervisorInfo.mkApp 250 true ∅; AllSupervisorInfo.mkApp 270 true ∅; AllSupervisorInfo.mkApp 260 true {["Configure" := 3]}].
Proof. reflexivity. Qed.
Lemma example_knows : knows AllSupervisorInfo.exampleContexts 200 exampleInfos.
Proof.
  split; [vm_compute; reflexivity|vm_compute; by eexists| |].
  - unfold AllSupervisorInfo.all_known. apply Forall_forall. rewrite example_enabled. repeat constructor; vm_compute; by eexists.
  - unfold AllSupervisorInfo.priorities_in_range. apply Forall_forall. rewrite example_enabled.
    do 3 (constructor; [apply map_Forall_empty|]). constructor; [|constructor]. apply map_Forall_singleton. by split.
Qed.
Lemma example_quiet scripts n : (n <= 10)%nat -> quiet (set_current (machine "Gateway") "H"%char) n (concat exampleLevels) (exampleGateway scripts).
Proof.
  intros Hn. split; try reflexivity; [cbn; lia|]. intros id Hid. unfold heard.
  assert (Hf : Forall (heard (exampleGateway scripts)) [260; 250]) by (repeat constructor; unfold heard; vm_compute; (eexists; split_and!; [reflexivity|discriminate|by eexists])).
  rewrite Forall_forall in Hf. by apply Hf.
Qed.
Lemma example_fits : fits examplePlan exampleLevels 5.
Proof.
  split.
  - unfold examplePlan. intros id p. destruct (id =? 260); rewrite ?elem_of_cons, ?elem_of_nil; naive_solver.
  - intros id s j. unfold subsAt, passAt, examplePlan. destruct (id =? 260); destruct s as [|[|[|s]]], j as [|[|[|j]]]; cbn; lia.
  - intros [|[|s]] Hs; [cbn; lia..|]. change (passes examplePlan exampleLevels) with 2%nat in Hs. lia.
  - vm_compute. lia.
  - vm_compute. reflexivity.
Qed.
Lemma example_scripts id : id ∈ concat exampleLevels -> script (examplePlan id) = if id =? 260 then [AsksSub; AsksIteration; AsksSubsystem; IsDone] else [IsDone].
Proof. intros _. unfold examplePlan. by destruct (id =? 260). Qed.

Definition exampleTransition : Prop := exists name dest, getCurrentTransitionName (set_current (machine "Gateway") "H"%char) CONFIGURE_TRANSITION_NAME = Ok name /\
  name <> APP_STATUS_UNKNOWN /\ getTransitionFinalStateName (set_current (machine "Gateway") "H"%char) CONFIGURE_TRANSITION_NAME = Ok dest.
Lemma example_transition : exampleTransition.
Proof. exists "Configuring", CONFIGURED_STATE_NAME. split; [vm_compute; reflexivity|]. split; [discriminate|vm_compute; reflexivity]. Qed.
Lemma example_distinct : NoDup (concat exampleLevels).
Proof. cbn. repeat constructor; set_solver. Qed.
(** A message of the example, with the parameters added. *)
Definition exampleSent (l : list (string * string)) : Message := fold_left (fun m p => addParameter m p.1 p.2) l exampleMessage.
Lemma broadcast_sends_what_is_asked_witness :
  exists g', broadcastMessage (fun _ => 0) (fun _ g => g) serve askError "" "" (fun _ => "") AllSupervisorInfo.exampleContexts 200 true 5 exampleMessage (exampleGateway (fun id => script (examplePlan id))) = (Ok (Some tt), g') /\
    (world g').2 = [
      (260, exampleSent [("subsystemIterationIndex", "-1"); ("commandId", "0")]);
      (260, exampleSent [("subsystemIterationIndex", "-1"); ("subIterationIndex", "1"); ("commandId", "1")]);
      (250, exampleSent [("subsystemIterationIndex", "-1"); ("commandId", "2")]);
      (260, exampleSent [("subsystemIterationIndex", "-1"); ("iterationIndex", "1"); ("commandId", "3")]);
      (260, exampleSent [("subsystemIterationIndex", "-1"); ("iterationIndex", "2"); ("commandId", "4")]);
      (250, exampleSent [("subsystemIterationIndex", "-1"); ("iterationIndex", "2"); ("commandId", "5")])].
Proof.
  destruct example_transition as (name & dest & H1 & H2 & H3).
  destruct (broadcast_sends_what_is_asked (fun _ => 0) (fun _ g => g) AllSupervisorInfo.exampleContexts 200 true "" "" (fun _ => "") examplePlan exampleMessage 5 exampleLevels
    (exampleGateway (fun id => script (examplePlan id))) name dest example_levels example_knows example_distinct
    (example_quiet _ 2 ltac:(lia)) H1 H2 H3 example_fits) as (g' & E & Hlog & _); [reflexivity|].
  exists g'. split; [exact E|]. rewrite Hlog. vm_compute. reflexivity.
Defined.

(** ** Waiting for the remote subsystems *)

Section Remote.
Context {W : Type}.
Variable elapse : Z -> @Gateway W -> @Gateway W.
Variables (c dest : string) (it : Z).
Implicit Types g : @Gateway W.

Definition isDone (o : progressOf) : bool := match o with Done => true | _ => false end.
Definition asks (o : progressOf) : bool := match o with Requests _ => true | _ => false end.
(** Nothing more to wait for. *)
Definition settled (o : progressOf) : bool := match o with Skipped | Done => true | Requests i => i =? u32 (it + 1) | _ => false end.
(** A request that can be read, and is not one of the past. *)
Definition current g : Prop := Forall (fun r => match poll g c dest r with Unread => False | Requests i => u32 (it + 1) <= i | _ => True end) (remoteGatewayApps_ g).

(** What another look is for, at most [maxIterations] times if it is [Underway]. *)
Definition unfinished (i : Z) (o : progressOf) : Prop :=
  match o with Unread => True | Requests index => index < u32 (it + 1) | Underway => i <= maxIterations | _ => False end.

Lemma poll_same g g' r : broadcastIncludedRemoteGatewayNames_ g' = broadcastIncludedRemoteGatewayNames_ g -> poll g' c dest r = poll g c dest r.
Proof. intros H. unfold poll, isRemoteGatewayIncludedInBroadcast. by rewrite H. Qed.
Lemma pollOne_ok i p r g x g' : pollOne c dest it i p r g = (Ok x, g') ->
  x.2 = settled (poll g c dest r) /\
  g' = match poll g c dest r with Done => set_remotes g (markDone (fullName r) (remoteGatewayApps_ g)) | Requests _ => if x.2 then set_done g false (broadcastIterationsDone_ g) else g | _ => g end /\
  (x.2 = false -> unfinished i (poll g c dest r)).
Proof.
  unfold pollOne. rewrite (bind_ok (gets _) _ g g g) by done. unfold settled. destruct (poll g c dest r) eqn:Ho.
  - by intros [= <- <-].
  - rewrite (bind_ok (modify _) _ g tt (set_remotes g (markDone (fullName r) (remoteGatewayApps_ g)))) by done. by intros [= <- <-].
  - done.
  - cbv zeta. destruct (Z.ltb_spec index (u32 (it + 1))).
    + intros [= <- <-]. cbn [snd]. destruct (Z.eqb_spec index (u32 (it + 1))); [lia|done].
    + destruct (Z.ltb_spec (u32 (it + 1)) index); [done|]. rewrite (bind_ok (modify _) _ g tt (set_done g false (broadcastIterationsDone_ g))) by done.
      intros [= <- <-]. cbn [snd]. destruct (Z.eqb_spec index (u32 (it + 1))); [done|lia].
  - by intros [= <- <-].
  - cbv zeta. set (n := if _ =? 100 then _ else _). destruct (300 <? n); [done|]. set (u := if bool_decide _ then _ else _). destruct (2 <? u); [done|].
    destruct (Z.ltb_spec maxIterations i); [done|]. by intros [= <- <-].
Qed.

Definition markAll (done : RemoteGatewayInfo -> bool) (apps rest : list RemoteGatewayInfo) : list RemoteGatewayInfo :=
  fold_left (fun apps r => if done r then markDone (fullName r) apps else apps) rest apps.
Lemma pollAll_ok i o rest : forall p t g x g', (forall r, poll g c dest r = o r) -> pollAll c dest it i p t rest g = (Ok x, g') ->
  remaining t <= remaining x.2 /\ broadcastIncludedRemoteGatewayNames_ g' = broadcastIncludedRemoteGatewayNames_ g /\
  remoteGatewayApps_ g' = markAll (fun r => isDone (o r)) (remoteGatewayApps_ g) rest /\
  (remaining x.2 = remaining t -> Forall (fun r => settled (o r) = true) rest /\
     broadcastSubsystemIterationsDone_ g' = broadcastSubsystemIterationsDone_ g && negb (existsb (fun r => asks (o r)) rest)) /\
  (remaining t < remaining x.2 -> Exists (fun r => unfinished i (o r)) rest).
Proof.
  induction rest as [|r rest IH]; intros p t g x g' Ho H; cbn [pollAll] in H.
  - injection H as <- <-. cbn. rewrite andb_true_r. split_and!; try done; lia.
  - rewrite (bind_ok (gets _) _ g g g) in H by done. apply bind_inv in H as (y & g1 & E1 & E). apply pollOne_ok in E1 as (Hb & Hg1 & Hi). rewrite Ho in Hb, Hg1, Hi.
    assert (Hinc : broadcastIncludedRemoteGatewayNames_ g1 = broadcastIncludedRemoteGatewayNames_ g) by (rewrite Hg1; destruct (o r), y.2; done).
    apply IH in E as (H1 & H2 & H6 & H3 & H4); [|intros q; by rewrite (poll_same g)]. clear IH. unfold tally in H1, H3, H4. cbn [remaining] in H1, H3, H4.
    split; [destruct y.2; lia|]. split; [congruence|].
    split; [rewrite H6; unfold markAll; cbn [fold_left]; rewrite Hg1; by destruct (o r), y.2|]. split.
    + intros He. destruct y.2 eqn:Hy; [|lia]. destruct H3 as (H5 & H7); [lia|]. split; [by constructor|]. rewrite H7. cbn [existsb].
      rewrite Hg1. clear -Hb. destruct (o r); cbn; rewrite ?andb_false_r; done.
    + intros Hl. destruct y.2 eqn:Hy; [right; apply H4; lia|]. left. by apply Hi.
Qed.

(** Marking by name is marking, if the names are distinct. *)
Lemma markDone_map n apps : NoDup (map fullName apps) ->
  markDone n apps = map (fun r => if bool_decide (fullName r = n) then set_remote_done r true (doNotHaltWasCommandedHalt r) else r) apps.
Proof.
  unfold markDone. induction apps as [|r apps IH]; [done|]. intros Hnd. cbn [map] in Hnd. apply NoDup_cons in Hnd as [Hn Hnd]. specialize (IH Hnd). cbn [search map]. case_bool_decide as Hr.
  - cbn. f_equal. subst n. transitivity (map id apps); [by rewrite List.map_id|]. apply map_ext_in. intros q Hq. rewrite bool_decide_false; [done|].
    intros Hx. apply Hn. rewrite <- Hx. by apply list_elem_of_In, in_map.
  - rewrite <- IH. by destruct (search _ apps).
Qed.
Lemma markAll_map d rest : forall apps, NoDup (map fullName apps) ->
  markAll d apps rest = map (fun r => if existsb (fun q => d q && bool_decide (fullName r = fullName q)) rest then set_remote_done r true (doNotHaltWasCommandedHalt r) else r) apps.
Proof.
  unfold markAll. induction rest as [|q rest IH]; intros apps Hnd; cbn [fold_left existsb]; [symmetry; apply List.map_id|]. destruct (d q); cbn [andb orb].
  - rewrite IH, markDone_map by done || (rewrite markDone_map, List.map_map by done; erewrite map_ext; [exact Hnd|]; intros r; by case_bool_decide).
    rewrite List.map_map. apply map_ext. intros r. destruct (decide (fullName r = fullName q)) as [He|He].
    + rewrite !(bool_decide_true _ He). cbn [orb fullName set_remote_done]. by destruct (existsb _ _).
    + rewrite !(bool_decide_false _ He). done.
  - by apply IH.
Qed.

(** Everyone is done with the command, or takes no part, or asks for the next
    subsystem-iteration, which is then known. *)
Definition awaited g : Prop := asyncFailureReceived_ g = false /\
  Forall (fun r => match poll g c dest r with Skipped => True | Requests i => i = u32 (it + 1) /\ broadcastSubsystemIterationsDone_ g = false | _ => False end) (remoteGatewayApps_ g).
Definition distinctNames g : Prop := NoDup (map fullName (remoteGatewayApps_ g)).

Lemma poll_marked g r : poll g c dest (set_remote_done r true (doNotHaltWasCommandedHalt r)) = Skipped.
Proof. unfold poll. cbn. by rewrite orb_true_r. Qed.
Lemma markAll_awaited g g' o : distinctNames g -> (forall r, poll g' c dest r = o r) -> Forall (fun r => settled (o r) = true) (remoteGatewayApps_ g) ->
  remoteGatewayApps_ g' = markAll (fun r => isDone (o r)) (remoteGatewayApps_ g) (remoteGatewayApps_ g) ->
  broadcastSubsystemIterationsDone_ g' = broadcastSubsystemIterationsDone_ g && negb (existsb (fun r => asks (o r)) (remoteGatewayApps_ g)) ->
  asyncFailureReceived_ g' = false -> awaited g'.
Proof.
  intros Hnd Ho Hs Hm Hb Ha. split; [done|]. rewrite Hm, markAll_map by done. apply Forall_forall. intros r' (r & <- & Hr)%list_elem_of_In%in_map_iff.
  cbv beta. match goal with |- context [if ?b then _ else _] => destruct b eqn:He end; [by rewrite poll_marked|]. rewrite Ho. apply list_elem_of_In in Hr. rewrite Forall_forall in Hs. specialize (Hs r Hr).
  assert (Hd : isDone (o r) = false).
  { destruct (isDone (o r)) eqn:Hd; [|done]. assert (Hx : existsb (fun q => isDone (o q) && bool_decide (fullName r = fullName q)) (remoteGatewayApps_ g) = true); [|congruence].
    apply existsb_exists. exists r. split; [by apply list_elem_of_In|]. by rewrite Hd, bool_decide_true. }
  destruct (o r) eqn:Hor; try done. cbn in Hs. apply Z.eqb_eq in Hs. split; [done|]. rewrite Hb.
  assert (Hx : existsb (fun r => asks (o r)) (remoteGatewayApps_ g) = true) by (apply existsb_exists; exists r; split; [by apply list_elem_of_In|by rewrite Hor]).
  by rewrite Hx, andb_false_r.
Qed.

Lemma markAll_current g g' o rest : current g -> distinctNames g -> (forall r, poll g c dest r = o r) -> broadcastIncludedRemoteGatewayNames_ g' = broadcastIncludedRemoteGatewayNames_ g ->
  remoteGatewayApps_ g' = markAll (fun r => isDone (o r)) (remoteGatewayApps_ g) rest -> current g' /\ distinctNames g'.
Proof.
  intros Hc Hnd Ho Hi Hm. unfold current, distinctNames. rewrite Hm, markAll_map by done. split.
  - apply Forall_forall. intros r' (r & <- & Hr)%list_elem_of_In%in_map_iff. cbv beta. match goal with |- context [if ?b then _ else _] => destruct b end; [by rewrite poll_marked|].
    rewrite (poll_same g) by done. unfold current in Hc. rewrite Forall_forall in Hc. by apply Hc, list_elem_of_In.
  - rewrite List.map_map. erewrite map_ext; [exact Hnd|]. intros r. by destruct (existsb _ _).
Qed.

Hypothesis elapse_current : forall t g, current g -> distinctNames g -> current (elapse t g) /\ distinctNames (elapse t g).
Lemma pollLoop_run : forall fuel i p g, 3001 <= i + Z.of_nat fuel -> i <= maxIterations -> current g -> distinctNames g ->
  exists o g', pollLoop elapse fuel c dest it i p g = (o, g') /\ ((exists e, o = Throw e) \/ (o = Ok (Some tt) /\ awaited g')).
Proof using elapse_current.
  unfold maxIterations. induction fuel as [|fuel IH]; intros i p g Hf Hi Hc Hnd; [lia|]. cbn [pollLoop]. rewrite (bind_ok (gets _) _ g (remoteGatewayApps_ g) g) by done.
  destruct (pollAll c dest it (i + 1) p (mkTally 0 0 ("", "", 0)) (remoteGatewayApps_ g) g) as [[x|e] g1] eqn:E;
    [|rewrite (bind_throw _ _ _ _ _ E); do 2 eexists; split; [done|left; by eexists]].
  rewrite (bind_ok _ _ _ _ _ E). destruct (pollAll_ok (i + 1) (poll g c dest) _ _ _ _ _ _ (fun _ => eq_refl) E) as (H1 & H2 & H6 & H3 & H4). cbn [remaining] in H1, H3, H4.
  cbv zeta. destruct (Z.eqb_spec (remaining x.2) 0) as [Hz|Hz].
  - destruct (H3 Hz) as (H5 & H7). rewrite (bind_ok (mret _) _ g1 tt g1) by done. unfold checkForAsyncError. destruct (asyncFailureReceived_ g1) eqn:Ha.
    + rewrite (bind_throw _ _ g1 FsmException g1); [do 2 eexists; split; [done|left; by eexists]|]. rewrite (bind_ok (gets _) _ g1 true g1) by (unfold gets; by rewrite Ha). done.
    + rewrite (bind_ok _ _ g1 tt g1); [|rewrite (bind_ok (gets _) _ g1 false g1) by (unfold gets; by rewrite Ha); done]. exists (Ok (Some tt)), g1. split; [done|]. right. split; [done|].
      apply (markAll_awaited g g1 (poll g c dest)); try done. intros r. by apply poll_same.
  - assert (Hi2 : i + 1 <= 3000).
    { assert (Hx := H4 ltac:(lia)). apply Exists_exists in Hx as (r & Hr & Hu). unfold current in Hc. rewrite Forall_forall in Hc. specialize (Hc r Hr).
      unfold unfinished, maxIterations in Hu. destruct (poll g c dest r); try done; lia. }
    set (g2 := set_status g1 (waitText c it (i + 1) x.2)). rewrite (bind_ok _ _ g1 tt (elapse 2 g2)) by (rewrite (bind_ok (modify _) _ g1 tt g2) by done; done).
    destruct (markAll_current g g2 (poll g c dest) (remoteGatewayApps_ g)) as [Hc2 Hn2]; try done.
    destruct (elapse_current 2 g2 Hc2 Hn2) as [Hc3 Hn3]. set (g3 := elapse 2 g2) in *. unfold checkForAsyncError. destruct (asyncFailureReceived_ g3) eqn:Ha.
    + rewrite (bind_throw _ _ g3 FsmException g3); [do 2 eexists; split; [done|left; by eexists]|]. rewrite (bind_ok (gets _) _ g3 true g3) by (unfold gets; by rewrite Ha). done.
    + rewrite (bind_ok _ _ g3 tt g3); [|rewrite (bind_ok (gets _) _ g3 false g3) by (unfold gets; by rewrite Ha); done]. apply IH; try done; lia.
Qed.

End Remote.

(** C7: Waiting for the remote subsystems ends, within 3001 looks, if what they
    request can be read and is not for a past subsystem-iteration: with an
    exception, or with every included subsystem done with the command, out of it, or
    asking for the next subsystem-iteration, which then takes place. *)
Theorem remotes_are_awaited {W} (elapse : Z -> @Gateway W -> @Gateway W) m dest it fuel g :
  getTransitionFinalStateName (theStateMachine_ g) (command m) = Ok dest -> command m <> "Error" -> (3001 <= fuel)%nat ->
  current (command m) dest it g -> distinctNames g ->
  (forall t g, current (command m) dest it g -> distinctNames g -> current (command m) dest it (elapse t g) /\ distinctNames (elapse t g)) ->
  exists o g', broadcastMessageToRemoteGatewaysComplete elapse fuel m it g = (o, g') /\
    ((exists e, o = Throw e) \/ (o = Ok (Some tt) /\ awaited (command m) dest it g')).
Proof.
  intros Hd Hc Hf Hcur Hnd Hel. unfold broadcastMessageToRemoteGatewaysComplete. rewrite (bind_ok (gets _) _ g (theStateMachine_ g) g) by done.
  rewrite (bind_ok (lift _) _ g dest g) by (unfold lift; by rewrite Hd). rewrite bool_decide_false by done.
  apply pollLoop_run; try done. lia.
Qed.


(** Two remote subsystems that are configured after the first look. *)
Definition exampleRemote (name : string) (mode : FSM_ModeTypes) : RemoteGatewayInfo :=
  mkRemote name name "Launching Configure,Test" 0 "" "Configure,Test" "" "" "Test" mode true false false.
Definition exampleRemotes : @Gateway unit :=
  mkGateway (set_current (machine "Gateway") "H"%char) (ProgressBar.construct ∅) false exampleInfos 0 "" true true 10
    [exampleRemote "calo" Follow_FSM; exampleRemote "tracker" DoNotHalt] {["calo"; "tracker"]} false 0 false "" 0 "" "" tt.
Definition configured (r : RemoteGatewayInfo) : RemoteGatewayInfo :=
  mkRemote (fullName r) (remoteName r) CONFIGURED_STATE_NAME 100 "" (remoteCommand r) (fsmName r) (config_dump r) (selected_config_alias r) (fsm_mode r) (fsm_included r) (iterationsDone r) (doNotHaltWasCommandedHalt r).
Definition allConfigured (g : @Gateway unit) : @Gateway unit := set_remotes g (map configured (remoteGatewayApps_ g)).
Lemma no_request (g : @Gateway unit) c dest it r : remoteDetail r = "" -> match poll g c dest r with Unread => False | Requests i => u32 (it + 1) <= i | _ => True end.
Proof. intros Hd. unfold poll. rewrite Hd. change (StringExpansion.findIn _ _) with (@None nat). by repeat (match goal with |- context [if ?b then _ else _] => destruct b end). Qed.
Lemma remotes_are_awaited_witness :
  exists g', broadcastMessageToRemoteGatewaysComplete (fun _ => allConfigured) 3001 exampleMessage 0 exampleRemotes = (Ok (Some tt), g') /\
    awaited CONFIGURE_TRANSITION_NAME CONFIGURED_STATE_NAME 0 g'.
Proof.
  destruct (remotes_are_awaited (fun _ => allConfigured) exampleMessage CONFIGURED_STATE_NAME 0 3001 exampleRemotes) as (o & g' & E & H).
  - vm_compute. reflexivity.
  - discriminate.
  - lia.
  - repeat constructor; by apply no_request.
  - unfold distinctNames. cbn. repeat constructor; set_solver.
  - intros t g _ Hn. split.
    + unfold current. cbn. apply Forall_map, Forall_forall. intros r _. by apply no_request.
    + unfold distinctNames. cbn. rewrite List.map_map. exact Hn.
  - assert (Hr : (broadcastMessageToRemoteGatewaysComplete (fun _ => allConfigured) 3001 exampleMessage 0 exampleRemotes).1 = Ok (Some tt)) by (vm_compute; reflexivity).
    rewrite E in Hr. cbn in Hr. subst o. exists g'. split; [exact E|]. destruct H as [[e He]|[_ H]]; [discriminate|exact H].
Defined.

End Broadcast.
